(* ===== verification/_CoqProject ===== *)
-Q . S2P
Prelude.v
Float64.v
Dyadic.v
GoStrings.v
Calendar.v
Circuit.v
Retry.v
RateLimit.v
MemoryCache.v
Cron.v
Locks.v
EmailQueue.v
Base64.v
Hex.v
QueryString.v
Pagination.v
Session.v
Webhook.v
History.v
Scheduler.v
Threads.v
Hub.v
Runner.v
Pool.v
Feature.v
FeatureStore.v
Paths.v
Url.v
Utf8.v
HttpRetry.v
HttpWriter.v
HttpCache.v
Sender.v
Timeout.v
Errors.v
Strconv.v
Geo.v
Regex.v
Values.v
Rules.v
Ip.v
Config.v
Middleware.v
HttpTools.v
Server.v
App.v
Checksum.v
Formats.v
Messages.v
Validator.v
Storage.v
LocalStore.v
Sse.v
Broker.v
Plural.v
I18n.v
Negotiate.v
Search.v
SearchClients.v
LocaleData.v
LocaleFormat.v
AuditStore.v
AuditLogger.v
AuditHttp.v
Jwt.v
Refresh.v
Oauth.v
Password.v
Crypto.v
Dns01.v
Acme.v
Renewal.v
