(* ===== verification/Prelude.v ===== *)
(** * Verification of waffle

    Waffle ([README.md]) is a Go framework for web services: an application core
    and a pantry of independent packages.  This development models the packages of
    the pantry that carry state and decisions of their own, and proves what they
    promise to a service.  Each file models one component; the operations have
    the names of the source, with the type first where two types share a name.

    ** The parts

    The core ([config], [server], [app], [middleware], [router]):
    - [Config], durations, defaults and validation; [Server] ([server.go],
      [certrenewer.go]), starting, waiting for events and the redirect; [App]
      ([app.go]), the life of an application over its hooks; [Middleware], the
      stack of [router.New] with [logging], [metrics] and [httputil].

    The language and its library, which the other files compute with:
    - [Float64], [Dyadic], [GoStrings], [Utf8], [Strconv]: binary64 arithmetic and
      where it is exact, bytes, runes and the functions of [strings] and [strconv]; [Base64] and [Hex];
      [Paths]: [path] and [path/filepath]; [QueryString]: queries of [net/url],
      with [pantry/query] over them; [Regex]: the patterns of [regexp] that are
      used, matched by derivatives; [Calendar]: the Gregorian calendar;
      [HttpWriter]: the response writer of [net/http].
    - [Threads]: programs of locks, unlocks and atomic actions, their interleavings,
      and freedom from deadlock by a rank of the mutexes.  [Hub] and [Broker] are
      written in it.

    Resilience ([pantry/retry], [pantry/ratelimit], [pantry/cache]):
    - [Circuit] ([circuit.go]), with its callers as a step relation; [Retry]
      ([retry.go]), loops and backoffs; [RateLimit], the token bucket in floating
      point, by key, and its middleware; [MemoryCache], the [Cache] interface, the
      cache in memory and [GetOrSet]; [HttpRetry] ([retry/http.go]), the transport;
      [HttpCache] ([cache/middleware.go]); [Timeout] ([pantry/timeout]), the handler
      and its deadline as a step relation; [Errors] ([pantry/errors]).

    Jobs ([pantry/jobs]) and email ([pantry/email/queue.go]):
    - [Cron] (expressions, over [Calendar]), [Locks] (the [Locker] interface, in
      memory and over Redis, [Lock], [WithLock]), [History] (stores, statistics and
      monitor), [Scheduler] (one execution over lockers and history, then the
      registry and its goroutines), [Runner] (the queue of [jobs.go] and its
      workers), [Pool] ([pool.go]); [EmailQueue], the queue over any store and its
      workers.

    HTTP and messages:
    - [Pagination], [Session], [Url] (return URLs), [Webhook] (receiving and
      routing) and [Sender] ([pantry/webhook/sender.go], sending, with the batches as
      a step relation), [Hub] ([pantry/websocket/hub.go]), [Sse] and [Broker]
      ([pantry/sse]).
    - [Search] and [SearchClients] ([pantry/search]): queries, what they mean, and
      what is sent to Elasticsearch and Meilisearch; [Geo] ([pantry/geo]):
      geohashes; [HttpTools]: [pantry/requestid], [pantry/httpnav] and
      [pantry/fileserver].
    - [Dns01], [Acme] and [Renewal] ([src/server/acmedns.go]): names and records of
      the DNS-01 challenge, the manager that obtains certificates over a file
      system and the services of Let's Encrypt and Route 53, and its callers.

    Values:
    - [Values], [Rules], [Ip], [Checksum], [Formats], [Messages] and [Validator]
      model [pantry/validate]: values as [reflect] shows them, the rules, what they
      accept, the messages and the walk over a struct.
    - [Feature] and [FeatureStore] model [pantry/feature]; [Storage] and
      [LocalStore] model [pantry/storage] in memory and on a file system.
    - [Plural], [I18n], [Negotiate], [LocaleData] and [LocaleFormat] model
      [pantry/i18n]: plural forms, bundles, the language of a request, the table of
      locales and the formats of numbers, dates and lists.

    Security:
    - [AuditStore], [AuditLogger] and [AuditHttp] model [pantry/audit]: stores, the
      logger with its goroutines, the middleware.
    - [Jwt], [Refresh] and [Oauth] model [pantry/auth]: tokens, their rotation by
      concurrent requests, the OAuth2 sign-in with its states and sessions, API
      keys; [Password] and [Crypto] model [pantry/crypto].

    Components meet at interfaces, which are classes here, with laws: caches,
    lockers, histories, stores of emails, sessions, flags, audit events and refresh
    tokens.  A client ([GetOrSet], [WithLock], [executeJob], the managers) is proved
    over the class and the implementations are instances.  [Scheduler] composes
    cron expressions, lockers and histories; [Messages], [Rules] and [Regex] make up
    [Validator]; [Plural] is the table of [I18n]; [AuditLogger] feeds a store of
    [AuditStore] and is fed by [AuditHttp].

    ** How Go is modelled

    An [int] is a [Z] with its wrap-around written where the code can reach it
    ([int_add], [int_sub], [int_mul], [wrap64]).  A [time.Time] is its nanoseconds
    since 1970 and a [time.Duration] its nanoseconds; a location has a fixed
    offset, so that daylight saving is not modelled.  A call returns the state it
    leaves with its result; errors are values ([result], [option]), and where a
    file says so [None] is a panic.  Every operation that reads the clock takes the
    time as an argument, and so do the random source, the order in which a map is
    ranged over, and the outcome of a call to the network.  A critical section of a
    mutex is one step where nothing in it can wait; where callers interleave
    ([Circuit], [Locks], [EmailQueue], [Scheduler], [Runner], [Pool], [Hub],
    [Broker], [AuditLogger], [Refresh], [Oauth], [Timeout], [Renewal], [Sender]) the system is
    a step relation.
    Objects that code shares by pointer and writes through are addresses in a store
    ([History], [Messages], [Storage], [AuditLogger], [Errors]).  Code outside the repository
    (Redis, SMTP, JSON, ciphers and HMACs, the order of a database column) is an
    argument, with its documented behaviour as hypotheses or laws, and each theorem
    that uses them is applied to a concrete instance.

    Loops that are not structural run under [iter_until], with a bound written
    as a binary number, or over an explicit list of rounds; [Next_total] proves
    that the search of [Cron] ends within its bound for every expression, and
    [stepValues] has an iteration for each value below the maximum and for the
    wrap of the index.  Where a goroutine can run for ever the theorems are about
    every finite run, and those that say that it comes to rest bound its steps by a
    measure.

    ** What is shown

    - The core: a loaded configuration is valid; the stages of an application come
      in order, all of them or up to the one that fails, and its shutdown hook not
      after a signal; a server that returns leaves nothing that takes connections,
      and after a graceful stop no request either; the redirect to HTTPS injects
      nothing; a valid configuration stops the router exactly where compression has
      the level 0.
    - Resilience: the reachable states of the breaker are well formed and refine
      the three-state automaton; retrying ends, calls as often as configured and
      waits within bounds; the limiter is the integer token bucket on whole
      seconds; cleanup is invisible but for [Size]; [GetOrSet] computes once; closing
      can deadlock; a clean cached response is replayed; every attempt of a request
      reads the whole body; a request that times out has one response; an internal
      error does not show.
    - Jobs: [Next] is the first firing and always returns; the parser reads what
      the fields say; a Redis lock is exclusive for its lease under every
      interleaving; [WithLock] holds and releases; in a run of the whole scheduler,
      the goroutine of a cron job executes when it is due, in order and never early;
      the runner loses no job, tries it a bounded number of
      times and comes to rest; the pool runs no more than its capacity.
    - Email: one worker sends an email at most as often as it was enqueued, and
      tries it at most as often as it has attempts left (at least once); [Dequeue] takes the best email for every map order; two workers can send
      twice.
    - Pages, sessions, webhooks: following the next links visits every row once,
      where no tie of the column is across the end of a page; cursors round-trip; a request never chooses its session's ID; no handler runs on a
      body the header does not sign; a batch of webhooks is sent with bounded retries
      and returns; a return URL stays on its host.
    - Hub and broker: operations cannot deadlock among themselves unless something
      is closed, members and rooms stay in step; a client reads back the events
      written that have data, in order, and nothing of one cut off.
    - Validation, flags, storage: [Struct] reports exactly the rules that do not
      hold; check digits detect single errors; raising a percentage takes a flag
      from nobody; the manager stays in step with its store; no path leaves the
      root of a storage, and a [Put] is all or nothing.
    - Queries and places: a built query means what the builder says; the requests
      have a bounded number of attempts; the coordinates of a geohash are those of
      its cell, exactly.
    - Certificates: the deletion of every confirmed challenge record is sent, so
      that only an error of Route 53 leaves one behind; one caller renews and
      every caller returns; a registration that failed is forgotten.
    - Languages: the plural functions follow the rules in their comments; a bundle
      stays well formed; formatted numbers read back.
    - Audit: recorded queries hide what is sensitive; closing the logger puts every
      accepted event through the hooks and the store, once.
    - Authentication: a token is accepted exactly when it is authentic and within
      its times; a rotated refresh token never comes back; a state lets one callback
      pass; hashes of passwords round-trip and verify.

    Where the code does not do what it means to, the theorem states what it does
    and its comment says so; the other theorems of a file are the lemmas of its
    component.

    ** What is not modelled

    - Adapters over clients of remote services: the stores over Redis, the cloud
      storages, push notifications, message queues and databases.
      Their state is remote, and what is left is the shape of requests.
    - The OAuth2 providers: endpoints and the decoding of profiles, one file each;
      the flow they share is [Oauth].
    - Routing itself (chi), the writing of log lines and metrics (zap, Prometheus),
      and where the values of a configuration come from (viper).
    - Writers of PDF and Excel files, email templates, code generation, commands
      and the Windows service.
    - Small helpers: the folding of text, time zones, messages of WebSockets,
      profiling endpoints, embedded assets.  Within modelled files, what a file
      leaves out is said at its top. *)

From Stdlib Require Export ZArith Lia ZifyBool.
From stdpp Require Export base tactics option list strings gmap fin_maps numbers.

Declare Scope waffle_scope.
Delimit Scope waffle_scope with waffle.
#[global] Open Scope Z_scope.

(** * Go's results and errors *)

(** A Go call that returns [(T, error)]: the value when the error is nil, the
    error otherwise.  A call that returns only [error] returns [option E]. *)
Inductive result (E A : Type) : Type :=
| Ok (a : A)
| Err (e : E).
Arguments Ok {E A} _.
Arguments Err {E A} _.

Definition result_bind {E A B : Type} (r : result E A) (k : A -> result E B) : result E B :=
  match r with
  | Ok a => k a
  | Err e => Err e
  end.

Notation "'try!' x ':=' r 'in' k" := (result_bind r (fun x => k))
  (at level 10, x pattern, r at level 100, k at level 200) : waffle_scope.
#[global] Open Scope waffle_scope.

(** * Machine integers

    Go's [int] and [int64] are the two's complement 64-bit integers.  A value
    is a [Z]; [wrap64] is the wrap-around of an operation's exact result. *)

Definition min_int64 : Z := -9223372036854775808.
Definition max_int64 : Z := 9223372036854775807.
Definition in_int64 (z : Z) : bool := (min_int64 <=? z) && (z <=? max_int64).
Definition wrap64 (z : Z) : Z :=
  (z + 9223372036854775808) mod 18446744073709551616 - 9223372036854775808.

Definition int_add (x y : Z) : Z := wrap64 (x + y).
Definition int_sub (x y : Z) : Z := wrap64 (x - y).
Definition int_mul (x y : Z) : Z := wrap64 (x * y).

Lemma wrap64_id z : in_int64 z = true -> wrap64 z = z.
Proof.
  unfold in_int64, min_int64, max_int64, wrap64. intros H.
  rewrite Z.mod_small; lia.
Qed.

Lemma wrap64_range z : in_int64 (wrap64 z) = true.
Proof.
  unfold in_int64, min_int64, max_int64, wrap64.
  pose proof (Z.mod_pos_bound (z + 9223372036854775808) 18446744073709551616). lia.
Qed.

(** * Time

    A [time.Time] is an instant, in nanoseconds since the Unix epoch (the
    monotonic reading and the location are left out; the cron component adds
    the location back).  A [time.Duration] is an [int64] of nanoseconds. *)

Abbreviation Time := Z (only parsing).
Abbreviation Duration := Z (only parsing).

Definition Nanosecond : Duration := 1.
Definition Microsecond : Duration := 1000.
Definition Millisecond : Duration := 1000000.
Definition Second : Duration := 1000000000.
Definition Minute : Duration := 60000000000.
Definition Hour : Duration := 3600000000000.

(** January 1, year 1, 00:00:00 UTC: the zero [time.Time]. *)
Definition zero_time : Time := -62135596800 * Second.

(** [time.Unix(ts, 0)]: the seconds since year 1 wrap around. *)
Definition time_Unix (ts : Z) : Time := (wrap64 (ts + 62135596800) - 62135596800) * Second.

(** [t.Sub u] saturates at the ends of [int64]; [time.Since t] is
    [time.Now().Sub(t)]. *)
Definition time_Sub (t u : Time) : Duration := Z.min max_int64 (Z.max min_int64 (t - u)).
Definition time_Add (t : Time) (d : Duration) : Time := t + d.
Definition time_After (t u : Time) : bool := u <? t.
Definition time_Before (t u : Time) : bool := t <? u.

Lemma time_Sub_exact t u : in_int64 (t - u) = true -> time_Sub t u = t - u.
Proof. unfold in_int64, time_Sub. lia. Qed.

Lemma time_Sub_ge t u d : d <= max_int64 -> min_int64 < d -> d <= time_Sub t u <-> d <= t - u.
Proof. unfold time_Sub. lia. Qed.

(** * Loops

    [iter_until n f s] runs the loop body [f] at most [n] times from [s]:
    [inl] goes on, [inr] leaves the loop.  The bound is binary, so that a bound
    in the millions costs nothing when the loop leaves early. *)

Fixpoint iter_until {S R : Type} (n : positive) (f : S -> S + R) (s : S) : S + R :=
  match n with
  | xH => f s
  | xO n =>
      match iter_until n f s with
      | inl s => iter_until n f s
      | inr r => inr r
      end
  | xI n =>
      match f s with
      | inl s =>
          match iter_until n f s with
          | inl s => iter_until n f s
          | inr r => inr r
          end
      | inr r => inr r
      end
  end.

Section iter_until.
Context {S R : Type} (f : S -> S + R) (I : S -> Prop) (measure : S -> Z) (Q : R -> Prop).
Hypothesis f_next : forall s s', I s -> f s = inl s' -> I s' /\ measure s' < measure s.
Hypothesis f_done : forall s r, I s -> f s = inr r -> Q r.

Lemma iter_until_run n s :
  I s ->
  match iter_until n f s with
  | inl s' => I s' /\ measure s' + Z.pos n <= measure s
  | inr r => Q r
  end.
Proof.
  revert s. induction n as [n IH|n IH|]; intros s Hs; simpl.
  - destruct (f s) as [s1|r] eqn:H1; [|eauto].
    destruct (f_next _ _ Hs H1) as [Hs1 Hm1]. specialize (IH s1 Hs1) as H2.
    destruct (iter_until n f s1) as [s2|r]; [|done]. destruct H2 as [Hs2 Hm2].
    specialize (IH s2 Hs2) as H3. destruct (iter_until n f s2) as [s3|r]; [|done].
    destruct H3. split; [done|lia].
  - specialize (IH s Hs) as H2.
    destruct (iter_until n f s) as [s2|r]; [|done]. destruct H2 as [Hs2 Hm2].
    specialize (IH s2 Hs2) as H3. destruct (iter_until n f s2) as [s3|r]; [|done].
    destruct H3. split; [done|lia].
  - destruct (f s) as [s1|r] eqn:H1; [|eauto]. destruct (f_next _ _ Hs H1). split; [done|lia].
Qed.

(** With more iterations than the measure allows, the loop is left. *)
Lemma iter_until_done n s :
  I s -> (forall s', I s' -> 0 <= measure s') -> measure s < Z.pos n ->
  exists r, iter_until n f s = inr r /\ Q r.
Proof.
  intros Hs Hpos Hn. pose proof (iter_until_run n s Hs) as H.
  destruct (iter_until n f s) as [s'|r]; [|eauto].
  destruct H as [Hs' Hm]. specialize (Hpos s' Hs'). lia.
Qed.
End iter_until.

(** * Lists *)

Section filter.
Context {A : Type} (P : A -> Prop) `{forall x, Decision (P x)}.

Lemma filter_none (l : list A) : (forall x, x ∈ l -> ~ P x) -> filter P l = [].
Proof.
  induction l as [|x l IH]; intros Hl; [done|]. rewrite filter_cons, decide_False.
  - apply IH. intros y Hy. apply Hl. by right.
  - apply Hl. by left.
Qed.

Lemma filter_all (l : list A) : (forall x, x ∈ l -> P x) -> filter P l = l.
Proof.
  induction l as [|x l IH]; intros Hl; [done|]. rewrite filter_cons, decide_True.
  - f_equal. apply IH. intros y Hy. apply Hl. by right.
  - apply Hl. by left.
Qed.

Lemma filter_rev (l : list A) : filter P (rev l) = rev (filter P l).
Proof.
  induction l as [|x l IH]; [done|]. cbn [rev].
  rewrite list.filter_app, IH, !filter_cons, filter_nil.
  destruct (decide (P x)); cbn [rev]; [done|by rewrite app_nil_r].
Qed.
End filter.

Lemma filter_filter_idem {A : Type} (f : A -> bool) l :
  List.filter f (List.filter f l) = List.filter f l.
Proof. induction l as [|x l IH]; [done|]. cbn. destruct (f x) eqn:Hx; [|done]. cbn. rewrite Hx. by f_equal. Qed.

Lemma Forall2_impl_elem {A B : Type} (P Q : A -> B -> Prop) l k :
  Forall2 P l k -> (forall x y, x ∈ l -> y ∈ k -> P x y -> Q x y) -> Forall2 Q l k.
Proof.
  induction 1 as [|x y l k Hxy H IH]; intros Himpl; constructor.
  - apply Himpl; [left|left|done].
  - apply IH. intros x' y' Hx Hy. apply Himpl; by right.
Qed.

Lemma Forall2_rev {A B : Type} (P : A -> B -> Prop) l k :
  Forall2 P l k -> Forall2 P (rev l) (rev k).
Proof. induction 1; [done|]. cbn. apply Forall2_app; [done|]. by constructor. Qed.

Lemma omap_eq {A B : Type} (f g : A -> option B) (l : list A) :
  (forall x, f x = g x) -> omap f l = omap g l.
Proof. intros H. induction l as [|x l IH]; cbn; [done|]. rewrite H. destruct (g x); [by f_equal|done]. Qed.

Lemma sum_le {A : Type} (f g : A -> nat) l :
  (forall x, (f x <= g x)%nat) -> (sum_list_with f l <= sum_list_with g l)%nat.
Proof. intros Hle. induction l as [|x l IH]; cbn; [done|]. specialize (Hle x). lia. Qed.

Lemma sum_insert {A : Type} (f : A -> nat) l i x y :
  l !! i = Some x -> (sum_list_with f (<[i := y]> l) + f x = sum_list_with f l + f y)%nat.
Proof.
  revert i. induction l as [|z l IH]; intros [|i] Hi; simplify_eq/=; [lia|]. specialize (IH i Hi). lia.
Qed.

Lemma sum_delete {A : Type} (f : A -> nat) l i x :
  l !! i = Some x -> (sum_list_with f (delete i l) + f x = sum_list_with f l)%nat.
Proof.
  revert i. induction l as [|z l IH]; intros [|i] Hi; simplify_eq/=; [lia|]. specialize (IH i Hi). lia.
Qed.

Lemma fmap_delete {A B : Type} (f : A -> B) (l : list A) i : f <$> delete i l = delete i (f <$> l).
Proof. revert i. induction l as [|x l IH]; intros [|i]; cbn; [done..|]. by f_equal. Qed.

(** * Automation *)

(** Splits the boolean tests and matches of the goal and of the hypotheses and
    closes the arithmetic. *)
Ltac split_ifs :=
  repeat match goal with
  | |- context [if ?b then _ else _] => destruct b eqn:?
  | H : context [if ?b then _ else _] |- _ => destruct b eqn:?
  end.

Create HintDb waffle discriminated.
#[export] Hint Resolve wrap64_range : waffle.
