(* ===== verification/Float64.v ===== *)
(** * Go's [float64]

    IEEE 754 binary64 through the Standard Library's [SpecFloat]: the
    operations the program uses, with the round-to-nearest-even of Go, and the
    conversions between [float64] and the integers. *)

From Stdlib Require Import Floats.SpecFloat.
From S2P Require Import Prelude.

Abbreviation float64 := spec_float (only parsing).

Definition f64_prec : Z := 53.
Definition f64_emax : Z := 1024.

(** [float64(z)] for an integer [z]. *)
Definition f64_of_int (z : Z) : float64 := binary_normalize f64_prec f64_emax z 0 false.

Definition f64_add (x y : float64) : float64 := SFadd f64_prec f64_emax x y.
Definition f64_sub (x y : float64) : float64 := SFsub f64_prec f64_emax x y.
Definition f64_mul (x y : float64) : float64 := SFmul f64_prec f64_emax x y.
Definition f64_div (x y : float64) : float64 := SFdiv f64_prec f64_emax x y.
Definition f64_lt (x y : float64) : bool := SFltb x y.
Definition f64_le (x y : float64) : bool := SFleb x y.
Definition f64_eq (x y : float64) : bool := SFeqb x y.

Definition f64_is_nan (x : float64) : bool := match x with S754_nan => true | _ => false end.

(** The integer part, truncated toward zero. *)
Definition f64_trunc (x : float64) : option Z :=
  match x with
  | S754_zero _ => Some 0
  | S754_finite s m e =>
      let a := match e with
               | Zneg p => Z.pos m / 2 ^ Z.pos p
               | _ => Z.pos m * 2 ^ e
               end in
      Some (if s then - a else a)
  | _ => None
  end.

(** [int64(x)].  The language leaves the result implementation-dependent when
    the truncated value does not fit, so that case is the argument [oob]. *)
Definition f64_to_int64 (oob : float64 -> Z) (x : float64) : Z :=
  match f64_trunc x with
  | Some z => if in_int64 z then z else oob x
  | None => oob x
  end.

(** Constants of the source: the nearest binary64 values. *)
Definition f64_2 : float64 := f64_of_int 2.
Definition f64_1 : float64 := f64_of_int 1.
Definition f64_0_1 : float64 := f64_div (f64_of_int 1) (f64_of_int 10).
Definition f64_1_618 : float64 := f64_div (f64_of_int 1618) (f64_of_int 1000).

(** ** Comparisons *)

(** When [y < x] fails and neither is a NaN, [x <= y]. *)
Lemma f64_le_not_lt x y :
  f64_is_nan x = false -> f64_is_nan y = false -> f64_lt y x = false -> f64_le x y = true.
Proof.
  unfold f64_le, f64_lt, SFleb, SFltb, SFcompare.
  destruct x as [[]|[]| |[] mx ex], y as [[]|[]| |[] my ey]; simpl; try done;
    intros _ _; rewrite (Z.compare_antisym ex ey);
    destruct (ex ?= ey) eqn:He; simpl; try done;
    change (Pos.compare_cont Eq) with Pos.compare;
    rewrite ?(Pos.compare_antisym mx my);
    destruct (mx ?= my)%positive eqn:Hm; simpl; done.
Qed.

Lemma f64_le_refl x : f64_is_nan x = false -> f64_le x x = true.
Proof.
  unfold f64_le, SFleb, SFcompare. destruct x as [[]|[]| |[] m e]; simpl; try done;
    intros _; rewrite Z.compare_refl; change (Pos.compare_cont Eq) with Pos.compare;
    by rewrite Pos.compare_refl.
Qed.

(** ** Integers below 2^53 are exact

    [canon n] is the canonical binary64 of an integer [0 < n < 2^53]: its
    mantissa has 53 bits. *)

Definition exact_int (n : Z) : Prop := 0 <= n < 2 ^ 53.

(** [n * 2 ^ -k], for a positive [n]. *)
Definition dyad (n k : Z) : float64 :=
  S754_finite false (Z.to_pos (n * 2 ^ (52 - Z.log2 n))) (Z.log2 n - 52 - k).

Definition canon (n : Z) : float64 :=
  S754_finite false (Z.to_pos (n * 2 ^ (52 - Z.log2 n))) (Z.log2 n - 52).

Lemma canon_dyad n : canon n = dyad n 0.
Proof. unfold canon, dyad. by rewrite Z.sub_0_r. Qed.

Lemma digits2_pos_log2 p : Z.pos (digits2_pos p) = Z.log2 (Z.pos p) + 1.
Proof.
  induction p as [p IH|p IH|]; [| |done]; cbn [digits2_pos]; rewrite Pos2Z.inj_succ, IH.
  - rewrite (Pos2Z.inj_xI p), Z.log2_succ_double; lia.
  - rewrite (Pos2Z.inj_xO p), Z.log2_double; lia.
Qed.

Lemma iter_xO p d : Z.pos (Pos.iter xO p d) = Z.pos p * 2 ^ Z.pos d.
Proof.
  induction d as [|d IH] using Pos.peano_ind.
  - cbn. lia.
  - rewrite Pos.iter_succ, Pos2Z.inj_xO, IH, Pos2Z.inj_succ, Z.pow_succ_r; lia.
Qed.

Lemma iter_pos_nat {A : Type} (f : A -> A) d x :
  @SpecFloat.iter_pos A f d x = Nat.iter (Pos.to_nat d) f x.
Proof.
  revert x. induction d as [d IH|d IH|]; intros x; cbn [SpecFloat.iter_pos]; rewrite ?IH; [| |done].
  - rewrite Pos2Nat.inj_xI. replace (S (2 * Pos.to_nat d)) with
      (S (Pos.to_nat d + Pos.to_nat d))%nat by lia.
    by rewrite Nat.iter_succ, Nat.iter_add, !Nat.iter_swap.
  - rewrite Pos2Nat.inj_xO. replace (2 * Pos.to_nat d)%nat with
      (Pos.to_nat d + Pos.to_nat d)%nat by lia. by rewrite Nat.iter_add.
Qed.

Lemma iter_shr_exact d m :
  0 < m ->
  @SpecFloat.iter_pos _ shr_1 d (Build_shr_record (m * 2 ^ Z.pos d) false false) =
  Build_shr_record m false false.
Proof.
  intros Hm. rewrite iter_pos_nat, <- (positive_nat_Z d).
  generalize (Pos.to_nat d) as n. clear d. intros n. induction n as [|n IH].
  - cbn. by rewrite Z.mul_1_r.
  - rewrite Nat.iter_succ_r, Nat2Z.inj_succ, Z.pow_succ_r by lia.
    replace (m * (2 * 2 ^ Z.of_nat n)) with (2 * (m * 2 ^ Z.of_nat n)) by lia.
    assert (0 < m * 2 ^ Z.of_nat n) as Hpos
      by (apply Z.mul_pos_pos; [done | apply Z.pow_pos_nonneg; lia]).
    destruct (m * 2 ^ Z.of_nat n) as [|q|q]; [lia| |lia].
    exact IH.
Qed.

(** Rounding an integer that is given with trailing zero bits. *)
Lemma fexp_int l k : 0 <= l < 53 -> 0 <= k <= 900 -> fexp f64_prec f64_emax (l + 1 - k) = l - 52 - k.
Proof. unfold fexp, emin, f64_prec, f64_emax. lia. Qed.

Lemma canon_pos n : 0 < n < 2 ^ 53 -> 0 < n * 2 ^ (52 - Z.log2 n).
Proof. intros Hn. apply Z.mul_pos_pos; [lia|]. apply Z.pow_pos_nonneg; [lia|].
  assert (Z.log2 n < 53) by (apply Z.log2_lt_pow2; lia). lia. Qed.

Lemma round_aux_dyad n k ez (d : Z) :
  0 < n < 2 ^ 53 -> 0 <= k <= 900 -> 0 <= d -> ez = Z.log2 n - 52 - d - k ->
  binary_round_aux f64_prec f64_emax false (n * 2 ^ (52 - Z.log2 n) * 2 ^ d) ez loc_Exact = dyad n k.
Proof.
  intros Hn Hk Hd ->. pose proof (canon_pos n Hn) as Hp.
  assert (0 <= Z.log2 n < 53) as Hl
    by (split; [apply Z.log2_nonneg | apply Z.log2_lt_pow2; lia]).
  set (m := n * 2 ^ (52 - Z.log2 n)) in *.
  assert (Z.log2 m = 52) as Hm
    by (subst m; rewrite Z.log2_mul_pow2; lia).
  assert (forall z, 0 < z -> Zdigits2 z = Z.log2 z + 1) as Hdig
    by (intros [|p|p] ?; [lia|apply digits2_pos_log2|lia]).
  unfold binary_round_aux, shr_fexp.
  rewrite Hdig by (apply Z.mul_pos_pos; [lia | apply Z.pow_pos_nonneg; lia]).
  rewrite Z.log2_mul_pow2, Hm by lia.
  replace (d + 52 + 1 + (Z.log2 n - 52 - d - k)) with (Z.log2 n + 1 - k) by lia.
  replace (52 + d + 1 + (Z.log2 n - 52 - d - k)) with (Z.log2 n + 1 - k) by lia.
  rewrite fexp_int by lia.
  replace (Z.log2 n - 52 - k - (Z.log2 n - 52 - d - k)) with d by lia.
  assert (shr (shr_record_of_loc (m * 2 ^ d) loc_Exact) (Z.log2 n - 52 - d - k) d =
          (Build_shr_record m false false, Z.log2 n - 52 - k)) as ->.
  { unfold shr. destruct d as [|d|d]; [| |lia].
    - cbn [shr_record_of_loc]. rewrite Z.pow_0_r, Z.mul_1_r. f_equal. lia.
    - cbn [shr_record_of_loc]. rewrite iter_shr_exact by lia. f_equal. lia. }
  cbn [shr_m loc_of_shr_record round_nearest_even]. rewrite Hdig, Hm by lia.
  replace (52 + 1 + (Z.log2 n - 52 - k)) with (Z.log2 n + 1 - k) by lia.
  rewrite fexp_int, Z.sub_diag by lia. unfold shr. cbn [shr_record_of_loc shr_m].
  unfold dyad. fold m. destruct m as [|p|p]; [lia| |lia].
  rewrite (proj2 (Z.leb_le _ _)); [done|]. unfold f64_emax, f64_prec. lia.
Qed.

Lemma normalize_dyad n j k :
  0 < n < 2 ^ 53 -> 0 <= j <= 1000 -> 0 <= k <= 900 ->
  binary_normalize f64_prec f64_emax (n * 2 ^ j) (- j - k) false = dyad n k.
Proof.
  intros Hn Hj Hk.
  assert (0 <= Z.log2 n < 53) as Hl
    by (split; [apply Z.log2_nonneg | apply Z.log2_lt_pow2; lia]).
  assert (0 < n * 2 ^ j) as Hp
    by (apply Z.mul_pos_pos; [lia | apply Z.pow_pos_nonneg; lia]).
  assert (Z.log2 (n * 2 ^ j) = Z.log2 n + j) as Hlog by (rewrite Z.log2_mul_pow2; lia).
  remember (n * 2 ^ j) as q eqn:Hq. destruct q as [|p|p]; [lia| |lia].
  cbn [binary_normalize]. unfold binary_round.
  rewrite digits2_pos_log2, Hlog.
  replace (Z.log2 n + j + 1 + (- j - k)) with (Z.log2 n + 1 - k) by lia.
  rewrite fexp_int by lia. unfold shl_align.
  destruct (Z.log2 n - 52 - k - (- j - k)) as [|d|d] eqn:Hd.
  - replace (Z.pos p) with (n * 2 ^ (52 - Z.log2 n) * 2 ^ 0)
      by (rewrite Hq, Z.pow_0_r; replace (52 - Z.log2 n) with j by lia; lia).
    apply round_aux_dyad; lia.
  - replace (Z.pos p) with (n * 2 ^ (52 - Z.log2 n) * 2 ^ Z.pos d)
      by (rewrite Hq, <- Z.mul_assoc, <- Z.pow_add_r by lia; do 2 f_equal; lia).
    apply round_aux_dyad; lia.
  - replace (Z.pos (Pos.iter xO p d)) with (n * 2 ^ (52 - Z.log2 n) * 2 ^ 0)
      by (rewrite iter_xO, Hq, <- !Z.mul_assoc, <- !Z.pow_add_r by lia; do 2 f_equal; lia).
    apply round_aux_dyad; lia.
Qed.

Lemma normalize_canon n j :
  0 < n < 2 ^ 53 -> 0 <= j <= 1000 ->
  binary_normalize f64_prec f64_emax (n * 2 ^ j) (- j) false = canon n.
Proof. intros Hn Hj. rewrite <- (Z.sub_0_r (- j)), canon_dyad. by apply normalize_dyad. Qed.

Lemma round_aux_canon n ez (d : Z) :
  0 < n < 2 ^ 53 -> 0 <= d -> ez = Z.log2 n - 52 - d ->
  binary_round_aux f64_prec f64_emax false (n * 2 ^ (52 - Z.log2 n) * 2 ^ d) ez loc_Exact = canon n.
Proof. intros Hn Hd ->. rewrite canon_dyad. apply round_aux_dyad; lia. Qed.

Lemma f64_of_int_canon n : 0 < n < 2 ^ 53 -> f64_of_int n = canon n.
Proof.
  intros Hn. pose proof (normalize_canon n 0 Hn ltac:(lia)) as H.
  by rewrite Z.pow_0_r, Z.mul_1_r in H.
Qed.

(** Aligning a canonical number to the exponent [-j]. *)
Lemma shl_align_dyad n k j :
  0 < n < 2 ^ 53 -> 52 - Z.log2 n + k <= j ->
  Z.pos (fst (shl_align (Z.to_pos (n * 2 ^ (52 - Z.log2 n))) (Z.log2 n - 52 - k) (- j))) = n * 2 ^ (j - k).
Proof.
  intros Hn Hj. pose proof (canon_pos n Hn) as Hp. unfold shl_align.
  assert (Z.log2 n < 53) by (apply Z.log2_lt_pow2; lia).
  destruct (- j - (Z.log2 n - 52 - k)) as [|d|d] eqn:Hd; [|lia|]; cbn [fst].
  - rewrite Z2Pos.id by done. do 2 f_equal. lia.
  - rewrite iter_xO, Z2Pos.id, <- Z.mul_assoc, <- Z.pow_add_r by lia. do 2 f_equal. lia.
Qed.

Lemma shl_align_canon n j :
  0 < n < 2 ^ 53 -> 52 - Z.log2 n <= j ->
  Z.pos (fst (shl_align (Z.to_pos (n * 2 ^ (52 - Z.log2 n))) (Z.log2 n - 52) (- j))) = n * 2 ^ j.
Proof. intros Hn Hj. pose proof (shl_align_dyad n 0 j Hn ltac:(lia)) as H. by rewrite !Z.sub_0_r in H. Qed.

Lemma log2_int_range n : 0 < n < 2 ^ 53 -> 0 <= Z.log2 n < 53.
Proof. intros Hn. split; [apply Z.log2_nonneg | apply Z.log2_lt_pow2; lia]. Qed.

Lemma f64_of_int_zero : f64_of_int 0 = S754_zero false.
Proof. done. Qed.

Lemma f64_sub_int a b :
  exact_int a -> exact_int b -> b <= a -> f64_sub (f64_of_int a) (f64_of_int b) = f64_of_int (a - b).
Proof.
  unfold exact_int. intros Ha Hb Hab.
  destruct (decide (b = 0)) as [->|Hb0].
  { rewrite Z.sub_0_r. destruct (decide (a = 0)) as [->|Ha0]; [done|].
    rewrite (f64_of_int_canon a) by lia. done. }
  rewrite (f64_of_int_canon a), (f64_of_int_canon b) by lia.
  pose proof (log2_int_range a ltac:(lia)). pose proof (log2_int_range b ltac:(lia)).
  unfold f64_sub, canon, SFsub.
  set (j := Z.max (52 - Z.log2 a) (52 - Z.log2 b)).
  replace (Z.min (Z.log2 a - 52) (Z.log2 b - 52)) with (- j) by lia.
  cbn [cond_Zopp]. rewrite !shl_align_canon by lia.
  rewrite <- Z.mul_sub_distr_r.
  destruct (decide (a = b)) as [->|Hne]; [by rewrite Z.sub_diag|].
  rewrite normalize_canon by lia. by rewrite f64_of_int_canon by lia.
Qed.

Lemma f64_add_int a b :
  exact_int a -> exact_int b -> exact_int (a + b) ->
  f64_add (f64_of_int a) (f64_of_int b) = f64_of_int (a + b).
Proof.
  unfold exact_int. intros Ha Hb Hab.
  destruct (decide (b = 0)) as [->|Hb0].
  { rewrite Z.add_0_r. destruct (decide (a = 0)) as [->|Ha0]; [done|].
    rewrite (f64_of_int_canon a) by lia. done. }
  destruct (decide (a = 0)) as [->|Ha0].
  { rewrite Z.add_0_l. rewrite (f64_of_int_canon b) by lia. done. }
  rewrite (f64_of_int_canon a), (f64_of_int_canon b) by lia.
  pose proof (log2_int_range a ltac:(lia)). pose proof (log2_int_range b ltac:(lia)).
  unfold f64_add, canon, SFadd.
  set (j := Z.max (52 - Z.log2 a) (52 - Z.log2 b)).
  replace (Z.min (Z.log2 a - 52) (Z.log2 b - 52)) with (- j) by lia.
  cbn [cond_Zopp]. rewrite !shl_align_canon by lia.
  rewrite <- Z.mul_add_distr_r.
  rewrite normalize_canon by lia. by rewrite f64_of_int_canon by lia.
Qed.

Lemma f64_mul_int a b :
  exact_int a -> exact_int b -> exact_int (a * b) ->
  f64_mul (f64_of_int a) (f64_of_int b) = f64_of_int (a * b).
Proof.
  unfold exact_int. intros Ha Hb Hab.
  destruct (decide (a = 0)) as [->|Ha0].
  { destruct (decide (b = 0)) as [->|Hb0]; [done|].
    by rewrite (f64_of_int_canon b) by lia. }
  destruct (decide (b = 0)) as [->|Hb0].
  { rewrite Z.mul_0_r, (f64_of_int_canon a) by lia. done. }
  rewrite (f64_of_int_canon a), (f64_of_int_canon b) by lia.
  assert (0 < a * b) by nia.
  pose proof (log2_int_range a ltac:(lia)). pose proof (log2_int_range b ltac:(lia)).
  pose proof (log2_int_range (a * b) ltac:(lia)).
  pose proof (Z.log2_mul_below a b ltac:(lia) ltac:(lia)).
  pose proof (canon_pos a ltac:(lia)). pose proof (canon_pos b ltac:(lia)).
  unfold f64_mul, canon, SFmul. cbn [xorb].
  rewrite Pos2Z.inj_mul, !Z2Pos.id by done.
  set (d := 52 + Z.log2 (a * b) - Z.log2 a - Z.log2 b).
  replace (a * 2 ^ (52 - Z.log2 a) * (b * 2 ^ (52 - Z.log2 b)))
    with (a * b * 2 ^ (52 - Z.log2 (a * b)) * 2 ^ d).
  - rewrite f64_of_int_canon by lia. apply round_aux_canon; lia.
  - rewrite <- Z.mul_assoc, <- Z.pow_add_r by lia.
    replace (a * 2 ^ (52 - Z.log2 a) * (b * 2 ^ (52 - Z.log2 b)))
      with (a * b * (2 ^ (52 - Z.log2 a) * 2 ^ (52 - Z.log2 b))) by ring.
    rewrite <- Z.pow_add_r by lia. do 2 f_equal. lia.
Qed.

Lemma compare_canon a b :
  0 < a < 2 ^ 53 -> 0 < b < 2 ^ 53 -> SFcompare (canon a) (canon b) = Some (a ?= b).
Proof.
  intros Ha Hb. unfold canon, SFcompare.
  pose proof (log2_int_range a Ha). pose proof (log2_int_range b Hb).
  destruct (Z.compare_spec (Z.log2 a - 52) (Z.log2 b - 52)) as [He|He|He]; f_equal.
  - change (Pos.compare_cont Eq) with Pos.compare.
    assert (Z.log2 a = Z.log2 b) as Hl by lia.
    rewrite <- Z2Pos.inj_compare by (apply canon_pos; lia).
    rewrite Hl. symmetry. apply Zmult_compare_compat_r.
    apply Z.lt_gt, Z.pow_pos_nonneg; lia.
  - symmetry. apply Z.compare_lt_iff. apply Z.log2_lt_cancel. lia.
  - symmetry. apply Z.compare_gt_iff. apply Z.log2_lt_cancel. lia.
Qed.

Lemma SFcompare_int a b :
  exact_int a -> exact_int b -> SFcompare (f64_of_int a) (f64_of_int b) = Some (a ?= b).
Proof.
  unfold exact_int. intros Ha Hb.
  destruct (decide (a = 0)) as [->|Ha0], (decide (b = 0)) as [->|Hb0]; [done| | |].
  - rewrite (f64_of_int_canon b) by lia. by destruct b; [| |lia].
  - rewrite (f64_of_int_canon a) by lia. by destruct a; [| |lia].
  - rewrite !f64_of_int_canon by lia. apply compare_canon; lia.
Qed.

Lemma f64_lt_int a b :
  exact_int a -> exact_int b -> f64_lt (f64_of_int a) (f64_of_int b) = (a <? b).
Proof. intros Ha Hb. unfold f64_lt, SFltb, Z.ltb. by rewrite SFcompare_int. Qed.

Lemma f64_le_int a b :
  exact_int a -> exact_int b -> f64_le (f64_of_int a) (f64_of_int b) = (a <=? b).
Proof.
  intros Ha Hb. unfold f64_le, SFleb, Z.leb. rewrite SFcompare_int by done.
  by destruct (a ?= b).
Qed.

(** The same for integers of either sign. *)
Definition exact_signed (n : Z) : Prop := - 2 ^ 53 < n < 2 ^ 53.

Lemma shr_fexp_sign s m e l :
  binary_round_aux f64_prec f64_emax (negb s) m e l = SFopp (binary_round_aux f64_prec f64_emax s m e l).
Proof.
  unfold binary_round_aux. destruct (shr_fexp f64_prec f64_emax m e l) as [r e'].
  destruct (shr_fexp f64_prec f64_emax _ e' loc_Exact) as [r' e'']. destruct (shr_m r'); [done| |done].
  by destruct (_ <=? _).
Qed.

Lemma f64_of_int_opp n : 0 < n -> f64_of_int (- n) = SFopp (f64_of_int n).
Proof.
  intros Hn. destruct n as [|p|p]; [lia| |lia]. change (- Z.pos p) with (Z.neg p). unfold f64_of_int, binary_normalize, binary_round.
  destruct (shl_align p 0 _) as [m e]. apply (shr_fexp_sign false).
Qed.

Lemma SFcompare_signed a b :
  exact_signed a -> exact_signed b -> SFcompare (f64_of_int a) (f64_of_int b) = Some (a ?= b).
Proof.
  unfold exact_signed. intros Ha Hb.
  assert (forall n, n < 0 -> - 2 ^ 53 < n -> f64_of_int n = SFopp (canon (- n))) as Hneg.
  { intros n Hn Hlo. rewrite <- (f64_of_int_canon (- n)), <- f64_of_int_opp by lia. by rewrite Z.opp_involutive. }
  destruct (decide (0 <= a)), (decide (0 <= b)).
  - by apply SFcompare_int; unfold exact_int; lia.
  - rewrite (Hneg b) by lia. assert ((a ?= b) = Gt) as -> by (apply Z.compare_gt_iff; lia).
    destruct (decide (a = 0)) as [->|]; [done|]. by rewrite f64_of_int_canon by lia.
  - rewrite (Hneg a) by lia. assert ((a ?= b) = Lt) as -> by (apply Z.compare_lt_iff; lia).
    destruct (decide (b = 0)) as [->|]; [done|]. by rewrite f64_of_int_canon by lia.
  - rewrite (Hneg a), (Hneg b) by lia. pose proof (compare_canon (- a) (- b) ltac:(lia) ltac:(lia)) as H.
    rewrite Z.compare_opp in H. rewrite (Z.compare_antisym b a).
    unfold canon, SFopp, SFcompare in *. injection H as <-. cbn [negb].
    by destruct (_ ?= _).
Qed.

Lemma f64_lt_signed a b : exact_signed a -> exact_signed b -> f64_lt (f64_of_int a) (f64_of_int b) = (a <? b).
Proof. intros Ha Hb. unfold f64_lt, SFltb, Z.ltb. by rewrite SFcompare_signed. Qed.

Lemma f64_le_signed a b : exact_signed a -> exact_signed b -> f64_le (f64_of_int a) (f64_of_int b) = (a <=? b).
Proof.
  intros Ha Hb. unfold f64_le, SFleb, Z.leb. rewrite SFcompare_signed by done. by destruct (a ?= b).
Qed.

Example f64_trunc_half : f64_trunc (f64_div (f64_of_int (-7)) f64_2) = Some (-3).
Proof. reflexivity. Qed.

Example f64_tenth : f64_0_1 = S754_finite false 7205759403792794 (-56).
Proof. reflexivity. Qed.

(** ** Numbers that are not negative

    Adding and multiplying such numbers never gives a NaN, except for the product
    of zero and infinity; and among them [<=] is a total preorder. *)

Definition f64_nonneg (x : float64) : bool :=
  match x with
  | S754_zero s | S754_infinity s => negb s
  | S754_finite s _ _ => negb s
  | S754_nan => false
  end.

Definition f64_finite (x : float64) : bool :=
  match x with S754_zero _ | S754_finite _ _ _ => true | _ => false end.

Lemma f64_nonneg_nan x : f64_nonneg x = true -> f64_is_nan x = false.
Proof. by destruct x. Qed.

Lemma f64_lt_asym x y : f64_lt x y = true -> f64_lt y x = false.
Proof.
  unfold f64_lt, SFltb, SFcompare.
  destruct x as [[]|[]| |[] mx ex], y as [[]|[]| |[] my ey]; simpl; try done;
    rewrite (Z.compare_antisym ex ey); destruct (ex ?= ey) eqn:He; simpl; try done;
    change (Pos.compare_cont Eq) with Pos.compare; rewrite (Pos.compare_antisym mx my);
    by destruct (mx ?= my)%positive.
Qed.

Lemma f64_lt_key x y :
  f64_nonneg x = true -> f64_nonneg y = true ->
  f64_lt x y = true <->
  match x, y with
  | S754_zero _, S754_zero _ => False
  | S754_zero _, _ => True
  | S754_finite _ m e, S754_finite _ m' e' => e < e' \/ (e = e' /\ Z.pos m < Z.pos m')
  | S754_finite _ _ _, S754_infinity _ => True
  | _, _ => False
  end.
Proof.
  unfold f64_lt, SFltb, SFcompare.
  destruct x as [[]|[]| |[] mx ex], y as [[]|[]| |[] my ey]; simpl; try done.
  change (Pos.compare_cont Eq) with Pos.compare. intros _ _.
  destruct (Z.compare_spec ex ey) as [->|?|?]; [|split; [by left|done]|split; [done|lia]].
  destruct (Pos.compare_spec mx my) as [->|?|?]; split; try done; lia.
Qed.

Lemma f64_le_trans x y z :
  f64_nonneg x = true -> f64_nonneg y = true -> f64_nonneg z = true ->
  f64_lt y x = false -> f64_lt z y = false -> f64_lt z x = false.
Proof.
  intros Hx Hy Hz. rewrite <- !not_true_iff_false, !f64_lt_key by done.
  destruct x as [[]|[]| |[] mx ex], y as [[]|[]| |[] my ey], z as [[]|[]| |[] mz ez]; try done; lia.
Qed.

Lemma shr_1_nonneg r : 0 <= shr_m r -> 0 <= shr_m (shr_1 r).
Proof. destruct r as [[|[]|] ? ?]; cbn; lia. Qed.

Lemma shr_nonneg r e n : 0 <= shr_m r -> 0 <= shr_m (fst (shr r e n)).
Proof.
  intros Hr. destruct n as [|p|p]; cbn; try done. rewrite iter_pos_nat.
  induction (Pos.to_nat p); [done|]. cbn. by apply shr_1_nonneg.
Qed.

Lemma shr_fexp_nonneg m e l : 0 <= m -> 0 <= shr_m (fst (shr_fexp f64_prec f64_emax m e l)).
Proof. intros Hm. unfold shr_fexp. apply shr_nonneg. by destruct l as [|[]]. Qed.

Lemma round_aux_nonneg m e l :
  0 <= m -> f64_nonneg (binary_round_aux f64_prec f64_emax false m e l) = true.
Proof.
  intros Hm. unfold binary_round_aux.
  pose proof (shr_fexp_nonneg m e l Hm) as H1.
  destruct (shr_fexp f64_prec f64_emax m e l) as [r1 e1]. cbn [fst] in H1.
  assert (H2 : 0 <= round_nearest_even (shr_m r1) (loc_of_shr_record r1)).
  { unfold round_nearest_even. destruct (loc_of_shr_record r1) as [|[]]; try done; [|lia].
    destruct (Z.even (shr_m r1)); lia. }
  pose proof (shr_fexp_nonneg _ e1 loc_Exact H2) as H3.
  destruct (shr_fexp f64_prec f64_emax _ e1 loc_Exact) as [r2 e2]. cbn [fst] in H3.
  destruct (shr_m r2); [done| |lia]. by destruct (e2 <=? f64_emax - f64_prec).
Qed.

Lemma normalize_nonneg m e : 0 < m -> f64_nonneg (binary_normalize f64_prec f64_emax m e false) = true.
Proof.
  intros Hm. unfold binary_normalize. destruct m as [|m|m]; try lia.
  unfold binary_round. destruct (shl_align _ _ _) as [mz ez]. by apply round_aux_nonneg.
Qed.

Lemma f64_mul_nonneg x y :
  f64_nonneg x = true -> f64_nonneg y = true -> f64_finite x = true -> f64_finite y = true ->
  f64_nonneg (f64_mul x y) = true.
Proof.
  destruct x as [[]|[]| |[] mx ex], y as [[]|[]| |[] my ey]; try done. intros _ _ _ _.
  unfold f64_mul. cbn [SFmul xorb]. by apply round_aux_nonneg.
Qed.

(** The product with a finite number other than zero. *)
Lemma f64_mul_nonzero x m e :
  f64_nonneg x = true -> f64_nonneg (f64_mul x (S754_finite false m e)) = true.
Proof.
  destruct x as [[]|[]| |[] mx ex]; try done. intros _.
  unfold f64_mul. cbn [SFmul xorb]. by apply round_aux_nonneg.
Qed.

Lemma f64_add_nonneg x y :
  f64_nonneg x = true -> f64_nonneg y = true -> f64_nonneg (f64_add x y) = true.
Proof.
  destruct x as [[]|[]| |[] mx ex], y as [[]|[]| |[] my ey]; try done. intros _ _.
  unfold f64_add. cbn [SFadd cond_Zopp]. apply normalize_nonneg. lia.
Qed.

Lemma f64_of_int_nonneg n : 0 <= n -> f64_nonneg (f64_of_int n) = true.
Proof.
  intros Hn. unfold f64_of_int. destruct (Z.eq_dec n 0) as [->|]; [done|]. apply normalize_nonneg. lia.
Qed.

Lemma f64_lt_neg n x : n < 0 -> - 2 ^ 53 < n -> f64_nonneg x = true -> f64_lt (f64_of_int n) x = true.
Proof.
  intros Hn Hb Hx. replace n with (- (- n)) by lia. rewrite f64_of_int_opp, f64_of_int_canon by lia.
  unfold canon. destruct (- n) eqn:E; try lia. by destruct x as [[]|[]| |[] mx ex].
Qed.

(** ** Durations *)

(** [d.Seconds()]. *)
Definition Seconds (d : Duration) : float64 :=
  f64_add (f64_of_int (Z.quot d Second)) (f64_div (f64_of_int (Z.rem d Second)) (f64_of_int 1000000000)).

Lemma Seconds_whole s : 0 <= s < 2 ^ 33 -> Seconds (s * Second) = f64_of_int s.
Proof.
  intros Hs. unfold Seconds, Second. rewrite Z.quot_mul, Z.rem_mul by lia.
  change (f64_div (f64_of_int 0) (f64_of_int 1000000000)) with (f64_of_int 0).
  rewrite f64_add_int by (unfold exact_int; lia). f_equal. lia.
Qed.
