(* ===== verification/Dyadic.v ===== *)
(** * Exact arithmetic in [float64]

    The numbers [n * 2 ^ -k] with [n] under 2^53: sums, halves and comparisons of
    them are those of the integers. *)

From Stdlib Require Import Floats.SpecFloat.
From S2P Require Import Prelude Float64.

Definition small (n : Z) : Prop := Z.abs n < 2 ^ 53.

(** [n * 2 ^ -k]. *)
Definition f64_dy (n k : Z) : float64 := binary_normalize f64_prec f64_emax n (- k) false.

Definition signed_dyad (n k : Z) : float64 :=
  S754_finite (n <? 0) (Z.to_pos (Z.abs n * 2 ^ (52 - Z.log2 (Z.abs n)))) (Z.log2 (Z.abs n) - 52 - k).

Lemma normalize_opp p e :
  binary_normalize f64_prec f64_emax (Z.neg p) e false = SFopp (binary_normalize f64_prec f64_emax (Z.pos p) e false).
Proof.
  unfold binary_normalize, binary_round. destruct (shl_align p e _) as [m e']. apply (shr_fexp_sign false).
Qed.

Lemma normalize_signed n j k : small n -> n <> 0 -> 0 <= j <= 1000 -> 0 <= k <= 900 ->
  binary_normalize f64_prec f64_emax (n * 2 ^ j) (- j - k) false = signed_dyad n k.
Proof.
  unfold small. intros Hn H0 Hj Hk. assert (Hp : 0 < 2 ^ j) by (apply Z.pow_pos_nonneg; lia).
  destruct (Z.ltb_spec n 0) as [Hs|Hs].
  - pose proof (normalize_dyad (- n) j k ltac:(lia) Hj Hk) as E.
    unfold signed_dyad. rewrite (proj2 (Z.ltb_lt n 0)), Z.abs_neq by lia.
    destruct (- n * 2 ^ j) as [|p|p] eqn:Ep; [lia| |lia]. replace (n * 2 ^ j) with (Z.neg p) by lia.
    by rewrite normalize_opp, E.
  - rewrite normalize_dyad by lia. unfold signed_dyad, dyad. rewrite (proj2 (Z.ltb_ge n 0)), Z.abs_eq by lia. done.
Qed.

Lemma f64_dy_signed n k : small n -> n <> 0 -> 0 <= k <= 900 -> f64_dy n k = signed_dyad n k.
Proof.
  intros Hn H0 Hk. pose proof (normalize_signed n 0 k Hn H0 ltac:(lia) Hk) as E. by rewrite Z.pow_0_r, Z.mul_1_r in E.
Qed.

Lemma f64_dy_zero k : f64_dy 0 k = S754_zero false.
Proof. done. Qed.

Lemma f64_dy_int n : f64_dy n 0 = f64_of_int n.
Proof. done. Qed.

Lemma f64_dy_scale n j k : small n -> 0 <= j <= 1000 -> 0 <= k <= 900 ->
  binary_normalize f64_prec f64_emax (n * 2 ^ j) (- j - k) false = f64_dy n k.
Proof.
  intros Hn Hj Hk. destruct (decide (n = 0)) as [->|H0]; [done|]. by rewrite normalize_signed, f64_dy_signed.
Qed.

Lemma f64_dy_double n k : small n -> 0 <= k < 900 -> f64_dy (2 * n) (k + 1) = f64_dy n k.
Proof.
  intros Hn Hk. rewrite <- (f64_dy_scale n 1 k Hn ltac:(lia) ltac:(lia)). unfold f64_dy. f_equal; lia.
Qed.

Lemma f64_dy_align n k j : small n -> n <> 0 -> 52 + k <= j ->
  cond_Zopp (n <? 0) (Z.pos (fst (shl_align (Z.to_pos (Z.abs n * 2 ^ (52 - Z.log2 (Z.abs n)))) (Z.log2 (Z.abs n) - 52 - k) (- j)))) = n * 2 ^ (j - k).
Proof.
  unfold small. intros Hn H0 Hj. pose proof (Z.log2_nonneg (Z.abs n)). rewrite shl_align_dyad by lia.
  destruct (Z.ltb_spec n 0); cbn [cond_Zopp]; [rewrite Z.abs_neq by lia|rewrite Z.abs_eq by lia]; lia.
Qed.

Lemma aligned_min j1 j2 k : exists j, - j - k = Z.min (j1 - 52 - k) (j2 - 52 - k) /\ j = Z.max (52 - j1) (52 - j2).
Proof. exists (Z.max (52 - j1) (52 - j2)). lia. Qed.

Lemma small_log2 n : small n -> 0 <= Z.log2 (Z.abs n) <= 52.
Proof.
  unfold small. intros Hn. split; [apply Z.log2_nonneg|]. destruct (decide (Z.abs n = 0)) as [E|E]; [by rewrite E|].
  apply Z.lt_succ_r, Z.log2_lt_pow2; lia.
Qed.

(** What the operations do with two numbers that are not zero. *)
Lemma aligned_dy n k ez : small n -> n <> 0 -> ez <= Z.log2 (Z.abs n) - 52 - k ->
  cond_Zopp (n <? 0) (Z.pos (fst (shl_align (Z.to_pos (Z.abs n * 2 ^ (52 - Z.log2 (Z.abs n)))) (Z.log2 (Z.abs n) - 52 - k) ez))) =
  n * 2 ^ (- ez - k).
Proof.
  intros Hn H0 Hz. unfold small in Hn. rewrite <- (Z.opp_involutive ez) at 1. rewrite shl_align_dyad by lia.
  destruct (Z.ltb_spec n 0); cbn [cond_Zopp]; [rewrite Z.abs_neq by lia|rewrite Z.abs_eq by lia]; lia.
Qed.

Section operation.
Context (op : float64 -> float64 -> float64) (zop : Z -> Z -> Z).
Context (Hop : forall a b s t m m' e e', a = S754_finite s m e -> b = S754_finite t m' e' -> op a b =
  binary_normalize f64_prec f64_emax (zop (cond_Zopp s (Z.pos (fst (shl_align m e (Z.min e e')))))
    (cond_Zopp t (Z.pos (fst (shl_align m' e' (Z.min e e')))))) (Z.min e e') false).
Context (Hzop : forall a b c, zop (a * c) (b * c) = zop a b * c).

Lemma f64_op_dy a b k : small a -> small b -> small (zop a b) -> a <> 0 -> b <> 0 -> 0 <= k <= 900 ->
  op (f64_dy a k) (f64_dy b k) = f64_dy (zop a b) k.
Proof.
  intros Ha Hb Hab Ha0 Hb0 Hk. rewrite !f64_dy_signed by done. erewrite Hop by reflexivity.
  pose proof (small_log2 a Ha). pose proof (small_log2 b Hb).
  set (ez := Z.min _ _). rewrite !aligned_dy by (done || lia). rewrite Hzop.
  replace ez with (- (- ez - k) - k) at 2 by lia. apply f64_dy_scale; [done| |done]. subst ez. lia.
Qed.
End operation.

Lemma f64_add_dy a b k : small a -> small b -> small (a + b) -> 0 <= k <= 900 ->
  f64_add (f64_dy a k) (f64_dy b k) = f64_dy (a + b) k.
Proof.
  intros Ha Hb Hab Hk. destruct (decide (b = 0)) as [->|Hb0].
  { rewrite Z.add_0_r. destruct (decide (a = 0)) as [->|Ha0]; [reflexivity|]. by rewrite f64_dy_signed. }
  destruct (decide (a = 0)) as [->|Ha0].
  { rewrite Z.add_0_l, (f64_dy_signed b) by done. reflexivity. }
  apply (f64_op_dy f64_add Z.add); try done; [|intros; ring]. intros ? ? s t m m' e e' -> ->; reflexivity.
Qed.

Lemma SFopp_dy n k : small n -> n <> 0 -> 0 <= k <= 900 -> SFopp (f64_dy n k) = f64_dy (- n) k.
Proof.
  intros Hn H0 Hk. rewrite !f64_dy_signed by (done || unfold small in *; lia). unfold signed_dyad, SFopp. rewrite Z.abs_opp.
  f_equal. lia.
Qed.

Lemma f64_sub_dy a b k : small a -> small b -> small (a - b) -> 0 <= k <= 900 ->
  f64_sub (f64_dy a k) (f64_dy b k) = f64_dy (a - b) k.
Proof.
  intros Ha Hb Hab Hk. destruct (decide (b = 0)) as [->|Hb0].
  { rewrite Z.sub_0_r. destruct (decide (a = 0)) as [->|Ha0]; [reflexivity|]. rewrite f64_dy_signed by done. reflexivity. }
  destruct (decide (a = 0)) as [->|Ha0].
  { rewrite Z.sub_0_l, <- SFopp_dy, (f64_dy_signed b) by done. reflexivity. }
  apply (f64_op_dy f64_sub Z.sub); try done; [|intros; ring]. intros ? ? s t m m' e e' -> ->; reflexivity.
Qed.

Lemma f64_half_dy a k : small a -> 0 <= k < 900 -> f64_div (f64_dy a k) f64_2 = f64_dy a (k + 1).
Proof.
  intros Ha Hk. destruct (decide (a = 0)) as [->|Ha0]; [done|]. rewrite !f64_dy_signed by (done || lia).
  assert (E2 : f64_2 = S754_finite false (2 ^ 52) (-51)) by reflexivity. rewrite E2.
  pose proof (small_log2 a Ha) as Hl. unfold small in Ha. unfold f64_div, signed_dyad, SFdiv.
  pose proof (canon_pos (Z.abs a) ltac:(lia)) as Hp. rewrite Z2Pos.id by done.
  set (m := Z.abs a * 2 ^ (52 - Z.log2 (Z.abs a))) in *.
  assert (Hm : Z.log2 m = 52) by (subst m; rewrite Z.log2_mul_pow2; lia).
  assert (Hd : Zdigits2 m = 53) by (destruct m as [|p|p]; [lia| |lia]; cbn [Zdigits2]; rewrite digits2_pos_log2; lia).
  assert (Ec : SFdiv_core_binary f64_prec f64_emax m (Z.log2 (Z.abs a) - 52 - k) (Z.pos (2 ^ 52)) (-51) =
    (m * 2, Z.log2 (Z.abs a) - 52 - 1 - (k + 1), loc_Exact)).
  { unfold SFdiv_core_binary. rewrite Hd. change (Zdigits2 (Z.pos (2 ^ 52))) with 53.
    replace (53 + (Z.log2 (Z.abs a) - 52 - k) - (53 + -51)) with ((Z.log2 (Z.abs a) + 1) - (k + 2)) by lia.
    assert (Ef : fexp f64_prec f64_emax (Z.log2 (Z.abs a) + 1 - (k + 2)) = Z.log2 (Z.abs a) - 54 - k).
    { unfold fexp, emin, f64_prec, f64_emax. lia. }
    rewrite Ef. replace (Z.min _ _) with (Z.log2 (Z.abs a) - 54 - k) by lia.
    replace (Z.log2 (Z.abs a) - 52 - k - -51 - (Z.log2 (Z.abs a) - 54 - k)) with 53 by lia.
    rewrite Z.shiftl_mul_pow2 by lia. replace (m * 2 ^ 53) with (m * 2 * 2 ^ 52) by lia. change (Z.pos (2 ^ 52)) with (2 ^ 52).
    pose proof (Z.div_eucl_eq (m * 2 * 2 ^ 52) (2 ^ 52) ltac:(lia)) as Hq. pose proof (Z.mod_pos_bound (m * 2 * 2 ^ 52) (2 ^ 52) ltac:(lia)) as Hr.
    unfold Z.modulo in Hr. destruct (Z.div_eucl (m * 2 * 2 ^ 52) (2 ^ 52)) as [q r].
    assert (r = 0 /\ q = m * 2) as [-> ->] by lia. cbn. f_equal. f_equal. lia. }
  rewrite Ec. rewrite xorb_false_r.
  assert (Er : binary_round_aux f64_prec f64_emax false (m * 2) (Z.log2 (Z.abs a) - 52 - 1 - (k + 1)) loc_Exact = dyad (Z.abs a) (k + 1)).
  { replace (m * 2) with (m * 2 ^ 1) by lia. apply round_aux_dyad; lia. }
  destruct (a <? 0); [|exact Er]. change true with (negb false). rewrite shr_fexp_sign, Er. done.
Qed.

Lemma f64_mul_dy a b k l : small a -> small b -> small (a * b) -> a <> 0 -> b <> 0 -> 0 <= k -> 0 <= l -> k + l <= 900 ->
  f64_mul (f64_dy a k) (f64_dy b l) = f64_dy (a * b) (k + l).
Proof.
  intros Ha Hb Hab Ha0 Hb0 Hk Hl Hkl. rewrite !f64_dy_signed by (done || lia).
  pose proof (small_log2 a Ha). pose proof (small_log2 b Hb). pose proof (small_log2 (a * b) Hab). unfold small in *.
  pose proof (Z.log2_mul_below (Z.abs a) (Z.abs b) ltac:(lia) ltac:(lia)) as Hm. rewrite <- Z.abs_mul in Hm.
  pose proof (canon_pos (Z.abs a) ltac:(lia)). pose proof (canon_pos (Z.abs b) ltac:(lia)).
  unfold f64_mul, signed_dyad, SFmul. rewrite Pos2Z.inj_mul, !Z2Pos.id by done.
  assert (Er : binary_round_aux f64_prec f64_emax false
      (Z.abs a * 2 ^ (52 - Z.log2 (Z.abs a)) * (Z.abs b * 2 ^ (52 - Z.log2 (Z.abs b))))
      (Z.log2 (Z.abs a) - 52 - k + (Z.log2 (Z.abs b) - 52 - l)) loc_Exact = dyad (Z.abs (a * b)) (k + l)).
  { set (d := 52 + Z.log2 (Z.abs (a * b)) - Z.log2 (Z.abs a) - Z.log2 (Z.abs b)).
    replace (Z.abs a * 2 ^ (52 - Z.log2 (Z.abs a)) * (Z.abs b * 2 ^ (52 - Z.log2 (Z.abs b))))
      with (Z.abs (a * b) * 2 ^ (52 - Z.log2 (Z.abs (a * b))) * 2 ^ d).
    - apply round_aux_dyad; lia.
    - rewrite <- (Z.mul_assoc _ (2 ^ _) (2 ^ d)), <- Z.pow_add_r by lia.
      replace (Z.abs a * 2 ^ (52 - Z.log2 (Z.abs a)) * (Z.abs b * 2 ^ (52 - Z.log2 (Z.abs b))))
        with (Z.abs a * Z.abs b * (2 ^ (52 - Z.log2 (Z.abs a)) * 2 ^ (52 - Z.log2 (Z.abs b)))) by ring.
      rewrite <- Z.pow_add_r by lia. rewrite <- Z.abs_mul. do 2 f_equal. lia. }
  assert (Es : xorb (a <? 0) (b <? 0) = (a * b <? 0)).
  { destruct (Z.ltb_spec a 0), (Z.ltb_spec b 0), (Z.ltb_spec (a * b) 0); try reflexivity; nia. }
  rewrite Es. destruct (a * b <? 0); [|exact Er]. change true with (negb false). rewrite shr_fexp_sign, Er. done.
Qed.

(** ** The order *)

Lemma SFcompare_shift s t m m' e e' k :
  SFcompare (S754_finite s m (e - k)) (S754_finite t m' (e' - k)) = SFcompare (S754_finite s m e) (S754_finite t m' e').
Proof.
  unfold SFcompare. assert (E : (e - k ?= e' - k) = (e ?= e')).
  { destruct (Z.compare_spec e e'), (Z.compare_spec (e - k) (e' - k)); (done || lia). }
  by rewrite E.
Qed.

Lemma SFcompare_dy a b k : small a -> small b -> 0 <= k <= 900 -> SFcompare (f64_dy a k) (f64_dy b k) = Some (a ?= b).
Proof.
  intros Ha Hb Hk. unfold small in *. rewrite <- SFcompare_signed by (unfold exact_signed; lia). rewrite <- !f64_dy_int.
  destruct (decide (a = 0)) as [->|Ha0], (decide (b = 0)) as [->|Hb0]; rewrite ?f64_dy_zero; [done|..];
    rewrite ?(f64_dy_signed a), ?(f64_dy_signed b) by (unfold small; lia); [done|done|].
  unfold signed_dyad. rewrite !Z.sub_0_r. apply SFcompare_shift.
Qed.

Lemma f64_le_dy a b k : small a -> small b -> 0 <= k <= 900 -> f64_le (f64_dy a k) (f64_dy b k) = (a <=? b).
Proof. intros Ha Hb Hk. unfold f64_le, SFleb, Z.leb. rewrite SFcompare_dy by done. by destruct (a ?= b). Qed.

Lemma f64_lt_dy a b k : small a -> small b -> 0 <= k <= 900 -> f64_lt (f64_dy a k) (f64_dy b k) = (a <? b).
Proof. intros Ha Hb Hk. unfold f64_lt, SFltb, Z.ltb. by rewrite SFcompare_dy. Qed.

Lemma f64_le_same s m e m' e' :
  f64_le (S754_finite s m e) (S754_finite s m' e') = true <->
  if s then e' < e \/ e = e' /\ (m' <= m)%positive else e < e' \/ e = e' /\ (m <= m')%positive.
Proof.
  unfold f64_le, SFleb, SFcompare. change (Pos.compare_cont Eq) with Pos.compare.
  destruct s, (Z.compare_spec e e') as [->|H|H]; try (split; [done|lia]); try (split; [lia|done]);
    destruct (Pos.compare_spec m m'); cbn [CompOpp]; split; (done || lia).
Qed.

Lemma f64_le_trans_any x y z : f64_le x y = true -> f64_le y z = true -> f64_le x z = true.
Proof.
  destruct x as [[]|[]| |[] mx ex], y as [[]|[]| |[] my ey], z as [[]|[]| |[] mz ez]; try done;
    rewrite !f64_le_same; lia.
Qed.

Lemma f64_lt_not_le x y : f64_lt x y = true -> f64_le y x = false.
Proof.
  intros H. pose proof (f64_lt_asym x y H) as H'. apply not_true_iff_false. intros Hle. revert H H' Hle.
  unfold f64_lt, f64_le, SFltb, SFleb.
  destruct x as [[]|[]| |[] mx ex], y as [[]|[]| |[] my ey]; unfold SFcompare; try done;
    rewrite (Z.compare_antisym ex ey); change (Pos.compare_cont Eq) with Pos.compare; rewrite (Pos.compare_antisym mx my);
    destruct (ex ?= ey); cbn [CompOpp]; try done; destruct (mx ?= my)%positive; done.
Qed.

Lemma f64_lt_le x y : f64_lt x y = true -> f64_le x y = true.
Proof. unfold f64_lt, f64_le, SFltb, SFleb. by destruct (SFcompare x y) as [[]|]. Qed.

Lemma f64_le_total x y : f64_is_nan x = false -> f64_is_nan y = false -> f64_le y x = false -> f64_le x y = true.
Proof.
  intros Hx Hy H. apply f64_le_not_lt; [done..|]. apply not_true_iff_false. intros Hl%f64_lt_le. congruence.
Qed.

Lemma f64_le_nan x y : f64_le x y = true -> f64_is_nan x = false /\ f64_is_nan y = false.
Proof. by destruct x, y. Qed.

Lemma f64_dy_nan n k : small n -> 0 <= k <= 900 -> f64_is_nan (f64_dy n k) = false.
Proof. intros Hn Hk. destruct (decide (n = 0)) as [->|H0]; [reflexivity|]. by rewrite f64_dy_signed. Qed.

Lemma f64_lt_of_le x y : f64_le x y = true -> f64_le y x = false -> f64_lt x y = true.
Proof.
  unfold f64_lt, f64_le, SFltb, SFleb.
  destruct x as [[]|[]| |[] mx ex], y as [[]|[]| |[] my ey]; unfold SFcompare; try done;
    rewrite (Z.compare_antisym ex ey); change (Pos.compare_cont Eq) with Pos.compare; rewrite (Pos.compare_antisym mx my);
    destruct (ex ?= ey); cbn [CompOpp]; try done; destruct (mx ?= my)%positive; done.
Qed.

Lemma f64_lt_le_trans x y z : f64_lt x y = true -> f64_le y z = true -> f64_lt x z = true.
Proof.
  intros H Hz. apply f64_lt_of_le.
  - by apply (f64_le_trans_any x y z); [apply f64_lt_le|].
  - apply not_true_iff_false. intros Hc. pose proof (f64_le_trans_any _ _ _ Hz Hc) as Hyx. rewrite f64_lt_not_le in Hyx; done.
Qed.
