(* ===== verification/GoStrings.v ===== *)
(** * Go strings

    A Go string is its bytes; this file models the functions of the packages
    [strings] and [strconv] that the modelled code uses, on [string] (a list of
    8-bit [ascii]).  Case mapping and white space are those of ASCII: on other
    input Go also maps and trims Unicode runes. *)

From Stdlib Require Export Ascii.
From S2P Require Import Prelude.

#[global] Open Scope string_scope.
#[global] Open Scope Z_scope.

#[global] Arguments String.append !_ _ : simpl nomatch.

(** ** Bytes *)

Definition byte_code (c : ascii) : Z := Z.of_N (N_of_ascii c).
Definition is_digit (c : ascii) : bool := (48 <=? byte_code c) && (byte_code c <=? 57).
Definition is_upper (c : ascii) : bool := (65 <=? byte_code c) && (byte_code c <=? 90).
Definition is_lower (c : ascii) : bool := (97 <=? byte_code c) && (byte_code c <=? 122).

Definition is_space (c : ascii) : bool :=
  (byte_code c =? 32) || ((9 <=? byte_code c) && (byte_code c <=? 13)).

Definition byte_of_code (z : Z) : ascii := ascii_of_N (Z.to_N z).
Definition lower_byte (c : ascii) : ascii :=
  if is_upper c then byte_of_code (byte_code c + 32) else c.
Definition upper_byte (c : ascii) : ascii :=
  if is_lower c then byte_of_code (byte_code c - 32) else c.

(** [len(s)]. *)
Definition strlen (s : string) : Z := Z.of_nat (String.length s).

(** ** Package [strings] *)

Fixpoint string_map (f : ascii -> ascii) (s : string) : string :=
  match s with
  | "" => ""
  | String c s => String (f c) (string_map f s)
  end.

Definition ToLower : string -> string := string_map lower_byte.
Definition ToUpper : string -> string := string_map upper_byte.

Fixpoint HasPrefix (s prefix : string) {struct prefix} : bool :=
  match prefix, s with
  | "", _ => true
  | String p prefix, String c s => Ascii.eqb p c && HasPrefix s prefix
  | _, "" => false
  end.

Fixpoint str_drop (n : nat) (s : string) : string :=
  match n, s with
  | S n, String _ s => str_drop n s
  | _, _ => s
  end.

Fixpoint str_take (n : nat) (s : string) : string :=
  match n, s with
  | S n, String c s => String c (str_take n s)
  | _, _ => ""
  end.

Definition TrimPrefix (s prefix : string) : string :=
  if HasPrefix s prefix then str_drop (String.length prefix) s else s.

Definition HasSuffix (s suffix : string) : bool :=
  (String.length suffix <=? String.length s)%nat &&
  String.eqb (str_drop (String.length s - String.length suffix) s) suffix.

(** [strings.TrimSuffix]. *)
Definition TrimSuffix (s suffix : string) : string :=
  if HasSuffix s suffix then str_take (String.length s - String.length suffix) s else s.

(** The text before and after the first [c]: [strings.Cut], or [strings.Index]
    with the two slices the code takes. *)
Fixpoint cut_byte (c : ascii) (s : string) : option (string * string) :=
  match s with
  | "" => None
  | String d s =>
      if Ascii.eqb d c then Some ("", s)
      else match cut_byte c s with
           | Some (a, b) => Some (String d a, b)
           | None => None
           end
  end.

(** The same at the last [c]. *)
Fixpoint cut_last_byte (c : ascii) (s : string) : option (string * string) :=
  match s with
  | "" => None
  | String d s =>
      match cut_last_byte c s with
      | Some (a, b) => Some (String d a, b)
      | None => if Ascii.eqb d c then Some ("", s) else None
      end
  end.

Fixpoint Contains (s sub : string) : bool :=
  HasPrefix s sub || match s with "" => false | String _ s => Contains s sub end.

(** [strings.Split s sep] for a separator of one byte. *)
Fixpoint split_byte (c : ascii) (s : string) : list string :=
  match s with
  | "" => [""]
  | String d s =>
      let rest := split_byte c s in
      if Ascii.eqb d c then "" :: rest
      else match rest with
           | w :: ws => String d w :: ws
           | [] => [String d ""]
           end
  end.

(** [strings.ReplaceAll s old new] for a non-empty [old]; [skip] bytes of the
    current occurrence are still to be passed over. *)
Fixpoint replace_from (old new : string) (skip : nat) (s : string) : string :=
  match s with
  | "" => ""
  | String c s' =>
      match skip with
      | S skip => replace_from old new skip s'
      | O =>
          if HasPrefix s old
          then new +:+ replace_from old new (String.length old - 1) s'
          else String c (replace_from old new 0 s')
      end
  end.

Definition ReplaceAll (s old new : string) : string := replace_from old new 0 s.

Fixpoint trim_left (s : string) : string :=
  match s with
  | "" => ""
  | String c s' => if is_space c then trim_left s' else s
  end.

Fixpoint trim_right (s : string) : string :=
  match s with
  | "" => ""
  | String c s =>
      match trim_right s with
      | "" => if is_space c then "" else String c ""
      | r => String c r
      end
  end.

Definition TrimSpace (s : string) : string := trim_right (trim_left s).

(** [strings.Fields]: [cur] is the word being read. *)
Fixpoint fields_from (cur : option string) (s : string) : list string :=
  match s with
  | "" => match cur with Some w => [w] | None => [] end
  | String c s =>
      if is_space c
      then match cur with Some w => w :: fields_from None s | None => fields_from None s end
      else fields_from (Some (default "" cur +:+ String c "")) s
  end.

Definition Fields : string -> list string := fields_from None.

(** ** Package [strconv] *)

Definition digit_byte (d : Z) : ascii := byte_of_code (48 + d).

Fixpoint digits_of (fuel : nat) (n : Z) (rest : string) : string :=
  match fuel with
  | O => rest
  | S fuel =>
      if n <? 10 then String (digit_byte n) rest
      else digits_of fuel (n / 10) (String (digit_byte (n mod 10)) rest)
  end.

Definition Itoa (z : Z) : string :=
  let d := digits_of (S (Z.to_nat (Z.log2 (Z.abs z)))) (Z.abs z) "" in
  if z <? 0 then String "-" d else d.

Fixpoint parse_digits (s : string) (acc : Z) : option Z :=
  match s with
  | "" => Some acc
  | String c s => if is_digit c then parse_digits s (acc * 10 + (byte_code c - 48)) else None
  end.

(** [strconv.Atoi] and [strconv.ParseInt(s, 10, 64)]: [None] is a syntax or a
    range error. *)
Definition Atoi (s : string) : option Z :=
  let '(neg, digits) :=
    match s with
    | String c s' =>
        if Ascii.eqb c "-" then (true, s')
        else if Ascii.eqb c "+" then (false, s') else (false, s)
    | "" => (false, s)
    end in
  match digits with
  | "" => None
  | _ =>
      match parse_digits digits 0 with
      | Some n => let z := if neg : bool then - n else n in
                  if in_int64 z then Some z else None
      | None => None
      end
  end.

(** ** Lemmas *)

Lemma byte_code_range c : 0 <= byte_code c < 256.
Proof. unfold byte_code. pose proof (N_ascii_bounded c). lia. Qed.

Lemma byte_code_of_code z : 0 <= z < 256 -> byte_code (byte_of_code z) = z.
Proof. intros H. unfold byte_code, byte_of_code. rewrite N_ascii_embedding; lia. Qed.

Lemma byte_of_code_code c : byte_of_code (byte_code c) = c.
Proof. unfold byte_code, byte_of_code. by rewrite N2Z.id, ascii_N_embedding. Qed.

Lemma byte_code_inj c d : byte_code c = byte_code d -> c = d.
Proof. intros H. by rewrite <- (byte_of_code_code c), H, byte_of_code_code. Qed.

Lemma digit_byte_code d : 0 <= d < 10 -> byte_code (digit_byte d) = 48 + d.
Proof. intros H. apply byte_code_of_code. lia. Qed.

Lemma digit_byte_is_digit d : 0 <= d < 10 -> is_digit (digit_byte d) = true.
Proof. intros H. unfold is_digit. rewrite digit_byte_code; lia. Qed.

Lemma parse_digits_step d s acc :
  0 <= d < 10 -> parse_digits (String (digit_byte d) s) acc = parse_digits s (acc * 10 + d).
Proof.
  intros H. simpl. rewrite digit_byte_is_digit, digit_byte_code by done.
  f_equal. lia.
Qed.

Lemma parse_digits_of fuel n rest :
  0 <= n < 10 ^ Z.of_nat fuel ->
  parse_digits (digits_of fuel n rest) 0 = parse_digits rest n.
Proof.
  revert n rest. induction fuel as [|fuel IH]; intros n rest Hn.
  - simpl in *. by replace n with 0 by lia.
  - simpl. case_match.
    + rewrite parse_digits_step by lia. f_equal; lia.
    + rewrite Nat2Z.inj_succ, Z.pow_succ_r in Hn by lia.
      rewrite IH by (split; [apply Z.div_pos; lia | apply Z.div_lt_upper_bound; lia]).
      rewrite parse_digits_step by (apply Z.mod_pos_bound; lia).
      f_equal. pose proof (Z.div_mod n 10). lia.
Qed.

Lemma Itoa_fuel n : 0 <= n -> 0 <= n < 10 ^ Z.of_nat (S (Z.to_nat (Z.log2 n))).
Proof.
  intros Hn. split; [done|]. rewrite Nat2Z.inj_succ, Z2Nat.id by apply Z.log2_nonneg.
  destruct (decide (n = 0)) as [->|]; [done|].
  pose proof (Z.log2_spec n ltac:(lia)) as [_ Hl].
  eapply Z.lt_le_trans; [exact Hl|]. apply Z.pow_le_mono_l. lia.
Qed.

Lemma digits_of_head fuel n rest :
  0 <= n -> exists c s, digits_of (S fuel) n rest = String c s /\ is_digit c = true.
Proof.
  revert n rest. induction fuel as [|fuel IH]; intros n rest Hn.
  - simpl. case_match; eexists _, _; split; try done; apply digit_byte_is_digit; [lia|].
    apply Z.mod_pos_bound. lia.
  - cbn [digits_of]. case_match.
    + eexists _, _. split; [done|]. apply digit_byte_is_digit. lia.
    + apply (IH (n / 10)). apply Z.div_pos; lia.
Qed.

(** Reading back what was printed. *)
Lemma Atoi_Itoa z : in_int64 z = true -> Atoi (Itoa z) = Some z.
Proof.
  intros Hz. unfold Itoa, Atoi.
  destruct (digits_of_head (Z.to_nat (Z.log2 (Z.abs z))) (Z.abs z) "" ltac:(lia))
    as (c & s & Hd & Hc).
  pose proof (parse_digits_of _ _ "" (Itoa_fuel (Z.abs z) ltac:(lia))) as Hp.
  rewrite Hd in *. change (parse_digits "" (Z.abs z)) with (Some (Z.abs z)) in Hp.
  assert (Ascii.eqb c "-" = false /\ Ascii.eqb c "+" = false) as [Hm Hpl].
  { split; apply Ascii.eqb_neq; intros ->; done. }
  destruct (z <? 0) eqn:Hneg.
  - change (Ascii.eqb "-" "-") with true. cbv iota beta. rewrite Hp.
    replace (- Z.abs z) with z by lia. by rewrite Hz.
  - rewrite Hm, Hpl. cbv iota beta. rewrite Hp.
    replace (Z.abs z) with z by lia. by rewrite Hz.
Qed.

Lemma string_app_nil_r s : s +:+ "" = s.
Proof. induction s as [|c s IH]; [done|]. cbn. by f_equal. Qed.

Lemma string_app_assoc s t u : s +:+ (t +:+ u) = (s +:+ t) +:+ u.
Proof. induction s as [|c s IH]; [done|]. cbn. by f_equal. Qed.

Lemma string_length_app s t : String.length (s +:+ t) = (String.length s + String.length t)%nat.
Proof. induction s as [|c s IH]; [done|]. cbn. by f_equal. Qed.

Lemma HasPrefix_spec s p : HasPrefix s p = true <-> exists r, s = p +:+ r.
Proof.
  revert s. induction p as [|c p IH]; intros s; simpl.
  - split; [by exists s | done].
  - destruct s as [|d s]; simpl.
    + split; [done|]. intros [r Hr]. cbn in Hr. discriminate.
    + rewrite andb_true_iff, Ascii.eqb_eq, IH. split.
      * intros [-> [r ->]]. by exists r.
      * intros [r Hr]. cbn in Hr. simplify_eq. eauto.
Qed.

Lemma str_drop_app p r : str_drop (String.length p) (p +:+ r) = r.
Proof. induction p as [|c p IH]; [by destruct r | done]. Qed.

Lemma str_take_app p r : str_take (String.length p) (p +:+ r) = p.
Proof. induction p as [|c p IH]; [by destruct r | cbn; by f_equal]. Qed.

Lemma str_take_drop n s : str_take n s +:+ str_drop n s = s.
Proof. revert s. induction n as [|n IH]; intros [|c s]; cbn; f_equal; auto. Qed.

Lemma str_take_length n s : String.length (str_take n s) = (n `min` String.length s)%nat.
Proof. revert s. induction n as [|n IH]; intros [|c s]; cbn; auto. Qed.

Fixpoint no_space (s : string) : bool :=
  match s with
  | "" => true
  | String c s => negb (is_space c) && no_space s
  end.

Lemma no_space_app s t : no_space (s +:+ t) = no_space s && no_space t.
Proof. induction s as [|c s IH]; [done|]. cbn. by rewrite IH, andb_assoc. Qed.

Lemma trim_right_no_space s : no_space s = true -> trim_right s = s.
Proof.
  induction s as [|c s IH]; cbn; [done|]. intros [Hc Hs]%andb_true_iff. rewrite IH by done.
  destruct s; [|done]. by destruct (is_space c).
Qed.

Lemma TrimSpace_no_space s : no_space s = true -> TrimSpace s = s.
Proof.
  intros Hs. unfold TrimSpace. assert (trim_left s = s) as ->; [|by apply trim_right_no_space].
  destruct s as [|c s]; [done|]. cbn in *. by destruct (is_space c).
Qed.

Fixpoint string_has (c : ascii) (s : string) : bool :=
  match s with
  | "" => false
  | String d s => Ascii.eqb d c || string_has c s
  end.

Lemma string_has_app c s t : string_has c (s +:+ t) = string_has c s || string_has c t.
Proof. induction s as [|d s IH]; [done|]. cbn. by rewrite IH, orb_assoc. Qed.

(** What every byte satisfies. *)
Fixpoint string_forall (f : ascii -> bool) (s : string) : bool :=
  match s with
  | "" => true
  | String c s => f c && string_forall f s
  end.

Lemma string_forall_app f s t : string_forall f (s +:+ t) = string_forall f s && string_forall f t.
Proof. induction s as [|c s IH]; [done|]. cbn. by rewrite IH, andb_assoc. Qed.

Lemma string_forall_impl f g s :
  (forall c, f c = true -> g c = true) -> string_forall f s = true -> string_forall g s = true.
Proof.
  intros Hfg. induction s as [|c s IH]; [done|]. cbn. intros [Hc Hs]%andb_prop. by rewrite Hfg, IH.
Qed.

Lemma string_forall_has f s c : string_forall f s = true -> f c = false -> string_has c s = false.
Proof.
  intros Hs Hc. induction s as [|d s IH]; [done|]. cbn in *. apply andb_prop in Hs as [Hd Hs]. rewrite IH by done.
  destruct (Ascii.eqb_spec d c); [congruence|done].
Qed.

Lemma no_space_forall s : no_space s = string_forall (fun c => negb (is_space c)) s.
Proof. induction s as [|c s IH]; [done|]. cbn. by rewrite IH. Qed.

(** A byte is one of 256, so that what holds of all is checked. *)
Lemma ascii_forall (P : ascii -> bool) :
  forallb (fun n => P (ascii_of_nat n)) (seq 0 256) = true -> forall c, P c = true.
Proof.
  rewrite forallb_forall. intros H c. rewrite <- (ascii_nat_embedding c). apply H, in_seq.
  pose proof (nat_ascii_bounded c). lia.
Qed.

(** Trimming adds no bytes. *)
Lemma TrimSpace_has c s : string_has c s = false -> string_has c (TrimSpace s) = false.
Proof.
  assert (forall t, string_has c t = false -> string_has c (trim_right t) = false) as Hr.
  { induction t as [|d t IH]; [done|]. cbn [string_has trim_right]. intros [Hd Ht]%orb_false_iff. specialize (IH Ht).
    destruct (trim_right t); [destruct (is_space d); [done|]|]; cbn [string_has]; by rewrite Hd. }
  intros Hs. apply Hr. induction s as [|d s IH]; [done|]. cbn [trim_left string_has] in *. apply orb_false_iff in Hs as [Hd Hs].
  destruct (is_space d); [by apply IH|]. cbn. by rewrite Hd.
Qed.

(** Cutting at a byte that the first part does not contain. *)
Lemma cut_byte_app c a b :
  string_has c a = false -> cut_byte c (a +:+ String c b) = Some (a, b).
Proof.
  induction a as [|d a IH]; cbn; [by rewrite Ascii.eqb_refl|].
  intros [Hd Ha]%orb_false_iff. by rewrite Hd, IH.
Qed.

Lemma cut_byte_none c s : cut_byte c s = None <-> string_has c s = false.
Proof.
  induction s as [|d s IH]; cbn; [done|].
  destruct (Ascii.eqb d c); cbn; [done|]. rewrite <- IH.
  destruct (cut_byte c s) as [[a b]|]; done.
Qed.

Lemma cut_byte_some c s a b :
  cut_byte c s = Some (a, b) -> s = a +:+ String c b /\ string_has c a = false.
Proof.
  revert a b. induction s as [|d s IH]; intros a b; cbn; [done|].
  destruct (Ascii.eqb d c) eqn:Hd.
  - intros H. simplify_eq. apply Ascii.eqb_eq in Hd as ->. done.
  - destruct (cut_byte c s) as [[a' b']|]; [|done]. intros H. simplify_eq.
    destruct (IH a' b eq_refl) as [-> Ha]. cbn. by rewrite Hd.
Qed.

(** The bytes of a printed number. *)
Lemma digits_of_has c fuel n rest :
  0 <= n -> is_digit c = false ->
  string_has c (digits_of fuel n rest) = string_has c rest.
Proof.
  intros Hn Hc.
  assert (forall d s, 0 <= d < 10 -> string_has c (String (digit_byte d) s) = string_has c s) as Hd.
  { intros d s Hd. cbn. destruct (Ascii.eqb_spec (digit_byte d) c) as [<-|]; [|done].
    by rewrite digit_byte_is_digit in Hc. }
  revert n rest Hn. induction fuel as [|fuel IH]; intros n rest Hn; [done|].
  cbn [digits_of]. destruct (n <? 10) eqn:E.
  - apply Hd. lia.
  - rewrite IH by (apply Z.div_pos; lia). apply Hd. apply Z.mod_pos_bound. lia.
Qed.

Lemma Itoa_has c z : 0 <= z -> is_digit c = false -> string_has c (Itoa z) = false.
Proof.
  intros Hz Hc. unfold Itoa. replace (z <? 0) with false by lia.
  apply digits_of_has; [lia | done].
Qed.

Lemma Itoa_head z : 0 <= z -> exists c s, Itoa z = String c s /\ is_digit c = true.
Proof.
  intros Hz. unfold Itoa. replace (z <? 0) with false by lia. apply digits_of_head. lia.
Qed.

Lemma string_has_false_eqb c s : string_has c s = false -> String.eqb s (String c "") = false.
Proof.
  intros H. apply String.eqb_neq. intros ->. cbn in H. by rewrite Ascii.eqb_refl in H.
Qed.

(** [strings.Join] with a separator of one byte is undone by [strings.Split]. *)
Lemma split_byte_app c a b :
  string_has c a = false -> split_byte c (a +:+ String c b) = a :: split_byte c b.
Proof.
  induction a as [|d a IH]; cbn; [by rewrite Ascii.eqb_refl|].
  intros [Hd Ha]%orb_false_iff. by rewrite Hd, IH.
Qed.

Lemma split_byte_none c a : string_has c a = false -> split_byte c a = [a].
Proof.
  induction a as [|d a IH]; cbn; [done|]. intros [Hd Ha]%orb_false_iff. by rewrite Hd, IH.
Qed.

Lemma split_byte_concat c l :
  l <> [] -> Forall (fun s => string_has c s = false) l ->
  split_byte c (String.concat (String c "") l) = l.
Proof.
  induction l as [|a l IH]; [done|]. intros _ [Ha Hl]%Forall_cons_1.
  destruct l as [|b l]; [by apply split_byte_none|].
  change (String.concat (String c "") (a :: b :: l))
    with (a +:+ String c (String.concat (String c "") (b :: l))).
  by rewrite split_byte_app, IH.
Qed.

Lemma string_get_lt i s c : String.get i s = Some c -> (i < String.length s)%nat.
Proof.
  revert i. induction s as [|d s IH]; intros i; [done|]. destruct i as [|i]; cbn; [lia|]. intros ?%IH. lia.
Qed.

(** A string that is not empty has a last byte. *)
Lemma string_snoc s : s = "" \/ exists t c, s = t +:+ String c "".
Proof.
  induction s as [|c s [->|(t & d & ->)]]; [by left| |]; right; [by exists "", c|by exists (String c t), d].
Qed.

Lemma HasSuffix_snoc t c d : HasSuffix (t +:+ String c "") (String d "") = Ascii.eqb c d.
Proof.
  unfold HasSuffix. rewrite string_length_app. cbn [String.length].
  replace (String.length t + 1 - 1)%nat with (String.length t) by lia. rewrite str_drop_app.
  rewrite (proj2 (Nat.leb_le 1 _)) by lia. cbn. by destruct (Ascii.eqb c d).
Qed.

Lemma split_byte_pieces c s : Forall (fun x => string_has c x = false) (split_byte c s).
Proof.
  induction s as [|d s IH]; cbn [split_byte]; [by constructor|].
  destruct (Ascii.eqb d c) eqn:Hd; [by constructor|].
  destruct (split_byte c s) as [|w ws]; [by repeat constructor; cbn; rewrite Hd|].
  inversion IH; subst. constructor; [|done]. cbn. by rewrite Hd.
Qed.

Lemma split_byte_cases c s :
  (string_has c s = false /\ split_byte c s = [s]) \/
  exists a b, s = a +:+ String c b /\ string_has c a = false /\ split_byte c s = a :: split_byte c b.
Proof.
  destruct (cut_byte c s) as [[a b]|] eqn:Hc.
  - apply cut_byte_some in Hc as [-> Ha]. right. exists a, b. by rewrite split_byte_app.
  - apply cut_byte_none in Hc. left. by rewrite split_byte_none.
Qed.

(** Induction over the pieces of a string. *)
Lemma split_byte_ind c (P : string -> Prop) :
  (forall s, string_has c s = false -> P s) ->
  (forall a b, string_has c a = false -> P b -> P (a +:+ String c b)) ->
  forall s, P s.
Proof.
  intros H0 H1 s. remember (String.length s) as n eqn:Hn. revert s Hn.
  induction (Nat.lt_wf_0 n) as [n _ IH]. intros s ->.
  destruct (split_byte_cases c s) as [[Hs _]|(a & b & -> & Ha & _)]; [by apply H0|].
  apply H1; [done|]. eapply IH; [|done]. rewrite string_length_app. cbn. lia.
Qed.

Lemma Atoi_range s z : Atoi s = Some z -> in_int64 z = true.
Proof.
  unfold Atoi. intros H.
  repeat match type of H with
  | context [let '(_, _) := ?e in _] => destruct e as [neg digits]
  | context [match ?d with "" => _ | String _ _ => _ end] => destruct d
  | context [match parse_digits ?a ?b with _ => _ end] => destruct (parse_digits a b)
  | context [if in_int64 ?z then _ else _] => destruct (in_int64 z) eqn:?
  end; by simplify_eq.
Qed.

Lemma cut_last_none c s : string_has c s = false -> cut_last_byte c s = None.
Proof.
  induction s as [|d s IH]; [done|]. cbn. intros [Hd Hs]%orb_false_iff. by rewrite IH, Hd.
Qed.

Lemma cut_last_app c a x : string_has c x = false -> cut_last_byte c (a +:+ String c x) = Some (a, x).
Proof.
  intros Hx. induction a as [|d a IH]; cbn; [by rewrite cut_last_none, Ascii.eqb_refl|]. by rewrite IH.
Qed.

Lemma str_take_all n s : (String.length s <= n)%nat -> str_take n s = s.
Proof. revert s. induction n as [|n IH]; intros [|c s]; cbn; intros; f_equal; auto with lia. Qed.

Lemma HasSuffix_spec s suffix : HasSuffix s suffix = true <-> exists p, s = p +:+ suffix.
Proof.
  unfold HasSuffix. rewrite andb_true_iff, String.eqb_eq. split.
  - intros [_ Hd]. exists (str_take (String.length s - String.length suffix) s).
    rewrite <- Hd at 2. by rewrite str_take_drop.
  - intros [p ->]. rewrite string_length_app. split; [lia|].
    replace (String.length p + String.length suffix - String.length suffix)%nat with (String.length p) by lia.
    apply str_drop_app.
Qed.

Lemma TrimSuffix_app p suffix : TrimSuffix (p +:+ suffix) suffix = p.
Proof.
  unfold TrimSuffix. assert (HasSuffix (p +:+ suffix) suffix = true) as -> by (apply HasSuffix_spec; eauto).
  rewrite string_length_app.
  replace (String.length p + String.length suffix - String.length suffix)%nat with (String.length p) by lia.
  apply str_take_app.
Qed.

Lemma digits_of_forall fuel n rest :
  string_forall is_digit rest = true -> 0 <= n -> string_forall is_digit (digits_of fuel n rest) = true.
Proof.
  revert n rest. induction fuel as [|fuel IH]; intros n rest Hr Hn; cbn; [done|].
  destruct (Z.ltb_spec n 10); [cbn; by rewrite digit_byte_is_digit|]. apply IH; [|apply Z.div_pos; lia].
  cbn. by rewrite digit_byte_is_digit by (apply Z.mod_pos_bound; lia).
Qed.

Lemma Itoa_digits z : 0 <= z -> string_forall is_digit (Itoa z) = true.
Proof.
  intros Hz. unfold Itoa. rewrite (proj2 (Z.ltb_ge z 0)) by done. apply digits_of_forall; [done|lia].
Qed.

(** ** The order of strings

    [sort.Strings] and [slices.Sorted] put strings in this order. *)

Definition str_le (a b : string) : Prop := String.leb a b = true.
#[global] Instance str_le_dec : RelDecision str_le := fun a b => decide (String.leb a b = true).

#[global] Instance str_le_total : Total str_le.
Proof. intros a b. apply String.leb_total. Qed.

#[global] Instance str_le_trans : Transitive str_le.
Proof.
  intros a. unfold str_le, String.leb. induction a as [|x a IH]; intros [|y b] [|z c]; try done.
  cbn. unfold Ascii.compare. specialize (IH b c).
  destruct (N.compare_spec (N_of_ascii x) (N_of_ascii y)) as [Hxy|Hxy|Hxy]; [| |done];
  destruct (N.compare_spec (N_of_ascii y) (N_of_ascii z)) as [Hyz|Hyz|Hyz]; try done;
  (destruct (N.compare_spec (N_of_ascii x) (N_of_ascii z)); try done; try lia).
Qed.

Lemma ToLower_idem s : ToLower (ToLower s) = ToLower s.
Proof.
  induction s as [|c s IH]; [done|]. cbn. unfold ToLower in *. rewrite IH. f_equal.
  apply Ascii.eqb_eq. revert c. apply ascii_forall. by vm_compute.
Qed.
