(* ===== verification/Calendar.v ===== *)
(** * Go's calendar

    What the scheduler uses of package [time]: the civil date and the clock of
    an instant in a location of fixed offset from UTC, [time.Date] with its
    normalisation, [AddDate] of years, and [Truncate].

    Days are numbered from January 1, 1970.  Months are numbered [12 * year +
    month - 1], which makes the normalisation of [time.Date] plain arithmetic:
    month 13 of a year is month 1 of the next. *)

From S2P Require Import Prelude.

(** ** Days and months of the proleptic Gregorian calendar

    Years are counted from March, so that the leap day is the last of its
    year.  [march_days y] days lie before March 1 of year [y] (from March 1 of
    year 0), and [march_month m] days of a year before its month [m]. *)

Definition march_days (y : Z) : Z := 365 * y + y / 4 - y / 100 + y / 400.
Definition march_month (m : Z) : Z := (153 * m + 2) / 5.

(** March 1 of year 0 is day -719468. *)
Definition epoch_shift : Z := 719468.

(** The first day of month number [M]. *)
Definition month_start (M : Z) : Z :=
  march_days ((M - 2) / 12) + march_month ((M - 2) mod 12) - epoch_shift.

(** The March year of a day, by cycles of 400, 100, 4 and 1 years. *)
Definition march_year (z : Z) : Z :=
  let e := z / 146097 in
  let d400 := z mod 146097 in
  let c := Z.min (d400 / 36524) 3 in
  let d100 := d400 - 36524 * c in
  let q := d100 / 1461 in
  let d4 := d100 - 1461 * q in
  let a := Z.min (d4 / 365) 3 in
  400 * e + 100 * c + 4 * q + a.

(** The month of a day. *)
Definition month_of (n : Z) : Z :=
  let z := n + epoch_shift in
  let y := march_year z in
  12 * y + (5 * (z - march_days y) + 2) / 153 + 2.

(** ** The fields of an instant

    [off] is the offset of the location from UTC, in seconds. *)

Definition local_seconds (off : Z) (t : Time) : Z := t / Second + off.
Definition local_day (off : Z) (t : Time) : Z := local_seconds off t / 86400.
Definition second_of_day (off : Z) (t : Time) : Z := local_seconds off t mod 86400.

Definition time_Year (off : Z) (t : Time) : Z := month_of (local_day off t) / 12.
Definition time_Month (off : Z) (t : Time) : Z := month_of (local_day off t) mod 12 + 1.
Definition time_Day (off : Z) (t : Time) : Z :=
  local_day off t - month_start (month_of (local_day off t)) + 1.
Definition time_Weekday (off : Z) (t : Time) : Z := (local_day off t + 4) mod 7.
Definition time_Hour (off : Z) (t : Time) : Z := second_of_day off t / 3600.
Definition time_Minute (off : Z) (t : Time) : Z := second_of_day off t mod 3600 / 60.
Definition time_Second (off : Z) (t : Time) : Z := second_of_day off t mod 60.
Definition time_Nanosecond (t : Time) : Z := t mod Second.

(** [time.Date(year, month, day, hour, min, sec, nsec, loc)]: any argument may
    be out of its usual range. *)
Definition time_Date (off year month day hour min sec nsec : Z) : Time :=
  ((month_start (12 * year + (month - 1)) + (day - 1)) * 86400
   + hour * 3600 + min * 60 + sec - off) * Second + nsec.

(** [t.AddDate(years, 0, 0)] *)
Definition AddYears (off : Z) (t : Time) (years : Z) : Time :=
  time_Date off (time_Year off t + years) (time_Month off t) (time_Day off t)
    (time_Hour off t) (time_Minute off t) (time_Second off t) (time_Nanosecond t).

(** [t.Truncate(d)] rounds down to a multiple of [d] since the zero time. *)
Definition time_Truncate (t : Time) (d : Duration) : Time :=
  if d <=? 0 then t else t - (t - zero_time) mod d.

(** ** Reference: the lengths of the months *)

Definition is_leap (y : Z) : bool :=
  (y mod 4 =? 0) && (negb (y mod 100 =? 0) || (y mod 400 =? 0)).

Definition days_in_month (y m : Z) : Z :=
  if m =? 2 then (if is_leap y then 29 else 28)
  else if (m =? 4) || (m =? 6) || (m =? 9) || (m =? 11) then 30
  else 31.

(** ** The calendar is right *)

Ltac divs := Z.to_euclidean_division_equations; lia.

Lemma march_days_cycles e c q a :
  0 <= c <= 3 -> 0 <= q <= 24 -> 0 <= a <= 3 ->
  march_days (400 * e + 100 * c + 4 * q + a) = 146097 * e + 36524 * c + 1461 * q + 365 * a.
Proof. unfold march_days. intros. divs. Qed.

Lemma march_days_mono y : march_days y + 365 <= march_days (y + 1) <= march_days y + 366.
Proof. unfold march_days. divs. Qed.

Lemma march_year_spec z :
  march_days (march_year z) <= z < march_days (march_year z + 1).
Proof.
  unfold march_year.
  set (e := z / 146097). set (d400 := z mod 146097).
  set (c := Z.min (d400 / 36524) 3). set (d100 := d400 - 36524 * c).
  set (q := d100 / 1461). set (d4 := d100 - 1461 * q). set (a := Z.min (d4 / 365) 3).
  assert (z = 146097 * e + d400 /\ 0 <= d400 < 146097) as [Hz Hd] by (subst e d400; divs).
  assert (0 <= c <= 3 /\ 0 <= d100 /\ (c < 3 -> d100 < 36524) /\ (c = 3 -> d100 < 36525))
    as (Hc & Hd1 & Hd2 & Hd3) by (subst c d100; divs).
  assert (0 <= q <= 24 /\ 0 <= d4 < 1461 /\ d100 = 1461 * q + d4) as (Hq & Hd4 & Hdq)
    by (subst q d4; divs).
  assert (0 <= a <= 3 /\ 0 <= d4 - 365 * a /\ (a < 3 -> d4 - 365 * a < 365) /\
          (a = 3 -> d4 - 365 * a < 366)) as (Ha & Ha1 & Ha2 & Ha3) by (subst a; divs).
  rewrite march_days_cycles by done. split; [lia|].
  assert (d100 = d400 - 36524 * c) as Hd100 by done. clearbody e d400 c d100 q d4 a.
  destruct (decide (a = 3)) as [->|]; [destruct (decide (q = 24)) as [->|];
    [destruct (decide (c = 3)) as [->|]|]|].
  - replace (400 * e + 100 * 3 + 4 * 24 + 3 + 1) with (400 * (e + 1) + 100 * 0 + 4 * 0 + 0) by lia.
    rewrite march_days_cycles; lia.
  - replace (400 * e + 100 * c + 4 * 24 + 3 + 1) with (400 * e + 100 * (c + 1) + 4 * 0 + 0) by lia.
    rewrite march_days_cycles; lia.
  - replace (400 * e + 100 * c + 4 * q + 3 + 1) with (400 * e + 100 * c + 4 * (q + 1) + 0) by lia.
    rewrite march_days_cycles; lia.
  - replace (400 * e + 100 * c + 4 * q + a + 1) with (400 * e + 100 * c + 4 * q + (a + 1)) by lia.
    rewrite march_days_cycles; lia.
Qed.

Lemma march_month_spec d :
  0 <= d < 366 ->
  let m := (5 * d + 2) / 153 in
  0 <= m <= 11 /\ march_month m <= d /\ (m < 11 -> d < march_month (m + 1)).
Proof. unfold march_month. intros Hd. cbv zeta. split; [|split]; divs. Qed.

(** The month of a day is the one whose first day is the last not after it. *)
Lemma month_of_spec n : month_start (month_of n) <= n < month_start (month_of n + 1).
Proof.
  unfold month_of, month_start.
  pose proof (march_year_spec (n + epoch_shift)) as Hy.
  set (y := march_year (n + epoch_shift)) in *.
  pose proof (march_days_mono y) as Hm.
  pose proof (march_month_spec (n + epoch_shift - march_days y) ltac:(lia)) as Hmm.
  cbv zeta in Hmm.
  set (m := (5 * (n + epoch_shift - march_days y) + 2) / 153) in *.
  destruct Hmm as (Hm0 & Hm1 & Hm2).
  replace ((12 * y + m + 2 - 2) / 12) with y by divs.
  replace ((12 * y + m + 2 - 2) mod 12) with m by divs.
  split; [lia|].
  destruct (decide (m = 11)) as [He|He].
  - replace ((12 * y + m + 2 + 1 - 2) / 12) with (y + 1) by divs.
    replace ((12 * y + m + 2 + 1 - 2) mod 12) with 0 by divs.
    change (march_month 0) with 0. lia.
  - replace ((12 * y + m + 2 + 1 - 2) / 12) with y by divs.
    replace ((12 * y + m + 2 + 1 - 2) mod 12) with (m + 1) by divs. lia.
Qed.

Lemma month_start_step M : month_start M + 28 <= month_start (M + 1) <= month_start M + 31.
Proof.
  unfold month_start.
  assert (0 <= (M - 2) mod 12 < 12) as Hm by (apply Z.mod_pos_bound; lia).
  set (y := (M - 2) / 12) in *. set (m := (M - 2) mod 12) in *.
  pose proof (march_days_mono y) as Hd.
  destruct (decide (m = 11)) as [He|He].
  - replace ((M + 1 - 2) / 12) with (y + 1) by (subst y m; divs).
    replace ((M + 1 - 2) mod 12) with 0 by (subst y m; divs).
    rewrite He. change (march_month 0) with 0. change (march_month 11) with 337. lia.
  - replace ((M + 1 - 2) / 12) with y by (subst y m; divs).
    replace ((M + 1 - 2) mod 12) with (m + 1) by (subst y m; divs).
    clearbody y m. unfold march_month. divs.
Qed.

Lemma month_start_mono M N : M < N -> month_start M < month_start N.
Proof.
  intros H. replace N with (M + Z.of_nat (S (Z.to_nat (N - M - 1)))) by lia.
  generalize (Z.to_nat (N - M - 1)) as k. clear N H.
  induction k as [|k IH]; [change (Z.of_nat 1) with 1; pose proof (month_start_step M); lia|].
  pose proof (month_start_step (M + Z.of_nat (S k))).
  replace (M + Z.of_nat (S (S k))) with (M + Z.of_nat (S k) + 1) by lia. lia.
Qed.

Lemma month_of_unique n M : month_start M <= n < month_start (M + 1) -> month_of n = M.
Proof.
  intros H. pose proof (month_of_spec n) as Hs.
  destruct (Z.lt_trichotomy (month_of n) M) as [Hl|[Hl|Hl]]; [|done|].
  - destruct (decide (month_of n + 1 = M)) as [<-|Hne]; [lia|].
    pose proof (month_start_mono (month_of n + 1) M ltac:(lia)). lia.
  - destruct (decide (M + 1 = month_of n)) as [Heq|Hne]; [rewrite Heq in H; lia|].
    pose proof (month_start_mono (M + 1) (month_of n) ltac:(lia)). lia.
Qed.

(** A day is in month [M] exactly between the first days of [M] and [M + 1]. *)
Lemma month_of_iff n M : month_of n = M <-> month_start M <= n < month_start (M + 1).
Proof. split; [intros <-; apply month_of_spec | apply month_of_unique]. Qed.

Lemma month_start_length M :
  month_start (M + 1) - month_start M = days_in_month (M / 12) (M mod 12 + 1).
Proof.
  unfold month_start, days_in_month, is_leap.
  assert (M = 12 * (M / 12) + M mod 12 /\ 0 <= M mod 12 < 12) as [HM Hm] by divs.
  set (y := M / 12) in *. set (m := M mod 12) in *. clearbody y m. subst M.
  destruct (decide (m = 0)) as [->|]; [|destruct (decide (m = 1)) as [->|]].
  - replace ((12 * y + 0 + 1 - 2) / 12) with (y - 1) by divs.
    replace ((12 * y + 0 + 1 - 2) mod 12) with 11 by divs.
    replace ((12 * y + 0 - 2) / 12) with (y - 1) by divs.
    replace ((12 * y + 0 - 2) mod 12) with 10 by divs.
    change (march_month 11) with 337. change (march_month 10) with 306. simpl. lia.
  - replace ((12 * y + 1 + 1 - 2) / 12) with y by divs.
    replace ((12 * y + 1 + 1 - 2) mod 12) with 0 by divs.
    replace ((12 * y + 1 - 2) / 12) with (y - 1) by divs.
    replace ((12 * y + 1 - 2) mod 12) with 11 by divs.
    change (march_month 11) with 337. change (march_month 0) with 0.
    change (1 + 1 =? 2) with true. cbv iota. unfold march_days.
    destruct (y mod 4 =? 0) eqn:E4, (y mod 100 =? 0) eqn:E100, (y mod 400 =? 0) eqn:E400;
      cbn [andb orb negb]; divs.
  - replace ((12 * y + m + 1 - 2) / 12) with y by divs.
    replace ((12 * y + m + 1 - 2) mod 12) with (m - 1) by divs.
    replace ((12 * y + m - 2) / 12) with y by divs.
    replace ((12 * y + m - 2) mod 12) with (m - 2) by divs.
    assert (m = 2 \/ m = 3 \/ m = 4 \/ m = 5 \/ m = 6 \/ m = 7 \/ m = 8 \/ m = 9 \/
            m = 10 \/ m = 11) as Hcases by lia.
    repeat destruct Hcases as [->|Hcases]; try subst m;
      match goal with |- march_days y + march_month ?a - _ - (_ + march_month ?b - _) = _ =>
        let a' := eval vm_compute in (march_month a) in
        let b' := eval vm_compute in (march_month b) in
        change (march_month a) with a'; change (march_month b) with b'
      end; simpl; lia.
Qed.

(** ** Fields and [time.Date] *)

Lemma local_day_Date off y mo d h mi s ns :
  0 <= h * 3600 + mi * 60 + s < 86400 -> 0 <= ns < Second ->
  local_day off (time_Date off y mo d h mi s ns) = month_start (12 * y + (mo - 1)) + (d - 1) /\
  second_of_day off (time_Date off y mo d h mi s ns) = h * 3600 + mi * 60 + s.
Proof.
  intros Hs Hns. unfold local_day, second_of_day, local_seconds, time_Date.
  set (D := month_start (12 * y + (mo - 1)) + (d - 1)). clearbody D.
  rewrite Z.div_add_l, (Z.div_small ns) by (unfold Second in *; lia).
  split.
  - symmetry. apply (Z.div_unique _ _ _ (h * 3600 + mi * 60 + s)); lia.
  - symmetry. apply (Z.mod_unique _ _ D); lia.
Qed.

Lemma time_Date_roundtrip off t :
  time_Date off (time_Year off t) (time_Month off t) (time_Day off t)
    (time_Hour off t) (time_Minute off t) (time_Second off t) (time_Nanosecond t) = t.
Proof.
  unfold time_Date, time_Year, time_Month, time_Day, time_Hour, time_Minute, time_Second,
    time_Nanosecond.
  set (n := local_day off t). set (M := month_of n).
  replace (12 * (M / 12) + (M mod 12 + 1 - 1)) with M by divs.
  replace (month_start M + (n - month_start M + 1 - 1)) with n by lia.
  assert (second_of_day off t / 3600 * 3600 + second_of_day off t mod 3600 / 60 * 60 +
          second_of_day off t mod 60 = second_of_day off t) as Hs by divs.
  subst n. unfold local_day in *.
  assert (local_seconds off t / 86400 * 86400 + second_of_day off t = local_seconds off t) as Hl
    by (unfold second_of_day; divs).
  replace (local_seconds off t / 86400 * 86400 + second_of_day off t / 3600 * 3600 +
    second_of_day off t mod 3600 / 60 * 60 + second_of_day off t mod 60 - off)
    with (local_seconds off t - off) by lia.
  unfold local_seconds. pose proof (Z.div_mod t Second). unfold Second in *. lia.
Qed.

(** The calendar is the Gregorian one and [time.Date] inverts the fields:
    each month has its length, leap years included; and for every instant and
    offset, rebuilding the instant from its year, month, day and clock gives it
    back, with the month and the day in their ranges. *)
Theorem calendar_correct :
  (forall M, month_start (M + 1) - month_start M = days_in_month (M / 12) (M mod 12 + 1)) /\
  (forall off t,
     time_Date off (time_Year off t) (time_Month off t) (time_Day off t)
       (time_Hour off t) (time_Minute off t) (time_Second off t) (time_Nanosecond t) = t /\
     1 <= time_Month off t <= 12 /\
     1 <= time_Day off t <= days_in_month (time_Year off t) (time_Month off t)).
Proof.
  split; [apply month_start_length|]. intros off t. split; [apply time_Date_roundtrip|].
  unfold time_Year, time_Month, time_Day. set (M := month_of (local_day off t)).
  rewrite <- month_start_length. pose proof (month_of_spec (local_day off t)). fold M in H.
  split; [divs | lia].
Qed.

Example calendar_leap_day :
  let t := time_Date 3600 2024 2 29 23 59 0 0 in
  (time_Year 3600 t, time_Month 3600 t, time_Day 3600 t, time_Weekday 3600 t) = (2024, 2, 29, 4).
Proof. reflexivity. Qed.

Example calendar_normalised :
  time_Date 0 2023 14 1 0 0 0 0 = time_Date 0 2024 2 1 0 0 0 0 /\
  time_Date 0 2023 2 29 0 0 0 0 = time_Date 0 2023 3 1 0 0 0 0.
Proof. split; reflexivity. Qed.
