(* ===== verification/Circuit.v ===== *)
(** * The circuit breaker ([pantry/retry/circuit.go])

    The mutex-protected state of a [Circuit] as a record, its critical sections
    as functions on it, [Do] as their sequential composition, and a step
    relation in which the critical sections of concurrent [Do] calls, of
    [State], [Reset] and [Trip] interleave.

    Every [time.Now()] is an argument.  The callback [OnStateChange] runs in a
    goroutine of its own, so a call to it is recorded in [notified]. *)

From S2P Require Import Prelude.

(** ** Data *)

Inductive CircuitState := CircuitClosed | CircuitOpen | CircuitHalfOpen.

#[export] Instance CircuitState_eq_dec : EqDecision CircuitState.
Proof. solve_decision. Defined.

Definition CircuitState_String (s : CircuitState) : string :=
  match s with
  | CircuitClosed => "closed"
  | CircuitOpen => "open"
  | CircuitHalfOpen => "half-open"
  end.

Record CircuitConfig {E : Type} := mkCircuitConfig {
  FailureThreshold : Z;
  SuccessThreshold : Z;
  CircuitTimeout : Duration;
  MaxHalfOpenRequests : Z;
  IsFailure : option (E -> bool);
  OnStateChange : bool  (* whether a callback is configured *)
}.
Arguments CircuitConfig : clear implicits.
Arguments mkCircuitConfig {E} _ _ _ _ _ _.

Record Circuit {E : Type} := mkCircuit {
  cfg : CircuitConfig E;
  state : CircuitState;
  failures : Z;
  successes : Z;
  lastFailure : Time;
  halfOpenRequests : Z;
  notified : list (CircuitState * CircuitState)
}.
Arguments Circuit : clear implicits.
Arguments mkCircuit {E} _ _ _ _ _ _ _.

Section circuit.
Context {E : Type} (ErrCircuitOpen : E).
Implicit Types (c : Circuit E) (err : option E).

Definition DefaultCircuitConfig : CircuitConfig E :=
  mkCircuitConfig 5 2 (30 * Second) 1 None false.

(** [NewCircuit] replaces the fields that are not positive. *)
Definition circuit_defaults (k : CircuitConfig E) : CircuitConfig E :=
  mkCircuitConfig
    (if FailureThreshold k <=? 0 then 5 else FailureThreshold k)
    (if SuccessThreshold k <=? 0 then 2 else SuccessThreshold k)
    (if CircuitTimeout k <=? 0 then 30 * Second else CircuitTimeout k)
    (if MaxHalfOpenRequests k <=? 0 then 1 else MaxHalfOpenRequests k)
    (IsFailure k) (OnStateChange k).

Definition NewCircuit (k : CircuitConfig E) : Circuit E :=
  mkCircuit (circuit_defaults k) CircuitClosed 0 0 zero_time 0 [].

(** ** The critical sections *)

Definition transitionTo c (s : CircuitState) : Circuit E :=
  if decide (state c = s) then c else
  let note := if OnStateChange (cfg c)
              then notified c ++ [(state c, s)] else notified c in
  match s with
  | CircuitClosed => mkCircuit (cfg c) s 0 0 (lastFailure c) 0 note
  | CircuitOpen => mkCircuit (cfg c) s (failures c) 0 (lastFailure c) 0 note
  | CircuitHalfOpen =>
      mkCircuit (cfg c) s (failures c) 0 (lastFailure c) (halfOpenRequests c) note
  end.

Definition allowRequest c (now : Time) : Circuit E * option E :=
  match state c with
  | CircuitClosed => (c, None)
  | CircuitOpen =>
      if CircuitTimeout (cfg c) <=? time_Sub now (lastFailure c)
      then (transitionTo c CircuitHalfOpen, None)
      else (c, Some ErrCircuitOpen)
  | CircuitHalfOpen =>
      if MaxHalfOpenRequests (cfg c) <=? halfOpenRequests c
      then (c, Some ErrCircuitOpen)
      else (c, None)
  end.

(** The second critical section of [Do]: the request counts as a half-open one
    when the circuit is half-open at this moment. *)
Definition enterRequest c : Circuit E * bool :=
  match state c with
  | CircuitHalfOpen =>
      (mkCircuit (cfg c) (state c) (failures c) (successes c) (lastFailure c)
                 (halfOpenRequests c + 1) (notified c), true)
  | _ => (c, false)
  end.

Definition isFailure c err : bool :=
  match err with
  | None => false
  | Some e => match IsFailure (cfg c) with Some f => f e | None => true end
  end.

Definition recordResult c err (wasHalfOpen : bool) (now : Time) : Circuit E :=
  let h := if wasHalfOpen then halfOpenRequests c - 1 else halfOpenRequests c in
  let c := mkCircuit (cfg c) (state c) (failures c) (successes c) (lastFailure c)
                     h (notified c) in
  match state c with
  | CircuitClosed =>
      if isFailure c err then
        let c := mkCircuit (cfg c) (state c) (failures c + 1) (successes c) now
                           h (notified c) in
        if FailureThreshold (cfg c) <=? failures c
        then transitionTo c CircuitOpen else c
      else mkCircuit (cfg c) (state c) 0 (successes c) (lastFailure c) h (notified c)
  | CircuitHalfOpen =>
      if isFailure c err then
        transitionTo (mkCircuit (cfg c) (state c) (failures c) (successes c) now
                                h (notified c)) CircuitOpen
      else
        let c := mkCircuit (cfg c) (state c) (failures c) (successes c + 1)
                           (lastFailure c) h (notified c) in
        if SuccessThreshold (cfg c) <=? successes c
        then transitionTo c CircuitClosed else c
  | CircuitOpen => c
  end.

Definition Circuit_State c (now : Time) : Circuit E * CircuitState :=
  let c' := match state c with
            | CircuitOpen =>
                if CircuitTimeout (cfg c) <=? time_Sub now (lastFailure c)
                then transitionTo c CircuitHalfOpen else c
            | _ => c
            end in
  (c', state c').

Definition Circuit_Reset c : Circuit E := transitionTo c CircuitClosed.

Definition Circuit_Trip c (now : Time) : Circuit E :=
  transitionTo (mkCircuit (cfg c) (state c) (failures c) (successes c) now
                          (halfOpenRequests c) (notified c)) CircuitOpen.

Definition Circuit_Failures c : Z := failures c.

(** ** [Do], alone on the circuit

    [W] is the state of the world the protected function acts on and [now]
    reads its clock. *)

Section sequential.
Context {W : Type} (now : W -> Time).

Definition Circuit_Do c (fn : W -> W * option E) (w : W) : Circuit E * W * option E :=
  match allowRequest c (now w) with
  | (c, Some e) => (c, w, Some e)
  | (c, None) =>
      let '(c, isHalfOpen) := enterRequest c in
      let '(w, err) := fn w in
      (recordResult c err isHalfOpen (now w), w, err)
  end.

Definition CircuitDoWithResult {T : Type} (zero : T) c
    (fn : W -> W * (T * option E)) (w : W) : Circuit E * W * (T * option E) :=
  match allowRequest c (now w) with
  | (c, Some e) => (c, w, (zero, Some e))
  | (c, None) =>
      let '(c, isHalfOpen) := enterRequest c in
      let '(w, (result, err)) := fn w in
      (recordResult c err isHalfOpen (now w), w, (result, err))
  end.

(** A sequence of calls, one after the other. *)
Fixpoint Circuit_DoAll c (fns : list (W -> W * option E)) (w : W)
    : Circuit E * W * list (option E) :=
  match fns with
  | [] => (c, w, [])
  | fn :: fns =>
      let '(c, w, err) := Circuit_Do c fn w in
      let '(c, w, errs) := Circuit_DoAll c fns w in
      (c, w, err :: errs)
  end.

End sequential.

(** ** Concurrent use

    A call of [Do] is in flight between its first and its last critical
    section: [Entering] before the second one, [Running] while the protected
    function runs, with the [isHalfOpen] flag it was given. *)

Inductive inflight := Entering | Running (isHalfOpen : bool).

#[export] Instance inflight_eq_dec : EqDecision inflight.
Proof. solve_decision. Defined.

Record csys := mkSys { circ : Circuit E; calls : gmap nat inflight }.

Inductive clabel :=
| LAllow (id : nat) (now : Time)     (* [Do] is admitted *)
| LReject (id : nat) (now : Time)    (* [Do] returns [ErrCircuitOpen] *)
| LEnter (id : nat)
| LRecord (id : nat) (err : option E) (now : Time)
| LPanic (id : nat)                  (* the function panics through [Do] *)
| LState (now : Time)
| LReset
| LTrip (now : Time).

(** One critical section.  [recordResult] is not deferred in [Do], so a panic
    of the protected function leaves the circuit as it is. *)
Definition sys_step (s : csys) (l : clabel) : option csys :=
  match l with
  | LAllow id now =>
      match calls s !! id, allowRequest (circ s) now with
      | None, (c, None) => Some (mkSys c (<[id := Entering]> (calls s)))
      | _, _ => None
      end
  | LReject id now =>
      match calls s !! id, allowRequest (circ s) now with
      | None, (c, Some _) => Some (mkSys c (calls s))
      | _, _ => None
      end
  | LEnter id =>
      match calls s !! id with
      | Some Entering =>
          let '(c, h) := enterRequest (circ s) in
          Some (mkSys c (<[id := Running h]> (calls s)))
      | _ => None
      end
  | LRecord id err now =>
      match calls s !! id with
      | Some (Running h) =>
          Some (mkSys (recordResult (circ s) err h now) (delete id (calls s)))
      | _ => None
      end
  | LPanic id =>
      match calls s !! id with
      | Some (Running _) => Some (mkSys (circ s) (delete id (calls s)))
      | _ => None
      end
  | LState now => Some (mkSys (Circuit_State (circ s) now).1 (calls s))
  | LReset => Some (mkSys (Circuit_Reset (circ s)) (calls s))
  | LTrip now => Some (mkSys (Circuit_Trip (circ s) now) (calls s))
  end.

Inductive sys_steps : csys -> list clabel -> csys -> Prop :=
| steps_nil s : sys_steps s [] s
| steps_snoc s ls t l u :
    sys_steps s ls t -> sys_step t l = Some u -> sys_steps s (ls ++ [l]) u.

Fixpoint sys_run (s : csys) (ls : list clabel) : option csys :=
  match ls with
  | [] => Some s
  | l :: ls => match sys_step s l with Some t => sys_run t ls | None => None end
  end.

Definition sys_init (k : CircuitConfig E) : csys := mkSys (NewCircuit k) ∅.

Definition is_panic (l : clabel) : bool := match l with LPanic _ => true | _ => false end.

(** The calls in flight that run as half-open requests. *)
Definition halfopen_running (m : gmap nat inflight) : gmap nat inflight :=
  filter (fun p => p.2 = Running true) m.

(** ** The specification: a three-state automaton

    What one [Do] at a time is specified to do, without the bookkeeping of
    half-open requests. *)

Inductive breaker :=
| BClosed (failures : Z)
| BOpen (since : Time)
| BHalfOpen (successes : Z).

Definition breaker_of c : breaker :=
  match state c with
  | CircuitClosed => BClosed (failures c)
  | CircuitOpen => BOpen (lastFailure c)
  | CircuitHalfOpen => BHalfOpen (successes c)
  end.

Definition breaker_admits (k : CircuitConfig E) (b : breaker) (now : Time) : bool :=
  match b with
  | BOpen since => CircuitTimeout k <=? now - since
  | _ => true
  end.

(** A probe: a call let through when the circuit was not closed. *)
Definition breaker_probe (k : CircuitConfig E) (n : Z) (failed : bool) (now : Time) : breaker :=
  if failed then BOpen now
  else if SuccessThreshold k <=? n + 1 then BClosed 0 else BHalfOpen (n + 1).

Definition breaker_record (k : CircuitConfig E) (b : breaker) (failed : bool) (now : Time)
    : breaker :=
  match b with
  | BClosed n =>
      if failed then (if FailureThreshold k <=? n + 1 then BOpen now else BClosed (n + 1))
      else BClosed 0
  | BOpen _ => breaker_probe k 0 failed now
  | BHalfOpen n => breaker_probe k n failed now
  end.

(** ** The invariant of the counters *)

Definition circuit_wf c : Prop :=
  0 < FailureThreshold (cfg c) /\ 0 < SuccessThreshold (cfg c) /\
  0 < CircuitTimeout (cfg c) /\ 0 < MaxHalfOpenRequests (cfg c) /\
  0 <= failures c <= FailureThreshold (cfg c) /\
  match state c with
  | CircuitClosed => failures c < FailureThreshold (cfg c) /\ successes c = 0
  | CircuitOpen => successes c = 0
  | CircuitHalfOpen => 0 <= successes c < SuccessThreshold (cfg c)
  end.

(** No call in flight, as far as the counter can tell. *)
Definition circuit_quiet c : Prop := circuit_wf c /\ halfOpenRequests c = 0.

(** The automaton over a list of calls, and what each call returns. *)
Fixpoint breaker_run {W : Type} (k : CircuitConfig E) (now : W -> Time) (b : breaker)
    (fns : list (W -> W * option E)) (w : W) : breaker * W * list (option E) :=
  match fns with
  | [] => (b, w, [])
  | fn :: fns =>
      if breaker_admits k b (now w) then
        let '(w, err) := fn w in
        let failed := match err with
                      | None => false
                      | Some e => match IsFailure k with Some f => f e | None => true end
                      end in
        let '(b, w, errs) := breaker_run k now (breaker_record k b failed (now w)) fns w in
        (b, w, err :: errs)
      else
        let '(b, w, errs) := breaker_run k now b fns w in
        (b, w, Some ErrCircuitOpen :: errs)
  end.

(** The counter of half-open requests never exceeds the half-open calls in
    flight, as long as none of them panics. *)
Definition counter_ok (s : csys) : Prop :=
  halfOpenRequests (circ s) <= Z.of_nat (size (halfopen_running (calls s))).

Ltac circuit_cases :=
  unfold Circuit_State, Circuit_Reset, Circuit_Trip, recordResult, allowRequest,
    enterRequest, transitionTo, circuit_wf in *;
  simpl in *;
  repeat (case_match; simplify_eq; simpl in * ); try lia; try done.

Lemma NewCircuit_wf k : circuit_wf (NewCircuit k).
Proof.
  destruct k; unfold circuit_wf, NewCircuit, circuit_defaults; simpl. split_ifs; unfold Second; lia.
Qed.

Lemma allowRequest_wf c now : circuit_wf c -> circuit_wf (allowRequest c now).1.
Proof. intros H. destruct c as [k [] f s t h n]; circuit_cases. Qed.

Lemma enterRequest_wf c : circuit_wf c -> circuit_wf (enterRequest c).1.
Proof. intros H. destruct c as [k [] f s t h n]; circuit_cases. Qed.

Lemma recordResult_wf c err h now : circuit_wf c -> circuit_wf (recordResult c err h now).
Proof. intros H. destruct c as [k [] f s t h' n]; circuit_cases. Qed.

Lemma Circuit_State_wf c now : circuit_wf c -> circuit_wf (Circuit_State c now).1.
Proof. intros H. destruct c as [k [] f s t h n]; circuit_cases. Qed.

Lemma Circuit_Reset_wf c : circuit_wf c -> circuit_wf (Circuit_Reset c).
Proof. intros H. destruct c as [k [] f s t h n]; circuit_cases. Qed.

Lemma Circuit_Trip_wf c now : circuit_wf c -> circuit_wf (Circuit_Trip c now).
Proof. intros H. destruct c as [k [] f s t h n]; circuit_cases. Qed.

Local Hint Resolve NewCircuit_wf allowRequest_wf enterRequest_wf recordResult_wf
  Circuit_State_wf Circuit_Reset_wf Circuit_Trip_wf : core.

(** Every step is one of the critical sections on the circuit. *)
Lemma sys_step_wf s l t : sys_step s l = Some t -> circuit_wf (circ s) -> circuit_wf (circ t).
Proof.
  intros Hs Hw.
  destruct l; cbn [sys_step] in Hs; repeat case_match; simplify_eq; cbn [circ]; auto;
    match goal with
    | H : allowRequest _ ?now = _ |- _ => pose proof (allowRequest_wf _ now Hw) as Ha; by rewrite H in Ha
    | H : enterRequest _ = _ |- _ => pose proof (enterRequest_wf _ Hw) as Ha; by rewrite H in Ha
    end.
Qed.

Lemma halfopen_running_insert m id p :
  m !! id = None \/ m !! id = Some Entering ->
  size (halfopen_running (<[id := p]> m)) =
  (size (halfopen_running m) + if decide (p = Running true) then 1 else 0)%nat.
Proof.
  intros Hid. unfold halfopen_running.
  assert (filter (fun q : nat * inflight => q.2 = Running true) m !! id = None) as Hn.
  { apply map_lookup_filter_None. destruct Hid as [|Hid]; [by left|].
    right. intros x Hx. simpl. congruence. }
  case_decide as Hp.
  - rewrite map_filter_insert_True by done. rewrite map_size_insert_None by done. lia.
  - rewrite map_filter_insert_False by done.
    rewrite map_filter_delete, delete_id by done. lia.
Qed.

Lemma halfopen_running_delete m id h :
  m !! id = Some (Running h) ->
  size (halfopen_running m) =
  (size (halfopen_running (delete id m)) + if h then 1 else 0)%nat.
Proof.
  intros Hid. rewrite <- (insert_delete_id m id (Running h)) at 1 by done.
  rewrite halfopen_running_insert by (left; apply lookup_delete_eq).
  destruct h; repeat case_decide; simplify_eq; lia.
Qed.

Lemma allowRequest_counter c now :
  halfOpenRequests (allowRequest c now).1 = halfOpenRequests c.
Proof. destruct c as [k [] f s t h n]; circuit_cases. Qed.

Lemma transitionTo_counter c s :
  halfOpenRequests (transitionTo c s) = halfOpenRequests c \/
  halfOpenRequests (transitionTo c s) = 0.
Proof. destruct c as [k st f su t h n], s; unfold transitionTo; case_decide; simpl; auto. Qed.

Lemma recordResult_counter c err b now :
  halfOpenRequests (recordResult c err b now) = 0 \/
  halfOpenRequests (recordResult c err b now) = halfOpenRequests c - (if b then 1 else 0).
Proof.
  unfold recordResult. destruct (state c), b; split_ifs; simpl;
    try match goal with |- context [transitionTo ?c ?s] =>
      destruct (transitionTo_counter c s) as [-> | ->] end; simpl; auto; right; lia.
Qed.

Lemma enterRequest_counter c :
  halfOpenRequests (enterRequest c).1 =
  halfOpenRequests c + (if (enterRequest c).2 then 1 else 0).
Proof. unfold enterRequest. destruct (state c); simpl; lia. Qed.

Lemma sys_step_counter s l t :
  is_panic l = false -> sys_step s l = Some t -> counter_ok s -> counter_ok t.
Proof.
  unfold counter_ok. intros Hp Hs Hc.
  destruct l; cbn [sys_step] in Hs; simpl in Hp; simplify_eq; repeat case_match; simplify_eq; cbn [circ calls].
  - rewrite halfopen_running_insert, decide_False by auto.
    pose proof (allowRequest_counter (circ s) now) as Ha. rewrite H0 in Ha. simpl in Ha. lia.
  - pose proof (allowRequest_counter (circ s) now) as Ha. rewrite H0 in Ha. simpl in Ha. lia.
  - rewrite halfopen_running_insert by auto.
    pose proof (enterRequest_counter (circ s)) as Ha. rewrite H1 in Ha. simpl in Ha.
    match goal with h : bool |- _ => destruct h end; case_decide; simplify_eq; lia.
  - rewrite (halfopen_running_delete _ _ _ H) in Hc.
    match goal with h : bool |- _ =>
      destruct (recordResult_counter (circ s) err h now) as [-> | ->]; destruct h; lia end.
  - unfold Circuit_State. repeat case_match; simpl; try lia.
    destruct (transitionTo_counter (circ s) CircuitHalfOpen) as [-> | ->]; lia.
  - unfold Circuit_Reset.
    destruct (transitionTo_counter (circ s) CircuitClosed) as [-> | ->]; lia.
  - unfold Circuit_Trip. match goal with |- context [transitionTo ?c ?s] =>
      destruct (transitionTo_counter c s) as [-> | ->] end; simpl; lia.
Qed.

Lemma sys_steps_wf k ls s : sys_steps (sys_init k) ls s -> circuit_wf (circ s).
Proof.
  remember (sys_init k) as i. induction 1; subst; simpl; eauto using sys_step_wf.
Qed.

Lemma sys_steps_counter k ls s :
  sys_steps (sys_init k) ls s -> forallb (fun l => negb (is_panic l)) ls = true -> counter_ok s.
Proof.
  remember (sys_init k) as i. induction 1 as [|s ls t l u Hst IH Hl]; subst.
  - intros _. unfold counter_ok. simpl. lia.
  - rewrite forallb_app, andb_true_iff. simpl. rewrite andb_true_r, negb_true_iff.
    intros [Hls Hp]. eauto using sys_step_counter.
Qed.

Lemma sys_run_steps s ls t u :
  sys_steps s ls t -> forall ls', sys_run t ls' = Some u -> sys_steps s (ls ++ ls') u.
Proof.
  intros Hst ls'. revert ls t Hst. induction ls' as [|l ls' IH]; intros ls t Hst Hrun; simpl in Hrun.
  - simplify_eq. by rewrite app_nil_r.
  - case_match; simplify_eq. rewrite (cons_middle l), (assoc_L (++)).
    eapply IH; [|done]. by econstructor.
Qed.

Lemma sys_run_init k ls s : sys_run (sys_init k) ls = Some s -> sys_steps (sys_init k) ls s.
Proof. apply (sys_run_steps _ []). constructor. Qed.

(** A circuit that nobody is using is decided by its configuration alone. *)
Lemma allowRequest_quiet c now :
  circuit_quiet c -> CircuitTimeout (cfg c) <= max_int64 ->
  if breaker_admits (cfg c) (breaker_of c) now
  then allowRequest c now =
       (match state c with CircuitOpen => transitionTo c CircuitHalfOpen | _ => c end, None)
  else allowRequest c now = (c, Some ErrCircuitOpen) /\ state c = CircuitOpen.
Proof.
  intros [(_ & _ & Ht & Hm & _) Hh] Hmax. unfold breaker_admits, breaker_of, allowRequest.
  destruct (state c) eqn:Hst; [done| |].
  - pose proof (time_Sub_ge now (lastFailure c) (CircuitTimeout (cfg c)) Hmax) as Hge.
    unfold min_int64 in Hge. repeat case_match; try done; lia.
  - case_match; [lia|done].
Qed.

(** The bookkeeping around one admitted call adds up to the automaton. *)
Lemma breaker_record_correct c err (now' : Time) :
  circuit_quiet c ->
  let c1 := match state c with CircuitOpen => transitionTo c CircuitHalfOpen | _ => c end in
  let '(c2, h) := enterRequest c1 in
  let c' := recordResult c2 err h now' in
  circuit_quiet c' /\ cfg c' = cfg c /\
  breaker_of c' = breaker_record (cfg c) (breaker_of c) (isFailure c err) now'.
Proof.
  intros [Hwf Hh]. destruct c as [k st f su t h n]. simpl in *; subst.
  unfold circuit_quiet, breaker_of, breaker_record, breaker_probe, circuit_wf, isFailure in *.
  destruct st; unfold enterRequest, recordResult, transitionTo, isFailure in *; simpl in *;
    split_ifs; simpl in *; repeat case_decide; simpl; try done; repeat split; simpl; try lia; done.
Qed.

Lemma DoAll_breaker_run {W : Type} (now : W -> Time) c fns w :
  circuit_quiet c -> CircuitTimeout (cfg c) <= max_int64 ->
  let '(c', w', errs) := Circuit_DoAll now c fns w in
  breaker_run (cfg c) now (breaker_of c) fns w = (breaker_of c', w', errs) /\
  circuit_quiet c' /\ cfg c' = cfg c.
Proof.
  intros Hq Hmax. revert c w Hq Hmax. induction fns as [|fn fns IH]; intros c w Hq Hmax; [done|].
  simpl. unfold Circuit_Do. pose proof (allowRequest_quiet c (now w) Hq Hmax) as Ha.
  destruct (breaker_admits _ _ _).
  - rewrite Ha.
    destruct (enterRequest (match state c with
      CircuitOpen => transitionTo c CircuitHalfOpen | _ => c end)) as [c2 h] eqn:He.
    destruct (fn w) as [w1 err].
    pose proof (breaker_record_correct c err (now w1) Hq) as Hr.
    cbv zeta in Hr. rewrite He in Hr. destruct Hr as (Hq' & Hk & Hb).
    specialize (IH _ w1 Hq' ltac:(by rewrite Hk)). rewrite Hk, Hb in IH.
    unfold isFailure in IH.
    destruct (Circuit_DoAll _ _ _ _) as [[c' w'] errs]. destruct IH as (-> & ? & ?). done.
  - destruct Ha as [-> _]. specialize (IH c w Hq Hmax).
    destruct (Circuit_DoAll _ _ _ _) as [[c' w'] errs]. destruct IH as (-> & ? & ?). done.
Qed.

Lemma NewCircuit_quiet k : circuit_quiet (NewCircuit k).
Proof. split; [apply NewCircuit_wf | done]. Qed.

Lemma circuit_defaults_timeout k :
  CircuitTimeout k <= max_int64 -> CircuitTimeout (circuit_defaults k) <= max_int64.
Proof. destruct k; simpl. split_ifs; unfold Second, max_int64; lia. Qed.

(** ** Properties *)

(** In every state that concurrent calls of [Do], [State], [Reset] and
    [Trip] can reach, from any configuration: the counters are within their
    thresholds for the state the circuit is in (so they cannot overflow), and
    the configured limits are positive. *)
Theorem circuit_reachable_wf k ls s :
  sys_steps (sys_init k) ls s -> circuit_wf (circ s).
Proof. apply sys_steps_wf. Qed.

(** A circuit breaker does not wedge in the half-open state: after any
    interleaving without panics, when no half-open request is in flight, the
    next request is admitted as a probe. *)
Theorem circuit_halfopen_admits k ls s now :
  sys_steps (sys_init k) ls s ->
  forallb (fun l => negb (is_panic l)) ls = true ->
  halfopen_running (calls s) = ∅ ->
  state (circ s) = CircuitHalfOpen ->
  allowRequest (circ s) now = (circ s, None).
Proof.
  intros Hs Hp Hq Hh.
  pose proof (sys_steps_counter _ _ _ Hs Hp) as Hc. unfold counter_ok in Hc.
  rewrite Hq in Hc. change (size ∅) with 0%nat in Hc.
  pose proof (sys_steps_wf _ _ _ Hs) as (_ & _ & _ & Hm & _).
  unfold allowRequest. rewrite Hh. case_match; [lia | done].
Qed.

(** C4. Calls of [Do] made one after the other refine the three-state
    automaton: for any list of protected functions, the circuit calls the
    functions the automaton admits and no other (the world is the same), every
    call returns its function's error, or [ErrCircuitOpen] when the automaton
    refuses it, and the circuit ends in the automaton's state. *)
Theorem Circuit_Do_refines {W : Type} (now : W -> Time) k fns w :
  CircuitTimeout k <= max_int64 ->
  let '(c', w', errs) := Circuit_DoAll now (NewCircuit k) fns w in
  breaker_run (circuit_defaults k) now (BClosed 0) fns w = (breaker_of c', w', errs).
Proof.
  intros Hmax.
  pose proof (DoAll_breaker_run now (NewCircuit k) fns w (NewCircuit_quiet k)
                (circuit_defaults_timeout k Hmax)) as H.
  destruct (Circuit_DoAll _ _ _ _) as [[c' w'] errs]. by destruct H.
Qed.

Lemma Circuit_Do_closed {W : Type} (now : W -> Time) c fn w w1 err :
  state c = CircuitClosed -> fn w = (w1, err) ->
  Circuit_Do now c fn w = (recordResult c err false (now w1), w1, err).
Proof.
  intros Hst Hfn. unfold Circuit_Do, allowRequest. rewrite Hst.
  unfold enterRequest. by rewrite Hst, Hfn.
Qed.

Lemma closed_failures_count {W : Type} (now : W -> Time) c fns w :
  circuit_wf c -> state c = CircuitClosed ->
  Forall (fun fn => forall v, isFailure c (fn v).2 = true) fns ->
  failures c + Z.of_nat (length fns) <= FailureThreshold (cfg c) ->
  let c' := (Circuit_DoAll now c fns w).1.1 in
  failures c' = failures c + Z.of_nat (length fns) /\
  state c' = (if FailureThreshold (cfg c) <=? failures c + Z.of_nat (length fns)
              then CircuitOpen else CircuitClosed).
Proof.
  intros Hwf Hst Hf. revert c w Hwf Hst Hf.
  induction fns as [|fn fns IH]; intros c w Hwf Hst Hf Hlen; cbn zeta.
  - destruct Hwf as (_ & _ & _ & _ & _ & Hs). rewrite Hst in Hs. simpl.
    split; [lia|]. case_match; [lia|done].
  - apply Forall_cons_1 in Hf as [Hfn Hf]. simpl in Hlen.
    specialize (Hfn w). destruct (fn w) as [w1 err] eqn:Hw. simpl in Hfn.
    simpl. rewrite (Circuit_Do_closed now c fn w w1 err Hst Hw).
    pose proof (recordResult_wf c err false (now w1) Hwf) as Hwf'.
    set (c1 := recordResult c err false (now w1)) in *.
    assert (cfg c1 = cfg c /\ failures c1 = failures c + 1 /\
            state c1 = if FailureThreshold (cfg c) <=? failures c + 1
                       then CircuitOpen else CircuitClosed) as (Hk & Hc1 & Hs1).
    { subst c1. destruct c as [k st f su t h n]. unfold recordResult, transitionTo, isFailure in *.
      simpl in *. subst st. rewrite Hfn. simpl.
      destruct (FailureThreshold k <=? f + 1); [case_decide; done | done]. }
    destruct fns as [|fn' fns].
    + simpl. rewrite Hc1, Hs1. simpl. split; [lia|]. done.
    + assert (state c1 = CircuitClosed) as Hcl.
      { rewrite Hs1. simpl in Hlen. case_match; [lia|done]. }
      specialize (IH c1 w1 Hwf' Hcl). rewrite Hk, Hc1 in IH.
      destruct (Circuit_DoAll now c1 (fn' :: fns) w1) as [[c' w'] errs] eqn:Hd.
      simpl in IH. cbn [fst]. simpl length in *.
      destruct IH as [-> ->]; [|lia|].
      * eapply Forall_impl; [|exact Hf]. intros g Hg v. unfold isFailure in *. by rewrite Hk.
      * split; [lia|].
        by replace (failures c + 1 + Z.of_nat (S (length fns)))
          with (failures c + Z.of_nat (S (S (length fns)))) by lia.
Qed.

(** From a new circuit, fewer than [FailureThreshold] failing calls in a
    row leave it closed with as many failures counted, and the call that
    reaches the threshold opens it. *)
Theorem circuit_opens_at_threshold {W : Type} (now : W -> Time) k fns w :
  Forall (fun fn => forall v, isFailure (NewCircuit k) (fn v).2 = true) fns ->
  Z.of_nat (length fns) <= FailureThreshold (circuit_defaults k) ->
  let c' := (Circuit_DoAll now (NewCircuit k) fns w).1.1 in
  Circuit_Failures c' = Z.of_nat (length fns) /\
  state c' = (if FailureThreshold (circuit_defaults k) <=? Z.of_nat (length fns)
              then CircuitOpen else CircuitClosed).
Proof.
  intros Hf Hlen.
  apply (closed_failures_count now (NewCircuit k) fns w (NewCircuit_wf k) eq_refl Hf Hlen).
Qed.

End circuit.

(** ** Where the bookkeeping of half-open requests fails *)

Section failures.
Context {E : Type} (ErrCircuitOpen : E).

(** The breaker of [DefaultCircuitConfig] is tripped, waits out its timeout and
    lets a probe through that panics. *)
Definition panic_trace : list (@clabel E) :=
  [LTrip 0; LAllow 0 (30 * Second); LEnter 0; LPanic 0].

(** Two requests pass [allowRequest] before either passes the second critical
    section. *)
Definition race_trace : list (@clabel E) :=
  [LTrip 0; LAllow 0 (30 * Second); LAllow 1 (30 * Second); LEnter 0; LEnter 1].

(** A probe is in flight while the circuit is tripped again. *)
Definition stale_trace : list (@clabel E) :=
  [LTrip 0; LAllow 0 (30 * Second); LEnter 0; LTrip (31 * Second);
   LRecord 0 None (32 * Second); LAllow 1 (61 * Second)].

(** Steps that reset the circuit by hand. *)
Definition is_manual (l : @clabel E) : bool :=
  match l with LReset | LTrip _ => true | _ => false end.

(** A half-open circuit whose quota is used up and that has no call in flight. *)
Definition wedged (s : @csys E) : Prop :=
  calls s = ∅ /\ state (circ s) = CircuitHalfOpen /\
  MaxHalfOpenRequests (cfg (circ s)) <= halfOpenRequests (circ s).

Lemma wedged_allow s now :
  wedged s -> allowRequest ErrCircuitOpen (circ s) now = (circ s, Some ErrCircuitOpen).
Proof. intros (_ & Hs & Hm). unfold allowRequest. rewrite Hs. case_match; [done|lia]. Qed.

Lemma wedged_step s l t :
  wedged s -> is_manual l = false -> sys_step ErrCircuitOpen s l = Some t -> t = s.
Proof.
  intros Hw Hl Hs. pose proof Hw as (Hc & Hst & _).
  destruct l; cbn [sys_step] in Hs; try done; rewrite ?Hc, ?lookup_empty in Hs; try done.
  - by rewrite wedged_allow in Hs.
  - rewrite wedged_allow in Hs by done. destruct s. cbn in *. congruence.
  - unfold Circuit_State in Hs. rewrite Hst in Hs. destruct s. cbn in *. congruence.
Qed.

Lemma wedged_steps s ls t :
  wedged s -> sys_steps ErrCircuitOpen s ls t ->
  forallb (fun l => negb (is_manual l)) ls = true -> t = s.
Proof.
  intros Hw. induction 1 as [|s ls t l u Hst IH Hl]; [done|].
  rewrite forallb_app, andb_true_iff. simpl. rewrite andb_true_r, negb_true_iff.
  intros [Hls Hp]. rewrite (IH Hw Hls) in Hl. eauto using wedged_step.
Qed.

(** A panic of the protected function during a half-open probe wedges the
    circuit: with the default configuration a reachable state has no call in
    flight, refuses every request at any later time, and does not change under
    any further steps other than [Reset] and [Trip]. *)
Theorem circuit_panic_wedges :
  exists ls s, sys_steps ErrCircuitOpen (sys_init DefaultCircuitConfig) ls s /\
    calls s = ∅ /\
    (forall now, (allowRequest ErrCircuitOpen (circ s) now).2 = Some ErrCircuitOpen) /\
    (forall ls' t, sys_steps ErrCircuitOpen s ls' t ->
       forallb (fun l => negb (is_manual l)) ls' = true -> t = s).
Proof.
  exists panic_trace.
  assert (exists s, sys_run ErrCircuitOpen (sys_init DefaultCircuitConfig) panic_trace = Some s /\
            wedged s) as (s & Hs & Hw).
  { eexists. split; [vm_compute; reflexivity|].
    split; [vm_compute; reflexivity|]. split; [reflexivity|]. vm_compute. discriminate. }
  exists s. split; [by apply sys_run_init|]. pose proof Hw as (Hc & _ & _).
  split; [done|]. split.
  - intros now. by rewrite wedged_allow.
  - intros ls' t Hst Hm. eauto using wedged_steps.
Qed.

(** The limit on concurrent half-open requests does not hold under
    concurrency: with the default limit of one, two half-open requests can run
    at the same time; and when the circuit is tripped under a running probe,
    the counter goes negative, so that later more probes than the limit are
    admitted. *)
Theorem circuit_halfopen_limit_exceeded :
  (exists ls s, sys_steps ErrCircuitOpen (sys_init DefaultCircuitConfig) ls s /\
     MaxHalfOpenRequests (cfg (circ s)) = 1 /\
     size (halfopen_running (calls s)) = 2%nat) /\
  (exists ls s, sys_steps ErrCircuitOpen (sys_init DefaultCircuitConfig) ls s /\
     state (circ s) = CircuitHalfOpen /\ halfOpenRequests (circ s) = -1).
Proof.
  split.
  - exists race_trace. eexists. split; [apply sys_run_init; vm_compute; reflexivity|].
    split; vm_compute; reflexivity.
  - exists stale_trace. eexists. split; [apply sys_run_init; vm_compute; reflexivity|].
    split; vm_compute; reflexivity.
Qed.

End failures.

(** ** Witnesses *)

(** Runs of the definitions on one circuit, with [nat] for errors and the
    clock, in nanoseconds, for the world. *)

Example circuit_run_default :
  let fail := fun w : Z => (w + 1, Some 7%nat) in
  let ok := fun w : Z => (w + 1, None) in
  let wait := fun w : Z => (w + 30 * Second, @None nat) in
  (Circuit_DoAll 0%nat id (NewCircuit DefaultCircuitConfig)
     [fail; fail; fail; fail; fail; ok; ok] 0).2 =
  [Some 7; Some 7; Some 7; Some 7; Some 7; Some 0; Some 0]%nat.
Proof. vm_compute. reflexivity. Qed.

Lemma circuit_reachable_wf_witness :
  exists s : @csys nat,
    sys_steps 0%nat (sys_init DefaultCircuitConfig) stale_trace s /\ circuit_wf (circ s).
Proof.
  eexists. assert (Hr : sys_run 0%nat (sys_init DefaultCircuitConfig) stale_trace = Some _)
    by (vm_compute; reflexivity).
  apply sys_run_init in Hr. split; [exact Hr|]. exact (circuit_reachable_wf _ _ _ _ Hr).
Defined.

Lemma circuit_halfopen_admits_witness :
  exists s : @csys nat,
    sys_steps 0%nat (sys_init DefaultCircuitConfig) [LTrip 0; LState (30 * Second)] s /\
    allowRequest 0%nat (circ s) 0 = (circ s, None).
Proof.
  eexists. assert (Hr : sys_run 0%nat (sys_init DefaultCircuitConfig)
    [LTrip 0; LState (30 * Second)] = Some _) by (vm_compute; reflexivity).
  apply sys_run_init in Hr. split; [exact Hr|].
  apply (circuit_halfopen_admits _ _ _ _ 0 Hr); vm_compute; reflexivity.
Defined.

Lemma Circuit_Do_refines_witness :
  let fns := [fun w : Z => (w + 1, Some 7%nat); fun w : Z => (w + 1, None)] in
  let '(c', w', errs) := Circuit_DoAll 0%nat id (NewCircuit DefaultCircuitConfig) fns 0 in
  breaker_run 0%nat (circuit_defaults DefaultCircuitConfig) id (BClosed 0) fns 0 =
    (breaker_of c', w', errs).
Proof. apply Circuit_Do_refines. vm_compute. discriminate. Defined.

Lemma circuit_opens_at_threshold_witness :
  let fns := replicate 5 (fun w : Z => (w + 1, Some 7%nat)) in
  let c' := (Circuit_DoAll 0%nat id (NewCircuit DefaultCircuitConfig) fns 0).1.1 in
  Circuit_Failures c' = 5 /\ state c' = CircuitOpen.
Proof.
  apply (circuit_opens_at_threshold 0%nat id DefaultCircuitConfig
           (replicate 5 (fun w : Z => (w + 1, Some 7%nat))) 0).
  - repeat constructor.
  - vm_compute. discriminate.
Defined.
