(* ===== verification/Retry.v ===== *)
(** * Retries with backoff ([pantry/retry/retry.go])

    The retry loop over the state [W] of the world: the protected function, the
    context, the timer, the random source and the callback of [OnRetry] act on
    [W] and are arguments.  Delays are [time.Duration]s (nanoseconds), the
    multiplier and the jitter are [float64]s. *)

From S2P Require Import Prelude Float64.

(** ** Errors

    A Go error is the tree that [errors.As] walks: an error of its own, an
    error that wraps others, or the [Permanent] of this package. *)

Inductive goerror :=
| EBase (msg : string)
| EWrap (msg : string) (inner : list goerror)
| EPermanent (inner : option goerror).

(** The [Error] method of [Permanent]: the message of the inner error, when there is one. *)
Fixpoint error_Error (e : goerror) : string :=
  match e with
  | EBase msg => msg
  | EWrap msg _ => msg
  | EPermanent None => "permanent error"
  | EPermanent (Some e) => error_Error e
  end.

Definition PermanentError (e : option goerror) : option goerror :=
  match e with
  | None => None
  | Some e => Some (EPermanent (Some e))
  end.

(** [errors.As(err, &p)] for [p] of type [*Permanent]: depth first. *)
Fixpoint IsPermanent (e : goerror) : bool :=
  match e with
  | EBase _ => false
  | EWrap _ es => existsb IsPermanent es
  | EPermanent _ => true
  end.

Definition SkipPermanent (e : goerror) : bool := negb (IsPermanent e).

(** ** Configuration *)

Record Config {E W : Type} := mkConfig {
  MaxAttempts : Z;
  InitialDelay : Duration;
  MaxDelay : Duration;
  Multiplier : float64;
  Jitter : float64;
  RetryIf : option (E -> bool);
  OnRetry : option (Z -> E -> Duration -> W -> W)
}.
Arguments Config : clear implicits.
Arguments mkConfig {E W} _ _ _ _ _ _ _.

Section retry.
Context {E W : Type}.

(** What the loop uses of its surroundings: [ctx.Err()]; the [select] between
    [ctx.Done()] and [time.After(d)], which says whether the context was done;
    [rand.Float64()]; and the conversion of an out-of-range [float64]. *)
Record Env := mkEnv {
  ctx_Err : W -> option E;
  wait_retry : Duration -> W -> W * bool;
  rand_Float64 : W -> W * float64;
  oob : float64 -> Z
}.
Context (env : Env).
Implicit Types (k : Config E W) (w : W).

Definition DefaultConfig : Config E W :=
  mkConfig 3 (100 * Millisecond) (30 * Second) f64_2 f64_0_1 None None.

Definition withDefaults k : Config E W :=
  mkConfig
    (if MaxAttempts k <=? 0 then 3 else MaxAttempts k)
    (if InitialDelay k <=? 0 then 100 * Millisecond else InitialDelay k)
    (if MaxDelay k <=? 0 then 30 * Second else MaxDelay k)
    (if f64_le (Multiplier k) (f64_of_int 0) then f64_2 else Multiplier k)
    (Jitter k) (RetryIf k) (OnRetry k).

Definition addJitter (d : Duration) (jitter : float64) w : W * Duration :=
  if f64_le jitter (f64_of_int 0) then (w, d) else
  let delta := f64_mul (f64_of_int d) jitter in
  let min := f64_sub (f64_of_int d) delta in
  let max := f64_add (f64_of_int d) delta in
  let '(w, r) := rand_Float64 env w in
  (w, f64_to_int64 (oob env) (f64_add min (f64_mul r (f64_sub max min)))).

(** The delay of the next attempt. *)
Definition nextDelay k (delay : Duration) : Duration :=
  let delay := f64_to_int64 (oob env) (f64_mul (f64_of_int delay) (Multiplier k)) in
  if MaxDelay k <? delay then MaxDelay k else delay.

Definition call_OnRetry k (attempt : Z) (err : E) (delay : Duration) w : W :=
  match OnRetry k with
  | Some f => f attempt err delay w
  | None => w
  end.

(** ** The loops

    [fuel] bounds the iterations; [None] says that it ran out.  [calls] counts
    the calls of the protected function: it is not in the code. *)

Section do.
Context (fn : W -> W * option E).

Fixpoint do_loop (fuel : nat) k (attempt : Z) (lastErr : option E) (delay : Duration)
    (calls : nat) w : option (W * option E * nat) :=
  match fuel with
  | O => None
  | S fuel =>
    if attempt <=? MaxAttempts k then
      match ctx_Err env w with
      | Some e => Some (w, match lastErr with Some l => Some l | None => Some e end, calls)
      | None =>
        match fn w with
        | (w, None) => Some (w, None, S calls)
        | (w, Some err) =>
          if match RetryIf k with Some f => negb (f err) | None => false end
          then Some (w, Some err, S calls)
          else if MaxAttempts k <=? attempt then Some (w, Some err, S calls)
          else
            let '(w, actualDelay) := addJitter delay (Jitter k) w in
            let w := call_OnRetry k attempt err actualDelay w in
            match wait_retry env actualDelay w with
            | (w, true) => Some (w, Some err, S calls)
            | (w, false) =>
                do_loop fuel k (attempt + 1) (Some err) (nextDelay k delay) (S calls) w
            end
        end
      end
    else Some (w, lastErr, calls)
  end.

Definition Retry_Do_counted k w : option (W * option E * nat) :=
  let k := withDefaults k in
  do_loop (S (Z.to_nat (MaxAttempts k))) k 1 None (InitialDelay k) 0 w.

Definition Retry_Do k w : option (W * option E) := fst <$> Retry_Do_counted k w.

End do.

Section do_with_result.
Context {T : Type} (zero : T) (fn : W -> W * (T * option E)).

Fixpoint do_result_loop (fuel : nat) k (attempt : Z) (lastErr : option E) (delay : Duration)
    w : option (W * (T * option E)) :=
  match fuel with
  | O => None
  | S fuel =>
    if attempt <=? MaxAttempts k then
      match ctx_Err env w with
      | Some e => Some (w, (zero, match lastErr with Some l => Some l | None => Some e end))
      | None =>
        match fn w with
        | (w, (result, None)) => Some (w, (result, None))
        | (w, (_, Some err)) =>
          if match RetryIf k with Some f => negb (f err) | None => false end
          then Some (w, (zero, Some err))
          else if MaxAttempts k <=? attempt then Some (w, (zero, Some err))
          else
            let '(w, actualDelay) := addJitter delay (Jitter k) w in
            let w := call_OnRetry k attempt err actualDelay w in
            match wait_retry env actualDelay w with
            | (w, true) => Some (w, (zero, Some err))
            | (w, false) =>
                do_result_loop fuel k (attempt + 1) (Some err) (nextDelay k delay) w
            end
        end
      end
    else Some (w, (zero, lastErr))
  end.

Definition Retry_DoWithResult k w : option (W * (T * option E)) :=
  let k := withDefaults k in
  do_result_loop (S (Z.to_nat (MaxAttempts k))) k 1 None (InitialDelay k) w.

End do_with_result.

Definition Retry_Simple (fn : W -> W * option E) w : option (W * option E) :=
  Retry_Do fn DefaultConfig w.

Definition WithAttempts (attempts : Z) (fn : W -> W * option E) w : option (W * option E) :=
  let k := DefaultConfig in
  Retry_Do fn (mkConfig attempts (InitialDelay k) (MaxDelay k) (Multiplier k) (Jitter k)
                        (RetryIf k) (OnRetry k)) w.

(** ** Backoff strategies *)

Definition ExponentialBackoff (initial max : Duration) (multiplier : float64) : Config E W :=
  mkConfig 5 initial max multiplier f64_0_1 None None.

Definition ConstantBackoff (delay : Duration) (attempts : Z) : Config E W :=
  mkConfig attempts delay delay f64_1 (f64_of_int 0) None None.

Definition LinearBackoff (initial increment : Duration) (attempts : Z) : Config E W :=
  mkConfig attempts initial (int_add initial (int_mul increment attempts))
    (f64_add f64_1 (f64_div (f64_of_int increment) (f64_of_int initial))) f64_0_1 None None.

(** [math.Pow] is an argument. *)
Definition FibonacciBackoff (Pow : float64 -> float64 -> float64) (initial : Duration)
    (attempts : Z) : Config E W :=
  mkConfig attempts initial
    (int_mul initial (f64_to_int64 (oob env) (Pow f64_1_618 (f64_of_int attempts))))
    f64_1_618 f64_0_1 None None.

(** ** The loop's behaviour *)

Definition retries_on k (err : E) : bool :=
  match RetryIf k with Some f => f err | None => true end.

(** What a call of [Do] leaves behind: the world [w'], the error [r], and the
    number [n] of calls of the function. *)
Definition retry_outcome (fn : W -> W * option E) k w (lastErr : option E)
    (calls : nat) (budget : Z) (o : option (W * option E * nat)) : Prop :=
  exists w' r n, o = Some (w', r, n) /\
    Z.of_nat calls <= Z.of_nat n <= Z.of_nat calls + budget /\
    (r = None -> exists v, fn v = (w', None)) /\
    (n = calls -> ctx_Err env w <> None /\
       r = match lastErr with Some l => Some l | None => ctx_Err env w end).

Lemma do_loop_outcome fn fuel k attempt lastErr delay calls w :
  1 <= attempt ->
  attempt <= MaxAttempts k ->
  (Z.to_nat (MaxAttempts k - attempt) < fuel)%nat ->
  retry_outcome fn k w lastErr calls (MaxAttempts k - attempt + 1)
    (do_loop fn fuel k attempt lastErr delay calls w).
Proof.
  revert attempt lastErr delay calls w.
  induction fuel as [|fuel IH]; intros attempt lastErr delay calls w Ha Ha' Hf; [lia|]. simpl.
  rewrite (proj2 (Z.leb_le _ _)) by lia.
  destruct (ctx_Err env w) as [e|] eqn:He.
  { eexists _, _, calls. split; [done|]. rewrite He.
    split; [lia|]. destruct lastErr; naive_solver. }
  destruct (fn w) as [w1 [err|]] eqn:Hfn.
  2: { eexists _, _, (S calls). split; [done|]. split; [lia|]. split; [eauto | lia]. }
  assert (forall o, o = Some (w1, Some err, S calls) ->
    retry_outcome fn k w lastErr calls (MaxAttempts k - attempt + 1) o) as Hstop.
  { intros o ->. eexists _, _, _. split; [done|]. split; [lia|]. split; [done | lia]. }
  destruct (match RetryIf k with Some f => negb (f err) | None => false end);
    [by apply Hstop|].
  case_match; [by apply Hstop|].
  destruct (addJitter delay (Jitter k) w1) as [w2 d].
  destruct (wait_retry env d _) as [w3 []] eqn:Hw.
  { eexists _, _, _. split; [done|]. split; [lia|]. split; [done | lia]. }
  destruct (IH (attempt + 1) (Some err) (nextDelay k delay) (S calls) w3)
    as (w' & r & n & Hl & Hn & Hr & _); [lia..|].
  exists w', r, n. split; [done|]. split; [lia|]. split; [done|lia].
Qed.

Lemma withDefaults_attempts k : 1 <= MaxAttempts (withDefaults k).
Proof. destruct k; simpl. case_match; lia. Qed.

(** The retry loop over an invariant [I] of the world that the function keeps
    and that [OnRetry] and the wait keep when they are called the way the loop
    calls them. *)
Lemma do_loop_invariant fn fuel k attempt lastErr delay calls w (I : W -> Prop) bound :
  f64_le (Jitter k) (f64_of_int 0) = true -> MaxDelay k <= bound ->
  (forall v, I v -> I (fn v).1) ->
  (forall n err d v, 1 <= n < MaxAttempts k -> retries_on k err = true -> d <= bound ->
     I v -> I (wait_retry env d (call_OnRetry k n err d v)).1) ->
  1 <= attempt -> delay <= bound -> I w ->
  forall w' r n, do_loop fn fuel k attempt lastErr delay calls w = Some (w', r, n) -> I w'.
Proof.
  intros Hj Hb Hfn Hwait. revert attempt lastErr delay calls w.
  induction fuel as [|fuel IH]; intros attempt lastErr delay calls w Ha Hd Hw w' r n; [done|].
  simpl. case_match; [|naive_solver]. case_match; [naive_solver|].
  specialize (Hfn w Hw). destruct (fn w) as [w1 [err|]]; [|naive_solver].
  destruct (match RetryIf k with Some f => negb (f err) | None => false end) eqn:Hre;
    [naive_solver|].
  destruct (MaxAttempts k <=? attempt) eqn:Hlast; [naive_solver|].
  unfold addJitter. rewrite Hj.
  assert (retries_on k err = true) as Hacc.
  { unfold retries_on. destruct (RetryIf k); [by apply negb_false_iff|done]. }
  specialize (Hwait attempt err delay w1 ltac:(lia) Hacc Hd Hfn).
  destruct (wait_retry env delay _) as [w3 []] eqn:Hw3; simpl in Hwait; [naive_solver|].
  apply IH; [lia| |done]. unfold nextDelay.
  destruct (MaxDelay k <? _) eqn:Hm; lia.
Qed.

Lemma do_loop_result_equiv (fn : W -> W * option E) fuel k attempt lastErr delay calls w :
  do_result_loop tt (fun v => let '(v, e) := fn v in (v, (tt, e))) fuel k attempt lastErr delay w =
  (fun '(v, e, _) => (v, (tt, e))) <$> do_loop fn fuel k attempt lastErr delay calls w.
Proof.
  revert attempt lastErr delay calls w.
  induction fuel as [|fuel IH]; intros attempt lastErr delay calls w; [done|]. simpl.
  case_match; [|done]. case_match; [done|].
  destruct (fn w) as [w1 [err|]]; [|done].
  destruct (match RetryIf k with Some f => negb (f err) | None => false end); [done|].
  case_match; [done|].
  destruct (addJitter delay (Jitter k) w1) as [w2 d].
  destruct (wait_retry env d _) as [w3 []]; [done|]. apply IH.
Qed.

(** ** Properties *)

(** [Do] always returns, after at most [MaxAttempts] calls of the function
    (three when the configuration has no positive number); it returns nil only
    after a call that succeeded, and that call is the last thing that happens;
    and it returns without any call only when the context was already done,
    with the context's error. *)
Theorem Retry_Do_total fn k w :
  exists w' r n, Retry_Do_counted fn k w = Some (w', r, n) /\
    Z.of_nat n <= MaxAttempts (withDefaults k) /\
    (r = None -> exists v, fn v = (w', None)) /\
    (n = 0%nat -> r <> None /\ r = ctx_Err env w).
Proof.
  pose proof (withDefaults_attempts k) as Hk. unfold Retry_Do_counted.
  destruct (do_loop_outcome fn (S (Z.to_nat (MaxAttempts (withDefaults k)))) (withDefaults k) 1
    None (InitialDelay (withDefaults k)) 0 w) as (w' & r & n & Hl & Hn & Hr & H0); [lia..|].
  exists w', r, n. split; [done|]. split; [lia|]. split; [done|].
  intros ->. destruct (H0 eq_refl) as [? ->]. done.
Qed.

(** Without jitter, [OnRetry] and the wait before a retry only happen after
    an error that [RetryIf] accepts, between two attempts, and with a delay of
    at most [InitialDelay] or [MaxDelay]: any invariant of the world that such
    waits and the function keep still holds when [Do] returns. *)
Theorem Retry_Do_waits_bounded fn k w (I : W -> Prop) :
  f64_le (Jitter k) (f64_of_int 0) = true ->
  (forall v, I v -> I (fn v).1) ->
  (forall n err d v, 1 <= n < MaxAttempts (withDefaults k) ->
     retries_on (withDefaults k) err = true ->
     d <= Z.max (InitialDelay (withDefaults k)) (MaxDelay (withDefaults k)) ->
     I v -> I (wait_retry env d (call_OnRetry (withDefaults k) n err d v)).1) ->
  I w -> exists w' r, Retry_Do fn k w = Some (w', r) /\ I w'.
Proof.
  intros Hj Hfn Hwait Hw.
  destruct (do_loop_outcome fn (S (Z.to_nat (MaxAttempts (withDefaults k)))) (withDefaults k) 1
    None (InitialDelay (withDefaults k)) 0 w) as (w' & r & n & Hl & _);
    [pose proof (withDefaults_attempts k); lia..|].
  exists w', r. split; [unfold Retry_Do, Retry_Do_counted; by rewrite Hl|].
  eapply do_loop_invariant; [| | | | | |exact Hw|exact Hl]; [done| |done|exact Hwait| |]; lia.
Qed.

(** [Do] is [DoWithResult] at the empty result type. *)
Theorem Retry_Do_DoWithResult fn k w :
  Retry_DoWithResult tt (fun v => let '(v, e) := fn v in (v, (tt, e))) k w =
  (fun '(v, e) => (v, (tt, e))) <$> Retry_Do fn k w.
Proof.
  unfold Retry_DoWithResult, Retry_Do, Retry_Do_counted.
  rewrite do_loop_result_equiv with (calls := 0%nat).
  destruct (do_loop _ _ _ _ _ _ _ _) as [[[? ?] ?]|]; done.
Qed.

End retry.

(** With [SkipPermanent] as the retry condition, an error that is, or wraps,
    a [Permanent] ends the loop: one call, and that very error. *)
Theorem Retry_Do_permanent {W : Type} (env : Env (E := goerror) (W := W)) fn k w w1 e :
  RetryIf k = Some SkipPermanent -> ctx_Err env w = None ->
  fn w = (w1, Some e) -> IsPermanent e = true ->
  Retry_Do_counted env fn k w = Some (w1, Some e, 1%nat).
Proof.
  intros Hr Hc Hf Hp. unfold Retry_Do_counted.
  pose proof (withDefaults_attempts k) as Hk.
  assert (RetryIf (withDefaults k) = Some SkipPermanent) as Hr' by done.
  cbn [do_loop]. rewrite (proj2 (Z.leb_le _ _)) by lia.
  rewrite Hc, Hf, Hr'. unfold SkipPermanent. by rewrite Hp.
Qed.

(** ** A world for evaluation: a failure countdown and the waits so far *)

Record sim := mkSim { failing : nat; waits : list Duration }.

Definition sim_fn (s : sim) : sim * option goerror :=
  match failing s with
  | O => (s, None)
  | S n => (mkSim n (waits s), Some (EBase "failed"))
  end.

(** No cancellation, and a random source that always yields [r]. *)
Definition sim_env (r : float64) : Env (E := goerror) (W := sim) :=
  mkEnv (fun _ => None) (fun d s => (mkSim (failing s) (waits s ++ [d]), false))
    (fun s => (s, r)) (fun _ => min_int64).

Definition sim_config (attempts initial max : Z) (jitter : float64) : Config goerror sim :=
  mkConfig attempts initial max f64_2 jitter None None.

(** Five failures under five attempts: four waits, doubled each time. *)
Example retry_run_doubling :
  Retry_Do (sim_env (f64_of_int 0)) sim_fn
    (sim_config 5 (100 * Millisecond) Second (f64_of_int 0)) (mkSim 5 []) =
  Some (mkSim 0 [100 * Millisecond; 200 * Millisecond; 400 * Millisecond; 800 * Millisecond],
        Some (EBase "failed")).
Proof. vm_compute. reflexivity. Qed.

(** [MaxDelay] does not cap every wait: an [InitialDelay] above it is waited
    in full before the first retry, and the jitter is added after the cap. *)
Theorem retry_MaxDelay_exceeded :
  (exists k s d, Jitter k = f64_of_int 0 /\ MaxDelay k = Second /\
     fst <$> Retry_Do (sim_env (f64_of_int 0)) sim_fn k s = Some (mkSim 0 [d]) /\
     MaxDelay k < d) /\
  (exists k s d, InitialDelay k <= MaxDelay k /\
     fst <$> Retry_Do (sim_env (f64_div f64_1 f64_2)) sim_fn k s = Some (mkSim 0 [d]) /\
     d <= MaxDelay k) /\
  (exists k s d, InitialDelay k <= MaxDelay k /\
     fst <$> Retry_Do (sim_env (f64_div (f64_of_int 3) (f64_of_int 4))) sim_fn k s
       = Some (mkSim 0 [d]) /\ MaxDelay k < d).
Proof.
  split; [|split].
  - exists (sim_config 2 (10 * Second) Second (f64_of_int 0)), (mkSim 1 []), (10 * Second).
    vm_compute. done.
  - exists (sim_config 2 Second Second f64_0_1), (mkSim 1 []), Second.
    vm_compute. repeat split; done.
  - exists (sim_config 2 Second Second f64_0_1), (mkSim 1 []), 1050000000.
    vm_compute. repeat split; done.
Qed.

(** ** Witnesses *)

Lemma Retry_Do_waits_bounded_witness :
  exists w' r, Retry_Do (sim_env (f64_of_int 0)) sim_fn
      (sim_config 5 (100 * Millisecond) Second (f64_of_int 0)) (mkSim 9 []) = Some (w', r) /\
    Forall (fun d => d <= Second) (waits w').
Proof.
  apply (Retry_Do_waits_bounded _ _ _ _ (fun s => Forall (fun d => d <= Second) (waits s))).
  - vm_compute. reflexivity.
  - intros [[|n] l] H; exact H.
  - intros n err d [m l] _ _ Hd H. cbn. apply Forall_app. split; [exact H|].
    constructor; [|constructor]. exact Hd.
  - constructor.
Defined.

Lemma Retry_Do_permanent_witness :
  let e := EWrap "fetch: gone" [EPermanent (Some (EBase "gone"))] in
  Retry_Do_counted (sim_env (f64_of_int 0)) (fun s => (s, Some e))
    (mkConfig 3 1 1 f64_2 f64_0_1 (Some SkipPermanent) None) (mkSim 0 []) =
  Some (mkSim 0 [], Some e, 1%nat).
Proof. apply Retry_Do_permanent; reflexivity. Defined.
