(* ===== verification/RateLimit.v ===== *)
(** * Token-bucket rate limiting ([pantry/ratelimit/ratelimit.go])

    [Limiter] with its [float64] bucket, the per-key [KeyLimiter] over a finite
    map, its periodic cleanup, the key functions, and the middleware as the
    decision it takes for a request.  Every [time.Now()] is an argument. *)

From Stdlib Require Import Floats.SpecFloat.
From S2P Require Import Prelude Float64 GoStrings.

(** ** The token bucket *)

Record Limiter := mkLimiter {
  rate : float64;
  burst : Z;
  tokens : float64;
  lastTime : Time
}.

(** [New] *)
Definition NewLimiter (r : float64) (b : Z) (now : Time) : Limiter :=
  mkLimiter r b (f64_of_int b) now.

(** The tokens after the time since the last update, capped at the burst. *)
Definition refilled (l : Limiter) (now : Time) : float64 :=
  let t := f64_add (tokens l) (f64_mul (Seconds (time_Sub now (lastTime l))) (rate l)) in
  if f64_lt (f64_of_int (burst l)) t then f64_of_int (burst l) else t.

Definition Limiter_Allow (l : Limiter) (now : Time) : Limiter * bool :=
  let t := refilled l now in
  if f64_le f64_1 t
  then (mkLimiter (rate l) (burst l) (f64_sub t f64_1) now, true)
  else (mkLimiter (rate l) (burst l) t now, false).

Definition Limiter_AllowN (l : Limiter) (n : Z) (now : Time) : Limiter * bool :=
  let t := refilled l now in
  if f64_le (f64_of_int n) t
  then (mkLimiter (rate l) (burst l) (f64_sub t (f64_of_int n)) now, true)
  else (mkLimiter (rate l) (burst l) t now, false).

Definition Limiter_Tokens (l : Limiter) (now : Time) : float64 := refilled l now.

(** ** Per-key limiters *)

Record entry := mkEntry { limiter : Limiter; lastSeen : Time }.

Record KeyLimiter := mkKeyLimiter {
  limiters : gmap string entry;
  kl_rate : float64;
  kl_burst : Z;
  ttl : Duration
}.

Definition NewKeyLimiter (r : float64) (b : Z) (t : Duration) : KeyLimiter :=
  mkKeyLimiter ∅ r b t.

(** The entry of a key, made when there is none.  [time.Now()] is read for the
    new limiter ([t1]) and for [lastSeen] ([t2]). *)
Definition seen_entry (kl : KeyLimiter) (key : string) (t1 t2 : Time) : entry :=
  match limiters kl !! key with
  | Some e => mkEntry (limiter e) t2
  | None => mkEntry (NewLimiter (kl_rate kl) (kl_burst kl) t1) t2
  end.

(** [t3] is the time read by the limiter's own [Allow]. *)
Definition KeyLimiter_Allow (kl : KeyLimiter) (key : string) (t1 t2 t3 : Time)
    : KeyLimiter * bool :=
  let e := seen_entry kl key t1 t2 in
  let '(l, ok) := Limiter_Allow (limiter e) t3 in
  (mkKeyLimiter (<[key := mkEntry l (lastSeen e)]> (limiters kl)) (kl_rate kl) (kl_burst kl) (ttl kl), ok).

Definition KeyLimiter_AllowN (kl : KeyLimiter) (key : string) (n : Z) (t1 t2 t3 : Time)
    : KeyLimiter * bool :=
  let e := seen_entry kl key t1 t2 in
  let '(l, ok) := Limiter_AllowN (limiter e) n t3 in
  (mkKeyLimiter (<[key := mkEntry l (lastSeen e)]> (limiters kl)) (kl_rate kl) (kl_burst kl) (ttl kl), ok).

(** One tick of [cleanup]. *)
Definition cleanup_tick (kl : KeyLimiter) (now : Time) : KeyLimiter :=
  mkKeyLimiter
    (filter (fun p => (ttl kl <? time_Sub now (lastSeen p.2)) = false) (limiters kl))
    (kl_rate kl) (kl_burst kl) (ttl kl).

Definition KeyLimiter_Size (kl : KeyLimiter) : nat := size (limiters kl).

(** ** Keys of a request *)

Record Request := mkRequest {
  Method : string;
  URL_Path : string;
  RemoteAddr : string;
  Header_Get : string -> string
}.

Definition IPKeyFunc (r : Request) : string :=
  let xff := Header_Get r "X-Forwarded-For" in
  if negb (String.eqb xff "") then
    match cut_byte "," xff with
    | Some (first, _) => first
    | None => xff
    end
  else
    let xri := Header_Get r "X-Real-IP" in
    if negb (String.eqb xri "") then xri
    else
      match cut_last_byte ":" (RemoteAddr r) with
      | Some (host, _) => host
      | None => RemoteAddr r
      end.

Definition PathKeyFunc (r : Request) : string := URL_Path r.
Definition MethodPathKeyFunc (r : Request) : string := Method r +:+ " " +:+ URL_Path r.
Definition IPPathKeyFunc (r : Request) : string := IPKeyFunc r +:+ " " +:+ URL_Path r.

(** ** The middleware *)

Record RLConfig := mkRLConfig {
  Rate : float64;
  Burst : Z;
  KeyFunc : option (Request -> string);
  TTL : Duration;
  StatusCode : Z;
  Message : string;
  HasOnLimited : bool;
  Skip : option (Request -> bool)
}.

Definition DefaultRLConfig : RLConfig :=
  mkRLConfig (f64_of_int 10) 20 (Some IPKeyFunc) Hour 429 "rate limit exceeded" false None.

(** The defaults of [MiddlewareWithLimiter]; [Middleware] also sets [TTL]. *)
Definition rl_defaults (c : RLConfig) : RLConfig :=
  mkRLConfig (Rate c) (Burst c)
    (Some (match KeyFunc c with Some f => f | None => IPKeyFunc end)) (TTL c)
    (if StatusCode c =? 0 then 429 else StatusCode c)
    (if String.eqb (Message c) "" then "rate limit exceeded" else Message c)
    (HasOnLimited c) (Skip c).

Definition Middleware_limiter (c : RLConfig) : KeyLimiter :=
  NewKeyLimiter (Rate c) (Burst c) (if TTL c =? 0 then Hour else TTL c).

(** What the middleware does with a request: the next handler, the configured
    [OnLimited], or the plain response with a status, headers and a body. *)
Inductive rl_outcome :=
| ServeNext
| CallOnLimited
| Respond (status : Z) (headers : list (string * string)) (body : string).

Definition MiddlewareWithLimiter (c : RLConfig) (kl : KeyLimiter) (r : Request)
    (t1 t2 t3 : Time) : KeyLimiter * rl_outcome :=
  let c := rl_defaults c in
  if match Skip c with Some f => f r | None => false end then (kl, ServeNext)
  else
    let key := match KeyFunc c with Some f => f r | None => "" end in
    let '(kl, ok) := KeyLimiter_Allow kl key t1 t2 t3 in
    if negb ok then
      if HasOnLimited c then (kl, CallOnLimited)
      else (kl, Respond (StatusCode c)
                  [("Content-Type", "text/plain; charset=utf-8"); ("Retry-After", "1")]
                  (Message c))
    else (kl, ServeNext).

(** ** Runs *)

Fixpoint Limiter_run (l : Limiter) (ts : list Time) : Limiter * list bool :=
  match ts with
  | [] => (l, [])
  | t :: ts =>
      let '(l, ok) := Limiter_Allow l t in
      let '(l, oks) := Limiter_run l ts in
      (l, ok :: oks)
  end.

(** A request for a key, with the three times read. *)
Definition key_event : Type := string * (Time * Time * Time).

Fixpoint KeyLimiter_run (kl : KeyLimiter) (evs : list key_event)
    : KeyLimiter * list (string * bool) :=
  match evs with
  | [] => (kl, [])
  | (key, (t1, t2, t3)) :: evs =>
      let '(kl, ok) := KeyLimiter_Allow kl key t1 t2 t3 in
      let '(kl, oks) := KeyLimiter_run kl evs in
      (kl, (key, ok) :: oks)
  end.

(** The events of one key: when its limiter is made, and when it is asked. *)
Definition key_events (key : string) (evs : list key_event) : list key_event :=
  filter (fun ev => ev.1 = key) evs.
Definition key_answers (key : string) (l : list (string * bool)) : list bool :=
  snd <$> filter (fun p => p.1 = key) l.

(** ** The specification: an integer token bucket

    [k] tokens at second [last]; [r] tokens arrive per second, up to [b]. *)

Definition bucket_step (r b : Z) (st : Z * Z) (t : Z) : (Z * Z) * bool :=
  let '(k, last) := st in
  let k := Z.min b (k + (t - last) * r) in
  if 1 <=? k then ((k - 1, t), true) else ((k, t), false).

Fixpoint bucket_run (r b : Z) (st : Z * Z) (ts : list Z) : (Z * Z) * list bool :=
  match ts with
  | [] => (st, [])
  | t :: ts =>
      let '(st, ok) := bucket_step r b st t in
      let '(st, oks) := bucket_run r b st ts in
      (st, ok :: oks)
  end.

(** Seconds that do not go back, from [last] on, within the range in which
    the products and sums of the bucket are exact. *)
Fixpoint schedule (r b last : Z) (ts : list Z) : Prop :=
  match ts with
  | [] => True
  | t :: ts => last <= t /\ b + (t - last) * r < 2 ^ 53 /\ t - last < 2 ^ 33 /\ schedule r b t ts
  end.

Definition allowed (oks : list bool) : Z := Z.of_nat (length (filter (fun b : bool => b = true) oks)).

(** The seconds of a schedule as instants. *)
Definition at_second (t0 : Time) (s : Z) : Time := t0 + s * Second.

Lemma refilled_whole r b k last s t0 :
  0 <= r -> exact_int r -> exact_int b -> 0 <= k <= b ->
  last <= s -> b + (s - last) * r < 2 ^ 53 -> s - last < 2 ^ 33 ->
  refilled (mkLimiter (f64_of_int r) b (f64_of_int k) (at_second t0 last)) (at_second t0 s) =
  f64_of_int (Z.min b (k + (s - last) * r)).
Proof.
  unfold exact_int. intros Hr Hr' Hb Hk Hs Hmax Hs'. unfold refilled. simpl.
  rewrite time_Sub_exact by (unfold in_int64, at_second, Second, min_int64, max_int64; lia).
  unfold at_second.
  replace (t0 + s * Second - (t0 + last * Second)) with ((s - last) * Second) by lia.
  rewrite Seconds_whole by lia.
  rewrite f64_mul_int by (unfold exact_int; nia).
  rewrite f64_add_int by (unfold exact_int; nia).
  rewrite f64_lt_int by (unfold exact_int; nia).
  destruct (b <? _) eqn:E; f_equal; lia.
Qed.

Lemma Limiter_Allow_whole r b k last s t0 :
  0 <= r -> exact_int r -> exact_int b -> 0 <= k <= b ->
  last <= s -> b + (s - last) * r < 2 ^ 53 -> s - last < 2 ^ 33 ->
  let '((k', last'), ok) := bucket_step r b (k, last) s in
  Limiter_Allow (mkLimiter (f64_of_int r) b (f64_of_int k) (at_second t0 last)) (at_second t0 s) =
    (mkLimiter (f64_of_int r) b (f64_of_int k') (at_second t0 last'), ok) /\
  0 <= k' <= b /\ last' = s.
Proof.
  intros Hr Hr' Hb Hk Hs Hmax Hs'. unfold Limiter_Allow, bucket_step.
  rewrite refilled_whole by done.
  assert (0 <= Z.min b (k + (s - last) * r) <= b) by nia.
  unfold exact_int in *.
  change f64_1 with (f64_of_int 1). rewrite f64_le_int by (unfold exact_int; lia).
  destruct (1 <=? _) eqn:E; cbn [rate burst].
  - rewrite f64_sub_int by (unfold exact_int; lia). split; [done|]. lia.
  - split; [done|]. lia.
Qed.

Lemma Limiter_run_whole r b k last t0 ss :
  0 <= r -> exact_int r -> exact_int b -> 0 <= k <= b -> schedule r b last ss ->
  (Limiter_run (mkLimiter (f64_of_int r) b (f64_of_int k) (at_second t0 last))
     (at_second t0 <$> ss)).2 =
  (bucket_run r b (k, last) ss).2.
Proof.
  intros Hr Hr' Hb. revert k last. induction ss as [|s ss IH]; intros k last Hk Hs; [done|].
  destruct Hs as (Hle & Hmax & Hs' & Hs). cbn [fmap list_fmap Limiter_run bucket_run].
  pose proof (Limiter_Allow_whole r b k last s t0 Hr Hr' Hb Hk Hle Hmax Hs') as Ha.
  destruct (bucket_step r b (k, last) s) as [[k' last'] ok].
  destruct Ha as (-> & Hk' & ->). specialize (IH k' s Hk' Hs).
  destruct (Limiter_run _ _) as [? ?], (bucket_run _ _ _ _) as [? ?]. simpl in *. by rewrite IH.
Qed.

Lemma allowed_cons ok oks : allowed (ok :: oks) = (if ok then 1 else 0) + allowed oks.
Proof.
  unfold allowed. rewrite filter_cons. destruct ok; case_decide; try done.
  rewrite length_cons, Nat2Z.inj_succ. lia.
Qed.

Lemma bucket_run_bound r b k last ss :
  0 <= r -> 0 <= k -> 0 <= b -> schedule r b last ss ->
  allowed (bucket_run r b (k, last) ss).2 <= k + (default last (list.last ss) - last) * r.
Proof.
  intros Hr Hk Hb. revert k last Hk. induction ss as [|s ss IH]; intros k last Hk Hs.
  - change (allowed (bucket_run r b (k, last) []).2) with 0. simpl. rewrite Z.sub_diag. lia.
  - destruct Hs as (Hle & _ & _ & Hs). cbn [bucket_run].
    assert (default last (list.last (s :: ss)) = default s (list.last ss)) as ->
      by (rewrite last_cons; by destruct (list.last ss)).
    unfold bucket_step. destruct (1 <=? _) eqn:E.
    + specialize (IH (Z.min b (k + (s - last) * r) - 1) s ltac:(lia) Hs).
      destruct (bucket_run _ _ _ _) as [? oks]. cbn [snd] in *. rewrite allowed_cons. lia.
    + specialize (IH (Z.min b (k + (s - last) * r)) s ltac:(nia) Hs).
      destruct (bucket_run _ _ _ _) as [? oks]. cbn [snd] in *. rewrite allowed_cons. lia.
Qed.

(** C9. On whole seconds and with an integer rate, the [float64] limiter is the
    integer token bucket: for every such schedule of requests it gives the
    bucket's answers, and it admits at most [burst + rate * elapsed] of them. *)
Theorem Limiter_refines_bucket r b t0 ss :
  0 <= r -> exact_int r -> exact_int b -> schedule r b 0 ss ->
  let answers := (Limiter_run (NewLimiter (f64_of_int r) b t0) (at_second t0 <$> ss)).2 in
  answers = (bucket_run r b (b, 0) ss).2 /\
  allowed answers <= b + default 0 (list.last ss) * r.
Proof.
  intros Hr Hr' Hb Hs answers.
  assert (answers = (bucket_run r b (b, 0) ss).2) as Heq.
  { subst answers. unfold exact_int in Hb. rewrite <- (Limiter_run_whole r b b 0 t0 ss) by
      (unfold exact_int in *; first [done | lia]).
    unfold NewLimiter, at_second at 2. by rewrite Z.mul_0_l, Z.add_0_r. }
  split; [done|]. rewrite Heq. unfold exact_int in Hb.
  pose proof (bucket_run_bound r b b 0 ss Hr ltac:(lia) ltac:(lia) Hs). lia.
Qed.

(** ** Keys are independent *)

Lemma key_answers_cons key k ok l :
  key_answers key ((k, ok) :: l) = if decide (k = key) then ok :: key_answers key l
                                   else key_answers key l.
Proof. unfold key_answers. rewrite filter_cons. cbn [fst]. by case_decide. Qed.

Lemma key_events_cons key ev evs :
  key_events key (ev :: evs) = if decide (ev.1 = key) then ev :: key_events key evs
                               else key_events key evs.
Proof. unfold key_events. rewrite filter_cons. by case_decide. Qed.

(** Two limiters that agree on a key and on the configuration give the key the
    same answers, whatever happens to the other keys. *)
Lemma KeyLimiter_run_agree key evs kl kl' :
  limiters kl !! key = limiters kl' !! key ->
  kl_rate kl = kl_rate kl' -> kl_burst kl = kl_burst kl' ->
  key_answers key (KeyLimiter_run kl evs).2 =
  key_answers key (KeyLimiter_run kl' (key_events key evs)).2.
Proof.
  revert kl kl'. induction evs as [|[k [[t1 t2] t3]] evs IH]; intros kl kl' Hm Hr Hb; [done|].
  rewrite key_events_cons. cbn [fst KeyLimiter_run].
  unfold KeyLimiter_Allow.
  destruct (Limiter_Allow (limiter (seen_entry kl k t1 t2)) t3) as [l ok] eqn:Hl.
  case_decide as Hk.
  - subst k. cbn [KeyLimiter_run]. unfold KeyLimiter_Allow.
    assert (seen_entry kl' key t1 t2 = seen_entry kl key t1 t2) as ->.
    { unfold seen_entry. by rewrite Hm, Hr, Hb. }
    rewrite Hl. set (e := mkEntry _ _).
    specialize (IH (mkKeyLimiter (<[key:=e]> (limiters kl)) (kl_rate kl) (kl_burst kl) (ttl kl))
      (mkKeyLimiter (<[key:=e]> (limiters kl')) (kl_rate kl') (kl_burst kl') (ttl kl'))).
    destruct (KeyLimiter_run _ evs), (KeyLimiter_run _ (key_events key evs)). cbn [snd] in *.
    rewrite !key_answers_cons, !decide_True by done. f_equal. apply IH; [|done|done].
    cbn. by rewrite !lookup_insert_eq.
  - set (e := mkEntry _ _).
    specialize (IH (mkKeyLimiter (<[k:=e]> (limiters kl)) (kl_rate kl) (kl_burst kl) (ttl kl)) kl').
    destruct (KeyLimiter_run _ evs). cbn [snd] in *.
    rewrite key_answers_cons, decide_False by done. apply IH; [|done|done].
    cbn. by rewrite lookup_insert_ne.
Qed.

(** The requests of one key alone, once its limiter exists. *)
Lemma KeyLimiter_run_one key evs kl e :
  limiters kl !! key = Some e ->
  key_answers key (KeyLimiter_run kl (key_events key evs)).2 =
  (Limiter_run (limiter e) ((fun ev => ev.2.2) <$> key_events key evs)).2.
Proof.
  revert kl e. induction evs as [|[k [[t1 t2] t3]] evs IH]; intros kl e He; [done|].
  rewrite key_events_cons. cbn [fst]. case_decide as Hk; [|by apply IH]. subst k.
  cbn [fmap list_fmap KeyLimiter_run Limiter_run snd].
  unfold KeyLimiter_Allow, seen_entry. rewrite He. cbn [limiter].
  destruct (Limiter_Allow (limiter e) t3) as [l ok].
  set (kl' := mkKeyLimiter _ _ _ _).
  specialize (IH kl' (mkEntry l t2) ltac:(cbn; by rewrite lookup_insert_eq)).
  destruct (KeyLimiter_run kl' _). cbn [snd] in *.
  rewrite key_answers_cons, decide_True, IH by done. by destruct (Limiter_run _ _).
Qed.

(** Keys are limited independently: the answers a fresh [KeyLimiter] gives
    to the requests of one key, interleaved with any requests of other keys,
    are those of a limiter of its own, made at that key's first request and
    asked at the times of that key's requests only. *)
Theorem KeyLimiter_isolation r b t key evs :
  key_answers key (KeyLimiter_run (NewKeyLimiter r b t) evs).2 =
  match key_events key evs with
  | [] => []
  | (_, (t1, _, _)) :: _ =>
      (Limiter_run (NewLimiter r b t1) ((fun ev => ev.2.2) <$> key_events key evs)).2
  end.
Proof.
  rewrite KeyLimiter_run_agree with (kl' := NewKeyLimiter r b t) by done.
  induction evs as [|[k [[t1 t2] t3]] evs IH]; [done|].
  rewrite key_events_cons. cbn [fst]. case_decide as Hk; [|exact IH]. subst k.
  cbn [fmap list_fmap KeyLimiter_run Limiter_run snd].
  unfold KeyLimiter_Allow, seen_entry. cbn [limiters NewKeyLimiter kl_rate kl_burst].
  rewrite lookup_empty. cbn [limiter].
  destruct (Limiter_Allow _ t3) as [l ok]. set (kl' := mkKeyLimiter _ _ _ _).
  pose proof (KeyLimiter_run_one key evs kl' (mkEntry l t2)
                ltac:(cbn; by rewrite lookup_insert_eq)) as Hone.
  destruct (KeyLimiter_run kl' _). cbn [snd] in *.
  rewrite key_answers_cons, decide_True, Hone by done. by destruct (Limiter_run _ _).
Qed.

(** The middleware on a key whose limiter refuses. *)
Lemma Middleware_refuses c kl r t1 t2 t3 key :
  Skip c = None -> key = match KeyFunc c with Some f => f r | None => IPKeyFunc r end ->
  (KeyLimiter_Allow kl key t1 t2 t3).2 = false -> HasOnLimited c = false ->
  exists body, (MiddlewareWithLimiter c kl r t1 t2 t3).2 =
    Respond (if StatusCode c =? 0 then 429 else StatusCode c)
      [("Content-Type", "text/plain; charset=utf-8"); ("Retry-After", "1")] body.
Proof.
  intros Hs -> Ha Ho. unfold MiddlewareWithLimiter, rl_defaults. cbn [Skip KeyFunc HasOnLimited].
  rewrite Hs. destruct (KeyFunc c); destruct (KeyLimiter_Allow _ _ _ _ _) as [? ok];
    cbn in Ha; subst; cbn [negb]; rewrite Ho; eauto.
Qed.

(** A tick of the cleanup forgets exactly the keys that were not seen for
    more than the time to live, and leaves the others as they are. *)
Theorem cleanup_tick_spec kl now key :
  limiters (cleanup_tick kl now) !! key =
  match limiters kl !! key with
  | Some e => if ttl kl <? time_Sub now (lastSeen e) then None else Some e
  | None => None
  end.
Proof.
  unfold cleanup_tick. cbn [limiters]. destruct (limiters kl !! key) as [e|] eqn:He.
  - destruct (ttl kl <? time_Sub now (lastSeen e)) eqn:Ht.
    + apply map_lookup_filter_None. right. intros x Hx. simplify_eq. cbn. congruence.
    + apply map_lookup_filter_Some. done.
  - apply map_lookup_filter_None. by left.
Qed.

(** ** Runs and witnesses *)

(** Ten per second with a burst of twenty, 23 requests at one instant, then two
    one tenth of a second later. *)
Example limiter_default_run :
  allowed (Limiter_run (NewLimiter (f64_of_int 10) 20 0)
    (replicate 23 0 ++ [100 * Millisecond; 100 * Millisecond])).2 = 21.
Proof. vm_compute. reflexivity. Qed.

Example ip_key_forwarded :
  IPKeyFunc (mkRequest "GET" "/" "10.0.0.1:80"
    (fun h => if String.eqb h "X-Forwarded-For" then "203.0.113.7, 10.0.0.2" else "")) =
  "203.0.113.7".
Proof. reflexivity. Qed.

Example ip_key_remote_v6 :
  IPKeyFunc (mkRequest "GET" "/" "[2001:db8::1]:443" (fun _ => "")) = "[2001:db8::1]".
Proof. reflexivity. Qed.

Lemma Limiter_refines_bucket_witness :
  let ss := [0; 0; 0; 1; 5; 5] in
  (Limiter_run (NewLimiter (f64_of_int 1) 2 7) (at_second 7 <$> ss)).2 =
    (bucket_run 1 2 (2, 0) ss).2 /\
  allowed (Limiter_run (NewLimiter (f64_of_int 1) 2 7) (at_second 7 <$> ss)).2 <= 2 + 5 * 1.
Proof.
  apply (Limiter_refines_bucket 1 2 7 [0; 0; 0; 1; 5; 5]); unfold exact_int; cbn; lia.
Defined.
