(* ===== verification/MemoryCache.v ===== *)
(** * The cache ([pantry/cache/cache.go], [pantry/cache/memory.go])

    [Memory] as a finite map of items with expiry times; the [Cache] interface
    as a class with its laws, which [Memory] satisfies; [GetOrSet] against the
    interface; and [Close] with its cleanup goroutine as a step relation.

    A [[]byte] is a [string] of its bytes: [Memory] copies values on the way in
    and on the way out, so no two holders share one. *)

From S2P Require Import Prelude.

(** ** The interface *)

Inductive cache_error := ErrNotFound | ErrClosed | ErrOther (code : nat).

#[export] Instance cache_error_eq_dec : EqDecision cache_error.
Proof. solve_decision. Defined.

Abbreviation bytes := string (only parsing).

(** [now] is what [time.Now()] returns in the call. *)
Class Cache (S : Type) := {
  Get : S -> Time -> string -> result cache_error bytes;
  Set_ : S -> Time -> string -> bytes -> Duration -> S * option cache_error;
  Delete : S -> string -> S * option cache_error;
  Exists : S -> Time -> string -> result cache_error bool;
  Clear : S -> S * option cache_error
}.

(** What a cache promises: [usable] is the state in which it is open and its
    backend answers. *)
Class CacheLaws (S : Type) `{Cache S} := {
  usable : S -> Prop;
  law_set s t k v ttl : usable s -> exists s', Set_ s t k v ttl = (s', None) /\ usable s';
  law_get_set s s' t k v ttl now :
    Set_ s t k v ttl = (s', None) -> usable s -> ttl <= 0 \/ now <= t + ttl ->
    Get s' now k = Ok v;
  law_get_expired s s' t k v ttl now :
    Set_ s t k v ttl = (s', None) -> usable s -> 0 < ttl -> t + ttl < now ->
    Get s' now k = Err ErrNotFound;
  law_get_set_ne s s' t k k' v ttl now :
    Set_ s t k v ttl = (s', None) -> usable s -> k <> k' -> Get s' now k' = Get s now k';
  law_exists s now k :
    usable s -> Exists s now k =
      match Get s now k with Ok _ => Ok true | Err ErrNotFound => Ok false | Err e => Err e end;
  law_delete s k k' now :
    usable s -> exists s', Delete s k = (s', None) /\ usable s' /\
      Get s' now k' = if decide (k = k') then Err ErrNotFound else Get s now k'
}.

(** [GetOrSet]: [compute] acts on the world [W] and takes its time, so the cache
    is asked at [t1] and written at [now] of the world after it. *)
Definition GetOrSet {S W : Type} `{Cache S} (now : W -> Time) (s : S) (key : string)
    (ttl : Duration) (compute : W -> W * result cache_error bytes) (w : W)
    : S * W * result cache_error bytes :=
  match Get s (now w) key with
  | Ok data => (s, w, Ok data)
  | Err err =>
      if negb (bool_decide (err = ErrNotFound)) then (s, w, Err err)
      else
        match compute w with
        | (w, Err err) => (s, w, Err err)
        | (w, Ok data) =>
            match Set_ s (now w) key data ttl with
            | (s, Some err) => (s, w, Err err)
            | (s, None) => (s, w, Ok data)
            end
        end
  end.

(** [GetJSON] and [SetJSON]: [json.Unmarshal] and [json.Marshal] are arguments. *)
Definition GetJSON {S T : Type} `{Cache S} (Unmarshal : bytes -> result cache_error T)
    (s : S) (now : Time) (key : string) : result cache_error T :=
  try! data := Get s now key in Unmarshal data.

Definition SetJSON {S T : Type} `{Cache S} (Marshal : T -> result cache_error bytes)
    (s : S) (now : Time) (key : string) (value : T) (ttl : Duration) : S * option cache_error :=
  match Marshal value with
  | Err err => (s, Some err)
  | Ok data => Set_ s now key data ttl
  end.

(** ** [Memory] *)

Record item := mkItem { value : bytes; expiresAt : Time; noExpiry : bool }.

Record Memory := mkMemory { items : gmap string item; closed : bool }.

Definition NewMemory : Memory := mkMemory ∅ false.

Definition expired (it : item) (now : Time) : bool :=
  negb (noExpiry it) && time_After now (expiresAt it).

(** The item of a key that has not expired. *)
Definition live (m : gmap string item) (now : Time) (key : string) : option item :=
  match m !! key with
  | Some it => if expired it now then None else Some it
  | None => None
  end.

Definition Memory_Get (m : Memory) (now : Time) (key : string) : result cache_error bytes :=
  if closed m then Err ErrClosed else
  match items m !! key with
  | None => Err ErrNotFound
  | Some it => if expired it now then Err ErrNotFound else Ok (value it)
  end.

Definition make_item (now : Time) (v : bytes) (ttl : Duration) : item :=
  if 0 <? ttl then mkItem v (time_Add now ttl) false else mkItem v zero_time true.

Definition Memory_Set (m : Memory) (now : Time) (key : string) (v : bytes) (ttl : Duration)
    : Memory * option cache_error :=
  if closed m then (m, Some ErrClosed)
  else (mkMemory (<[key := make_item now v ttl]> (items m)) false, None).

Definition Memory_Delete (m : Memory) (key : string) : Memory * option cache_error :=
  if closed m then (m, Some ErrClosed)
  else (mkMemory (delete key (items m)) false, None).

Definition Memory_Exists (m : Memory) (now : Time) (key : string) : result cache_error bool :=
  if closed m then Err ErrClosed else
  match items m !! key with
  | None => Ok false
  | Some it => if expired it now then Ok false else Ok true
  end.

Definition Memory_Clear (m : Memory) : Memory * option cache_error :=
  if closed m then (m, Some ErrClosed) else (mkMemory ∅ false, None).

Definition Memory_Size (m : Memory) : nat := size (items m).

Definition Memory_GetMulti (m : Memory) (now : Time) (keys : list string)
    : result cache_error (gmap string bytes) :=
  if closed m then Err ErrClosed else
  Ok (foldl (fun result key =>
        match items m !! key with
        | None => result
        | Some it => if expired it now then result else <[key := value it]> result
        end) ∅ keys).

(** [SetMulti] ranges over a map: the order does not matter, each key is
    written once. *)
Definition Memory_SetMulti (m : Memory) (now : Time) (new : gmap string bytes) (ttl : Duration)
    : Memory * option cache_error :=
  if closed m then (m, Some ErrClosed)
  else (mkMemory (((fun v => make_item now v ttl) <$> new) ∪ items m) false, None).

Definition Memory_DeleteMulti (m : Memory) (keys : list string) : Memory * option cache_error :=
  if closed m then (m, Some ErrClosed)
  else (mkMemory (foldl (fun its key => delete key its) (items m) keys) false, None).

Definition removeExpired (m : Memory) (now : Time) : Memory :=
  mkMemory (filter (fun p => expired p.2 now = false) (items m)) (closed m).

(** [Close], and whether it returns: it waits, with the lock, for the goroutine to
    close [cleanCh], which it does where [stops]; see the last section. *)
Definition Memory_Close (m : Memory) (stops : bool) : Memory * bool :=
  if closed m then (m, true) else (mkMemory (items m) true, stops).

#[export] Instance Memory_Cache : Cache Memory := {
  Get := Memory_Get;
  Set_ := Memory_Set;
  Delete := Memory_Delete;
  Exists := Memory_Exists;
  Clear := Memory_Clear
}.

(** ** Sequences of operations *)

Inductive cache_op :=
| OGet (key : string)
| OSet (key : string) (v : bytes) (ttl : Duration)
| ODelete (key : string)
| OExists (key : string)
| OClear
| OGetMulti (keys : list string)
| OSetMulti (new : gmap string bytes) (ttl : Duration)
| ODeleteMulti (keys : list string)
| OSize
| OTick.  (* one run of the cleanup *)

Inductive cache_answer :=
| AValue (r : result cache_error bytes)
| ABool (r : result cache_error bool)
| AMap (r : result cache_error (gmap string bytes))
| AError (e : option cache_error)
| ASize (n : nat)
| ANone.

Definition Memory_op (m : Memory) (now : Time) (o : cache_op) : Memory * cache_answer :=
  match o with
  | OGet k => (m, AValue (Memory_Get m now k))
  | OSet k v ttl => let '(m, e) := Memory_Set m now k v ttl in (m, AError e)
  | ODelete k => let '(m, e) := Memory_Delete m k in (m, AError e)
  | OExists k => (m, ABool (Memory_Exists m now k))
  | OClear => let '(m, e) := Memory_Clear m in (m, AError e)
  | OGetMulti ks => (m, AMap (Memory_GetMulti m now ks))
  | OSetMulti new ttl => let '(m, e) := Memory_SetMulti m now new ttl in (m, AError e)
  | ODeleteMulti ks => let '(m, e) := Memory_DeleteMulti m ks in (m, AError e)
  | OSize => (m, ASize (Memory_Size m))
  | OTick => (removeExpired m now, ANone)
  end.

Definition is_tick (o : cache_op) : bool := match o with OTick => true | _ => false end.

(** The answers of the operations other than ticks.  [Close] is left out: after it
    there are no more ticks, and whether it returns depends on them. *)
Fixpoint Memory_run (m : Memory) (ops : list (Time * cache_op)) : list cache_answer :=
  match ops with
  | [] => []
  | (now, o) :: ops =>
      let '(m, a) := Memory_op m now o in
      if is_tick o then Memory_run m ops else a :: Memory_run m ops
  end.

Fixpoint times_from (t : Time) (ops : list (Time * cache_op)) : Prop :=
  match ops with
  | [] => True
  | (now, _) :: ops => t <= now /\ times_from now ops
  end.

(** ** [Close] and the cleanup goroutine

    The mutex, the two channels and the two threads that meet in [Close].  The
    goroutine waits in its [select], wants the lock for [removeExpired], holds
    it, or has returned (closing [cleanCh]); with [CleanupInterval = 0] it was
    never started. *)

Inductive goroutine := GNotStarted | GSelect | GWantLock | GRemoving | GReturned.
Inductive closer := CStart | CWaiting | CReturned.

Record close_sys := mkClose {
  lock_free : bool;
  stopCh_closed : bool;
  cleanCh_closed : bool;
  gor : goroutine;
  clo : closer
}.

Inductive close_step : close_sys -> close_sys -> Prop :=
| step_tick l s c x :  (* the ticker fires *)
    close_step (mkClose l s c GSelect x) (mkClose l s c GWantLock x)
| step_stop l c x :  (* stopCh is closed: return, and close cleanCh *)
    close_step (mkClose l true c GSelect x) (mkClose l true true GReturned x)
| step_g_lock s c x :
    close_step (mkClose true s c GWantLock x) (mkClose false s c GRemoving x)
| step_g_unlock l s c x :
    close_step (mkClose l s c GRemoving x) (mkClose true s c GSelect x)
| step_close s c g :  (* m.mu.Lock(); closed = true; close(m.stopCh) *)
    close_step (mkClose true s c g CStart) (mkClose false true c g CWaiting)
| step_received l s g :  (* <-m.cleanCh, and the deferred unlock *)
    close_step (mkClose l s true g CWaiting) (mkClose true s true g CReturned).

Inductive close_steps : close_sys -> close_sys -> Prop :=
| close_refl s : close_steps s s
| close_snoc s t u : close_steps s t -> close_step t u -> close_steps s u.

(** The start of [Close] on a cache made with a cleanup interval, or without. *)
Definition close_start (with_cleanup : bool) : close_sys :=
  mkClose true false false (if with_cleanup then GSelect else GNotStarted) CStart.

Definition stuck (s : close_sys) : Prop := forall t, ~ close_step s t.

(** ** Lemmas *)

Lemma Memory_Get_live m now key :
  closed m = false ->
  Memory_Get m now key = match live (items m) now key with
                         | Some it => Ok (value it) | None => Err ErrNotFound end.
Proof.
  intros Hc. unfold Memory_Get, live. rewrite Hc.
  destruct (items m !! key) as [it|]; [by destruct (expired it now) | done].
Qed.

Lemma Memory_Exists_live m now key :
  closed m = false ->
  Memory_Exists m now key = Ok (bool_decide (is_Some (live (items m) now key))).
Proof.
  intros Hc. unfold Memory_Exists, live. rewrite Hc.
  destruct (items m !! key) as [it|]; [by destruct (expired it now) | done].
Qed.

Lemma live_insert m key it now key' :
  live (<[key:=it]> m) now key' =
  if decide (key = key') then (if expired it now then None else Some it) else live m now key'.
Proof. unfold live. rewrite lookup_insert. by case_decide. Qed.

Lemma live_delete m key now key' :
  live (delete key m) now key' = if decide (key = key') then None else live m now key'.
Proof. unfold live. rewrite lookup_delete. by case_decide. Qed.

Lemma live_removeExpired m t now key :
  t <= now ->
  live (filter (fun p => expired p.2 t = false) m) now key = live m now key.
Proof.
  intros Ht. unfold live. rewrite map_lookup_filter.
  destruct (m !! key) as [it|] eqn:Hm; [cbn | done].
  case_guard as Hg; cbn; [done|].
  destruct (expired it now) eqn:He; [done|]. exfalso. apply Hg.
  unfold expired, time_After in *. cbn. destruct (noExpiry it); cbn in *; lia.
Qed.

Lemma make_item_expired t v ttl now :
  expired (make_item t v ttl) now = (0 <? ttl) && (t + ttl <? now).
Proof. unfold make_item, expired, time_After, time_Add. destruct (0 <? ttl); done. Qed.

Lemma make_item_value t v ttl : value (make_item t v ttl) = v.
Proof. unfold make_item. by destruct (0 <? ttl). Qed.

#[export] Instance Memory_CacheLaws : CacheLaws Memory.
Proof.
  refine {| usable := fun m => closed m = false |}.
  - intros s t k v ttl Hu. cbn. unfold Memory_Set. rewrite Hu. eauto.
  - intros s s' t k v ttl now Hs Hu Hl. cbn in *. unfold Memory_Set in Hs. rewrite Hu in Hs.
    simplify_eq. rewrite Memory_Get_live by done. cbn. rewrite live_insert, decide_True by done.
    rewrite make_item_expired, (proj2 (andb_false_iff _ _)) by lia.
    by rewrite make_item_value.
  - intros s s' t k v ttl now Hs Hu H0 Hl. cbn in *. unfold Memory_Set in Hs. rewrite Hu in Hs.
    simplify_eq. rewrite Memory_Get_live by done. cbn. rewrite live_insert, decide_True by done.
    rewrite make_item_expired. by rewrite (proj2 (andb_true_iff _ _)) by lia.
  - intros s s' t k k' v ttl now Hs Hu Hk. cbn in *. unfold Memory_Set in Hs. rewrite Hu in Hs.
    simplify_eq. rewrite !Memory_Get_live by done. cbn. by rewrite live_insert, decide_False.
  - intros s now k Hu. cbn. rewrite Memory_Exists_live, Memory_Get_live by done.
    by destruct (live (items s) now k).
  - intros s k k' now Hu. cbn. unfold Memory_Delete. rewrite Hu. eexists. split; [done|].
    split; [done|]. rewrite !Memory_Get_live by done. cbn. rewrite live_delete.
    by case_decide.
Defined.

(** *** The cleanup is invisible *)

(** Two maps that agree, from [t] on, on everything that has not expired. *)
Definition live_equiv (t : Time) (m m' : gmap string item) : Prop :=
  forall now key, t <= now -> live m now key = live m' now key.

#[export] Instance live_equiv_equiv t : Equivalence (live_equiv t).
Proof.
  split.
  - intros m now key _. done.
  - intros m m' H now key Hn. symmetry. by apply H.
  - intros m m' m'' H H' now key Hn. rewrite H by done. by apply H'.
Qed.

Lemma live_equiv_later t t' m m' : t <= t' -> live_equiv t m m' -> live_equiv t' m m'.
Proof. intros Ht H now key Hn. apply H. lia. Qed.

#[export] Instance live_equiv_insert t key it :
  Proper (live_equiv t ==> live_equiv t) (insert key it).
Proof. intros m m' H now k Hn. rewrite !live_insert, (H now k) by done. done. Qed.

#[export] Instance live_equiv_delete t key :
  Proper (live_equiv t ==> live_equiv t) (delete key).
Proof. intros m m' H now k Hn. rewrite !live_delete, (H now k) by done. done. Qed.

Lemma live_union new m now key :
  live (new ∪ m) now key = match new !! key with
                           | Some it => if expired it now then None else Some it
                           | None => live m now key end.
Proof.
  unfold live. rewrite lookup_union. destruct (new !! key), (m !! key); done.
Qed.

#[export] Instance live_equiv_union t new :
  Proper (live_equiv t ==> live_equiv t) (union new).
Proof. intros m m' H now k Hn. rewrite !live_union, (H now k) by done. done. Qed.

Lemma live_equiv_deletes t keys m m' :
  live_equiv t m m' ->
  live_equiv t (foldl (fun its key => delete key its) m keys)
               (foldl (fun its key => delete key its) m' keys).
Proof.
  revert m m'. induction keys as [|k keys IH]; intros m m' H; [done|]. cbn. apply IH. by rewrite H.
Qed.

Lemma live_equiv_removeExpired t m :
  live_equiv t (filter (fun p => expired p.2 t = false) m) m.
Proof. intros now key Hn. by apply live_removeExpired. Qed.

Lemma GetMulti_live (m : gmap string item) now keys (acc : gmap string bytes) :
  foldl (fun result key =>
    match m !! key with
    | None => result
    | Some it => if expired it now then result else <[key := value it]> result
    end) acc keys =
  foldl (fun result key =>
    match live m now key with Some it => <[key := value it]> result | None => result end) acc keys.
Proof.
  revert acc. induction keys as [|k keys IH]; intros acc; [done|]. cbn. rewrite IH.
  f_equal. unfold live. destruct (m !! k) as [it|]; [by destruct (expired it now) | done].
Qed.

Definition memory_equiv (t : Time) (m m' : Memory) : Prop :=
  closed m = closed m' /\ live_equiv t (items m) (items m').

(** Two answers for one operation: equal, or two sizes of which the first is not
    greater. *)
Definition same_answer (a b : cache_answer) : Prop :=
  match a, b with
  | ASize n, ASize k => (n <= k)%nat
  | _, _ => a = b
  end.

(** Alike, and the first holds nothing that the second does not. *)
Definition memory_sub (t : Time) (m m' : Memory) : Prop := memory_equiv t m m' /\ items m ⊆ items m'.

Lemma deletes_mono (keys : list string) (m m' : gmap string item) :
  m ⊆ m' -> foldl (fun its key => delete key its) m keys ⊆ foldl (fun its key => delete key its) m' keys.
Proof. revert m m'. induction keys as [|k keys IH]; intros m m' Hs; [done|]. cbn. by apply IH, delete_mono. Qed.

(** Every operation keeps the first cache below the second. *)
Lemma Memory_op_sub now o m m' : closed m = closed m' -> items m ⊆ items m' -> items (Memory_op m now o).1 ⊆ items (Memory_op m' now o).1.
Proof.
  intros Hc Hs. destruct o; cbn; unfold Memory_Set, Memory_Delete, Memory_Clear, Memory_SetMulti, Memory_DeleteMulti;
    rewrite <- ?Hc; destruct (closed m); cbn; try done.
  - by apply insert_mono.
  - by apply delete_mono.
  - by apply map_union_mono_l.
  - by apply deletes_mono.
  - by apply map_filter_subseteq_mono.
  - by apply map_filter_subseteq_mono.
Qed.

(** Every operation other than a tick keeps two such caches alike and answers
    the same on both. *)
Lemma Memory_op_equiv t now o m m' :
  t <= now -> memory_sub t m m' ->
  memory_equiv now (Memory_op m now o).1 (Memory_op m' now o).1 /\
  same_answer (Memory_op m now o).2 (Memory_op m' now o).2.
Proof.
  intros Ht [[Hc Hl] Hs]. assert (Hsize : (size (items m) <= size (items m'))%nat) by by apply map_subseteq_size. apply (live_equiv_later t now) in Hl; [|done].
  unfold memory_equiv. destruct (closed m) eqn:Hcm; symmetry in Hc.
  - destruct o; cbn; unfold Memory_Get, Memory_Set, Memory_Delete, Memory_Exists, Memory_Clear,
      Memory_GetMulti, Memory_SetMulti, Memory_DeleteMulti; rewrite ?Hcm, ?Hc; cbn;
      rewrite ?Hcm, ?Hc, ?live_equiv_removeExpired; done.
  - destruct o; cbn; unfold Memory_Set, Memory_Delete, Memory_Clear,
      Memory_GetMulti, Memory_SetMulti, Memory_DeleteMulti;
      rewrite ?Memory_Get_live, ?Memory_Exists_live by done;
      rewrite ?Hcm, ?Hc; cbn; rewrite ?Hcm, ?Hc, ?live_equiv_removeExpired, ?Hl; try done.
    + split; [done|]. do 2 f_equal. rewrite !GetMulti_live.
      generalize (∅ : gmap string bytes) as acc. induction keys as [|k ks IH]; intros acc; [done|].
      cbn. by rewrite (Hl now k), IH by done.
    + split; [|done]. split; [done|]. by apply live_equiv_deletes.
Qed.

Lemma tick_sub t now m m' : t <= now -> memory_sub t m m' -> memory_sub now (removeExpired m now) m'.
Proof.
  intros Ht [[Hc Hl] Hs]. split; [split; [done|]|].
  - cbn. rewrite live_equiv_removeExpired. by apply (live_equiv_later t).
  - etrans; [apply map_filter_subseteq|done].
Qed.

Lemma Memory_run_equiv t ops m m' :
  memory_sub t m m' -> times_from t ops ->
  Forall2 same_answer (Memory_run m ops) (Memory_run m' (filter (fun p => is_tick p.2 = false) ops)).
Proof.
  revert t m m'. induction ops as [|[now o] ops IH]; intros t m m' He Ht; [constructor|].
  destruct Ht as [Hle Ht]. rewrite filter_cons. cbn [snd Memory_run].
  destruct (is_tick o) eqn:Hd.
  - rewrite decide_False by done. destruct o; try done. cbn [Memory_op]. apply (IH now); [|done]. by apply (tick_sub t).
  - rewrite decide_True by done. cbn [Memory_run].
    pose proof (Memory_op_equiv t now o m m' Hle He) as [Hm Ha].
    pose proof (Memory_op_sub now o m m' (proj1 (proj1 He)) (proj2 He)) as Hs.
    destruct (Memory_op m now o) as [m1 a], (Memory_op m' now o) as [m1' a'].
    rewrite Hd. constructor; [exact Ha|]. by apply (IH now).
Qed.

(** *** Closing *)

Lemma close_steps_invariant (P : close_sys -> Prop) s t :
  P s -> (forall u v, P u -> close_step u v -> P v) -> close_steps s t -> P t.
Proof. intros Hs HP. induction 1; eauto. Qed.

Lemma GetMulti_foldl (m : gmap string item) now keys acc key :
  foldl (fun result key =>
    match live m now key with Some it => <[key := value it]> result | None => result end)
    acc keys !! key =
  if decide (key ∈ keys) then
    match live m now key with Some it => Some (value it) | None => acc !! key end
  else (acc : gmap string bytes) !! key.
Proof.
  revert acc. induction keys as [|k keys IH]; intros acc; [done|]. cbn. rewrite IH.
  destruct (decide (key = k)) as [->|Hne].
  - rewrite (decide_True (P := k ∈ k :: keys)) by left.
    destruct (live m now k); case_decide; rewrite ?lookup_insert_eq; done.
  - destruct (decide (key ∈ keys)) as [Hin|Hin].
    + rewrite decide_True by (by right).
      destruct (live m now key); [done|]. destruct (live m now k); [|done].
      by rewrite lookup_insert_ne.
    + rewrite decide_False by (intros [?|?]%elem_of_cons; done).
      destruct (live m now k); [|done]. by rewrite lookup_insert_ne.
Qed.

(** ** Properties *)

(** C13. The cleanup is invisible but for [Size]: for operations at times that do not
    go back, from any cache, the answers of [Get], [Set], [Delete], [Exists], [Clear]
    and the batch operations are the same with the runs of the cleanup, whenever they
    happen, as without any; [Size], which counts what has expired and is still there,
    is never greater.  ([Close], which waits for the cleanup, is not among the
    operations.) *)
Theorem Memory_cleanup_invisible t m ops :
  times_from t ops ->
  Forall2 same_answer (Memory_run m ops) (Memory_run m (filter (fun p => is_tick p.2 = false) ops)).
Proof. intros Ht. apply (Memory_run_equiv t); [by split | done]. Qed.

(** [GetOrSet] on any cache that satisfies the interface: a successful call
    leaves its data in the cache, so that until the time to live is over the
    next call for the key returns the same data without computing. *)
Theorem GetOrSet_computes_once {S W : Type} `{CacheLaws S} (now : W -> Time)
    (s s' : S) key ttl compute compute' (w w' v : W) data :
  usable s -> Get s (now w) key = Err ErrNotFound ->
  GetOrSet now s key ttl compute w = (s', w', Ok data) ->
  ttl <= 0 \/ now v <= now w' + ttl ->
  GetOrSet now s' key ttl compute' v = (s', v, Ok data).
Proof.
  intros Hu Hg Hs Hv. unfold GetOrSet in Hs. rewrite Hg in Hs. simpl in Hs.
  destruct (compute w) as [w1 [d|e]]; [|done].
  destruct (law_set s (now w1) key d ttl Hu) as (s1 & Hset & Hu1).
  rewrite Hset in Hs. simplify_eq. unfold GetOrSet.
  by rewrite (law_get_set _ _ _ _ _ _ (now v) Hset).
Qed.

(** The batch operations of an open cache: [SetMulti] is a [Set] of each
    pair, [DeleteMulti] a [Delete] of each key, as later [Get]s see it, and
    [GetMulti] returns the pairs that [Get] finds. *)
Theorem Memory_batch_spec m now new ttl keys key later :
  closed m = false ->
  Memory_Get (Memory_SetMulti m now new ttl).1 later key =
    match new !! key with
    | Some v => Memory_Get (Memory_Set m now key v ttl).1 later key
    | None => Memory_Get m later key
    end /\
  Memory_Get (Memory_DeleteMulti m keys).1 later key =
    (if decide (key ∈ keys) then Err ErrNotFound else Memory_Get m later key) /\
  exists r, Memory_GetMulti m now keys = Ok r /\
    r !! key = if decide (key ∈ keys)
               then match Memory_Get m now key with Ok v => Some v | Err _ => None end
               else None.
Proof.
  intros Hc. unfold Memory_SetMulti, Memory_DeleteMulti, Memory_GetMulti, Memory_Set.
  rewrite Hc. cbn [fst]. split; [|split].
  - rewrite !Memory_Get_live by done. cbn [items]. rewrite live_union, lookup_fmap.
    destruct (new !! key) as [v|]; cbn [fmap option_fmap option_map]; [|done].
    rewrite Memory_Get_live by done. cbn [items fst]. by rewrite live_insert, decide_True by done.
  - rewrite !Memory_Get_live by done. cbn [items]. generalize (items m) as its.
    induction keys as [|k keys IH]; intros its; [by rewrite decide_False by (apply not_elem_of_nil)|].
    cbn. rewrite IH, live_delete.
    destruct (decide (key ∈ keys)) as [Hk|Hk].
    + by rewrite decide_True by (by right).
    + case_decide as He; subst.
      * by rewrite decide_True by left.
      * by rewrite decide_False by (intros [->|?]%elem_of_cons; done).
  - eexists. split; [done|]. rewrite GetMulti_live, GetMulti_foldl, Memory_Get_live by done.
    case_decide; [by destruct (live (items m) now key) | done].
Qed.

(** When [Close] returns the cleanup goroutine has returned and the lock is
    free.  But it need not return: without a cleanup interval no goroutine ever
    closes [cleanCh] and [Close] never returns, holding the lock; and with one,
    a tick just before [Close] leaves both waiting for each other. *)
Theorem Memory_Close_outcomes :
  (forall b s, close_steps (close_start b) s -> clo s = CReturned ->
     gor s = GReturned /\ lock_free s = true) /\
  (forall s, close_steps (close_start false) s -> clo s <> CReturned) /\
  (exists s, close_steps (close_start false) s /\ clo s = CWaiting /\
     lock_free s = false /\ stuck s) /\
  (exists s, close_steps (close_start true) s /\ clo s = CWaiting /\
     lock_free s = false /\ stuck s) /\
  (exists s, close_steps (close_start true) s /\ clo s = CReturned).
Proof.
  split; [|split; [|split; [|split]]].
  - intros b s Hs Hr.
    pose proof (close_steps_invariant (fun s =>
      (cleanCh_closed s = true -> gor s = GReturned) /\
      (clo s = CReturned -> cleanCh_closed s = true /\ lock_free s = true))
      (close_start b) s) as Hinv.
    destruct Hinv as [Hc Hl]; [by destruct b | | done | destruct (Hl Hr); auto].
    intros u v [Hc Hl] Hst. destruct Hst; cbn in *; naive_solver.
  - intros s Hs.
    pose proof (close_steps_invariant (fun s =>
      gor s = GNotStarted /\ cleanCh_closed s = false /\ clo s <> CReturned)
      (close_start false) s) as Hinv.
    apply Hinv; [done | | done].
    intros u v (Hg & Hc & Hl) Hst. destruct Hst; cbn in *; naive_solver.
  - exists (mkClose false true false GNotStarted CWaiting). split; [|split; [done|split; [done|]]].
    + eapply close_snoc; [apply close_refl | apply step_close].
    + intros t Ht. inversion Ht.
  - exists (mkClose false true false GWantLock CWaiting). split; [|split; [done|split; [done|]]].
    + eapply close_snoc; [eapply close_snoc; [apply close_refl | apply step_tick] | apply step_close].
    + intros t Ht. inversion Ht.
  - exists (mkClose true true true GReturned CReturned). split; [|done].
    eapply close_snoc; [|apply step_received].
    eapply close_snoc; [|apply step_stop].
    eapply close_snoc; [apply close_refl | apply step_close].
Qed.

(** ** Runs and witnesses *)

Example memory_run_example :
  Memory_run NewMemory
    [(0, OSet "a" "1" 10); (1, OSet "b" "2" 0); (10, OGet "a"); (11, OGet "a"); (11, OTick);
     (99, OGet "b"); (99, OSize); (99, OExists "b")] =
  [AError None; AError None; AValue (Ok "1"); AValue (Err ErrNotFound);
   AValue (Ok "2"); ASize 1; ABool (Ok true)].
Proof. vm_compute. reflexivity. Qed.

Lemma Memory_cleanup_invisible_witness :
  let ops := [(0, OSet "a" "1" 10); (5, OTick); (11, OTick); (11, OGet "a"); (12, OSize)] in
  times_from 0 ops /\
  Memory_run NewMemory ops = [AError None; AValue (Err ErrNotFound); ASize 0] /\
  Forall2 same_answer (Memory_run NewMemory ops)
    (Memory_run NewMemory [(0, OSet "a" "1" 10); (11, OGet "a"); (12, OSize)]).
Proof.
  split; [cbn; lia|]. split; [reflexivity|].
  apply (Memory_cleanup_invisible 0 NewMemory
           [(0, OSet "a" "1" 10); (5, OTick); (11, OTick); (11, OGet "a"); (12, OSize)]). cbn. lia.
Defined.

Lemma GetOrSet_computes_once_witness :
  let compute := fun w : Z => (w + 2, Ok "data") in
  exists s', GetOrSet id NewMemory "k" 10 compute 0 = (s', 2, Ok "data") /\
    GetOrSet id s' "k" 10 (fun w : Z => (w, Err (ErrOther 1))) 12 = (s', 12, Ok "data").
Proof.
  eexists. split; [reflexivity|].
  eapply (GetOrSet_computes_once id NewMemory _ "k" 10 (fun w : Z => (w + 2, Ok "data")) _ 0 2 12);
    [reflexivity | reflexivity | reflexivity | right; cbn; lia].
Defined.

Lemma Memory_batch_spec_witness :
  closed NewMemory = false /\
  Memory_Get (Memory_SetMulti NewMemory 0 {[ "a" := "1" ]} 10).1 5 "a" =
  Memory_Get (Memory_Set NewMemory 0 "a" "1" 10).1 5 "a".
Proof.
  split; [reflexivity|].
  exact (proj1 (Memory_batch_spec NewMemory 0 {[ "a" := "1" ]} 10 [] "a" 5 eq_refl)).
Defined.
