(* ===== verification/Cron.v ===== *)
(** * Cron expressions ([pantry/jobs/cron.go])

    Parsing of the five or six fields into lists of values, and the search for
    the next time a parsed expression fires, in a location of fixed offset.

    Strings are ASCII.  The maps of month and day names are ranged over in the
    order written here; Go's order is random, but a name is letters and its
    replacement digits, so that two orders differ only on texts that are errors
    in both. *)

From stdpp Require Import sorting.
From S2P Require Import Prelude GoStrings Calendar.

(** ** Data *)

Record CronExpr := mkCron {
  minute : list Z;
  hour : list Z;
  dayOfMonth : list Z;
  month : list Z;
  dayOfWeek : list Z;
  raw : string
}.

Inductive cron_error :=
| EmptyExpression
| WrongFieldCount (n : nat)
| InField (field : string) (e : cron_error)
| EveryNotSupported
| UnknownPredefined (expr : string)
| NoValidValues
| InvalidStep (s : string)
| InvalidRangeStart (s : string)
| InvalidRangeEnd (s : string)
| RangeOutOfBounds (start stop min max : Z)
| InvalidValue (s : string)
| ValueOutOfBounds (v min max : Z).

(** ** Lists of values *)

Fixpoint allValues_from (min : Z) (n : nat) : list Z :=
  match n with
  | O => []
  | S n => min :: allValues_from (min + 1) n
  end.

Definition allValues (min max : Z) : list Z := allValues_from min (Z.to_nat (max - min + 1)).

(** [for i := min; i <= max; i += step]: the index is an [int] and wraps
    around.  The accumulator holds the values so far, last first. *)
Definition step_body (max step : Z) (s : Z * list Z) : (Z * list Z) + list Z :=
  let '(i, acc) := s in
  if i <=? max then inl (int_add i step, i :: acc) else inr acc.

Definition stepValues (min max step : Z) : list Z :=
  match iter_until (Z.to_pos (3 * max + 8)) (step_body max step) (min, []) with
  | inl (_, acc) => rev acc
  | inr acc => rev acc
  end.

Fixpoint dedup (seen : gset Z) (l : list Z) : list Z :=
  match l with
  | [] => []
  | v :: l => if decide (v ∈ seen) then dedup seen l else v :: dedup ({[v]} ∪ seen) l
  end.

(** The inner loop of the sort at one [i]: [x] is [result[i]], the list is what
    follows it; an element smaller than [result[i]] is swapped with it. *)
Fixpoint exchange (x : Z) (l : list Z) : Z * list Z :=
  match l with
  | [] => (x, [])
  | y :: l =>
      if y <? x then let '(m, r) := exchange y l in (m, x :: r)
      else let '(m, r) := exchange x l in (m, y :: r)
  end.

Fixpoint exchange_sort (fuel : nat) (l : list Z) : list Z :=
  match fuel, l with
  | S fuel, x :: l => let '(m, r) := exchange x l in m :: exchange_sort fuel r
  | _, _ => l
  end.

Definition uniqueSorted (values : list Z) : list Z :=
  let result := dedup ∅ values in exchange_sort (length result) result.

Fixpoint contains (slice : list Z) (val : Z) : bool :=
  match slice with
  | [] => false
  | v :: slice => if v =? val then true else contains slice val
  end.

(** ** Parsing *)

Definition parseFieldPart (part : string) (min max : Z) : result cron_error (list Z) :=
  try! (part, step) :=
    match cut_byte "/" part with
    | Some (p, stepStr) =>
        match Atoi stepStr with
        | Some step => if step <=? 0 then Err (InvalidStep stepStr) else Ok (p, step)
        | None => Err (InvalidStep stepStr)
        end
    | None => Ok (part, 1)
    end in
  if String.eqb part "*" then Ok (stepValues min max step)
  else
    match cut_byte "-" part with
    | Some (startStr, endStr) =>
        match Atoi startStr with
        | None => Err (InvalidRangeStart startStr)
        | Some start =>
            match Atoi endStr with
            | None => Err (InvalidRangeEnd endStr)
            | Some stop =>
                if (start <? min) || (max <? stop) || (stop <? start)
                then Err (RangeOutOfBounds start stop min max)
                else Ok (stepValues start stop step)
            end
        end
    | None =>
        match Atoi part with
        | None => Err (InvalidValue part)
        | Some val =>
            if (val <? min) || (max <? val) then Err (ValueOutOfBounds val min max)
            else Ok [val]
        end
    end.

Fixpoint parseParts (parts : list string) (min max : Z) (result : list Z)
    : Prelude.result cron_error (list Z) :=
  match parts with
  | [] => Ok result
  | part :: parts =>
      try! values := parseFieldPart part min max in
      parseParts parts min max (result ++ values)
  end.

Definition parseField (field : string) (min max : Z) : result cron_error (list Z) :=
  if String.eqb field "*" then Ok (allValues min max)
  else
    try! values := parseParts (split_byte "," field) min max [] in
    match uniqueSorted values with
    | [] => Err NoValidValues
    | v :: vs => Ok (v :: vs)
    end.

Definition monthNames : list (string * string) :=
  [("jan", "1"); ("feb", "2"); ("mar", "3"); ("apr", "4");
   ("may", "5"); ("jun", "6"); ("jul", "7"); ("aug", "8");
   ("sep", "9"); ("oct", "10"); ("nov", "11"); ("dec", "12")].

Definition dayNames : list (string * string) :=
  [("sun", "0"); ("mon", "1"); ("tue", "2"); ("wed", "3");
   ("thu", "4"); ("fri", "5"); ("sat", "6")].

Definition replace_names (names : list (string * string)) (s : string) : string :=
  foldl (fun lower '(name, num) => ReplaceAll lower name num) s names.

Definition parseMonthField (field : string) : result cron_error (list Z) :=
  parseField (replace_names monthNames (ToLower field)) 1 12.

Definition parseDayOfWeekField (field : string) : result cron_error (list Z) :=
  let lower := replace_names dayNames (ToLower field) in
  parseField (ReplaceAll lower "7" "0") 0 6.

Definition parsePredefined (expr : string) : result cron_error CronExpr :=
  let e := ToLower expr in
  if String.eqb e "@yearly" || String.eqb e "@annually" then
    Ok (mkCron [0] [0] [1] [1] (allValues 0 6) expr)
  else if String.eqb e "@monthly" then
    Ok (mkCron [0] [0] [1] (allValues 1 12) (allValues 0 6) expr)
  else if String.eqb e "@weekly" then
    Ok (mkCron [0] [0] (allValues 1 31) (allValues 1 12) [0] expr)
  else if String.eqb e "@daily" || String.eqb e "@midnight" then
    Ok (mkCron [0] [0] (allValues 1 31) (allValues 1 12) (allValues 0 6) expr)
  else if String.eqb e "@hourly" then
    Ok (mkCron [0] (allValues 0 23) (allValues 1 31) (allValues 1 12) (allValues 0 6) expr)
  else if HasPrefix expr "@every " then Err EveryNotSupported
  else Err (UnknownPredefined expr).

Definition in_field {A : Type} (name : string) (r : result cron_error A) : result cron_error A :=
  match r with
  | Ok a => Ok a
  | Err e => Err (InField name e)
  end.

Definition ParseCron (expr0 : string) : result cron_error CronExpr :=
  let expr := TrimSpace expr0 in
  if String.eqb expr "" then Err EmptyExpression
  else if HasPrefix expr "@" then parsePredefined expr
  else
    let fields := Fields expr in
    if (length fields <? 5)%nat || (6 <? length fields)%nat
    then Err (WrongFieldCount (length fields))
    else
      let offset := if (length fields =? 6)%nat then 1%nat else 0%nat in
      let field n := default "" (fields !! (offset + n)%nat) in
      try! mi := in_field "minute field" (parseField (field 0%nat) 0 59) in
      try! h := in_field "hour field" (parseField (field 1%nat) 0 23) in
      try! dom := in_field "day-of-month field" (parseField (field 2%nat) 1 31) in
      try! mo := in_field "month field" (parseMonthField (field 3%nat)) in
      try! dow := in_field "day-of-week field" (parseDayOfWeekField (field 4%nat)) in
      Ok (mkCron mi h dom mo dow expr).

Definition CronExpr_String (c : CronExpr) : string := raw c.

(** ** The next time *)

(** The first value after [v], [None] for the -1 of the code. *)
Fixpoint next_after (l : list Z) (v : Z) : option Z :=
  match l with
  | [] => None
  | x :: l => if v <? x then Some x else next_after l v
  end.

(** Whether the day of [t] is a day of the expression. *)
Definition dayOk (c : CronExpr) (off : Z) (t : Time) : bool :=
  let dayMatches := contains (dayOfMonth c) (time_Day off t) in
  let dowMatches := contains (dayOfWeek c) (time_Weekday off t) in
  let domIsAll := (length (dayOfMonth c) =? 31)%nat in
  let dowIsAll := (length (dayOfWeek c) =? 7)%nat in
  if domIsAll && dowIsAll then true
  else if domIsAll then dowMatches
  else if dowIsAll then dayMatches
  else dayMatches || dowMatches.

Definition midnight (off : Z) (t : Time) (year month day : Z) : Time :=
  time_Date off year month day 0 0 0 0.

(** The body of the loop: [inl] is [continue] at a later [t], [inr] the time
    returned. *)
Definition Next_body (c : CronExpr) (off : Z) (maxTime t : Time) : Time + Time :=
  if negb (time_Before t maxTime) then inr zero_time
  else
    let tomorrow :=
      midnight off t (time_Year off t) (time_Month off t) (time_Day off t + 1) in
    if negb (contains (month c) (time_Month off t)) then
      inl (midnight off t (time_Year off t) (time_Month off t + 1) 1)
    else if negb (dayOk c off t) then inl tomorrow
    else
      let at_hour :=
        if negb (contains (hour c) (time_Hour off t)) then
          match next_after (hour c) (time_Hour off t) with
          | None => None
          | Some h => Some (time_Date off (time_Year off t) (time_Month off t) (time_Day off t) h 0 0 0)
          end
        else Some t in
      match at_hour with
      | None => inl tomorrow
      | Some t =>
          if negb (contains (minute c) (time_Minute off t)) then
            match next_after (minute c) (time_Minute off t) with
            | None => inl (time_Truncate (time_Add t Hour) Hour)
            | Some m =>
                inr (time_Date off (time_Year off t) (time_Month off t) (time_Day off t)
                       (time_Hour off t) m 0 0)
            end
          else inr t
      end.

(** The bound on the iterations: the loop advances by a second at least. *)
Definition Next (c : CronExpr) (off : Z) (after : Time) : option Time :=
  let t := time_Add (time_Truncate after Minute) Minute in
  let maxTime := AddYears off after 5 in
  match iter_until (Z.to_pos ((maxTime - t) / Second + 2)) (Next_body c off maxTime) t with
  | inl _ => None
  | inr t => Some t
  end.

(** [CronJob.NextRun]: [parsed] is nil until the job is added. *)
Definition NextRun (parsed : option CronExpr) (off : Z) (after : Time) : option Time :=
  match parsed with
  | None => Some zero_time
  | Some c => Next c off after
  end.

(** ** Specification *)

(** The times at which an expression fires: whole minutes whose fields are
    among the values. *)
Definition fires (c : CronExpr) (off : Z) (u : Time) : bool :=
  (time_Nanosecond u =? 0) && (time_Second off u =? 0) &&
  contains (month c) (time_Month off u) && dayOk c off u &&
  contains (hour c) (time_Hour off u) && contains (minute c) (time_Minute off u).

Definition values_ok (min max : Z) (l : list Z) : Prop :=
  StronglySorted Z.lt l /\ l <> [] /\ Forall (fun v => min <= v <= max) l.

Definition cron_wf (c : CronExpr) : Prop :=
  values_ok 0 59 (minute c) /\ values_ok 0 23 (hour c) /\ values_ok 1 31 (dayOfMonth c) /\
  values_ok 1 12 (month c) /\ values_ok 0 6 (dayOfWeek c).

(** The step after a slash does not overflow the loop index. *)
Definition small_step (part : string) : Prop :=
  match cut_byte "/" part with
  | Some (_, s) => match Atoi s with Some step => step <= 2 ^ 62 | None => True end
  | None => True
  end.

#[global] Instance small_step_dec part : Decision (small_step part).
Proof.
  unfold small_step. destruct (cut_byte "/" part) as [[p s]|]; [destruct (Atoi s)|]; apply _.
Defined.

Definition small_steps (field : string) : Prop := Forall small_step (split_byte "," field).

(** Every field of the expression, as it is handed to [parseField]. *)
Definition cron_small_steps (expr : string) : Prop :=
  Forall (fun f => small_steps f /\ small_steps (replace_names monthNames (ToLower f)) /\
    small_steps (ReplaceAll (replace_names dayNames (ToLower f)) "7" "0")) (Fields (TrimSpace expr)).

(** The items of a field, and how they are written. *)
Inductive cron_item :=
| Star (step : option Z)
| Single (v : Z) (step : option Z)
| Range (start stop : Z) (step : option Z).

Definition step_string (step : option Z) : string :=
  match step with Some s => "/" +:+ Itoa s | None => "" end.

Definition item_string (it : cron_item) : string :=
  match it with
  | Star step => "*" +:+ step_string step
  | Single v step => Itoa v +:+ step_string step
  | Range a b step => (Itoa a +:+ "-" +:+ Itoa b) +:+ step_string step
  end.

Definition field_string (items : list cron_item) : string :=
  String.concat "," (map item_string items).

Definition step_ok (step : option Z) : Prop :=
  match step with Some s => 0 < s <= 2 ^ 62 | None => True end.

Definition item_ok (min max : Z) (it : cron_item) : Prop :=
  match it with
  | Star step => step_ok step
  | Single v step => min <= v <= max /\ step_ok step
  | Range a b step => min <= a /\ a <= b /\ b <= max /\ step_ok step
  end.

(** The values an item stands for. *)
Definition item_has (min max : Z) (it : cron_item) (v : Z) : Prop :=
  match it with
  | Star step => min <= v <= max /\ exists q, 0 <= q /\ v = min + q * default 1 step
  | Single w _ => v = w
  | Range a b step => a <= v <= b /\ exists q, 0 <= q /\ v = a + q * default 1 step
  end.

(** The instant at second [s] of local day [D]. *)
Definition inst (off D s : Z) : Time := (D * 86400 + s - off) * Second.

(** ** Lists of values *)

Lemma contains_spec l v : contains l v = true <-> v ∈ l.
Proof.
  induction l as [|x l IH]; cbn; [split; [done|intros H; by apply not_elem_of_nil in H]|].
  rewrite elem_of_cons. destruct (x =? v) eqn:E; [split; [intros _; left; lia|done]|].
  rewrite IH. split; [by right | intros [->|H]; [lia|done]].
Qed.

Lemma allValues_from_spec min n v : v ∈ allValues_from min n <-> min <= v < min + Z.of_nat n.
Proof.
  revert min. induction n as [|n IH]; intros min; cbn [allValues_from].
  - split; [intros H; by apply not_elem_of_nil in H | lia].
  - rewrite elem_of_cons, IH. lia.
Qed.

Lemma allValues_from_sorted min n : StronglySorted Z.lt (allValues_from min n).
Proof.
  revert min. induction n as [|n IH]; intros min; cbn; constructor; [done|].
  apply list.Forall_forall. intros v Hv%allValues_from_spec. lia.
Qed.

Lemma allValues_ok min max : min <= max -> values_ok min max (allValues min max).
Proof.
  intros H. split; [apply allValues_from_sorted|]. split.
  - unfold allValues. by replace (Z.to_nat (max - min + 1)) with (S (Z.to_nat (max - min))) by lia.
  - apply list.Forall_forall. intros v Hv%allValues_from_spec. lia.
Qed.

Lemma dedup_spec seen l v : v ∈ dedup seen l <-> v ∈ l /\ v ∉ seen.
Proof.
  revert seen. induction l as [|x l IH]; intros seen; cbn.
  - split; [intros H; by apply not_elem_of_nil in H | intros [H _]; by apply not_elem_of_nil in H].
  - case_decide as Hx; rewrite ?elem_of_cons, IH, ?elem_of_cons; [set_solver|].
    destruct (decide (v = x)); set_solver.
Qed.

Lemma dedup_NoDup seen l : NoDup (dedup seen l).
Proof.
  revert seen. induction l as [|x l IH]; intros seen; cbn; [constructor|].
  case_decide; [apply IH|]. constructor; [|apply IH]. rewrite dedup_spec. set_solver.
Qed.

Lemma exchange_perm x l : let '(m, r) := exchange x l in Permutation (m :: r) (x :: l).
Proof.
  revert x. induction l as [|y l IH]; intros x; cbn; [done|].
  destruct (y <? x).
  - specialize (IH y). destruct (exchange y l) as [m r].
    etrans; [apply Permutation_swap|]. by apply Permutation_skip.
  - specialize (IH x). destruct (exchange x l) as [m r].
    etrans; [apply Permutation_swap|]. etrans; [apply Permutation_skip, IH|].
    apply Permutation_swap.
Qed.

Lemma exchange_min x l : let '(m, r) := exchange x l in m <= x /\ Forall (fun v => m <= v) r.
Proof.
  revert x. induction l as [|y l IH]; intros x; cbn; [split; [lia|constructor]|].
  destruct (y <? x) eqn:E.
  - specialize (IH y). destruct (exchange y l) as [m r]. destruct IH.
    split; [lia|]. constructor; [lia|done].
  - specialize (IH x). destruct (exchange x l) as [m r]. destruct IH.
    split; [lia|]. constructor; [lia|done].
Qed.

Lemma exchange_sort_perm n l : Permutation (exchange_sort n l) l.
Proof.
  revert l. induction n as [|n IH]; intros [|x l]; cbn; try done.
  pose proof (exchange_perm x l) as Hp. destruct (exchange x l) as [m r]. by rewrite IH.
Qed.

Lemma exchange_sort_sorted n l :
  (length l <= n)%nat -> StronglySorted Z.le (exchange_sort n l).
Proof.
  revert l. induction n as [|n IH]; intros [|x l] Hl; cbn in *; [constructor|lia|constructor|].
  pose proof (exchange_perm x l) as Hp. pose proof (exchange_min x l) as Hm.
  destruct (exchange x l) as [m r]. apply Permutation_length in Hp. cbn in Hp.
  constructor; [apply IH; lia|]. destruct Hm as [_ Hm]. rewrite list.Forall_forall in *.
  intros v Hv. apply Hm. by rewrite exchange_sort_perm in Hv.
Qed.

Lemma sorted_NoDup_lt l : StronglySorted Z.le l -> NoDup l -> StronglySorted Z.lt l.
Proof.
  induction 1 as [|x l Hl IH Hx]; intros Hn; [constructor|].
  apply list.NoDup_cons in Hn as [Hxl Hn]. constructor; [auto|].
  rewrite list.Forall_forall in *. intros v Hv. specialize (Hx v Hv).
  assert (v <> x) by (intros ->; done). lia.
Qed.

(** [uniqueSorted] is the sorted list of the values. *)
Lemma uniqueSorted_spec l :
  StronglySorted Z.lt (uniqueSorted l) /\ forall v, v ∈ uniqueSorted l <-> v ∈ l.
Proof.
  unfold uniqueSorted. split.
  - apply sorted_NoDup_lt; [by apply exchange_sort_sorted|].
    rewrite exchange_sort_perm. apply dedup_NoDup.
  - intros v. rewrite exchange_sort_perm, dedup_spec. set_solver.
Qed.

(** ** Steps *)

Lemma elem_of_reverse_rev {A : Type} (l : list A) x : x ∈ rev l <-> x ∈ l.
Proof. rewrite !list_elem_of_In. symmetry. apply in_rev. Qed.

Lemma int_add_small x y : in_int64 (x + y) = true -> int_add x y = x + y.
Proof. apply wrap64_id. Qed.

(** The values [i], [i + step], ... up to [max], when the index does not wrap
    around. *)
Lemma stepValues_small min max step :
  0 <= min -> max <= 59 -> 0 < step <= 2 ^ 62 ->
  StronglySorted Z.lt (stepValues min max step) /\
  forall v, v ∈ stepValues min max step <-> min <= v <= max /\ exists q, 0 <= q /\ v = min + q * step.
Proof.
  intros Hmin Hmax Hstep.
  set (I := fun s : Z * list Z => exists k, 0 <= k /\ s.1 = min + k * step /\
    s.1 <= Z.max min (max + step) /\
    StronglySorted Z.lt (rev s.2) /\
    forall v, v ∈ s.2 <-> exists q, 0 <= q < k /\ v = min + q * step /\ v <= max).
  set (Q := fun acc : list Z => StronglySorted Z.lt (rev acc) /\
    forall v, v ∈ acc <-> min <= v <= max /\ exists q, 0 <= q /\ v = min + q * step).
  destruct (iter_until_done (step_body max step) I (fun s => Z.max 0 (max - s.1 + 1)) Q)
    with (n := Z.to_pos (3 * max + 8)) (s := (min, @nil Z)) as (acc & Hr & Hs & Hv).
  - intros [i acc] s' (k & Hk & Hi & Hle & Hs & Hv) Hf. cbn in *.
    destruct (i <=? max) eqn:E; [|done]. simplify_eq. cbn.
    rewrite int_add_small by (unfold in_int64, min_int64, max_int64; nia).
    split; [|lia]. exists (k + 1). split; [lia|]. split; [cbn; lia|]. split; [cbn; lia|]. split.
    + cbn. apply StronglySorted_app_2; [|done|repeat constructor].
      intros x y Hx Hy. apply list_elem_of_singleton in Hy as ->.
      rewrite elem_of_reverse_rev in Hx. apply Hv in Hx as (q & Hq & -> & _). nia.
    + intros v. cbn. rewrite elem_of_cons, Hv. split.
      * intros [->|(q & Hq & -> & Hqm)]; [exists k; lia | exists q; lia].
      * intros (q & Hq & -> & Hqm). destruct (decide (q = k)) as [->|]; [by left|].
        right. exists q. lia.
  - intros [i acc] r (k & Hk & Hi & Hle & Hs & Hv) Hf. cbn in *.
    destruct (i <=? max) eqn:E; [done|]. simplify_eq. split; [done|].
    intros v. rewrite Hv. split.
    + intros (q & Hq & -> & Hqm). split; [nia|]. exists q. lia.
    + intros [Hvm (q & Hq & ->)]. exists q. split; [nia|lia].
  - exists 0. cbn. split; [lia|]. split; [lia|]. split; [lia|]. split; [constructor|].
    intros v. split; [intros H; by apply not_elem_of_nil in H | intros (q & Hq & _); lia].
  - intros s' _. lia.
  - cbn. lia.
  - unfold stepValues. rewrite Hr. split; [done|]. intros v. by rewrite elem_of_reverse_rev, Hv.
Qed.

(** ** The parser *)

Lemma parseFieldPart_range part min max l :
  0 <= min <= max -> max <= 59 -> small_step part ->
  parseFieldPart part min max = Ok l -> Forall (fun v => min <= v <= max) l.
Proof.
  intros Hmin Hmax Hsmall Hp. unfold parseFieldPart, small_step in *.
  destruct (cut_byte "/" part) as [[p s]|].
  - destruct (Atoi s) as [step|]; [|done]. destruct (step <=? 0) eqn:E0; [done|]. cbn in Hp.
    destruct (String.eqb p "*").
    { simplify_eq. apply list.Forall_forall. intros v Hv.
      apply (stepValues_small min max step) in Hv; lia. }
    destruct (cut_byte "-" p) as [[a b]|].
    + destruct (Atoi a) as [start|]; [|done]. destruct (Atoi b) as [stop|]; [|done].
      destruct (_ || _) eqn:E; [done|]. simplify_eq. apply list.Forall_forall. intros v Hv.
      apply (stepValues_small start stop step) in Hv; lia.
    + destruct (Atoi p) as [v|]; [|done]. destruct (_ || _) eqn:E; [done|]. simplify_eq.
      repeat constructor; lia.
  - cbn in Hp. destruct (String.eqb part "*").
    { simplify_eq. apply list.Forall_forall. intros v Hv.
      apply (stepValues_small min max 1) in Hv; lia. }
    destruct (cut_byte "-" part) as [[a b]|].
    + destruct (Atoi a) as [start|]; [|done]. destruct (Atoi b) as [stop|]; [|done].
      destruct (_ || _) eqn:E; [done|]. simplify_eq. apply list.Forall_forall. intros v Hv.
      apply (stepValues_small start stop 1) in Hv; lia.
    + destruct (Atoi part) as [v|]; [|done]. destruct (_ || _) eqn:E; [done|]. simplify_eq.
      repeat constructor; lia.
Qed.

Lemma parseParts_range parts min max acc l :
  0 <= min <= max -> max <= 59 -> Forall small_step parts ->
  Forall (fun v => min <= v <= max) acc ->
  parseParts parts min max acc = Ok l -> Forall (fun v => min <= v <= max) l.
Proof.
  intros Hmin Hmax. revert acc. induction parts as [|p parts IH]; intros acc Hs Ha Hp; cbn in Hp.
  - by simplify_eq.
  - apply Forall_cons_1 in Hs as [Hs1 Hs].
    destruct (parseFieldPart p min max) as [vs|e] eqn:Hpart; [|done]. cbn in Hp.
    apply (IH (acc ++ vs)%list); [done| |done]. apply Forall_app. split; [done|].
    by apply (parseFieldPart_range p).
Qed.

Lemma parseField_ok field min max l :
  0 <= min <= max -> max <= 59 -> small_steps field ->
  parseField field min max = Ok l -> values_ok min max l.
Proof.
  intros Hmin Hmax Hs Hp. unfold parseField in Hp.
  destruct (String.eqb field "*"); [simplify_eq; apply allValues_ok; lia|].
  destruct (parseParts _ _ _ _) as [vs|e] eqn:Hparts; [|done]. cbn in Hp.
  pose proof (uniqueSorted_spec vs) as [Hsort Hin].
  apply parseParts_range in Hparts; [|done..|constructor].
  destruct (uniqueSorted vs) as [|v us] eqn:Hu; [done|]. simplify_eq.
  split; [done|]. split; [done|]. rewrite list.Forall_forall in *.
  intros x Hx. apply Hparts, Hin, Hx.
Qed.

Lemma predefined_ok expr c : parsePredefined expr = Ok c -> cron_wf c.
Proof.
  unfold parsePredefined. intros H.
  repeat match type of H with context [if ?b then _ else _] => destruct b end; try done;
    simplify_eq; unfold cron_wf; cbn [minute hour dayOfMonth month dayOfWeek];
    repeat match goal with
    | |- _ /\ _ => split
    | |- values_ok _ _ (allValues _ _) => apply allValues_ok; lia
    | |- values_ok _ _ [_] => split; [repeat constructor | split; [done | repeat constructor; lia]]
    end.
Qed.

Lemma ParseCron_ok expr c : cron_small_steps expr -> ParseCron expr = Ok c -> cron_wf c.
Proof.
  unfold ParseCron, cron_small_steps. intros Hs.
  destruct (String.eqb (TrimSpace expr) ""); [done|].
  destruct (HasPrefix (TrimSpace expr) "@"); [apply predefined_ok|].
  destruct (_ || _); [done|].
  set (fs := Fields (TrimSpace expr)) in *.
  set (off := if (length fs =? 6)%nat then 1%nat else 0%nat). clearbody fs off.
  assert (forall n, let f := default "" (fs !! (off + n)%nat) in
    small_steps f /\ small_steps (replace_names monthNames (ToLower f)) /\
    small_steps (ReplaceAll (replace_names dayNames (ToLower f)) "7" "0")) as Hf.
  { intros n. cbv zeta. destruct (fs !! (off + n)%nat) as [f|] eqn:Hl; cbn [default].
    - rewrite list.Forall_lookup in Hs. exact (Hs _ _ Hl).
    - repeat split; repeat constructor. }
  unfold parseMonthField, parseDayOfWeekField, in_field.
  destruct (parseField _ 0 59) eqn:H1; [|done]. cbn [result_bind].
  destruct (parseField _ 0 23) eqn:H2; [|done]. cbn [result_bind].
  destruct (parseField _ 1 31) eqn:H3; [|done]. cbn [result_bind].
  destruct (parseField _ 1 12) eqn:H4; [|done]. cbn [result_bind].
  destruct (parseField _ 0 6) eqn:H5; [|done]. cbn [result_bind].
  intros H. simplify_eq. unfold cron_wf. cbn [minute hour dayOfMonth month dayOfWeek].
  apply parseField_ok in H1; [|lia..|apply (Hf 0%nat)].
  apply parseField_ok in H2; [|lia..|apply (Hf 1%nat)].
  apply parseField_ok in H3; [|lia..|apply (Hf 2%nat)].
  apply parseField_ok in H4; [|lia..|apply (Hf 3%nat)].
  apply parseField_ok in H5; [|lia..|apply (Hf 4%nat)]. done.
Qed.

(** ** Fields as they are written *)

Lemma step_string_cut a step :
  string_has "/" a = false ->
  cut_byte "/" (a +:+ step_string step) =
  match step with Some s => Some (a, Itoa s) | None => None end.
Proof.
  intros Ha. destruct step as [s|]; cbn [step_string].
  - by apply cut_byte_app.
  - rewrite string_app_nil_r. by apply cut_byte_none.
Qed.

Lemma step_string_has c step :
  is_digit c = false -> Ascii.eqb "/" c = false -> step_ok step ->
  string_has c (step_string step) = false.
Proof.
  intros Hc Hs Hok. destruct step as [s|]; [|done]. cbn in *. by rewrite Hs, Itoa_has by lia.
Qed.

Lemma Itoa_not_star n : 0 <= n -> String.eqb (Itoa n) "*" = false.
Proof.
  intros Hn. apply string_has_false_eqb, Itoa_has; done.
Qed.

Lemma Atoi_Itoa_small n : 0 <= n <= 2 ^ 62 -> Atoi (Itoa n) = Some n.
Proof. intros Hn. apply Atoi_Itoa. unfold in_int64, min_int64, max_int64. lia. Qed.

(** The text before the slash and the step are what the item says. *)
Lemma parseFieldPart_split a step min max :
  string_has "/" a = false -> step_ok step ->
  parseFieldPart (a +:+ step_string step) min max =
  if String.eqb a "*" then Ok (stepValues min max (default 1 step))
  else
    match cut_byte "-" a with
    | Some (startStr, endStr) =>
        match Atoi startStr with
        | None => Err (InvalidRangeStart startStr)
        | Some start =>
            match Atoi endStr with
            | None => Err (InvalidRangeEnd endStr)
            | Some stop =>
                if (start <? min) || (max <? stop) || (stop <? start)
                then Err (RangeOutOfBounds start stop min max)
                else Ok (stepValues start stop (default 1 step))
            end
        end
    | None =>
        match Atoi a with
        | None => Err (InvalidValue a)
        | Some val =>
            if (val <? min) || (max <? val) then Err (ValueOutOfBounds val min max)
            else Ok [val]
        end
    end.
Proof.
  intros Ha Hs. unfold parseFieldPart. rewrite step_string_cut by done.
  destruct step as [s|]; cbn in Hs; cbn [default result_bind].
  - rewrite Atoi_Itoa_small by lia. replace (s <=? 0) with false by lia. done.
  - by rewrite string_app_nil_r.
Qed.

Lemma parseFieldPart_item it min max :
  0 <= min <= max -> max <= 59 -> item_ok min max it ->
  exists l, parseFieldPart (item_string it) min max = Ok l /\
    forall v, v ∈ l <-> item_has min max it v.
Proof.
  intros Hmin Hmax Hok.
  assert (forall step, step_ok step -> 0 < default 1 step <= 2 ^ 62) as Hst
    by (intros [s|]; cbn; lia).
  destruct it as [step|v step|a b step]; cbn [item_string item_ok item_has] in *.
  - rewrite parseFieldPart_split by done. cbn [String.eqb Ascii.eqb Bool.eqb].
    eexists. split; [done|]. apply stepValues_small; auto; lia.
  - destruct Hok as [Hv Hs]. rewrite parseFieldPart_split by (first [done | apply Itoa_has; [lia|done]]).
    rewrite Itoa_not_star by lia.
    assert (cut_byte "-" (Itoa v) = None) as -> by (apply cut_byte_none, Itoa_has; [lia|done]).
    rewrite Atoi_Itoa_small by lia. replace ((v <? min) || (max <? v)) with false by lia.
    eexists. split; [done|]. intros w. by rewrite list_elem_of_singleton.
  - destruct Hok as (Ha & Hab & Hb & Hs). rewrite parseFieldPart_split; [|..|done].
    2: { rewrite !string_has_app, !Itoa_has by (done || lia). done. }
    assert (String.eqb (Itoa a +:+ "-" +:+ Itoa b) "*" = false) as ->.
    { apply string_has_false_eqb. rewrite !string_has_app, !Itoa_has by (done || lia). done. }
    change (Itoa a +:+ "-" +:+ Itoa b) with (Itoa a +:+ String "-" (Itoa b)).
    rewrite (cut_byte_app "-" (Itoa a) (Itoa b)) by (apply Itoa_has; [lia|done]).
    rewrite !Atoi_Itoa_small by lia.
    replace ((a <? min) || (max <? b) || (b <? a)) with false by lia.
    eexists. split; [done|]. apply stepValues_small; auto; lia.
Qed.

Lemma item_string_comma it min max :
  0 <= min -> item_ok min max it -> string_has "," (item_string it) = false.
Proof.
  intros Hmin Hok. destruct it as [step|v step|a b step]; cbn [item_string item_ok] in *;
    rewrite !string_has_app, ?Itoa_has by (done || lia); cbn;
    apply step_string_has; tauto || done.
Qed.

Lemma parseParts_items items min max acc :
  0 <= min <= max -> max <= 59 -> Forall (item_ok min max) items ->
  exists l, parseParts (map item_string items) min max acc = Ok (acc ++ l)%list /\
    forall v, v ∈ l <-> exists it, it ∈ items /\ item_has min max it v.
Proof.
  intros Hmin Hmax. revert acc. induction items as [|it items IH]; intros acc Hok; cbn.
  - exists []. rewrite app_nil_r. split; [done|]. intros v. rewrite elem_of_nil.
    split; [done|]. intros (it & Hit & _). by apply elem_of_nil in Hit.
  - apply Forall_cons_1 in Hok as [Hit Hok].
    destruct (parseFieldPart_item it min max Hmin Hmax Hit) as (l1 & -> & H1). cbn [result_bind].
    destruct (IH (acc ++ l1)%list Hok) as (l2 & -> & H2). exists (l1 ++ l2)%list.
    split; [by rewrite app_assoc|]. intros v. rewrite elem_of_app, H1, H2. split.
    + intros [H|(it' & Hin & H)]; [exists it; split; [by left|done] | exists it'; split; [by right|done]].
    + intros (it' & [->|Hin]%elem_of_cons & H); [by left | right; by exists it'].
Qed.

(** ** Instants by day and second *)

Section instants.
Context (off : Z).

Lemma inst_fields D s :
  0 <= s < 86400 -> local_day off (inst off D s) = D /\ second_of_day off (inst off D s) = s.
Proof.
  intros Hs. unfold inst, local_day, second_of_day, local_seconds.
  rewrite Z.div_mul by (unfold Second; lia).
  replace (D * 86400 + s - off + off) with (D * 86400 + s) by lia.
  split; [symmetry; apply (Z.div_unique _ _ _ s) | symmetry; apply (Z.mod_unique _ _ D)]; lia.
Qed.

Lemma inst_eta t :
  t mod Second = 0 -> t = inst off (local_day off t) (second_of_day off t).
Proof.
  intros Ht. unfold inst, local_day, second_of_day.
  pose proof (Z.div_mod (local_seconds off t) 86400 ltac:(lia)).
  unfold local_seconds in *. pose proof (Z.div_mod t Second ltac:(done)).
  unfold Second in *. lia.
Qed.

Lemma inst_second D s : inst off D s mod Second = 0.
Proof. unfold inst. apply Z.mod_mul. done. Qed.

Lemma second_of_day_range t : 0 <= second_of_day off t < 86400.
Proof. unfold second_of_day. apply Z.mod_pos_bound. lia. Qed.

Lemma inst_lt D s D' s' : inst off D s < inst off D' s' <-> D * 86400 + s < D' * 86400 + s'.
Proof. unfold inst, Second. lia. Qed.

Lemma inst_le D s D' s' : inst off D s <= inst off D' s' <-> D * 86400 + s <= D' * 86400 + s'.
Proof. unfold inst, Second. lia. Qed.

Lemma midnight_inst t y m d :
  midnight off t y m d = inst off (month_start (12 * y + (m - 1)) + (d - 1)) 0.
Proof. unfold midnight, time_Date, inst. f_equal. lia. Qed.

(** The first moment of the next day, of the next month, and an hour and a
    minute of the same day, as the code computes them. *)
Lemma tomorrow_inst t :
  midnight off t (time_Year off t) (time_Month off t) (time_Day off t + 1) =
  inst off (local_day off t + 1) 0.
Proof.
  rewrite midnight_inst. f_equal. unfold time_Year, time_Month, time_Day.
  set (M := month_of (local_day off t)).
  replace (12 * (M / 12) + (M mod 12 + 1 - 1)) with M by divs. lia.
Qed.

Lemma next_month_inst t :
  midnight off t (time_Year off t) (time_Month off t + 1) 1 =
  inst off (month_start (month_of (local_day off t) + 1)) 0.
Proof.
  rewrite midnight_inst. f_equal. unfold time_Year, time_Month.
  set (M := month_of (local_day off t)).
  replace (12 * (M / 12) + (M mod 12 + 1 + 1 - 1)) with (M + 1) by divs. lia.
Qed.

Lemma clock_inst t h mi :
  time_Date off (time_Year off t) (time_Month off t) (time_Day off t) h mi 0 0 =
  inst off (local_day off t) (h * 3600 + mi * 60).
Proof.
  unfold time_Date, inst, time_Year, time_Month, time_Day.
  set (n := local_day off t). set (M := month_of n).
  replace (12 * (M / 12) + (M mod 12 + 1 - 1)) with M by divs.
  replace (month_start M + (n - month_start M + 1 - 1)) with n by lia.
  rewrite Z.add_0_r. f_equal. lia.
Qed.

Lemma truncate_hour t :
  t < time_Truncate (time_Add t Hour) Hour /\ time_Truncate (time_Add t Hour) Hour mod Second = 0.
Proof.
  unfold time_Truncate, time_Add. change (Hour <=? 0) with false. cbv iota.
  unfold Hour, zero_time, Second.
  split; [pose proof (Z.mod_pos_bound (t + 3600000000000 - -62135596800 * 1000000000) 3600000000000); lia|].
  divs.
Qed.

(** Where the offset is a whole number of hours, this is the next local hour. *)
Lemma truncate_hour_inst D s :
  off mod 3600 = 0 -> 0 <= s < 86400 ->
  time_Truncate (time_Add (inst off D s) Hour) Hour = inst off D (s - s mod 3600 + 3600).
Proof.
  intros Ho Hs. unfold time_Truncate, time_Add. change (Hour <=? 0) with false. cbv iota.
  unfold inst, Hour, zero_time, Second.
  assert (s = 3600 * (s / 3600) + s mod 3600 /\ 0 <= s mod 3600 < 3600) as [He Hr] by divs.
  assert (off = 3600 * (off / 3600)) as Heo by divs.
  set (h := s / 3600) in *. set (r := s mod 3600) in *. set (o := off / 3600) in *.
  replace (((D * 86400 + s - off) * 1000000000 + 3600000000000 - -62135596800 * 1000000000)
             mod 3600000000000) with (r * 1000000000); [lia|].
  apply (Z.mod_unique _ _ (D * 24 + h - o + 1 + 17259888)); lia.
Qed.

End instants.

(** ** The loop leaves *)

Lemma Next_body_progress c off maxTime t t' :
  t mod Second = 0 -> Next_body c off maxTime t = inl t' ->
  t < maxTime /\ t < t' /\ t' mod Second = 0.
Proof.
  intros Ht H. unfold Next_body in H.
  pose proof (inst_eta off t Ht) as Heta. pose proof (second_of_day_range off t) as Hs.
  rewrite tomorrow_inst, next_month_inst in H.
  assert (t < inst off (local_day off t + 1) 0) as Htom by (rewrite Heta at 1; apply inst_lt; lia).
  pose proof (month_of_spec (local_day off t)) as Hmo.
  assert (t < inst off (month_start (month_of (local_day off t) + 1)) 0) as Hmon
    by (rewrite Heta at 1; apply inst_lt; lia).
  destruct (time_Before t maxTime) eqn:Hb; [|done]. unfold time_Before in Hb.
  split; [lia|]. cbn [negb] in H.
  destruct (negb (contains (month c) _)); [simplify_eq; split; [done|apply inst_second]|].
  destruct (negb (dayOk c off t)); [simplify_eq; split; [done|apply inst_second]|].
  assert (forall t1 u, t <= t1 -> t1 mod Second = 0 ->
    (if negb (contains (minute c) (time_Minute off t1)) then
       match next_after (minute c) (time_Minute off t1) with
       | None => inl (time_Truncate (time_Add t1 Hour) Hour)
       | Some m => inr (time_Date off (time_Year off t1) (time_Month off t1) (time_Day off t1)
                          (time_Hour off t1) m 0 0)
       end else inr t1) = inl u -> t < u /\ u mod Second = 0) as Hmin.
  { intros t1 u Ht1 Hsec Hu.
    destruct (negb (contains (minute c) (time_Minute off t1))); [|discriminate].
    destruct (next_after (minute c) (time_Minute off t1)); [discriminate|]. simplify_eq. pose proof (truncate_hour t1). split; [lia|tauto]. }
  destruct (negb (contains (hour c) _)).
  - destruct (next_after (hour c) (time_Hour off t)) as [h|] eqn:Hn;
      [|simplify_eq; split; [done|apply inst_second]].
    eapply Hmin; [| |exact H]; rewrite clock_inst; [|apply inst_second].
    rewrite Heta at 1. apply inst_le.
    assert (time_Hour off t < h) as Hlt.
    { clear -Hn. induction (hour c) as [|x l IH]; cbn in Hn; [done|].
      destruct (time_Hour off t <? x) eqn:E; [simplify_eq; lia | auto]. }
    unfold time_Hour in Hlt. divs.
  - eapply Hmin; [| |exact H]; [lia|done].
Qed.

Lemma truncate_minute t :
  let u := time_Add (time_Truncate t Minute) Minute in
  t < u <= t + Minute /\ u mod Minute = 0.
Proof.
  unfold time_Truncate, time_Add. change (Minute <=? 0) with false. cbv iota zeta.
  unfold Minute, zero_time, Second.
  split; [pose proof (Z.mod_pos_bound (t - -62135596800 * 1000000000) 60000000000); lia|]. divs.
Qed.

Lemma minute_second t : t mod Minute = 0 -> t mod Second = 0.
Proof. unfold Minute, Second. intros. divs. Qed.

(** Runs the loop of [Next] with an invariant. *)
Lemma Next_run c off after (I : Time -> Prop) (Q : Time -> Prop) :
  let t0 := time_Add (time_Truncate after Minute) Minute in
  I t0 ->
  (forall t t', t mod Second = 0 -> I t -> Next_body c off (AddYears off after 5) t = inl t' -> I t') ->
  (forall t r, t mod Second = 0 -> I t -> Next_body c off (AddYears off after 5) t = inr r -> Q r) ->
  exists r, Next c off after = Some r /\ Q r.
Proof.
  intros t0 HI Hnext Hdone. unfold Next. fold t0. set (maxTime := AddYears off after 5) in *.
  destruct (iter_until_done (Next_body c off maxTime) (fun t => t mod Second = 0 /\ I t)
    (fun t => Z.max 0 ((maxTime - t) / Second + 1)) Q)
    with (n := Z.to_pos ((maxTime - t0) / Second + 2)) (s := t0) as (r & Hr & HQ).
  - intros t t' [Ht HIt] Hb. pose proof (Next_body_progress c off maxTime t t' Ht Hb) as (Hm & Hlt & Ht').
    split; [split; [done | by apply (Hnext t)]|]. unfold Second in *. divs.
  - intros t r [Ht HIt] Hb. by apply (Hdone t r).
  - split; [|done]. apply minute_second. apply truncate_minute.
  - intros t _. lia.
  - lia.
  - rewrite Hr. eauto.
Qed.

(** ** Nothing is skipped *)

Lemma next_after_spec l v :
  StronglySorted Z.lt l ->
  match next_after l v with
  | Some x => x ∈ l /\ v < x /\ forall y, y ∈ l -> v < y -> x <= y
  | None => forall y, y ∈ l -> y <= v
  end.
Proof.
  induction 1 as [|x l Hl IH Hx]; cbn; [intros y Hy; by apply not_elem_of_nil in Hy|].
  rewrite list.Forall_forall in Hx. destruct (v <? x) eqn:E.
  - split; [by left|]. split; [lia|]. intros y [->|Hy]%elem_of_cons _; [lia|].
    specialize (Hx y Hy). lia.
  - destruct (next_after l v) as [z|].
    + destruct IH as (Hz & Hvz & Hm). split; [by right|]. split; [done|].
      intros y [->|Hy]%elem_of_cons Hlt; [lia|auto].
    + intros y [->|Hy]%elem_of_cons; [lia|auto].
Qed.

Lemma fires_iff c off u :
  fires c off u = true <->
  u mod Second = 0 /\ second_of_day off u mod 60 = 0 /\
  time_Month off u ∈ month c /\ dayOk c off u = true /\
  time_Hour off u ∈ hour c /\ time_Minute off u ∈ minute c.
Proof.
  unfold fires, time_Nanosecond, time_Second.
  rewrite !andb_true_iff, !contains_spec, !Z.eqb_eq. tauto.
Qed.

(** [fires] in terms of the local day and second. *)
Lemma fires_inst c off D s :
  0 <= s < 86400 ->
  fires c off (inst off D s) = true <->
  s mod 60 = 0 /\ month_of D mod 12 + 1 ∈ month c /\ dayOk c off (inst off D 0) = true /\
  s / 3600 ∈ hour c /\ s mod 3600 / 60 ∈ minute c.
Proof.
  intros Hs. rewrite fires_iff. unfold time_Month, time_Hour, time_Minute, dayOk, time_Day, time_Weekday.
  destruct (inst_fields off D s Hs) as [-> ->].
  destruct (inst_fields off D 0 ltac:(lia)) as [-> _].
  pose proof (inst_second off D s). tauto.
Qed.

Section next.
Context (c : CronExpr) (off : Z) (Hoff : off mod 3600 = 0).
Context (Hhour : StronglySorted Z.lt (hour c) /\ Forall (fun v => 0 <= v <= 23) (hour c)).
Context (Hmin : StronglySorted Z.lt (minute c) /\ Forall (fun v => 0 <= v <= 59) (minute c)).

(** No time from [t] up to [u] fires. *)
Definition none_between (t u : Time) : Prop :=
  forall v, t <= v < u -> fires c off v = false.

Lemma none_between_inst D s D' s' :
  (forall E r, 0 <= r < 86400 -> D * 86400 + s <= E * 86400 + r < D' * 86400 + s' ->
     fires c off (inst off E r) = true -> False) ->
  none_between (inst off D s) (inst off D' s').
Proof.
  intros H v Hv. destruct (fires c off v) eqn:Hf; [exfalso|done].
  pose proof Hf as (Hsec & _)%fires_iff. rewrite (inst_eta off v Hsec) in Hf, Hv.
  apply (H (local_day off v) _ (second_of_day_range off v)); [|done].
  rewrite inst_le, inst_lt in Hv. lia.
Qed.

(** The minute part of the body, at a time whose day and hour are right. *)
Lemma minute_part D s :
  0 <= s < 86400 -> s mod 60 = 0 ->
  month_of D mod 12 + 1 ∈ month c -> dayOk c off (inst off D 0) = true -> s / 3600 ∈ hour c ->
  let t := inst off D s in
  match (if negb (contains (minute c) (time_Minute off t)) then
       match next_after (minute c) (time_Minute off t) with
       | None => inl (time_Truncate (time_Add t Hour) Hour)
       | Some m => inr (time_Date off (time_Year off t) (time_Month off t) (time_Day off t)
                          (time_Hour off t) m 0 0)
       end else inr t) with
  | inl t' => none_between t t'
  | inr r => fires c off r = true /\ t <= r /\ none_between t r
  end.
Proof.
  intros Hs Hs60 Hmo Hd Hh t. destruct Hmin as [Hsort Hall].
  assert (time_Minute off t = s mod 3600 / 60) as Hmt
    by (unfold time_Minute, t; by destruct (inst_fields off D s Hs) as [_ ->]).
  rewrite Hmt. destruct (contains (minute c) (s mod 3600 / 60)) eqn:Hc; cbn [negb].
  - apply contains_spec in Hc. split; [by apply fires_inst|]. split; [lia|].
    intros v Hv. lia.
  - assert (s mod 3600 / 60 ∉ minute c) as Hnin by (rewrite <- contains_spec, Hc; done).
    pose proof (next_after_spec (minute c) (s mod 3600 / 60) Hsort) as Hn.
    destruct (next_after (minute c) (s mod 3600 / 60)) as [m|].
    + destruct Hn as (Hm & Hlt & Hleast). rewrite clock_inst.
      rewrite list.Forall_forall in Hall. pose proof (Hall m Hm).
      assert (local_day off t = D /\ time_Hour off t = s / 3600) as [-> ->]
        by (unfold time_Hour, t; by destruct (inst_fields off D s Hs) as [-> ->]).
      assert (0 <= s / 3600 * 3600 + m * 60 < 86400) by divs.
      split; [|split].
      * apply fires_inst; [done|].
        replace ((s / 3600 * 3600 + m * 60) / 3600) with (s / 3600) by divs.
        replace ((s / 3600 * 3600 + m * 60) mod 3600 / 60) with m by divs.
        split; [divs|]. done.
      * apply inst_le. divs.
      * apply none_between_inst. intros E r Hr Hb (_ & _ & _ & _ & Hrm)%fires_inst; [|done].
        assert (E = D) as -> by lia.
        assert (r / 3600 = s / 3600) as Hrs by divs.
        specialize (Hleast (r mod 3600 / 60) Hrm).
        destruct (decide (r mod 3600 / 60 = s mod 3600 / 60)) as [He|He]; [by rewrite He in Hrm|].
        assert (s mod 3600 / 60 < r mod 3600 / 60) by divs. divs.
    + unfold t. rewrite truncate_hour_inst by done.
      apply none_between_inst. intros E r Hr Hb (_ & _ & _ & _ & Hrm)%fires_inst; [|done].
      assert (E = D) as -> by divs.
      assert (r / 3600 = s / 3600) as Hrs by divs.
      specialize (Hn _ Hrm).
      assert (r mod 3600 / 60 = s mod 3600 / 60) as He by divs. by rewrite He in Hrm.
Qed.

Lemma Next_body_sound maxTime D s :
  0 <= s < 86400 -> s mod 60 = 0 ->
  let t := inst off D s in
  match Next_body c off maxTime t with
  | inl t' => none_between t t'
  | inr r => (r = zero_time /\ maxTime <= t) \/
             (fires c off r = true /\ t <= r /\ none_between t r)
  end.
Proof.
  intros Hs Hs60 t. unfold Next_body, time_Before.
  destruct (t <? maxTime) eqn:Hb; cbn [negb]; [|left; split; [done|lia]].
  rewrite tomorrow_inst, next_month_inst.
  assert (local_day off t = D /\ time_Hour off t = s / 3600 /\
          time_Month off t = month_of D mod 12 + 1 /\ dayOk c off t = dayOk c off (inst off D 0))
    as (HD & HH & HM & Hdok).
  { unfold time_Hour, time_Month, dayOk, time_Day, time_Weekday, t.
    destruct (inst_fields off D s Hs) as [-> ->]. destruct (inst_fields off D 0 ltac:(lia)) as [-> _].
    done. }
  rewrite HM, Hdok, HD, HH.
  destruct (contains (month c) (month_of D mod 12 + 1)) eqn:Hmo; cbn [negb].
  2: { apply none_between_inst. intros E r Hr Hlt (_ & Hm & _)%fires_inst; [|done].
    pose proof (month_of_spec D).
    assert (month_of E = month_of D) as He by (apply month_of_unique; lia).
    rewrite He, <- contains_spec, Hmo in Hm. done. }
  destruct (dayOk c off (inst off D 0)) eqn:Hd; cbn [negb].
  2: { apply none_between_inst. intros E r Hr Hlt (_ & _ & Hdo & _)%fires_inst; [|done].
    assert (E = D) as -> by lia. congruence. }
  apply contains_spec in Hmo. destruct Hhour as [Hsort Hall].
  destruct (contains (hour c) (s / 3600)) eqn:Hh; cbn [negb].
  - apply contains_spec in Hh.
    pose proof (minute_part D s Hs Hs60 Hmo Hd Hh) as Hp. cbv zeta in Hp. fold t in Hp.
    destruct (if negb (contains (minute c) (time_Minute off t)) then _ else _); [done|by right].
  - assert (s / 3600 ∉ hour c) as Hnin by (rewrite <- contains_spec, Hh; done).
    pose proof (next_after_spec (hour c) (s / 3600) Hsort) as Hn.
    destruct (next_after (hour c) (s / 3600)) as [h|].
    + destruct Hn as (Hhin & Hlt & Hleast). rewrite list.Forall_forall in Hall.
      pose proof (Hall h Hhin) as Hhr. pose proof (clock_inst off t h 0) as Hci. rewrite HM, HD in Hci. rewrite Hci. clear Hci.
      replace (h * 3600 + 0 * 60) with (h * 3600) by lia.
      assert (none_between t (inst off D (h * 3600))) as Hbefore.
      { apply none_between_inst. intros E r Hr Hb' (_ & _ & _ & Hrh & _)%fires_inst; [|done].
        assert (E = D) as -> by lia.
        destruct (decide (r / 3600 = s / 3600)) as [He|He]; [by rewrite He in Hrh|].
        specialize (Hleast _ Hrh). divs. }
      assert (0 <= h * 3600 < 86400) as Hh0 by lia.
      assert (h * 3600 / 3600 = h) as Hh1 by divs.
      pose proof (minute_part D (h * 3600) Hh0 ltac:(divs) Hmo Hd ltac:(by rewrite Hh1)) as Hp.
      cbv zeta in Hp.
      assert (t <= inst off D (h * 3600)) by (apply inst_le; divs).
      destruct (if negb (contains (minute c) (time_Minute off (inst off D (h * 3600)))) then _ else _)
        as [t'|r].
      * intros v Hv. destruct (decide (v < inst off D (h * 3600))); [apply Hbefore; lia | apply Hp; lia].
      * right. destruct Hp as (Hf & Hle & Hp). split; [done|]. split; [lia|].
        intros v Hv. destruct (decide (v < inst off D (h * 3600))); [apply Hbefore; lia | apply Hp; lia].
    + apply none_between_inst. intros E r Hr Hb' (_ & _ & _ & Hrh & _)%fires_inst; [|done].
      assert (E = D) as -> by lia. specialize (Hn _ Hrh).
      assert (r / 3600 = s / 3600) as He by divs. by rewrite He in Hrh.
Qed.

End next.

(** The time the body returns is not before [t]. *)
Lemma Next_body_result c off maxTime t r :
  t mod Second = 0 -> Next_body c off maxTime t = inr r -> r = zero_time \/ t <= r.
Proof.
  intros Ht H. unfold Next_body in H.
  pose proof (inst_eta off t Ht) as Heta. pose proof (second_of_day_range off t) as Hs.
  assert (forall l v x, next_after l v = Some x -> v < x) as Hna.
  { intros l v x. induction l as [|y l IH]; cbn; [done|].
    destruct (v <? y) eqn:E; [intros; simplify_eq; lia | done]. }
  destruct (negb (time_Before t maxTime)); [left; congruence|]. right.
  destruct (negb (contains (month c) _)); [done|]. destruct (negb (dayOk c off t)); [done|].
  assert (forall t1, t1 mod Second = 0 ->
    (if negb (contains (minute c) (time_Minute off t1)) then
       match next_after (minute c) (time_Minute off t1) with
       | None => inl (time_Truncate (time_Add t1 Hour) Hour)
       | Some m => inr (time_Date off (time_Year off t1) (time_Month off t1) (time_Day off t1)
                          (time_Hour off t1) m 0 0)
       end else inr t1) = inr r -> t1 <= r) as Hmin.
  { intros t1 Ht1 Hu. pose proof (inst_eta off t1 Ht1) as H1. pose proof (second_of_day_range off t1).
    destruct (negb (contains (minute c) (time_Minute off t1))); [|simplify_eq; lia].
    destruct (next_after (minute c) (time_Minute off t1)) as [m|] eqn:Hm; [|done].
    apply Hna in Hm. simplify_eq. rewrite clock_inst. rewrite H1 at 1. apply inst_le.
    unfold time_Minute, time_Hour in *. divs. }
  destruct (negb (contains (hour c) _)); [|by apply Hmin].
  destruct (next_after (hour c) (time_Hour off t)) as [h|] eqn:Hh; [|done].
  apply Hna in Hh. apply Hmin in H; [|rewrite clock_inst; apply inst_second].
  transitivity (inst off (local_day off t) (h * 3600 + 0 * 60)); [|by rewrite <- clock_inst].
  rewrite Heta at 1. apply inst_le. unfold time_Hour in Hh. divs.
Qed.

(** The body for an expression with every value but the minutes, in a location
    a half hour off. *)
Lemma hourly_body c off maxTime t :
  minute c = [0] -> hour c = allValues 0 23 -> month c = allValues 1 12 ->
  dayOfMonth c = allValues 1 31 -> dayOfWeek c = allValues 0 6 ->
  off mod 3600 = 1800 -> time_Minute off t <> 0 ->
  Next_body c off maxTime t = inr zero_time \/
  exists t', Next_body c off maxTime t = inl t' /\ time_Minute off t' <> 0.
Proof.
  intros Hmi Hh Hmo Hdom Hdow Hoff Hne. unfold Next_body.
  destruct (negb (time_Before t maxTime)); [by left|]. right.
  pose proof (second_of_day_range off t) as Hs.
  assert (contains (month c) (time_Month off t) = true) as ->.
  { rewrite Hmo. apply contains_spec, allValues_from_spec. unfold time_Month. divs. }
  assert (dayOk c off t = true) as -> by (unfold dayOk; by rewrite Hdom, Hdow).
  assert (contains (hour c) (time_Hour off t) = true) as ->.
  { rewrite Hh. apply contains_spec, allValues_from_spec. unfold time_Hour. divs. }
  cbn [negb]. rewrite Hmi. cbn [contains next_after].
  assert (0 <= time_Minute off t) by (unfold time_Minute; divs).
  replace (0 =? time_Minute off t) with false by lia. cbn [negb].
  replace (time_Minute off t <? 0) with false by lia. eexists. split; [done|].
  unfold time_Minute, second_of_day, local_seconds, time_Truncate, time_Add.
  change (Hour <=? 0) with false. cbv iota. unfold Hour, Second, zero_time, Second.
  set (x := t + 3600000000000).
  assert (exists h, x - (x - -62135596800 * 1000000000) mod 3600000000000 = 3600000000000 * h)
    as [h ->] by (exists ((x - -62135596800 * 1000000000) / 3600000000000 - 17259888); divs).
  replace (3600000000000 * h) with (3600 * h * 1000000000) by lia.
  rewrite Z.div_mul by done. divs.
Qed.

Lemma Next_body_whole_minute c off maxTime t t' :
  off mod 3600 = 0 -> t mod Second = 0 -> second_of_day off t mod 60 = 0 ->
  Next_body c off maxTime t = inl t' -> second_of_day off t' mod 60 = 0.
Proof.
  intros Hoff Ht H60 H. unfold Next_body in H.
  rewrite tomorrow_inst, next_month_inst in H.
  assert (forall D s, 0 <= s < 86400 -> s mod 60 = 0 -> second_of_day off (inst off D s) mod 60 = 0)
    as Hi by (intros D s Hs Hs60; by destruct (inst_fields off D s Hs) as [_ ->]).
  assert (forall t1, second_of_day off (time_Truncate (time_Add t1 Hour) Hour) mod 60 = 0) as Htr.
  { intros t1. unfold second_of_day, local_seconds, time_Truncate, time_Add.
    change (Hour <=? 0) with false. cbv iota. unfold Hour, Second, zero_time, Second. divs. }
  repeat first
    [ match type of H with context [if ?b then _ else _] => destruct b end
    | match type of H with context [match next_after ?a ?b with _ => _ end] => destruct (next_after a b) end ];
    simplify_eq; first [apply Htr | apply Hi; [lia|done]].
Qed.

(** The search, from its invariant: no time before the current one fires. *)
Lemma Next_first c off after :
  off mod 3600 = 0 -> cron_wf c ->
  exists r, Next c off after = Some r /\
    ((r = zero_time /\
      forall u, after < u < AddYears off after 5 -> fires c off u = false) \/
     (fires c off r = true /\ after < r /\
      forall u, after < u < r -> fires c off u = false)).
Proof.
  intros Hoff ((Hms & _ & Hmr) & (Hhs & _ & Hhr) & _).
  set (t0 := time_Add (time_Truncate after Minute) Minute).
  destruct (truncate_minute after) as [Ht0 Hmod0]. fold t0 in Ht0, Hmod0.
  assert (forall u, after < u < t0 -> fires c off u = false) as Hgap.
  { intros u Hu. destruct (fires c off u) eqn:Hf; [exfalso|done].
    apply fires_iff in Hf as (Hsec & Hmin & _).
    pose proof (inst_eta off u Hsec) as He. unfold inst in He.
    assert (u mod Minute = 0) as Hum by (unfold Minute, Second in *; divs).
    unfold Minute in *. divs. }
  destruct (Next_run c off after
    (fun t => t0 <= t /\ second_of_day off t mod 60 = 0 /\ none_between c off t0 t)
    (fun r => (r = zero_time /\ exists t, AddYears off after 5 <= t /\ none_between c off t0 t) \/
       (fires c off r = true /\ t0 <= r /\ none_between c off t0 r))) as (r & Hr & HQ).
  - fold t0. split; [lia|]. split; [|intros v Hv; lia].
    unfold second_of_day, local_seconds, Minute, Second in *. divs.
  - intros t t' Ht (Hle & H60 & Hnb) Hb.
    pose proof (inst_eta off t Ht) as He. pose proof (second_of_day_range off t) as Hr.
    pose proof (Next_body_progress _ _ _ _ _ Ht Hb) as (_ & Hlt & Ht').
    pose proof (Next_body_whole_minute c off _ _ _ Hoff Ht H60 Hb) as H60'.
    pose proof (Next_body_sound c off Hoff (conj Hhs Hhr) (conj Hms Hmr) (AddYears off after 5)
      (local_day off t) (second_of_day off t) Hr H60) as Hs.
    cbv zeta in Hs. rewrite <- He, Hb in Hs. split; [lia|]. split; [done|].
    intros v Hv. destruct (decide (v < t)); [apply Hnb; lia | apply Hs; lia].
  - intros t r Ht (Hle & H60 & Hnb) Hb.
    pose proof (inst_eta off t Ht) as He. pose proof (second_of_day_range off t) as Hr.
    pose proof (Next_body_sound c off Hoff (conj Hhs Hhr) (conj Hms Hmr) (AddYears off after 5)
      (local_day off t) (second_of_day off t) Hr H60) as Hs.
    cbv zeta in Hs. rewrite <- He, Hb in Hs. destruct Hs as [[-> Hmax]|(Hf & Hle' & Hn)].
    + left. split; [done|]. by exists t.
    + right. split; [done|]. split; [lia|].
      intros v Hv. destruct (decide (v < t)); [apply Hnb; lia | apply Hn; lia].
  - exists r. split; [done|]. destruct HQ as [(-> & t & Hm & Hnb)|(Hf & Hle & Hnb)].
    + left. split; [done|]. intros u Hu.
      destruct (decide (u < t0)); [apply Hgap; lia | apply Hnb; lia].
    + right. split; [done|]. split; [lia|]. intros u Hu.
      destruct (decide (u < t0)); [apply Hgap; lia | apply Hnb; lia].
Qed.

(** In such a location the search never leaves the other minutes. *)
Lemma Next_hourly_half c off after :
  off mod 3600 = 1800 -> ParseCron "@hourly" = Ok c ->
  time_Minute off (time_Add (time_Truncate after Minute) Minute) <> 0 ->
  Next c off after = Some zero_time.
Proof.
  intros Hoff Hc Hmin. vm_compute in Hc. simplify_eq.
  match goal with |- Next ?c _ _ = _ => set (e := c) end.
  destruct (Next_run e off after (fun t => time_Minute off t <> 0) (fun r => r = zero_time))
    as (r & Hr & ->); [done|..|done].
  - intros t t' Ht Hne Hb.
    destruct (hourly_body e off (AddYears off after 5) t) as [Hz|(u & Hu & Hum)]; try done; congruence.
  - intros t r Ht Hne Hb.
    destruct (hourly_body e off (AddYears off after 5) t) as [Hz|(u & Hu & Hum)]; try done; congruence.
Qed.

(** What [Next] returns is within the five years it searches, give or take a day. *)
Lemma month_start_add M (n : nat) : month_start (M + Z.of_nat n) <= month_start M + 31 * Z.of_nat n.
Proof.
  induction n as [|n IH]; [rewrite Z.add_0_r; lia|].
  pose proof (month_start_step (M + Z.of_nat n)).
  replace (M + Z.of_nat (S n)) with (M + Z.of_nat n + 1) by lia. lia.
Qed.

Lemma time_Date_later off y mo d h mi s ns (n : nat) :
  time_Date off y (mo + Z.of_nat n) d h mi s ns <= time_Date off y mo d h mi s ns + 31 * Z.of_nat n * (24 * Hour).
Proof.
  unfold time_Date. pose proof (month_start_add (12 * y + (mo - 1)) n) as Hm.
  replace (12 * y + (mo + Z.of_nat n - 1)) with (12 * y + (mo - 1) + Z.of_nat n) by lia.
  revert Hm. generalize (month_start (12 * y + (mo - 1) + Z.of_nat n)) as A, (month_start (12 * y + (mo - 1))) as B.
  intros A B HAB. unfold Hour, Second. lia.
Qed.

Lemma time_Date_years off y mo d h mi s ns k :
  time_Date off (y + k) mo d h mi s ns = time_Date off y (mo + 12 * k) d h mi s ns.
Proof. unfold time_Date. by replace (12 * (y + k) + (mo - 1)) with (12 * y + (mo + 12 * k - 1)) by lia. Qed.

Lemma AddYears_le off t : AddYears off t 5 <= t + 1860 * (24 * Hour).
Proof.
  unfold AddYears. rewrite time_Date_years.
  pose proof (time_Date_later off (time_Year off t) (time_Month off t) (time_Day off t) (time_Hour off t)
    (time_Minute off t) (time_Second off t) (time_Nanosecond t) 60) as H.
  rewrite time_Date_roundtrip in H. exact H.
Qed.

Lemma clock_before off t h mi :
  t mod Second = 0 -> h * 3600 + mi * 60 < 86400 ->
  time_Date off (time_Year off t) (time_Month off t) (time_Day off t) h mi 0 0 < t + 24 * Hour.
Proof.
  intros Ht Hh. rewrite clock_inst. pose proof (inst_eta off t Ht) as He.
  pose proof (second_of_day_range off t) as Hs. revert He Hs.
  generalize (second_of_day off t) as s, (local_day off t) as D. intros s D -> Hs.
  unfold inst, Hour, Second. lia.
Qed.

Lemma Next_body_bound c off maxTime t r :
  (forall h, h ∈ hour c -> h <= 23) -> (forall m, m ∈ minute c -> m <= 59) ->
  t mod Second = 0 -> Next_body c off maxTime t = inr r ->
  r = zero_time \/ r < maxTime + 48 * Hour.
Proof.
  intros Hh Hm Ht H. unfold Next_body in H. unfold time_Before in H.
  destruct (t <? maxTime) eqn:Hlt; cbn [negb] in H; [right|left; congruence].
  assert (forall l v x, next_after l v = Some x -> x ∈ l) as Hna.
  { intros l v x. induction l as [|y l IH]; cbn; [done|].
    destruct (v <? y); [intros; simplify_eq; by left|by right; auto]. }
  assert (forall u, u mod Second = 0 -> time_Hour off u <= 23) as Hhr
    by (intros u _; pose proof (second_of_day_range off u); unfold time_Hour; divs).
  destruct (negb (contains (month c) _)); [done|]. destruct (negb (dayOk c off t)); [done|].
  assert (forall u, u mod Second = 0 -> u < t + 24 * Hour ->
    (if negb (contains (minute c) (time_Minute off u)) then
       match next_after (minute c) (time_Minute off u) with
       | None => inl (time_Truncate (time_Add u Hour) Hour)
       | Some m => inr (time_Date off (time_Year off u) (time_Month off u) (time_Day off u)
                          (time_Hour off u) m 0 0)
       end else inr u) = inr r -> r < maxTime + 48 * Hour) as Hmin.
  { intros u Hu Hut Hr. destruct (negb (contains (minute c) (time_Minute off u)));
      [|simplify_eq; apply Z.ltb_lt in Hlt; unfold Hour in *; lia].
    destruct (next_after (minute c) (time_Minute off u)) as [m|] eqn:E; [|done]. simplify_eq.
    specialize (Hhr u Hu). specialize (Hm m (Hna _ _ _ E)).
    pose proof (clock_before off u (time_Hour off u) m Hu ltac:(lia)) as Hc. unfold Hour in *. lia. }
  destruct (negb (contains (hour c) _)); [|apply (Hmin t); [done|unfold Hour; lia|done]].
  destruct (next_after (hour c) (time_Hour off t)) as [h|] eqn:E; [|done].
  eapply Hmin; [|apply (clock_before off t h 0); [done|]|exact H].
  - rewrite clock_inst. apply inst_second.
  - specialize (Hh h (Hna _ _ _ E)). lia.
Qed.

Lemma Next_bound c off after r :
  cron_wf c -> Next c off after = Some r -> r = zero_time \/ r < after + 1862 * (24 * Hour).
Proof.
  intros ((_ & _ & Hmr) & (_ & _ & Hhr) & _) Hr. rewrite list.Forall_forall in Hmr, Hhr.
  destruct (Next_run c off after (fun _ => True) (fun r => r = zero_time \/ r < AddYears off after 5 + 48 * Hour))
    as (r' & Hr' & HQ); [done|done| |].
  - intros t r' Ht _ Hb. eapply Next_body_bound; [| |done|done].
    + intros h Hh. by apply Hhr.
    + intros m Hm. by apply Hmr.
  - rewrite Hr in Hr'. simplify_eq. pose proof (AddYears_le off after). unfold Hour in *.
    destruct HQ; [by left|right; lia].
Qed.

(** An expression that fires at no time is never found. *)
Lemma Next_never c off after :
  off mod 3600 = 0 -> cron_wf c -> (forall u, fires c off u = false) -> Next c off after = Some zero_time.
Proof.
  intros Hoff Hwf Hn. destruct (Next_first c off after Hoff Hwf) as (r & Hr & [[-> _]|[Hf _]]); [done|].
  by rewrite Hn in Hf.
Qed.

Lemma Next_after c off after r : Next c off after = Some r -> r = zero_time \/ after < r.
Proof.
  intros Hr. destruct (Next_run c off after (fun t => after < t) (fun r => r = zero_time \/ after < r))
    as (r' & Hr' & HQ).
  - apply truncate_minute.
  - intros t t' Ht Hlt Hb. pose proof (Next_body_progress _ _ _ _ _ Ht Hb). lia.
  - intros t r' Ht Hlt Hb. pose proof (Next_body_result _ _ _ _ _ Ht Hb) as [->|Hle]; [by left | right; lia].
  - rewrite Hr in Hr'. by simplify_eq.
Qed.

(** ** Theorems *)

(** C2. [Next] finds the first firing: in a location whose offset is a whole
    number of hours, for every expression whose lists are sorted and within
    their ranges, [Next] returns, and what it returns is either a time that
    fires, lies after the given one and has no firing before it, or the zero
    time, and then nothing fires in the five years searched. *)
Theorem Next_correct c off after :
  off mod 3600 = 0 -> cron_wf c ->
  exists r, Next c off after = Some r /\
    ((r = zero_time /\
      forall u, after < u < AddYears off after 5 -> fires c off u = false) \/
     (fires c off r = true /\ after < r /\
      forall u, after < u < r -> fires c off u = false)).
Proof. apply Next_first. Qed.

Definition Next_correct_input : CronExpr :=
  mkCron [30] [4; 22] [1; 15] (allValues 1 12) [5] "30 4,22 1,15 * 5".

Lemma Next_correct_witness :
  exists r, Next Next_correct_input 7200 (1700000000 * Second + 1) = Some r /\
    ((r = zero_time /\
      forall u, 1700000000 * Second + 1 < u < AddYears 7200 (1700000000 * Second + 1) 5 ->
        fires Next_correct_input 7200 u = false) \/
     (fires Next_correct_input 7200 r = true /\ 1700000000 * Second + 1 < r /\
      forall u, 1700000000 * Second + 1 < u < r -> fires Next_correct_input 7200 u = false)).
Proof.
  apply Next_correct; [done|].
  unfold cron_wf, values_ok, Next_correct_input. cbn [minute hour dayOfMonth month dayOfWeek].
  assert (values_ok 1 12 (allValues 1 12)) as Hall by (apply allValues_ok; lia).
  repeat split; repeat constructor; first [apply Hall | lia | done].
Defined.

(** [Next] returns for every expression, well formed or not, in every
    location: the search ends within its bound, with the zero time or a time
    after the given one. *)
Theorem Next_total c off after :
  exists r, Next c off after = Some r /\ (r = zero_time \/ after < r).
Proof.
  apply (Next_run c off after (fun t => after < t)).
  - apply truncate_minute.
  - intros t t' Ht Hlt Hb. pose proof (Next_body_progress _ _ _ _ _ Ht Hb). lia.
  - intros t r Ht Hlt Hb. pose proof (Next_body_result _ _ _ _ _ Ht Hb) as [->|Hle]; [by left | right; lia].
Qed.

(** The parser reads back what a field says: a list of items written with
    commas, ranges with a dash and steps with a slash parses to the sorted list,
    without duplicates, of exactly the values the items stand for. *)
Theorem parseField_items items min max :
  0 <= min <= max -> max <= 59 -> items <> [] -> Forall (item_ok min max) items ->
  exists l, parseField (field_string items) min max = Ok l /\ StronglySorted Z.lt l /\
    forall v, v ∈ l <-> exists it, it ∈ items /\ item_has min max it v.
Proof.
  intros Hmin Hmax Hne Hok. unfold parseField, field_string.
  assert (split_byte "," (String.concat "," (map item_string items)) = map item_string items) as Hsp.
  { apply split_byte_concat; [by destruct items|]. apply Forall_map.
    eapply Forall_impl; [|exact Hok]. intros it Hit. apply (item_string_comma it min max); [lia|done]. }
  destruct (parseParts_items items min max [] Hmin Hmax Hok) as (vs & Hvs & Hin).
  destruct (String.eqb (String.concat "," (map item_string items)) "*") eqn:Hstar.
  - apply String.eqb_eq in Hstar. rewrite Hstar in Hsp. cbn in Hsp. rewrite <- Hsp in Hvs.
    cbn in Hvs. simplify_eq.
    eexists. split; [done|]. split; [apply allValues_ok; lia|]. intros v. rewrite <- Hin.
    unfold allValues. rewrite allValues_from_spec.
    destruct (stepValues_small min max 1) as [_ ->]; [lia..|].
    split; [intros Hv; split; [lia | exists (v - min); lia] | lia].
  - rewrite Hsp, Hvs. cbn [result_bind app].
    destruct (uniqueSorted_spec vs) as [Hs Hu].
    destruct (uniqueSorted vs) as [|x us] eqn:E.
    + exfalso. destruct items as [|it items]; [done|]. apply Forall_cons_1 in Hok as [Hit _].
      assert (exists v, item_has min max it v) as [v Hv].
      { destruct it as [st|w st|a b st]; cbn in *;
          [exists min; split; [lia | exists 0; lia] | by exists w
          | exists a; split; [lia | exists 0; lia]]. }
      assert (v ∈ vs) as Hv' by (apply Hin; exists it; split; [by left|done]).
      apply Hu, elem_of_nil in Hv'. done.
    + eexists. split; [done|]. split; [done|]. intros v. by rewrite Hu.
Qed.

Lemma parseField_items_witness :
  exists l, parseField "*/15,7,30-40/3" 0 59 = Ok l /\ StronglySorted Z.lt l /\
    forall v, v ∈ l <-> exists it, it ∈ [Star (Some 15); Single 7 None; Range 30 40 (Some 3)] /\
      item_has 0 59 it v.
Proof.
  apply (parseField_items [Star (Some 15); Single 7 None; Range 30 40 (Some 3)]); [lia|lia|done|].
  repeat constructor; cbn; lia.
Defined.

(** What [ParseCron] accepts is well formed: each of the five lists is not
    empty, sorted, without duplicates and within the bounds of its field, when
    no step overflows the index of the loop that lists the values. *)
Theorem ParseCron_wf expr c :
  cron_small_steps expr -> ParseCron expr = Ok c -> cron_wf c.
Proof. apply ParseCron_ok. Qed.

Lemma ParseCron_wf_witness :
  exists c, ParseCron " 0 */15 9-17 1,15 jan-jun mon " = Ok c /\ cron_wf c.
Proof.
  eexists. split; [vm_compute; reflexivity|].
  apply (ParseCron_wf " 0 */15 9-17 1,15 jan-jun mon ").
  - apply (bool_decide_unpack _). vm_compute. exact I.
  - vm_compute. reflexivity.
Defined.

(** A day-of-week range that ends at 7, or a step of 7, is an error: every 7 of
    the text becomes a 0 before the field is parsed. *)
Theorem parseDayOfWeek_seven :
  parseDayOfWeekField "5-7" = Err (RangeOutOfBounds 5 0 0 6) /\
  parseDayOfWeekField "*/7" = Err (InvalidStep "0") /\
  parseDayOfWeekField "7" = Ok [0].
Proof. split; [|split]; vm_compute; reflexivity. Qed.

(** In a location whose offset is a half hour off, [@hourly] is never found
    from a time whose next minute is not the first of its hour: the step to the
    next hour truncates in absolute time and lands on the local half hour, again
    and again, until the five years are over. *)
Theorem hourly_half_hour c off after :
  off mod 3600 = 1800 -> ParseCron "@hourly" = Ok c ->
  time_Minute off (time_Add (time_Truncate after Minute) Minute) <> 0 ->
  Next c off after = Some zero_time.
Proof. apply Next_hourly_half. Qed.

Lemma hourly_half_hour_witness :
  exists c, ParseCron "@hourly" = Ok c /\ Next c 19800 (1700000000 * Second) = Some zero_time.
Proof.
  eexists. split; [vm_compute; reflexivity|].
  apply hourly_half_hour; [done | vm_compute; reflexivity | vm_compute; discriminate].
Defined.

(** A step near the largest int wraps the index around: the values of
    [1-31/9223372036854775807] start at the smallest int. *)
Theorem ParseCron_step_wraps :
  exists c, ParseCron "0 0 1-31/9223372036854775807 * *" = Ok c /\
    dayOfMonth c = [min_int64; -1; 1] /\ ~ cron_wf c.
Proof.
  eexists. split; [vm_compute; reflexivity|]. split; [reflexivity|].
  intros (_ & _ & (_ & _ & H) & _). cbn in H. apply Forall_cons_1 in H as [H _]. lia.
Qed.
