(* ===== verification/Locks.v ===== *)
(** * Locks ([pantry/jobs/lock.go])

    The [Locker] interface with the promises its clients rely on, the locker in
    memory, the locker over Redis, the [Lock] helper and [WithLock].

    Redis itself is not part of the repository: a class stands for the client
    interface the code declares, and a class of laws for the documented
    behaviour of SET NX, GET and the two scripts; any call may also fail with an
    error, and then it may or may not have taken effect. *)

From S2P Require Import Prelude.

(** ** The interface *)

Inductive lock_error :=
| ErrLockNotAcquired
| ErrLockNotHeld
| ErrLockExpired
| FailedAcquire
| FailedRelease
| FailedExtend
| Cancelled
| FnError (msg : string).

(** Every operation is told what [time.Now()] returns in the call. *)
Class Locker (S : Type) := {
  Acquire : S -> Time -> string -> Duration -> S * result lock_error bool;
  Release : S -> Time -> string -> S * result lock_error bool;
  Extend : S -> Time -> string -> Duration -> S * option lock_error;
  IsHeld : S -> Time -> string -> S * result lock_error bool
}.

(** What a locker promises its client; [holds s t k] says that the lock of [k]
    is ours at time [t].  An extension may lose a fraction of a millisecond. *)
Class LockerLaws (S : Type) `{Locker S} := {
  holds : S -> Time -> string -> Prop;
  law_acquire s t k ttl s' t' :
    Acquire s t k ttl = (s', Ok true) -> t <= t' < t + ttl -> holds s' t' k;
  law_release s t k s' b t' :
    Release s t k = (s', Ok b) -> t <= t' -> ~ holds s' t' k;
  law_extend s t k ttl s' t' :
    Extend s t k ttl = (s', None) -> t <= t' -> t' + Millisecond <= t + ttl -> holds s' t' k;
  law_isheld s t k s' :
    IsHeld s t k = (s', Ok true) -> holds s t k
}.

(** ** The locker in memory *)

Record memoryLock := mkMemoryLock { owner : string; expires : Time }.

Record MemoryLocker := mkMemoryLocker { locks : gmap string memoryLock; ml_ownerID : string }.

Definition NewMemoryLocker (generated : string) : MemoryLocker := mkMemoryLocker ∅ generated.

Definition ML_Acquire (l : MemoryLocker) (now : Time) (key : string) (ttl : Duration)
    : MemoryLocker * result lock_error bool :=
  let acquired :=
    (mkMemoryLocker (<[key := mkMemoryLock (ml_ownerID l) (time_Add now ttl)]> (locks l)) (ml_ownerID l),
     Ok true) in
  match locks l !! key with
  | Some existing =>
      if time_After (expires existing) now then
        if negb (String.eqb (owner existing) (ml_ownerID l)) then (l, Ok false)
        else
          (mkMemoryLocker (<[key := mkMemoryLock (owner existing) (time_Add now ttl)]> (locks l))
             (ml_ownerID l), Ok true)
      else acquired
  | None => acquired
  end.

Definition ML_Release (l : MemoryLocker) (now : Time) (key : string)
    : MemoryLocker * result lock_error bool :=
  match locks l !! key with
  | None => (l, Ok false)
  | Some existing =>
      if negb (String.eqb (owner existing) (ml_ownerID l)) then (l, Ok false)
      else (mkMemoryLocker (delete key (locks l)) (ml_ownerID l), Ok true)
  end.

Definition ML_Extend (l : MemoryLocker) (now : Time) (key : string) (ttl : Duration)
    : MemoryLocker * option lock_error :=
  match locks l !! key with
  | None => (l, Some ErrLockNotHeld)
  | Some existing =>
      if negb (String.eqb (owner existing) (ml_ownerID l)) then (l, Some ErrLockNotHeld)
      else
        (mkMemoryLocker (<[key := mkMemoryLock (owner existing) (time_Add now ttl)]> (locks l))
           (ml_ownerID l), None)
  end.

Definition ML_IsHeld (l : MemoryLocker) (now : Time) (key : string)
    : MemoryLocker * result lock_error bool :=
  match locks l !! key with
  | None => (l, Ok false)
  | Some existing =>
      if time_Before (expires existing) now
      then (mkMemoryLocker (delete key (locks l)) (ml_ownerID l), Ok false)
      else (l, Ok (String.eqb (owner existing) (ml_ownerID l)))
  end.

Definition ML_Cleanup (l : MemoryLocker) (now : Time) : MemoryLocker :=
  mkMemoryLocker (filter (fun kv => negb (time_Before (expires kv.2) now)) (locks l)) (ml_ownerID l).

#[export] Instance MemoryLocker_Locker : Locker MemoryLocker := {
  Acquire := ML_Acquire;
  Release := ML_Release;
  Extend := ML_Extend;
  IsHeld := ML_IsHeld
}.

(** ** The Redis client *)

Inductive redis_reply := RInt (n : Z) | RStr (s : string).

(** A call that returns an error has the result [None]. *)
Class RedisClient (R : Type) := {
  SetNX : R -> Time -> string -> string -> Duration -> R * option bool;
  Redis_Get : R -> Time -> string -> option string;
  Eval_ : R -> Time -> string -> list string -> list redis_reply -> R * option redis_reply
}.

Definition newline : string := String (Ascii.ascii_of_nat 10) "".

Definition dq : string := String (Ascii.ascii_of_nat 34) "".

Definition release_script : string :=
  newline +:+ "		if redis.call(" +:+ dq +:+ "GET" +:+ dq +:+ ", KEYS[1]) == ARGV[1] then" +:+ newline +:+
  "			return redis.call(" +:+ dq +:+ "DEL" +:+ dq +:+ ", KEYS[1])" +:+ newline +:+
  "		else" +:+ newline +:+ "			return 0" +:+ newline +:+ "		end" +:+ newline +:+ "	".

Definition extend_script : string :=
  newline +:+ "		if redis.call(" +:+ dq +:+ "GET" +:+ dq +:+ ", KEYS[1]) == ARGV[1] then" +:+ newline +:+
  "			return redis.call(" +:+ dq +:+ "PEXPIRE" +:+ dq +:+ ", KEYS[1], ARGV[2])" +:+ newline +:+
  "		else" +:+ newline +:+ "			return 0" +:+ newline +:+ "		end" +:+ newline +:+ "	".

(** What the server stores: values with their time of expiry. *)
Abbreviation redis_db := (gmap string (string * Time)).

Definition live (d : redis_db) (t : Time) (k : string) : option string :=
  match d !! k with
  | Some (v, e) => if t <? e then Some v else None
  | None => None
  end.

(** SET NX with a time to live. *)
Definition setnx_effect (d : redis_db) (t : Time) (k v : string) (ttl : Duration) : redis_db * bool :=
  match live d t k with
  | Some _ => (d, false)
  | None => (<[k := (v, t + ttl)]> d, true)
  end.

(** Delete the key if it has the value. *)
Definition release_effect (d : redis_db) (t : Time) (k v : string) : redis_db * Z :=
  if decide (live d t k = Some v) then (delete k d, 1) else (d, 0).

(** Set the time to live of the key, in milliseconds, if it has the value; a
    time that is not positive deletes the key. *)
Definition extend_effect (d : redis_db) (t : Time) (k v : string) (ms : Z) : redis_db * Z :=
  if decide (live d t k = Some v)
  then ((if ms <=? 0 then delete k d else <[k := (v, t + ms * Millisecond)]> d), 1)
  else (d, 0).

(** A call took effect and was answered, or failed with or without effect. *)
Definition answered {A B : Type} (d d' : redis_db) (effect : redis_db * A) (reply : A -> B)
    (res : option B) : Prop :=
  match res with
  | Some r => d' = effect.1 /\ r = reply effect.2
  | None => d' = d \/ d' = effect.1
  end.

Class RedisLaws (R : Type) `{RedisClient R} := {
  db : R -> redis_db;
  law_setnx r t k v ttl : 0 < ttl ->
    answered (db r) (db (SetNX r t k v ttl).1) (setnx_effect (db r) t k v ttl) id (SetNX r t k v ttl).2;
  law_get r t k v : Redis_Get r t k = Some v -> live (db r) t k = Some v;
  law_release_script r t k v :
    answered (db r) (db (Eval_ r t release_script [k] [RStr v]).1) (release_effect (db r) t k v) RInt
      (Eval_ r t release_script [k] [RStr v]).2;
  law_extend_script r t k v ms :
    answered (db r) (db (Eval_ r t extend_script [k] [RStr v; RInt ms]).1)
      (extend_effect (db r) t k v ms) RInt (Eval_ r t extend_script [k] [RStr v; RInt ms]).2
}.

(** ** The locker over Redis *)

Record RedisLocker := mkRedisLocker { prefix : string; ownerID : string; held : gmap string bool }.

Definition NewRedisLocker (prefix owner generated : string) : RedisLocker :=
  mkRedisLocker (if String.eqb prefix "" then "lock:" else prefix)
    (if String.eqb owner "" then generated else owner) ∅.

Section redis.
Context {R : Type} `{RedisClient R}.

Definition RL_Acquire (s : RedisLocker * R) (now : Time) (key : string) (ttl : Duration)
    : (RedisLocker * R) * result lock_error bool :=
  let '(l, r) := s in
  let fullKey := prefix l +:+ key in
  match SetNX r now fullKey (ownerID l) ttl with
  | (r, None) => ((l, r), Err FailedAcquire)
  | (r, Some ok) =>
      ((if ok then mkRedisLocker (prefix l) (ownerID l) (<[key := true]> (held l)) else l, r), Ok ok)
  end.

Definition RL_Release (s : RedisLocker * R) (now : Time) (key : string)
    : (RedisLocker * R) * result lock_error bool :=
  let '(l, r) := s in
  let fullKey := prefix l +:+ key in
  match Eval_ r now release_script [fullKey] [RStr (ownerID l)] with
  | (r, None) => ((l, r), Err FailedRelease)
  | (r, Some reply) =>
      let released :=
        match reply with
        | RInt n => n =? 1
        | RStr s => String.eqb s "1"
        end in
      ((mkRedisLocker (prefix l) (ownerID l) (delete key (held l)), r), Ok released)
  end.

Definition RL_Extend (s : RedisLocker * R) (now : Time) (key : string) (ttl : Duration)
    : (RedisLocker * R) * option lock_error :=
  let '(l, r) := s in
  let fullKey := prefix l +:+ key in
  match Eval_ r now extend_script [fullKey] [RStr (ownerID l); RInt (Z.quot ttl Millisecond)] with
  | (r, None) => ((l, r), Some FailedExtend)
  | (r, Some reply) =>
      let missing :=
        match reply with
        | RInt n => n =? 0
        | RStr s => String.eqb s "0"
        end in
      ((l, r), if missing then Some ErrLockNotHeld else None)
  end.

Definition RL_IsHeld (s : RedisLocker * R) (now : Time) (key : string)
    : (RedisLocker * R) * result lock_error bool :=
  let '(l, r) := s in
  let fullKey := prefix l +:+ key in
  match Redis_Get r now fullKey with
  | None => ((l, r), Ok false)
  | Some value => ((l, r), Ok (String.eqb value (ownerID l)))
  end.

#[export] Instance RedisLocker_Locker : Locker (RedisLocker * R) := {
  Acquire := RL_Acquire;
  Release := RL_Release;
  Extend := RL_Extend;
  IsHeld := RL_IsHeld
}.

End redis.

(** ** The helper *)

Record Lock := mkLock { lk_key : string; lk_ttl : Duration; lk_held : bool }.

Definition NewLock (key : string) (ttl : Duration) : Lock := mkLock key ttl false.

(** How a function ends. *)
Inductive outcome :=
| Returned (err : option lock_error)
| Panicked.

(** A round of [AcquireWait]: when it asks, what happens to the locker while it
    waits, and whether the context is done before the interval is over. *)
Record round {S : Type} := mkRound { rd_now : Time; rd_others : S -> S; rd_cancelled : bool }.
Arguments round : clear implicits.

Section helper.
Context {S : Type} `{Locker S}.

Definition Lock_Acquire (s : S) (l : Lock) (now : Time) : S * Lock * result lock_error bool :=
  match Acquire s now (lk_key l) (lk_ttl l) with
  | (s, Err err) => (s, l, Err err)
  | (s, Ok ok) => (s, mkLock (lk_key l) (lk_ttl l) ok, Ok ok)
  end.

(** [None]: the rounds are over and it is still waiting. *)
Fixpoint AcquireWait (s : S) (l : Lock) (rounds : list (round S))
    : S * Lock * option (option lock_error) :=
  match rounds with
  | [] => (s, l, None)
  | rd :: rounds =>
      match Lock_Acquire s l (rd_now rd) with
      | (s, l, Err err) => (s, l, Some (Some err))
      | (s, l, Ok true) => (s, l, Some None)
      | (s, l, Ok false) =>
          let s := rd_others rd s in
          if rd_cancelled rd then (s, l, Some (Some Cancelled)) else AcquireWait s l rounds
      end
  end.

Definition Lock_Release (s : S) (l : Lock) (now : Time) : S * Lock * option lock_error :=
  if negb (lk_held l) then (s, l, None)
  else
    match Release s now (lk_key l) with
    | (s, Err err) => (s, mkLock (lk_key l) (lk_ttl l) false, Some err)
    | (s, Ok _) => (s, mkLock (lk_key l) (lk_ttl l) false, None)
    end.

Definition Lock_Extend (s : S) (l : Lock) (now : Time) : S * option lock_error :=
  if negb (lk_held l) then (s, Some ErrLockNotHeld) else Extend s now (lk_key l) (lk_ttl l).

Definition Lock_IsHeld (l : Lock) : bool := lk_held l.

(** [fn] acts on the locker, ends at a time and returns or panics; the deferred
    release runs in both cases. *)
Definition WithLock (s : S) (now : Time) (key : string) (ttl : Duration)
    (fn : S -> S * Time * outcome) : S * outcome :=
  let lock := NewLock key ttl in
  match Lock_Acquire s lock now with
  | (s, _, Err err) => (s, Returned (Some err))
  | (s, _, Ok false) => (s, Returned (Some ErrLockNotAcquired))
  | (s, lock, Ok true) =>
      let '(s, t, out) := fn s in
      let '(s, _, _) := Lock_Release s lock t in
      (s, out)
  end.

Definition WithLockWait (s : S) (key : string) (ttl : Duration) (rounds : list (round S))
    (fn : S -> S * Time * outcome) : S * option outcome :=
  match AcquireWait s (NewLock key ttl) rounds with
  | (s, _, None) => (s, None)
  | (s, _, Some (Some err)) => (s, Some (Returned (Some err)))
  | (s, lock, Some None) =>
      let '(s, t, out) := fn s in
      let '(s, _, _) := Lock_Release s lock t in
      (s, Some out)
  end.

End helper.

(** ** Specification *)

(** A locker somewhere, doing something at a time. *)
Inductive lock_op :=
| OpAcquire (key : string) (ttl : Duration)
| OpRelease (key : string)
| OpExtend (key : string) (ttl : Duration)
| OpIsHeld (key : string).

Record event := mkEvent { ev_locker : RedisLocker; ev_now : Time; ev_op : lock_op }.

Definition redis_event {R : Type} `{RedisClient R} (r : R) (ev : event) : R :=
  let s := (ev_locker ev, r) in
  match ev_op ev with
  | OpAcquire key ttl => (RL_Acquire s (ev_now ev) key ttl).1.2
  | OpRelease key => (RL_Release s (ev_now ev) key).1.2
  | OpExtend key ttl => (RL_Extend s (ev_now ev) key ttl).1.2
  | OpIsHeld key => (RL_IsHeld s (ev_now ev) key).1.2
  end.

(** The event is not the owner giving up or changing its own lease. *)
Definition keeps_lease (own : string) (fullKey : string) (ev : event) : Prop :=
  match ev_op ev with
  | OpAcquire _ ttl => 0 < ttl
  | OpRelease key | OpExtend key _ =>
      ownerID (ev_locker ev) <> own \/ prefix (ev_locker ev) +:+ key <> fullKey
  | OpIsHeld _ => True
  end.

(** The owner of every lock in memory is the locker. *)
Definition all_mine (l : MemoryLocker) : Prop :=
  forall k lk, locks l !! k = Some lk -> owner lk = ml_ownerID l.

Definition ml_event (l : MemoryLocker) (e : Time * lock_op) : MemoryLocker :=
  match e.2 with
  | OpAcquire key ttl => (ML_Acquire l e.1 key ttl).1
  | OpRelease key => (ML_Release l e.1 key).1
  | OpExtend key ttl => (ML_Extend l e.1 key ttl).1
  | OpIsHeld key => (ML_IsHeld l e.1 key).1
  end.

(** A server that keeps a map and never fails. *)
Definition map_eval (d : redis_db) (t : Time) (script : string) (keys : list string)
    (args : list redis_reply) : redis_db * option redis_reply :=
  match keys, args with
  | [k], [RStr v] =>
      if String.eqb script release_script then
        let '(d, n) := release_effect d t k v in (d, Some (RInt n))
      else (d, None)
  | [k], [RStr v; RInt ms] =>
      if String.eqb script extend_script then
        let '(d, n) := extend_effect d t k v ms in (d, Some (RInt n))
      else (d, None)
  | _, _ => (d, None)
  end.

#[export] Instance map_redis : RedisClient redis_db := {
  SetNX d t k v ttl := let '(d, ok) := setnx_effect d t k v ttl in (d, Some ok);
  Redis_Get d t k := live d t k;
  Eval_ := map_eval
}.

#[export] Instance map_redis_laws : RedisLaws redis_db.
Proof.
  refine {| db := fun d => d |}.
  - intros r t k v ttl _. unfold answered. cbn. by destruct (setnx_effect r t k v ttl).
  - intros r t k v Hg. exact Hg.
  - intros r t k v. unfold answered. cbn [Eval_ map_redis map_eval]. rewrite String.eqb_refl.
    by destruct (release_effect r t k v).
  - intros r t k v ms. unfold answered. cbn [Eval_ map_redis map_eval]. rewrite String.eqb_refl.
    by destruct (extend_effect r t k v ms).
Defined.

(** ** The locker in memory keeps the promises *)

#[export] Instance MemoryLocker_laws : LockerLaws MemoryLocker.
Proof.
  refine {| holds l t k :=
    exists lk, locks l !! k = Some lk /\ owner lk = ml_ownerID l /\ t <= expires lk |};
    cbn [Acquire Release Extend IsHeld MemoryLocker_Locker].
  - intros s t k ttl s' t' Ha Ht. unfold ML_Acquire, time_Add, time_After in Ha.
    assert (forall m : gmap string memoryLock, exists lk, <[k := mkMemoryLock (ml_ownerID s) (t + ttl)]> m !! k = Some lk /\
      owner lk = ml_ownerID s /\ t' <= expires lk) as Hins
      by (intros m; exists (mkMemoryLock (ml_ownerID s) (t + ttl)); rewrite lookup_insert_eq; cbn;
          split; [done|]; split; [done|lia]).
    destruct (locks s !! k) as [ex|]; [|simplify_eq; apply Hins].
    destruct (t <? expires ex); [|simplify_eq; apply Hins].
    destruct (String.eqb_spec (owner ex) (ml_ownerID s)) as [He|]; cbn [negb] in Ha; [|done].
    rewrite He in Ha. simplify_eq. apply Hins.
  - intros s t k s' b t' Hr _ (lk & Hl & Ho & _). unfold ML_Release in Hr.
    destruct (locks s !! k) as [ex|] eqn:Hk; [|by simplify_eq].
    destruct (String.eqb_spec (owner ex) (ml_ownerID s)); cbn in Hr; simplify_eq; cbn in *;
      by rewrite lookup_delete_eq in Hl.
  - intros s t k ttl s' t' He Ht Hms. unfold ML_Extend, time_Add in He.
    destruct (locks s !! k) as [ex|]; [|done].
    destruct (String.eqb_spec (owner ex) (ml_ownerID s)); cbn in He; simplify_eq; cbn.
    eexists. split; [apply lookup_insert_eq|]. cbn. unfold Millisecond in Hms. split; [done|lia].
  - intros s t k s' Hi. unfold ML_IsHeld, time_Before in Hi.
    destruct (locks s !! k) as [ex|] eqn:Hk; [|done].
    destruct (expires ex <? t) eqn:E; simplify_eq.
    exists ex. split; [done|]. split; [by apply String.eqb_eq|lia].
Defined.

(** ** The locker over Redis keeps the promises *)

Lemma live_earlier d t t' k v : t <= t' -> live d t' k = Some v -> live d t k = Some v.
Proof.
  intros Ht. unfold live. destruct (d !! k) as [[w e]|]; [|done].
  destruct (t' <? e) eqn:E; [|done]. replace (t <? e) with true by lia. done.
Qed.

Lemma redis_live_insert d t k v e : t < e -> live (<[k := (v, e)]> d) t k = Some v.
Proof. intros Ht. unfold live. rewrite lookup_insert_eq. replace (t <? e) with true by lia. done. Qed.

Lemma redis_live_delete d t k : live (delete k d) t k = None.
Proof. unfold live. by rewrite lookup_delete_eq. Qed.

Section redis_laws.
Context {R : Type} `{RedisLaws R}.

#[export] Instance RedisLocker_laws : LockerLaws (RedisLocker * R).
Proof.
  refine {| holds s t k := live (db s.2) t (prefix s.1 +:+ k) = Some (ownerID s.1) |};
    cbn [Acquire Release Extend IsHeld RedisLocker_Locker].
  - intros [l r] t k ttl s' t' Ha Ht. unfold RL_Acquire in Ha.
    pose proof (law_setnx r t (prefix l +:+ k) (ownerID l) ttl ltac:(lia)) as Hl.
    destruct (SetNX _ _ _ _ _) as [r' [ok|]]; [|done]. simplify_eq. cbn in *.
    destruct Hl as [Hd Ho]. unfold setnx_effect in *.
    destruct (live (db r) t _); [done|]. cbn in *. rewrite Hd. apply redis_live_insert. lia.
  - intros [l r] t k s' b t' Hr Ht. unfold RL_Release in Hr.
    pose proof (law_release_script r t (prefix l +:+ k) (ownerID l)) as Hl.
    destruct (Eval_ _ _ _ _ _) as [r' [reply|]]; [|done]. simplify_eq. cbn in *.
    destruct Hl as [Hd _]. rewrite Hd. unfold release_effect.
    case_decide as Hlive; cbn; [by rewrite redis_live_delete|].
    intros Hlate. apply Hlive. by apply (live_earlier _ _ t').
  - intros [l r] t k ttl s' t' He Ht Hms. unfold RL_Extend in He.
    pose proof (law_extend_script r t (prefix l +:+ k) (ownerID l) (Z.quot ttl Millisecond)) as Hl.
    destruct (Eval_ _ _ _ _ _) as [r' [reply|]]; [|done]. simplify_eq. cbn in *.
    destruct Hl as [Hd Hreply]. unfold extend_effect in *.
    case_decide as Hlive; cbn in *; subst reply; [|done]. rewrite Hd.
    unfold Millisecond in *. pose proof (Z.quot_div_nonneg ttl 1000000 ltac:(lia) ltac:(lia)) as Hq.
    rewrite Hq. assert (1 <= ttl / 1000000) by (apply Z.div_le_lower_bound; lia).
    replace (ttl / 1000000 <=? 0) with false by lia. apply redis_live_insert.
    pose proof (Z.mul_succ_div_gt ttl 1000000 ltac:(lia)). lia.
  - intros [l r] t k s' Hi. unfold RL_IsHeld in Hi. cbn.
    destruct (Redis_Get r t (prefix l +:+ k)) as [v|] eqn:Hg; [|done]. simplify_eq.
    apply law_get in Hg. rewrite Hg. f_equal. by apply String.eqb_eq.
Defined.
End redis_laws.

(** ** Leases over Redis *)

Section lease.
Context {R : Type} `{RedisLaws R}.

(** An event of a locker that respects the lease leaves its key alone. *)
Lemma event_keeps r ev own fk e :
  db r !! fk = Some (own, e) -> ev_now ev < e -> keeps_lease own fk ev ->
  db (redis_event r ev) !! fk = Some (own, e).
Proof.
  intros Hfk He Hk. unfold redis_event, keeps_lease in *. destruct ev as [l t op]; cbn in *.
  assert (live (db r) t fk = Some own) as Hlive
    by (unfold live; rewrite Hfk; by replace (t <? e) with true by lia).
  destruct op as [key ttl|key|key ttl|key]; cbn.
  - pose proof (law_setnx r t (prefix l +:+ key) (ownerID l) ttl Hk) as Hl.
    destruct (SetNX _ _ _ _ _) as [r' res]. cbn in *.
    assert (db r' !! fk = Some (own, e)) as Hr'.
    { unfold answered, setnx_effect in Hl.
      destruct (live (db r) t (prefix l +:+ key)) as [v|] eqn:Hlk; [destruct res; cbn in Hl; intuition congruence|].
      assert (prefix l +:+ key <> fk) as Hne by congruence.
      assert (<[prefix l +:+ key := (ownerID l, t + ttl)]> (db r) !! fk = Some (own, e)) as Hi
        by (by rewrite lookup_insert_ne).
      destruct res; cbn in Hl; [destruct Hl as [-> _] | destruct Hl as [->| ->]]; done. }
    by destruct res as [[]|].
  - pose proof (law_release_script r t (prefix l +:+ key) (ownerID l)) as Hl.
    destruct (Eval_ _ _ _ _ _) as [r' res]. cbn in *.
    assert (db r' !! fk = Some (own, e)) as Hr'.
    { unfold answered, release_effect in Hl.
      case_decide as Hlk; [|destruct res; cbn in Hl; intuition congruence].
      assert (prefix l +:+ key <> fk) as Hne by (intros Heq; rewrite Heq in Hlk; destruct Hk; congruence).
      assert (delete (prefix l +:+ key) (db r) !! fk = Some (own, e)) as Hi
        by (by rewrite lookup_delete_ne).
      destruct res; cbn in Hl; [destruct Hl as [-> _] | destruct Hl as [->| ->]]; done. }
    by destruct res as [[]|].
  - pose proof (law_extend_script r t (prefix l +:+ key) (ownerID l) (Z.quot ttl Millisecond)) as Hl.
    destruct (Eval_ _ _ _ _ _) as [r' res]. cbn in *.
    assert (db r' !! fk = Some (own, e)) as Hr'.
    { unfold answered, extend_effect in Hl.
      case_decide as Hlk; [|destruct res; cbn in Hl; intuition congruence].
      assert (prefix l +:+ key <> fk) as Hne by (intros Heq; rewrite Heq in Hlk; destruct Hk; congruence).
      set (d' := if Z.quot ttl Millisecond <=? 0 then _ else _) in Hl.
      assert (d' !! fk = Some (own, e)) as Hi
        by (unfold d'; destruct (Z.quot ttl Millisecond <=? 0);
            [by rewrite lookup_delete_ne | by rewrite lookup_insert_ne]).
      destruct res; cbn in Hl; [destruct Hl as [-> _] | destruct Hl as [->| ->]]; done. }
    by destruct res as [[]|].
  - by destruct (Redis_Get r t (prefix l +:+ key)).
Qed.

Lemma events_keep evs r own fk e :
  db r !! fk = Some (own, e) ->
  Forall (fun ev => ev_now ev < e /\ keeps_lease own fk ev) evs ->
  db (foldl redis_event r evs) !! fk = Some (own, e).
Proof.
  intros Hfk Hevs. revert r Hfk. induction Hevs as [|ev evs [He Hk] _ IH]; intros r Hfk; cbn; [done|].
  apply IH. by apply event_keeps.
Qed.

Lemma RL_Acquire_ok l r t key ttl s' :
  0 < ttl -> RL_Acquire (l, r) t key ttl = (s', Ok true) ->
  prefix s'.1 = prefix l /\ ownerID s'.1 = ownerID l /\
  db s'.2 !! (prefix l +:+ key) = Some (ownerID l, t + ttl).
Proof.
  intros Httl Ha. unfold RL_Acquire in Ha.
  pose proof (law_setnx r t (prefix l +:+ key) (ownerID l) ttl Httl) as Hl.
  destruct (SetNX _ _ _ _ _) as [r1 [ok|]]; [|done]. simplify_eq. cbn in *.
  destruct Hl as [Hd Ho]. unfold setnx_effect in *. destruct (live (db r) t _); [done|].
  cbn in *. rewrite Hd. by rewrite lookup_insert_eq.
Qed.

(** While a value is live, no locker acquires the key. *)
Lemma RL_Acquire_refused l r t key ttl v :
  0 < ttl -> live (db r) t (prefix l +:+ key) = Some v ->
  (RL_Acquire (l, r) t key ttl).2 <> Ok true /\
  (forall b, (RL_Acquire (l, r) t key ttl).2 = Ok b -> b = false /\ (RL_Acquire (l, r) t key ttl).1.1 = l /\
     db (RL_Acquire (l, r) t key ttl).1.2 = db r).
Proof.
  intros Httl Hlive. unfold RL_Acquire.
  pose proof (law_setnx r t (prefix l +:+ key) (ownerID l) ttl Httl) as Hl.
  unfold setnx_effect in Hl. rewrite Hlive in Hl.
  destruct (SetNX _ _ _ _ _) as [r1 [ok|]]; cbn in *; [|split; [done|]; intros b Hb; done].
  destruct Hl as [Hd ->]. cbn. split; [done|]. intros b Hb. by simplify_eq.
Qed.
End lease.

(** ** Theorems *)

(** C7. A lock acquired over Redis is exclusive for its whole lease: whatever any
    lockers do meanwhile, in any order, calls that fail half way included, as long
    as the owner itself neither releases nor extends it, the owner holds it until
    the time to live is over, and no locker with the same prefix, the owner
    included, acquires it before. *)
Theorem Redis_lease {R : Type} `{RedisLaws R} (l : RedisLocker) (r : R) t key ttl s' evs t' :
  RL_Acquire (l, r) t key ttl = (s', Ok true) -> 0 < ttl ->
  Forall (fun ev => ev_now ev < t + ttl /\ keeps_lease (ownerID l) (prefix l +:+ key) ev) evs ->
  t' < t + ttl ->
  let r' := foldl redis_event s'.2 evs in
  holds (s'.1, r') t' key /\
  forall l2 ttl2, prefix l2 = prefix l -> 0 < ttl2 ->
    (RL_Acquire (l2, r') t' key ttl2).2 <> Ok true /\
    ((RL_IsHeld (l2, r') t' key).2 = Ok true -> ownerID l2 = ownerID l).
Proof.
  intros Ha Httl Hevs Ht' r'. destruct (RL_Acquire_ok _ _ _ _ _ _ Httl Ha) as (Hp & Ho & Hdb).
  assert (db r' !! (prefix l +:+ key) = Some (ownerID l, t + ttl)) as Hkeep by (by apply events_keep).
  assert (live (db r') t' (prefix l +:+ key) = Some (ownerID l)) as Hlive
    by (unfold live; rewrite Hkeep; by replace (t' <? t + ttl) with true by lia).
  split; [cbn; by rewrite Hp, Ho|]. intros l2 ttl2 Hp2 Httl2. rewrite <- Hp2 in Hlive. split.
  - by apply (RL_Acquire_refused l2 r' t' key ttl2 (ownerID l)).
  - unfold RL_IsHeld. destruct (Redis_Get r' t' (prefix l2 +:+ key)) as [v|] eqn:Hg; [|done].
    apply law_get in Hg. cbn. intros Heq. simplify_eq. by apply String.eqb_eq in Heq.
Qed.

Lemma Redis_lease_witness :
  let a := NewRedisLocker "" "a" "x" in let b := NewRedisLocker "" "b" "y" in
  let s' := (RL_Acquire (a, (∅ : redis_db)) 5 "job" Second).1 in
  let r' := foldl redis_event s'.2 [mkEvent b 6 (OpRelease "job"); mkEvent b 7 (OpAcquire "job" Hour)] in
  holds (s'.1, r') 8 "job" /\
  forall l2 ttl2, prefix l2 = prefix a -> 0 < ttl2 ->
    (RL_Acquire (l2, r') 8 "job" ttl2).2 <> Ok true /\
    ((RL_IsHeld (l2, r') 8 "job").2 = Ok true -> ownerID l2 = ownerID a).
Proof.
  intros a b s' r'.
  apply (Redis_lease a (∅ : redis_db) 5 "job" Second s'
    [mkEvent b 6 (OpRelease "job"); mkEvent b 7 (OpAcquire "job" Hour)] 8);
    [vm_compute; reflexivity | done | | done].
  repeat constructor. cbn. discriminate.
Defined.

(** For every locker that keeps the promises of the interface, [WithLock] runs
    its function only with the lock held for the time to live, reports an error
    without running it otherwise, and releases the lock however the function
    ends, a panic included: after a release that is answered the lock is not
    ours any more. *)
Theorem WithLock_spec {S : Type} `{LockerLaws S} (s : S) now key ttl
    (fn : S -> S * Time * outcome) :
  let '(s1, res) := Acquire s now key ttl in
  match res with
  | Err err => WithLock s now key ttl fn = (s1, Returned (Some err))
  | Ok false => WithLock s now key ttl fn = (s1, Returned (Some ErrLockNotAcquired))
  | Ok true =>
      (forall t', now <= t' < now + ttl -> holds s1 t' key) /\
      let '(s2, t2, out) := fn s1 in
      let '(s3, released) := Release s2 t2 key in
      WithLock s now key ttl fn = (s3, out) /\
      (forall b t', released = Ok b -> t2 <= t' -> ~ holds s3 t' key)
  end.
Proof.
  destruct (Acquire s now key ttl) as [s1 res] eqn:Ha.
  unfold WithLock, Lock_Acquire, NewLock. cbn [lk_key lk_ttl]. rewrite Ha.
  destruct res as [[]|err]; [|done|done].
  split; [intros t' Ht'; by eapply law_acquire|].
  destruct (fn s1) as [[s2 t2] out]. unfold Lock_Release. cbn [lk_held lk_key negb].
  destruct (Release s2 t2 key) as [s3 released] eqn:Hr. destruct released as [b0|e].
  - split; [done|]. intros b t' Hb Ht'. by eapply law_release.
  - split; [done|]. intros b t' Hb. done.
Qed.

(** [AcquireWait] returns without an error only with the lock held: at one
    of its rounds, all earlier ones having been refused, for the whole time to
    live; and when every round before the context is done is refused, it
    returns the error of the context. *)
Theorem AcquireWait_spec {S : Type} `{LockerLaws S} (s : S) l rounds s' l' :
  (AcquireWait s l rounds = (s', l', Some None) ->
   Lock_IsHeld l' = true /\ lk_key l' = lk_key l /\
   exists rd, rd ∈ rounds /\
     forall t', rd_now rd <= t' < rd_now rd + lk_ttl l -> holds s' t' (lk_key l)) /\
  (AcquireWait s l rounds = (s', l', Some (Some Cancelled)) ->
   (forall s0 (rd : round S) s1, Acquire s0 (rd_now rd) (lk_key l) (lk_ttl l) <> (s1, Err Cancelled)) ->
   Lock_IsHeld l' = false /\ exists rd, rd ∈ rounds /\ rd_cancelled rd = true).
Proof.
  revert s l. induction rounds as [|rd rounds IH]; intros s l; [done|].
  cbn [AcquireWait]. unfold Lock_Acquire.
  destruct (Acquire s (rd_now rd) (lk_key l) (lk_ttl l)) as [s1 [ok|err]] eqn:Ha.
  - destruct ok.
    + split; [|done]. intros Hw. simplify_eq. split; [done|]. split; [done|].
      exists rd. split; [by left|]. intros t' Ht'. by eapply law_acquire.
    + destruct (rd_cancelled rd) eqn:Hc.
      * split; [done|]. intros Hw _. simplify_eq. split; [done|]. exists rd. split; [by left|done].
      * destruct (IH (rd_others rd s1) (mkLock (lk_key l) (lk_ttl l) false)) as [IH1 IH2].
        split.
        -- intros (Hh & Hk & rd' & Hin & Hx)%IH1. split; [done|]. split; [done|].
           exists rd'. split; [by right|done].
        -- intros Hw Hne. destruct (IH2 Hw Hne) as (Hh & rd' & Hin & Hx).
           split; [done|]. exists rd'. split; [by right|done].
  - split; [done|]. intros Hw Hne. simplify_eq. by destruct (Hne s rd s').
Qed.

Lemma all_mine_event l e : all_mine l -> all_mine (ml_event l e) /\ ml_ownerID (ml_event l e) = ml_ownerID l.
Proof.
  intros Hl. destruct e as [t op]. unfold all_mine in *.
  assert (forall k lk, owner lk = ml_ownerID l ->
    forall k' lk', <[k := lk]> (locks l) !! k' = Some lk' -> owner lk' = ml_ownerID l) as Hins.
  { intros k lk Ho k' lk' [[_ <-]|[_ ?]]%lookup_insert_Some; eauto. }
  assert (forall k k' lk', delete k (locks l) !! k' = Some lk' -> owner lk' = ml_ownerID l) as Hdel
    by (intros k k' lk' [_ ?]%lookup_delete_Some; eauto).
  destruct op as [k ttl|k|k ttl|k]; cbn;
    unfold ML_Acquire, ML_Release, ML_Extend, ML_IsHeld;
    destruct (locks l !! k) as [ex|] eqn:Hk; split_ifs; cbn; try done; split; try done; eauto;
    apply Hins; cbn; eauto.
Qed.

(** One [MemoryLocker] excludes nobody who shares it: whatever has been done
    with it, by however many goroutines, [Acquire] of any key is true, since every
    lock in it has the owner of the locker itself. *)
Theorem MemoryLocker_no_exclusion generated evs t key ttl :
  (ML_Acquire (foldl ml_event (NewMemoryLocker generated) evs) t key ttl).2 = Ok true.
Proof.
  assert (all_mine (foldl ml_event (NewMemoryLocker generated) evs)) as Hmine.
  { assert (all_mine (NewMemoryLocker generated)) as H0 by (intros k lk Hk; done).
    revert H0. generalize (NewMemoryLocker generated). induction evs as [|e evs IH]; intros l Hl; cbn; [done|].
    apply IH. by apply all_mine_event. }
  unfold ML_Acquire. destruct (locks _ !! key) as [ex|] eqn:Hk; [|done].
  rewrite (Hmine _ _ Hk), String.eqb_refl. by destruct (time_After _ _).
Qed.

(** Acquiring again through the same [Lock] over Redis loses the lock: the
    second call is refused, since the key is there, and clears the flag, so that
    [Release] returns without an error and without releasing, and the lock stays
    taken until its time to live is over. *)
Theorem Lock_reacquire_leaks {R : Type} `{RedisLaws R} (l : RedisLocker) (r : R) key ttl t1 t2 t3 s1 lk1 s2 lk2 b :
  0 < ttl -> t2 < t1 + ttl -> t3 < t1 + ttl ->
  Lock_Acquire (l, r) (NewLock key ttl) t1 = (s1, lk1, Ok true) ->
  Lock_Acquire s1 lk1 t2 = (s2, lk2, Ok b) ->
  b = false /\ Lock_Release s2 lk2 t3 = (s2, lk2, None) /\ holds s2 t3 key.
Proof.
  intros Httl H2 H3 Ha1 Ha2. unfold Lock_Acquire, NewLock in *. cbn [lk_key lk_ttl Acquire RedisLocker_Locker] in Ha1.
  destruct (RL_Acquire (l, r) t1 key ttl) as [s1' [ok1|]] eqn:E1; [|done]. simplify_eq.
  destruct (RL_Acquire_ok _ _ _ _ _ _ Httl E1) as (Hp & Ho & Hdb). cbn [lk_key lk_ttl Acquire RedisLocker_Locker] in Ha2.
  assert (forall t, t < t1 + ttl -> live (db s1.2) t (prefix l +:+ key) = Some (ownerID l)) as Hlive.
  { intros t Ht. unfold live. rewrite Hdb. by replace (t <? t1 + ttl) with true by lia. }
  destruct s1 as [l1 r1]. cbn [fst snd] in Hp, Ho, Hdb, Hlive.
  assert (live (db r1) t2 (prefix l1 +:+ key) = Some (ownerID l)) as Hl2 by (rewrite Hp; auto).
  destruct (RL_Acquire_refused l1 r1 t2 key ttl _ Httl Hl2) as [_ Href].
  destruct (RL_Acquire (l1, r1) t2 key ttl) as [[l2 r2] [b2|]] eqn:E2; [|done]. simplify_eq.
  destruct (Href b eq_refl) as (-> & Hl & Hdb2). cbn in Hl, Hdb2. subst l2. cbn [holds RedisLocker_laws fst snd].
  split; [done|]. split; [done|]. rewrite Hdb2, Hp, Ho. auto.
Qed.

Lemma Lock_reacquire_leaks_witness :
  let l := NewRedisLocker "" "a" "x" in
  let a1 := Lock_Acquire (l, (∅ : redis_db)) (NewLock "job" Hour) 5 in
  let a2 := Lock_Acquire a1.1.1 a1.1.2 6 in
  false = false /\ Lock_Release a2.1.1 a2.1.2 7 = (a2.1.1, a2.1.2, None) /\ holds a2.1.1 7 "job".
Proof.
  intros l a1 a2.
  apply (Lock_reacquire_leaks l (∅ : redis_db) "job" Hour 5 6 7 a1.1.1 a1.1.2 a2.1.1 a2.1.2 false);
    first [done | vm_compute; reflexivity].
Defined.
