(* ===== verification/EmailQueue.v ===== *)
(** * The email queue ([pantry/email/queue.go])

    The store in memory, the operations of the queue over any store, and the
    workers as a state machine whose steps are the calls a worker makes: other
    workers and callers run between them.

    Go ranges over a map in any order: an operation that ranges over the emails
    takes the order of their IDs.  Copies are values; nothing in the package
    changes a message or metadata in place. *)

From S2P Require Import Prelude GoStrings.

(** ** Data *)

Record Attachment := mkAttachment { Filename : string; ContentType : string; Data : string }.

Record Message := mkMessage {
  To : list string;
  Subject : string;
  TextBody : string;
  HTMLBody : string;
  ReplyTo : string;
  Attachments : list Attachment
}.

Inductive EmailStatus :=
| StEmpty
| EmailStatusPending
| EmailStatusScheduled
| EmailStatusSending
| EmailStatusSent
| EmailStatusFailed
| StOther (s : string).

#[export] Instance EmailStatus_eq_dec : EqDecision EmailStatus.
Proof. solve_decision. Defined.

Record QueuedEmail := mkEmail {
  ID : string;
  message : Message;
  Priority : Z;
  ScheduledAt : option Time;
  MaxRetries : Z;
  Metadata : option (gmap string string);
  CreatedAt : Time;
  Attempts : Z;
  LastError : string;
  Status : EmailStatus
}.

Definition set_status (e : QueuedEmail) (st : EmailStatus) : QueuedEmail :=
  mkEmail (ID e) (message e) (Priority e) (ScheduledAt e) (MaxRetries e) (Metadata e) (CreatedAt e)
    (Attempts e) (LastError e) st.

Inductive queue_error :=
| EmailNotFound (id : string)
| CannotCancel (st : EmailStatus)
| EnqueueFailed (e : queue_error)
| StoreError (msg : string).

Record TimeRange := mkTimeRange { From : option Time; To_ : option Time }.

Record QueueFilter := mkFilter {
  f_Status : EmailStatus;
  f_Limit : Z;
  f_Offset : Z;
  f_CreatedAt : option TimeRange
}.

Record QueueStats := mkStats {
  n_Pending : Z; n_Scheduled : Z; n_Sending : Z; n_Sent : Z; n_Failed : Z; n_Total : Z
}.

(** ** The interface of a store *)

Class QueueStore (S : Type) := {
  qs_Enqueue : S -> QueuedEmail -> S * option queue_error;
  qs_Dequeue : S -> Time -> list string -> S * result queue_error (option QueuedEmail);
  qs_Update : S -> QueuedEmail -> S * option queue_error;
  qs_Get : S -> string -> result queue_error QueuedEmail;
  qs_List : S -> list string -> QueueFilter -> result queue_error (list QueuedEmail);
  qs_Delete : S -> string -> S * option queue_error;
  qs_Stats : S -> result queue_error QueueStats
}.

(** ** The store in memory *)

Abbreviation MemoryQueueStore := (gmap string QueuedEmail).

Definition NewMemoryQueueStore : MemoryQueueStore := ∅.

(** The emails in the order the map is ranged over. *)
Definition ranged (s : MemoryQueueStore) (order : list string) : list QueuedEmail :=
  omap (fun id => s !! id) order.

Definition MQ_Enqueue (s : MemoryQueueStore) (email : QueuedEmail)
    : MemoryQueueStore * option queue_error :=
  (<[ID email := email]> s, None).

Definition ready (email : QueuedEmail) (now : Time) : bool :=
  match Status email with
  | EmailStatusPending => true
  | EmailStatusScheduled =>
      match ScheduledAt email with Some at_ => negb (time_After at_ now) | None => true end
  | _ => false
  end.

(** The test that replaces [oldest] by [email]. *)
Definition better (email oldest : QueuedEmail) : bool :=
  (Priority oldest <? Priority email) ||
  ((Priority email =? Priority oldest) && time_Before (CreatedAt email) (CreatedAt oldest)).

Definition dequeue_step (now : Time) (oldest : option QueuedEmail) (email : QueuedEmail)
    : option QueuedEmail :=
  if negb (ready email now) then oldest
  else
    match oldest with
    | None => Some email
    | Some o => if better email o then Some email else oldest
    end.

Definition MQ_Dequeue (s : MemoryQueueStore) (now : Time) (order : list string)
    : MemoryQueueStore * result queue_error (option QueuedEmail) :=
  (s, Ok (foldl (dequeue_step now) None (ranged s order))).

Definition MQ_Update (s : MemoryQueueStore) (email : QueuedEmail)
    : MemoryQueueStore * option queue_error :=
  match s !! ID email with
  | None => (s, Some (EmailNotFound (ID email)))
  | Some _ => (<[ID email := email]> s, None)
  end.

Definition MQ_Get (s : MemoryQueueStore) (id : string) : result queue_error QueuedEmail :=
  match s !! id with
  | None => Err (EmailNotFound id)
  | Some email => Ok email
  end.

Definition filter_match (filter : QueueFilter) (email : QueuedEmail) : bool :=
  (bool_decide (f_Status filter = StEmpty) || bool_decide (Status email = f_Status filter)) &&
  match f_CreatedAt filter with
  | None => true
  | Some tr =>
      match From tr with Some from => negb (time_Before (CreatedAt email) from) | None => true end &&
      match To_ tr with Some to => negb (time_After (CreatedAt email) to) | None => true end
  end.

Fixpoint list_loop (filter : QueueFilter) (skipped : Z) (result : list QueuedEmail)
    (emails : list QueuedEmail) : list QueuedEmail :=
  match emails with
  | [] => result
  | email :: emails =>
      if negb (filter_match filter email) then list_loop filter skipped result emails
      else if (0 <? f_Offset filter) && (skipped <? f_Offset filter) then
        list_loop filter (skipped + 1) result emails
      else if (0 <? f_Limit filter) && (f_Limit filter <=? Z.of_nat (length result)) then result
      else list_loop filter skipped (result ++ [email])%list emails
  end.

Definition MQ_List (s : MemoryQueueStore) (order : list string) (filter : QueueFilter)
    : result queue_error (list QueuedEmail) :=
  Ok (list_loop filter 0 [] (ranged s order)).

Definition MQ_Delete (s : MemoryQueueStore) (id : string) : MemoryQueueStore * option queue_error :=
  match s !! id with
  | None => (s, Some (EmailNotFound id))
  | Some _ => (delete id s, None)
  end.

Definition count_email (st : QueueStats) (email : QueuedEmail) : QueueStats :=
  let '(mkStats p sc sd se f t) := st in
  match Status email with
  | EmailStatusPending => mkStats (p + 1) sc sd se f (t + 1)
  | EmailStatusScheduled => mkStats p (sc + 1) sd se f (t + 1)
  | EmailStatusSending => mkStats p sc (sd + 1) se f (t + 1)
  | EmailStatusSent => mkStats p sc sd (se + 1) f (t + 1)
  | EmailStatusFailed => mkStats p sc sd se (f + 1) (t + 1)
  | _ => mkStats p sc sd se f (t + 1)
  end.

Definition MQ_Stats (s : MemoryQueueStore) : result queue_error QueueStats :=
  Ok (foldl count_email (mkStats 0 0 0 0 0 0) ((map_to_list s).*2)).

Definition removable (cutoff : Time) (email : QueuedEmail) : bool :=
  (bool_decide (Status email = EmailStatusSent) || bool_decide (Status email = EmailStatusFailed)) &&
  time_Before (CreatedAt email) cutoff.

Definition MQ_Cleanup (s : MemoryQueueStore) (now : Time) (maxAge : Duration) : MemoryQueueStore * Z :=
  let cutoff := time_Add now (- maxAge) in
  (filter (fun kv => negb (removable cutoff kv.2)) s,
   Z.of_nat (size (filter (fun kv : string * QueuedEmail => removable cutoff kv.2) s))).

#[export] Instance MemoryQueueStore_store : QueueStore MemoryQueueStore := {
  qs_Enqueue := MQ_Enqueue;
  qs_Dequeue := MQ_Dequeue;
  qs_Update := MQ_Update;
  qs_Get := MQ_Get;
  qs_List := MQ_List;
  qs_Delete := MQ_Delete;
  qs_Stats := MQ_Stats
}.

(** ** The sender *)

(** [Sender.Send]: the checks of the message; what the mail library does with it
    is an argument. *)
Definition Send (smtp : Message -> option string) (msg : Message) : option string :=
  if (length (To msg) =? 0)%nat then Some "email: no recipients specified"
  else if String.eqb (TextBody msg) "" && String.eqb (HTMLBody msg) ""
  then Some "email: message body is empty"
  else smtp msg.

(** ** The queue *)

Definition generateEmailID (now : Time) : string := "email_" +:+ Itoa (wrap64 now).

(** The email as [Enqueue] completes it; the calls of [time.Now()] within it
    return the same time. *)
Definition complete (email : QueuedEmail) (now : Time) : QueuedEmail :=
  let id := if String.eqb (ID email) "" then generateEmailID now else ID email in
  let created := if CreatedAt email =? zero_time then now else CreatedAt email in
  let retries := if MaxRetries email =? 0 then 3 else MaxRetries email in
  let status :=
    match Status email with
    | StEmpty =>
        match ScheduledAt email with
        | Some at_ => if time_After at_ now then EmailStatusScheduled else EmailStatusPending
        | None => EmailStatusPending
        end
    | st => st
    end in
  mkEmail id (message email) (Priority email) (ScheduledAt email) retries (Metadata email) created
    (Attempts email) (LastError email) status.

Definition after_send (email : QueuedEmail) (err : option string) : QueuedEmail :=
  match err with
  | None => set_status email EmailStatusSent
  | Some msg =>
      mkEmail (ID email) (message email) (Priority email) (ScheduledAt email) (MaxRetries email)
        (Metadata email) (CreatedAt email) (Attempts email) msg
        (if MaxRetries email <=? Attempts email then EmailStatusFailed else EmailStatusPending)
  end.

Definition before_send (email : QueuedEmail) : QueuedEmail :=
  mkEmail (ID email) (message email) (Priority email) (ScheduledAt email) (MaxRetries email)
    (Metadata email) (CreatedAt email) (int_add (Attempts email) 1) (LastError email)
    EmailStatusSending.

(** The hooks [onSent] and [onFailed]. *)
Inductive hook :=
| HookSent (email : QueuedEmail)
| HookFailed (email : QueuedEmail) (err : string).

Definition hooks_of (email : QueuedEmail) (err : option string) : list hook :=
  match err with
  | None => [HookSent email]
  | Some msg => if MaxRetries email <=? Attempts email then [HookFailed email msg] else []
  end.

Section queue.
Context {S : Type} `{QueueStore S}.

(** Returns the caller's email, which is completed in place. *)
Definition Queue_Enqueue (s : S) (email : QueuedEmail) (now : Time)
    : S * QueuedEmail * option queue_error :=
  let email := complete email now in
  match qs_Enqueue s email with
  | (s, Some err) => (s, email, Some (EnqueueFailed err))
  | (s, None) => (s, email, None)
  end.

Definition EnqueueMessage (s : S) (msg : Message) (now : Time) : S * result queue_error string :=
  let email := mkEmail "" msg 0 None 0 None zero_time 0 "" StEmpty in
  match Queue_Enqueue s email now with
  | (s, _, Some err) => (s, Err err)
  | (s, email, None) => (s, Ok (ID email))
  end.

Definition EnqueueSimple (s : S) (to subject body : string) (now : Time)
    : S * result queue_error string :=
  EnqueueMessage s (mkMessage [to] subject body "" "" []) now.

Definition EnqueueHTML (s : S) (to subject textBody htmlBody : string) (now : Time)
    : S * result queue_error string :=
  EnqueueMessage s (mkMessage [to] subject textBody htmlBody "" []) now.

Definition Schedule (s : S) (email : QueuedEmail) (at_ now : Time)
    : S * QueuedEmail * option queue_error :=
  Queue_Enqueue s
    (mkEmail (ID email) (message email) (Priority email) (Some at_) (MaxRetries email) (Metadata email)
       (CreatedAt email) (Attempts email) (LastError email) EmailStatusScheduled) now.

(** [Cancel] looks first, and deletes in a call of its own: others run between. *)
Definition Cancel_look (s : S) (id : string) : option queue_error :=
  match qs_Get s id with
  | Err err => Some err
  | Ok email =>
      if bool_decide (Status email = EmailStatusSent) || bool_decide (Status email = EmailStatusSending)
      then Some (CannotCancel (Status email)) else None
  end.

Definition Cancel (s : S) (id : string) : S * option queue_error :=
  match Cancel_look s id with
  | Some err => (s, Some err)
  | None => qs_Delete s id
  end.

(** One call without anything running between its steps: the store, the email
    it tried to send and how that ended, and the hooks called. *)
Definition processNext (s : S) (now : Time) (order : list string) (smtp : Message -> option string)
    : S * option (QueuedEmail * option string) * list hook :=
  match qs_Dequeue s now order with
  | (s, Err _) => (s, None, [])
  | (s, Ok None) => (s, None, [])
  | (s, Ok (Some email)) =>
      let email := before_send email in
      let '(s, _) := qs_Update s email in
      let err := Send smtp (message email) in
      let email' := after_send email err in
      let '(s, _) := qs_Update s email' in
      (s, Some (email, err), hooks_of email' err)
  end.

(** A worker: between two calls to the store or to the sender. *)
Inductive worker :=
| Idle
| Dequeued (email : QueuedEmail)
| Sending (email : QueuedEmail)
| Sent (email : QueuedEmail) (err : option string).

(** The next call of the worker; the email sent, with the outcome, if the call
    is to the sender. *)
Definition worker_step (s : S) (w : worker) (now : Time) (order : list string)
    (smtp : Message -> option string) : S * worker * list (QueuedEmail * option string) :=
  match w with
  | Idle =>
      match qs_Dequeue s now order with
      | (s, Ok (Some email)) => (s, Dequeued email, [])
      | (s, _) => (s, Idle, [])
      end
  | Dequeued email => let email := before_send email in ((qs_Update s email).1, Sending email, [])
  | Sending email => let err := Send smtp (message email) in (s, Sent email err, [(email, err)])
  | Sent email err => ((qs_Update s (after_send email err)).1, Idle, [])
  end.

End queue.

(** ** Starting and stopping *)

Record QueueConfig := mkQueueConfig { Workers : Z; PollInterval : Duration }.

Definition NewQueue_config (cfg : QueueConfig) : QueueConfig :=
  mkQueueConfig (if Workers cfg <=? 0 then 2 else Workers cfg)
    (if PollInterval cfg <=? 0 then 5 * Second else PollInterval cfg).

(** [stop_closed]: whether the current [stopCh] is closed; [live]: the worker
    goroutines that have not returned, which the wait group counts. *)
Record Queue := mkQueue { q_workers : Z; running : bool; stop_closed : bool; live : Z }.

Definition NewQueue (cfg : QueueConfig) : Queue := mkQueue (Workers (NewQueue_config cfg)) false false 0.

Definition Start (q : Queue) : Queue :=
  if running q then q else mkQueue (q_workers q) true false (live q + q_workers q).

(** Up to the wait. *)
Definition Stop_close (q : Queue) : Queue :=
  if negb (running q) then q else mkQueue (q_workers q) false true (live q).

(** What [Stop] then returns, when the context is done or not. *)
Definition Stop_result (q : Queue) (ctx_err : option string) : option (option string) :=
  if live q =? 0 then Some None else match ctx_err with Some e => Some (Some e) | None => None end.

(** A worker at its select reads the channel the field holds at that time. *)
Definition worker_exit (q : Queue) : option Queue :=
  if stop_closed q && (0 <? live q)
  then Some (mkQueue (q_workers q) (running q) (stop_closed q) (live q - 1)) else None.

(** ** The system *)

(** The store, the workers, the emails handed to the sender so far, the last one
    first, with their outcome, and the IDs that calls of [Cancel] have looked at and
    are about to delete. *)
Record system := mkSystem {
  store : MemoryQueueStore;
  workers : list worker;
  log : list (QueuedEmail * option string);
  cancelling : list string
}.

(** What was enqueued so far under an ID: the attempts and the retries of each
    email. *)
Abbreviation enqueued := (gmap string (list (Z * Z))).

Definition under (used : enqueued) (id : string) : list (Z * Z) := default [] (used !! id).

(** Callers enqueue whatever they like, under an ID of their own or not, with any
    status, and under an ID that is in use; only the numbers are those of Go, the
    attempts not the very last of them. *)
Inductive q_step : enqueued * system -> enqueued * system -> Prop :=
| step_enqueue used s email now st' email' :
    Queue_Enqueue (store s) email now = (st', email', None) ->
    in_int64 (Attempts email + 1) = true -> in_int64 (MaxRetries email) = true ->
    q_step (used, s) (<[ID email' := (Attempts email', MaxRetries email') :: under used (ID email')]> used,
                      mkSystem st' (workers s) (log s) (cancelling s))
| step_cancel_look used s id :
    Cancel_look (store s) id = None ->
    q_step (used, s) (used, mkSystem (store s) (workers s) (log s) (id :: cancelling s))
| step_cancel_delete used s ids id ids' :
    cancelling s = (ids ++ id :: ids')%list ->
    q_step (used, s) (used, mkSystem (MQ_Delete (store s) id).1 (workers s) (log s) (ids ++ ids')%list)
| step_cleanup used s now maxAge :
    q_step (used, s) (used, mkSystem (MQ_Cleanup (store s) now maxAge).1 (workers s) (log s) (cancelling s))
| step_worker used s i w now order smtp st' w' sends :
    workers s !! i = Some w ->
    order ≡ₚ (map_to_list (store s)).*1 ->
    worker_step (store s) w now order smtp = (st', w', sends) ->
    q_step (used, s) (used, mkSystem st' (<[i := w']> (workers s)) (sends ++ log s)%list (cancelling s)).

Definition initial (n : nat) : enqueued * system := (∅, mkSystem ∅ (replicate n Idle) [] []).

(** An email that may be sent now: pending, or scheduled for a time that has
    come. *)
Definition due (e : QueuedEmail) (now : Time) : Prop :=
  Status e = EmailStatusPending \/
  (Status e = EmailStatusScheduled /\ forall at_, ScheduledAt e = Some at_ -> at_ <= now).

(** How often an email was handed to the sender, and how often it was sent. *)
Definition tries (id : string) (l : list (QueuedEmail * option string)) : Z :=
  Z.of_nat (length (filter (fun p => ID p.1 = id) l)).

Definition successes (id : string) (l : list (QueuedEmail * option string)) : Z :=
  Z.of_nat (length (filter (fun p => ID p.1 = id /\ p.2 = None) l)).

(** ** The store *)

Lemma ranged_spec s order e :
  order ≡ₚ (map_to_list s).*1 -> e ∈ ranged s order <-> exists id, s !! id = Some e.
Proof.
  intros Ho. unfold ranged. rewrite list_elem_of_omap. split.
  - intros (id & _ & He). by exists id.
  - intros [id He]. exists id. split; [|done]. rewrite Ho.
    apply list_elem_of_fmap. exists (id, e). split; [done|]. by apply elem_of_map_to_list.
Qed.

Lemma ready_due e now : ready e now = true <-> due e now.
Proof.
  unfold ready, due, time_After. destruct (Status e); try (split; [discriminate|intuition discriminate]).
  - split; auto.
  - destruct (ScheduledAt e) as [at_|]; split.
    + intros H. right. split; [done|]. intros t [= <-]. lia.
    + intros [|[_ H]]; [done|]. specialize (H at_ eq_refl). lia.
    + intros _. right. done.
    + done.
Qed.

(** [better] orders the emails by priority, then by age. *)
Lemma better_trans a b c :
  better a b = false -> better b c = false -> better a c = false.
Proof. unfold better, time_Before. rewrite !orb_false_iff, !andb_false_iff. lia. Qed.

Lemma better_asym a b : better a b = true -> better b a = false.
Proof. unfold better, time_Before. rewrite orb_true_iff, andb_true_iff, orb_false_iff, andb_false_iff. lia. Qed.

Lemma dequeue_fold now l acc :
  (match acc with Some o => ready o now = true | None => True end) ->
  match foldl (dequeue_step now) acc l with
  | None => acc = None /\ forall e, e ∈ l -> ready e now = false
  | Some o =>
      ready o now = true /\ (o ∈ l \/ acc = Some o) /\
      (forall e, e ∈ l -> ready e now = true -> better e o = false) /\
      (forall a, acc = Some a -> better a o = false)
  end.
Proof.
  revert acc. induction l as [|e l IH]; intros acc Hacc; cbn [foldl].
  - destruct acc as [o|].
    + split; [done|]. split; [by right|]. split; [intros e He; by apply elem_of_nil in He|].
      intros a Ha. simplify_eq. unfold better, time_Before. lia.
    + split; [done|]. intros e He. by apply elem_of_nil in He.
  - set (acc' := dequeue_step now acc e).
    assert (match acc' with Some o => ready o now = true | None => True end) as Hacc'.
    { unfold acc', dequeue_step. destruct (ready e now) eqn:Hr; cbn [negb]; [|done].
      destruct acc as [o|]; [|done]. by destruct (better e o). }
    specialize (IH acc' Hacc'). unfold acc', dequeue_step in *. clear acc' Hacc'.
    destruct (ready e now) eqn:Hr; cbn [negb] in *.
    + destruct acc as [a|].
      * destruct (better e a) eqn:Hb.
        -- destruct (foldl _ _ l) as [o|]; [|by destruct IH].
           destruct IH as (Ho & Hin & Hl & Hs). specialize (Hs e eq_refl).
           split; [done|]. split; [left; destruct Hin as [Hin| [= ->]]; [by right|by left]|].
           split; [intros x [->|Hx]%elem_of_cons Hrx; auto|].
           intros a' [= ->]. apply (better_trans a' e o); [by apply better_asym|done].
        -- destruct (foldl _ _ l) as [o|]; [|by destruct IH].
           destruct IH as (Ho & Hin & Hl & Hs). specialize (Hs a eq_refl).
           split; [done|]. split; [destruct Hin as [Hin|Hin]; [left; by right|by right]|].
           split; [intros x [->|Hx]%elem_of_cons Hrx; [by apply (better_trans e a o)|auto]|].
           intros a' [= ->]. done.
      * destruct (foldl _ _ l) as [o|]; [|by destruct IH].
        destruct IH as (Ho & Hin & Hl & Hs). specialize (Hs e eq_refl).
        split; [done|]. split; [left; destruct Hin as [Hin| [= ->]]; [by right|by left]|].
        split; [intros x [->|Hx]%elem_of_cons Hrx; auto|]. done.
    + destruct (foldl _ _ l) as [o|].
      * destruct IH as (Ho & Hin & Hl & Hs).
        split; [done|]. split; [destruct Hin as [Hin|Hin]; [left; by right|by right]|].
        split; [intros x [->|Hx]%elem_of_cons Hrx; [congruence|auto]|done].
      * destruct IH as [Hn Hl]. split; [done|]. intros x [->|Hx]%elem_of_cons; auto.
Qed.

(** What [Dequeue] returns, for every order of the map. *)
Lemma MQ_Dequeue_some s now order e :
  order ≡ₚ (map_to_list s).*1 -> MQ_Dequeue s now order = (s, Ok (Some e)) ->
  ready e now = true /\ exists id, s !! id = Some e.
Proof.
  intros Ho Hd. unfold MQ_Dequeue in Hd. pose proof (dequeue_fold now (ranged s order) None I) as H.
  destruct (foldl _ _ _) as [o|]; simplify_eq. destruct H as (Hr & [Hin|] & _); [|done].
  split; [done|]. by apply (ranged_spec s order).
Qed.

(** ** One worker *)

Definition waiting (e : QueuedEmail) : bool :=
  bool_decide (Status e = EmailStatusPending) || bool_decide (Status e = EmailStatusScheduled).

Lemma ready_waiting e now : ready e now = true -> waiting e = true.
Proof. unfold ready, waiting. by destruct (Status e). Qed.

(** A sum over the entries of the log for an ID. *)
Definition counted (c : option string -> Z) (id : string) (l : list (QueuedEmail * option string)) : Z :=
  foldr (fun p n => (if decide (ID p.1 = id) then c p.2 else 0) + n) 0 l.

Definition success (err : option string) : Z := match err with None => 1 | Some _ => 0 end.

Lemma tries_counted id l : tries id l = counted (fun _ => 1) id l.
Proof.
  unfold tries. induction l as [|[e err] l IH]; [done|]. rewrite filter_cons. cbn [fst counted foldr]. fold (counted (fun _ => 1) id l).
  destruct (decide (ID e = id)); cbn [length]; lia.
Qed.

Lemma successes_counted id l : successes id l = counted success id l.
Proof.
  unfold successes. induction l as [|[e err] l IH]; [done|]. rewrite filter_cons. cbn [fst snd counted foldr]. fold (counted success id l).
  destruct (decide (ID e = id)), err; case_decide; cbn [length success]; intuition (done || lia).
Qed.

(** What is allowed under an ID, one share for each enqueued email. *)
Definition total (u : Z -> Z -> Z) (used : enqueued) (id : string) : Z :=
  foldr (fun p n => u p.1 p.2 + n) 0 (under used id).

Definition attempts_left (attempts retries : Z) : Z := Z.max 1 (retries - attempts).
Definition one_chance (attempts retries : Z) : Z := 1.

Lemma total_length used id : total one_chance used id = Z.of_nat (length (under used id)).
Proof. unfold total. induction (under used id) as [|p l IH]; [done|]. cbn [foldr length]. rewrite IH. unfold one_chance. lia. Qed.

Lemma attempts_nonneg a r : 0 <= attempts_left a r.
Proof. unfold attempts_left. lia. Qed.

Lemma total_used u used id p id' :
  total u (<[id := p :: under used id]> used) id' = (if decide (id = id') then u p.1 p.2 else 0) + total u used id'.
Proof.
  unfold total, under at 1. destruct (decide (id = id')) as [->|Hne]; [by rewrite lookup_insert_eq|by rewrite lookup_insert_ne].
Qed.

(** Emails whose attempts can be counted. *)
Definition email_ok (e : QueuedEmail) : Prop :=
  in_int64 (MaxRetries e) = true /\ (waiting e = true -> in_int64 (Attempts e + 1) = true).

Definition worker_ok (w : worker) : Prop :=
  match w with
  | Idle => True
  | Dequeued e => waiting e = true /\ email_ok e
  | Sending e | Sent e _ => in_int64 (MaxRetries e) = true /\ in_int64 (Attempts e) = true /\ waiting e = false
  end.

Definition all_ok (st : MemoryQueueStore) (w : worker) : Prop :=
  (forall id e, st !! id = Some e -> ID e = id /\ email_ok e) /\ worker_ok w.

Lemma MQ_Update_lookup st e id :
  (MQ_Update st e).1 !! id = if decide (ID e = id) then (match st !! id with Some _ => Some e | None => None end) else st !! id.
Proof.
  unfold MQ_Update. destruct (decide (ID e = id)) as [<-|Hne].
  - destruct (st !! ID e) eqn:E; cbn; [by rewrite lookup_insert_eq|done].
  - destruct (st !! ID e) eqn:E; cbn; [by rewrite lookup_insert_ne|done].
Qed.

Lemma update_ok (st : MemoryQueueStore) e :
  (forall id x, st !! id = Some x -> ID x = id /\ email_ok x) -> email_ok e ->
  forall id x, (MQ_Update st e).1 !! id = Some x -> ID x = id /\ email_ok x.
Proof.
  intros Hst He id x. rewrite MQ_Update_lookup. destruct (decide (ID e = id)) as [<-|Hne]; [|apply Hst].
  destruct (st !! ID e); [|done]. by intros [= <-].
Qed.

Lemma after_send_ok e err : worker_ok (Sent e err) -> email_ok (after_send e err).
Proof.
  intros (Hm & Ha & Hw). destruct err as [msg|]; cbn; [|by split]. split; [done|]. unfold waiting. cbn.
  destruct (MaxRetries e <=? Attempts e) eqn:E; [done|]. intros _. unfold in_int64, min_int64, max_int64 in *. lia.
Qed.

Lemma step_ok st w now order smtp st' w' sends :
  all_ok st w -> order ≡ₚ (map_to_list st).*1 -> worker_step st w now order smtp = (st', w', sends) -> all_ok st' w'.
Proof.
  intros [Hst Hw] Ho Hstep. destruct w as [|e|e|e err]; cbn [worker_step qs_Dequeue qs_Update MemoryQueueStore_store] in Hstep.
  - destruct (MQ_Dequeue st now order) as [st1 [[e|]|err]] eqn:Hd; simplify_eq;
      assert (st' = st) as -> by (unfold MQ_Dequeue in Hd; congruence); (split; [done|]); [|done].
    apply MQ_Dequeue_some in Hd as (Hr & id & He); [|done]. cbn. split; [by eapply ready_waiting|]. by eapply Hst.
  - simplify_eq. destruct Hw as (Hwe & Hm & Ha). specialize (Ha Hwe).
    assert (int_add (Attempts e) 1 = Attempts e + 1) as Hadd by by apply wrap64_id.
    split; [by apply update_ok|]. cbn. by rewrite Hadd.
  - simplify_eq. by split.
  - simplify_eq. split; [|done]. apply update_ok; [done|]. by apply after_send_ok.
Qed.

(** *** What is left

    The log counts what was used of an ID's share; what may still be used is in
    the store, in an email that waits, or in the worker's hands.  An email that was
    dequeued overwrites what the store holds under its ID before it is sent, so
    that of the two the larger counts. *)
Section shares.
Context (c : option string -> Z) (u : Z -> Z -> Z) (u_nonneg : forall a r, 0 <= u a r).
Context (c_sent : forall a r, c None <= u a r).
Context (c_failed : forall msg a r, c (Some msg) + (if r <=? a + 1 then 0 else u (a + 1) r) <= u a r).

Definition left (e : QueuedEmail) : Z := if waiting e then u (Attempts e) (MaxRetries e) else 0.

Definition store_left (st : MemoryQueueStore) (id : string) : Z :=
  match st !! id with Some e => left e | None => 0 end.

Definition all_left (st : MemoryQueueStore) (w : worker) (id : string) : Z :=
  match w with
  | Idle => store_left st id
  | Dequeued e => if decide (ID e = id) then Z.max (store_left st id) (left e) else store_left st id
  | Sending e => (if decide (ID e = id) then u (Attempts e - 1) (MaxRetries e) else 0) + store_left st id
  | Sent e err => (if decide (ID e = id) then left (after_send e err) else 0) + store_left st id
  end.

Definition shared (used : enqueued) (st : MemoryQueueStore) (w : worker) (l : list (QueuedEmail * option string)) : Prop :=
  forall id, counted c id l + all_left st w id <= total u used id.

Lemma left_nonneg e : 0 <= left e.
Proof. unfold left. by destruct (waiting e). Qed.

Lemma store_left_nonneg st id : 0 <= store_left st id.
Proof. unfold store_left. destruct (st !! id); [apply left_nonneg|done]. Qed.

Lemma all_left_store st w id : store_left st id <= all_left st w id.
Proof.
  pose proof (store_left_nonneg st id). destruct w as [|e|e|e err]; cbn; [lia|..]; destruct (decide _); try lia.
  - pose proof (u_nonneg (Attempts e - 1) (MaxRetries e)). lia.
  - pose proof (left_nonneg (after_send e err)). lia.
Qed.

Lemma all_left_mono st st' w id d :
  0 <= d -> store_left st' id <= store_left st id + d -> all_left st' w id <= all_left st w id + d.
Proof. intros Hd Hs. destruct w; cbn; try destruct (decide _); lia. Qed.

Lemma subset_left st st' id : st' ⊆ st -> store_left st' id <= store_left st id.
Proof.
  intros Hsub. unfold store_left. destruct (st' !! id) as [e|] eqn:E; [|apply store_left_nonneg].
  by rewrite (lookup_weaken _ _ _ _ E Hsub).
Qed.

Lemma shrink_shared used st st' w l : st' ⊆ st -> shared used st w l -> shared used st' w l.
Proof.
  intros Hsub Hs id. specialize (Hs id). pose proof (subset_left st st' id Hsub).
  pose proof (all_left_mono st st' w id 0). lia.
Qed.

Lemma enqueue_shared used st w l e :
  shared used st w l ->
  shared (<[ID e := (Attempts e, MaxRetries e) :: under used (ID e)]> used) (<[ID e := e]> st) w l.
Proof.
  intros Hs id. specialize (Hs id). rewrite total_used. cbn [fst snd].
  pose proof (u_nonneg (Attempts e) (MaxRetries e)) as Hu. destruct (decide (ID e = id)) as [<-|Hne].
  - pose proof (all_left_mono st (<[ID e := e]> st) w (ID e) (u (Attempts e) (MaxRetries e)) Hu) as Hm.
    unfold store_left at 1 in Hm. rewrite lookup_insert_eq in Hm. pose proof (store_left_nonneg st (ID e)).
    unfold left in Hm. destruct (waiting e); lia.
  - pose proof (all_left_mono st (<[ID e := e]> st) w id 0) as Hm.
    unfold store_left at 1 in Hm. rewrite lookup_insert_ne in Hm by done. unfold store_left in *. lia.
Qed.

Lemma update_left st e id :
  store_left (MQ_Update st e).1 id = if decide (ID e = id) then (match st !! id with Some _ => left e | None => 0 end) else store_left st id.
Proof. unfold store_left. rewrite MQ_Update_lookup. destruct (decide (ID e = id)); [|done]. by destruct (st !! id). Qed.

Lemma step_shared used st w l now order smtp st' w' sends :
  all_ok st w -> order ≡ₚ (map_to_list st).*1 -> worker_step st w now order smtp = (st', w', sends) ->
  shared used st w l -> shared used st' w' (sends ++ l)%list.
Proof.
  intros [Hst Hw] Ho Hstep Hs id. specialize (Hs id).
  destruct w as [|e|e|e err]; cbn [worker_step qs_Dequeue qs_Update MemoryQueueStore_store] in Hstep.
  - destruct (MQ_Dequeue st now order) as [st1 [[e|]|err]] eqn:Hd; simplify_eq;
      assert (st' = st) as -> by (unfold MQ_Dequeue in Hd; congruence); cbn [app]; [|exact Hs].
    apply MQ_Dequeue_some in Hd as (_ & id0 & He); [|done]. destruct (Hst id0 e He) as [<- _].
    cbn [all_left] in *. destruct (decide (ID e = id)) as [<-|Hne]; [|exact Hs].
    unfold store_left in *. rewrite He in *. lia.
  - simplify_eq. destruct Hw as (Hwe & Hm & Ha). specialize (Ha Hwe).
    assert (int_add (Attempts e) 1 = Attempts e + 1) as Hadd by by apply wrap64_id.
    cbn [app all_left] in *. change (ID (before_send e)) with (ID e). change (MaxRetries (before_send e)) with (MaxRetries e).
    change (Attempts (before_send e)) with (int_add (Attempts e) 1). rewrite Hadd.
    replace (Attempts e + 1 - 1) with (Attempts e) by lia. rewrite update_left. change (ID (before_send e)) with (ID e).
    destruct (decide (ID e = id)) as [<-|Hne]; [|lia].
    assert (left (before_send e) = 0) as -> by done.
    assert (left e = u (Attempts e) (MaxRetries e)) as Hl by (unfold left; by rewrite Hwe).
    destruct (st !! ID e); lia.
  - simplify_eq. cbn [app all_left counted foldr fst snd] in *. fold (counted c id l) in *.
    set (err := Send smtp (message e)). destruct (decide (ID e = id)) as [<-|Hne]; [|lia].
    destruct err as [msg|] eqn:Eerr.
    + pose proof (c_failed msg (Attempts e - 1) (MaxRetries e)) as Hc. replace (Attempts e - 1 + 1) with (Attempts e) in Hc by lia.
      assert (left (after_send e (Some msg)) = if MaxRetries e <=? Attempts e then 0 else u (Attempts e) (MaxRetries e)) as ->
        by (unfold left, waiting; cbn [after_send Status Attempts MaxRetries]; by destruct (MaxRetries e <=? Attempts e)).
      lia.
    + pose proof (c_sent (Attempts e - 1) (MaxRetries e)).
      assert (left (after_send e None) = 0) as -> by done. lia.
  - simplify_eq. cbn [app all_left] in *. rewrite update_left.
    assert (ID (after_send e err) = ID e) as -> by by destruct err.
    destruct (decide (ID e = id)) as [<-|Hne]; [|lia]. pose proof (left_nonneg (after_send e err)).
    pose proof (store_left_nonneg st (ID e)). destruct (st !! ID e); lia.
Qed.
End shares.

(** *** Reachable states *)

Definition inv (x : enqueued * system) (w : worker) : Prop :=
  all_ok (store x.2) w /\
  shared (fun _ => 1) attempts_left x.1 (store x.2) w (log x.2) /\
  shared success one_chance x.1 (store x.2) w (log x.2).

Lemma attempts_failed (msg : string) a r : 1 + (if r <=? a + 1 then 0 else attempts_left (a + 1) r) <= attempts_left a r.
Proof. unfold attempts_left. destruct (r <=? a + 1) eqn:E; lia. Qed.

Lemma chance_failed msg a r : success (Some msg) + (if r <=? a + 1 then 0 else one_chance (a + 1) r) <= one_chance a r.
Proof. unfold success, one_chance. destruct (r <=? a + 1); lia. Qed.

Lemma chance_nonneg a r : 0 <= one_chance a r.
Proof. unfold one_chance. lia. Qed.

Lemma inv_shrink used s st' w ids :
  st' ⊆ store s -> inv (used, s) w -> inv (used, mkSystem st' (workers s) (log s) ids) w.
Proof.
  intros Hsub ([Hst Hw] & H1 & H2). split; [split; [|done]|split].
  - intros id e He. apply Hst. by eapply lookup_weaken.
  - eapply shrink_shared; [apply attempts_nonneg|exact Hsub|exact H1].
  - eapply shrink_shared; [apply chance_nonneg|exact Hsub|exact H2].
Qed.

Lemma MQ_Delete_subseteq st id : (MQ_Delete st id).1 ⊆ st.
Proof. unfold MQ_Delete. destruct (st !! id); [apply delete_subseteq|done]. Qed.

Lemma complete_ok email now :
  in_int64 (Attempts email + 1) = true -> in_int64 (MaxRetries email) = true -> email_ok (complete email now).
Proof. intros Ha Hm. split; [|done]. cbn. by destruct (MaxRetries email =? 0). Qed.

Lemma inv_step x y w :
  q_step x y -> workers x.2 = [w] -> inv x w -> exists w', workers y.2 = [w'] /\ inv y w'.
Proof.
  intros Hstep Hw Hinv. destruct Hstep as [used s email now st' email' He Ha Hm|used s id Hl|used s ids id ids' Hc|used s now maxAge
    |used s i w0 now order smtp st' w' sends Hi Ho Hs]; cbn [fst snd workers store log] in *.
  - exists w. split; [done|]. destruct Hinv as ([Hst Hok] & H1 & H2). 
    change (Queue_Enqueue (store s) email now) with
      (<[ID (complete email now) := complete email now]> (store s), complete email now, @None queue_error) in He.
    injection He as <- <-. unfold inv. cbn [fst snd store log].
    split; [split; [|done]|split].
    + intros id e [[<- <-]|[_ Hx]]%lookup_insert_Some; [|by apply Hst]. split; [done|]. by apply complete_ok.
    + apply (enqueue_shared _ _ attempts_nonneg _ _ _ _ (complete email now)). exact H1.
    + apply (enqueue_shared _ _ chance_nonneg _ _ _ _ (complete email now)). exact H2.
  - exists w. split; [done|]. by apply (inv_shrink used s (store s)).
  - exists w. split; [done|]. apply inv_shrink; [apply MQ_Delete_subseteq|done].
  - exists w. split; [done|]. apply inv_shrink; [apply map_filter_subseteq|done].
  - rewrite Hw in *. destruct i as [|i]; [|done]. cbn in Hi. injection Hi as <-.
    exists w'. split; [done|]. destruct Hinv as (Hok & H1 & H2). split; [by eapply step_ok|]. split.
    + eapply step_shared; [apply attempts_nonneg|intros a r; unfold attempts_left; lia|apply attempts_failed|exact Hok|exact Ho|exact Hs|exact H1].
    + eapply step_shared; [apply chance_nonneg|intros a r; done|apply chance_failed|exact Hok|exact Ho|exact Hs|exact H2].
Qed.

Lemma inv_reachable x : rtc q_step (initial 1) x -> exists w, workers x.2 = [w] /\ inv x w.
Proof.
  apply (rtc_ind_r (fun x => exists w, workers x.2 = [w] /\ inv x w)).
  - exists Idle. split; [done|]. split; [split; [|done]|split]; [intros id e He; cbn in He; by rewrite lookup_empty in He|..];
      intros id; cbn; unfold store_left; by rewrite lookup_empty.
  - intros y z _ Hstep (w & Hw & Hy). by apply (inv_step y z w).
Qed.

(** ** Lists and statistics *)

(** The emails of the page that starts at an offset. *)
Definition page (f : QueueFilter) (skipped : Z) (n : Z) (l : list QueuedEmail) : list QueuedEmail :=
  let l := drop (Z.to_nat (f_Offset f - skipped)) (filter (fun e => filter_match f e = true) l) in
  if 0 <? f_Limit f then take (Z.to_nat (f_Limit f - n)) l else l.

Lemma list_loop_page f emails skipped result :
  0 <= skipped -> skipped = 0 \/ skipped <= f_Offset f ->
  (skipped < f_Offset f -> result = []) ->
  list_loop f skipped result emails =
  (result ++ page f skipped (Z.of_nat (length result)) emails)%list.
Proof.
  revert skipped result. induction emails as [|e emails IH]; intros skipped result H0 Hs Hr.
  { unfold page. cbn. rewrite drop_nil. destruct (0 <? f_Limit f); rewrite ?take_nil; by rewrite app_nil_r. }
  cbn [list_loop]. unfold page. rewrite filter_cons. destruct (filter_match f e) eqn:Hm; cbn [negb].
  2: { rewrite decide_False by done. by apply IH. }
  rewrite decide_True by done. destruct ((0 <? f_Offset f) && (skipped <? f_Offset f)) eqn:Hsk.
  - rewrite IH by (first [lia | intros; apply Hr; lia]). unfold page. assert (skipped < f_Offset f) as Hlt by lia.
    replace (Z.to_nat (f_Offset f - skipped)) with (S (Z.to_nat (f_Offset f - (skipped + 1)))) by lia.
    done.
  - replace (Z.to_nat (f_Offset f - skipped)) with 0%nat by lia. rewrite drop_0.
    destruct ((0 <? f_Limit f) && (f_Limit f <=? Z.of_nat (length result))) eqn:Hlim.
    + replace (0 <? f_Limit f) with true by lia.
      replace (Z.to_nat (f_Limit f - Z.of_nat (length result))) with 0%nat by lia.
      by rewrite take_0, app_nil_r.
    + rewrite IH by lia. unfold page.
      replace (Z.to_nat (f_Offset f - skipped)) with 0%nat by lia. rewrite drop_0, length_app. cbn [length].
      destruct (0 <? f_Limit f) eqn:E; rewrite <- app_assoc; cbn [app]; [|done].
      replace (Z.to_nat (f_Limit f - Z.of_nat (length result)))
        with (S (Z.to_nat (f_Limit f - Z.of_nat (length result + 1)))) by lia.
      done.
Qed.

Lemma count_fold l st :
  let r := foldl count_email st l in
  n_Total r = n_Total st + Z.of_nat (length l) /\
  n_Pending r = n_Pending st + Z.of_nat (length (filter (fun e => Status e = EmailStatusPending) l)) /\
  n_Scheduled r = n_Scheduled st + Z.of_nat (length (filter (fun e => Status e = EmailStatusScheduled) l)) /\
  n_Sending r = n_Sending st + Z.of_nat (length (filter (fun e => Status e = EmailStatusSending) l)) /\
  n_Sent r = n_Sent st + Z.of_nat (length (filter (fun e => Status e = EmailStatusSent) l)) /\
  n_Failed r = n_Failed st + Z.of_nat (length (filter (fun e => Status e = EmailStatusFailed) l)).
Proof.
  revert st. induction l as [|e l IH]; intros [p sc sd se f t]; cbn [foldl].
  - cbn. lia.
  - destruct (IH (count_email (mkStats p sc sd se f t) e)) as (H1 & H2 & H3 & H4 & H5 & H6).
    cbv zeta in *. rewrite H1, H2, H3, H4, H5, H6. rewrite !filter_cons.
    unfold count_email. destruct (Status e) eqn:Hs; cbn;
      repeat (first [rewrite decide_True by congruence | rewrite decide_False by congruence]);
      cbn [length]; lia.
Qed.

(** ** Theorems *)

(** C1. With one worker every enqueued email is sent at most once: in every
    reachable state, whatever callers enqueue (with any status and attempts, under
    new IDs or again under old ones), cancel and clean up between the worker's
    calls, however they interleave with the two halves of a cancellation and
    however the sender failed, the sender has taken an ID at most as often as it was
    enqueued, and has been handed it at most so often as the enqueued emails had
    attempts left, at least one each; so at most [max 1 MaxRetries] times for an
    email enqueued once, with no attempts made. *)
Theorem one_worker_at_most_once (used : enqueued) s id :
  rtc q_step (initial 1) (used, s) ->
  successes id (log s) <= Z.of_nat (length (under used id)) /\
  tries id (log s) <= total (fun attempts retries => Z.max 1 (retries - attempts)) used id.
Proof.
  intros (w & _ & _ & Ht & Hs)%inv_reachable. specialize (Ht id). specialize (Hs id). cbn [fst snd] in *.
  pose proof (all_left_store attempts_left attempts_nonneg (store s) w id).
  pose proof (all_left_store one_chance chance_nonneg (store s) w id).
  pose proof (store_left_nonneg attempts_left attempts_nonneg (store s) id).
  pose proof (store_left_nonneg one_chance chance_nonneg (store s) id).
  rewrite tries_counted, successes_counted, <- total_length. fold attempts_left. lia.
Qed.

(** An email as a caller makes it, and a server that takes everything. *)
Definition sample_email : QueuedEmail :=
  mkEmail "a" (mkMessage ["x@y.z"] "s" "t" "" "" []) 0 None 1 None 5 0 "" StEmpty.

Definition sample_complete : QueuedEmail := complete sample_email 7.

Definition sample_sending : QueuedEmail := before_send sample_complete.

Definition accept (msg : Message) : option string := None.

Definition sample_used : enqueued := {["a" := [(0, 1)]]}.

(** The states of a run with [n] workers of which the first sends the sample. *)
Definition sample_store (e : QueuedEmail) : MemoryQueueStore := {["a" := e]}.

Lemma worker_goes used st ws l i w now order smtp st' w' sends :
  ws !! i = Some w -> order ≡ₚ (map_to_list st).*1 ->
  worker_step st w now order smtp = (st', w', sends) ->
  q_step (used, mkSystem st ws l []) (used, mkSystem st' (<[i := w']> ws) (sends ++ l)%list []).
Proof. intros Hw Ho Hs. by apply (step_worker used (mkSystem st ws l []) i w now order smtp). Defined.

(** Worker [i] goes to [w'], with the store holding [e]. *)
Ltac worker_go i e w' sends :=
  eapply rtc_l;
  [ eapply (worker_goes _ _ _ _ i _ 9 ["a"] accept (sample_store e) w' sends);
    [ reflexivity | vm_compute; reflexivity | vm_compute; reflexivity ] |];
  cbn [app insert list_insert].

Lemma sample_run_start n :
  q_step (initial n)
    (sample_used, mkSystem (sample_store (complete sample_email 7)) (replicate n Idle) [] []).
Proof. exact (step_enqueue ∅ (mkSystem ∅ (replicate n Idle) [] []) sample_email 7 _ (complete sample_email 7) eq_refl eq_refl eq_refl). Defined.

Lemma one_worker_at_most_once_witness :
  exists (used : enqueued) s, successes "a" (log s) = 1 /\
    successes "a" (log s) <= Z.of_nat (length (under used "a")) /\
    tries "a" (log s) <= total (fun attempts retries => Z.max 1 (retries - attempts)) used "a".
Proof.
  exists sample_used,
    (mkSystem (sample_store (after_send sample_sending None)) [Idle] [(sample_sending, None)] []).
  split; [vm_compute; reflexivity|].
  apply (one_worker_at_most_once sample_used _ "a").
  eapply rtc_l; [apply (sample_run_start 1)|].
  worker_go 0%nat sample_complete (Dequeued sample_complete) (@nil (QueuedEmail * option string)).
  worker_go 0%nat sample_sending (Sending sample_sending) (@nil (QueuedEmail * option string)).
  worker_go 0%nat sample_sending (Sent sample_sending None) [(sample_sending, @None string)].
  worker_go 0%nat (after_send sample_sending None) Idle (@nil (QueuedEmail * option string)).
  apply rtc_refl.
Defined.

(** With two workers, the default, an email can be sent twice: [Dequeue] leaves
    the email pending, so that the second worker dequeues it before the first has
    marked it as being sent. *)
Theorem two_workers_send_twice :
  exists (used : enqueued) s, rtc q_step (initial 2) (used, s) /\ tries "a" (log s) = 2 /\
    successes "a" (log s) = 2.
Proof.
  eexists sample_used, (mkSystem _ _ [(sample_sending, None); (sample_sending, None)] []).
  split; [|split; vm_compute; reflexivity].
  eapply rtc_l; [apply (sample_run_start 2)|].
  worker_go 0%nat sample_complete (Dequeued sample_complete) (@nil (QueuedEmail * option string)).
  worker_go 1%nat sample_complete (Dequeued sample_complete) (@nil (QueuedEmail * option string)).
  worker_go 0%nat sample_sending (Sending sample_sending) (@nil (QueuedEmail * option string)).
  worker_go 1%nat sample_sending (Sending sample_sending) (@nil (QueuedEmail * option string)).
  worker_go 0%nat sample_sending (Sent sample_sending None) [(sample_sending, @None string)].
  worker_go 1%nat sample_sending (Sent sample_sending None) [(sample_sending, @None string)].
  apply rtc_refl.
Qed.

(** A cancelled email can still be sent: the worker holds a copy. *)
Theorem cancelled_email_sent :
  exists (used : enqueued) s (used' : enqueued) s',
    rtc q_step (initial 1) (used, s) /\ (Cancel (store s) "a").2 = None /\
    rtc q_step (used, mkSystem (Cancel (store s) "a").1 (workers s) (log s) []) (used', s') /\
    store s' = ∅ /\ successes "a" (log s) = 0 /\ successes "a" (log s') = 1.
Proof.
  exists sample_used, (mkSystem (sample_store sample_complete) [Dequeued sample_complete] [] []), sample_used,
    (mkSystem ∅ [Sent sample_sending None] [(sample_sending, None)] []).
  split.
  { eapply rtc_l; [apply (sample_run_start 1)|].
    worker_go 0%nat sample_complete (Dequeued sample_complete) (@nil (QueuedEmail * option string)).
    apply rtc_refl. }
  split; [vm_compute; reflexivity|]. split; [|split; [done|split; vm_compute; reflexivity]].
  change (Cancel _ _).1 with (∅ : MemoryQueueStore).
  eapply rtc_l.
  { apply (worker_goes _ ∅ [Dequeued sample_complete] [] 0 _ 9 [] accept ∅ (Sending sample_sending) [] eq_refl);
      vm_compute; reflexivity. }
  eapply rtc_l.
  { apply (worker_goes _ ∅ [Sending sample_sending] [] 0 _ 9 [] accept ∅ (Sent sample_sending None)
      [(sample_sending, None)] eq_refl); vm_compute; reflexivity. }
  apply rtc_refl.
Qed.

(** C21. [Dequeue] returns the right email for every order of the map: one that is
    ready, and such that no ready email has a higher priority, or the same and
    an earlier creation; it returns none only when none is ready. *)
Theorem MQ_Dequeue_spec s now order :
  order ≡ₚ (map_to_list s).*1 ->
  exists r, MQ_Dequeue s now order = (s, Ok r) /\
    match r with
    | Some o =>
        due o now /\ (exists id, s !! id = Some o) /\
        forall id e, s !! id = Some e -> due e now ->
          Priority e < Priority o \/ (Priority e = Priority o /\ CreatedAt o <= CreatedAt e)
    | None => forall id e, s !! id = Some e -> ~ due e now
    end.
Proof.
  intros Ho. eexists. split; [done|].
  pose proof (dequeue_fold now (ranged s order) None I) as H.
  destruct (foldl _ _ _) as [o|].
  - destruct H as (Hr & [Hin|] & Hall & _); [|done].
    split; [by apply ready_due|]. split; [by apply (ranged_spec s order)|].
    intros id e He Hre%ready_due. assert (e ∈ ranged s order) as Hein by (apply (ranged_spec s order); eauto).
    specialize (Hall e Hein Hre). unfold better, time_Before in Hall.
    rewrite orb_false_iff, andb_false_iff in Hall. lia.
  - destruct H as [_ Hall]. intros id e He Hre%ready_due.
    assert (ready e now = false) by (apply Hall, (ranged_spec s order); eauto). congruence.
Qed.

Lemma MQ_Dequeue_spec_witness :
  let s := sample_store (complete sample_email 7) in
  exists r, MQ_Dequeue s 9 ["a"] = (s, Ok r) /\
    match r with
    | Some o =>
        due o 9 /\ (exists id, s !! id = Some o) /\
        forall id e, s !! id = Some e -> due e 9 ->
          Priority e < Priority o \/ (Priority e = Priority o /\ CreatedAt o <= CreatedAt e)
    | None => forall id e, s !! id = Some e -> ~ due e 9
    end.
Proof. intros s. apply (MQ_Dequeue_spec s 9 ["a"]). vm_compute. reflexivity. Defined.

(** Undisturbed, the steps of a worker are one call of [processNext]: for every
    store, four steps from idle leave the store as [processNext] does, hand the
    same email to the sender with the same outcome, and end idle. *)
Theorem worker_steps_processNext {S : Type} `{QueueStore S} (s : S) now order smtp :
  match worker_step s Idle now order smtp with
  | (s1, Dequeued e, _) =>
      let '(s2, w2, _) := worker_step s1 (Dequeued e) now order smtp in
      let '(s3, w3, sends) := worker_step s2 w2 now order smtp in
      let '(s4, w4, _) := worker_step s3 w3 now order smtp in
      w4 = Idle /\ exists sent, sends = [sent] /\ (processNext s now order smtp).1 = (s4, Some sent)
  | (s1, w1, _) => w1 = Idle /\ processNext s now order smtp = (s1, None, [])
  end.
Proof.
  unfold processNext. cbn [worker_step]. destruct (qs_Dequeue s now order) as [s1 [[e|]|err]]; [|done|done].
  destruct (qs_Update s1 (before_send e)) as [s2 err2] eqn:E2. cbn [fst].
  set (err := Send smtp (message (before_send e))).
  destruct (qs_Update s2 (after_send (before_send e) err)) as [s4 err4] eqn:E4. cbn [fst].
  split; [done|]. by exists (before_send e, err).
Qed.

(** A message the server never takes is tried [MaxRetries] times in all, once at
    least, and then failed: after [n] calls it has been tried [n] times and is
    pending while [n] is smaller, and the last error is kept. *)
Theorem processNext_gives_up e now smtp msg (n : nat) :
  Status e = EmailStatusPending -> Attempts e = 0 -> in_int64 (MaxRetries e) = true ->
  Send smtp (message e) = Some msg -> 1 <= Z.of_nat n <= Z.max 1 (MaxRetries e) ->
  Nat.iter n (fun s : MemoryQueueStore => (processNext s now [ID e] smtp).1.1) {[ID e := e]} =
  {[ID e := mkEmail (ID e) (message e) (Priority e) (ScheduledAt e) (MaxRetries e) (Metadata e)
     (CreatedAt e) (Z.of_nat n) msg
     (if Z.of_nat n =? Z.max 1 (MaxRetries e) then EmailStatusFailed else EmailStatusPending)]}.
Proof.
  intros Hst Ha Hmr Hsend. unfold in_int64, min_int64, max_int64 in Hmr.
  assert (forall x : QueuedEmail, ID x = ID e -> message x = message e -> MaxRetries x = MaxRetries e ->
    Status x = EmailStatusPending -> 0 <= Attempts x <= MaxRetries e \/ Attempts x = 0 -> Attempts x < max_int64 ->
    (processNext ({[ID e := x]} : MemoryQueueStore) now [ID e] smtp).1.1 =
    {[ID e := mkEmail (ID e) (message e) (Priority x) (ScheduledAt x) (MaxRetries e) (Metadata x)
       (CreatedAt x) (Attempts x + 1) msg
       (if MaxRetries e <=? Attempts x + 1 then EmailStatusFailed else EmailStatusPending)]}) as Hone.
  { intros x Hid Hm Hr Hs Hn Hmax. unfold processNext. cbn [qs_Dequeue qs_Update MemoryQueueStore_store].
    unfold MQ_Dequeue, ranged. cbn [omap list_omap foldl]. rewrite lookup_singleton_eq. cbn [foldl].
    unfold dequeue_step, ready at 1. rewrite Hs. cbn [negb].
    unfold MQ_Update at 1. change (ID (before_send x)) with (ID x). rewrite Hid, lookup_singleton_eq.
    change (message (before_send x)) with (message x). rewrite Hm, Hsend.
    unfold MQ_Update. cbn [after_send ID before_send]. rewrite Hid, insert_singleton_eq, lookup_singleton_eq.
    cbn [fst]. rewrite insert_singleton_eq. unfold before_send.
    cbn [ID message Priority ScheduledAt MaxRetries Metadata CreatedAt Attempts].
    assert (int_add (Attempts x) 1 = Attempts x + 1) as ->
      by (apply wrap64_id; unfold in_int64, min_int64, max_int64 in *; lia).
    by rewrite Hm, Hr. }
  induction n as [|n IH]; intros Hn; [lia|]. rewrite Nat.iter_succ.
  destruct (decide (n = 0%nat)) as [->|Hne].
  - cbn [Nat.iter nat_rect]. rewrite Hone; try done; [|rewrite Ha; lia|rewrite Ha; unfold max_int64; lia].
    rewrite Ha. change (0 + 1) with (Z.of_nat 1).
    destruct (MaxRetries e <=? Z.of_nat 1) eqn:E1, (Z.of_nat 1 =? Z.max 1 (MaxRetries e)) eqn:E2; done || lia.
  - rewrite IH by lia. replace (Z.of_nat n =? Z.max 1 (MaxRetries e)) with false by lia.
    rewrite Hone; cbn [ID message MaxRetries Status Attempts Priority ScheduledAt Metadata CreatedAt];
      try done; [|lia|unfold max_int64; lia].
    replace (Z.of_nat n + 1) with (Z.of_nat (S n)) by lia.
    destruct (MaxRetries e <=? Z.of_nat (S n)) eqn:E1, (Z.of_nat (S n) =? Z.max 1 (MaxRetries e)) eqn:E2;
      done || lia.
Qed.

Lemma processNext_gives_up_witness :
  Nat.iter 1 (fun s : MemoryQueueStore => (processNext s 9 ["a"] (fun _ => Some "down")).1.1)
    {["a" := sample_complete]} =
  {["a" := mkEmail "a" (message sample_complete) 0 None 1 None 5 1 "down" EmailStatusFailed]}.
Proof.
  apply (processNext_gives_up sample_complete 9 (fun _ => Some "down") "down" 1);
    first [reflexivity | vm_compute; split; discriminate].
Defined.

(** [List] returns a page: of the emails that match the filter, in the order
    the map is ranged over, those after the offset, up to the limit if there is
    one; and [Stats] counts, for each status, the emails that have it, and in
    the total all of them. *)
Theorem MQ_List_Stats_spec s order f :
  MQ_List s order f =
    Ok (let l := drop (Z.to_nat (f_Offset f)) (filter (fun e => filter_match f e = true) (ranged s order)) in
        if 0 <? f_Limit f then take (Z.to_nat (f_Limit f)) l else l) /\
  exists st, MQ_Stats s = Ok st /\
    let count status := Z.of_nat (length (filter (fun e => Status e = status) ((map_to_list s).*2))) in
    n_Pending st = count EmailStatusPending /\ n_Scheduled st = count EmailStatusScheduled /\
    n_Sending st = count EmailStatusSending /\ n_Sent st = count EmailStatusSent /\
    n_Failed st = count EmailStatusFailed /\ n_Total st = Z.of_nat (size s).
Proof.
  split.
  - unfold MQ_List. rewrite list_loop_page by (lia || done). cbn [app]. unfold page.
    by rewrite !Z.sub_0_r.
  - eexists. split; [done|].
    destruct (count_fold (map_to_list s).*2 (mkStats 0 0 0 0 0 0)) as (H1 & H2 & H3 & H4 & H5 & H6).
    cbv zeta in *. rewrite H1, H2, H3, H4, H5, H6. cbn [n_Pending n_Scheduled n_Sending n_Sent n_Failed n_Total].
    rewrite length_fmap, length_map_to_list. repeat split.
Qed.

(** Pages do not add up: the order may change between two calls, so that the
    second page repeats the first and an email is on neither. *)
Theorem MQ_List_unstable :
  exists (s : MemoryQueueStore) o1 o2 e,
    o1 ≡ₚ (map_to_list s).*1 /\ o2 ≡ₚ (map_to_list s).*1 /\ size s = 2%nat /\
    MQ_List s o1 (mkFilter StEmpty 1 0 None) = Ok [e] /\
    MQ_List s o2 (mkFilter StEmpty 1 1 None) = Ok [e].
Proof.
  pose (b := mkEmail "b" (message sample_email) 0 None 1 None 5 0 "" EmailStatusPending).
  exists (<["b" := b]> (sample_store sample_complete)), ["a"; "b"], ["b"; "a"], sample_complete.
  assert ((map_to_list (<["b" := b]> (sample_store sample_complete))).*1 = ["a"; "b"] \/
          (map_to_list (<["b" := b]> (sample_store sample_complete))).*1 = ["b"; "a"]) as Hl
    by (vm_compute; auto).
  assert (["a"; "b"] ≡ₚ ["b"; "a"]) as Hp by constructor.
  split; [|split; [|split; [done|split; done]]].
  - by destruct Hl as [-> | ->].
  - by destruct Hl as [-> | ->].
Qed.

(** A [Stop] whose context ends before the workers do, followed by [Start], doubles
    the workers: an old worker at its select reads the new channel. *)
Theorem Stop_Start_leak cfg :
  let q := Start (NewQueue cfg) in
  let q' := Start (Stop_close q) in
  Stop_result (Stop_close q) (Some "timeout") = Some (Some "timeout") /\
  running q' = true /\ live q' = 2 * q_workers q' /\ worker_exit q' = None.
Proof.
  cbv zeta. unfold NewQueue, NewQueue_config. cbn.
  destruct (Workers cfg <=? 0) eqn:E; cbn; [done|].
  unfold Stop_result. cbn. replace (0 + Workers cfg) with (Workers cfg) by lia.
  replace (Workers cfg =? 0) with false by lia. split; [done|]. split; [done|]. split; [lia|done].
Qed.
