(* ===== verification/Base64.v ===== *)
(** * Base64 (package [encoding/base64])

    [RawURLEncoding]: the alphabet for URLs, without padding; [RawStdEncoding]: the
    other alphabet; [StdEncoding]: that with padding.  As Go's do, the decoders skip
    line ends and ignore the bits of the last character that stand for nothing. *)

From S2P Require Import Prelude GoStrings.

(** ** Definitions *)

Definition b64_byte (v : Z) : ascii :=
  byte_of_code
    (if v <? 26 then 65 + v
     else if v <? 52 then 97 + (v - 26)
     else if v <? 62 then 48 + (v - 52)
     else if v =? 62 then 45 else 95).

Definition b64_value (c : ascii) : option Z :=
  let n := byte_code c in
  if (65 <=? n) && (n <=? 90) then Some (n - 65)
  else if (97 <=? n) && (n <=? 122) then Some (n - 97 + 26)
  else if (48 <=? n) && (n <=? 57) then Some (n - 48 + 52)
  else if n =? 45 then Some 62
  else if n =? 95 then Some 63 else None.

Fixpoint b64_encode (s : string) : string :=
  match s with
  | "" => ""
  | String a "" =>
      let v := byte_code a * 65536 in
      String (b64_byte (v / 262144)) (String (b64_byte (v / 4096 mod 64)) "")
  | String a (String b "") =>
      let v := byte_code a * 65536 + byte_code b * 256 in
      String (b64_byte (v / 262144)) (String (b64_byte (v / 4096 mod 64))
        (String (b64_byte (v / 64 mod 64)) ""))
  | String a (String b (String c rest)) =>
      let v := byte_code a * 65536 + byte_code b * 256 + byte_code c in
      String (b64_byte (v / 262144)) (String (b64_byte (v / 4096 mod 64))
        (String (b64_byte (v / 64 mod 64)) (String (b64_byte (v mod 64)) (b64_encode rest))))
  end.

(** The values of the characters; the decoder skips CR and LF. *)
Fixpoint b64_values (s : string) : option (list Z) :=
  match s with
  | "" => Some []
  | String c s =>
      if (byte_code c =? 10) || (byte_code c =? 13) then b64_values s
      else
        match b64_value c, b64_values s with
        | Some v, Some vs => Some (v :: vs)
        | _, _ => None
        end
  end.

Fixpoint b64_bytes (vs : list Z) : option string :=
  match vs with
  | [] => Some ""
  | [_] => None
  | [v1; v2] => Some (String (byte_of_code (v1 * 4 + v2 / 16)) "")
  | [v1; v2; v3] =>
      Some (String (byte_of_code (v1 * 4 + v2 / 16))
        (String (byte_of_code (v2 mod 16 * 16 + v3 / 4)) ""))
  | v1 :: v2 :: v3 :: v4 :: rest =>
      match b64_bytes rest with
      | Some s =>
          Some (String (byte_of_code (v1 * 4 + v2 / 16))
            (String (byte_of_code (v2 mod 16 * 16 + v3 / 4))
              (String (byte_of_code (v3 mod 4 * 64 + v4)) s)))
      | None => None
      end
  end.

Definition b64_decode (s : string) : option string :=
  match b64_values s with Some vs => b64_bytes vs | None => None end.

(** ** Standard base64 without padding *)

Definition url_to_std (c : ascii) : ascii := if Ascii.eqb c "-" then "+"%char else if Ascii.eqb c "_" then "/"%char else c.
Definition std_to_url (c : ascii) : ascii := if Ascii.eqb c "+" then "-"%char else if Ascii.eqb c "/" then "_"%char else c.

(** [base64.RawStdEncoding]: the other alphabet. *)
Definition std_encode (s : string) : string := string_map url_to_std (b64_encode s).
Definition std_decode (s : string) : option string :=
  if string_has "-" s || string_has "_" s then None else b64_decode (string_map std_to_url s).

(** [base64.StdEncoding]: with padding to a multiple of four characters. *)
Fixpoint drop_newlines (s : string) : string :=
  match s with
  | "" => ""
  | String c s => if (byte_code c =? 10) || (byte_code c =? 13) then drop_newlines s else String c (drop_newlines s)
  end.

Definition pad_encode (s : string) : string :=
  std_encode s +:+ match (String.length s mod 3)%nat with 1%nat => "==" | 2%nat => "=" | _ => "" end.

Definition pad_decode (s : string) : option string :=
  let s := drop_newlines s in
  let n := String.length s in
  if negb (n mod 4 =? 0)%nat then None
  else
    let body := if HasSuffix s "==" then str_take (n - 2) s else if HasSuffix s "=" then str_take (n - 1) s else s in
    if string_has "=" body then None else std_decode body.

(** ** Lemmas *)

Lemma b64_value_byte v :
  0 <= v < 64 ->
  b64_value (b64_byte v) = Some v /\
  (byte_code (b64_byte v) =? 10) || (byte_code (b64_byte v) =? 13) = false.
Proof.
  intros Hv. unfold b64_value, b64_byte.
  rewrite byte_code_of_code by (split_ifs; lia).
  split_ifs; (split; [f_equal; lia | lia]) || lia.
Qed.

Lemma b64_values_cons v s vs :
  0 <= v < 64 -> b64_values s = Some vs -> b64_values (String (b64_byte v) s) = Some (v :: vs).
Proof.
  intros Hv Hs. cbn [b64_values]. destruct (b64_value_byte v Hv) as [-> ->]. by rewrite Hs.
Qed.

Ltac byte_facts :=
  repeat match goal with
  | a : ascii |- _ =>
      lazymatch goal with
      | _ : 0 <= byte_code a < 256 |- _ => fail
      | _ => pose proof (byte_code_range a)
      end
  end.

Ltac b64_num :=
  byte_facts; Z.to_euclidean_division_equations; lia.

Lemma b64_encode_decode_values s :
  exists vs, b64_values (b64_encode s) = Some vs /\ b64_bytes vs = Some s.
Proof.
  assert (forall n s, (String.length s <= n)%nat ->
    exists vs, b64_values (b64_encode s) = Some vs /\ b64_bytes vs = Some s) as H.
  { clear s. intros n. induction n as [n IH] using lt_wf_ind. intros s Hn.
    destruct s as [|a [|b [|c rest]]]; [by exists []|..]; cbn [b64_encode].
    - eexists. split.
      + apply b64_values_cons; [b64_num|]. apply b64_values_cons; [b64_num|]. done.
      + cbn [b64_bytes]. f_equal.
        assert (forall x : Z, x = byte_code a -> String (byte_of_code x) "" = String a "") as Hc
          by (intros x ->; by rewrite byte_of_code_code).
        apply Hc; b64_num.
    - eexists. split.
      + do 3 (apply b64_values_cons; [b64_num|]). done.
      + cbn [b64_bytes]. f_equal.
        assert (forall x y : Z, x = byte_code a -> y = byte_code b ->
          String (byte_of_code x) (String (byte_of_code y) "") = String a (String b "")) as Hc
          by (intros x y -> ->; by rewrite !byte_of_code_code).
        apply Hc; b64_num.
    - destruct (IH (String.length rest)) with (s := rest) as (vs & Hvs & Hb); [cbn in Hn; lia|lia|].
      eexists. split.
      + do 4 (apply b64_values_cons; [b64_num|]). exact Hvs.
      + cbn [b64_bytes]. rewrite Hb. f_equal.
        assert (forall x y z : Z, x = byte_code a -> y = byte_code b -> z = byte_code c ->
          String (byte_of_code x) (String (byte_of_code y) (String (byte_of_code z) rest)) =
          String a (String b (String c rest))) as Hc
          by (intros x y z -> -> ->; by rewrite !byte_of_code_code).
        apply Hc; b64_num. }
  by apply (H (String.length s)).
Qed.

Lemma b64_round_trip s : b64_decode (b64_encode s) = Some s.
Proof.
  unfold b64_decode. destruct (b64_encode_decode_values s) as (vs & -> & Hb). done.
Qed.

Lemma b64_encode_empty s : b64_encode s = "" -> s = "".
Proof. by destruct s as [|a [|b [|c s]]]. Qed.

Lemma std_to_from_url c : is_Some (b64_value c) -> std_to_url (url_to_std c) = c.
Proof.
  pose proof (ascii_forall (fun c => implb (match b64_value c with Some _ => true | None => false end) (Ascii.eqb (std_to_url (url_to_std c)) c))
    ltac:(by vm_compute) c) as H. cbv beta in H. intros [v Hv]. rewrite Hv in H. by apply Ascii.eqb_eq.
Qed.

Lemma b64_chars s : string_forall (fun c => match b64_value c with Some _ => true | None => false end) (b64_encode s) = true.
Proof.
  assert (Hb : forall v, 0 <= v < 64 -> match b64_value (b64_byte v) with Some _ => true | None => false end = true).
  { intros v Hv. by destruct (b64_value_byte v Hv) as [-> _]. }
  remember (String.length s) as n eqn:Hn. revert s Hn. induction (Nat.lt_wf_0 n) as [n _ IH]. intros s ->.
  destruct s as [|a [|b [|c rest]]]; [done|..]; cbn [b64_encode string_forall]; rewrite !Hb by b64_num; try done.
  eapply IH; [|done]. cbn. lia.
Qed.

Lemma string_map_forall f g s : string_forall g (string_map f s) = string_forall (fun c => g (f c)) s.
Proof. induction s as [|c s IH]; [done|]. cbn. by rewrite IH. Qed.

Lemma std_encode_no c s : (forall d, is_Some (b64_value d) -> url_to_std d <> c) -> string_has c (std_encode s) = false.
Proof.
  intros Hc. unfold std_encode. pose proof (b64_chars s) as H. induction (b64_encode s) as [|d t IH]; [done|].
  cbn [string_forall string_map string_has] in *. apply andb_prop in H as [Hd Ht]. rewrite IH by done.
  destruct (b64_value d) eqn:E; [|done]. destruct (Ascii.eqb_spec (url_to_std d) c) as [He|]; [|done].
  destruct (Hc d); [by eexists|done].
Qed.

Lemma std_byte_ne (c : ascii) : forallb (fun n => implb (match b64_value (ascii_of_nat n) with Some _ => true | None => false end)
    (negb (Ascii.eqb (url_to_std (ascii_of_nat n)) c))) (seq 0 256) = true ->
  forall d, is_Some (b64_value d) -> url_to_std d <> c.
Proof.
  intros H d [v Hd] He. pose proof (ascii_forall (fun d => implb (match b64_value d with Some _ => true | None => false end)
    (negb (Ascii.eqb (url_to_std d) c))) H d) as Hf. cbv beta in Hf. rewrite Hd, He, Ascii.eqb_refl in Hf. done.
Qed.

Lemma std_round_trip s : std_decode (std_encode s) = Some s.
Proof.
  unfold std_decode. rewrite !std_encode_no by (by apply std_byte_ne; vm_compute). cbn [orb].
  replace (string_map std_to_url (std_encode s)) with (b64_encode s); [apply b64_round_trip|].
  unfold std_encode. pose proof (b64_chars s) as H. induction (b64_encode s) as [|d t IH]; [done|].
  cbn [string_forall string_map] in *. apply andb_prop in H as [Hd Ht]. rewrite <- IH by done. f_equal.
  symmetry. apply std_to_from_url. by destruct (b64_value d).
Qed.

Lemma std_encode_length s : String.length (std_encode s) = (4 * (String.length s / 3) + match String.length s mod 3 with 1 => 2 | 2 => 3 | _ => 0 end)%nat.
Proof.
  unfold std_encode. assert (Hm : forall f t, String.length (string_map f t) = String.length t) by (intros f t; induction t as [|c t IH]; cbn; auto).
  rewrite Hm. remember (String.length s) as n eqn:Hn. revert s Hn. induction (Nat.lt_wf_0 n) as [n _ IH]. intros s ->.
  destruct s as [|a [|b [|c rest]]]; [done..|]. cbn [b64_encode String.length].
  rewrite (IH (String.length rest)) by (done || (cbn; lia)).
  replace (S (S (S (String.length rest)))) with (String.length rest + 1 * 3)%nat by lia.
  rewrite Nat.div_add, Nat.Div0.mod_add by lia. lia.
Qed.

Lemma drop_newlines_none s :
  string_forall (fun c => negb ((byte_code c =? 10) || (byte_code c =? 13))) s = true -> drop_newlines s = s.
Proof.
  induction s as [|c s IH]; [done|]. cbn [string_forall drop_newlines]. intros [Hc Hs]%andb_prop.
  apply negb_true_iff in Hc. by rewrite Hc, IH.
Qed.

Lemma std_encode_chars f s :
  forallb (fun n => implb (match b64_value (ascii_of_nat n) with Some _ => true | None => false end) (f (url_to_std (ascii_of_nat n)))) (seq 0 256) = true ->
  string_forall f (std_encode s) = true.
Proof.
  intros Hf. unfold std_encode. rewrite string_map_forall. eapply string_forall_impl; [|apply b64_chars].
  intros c Hc. pose proof (ascii_forall (fun c => implb (match b64_value c with Some _ => true | None => false end) (f (url_to_std c))) Hf c) as H.
  cbv beta in H. by rewrite Hc in H.
Qed.

Lemma HasSuffix_app s t : HasSuffix (s +:+ t) t = true.
Proof. apply HasSuffix_spec. by exists s. Qed.

Lemma no_suffix_eq s : string_has "=" s = false -> HasSuffix s "=" = false /\ HasSuffix s "==" = false.
Proof.
  intros Hs. split; apply not_true_iff_false; intros [r ->]%HasSuffix_spec; rewrite string_has_app in Hs; cbn in Hs; by rewrite orb_true_r in Hs.
Qed.

Lemma pad_round_trip s : pad_decode (pad_encode s) = Some s.
Proof.
  pose proof (std_encode_length s) as Hl.
  assert (Heq : string_has "=" (std_encode s) = false) by (apply std_encode_no, std_byte_ne; by vm_compute).
  destruct (no_suffix_eq _ Heq) as [Hs1 Hs2].
  pose proof (Nat.mod_upper_bound (String.length s) 3 ltac:(lia)) as Hm.
  unfold pad_decode, pad_encode. set (e := std_encode s) in *.
  set (p := match (String.length s mod 3)%nat with 1%nat => "==" | 2%nat => "=" | _ => "" end).
  assert (Hnl : drop_newlines (e +:+ p) = e +:+ p).
  { apply drop_newlines_none. rewrite string_forall_app. unfold e. rewrite std_encode_chars by (by vm_compute).
    unfold p. by destruct (String.length s mod 3)%nat as [|[|[|?]]]. }
  rewrite Hnl, string_length_app. clear Hnl.
  assert (Hlen : ((String.length e + String.length p) mod 4 = 0)%nat).
  { rewrite Hl. unfold p. clear -Hm. set (q := (String.length s / 3)%nat). destruct (String.length s mod 3)%nat as [|[|[|?]]]; cbn [String.length]; [| | |lia].
    - replace (4 * q + 0 + 0)%nat with (0 + q * 4)%nat by lia. by rewrite Nat.Div0.mod_add.
    - replace (4 * q + 2 + 2)%nat with (0 + (q + 1) * 4)%nat by lia. by rewrite Nat.Div0.mod_add.
    - replace (4 * q + 3 + 1)%nat with (0 + (q + 1) * 4)%nat by lia. by rewrite Nat.Div0.mod_add. }
  rewrite Hlen. cbn [Nat.eqb negb].
  assert (Hbody : (if HasSuffix (e +:+ p) "==" then str_take (String.length e + String.length p - 2) (e +:+ p)
    else if HasSuffix (e +:+ p) "=" then str_take (String.length e + String.length p - 1) (e +:+ p) else e +:+ p) = e).
  { unfold p. destruct (String.length s mod 3)%nat as [|[|[|?]]]; [| | |lia].
    - rewrite string_app_nil_r, Hs1, Hs2. done.
    - rewrite HasSuffix_app. cbn [String.length]. replace (String.length e + 2 - 2)%nat with (String.length e) by lia. apply str_take_app.
    - assert (H2 : HasSuffix (e +:+ "=") "==" = false).
      { apply not_true_iff_false. intros [r Hr]%HasSuffix_spec. change "==" with ("=" +:+ "=") in Hr. rewrite string_app_assoc in Hr.
        assert (Hlr : String.length e = String.length (r +:+ "=")).
        { apply (f_equal String.length) in Hr. rewrite !string_length_app in Hr. rewrite string_length_app. lia. }
        apply (f_equal (str_take (String.length e))) in Hr. rewrite str_take_app in Hr. rewrite Hlr, str_take_app in Hr.
        rewrite Hr, string_has_app in Heq. cbn in Heq. by rewrite orb_true_r in Heq. }
      rewrite H2, HasSuffix_app. cbn [String.length]. replace (String.length e + 1 - 1)%nat with (String.length e) by lia. apply str_take_app. }
  rewrite Hbody, Heq. apply std_round_trip.
Qed.
