(* ===== verification/Hex.v ===== *)
(** * Hexadecimal (package [encoding/hex])

    [EncodeToString], in lower case, and [DecodeString], in either. *)

From S2P Require Import Prelude GoStrings.

Definition hex_digit (v : Z) : ascii := byte_of_code (if v <? 10 then 48 + v else 87 + v).

Fixpoint hex_encode (s : string) : string :=
  match s with
  | "" => ""
  | String c s => String (hex_digit (byte_code c / 16)) (String (hex_digit (byte_code c mod 16)) (hex_encode s))
  end.

Definition hex_value (c : ascii) : option Z :=
  let n := byte_code c in
  if (48 <=? n) && (n <=? 57) then Some (n - 48)
  else if (97 <=? n) && (n <=? 102) then Some (n - 87)
  else if (65 <=? n) && (n <=? 70) then Some (n - 55) else None.

Fixpoint hex_decode (s : string) : option string :=
  match s with
  | "" => Some ""
  | String _ "" => None
  | String a (String b s) =>
      match hex_value a, hex_value b, hex_decode s with
      | Some x, Some y, Some s => Some (String (byte_of_code (x * 16 + y)) s)
      | _, _, _ => None
      end
  end.

(** ** Lemmas *)

Lemma hex_digit_facts v :
  0 <= v < 16 -> is_space (hex_digit v) = false /\ hex_value (hex_digit v) = Some v.
Proof.
  intros Hv. unfold is_space, hex_value, hex_digit. rewrite byte_code_of_code by (split_ifs; lia).
  split; split_ifs; (f_equal; lia) || lia.
Qed.

Lemma byte_nibbles c : 0 <= byte_code c / 16 < 16 /\ 0 <= byte_code c mod 16 < 16.
Proof.
  pose proof (byte_code_range c). split; [split; [apply Z.div_pos; lia | apply Z.div_lt_upper_bound; lia]|].
  apply Z.mod_pos_bound. lia.
Qed.

Lemma hex_encode_no_space s : no_space (hex_encode s) = true.
Proof.
  induction s as [|c s IH]; cbn; [done|]. destruct (byte_nibbles c) as [H1 H2].
  destruct (hex_digit_facts _ H1) as [-> _], (hex_digit_facts _ H2) as [-> _]. done.
Qed.

Lemma hex_encode_has c s : hex_value c = None -> string_has c (hex_encode s) = false.
Proof.
  intros Hc. induction s as [|d s IH]; cbn; [done|]. rewrite IH.
  destruct (byte_nibbles d) as [H1 H2].
  destruct (hex_digit_facts _ H1) as [_ Hv1], (hex_digit_facts _ H2) as [_ Hv2].
  destruct (Ascii.eqb_spec (hex_digit (byte_code d / 16)) c); [congruence|].
  destruct (Ascii.eqb_spec (hex_digit (byte_code d mod 16)) c); [congruence|]. done.
Qed.

(** The encoding is injective: [hex.DecodeString] undoes it. *)
Lemma hex_round_trip s : hex_decode (hex_encode s) = Some s.
Proof.
  induction s as [|c s IH]; [done|]. cbn [hex_encode hex_decode]. destruct (byte_nibbles c) as [H1 H2].
  destruct (hex_digit_facts _ H1) as [_ ->], (hex_digit_facts _ H2) as [_ ->]. rewrite IH.
  do 2 f_equal. rewrite <- (byte_of_code_code c) at 3. f_equal.
  pose proof (Z.div_mod (byte_code c) 16). lia.
Qed.

Lemma hex_encode_empty s : hex_encode s = "" -> s = "".
Proof. by destruct s. Qed.
