(* ===== verification/QueryString.v ===== *)
(** * Query strings (package [net/url])

    The part of [net/url] that the program uses on the query of a URL:
    [QueryEscape], [QueryUnescape], [ParseQuery] and [Values.Encode], and that
    parsing an encoded query gives the values back. *)

From stdpp Require Import gmap strings sorting.
From S2P Require Import Prelude GoStrings.

#[local] Open Scope list_scope.

(** ** Escaping *)

(** The bytes a query component keeps. *)
Definition unreserved (c : ascii) : bool :=
  is_digit c || is_upper c || is_lower c || Ascii.eqb c "-" || Ascii.eqb c "_" || Ascii.eqb c "." || Ascii.eqb c "~".

Definition upper_hex (v : Z) : ascii := byte_of_code (if v <? 10 then 48 + v else 55 + v).

Fixpoint QueryEscape (s : string) : string :=
  match s with
  | "" => ""
  | String c s =>
      if unreserved c then String c (QueryEscape s)
      else if Ascii.eqb c " " then String "+" (QueryEscape s)
      else String "%" (String (upper_hex (byte_code c / 16)) (String (upper_hex (byte_code c mod 16)) (QueryEscape s)))
  end.

Definition unhex_digit (c : ascii) : option Z :=
  if is_digit c then Some (byte_code c - 48)
  else if (97 <=? byte_code c) && (byte_code c <=? 102) then Some (byte_code c - 87)
  else if (65 <=? byte_code c) && (byte_code c <=? 70) then Some (byte_code c - 55)
  else None.

Fixpoint QueryUnescape (s : string) : option string :=
  match s with
  | "" => Some ""
  | String c t =>
      if Ascii.eqb c "%" then
        match t with
        | String a (String b r) =>
            match unhex_digit a, unhex_digit b with
            | Some x, Some y => String (byte_of_code (16 * x + y)) <$> QueryUnescape r
            | _, _ => None
            end
        | _ => None
        end
      else String (if Ascii.eqb c "+" then " "%char else c) <$> QueryUnescape t
  end.

(** ** Values *)

(** [url.Values], every key with at least one value. *)
Notation Values := (gmap string (list string)).

Definition values_get (m : Values) (key : string) : string :=
  match m !! key with Some (v :: _) => v | _ => "" end.
Definition values_set (m : Values) (key v : string) : Values := <[key := [v]]> m.
Definition values_add (m : Values) (key v : string) : Values := <[key := default [] (m !! key) ++ [v]]> m.

(** One setting, [None] where it is malformed. *)
Definition parse_pair (piece : string) : option (string * string) :=
  let '(k, v) := match cut_byte "=" piece with Some kv => kv | None => (piece, "") end in
  match QueryUnescape k, QueryUnescape v with
  | Some k, Some v => Some (k, v)
  | _, _ => None
  end.

(** [parseQuery]: the values, and whether no setting was malformed. *)
Definition parse_piece (st : Values * bool) (piece : string) : Values * bool :=
  let '(m, ok) := st in
  if string_has ";" piece then (m, false)
  else if String.eqb piece "" then (m, ok)
  else match parse_pair piece with
       | Some (k, v) => (values_add m k v, ok)
       | None => (m, false)
       end.

Definition ParseQuery (query : string) : Values * bool :=
  if String.eqb query "" then (∅, true) else fold_left parse_piece (split_byte "&" query) (∅, true).

(** [Query] on a URL drops what is malformed. *)
Definition URL_Query (rawQuery : string) : Values := fst (ParseQuery rawQuery).

Definition encode_pair (kv : string * string) : string := QueryEscape (fst kv) +:+ "=" +:+ QueryEscape (snd kv).

(** The settings in the order of their keys. *)
Definition pairs_of (m : Values) (key : string) : list (string * string) :=
  map (pair key) (default [] (m !! key)).

Definition sorted_pairs (m : Values) : list (string * string) :=
  flat_map (pairs_of m) (merge_sort str_le (map_to_list m).*1).

Definition Encode (m : Values) : string := String.concat "&" (map encode_pair (sorted_pairs m)).

(** ** Lemmas: escaping *)

Definition query_byte (c : ascii) : bool := unreserved c || Ascii.eqb c "+" || Ascii.eqb c "%".

Lemma upper_hex_byte v : 0 <= v < 16 -> unreserved (upper_hex v) = true /\ unhex_digit (upper_hex v) = Some v.
Proof.
  intros Hv.
  assert (H : forallb (fun v => unreserved (upper_hex v) && bool_decide (unhex_digit (upper_hex v) = Some v)) (seqZ 0 16) = true)
    by by vm_compute.
  rewrite forallb_forall in H. specialize (H v). rewrite <- list_elem_of_In, elem_of_seqZ in H.
  specialize (H ltac:(lia)). apply andb_prop in H as [H1 H2%bool_decide_eq_true]. by split.
Qed.

Lemma escape_bytes s : string_forall query_byte (QueryEscape s) = true.
Proof.
  induction s as [|c s IH]; [done|]. cbn [QueryEscape].
  destruct (unreserved c) eqn:Hu; [cbn [string_forall]; rewrite IH; unfold query_byte; by rewrite Hu|].
  destruct (Ascii.eqb c " "); [exact IH|].
  pose proof (byte_code_range c) as Hc.
  destruct (upper_hex_byte (byte_code c / 16)) as [H1 _]; [split; [apply Z.div_pos|apply Z.div_lt_upper_bound]; lia|].
  destruct (upper_hex_byte (byte_code c mod 16)) as [H2 _]; [apply Z.mod_pos_bound; lia|].
  cbn [string_forall]. rewrite IH. unfold query_byte. by rewrite H1, H2.
Qed.

Lemma unreserved_plain c : unreserved c = true -> Ascii.eqb c "%" = false /\ Ascii.eqb c "+" = false.
Proof.
  pose proof (ascii_forall (fun c => implb (unreserved c) (negb (Ascii.eqb c "%") && negb (Ascii.eqb c "+")))
    ltac:(by vm_compute) c) as H. cbv beta in H. intros Hc. rewrite Hc in H.
  by destruct (Ascii.eqb c "%"), (Ascii.eqb c "+").
Qed.

Lemma unescape_escape s : QueryUnescape (QueryEscape s) = Some s.
Proof.
  induction s as [|c s IH]; [done|]. cbn [QueryEscape]. destruct (unreserved c) eqn:Hu.
  - destruct (unreserved_plain c Hu) as [H1 H2]. cbn [QueryUnescape]. by rewrite H1, H2, IH.
  - destruct (Ascii.eqb_spec c " ") as [->|_]; [cbn [QueryUnescape]; by rewrite IH|].
    pose proof (byte_code_range c) as Hc.
    destruct (upper_hex_byte (byte_code c / 16)) as [_ H1]; [split; [apply Z.div_pos|apply Z.div_lt_upper_bound]; lia|].
    destruct (upper_hex_byte (byte_code c mod 16)) as [_ H2]; [apply Z.mod_pos_bound; lia|].
    cbn [QueryUnescape]. change (Ascii.eqb "%" "%") with true. cbv iota. rewrite H1, H2, IH. cbn.
    do 2 f_equal. rewrite <- (Z.div_mod (byte_code c) 16) by lia. apply byte_of_code_code.
Qed.

Lemma escape_no c s : query_byte c = false -> string_has c (QueryEscape s) = false.
Proof. intros Hc. by eapply string_forall_has, Hc; apply escape_bytes. Qed.

(** ** Lemmas: values *)

Lemma parse_encode_pair kv : parse_pair (encode_pair kv) = Some kv.
Proof.
  destruct kv as [k v]. unfold parse_pair, encode_pair. cbn [fst snd].
  change ("=" +:+ QueryEscape v) with (String "=" (QueryEscape v)).
  rewrite cut_byte_app by by apply escape_no. by rewrite !unescape_escape.
Qed.

Lemma encode_pair_no c kv : query_byte c = false -> c <> "="%char -> string_has c (encode_pair kv) = false.
Proof.
  intros Hc He. unfold encode_pair. rewrite !string_has_app, !escape_no by done. cbn [string_has orb].
  destruct (Ascii.eqb_spec "=" c) as [E|E]; [by destruct He|]; destruct (Ascii.eqb_spec c "=") as [E2|E2]; [done|by rewrite ?orb_false_r].
Qed.

Lemma encode_pair_nonempty kv : String.eqb (encode_pair kv) "" = false.
Proof. destruct kv as [k v]. unfold encode_pair. cbn [fst]. by destruct (QueryEscape k). Qed.

Definition add_pair (m : Values) (kv : string * string) : Values := values_add m (fst kv) (snd kv).

Lemma parse_pairs l st :
  fold_left parse_piece (map encode_pair l) st = (fold_left add_pair l (fst st), snd st).
Proof.
  revert st. induction l as [|kv l IH]; intros [m ok]; [done|]. cbn [map fold_left]. rewrite IH. f_equal; unfold parse_piece;
    rewrite encode_pair_no, encode_pair_nonempty, parse_encode_pair by done; by destruct kv.
Qed.

(** Adding settings touches their keys only. *)
Lemma add_pairs_lookup l m k :
  fold_left add_pair l m !! k =
    match map snd (filter (fun kv => fst kv = k) l) with
    | [] => m !! k
    | vs => Some (default [] (m !! k) ++ vs)
    end.
Proof.
  revert m. induction l as [|[k' v] l IH]; intros m; [done|]. cbn [fold_left]. rewrite IH.
  unfold add_pair, values_add. cbn [fst snd]. destruct (decide (k' = k)) as [->|Hk].
  - rewrite filter_cons_True by done. cbn [map]. rewrite lookup_insert_eq. cbn [default from_option id].
    destruct (map snd _); by rewrite <- ?app_assoc.
  - rewrite filter_cons_False by done. by rewrite lookup_insert_ne by done.
Qed.

Lemma pairs_of_filter m k k' :
  map snd (filter (fun kv : string * string => fst kv = k) (pairs_of m k')) = if decide (k' = k) then default [] (m !! k) else [].
Proof.
  unfold pairs_of. destruct (decide (k' = k)) as [->|Hk].
  - induction (default [] (m !! k)) as [|v vs IH]; [done|]. cbn [map]. rewrite filter_cons_True by done. cbn [map snd]. by rewrite IH.
  - induction (default [] (m !! k')) as [|v vs IH]; [done|]. cbn [map]. by rewrite filter_cons_False by done.
Qed.

Lemma flat_pairs_filter m k ks :
  NoDup ks ->
  map snd (filter (fun kv : string * string => fst kv = k) (flat_map (pairs_of m) ks)) =
    if decide (k ∈ ks) then default [] (m !! k) else [].
Proof.
  induction 1 as [|k' ks Hk' _ IH]; [done|]. cbn [flat_map]. rewrite list.filter_app, map_app, pairs_of_filter, IH.
  destruct (decide (k' = k)) as [->|Hne].
  - rewrite decide_False by done. rewrite decide_True by (by left). apply app_nil_r.
  - cbn [app]. destruct (decide (k ∈ ks)) as [Hin|Hin]; [by rewrite decide_True by (by right)|].
    rewrite decide_False; [done|]. by intros [->|?]%elem_of_cons.
Qed.

(** Every key has a value, as [url.Values] made by parsing has. *)
Definition full (m : Values) : Prop := map_Forall (fun _ vs => vs <> []) m.

Lemma full_insert m k vs : full m -> vs <> [] -> full (<[k := vs]> m).
Proof. intros. by apply map_Forall_insert_2. Qed.

Lemma parse_full l m ok : full m -> full (fst (fold_left parse_piece l (m, ok))).
Proof.
  revert m ok. induction l as [|p l IH]; intros m ok Hm; [done|]. cbn [fold_left]. unfold parse_piece at 2.
  destruct (string_has ";" p); [by apply IH|]. destruct (String.eqb p ""); [by apply IH|].
  destruct (parse_pair p) as [[k v]|]; [|by apply IH]. apply IH, full_insert; [done|]. by destruct (default [] _).
Qed.

Lemma ParseQuery_full q : full (fst (ParseQuery q)).
Proof. unfold ParseQuery. destruct (String.eqb q ""); [done|]. by apply parse_full. Qed.

Lemma keys_elem {A : Type} (m : gmap string A) k : k ∈ (map_to_list m).*1 <-> is_Some (m !! k).
Proof.
  rewrite list_elem_of_fmap. split.
  - intros ([k' v] & -> & H%elem_of_map_to_list). by eexists.
  - intros [v Hv]. exists (k, v). split; [done|]. by apply elem_of_map_to_list.
Qed.

Lemma sorted_keys_elem (m : Values) k : k ∈ merge_sort str_le (map_to_list m).*1 <-> is_Some (m !! k).
Proof. rewrite merge_sort_Permutation. apply keys_elem. Qed.

Lemma sorted_keys_NoDup (m : Values) : NoDup (merge_sort str_le (map_to_list m).*1).
Proof. rewrite merge_sort_Permutation. apply NoDup_fst_map_to_list. Qed.

Lemma add_sorted_pairs m : full m -> fold_left add_pair (sorted_pairs m) ∅ = m.
Proof.
  intros Hm. apply map_eq. intros k. rewrite add_pairs_lookup. unfold sorted_pairs.
  rewrite flat_pairs_filter by apply sorted_keys_NoDup. rewrite lookup_empty.
  destruct (m !! k) as [vs|] eqn:Hk.
  - rewrite decide_True by (apply sorted_keys_elem; by rewrite Hk). cbn [default from_option id].
    pose proof (Hm k vs Hk). by destruct vs.
  - by rewrite decide_False by (rewrite sorted_keys_elem, Hk; by intros [? ?]).
Qed.

Lemma concat_sep_nonempty s x l : String.eqb x "" = false -> String.eqb (String.concat s (x :: l)) "" = false.
Proof. intros Hx. destruct x as [|c x]; [done|]. by destruct l. Qed.

(** Parsing what [Encode] wrote. *)
Lemma ParseQuery_Encode m : full m -> ParseQuery (Encode m) = (m, true).
Proof.
  intros Hm. unfold ParseQuery, Encode. pose proof (add_sorted_pairs m Hm) as Ha.
  destruct (sorted_pairs m) as [|kv l] eqn:E; [cbn in *; by subst|]. change (map encode_pair (kv :: l)) with (encode_pair kv :: map encode_pair l).
  rewrite concat_sep_nonempty by apply encode_pair_nonempty.
  rewrite (split_byte_concat "&"); [|done|].
  - change (encode_pair kv :: map encode_pair l) with (map encode_pair (kv :: l)). rewrite parse_pairs. cbn [fst snd]. by rewrite Ha.
  - change (encode_pair kv :: map encode_pair l) with (map encode_pair (kv :: l)). apply Forall_map, Forall_forall. intros x _. by apply encode_pair_no.
Qed.

(** ** Package [pantry/query]

    [rawQuery] is [r.URL.RawQuery]; a negative [maxLen] panics. *)

Definition MaxSearchLen : Z := 200.

Definition Get (rawQuery key : string) : string := TrimSpace (values_get (URL_Query rawQuery) key).

Definition GetMax (rawQuery key : string) (maxLen : Z) : option string :=
  let v := TrimSpace (values_get (URL_Query rawQuery) key) in
  if maxLen <? Z.of_nat (String.length v)
  then if maxLen <? 0 then None else Some (str_take (Z.to_nat maxLen) v)
  else Some v.

Definition Search (rawQuery key : string) : option string := GetMax rawQuery key MaxSearchLen.

(** A query that was encoded from values is read back as those values, and
    [Get] finds in it the first value of a key, without the space around it. *)
Theorem query_roundtrip m key :
  full m -> ParseQuery (Encode m) = (m, true) /\ Get (Encode m) key = TrimSpace (values_get m key).
Proof. intros Hm. unfold Get, URL_Query. by rewrite ParseQuery_Encode. Qed.

Lemma query_roundtrip_witness :
  let m : Values := {["q" := ["a b&c=d"; "100%"]; "é" := [""]]} in
  full m /\ Encode m = "q=a+b%26c%3Dd&q=100%25&%C3%A9=" /\ Get (Encode m) "q" = "a b&c=d".
Proof.
  intros m. assert (Hm : full m) by (repeat (apply map_Forall_insert_2; [done|]); apply map_Forall_empty).
  split; [exact Hm|]. split; [reflexivity|]. by rewrite (proj2 (query_roundtrip m "q" Hm)).
Defined.

(** [Search] always answers, with at most 200 bytes, a prefix of what [Get]
    answers and all of it when that is no longer. *)
Theorem Search_bound rawQuery key :
  exists v rest, Search rawQuery key = Some v /\ Get rawQuery key = v +:+ rest /\
    Z.of_nat (String.length v) <= MaxSearchLen /\
    (Z.of_nat (String.length (Get rawQuery key)) <= MaxSearchLen -> rest = "").
Proof.
  unfold Search, GetMax. fold (Get rawQuery key). set (v := Get rawQuery key).
  destruct (Z.ltb_spec MaxSearchLen (Z.of_nat (String.length v))) as [H|H].
  - exists (str_take 200 v), (str_drop 200 v). split; [done|]. rewrite str_take_drop, str_take_length. unfold MaxSearchLen in *.
    split; [done|]. split; [lia|]. lia.
  - exists v, "". by rewrite string_app_nil_r.
Qed.
