(* ===== verification/Pagination.v ===== *)
(** * Pagination ([pantry/pagination])

    Pages by offset, opaque cursors, and pages by key with the SQL they are made
    of.  A request is the function [q.Get] of its query.  What [encoding/json]
    does is an argument. *)

From stdpp Require Import sorting.
From S2P Require Import Prelude GoStrings Base64 QueryString.

(** ** Pages by offset ([pagination.go]) *)

Definition DefaultPage : Z := 1.
Definition DefaultPerPage : Z := 20.
Definition MaxPerPage : Z := 100.

Record Page := mkPage { p_Page : Z; PerPage : Z; Total : Z; TotalPages : Z }.

Definition Offset (p : Page) : Z :=
  if p_Page p <? 1 then 0 else int_mul (int_sub (p_Page p) 1) (PerPage p).

Definition Page_Limit (p : Page) : Z := PerPage p.

Definition HasNext (p : Page) : bool := if Total p =? 0 then false else p_Page p <? TotalPages p.

Definition HasPrev (p : Page) : bool := 1 <? p_Page p.

Definition Next (p : Page) : Z := if negb (HasNext p) then p_Page p else int_add (p_Page p) 1.

Definition Prev (p : Page) : Z := if negb (HasPrev p) then p_Page p else int_sub (p_Page p) 1.

Definition SetTotal (p : Page) (total : Z) : Page :=
  mkPage (p_Page p) (PerPage p) total
    (if 0 <? PerPage p then Z.quot (int_sub (int_add total (PerPage p)) 1) (PerPage p)
     else TotalPages p).

Definition New (page perPage : Z) : Page :=
  let page := if page <? 1 then DefaultPage else page in
  let perPage := if perPage <? 1 then DefaultPerPage else perPage in
  let perPage := if MaxPerPage <? perPage then MaxPerPage else perPage in
  mkPage page perPage 0 0.

Definition Default : Page := New DefaultPage DefaultPerPage.

Definition parseInt (s : string) (def : Z) : Z :=
  if String.eqb s "" then def
  else match Atoi s with Some n => if n <? 1 then def else n | None => def end.

Definition FromRequest (q : string -> string) : Page :=
  let page := parseInt (q "page") DefaultPage in
  let perPage := parseInt (q "per_page") 0 in
  let perPage := if perPage =? 0 then parseInt (q "limit") DefaultPerPage else perPage in
  New page perPage.

Definition FromRequestWithDefaults (q : string -> string) (defaultPerPage maxPerPage : Z) : Page :=
  let page := parseInt (q "page") DefaultPage in
  let perPage := parseInt (q "per_page") 0 in
  let perPage := if perPage =? 0 then parseInt (q "limit") defaultPerPage else perPage in
  let perPage := if perPage <? 1 then defaultPerPage else perPage in
  let perPage := if maxPerPage <? perPage then maxPerPage else perPage in
  New page perPage.

Record Result {T : Type} := mkResult {
  r_Data : list T; r_Page : Z; r_PerPage : Z; r_Total : Z; r_TotalPages : Z;
  r_HasNext : bool; r_HasPrev : bool
}.
Arguments Result : clear implicits.

Definition NewResult {T : Type} (data : list T) (p : Page) : Result T :=
  mkResult T data (p_Page p) (PerPage p) (Total p) (TotalPages p) (HasNext p) (HasPrev p).

Record Links := mkLinks { Self : string; First : string; Last : string; l_Next : string; l_Prev : string }.

Definition sep_of (baseURL : string) : string := if Contains baseURL "?" then "&" else "?".

Definition buildURL (baseURL : string) (page perPage : Z) : string :=
  baseURL +:+ sep_of baseURL +:+ "page=" +:+ Itoa page +:+ "&per_page=" +:+ Itoa perPage.

(** The links of [NewResultWithLinks]; the other fields copy the page. *)
Definition page_links (p : Page) (baseURL : string) : Links :=
  mkLinks (buildURL baseURL (p_Page p) (PerPage p)) (buildURL baseURL 1 (PerPage p))
    (if 0 <? TotalPages p then buildURL baseURL (TotalPages p) (PerPage p) else "")
    (if HasNext p then buildURL baseURL (Next p) (PerPage p) else "")
    (if HasPrev p then buildURL baseURL (Prev p) (PerPage p) else "").

Record ResultWithLinks {T : Type} := mkResultWithLinks {
  rl_Data : list T; rl_Page : Z; rl_PerPage : Z; rl_Total : Z; rl_TotalPages : Z; rl_Links : Links
}.
Arguments ResultWithLinks : clear implicits.

Definition NewResultWithLinks {T : Type} (data : list T) (p : Page) (baseURL : string)
    : ResultWithLinks T :=
  mkResultWithLinks T data (p_Page p) (PerPage p) (Total p) (TotalPages p) (page_links p baseURL).

Definition dquote : string := String (Ascii.ascii_of_nat 34) "".

Definition link (url rel : string) : string :=
  "<" +:+ url +:+ ">; rel=" +:+ dquote +:+ rel +:+ dquote.

(** The header is a map from names to values. *)
Definition SetLinkHeader (h : gmap string string) (p : Page) (baseURL : string) : gmap string string :=
  let links :=
    ([link (buildURL baseURL 1 (PerPage p)) "first"] ++
    (if HasPrev p then [link (buildURL baseURL (Prev p) (PerPage p)) "prev"] else []) ++
    (if HasNext p then [link (buildURL baseURL (Next p) (PerPage p)) "next"] else []) ++
    (if 0 <? TotalPages p then [link (buildURL baseURL (TotalPages p) (PerPage p)) "last"] else []))%list
  in
  <["X-Per-Page" := Itoa (PerPage p)]>
    (<["X-Page" := Itoa (p_Page p)]>
       (<["X-Total-Pages" := Itoa (TotalPages p)]>
          (<["X-Total-Count" := Itoa (Total p)]>
             (<["Link" := String.concat ", " links]> h)))).

(** ** Cursors *)

Record Cursor := mkCursor { c_Cursor : string; c_Limit : Z; c_Direction : string }.

Definition CursorFromRequest (q : string -> string) : Cursor :=
  let limit := parseInt (q "limit") DefaultPerPage in
  let limit := if MaxPerPage <? limit then MaxPerPage else limit in
  mkCursor (q "cursor") limit (q "direction").

Definition Cursor_IsFirst (c : Cursor) : bool := String.eqb (c_Cursor c) "".

Inductive cursor_error := MarshalError | CorruptInput | UnmarshalError.

Definition EncodeCursor {T : Type} (Marshal : T -> option string) (data : T) : result cursor_error string :=
  match Marshal data with
  | None => Err MarshalError
  | Some b => Ok (b64_encode b)
  end.

(** [dest] is what the destination held. *)
Definition DecodeCursor {T : Type} (Unmarshal : string -> T -> option T) (cursor : string) (dest : T)
    : result cursor_error T :=
  if String.eqb cursor "" then Ok dest
  else
    match b64_decode cursor with
    | None => Err CorruptInput
    | Some b => match Unmarshal b dest with Some v => Ok v | None => Err UnmarshalError end
    end.

Record IDCursor := mkIDCursor { LastID : string; id_Direction : string }.

Definition EncodeIDCursor (Marshal : IDCursor -> option string) (id direction : string) : string :=
  match EncodeCursor Marshal (mkIDCursor id direction) with Ok cursor => cursor | Err _ => "" end.

Definition DecodeIDCursor (Unmarshal : string -> IDCursor -> option IDCursor) (cursor : string)
    : result cursor_error (string * string) :=
  try! c := DecodeCursor Unmarshal cursor (mkIDCursor "" "") in
  Ok (LastID c, id_Direction c).

Record TimeCursor := mkTimeCursor { tc_Timestamp : Z; tc_ID : string; tc_Direction : string }.

Definition EncodeTimeCursor (Marshal : TimeCursor -> option string) (timestamp : Z) (id direction : string)
    : string :=
  match EncodeCursor Marshal (mkTimeCursor timestamp id direction) with Ok c => c | Err _ => "" end.

Definition DecodeTimeCursor (Unmarshal : string -> TimeCursor -> option TimeCursor) (cursor : string)
    : result cursor_error (Z * string * string) :=
  try! c := DecodeCursor Unmarshal cursor (mkTimeCursor 0 "" "") in
  Ok (tc_Timestamp c, tc_ID c, tc_Direction c).

(** ** Pages by key ([keyset.go]) *)

Record Keyset := mkKeyset {
  k_Limit : Z; After : string; Before : string; OrderBy : string; Descending : bool
}.

Definition KeysetFromRequest (q : string -> string) : Keyset :=
  let limit := parseInt (q "limit") DefaultPerPage in
  let limit := if MaxPerPage <? limit then MaxPerPage else limit in
  mkKeyset limit (q "after") (q "before") (q "order_by") (String.eqb (q "order") "desc").

Definition IsForward (k : Keyset) : bool :=
  String.eqb (Before k) "" || negb (String.eqb (After k) "").

Definition IsBackward (k : Keyset) : bool :=
  negb (String.eqb (Before k) "") && String.eqb (After k) "".

Definition Keyset_IsFirst (k : Keyset) : bool :=
  String.eqb (After k) "" && String.eqb (Before k) "".

Definition buildKeysetURL (baseURL : string) (limit : Z) (after before : string) : string :=
  let url := baseURL +:+ sep_of baseURL +:+ "limit=" +:+ Itoa limit in
  let url := if negb (String.eqb after "") then url +:+ "&after=" +:+ after else url in
  if negb (String.eqb before "") then url +:+ "&before=" +:+ before else url.

Record KeysetLinks := mkKeysetLinks { kl_Self : string; kl_Next : string; kl_Prev : string }.

(** The links of [NewKeysetResultWithLinks]. *)
Definition keyset_links (k : Keyset) (hasMore : bool) (firstID lastID baseURL : string) : KeysetLinks :=
  mkKeysetLinks (buildKeysetURL baseURL (k_Limit k) (After k) (Before k))
    (if hasMore && negb (String.eqb lastID "") then buildKeysetURL baseURL (k_Limit k) lastID "" else "")
    (if negb (String.eqb firstID "") && negb (Keyset_IsFirst k)
     then buildKeysetURL baseURL (k_Limit k) "" firstID else "").

Definition SetKeysetLinkHeader (h : gmap string string) (k : Keyset) (hasMore : bool)
    (firstID lastID baseURL : string) : gmap string string :=
  let links :=
    ((if hasMore && negb (String.eqb lastID "")
      then [link (buildKeysetURL baseURL (k_Limit k) lastID "") "next"] else []) ++
     (if negb (String.eqb firstID "") && negb (Keyset_IsFirst k)
      then [link (buildKeysetURL baseURL (k_Limit k) "" firstID) "prev"] else []))%list in
  if (0 <? Z.of_nat (length links)) then <["Link" := String.concat ", " links]> h else h.

Record SQLBuilder := mkSQLBuilder { Column : string; b_Descending : bool; Placeholder : string }.

Definition NewSQLBuilder (column : string) (descending : bool) : SQLBuilder :=
  mkSQLBuilder column descending "?".

Definition WithPlaceholder (b : SQLBuilder) (p : string) : SQLBuilder :=
  mkSQLBuilder (Column b) (b_Descending b) p.

Definition WhereClause (b : SQLBuilder) (k : Keyset) : string * list string :=
  if negb (String.eqb (After k) "") then
    if b_Descending b then (Column b +:+ " < " +:+ Placeholder b, [After k])
    else (Column b +:+ " > " +:+ Placeholder b, [After k])
  else if negb (String.eqb (Before k) "") then
    if b_Descending b then (Column b +:+ " > " +:+ Placeholder b, [Before k])
    else (Column b +:+ " < " +:+ Placeholder b, [Before k])
  else ("", []).

Definition OrderClause (b : SQLBuilder) : string :=
  if b_Descending b then Column b +:+ " DESC" else Column b +:+ " ASC".

Definition LimitClause (k : Keyset) : string := "LIMIT " +:+ Itoa (int_add (k_Limit k) 1).

(** [data[:limit]] panics when [limit] is negative: [None]. *)
Definition ProcessResults {T : Type} (data : list T) (limit : Z) : option (list T * bool) :=
  if limit <? Z.of_nat (length data) then
    if limit <? 0 then None else Some (take (Z.to_nat limit) data, true)
  else Some (data, false).

(** ** Specification *)

(** The clauses run on a table whose column holds [rows], in ascending order;
    [ltb] is the order of the column. *)
Section sql.
Context (ltb : string -> string -> bool).

Definition where_matches (b : SQLBuilder) (clause : string) (args : list string) (v : string) : bool :=
  match args with
  | [] => String.eqb clause ""
  | [a] =>
      if String.eqb clause (Column b +:+ " > " +:+ Placeholder b) then ltb a v
      else if String.eqb clause (Column b +:+ " < " +:+ Placeholder b) then ltb v a else false
  | _ => false
  end.

Definition ordered (b : SQLBuilder) (clause : string) (rows : list string) : list string :=
  if String.eqb clause (Column b +:+ " ASC") then rows
  else if String.eqb clause (Column b +:+ " DESC") then rev rows else [].

Definition limited (clause : string) (rows : list string) : list string :=
  match Atoi (TrimPrefix clause "LIMIT ") with
  | Some n => take (Z.to_nat n) rows
  | None => []
  end.

Definition fetch (b : SQLBuilder) (k : Keyset) (rows : list string) : option (list string * bool) :=
  let '(clause, args) := WhereClause b k in
  ProcessResults
    (limited (LimitClause k)
       (ordered b (OrderClause b) (filter (fun v => where_matches b clause args v = true) rows)))
    (k_Limit k).

(** What a server reads from a URL: the settings after the question mark. *)
Definition query_of (url : string) : string -> string :=
  match cut_byte "?" url with
  | Some (_, rawQuery) => values_get (URL_Query rawQuery)
  | None => fun _ => ""
  end.

(** One request of a list served as the documentation shows it: the clauses of
    the request's keyset are run, and the links of the page go from its last
    row.  The page, and the URL of the next one. *)
Definition serve (b : SQLBuilder) (baseURL url : string) (rows : list string)
    : option (list string * string) :=
  let k := KeysetFromRequest (query_of url) in
  match fetch b k rows with
  | Some (data, hasMore) =>
      Some (data, kl_Next (keyset_links k hasMore (default "" (hd_error data))
                             (default "" (stdpp.list_basics.list.last data)) baseURL))
  | None => None
  end.

(** A client that follows the next links until a page has none: the pages. *)
Fixpoint walk (fuel : nat) (b : SQLBuilder) (baseURL url : string) (rows : list string)
    : list (list string) :=
  match fuel with
  | O => []
  | S fuel =>
      match serve b baseURL url rows with
      | Some (data, next) =>
          data :: (if String.eqb next "" then [] else walk fuel b baseURL next rows)
      | None => []
      end
  end.

(** The order of the pages. *)
Definition comes_before (b : SQLBuilder) (x y : string) : bool :=
  if b_Descending b then ltb y x else ltb x y.

Definition in_order (b : SQLBuilder) (rows : list string) : list string :=
  if b_Descending b then rev rows else rows.

End sql.

(** The page of number [k] of a list of [total] items. *)
Definition page_of (perPage total k : Z) : Page := SetTotal (New k perPage) total.

(** ** Pages by offset *)

Lemma New_bounds page perPage :
  1 <= p_Page (New page perPage) /\ 1 <= PerPage (New page perPage) <= 100.
Proof.
  unfold New, DefaultPage, DefaultPerPage, MaxPerPage. cbn.
  destruct (page <? 1) eqn:?, (perPage <? 1) eqn:?; cbn; split_ifs; lia.
Qed.

Lemma parseInt_range s def : in_int64 def = true -> in_int64 (parseInt s def) = true.
Proof.
  intros Hd. unfold parseInt. destruct (String.eqb s ""); [done|].
  destruct (Atoi s) as [n|] eqn:Ha; [|done]. destruct (n <? 1); [done|]. by apply (Atoi_range s).
Qed.

Lemma page_of_fields perPage total k :
  1 <= k -> 0 <= total <= max_int64 - 100 ->
  let p := page_of perPage total k in let n := PerPage (New k perPage) in
  p_Page p = k /\ PerPage p = n /\ 1 <= n <= 100 /\ Total p = total /\
  TotalPages p = (total + n - 1) / n.
Proof.
  intros Hk Ht p n. destruct (New_bounds k perPage) as [_ Hn]. fold n in Hn.
  unfold p, page_of, SetTotal. fold n. cbn [p_Page PerPage Total TotalPages].
  assert (p_Page (New k perPage) = k) as -> by (unfold New; cbn; by replace (k <? 1) with false by lia).
  replace (0 <? n) with true by lia. unfold int_sub, int_add.
  rewrite (wrap64_id (total + n)) by (unfold in_int64, min_int64, max_int64 in *; lia).
  rewrite wrap64_id by (unfold in_int64, min_int64, max_int64 in *; lia).
  rewrite Z.quot_div_nonneg by lia. lia.
Qed.

(** ** Settings of plain bytes *)

Lemma Contains_byte s c : Contains s (String c "") = string_has c s.
Proof. induction s as [|d s IH]; [done|]. cbn [Contains string_has HasPrefix]. rewrite IH. f_equal. rewrite Ascii.eqb_sym. by rewrite andb_true_r. Qed.

Lemma unreserved_has c s : string_forall unreserved s = true -> unreserved c = false -> string_has c s = false.
Proof. apply string_forall_has. Qed.

Lemma unescape_plain s : string_forall unreserved s = true -> QueryUnescape s = Some s.
Proof.
  induction s as [|c s IH]; [done|]. cbn [string_forall QueryUnescape]. intros [Hc Hs]%andb_prop.
  destruct (unreserved_plain c Hc) as [-> ->]. by rewrite IH.
Qed.

Lemma Itoa_unreserved n : 0 <= n -> string_forall unreserved (Itoa n) = true.
Proof.
  intros Hn. apply (string_forall_impl is_digit); [|by apply Itoa_digits].
  intros c Hc. unfold unreserved. by rewrite Hc.
Qed.

Lemma parse_setting m k v :
  string_forall unreserved k = true -> string_forall unreserved v = true ->
  parse_piece (m, true) (k +:+ "=" +:+ v) = (values_add m k v, true).
Proof.
  intros Hk Hv. unfold parse_piece. change ("=" +:+ v) with (String "=" v).
  rewrite string_has_app. cbn [string_has]. rewrite !(unreserved_has ";") by done.
  change (Ascii.eqb "=" ";") with false. cbn [orb].
  assert (String.eqb (k +:+ String "=" v) "" = false) as -> by (by destruct k).
  unfold parse_pair. rewrite cut_byte_app by by apply unreserved_has. by rewrite !unescape_plain.
Qed.

Lemma parseInt_Itoa n d : 1 <= n <= max_int64 -> parseInt (Itoa n) d = n.
Proof.
  intros Hn. unfold parseInt. rewrite Atoi_Itoa by (unfold in_int64, min_int64, max_int64 in *; lia).
  replace (n <? 1) with false by lia. destruct (String.eqb_spec (Itoa n) "") as [H|_]; [|done].
  pose proof (Atoi_Itoa n ltac:(unfold in_int64, min_int64, max_int64 in *; lia)) as Ha. by rewrite H in Ha.
Qed.

(** ** Pages by key *)

Section keyset.
Context (ltb : string -> string -> bool).
Context (ltb_irrefl : forall x, ltb x x = false).
Context (ltb_trans : forall x y z, ltb x y = true -> ltb y z = true -> ltb x z = true).

Lemma string_app_inj_l a b c : a +:+ b = a +:+ c -> b = c.
Proof. induction a as [|x a IH]; cbn; [done|]. intros [=]; auto. Qed.

Lemma order_clause_desc b : String.eqb (Column b +:+ " DESC") (Column b +:+ " ASC") = false.
Proof. apply String.eqb_neq. intros H. by apply string_app_inj_l in H. Qed.

Lemma where_lt_gt b :
  String.eqb (Column b +:+ " < " +:+ Placeholder b) (Column b +:+ " > " +:+ Placeholder b) = false.
Proof. apply String.eqb_neq. intros H. by apply string_app_inj_l in H. Qed.

Lemma limited_spec k rows :
  0 <= k_Limit k < max_int64 ->
  limited (LimitClause k) rows = take (Z.to_nat (k_Limit k + 1)) rows.
Proof.
  intros Hk. unfold limited, LimitClause, TrimPrefix.
  assert (HasPrefix ("LIMIT " +:+ Itoa (int_add (k_Limit k) 1)) "LIMIT " = true) as ->
    by (apply HasPrefix_spec; eauto).
  rewrite str_drop_app. unfold int_add.
  rewrite wrap64_id by (unfold in_int64, min_int64, max_int64 in *; lia).
  rewrite Atoi_Itoa by (unfold in_int64, min_int64, max_int64 in *; lia). done.
Qed.

Lemma ordered_spec b rows : ordered b (OrderClause b) rows = in_order b rows.
Proof.
  unfold ordered, OrderClause, in_order. destruct (b_Descending b).
  - by rewrite order_clause_desc, String.eqb_refl.
  - by rewrite String.eqb_refl.
Qed.

(** What a query returns, in terms of the order of the pages. *)
Lemma fetch_spec b k rows :
  0 <= k_Limit k < max_int64 ->
  let sel v :=
    if negb (String.eqb (After k) "") then comes_before ltb b (After k) v
    else if negb (String.eqb (Before k) "") then comes_before ltb b v (Before k) else true in
  let found := filter (fun v => sel v = true) (in_order b rows) in
  fetch ltb b k rows =
    Some (take (Z.to_nat (k_Limit k)) found, k_Limit k <? Z.of_nat (length found)).
Proof.
  intros Hk sel found. unfold fetch. destruct (WhereClause b k) as [clause args] eqn:Hw.
  rewrite limited_spec, ordered_spec by done.
  assert (in_order b (filter (fun v => where_matches ltb b clause args v = true) rows) = found) as ->.
  { unfold found, in_order.
    assert (forall v, where_matches ltb b clause args v = sel v) as Hsel.
    { intros v. unfold WhereClause, where_matches, sel, comes_before in *.
      destruct (negb (String.eqb (After k) "")), (negb (String.eqb (Before k) "")),
        (b_Descending b); simplify_eq; rewrite ?where_lt_gt, ?String.eqb_refl; done. }
    destruct (b_Descending b); rewrite ?filter_rev; [f_equal|]; apply list_filter_iff;
      intros v; by rewrite Hsel. }
  unfold ProcessResults. rewrite length_take.
  destruct (k_Limit k <? Z.of_nat (length found)) eqn:E.
  - replace (k_Limit k <? Z.of_nat (Z.to_nat (k_Limit k + 1) `min` length found)) with true by lia.
    replace (k_Limit k <? 0) with false by lia. rewrite take_take. do 3 f_equal. lia.
  - replace (k_Limit k <? Z.of_nat (Z.to_nat (k_Limit k + 1) `min` length found)) with false by lia.
    rewrite !take_ge by lia. done.
Qed.

Context (b : SQLBuilder).

#[local] Abbreviation before := (comes_before ltb b).

Lemma before_irrefl x : before x x = false.
Proof. unfold comes_before. by destruct (b_Descending b). Qed.

Lemma before_trans x y z : before x y = true -> before y z = true -> before x z = true.
Proof. unfold comes_before. destruct (b_Descending b); eauto. Qed.

Lemma before_asym x y : before x y = true -> before y x = false.
Proof.
  intros Hxy. destruct (before y x) eqn:Hyx; [|done].
  pose proof (before_trans _ _ _ Hxy Hyx). by rewrite before_irrefl in H.
Qed.

(** The rows after the last one of a prefix are the rest, those that tie with
    that one left out. *)
Lemma filter_after pre a same post :
  Forall (fun x => before a x = false) pre -> Forall (fun x => before a x = false) same ->
  Forall (fun x => before a x = true) post ->
  filter (fun v => before a v = true) ((pre ++ [a]) ++ same ++ post)%list = post.
Proof.
  intros Hpre Hsame Hpost. rewrite !list.filter_app.
  assert (filter (fun v => before a v = true) pre = []) as ->
    by (apply filter_none; intros x Hx; rewrite list.Forall_forall in Hpre; by rewrite Hpre).
  assert (filter (fun v => before a v = true) [a] = []) as ->
    by (apply filter_none; intros x ->%list_elem_of_singleton; by rewrite before_irrefl).
  assert (filter (fun v => before a v = true) same = []) as ->
    by (apply filter_none; intros x Hx; rewrite list.Forall_forall in Hsame; by rewrite Hsame).
  cbn [app]. apply filter_all. by rewrite <- list.Forall_forall.
Qed.

(** The rows before one are the prefix. *)
Lemma filter_before pre a post :
  StronglySorted (fun x y => before x y = true) (pre ++ a :: post)%list ->
  filter (fun v => before v a = true) (pre ++ a :: post)%list = pre.
Proof.
  intros Hs. rewrite list.filter_app.
  assert (filter (fun v => before v a = true) (a :: post) = []) as ->.
  { apply filter_none. intros x [->|Hx]%elem_of_cons; [by rewrite before_irrefl|].
    apply StronglySorted_app_1_r in Hs. apply StronglySorted_inv in Hs as [_ Hs].
    rewrite list.Forall_forall in Hs. by rewrite (before_asym _ _ (Hs x Hx)). }
  rewrite app_nil_r. apply filter_all. intros x Hx.
  apply (StronglySorted_app_1_elem_of _ pre (a :: post) x a Hs Hx). by left.
Qed.

(** The next link carries a key of plain bytes to the server. *)
Lemma link_read baseURL n key :
  string_has "?" baseURL = false -> 1 <= n <= 100 -> string_forall unreserved key = true ->
  KeysetFromRequest (query_of (buildKeysetURL baseURL n key "")) = mkKeyset n key "" "" false.
Proof.
  intros Hbase Hn Hkey. unfold buildKeysetURL, sep_of. rewrite Contains_byte, Hbase. cbn [String.eqb negb].
  set (limit := "limit=" +:+ Itoa n). set (after := "after=" +:+ key).
  assert (forall q, query_of (baseURL +:+ "?" +:+ q) = values_get (URL_Query q)) as Hq.
  { intros q. unfold query_of. change ("?" +:+ q) with (String "?" q). by rewrite cut_byte_app. }
  pose proof (Itoa_unreserved n ltac:(lia)) as Hi.
  assert (forall m, parse_piece (m, true) limit = (values_add m "limit" (Itoa n), true)) as Hl
    by (intros m; by apply (parse_setting m "limit")).
  assert (forall m, parse_piece (m, true) after = (values_add m "after" key, true)) as Ha
    by (intros m; by apply (parse_setting m "after")).
  assert (string_has "&" limit = false) as Hl2 by (unfold limit; cbn; by apply (unreserved_has "&")).
  assert (string_has "&" after = false) as Ha2 by (unfold after; cbn; by apply (unreserved_has "&")).
  destruct (String.eqb_spec key "") as [->|Hne]; cbn [negb].
  - rewrite <- ?string_app_assoc. fold limit. rewrite Hq. unfold URL_Query, ParseQuery.
    change (String.eqb limit "") with false. cbv iota. rewrite split_byte_none by done.
    cbn [fold_left]. rewrite Hl. unfold KeysetFromRequest. cbn [fst]. unfold values_add. rewrite lookup_empty.
    unfold values_get. rewrite lookup_insert_eq, !lookup_insert_ne, lookup_empty by done. cbn [default from_option id app].
    rewrite parseInt_Itoa by (unfold max_int64; lia). unfold MaxPerPage. by replace (100 <? n) with false by lia.
  - replace ((baseURL +:+ "?" +:+ limit) +:+ "&after=" +:+ key)
      with (baseURL +:+ "?" +:+ (limit +:+ String "&" after))
      by (unfold limit, after; by rewrite <- !string_app_assoc).
    rewrite Hq. unfold URL_Query, ParseQuery.
    change (String.eqb (limit +:+ String "&" after) "") with false. cbv iota.
    rewrite split_byte_app, split_byte_none by done. cbn [fold_left]. rewrite Hl, Ha.
    unfold KeysetFromRequest. cbn [fst]. unfold values_add. rewrite lookup_empty, lookup_insert_ne, lookup_empty by done.
    unfold values_get. rewrite !lookup_insert_eq, (lookup_insert_ne _ "after" "limit"), !lookup_insert_eq by done.
    rewrite !lookup_insert_ne, lookup_empty by done. cbn [default from_option id app].
    rewrite parseInt_Itoa by (unfold max_int64; lia). unfold MaxPerPage. by replace (100 <? n) with false by lia.
Qed.

(** A page, and whether its link leads on. *)
Lemma serve_spec baseURL n after rows :
  string_has "?" baseURL = false -> 1 <= n <= 100 -> string_forall unreserved after = true ->
  Forall (fun x => x <> "") rows ->
  let found := filter (fun v => (if negb (String.eqb after "") then before after v else true) = true) (in_order b rows) in
  let data := take (Z.to_nat n) found in
  serve ltb b baseURL (buildKeysetURL baseURL n after "") rows =
    Some (data, if n <? Z.of_nat (length found)
                then buildKeysetURL baseURL n (default "" (stdpp.list_basics.list.last data)) "" else "").
Proof.
  intros Hbase Hn Hkey Hne found data. unfold serve. rewrite link_read by done.
  rewrite fetch_spec by (cbn; unfold max_int64; lia). cbn [k_Limit After Before].
  change (negb (String.eqb "" "")) with false. cbv iota. fold found data.
  unfold keyset_links. cbn [kl_Next k_Limit]. destruct (Z.ltb_spec n (Z.of_nat (length found))) as [Hlt|_]; [|done].
  destruct (stdpp.list_basics.list.last data) as [a|] eqn:Hlast.
  - cbn [default from_option id]. assert (a <> "") as Hane; [|apply String.eqb_neq in Hane; by rewrite Hane].
    rewrite list.Forall_forall in Hne. apply Hne. apply last_Some_elem_of in Hlast.
    apply elem_of_take in Hlast as (i & Hi & _). apply list_elem_of_lookup_2, list_elem_of_filter in Hi as [_ Hi].
    unfold in_order in Hi. destruct (b_Descending b); [|done]. apply list_elem_of_In, in_rev in Hi. by apply list_elem_of_In.
  - apply last_None, (f_equal length) in Hlast. unfold data in Hlast. rewrite length_take in Hlast. cbn in Hlast. lia.
Qed.

Lemma buildKeysetURL_nonempty baseURL n after before : String.eqb (buildKeysetURL baseURL n after before) "" = false.
Proof.
  apply String.eqb_neq. unfold buildKeysetURL, sep_of. intros H.
  destruct (Contains baseURL "?"), (negb (String.eqb after "")), (negb (String.eqb before "")), baseURL; discriminate.
Qed.

(** A list in order: no row comes before an earlier one, and rows that tie are
    not parted by the end of a page. *)
Definition ordered_rows (rows : list string) : Prop :=
  StronglySorted (fun x y => before y x = false) rows.

Definition pages_apart (n : nat) (rows : list string) : Prop :=
  forall i x y, rows !! i = Some x -> rows !! S i = Some y -> (S i mod n = 0)%nat -> before x y = true.

Context (ltb_weak : forall x y z, ltb x y = true -> ltb x z = true \/ ltb z y = true).

Lemma before_weak x y z : before x y = true -> before z y = false -> before x z = true.
Proof. unfold comes_before. destruct (b_Descending b); intros H1 H2; destruct (ltb_weak _ _ z H1); congruence. Qed.

(** What follows the end of a page comes after its last row. *)
Lemma page_end n pre a post :
  ordered_rows ((pre ++ [a]) ++ post)%list -> pages_apart n ((pre ++ [a]) ++ post)%list ->
  (S (length pre) mod n = 0)%nat ->
  Forall (fun x => before a x = false) pre /\ Forall (fun x => before a x = true) post.
Proof.
  intros Ho Hp Hn. split.
  - apply list.Forall_forall. intros x Hx. rewrite <- app_assoc in Ho.
    apply (StronglySorted_app_1_elem_of _ pre ([a] ++ post)%list x a Ho Hx). by left.
  - destruct post as [|y post]; [done|].
    assert (before a y = true) as Hay.
    { apply (Hp (length pre) a y); [| |done].
      - rewrite <- app_assoc. by apply list_lookup_middle.
      - apply list_lookup_middle. rewrite length_app. cbn. lia. }
    constructor; [done|]. apply StronglySorted_app_1_r, StronglySorted_inv in Ho as [_ Ho].
    eapply Forall_impl; [|exact Ho]. intros z Hz. by apply (before_weak a y).
Qed.

Context (baseURL : string) (Hbase : string_has "?" baseURL = false).

Lemma walk_spec n fuel pre after post rows :
  1 <= n <= 100 -> in_order b rows = (pre ++ post)%list ->
  ordered_rows (pre ++ post)%list -> pages_apart (Z.to_nat n) (pre ++ post)%list ->
  Forall (fun x => x <> "" /\ string_forall unreserved x = true) (pre ++ post)%list ->
  Forall (fun x => x <> "") rows ->
  (length pre mod Z.to_nat n = 0)%nat -> after = default "" (stdpp.list_basics.list.last pre) ->
  (length post < fuel)%nat ->
  mjoin (walk ltb fuel b baseURL (buildKeysetURL baseURL n after "") rows) = post.
Proof.
  intros Hn. revert pre after post.
  induction fuel as [|fuel IH]; intros pre after post Hr Ho Hp Hk Hne Hm Ha Hf; [lia|]. cbn [walk].
  assert (string_forall unreserved after = true /\
    filter (fun v => (if negb (String.eqb after "") then before after v else true) = true) (in_order b rows) = post)
    as [Hu Hfound].
  { rewrite Hr. destruct (stdpp.list_basics.list.last pre) as [a|] eqn:Hlast; cbn [default from_option id] in Ha; subst after.
    - apply last_Some in Hlast as [pre' ->].
      assert (a <> "" /\ string_forall unreserved a = true) as [Hane Hu]
        by (rewrite list.Forall_forall in Hk; apply Hk; rewrite !elem_of_app; left; right; by left).
      split; [done|]. apply String.eqb_neq in Hane. rewrite Hane. cbn [negb].
      rewrite length_app in Hm. cbn [length] in Hm. rewrite Nat.add_1_r in Hm.
      destruct (page_end _ _ _ _ Ho Hp Hm). by apply (filter_after pre' a []).
    - split; [done|]. apply last_None in Hlast as ->. by apply filter_all. }
  rewrite serve_spec, Hfound by done. clear Hfound Hu.
  destruct (Z.ltb_spec n (Z.of_nat (length post))) as [Hlt|Hge].
  - rewrite buildKeysetURL_nonempty. cbn [mjoin list_join]. set (data := take (Z.to_nat n) post).
    assert (length data = Z.to_nat n) as Hdata by (unfold data; rewrite length_take; lia).
    assert (post = data ++ drop (Z.to_nat n) post)%list as Hpost by (symmetry; apply take_drop).
    rewrite Hpost at 1. f_equal. rewrite Hpost, app_assoc in Hr, Ho, Hp, Hk.
    apply (IH (pre ++ data)%list); try done.
    + rewrite length_app, Hdata, <- Nat.Div0.add_mod_idemp_l, Hm. apply Nat.Div0.mod_same.
    + rewrite last_app. destruct (stdpp.list_basics.list.last data) eqn:Hlast; [done|].
      apply last_None in Hlast. rewrite Hlast in Hdata. cbn in Hdata. lia.
    + rewrite length_drop. lia.
  - cbn [String.eqb mjoin list_join]. rewrite app_nil_r. apply take_ge. lia.
Qed.
End keyset.

(** ** Theorems *)

(** Pages partition the items: of the pages of a list of [total] items exactly
    one holds item [i], from its offset and within its limit; and a page has a
    next one exactly when items come after it. *)
Theorem pages_partition perPage total i :
  0 <= i < total -> total <= max_int64 - 100 ->
  (exists k, (1 <= k <= TotalPages (page_of perPage total k) /\
      Offset (page_of perPage total k) <= i <
      Offset (page_of perPage total k) + Page_Limit (page_of perPage total k)) /\
    forall k', 1 <= k' <= TotalPages (page_of perPage total k') ->
      Offset (page_of perPage total k') <= i <
      Offset (page_of perPage total k') + Page_Limit (page_of perPage total k') -> k' = k) /\
  forall k, 1 <= k <= TotalPages (page_of perPage total k) ->
    let p := page_of perPage total k in
    (HasNext p = true <-> Offset p + Page_Limit p < total).
Proof.
  intros Hi Ht. set (n := PerPage (New 1 perPage)).
  destruct (New_bounds 1 perPage) as [_ Hn]. fold n in Hn.
  set (T := (total + n - 1) / n).
  assert (n * T <= total + n - 1 < n * T + n) as HT.
  { unfold T. pose proof (Z.mul_div_le (total + n - 1) n). pose proof (Z.mul_succ_div_gt (total + n - 1) n). lia. }
  assert (forall k, 1 <= k -> PerPage (page_of perPage total k) = n /\
    p_Page (page_of perPage total k) = k /\ Total (page_of perPage total k) = total /\
    TotalPages (page_of perPage total k) = T) as Hf.
  { intros k Hk. destruct (page_of_fields perPage total k Hk ltac:(lia)) as (H1 & H2 & H3 & H4 & H5). done. }
  assert (forall k, 1 <= k <= T ->
    Offset (page_of perPage total k) = (k - 1) * n /\ Page_Limit (page_of perPage total k) = n) as Ho.
  { intros k Hk. destruct (Hf k ltac:(lia)) as (Hp & Hpg & _ & Htp).
    assert (0 <= (k - 1) * n < total) as Hlt by nia.
    unfold Offset, Page_Limit. rewrite Hp, Hpg. replace (k <? 1) with false by lia.
    split; [|done]. unfold int_mul, int_sub.
    rewrite (wrap64_id (k - 1)) by (unfold in_int64, min_int64, max_int64 in *; nia).
    apply wrap64_id. unfold in_int64, min_int64, max_int64 in *. lia. }
  assert (n * (i / n) <= i < n * (i / n) + n /\ 0 <= i / n) as [Hq Hq0].
  { pose proof (Z.mul_div_le i n). pose proof (Z.mul_succ_div_gt i n).
    pose proof (Z.div_pos i n). lia. }
  set (q := i / n) in *. clearbody T q n.
  assert (q + 1 <= T) as HqT by nia.
  split.
  - exists (q + 1). destruct (Hf (q + 1) ltac:(lia)) as (_ & _ & _ & ->).
    destruct (Ho (q + 1) ltac:(lia)) as [-> ->]. split; [split; nia|].
    intros k' Hk' Hr. destruct (Hf k' ltac:(lia)) as (_ & _ & _ & HTk). rewrite HTk in Hk'.
    destruct (Ho _ Hk') as [Ho1 Ho2]. rewrite Ho1, Ho2 in Hr. nia.
  - intros k Hk p. destruct (Hf k ltac:(lia)) as (_ & Hpg & Htot & HTk). rewrite HTk in Hk.
    destruct (Ho _ Hk) as [Ho1 Ho2]. unfold p. rewrite Ho1, Ho2. unfold HasNext.
    rewrite Hpg, Htot, HTk. replace (total =? 0) with false by lia. rewrite Z.ltb_lt. nia.
Qed.

Lemma pages_partition_witness :
  (exists k, (1 <= k <= TotalPages (page_of 10 101 k) /\
      Offset (page_of 10 101 k) <= 100 < Offset (page_of 10 101 k) + Page_Limit (page_of 10 101 k)) /\
    forall k', 1 <= k' <= TotalPages (page_of 10 101 k') ->
      Offset (page_of 10 101 k') <= 100 < Offset (page_of 10 101 k') + Page_Limit (page_of 10 101 k') ->
      k' = k) /\
  forall k, 1 <= k <= TotalPages (page_of 10 101 k) ->
    let p := page_of 10 101 k in (HasNext p = true <-> Offset p + Page_Limit p < 101).
Proof. apply (pages_partition 10 101 100); [lia | unfold max_int64; lia]. Defined.

(** Whatever a request asks for, the page number is at least 1 and the page
    size between 1 and 100, with the defaults of the caller or without, and the
    page size of a request is that of the caller's bounds only below 100. *)
Theorem FromRequest_bounds q defaultPerPage maxPerPage :
  (1 <= p_Page (FromRequest q) /\ 1 <= PerPage (FromRequest q) <= 100) /\
  (1 <= p_Page (FromRequestWithDefaults q defaultPerPage maxPerPage) /\
   1 <= PerPage (FromRequestWithDefaults q defaultPerPage maxPerPage) <= 100) /\
  PerPage (FromRequestWithDefaults q defaultPerPage maxPerPage) =
    (let asked := parseInt (q "per_page") 0 in
     let asked := if asked =? 0 then parseInt (q "limit") defaultPerPage else asked in
     let wanted := Z.min (if asked <? 1 then defaultPerPage else asked) maxPerPage in
     if wanted <? 1 then 20 else Z.min wanted 100).
Proof.
  split; [apply New_bounds|]. split; [apply New_bounds|].
  unfold FromRequestWithDefaults. cbv zeta.
  set (asked := if parseInt (q "per_page") 0 =? 0 then _ else _).
  set (w := if asked <? 1 then _ else _). unfold New, DefaultPerPage, MaxPerPage. cbn [PerPage].
  replace (Z.min w maxPerPage) with (if maxPerPage <? w then maxPerPage else w)
    by (destruct (maxPerPage <? w) eqn:?; lia).
  set (m := if maxPerPage <? w then _ else _).
  destruct (m <? 1) eqn:E; [done|]. destruct (100 <? m) eqn:E2; lia.
Qed.

(** A page number near the largest int gives a negative offset, and a maximum
    above 100 is not honoured. *)
Theorem FromRequest_wraps :
  let q k := if String.eqb k "page" then "9223372036854775807"
             else if String.eqb k "per_page" then "100" else "" in
  Offset (FromRequest q) = -200 /\
  PerPage (FromRequestWithDefaults (fun k => if String.eqb k "per_page" then "400" else "") 50 500) = 100.
Proof. split; vm_compute; reflexivity. Qed.

(** C34. A client that follows the next links from the first page sees every row
    once and in order, when rows that tie in the column are never parted by the
    end of a page (in particular when no two tie): whatever the order of the
    column, the direction and the page size asked for (1 to 100), the pages
    together are the rows.  The keys are non-empty and of letters, digits, [-],
    [_], [.] and [~], which the links carry unescaped, and the base URL has no
    query of its own.  A tie across the end of a page loses rows
    ([keyset_ties_lost]), and other keys are not read back ([link_unescaped]). *)
Theorem keyset_walk ltb b baseURL n rows :
  (forall x, ltb x x = false) ->
  (forall x y z, ltb x y = true -> ltb y z = true -> ltb x z = true) ->
  (forall x y z, ltb x y = true -> ltb x z = true \/ ltb z y = true) ->
  string_has "?" baseURL = false -> 1 <= n <= 100 ->
  ordered_rows ltb b (in_order b rows) -> pages_apart ltb b (Z.to_nat n) (in_order b rows) ->
  Forall (fun x => x <> "" /\ string_forall unreserved x = true) rows ->
  mjoin (walk ltb (S (length rows)) b baseURL (buildKeysetURL baseURL n "" "") rows) = in_order b rows.
Proof.
  intros Hirr Htr Hweak Hbase Hn Ho Hp Hk.
  apply (walk_spec ltb Hirr b Hweak baseURL Hbase n _ []); try done.
  - unfold in_order. destruct (b_Descending b); [|done]. apply list.Forall_forall. intros x Hx.
    rewrite list.Forall_forall in Hk. apply Hk. apply list_elem_of_In, in_rev in Hx. by apply list_elem_of_In.
  - eapply Forall_impl; [|exact Hk]. by intros x [].
  - apply Nat.Div0.mod_0_l.
  - unfold in_order. destruct (b_Descending b); rewrite ?length_rev; lia.
Qed.

Definition by_length (x y : string) : bool := (String.length x <? String.length y)%nat.

Lemma keyset_walk_witness :
  walk by_length 5 (NewSQLBuilder "id" true) "/items" "/items?limit=2" ["a"; "bb"; "cc"; "ddd"] =
    [["ddd"; "cc"]; ["a"]] /\
  mjoin (walk by_length 5 (NewSQLBuilder "id" true) "/items" (buildKeysetURL "/items" 3 "" "")
           ["a"; "bb"; "cc"; "ddd"]) = ["ddd"; "cc"; "bb"; "a"].
Proof.
  split; [vm_compute; reflexivity|].
  apply (keyset_walk by_length (NewSQLBuilder "id" true) "/items" 3 ["a"; "bb"; "cc"; "ddd"]).
  - intros x. unfold by_length. apply Nat.ltb_irrefl.
  - intros x y z. unfold by_length. rewrite !Nat.ltb_lt. lia.
  - intros x y z. unfold by_length. rewrite !Nat.ltb_lt. lia.
  - reflexivity.
  - lia.
  - repeat constructor.
  - intros [|[|[|[|i]]]] x y; cbn; intros; simplify_eq; try done.
  - repeat constructor; discriminate.
Defined.

(** Rows that tie with the last row of a page are on no page: the page after it
    begins with the rows strictly after that one. *)
Theorem keyset_ties_lost ltb b baseURL n pre a same post rows :
  (forall x, ltb x x = false) ->
  string_has "?" baseURL = false -> 1 <= n <= 100 ->
  in_order b rows = ((pre ++ [a]) ++ same ++ post)%list -> Z.of_nat (length (pre ++ [a])%list) = n ->
  Forall (fun x => comes_before ltb b a x = false) (pre ++ same)%list ->
  Forall (fun x => comes_before ltb b a x = true) post -> same <> [] ->
  Forall (fun x => x <> "" /\ string_forall unreserved x = true) rows ->
  serve ltb b baseURL (buildKeysetURL baseURL n "" "") rows =
    Some ((pre ++ [a])%list, buildKeysetURL baseURL n a "") /\
  exists next, serve ltb b baseURL (buildKeysetURL baseURL n a "") rows = Some (take (Z.to_nat n) post, next).
Proof.
  intros Hirr Hbase Hn Hr Hlen [Hpre Hsame]%Forall_app Hpost Hnil Hk.
  assert (Forall (fun x => x <> "") rows) as Hne by (eapply Forall_impl; [|exact Hk]; by intros x []).
  assert (a <> "" /\ string_forall unreserved a = true) as [Hane Hu].
  { rewrite list.Forall_forall in Hk. apply Hk. assert (a ∈ in_order b rows) as Ha
      by (rewrite Hr, !elem_of_app; left; right; by left).
    unfold in_order in Ha. destruct (b_Descending b); [|done].
    apply list_elem_of_In, in_rev in Ha. by apply list_elem_of_In. }
  rewrite !serve_spec by done. apply String.eqb_neq in Hane. rewrite Hane, !Hr. cbn [String.eqb negb].
  rewrite (filter_after ltb Hirr b pre a same post), filter_all by done. split; [|by eexists].
  rewrite take_app_length' by lia. rewrite last_snoc. cbn [default from_option id].
  rewrite !length_app in *. destruct same; [done|]. cbn [length] in *.
  by rewrite (proj2 (Z.ltb_lt n _)) by lia.
Qed.

Lemma keyset_ties_lost_witness :
  exists next, serve String.ltb (NewSQLBuilder "created_at" false) "/items" (buildKeysetURL "/items" 2 "10" "")
    ["09"; "10"; "10"; "11"] = Some (["11"], next).
Proof.
  apply (keyset_ties_lost String.ltb (NewSQLBuilder "created_at" false) "/items" 2 ["09"] "10" ["10"] ["11"]
    ["09"; "10"; "10"; "11"]); try reflexivity; try lia; try discriminate; try (repeat constructor; discriminate).
  intros x. unfold String.ltb. induction x as [|c x IH]; [done|]. cbn. unfold Ascii.compare. by rewrite N.compare_refl.
Defined.

(** A key with a plus sign, like a timestamp east of Greenwich, is not the one
    that the link brings back; one with an ampersand sets other settings. *)
Theorem link_unescaped :
  After (KeysetFromRequest (query_of (buildKeysetURL "/items" 20 "2024-05-01T10:00:00+02:00" ""))) =
    "2024-05-01T10:00:00 02:00" /\
  KeysetFromRequest (query_of (buildKeysetURL "/items" 20 "7&limit=1" "")) =
    KeysetFromRequest (query_of (buildKeysetURL "/items" 20 "7" "")).
Proof. split; vm_compute; reflexivity. Qed.

(** The previous page is not the one before: the clauses of a [Before] keep the
    order of the column, so that the page asked for before a row is the first
    page of all, with the rows right before that one missing as soon as there
    are more than a page of them. *)
Theorem keyset_before_restarts ltb b limit pre a post rows :
  (forall x, ltb x x = false) ->
  (forall x y z, ltb x y = true -> ltb y z = true -> ltb x z = true) ->
  0 <= limit < max_int64 -> a <> "" ->
  in_order b rows = (pre ++ a :: post)%list ->
  StronglySorted (fun x y => comes_before ltb b x y = true) (pre ++ a :: post)%list ->
  fetch ltb b (mkKeyset limit "" a (Column b) (b_Descending b)) rows =
    Some (take (Z.to_nat limit) pre, limit <? Z.of_nat (length pre)).
Proof.
  intros Hirr Htr Hl Ha Hr Hs. rewrite fetch_spec by (cbn; lia). cbn [k_Limit After Before].
  apply String.eqb_neq in Ha. rewrite Ha, Hr. cbn [String.eqb negb].
  by rewrite (filter_before ltb Hirr Htr b pre a post Hs).
Qed.

Lemma keyset_before_restarts_witness :
  fetch by_length (NewSQLBuilder "id" false) (mkKeyset 1 "" "ccc" "id" false) ["a"; "bb"; "ccc"; "dddd"] =
    Some (["a"], true).
Proof.
  apply (keyset_before_restarts by_length (NewSQLBuilder "id" false) 1 ["a"; "bb"] "ccc" ["dddd"]
    ["a"; "bb"; "ccc"; "dddd"]).
  - intros x. unfold by_length. apply Nat.ltb_irrefl.
  - intros x y z. unfold by_length. rewrite !Nat.ltb_lt. lia.
  - unfold max_int64. lia.
  - discriminate.
  - reflexivity.
  - repeat constructor.
Defined.

(** Cursors round-trip: what [EncodeCursor] encodes [DecodeCursor] decodes, for
    every codec that reads back what it writes and writes no empty text; so do
    the cursors by ID and by time. *)
Theorem cursor_round_trip {T : Type} (Marshal : T -> option string)
    (Unmarshal : string -> T -> option T) data cursor dest :
  (forall x b d, Marshal x = Some b -> b <> "" /\ Unmarshal b d = Some x) ->
  EncodeCursor Marshal data = Ok cursor -> DecodeCursor Unmarshal cursor dest = Ok data.
Proof.
  intros Hcodec He. unfold EncodeCursor, DecodeCursor in *.
  destruct (Marshal data) as [b|] eqn:Hm; [|done]. simplify_eq.
  destruct (Hcodec _ _ dest Hm) as [Hne Hu].
  destruct (String.eqb_spec (b64_encode b) "") as [H|_]; [by apply b64_encode_empty in H|].
  by rewrite b64_round_trip, Hu.
Qed.

Lemma cursor_round_trip_witness :
  let Marshal c := if String.eqb (LastID c) "ab" && String.eqb (id_Direction c) "next"
                   then Some "{id:ab}" else None in
  let Unmarshal b (d : IDCursor) := if String.eqb b "{id:ab}" then Some (mkIDCursor "ab" "next") else None in
  DecodeCursor Unmarshal "e2lkOmFifQ" (mkIDCursor "" "") = Ok (mkIDCursor "ab" "next").
Proof.
  intros Marshal Unmarshal. apply (cursor_round_trip Marshal Unmarshal (mkIDCursor "ab" "next")).
  - intros [id dir] b d Hm. unfold Marshal in Hm. cbn [LastID id_Direction] in Hm.
    destruct (String.eqb_spec id "ab") as [->|]; [|done].
    destruct (String.eqb_spec dir "next") as [->|]; [|done].
    injection Hm as <-. split; [discriminate|reflexivity].
  - vm_compute. reflexivity.
Defined.

(** An ID is put into the URL as it is: two different keysets have the same URL. *)
Theorem buildKeysetURL_clash :
  buildKeysetURL "/items" 10 "7&before=9" "" = buildKeysetURL "/items" 10 "7" "9".
Proof. vm_compute. reflexivity. Qed.
