(* ===== verification/Session.v ===== *)
(** * Sessions ([pantry/session])

    The session object, the store interface with the promises the manager relies
    on, the store in memory, the manager, and the middleware that saves a session
    while a handler runs.

    Random IDs and the requests' clock are arguments.  A copy of session data is
    a copy of its map; the values themselves are not changed in place. *)

From S2P Require Import Prelude Float64 GoStrings.

(** ** Sessions ([session.go]) *)

(** The dynamic type of a value matters to the typed getters. *)
Inductive value :=
| VString (s : string)
| VInt (n : Z)
| VInt64 (n : Z)
| VFloat64 (f : float64)
| VBool (b : bool)
| VTime (t : Time)
| VOther (n : Z).

Record Session := mkSession {
  id : string;
  data : gmap string value;
  isNew : bool;
  modified : bool;
  expiresAt : Time
}.

Definition Session_Get (s : Session) (key : string) : option value := data s !! key.

Definition GetString (s : Session) (key : string) : string :=
  match Session_Get s key with Some (VString str) => str | _ => "" end.

(** [oob] is what converting a float outside the range of int gives. *)
Definition GetInt (oob : float64 -> Z) (s : Session) (key : string) : Z :=
  match Session_Get s key with
  | Some (VInt v) => v
  | Some (VFloat64 v) => f64_to_int64 oob v
  | Some (VInt64 v) => v
  | _ => 0
  end.

Definition GetBool (s : Session) (key : string) : bool :=
  match Session_Get s key with Some (VBool b) => b | _ => false end.

(** [Parse] is [time.Parse] for RFC 3339, with the zero time for an error. *)
Definition GetTime (Parse : string -> Time) (s : Session) (key : string) : Time :=
  match Session_Get s key with
  | Some (VTime t) => t
  | Some (VString v) => Parse v
  | _ => zero_time
  end.

Definition with_data (s : Session) (d : gmap string value) : Session :=
  mkSession (id s) d (isNew s) true (expiresAt s).

Definition Session_Set (s : Session) (key : string) (v : value) : Session :=
  with_data s (<[key := v]> (data s)).

Definition Session_Delete (s : Session) (key : string) : Session := with_data s (delete key (data s)).

Definition Session_Clear (s : Session) : Session := with_data s ∅.

Definition Session_Keys (s : Session) : list string := (map_to_list (data s)).*1.

(** ** Stores *)

Record SessionData := mkSessionData {
  sd_ID : string;
  sd_Data : gmap string value;
  sd_ExpiresAt : Time;
  sd_CreatedAt : Time;
  sd_UpdatedAt : Time
}.

Inductive session_error :=
| ErrNotFound
| ErrExpired
| ErrInvalidSession
| GeneratorError
| BackendError (msg : string).

Class Store (S : Type) := {
  Load : S -> Time -> string -> result session_error SessionData;
  Save_ : S -> Time -> SessionData -> S * option session_error;
  Delete : S -> string -> S * option session_error
}.

(** What a store promises while its backend answers: it keeps what it is given
    until it expires, by ID, and forgets what is deleted.  [store_ok] is its
    invariant. *)
Class StoreLaws (S : Type) `{Store S} := {
  store_ok : S -> Prop;
  law_save_ok s t d : store_ok s -> store_ok (Save_ s t d).1;
  law_delete_ok s i : store_ok s -> store_ok (Delete s i).1;
  law_save_load s t d s' t' :
    Save_ s t d = (s', None) -> t < sd_ExpiresAt d -> t' < sd_ExpiresAt d ->
    Load s' t' (sd_ID d) = Ok d;
  law_save_other s t d s' t' i :
    Save_ s t d = (s', None) -> i <> sd_ID d -> Load s' t' i = Load s t' i;
  law_load s t i d : store_ok s -> Load s t i = Ok d -> sd_ID d = i;
  law_delete s i s' t' j :
    Delete s i = (s', None) ->
    if decide (i = j) then forall d, Load s' t' j <> Ok d else Load s' t' j = Load s t' j
}.

(** ** The store in memory ([memory.go]) *)

Definition copySessionData (d : SessionData) : SessionData :=
  mkSessionData (sd_ID d) (sd_Data d) (sd_ExpiresAt d) (sd_CreatedAt d) (sd_UpdatedAt d).

Record MemoryStore := mkMemoryStore { sessions : gmap string SessionData }.

Definition NewMemoryStore : MemoryStore := mkMemoryStore ∅.

Definition MS_Load (s : MemoryStore) (now : Time) (id : string) : result session_error SessionData :=
  match sessions s !! id with
  | None => Err ErrNotFound
  | Some d => if time_After now (sd_ExpiresAt d) then Err ErrExpired else Ok (copySessionData d)
  end.

Definition MS_Save (s : MemoryStore) (now : Time) (d : SessionData)
    : MemoryStore * option session_error :=
  (mkMemoryStore (<[sd_ID d := copySessionData d]> (sessions s)), None).

Definition MS_Delete (s : MemoryStore) (id : string) : MemoryStore * option session_error :=
  (mkMemoryStore (delete id (sessions s)), None).

Definition MS_Size (s : MemoryStore) : Z := Z.of_nat (size (sessions s)).

Definition removeExpired (s : MemoryStore) (now : Time) : MemoryStore :=
  mkMemoryStore (filter (fun kv => time_After now (sd_ExpiresAt kv.2) = false) (sessions s)).

#[export] Instance MemoryStore_store : Store MemoryStore := {
  Load := MS_Load;
  Save_ := MS_Save;
  Delete := MS_Delete
}.

(** ** The manager *)

Inductive SameSite := SameSiteUnset | SameSiteDefault | SameSiteLax | SameSiteStrict | SameSiteNone.

(** [IDGenerator] is an argument of the operations that call it. *)
Record Config := mkConfig {
  CookieName : string;
  MaxAge : Duration;
  Path : string;
  Domain : string;
  Secure : bool;
  HttpOnly : bool;
  same_site : SameSite
}.

Definition DefaultConfig : Config :=
  mkConfig "session_id" (24 * Hour) "/" "" true true SameSiteLax.

(** [NewManager]: the configuration the manager keeps. *)
Definition NewManager (cfg : Config) : Config :=
  mkConfig
    (if String.eqb (CookieName cfg) "" then "session_id" else CookieName cfg)
    (if MaxAge cfg =? 0 then 24 * Hour else MaxAge cfg)
    (if String.eqb (Path cfg) "" then "/" else Path cfg)
    (Domain cfg) (Secure cfg) (HttpOnly cfg)
    (match same_site cfg with SameSiteUnset => SameSiteLax | ss => ss end).

Record Cookie := mkCookie {
  ck_Name : string; ck_Value : string; ck_Path : string; ck_Domain : string; ck_MaxAge : Z;
  ck_Secure : bool; ck_HttpOnly : bool; ck_SameSite : SameSite
}.

Definition session_cookie (oob : float64 -> Z) (m : Config) (value : string) : Cookie :=
  mkCookie (CookieName m) value (Path m) (Domain m) (f64_to_int64 oob (Seconds (MaxAge m)))
    (Secure m) (HttpOnly m) (same_site m).

Definition cleared_cookie (m : Config) : Cookie :=
  mkCookie (CookieName m) "" (Path m) (Domain m) (-1) (Secure m) (HttpOnly m) (same_site m).

(** [generated] is what the generator returns. *)
Definition Manager_New (m : Config) (now : Time) (generated : option string) : result session_error Session :=
  match generated with
  | None => Err GeneratorError
  | Some id => Ok (mkSession id ∅ true true (time_Add now (MaxAge m)))
  end.

Section manager.
Context {S : Type} `{Store S} (oob : float64 -> Z) (m : Config).

(** [cookie] is the value of the request's cookie, if it has one. *)
Definition Manager_Get (st : S) (now : Time) (cookie : option string) (generated : option string)
    : S * result session_error Session :=
  match cookie with
  | Some v =>
      if negb (String.eqb v "") then
        match Load st now v with
        | Ok d =>
            if time_After now (sd_ExpiresAt d) then
              let '(st, _) := Delete st v in (st, Manager_New m now generated)
            else (st, Ok (mkSession (sd_ID d) (sd_Data d) false false (sd_ExpiresAt d)))
        | Err _ => (st, Manager_New m now generated)
        end
      else (st, Manager_New m now generated)
  | None => (st, Manager_New m now generated)
  end.

(** The cookie is set only when the store has saved. *)
Definition Manager_Save (st : S) (now : Time) (s : Session) : S * option Cookie * option session_error :=
  let d := mkSessionData (id s) (data s) (expiresAt s) (if isNew s then now else zero_time) now in
  match Save_ st now d with
  | (st, Some err) => (st, None, Some err)
  | (st, None) => (st, Some (session_cookie oob m (id s)), None)
  end.

Definition Destroy (st : S) (s : Session) : S * option Cookie * option session_error :=
  match Delete st (id s) with
  | (st, Some err) => (st, None, Some err)
  | (st, None) => (st, Some (cleared_cookie m), None)
  end.

(** Returns the session, which is changed in place. *)
Definition Regenerate (st : S) (now : Time) (s : Session) (generated : option string)
    : S * Session * option Cookie * option session_error :=
  let oldID := id s in
  match generated with
  | None => (st, s, None, Some GeneratorError)
  | Some newID =>
      let s := mkSession newID (data s) (isNew s) true (expiresAt s) in
      let '(st, _) := Delete st oldID in
      let '(st, cookie, err) := Manager_Save st now s in
      (st, s, cookie, err)
  end.

Definition Refresh (st : S) (now : Time) (s : Session) : S * Session * option Cookie * option session_error :=
  let s := mkSession (id s) (data s) (isNew s) true (time_Add now (MaxAge m)) in
  let '(st, cookie, err) := Manager_Save st now s in
  (st, s, cookie, err).

(** ** The middleware ([middleware.go]) *)

(** What a handler does with the session and the response. *)
Inductive action :=
| ActSet (key : string) (v : value)
| ActDelete (key : string)
| ActClear
| ActWrite.

(** [sw_written] is the field of the writer; [sent] says that the headers have
    gone out, so that a cookie set later is lost. *)
Record serving := mkServing {
  sv_store : S;
  sv_session : Session;
  sw_written : bool;
  sent : bool;
  sv_cookie : option Cookie
}.

Definition mw_save (sv : serving) (now : Time) (written : bool) : serving :=
  let '(st, cookie, _) := Manager_Save (sv_store sv) now (sv_session sv) in
  mkServing st (sv_session sv) written (sent sv)
    (if sent sv then sv_cookie sv else match cookie with Some c => Some c | None => sv_cookie sv end).

(** [WriteHeader] and [Write]. *)
Definition sw_write (sv : serving) (now : Time) : serving :=
  let sv := if negb (sw_written sv) && modified (sv_session sv) then mw_save sv now true else sv in
  mkServing (sv_store sv) (sv_session sv) (sw_written sv) true (sv_cookie sv).

Definition with_session (sv : serving) (s : Session) : serving :=
  mkServing (sv_store sv) s (sw_written sv) (sent sv) (sv_cookie sv).

Definition act (sv : serving) (ta : Time * action) : serving :=
  match ta.2 with
  | ActSet key v => with_session sv (Session_Set (sv_session sv) key v)
  | ActDelete key => with_session sv (Session_Delete (sv_session sv) key)
  | ActClear => with_session sv (Session_Clear (sv_session sv))
  | ActWrite => sw_write sv ta.1
  end.

(** [gen1] and [gen2] are what the generator returns the first and the second
    time; [None]: the session is nil and the middleware panics. *)
Definition Middleware (st : S) (now : Time) (cookie gen1 gen2 : option string)
    (handler : list (Time * action)) (finish : Time) : option serving :=
  let '(st, got) := Manager_Get st now cookie gen1 in
  let session := match got with Ok s => Ok s | Err _ => Manager_New m now gen2 end in
  match session with
  | Err _ => None
  | Ok s =>
      let sv := foldl act (mkServing st s false false None) handler in
      Some (if negb (sw_written sv) && modified (sv_session sv)
            then mw_save sv finish (sw_written sv) else sv)
  end.
End manager.
Arguments serving : clear implicits.

(** 401 for [None]; otherwise the next handler runs. *)
Definition RequireSession {A : Type} (session : option Session) (next : A) : option A :=
  match session with
  | None => None
  | Some s => if isNew s then None else Some next
  end.

Definition RequireKey {A : Type} (session : option Session) (key : string) (next : A) : option A :=
  match session with
  | None => None
  | Some s => match Session_Get s key with Some _ => Some next | None => None end
  end.

Definition Flash (s : Session) (key : string) (v : value) : Session := Session_Set s ("_flash_" +:+ key) v.

Definition GetFlash (s : Session) (key : string) : Session * option value :=
  let flashKey := "_flash_" +:+ key in
  match Session_Get s flashKey with
  | Some v => (Session_Delete s flashKey, Some v)
  | None => (s, None)
  end.

Definition GetFlashString (s : Session) (key : string) : Session * string :=
  match GetFlash s key with
  | (s, Some (VString str)) => (s, str)
  | (s, _) => (s, "")
  end.

(** ** Specification *)

(** The actions that change the session. *)
Definition changes (ta : Time * action) : bool :=
  match ta.2 with ActWrite => false | _ => true end.

(** ** The store in memory keeps the promises *)

#[export] Instance MemoryStore_laws : StoreLaws MemoryStore.
Proof.
  refine {| store_ok s := forall i d, sessions s !! i = Some d -> sd_ID d = i |};
    cbn [Load Save_ Delete MemoryStore_store].
  - intros s t d Hs i d' Hi. cbn in Hi.
    apply lookup_insert_Some in Hi as [[<- <-]|[_ Hd]]; [done|eauto].
  - intros s i Hs j d Hj. cbn in Hj. apply lookup_delete_Some in Hj as [_ Hd]. eauto.
  - intros s t d s' t' Hs _ Ht. unfold MS_Save in Hs. simplify_eq. unfold MS_Load, time_After. cbn.
    rewrite lookup_insert_eq. replace (sd_ExpiresAt (copySessionData d) <? t') with false by (cbn; lia).
    by destruct d.
  - intros s t d s' t' i Hs Hi. unfold MS_Save in Hs. simplify_eq. unfold MS_Load. cbn.
    by rewrite lookup_insert_ne.
  - intros s t i d Hs Hl. unfold MS_Load in Hl.
    destruct (sessions s !! i) as [x|] eqn:Hx; [|done]. specialize (Hs i x Hx).
    destruct (time_After t (sd_ExpiresAt x)); [done|]. by simplify_eq.
  - intros s i s' t' j Hd. unfold MS_Delete in Hd. simplify_eq. unfold MS_Load. cbn.
    case_decide; [subst; by rewrite lookup_delete_eq | by rewrite lookup_delete_ne].
Defined.

(** It also checks the expiry itself, which the interface does not ask for. *)
Lemma MS_Load_live s t i d : MS_Load s t i = Ok d -> t <= sd_ExpiresAt d.
Proof.
  unfold MS_Load, time_After. destruct (sessions s !! i) as [x|]; [|done].
  destruct (sd_ExpiresAt x <? t) eqn:E; [done|]. intros [= <-]. cbn. lia.
Qed.

(** ** The manager, over any store *)

Section manager_lemmas.
Context {S : Type} `{StoreLaws S} (oob : float64 -> Z) (m : Config).

(** Loading the data of a session gives the session to a request. *)
Lemma Get_loaded st t i d gen :
  store_ok st -> Load st t i = Ok d -> t <= sd_ExpiresAt d -> i <> "" ->
  Manager_Get m st t (Some i) gen = (st, Ok (mkSession i (sd_Data d) false false (sd_ExpiresAt d))).
Proof.
  intros Hok Hl Ht Hi. unfold Manager_Get. apply String.eqb_neq in Hi. rewrite Hi, Hl. cbn [negb].
  pose proof (law_load _ _ _ _ Hok Hl) as Hid. unfold time_After.
  replace (sd_ExpiresAt d <? t) with false by lia. by rewrite Hid.
Qed.

(** A cookie that does not load gets a new session. *)
Lemma Get_not_loaded st t v gen :
  (forall d, Load st t v <> Ok d) -> Manager_Get m st t (Some v) gen = (st, Manager_New m t gen).
Proof.
  intros Hl. unfold Manager_Get. destruct (negb (String.eqb v "")); [|done].
  destruct (Load st t v) as [d|err]; [by destruct (Hl d)|done].
Qed.

Lemma Save_loads st now s st' c t :
  Manager_Save oob m st now s = (st', c, None) -> now < expiresAt s -> t < expiresAt s ->
  c = Some (session_cookie oob m (id s)) /\
  exists d, Load st' t (id s) = Ok d /\ sd_Data d = data s /\ sd_ExpiresAt d = expiresAt s.
Proof.
  intros Hs Hnow Ht. unfold Manager_Save in Hs.
  set (d := mkSessionData _ _ _ _ _) in Hs. destruct (Save_ st now d) as [st1 [err|]] eqn:Hd; [done|].
  simplify_eq. split; [done|]. exists d.
  split; [apply (law_save_load _ _ _ _ _ Hd Hnow Ht)|done].
Qed.

(** A session that is not modified was loaded. *)
Lemma Get_unmodified st t cookie gen st' s :
  store_ok st -> Manager_Get m st t cookie gen = (st', Ok s) -> modified s = false ->
  exists d, Load st t (id s) = Ok d /\ sd_Data d = data s /\ sd_ExpiresAt d = expiresAt s.
Proof.
  intros Hok Hg Hm. unfold Manager_Get in Hg.
  assert (forall st0, (st0, Manager_New m t gen) = (st', Ok s) -> False) as Hnew.
  { intros st0 Hn. unfold Manager_New in Hn. destruct gen; by simplify_eq. }
  destruct cookie as [v|]; [|by apply Hnew in Hg]. destruct (negb (String.eqb v "")); [|by apply Hnew in Hg].
  destruct (Load st t v) as [d|e] eqn:Hl; [|by apply Hnew in Hg]. destruct (time_After t (sd_ExpiresAt d)).
  - destruct (Delete st v). by apply Hnew in Hg.
  - simplify_eq. exists d. cbn. by rewrite (law_load _ _ _ _ Hok Hl).
Qed.

Lemma Save_keeps_ok st now s : store_ok st -> store_ok (Manager_Save oob m st now s).1.1.
Proof.
  intros Hok. unfold Manager_Save. set (d := mkSessionData _ _ _ _ _).
  pose proof (law_save_ok st now d Hok). by destruct (Save_ st now d) as [st1 [err|]].
Qed.
End manager_lemmas.

(** ** The middleware *)

Section middleware_lemmas.
Context (oob : float64 -> Z) (m : Config) (st0 : MemoryStore) (s0 : Session).

(** Before the first write nothing is saved. *)
Definition unsaved (sv : serving MemoryStore) : Prop :=
  sw_written sv = false /\ sv_store sv = st0 /\ id (sv_session sv) = id s0 /\
  expiresAt (sv_session sv) = expiresAt s0 /\ (modified (sv_session sv) = false -> sv_session sv = s0) /\
  (sent sv = true -> modified (sv_session sv) = false).

(** The store holds the session as it is, and the response its cookie. *)
Definition saved (sv : serving MemoryStore) : Prop :=
  id (sv_session sv) = id s0 /\ sv_cookie sv = Some (session_cookie oob m (id s0)) /\
  exists d, sessions (sv_store sv) !! id s0 = Some d /\ sd_ID d = id s0 /\
    sd_Data d = data (sv_session sv) /\ sd_ExpiresAt d = expiresAt (sv_session sv) /\
    expiresAt (sv_session sv) = expiresAt s0.

Lemma act_unsaved sv ta :
  ta.2 <> ActWrite -> sent sv = false -> unsaved sv ->
  unsaved (act oob m sv ta) /\ sent (act oob m sv ta) = false.
Proof.
  intros Hta Hsent (H1 & H2 & H3 & H4 & H5). unfold unsaved.
  destruct ta as [t [k v|k| |]]; try done; cbn; rewrite Hsent; done.
Qed.

Lemma mw_save_saved sv now w :
  unsaved sv -> modified (sv_session sv) = true -> saved (mw_save oob m sv now w).
Proof.
  intros (H1 & H2 & H3 & H4 & _ & H6) Hm. unfold mw_save, Manager_Save, saved. cbn.
  destruct (sent sv); [by rewrite H6 in Hm|].
  split; [done|]. split; [by rewrite H3|]. rewrite H3, lookup_insert_eq. eexists. split; [done|]. done.
Qed.

(** Writing only: the session stays as it is. *)
Lemma writes_after l sv :
  Forall (fun ta => changes ta = false) l ->
  (saved sv /\ sw_written sv = true) \/ unsaved sv ->
  let sv' := foldl (act oob m) sv l in
  (saved sv' /\ sw_written sv' = true) \/ unsaved sv'.
Proof.
  intros Hl. revert sv. induction Hl as [|[t a] l Ha _ IH]; intros sv Hsv; cbn [foldl]; [done|].
  apply IH. destruct a; try done. cbn. unfold sw_write. destruct Hsv as [[Hs Hw]|Hu].
  - rewrite Hw. cbn. left. split; [exact Hs|done].
  - pose proof Hu as (H1 & H2 & H3 & H4 & H5 & H6). rewrite H1. cbn [negb andb].
    destruct (modified (sv_session sv)) eqn:Hm.
    + left. split; [|done]. exact (mw_save_saved sv t true Hu Hm).
    + right. unfold unsaved. cbn. rewrite Hm. split_and!; auto.
Qed.

Lemma acts_before l sv :
  Forall (fun ta => ta.2 <> ActWrite) l -> sent sv = false -> unsaved sv ->
  unsaved (foldl (act oob m) sv l).
Proof.
  intros Hl. revert sv. induction Hl as [|ta l Ha _ IH]; intros sv Hsent Hsv; cbn [foldl]; [done|].
  destruct (act_unsaved sv ta Ha Hsent Hsv). by apply IH.
Qed.
End middleware_lemmas.

(** ** Theorems *)

(** Saving and coming back: over every store that keeps its promises, a session
    saved without an error sets the cookie of its ID, and a later request with
    that cookie, before the session expires, is given the same ID, data and
    expiry, as a session that is neither new nor modified. *)
Theorem Manager_Save_Get {S : Type} `{StoreLaws S} oob m (st : S) now s st' c t gen :
  store_ok st -> Manager_Save oob m st now s = (st', c, None) ->
  now < expiresAt s -> t < expiresAt s -> id s <> "" ->
  option_map ck_Value c = Some (id s) /\
  Manager_Get m st' t (option_map ck_Value c) gen =
    (st', Ok (mkSession (id s) (data s) false false (expiresAt s))).
Proof.
  intros Hok Hs Hnow Ht Hid. pose proof (Save_keeps_ok oob m st now s Hok) as Hok'. rewrite Hs in Hok'.
  destruct (Save_loads oob m _ _ _ _ _ t Hs Hnow Ht) as (-> & d & Hl & <- & Hexp). cbn [option_map].
  split; [done|]. rewrite <- Hexp. apply Get_loaded; [done|done|lia|done].
Qed.

Lemma Manager_Save_Get_witness :
  let s := mkSession "x1" {["user" := VInt 7]} true true 100 in
  let r := Manager_Save (fun _ => 0) DefaultConfig NewMemoryStore 5 s in
  option_map ck_Value r.1.2 = Some "x1" /\
  Manager_Get DefaultConfig r.1.1 50 (option_map ck_Value r.1.2) None =
    (r.1.1, Ok (mkSession "x1" {["user" := VInt 7]} false false 100)).
Proof.
  intros s r.
  apply (Manager_Save_Get (fun _ => 0) DefaultConfig NewMemoryStore 5 s r.1.1 r.1.2 50 None);
    first [done | discriminate].
Defined.

(** C17. A request gets no session but a stored one that is live, or a new one.  Over
    any store, whatever it answers: what [Get] returns is either what the store loads
    for the cookie, under the stored ID, with the stored data and expiry, which is not
    over, and nothing is changed; or a new empty session with the generated ID and the
    full lifetime, so that a cookie that loads nothing, or what has expired, is not
    adopted, and what has expired is deleted.  Over the store in memory the stored ID
    is the cookie's. *)
Theorem Manager_Get_safe {S : Type} `{Store S} m (st : S) t cookie gen st' s :
  Manager_Get m st t cookie gen = (st', Ok s) ->
  (exists v d, cookie = Some v /\ v <> "" /\ Load st t v = Ok d /\ t <= sd_ExpiresAt d /\
     s = mkSession (sd_ID d) (sd_Data d) false false (sd_ExpiresAt d) /\ st' = st /\
     forall laws : StoreLaws S, store_ok st -> id s = v) \/
  (gen = Some (id s) /\ s = mkSession (id s) ∅ true true (t + MaxAge m) /\
     match cookie with
     | Some v => (v = "" \/ exists e, Load st t v = Err e) /\ st' = st \/
                 exists d, Load st t v = Ok d /\ sd_ExpiresAt d < t /\ st' = (Delete st v).1
     | None => st' = st
     end).
Proof.
  intros Hg. unfold Manager_Get in Hg.
  assert (forall r, Manager_New m t gen = r -> r = Ok s ->
    gen = Some (id s) /\ s = mkSession (id s) ∅ true true (t + MaxAge m)) as Hnew.
  { intros r Hr ->. unfold Manager_New, time_Add in Hr. destruct gen; by simplify_eq. }
  destruct cookie as [v|]; [|right; simplify_eq; naive_solver].
  destruct (String.eqb_spec v "") as [->|Hv]; cbn [negb] in Hg; [right; simplify_eq; naive_solver|].
  destruct (Load st t v) as [d|err] eqn:Hl; [|right; simplify_eq; naive_solver].
  unfold time_After in Hg. destruct (Z.ltb_spec (sd_ExpiresAt d) t) as [Hx|Hx].
  - destruct (Delete st v) as [st1 e] eqn:Hd. simplify_eq. right. destruct (Hnew _ eq_refl ltac:(done)) as [Hg1 Hg2].
    split; [done|]. split; [done|]. right. by exists d.
  - simplify_eq. left. exists v, d. do 6 (split; [done|]). intros Hlaws Hok. cbn. by apply (law_load st' t).
Qed.

Lemma Manager_Get_safe_witness :
  let d := mkSessionData "a" {["user" := VInt 7]} 100 1 1 in
  let st := mkMemoryStore {["a" := d]} in
  let s := mkSession "a" {["user" := VInt 7]} false false 100 in
  (exists v d', Some "a" = Some v /\ v <> "" /\ Load st 50 v = Ok d' /\ 50 <= sd_ExpiresAt d' /\
     s = mkSession (sd_ID d') (sd_Data d') false false (sd_ExpiresAt d') /\ st = st /\
     forall laws : StoreLaws MemoryStore, store_ok st -> id s = v) \/
  (Some "gen" = Some (id s) /\ s = mkSession (id s) ∅ true true (50 + MaxAge DefaultConfig) /\
     ((("a" = "" \/ exists e, Load st 50 "a" = Err e) /\ st = st) \/
      exists d', Load st 50 "a" = Ok d' /\ sd_ExpiresAt d' < 50 /\ st = (Delete st "a").1)).
Proof. intros d st s. exact (Manager_Get_safe DefaultConfig st 50 (Some "a") (Some "gen") st s eq_refl). Defined.

(** [Regenerate] moves a session to a new ID: when the store has answered, the
    data and the expiry are found under the new ID and nothing under the old one,
    so that an ID fixed before the login is worth nothing after it. *)
Theorem Regenerate_spec {S : Type} `{StoreLaws S} oob m (st : S) now s newID st' s' c t gen :
  store_ok st -> newID <> id s -> newID <> "" -> now < expiresAt s -> t < expiresAt s ->
  (Delete st (id s)).2 = None ->
  Regenerate oob m st now s (Some newID) = (st', s', c, None) ->
  id s' = newID /\ data s' = data s /\
  Manager_Get m st' t (Some newID) gen = (st', Ok (mkSession newID (data s) false false (expiresAt s))) /\
  Manager_Get m st' t (Some (id s)) gen = (st', Manager_New m t gen).
Proof.
  intros Hok Hne Hnn Hnow Ht Hdel Hr. unfold Regenerate in Hr.
  pose proof (law_delete_ok st (id s) Hok) as Hok1.
  destruct (Delete st (id s)) as [st1 derr] eqn:Hd. cbn in Hdel, Hok1. subst derr.
  set (s1 := mkSession newID (data s) (isNew s) true (expiresAt s)) in Hr.
  pose proof (Save_keeps_ok oob m st1 now s1 Hok1) as Hok2.
  destruct (Manager_Save oob m st1 now s1) as [[st2 c2] err2] eqn:Hs. simplify_eq. cbn in Hok2.
  destruct (Save_loads oob m _ _ _ _ _ t Hs Hnow Ht) as (-> & d & Hl & Hd1 & Hd2). cbn in Hl, Hd1, Hd2.
  split; [done|]. split; [done|]. split.
  - rewrite (Get_loaded m st' t newID d gen Hok2 Hl ltac:(lia) Hnn). by rewrite Hd1, Hd2.
  - apply Get_not_loaded. intros d' Hl'. unfold Manager_Save in Hs.
    destruct (Save_ st1 now _) as [st3 [err|]] eqn:Hsv; [done|]. simplify_eq.
    rewrite (law_save_other _ _ _ _ t (id s) Hsv) in Hl' by (cbn; congruence).
    pose proof (law_delete _ _ _ t (id s) Hd) as Hg. rewrite decide_True in Hg by done. by apply (Hg d').
Qed.

Lemma Regenerate_spec_witness :
  let s := mkSession "old" {["user" := VInt 7]} false true 100 in
  let st := mkMemoryStore {["old" := mkSessionData "old" ∅ 100 1 1]} in
  let r := Regenerate (fun _ => 0) DefaultConfig st 5 s (Some "new") in
  id r.1.1.2 = "new" /\ data r.1.1.2 = data s /\
  Manager_Get DefaultConfig r.1.1.1 50 (Some "new") (Some "g") =
    (r.1.1.1, Ok (mkSession "new" (data s) false false 100)) /\
  Manager_Get DefaultConfig r.1.1.1 50 (Some "old") (Some "g") =
    (r.1.1.1, Manager_New DefaultConfig 50 (Some "g")).
Proof.
  intros s st r.
  apply (Regenerate_spec (fun _ => 0) DefaultConfig st 5 s "new" r.1.1.1 r.1.1.2 r.1.2 50 (Some "g"));
    try first [done | discriminate].
  intros i d Hi. cbn in Hi. apply lookup_singleton_Some in Hi as [<- <-]. done.
Defined.

(** Deleting the old session may fail, and [Regenerate] does not say so: the old
    ID then still loads what it did. *)
Theorem Regenerate_keeps_old {S : Type} `{StoreLaws S} oob m (st : S) now s newID st' s' c t err :
  newID <> id s -> Delete st (id s) = (st, Some err) ->
  Regenerate oob m st now s (Some newID) = (st', s', c, None) ->
  Load st' t (id s) = Load st t (id s).
Proof.
  intros Hne Hd Hr. unfold Regenerate, Manager_Save in Hr. rewrite Hd in Hr.
  destruct (Save_ st now _) as [st2 [e|]] eqn:Hsv; [done|]. simplify_eq.
  apply (law_save_other _ _ _ _ t (id s) Hsv). cbn. congruence.
Qed.

(** Removing expired sessions is invisible: at any later time, every request
    gets the same answer as without it. *)
Theorem removeExpired_invisible m st t0 t cookie gen :
  t0 <= t ->
  (Manager_Get m (removeExpired st t0) t cookie gen).2 = (Manager_Get m st t cookie gen).2.
Proof.
  intros Ht. unfold Manager_Get. destruct cookie as [v|]; [|done].
  destruct (negb (String.eqb v "")); [|done]. cbn [Load MemoryStore_store]. unfold MS_Load, removeExpired.
  cbn [sessions]. destruct (filter _ _ !! v) as [d|] eqn:Hf.
  - apply map_lookup_filter_Some in Hf as [Hd _]. rewrite Hd.
    destruct (time_After t (sd_ExpiresAt d)); [done|]. destruct (time_After _ _); [|done].
    by destruct (Delete _ _), (Delete _ _).
  - destruct (sessions st !! v) as [d|] eqn:Hd; [|done].
    apply map_lookup_filter_None in Hf as [Hf|Hf]; [congruence|].
    specialize (Hf d Hd). cbn in Hf. unfold time_After in *.
    destruct (sd_ExpiresAt d <? t0) eqn:E; [|done]. by replace (sd_ExpiresAt d <? t) with true by lia.
Qed.

Lemma removeExpired_invisible_witness :
  (Manager_Get DefaultConfig (removeExpired (mkMemoryStore {["a" := mkSessionData "a" ∅ 10 1 1]}) 20) 30
     (Some "a") (Some "g")).2 =
  (Manager_Get DefaultConfig (mkMemoryStore {["a" := mkSessionData "a" ∅ 10 1 1]}) 30 (Some "a") (Some "g")).2.
Proof. apply removeExpired_invisible. lia. Defined.

(** What a handler does to the session before its first write is kept: for a
    handler that changes the session only before it writes, whichever session
    the request came with, the next request with the session's cookie is given
    the data as the handler left it, until the session expires; and a session
    that was changed has its cookie in the response. *)
Theorem Middleware_saves oob m st now cookie gen1 gen2 pre post finish sv t gen :
  store_ok st -> Forall (fun ta => ta.2 <> ActWrite) pre -> Forall (fun ta => changes ta = false) post ->
  Middleware oob m st now cookie gen1 gen2 (pre ++ post)%list finish = Some sv ->
  let s := sv_session sv in
  id s <> "" -> now <= t < expiresAt s ->
  (Manager_Get m (sv_store sv) t (Some (id s)) gen).2 =
    Ok (mkSession (id s) (data s) false false (expiresAt s)) /\
  (modified s = true -> sv_cookie sv = Some (session_cookie oob m (id s))).
Proof.
  intros Hok Hpre Hpost Hmw s Hid Ht. unfold Middleware in Hmw.
  destruct (Manager_Get m st now cookie gen1) as [st1 got] eqn:Hget.
  destruct (match got with Ok s => Ok s | Err _ => Manager_New m now gen2 end) as [s0|] eqn:Hs0; [|done].
  set (sv1 := foldl _ _ _) in Hmw.
  assert (st1 = st) as ->.
  { unfold Manager_Get in Hget. destruct cookie as [v|]; [|by simplify_eq].
    destruct (negb (String.eqb v "")); [|by simplify_eq].
    destruct (Load st now v) as [d|] eqn:Hl; [|by simplify_eq].
    pose proof (MS_Load_live _ _ _ _ Hl) as Hx. unfold time_After in Hget.
    replace (sd_ExpiresAt d <? now) with false in Hget by lia. by simplify_eq. }
  assert ((saved oob m s0 sv1 /\ sw_written sv1 = true) \/ unsaved st s0 sv1) as Hsv1.
  { unfold sv1. rewrite foldl_app. apply (writes_after oob m st s0); [done|]. right.
    apply acts_before; [done|done|]. by unfold unsaved. }
  assert (modified s0 = false -> exists d, Load st now (id s0) = Ok d /\ sd_Data d = data s0 /\
    sd_ExpiresAt d = expiresAt s0) as Hload.
  { intros Hm. destruct got as [s1|err].
    - simplify_eq. by apply (Get_unmodified m st now cookie gen1 st).
    - unfold Manager_New in Hs0. destruct gen2; by simplify_eq. }
  assert (saved oob m s0 sv \/ (sv_store sv = st /\ sv_session sv = s0 /\ modified s0 = false)) as Hfin.
  { destruct Hsv1 as [[Hsaved Hw]|Hu].
    - rewrite Hw in Hmw. cbn in Hmw. simplify_eq. by left.
    - pose proof Hu as (H1 & H2 & H3 & H4 & H5 & H6). rewrite H1 in Hmw. cbn [negb andb] in Hmw.
      destruct (modified (sv_session sv1)) eqn:Hm; simplify_eq.
      + left. eapply mw_save_saved; [exact Hu|exact Hm].
      + right. specialize (H5 eq_refl). split; [done|]. split; [done|]. by rewrite <- H5. }
  destruct Hfin as [(H1 & Hck & d & Hd & Hdid & Hdd & Hde & Hexp)|(Hst & Hses & Hm)].
  - split; [|intros _; by rewrite Hck, <- H1]. unfold Manager_Get. apply String.eqb_neq in Hid. rewrite Hid. cbn [negb].
    cbn [Load MemoryStore_store]. unfold MS_Load, time_After, s. rewrite H1, Hd, Hde.
    unfold s in Ht. replace (expiresAt (sv_session sv) <? t) with false by lia.
    cbn [sd_ExpiresAt copySessionData sd_ID sd_Data].
    rewrite Hde. replace (expiresAt (sv_session sv) <? t) with false by lia. cbn. by rewrite Hdid, Hdd.
  - destruct (Hload Hm) as (d & Hl & Hd1 & Hd2). unfold s in *. rewrite Hst, Hses in *.
    split; [|congruence].
    rewrite <- Hd2 in Ht. assert (Load st t (id s0) = Ok d) as Hl'.
    { cbn in Hl |- *. unfold MS_Load, time_After in *. destruct (sessions st !! id s0) as [x|]; [|done].
      destruct (sd_ExpiresAt x <? now); [done|]. simplify_eq. cbn in Ht.
      by replace (sd_ExpiresAt x <? t) with false by lia. }
    rewrite (Get_loaded m st t (id s0) d gen Hok Hl' ltac:(lia) Hid). cbn. by rewrite Hd1, Hd2.
Qed.

Lemma Middleware_saves_witness :
  let sv := mkServing
    (mkMemoryStore {["g" := mkSessionData "g" {["user" := VInt 7]} (5 + 24 * Hour) 6 6]})
    (mkSession "g" {["user" := VInt 7]} true true (5 + 24 * Hour)) true true
    (Some (session_cookie (fun _ => 0) DefaultConfig "g")) in
  (Manager_Get DefaultConfig (sv_store sv) 50 (Some "g") None).2 =
    Ok (mkSession "g" {["user" := VInt 7]} false false (5 + 24 * Hour)) /\
  (true = true -> sv_cookie sv = Some (session_cookie (fun _ => 0) DefaultConfig "g")).
Proof.
  intros sv.
  apply (Middleware_saves (fun _ => 0) DefaultConfig NewMemoryStore 5 None (Some "g") None
    [(6, ActSet "user" (VInt 7))] [(6, ActWrite)] 9 sv 50 None);
    [done|repeat constructor; discriminate|repeat constructor|reflexivity|discriminate|].
  cbn. unfold Hour, Second. lia.
Defined.

(** What the handler changes after its first write is lost, when the session was
    saved by that write: here the second key is in the session at the end, and
    not in the store. *)
Theorem Middleware_loses_late_changes :
  exists sv, Middleware (fun _ => 0) DefaultConfig NewMemoryStore 5 None (Some "g") None
      [(6, ActSet "a" (VInt 1)); (7, ActWrite); (8, ActSet "b" (VInt 2))] 9 = Some sv /\
    Session_Get (sv_session sv) "b" = Some (VInt 2) /\ modified (sv_session sv) = true /\
    match Load (sv_store sv) 10 "g" with
    | Ok d => sd_Data d !! "a" = Some (VInt 1) /\ sd_Data d !! "b" = None
    | Err _ => False
    end.
Proof. eexists. split; [reflexivity|]. repeat split. Qed.

(** When the generator fails twice the session is nil, and the middleware
    dereferences it. *)
Theorem Middleware_panics oob m st now handler finish :
  Middleware (S := MemoryStore) oob m st now None None None handler finish = None.
Proof. reflexivity. Qed.

(** A session saved again loses the time it was created. *)
Theorem Manager_Save_forgets_creation :
  let st1 := (Manager_Save (fun _ => 0) DefaultConfig NewMemoryStore 5 (mkSession "a" ∅ true true 100)).1.1 in
  exists s, (Manager_Get DefaultConfig st1 6 (Some "a") None).2 = Ok s /\
    let st2 := (Manager_Save (fun _ => 0) DefaultConfig st1 7 s).1.1 in
    (exists d, Load st1 8 "a" = Ok d /\ sd_CreatedAt d = 5) /\
    (exists d, Load st2 8 "a" = Ok d /\ sd_CreatedAt d = zero_time).
Proof. eexists. split; [reflexivity|]. split; eexists; split; reflexivity. Qed.

(** The documented defaults of [Secure] and [HttpOnly] are not applied. *)
Theorem NewManager_not_secure :
  Secure (NewManager (mkConfig "" 0 "" "" false false SameSiteUnset)) = false /\
  HttpOnly (NewManager (mkConfig "" 0 "" "" false false SameSiteUnset)) = false.
Proof. done. Qed.
