(* ===== verification/Webhook.v ===== *)
(** * Webhooks ([pantry/webhook])

    Reading and verifying incoming requests, and routing their events to
    handlers.

    The three HMACs of the standard library are arguments, keyed by the secret;
    hexadecimal is written out.  What [encoding/json] makes of a body is an
    argument.  A handler is a function on a world of its own, so that a theorem
    can say which handlers ran.  Of [sender.go], here is what is signed and what a
    subscription matches; the rest is in [Sender]. *)

From S2P Require Import Prelude GoStrings Hex.

(** ** Errors and requests ([webhook.go]) *)

Inductive webhook_error :=
| ErrInvalidSignature
| ErrMissingSignature
| ErrTimestampExpired
| ErrMissingTimestamp
| ErrInvalidPayload
| ErrNoHandlerFound
| ErrRequestBodyTooLarge
| ErrReadBody
| InvalidTimestamp
| HandlerError (msg : string).

(** [rq_Header] is [Header.Get]; [rq_body] is what is left to read, and
    [rq_broken] says that reading ends with an error. *)
Record Request := mkRequest {
  rq_Header : string -> string;
  rq_ContentLength : Z;
  rq_body : string;
  rq_broken : bool
}.

Definition set_body (r : Request) (body : string) (broken : bool) : Request :=
  mkRequest (rq_Header r) (rq_ContentLength r) body broken.

Definition TimestampTolerance : Duration := 5 * Minute.
Definition MaxBodySize : Z := 10 * 1024 * 1024.

(** Reading consumes the body, up to one byte more than the maximum.  That limit
    wraps around for the greatest maximum, and a limit below zero reads nothing. *)
Definition ReadBody (r : Request) (maxSize : Z) : Request * result webhook_error string :=
  let maxSize := if maxSize <=? 0 then MaxBodySize else maxSize in
  if maxSize <? rq_ContentLength r then (r, Err ErrRequestBodyTooLarge)
  else
    let n := Z.to_nat (int_add maxSize 1) in
    let body := str_take n (rq_body r) in
    let r' := set_body r (str_drop n (rq_body r)) (rq_broken r) in
    if rq_broken r && (String.length (rq_body r) <? n)%nat then (r', Err ErrReadBody)
    else if maxSize <? Z.of_nat (String.length body) then (r', Err ErrRequestBodyTooLarge)
    else (r', Ok body).

(** The body is put back, in a reader of its own. *)
Definition DrainBody (r : Request) (maxSize : Z) : Request * result webhook_error string :=
  match ReadBody r maxSize with
  | (r, Err err) => (r, Err err)
  | (r, Ok body) => (set_body r body false, Ok body)
  end.

Definition ResetBody (r : Request) (body : string) : Request := set_body r body false.
Definition VerifyTimestamp (now : Time) (ts : Time) (tolerance : Duration) : option webhook_error :=
  let tolerance := if tolerance <=? 0 then TimestampTolerance else tolerance in
  if time_Before ts (time_Add now (- tolerance)) || time_After ts (time_Add now tolerance)
  then Some ErrTimestampExpired else None.

Definition ParseUnixTimestamp (s : string) : result webhook_error Time :=
  match Atoi s with
  | None => Err InvalidTimestamp
  | Some ts => Ok (time_Unix ts)
  end.

Definition ExtractSignature (header prefix : string) : string :=
  let header := TrimSpace header in
  if negb (String.eqb prefix "") && HasPrefix header prefix then TrimPrefix header prefix else header.

Definition isSuccessStatus (code : Z) : bool := (200 <=? code) && (code <? 300).

Definition isRetryableStatus (code : Z) : bool :=
  (code =? 429) || (code =? 500) || (code =? 502) || (code =? 503) || (code =? 504).

Definition truncateString (s : string) (maxLen : Z) : string :=
  if Z.of_nat (String.length s) <=? maxLen then s else str_take (Z.to_nat maxLen) s +:+ "...".

Inductive HashAlgorithm := AlgEmpty | SHA256 | SHA512 | SHA1 | AlgOther (name : string).

(** ** Verifiers ([verify.go]) *)

Section verify.
Context (hmac_sha256 hmac_sha512 hmac_sha1 : string -> string -> string).

(** [newHash]: SHA1 falls back to SHA-256. *)
Definition newHash (alg : HashAlgorithm) (key payload : string) : string :=
  match alg with
  | SHA512 => hmac_sha512 key payload
  | SHA1 => hmac_sha256 key payload
  | _ => hmac_sha256 key payload
  end.

Definition ComputeHMAC (payload secret : string) (alg : HashAlgorithm) : string :=
  hex_encode (newHash alg secret payload).

Definition VerifyHMAC (payload secret signature : string) (alg : HashAlgorithm) : bool :=
  String.eqb (ComputeHMAC payload secret alg) signature.

Definition SignPayload (payload secret : string) : string := ComputeHMAC payload secret SHA256.

Definition SignPayloadWithTimestamp (timestamp : Z) (payload secret : string) : string :=
  ComputeHMAC (Itoa timestamp +:+ "." +:+ payload) secret SHA256.

(** [Verify] changes the request, whose body it reads and puts back. *)
Class Verifier (V : Type) := {
  Verify : V -> Time -> Request -> Request * option webhook_error;
  VerifyPayload : V -> Time -> string -> string -> option webhook_error
}.

(** What the verifiers do with the body once the headers are there. *)
Definition verify_body (r : Request) (maxSize : Z) (check : string -> option webhook_error)
    : Request * option webhook_error :=
  match DrainBody r maxSize with
  | (r, Err err) => (r, Some err)
  | (r, Ok body) => (r, check body)
  end.

Record HMACVerifier := mkHMACVerifier {
  hv_Secret : string; hv_Algorithm : HashAlgorithm; hv_Header : string; hv_Prefix : string;
  hv_MaxBodySize : Z
}.

Definition NewHMACVerifier (cfg : HMACVerifier) : HMACVerifier :=
  mkHMACVerifier (hv_Secret cfg)
    (match hv_Algorithm cfg with AlgEmpty => SHA256 | a => a end)
    (if String.eqb (hv_Header cfg) "" then "X-Webhook-Signature" else hv_Header cfg)
    (hv_Prefix cfg)
    (if hv_MaxBodySize cfg <=? 0 then MaxBodySize else hv_MaxBodySize cfg).

Definition HMAC_VerifyPayload (v : HMACVerifier) (payload signature : string) : option webhook_error :=
  let signature := ExtractSignature signature (hv_Prefix v) in
  if negb (VerifyHMAC payload (hv_Secret v) signature (hv_Algorithm v))
  then Some ErrInvalidSignature else None.

Definition HMAC_Verify (v : HMACVerifier) (r : Request) : Request * option webhook_error :=
  let signature := rq_Header r (hv_Header v) in
  if String.eqb signature "" then (r, Some ErrMissingSignature)
  else
    let signature := ExtractSignature signature (hv_Prefix v) in
    verify_body r (hv_MaxBodySize v) (fun body => HMAC_VerifyPayload v body signature).

Record GitHubVerifier := mkGitHubVerifier { gh_secret : string; gh_maxBodySize : Z }.

Definition NewGitHubVerifier (secret : string) : GitHubVerifier := mkGitHubVerifier secret MaxBodySize.

Definition GitHub_verifySignature (v : GitHubVerifier) (payload signature : string)
    (alg : HashAlgorithm) (prefix : string) : option webhook_error :=
  let signature := TrimPrefix signature prefix in
  let expected :=
    match alg with
    | SHA1 => hex_encode (hmac_sha1 (gh_secret v) payload)
    | _ => hex_encode (hmac_sha256 (gh_secret v) payload)
    end in
  if negb (String.eqb expected signature) then Some ErrInvalidSignature else None.

Definition GitHub_Verify (v : GitHubVerifier) (r : Request) : Request * option webhook_error :=
  let sig256 := rq_Header r "X-Hub-Signature-256" in
  let '(signature, algorithm, prefix) :=
    if String.eqb sig256 "" then (rq_Header r "X-Hub-Signature", SHA1, "sha1=")
    else (sig256, SHA256, "sha256=") in
  if String.eqb signature "" then (r, Some ErrMissingSignature)
  else
    verify_body r (gh_maxBodySize v)
      (fun body => GitHub_verifySignature v body signature algorithm prefix).

Definition GitHub_VerifyPayload (v : GitHubVerifier) (payload signature : string)
    : option webhook_error :=
  if HasPrefix signature "sha256=" then GitHub_verifySignature v payload signature SHA256 "sha256="
  else if HasPrefix signature "sha1=" then GitHub_verifySignature v payload signature SHA1 "sha1="
  else GitHub_verifySignature v payload signature SHA256 "".

Record StripeVerifier := mkStripeVerifier {
  st_secret : string; st_tolerance : Duration; st_maxBodySize : Z
}.

Definition NewStripeVerifier (secret : string) : StripeVerifier :=
  mkStripeVerifier secret TimestampTolerance MaxBodySize.

(** The loop over the parts of the header. *)
Fixpoint stripe_parts (parts : list string) (timestamp : Z) (signatures : list string)
    : result webhook_error (Z * list string) :=
  match parts with
  | [] => Ok (timestamp, signatures)
  | part :: parts =>
      match cut_byte "=" part with
      | None => stripe_parts parts timestamp signatures
      | Some (k, v) =>
          if String.eqb k "t" then
            match Atoi v with
            | None => Err InvalidTimestamp
            | Some ts => stripe_parts parts ts signatures
            end
          else if String.eqb k "v1" then stripe_parts parts timestamp (signatures ++ [v])%list
          else stripe_parts parts timestamp signatures
      end
  end.

Definition Stripe_VerifyPayload (v : StripeVerifier) (now : Time) (payload signature : string)
    : option webhook_error :=
  match stripe_parts (split_byte "," signature) 0 [] with
  | Err err => Some err
  | Ok (timestamp, signatures) =>
      if timestamp =? 0 then Some ErrMissingTimestamp
      else if (length signatures =? 0)%nat then Some ErrMissingSignature
      else
        match VerifyTimestamp now (time_Unix timestamp) (st_tolerance v) with
        | Some err => Some err
        | None =>
            let expected := hex_encode (hmac_sha256 (st_secret v) (Itoa timestamp +:+ "." +:+ payload)) in
            if existsb (String.eqb expected) signatures then None else Some ErrInvalidSignature
        end
  end.

Definition Stripe_Verify (v : StripeVerifier) (now : Time) (r : Request)
    : Request * option webhook_error :=
  let signature := rq_Header r "Stripe-Signature" in
  if String.eqb signature "" then (r, Some ErrMissingSignature)
  else verify_body r (st_maxBodySize v) (fun body => Stripe_VerifyPayload v now body signature).

Record SlackVerifier := mkSlackVerifier {
  sl_secret : string; sl_tolerance : Duration; sl_maxBodySize : Z
}.

Definition NewSlackVerifier (secret : string) : SlackVerifier :=
  mkSlackVerifier secret TimestampTolerance MaxBodySize.

Definition Slack_verifyWithTimestamp (v : SlackVerifier) (now : Time) (payload signature timestampStr : string)
    : option webhook_error :=
  match Atoi timestampStr with
  | None => Some InvalidTimestamp
  | Some ts =>
      match VerifyTimestamp now (time_Unix ts) (sl_tolerance v) with
      | Some err => Some err
      | None =>
          let baseString := "v0:" +:+ timestampStr +:+ ":" +:+ payload in
          let expected := "v0=" +:+ hex_encode (hmac_sha256 (sl_secret v) baseString) in
          if negb (String.eqb expected signature) then Some ErrInvalidSignature else None
      end
  end.

Definition Slack_Verify (v : SlackVerifier) (now : Time) (r : Request) : Request * option webhook_error :=
  let signature := rq_Header r "X-Slack-Signature" in
  let timestamp := rq_Header r "X-Slack-Request-Timestamp" in
  if String.eqb signature "" then (r, Some ErrMissingSignature)
  else if String.eqb timestamp "" then (r, Some ErrMissingTimestamp)
  else
    verify_body r (sl_maxBodySize v)
      (fun body => Slack_verifyWithTimestamp v now body signature timestamp).

Definition Slack_VerifyPayload (v : SlackVerifier) (payload signature : string) : option webhook_error :=
  let signature := TrimPrefix signature "v0=" in
  if negb (String.length signature =? 64)%nat then Some ErrInvalidSignature else None.

Record ShopifyVerifier := mkShopifyVerifier { sh_secret : string; sh_maxBodySize : Z }.

Definition Shopify_VerifyPayload (v : ShopifyVerifier) (payload signature : string)
    : option webhook_error :=
  let mac := hmac_sha256 (sh_secret v) payload in
  let expected := hex_encode mac in
  if String.eqb expected signature then None
  else
    match hex_decode signature with
    | Some decoded => if String.eqb mac decoded then None else Some ErrInvalidSignature
    | None => Some ErrInvalidSignature
    end.

Definition Shopify_Verify (v : ShopifyVerifier) (r : Request) : Request * option webhook_error :=
  let signature := rq_Header r "X-Shopify-Hmac-Sha256" in
  if String.eqb signature "" then (r, Some ErrMissingSignature)
  else verify_body r (sh_maxBodySize v) (fun body => Shopify_VerifyPayload v body signature).

Record TwilioVerifier := mkTwilioVerifier { tw_authToken : string; tw_maxBodySize : Z }.

Definition Twilio_VerifyPayload (v : TwilioVerifier) (payload signature : string) : option webhook_error :=
  if String.eqb signature "" then Some ErrMissingSignature else None.

Definition Twilio_Verify (v : TwilioVerifier) (r : Request) : Request * option webhook_error :=
  let signature := rq_Header r "X-Twilio-Signature" in
  if String.eqb signature "" then (r, Some ErrMissingSignature)
  else verify_body r (tw_maxBodySize v) (fun body => Twilio_VerifyPayload v body signature).

#[export] Instance HMAC_Verifier : Verifier HMACVerifier :=
  {| Verify v now r := HMAC_Verify v r; VerifyPayload v now p s := HMAC_VerifyPayload v p s |}.
#[export] Instance GitHub_Verifier : Verifier GitHubVerifier :=
  {| Verify v now r := GitHub_Verify v r; VerifyPayload v now p s := GitHub_VerifyPayload v p s |}.
#[export] Instance Stripe_Verifier : Verifier StripeVerifier :=
  {| Verify := Stripe_Verify; VerifyPayload := Stripe_VerifyPayload |}.
#[export] Instance Slack_Verifier : Verifier SlackVerifier :=
  {| Verify := Slack_Verify; VerifyPayload v now p s := Slack_VerifyPayload v p s |}.
#[export] Instance Shopify_Verifier : Verifier ShopifyVerifier :=
  {| Verify v now r := Shopify_Verify v r; VerifyPayload v now p s := Shopify_VerifyPayload v p s |}.
#[export] Instance Twilio_Verifier : Verifier TwilioVerifier :=
  {| Verify v now r := Twilio_Verify v r; VerifyPayload v now p s := Twilio_VerifyPayload v p s |}.

End verify.

(** ** What the sender of the package signs ([sender.go]) *)

(** The signing part of [attemptDelivery]: the headers set on the request. *)
Definition sign_headers (hmac_sha256 hmac_sha512 : string -> string -> string)
    (signatureHeader timestampHeader signingSecret : string) (timestamp : Z) (data : string)
    (h : gmap string string) : gmap string string :=
  if negb (String.eqb signingSecret "") then
    <[timestampHeader := Itoa timestamp]>
      (<[signatureHeader := SignPayloadWithTimestamp hmac_sha256 hmac_sha512 timestamp data signingSecret]> h)
  else h.

Record Subscription := mkSubscription {
  sub_ID : string; sub_URL : string; sub_Events : list string; sub_Secret : string; sub_Active : bool;
  sub_Metadata : gmap string string; sub_CreatedAt : Time; sub_UpdatedAt : Time
}.

Definition sub_pattern_matches (eventType pattern : string) : bool :=
  String.eqb pattern "*" || String.eqb pattern eventType ||
  ((1 <? String.length pattern)%nat && HasSuffix pattern "*" &&
   HasPrefix eventType (str_take (String.length pattern - 1) pattern)).

Definition Matches (s : Subscription) (eventType : string) : bool :=
  sub_Active s && existsb (sub_pattern_matches eventType) (sub_Events s).

(** ** Routing ([router.go]) *)

Record RawEvent := mkRawEvent {
  ev_ID : string; ev_Type : string; ev_Timestamp : Time; ev_Data : option string;
  ev_Metadata : gmap string string
}.

Record Payload := mkPayload { pl_Event : RawEvent; pl_DeliveryID : string; pl_Attempt : Z }.

Fixpoint first_some {A B : Type} (f : A -> option B) (l : list A) : option B :=
  match l with
  | [] => None
  | x :: l => match f x with Some y => Some y | None => first_some f l end
  end.

(** The readings of JSON are arguments: as a payload, as an event, as an object of
    raw fields, as a string. *)
Definition defaultEventParser (unmarshal_payload : string -> option Payload)
    (unmarshal_event : string -> option RawEvent)
    (unmarshal_fields : string -> option (gmap string string))
    (unmarshal_string : string -> option string) (body : string) : option RawEvent :=
  let fall_back :=
    match unmarshal_event body with
    | None => None
    | Some event =>
        let type :=
          if String.eqb (ev_Type event) "" then
            match unmarshal_fields body with
            | None => ""
            | Some raw =>
                default ""
                  (first_some (fun field => raw !! field ≫= unmarshal_string)
                     ["type"; "event_type"; "event"; "action"])
            end
          else ev_Type event in
        Some (mkRawEvent (ev_ID event) type (ev_Timestamp event)
                (match ev_Data event with None => Some body | d => d end) (ev_Metadata event))
    end in
  match unmarshal_payload body with
  | Some payload => if String.eqb (ev_Type (pl_Event payload)) "" then fall_back else Some (pl_Event payload)
  | None => fall_back
  end.

Definition matchPattern (pattern eventType : string) : bool :=
  if String.eqb pattern "*" then true
  else if String.eqb pattern eventType then true
  else if HasSuffix pattern ".*" &&
          (let prefix := TrimSuffix pattern ".*" in
           HasPrefix eventType (prefix +:+ ".") || String.eqb eventType prefix) then true
  else HasSuffix pattern "*" && HasPrefix eventType (TrimSuffix pattern "*").

(** What is written to the response: a status with an error, the success, or
    whatever the HTTP handlers write. *)
Inductive response :=
| RespError (status : Z) (err : webhook_error)
| RespSuccess (message : string)
| RespHandlers.

Definition defaultErrorHandler (err : webhook_error) : response :=
  let statusCode :=
    match err with
    | ErrInvalidSignature | ErrMissingSignature => 401
    | ErrTimestampExpired | ErrMissingTimestamp => 400
    | ErrInvalidPayload => 400
    | ErrNoHandlerFound => 404
    | ErrRequestBodyTooLarge => 413
    | _ => 500
    end in
  RespError statusCode err.

Section router.
Context {W : Type}.

Definition Handler : Type := RawEvent -> W -> W * option webhook_error.
Definition HandlerFunc : Type := RawEvent -> W -> W.

(** The verifier of the configuration as the function it is used as. *)
Record Router := mkRouter {
  handlers : gmap string (list Handler);
  httpHandlers : gmap string (list HandlerFunc);
  verifier : option (Request -> Request * option webhook_error);
  maxBodySize : Z;
  errorHandler : webhook_error -> response;
  eventParser : string -> option RawEvent;
  beforeHandler : option Handler;
  afterHandler : option (RawEvent -> option webhook_error -> W -> W)
}.

Definition NewRouter (v : option (Request -> Request * option webhook_error)) (maxSize : Z)
    (on_error : option (webhook_error -> response)) (default_parser : string -> option RawEvent)
    (parser : option (string -> option RawEvent)) (before : option Handler)
    (after : option (RawEvent -> option webhook_error -> W -> W)) : Router :=
  mkRouter ∅ ∅ v (if maxSize <=? 0 then MaxBodySize else maxSize)
    (default defaultErrorHandler on_error) (default default_parser parser) before after.

Definition set_handlers (r : Router) (h : gmap string (list Handler)) (hh : gmap string (list HandlerFunc))
    : Router :=
  mkRouter h hh (verifier r) (maxBodySize r) (errorHandler r) (eventParser r) (beforeHandler r)
    (afterHandler r).

Definition On (r : Router) (pattern : string) (handler : Handler) : Router :=
  set_handlers r (<[pattern := (default [] (handlers r !! pattern) ++ [handler])%list]> (handlers r))
    (httpHandlers r).

Definition OnHTTP (r : Router) (pattern : string) (handler : HandlerFunc) : Router :=
  set_handlers r (handlers r)
    (<[pattern := (default [] (httpHandlers r !! pattern) ++ [handler])%list]> (httpHandlers r)).

(** The patterns in the order the map is ranged over. *)
Definition matching {H : Type} (m : gmap string (list H)) (order : list string) (eventType : string)
    : list H :=
  mjoin (omap (fun pattern => if matchPattern pattern eventType then m !! pattern else None) order).

Definition getHandlers (r : Router) (order : list string) (eventType : string) : list Handler :=
  matching (handlers r) order eventType.

Definition getHTTPHandlers (r : Router) (order : list string) (eventType : string) : list HandlerFunc :=
  matching (httpHandlers r) order eventType.

(** All handlers run; the last error is kept. *)
Definition call_handlers (event : RawEvent) (hs : list Handler) (w : W) : W * option webhook_error :=
  foldl (fun '(w, lastErr) (handler : Handler) =>
           match handler event w with
           | (w, Some err) => (w, Some err)
           | (w, None) => (w, lastErr)
           end) (w, None) hs.

Definition call_before (r : Router) (event : RawEvent) (w : W) : W * option webhook_error :=
  match beforeHandler r with Some before => before event w | None => (w, None) end.

Definition call_after (r : Router) (event : RawEvent) (err : option webhook_error) (w : W) : W :=
  match afterHandler r with Some after => after event err w | None => w end.

Definition Handle (r : Router) (order : list string) (event : RawEvent) (w : W) : W * option webhook_error :=
  let hs := getHandlers r order (ev_Type event) in
  match hs with
  | [] => (w, Some ErrNoHandlerFound)
  | _ =>
      match call_before r event w with
      | (w, Some err) => (w, Some err)
      | (w, None) =>
          let '(w, lastErr) := call_handlers event hs w in
          (call_after r event lastErr w, lastErr)
      end
  end.

Definition ServeHTTP (r : Router) (order orderHTTP : list string) (req : Request) (w : W) : W * response :=
  let '(req, verr) := match verifier r with Some v => v req | None => (req, None) end in
  match verr with
  | Some err => (w, errorHandler r err)
  | None =>
      match ReadBody req (maxBodySize r) with
      | (_, Err err) => (w, errorHandler r err)
      | (_, Ok body) =>
          match eventParser r body with
          | None => (w, errorHandler r ErrInvalidPayload)
          | Some event =>
              match getHTTPHandlers r orderHTTP (ev_Type event) with
              | _ :: _ =>
                  match call_before r event w with
                  | (w, Some err) => (w, errorHandler r err)
                  | (w, None) =>
                      let w := foldl (fun w (handler : HandlerFunc) => handler event w) w
                                 (getHTTPHandlers r orderHTTP (ev_Type event)) in
                      (call_after r event None w, RespHandlers)
                  end
              | [] =>
                  match getHandlers r order (ev_Type event) with
                  | [] => (w, errorHandler r ErrNoHandlerFound)
                  | hs =>
                      match call_before r event w with
                      | (w, Some err) => (w, errorHandler r err)
                      | (w, None) =>
                          let '(w, lastErr) := call_handlers event hs w in
                          let w := call_after r event lastErr w in
                          match lastErr with
                          | Some err => (w, errorHandler r err)
                          | None => (w, RespSuccess "Event processed")
                          end
                      end
                  end
              end
          end
      end
  end.

Definition Clear (r : Router) : Router := set_handlers r ∅ ∅.

(** The pattern of a group's [On] and [OnHTTP]. *)
Definition group_pattern (prefix pattern : string) : string :=
  if negb (String.eqb pattern "") && negb (String.eqb pattern "*") then prefix +:+ "." +:+ pattern
  else if String.eqb pattern "*" then prefix +:+ ".*" else prefix.

Definition Group_On (r : Router) (prefix pattern : string) (handler : Handler) : Router :=
  On r (group_pattern prefix pattern) handler.

Definition Group_OnHTTP (r : Router) (prefix pattern : string) (handler : HandlerFunc) : Router :=
  OnHTTP r (group_pattern prefix pattern) handler.

(** [parse] is [ParseData] at the type of the handler. *)
Definition TypedHandler {T : Type} (parse : RawEvent -> result webhook_error T)
    (handler : RawEvent -> T -> W -> W * option webhook_error) : Handler :=
  fun event w =>
    match parse event with
    | Err err => (w, Some err)
    | Ok data => handler event data w
    end.

End router.
Arguments Router : clear implicits.
Arguments Handler : clear implicits.

(** [VerifyMiddleware] and [VerifyFunc]: the next handler runs on the request the
    verifier leaves. *)
Definition VerifyMiddleware {W : Type} (v : Request -> Request * option webhook_error)
    (next : Request -> W -> W * response) (req : Request) (w : W) : W * response :=
  match v req with
  | (_, Some err) => (w, RespError 401 err)
  | (req, None) => next req w
  end.

(** ** Bodies *)

Lemma limit_wraps m : 0 < m < max_int64 -> int_add m 1 = m + 1.
Proof. intros H. unfold int_add. apply wrap64_id. unfold in_int64, min_int64, max_int64 in *. lia. Qed.

Lemma ReadBody_ok r maxSize r' body :
  maxSize < max_int64 -> ReadBody r maxSize = (r', Ok body) -> body = rq_body r /\ rq_broken r = false.
Proof.
  intros Hmax. unfold ReadBody. set (m := if maxSize <=? 0 then MaxBodySize else maxSize).
  assert (0 < m < max_int64) as Hm by (unfold m, MaxBodySize, max_int64 in *; destruct (maxSize <=? 0) eqn:?; lia).
  rewrite (limit_wraps m) by done. destruct (m <? rq_ContentLength r); [done|].
  assert (String.length (str_take (Z.to_nat (m + 1)) (rq_body r)) =
    (Z.to_nat (m + 1) `min` String.length (rq_body r))%nat) as Hlen by apply str_take_length.
  destruct (rq_broken r && _) eqn:Hb; [done|].
  destruct (m <? Z.of_nat _) eqn:Hl; [done|]. intros [= <- <-].
  assert (String.length (rq_body r) < Z.to_nat (m + 1))%nat as Hle by lia.
  rewrite str_take_all by lia. split; [done|].
  destruct (rq_broken r); [|done]. apply Nat.ltb_lt in Hle. by rewrite Hle in Hb.
Qed.

Lemma ReadBody_small r maxSize :
  maxSize < max_int64 -> rq_broken r = false ->
  rq_ContentLength r <= (if maxSize <=? 0 then MaxBodySize else maxSize) ->
  Z.of_nat (String.length (rq_body r)) <= (if maxSize <=? 0 then MaxBodySize else maxSize) ->
  (ReadBody r maxSize).2 = Ok (rq_body r).
Proof.
  intros Hmax Hb Hc Hl. unfold ReadBody. set (m := if maxSize <=? 0 then MaxBodySize else maxSize) in *.
  assert (0 < m < max_int64) as Hm by (unfold m, MaxBodySize, max_int64 in *; destruct (maxSize <=? 0) eqn:?; lia).
  rewrite (limit_wraps m) by done.
  replace (m <? rq_ContentLength r) with false by lia. rewrite Hb. cbn [andb].
  rewrite str_take_all by lia. by replace (m <? Z.of_nat (String.length (rq_body r))) with false by lia.
Qed.

Lemma ReadBody_request r maxSize body broken :
  set_body (ReadBody r maxSize).1 body broken = set_body r body broken.
Proof. destruct r. unfold ReadBody. cbn. by repeat case_match. Qed.

Lemma set_body_same r : set_body r (rq_body r) (rq_broken r) = r.
Proof. by destruct r. Qed.

(** A verifier that accepts has checked the body that it leaves to be read again,
    which is the whole body but for the greatest limit. *)
Lemma verify_body_ok r maxSize check r' :
  verify_body r maxSize check = (r', None) ->
  exists body, check body = None /\ r' = set_body r body false /\
    (maxSize < max_int64 -> body = rq_body r /\ r' = r).
Proof.
  unfold verify_body, DrainBody. pose proof (ReadBody_request r maxSize) as Hs.
  destruct (ReadBody r maxSize) as [r1 [body|err]] eqn:Hr; [|done]. cbn [fst] in Hs.
  intros [= <- Hc]. exists body. split; [done|]. rewrite Hs. split; [done|].
  intros Hm. apply ReadBody_ok in Hr as [-> <-]; [|done]. split; [done|]. apply set_body_same.
Qed.

Lemma verify_body_small r maxSize check :
  maxSize < max_int64 -> rq_broken r = false ->
  rq_ContentLength r <= (if maxSize <=? 0 then MaxBodySize else maxSize) ->
  Z.of_nat (String.length (rq_body r)) <= (if maxSize <=? 0 then MaxBodySize else maxSize) ->
  (verify_body r maxSize check).2 = check (rq_body r).
Proof.
  intros Hmax Hb Hc Hl. pose proof (ReadBody_small r maxSize Hmax Hb Hc Hl) as Hr.
  unfold verify_body, DrainBody. destruct (ReadBody r maxSize) as [r1 res]. cbn in Hr. by subst res.
Qed.

(** ** Hexadecimal signatures *)

Lemma string_app_empty s t : s +:+ t = "" -> s = "" /\ t = "".
Proof. destruct s; [done|]. discriminate. Qed.

(** A prefix is stripped once, when it is no hexadecimal text. *)
Lemma ExtractSignature_app prefix mac :
  no_space prefix = true ->
  ExtractSignature (prefix +:+ hex_encode mac) prefix = hex_encode mac.
Proof.
  intros Hp. unfold ExtractSignature.
  rewrite TrimSpace_no_space by (by rewrite no_space_app, Hp, hex_encode_no_space).
  destruct (String.eqb_spec prefix "") as [->|Hne]; [done|]. cbn [negb andb].
  assert (HasPrefix (prefix +:+ hex_encode mac) prefix = true) as Hh by (apply HasPrefix_spec; eauto).
  unfold TrimPrefix. rewrite Hh. apply str_drop_app.
Qed.

Lemma ExtractSignature_hex prefix mac c :
  prefix = "" \/ (string_has c prefix = true /\ hex_value c = None) ->
  ExtractSignature (hex_encode mac) prefix = hex_encode mac.
Proof.
  intros Hp. unfold ExtractSignature. rewrite TrimSpace_no_space by apply hex_encode_no_space.
  destruct Hp as [->|[Hc Hv]]; [done|].
  destruct (HasPrefix (hex_encode mac) prefix) eqn:Hh; [|by rewrite andb_false_r].
  apply HasPrefix_spec in Hh as [r Hr]. pose proof (hex_encode_has c mac Hv) as Hn.
  rewrite Hr, string_has_app, Hc in Hn. done.
Qed.

(** ** Routing *)

Lemma matching_perm {H : Type} (m : gmap string (list H)) order e :
  order ≡ₚ (map_to_list m).*1 ->
  matching m order e ≡ₚ mjoin (omap (fun kv => if matchPattern kv.1 e then Some kv.2 else None) (map_to_list m)).
Proof.
  intros Ho. unfold matching. rewrite Ho. clear Ho order.
  assert (forall l, (forall k x, (k, x) ∈ l -> m !! k = Some x) ->
    mjoin (omap (fun p => if matchPattern p e then m !! p else None) l.*1) =
    mjoin (omap (fun kv => if matchPattern kv.1 e then Some kv.2 else None) l)) as Hl.
  { intros l Hl. f_equal. induction l as [|[k x] l IH]; [done|]. cbn.
    rewrite IH by (intros; apply Hl; by right).
    destruct (matchPattern k e); [|done]. rewrite (Hl k x) by by left. done. }
  rewrite Hl; [done|]. intros k x Hkx. by apply elem_of_map_to_list.
Qed.

Lemma matching_insert {H : Type} (m : gmap string (list H)) order order' p h e :
  order ≡ₚ (map_to_list m).*1 ->
  order' ≡ₚ (map_to_list (<[p := (default [] (m !! p) ++ [h])%list]> m)).*1 ->
  matching (<[p := (default [] (m !! p) ++ [h])%list]> m) order' e ≡ₚ
  (matching m order e ++ if matchPattern p e then [h] else [])%list.
Proof.
  intros Ho Ho'. rewrite (matching_perm _ _ _ Ho), (matching_perm _ _ _ Ho').
  destruct (m !! p) as [hs|] eqn:Hp; cbn [default].
  - rewrite <- insert_delete_eq. rewrite map_to_list_insert by apply lookup_delete_eq.
    assert (map_to_list m ≡ₚ (p, hs) :: map_to_list (delete p m)) as ->.
    { rewrite <- map_to_list_insert by apply lookup_delete_eq. by rewrite insert_delete_id. }
    cbn. destruct (matchPattern p e); cbn; [|by rewrite app_nil_r].
    rewrite <- !app_assoc. apply Permutation_app_head. apply Permutation_app_comm.
  - rewrite map_to_list_insert by done. cbn. destruct (matchPattern p e); cbn; [|by rewrite app_nil_r].
    apply (Permutation_app_comm [h]).
Qed.

(** ** Theorems *)

(** A toy hash, for the examples. *)
Definition toy_hmac (key payload : string) : string := "#" +:+ key +:+ payload.

(** The same router without its verifier. *)
Definition no_verifier {W : Type} (r : Router W) : Router W :=
  mkRouter (handlers r) (httpHandlers r) None (maxBodySize r) (errorHandler r) (eventParser r)
    (beforeHandler r) (afterHandler r).

(** C8. No handler runs on an unauthenticated body: behind an HMAC verifier, a
    request either changes nothing and is answered with an error, or the header
    signs a body and the answer is that of the router without a verifier to the
    request with that body.  It is the request's own body, whole, for every limit
    of the verifier but the greatest, for which [ReadBody] reads nothing. *)
Theorem ServeHTTP_authentic {W : Type} h256 h512 (v : HMACVerifier) (r : Router W) o oh req w :
  verifier r = Some (HMAC_Verify h256 h512 v) ->
  (exists err, ServeHTTP r o oh req w = (w, errorHandler r err)) \/
  (exists body, let signature := rq_Header req (hv_Header v) in
   signature <> "" /\
   ComputeHMAC h256 h512 body (hv_Secret v) (hv_Algorithm v) =
     ExtractSignature (ExtractSignature signature (hv_Prefix v)) (hv_Prefix v) /\
   ServeHTTP r o oh req w = ServeHTTP (no_verifier r) o oh (set_body req body false) w /\
   (hv_MaxBodySize v < max_int64 -> body = rq_body req /\ set_body req body false = req)).
Proof.
  intros Hv. unfold ServeHTTP. rewrite Hv. cbn [no_verifier verifier]. unfold HMAC_Verify.
  destruct (String.eqb_spec (rq_Header req (hv_Header v)) "") as [Hs|Hs]; [left; eauto|].
  destruct (verify_body _ _ _) as [req' [err|]] eqn:Hvb; [left; eauto|].
  apply verify_body_ok in Hvb as (body & Hc & -> & Hsame).
  unfold HMAC_VerifyPayload, VerifyHMAC in Hc.
  destruct (String.eqb_spec (ComputeHMAC h256 h512 body (hv_Secret v) (hv_Algorithm v))
    (ExtractSignature (ExtractSignature (rq_Header req (hv_Header v)) (hv_Prefix v)) (hv_Prefix v)))
    as [Heq|]; [|done].
  right. by exists body.
Qed.

Lemma ServeHTTP_authentic_witness :
  let signature := "sha256=" +:+ SignPayload toy_hmac toy_hmac "hello" "k" in
  let v := NewHMACVerifier (mkHMACVerifier "k" AlgEmpty "" "sha256=" 0) in
  let r : Router nat :=
    On (NewRouter (Some (HMAC_Verify toy_hmac toy_hmac v)) 0 None
          (fun _ => Some (mkRawEvent "" "order.created" 0 None ∅)) None None None)
       "order.*" (fun _ n => (S n, None)) in
  let req := mkRequest (fun _ => signature) 5 "hello" false in
  ServeHTTP r ["order.*"] [] req 0%nat = (1%nat, RespSuccess "Event processed") /\
  ((exists err, ServeHTTP r ["order.*"] [] req 0%nat = (0%nat, errorHandler r err)) \/
   (exists body, signature <> "" /\
    ComputeHMAC toy_hmac toy_hmac body "k" SHA256 =
      ExtractSignature (ExtractSignature signature "sha256=") "sha256=" /\
    ServeHTTP r ["order.*"] [] req 0%nat = ServeHTTP (no_verifier r) ["order.*"] [] (set_body req body false) 0%nat /\
    (MaxBodySize < max_int64 -> body = "hello" /\ set_body req body false = req))).
Proof.
  intros signature v r req. split; [vm_compute; reflexivity|].
  apply (ServeHTTP_authentic toy_hmac toy_hmac v r ["order.*"] [] req 0%nat). reflexivity.
Defined.

(** What [SignPayload] signs the verifier accepts: with the signature in its
    header, with the prefix or none, and a body within the limit, for every
    secret and body. *)
Theorem HMAC_sign_verify h256 h512 cfg (r : Request) c :
  let v := NewHMACVerifier cfg in
  hv_Algorithm cfg = AlgEmpty \/ hv_Algorithm cfg = SHA256 ->
  (forall k m, h256 k m <> "") ->
  no_space (hv_Prefix v) = true ->
  hv_Prefix v = "" \/ (string_has c (hv_Prefix v) = true /\ hex_value c = None) ->
  rq_Header r (hv_Header v) = hv_Prefix v +:+ SignPayload h256 h512 (rq_body r) (hv_Secret v) ->
  hv_MaxBodySize v < max_int64 -> rq_broken r = false -> rq_ContentLength r <= hv_MaxBodySize v ->
  Z.of_nat (String.length (rq_body r)) <= hv_MaxBodySize v ->
  (HMAC_Verify h256 h512 v r).2 = None.
Proof.
  intros v Halg Hne Hsp Hpre Hh Hm Hb Hc Hl.
  assert (hv_Algorithm v = SHA256) as Ha by (unfold v; cbn; by destruct Halg as [-> | ->]).
  assert ((hv_MaxBodySize v <=? 0) = false) as Hmax
    by (unfold v, MaxBodySize; cbn; destruct (hv_MaxBodySize cfg <=? 0) eqn:?; [done|lia]).
  unfold HMAC_Verify. rewrite Hh. unfold SignPayload, ComputeHMAC at 1.
  destruct (String.eqb_spec (hv_Prefix v +:+ hex_encode (newHash h256 h512 SHA256 (hv_Secret v) (rq_body r))) "")
    as [He|_].
  { exfalso. apply string_app_empty in He as [_ He]. apply hex_encode_empty in He. by apply Hne in He. }
  rewrite verify_body_small by (rewrite ?Hmax; done).
  unfold HMAC_VerifyPayload, VerifyHMAC. unfold SignPayload, ComputeHMAC. rewrite Ha.
  rewrite ExtractSignature_app by done. rewrite (ExtractSignature_hex _ _ c) by done.
  by rewrite String.eqb_refl.
Qed.

Lemma HMAC_sign_verify_witness :
  (HMAC_Verify toy_hmac toy_hmac (NewHMACVerifier (mkHMACVerifier "k" AlgEmpty "" "sha256=" 0))
    (mkRequest (fun _ => "sha256=" +:+ SignPayload toy_hmac toy_hmac "hello" "k") 5 "hello" false)).2 = None.
Proof.
  apply (HMAC_sign_verify toy_hmac toy_hmac (mkHMACVerifier "k" AlgEmpty "" "sha256=" 0)
    (mkRequest (fun _ => "sha256=" +:+ SignPayload toy_hmac toy_hmac "hello" "k") 5 "hello" false) "=");
    first [by left | done | by right].
Defined.

(** Signatures with a timestamp expire: the header that [SignPayloadWithTimestamp]
    makes is accepted exactly within the tolerance of the time it was made for,
    before and after, and is refused as expired outside, whatever the secret,
    the body and the hash. *)
Theorem Stripe_window h256 h512 (v : StripeVerifier) now ts body :
  0 < ts <= 2 ^ 61 -> 0 < st_tolerance v ->
  Stripe_VerifyPayload h256 v now body
    ("t=" +:+ Itoa ts +:+ String "," ("v1=" +:+ SignPayloadWithTimestamp h256 h512 ts body (st_secret v))) =
  if (now - st_tolerance v <=? ts * Second) && (ts * Second <=? now + st_tolerance v)
  then None else Some ErrTimestampExpired.
Proof.
  intros Hts Htol. unfold Stripe_VerifyPayload.
  set (sig := SignPayloadWithTimestamp h256 h512 ts body (st_secret v)).
  assert (string_has "," ("v1=" +:+ sig) = false) as Hsig.
  { rewrite string_has_app. unfold sig, SignPayloadWithTimestamp, ComputeHMAC.
    by rewrite hex_encode_has. }
  assert (split_byte "," ("t=" +:+ Itoa ts +:+ String "," ("v1=" +:+ sig)) = ["t=" +:+ Itoa ts; "v1=" +:+ sig]) as ->.
  { rewrite string_app_assoc. rewrite split_byte_app.
    - by rewrite split_byte_none.
    - rewrite string_has_app. rewrite Itoa_has by (lia || done). done. }
  cbn [stripe_parts].
  assert (cut_byte "=" ("t=" +:+ Itoa ts) = Some ("t", Itoa ts)) as -> by (by apply (cut_byte_app "=" "t")).
  cbn [String.eqb Ascii.eqb Bool.eqb]. rewrite Atoi_Itoa by (unfold in_int64, min_int64, max_int64; lia).
  cbn [stripe_parts].
  assert (cut_byte "=" ("v1=" +:+ sig) = Some ("v1", sig)) as -> by (by apply (cut_byte_app "=" "v1")).
  cbn [String.eqb Ascii.eqb Bool.eqb app length Nat.eqb]. replace (ts =? 0) with false by lia.
  unfold VerifyTimestamp, time_Before, time_After, time_Add, time_Unix.
  replace (st_tolerance v <=? 0) with false by lia.
  rewrite wrap64_id by (unfold in_int64, min_int64, max_int64; lia).
  replace (ts + 62135596800 - 62135596800) with ts by lia.
  destruct (ts * Second <? now + - st_tolerance v) eqn:E1; cbn [orb].
  { by replace (now - st_tolerance v <=? ts * Second) with false by lia. }
  replace (now - st_tolerance v <=? ts * Second) with true by lia. cbn [andb].
  destruct (now + st_tolerance v <? ts * Second) eqn:E2.
  { by replace (ts * Second <=? now + st_tolerance v) with false by lia. }
  replace (ts * Second <=? now + st_tolerance v) with true by lia.
  cbn [existsb]. unfold sig, SignPayloadWithTimestamp, ComputeHMAC, newHash. by rewrite String.eqb_refl.
Qed.

Lemma Stripe_window_witness :
  Stripe_VerifyPayload toy_hmac (NewStripeVerifier "k") (1700000100 * Second) "hello"
    ("t=" +:+ Itoa 1700000000 +:+ String "," ("v1=" +:+
       SignPayloadWithTimestamp toy_hmac toy_hmac 1700000000 "hello" "k")) = None /\
  Stripe_VerifyPayload toy_hmac (NewStripeVerifier "k") (1700000301 * Second) "hello"
    ("t=" +:+ Itoa 1700000000 +:+ String "," ("v1=" +:+
       SignPayloadWithTimestamp toy_hmac toy_hmac 1700000000 "hello" "k")) = Some ErrTimestampExpired.
Proof.
  split; [apply (Stripe_window toy_hmac toy_hmac (NewStripeVerifier "k") (1700000100 * Second)) |
          apply (Stripe_window toy_hmac toy_hmac (NewStripeVerifier "k") (1700000301 * Second))]; done.
Defined.

(** A pattern matches what its shape says: everything for a star; itself; with
    [.*] at the end the text before it and all that continues it after a dot;
    with a star at the end every continuation; and nothing else. *)
Theorem matchPattern_spec pattern eventType :
  matchPattern pattern eventType = true <->
  pattern = "*" \/ pattern = eventType \/
  (exists x, pattern = x +:+ ".*" /\ (eventType = x \/ exists y, eventType = x +:+ "." +:+ y)) \/
  (exists x y, pattern = x +:+ "*" /\ eventType = x +:+ y).
Proof.
  unfold matchPattern. destruct (String.eqb_spec pattern "*") as [->|H1]; [tauto|].
  destruct (String.eqb_spec pattern eventType) as [->|H2]; [tauto|].
  assert ((HasSuffix pattern ".*" &&
    (HasPrefix eventType (TrimSuffix pattern ".*" +:+ ".") || String.eqb eventType (TrimSuffix pattern ".*"))) = true
    <-> exists x, pattern = x +:+ ".*" /\ (eventType = x \/ exists y, eventType = x +:+ "." +:+ y)) as Hdot.
  { rewrite andb_true_iff, orb_true_iff, HasSuffix_spec, HasPrefix_spec, String.eqb_eq. split.
    - intros [[x ->] He]. rewrite TrimSuffix_app in He. exists x. split; [done|].
      destruct He as [[y ->]|]; [|by left]. right. exists y. by rewrite <- string_app_assoc.
    - intros (x & -> & He). split; [by exists x|]. rewrite TrimSuffix_app.
      destruct He as [->|[y ->]]; [by right|left]. exists y. by rewrite <- string_app_assoc. }
  assert ((HasSuffix pattern "*" && HasPrefix eventType (TrimSuffix pattern "*")) = true
    <-> exists x y, pattern = x +:+ "*" /\ eventType = x +:+ y) as Hstar.
  { rewrite andb_true_iff, HasSuffix_spec, HasPrefix_spec. split.
    - intros [[x ->] [y He]]. rewrite TrimSuffix_app in He. eauto.
    - intros (x & y & -> & ->). split; [by exists x|]. exists y. by rewrite TrimSuffix_app. }
  destruct (HasSuffix pattern ".*" && _); [tauto|]. rewrite Hstar. split; [tauto|].
  intros [?|[?|[Hx|Hx]]]; [done|done| |done]. apply Hdot in Hx. done.
Qed.

(** The router runs what was registered: after any registrations, in whatever
    order the map is ranged over, the handlers of an event are those registered
    under the patterns that match its type, each as often as it was. *)
Theorem getHandlers_registered {W : Type} (r0 : Router W) (regs : list (string * Handler W)) order eventType :
  handlers r0 = ∅ ->
  let r := foldl (fun r reg => On r reg.1 reg.2) r0 regs in
  order ≡ₚ (map_to_list (handlers r)).*1 ->
  getHandlers r order eventType ≡ₚ
    omap (fun reg => if matchPattern reg.1 eventType then Some reg.2 else None) regs.
Proof.
  intros H0 r. unfold r. clear r. revert order.
  induction regs as [|[p h] regs IH] using rev_ind; intros order Ho.
  - cbn in *. rewrite H0 in Ho. rewrite map_to_list_empty in Ho. cbn in Ho.
    apply Permutation_nil_r in Ho as ->. done.
  - rewrite foldl_app in *. cbn [foldl fst snd] in *.
    set (r := foldl _ r0 regs) in *. unfold getHandlers, On in *. cbn [handlers set_handlers] in *.
    rewrite (matching_insert _ ((map_to_list (handlers r)).*1) order p h eventType); [|done|done].
    rewrite (IH _ ltac:(done)). rewrite omap_app. cbn. by destruct (matchPattern p eventType).
Qed.

Lemma getHandlers_registered_witness :
  let h : Handler nat := fun _ n => (S n, None) in
  let r := On (On (NewRouter None 0 None (fun _ => None) None None None) "order.*" h) "user.*" h in
  getHandlers r ["user.*"; "order.*"] "order.created" ≡ₚ [h].
Proof.
  intros h r.
  apply (getHandlers_registered (NewRouter None 0 None (fun _ => None) None None None)
    [("order.*", h); ("user.*", h)] ["user.*"; "order.*"] "order.created"); [done|].
  assert ((map_to_list (handlers r)).*1 = ["order.*"; "user.*"] \/
    (map_to_list (handlers r)).*1 = ["user.*"; "order.*"]) as [He|He] by (vm_compute; auto).
  - unfold r in He. cbn [foldl fst snd]. rewrite He. constructor.
  - unfold r in He. cbn [foldl fst snd]. by rewrite He.
Defined.

(** The verifier of the package refuses what the sender of the package signs: the
    sender signs the timestamp with the body, the HMAC verifier the body alone,
    so that a request with the sender's headers is refused whenever the two
    texts have different hashes. *)
Theorem sender_refused h256 h512 secret ts body cfg (r : Request) :
  let v := NewHMACVerifier cfg in
  hv_Secret v = secret -> hv_Prefix v = "" -> hv_Algorithm cfg = AlgEmpty -> secret <> "" ->
  h256 secret (Itoa ts +:+ "." +:+ body) <> h256 secret body ->
  rq_body r = body -> hv_MaxBodySize v < max_int64 ->
  (forall k, rq_Header r k =
     default "" (sign_headers h256 h512 (hv_Header v) "X-Webhook-Timestamp" secret ts body ∅ !! k)) ->
  hv_Header v <> "X-Webhook-Timestamp" ->
  (HMAC_Verify h256 h512 v r).2 <> None.
Proof.
  intros v Hs Hp Ha Hne Hh Hb Hm Hhead Hhv. unfold HMAC_Verify.
  destruct (String.eqb (rq_Header r (hv_Header v)) ""); [done|].
  destruct (verify_body _ _ _) as [r' [err|]] eqn:Hvb; [done|]. exfalso.
  apply verify_body_ok in Hvb as (b & Hc & _ & Heq). destruct (Heq Hm) as [-> _]. rewrite Hhead in Hc. unfold sign_headers in Hc.
  apply String.eqb_neq in Hne. rewrite Hne in Hc. cbn [negb] in Hc.
  rewrite lookup_insert_ne, lookup_insert_eq in Hc by done. cbn [default from_option id] in Hc.
  unfold HMAC_VerifyPayload, VerifyHMAC in Hc. rewrite Hp, Hb, Hs in Hc.
  unfold SignPayloadWithTimestamp, ComputeHMAC in Hc.
  rewrite !(ExtractSignature_hex "" _ "=") in Hc by (by left).
  assert (hv_Algorithm v = SHA256) as Halg by (unfold v; cbn; by rewrite Ha). rewrite Halg in Hc. cbn [newHash] in Hc.
  destruct (String.eqb_spec (hex_encode (h256 secret body)) (hex_encode (h256 secret (Itoa ts +:+ "." +:+ body))))
    as [He|]; [|done].
  apply (f_equal hex_decode) in He. rewrite !hex_round_trip in He. congruence.
Qed.

Lemma sender_refused_witness :
  (HMAC_Verify toy_hmac toy_hmac (NewHMACVerifier (mkHMACVerifier "k" AlgEmpty "" "" 0))
    (mkRequest (fun k => default "" (sign_headers toy_hmac toy_hmac "X-Webhook-Signature"
        "X-Webhook-Timestamp" "k" 5 "hello" ∅ !! k)) 5 "hello" false)).2 <> None.
Proof.
  apply (sender_refused toy_hmac toy_hmac "k" 5 "hello" (mkHMACVerifier "k" AlgEmpty "" "" 0)
    (mkRequest (fun k => default "" (sign_headers toy_hmac toy_hmac "X-Webhook-Signature"
        "X-Webhook-Timestamp" "k" 5 "hello" ∅ !! k)) 5 "hello" false));
    first [done | discriminate].
Defined.

(** Two verifiers do not verify: the Twilio verifier accepts every body under any
    signature that is not empty, and checking a payload for Slack only looks at
    the length of the signature. *)
Theorem verifiers_accept_anything (tw : TwilioVerifier) (sl : SlackVerifier) body signature :
  signature <> "" ->
  Twilio_VerifyPayload tw body signature = None /\
  (String.length signature = 64%nat -> HasPrefix signature "v0=" = false ->
   Slack_VerifyPayload sl body signature = None).
Proof.
  intros Hne. split.
  - unfold Twilio_VerifyPayload. by apply String.eqb_neq in Hne as ->.
  - intros Hl Hp. unfold Slack_VerifyPayload, TrimPrefix. rewrite Hp, Hl. done.
Qed.

Lemma verifiers_accept_anything_witness :
  Twilio_VerifyPayload (mkTwilioVerifier "token" 0) "forged" "x" = None /\
  (String.length "x" = 64%nat -> HasPrefix "x" "v0=" = false ->
   Slack_VerifyPayload (mkSlackVerifier "s" 0 0) "forged" "x" = None).
Proof. apply verifiers_accept_anything. discriminate. Defined.

(** Shopify sends base64; only hexadecimal is accepted: the first letter of this
    signature is enough for it to be refused. *)
Theorem Shopify_refuses_base64 h256 (v : ShopifyVerifier) body s :
  Shopify_VerifyPayload h256 v body (String "Z" s) = Some ErrInvalidSignature.
Proof.
  unfold Shopify_VerifyPayload.
  destruct (String.eqb_spec (hex_encode (h256 (sh_secret v) body)) (String "Z" s)) as [He|_].
  - pose proof (hex_encode_has "Z" (h256 (sh_secret v) body) eq_refl) as Hn. rewrite He in Hn. done.
  - cbn. by destruct s.
Qed.

(** The two ends of the package disagree on a pattern: the router's [order.*] matches
    the event [order], a subscription's does not. *)
Theorem patterns_disagree :
  matchPattern "order.*" "order" = true /\ Matches (mkSubscription "" "" ["order.*"] "" true ∅ zero_time zero_time) "order" = false.
Proof. split; reflexivity. Qed.
