(* ===== verification/History.v ===== *)
(** * Job history ([pantry/jobs/history.go])

    The [HistoryStore] interface, the store in memory, its statistics, and the
    monitor over any store.

    The store in memory keeps the pointers it is given: [objects] is the part of
    the heap they point into, so that what [RecordComplete] writes is seen
    through every list that holds the pointer.  The statistics of a job never
    leave the store but as a copy, and the times its pointers lead to are never
    written: both are values here.  The store over Redis is not modelled. *)

From S2P Require Import Prelude Float64.

(** ** Data *)

Inductive JobStatus :=
| JobStatusPending
| JobStatusRunning
| JobStatusCompleted
| JobStatusFailed
| JobStatusSkipped
| JobStatusCancelled.

#[global] Instance JobStatus_eq_dec : EqDecision JobStatus.
Proof. solve_decision. Defined.

Record JobExecution := mkJobExecution {
  je_ID : string;
  je_JobName : string;
  je_Status : JobStatus;
  je_StartedAt : Time;
  je_CompletedAt : option Time;
  je_Duration : Duration;
  je_Error : string;
  je_WorkerID : string;
  je_Metadata : gmap string string
}.

Record JobStats := mkJobStats {
  js_JobName : string;
  TotalExecutions : Z;
  SuccessfulExecutions : Z;
  FailedExecutions : Z;
  SkippedExecutions : Z;
  LastExecution : option Time;
  LastSuccess : option Time;
  LastFailure : option Time;
  LastError : string;
  AverageDuration : Duration;
  MinDuration : Duration;
  MaxDuration : Duration
}.

Definition new_stats (jobName : string) : JobStats :=
  mkJobStats jobName 0 0 0 0 None None None "" 0 0 0.

Inductive history_error := HistoryUnavailable (msg : string).

(** ** The interface

    [RecordStart] is given the address of the execution and what is there. *)

Class HistoryStore (S : Type) := {
  RecordStart : S -> positive -> JobExecution -> S * option history_error;
  RecordComplete : S -> JobExecution -> S * option history_error;
  GetStats : S -> string -> result history_error JobStats;
  GetAllStats : S -> result history_error (gmap string JobStats)
}.

(** ** The store in memory *)

Record MemoryHistoryStore := mkMemoryHistoryStore {
  objects : gmap positive JobExecution;
  executions : gmap string (list positive);
  byID : gmap string positive;
  stats : gmap string JobStats;
  maxPerJob : Z
}.

Definition NewMemoryHistoryStore (maxPerJob : Z) : MemoryHistoryStore :=
  mkMemoryHistoryStore ∅ ∅ ∅ ∅ (if maxPerJob <=? 0 then 100 else maxPerJob).

Definition getOrCreateStats (s : MemoryHistoryStore) (jobName : string) : JobStats :=
  default (new_stats jobName) (stats s !! jobName).

Definition set_stats (s : MemoryHistoryStore) (jobName : string) (st : JobStats) : MemoryHistoryStore :=
  mkMemoryHistoryStore (objects s) (executions s) (byID s) (<[jobName := st]> (stats s)) (maxPerJob s).

(** [delete(s.byID, old.ID)]. *)
Definition forget (objs : gmap positive JobExecution) (m : gmap string positive) (p : positive)
    : gmap string positive :=
  match objs !! p with
  | Some old => delete (je_ID old) m
  | None => m
  end.

Definition count_start (st : JobStats) (startedAt : Time) : JobStats :=
  mkJobStats (js_JobName st) (int_add (TotalExecutions st) 1) (SuccessfulExecutions st)
    (FailedExecutions st) (SkippedExecutions st) (Some startedAt) (LastSuccess st) (LastFailure st)
    (LastError st) (AverageDuration st) (MinDuration st) (MaxDuration st).

Definition MHS_RecordStart (s : MemoryHistoryStore) (p : positive) (exec : JobExecution)
    : MemoryHistoryStore * option history_error :=
  let name := je_JobName exec in
  let objs := <[p := exec]> (objects s) in
  let ids := <[je_ID exec := p]> (byID s) in
  let execs := (default [] (executions s !! name) ++ [p])%list in
  let '(ids, execs) :=
    if maxPerJob s <? Z.of_nat (length execs) then
      match execs with
      | old :: rest => (forget objs ids old, rest)
      | [] => (ids, execs)
      end
    else (ids, execs) in
  let s := mkMemoryHistoryStore objs (<[name := execs]> (executions s)) ids (stats s) (maxPerJob s) in
  (set_stats s name (count_start (getOrCreateStats s name) (je_StartedAt exec)), None).

(** The running average divides by the number of executions counted so far. *)
Definition updateDurationStats (st : JobStats) (duration : Duration) : JobStats :=
  let min := if (MinDuration st =? 0) || (duration <? MinDuration st) then duration else MinDuration st in
  let max := if MaxDuration st <? duration then duration else MaxDuration st in
  let total := int_add (SuccessfulExecutions st) (FailedExecutions st) in
  let avg :=
    if 0 <? total
    then int_add (AverageDuration st) (Z.quot (int_sub duration (AverageDuration st)) total)
    else AverageDuration st in
  mkJobStats (js_JobName st) (TotalExecutions st) (SuccessfulExecutions st) (FailedExecutions st)
    (SkippedExecutions st) (LastExecution st) (LastSuccess st) (LastFailure st) (LastError st)
    avg min max.

Definition count_complete (st : JobStats) (exec : JobExecution) : JobStats :=
  match je_Status exec with
  | JobStatusCompleted =>
      updateDurationStats
        (mkJobStats (js_JobName st) (TotalExecutions st) (int_add (SuccessfulExecutions st) 1)
           (FailedExecutions st) (SkippedExecutions st) (LastExecution st) (je_CompletedAt exec)
           (LastFailure st) (LastError st) (AverageDuration st) (MinDuration st) (MaxDuration st))
        (je_Duration exec)
  | JobStatusFailed =>
      updateDurationStats
        (mkJobStats (js_JobName st) (TotalExecutions st) (SuccessfulExecutions st)
           (int_add (FailedExecutions st) 1) (SkippedExecutions st) (LastExecution st) (LastSuccess st)
           (je_CompletedAt exec) (je_Error exec) (AverageDuration st) (MinDuration st) (MaxDuration st))
        (je_Duration exec)
  | JobStatusSkipped =>
      mkJobStats (js_JobName st) (TotalExecutions st) (SuccessfulExecutions st) (FailedExecutions st)
        (int_add (SkippedExecutions st) 1) (LastExecution st) (LastSuccess st) (LastFailure st)
        (LastError st) (AverageDuration st) (MinDuration st) (MaxDuration st)
  | _ => st
  end.

Definition complete (stored exec : JobExecution) : JobExecution :=
  mkJobExecution (je_ID stored) (je_JobName stored) (je_Status exec) (je_StartedAt stored)
    (je_CompletedAt exec) (je_Duration exec) (je_Error exec) (je_WorkerID stored) (je_Metadata stored).

Definition MHS_RecordComplete (s : MemoryHistoryStore) (exec : JobExecution)
    : MemoryHistoryStore * option history_error :=
  let objs :=
    match byID s !! je_ID exec with
    | Some p => alter (fun stored => complete stored exec) p (objects s)
    | None => objects s
    end in
  let s := mkMemoryHistoryStore objs (executions s) (byID s) (stats s) (maxPerJob s) in
  (set_stats s (je_JobName exec) (count_complete (getOrCreateStats s (je_JobName exec)) exec), None).

(** [None] is the panic of [make] when the limit is negative and there are
    executions. *)
Definition MHS_GetExecutions (s : MemoryHistoryStore) (jobName : string) (limit : Z)
    : option (list positive) :=
  match default [] (executions s !! jobName) with
  | [] => Some []
  | execs => if limit <? 0 then None else Some (take (Z.to_nat limit) (rev execs))
  end.

Definition MHS_GetExecution (s : MemoryHistoryStore) (id : string) : option positive := byID s !! id.

Definition MHS_GetStats (s : MemoryHistoryStore) (jobName : string) : result history_error JobStats :=
  Ok (getOrCreateStats s jobName).

Definition MHS_GetAllStats (s : MemoryHistoryStore) : result history_error (gmap string JobStats) :=
  Ok (stats s).

Definition kept (objs : gmap positive JobExecution) (cutoff : Time) (p : positive) : bool :=
  match objs !! p with
  | Some exec => time_After (je_StartedAt exec) cutoff
  | None => false
  end.

(** One job of the loop. *)
Definition cleanup_job (cutoff : Time) (s : MemoryHistoryStore) (jobName : string) : MemoryHistoryStore :=
  let execs := default [] (executions s !! jobName) in
  mkMemoryHistoryStore (objects s)
    (<[jobName := List.filter (kept (objects s) cutoff) execs]> (executions s))
    (foldl (forget (objects s)) (byID s) (List.filter (fun p => negb (kept (objects s) cutoff p)) execs))
    (stats s) (maxPerJob s).

(** [order] is the order in which the map is ranged over. *)
Definition MHS_Cleanup (s : MemoryHistoryStore) (now : Time) (maxAge : Duration) (order : list string)
    : MemoryHistoryStore :=
  foldl (cleanup_job (time_Add now (- maxAge))) s order.

#[export] Instance MemoryHistoryStore_HistoryStore : HistoryStore MemoryHistoryStore := {
  RecordStart := MHS_RecordStart;
  RecordComplete := MHS_RecordComplete;
  GetStats := MHS_GetStats;
  GetAllStats := MHS_GetAllStats
}.

(** ** The monitor *)

Section monitor.
Context {S : Type} `{HistoryStore S}.

Definition healthy (st : JobStats) : bool :=
  match LastSuccess st with
  | None => false
  | Some ok =>
      match LastFailure st with
      | None => true
      | Some bad => time_After ok bad
      end
  end.

Definition HealthCheck (s : S) : result history_error (gmap string bool) :=
  try! allStats := GetAllStats s in Ok (healthy <$> allStats).

Definition FailureRate (s : S) (jobName : string) : result history_error float64 :=
  try! st := GetStats s jobName in
  let total := int_add (SuccessfulExecutions st) (FailedExecutions st) in
  Ok (if total =? 0 then f64_of_int 0
      else f64_div (f64_of_int (FailedExecutions st)) (f64_of_int total)).

Definition AverageLatency (s : S) (jobName : string) : result history_error Duration :=
  try! st := GetStats s jobName in Ok (AverageDuration st).
End monitor.

(** ** Specification

    The history of a job is the list of its latest executions, at most
    [maxPerJob], in the order they started. *)

Inductive hist_event :=
| HStart (p : positive) (exec : JobExecution)
| HComplete (exec : JobExecution)
| HCleanup (now : Time) (maxAge : Duration) (order : list string).

Definition hist_step (s : MemoryHistoryStore) (ev : hist_event) : MemoryHistoryStore :=
  match ev with
  | HStart p exec => (MHS_RecordStart s p exec).1
  | HComplete exec => (MHS_RecordComplete s exec).1
  | HCleanup now maxAge order => MHS_Cleanup s now maxAge order
  end.

Definition execs (s : MemoryHistoryStore) (job : string) : list positive :=
  default [] (executions s !! job).

(** An execution starts at an address and with an ID that the store does not
    hold; a cleanup ranges over every job. *)
Definition event_ok (s : MemoryHistoryStore) (ev : hist_event) : Prop :=
  match ev with
  | HStart p exec => (forall job, p ∉ execs s job) /\ byID s !! je_ID exec = None
  | HComplete _ => True
  | HCleanup _ _ order => forall job, execs s job <> [] -> job ∈ order
  end.

Fixpoint events_ok (s : MemoryHistoryStore) (evs : list hist_event) : Prop :=
  match evs with
  | [] => True
  | ev :: evs => event_ok s ev /\ events_ok (hist_step s ev) evs
  end.

Definition lastn {A : Type} (n : nat) (l : list A) : list A := drop (length l - n) l.

Definition spec_step (m : nat) (h : string -> list JobExecution) (ev : hist_event)
    : string -> list JobExecution :=
  fun job =>
    match ev with
    | HStart _ exec => if String.eqb (je_JobName exec) job then lastn m (h job ++ [exec]) else h job
    | HComplete exec =>
        map (fun x => if String.eqb (je_ID x) (je_ID exec) then complete x exec else x) (h job)
    | HCleanup now maxAge _ => List.filter (fun x => now - maxAge <? je_StartedAt x) (h job)
    end.

(** The address leads to the execution, which is one of the job. *)
Definition points (s : MemoryHistoryStore) (job : string) (p : positive) (e : JobExecution) : Prop :=
  objects s !! p = Some e /\ je_JobName e = job.

Record agrees (s : MemoryHistoryStore) (h : string -> list JobExecution) : Prop := {
  agr_points job : Forall2 (points s job) (execs s job) (h job);
  agr_nodup job : NoDup (execs s job);
  agr_ids id p :
    byID s !! id = Some p <->
    exists job e, p ∈ execs s job /\ objects s !! p = Some e /\ je_ID e = id
}.

Definition refines (m : nat) (s : MemoryHistoryStore) (h : string -> list JobExecution) : Prop :=
  agrees s h /\ maxPerJob s = Z.of_nat m /\ forall job, (length (execs s job) <= m)%nat.

(** What the events say of one job. *)
Definition finished (e : JobExecution) : bool :=
  bool_decide (je_Status e = JobStatusCompleted) || bool_decide (je_Status e = JobStatusFailed).

Definition started_of (job : string) (evs : list hist_event) : list JobExecution :=
  omap (fun ev => match ev with
                  | HStart _ e => if String.eqb (je_JobName e) job then Some e else None
                  | _ => None
                  end) evs.

Definition completed_of (job : string) (evs : list hist_event) : list JobExecution :=
  omap (fun ev => match ev with
                  | HComplete e => if String.eqb (je_JobName e) job then Some e else None
                  | _ => None
                  end) evs.

Definition with_status (st : JobStatus) (l : list JobExecution) : list JobExecution :=
  List.filter (fun e => bool_decide (je_Status e = st)) l.

Definition sum_Z (l : list Z) : Z := foldr Z.add 0 l.

(** ** The store in memory keeps its history *)

Lemma execs_insert s job job' l objs ids st m :
  execs (mkMemoryHistoryStore objs (<[job := l]> (executions s)) ids st m) job' =
  if String.eqb job job' then l else execs s job'.
Proof.
  unfold execs. cbn [executions]. destruct (String.eqb_spec job job') as [<-|Hne].
  - by rewrite lookup_insert_eq.
  - by rewrite lookup_insert_ne.
Qed.

Section agrees.
Context {s : MemoryHistoryStore} {h : string -> list JobExecution}.
Hypothesis HR : agrees s h.

Lemma execs_points job p : p ∈ execs s job -> exists e, points s job p e /\ e ∈ h job.
Proof.
  intros Hp. apply list_elem_of_lookup in Hp as [i Hi].
  destruct (Forall2_lookup_l _ _ _ _ _ (agr_points _ _ HR job) Hi) as (e & He & Hpe).
  exists e. split; [done|]. by apply list_elem_of_lookup_2 in He.
Qed.

Lemma history_points job e : e ∈ h job -> exists p, p ∈ execs s job /\ points s job p e.
Proof.
  intros He. apply list_elem_of_lookup in He as [i Hi].
  destruct (Forall2_lookup_r _ _ _ _ _ (agr_points _ _ HR job) Hi) as (p & Hp & Hpe).
  exists p. split; [|done]. by apply list_elem_of_lookup_2 in Hp.
Qed.

(** An address is in one job at most. *)
Lemma execs_job job job' p : p ∈ execs s job -> p ∈ execs s job' -> job = job'.
Proof.
  intros (e & [He <-] & _)%execs_points (e' & [He' <-] & _)%execs_points. congruence.
Qed.

Lemma execs_byID job p e : p ∈ execs s job -> objects s !! p = Some e -> byID s !! je_ID e = Some p.
Proof. intros Hp He. apply (agr_ids _ _ HR). eauto. Qed.

Lemma forget_all objs (l : list positive) (ids : gmap string positive) id p :
  foldl (forget objs) ids l !! id = Some p <->
  ids !! id = Some p /\ forall q e, q ∈ l -> objs !! q = Some e -> je_ID e <> id.
Proof.
  revert ids. induction l as [|q l IH]; intros ids; cbn [foldl].
  - split; [|tauto]. intros H. split; [done|]. intros q e Hq. by apply elem_of_nil in Hq.
  - rewrite IH. unfold forget. destruct (objs !! q) as [e|] eqn:He.
    + rewrite lookup_delete_Some. setoid_rewrite elem_of_cons. split.
      * intros [[Hne Hi] Hl]. split; [done|]. intros q' e' [->|Hq'] He'; [congruence|eauto].
      * intros [Hi Hl]. split; [split; [eapply Hl; eauto|done]|]. intros q' e' Hq' He'. eauto.
    + setoid_rewrite elem_of_cons. split.
      * intros [Hi Hl]. split; [done|]. intros q' e' [->|Hq'] He'; [congruence|eauto].
      * intros [Hi Hl]. split; [done|]. intros q' e' Hq' He'. eauto.
Qed.

(** Removing executions of a job, from its list and by their IDs. *)
Lemma agrees_remove h' job keep l' st :
  let s' := mkMemoryHistoryStore (objects s) (<[job := List.filter keep (execs s job)]> (executions s))
      (foldl (forget (objects s)) (byID s) (List.filter (fun p => negb (keep p)) (execs s job)))
      st (maxPerJob s) in
  Forall2 (points s job) (List.filter keep (execs s job)) l' ->
  (forall job', h' job' = if String.eqb job job' then l' else h job') ->
  agrees s' h'.
Proof.
  intros s' Hl' Hh'. unfold s'. split.
  - intros job'. rewrite Hh', execs_insert. destruct (String.eqb_spec job job') as [<-|_]; [done|].
    apply (agr_points _ _ HR).
  - intros job'. rewrite execs_insert. destruct (String.eqb_spec job job') as [<-|_].
    + apply NoDup_ListNoDup, List.NoDup_filter, NoDup_ListNoDup, (agr_nodup _ _ HR).
    + apply (agr_nodup _ _ HR).
  - intros id p. cbn [byID objects]. rewrite forget_all, (agr_ids _ _ HR). split.
    + intros [(job' & e & Hp & He & Hid) Hl]. exists job', e. split; [|done]. rewrite execs_insert.
      destruct (String.eqb_spec job job') as [<-|_]; [|done].
      apply list_elem_of_In, filter_In. split; [by apply list_elem_of_In|].
      destruct (keep p) eqn:Hk; [done|]. exfalso. eapply Hl; [|done|done].
      apply list_elem_of_In, filter_In. split; [by apply list_elem_of_In|by rewrite Hk].
    + intros (job' & e & Hp & He & Hid). rewrite execs_insert in Hp.
      assert (p ∈ execs s job' /\ (job = job' -> keep p = true)) as [Hp' Hk].
      { destruct (String.eqb_spec job job') as [<-|Hne]; [|by split].
        apply list_elem_of_In, filter_In in Hp as [Hp ?]. by apply list_elem_of_In in Hp. }
      split; [by exists job', e|]. intros q e' Hq He' Hid'.
      apply list_elem_of_In, filter_In in Hq as [Hq Hkq]. apply list_elem_of_In in Hq.
      pose proof (execs_byID _ _ _ Hq He') as H1. pose proof (execs_byID _ _ _ Hp' He) as H2.
      rewrite Hid' in H1. rewrite Hid in H2. simplify_eq.
      rewrite (Hk (execs_job _ _ _ Hq Hp')) in Hkq. done.
Qed.

Lemma agrees_add h' p e st :
  let job := je_JobName e in
  let s' := mkMemoryHistoryStore (<[p := e]> (objects s)) (<[job := (execs s job ++ [p])%list]> (executions s))
      (<[je_ID e := p]> (byID s)) st (maxPerJob s) in
  event_ok s (HStart p e) ->
  (forall job', h' job' = if String.eqb job job' then (h job ++ [e])%list else h job') ->
  agrees s' h'.
Proof.
  intros job s' [Hp Hid] Hh'. unfold s'. split.
  - intros job'. unfold s'. rewrite Hh', execs_insert.
    assert (forall job', Forall2 (points s' job') (execs s job') (h job')) as Hold.
    { intros j. eapply Forall2_impl_elem; [apply (agr_points _ _ HR)|].
      intros q x Hq _ [Hx Hj]. split; [|done]. cbn [s' objects].
      rewrite lookup_insert_ne; [done|]. intros <-. by apply (Hp j). }
    destruct (String.eqb_spec job job') as [<-|_]; [|apply Hold].
    apply Forall2_app; [apply Hold|]. constructor; [|done]. split; [|done]. apply lookup_insert_eq.
  - intros job'. unfold s'. rewrite execs_insert. destruct (String.eqb_spec job job') as [<-|_]; [|apply (agr_nodup _ _ HR)].
    apply list.NoDup_app. split; [apply (agr_nodup _ _ HR)|]. split; [|apply NoDup_singleton].
    intros q Hq ->%list_elem_of_singleton. by apply (Hp job).
  - intros id q. fold s'. change (byID s') with (<[je_ID e:=p]> (byID s)). change (objects s') with (<[p:=e]> (objects s)).
    assert (forall job', q ∈ execs s' job' <-> (q = p /\ job' = job) \/ q ∈ execs s job') as Hin.
    { intros job'. unfold s'. rewrite execs_insert. destruct (String.eqb_spec job job') as [<-|Hne].
      - rewrite elem_of_app, list_elem_of_singleton. naive_solver.
      - naive_solver. }
    rewrite lookup_insert_Some, (agr_ids _ _ HR). split.
    + intros [[<- <-]|(Hne & job' & x & Hq & Hx & Hid')].
      * exists job, e. rewrite Hin, lookup_insert_eq. auto.
      * exists job', x. rewrite Hin, lookup_insert_ne; [auto|]. intros <-. by apply (Hp job').
    + intros (job' & x & Hq & Hx & Hid'). apply Hin in Hq as [[-> ->]|Hq].
      * rewrite lookup_insert_eq in Hx. simplify_eq. by left.
      * rewrite lookup_insert_ne in Hx by (intros <-; by apply (Hp job')). right. split; [|eauto].
        intros He. pose proof (execs_byID _ _ _ Hq Hx) as H1. congruence.
Qed.
End agrees.

Lemma lastn_all {A : Type} n (l : list A) : (length l <= n)%nat -> lastn n l = l.
Proof. intros H. unfold lastn. by replace (length l - n)%nat with 0%nat by lia. Qed.

Lemma lastn_tail {A : Type} x (l : list A) : lastn (length l) (x :: l) = l.
Proof. unfold lastn. cbn [length]. by replace (S (length l) - length l)%nat with 1%nat by lia. Qed.

(** The list after the trim of [RecordStart]. *)
Lemma filter_other old (l : list positive) :
  NoDup (old :: l) ->
  List.filter (fun p => negb (Pos.eqb p old)) (old :: l) = l /\
  List.filter (fun p => negb (negb (Pos.eqb p old))) (old :: l) = [old].
Proof.
  intros [Hold Hl]%list.NoDup_cons. cbn. rewrite Pos.eqb_refl. cbn.
  assert (forall p, p ∈ l -> Pos.eqb p old = false) as Hne.
  { intros p Hp. apply Pos.eqb_neq. by intros ->. }
  clear Hl Hold. split; [|f_equal]; induction l as [|p l IH]; [done| |done|];
    cbn; rewrite (Hne p) by left; cbn; rewrite IH; try done; intros q Hq; apply Hne; by right.
Qed.

(** The statistics and the limit are no part of the history. *)
Lemma agrees_ext s s' h h' :
  objects s' = objects s -> executions s' = executions s -> byID s' = byID s ->
  (forall job, h' job = h job) -> agrees s h -> agrees s' h'.
Proof.
  destruct s, s'. cbn. intros -> -> -> Hh [H1 H2 H3]. split; [|exact H2|exact H3].
  intros job. rewrite Hh. apply H1.
Qed.

Lemma agrees_length s h job : agrees s h -> length (h job) = length (execs s job).
Proof. intros Ha. symmetry. eapply Forall2_length, (agr_points _ _ Ha). Qed.

(** Dropping the first execution of a job. *)
Lemma agrees_trim s h h' job old rest st :
  agrees s h -> execs s job = old :: rest ->
  (forall job', h' job' = if String.eqb job job' then tail (h job) else h job') ->
  agrees (mkMemoryHistoryStore (objects s) (<[job := rest]> (executions s))
    (forget (objects s) (byID s) old) st (maxPerJob s)) h'.
Proof.
  intros Ha He Hh'.
  pose proof (agr_nodup _ _ Ha job) as Hnd. rewrite He in Hnd.
  destruct (filter_other old rest Hnd) as [Hk Hr].
  pose proof (agrees_remove Ha h' job (fun q => negb (Pos.eqb q old)) (tail (h job)) st) as Hrm.
  rewrite He, Hk, Hr in Hrm. apply Hrm; [|done].
  pose proof (agr_points _ _ Ha job) as Hp. rewrite He in Hp. by inversion Hp.
Qed.

Lemma start_refines m s h p e :
  (0 < m)%nat -> refines m s h -> event_ok s (HStart p e) ->
  refines m (hist_step s (HStart p e)) (spec_step m h (HStart p e)).
Proof.
  intros Hm (Ha & Hmax & Hlen) Hok. set (job := je_JobName e).
  set (h1 := fun job' => if String.eqb job job' then (h job ++ [e])%list else h job').
  pose proof (agrees_add Ha h1 p e (stats s) Hok (fun _ => eq_refl)) as Hadd.
  fold job in Hadd. set (s1 := mkMemoryHistoryStore _ _ _ _ _) in Hadd.
  pose proof (agrees_length _ _ job Ha) as Hl. specialize (Hlen job) as Hj.
  assert (execs s1 job = (execs s job ++ [p])%list) as He1
    by (unfold s1; by rewrite execs_insert, String.eqb_refl).
  cbn [hist_step]. unfold MHS_RecordStart. rewrite Hmax. fold job (execs s job). rewrite <- He1.
  destruct (Z.of_nat m <? Z.of_nat (length (execs s1 job))) eqn:Ht.
  - destruct (execs s1 job) as [|old rest] eqn:He; [by destruct (execs s job)|].
    assert (length (old :: rest) = S (length (execs s job))) as Hr
      by (rewrite He1, length_app; cbn; lia). cbn in Hr, Ht.
    split; [|split; [done|]].
    + eapply agrees_ext; [..|eapply (agrees_trim s1 h1 (spec_step m h (HStart p e)) job old rest (stats s) Hadd He)];
        cbn [fst set_stats objects executions byID s1]; try done.
      * by rewrite insert_insert_eq.
      * intros job'. cbn [spec_step]. fold job. unfold h1. rewrite String.eqb_refl.
        destruct (String.eqb_spec job job') as [<-|]; [|done]. unfold lastn. rewrite length_app. cbn [length].
        by replace (length (h job) + 1 - m)%nat with 1%nat by lia.
    + intros job'. unfold execs at 1. cbn [fst set_stats executions].
      destruct (String.eqb_spec job job') as [<-|].
      * rewrite lookup_insert_eq. cbn. lia.
      * rewrite lookup_insert_ne by done. apply Hlen.
  - rewrite He1, length_app in Ht. cbn in Ht. split; [|split; [done|]].
    + eapply agrees_ext; [..|exact Hadd]; cbn [fst set_stats objects executions byID s1]; try done.
      * by rewrite He1.
      * intros job'. cbn [spec_step]. fold job. unfold h1.
        destruct (String.eqb_spec job job') as [<-|]; [|done]. rewrite lastn_all; [done|].
        rewrite length_app. cbn. lia.
    + intros job'. unfold execs at 1. cbn [fst set_stats executions].
      destruct (String.eqb_spec job job') as [<-|].
      * rewrite lookup_insert_eq, He1. cbn [default from_option id]. rewrite length_app. cbn. lia.
      * rewrite lookup_insert_ne by done. apply Hlen.
Qed.

Lemma complete_refines m s h e :
  refines m s h -> refines m (hist_step s (HComplete e)) (spec_step m h (HComplete e)).
Proof.
  intros (Ha & Hmax & Hlen). cbn [hist_step]. unfold MHS_RecordComplete.
  set (objs := match byID s !! je_ID e with Some p => _ | None => _ end).
  assert (forall job p x, p ∈ execs s job -> objects s !! p = Some x ->
    objs !! p = Some (if String.eqb (je_ID x) (je_ID e) then complete x e else x)) as Hobj.
  { intros job p x Hp Hx. pose proof (execs_byID Ha _ _ _ Hp Hx) as Hid. unfold objs.
    destruct (String.eqb_spec (je_ID x) (je_ID e)) as [He|He].
    - rewrite <- He, Hid, lookup_alter_eq, Hx. done.
    - destruct (byID s !! je_ID e) as [q|] eqn:Hq; [|done].
      rewrite lookup_alter_ne; [done|]. intros ->. apply (agr_ids _ _ Ha) in Hq as (j & y & _ & Hy & Hye).
      congruence. }
  split; [|split; [done|exact Hlen]]. split; [|exact (agr_nodup _ _ Ha)|].
  - intros job. cbn [spec_step]. rewrite <- (map_id (execs _ job)). apply Forall2_fmap.
    eapply Forall2_impl_elem; [apply (agr_points _ _ Ha)|]. intros p x Hp _ [Hx Hj].
    split; [eapply Hobj; eauto|]. by destruct (String.eqb _ _).
  - intros id p. cbn [fst set_stats byID objects]. rewrite (agr_ids _ _ Ha). split.
    + intros (job & x & Hp & Hx & Hid). exists job. eexists. split; [exact Hp|]. split; [eapply Hobj; eauto|].
      by destruct (String.eqb _ _).
    + intros (job & x & Hp & Hx & Hid). destruct (execs_points Ha job p Hp) as (y & [Hy _] & _).
      exists job, y. split; [done|]. split; [done|]. pose proof (Hobj _ _ _ Hp Hy) as Hxy.
      rewrite Hx in Hxy. simplify_eq. by destruct (String.eqb _ _).
Qed.

(** One job of the loop of [Cleanup]. *)
Lemma cleanup_job_agrees cutoff s h job :
  agrees s h ->
  agrees (cleanup_job cutoff s job)
    (fun job' => if String.eqb job job' then List.filter (fun x => cutoff <? je_StartedAt x) (h job) else h job').
Proof.
  intros Ha. unfold cleanup_job. fold (execs s job).
  eapply (agrees_remove Ha); [|done]. pose proof (agr_points _ _ Ha job) as Hp.
  induction Hp as [|p x l k Hpx Hp IH]; [done|]. cbn. unfold kept at 1. destruct Hpx as [Hx Hj].
  rewrite Hx. unfold time_After. destruct (cutoff <? je_StartedAt x); [|done]. by constructor.
Qed.

Lemma cleanup_agrees cutoff s h order :
  agrees s h ->
  agrees (foldl (cleanup_job cutoff) s order)
    (fun job => if decide (job ∈ order) then List.filter (fun x => cutoff <? je_StartedAt x) (h job) else h job).
Proof.
  revert s h. induction order as [|job order IH]; intros s h Ha; cbn [foldl].
  - eapply agrees_ext; [..|exact Ha]; done.
  - eapply agrees_ext; [..|apply IH, cleanup_job_agrees, Ha]; try done. intros job'. cbn beta.
    destruct (String.eqb_spec job job') as [<-|Hne].
    + rewrite (decide_True (P := job ∈ job :: order)) by left. case_decide; [|done].
      by rewrite filter_filter_idem.
    + destruct (decide (job' ∈ order)) as [Hin|Hin].
      * by rewrite decide_True by (by right).
      * rewrite decide_False; [done|]. intros [->|?]%elem_of_cons; done.
Qed.

Lemma filter_length_le' {A : Type} (f : A -> bool) l : (length (List.filter f l) <= length l)%nat.
Proof. induction l as [|x l IH]; [done|]. cbn. destruct (f x); cbn; lia. Qed.

Lemma cleanup_refines m s h now maxAge order :
  refines m s h -> event_ok s (HCleanup now maxAge order) ->
  refines m (hist_step s (HCleanup now maxAge order)) (spec_step m h (HCleanup now maxAge order)).
Proof.
  intros (Ha & Hmax & Hlen) Hok. cbn [hist_step]. unfold MHS_Cleanup, time_Add.
  pose proof (cleanup_agrees (now + - maxAge) s h order Ha) as Hc.
  assert (agrees (foldl (cleanup_job (now + - maxAge)) s order) (spec_step m h (HCleanup now maxAge order))) as Hs.
  { eapply agrees_ext; [..|exact Hc]; try done. intros job. cbn [spec_step]. case_decide as Hin; [done|].
    destruct (h job) as [|x l] eqn:Hj; [done|]. exfalso. apply Hin, (Hok job). intros He.
    pose proof (agrees_length s h job Ha) as Hl. rewrite He, Hj in Hl. done. }
  split; [exact Hs|]. clear Hc. split.
  - clear Hs Hok Ha Hlen. revert s Hmax. induction order as [|job order IH]; intros s Hmax; [done|].
    cbn [foldl]. by apply IH.
  - intros job. rewrite <- (agrees_length _ _ job Hs). cbn [spec_step].
    pose proof (agrees_length s h job Ha) as Hl. specialize (Hlen job).
    pose proof (filter_length_le' (fun x => now - maxAge <? je_StartedAt x) (h job)). lia.
Qed.

Lemma run_refines m s h evs :
  (0 < m)%nat -> refines m s h -> events_ok s evs ->
  refines m (foldl hist_step s evs) (foldl (spec_step m) h evs).
Proof.
  intros Hm. revert s h. induction evs as [|ev evs IH]; intros s h Hr Hok; [done|].
  destruct Hok as [Hev Hok]. cbn [foldl]. apply IH; [|done].
  destruct ev; [by apply start_refines|by apply complete_refines|by apply cleanup_refines].
Qed.

Lemma new_refines n :
  refines (Z.to_nat (if n <=? 0 then 100 else n)) (NewMemoryHistoryStore n) (fun _ => []).
Proof.
  split; [|split].
  - split.
    + intros job. unfold execs. cbn. rewrite lookup_empty. constructor.
    + intros job. unfold execs. cbn. rewrite lookup_empty. constructor.
    + intros id p. cbn. rewrite lookup_empty. split; [done|]. intros (job & e & Hp & _).
      unfold execs in Hp. cbn in Hp. rewrite lookup_empty in Hp. by apply elem_of_nil in Hp.
  - cbn. destruct (n <=? 0) eqn:?; lia.
  - intros job. unfold execs. cbn. rewrite lookup_empty. cbn. lia.
Qed.

Lemma points_omap s job l k : Forall2 (points s job) l k -> omap (fun p => objects s !! p) l = k.
Proof. induction 1 as [|p e l k [Hp _] H IH]; [done|]. cbn. rewrite Hp. by f_equal. Qed.

Lemma omap_take_rev {A B : Type} (f : A -> option B) l k n :
  Forall2 (fun x y => f x = Some y) l k -> omap f (take n (rev l)) = take n (rev k).
Proof.
  intros H. assert (Forall2 (fun x y => f x = Some y) (take n (rev l)) (take n (rev k))) as Hr.
  { by apply Forall2_take, Forall2_rev. }
  induction Hr as [|x y l' k' Hxy _ IH]; [done|]. cbn. rewrite Hxy. by f_equal.
Qed.

(** ** Statistics *)

Definition stats_event (job : string) (st : JobStats) (ev : hist_event) : JobStats :=
  match ev with
  | HStart _ e => if String.eqb (je_JobName e) job then count_start st (je_StartedAt e) else st
  | HComplete e => if String.eqb (je_JobName e) job then count_complete st e else st
  | HCleanup _ _ _ => st
  end.

Lemma set_stats_lookup s name st job :
  getOrCreateStats (set_stats s name st) job =
  if String.eqb name job then st else getOrCreateStats s job.
Proof.
  unfold getOrCreateStats, set_stats. cbn [stats]. destruct (String.eqb_spec name job) as [<-|].
  - by rewrite lookup_insert_eq.
  - by rewrite lookup_insert_ne.
Qed.

Lemma stats_step s ev job :
  getOrCreateStats (hist_step s ev) job = stats_event job (getOrCreateStats s job) ev.
Proof.
  destruct ev as [p e|e|now age order]; cbn [hist_step stats_event].
  - unfold MHS_RecordStart. destruct (if maxPerJob s <? _ then _ else _) as [ids l]. cbn [fst].
    rewrite set_stats_lookup. by destruct (String.eqb_spec (je_JobName e) job) as [<-|].
  - unfold MHS_RecordComplete. cbn [fst]. rewrite set_stats_lookup.
    by destruct (String.eqb_spec (je_JobName e) job) as [<-|].
  - unfold MHS_Cleanup. revert s. induction order as [|j order IH]; intros s; [done|]. cbn [foldl].
    by rewrite IH.
Qed.

Lemma stats_run s evs job :
  getOrCreateStats (foldl hist_step s evs) job = foldl (stats_event job) (getOrCreateStats s job) evs.
Proof. revert s. induction evs as [|ev evs IH]; intros s; [done|]. cbn [foldl]. by rewrite IH, stats_step. Qed.

Definition valid_duration (d : Duration) : Prop := 0 < d <= max_int64.

(** What the three duration fields say of the durations recorded, in order. *)
Definition durations_spec (ds : list Duration) (mn mx avg : Duration) : Prop :=
  match ds with
  | [] => mn = 0 /\ mx = 0 /\ avg = 0
  | _ =>
      (mn ∈ ds /\ Forall (fun d => mn <= d) ds) /\
      (mx ∈ ds /\ Forall (fun d => d <= mx) ds) /\
      mn <= avg <= mx /\
      (let n := Z.of_nat (length ds) in 2 * Z.abs (n * avg - sum_Z ds) <= n * (n - 1))
  end.

Lemma sum_Z_app l k : sum_Z (l ++ k) = sum_Z l + sum_Z k.
Proof. induction l as [|x l IH]; cbn; [done|]. unfold sum_Z in *. lia. Qed.

(** A step of the running average. *)
Lemma average_step n avg sum d :
  0 <= n -> 2 * Z.abs (n * avg - sum) <= n * (n - 1) ->
  let avg' := avg + Z.quot (d - avg) (n + 1) in
  Z.min avg d <= avg' <= Z.max avg d /\
  2 * Z.abs ((n + 1) * avg' - (sum + d)) <= (n + 1) * n.
Proof.
  intros Hn Herr avg'. unfold avg'.
  pose proof (Z.quot_rem' (d - avg) (n + 1)) as Hq.
  set (q := Z.quot (d - avg) (n + 1)) in *. set (r := Z.rem (d - avg) (n + 1)) in *.
  assert ((0 <= d - avg -> 0 <= r <= n /\ 0 <= q) /\ (d - avg <= 0 -> - n <= r <= 0 /\ q <= 0)) as [Hpos Hneg].
  { split; intros H.
    - pose proof (Z.rem_bound_pos (d - avg) (n + 1)). pose proof (Z.quot_pos (d - avg) (n + 1)). lia.
    - pose proof (Z.rem_bound_pos_neg (d - avg) (n + 1) ltac:(lia) ltac:(lia)).
      pose proof (Z.quot_pos (- (d - avg)) (n + 1) ltac:(lia) ltac:(lia)) as Hqo.
      rewrite Z.quot_opp_l in Hqo by lia. lia. }
  assert ((n + 1) * (avg + q) - (sum + d) = n * avg - sum - r) as He by lia. rewrite He.
  destruct (Z.le_ge_cases 0 (d - avg)) as [H|H].
  - destruct (Hpos H). split; [nia|]. lia.
  - destruct (Hneg H). split; [nia|]. lia.
Qed.

Lemma durations_step ds mn mx avg d :
  Forall valid_duration ds -> valid_duration d -> durations_spec ds mn mx avg ->
  durations_spec (ds ++ [d])
    (if (mn =? 0) || (d <? mn) then d else mn) (if mx <? d then d else mx)
    (avg + Z.quot (d - avg) (Z.of_nat (length ds) + 1)).
Proof.
  intros Hds Hd Hs. destruct ds as [|x l].
  { destruct Hs as (-> & -> & ->). unfold valid_duration in Hd. cbn. rewrite Z.sub_0_r, Z.quot_1_r.
    replace (0 <? d) with true by lia.
    split; [split; [left|constructor; [lia|constructor]]|].
    split; [split; [left|constructor; [lia|constructor]]|]. lia. }
  cbn [durations_spec] in Hs. set (ds := x :: l) in *.
  destruct Hs as ([Hmn Hmns] & [Hmx Hmxs] & Hb & Herr). cbn zeta in Herr.
  assert (durations_spec (ds ++ [d]) = fun mn mx avg =>
      (mn ∈ (ds ++ [d])%list /\ Forall (fun d => mn <= d) (ds ++ [d])) /\
      (mx ∈ (ds ++ [d])%list /\ Forall (fun d => d <= mx) (ds ++ [d])) /\
      mn <= avg <= mx /\
      (let n := Z.of_nat (length (ds ++ [d])) in 2 * Z.abs (n * avg - sum_Z (ds ++ [d])) <= n * (n - 1))) as ->
    by done.
  pose proof (average_step (Z.of_nat (length ds)) avg (sum_Z ds) d ltac:(lia) Herr) as [Hbet Herr'].
  assert (0 < mn) as Hpos by (rewrite list.Forall_forall in Hds; apply Hds in Hmn; unfold valid_duration in Hmn; lia).
  rewrite !list.Forall_app, !list.Forall_singleton, !elem_of_app, !list_elem_of_singleton, length_app, sum_Z_app.
  cbn [length sum_Z foldr]. rewrite Z.add_0_r.
  assert (mn <= mx) by lia. rewrite list.Forall_forall in Hmns, Hmxs. rewrite !list.Forall_forall.
  destruct ((mn =? 0) || (d <? mn)) eqn:H1, (mx <? d) eqn:H2;
    (split; [split; [tauto|]; split; [intros y Hy; pose proof (Hmns y Hy); lia|lia]|]);
    (split; [split; [tauto|]; split; [intros y Hy; pose proof (Hmxs y Hy); lia|lia]|]);
    (split; [lia|]);
    replace (Z.of_nat (length ds + 1)) with (Z.of_nat (length ds) + 1) by lia;
    replace (Z.of_nat (length ds) + 1 - 1) with (Z.of_nat (length ds)) by lia; exact Herr'.
Qed.

Definition durations (job : string) (evs : list hist_event) : list Duration :=
  map je_Duration (List.filter finished (completed_of job evs)).

(** The statistics of a job, from its events. *)
Definition stats_spec (job : string) (evs : list hist_event) (st : JobStats) : Prop :=
  let done_ := completed_of job evs in
  js_JobName st = job /\
  TotalExecutions st = Z.of_nat (length (started_of job evs)) /\
  SuccessfulExecutions st = Z.of_nat (length (with_status JobStatusCompleted done_)) /\
  FailedExecutions st = Z.of_nat (length (with_status JobStatusFailed done_)) /\
  SkippedExecutions st = Z.of_nat (length (with_status JobStatusSkipped done_)) /\
  LastExecution st = je_StartedAt <$> list.last (started_of job evs) /\
  LastSuccess st = list.last (with_status JobStatusCompleted done_) ≫= je_CompletedAt /\
  LastFailure st = list.last (with_status JobStatusFailed done_) ≫= je_CompletedAt /\
  durations_spec (durations job evs) (MinDuration st) (MaxDuration st) (AverageDuration st).

Lemma finished_length l :
  length (List.filter finished l) =
  (length (with_status JobStatusCompleted l) + length (with_status JobStatusFailed l))%nat.
Proof.
  unfold with_status. induction l as [|e l IH]; [done|]. cbn [List.filter].
  destruct (finished e) eqn:Hf; unfold finished in Hf; repeat case_bool_decide; cbn [length]; try done;
    first [lia | congruence].
Qed.

Lemma omap_length {A B : Type} (f : A -> option B) l : (length (omap f l) <= length l)%nat.
Proof. induction l as [|x l IH]; [done|]. cbn. destruct (f x); cbn; unfold omap in *; lia. Qed.

Lemma with_status_app st l k : with_status st (l ++ k) = (with_status st l ++ with_status st k)%list.
Proof. apply List.filter_app. Qed.

Lemma with_status_one st e :
  with_status st [e] = if bool_decide (je_Status e = st) then [e] else [].
Proof. done. Qed.

Lemma with_status_length st l : (length (with_status st l) <= length l)%nat.
Proof. apply filter_length_le'. Qed.

Lemma valid_in_int64 d : valid_duration d -> in_int64 d = true.
Proof. unfold valid_duration, in_int64, min_int64, max_int64. lia. Qed.

(** With durations in range the running average does not wrap. *)
Lemma average_exact ds mn mx avg d :
  Forall valid_duration ds -> valid_duration d -> durations_spec ds mn mx avg ->
  Z.of_nat (length ds) < max_int64 ->
  int_add avg (Z.quot (int_sub d avg) (Z.of_nat (length ds) + 1)) =
  avg + Z.quot (d - avg) (Z.of_nat (length ds) + 1).
Proof.
  intros Hds Hd Hs Hn.
  assert (0 <= avg <= max_int64) as Hav.
  { destruct ds as [|x l]; [destruct Hs as (_ & _ & ->); unfold max_int64; lia|].
    destruct Hs as ([Hmn _] & [Hmx _] & Hb & _). rewrite list.Forall_forall in Hds.
    apply Hds in Hmn. apply Hds in Hmx. unfold valid_duration in *. lia. }
  assert (int_sub d avg = d - avg) as Hsub.
  { unfold int_sub. apply wrap64_id. unfold valid_duration, in_int64, min_int64, max_int64 in *. lia. }
  rewrite Hsub. unfold int_add. apply wrap64_id.
  assert (Z.min avg d <= avg + Z.quot (d - avg) (Z.of_nat (length ds) + 1) <= Z.max avg d) as Hb.
  { destruct ds as [|x l].
    - cbn. rewrite Z.quot_1_r. lia.
    - destruct Hs as (_ & _ & _ & Herr). cbn zeta in Herr.
      by apply (average_step (Z.of_nat (length (x :: l))) avg (sum_Z (x :: l)) d ltac:(lia)). }
  unfold valid_duration, in_int64, min_int64, max_int64 in *. lia.
Qed.

Lemma int_succ n N : 0 <= n -> n <= N -> N < max_int64 -> int_add n 1 = n + 1.
Proof. intros ???. unfold int_add. apply wrap64_id. unfold in_int64, min_int64, max_int64 in *. lia. Qed.

Lemma update_durations ds st d :
  Forall valid_duration ds -> valid_duration d -> Z.of_nat (length ds) < max_int64 ->
  SuccessfulExecutions st + FailedExecutions st = Z.of_nat (length ds) + 1 ->
  durations_spec ds (MinDuration st) (MaxDuration st) (AverageDuration st) ->
  let st' := updateDurationStats st d in
  durations_spec (ds ++ [d]) (MinDuration st') (MaxDuration st') (AverageDuration st').
Proof.
  intros Hds Hd Hn Hsum Hs. cbn [updateDurationStats MinDuration MaxDuration AverageDuration].
  assert (int_add (SuccessfulExecutions st) (FailedExecutions st) = Z.of_nat (length ds) + 1) as ->.
  { unfold int_add. rewrite Hsum. apply wrap64_id. unfold in_int64, min_int64, max_int64 in *. lia. }
  replace (0 <? Z.of_nat (length ds) + 1) with true by lia.
  rewrite (average_exact ds _ _ _ d Hds Hd Hs Hn). by apply durations_step.
Qed.

Lemma completed_of_app job evs ev :
  completed_of job (evs ++ [ev]) = (completed_of job evs ++ completed_of job [ev])%list.
Proof. apply omap_app. Qed.

Lemma started_of_app job evs ev :
  started_of job (evs ++ [ev]) = (started_of job evs ++ started_of job [ev])%list.
Proof. apply omap_app. Qed.

Lemma durations_app job evs ev :
  durations job (evs ++ [ev]) = (durations job evs ++ durations job [ev])%list.
Proof. unfold durations. by rewrite completed_of_app, List.filter_app, map_app. Qed.

Lemma completed_of_length job evs : (length (completed_of job evs) <= length evs)%nat.
Proof. apply omap_length. Qed.

Lemma stats_start job evs st p e :
  Z.of_nat (length evs) < max_int64 -> stats_spec job evs st ->
  stats_spec job (evs ++ [HStart p e]) (stats_event job st (HStart p e)).
Proof.
  intros Hn (Hj & Ht & Hs & Hf & Hk & Hle & Hls & Hlf & Hd). unfold stats_spec.
  rewrite completed_of_app, started_of_app, durations_app.
  cbn [durations completed_of omap list_omap map List.filter]. rewrite !app_nil_r.
  cbn [stats_event started_of omap list_omap]. destruct (String.eqb_spec (je_JobName e) job) as [<-|].
  - pose proof (omap_length (fun ev => match ev with
      | HStart _ e0 => if String.eqb (je_JobName e0) (je_JobName e) then Some e0 else None
      | _ => None end) evs) as Hl.
    fold (started_of (je_JobName e) evs) in Hl. unfold count_start. cbn.
    rewrite length_app, list.last_snoc, Ht. cbn [length].
    rewrite (int_succ _ (Z.of_nat (length evs))) by lia. repeat split; try done. lia.
  - by rewrite app_nil_r.
Qed.

(** Evaluates the tests on concrete statuses. *)
Ltac eval_decide :=
  repeat match goal with
  | |- context [bool_decide (?a = ?b :> JobStatus)] =>
      let r := eval vm_compute in (bool_decide (a = b)) in change (bool_decide (a = b)) with r
  | H : context [bool_decide (?a = ?b :> JobStatus)] |- _ =>
      let r := eval vm_compute in (bool_decide (a = b)) in change (bool_decide (a = b)) with r in H
  end.

Lemma stats_complete job evs st e :
  Z.of_nat (length evs) < max_int64 -> Forall valid_duration (durations job (evs ++ [HComplete e])) ->
  stats_spec job evs st ->
  stats_spec job (evs ++ [HComplete e]) (stats_event job st (HComplete e)).
Proof.
  intros Hn Hv (Hj & Ht & Hs & Hf & Hk & Hle & Hls & Hlf & Hd). unfold stats_spec.
  rewrite durations_app in Hv. apply list.Forall_app in Hv as [Hv1 Hv2].
  rewrite started_of_app, durations_app, completed_of_app, !with_status_app.
  cbn [started_of omap list_omap]. rewrite app_nil_r.
  unfold durations at 2. unfold durations in Hv2. cbn [stats_event completed_of omap list_omap] in *.
  destruct (String.eqb_spec (je_JobName e) job) as [<-|]; [|by rewrite !app_nil_r].
  set (job := je_JobName e) in *.
  pose proof (completed_of_length job evs) as Hl.
  pose proof (finished_length (completed_of job evs)) as Hfin.
  pose proof (filter_length_le' finished (completed_of job evs)).
  pose proof (with_status_length JobStatusSkipped (completed_of job evs)).
  assert (length (durations job evs) = length (List.filter finished (completed_of job evs))) as Hdl
    by apply length_map.
  rewrite !with_status_one. unfold count_complete. cbn [List.filter] in Hv2 |- *. unfold finished in Hv2 |- *.
  destruct (je_Status e) eqn:Hst; rewrite ?Hst in *; eval_decide; cbn [orb map] in *;
    rewrite ?app_nil_r, ?list.last_snoc, ?length_app; cbn [length mbind option_bind];
    try done;
    cbn [updateDurationStats js_JobName TotalExecutions SuccessfulExecutions FailedExecutions
         SkippedExecutions LastExecution LastSuccess LastFailure];
    rewrite ?Hs, ?Hf, ?Hk, ?(int_succ _ (Z.of_nat (length evs))) by lia;
    repeat match goal with |- _ /\ _ => split end; try done; try lia;
    apply update_durations; cbn [SuccessfulExecutions FailedExecutions]; try done; try lia;
    rewrite ?Hs, ?Hf; try rewrite (int_succ _ (Z.of_nat (length evs))); first [lia | by inversion Hv2].
Qed.

Lemma stats_run_spec job evs st0 :
  Z.of_nat (length evs) <= max_int64 -> Forall valid_duration (durations job evs) ->
  st0 = new_stats job -> stats_spec job evs (foldl (stats_event job) st0 evs).
Proof.
  intros Hn Hv ->. induction evs as [|ev evs IH] using rev_ind; [done|].
  rewrite length_app in Hn. cbn in Hn. rewrite foldl_app. cbn [foldl].
  pose proof Hv as Hv'. rewrite durations_app in Hv'. apply list.Forall_app in Hv' as [Hv1 _].
  specialize (IH ltac:(lia) Hv1).
  destruct ev as [p e|e|now age order].
  - apply stats_start; [lia|done].
  - apply stats_complete; [lia|done|done].
  - unfold stats_spec. rewrite durations_app, completed_of_app, started_of_app.
    cbn [durations completed_of started_of omap list_omap map List.filter]. rewrite !app_nil_r. exact IH.
Qed.

(** The last success and the last failure, without conditions on the durations. *)
Lemma last_times job evs st :
  LastSuccess st = None -> LastFailure st = None ->
  let st' := foldl (stats_event job) st evs in
  LastSuccess st' = list.last (with_status JobStatusCompleted (completed_of job evs)) ≫= je_CompletedAt /\
  LastFailure st' = list.last (with_status JobStatusFailed (completed_of job evs)) ≫= je_CompletedAt.
Proof.
  intros Hs Hf. induction evs as [|ev evs [IHs IHf]] using rev_ind; [done|].
  rewrite foldl_app, completed_of_app, !with_status_app. cbn [foldl].
  destruct ev as [p e|e|now age order]; cbn [stats_event completed_of omap list_omap];
    [|destruct (String.eqb_spec (je_JobName e) job)|]; try rewrite !app_nil_r; [by destruct (String.eqb _ _)| | |]; try done.
  rewrite !with_status_one. unfold count_complete.
  destruct (je_Status e) eqn:Hst; eval_decide; rewrite ?app_nil_r, ?list.last_snoc; cbn; done.
Qed.

Lemma with_status_finished st l :
  st = JobStatusCompleted \/ st = JobStatusFailed -> with_status st (List.filter finished l) = with_status st l.
Proof.
  intros Hst. induction l as [|e l IH]; [done|]. cbn [List.filter with_status]. unfold with_status in *.
  destruct (finished e) eqn:Hf; cbn [List.filter]; rewrite IH; [done|].
  unfold finished in Hf. repeat case_bool_decide; try done; destruct Hst; congruence.
Qed.

Definition before (a b : JobExecution) : Prop :=
  match je_CompletedAt a, je_CompletedAt b with
  | Some x, Some y => x < y
  | _, _ => False
  end.

Lemma healthy_last st l e :
  je_CompletedAt e <> None -> Forall (fun a => before a e) l -> finished e = true ->
  LastSuccess st = list.last (with_status JobStatusCompleted (l ++ [e])) ≫= je_CompletedAt ->
  LastFailure st = list.last (with_status JobStatusFailed (l ++ [e])) ≫= je_CompletedAt ->
  healthy st = bool_decide (je_Status e = JobStatusCompleted).
Proof.
  intros He Hl Hf. rewrite !with_status_app, !with_status_one. unfold healthy. intros -> ->.
  assert (forall s x, list.last (with_status s l) = Some x -> before x e) as Hb.
  { intros s x Hx. rewrite list.Forall_forall in Hl. apply Hl, list_elem_of_In.
    apply last_Some_elem_of, list_elem_of_In, filter_In in Hx. tauto. }
  unfold finished in Hf. destruct (je_Status e) eqn:Hst; try done; eval_decide;
    rewrite ?app_nil_r, ?list.last_snoc; cbn [mbind option_bind].
  - destruct (je_CompletedAt e) as [t|] eqn:Ht; [|done].
    destruct (list.last (with_status JobStatusFailed l)) as [x|] eqn:Hx; [|done]. cbn.
    apply Hb in Hx. unfold before in Hx. rewrite Ht in Hx.
    destruct (je_CompletedAt x); [|done]. unfold time_After. lia.
  - destruct (je_CompletedAt e) as [t|] eqn:Ht; [|done].
    destruct (list.last (with_status JobStatusCompleted l)) as [x|] eqn:Hx; [|done]. cbn.
    apply Hb in Hx. unfold before in Hx. rewrite Ht in Hx.
    destruct (je_CompletedAt x); [|done]. unfold time_After. lia.
Qed.

(** ** Theorems *)

(** The store in memory keeps, of every job, its latest [maxPerJob] executions:
    after any events, with fresh addresses and IDs, [GetExecutions] gives the
    last ones first and [GetExecution] finds exactly those; completing an
    execution shows in both. *)
Theorem MemoryHistory_refines n evs :
  events_ok (NewMemoryHistoryStore n) evs ->
  let s := foldl hist_step (NewMemoryHistoryStore n) evs in
  let h := foldl (spec_step (Z.to_nat (if n <=? 0 then 100 else n))) (fun _ => []) evs in
  (forall job limit, 0 <= limit ->
     exists l, MHS_GetExecutions s job limit = Some l /\
       omap (fun p => objects s !! p) l = take (Z.to_nat limit) (rev (h job))) /\
  (forall id e, (MHS_GetExecution s id ≫= fun p => objects s !! p) = Some e <->
     exists job, e ∈ h job /\ je_ID e = id).
Proof.
  intros Hok s h.
  assert (refines (Z.to_nat (if n <=? 0 then 100 else n)) s h) as (Ha & Hmax & Hlen).
  { apply run_refines; [destruct (n <=? 0) eqn:?; lia|apply new_refines|done]. }
  split.
  - intros job limit Hlim. unfold MHS_GetExecutions. fold (execs s job).
    pose proof (agr_points _ _ Ha job) as Hp. destruct (execs s job) as [|p l] eqn:He.
    + exists []. split; [done|]. apply Forall2_nil_inv_l in Hp. rewrite Hp. cbn. by rewrite take_nil.
    + rewrite (proj2 (Z.ltb_ge limit 0) Hlim). eexists. split; [done|]. apply omap_take_rev.
      eapply Forall2_impl_elem; [exact Hp|]. by intros q x _ _ [Hq _].
  - intros id e. unfold MHS_GetExecution. split.
    + intros H. destruct (byID s !! id) as [p|] eqn:Hid; [|done]. cbn in H.
      apply (agr_ids _ _ Ha) in Hid as (job & x & Hp & Hx & Hid). rewrite H in Hx. injection Hx as <-.
      destruct (execs_points Ha _ _ Hp) as (x & [Hx _] & Hin). exists job. split; [congruence|done].
    + intros (job & Hin & Hid). destruct (history_points Ha _ _ Hin) as (p & Hp & Hx & _).
      rewrite <- Hid, (execs_byID Ha _ _ _ Hp Hx). exact Hx.
Qed.

Definition sample_execution (id job : string) (status : JobStatus) (at_ : Time) (d : Duration) : JobExecution :=
  mkJobExecution id job status at_ (Some (at_ + d)) d "" "w" ∅.

Definition sample_events : list hist_event :=
  [HStart 1 (sample_execution "a" "report" JobStatusRunning 10 0);
   HStart 2 (sample_execution "b" "report" JobStatusRunning 20 0);
   HComplete (sample_execution "a" "report" JobStatusCompleted 10 7);
   HStart 3 (sample_execution "c" "report" JobStatusRunning 30 0);
   HComplete (sample_execution "b" "report" JobStatusFailed 20 4)].

Lemma MemoryHistory_refines_witness :
  let s := foldl hist_step (NewMemoryHistoryStore 2) sample_events in
  (forall job limit, 0 <= limit ->
     exists l, MHS_GetExecutions s job limit = Some l /\
       omap (fun p => objects s !! p) l =
         take (Z.to_nat limit) (rev (foldl (spec_step 2) (fun _ => []) sample_events job))) /\
  (forall id e, (MHS_GetExecution s id ≫= fun p => objects s !! p) = Some e <->
     exists job, e ∈ foldl (spec_step 2) (fun _ => []) sample_events job /\ je_ID e = id).
Proof.
  apply (MemoryHistory_refines 2 sample_events). unfold sample_events.
  assert (forall s p e, executions s = ∅ \/ (exists l, executions s = {["report" := l]} /\ p ∉ l) ->
    byID s !! je_ID e = None -> event_ok s (HStart p e)) as Hs.
  { intros s p e [He|(l & He & Hl)] Hid; (split; [|done]); intros job; unfold execs; rewrite He.
    - rewrite lookup_empty. apply not_elem_of_nil.
    - destruct (decide (job = "report")) as [->|].
      + by rewrite lookup_singleton_eq.
      + rewrite lookup_singleton_ne by done. apply not_elem_of_nil. }
  split; [apply Hs; [by left|done]|].
  split; [apply Hs; [|by vm_compute]|].
  { right. exists [1%positive]. split; [vm_compute; reflexivity|]. by apply (bool_decide_unpack _). }
  split; [done|]. split; [apply Hs; [|by vm_compute]|done].
  right. exists [1%positive; 2%positive]. split; [vm_compute; reflexivity|]. by apply (bool_decide_unpack _).
Defined.

(** The statistics of a job are those of its events: the counts, the last times,
    the least and the greatest duration; the running average lies between them,
    and is off by less than half a nanosecond for each execution. *)
Theorem MemoryHistory_stats n evs job :
  Z.of_nat (length evs) <= max_int64 -> Forall valid_duration (durations job evs) ->
  stats_spec job evs (getOrCreateStats (foldl hist_step (NewMemoryHistoryStore n) evs) job).
Proof. intros Hn Hv. rewrite stats_run. by apply stats_run_spec. Qed.

Lemma MemoryHistory_stats_witness :
  stats_spec "report" sample_events
    (getOrCreateStats (foldl hist_step (NewMemoryHistoryStore 2) sample_events) "report").
Proof.
  apply (MemoryHistory_stats 2 sample_events "report"); [done|].
  repeat constructor; done.
Defined.

(** A duration of zero is forgotten: it is taken for a minimum that is not set. *)
Theorem MinDuration_forgets_zero n :
  let done_ id d := HComplete (sample_execution id "report" JobStatusCompleted 10 d) in
  MinDuration (getOrCreateStats (foldl hist_step (NewMemoryHistoryStore n)
    [done_ "a" 0; done_ "b" 5]) "report") = 5.
Proof. reflexivity. Qed.

(** A negative limit panics, unless the job has no execution. *)
Theorem GetExecutions_negative s job limit :
  limit < 0 -> execs s job <> [] -> MHS_GetExecutions s job limit = None.
Proof.
  intros Hl He. unfold MHS_GetExecutions. fold (execs s job). destruct (execs s job); [done|].
  by replace (limit <? 0) with true by lia.
Qed.

(** The monitor calls a job healthy exactly when the last execution that succeeded
    or failed has succeeded, if no two of them end at the same time. *)
Theorem HealthCheck_spec n evs job l e :
  List.filter finished (completed_of job evs) = (l ++ [e])%list ->
  je_CompletedAt e <> None -> Forall (fun a => before a e) l ->
  exists m, HealthCheck (foldl hist_step (NewMemoryHistoryStore n) evs) = Ok m /\
    m !! job = Some (bool_decide (je_Status e = JobStatusCompleted)).
Proof.
  intros Hl He Hb. eexists. split; [done|]. set (s := foldl hist_step _ evs).
  pose proof (last_times job evs (new_stats job) eq_refl eq_refl) as [Hs Hf].
  rewrite <- (with_status_finished _ _ (or_introl eq_refl)), Hl in Hs.
  rewrite <- (with_status_finished _ _ (or_intror eq_refl)), Hl in Hf.
  pose proof (stats_run (NewMemoryHistoryStore n) evs job) as Hrun. fold s in Hrun.
  change (getOrCreateStats (NewMemoryHistoryStore n) job) with (new_stats job) in Hrun. rewrite <- Hrun in Hs, Hf.
  assert (finished e = true) as Hfe.
  { assert (e ∈ List.filter finished (completed_of job evs)) as Hin
      by (rewrite Hl; apply elem_of_app; right; by left).
    apply list_elem_of_In, filter_In in Hin. tauto. }
  pose proof (healthy_last _ _ _ He Hb Hfe Hs Hf) as Hh. rewrite lookup_fmap.
  unfold getOrCreateStats in *. destruct (stats s !! job) as [st|]; cbn in *; [by f_equal|].
  rewrite with_status_app, with_status_one in Hs, Hf. unfold finished in Hfe.
  destruct (je_Status e); try done; eval_decide; cbn iota in Hs, Hf; try rewrite list.last_snoc in Hs; try rewrite list.last_snoc in Hf; cbn in Hs, Hf; congruence.
Qed.

Lemma HealthCheck_spec_witness :
  exists m, HealthCheck (foldl hist_step (NewMemoryHistoryStore 2) sample_events) = Ok m /\
    m !! "report" = Some false.
Proof.
  apply (HealthCheck_spec 2 sample_events "report"
    [sample_execution "a" "report" JobStatusCompleted 10 7] (sample_execution "b" "report" JobStatusFailed 20 4));
    [done|done|]. constructor; [|constructor]. cbn. lia.
Defined.
