(* ===== verification/Scheduler.v ===== *)
(** * The job scheduler ([pantry/jobs/scheduler.go])

    One execution of a job ([executeJob]) over the interfaces of the lockers and
    of the history; the registry of interval and cron jobs; and the goroutines
    that wait for their time.

    A goroutine evaluates the channels of its select each time it enters it, and
    so does the model: a channel is a number, and [sc_closed] holds the closed
    ones.  Which ready case a select takes, when a ticker ticks and when a job
    ends are chosen by the events of a run. *)

From S2P Require Import Prelude GoStrings Calendar Cron Locks History.

(** ** One execution *)

(** What the scheduler was given: whether it has a locker and a history. *)
Record options := mkOptions { locking : bool; recording : bool; workerID : string }.

(** The values one execution draws: its ID, the address of its record and the
    readings of the clock. *)
Record run := mkRun {
  ru_id : string;
  ru_ptr : positive;
  ru_start : Time;
  ru_lock : Time;
  ru_done : Time;
  ru_release : Time
}.

Section execute.
Context {S H W : Type} `{Locker S} `{HistoryStore H}.
(** [err.Error()] *)
Context (error_text : lock_error -> string).
Context (opts : options).

Definition recordComplete (h : H) (r : run) (name : string) (status : JobStatus)
    (err : option lock_error) : H :=
  if recording opts then
    (RecordComplete h
       (mkJobExecution (ru_id r) name status (ru_start r) (Some (ru_done r))
          (time_Sub (ru_done r) (ru_start r)) (from_option error_text "" err) (workerID opts) ∅)).1
  else h.

Definition recordStart (h : H) (r : run) (name : string) : H :=
  if recording opts then
    (RecordStart h (ru_ptr r)
       (mkJobExecution (ru_id r) name JobStatusRunning (ru_start r) None 0 "" (workerID opts) ∅)).1
  else h.

(** The handler acts on the world, and so do other executions while it runs; it
    returns or panics.  [true]: the panic goes on after the deferred calls. *)
Definition run_handler (st : S * H * W) (r : run) (name : string)
    (handler : S * H * W -> (S * H * W) * outcome) : (S * H * W) * bool :=
  match handler st with
  | (st, Panicked) => (st, true)
  | ((s, h, w), Returned (Some err)) =>
      ((s, recordComplete h r name JobStatusFailed (Some err), w), false)
  | ((s, h, w), Returned None) => ((s, recordComplete h r name JobStatusCompleted None, w), false)
  end.

Definition lock_key (name : string) : string := "scheduler:" +:+ name.

Definition executeJob (st : S * H * W) (r : run) (name : string)
    (handler : S * H * W -> (S * H * W) * outcome) (timeout : Duration) : (S * H * W) * bool :=
  let '(s, h, w) := st in
  let h := recordStart h r name in
  if locking opts then
    match Acquire s (ru_lock r) (lock_key name) timeout with
    | (s, Err err) => ((s, recordComplete h r name JobStatusFailed (Some err), w), false)
    | (s, Ok false) => ((s, recordComplete h r name JobStatusSkipped None, w), false)
    | (s, Ok true) =>
        let '((s, h, w), panicked) := run_handler (s, h, w) r name handler in
        let '(s, _) := Release s (ru_release r) (lock_key name) in
        ((s, h, w), panicked)
    end
  else run_handler (s, h, w) r name handler.
End execute.

(** ** The registry *)

Inductive job_kind :=
| Interval (d : Duration) (runImmediately : bool)
| CronJob (expr : string) (parsed : CronExpr) (off : Z).

(** [en_next] is [nextRun], of cron jobs. *)
Record entry := mkEntry {
  en_name : string;
  en_kind : job_kind;
  en_timeout : Duration;
  en_stop : nat;
  en_next : Time
}.

Inductive sched_error :=
| NameRequired
| AlreadyExists (name : string)
| InvalidCron (err : cron_error)
| NotFound (name : string).

(** How a call ends. *)
Inductive op_result := Return (err : option sched_error) | Panic.

(** Where a goroutine is: at the top of its loop, in a select on the stop channel
    of the entry and of the scheduler, with the time its timer fires for a cron
    job, in the handler, or gone. *)
Inductive gpc :=
| Top
| Select (ech sch : nat) (deadline : option Time)
| Exec
| Exited.

#[global] Instance gpc_eq_dec : EqDecision gpc.
Proof. solve_decision. Defined.

Record goroutine := mkG { g_entry : nat; g_pc : gpc }.

Record Scheduler := mkScheduler {
  jobs : gmap string nat;
  cronJobs : gmap string nat;
  entries : gmap nat entry;
  running : bool;
  stopCh : nat;
  closed : gset nat;
  fresh : nat;
  gs : list goroutine
}.

Definition NewScheduler : Scheduler := mkScheduler ∅ ∅ ∅ false 0 ∅ 1 [].

Definition set_entry (s : Scheduler) (eid : nat) (e : entry) : Scheduler :=
  mkScheduler (jobs s) (cronJobs s) (<[eid := e]> (entries s)) (running s) (stopCh s) (closed s) (fresh s)
    (gs s).

(** [make(chan struct{})], and a new entry. *)
Definition alloc (s : Scheduler) : Scheduler * nat :=
  (mkScheduler (jobs s) (cronJobs s) (entries s) (running s) (stopCh s) (closed s) (Datatypes.S (fresh s))
     (gs s), fresh s).

Definition spawn (s : Scheduler) (g : goroutine) : Scheduler :=
  mkScheduler (jobs s) (cronJobs s) (entries s) (running s) (stopCh s) (closed s) (fresh s) (gs s ++ [g]).

(** [close]: closing a closed channel panics. *)
Definition close_chan (s : Scheduler) (ch : nat) : option Scheduler :=
  if decide (ch ∈ closed s) then None
  else Some (mkScheduler (jobs s) (cronJobs s) (entries s) (running s) (stopCh s) ({[ch]} ∪ closed s)
               (fresh s) (gs s)).

(** [time.NewTicker] panics when the interval is not positive. *)
Definition startJob (s : Scheduler) (eid : nat) (e : entry) (d : Duration) (immediately : bool)
    : option Scheduler :=
  if d <=? 0 then None
  else
    let '(s, ch) := alloc s in
    let s := set_entry s eid (mkEntry (en_name e) (en_kind e) (en_timeout e) ch (en_next e)) in
    Some (spawn s (mkG eid (if immediately then Exec else Top))).

(** [Next] always returns. *)
Definition cron_next (c : CronExpr) (off : Z) (now : Time) : Time := default zero_time (Next c off now).

Definition startCronJob (s : Scheduler) (now : Time) (eid : nat) (e : entry) (c : CronExpr) (off : Z)
    : Scheduler :=
  let '(s, ch) := alloc s in
  let s := set_entry s eid (mkEntry (en_name e) (en_kind e) (en_timeout e) ch (cron_next c off now)) in
  spawn s (mkG eid Top).

Definition start_entry (s : Scheduler) (now : Time) (eid : nat) : option Scheduler :=
  match entries s !! eid with
  | None => Some s
  | Some e =>
      match en_kind e with
      | Interval d immediately => startJob s eid e d immediately
      | CronJob _ c off => Some (startCronJob s now eid e c off)
      end
  end.

(** The default of a timeout. *)
Definition timeout_or_default (d : Duration) : Duration := if d =? 0 then 5 * Minute else d.

(** [s.jobs[name] = entry] and [s.cronJobs[name] = entry]. *)
Definition register (s : Scheduler) (name : string) (kind : job_kind) (timeout : Duration)
    : Scheduler * nat :=
  let '(s, ch) := alloc s in
  let '(s, eid) := alloc s in
  let s := set_entry s eid (mkEntry name kind (timeout_or_default timeout) ch zero_time) in
  (mkScheduler
     (match kind with Interval _ _ => <[name := eid]> (jobs s) | CronJob _ _ _ => jobs s end)
     (match kind with Interval _ _ => cronJobs s | CronJob _ _ _ => <[name := eid]> (cronJobs s) end)
     (entries s) (running s) (stopCh s) (closed s) (fresh s) (gs s), eid).

Definition start_if_running (s : Scheduler) (now : Time) (eid : nat) : Scheduler * op_result :=
  if running s then
    match start_entry s now eid with
    | Some s => (s, Return None)
    | None => (s, Panic)
    end
  else (s, Return None).

Definition Add (s : Scheduler) (now : Time) (name : string) (interval : Duration) (immediately : bool)
    (timeout : Duration) : Scheduler * op_result :=
  if String.eqb name "" then (s, Return (Some NameRequired))
  else
    match jobs s !! name with
    | Some _ => (s, Return (Some (AlreadyExists name)))
    | None =>
        let '(s, eid) := register s name (Interval interval immediately) timeout in
        start_if_running s now eid
    end.

Definition AddCron (s : Scheduler) (now : Time) (name expr : string) (off : Z) (timeout : Duration)
    : Scheduler * op_result :=
  if String.eqb name "" then (s, Return (Some NameRequired))
  else
    match cronJobs s !! name with
    | Some _ => (s, Return (Some (AlreadyExists name)))
    | None =>
        match ParseCron expr with
        | Err err => (s, Return (Some (InvalidCron err)))
        | Ok parsed =>
            let '(s, eid) := register s name (CronJob expr parsed off) timeout in
            start_if_running s now eid
        end
    end.

(** [Cron] and [Every]. *)
Definition Cron_ (s : Scheduler) (now : Time) (expr name : string) (local_off : Z) :=
  AddCron s now name expr local_off 0.

Definition Every (s : Scheduler) (now : Time) (interval : Duration) (name : string) :=
  Add s now name interval false 0.

(** The loops of [Start], until a panic. *)
Fixpoint start_all (s : Scheduler) (now : nat -> Time) (eids : list nat) : Scheduler * bool :=
  match eids with
  | [] => (s, true)
  | eid :: eids =>
      match start_entry s (now eid) eid with
      | Some s => start_all s now eids
      | None => (s, false)
      end
  end.

(** [order] and [corder] are the orders in which the maps are ranged over, [now]
    what the clock reads for an entry. *)
Definition Start (s : Scheduler) (now : nat -> Time) (order corder : list string) : Scheduler * op_result :=
  if running s then (s, Return None)
  else
    let '(s, ch) := alloc s in
    let s := mkScheduler (jobs s) (cronJobs s) (entries s) true ch (closed s) (fresh s) (gs s) in
    match start_all s now (omap (fun n => jobs s !! n) order ++ omap (fun n => cronJobs s !! n) corder) with
    | (s, true) => (s, Return None)
    | (s, false) => (s, Panic)
    end.

(** [Stop] until it waits; it returns nil once every goroutine is gone. *)
Definition Stop (s : Scheduler) : Scheduler * op_result :=
  if negb (running s) then (s, Return None)
  else
    let s := mkScheduler (jobs s) (cronJobs s) (entries s) false (stopCh s) (closed s) (fresh s) (gs s) in
    match close_chan s (stopCh s) with
    | Some s => (s, Return None)
    | None => (s, Panic)
    end.

Definition all_exited (s : Scheduler) : bool := forallb (fun g => bool_decide (g_pc g = Exited)) (gs s).

(** [entry.stopCh] of a registered name is closed and the name deleted. *)
Definition remove_entry (s : Scheduler) (eid : nat) (js cs : gmap string nat) : Scheduler * option bool :=
  match entries s !! eid with
  | None => (s, None)
  | Some e =>
      match close_chan s (en_stop e) with
      | None => (s, None)
      | Some s => (mkScheduler js cs (entries s) (running s) (stopCh s) (closed s) (fresh s) (gs s), Some true)
      end
  end.

(** [None] is a panic. *)
Definition Remove (s : Scheduler) (name : string) : Scheduler * option bool :=
  match jobs s !! name with
  | Some eid => remove_entry s eid (delete name (jobs s)) (cronJobs s)
  | None =>
      match cronJobs s !! name with
      | Some eid => remove_entry s eid (jobs s) (delete name (cronJobs s))
      | None => (s, Some false)
      end
  end.

Record JobInfo := mkJobInfo {
  ji_Name : string;
  ji_Type : string;
  ji_Interval : Duration;
  ji_Cron : string;
  ji_Timeout : Duration;
  ji_RunImmediately : bool;
  ji_NextRun : Time;
  ji_Location : option Z
}.

Definition job_info (e : entry) : JobInfo :=
  match en_kind e with
  | Interval d immediately =>
      mkJobInfo (en_name e) "interval" d "" (en_timeout e) immediately zero_time None
  | CronJob expr _ off =>
      mkJobInfo (en_name e) "cron" 0 expr (en_timeout e) false (en_next e) (Some off)
  end.

(** Interval jobs are looked for first. *)
Definition find_entry (s : Scheduler) (name : string) : option entry :=
  match jobs s !! name with
  | Some eid => entries s !! eid
  | None => cronJobs s !! name ≫= fun eid => entries s !! eid
  end.

Definition Get (s : Scheduler) (name : string) : option JobInfo := job_info <$> find_entry s name.

(** What [RunNow] hands to [executeJob]. *)
Definition RunNow (s : Scheduler) (name : string) : result sched_error entry :=
  match find_entry s name with
  | Some e => Ok e
  | None => Err (NotFound name)
  end.

(** [order] and [corder] are the orders in which the maps are ranged over. *)
Definition List_ (s : Scheduler) (order corder : list string) : list string := (order ++ corder)%list.

Definition ListJobs (s : Scheduler) (order corder : list string) : list JobInfo :=
  map job_info
    (omap (fun n => jobs s !! n ≫= fun eid => entries s !! eid) order ++
     omap (fun n => cronJobs s !! n ≫= fun eid => entries s !! eid) corder).

(** ** The goroutines *)

Inductive g_event :=
| AtTop (now : Time)
| Tick (now : Time)
| EntryStopped
| SchedulerStopped
| JobDone (now : Time).

Definition set_pc (s : Scheduler) (i : nat) (eid : nat) (pc : gpc) : Scheduler :=
  mkScheduler (jobs s) (cronJobs s) (entries s) (running s) (stopCh s) (closed s) (fresh s)
    (<[i := mkG eid pc]> (gs s)).

Definition set_next (s : Scheduler) (eid : nat) (e : entry) (t : Time) : Scheduler :=
  set_entry s eid (mkEntry (en_name e) (en_kind e) (en_timeout e) (en_stop e) t).

(** The top of the loops: a cron job whose time has passed computes the next one
    and goes round without a select. *)
Definition g_top (s : Scheduler) (i eid : nat) (e : entry) (now : Time) : Scheduler :=
  match en_kind e with
  | Interval _ _ => set_pc s i eid (Select (en_stop e) (stopCh s) None)
  | CronJob _ c off =>
      let waitDuration := time_Sub (en_next e) now in
      if waitDuration <? 0 then set_next s eid e (cron_next c off now)
      else set_pc s i eid (Select (en_stop e) (stopCh s) (Some (time_Add now waitDuration)))
  end.

Definition g_done (s : Scheduler) (i eid : nat) (e : entry) (now : Time) : Scheduler :=
  let s := match en_kind e with
           | Interval _ _ => s
           | CronJob _ c off => set_next s eid e (cron_next c off now)
           end in
  set_pc s i eid Top.

(** A step of goroutine [i], if it can take it. *)
Definition g_step (s : Scheduler) (i : nat) (ev : g_event) : option Scheduler :=
  match gs s !! i with
  | None => None
  | Some g =>
      match entries s !! g_entry g with
      | None => None
      | Some e =>
          match ev, g_pc g with
          | AtTop now, Top => Some (g_top s i (g_entry g) e now)
          | Tick now, Select _ _ deadline =>
              if from_option (fun d => d <=? now) true deadline
              then Some (set_pc s i (g_entry g) Exec) else None
          | EntryStopped, Select ech _ _ =>
              if decide (ech ∈ closed s) then Some (set_pc s i (g_entry g) Exited) else None
          | SchedulerStopped, Select _ sch _ =>
              if decide (sch ∈ closed s) then Some (set_pc s i (g_entry g) Exited) else None
          | JobDone now, Exec => Some (g_done s i (g_entry g) e now)
          | _, _ => None
          end
      end
  end.

(** ** Runs *)

Inductive op :=
| OpAdd (now : Time) (name : string) (interval : Duration) (immediately : bool) (timeout : Duration)
| OpAddCron (now : Time) (name expr : string) (off : Z) (timeout : Duration)
| OpStart (now : nat -> Time) (order corder : list string)
| OpStop
| OpRemove (name : string)
| OpRunNow (name : string).

Definition apply_op (s : Scheduler) (o : op) : Scheduler * op_result :=
  match o with
  | OpAdd now name d im timeout => Add s now name d im timeout
  | OpAddCron now name expr off timeout => AddCron s now name expr off timeout
  | OpStart now order corder => Start s now order corder
  | OpStop => Stop s
  | OpRemove name =>
      match Remove s name with
      | (s, Some _) => (s, Return None)
      | (s, None) => (s, Panic)
      end
  (** it executes the job in the caller's goroutine, off schedule *)
  | OpRunNow name => (s, match RunNow s name with Ok _ => Return None | Err err => Return (Some err) end)
  end.

Inductive sched_event := Op (o : op) | Go (i : nat) (ev : g_event).

(** A goroutine that cannot take the step does nothing. *)
Definition sched_step (s : Scheduler) (ev : sched_event) : Scheduler :=
  match ev with
  | Op o => (apply_op s o).1
  | Go i ev => default s (g_step s i ev)
  end.

Definition sched_run (s : Scheduler) (evs : list sched_event) : Scheduler := foldl sched_step s evs.

(** ** Specification *)

Definition due (s : Scheduler) (i : nat) : Time :=
  from_option (fun g => from_option en_next zero_time (entries s !! g_entry g)) zero_time (gs s !! i).

(** An execution by the goroutine of a cron job: the job's expression and offset,
    the time it was due and the time it started. *)
Record execution := mkExecution { x_cron : CronExpr; x_off : Z; x_due : Time; x_start : Time }.

Definition kind_at (s : Scheduler) (i : nat) : option job_kind :=
  gs s !! i ≫= fun g => en_kind <$> entries s !! g_entry g.

Definition cron_tick (s : Scheduler) (i : nat) (ev : sched_event) : list execution :=
  match ev with
  | Go j (Tick now) =>
      if decide (j = i) then
        match g_step s i (Tick now), kind_at s i with
        | Some _, Some (CronJob _ c off) => [mkExecution c off (due s i) now]
        | _, _ => []
        end
      else []
  | _ => []
  end.

(** The executions by goroutine [i] in a run of the whole scheduler. *)
Fixpoint exec_log (s : Scheduler) (i : nat) (evs : list sched_event) : list execution :=
  match evs with
  | [] => []
  | ev :: evs => (cron_tick s i ev ++ exec_log (sched_step s ev) i evs)%list
  end.

(** Each execution is due after the last one started, at a firing, and starts
    when it is due or later. *)
Fixpoint well_timed (last : Time) (log : list execution) : Prop :=
  match log with
  | [] => True
  | x :: log =>
      last < x_due x /\ x_due x <= x_start x /\ fires (x_cron x) (x_off x) (x_due x) = true /\
      well_timed (x_start x) log
  end.

Definition event_time (ev : g_event) : option Time :=
  match ev with
  | AtTop now | Tick now | JobDone now => Some now
  | _ => None
  end.

(** What an event reads off the clock lies between two times. *)
Definition ev_reads (ev : sched_event) (lo hi : Time) : Prop :=
  match ev with
  | Op (OpAdd now _ _ _ _) | Op (OpAddCron now _ _ _ _) => lo <= now <= hi
  | Op (OpStart now _ _) => forall eid, lo <= now eid <= hi
  | Go _ ev => forall now, event_time ev = Some now -> lo <= now <= hi
  | _ => True
  end.

(** The clock does not go back. *)
Fixpoint clock_forward (lo : Time) (evs : list sched_event) : Prop :=
  match evs with
  | [] => True
  | ev :: evs => exists hi, lo <= hi /\ ev_reads ev lo hi /\ clock_forward hi evs
  end.

(** Cron jobs are in zones whole hours from UTC, and the steps of their
    expressions do not overflow. *)
Definition ev_cron (ev : sched_event) : Prop :=
  match ev with
  | Op (OpAddCron _ _ expr off _) => off mod 3600 = 0 /\ cron_small_steps expr
  | _ => True
  end.

(** ** One execution, proved *)

Definition find_execution (h : MemoryHistoryStore) (id : string) : option JobExecution :=
  MHS_GetExecution h id ≫= fun p => objects h !! p.

Lemma find_complete h e :
  find_execution (MHS_RecordComplete h e).1 (je_ID e) =
  (fun stored => complete stored e) <$> find_execution h (je_ID e).
Proof.
  unfold find_execution, MHS_RecordComplete, MHS_GetExecution. cbn [fst set_stats byID objects].
  destruct (byID h !! je_ID e) as [p|] eqn:Hp; [|done]. cbn. by rewrite lookup_alter_eq.
Qed.

Lemma find_start m h hh p e :
  (0 < m)%nat -> refines m h hh -> event_ok h (HStart p e) ->
  find_execution (MHS_RecordStart h p e).1 (je_ID e) = Some e.
Proof.
  intros Hm Hr Hok. pose proof (start_refines m h hh p e Hm Hr Hok) as (Ha & _ & _).
  cbn [hist_step] in Ha.
  assert (e ∈ spec_step m hh (HStart p e) (je_JobName e)) as Hin.
  { cbn [spec_step]. rewrite String.eqb_refl. unfold lastn. rewrite length_app. cbn [length].
    rewrite drop_app_le by lia. apply elem_of_app. right. by left. }
  destruct (history_points Ha _ _ Hin) as (q & Hq & Hqe & _).
  unfold find_execution, MHS_GetExecution. by rewrite (execs_byID Ha _ _ _ Hq Hqe).
Qed.

(** What the history should say of an execution. *)
Definition final_status (acq : result lock_error bool) (out : outcome) : JobStatus :=
  match acq, out with
  | Err _, _ => JobStatusFailed
  | Ok false, _ => JobStatusSkipped
  | Ok true, Panicked => JobStatusRunning
  | Ok true, Returned (Some _) => JobStatusFailed
  | Ok true, Returned None => JobStatusCompleted
  end.

Definition has_status (h : MemoryHistoryStore) (id : string) (st : JobStatus) : Prop :=
  exists e, find_execution h id = Some e /\ je_Status e = st.

Section execute_memory.
Context {S W : Type} `{Locker S} (text : lock_error -> string) (opts : options).
Context (Hrec : recording opts = true) (r : run) (name : string).
Context (handler : S * MemoryHistoryStore * W -> (S * MemoryHistoryStore * W) * outcome).
(** The handler leaves the record of its own execution alone. *)
Context (Hkeep : forall st,
  find_execution (handler st).1.1.2 (ru_id r) = find_execution st.1.2 (ru_id r)).

Lemma recordComplete_status h status err :
  has_status h (ru_id r) JobStatusRunning ->
  has_status (recordComplete text opts h r name status err) (ru_id r) status.
Proof.
  intros (e & He & _). unfold recordComplete, has_status. rewrite Hrec.
  set (x := mkJobExecution _ _ _ _ _ _ _ _ _). pose proof (find_complete h x) as Hc.
  change (je_ID x) with (ru_id r) in Hc. rewrite He in Hc. exists (complete e x). by split.
Qed.

Lemma run_handler_status st :
  has_status st.1.2 (ru_id r) JobStatusRunning ->
  let fin := (run_handler text opts st r name handler).1 in
  has_status fin.1.2 (ru_id r) (final_status (Ok true) (handler st).2) /\ fin.2 = (handler st).1.2.
Proof.
  intros Hs. pose proof (Hkeep st) as Hk.
  assert (has_status (handler st).1.1.2 (ru_id r) JobStatusRunning) as Hh
    by (destruct Hs as (e & He & ?); exists e; by rewrite Hk).
  unfold run_handler. destruct (handler st) as [[[s h] w] [[err|]|]]; cbn [fst snd final_status] in *;
    (split; [|done]); [by apply recordComplete_status|by apply recordComplete_status|done].
Qed.

Lemma executeJob_status s h w timeout :
  has_status (recordStart opts h r name) (ru_id r) JobStatusRunning ->
  let acq := if locking opts then Acquire s (ru_lock r) (lock_key name) timeout else (s, Ok true) in
  let ran := handler (acq.1, recordStart opts h r name, w) in
  let fin := (executeJob text opts (s, h, w) r name handler timeout).1 in
  has_status fin.1.2 (ru_id r) (final_status acq.2 ran.2) /\
  fin.2 = match acq.2 with Ok true => ran.1.2 | _ => w end.
Proof.
  intros Hs. unfold executeJob. destruct (locking opts).
  - destruct (Acquire s (ru_lock r) (lock_key name) timeout) as [s1 [[|]|err]]; cbn [fst snd].
    + pose proof (run_handler_status (s1, recordStart opts h r name, w) Hs) as Hr. cbv zeta in Hr.
      destruct (run_handler _ _ _ _ _ _) as [[[s2 h2] w2] b]. cbn [fst snd] in Hr.
      by destruct (Release s2 (ru_release r) (lock_key name)).
    + split; [|done]. by apply recordComplete_status.
    + split; [|done]. by apply recordComplete_status.
  - apply (run_handler_status (s, recordStart opts h r name, w) Hs).
Qed.
End execute_memory.

(** ** Two instances over one Redis *)

Section instances.
Context {R : Type} `{RedisLaws R} {Hi W : Type} `{HistoryStore Hi}.
Context (text : lock_error -> string) (opts : options) (Hlock : locking opts = true).
(** The server answers. *)
Context (Hset : forall r t k v ttl, (SetNX r t k v ttl).2 <> None).
Context (Heval : forall r t k v, (Eval_ r t release_script [k] [RStr v]).2 <> None).

Lemma RL_Acquire_free l r t key ttl :
  0 < ttl -> live (db r) t (prefix l +:+ key) = None ->
  exists s', RL_Acquire (l, r) t key ttl = (s', Ok true) /\
    db s'.2 !! (prefix l +:+ key) = Some (ownerID l, t + ttl) /\
    prefix s'.1 = prefix l /\ ownerID s'.1 = ownerID l.
Proof.
  intros Httl Hl. assert (exists s', RL_Acquire (l, r) t key ttl = (s', Ok true)) as [s' Hs'].
  { unfold RL_Acquire. pose proof (law_setnx r t (prefix l +:+ key) (ownerID l) ttl Httl) as Hlaw.
    pose proof (Hset r t (prefix l +:+ key) (ownerID l) ttl) as Ha.
    destruct (SetNX r t (prefix l +:+ key) (ownerID l) ttl) as [r1 [ok|]]; [|done]. cbn in Hlaw.
    unfold setnx_effect in Hlaw. rewrite Hl in Hlaw. destruct Hlaw as [_ ->]. cbn. eauto. }
  exists s'. split; [done|]. by destruct (RL_Acquire_ok l r t key ttl s' Httl Hs') as (-> & -> & ->).
Qed.

(** After the holder's release nobody has the lock. *)
Lemma RL_Release_frees l r key t e t' :
  db r !! (prefix l +:+ key) = Some (ownerID l, e) -> t <= t' ->
  live (db (RL_Release (l, r) t key).1.2) t' (prefix l +:+ key) = None.
Proof.
  intros Hd Ht. unfold RL_Release.
  pose proof (law_release_script r t (prefix l +:+ key) (ownerID l)) as Hlaw.
  pose proof (Heval r t (prefix l +:+ key) (ownerID l)) as Ha.
  destruct (Eval_ r t release_script _ _) as [r1 [reply|]]; [|done]. cbn [fst snd answered] in *.
  destruct Hlaw as [-> _]. unfold release_effect, live. rewrite Hd.
  destruct (t <? e) eqn:He; case_decide as Hc; cbn [fst]; try congruence.
  - by rewrite lookup_delete_eq.
  - rewrite Hd. by replace (t' <? e) with false by lia.
Qed.

(** A handler that leaves the lock alone. *)
Definition pure_handler {L : Type} (f : W -> W) (st : L * Hi * W) : (L * Hi * W) * outcome :=
  let '(s, h, w) := st in ((s, h, f w), Returned None).

Lemma executeJob_runs (l : RedisLocker) (r : R) (h : Hi) (w : W) (ru : run) (name : string) (f : W -> W)
    (timeout : Duration) :
  0 < timeout -> live (db r) (ru_lock ru) (prefix l +:+ lock_key name) = None ->
  let fin := (executeJob (S := RedisLocker * R) text opts ((l, r), h, w) ru name (pure_handler f) timeout).1 in
  fin.2 = f w /\
  forall t', ru_release ru <= t' -> live (db fin.1.1.2) t' (prefix l +:+ lock_key name) = None.
Proof.
  intros Htime Hl. unfold executeJob. rewrite Hlock.
  destruct (RL_Acquire_free l r (ru_lock ru) (lock_key name) timeout Htime Hl) as ([l1 r1] & Ha & Hd & Hp & Ho).
  cbn [Acquire Release RedisLocker_Locker fst snd] in *. rewrite Ha. cbn [run_handler pure_handler].
  pose proof (RL_Release_frees l1 r1 (lock_key name) (ru_release ru) (ru_lock ru + timeout)) as Hrel.
  rewrite Hp, Ho in Hrel.
  destruct (RL_Release (l1, r1) (ru_release ru) (lock_key name)) as [[l2 r2] b]. cbn [fst snd] in *.
  split; [done|]. intros t' Ht'. by apply Hrel.
Qed.

Lemma executeJob_skips (l : RedisLocker) (r : R) (h : Hi) (w : W) (ru : run) (name : string) handler
    (timeout : Duration) v :
  0 < timeout -> live (db r) (ru_lock ru) (prefix l +:+ lock_key name) = Some v ->
  (executeJob (S := RedisLocker * R) text opts ((l, r), h, w) ru name handler timeout).1.2 = w.
Proof.
  intros Htime Hl. unfold executeJob. rewrite Hlock.
  pose proof (RL_Acquire_refused l r (ru_lock ru) (lock_key name) timeout v Htime Hl) as Ha.
  cbn [Acquire RedisLocker_Locker] in *.
  destruct (RL_Acquire (l, r) (ru_lock ru) (lock_key name) timeout) as [s1 [[|]|err]]; [by destruct Ha|done|done].
Qed.
End instances.

(** ** The channels are closed once *)

Definition registered (s : Scheduler) (name : string) (eid : nat) : Prop :=
  jobs s !! name = Some eid \/ cronJobs s !! name = Some eid.

(** A ticker can be made for every interval job. *)
Definition kind_ok (k : job_kind) : Prop :=
  match k with Interval d _ => 0 < d | CronJob _ _ _ => True end.

(** The registered entries are open, each with a channel of its own. *)
Record wf (s : Scheduler) : Prop := {
  wf_closed ch : ch ∈ closed s -> (ch < fresh s)%nat;
  wf_stop : (stopCh s < fresh s)%nat;
  wf_running : running s = true -> stopCh s ∉ closed s;
  wf_ids eid e : entries s !! eid = Some e -> (eid < fresh s)%nat /\ kind_ok (en_kind e);
  wf_registered name eid :
    registered s name eid ->
    exists e, entries s !! eid = Some e /\ en_name e = name /\ (en_stop e ∉ closed s) /\
      (en_stop e < fresh s)%nat /\ (en_stop e <> stopCh s);
  wf_distinct name1 name2 eid1 eid2 e1 e2 :
    registered s name1 eid1 -> registered s name2 eid2 -> eid1 <> eid2 ->
    entries s !! eid1 = Some e1 -> entries s !! eid2 = Some e2 -> en_stop e1 <> en_stop e2;
  wf_apart name eid : jobs s !! name = Some eid -> cronJobs s !! name <> Some eid
}.

Lemma wf_new : wf NewScheduler.
Proof.
  split; cbn; try done; try lia; try set_solver.
  intros name eid [H|H]; cbn in H; by rewrite lookup_empty in H.
Qed.

(** Only the goroutines differ. *)
Lemma wf_gs s l :
  wf s -> wf (mkScheduler (jobs s) (cronJobs s) (entries s) (running s) (stopCh s) (closed s) (fresh s) l).
Proof. intros [H1 H2 H3 H4 H5 H6 H7]. by split. Qed.

(** An entry changes its next time, or gets a new channel. *)
Lemma wf_restart s eid e t :
  wf s -> entries s !! eid = Some e ->
  wf (set_entry (alloc s).1 eid (mkEntry (en_name e) (en_kind e) (en_timeout e) (fresh s) t)).
Proof.
  intros [H1 H2 H3 H4 H5 H6 H7] He.
  assert (fresh s ∉ closed s) as Hf by (intros Hc; apply H1 in Hc; lia).
  split; cbn [alloc fst set_entry jobs cronJobs entries running stopCh closed fresh]; try done.
  - intros ch Hch. apply H1 in Hch. lia.
  - lia.
  - intros eid' e'. rewrite lookup_insert_Some. intros [[<- <-]|[_ He']].
    + destruct (H4 _ _ He). split; [lia|done].
    + destruct (H4 _ _ He'). split; [lia|done].
  - intros name eid' Hr. destruct (H5 _ _ Hr) as (e' & He' & Hn & Hc & Hlt & Hs).
    destruct (decide (eid = eid')) as [<-|Hne].
    + rewrite lookup_insert_eq. eexists. split; [done|]. cbn. assert (e' = e) by congruence. subst e'.
      repeat split; try done; lia.
    + rewrite lookup_insert_ne by done. exists e'. repeat split; try done. lia.
  - intros n1 n2 eid1 eid2 e1 e2 Hr1 Hr2 Hne. rewrite !lookup_insert_Some.
    destruct (H5 _ _ Hr1) as (x1 & Hx1 & _ & _ & Hlt1 & _), (H5 _ _ Hr2) as (x2 & Hx2 & _ & _ & Hlt2 & _).
    intros [[<- <-]|[Hn1 He1]] [[<- <-]|[Hn2 He2]]; cbn; try congruence.
    + assert (x2 = e2) by congruence. subst. lia.
    + assert (x1 = e1) by congruence. subst. lia.
    + eauto.
Qed.

Lemma wf_next s eid e t :
  wf s -> entries s !! eid = Some e -> wf (set_next s eid e t).
Proof.
  intros [H1 H2 H3 H4 H5 H6 H7] He. unfold set_next.
  split; cbn [set_entry jobs cronJobs entries running stopCh closed fresh]; try done.
  - intros eid' e'. rewrite lookup_insert_Some. intros [[<- <-]|[_ He']]; [apply (H4 _ _ He)|eauto].
  - intros name eid' Hr. destruct (H5 _ _ Hr) as (e' & He' & Hn & Hc & Hlt & Hs).
    destruct (decide (eid = eid')) as [<-|Hne].
    + rewrite lookup_insert_eq. eexists. split; [done|]. assert (e' = e) by congruence. by subst e'.
    + rewrite lookup_insert_ne by done. eauto 10.
  - intros n1 n2 eid1 eid2 e1 e2 Hr1 Hr2 Hne. rewrite !lookup_insert_Some.
    intros [[<- <-]|[Hn1 He1]] [[<- <-]|[Hn2 He2]]; cbn; try congruence; eauto.
Qed.

Lemma wf_start_entry s now eid :
  wf s -> exists s', start_entry s now eid = Some s' /\ wf s' /\
    jobs s' = jobs s /\ cronJobs s' = cronJobs s /\ running s' = running s.
Proof.
  intros Hw. unfold start_entry. destruct (entries s !! eid) as [e|] eqn:He; [|eauto 10].
  destruct (wf_ids s Hw _ _ He) as [_ Hk]. destruct (en_kind e) as [d im|expr c off] eqn:Hkind.
  - cbn in Hk. unfold startJob. replace (d <=? 0) with false by lia. eexists. split; [done|]. split; [|done].
    apply wf_gs. by apply wf_restart.
  - eexists. split; [done|]. split; [|done]. unfold startCronJob. apply wf_gs. by apply wf_restart.
Qed.

Lemma wf_start_all s now eids :
  wf s -> exists s', start_all s now eids = (s', true) /\ wf s' /\ running s' = running s.
Proof.
  revert s. induction eids as [|eid eids IH]; intros s Hw; cbn [start_all]; [eauto|].
  destruct (wf_start_entry s (now eid) eid Hw) as (s1 & -> & Hw1 & _ & _ & Hr).
  destruct (IH s1 Hw1) as (s2 & H2 & Hw2 & Hr2). exists s2. split; [done|]. split; [done|congruence].
Qed.

Lemma wf_register s name kind timeout :
  wf s -> kind_ok kind ->
  (match kind with Interval _ _ => jobs s | CronJob _ _ _ => cronJobs s end) !! name = None ->
  wf (register s name kind timeout).1.
Proof.
  intros [H1 H2 H3 H4 H5 H6 H7] Hk Hfree.
  assert (fresh s ∉ closed s) as Hf by (intros Hc; apply H1 in Hc; lia).
  set (new := mkEntry name kind (timeout_or_default timeout) (fresh s) zero_time).
  set (s' := (register s name kind timeout).1).
  assert (entries s' = <[S (fresh s) := new]> (entries s) /\ fresh s' = S (S (fresh s)) /\
    running s' = running s /\ stopCh s' = stopCh s /\ closed s' = closed s) as (He' & Hf' & Hr' & Hs' & Hc')
    by (unfold s'; by destruct kind).
  assert (forall n eid, registered s' n eid -> (n = name /\ eid = S (fresh s)) \/ registered s n eid) as Hreg.
  { intros n eid. unfold s', registered, register. destruct kind; cbn; rewrite lookup_insert_Some; naive_solver. }
  assert (forall n eid e, registered s n eid -> entries s !! eid = Some e -> S (fresh s) <> eid) as Hold
    by (intros n eid e _ He Heq; destruct (H4 _ _ He); lia).
  split; rewrite ?He', ?Hf', ?Hr', ?Hs', ?Hc'; try done.
  - intros ch Hch. apply H1 in Hch. lia.
  - lia.
  - intros eid e. rewrite lookup_insert_Some. intros [[<- <-]|[_ He]]; [split; [lia|done]|].
    destruct (H4 _ _ He). split; [lia|done].
  - intros n eid [[-> ->]|Hr]%Hreg.
    + exists new. rewrite lookup_insert_eq. repeat split; cbn; try done; lia.
    + destruct (H5 _ _ Hr) as (e & He & Hn & Hc & Hlt & Hs). exists e.
      rewrite lookup_insert_ne by eauto. repeat split; try done. lia.
  - intros n1 n2 eid1 eid2 e1 e2 Hr1 Hr2 Hne. rewrite !lookup_insert_Some.
    intros [[<- <-]|[Hn1 He1]] [[<- <-]|[Hn2 He2]]; cbn; try congruence.
    + apply Hreg in Hr2 as [[_ ->]|Hr2]; [done|]. destruct (H5 _ _ Hr2) as (x & Hx & _ & _ & Hlt & _).
      assert (x = e2) by congruence. subst. lia.
    + apply Hreg in Hr1 as [[_ ->]|Hr1]; [done|]. destruct (H5 _ _ Hr1) as (x & Hx & _ & _ & Hlt & _).
      assert (x = e1) by congruence. subst. lia.
    + apply Hreg in Hr1 as [[_ ->]|Hr1]; [done|]. apply Hreg in Hr2 as [[_ ->]|Hr2]; [done|]. eauto.
  - assert (forall n, ~ registered s n (S (fresh s))) as Hnew.
    { intros n Hr. destruct (H5 _ _ Hr) as (x & Hx & _). destruct (H4 _ _ Hx). lia. }
    intros n eid. unfold s', register. destruct kind; cbn; rewrite lookup_insert_Some.
    + intros [[_ <-]|[_ Hx]] Hc; [apply (Hnew n); by right|by apply (H7 _ _ Hx)].
    + intros Hx [[_ <-]|[_ Hc]]; [apply (Hnew n); by left|by apply (H7 _ _ Hx)].
Qed.

Lemma wf_start_if_running s now eid :
  wf s -> wf (start_if_running s now eid).1 /\ (start_if_running s now eid).2 = Return None.
Proof.
  intros Hw. unfold start_if_running. destruct (running s); [|done].
  destruct (wf_start_entry s now eid Hw) as (s' & -> & Hw' & _). done.
Qed.

Lemma wf_new_stop s :
  wf s ->
  wf (mkScheduler (jobs s) (cronJobs s) (entries s) true (fresh s) (closed s) (S (fresh s)) (gs s)).
Proof.
  intros [H1 H2 H3 H4 H5 H6 H7].
  split; cbn [jobs cronJobs entries running stopCh closed fresh]; try done; try lia.
  - intros ch Hch. apply H1 in Hch. lia.
  - intros _ Hc. apply H1 in Hc. lia.
  - intros eid e He. destruct (H4 _ _ He). split; [lia|done].
  - intros name eid Hr. destruct (H5 _ _ Hr) as (e & He & Hn & Hc & Hlt & Hs).
    exists e. repeat split; try done; lia.
Qed.

Lemma wf_stop_op s : wf s -> wf (Stop s).1 /\ (Stop s).2 = Return None.
Proof.
  intros Hw. pose proof Hw as [H1 H2 H3 H4 H5 H6 H7]. unfold Stop.
  destruct (running s) eqn:Hrun; cbn [negb]; [|done].
  unfold close_chan. cbn [closed stopCh]. rewrite decide_False by (by apply H3).
  split; [|done]. split; cbn [fst jobs cronJobs entries running stopCh closed fresh]; try done.
  - intros ch [->%elem_of_singleton|Hch]%elem_of_union; [done|by apply H1].
  - intros name eid Hr. destruct (H5 _ _ Hr) as (e & He & Hn & Hc & Hlt & Hs).
    exists e. repeat split; try done. rewrite elem_of_union, elem_of_singleton. by intros [?|?].
Qed.

(** Removing a registered name. *)
Lemma wf_remove_entry s name eid js cs :
  wf s -> registered s name eid ->
  (forall n x, js !! n = Some x -> jobs s !! n = Some x /\ x <> eid) ->
  (forall n x, cs !! n = Some x -> cronJobs s !! n = Some x /\ x <> eid) ->
  exists s', remove_entry s eid js cs = (s', Some true) /\ wf s'.
Proof.
  intros [H1 H2 H3 H4 H5 H6 H7] Hr Hjs Hcs.
  destruct (H5 _ _ Hr) as (e & He & Hn & Hc & Hlt & Hs).
  unfold remove_entry, close_chan. rewrite He, decide_False by done. eexists. split; [done|].
  assert (forall n x, js !! n = Some x \/ cs !! n = Some x -> registered s n x /\ x <> eid) as Hreg
    by (intros n x [Hx|Hx]; [apply Hjs in Hx|apply Hcs in Hx]; split; try apply Hx; [left|right]; apply Hx).
  split; cbn [jobs cronJobs entries running stopCh closed fresh]; try done.
  - intros ch [->%elem_of_singleton|Hch]%elem_of_union; [done|by apply H1].
  - intros Hrun. rewrite elem_of_union, elem_of_singleton. intros [Heq|Hx]; [congruence|by apply H3].
  - intros n x [Hx Hne]%Hreg. destruct (H5 _ _ Hx) as (e' & He' & Hn' & Hc' & Hlt' & Hs').
    exists e'. repeat split; try done. rewrite elem_of_union, elem_of_singleton. intros [Heq|?]; [|done].
    by eapply (H6 _ _ _ _ _ _ Hx Hr Hne He' He).
  - intros n1 n2 eid1 eid2 e1 e2 Hr1%Hreg Hr2%Hreg. destruct Hr1, Hr2. eauto.
  - intros n x Hx Hx'. apply Hjs in Hx as [Hx _]. apply Hcs in Hx' as [Hx' _]. by apply (H7 _ _ Hx).
Qed.

(** A registered entry has one name, in one of the maps. *)
Lemma registered_name s n1 n2 eid :
  wf s -> registered s n1 eid -> registered s n2 eid -> n1 = n2.
Proof.
  intros Hw Hr1 Hr2. destruct (wf_registered s Hw _ _ Hr1) as (e1 & He1 & <- & _).
  destruct (wf_registered s Hw _ _ Hr2) as (e2 & He2 & <- & _). congruence.
Qed.

Lemma wf_remove s name :
  wf s -> exists s' b, Remove s name = (s', Some b) /\ wf s'.
Proof.
  intros Hw. unfold Remove. destruct (jobs s !! name) as [eid|] eqn:Hj.
  - edestruct (wf_remove_entry s name eid (delete name (jobs s)) (cronJobs s)) as (s' & Hs' & Hw');
      [done|by left| | |by eauto].
    + intros n x [Hne Hx]%lookup_delete_Some. split; [done|]. intros ->. apply Hne.
      eapply (registered_name s); [done|by left|by left].
    + intros n x Hx. split; [done|]. intros ->. assert (name = n) as <-.
      { eapply (registered_name s); [done|by left|by right]. }
      by apply (wf_apart s Hw _ _ Hj).
  - destruct (cronJobs s !! name) as [eid|] eqn:Hc; [|eauto].
    edestruct (wf_remove_entry s name eid (jobs s) (delete name (cronJobs s))) as (s' & Hs' & Hw');
      [done|by right| | |by eauto].
    + intros n x Hx. split; [done|]. intros ->. assert (name = n) as <-.
      { eapply (registered_name s); [done|by right|by left]. }
      by apply (wf_apart s Hw _ _ Hx).
    + intros n x [Hne Hx]%lookup_delete_Some. split; [done|]. intros ->. apply Hne.
      eapply (registered_name s); [done|by right|by right].
Qed.

Definition op_ok (o : op) : Prop :=
  match o with OpAdd _ _ d _ _ => 0 < d | _ => True end.

Lemma wf_op s o :
  wf s -> op_ok o -> wf (apply_op s o).1 /\ (apply_op s o).2 <> Panic.
Proof.
  intros Hw Ho. destruct o as [now name d im timeout|now name expr off timeout|now order corder| |name|name];
    cbn [apply_op].
  - unfold Add. destruct (String.eqb name ""); [done|]. destruct (jobs s !! name) eqn:Hj; [done|].
    pose proof (wf_register s name (Interval d im) timeout Hw Ho Hj) as Hr.
    destruct (register _ _ _ _) as [s1 eid]. destruct (wf_start_if_running s1 now eid Hr) as [Hw' ->].
    by split.
  - unfold AddCron. destruct (String.eqb name ""); [done|]. destruct (cronJobs s !! name) eqn:Hj; [done|].
    destruct (ParseCron expr) as [c|err]; [|done].
    pose proof (wf_register s name (CronJob expr c off) timeout Hw I Hj) as Hr.
    destruct (register _ _ _ _) as [s1 eid]. destruct (wf_start_if_running s1 now eid Hr) as [Hw' ->].
    by split.
  - unfold Start. destruct (running s); [done|]. cbn [alloc].
    destruct (wf_start_all _ now (omap (fun n => jobs s !! n) order ++ omap (fun n => cronJobs s !! n) corder)
      (wf_new_stop s Hw)) as (s' & Hs' & Hw' & _). cbn [fresh stopCh jobs cronJobs entries closed gs] in *.
    rewrite Hs'. by split.
  - destruct (wf_stop_op s Hw) as [Hw' ->]. by split.
  - destruct (wf_remove s name Hw) as (s' & b & -> & Hw'). by split.
  - split; [done|]. by destruct (RunNow s name).
Qed.

Lemma wf_go s i ev s' : wf s -> g_step s i ev = Some s' -> wf s'.
Proof.
  intros Hw. unfold g_step. destruct (gs s !! i) as [g|]; [|done].
  destruct (entries s !! g_entry g) as [e|] eqn:He; [|done].
  assert (forall eid pc s, wf s -> wf (set_pc s i eid pc)) as Hpc by (intros eid pc s0; apply wf_gs).
  assert (forall t, wf (set_next s (g_entry g) e t)) as Hnx by (intros t; by apply wf_next).
  destruct ev, (g_pc g); try done; intros Hs.
  - injection Hs as <-. unfold g_top. destruct (en_kind e); [by apply Hpc|]. case_match; [done|by apply Hpc].
  - destruct (from_option _ _ _); [|done]. injection Hs as <-. by apply Hpc.
  - case_decide; [|done]. injection Hs as <-. by apply Hpc.
  - case_decide; [|done]. injection Hs as <-. by apply Hpc.
  - injection Hs as <-. unfold g_done. apply Hpc. by destruct (en_kind e).
Qed.

Definition ev_ok (ev : sched_event) : Prop :=
  match ev with Op o => op_ok o | Go _ _ => True end.

Lemma wf_run evs s : Forall ev_ok evs -> wf s -> wf (sched_run s evs).
Proof.
  intros Hevs. revert s. induction Hevs as [|ev evs Hev Hevs IH]; intros s Hw; [done|].
  cbn [sched_run foldl]. apply IH. destruct ev as [o|i ev]; cbn [sched_step].
  - by apply wf_op.
  - destruct (g_step s i ev) as [s'|] eqn:Hs; [|done]. cbn. by eapply wf_go.
Qed.

(** What [Start] starts, and from which state. *)
Definition start_eids (s : Scheduler) (order corder : list string) : list nat :=
  (omap (fun n => jobs s !! n) order ++ omap (fun n => cronJobs s !! n) corder)%list.

Definition started (s : Scheduler) : Scheduler :=
  mkScheduler (jobs s) (cronJobs s) (entries s) true (fresh s) (closed s) (S (fresh s)) (gs s).

Lemma Start_state s now order corder :
  running s = false -> (Start s now order corder).1 = (start_all (started s) now (start_eids s order corder)).1.
Proof.
  intros Hrun. unfold Start. rewrite Hrun. cbn [alloc jobs cronJobs entries closed fresh gs].
  fold (started s) (start_eids s order corder). by destruct (start_all _ _ _) as [? []].
Qed.

Lemma start_eids_fresh s order corder :
  wf s -> Forall (fun x => (x < fresh (started s))%nat) (start_eids s order corder).
Proof.
  intros Hw. apply list.Forall_forall. intros x. unfold start_eids.
  rewrite elem_of_app, !list_elem_of_omap.
  assert (forall n, registered s n x -> (x < fresh (started s))%nat) as Hlt.
  { intros n Hr. destruct (wf_registered s Hw _ _ Hr) as (e & He & _). destruct (wf_ids s Hw _ _ He). cbn. lia. }
  intros [(n & _ & Hn)|(n & _ & Hn)]; apply (Hlt n); [by left|by right].
Qed.

(** ** One goroutine for each entry *)

Definition live_at (s : Scheduler) (i eid : nat) : Prop :=
  exists pc, gs s !! i = Some (mkG eid pc) /\ pc <> Exited.

Record single (s : Scheduler) : Prop := {
  single_unique i j eid : live_at s i eid -> live_at s j eid -> i = j;
  single_fresh i eid : live_at s i eid -> (eid < fresh s)%nat
}.

(** The scheduler is started again only when [Stop] has returned nil; the maps
    are ranged over without repetition. *)
Definition ev_clean (s : Scheduler) (ev : sched_event) : Prop :=
  match ev with
  | Op (OpStart _ order corder) =>
      (running s = false -> all_exited s = true) /\ NoDup order /\ NoDup corder
  | _ => True
  end.

Fixpoint run_clean (s : Scheduler) (evs : list sched_event) : Prop :=
  match evs with
  | [] => True
  | ev :: evs => ev_clean s ev /\ run_clean (sched_step s ev) evs
  end.

Lemma live_snoc s s' eid pc i x :
  gs s' = (gs s ++ [mkG eid pc])%list -> live_at s' i x -> live_at s i x \/ (i = length (gs s) /\ x = eid).
Proof.
  intros Hgs (pc' & Hi & Hpc). rewrite Hgs, lookup_app_Some in Hi. destruct Hi as [Hi|[Hl Hi]].
  - left. by exists pc'.
  - right. apply list_lookup_singleton_Some in Hi as [Hi Heq]. injection Heq as <- _. split; [lia|done].
Qed.

Lemma single_snoc s s' eid pc :
  gs s' = (gs s ++ [mkG eid pc])%list -> (fresh s <= fresh s')%nat -> (eid < fresh s')%nat ->
  single s -> (forall i, ~ live_at s i eid) -> single s'.
Proof.
  intros Hgs Hf He [H1 H2] Hn. split.
  - intros i j x Hi Hj.
    destruct (live_snoc _ _ _ _ _ _ Hgs Hi) as [Hi'|[Hi' ->]], (live_snoc _ _ _ _ _ _ Hgs Hj) as [Hj'|[Hj' Hx]];
      [by eapply H1|subst x; by apply Hn in Hi'|by apply Hn in Hj'|congruence].
  - intros i x Hi. destruct (live_snoc _ _ _ _ _ _ Hgs Hi) as [Hi'|[_ ->]]; [|done].
    apply H2 in Hi'. lia.
Qed.

Lemma single_ext s s' : gs s' = gs s -> (fresh s <= fresh s')%nat -> single s -> single s'.
Proof.
  intros Hgs Hf [H1 H2].
  assert (forall i x, live_at s' i x -> live_at s i x) as Hl by (intros i x; unfold live_at; by rewrite Hgs).
  split; [intros i j eid Hi%Hl Hj%Hl; by eapply H1|]. intros i eid Hi%Hl%H2. lia.
Qed.

Lemma start_entry_single s now eid s' :
  start_entry s now eid = Some s' -> (eid < fresh s)%nat -> single s -> (forall i, ~ live_at s i eid) ->
  single s' /\ (fresh s <= fresh s')%nat /\ forall i x, live_at s' i x -> live_at s i x \/ x = eid.
Proof.
  intros Hs He Hsg Hn. unfold start_entry in Hs.
  assert (s' = s \/ exists pc, gs s' = (gs s ++ [mkG eid pc])%list /\ fresh s' = S (fresh s)) as [->|(pc & Hgs & Hf)].
  { destruct (entries s !! eid) as [e|]; [|left; congruence]. right. destruct (en_kind e).
    - unfold startJob in Hs. destruct (_ <=? 0); [done|]. injection Hs as <-. by eexists.
    - injection Hs as <-. by eexists. }
  - split; [done|]. split; [lia|]. by left.
  - split; [eapply single_snoc; [done|lia|lia|done|done]|]. split; [lia|].
    intros i x Hl. destruct (live_snoc _ _ _ _ i x Hgs Hl) as [?|[_ ->]]; [by left|by right].
Qed.

Lemma start_all_single now eids s :
  NoDup eids -> Forall (fun eid => (eid < fresh s)%nat) eids ->
  (forall i eid, eid ∈ eids -> ~ live_at s i eid) -> single s -> single (start_all s now eids).1.
Proof.
  intros Hnd. revert s. induction Hnd as [|eid eids Hin Hnd IH]; intros s Hf Hn Hs; [done|].
  cbn [start_all]. apply Forall_cons_1 in Hf as [Hf Hfs].
  destruct (start_entry s (now eid) eid) as [s1|] eqn:He; [|done].
  destruct (start_entry_single _ _ _ _ He Hf Hs) as (Hs1 & Hle & Hl1); [intros i; apply Hn; by left|].
  apply IH; [|intros i x Hx Hl|done].
  - eapply Forall_impl; [|exact Hfs]. cbn. intros x Hx. lia.
  - destruct (Hl1 _ _ Hl) as [Hl'| ->]; [|done]. apply (Hn i x); [by right|done].
Qed.

(** The entries started by [Start] are different ones. *)
Lemma registered_NoDup (m : gmap string nat) order :
  (forall n1 n2 eid, m !! n1 = Some eid -> m !! n2 = Some eid -> n1 = n2) ->
  NoDup order -> NoDup (omap (fun n => m !! n) order).
Proof.
  intros Hinj. induction 1 as [|n order Hin Hnd IH]; cbn; [constructor|].
  destruct (m !! n) as [eid|] eqn:Hn; [|done]. constructor; [|done].
  rewrite list_elem_of_omap. intros (n' & Hn' & Heq). apply Hin. by rewrite (Hinj _ _ _ Hn Heq).
Qed.

Lemma start_eids_NoDup s order corder :
  wf s -> NoDup order -> NoDup corder -> NoDup (start_eids s order corder).
Proof.
  intros Hw Ho Hc. apply list.NoDup_app. split; [|split].
  - apply registered_NoDup; [|done]. intros n1 n2 eid H1 H2.
    eapply (registered_name s); [done|by left|by left].
  - intros eid. rewrite !list_elem_of_omap. intros (n & _ & Hn) (n' & _ & Hn').
    assert (n = n') as <- by (eapply (registered_name s); [done|by left|by right]).
    by apply (wf_apart s Hw _ _ Hn).
  - apply registered_NoDup; [|done]. intros n1 n2 eid H1 H2.
    eapply (registered_name s); [done|by right|by right].
Qed.

Lemma all_exited_live s i eid : all_exited s = true -> ~ live_at s i eid.
Proof.
  unfold all_exited. rewrite forallb_forall. intros Ha (pc & Hi & Hpc). apply Hpc.
  apply list_elem_of_lookup_2, list_elem_of_In, Ha in Hi. by apply bool_decide_eq_true_1 in Hi.
Qed.

Lemma single_op s o :
  wf s -> single s -> op_ok o -> ev_clean s (Op o) -> single (apply_op s o).1.
Proof.
  intros Hw Hs Ho Hc.
  assert (forall name kind timeout now,
    single (start_if_running (register s name kind timeout).1 now (register s name kind timeout).2).1) as Hadd.
  { intros name kind timeout now. set (s1 := (register s name kind timeout).1).
    assert (gs s1 = gs s /\ fresh s1 = S (S (fresh s)) /\ (register s name kind timeout).2 = S (fresh s))
      as (Hg & Hf & ->) by done.
    assert (single s1) as Hs1 by (eapply single_ext; [exact Hg|lia|done]).
    assert (forall i, ~ live_at s1 i (S (fresh s))) as Hn.
    { intros i Hl. unfold live_at in Hl. rewrite Hg in Hl. apply (single_fresh s Hs) in Hl. lia. }
    unfold start_if_running. destruct (running s1); [|done].
    destruct (start_entry s1 now (S (fresh s))) as [s2|] eqn:He; [|done].
    eapply (start_entry_single _ _ _ _ He); [lia|done|done]. }
  destruct o as [now name d im timeout|now name expr off timeout|now order corder| |name|name]; cbn [apply_op].
  - unfold Add. destruct (String.eqb name ""); [done|]. destruct (jobs s !! name); [done|]. apply Hadd.
  - unfold AddCron. destruct (String.eqb name ""); [done|]. destruct (cronJobs s !! name); [done|].
    destruct (ParseCron expr); [|done]. apply Hadd.
  - destruct (running s) eqn:Hrun; [unfold Start; by rewrite Hrun|].
    destruct Hc as (Hex & Ho1 & Ho2). rewrite Start_state by done. apply start_all_single.
    + by apply start_eids_NoDup.
    + by apply start_eids_fresh.
    + intros i eid _. by apply (all_exited_live s), Hex.
    + eapply single_ext; [|..|exact Hs]; cbn; [done|lia].
  - assert (forall s', gs s' = gs s -> fresh s' = fresh s -> single s') as Hext
      by (intros s' Hg Hf; eapply single_ext; [exact Hg|lia|done]).
    apply Hext; unfold Stop, close_chan; repeat (case_match; simplify_eq/=); done.
  - assert (forall s', gs s' = gs s -> fresh s' = fresh s -> single s') as Hext
      by (intros s' Hg Hf; eapply single_ext; [exact Hg|lia|done]).
    apply Hext; unfold Remove, remove_entry, close_chan; repeat (case_match; simplify_eq/=); done.
  - done.
Qed.

Lemma live_set s s' i eid pc j x :
  gs s' = <[i := mkG eid pc]> (gs s) -> (i < length (gs s))%nat -> live_at s' j x ->
  (j = i /\ x = eid) \/ live_at s j x.
Proof.
  intros Hgs Hi (pc' & Hj & Hpc). rewrite Hgs in Hj. destruct (decide (i = j)) as [<-|Hne].
  - rewrite list_lookup_insert_eq in Hj by done. left. split; [done|]. congruence.
  - rewrite list_lookup_insert_ne in Hj by done. right. by exists pc'.
Qed.

Lemma single_set s s' i eid pc pc' :
  gs s' = <[i := mkG eid pc']> (gs s) -> fresh s' = fresh s ->
  gs s !! i = Some (mkG eid pc) -> pc <> Exited -> single s -> single s'.
Proof.
  intros Hgs Hf Hi Hpc [H1 H2].
  assert ((i < length (gs s))%nat) as Hlt by (by eapply lookup_lt_Some).
  assert (live_at s i eid) as Hl by (by exists pc).
  assert (forall j x, live_at s' j x -> live_at s j x) as Hback.
  { intros j x Hj. by destruct (live_set _ _ _ _ _ _ _ Hgs Hlt Hj) as [[-> ->]|?]. }
  split; [intros a b x Ha%Hback Hb%Hback; by eapply H1|]. intros a x Ha%Hback%H2. lia.
Qed.

Lemma single_go s i ev s' : single s -> g_step s i ev = Some s' -> single s'.
Proof.
  intros Hs. unfold g_step. destruct (gs s !! i) as [[eid pc]|] eqn:Hi; [|done]. cbn [g_entry g_pc].
  destruct (entries s !! eid) as [e|]; [|done].
  assert (forall s0 pc', gs s0 = gs s -> fresh s0 = fresh s -> pc <> Exited -> single (set_pc s0 i eid pc')) as Hset.
  { intros s0 pc' Hg Hf Hpc. eapply (single_set s); [cbn; by rewrite Hg|done|exact Hi|done|done]. }
  destruct ev, pc; try done; intros Hst.
  - injection Hst as <-. unfold g_top. destruct (en_kind e); [by apply Hset|]. case_match; [|by apply Hset].
    eapply single_ext; [|..|exact Hs]; [done|cbn; lia].
  - destruct (from_option _ _ _); [|done]. injection Hst as <-. by apply Hset.
  - case_decide; [|done]. injection Hst as <-. by apply Hset.
  - case_decide; [|done]. injection Hst as <-. by apply Hset.
  - injection Hst as <-. unfold g_done. destruct (en_kind e); by apply Hset.
Qed.

Lemma single_run evs s :
  Forall ev_ok evs -> run_clean s evs -> wf s -> single s -> single (sched_run s evs).
Proof.
  intros Hevs. revert s. induction Hevs as [|ev evs Hev Hevs IH]; intros s Hc Hw Hs; [done|].
  destruct Hc as [Hc1 Hc2]. cbn [sched_run foldl]. apply IH; [done| |].
  - change (sched_step s ev) with (sched_run s [ev]). apply wf_run; [by repeat constructor|done].
  - destruct ev as [o|i ev]; cbn [sched_step].
    + by apply single_op.
    + destruct (g_step s i ev) as [s'|] eqn:Hst; [|done]. cbn. by eapply single_go.
Qed.

(** ** A cron job that never fires *)

Section spin.
Context (c : CronExpr) (off : Z) (Hnever : forall now, Next c off now = Some zero_time).

(** The goroutine is at the top of its loop, and its next time is the zero time. *)
Definition spinning (i eid : nat) (s : Scheduler) : Prop :=
  gs s !! i = Some (mkG eid Top) /\ (eid < fresh s)%nat /\
  exists e expr, entries s !! eid = Some e /\ en_kind e = CronJob expr c off /\ en_next e = zero_time.

Lemma cron_next_never now : cron_next c off now = zero_time.
Proof. unfold cron_next. by rewrite Hnever. Qed.

Lemma spinning_ext i eid s s' :
  (exists l, gs s' = (gs s ++ l)%list) -> (fresh s <= fresh s')%nat -> entries s' !! eid = entries s !! eid ->
  spinning i eid s -> spinning i eid s'.
Proof.
  intros [l Hg] Hf He (Hi & Hlt & e & expr & Hs). split; [|split; [lia|]].
  - rewrite Hg. by apply lookup_app_l_Some.
  - rewrite He. eauto.
Qed.

Lemma spinning_start_entry i eid s now x s' :
  start_entry s now x = Some s' -> (x < fresh s)%nat -> spinning i eid s ->
  spinning i eid s' /\ (fresh s <= fresh s')%nat.
Proof.
  unfold start_entry. destruct (entries s !! x) as [ex|] eqn:Hx; [|intros [= <-]; split; [done|lia]].
  intros Hst Hlt Hs. destruct (decide (x = eid)) as [->|Hne].
  - destruct Hs as (Hi & Hlt' & e & expr & He & Hk & Hn). assert (ex = e) by congruence. subst ex.
    rewrite Hk in Hst. injection Hst as <-. split; [|cbn; lia].
    split; [cbn; by apply lookup_app_l_Some|]. split; [cbn; lia|].
    eexists _, expr. cbn. rewrite lookup_insert_eq. split; [done|]. cbn. split; [done|apply cron_next_never].
  - assert ((exists l, gs s' = (gs s ++ l)%list) /\ (fresh s <= fresh s')%nat /\ entries s' !! eid = entries s !! eid)
      as (Hg & Hf & He); [|split; [by eapply spinning_ext|done]].
    destruct (en_kind ex).
    + unfold startJob in Hst. destruct (_ <=? 0); [done|]. injection Hst as <-. cbn.
      rewrite lookup_insert_ne by done. split; [eauto|split; [lia|done]].
    + injection Hst as <-. cbn. rewrite lookup_insert_ne by done. split; [eauto|split; [lia|done]].
Qed.

Lemma spinning_start_all i eid now xs s :
  Forall (fun x => (x < fresh s)%nat) xs -> spinning i eid s -> spinning i eid (start_all s now xs).1.
Proof.
  revert s. induction xs as [|x xs IH]; intros s Hf Hs; [done|]. cbn [start_all].
  apply Forall_cons_1 in Hf as [Hx Hxs]. destruct (start_entry s (now x) x) as [s1|] eqn:He; [|done].
  destruct (spinning_start_entry _ _ _ _ _ _ He Hx Hs) as [Hs1 Hle]. apply IH; [|done].
  eapply Forall_impl; [|exact Hxs]. cbn. intros y Hy. lia.
Qed.

Lemma spinning_op i eid s o : wf s -> spinning i eid s -> spinning i eid (apply_op s o).1.
Proof.
  intros Hw Hs.
  assert (forall name kind timeout now,
    spinning i eid (start_if_running (register s name kind timeout).1 now (register s name kind timeout).2).1) as Hadd.
  { intros name kind timeout now. set (s1 := (register s name kind timeout).1).
    assert (gs s1 = gs s /\ fresh s1 = S (S (fresh s)) /\ (register s name kind timeout).2 = S (fresh s) /\
      entries s1 !! eid = entries s !! eid) as (Hg & Hf & -> & He).
    { repeat split. unfold s1, register. cbn. rewrite lookup_insert_ne; [done|]. destruct Hs as (_ & Hlt & _). lia. }
    assert (spinning i eid s1) as Hs1.
    { eapply spinning_ext; [..|exact Hs]; [exists []; by rewrite app_nil_r|lia|done]. }
    unfold start_if_running. destruct (running s1); [|done].
    destruct (start_entry s1 now (S (fresh s))) as [s2|] eqn:Hst; [|done].
    eapply (spinning_start_entry i eid _ _ _ _ Hst); [lia|done]. }
  assert (forall s', gs s' = gs s -> (fresh s <= fresh s')%nat -> entries s' = entries s -> spinning i eid s') as Hext.
  { intros s' Hg Hf He. eapply spinning_ext; [..|exact Hs]; [exists []; by rewrite app_nil_r|lia|by rewrite He]. }
  destruct o as [now name d im timeout|now name expr o timeout|now order corder| |name|name]; cbn [apply_op].
  - unfold Add. destruct (String.eqb name ""); [done|]. destruct (jobs s !! name); [done|]. apply Hadd.
  - unfold AddCron. destruct (String.eqb name ""); [done|]. destruct (cronJobs s !! name); [done|].
    destruct (ParseCron expr); [|done]. apply Hadd.
  - destruct (running s) eqn:Hrun; [unfold Start; by rewrite Hrun|].
    rewrite Start_state by done. apply spinning_start_all; [by apply start_eids_fresh|].
    apply Hext; [done|cbn; lia|done].
  - apply Hext; unfold Stop, close_chan; repeat (case_match; simplify_eq/=); done.
  - apply Hext; unfold Remove, remove_entry, close_chan; repeat (case_match; simplify_eq/=); done.
  - done.
Qed.

(** The clock reads a time after year 1. *)
Definition ev_clock (ev : sched_event) : Prop :=
  match ev with Go _ (AtTop now) => zero_time < now | _ => True end.

Lemma spinning_go i eid s j ev :
  ev_clock (Go j ev) -> spinning i eid s -> spinning i eid (default s (g_step s j ev)).
Proof.
  intros Hev Hs. destruct (g_step s j ev) as [s'|] eqn:Hst; [|done]. cbn.
  pose proof Hs as (Hi & Hlt & e & expr & He & Hk & Hn). unfold g_step in Hst.
  destruct (gs s !! j) as [[x pc]|] eqn:Hj; [|done]. cbn [g_entry g_pc] in Hst.
  destruct (entries s !! x) as [ex|] eqn:Hx; [|done].
  assert (forall pc', j <> i -> spinning i eid (set_pc s j x pc')) as Hpc.
  { intros pc' Hne. split; [cbn; by rewrite list_lookup_insert_ne|]. split; [done|]. cbn. eauto. }
  assert (forall now expr' c' off', en_kind ex = CronJob expr' c' off' ->
    spinning i eid (set_next s x ex (cron_next c' off' now))) as Hnext.
  { intros now expr' c' off' Hkx. split; [done|]. split; [done|]. cbn. destruct (decide (x = eid)) as [->|Hne].
    - assert (ex = e) by congruence. subst ex. rewrite Hk in Hkx. simplify_eq. rewrite lookup_insert_eq.
      eexists _, _. split; [done|]. cbn. split; [done|apply cron_next_never].
    - rewrite lookup_insert_ne by done. eauto. }
  destruct ev, pc; try done; assert (j <> i \/ j = i) as [Hne|Heq] by lia;
    try (subst j; rewrite Hi in Hj; simplify_eq; fail).
  - injection Hst as <-. unfold g_top. destruct (en_kind ex) as [|expr' c' off'] eqn:Hkx; [by apply Hpc|].
    case_match; [by eapply Hnext|by apply Hpc].
  - subst j. rewrite Hi in Hj. injection Hj as <-. assert (ex = e) by congruence. subst ex.
    injection Hst as <-. unfold g_top. rewrite Hk, Hn.
    assert ((time_Sub zero_time now <? 0) = true) as -> by (cbn in Hev; unfold time_Sub, min_int64, max_int64; lia).
    by eapply Hnext.
  - destruct (from_option _ _ _); [|done]. injection Hst as <-. by apply Hpc.
  - case_decide; [|done]. injection Hst as <-. by apply Hpc.
  - case_decide; [|done]. injection Hst as <-. by apply Hpc.
  - injection Hst as <-. unfold g_done. destruct (en_kind ex) as [|expr' c' off'] eqn:Hkx; [by apply Hpc|].
    destruct (Hnext now expr' c' off' eq_refl) as (H1 & H2 & H3).
    split; [cbn; by rewrite list_lookup_insert_ne|]. split; [done|exact H3].
Qed.

Lemma spinning_run i eid evs s :
  Forall ev_ok evs -> Forall ev_clock evs -> wf s -> spinning i eid s -> spinning i eid (sched_run s evs).
Proof.
  intros Hok. revert s. induction Hok as [|ev evs Hev Hok IH]; intros s Hc Hw Hs; [done|].
  apply Forall_cons_1 in Hc as [Hc1 Hc2]. cbn [sched_run foldl]. apply IH; [done| |].
  - change (sched_step s ev) with (sched_run s [ev]). apply wf_run; [by repeat constructor|done].
  - destruct ev as [o|j ev]; cbn [sched_step]; [by apply spinning_op|by apply spinning_go].
Qed.
End spin.

(** ** The times of a cron job *)

Section timing.
Context (c : CronExpr) (off : Z) (Hoff : off mod 3600 = 0) (Hwf : cron_wf c).

Lemma cron_next_spec now :
  cron_next c off now = zero_time \/
  (now < cron_next c off now < now + 1862 * (24 * Hour) /\ fires c off (cron_next c off now) = true).
Proof.
  unfold cron_next. destruct (Next_first c off now Hoff Hwf) as (r & Hr & [[-> _]|(Hf & Hlt & _)]);
    rewrite Hr; cbn [default]; [by left|].
  destruct (Next_bound c off now r Hwf Hr) as [->|Hb]; [by left|]. right. cbn. auto.
Qed.

(** The goroutine between two steps; [last] is when its last execution started,
    [lo] what the clock read last. *)
Definition timing_inv (i eid : nat) (last lo : Time) (s : Scheduler) : Prop :=
  zero_time < lo /\ last <= lo /\
  exists pc e expr, gs s !! i = Some (mkG eid pc) /\ entries s !! eid = Some e /\
    en_kind e = CronJob expr c off /\
    match pc with
    | Top => en_next e = zero_time \/
        (last < en_next e < lo + 1862 * (24 * Hour) /\ fires c off (en_next e) = true)
    | Select _ _ deadline => deadline = Some (en_next e) /\ last < en_next e /\ fires c off (en_next e) = true
    | Exec | Exited => True
    end.

Lemma timing_step i eid last lo s ev s' :
  timing_inv i eid last lo s -> g_step s i ev = Some s' ->
  (forall now, event_time ev = Some now -> lo <= now) ->
  match ev with
  | Tick now => last < due s i /\ due s i <= now /\ fires c off (due s i) = true /\ timing_inv i eid now now s'
  | _ => timing_inv i eid last (default lo (event_time ev)) s'
  end.
Proof.
  intros (Hz & Hlast & pc & e & expr & Hi & He & Hk & Hpc) Hst Hnow.
  unfold g_step in Hst. rewrite Hi in Hst. cbn [g_entry g_pc] in Hst. rewrite He in Hst.
  assert ((i < length (gs s))%nat) as Hlt by (by eapply lookup_lt_Some).
  assert (forall s0, gs s0 = gs s -> forall pc', gs (set_pc s0 i eid pc') !! i = Some (mkG eid pc')) as Hset
    by (intros s0 Hg pc'; cbn; rewrite Hg; by rewrite list_lookup_insert_eq).
  destruct ev as [now|now| | |now], pc as [|ech sch deadline| |]; try done; cbn [event_time default from_option id] in *.
  - specialize (Hnow now eq_refl). injection Hst as <-. unfold g_top. rewrite Hk.
    destruct (time_Sub (en_next e) now <? 0) eqn:Hw.
    + split; [lia|]. split; [lia|].
      exists Top, (mkEntry (en_name e) (en_kind e) (en_timeout e) (en_stop e) (cron_next c off now)), expr.
      split; [done|]. split; [cbn; by rewrite lookup_insert_eq|]. split; [done|]. cbn [en_next].
      destruct (cron_next_spec now) as [->|[Hb Hf]]; [by left|right]. split; [lia|done].
    + split; [lia|]. split; [lia|]. eexists _, e, expr. split; [by apply Hset|]. split; [done|]. split; [done|].
      cbn beta iota. destruct Hpc as [Hpc|[Hb Hf]].
      * rewrite Hpc in Hw. unfold time_Sub, min_int64, max_int64 in Hw. lia.
      * split; [|split; [lia|done]]. f_equal. unfold time_Add. rewrite time_Sub_exact; [lia|].
        unfold time_Sub, in_int64, min_int64, max_int64, Hour in *. lia.
  - destruct Hpc as (-> & Hl & Hf). cbn [from_option] in Hst. specialize (Hnow now eq_refl).
    destruct (en_next e <=? now) eqn:Hd; [|done]. injection Hst as <-.
    assert (due s i = en_next e) as -> by (unfold due; rewrite Hi; cbn; by rewrite He).
    split; [done|]. split; [lia|]. split; [done|]. split; [lia|]. split; [lia|].
    eexists _, e, expr. split; [by apply Hset|]. done.
  - case_decide; [|done]. injection Hst as <-. split; [done|]. split; [done|].
    eexists _, e, expr. split; [by apply Hset|]. done.
  - case_decide; [|done]. injection Hst as <-. split; [done|]. split; [done|].
    eexists _, e, expr. split; [by apply Hset|]. done.
  - specialize (Hnow now eq_refl). injection Hst as <-. unfold g_done. rewrite Hk.
    split; [lia|]. split; [lia|].
    exists Top, (mkEntry (en_name e) (en_kind e) (en_timeout e) (en_stop e) (cron_next c off now)), expr.
    split; [by apply Hset|]. split; [cbn; by rewrite lookup_insert_eq|]. split; [done|]. cbn [en_next].
    destruct (cron_next_spec now) as [->|[Hb Hf]]; [by left|right]. split; [lia|done].
Qed.

Lemma timing_mono i eid last lo hi s : lo <= hi -> timing_inv i eid last lo s -> timing_inv i eid last hi s.
Proof.
  intros Hlo (Hz & Hl & pc & e & expr & Hi & He & Hk & Hpc). split; [lia|]. split; [lia|]. exists pc, e, expr.
  repeat split; try done. destruct pc; try done. destruct Hpc as [?|[Hb ?]]; [by left|right]. split; [lia|done].
Qed.
End timing.

(** ** A goroutine among the others *)

Definition crons (s : Scheduler) : Prop :=
  forall eid e expr c off, entries s !! eid = Some e -> en_kind e = CronJob expr c off -> off mod 3600 = 0 /\ cron_wf c.

(** Goroutine [i], if it has been started and serves a cron job, is on schedule. *)
Definition watched (i : nat) (last lo : Time) (s : Scheduler) : Prop :=
  zero_time < lo /\ last <= lo /\
  forall g, gs s !! i = Some g ->
    exists e, entries s !! g_entry g = Some e /\
      forall expr c off, en_kind e = CronJob expr c off -> timing_inv c off i (g_entry g) last lo s.

Lemma watched_mono i last lo hi s : lo <= hi -> watched i last lo s -> watched i last hi s.
Proof.
  intros Hlo (Hz & Hl & Hw). split; [lia|]. split; [lia|]. intros g Hg. destruct (Hw g Hg) as (e & He & Ht).
  exists e. split; [done|]. intros expr c off Hk. eapply timing_mono; [exact Hlo|by eapply Ht].
Qed.

(** A step that leaves the goroutine alone, and its entry while it lives. *)
Lemma watched_other i last lo s s' :
  gs s' !! i = gs s !! i -> (forall eid, live_at s i eid -> entries s' !! eid = entries s !! eid) ->
  (forall eid e, entries s !! eid = Some e -> exists e', entries s' !! eid = Some e' /\ en_kind e' = en_kind e) ->
  watched i last lo s -> watched i last lo s'.
Proof.
  intros Hi Hlive Hkind (Hz & Hl & Hw). split; [done|]. split; [done|]. intros g Hg. rewrite Hi in Hg.
  destruct (Hw g Hg) as (e & He & Ht). destruct g as [eid pc]. cbn [g_entry] in *.
  assert (pc = Exited \/ pc <> Exited) as [->|Hne] by (destruct pc; auto).
  - destruct (Hkind _ _ He) as (e' & He' & Hke). exists e'. split; [done|]. intros expr c off Hk.
    split; [done|]. split; [done|]. exists Exited, e', expr. by rewrite Hi.
  - assert (live_at s i eid) as Hla by by exists pc. exists e. rewrite (Hlive _ Hla). split; [done|].
    intros expr c off Hk. destruct (Ht expr c off Hk) as (_ & _ & pc' & e' & expr' & Hi' & He' & Hk' & Hpc).
    split; [done|]. split; [done|]. exists pc', e', expr'. by rewrite Hi, (Hlive _ Hla).
Qed.

Lemma watched_same i last lo s s' : gs s' = gs s -> entries s' = entries s -> watched i last lo s -> watched i last lo s'.
Proof.
  intros Hg He. apply watched_other; [by rewrite Hg|by rewrite He|]. rewrite He. eauto.
Qed.

(** An entry of which the kind stays. *)
Lemma entry_kept (m : gmap nat entry) x e e' :
  m !! x = Some e -> en_kind e' = en_kind e ->
  forall eid y, m !! eid = Some y -> exists y', <[x := e']> m !! eid = Some y' /\ en_kind y' = en_kind y.
Proof.
  intros Hx Hk eid y Hy. destruct (decide (x = eid)) as [<-|Hne].
  - exists e'. rewrite lookup_insert_eq. split; [done|]. congruence.
  - exists y. by rewrite lookup_insert_ne.
Qed.

Lemma crons_insert s s' x e :
  entries s' = <[x := e]> (entries s) ->
  (forall expr c off, en_kind e = CronJob expr c off -> off mod 3600 = 0 /\ cron_wf c) -> crons s -> crons s'.
Proof.
  intros He Hk Hc eid y expr c off. rewrite He, lookup_insert_Some. intros [[_ <-]|[_ Hy]]; [apply Hk|by eapply Hc].
Qed.

(** What [start_entry] does to goroutines and entries. *)
Lemma start_entry_shape s t x s' :
  start_entry s t x = Some s' ->
  s' = s \/ exists e pc nx, entries s !! x = Some e /\ gs s' = (gs s ++ [mkG x pc])%list /\
    entries s' = <[x := mkEntry (en_name e) (en_kind e) (en_timeout e) (fresh s) nx]> (entries s) /\
    match en_kind e with Interval _ _ => True | CronJob _ c off => pc = Top /\ nx = cron_next c off t end.
Proof.
  unfold start_entry. destruct (entries s !! x) as [e|] eqn:He; [|intros [= <-]; by left]. intros Hs. right. exists e.
  destruct (en_kind e) as [d im|expr c off] eqn:Hk.
  - unfold startJob in Hs. destruct (d <=? 0); [done|]. injection Hs as <-. eexists _, _. cbn. by rewrite Hk.
  - injection Hs as <-. eexists _, _. cbn. by rewrite Hk.
Qed.

Lemma watched_start_entry i last lo s t x s' :
  start_entry s t x = Some s' -> crons s -> last <= t <= lo -> ~ live_at s i x ->
  watched i last lo s -> watched i last lo s' /\ crons s'.
Proof.
  intros Hs Hc Ht Hn Hw.
  destruct (start_entry_shape _ _ _ _ Hs) as [->|(e & pc & nx & He & Hg & Hes & Hpc)]; [done|].
  assert (crons s') as Hc' by (eapply crons_insert; [exact Hes| |done]; intros expr c off Hk; by eapply Hc).
  split; [|done]. destruct (decide (i = length (gs s))) as [->|Hne].
  - destruct Hw as (Hz & Hl & _). split; [done|]. split; [done|]. intros g. rewrite Hg.
    rewrite lookup_app_r, Nat.sub_diag by lia. intros [= <-]. cbn [g_entry].
    eexists. rewrite Hes, lookup_insert_eq. split; [reflexivity|]. cbn [en_kind]. intros expr c off Hk. rewrite Hk in Hpc.
    destruct Hpc as [-> ->]. destruct (Hc _ _ _ _ _ He Hk) as [Hoff Hwf]. split; [done|]. split; [done|].
    exists Top. eexists _, expr. rewrite Hg, Hes, lookup_insert_eq, lookup_app_r, Nat.sub_diag by lia.
    split; [done|]. split; [done|]. split; [done|]. cbn [en_next].
    destruct (cron_next_spec c off Hoff Hwf t) as [->|[Hb Hf]]; [by left|right]. split; [lia|done].
  - apply (watched_other i last lo s); [| | |done].
    + rewrite Hg. destruct (decide (i < length (gs s))%nat); [by rewrite lookup_app_l|].
      rewrite lookup_ge_None_2 by (rewrite length_app; cbn; lia). by rewrite lookup_ge_None_2 by lia.
    + intros eid Hla. rewrite Hes, lookup_insert_ne; [done|]. by intros ->.
    + rewrite Hes. by apply (entry_kept _ _ e).
Qed.

Lemma watched_start_all i last lo now eids s :
  NoDup eids -> Forall (fun eid => (eid < fresh s)%nat) eids -> (forall j eid, eid ∈ eids -> ~ live_at s j eid) ->
  single s -> crons s -> (forall eid, last <= now eid <= lo) -> watched i last lo s ->
  watched i last lo (start_all s now eids).1 /\ crons (start_all s now eids).1.
Proof.
  intros Hnd. revert s. induction Hnd as [|eid eids Hin Hnd IH]; intros s Hf Hn Hs Hc Hnow Hw; [done|].
  cbn [start_all]. apply Forall_cons_1 in Hf as [Hf Hfs].
  destruct (start_entry s (now eid) eid) as [s1|] eqn:He; [|done].
  destruct (start_entry_single _ _ _ _ He Hf Hs) as (Hs1 & Hle & Hl1); [intros j; apply Hn; by left|].
  destruct (watched_start_entry i last lo s (now eid) eid s1 He Hc (Hnow eid)) as [Hw1 Hc1]; [apply Hn; by left|done|].
  apply IH; try done.
  - eapply Forall_impl; [|exact Hfs]. cbn. intros x Hx. lia.
  - intros j x Hx Hl. destruct (Hl1 _ _ Hl) as [Hl'| ->]; [|done]. apply (Hn j x); [by right|done].
Qed.

(** A new entry, started at once in a running scheduler. *)
Lemma watched_add i last lo s name kind timeout now :
  wf s -> single s -> crons s -> last <= now <= lo ->
  (forall expr c off, kind = CronJob expr c off -> off mod 3600 = 0 /\ cron_wf c) -> watched i last lo s ->
  let s' := (start_if_running (register s name kind timeout).1 now (register s name kind timeout).2).1 in
  watched i last lo s' /\ crons s'.
Proof.
  intros Hwf Hs Hc Hnow Hk Hw s'. subst s'. set (s1 := (register s name kind timeout).1).
  assert (gs s1 = gs s /\ (register s name kind timeout).2 = S (fresh s) /\
    entries s1 = <[S (fresh s) := mkEntry name kind (timeout_or_default timeout) (fresh s) zero_time]> (entries s))
    as (Hg & -> & He) by done.
  assert (forall eid e, entries s !! eid = Some e -> S (fresh s) <> eid) as Hnew
    by (intros eid e Hx; destruct (wf_ids s Hwf _ _ Hx); lia).
  assert (crons s1) as Hc1 by (eapply crons_insert; [exact He|exact Hk|done]).
  assert (watched i last lo s1) as Hw1.
  { apply (watched_other i last lo s); [by rewrite Hg| | |done].
    - intros eid Hl. rewrite He, lookup_insert_ne; [done|]. pose proof (single_fresh s Hs _ _ Hl). lia.
    - intros eid e Hx. rewrite He, lookup_insert_ne by eauto. eauto. }
  unfold start_if_running. destruct (running s1); [|done].
  destruct (start_entry s1 now (S (fresh s))) as [s2|] eqn:Hst; [|done].
  apply (watched_start_entry i last lo s1 now _ s2 Hst Hc1 Hnow); [|done].
  intros Hl. unfold live_at in Hl. rewrite Hg in Hl. apply (single_fresh s Hs) in Hl. lia.
Qed.

Lemma watched_op i last lo hi s o :
  wf s -> single s -> crons s -> ev_clean s (Op o) -> ev_cron (Op o) -> lo <= hi -> ev_reads (Op o) lo hi ->
  watched i last lo s -> watched i last hi (apply_op s o).1 /\ crons (apply_op s o).1.
Proof.
  intros Hwf Hs Hc Hcl Hcr Hlo Hr Hw. pose proof Hw as (_ & Hl & _). apply (watched_mono _ _ _ hi) in Hw; [|done].
  assert (forall s', gs s' = gs s -> entries s' = entries s -> watched i last hi s' /\ crons s') as Hsame.
  { intros s' Hg He. split; [by apply (watched_same i last hi s)|]. unfold crons. by rewrite He. }
  destruct o as [now name d im timeout|now name expr off timeout|now order corder| |name|name]; cbn [apply_op ev_reads] in *.
  - unfold Add. destruct (String.eqb name ""); [done|]. destruct (jobs s !! name); [done|].
    apply (watched_add i last hi s); try done. lia.
  - unfold AddCron. destruct (String.eqb name ""); [done|]. destruct (cronJobs s !! name); [done|].
    destruct (ParseCron expr) as [c|] eqn:Hp; [|done]. destruct Hcr as [Hoff Hst].
    apply (watched_add i last hi s); try done; [lia|]. intros expr' c' off' [= <- <- <-]. split; [done|]. by eapply ParseCron_ok.
  - destruct (running s) eqn:Hrun; [unfold Start; by rewrite Hrun|]. destruct Hcl as (Hex & Ho1 & Ho2). rewrite Start_state by done.
    assert (watched i last hi (started s) /\ crons (started s)) as [Hw' Hc'] by by apply Hsame.
    apply watched_start_all; try done.
    + by apply start_eids_NoDup.
    + by apply start_eids_fresh.
    + intros j eid _. by apply (all_exited_live s), Hex.
    + eapply single_ext; [|..|exact Hs]; cbn; [done|lia].
    + intros eid. specialize (Hr eid). lia.
  - apply Hsame; unfold Stop, close_chan; repeat (case_match; simplify_eq/=); done.
  - apply Hsame; unfold Remove, remove_entry, close_chan; repeat (case_match; simplify_eq/=); done.
  - done.
Qed.

(** What a step of a goroutine does to goroutines and entries. *)
Lemma g_step_shape s j ev s' :
  g_step s j ev = Some s' ->
  exists eid pc e pc', gs s !! j = Some (mkG eid pc) /\ pc <> Exited /\ entries s !! eid = Some e /\
    gs s' = <[j := mkG eid pc']> (gs s) /\ exists e', entries s' = <[eid := e']> (entries s) /\ en_kind e' = en_kind e.
Proof.
  unfold g_step. destruct (gs s !! j) as [[eid pc]|] eqn:Hj; [|done]. cbn [g_entry g_pc].
  destruct (entries s !! eid) as [e|] eqn:He; [|done]. intros Hst. exists eid, pc, e.
  assert (entries s = <[eid := e]> (entries s)) as Hkeep by by rewrite insert_id.
  assert (forall s1 pc', pc <> Exited -> s1 = set_pc s j eid pc' -> pc <> Exited /\ gs s1 = <[j := mkG eid pc']> (gs s) /\
    exists e', entries s1 = <[eid := e']> (entries s) /\ en_kind e' = en_kind e) as Hset
    by (intros s1 pc' Hne ->; repeat split; [done|]; by exists e).
  assert (forall s1, (exists pc', pc <> Exited /\ gs s1 = <[j := mkG eid pc']> (gs s) /\
      exists e', entries s1 = <[eid := e']> (entries s) /\ en_kind e' = en_kind e) ->
    exists pc', Some (mkG eid pc) = Some (mkG eid pc) /\ pc <> Exited /\ Some e = Some e /\ gs s1 = <[j := mkG eid pc']> (gs s) /\
      exists e', entries s1 = <[eid := e']> (entries s) /\ en_kind e' = en_kind e) as Hgoal
    by (intros s1 (pc' & H1 & H2 & H3); exists pc'; done).
  rewrite He. apply Hgoal. clear Hgoal. destruct ev, pc; try done.
  - injection Hst as <-. unfold g_top. destruct (en_kind e) eqn:Hk; [eexists; by apply Hset|]. case_match; [|eexists; by apply Hset].
    exists Top. split; [done|]. split; [cbn; by rewrite list_insert_id|]. eexists. split; [reflexivity|done].
  - destruct (from_option _ _ _); [|done]. injection Hst as <-. eexists. by apply Hset.
  - case_decide; [|done]. injection Hst as <-. eexists. by apply Hset.
  - case_decide; [|done]. injection Hst as <-. eexists. by apply Hset.
  - injection Hst as <-. unfold g_done. destruct (en_kind e) eqn:Hk; [eexists; by apply Hset|].
    exists Top. split; [done|]. split; [done|]. eexists. split; [reflexivity|done].
Qed.

(** After a step that executed nothing for goroutine [i] or, with the execution
    on schedule, the job once. *)
Definition after_step (i : nat) (last hi : Time) (s' : Scheduler) (xs : list execution) : Prop :=
  match xs with
  | [] => watched i last hi s'
  | x :: _ => last < x_due x /\ x_due x <= x_start x /\ fires (x_cron x) (x_off x) (x_due x) = true /\ watched i (x_start x) hi s'
  end.

Lemma watched_go i last lo hi s j ev :
  single s -> crons s -> lo <= hi -> ev_reads (Go j ev) lo hi -> watched i last lo s ->
  let s' := default s (g_step s j ev) in after_step i last hi s' (cron_tick s i (Go j ev)) /\ crons s'.
Proof.
  intros Hs Hc Hlo Hr Hw. destruct (g_step s j ev) as [s'|] eqn:Hst; cbn [default from_option id].
  2:{ split; [|done]. assert (cron_tick s i (Go j ev) = []) as ->; [|by eapply watched_mono].
      unfold cron_tick. destruct ev; try done. destruct (decide (j = i)) as [->|]; [|done]. by rewrite Hst. }
  destruct (g_step_shape _ _ _ _ Hst) as (eid & pc & e & pc' & Hj & Hne & He & Hg & e' & Hes & Hke).
  assert (crons s') as Hc' by (eapply crons_insert; [exact Hes| |done]; rewrite Hke; intros expr c off Hk; by eapply Hc).
  split; [|done]. assert ((j < length (gs s))%nat) as Hlt by by eapply lookup_lt_Some.
  destruct (decide (j = i)) as [->|Hji].
  - destruct Hw as (Hz & Hl & Hw). destruct (Hw _ Hj) as (e0 & He0 & Ht). cbn [g_entry] in *.
    assert (e0 = e) by congruence. subst e0. destruct (en_kind e) as [d im|expr c off] eqn:Hk.
    + assert (cron_tick s i (Go i ev) = []) as ->.
      { unfold cron_tick, kind_at. destruct ev; try done. rewrite decide_True by done. rewrite Hst, Hj. cbn. rewrite He. cbn. by rewrite Hk. }
      split; [lia|]. split; [lia|]. intros g. rewrite Hg, list_lookup_insert_eq by done. intros [= <-]. cbn [g_entry].
      exists e'. rewrite Hes, lookup_insert_eq. split; [done|]. intros expr c off Hk'. congruence.
    + destruct (Hc _ _ _ _ _ He Hk) as [Hoff Hwf].
      pose proof (timing_step c off Hoff Hwf i eid last lo s ev s' (Ht _ _ _ eq_refl) Hst) as Hstep.
      assert (forall now, event_time ev = Some now -> lo <= now <= hi) as Hnow by exact Hr.
      assert (forall l t, t <= hi -> timing_inv c off i eid l t s' -> watched i l hi s') as Hgo.
      { intros l t Hthi Hti. apply (timing_mono c off i eid l t hi) in Hti; [|done]. pose proof Hti as (Hz' & Hl' & _).
        split; [done|]. split; [done|]. intros g. rewrite Hg, list_lookup_insert_eq by done. intros [= <-]. cbn [g_entry].
        exists e'. rewrite Hes, lookup_insert_eq. split; [done|]. intros expr1 c1 off1 Hk1. rewrite Hke in Hk1. by simplify_eq. }
      assert (forall now, event_time ev = Some now -> lo <= now) as Hnow1 by (intros now Hn; apply Hnow in Hn; lia).
      specialize (Hstep Hnow1). destruct ev as [now|now| | |now]; cbn [event_time default from_option id cron_tick after_step] in *;
        try (eapply Hgo; [|exact Hstep]; try (specialize (Hnow _ eq_refl)); lia).
      rewrite decide_True by done. rewrite Hst. unfold kind_at. rewrite Hj. cbn [mbind option_bind g_entry]. rewrite He. cbn [fmap option_fmap option_map].
      rewrite Hk. cbn [after_step x_due x_start x_cron x_off]. destruct Hstep as (H1 & H2 & H3 & H4).
      split; [done|]. split; [done|]. split; [done|]. eapply Hgo; [|exact H4]. specialize (Hnow _ eq_refl). lia.
  - assert (cron_tick s i (Go j ev) = []) as ->
      by (unfold cron_tick; destruct ev; try done; by rewrite decide_False).
    cbn [after_step]. apply (watched_mono _ _ lo hi); [done|]. apply (watched_other i last lo s); [| | |done].
    + rewrite Hg. by rewrite list_lookup_insert_ne.
    + intros eid' Hl. rewrite Hes, lookup_insert_ne; [done|]. intros ->. apply Hji. eapply single_unique; [done|by exists pc|done].
    + rewrite Hes. by apply (entry_kept _ _ e).
Qed.

Lemma watched_run i evs last lo s :
  Forall ev_ok evs -> Forall ev_cron evs -> run_clean s evs -> clock_forward lo evs ->
  wf s -> single s -> crons s -> watched i last lo s ->
  well_timed last (exec_log s i evs) /\ crons (sched_run s evs).
Proof.
  intros Hok. revert last lo s. induction Hok as [|ev evs Hev Hok IH]; intros last lo s Hcr Hcl Hck Hwf Hs Hc Hw; [done|].
  destruct Hcl as [Hc1 Hc2]. apply Forall_cons_1 in Hcr as [Hcr1 Hcr2]. destruct Hck as (hi & Hlo & Hr & Hck).
  cbn [exec_log sched_run foldl]. fold (sched_run (sched_step s ev) evs).
  assert (after_step i last hi (sched_step s ev) (cron_tick s i ev) /\ crons (sched_step s ev)) as [Ha Hcs].
  { destruct ev as [o|j ev]; cbn [sched_step]; [|by eapply watched_go]. cbn [cron_tick after_step]. by eapply watched_op. }
  assert (wf (sched_step s ev) /\ single (sched_step s ev)) as [Hwf' Hs'].
  { split; [apply (wf_run [ev]); [by repeat constructor|done]|]. apply (single_run [ev]); [by repeat constructor| |done|done]. by split. }
  destruct (cron_tick s i ev) as [|x [|x' xs]] eqn:Ex; cbn [app].
  - by eapply IH.
  - destruct Ha as (H1 & H2 & H3 & H4). cbn [well_timed].
    destruct (IH (x_start x) hi (sched_step s ev)) as [H5 H6]; try done.
  - exfalso. unfold cron_tick in Ex. repeat case_match; simplify_eq.
Qed.

Lemma run_clean_app evs1 evs2 s :
  run_clean s (evs1 ++ evs2) -> run_clean s evs1 /\ run_clean (sched_run s evs1) evs2.
Proof.
  revert s. induction evs1 as [|ev evs1 IH]; intros s; [done|]. cbn [app run_clean]. intros [H1 H2]. destruct (IH _ H2). done.
Qed.

Lemma single_new : single NewScheduler.
Proof. split; intros i j; unfold live_at; cbn; intros; naive_solver. Qed.

(** ** Theorems *)

(** Every execution is recorded as it went: in a history in memory, whatever came
    before, the handler runs exactly when the lock is ours or there is no
    locker, and the record of the execution ends as failed, skipped or completed
    accordingly; only a panic leaves it running. *)
Theorem executeJob_recorded {S W : Type} `{Locker S} text opts (r : run) name
    (handler : S * MemoryHistoryStore * W -> (S * MemoryHistoryStore * W) * outcome) timeout n evs s w :
  recording opts = true ->
  (forall st, find_execution (handler st).1.1.2 (ru_id r) = find_execution st.1.2 (ru_id r)) ->
  events_ok (NewMemoryHistoryStore n) evs ->
  let h := foldl hist_step (NewMemoryHistoryStore n) evs in
  (forall job, ru_ptr r ∉ execs h job) -> find_execution h (ru_id r) = None ->
  let acq := if locking opts then Acquire s (ru_lock r) (lock_key name) timeout else (s, Ok true) in
  let ran := handler (acq.1, recordStart opts h r name, w) in
  let fin := (executeJob text opts (s, h, w) r name handler timeout).1 in
  has_status fin.1.2 (ru_id r) (final_status acq.2 ran.2) /\
  fin.2 = match acq.2 with Ok true => ran.1.2 | _ => w end.
Proof.
  intros Hrec Hkeep Hok h Hp Hid. apply executeJob_status; [done|done|].
  assert (0 < Z.to_nat (if (n <=? 0)%Z then 100 else n))%nat as Hm by (destruct (n <=? 0) eqn:?; lia).
  pose proof (run_refines _ _ _ evs Hm (new_refines n) Hok) as Hr. fold h in Hr.
  unfold recordStart. rewrite Hrec.
  exists (mkJobExecution (ru_id r) name JobStatusRunning (ru_start r) None 0 "" (workerID opts) ∅).
  split; [|reflexivity].
  eapply find_start; [exact Hm|exact Hr|]. split; [done|]. cbn [je_ID].
  destruct (byID h !! ru_id r) as [p|] eqn:Hb; [exfalso|done].
  destruct Hr as (Ha & _). pose proof Hb as Hb'. apply (agr_ids _ _ Ha) in Hb' as (job & e & _ & He & _).
  unfold find_execution, MHS_GetExecution in Hid. rewrite Hb in Hid. cbn in Hid. congruence.
Qed.

Definition count_handler {L Hi : Type} (st : L * Hi * nat) : (L * Hi * nat) * outcome :=
  let '(s, h, w) := st in ((s, h, S w), Returned None).

Lemma executeJob_recorded_witness :
  let lk := NewRedisLocker "" "a" "x" in
  let r := mkRun "id" 7 10 11 12 13 in
  let fin := (executeJob (fun _ => "") (mkOptions true true "w")
    ((lk, (∅ : redis_db)), NewMemoryHistoryStore 5, 0%nat) r "job" count_handler Minute).1 in
  has_status fin.1.2 "id" JobStatusCompleted /\ fin.2 = 1%nat.
Proof.
  intros lk r.
  assert ((Acquire (lk, (∅ : redis_db)) 11 (lock_key "job") Minute).2 = Ok true) as Hacq
    by (vm_compute; reflexivity).
  pose proof (executeJob_recorded (fun _ => "") (mkOptions true true "w") r "job" count_handler Minute 5 []
    (lk, (∅ : redis_db)) 0%nat eq_refl) as Hx.
  cbv zeta in Hx. cbn [locking] in Hx. change (ru_lock r) with 11 in Hx. rewrite Hacq in Hx.
  apply Hx; [by intros [[s h] w]|exact I| |done].
  intros job. unfold execs. cbn. rewrite lookup_empty. apply not_elem_of_nil.
Defined.

(** The lock separates executions that overlap, and no others: with schedulers on
    two instances that share a Redis, the second does not run a job while the
    first runs it, within the timeout; but one that comes round to the same tick
    after the first is done runs the job again. *)
Theorem executeJob_instances {R : Type} `{RedisLaws R} {Hi W : Type} `{HistoryStore Hi} text opts
    (a b : RedisLocker) (r : R) (hA hB : Hi) (w : W) runA runB name f timeout :
  locking opts = true ->
  (forall r t k v ttl, (SetNX r t k v ttl).2 <> None) ->
  (forall r t k v, (Eval_ r t release_script [k] [RStr v]).2 <> None) ->
  0 < timeout -> prefix a = prefix b -> live (db r) (ru_lock runA) (prefix a +:+ lock_key name) = None ->
  (ru_release runA <= ru_lock runB ->
     let finA := (executeJob (S := RedisLocker * R) text opts ((a, r), hA, w) runA name (pure_handler f) timeout).1 in
     let finB := (executeJob (S := RedisLocker * R) text opts ((b, finA.1.1.2), hB, finA.2) runB name (pure_handler f) timeout).1 in
     finB.2 = f (f w)) /\
  (ru_lock runB < ru_lock runA + timeout ->
     let held_by_a := (Acquire (a, r) (ru_lock runA) (lock_key name) timeout).1 in
     (executeJob (S := RedisLocker * R) text opts ((b, held_by_a.2), hB, w) runB name (pure_handler f) timeout).1.2 = w).
Proof.
  intros Hlock Hset Heval Htime Hp Hl. split; intros Ht.
  - destruct (executeJob_runs text opts Hlock Hset Heval a r hA w runA name f timeout Htime Hl) as [Hw Hfree].
    cbv zeta. specialize (Hfree _ Ht).
    destruct (executeJob (S := RedisLocker * R) text opts ((a, r), hA, w) runA name (pure_handler f) timeout) as [[[[l1 r1] h1] w1] p].
    cbn [fst snd] in *. subst w1. rewrite Hp in Hfree.
    by apply (executeJob_runs text opts Hlock Hset Heval b r1 hB (f w) runB name f timeout).
  - destruct (RL_Acquire_free Hset a r (ru_lock runA) (lock_key name) timeout Htime Hl)
      as (s' & Ha & Hd & _). cbn [Acquire RedisLocker_Locker]. rewrite Ha. cbn [fst].
    apply (executeJob_skips text opts Hlock b s'.2 hB w runB name _ timeout (ownerID a)); [done|].
    unfold live. rewrite <- Hp, Hd. by replace (ru_lock runB <? ru_lock runA + timeout) with true by lia.
Qed.

Lemma executeJob_instances_witness :
  let a := NewRedisLocker "" "a" "x" in let b := NewRedisLocker "" "b" "y" in
  let runA := mkRun "1" 1 10 11 12 13 in let runB := mkRun "2" 2 20 21 22 23 in
  let h := NewMemoryHistoryStore 5 in let o := mkOptions true true "w" in
  (13 <= 21 ->
     let finA := (executeJob (fun _ => "") o ((a, (∅ : redis_db)), h, 0%nat) runA "job" (pure_handler S) Minute).1 in
     let finB := (executeJob (fun _ => "") o ((b, finA.1.1.2), h, finA.2) runB "job" (pure_handler S) Minute).1 in
     finB.2 = 2%nat) /\
  (21 < 11 + Minute ->
     let held_by_a := (Acquire (a, (∅ : redis_db)) 11 (lock_key "job") Minute).1 in
     (executeJob (fun _ => "") o ((b, held_by_a.2), h, 0%nat) runB "job" (pure_handler S) Minute).1.2 = 0%nat).
Proof.
  intros a b runA runB h o.
  apply (executeJob_instances (fun _ => "") o a b (∅ : redis_db) h h 0%nat runA runB "job" S Minute);
    [done| | |done|done|done].
  - intros r t k v ttl. cbn. unfold setnx_effect. by destruct (live r t k).
  - intros r t k v. cbn [Eval_ map_redis map_eval]. rewrite String.eqb_refl.
    by destruct (release_effect r t k v).
Defined.

(** No sequence of calls closes a channel twice: with positive intervals, after
    any calls and steps of the goroutines, no call panics. *)
Theorem scheduler_never_panics evs o :
  Forall ev_ok evs -> op_ok o -> (apply_op (sched_run NewScheduler evs) o).2 <> Panic.
Proof. intros Hevs Ho. apply wf_op; [|done]. apply wf_run; [done|apply wf_new]. Qed.

Definition sample_clock : nat -> Time := fun _ => 1700000000 * Second.

Definition sample_run : list sched_event :=
  [Op (OpAdd 0 "poll" Second true 0); Op (OpStart sample_clock ["poll"] []); Go 0 (JobDone 5); Go 0 (AtTop 5);
   Op OpStop; Go 0 SchedulerStopped; Op (OpStart sample_clock ["poll"] [])].

Lemma scheduler_never_panics_witness :
  (apply_op (sched_run NewScheduler sample_run) OpStop).2 <> Panic.
Proof. apply scheduler_never_panics; [|exact I]. repeat constructor. Defined.

(** A job does not overlap itself: if the scheduler is started again only when
    [Stop] has returned nil, then at every time each entry has at most one
    goroutine, whatever is added, removed and stopped in between. *)
Theorem scheduler_single evs i j eid :
  Forall ev_ok evs -> run_clean NewScheduler evs ->
  let s := sched_run NewScheduler evs in
  live_at s i eid -> live_at s j eid -> i = j.
Proof.
  intros Hevs Hc s. assert (single s) as [H _]; [|by apply H].
  apply single_run; [done|done|apply wf_new|]. split; intros i'; unfold live_at; cbn; intros; naive_solver.
Qed.

Lemma scheduler_single_witness :
  let s := sched_run NewScheduler sample_run in
  live_at s 1 2 /\ forall i j, live_at s i 2 -> live_at s j 2 -> i = j.
Proof.
  split.
  - exists Exec. split; [vm_compute; reflexivity|discriminate].
  - intros i j. apply (scheduler_single sample_run); [repeat constructor|].
    repeat split; try (intros _; vm_compute; reflexivity); repeat constructor; set_solver.
Defined.

(** Without that condition it does: when [Stop] times out while the job runs, and
    the scheduler is started again, the old goroutine goes back to the new
    channels, and two goroutines run the one job at the same time. *)
Theorem restart_overlaps :
  let s := sched_run NewScheduler
    [Op (OpAdd 0 "poll" Second true 0); Op (OpStart sample_clock ["poll"] []); Op OpStop;
     Op (OpStart sample_clock ["poll"] []); Go 0 (JobDone 5); Go 0 (AtTop 5); Go 0 (Tick 6)] in
  gs s = [mkG 2 Exec; mkG 2 Exec] /\ all_exited s = false.
Proof. vm_compute. split; reflexivity. Qed.

(** A cron job that never fires wedges the scheduler: its goroutine never reaches
    a select, whatever is called and whatever the clock reads, so that [Stop]
    never returns nil, and [Remove] leaves it spinning. *)
Theorem cron_spins name expr c off now start evs :
  name <> "" -> ParseCron expr = Ok c -> (forall t, Next c off t = Some zero_time) ->
  Forall ev_ok evs -> Forall ev_clock evs ->
  let s := sched_run NewScheduler
    ([Op (OpAddCron now name expr off 0); Op (OpStart start [] [name])] ++ evs) in
  gs s !! 0%nat = Some (mkG 2 Top) /\ all_exited s = false.
Proof.
  intros Hname Hc Hn Hok Hclock s.
  assert (spinning c off 0 2 s) as (Hi & _).
  { unfold s, sched_run. rewrite foldl_app. apply spinning_run; [done|done|done| |].
    - apply (wf_run [_; _]); [repeat constructor|apply wf_new].
    - apply String.eqb_neq in Hname. cbn [foldl sched_step apply_op]. unfold AddCron. rewrite Hname, Hc.
      cbn [NewScheduler cronJobs]. rewrite lookup_empty.
      set (e := mkEntry name (CronJob expr c off) (5 * Minute) 1 zero_time).
      set (s1 := mkScheduler ∅ (<[name := 2%nat]> ∅) (<[2%nat := e]> ∅) false 0 ∅ 3 []).
      change (let '(s, eid) := register _ _ _ _ in start_if_running s now eid) with (s1, Return None).
      cbn [fst]. rewrite Start_state by done. unfold start_eids.
      cbn [s1 jobs cronJobs omap list_omap app]. rewrite lookup_insert_eq.
      cbn [start_all]. unfold start_entry. cbn [started s1 entries]. rewrite lookup_insert_eq.
      cbn [en_kind e fst]. split; [done|]. split; [cbn; lia|].
      eexists _, expr. cbn -[cron_next]. rewrite lookup_insert_eq. split; [done|]. split; [done|].
      by apply cron_next_never. }
  split; [done|]. destruct (all_exited s) eqn:Ha; [|done]. exfalso.
  apply (all_exited_live s 0 2 Ha). exists Top. split; [done|discriminate].
Qed.

(** February 30. *)
Definition feb30 : CronExpr :=
  mkCron [0] [0] [30] [2] (allValues 0 6) "0 0 30 2 *".

Lemma feb30_never off u : fires feb30 off u = false.
Proof.
  destruct (fires feb30 off u) eqn:Hf; [exfalso|done]. apply fires_iff in Hf as (_ & _ & Hm & Hd & _).
  apply list_elem_of_singleton in Hm.
  change (dayOk feb30 off u) with (contains [30] (time_Day off u)) in Hd.
  apply contains_spec, list_elem_of_singleton in Hd.
  unfold time_Day in Hd. unfold time_Month in Hm. set (M := month_of (local_day off u)) in *.
  pose proof (month_of_spec (local_day off u)) as Hday. pose proof (month_start_length M) as Hlen.
  fold M in Hday. rewrite Hm in Hlen. unfold days_in_month in Hlen. cbn in Hlen.
  destruct (is_leap (M / 12)); lia.
Qed.

Lemma cron_spins_witness :
  let evs := [Go 0 (AtTop 5); Op OpStop; Go 0 (AtTop 6); Op (OpRemove "never"); Go 0 (AtTop 7)] in
  let s := sched_run NewScheduler
    ([Op (OpAddCron 1 "never" "0 0 30 2 *" 0 0); Op (OpStart sample_clock [] ["never"])] ++ evs) in
  gs s !! 0%nat = Some (mkG 2 Top) /\ all_exited s = false.
Proof.
  intros evs. apply (cron_spins "never" "0 0 30 2 *" feb30 0 1 sample_clock evs); [done|vm_compute; reflexivity| | |].
  - intros t. apply Next_never; [done| |apply feb30_never].
    unfold cron_wf, values_ok, feb30. cbn [minute hour dayOfMonth month dayOfWeek].
    assert (values_ok 0 6 (allValues 0 6)) as Hall by (apply allValues_ok; lia).
    repeat split; repeat constructor; first [apply Hall | lia | done].
  - repeat constructor.
  - repeat constructor.
Defined.

(** C3. A cron job runs at its firings, none twice and none early.  In any run of
    the scheduler, with jobs added, removed and run by hand, other goroutines
    between and handlers of any length, the goroutine of a cron job that is started
    from now ([t1]) on executes only at times its expression fires: each execution
    is due at a firing after the last one started, or after now, and starts when it
    is due or later.  The scheduler is started again only when [Stop] has returned
    nil ([restart_overlaps]), the clock does not go back, and zones are whole hours
    from UTC.  [RunNow] executes in its caller's goroutine at any time, and does not
    touch the schedule. *)
Theorem cron_executions evs1 evs2 t0 t1 i :
  let s := sched_run NewScheduler evs1 in
  Forall ev_ok (evs1 ++ evs2) -> Forall ev_cron (evs1 ++ evs2) -> run_clean NewScheduler (evs1 ++ evs2) ->
  zero_time < t0 <= t1 -> clock_forward t0 evs1 -> clock_forward t1 evs2 ->
  (length (gs s) <= i)%nat ->
  well_timed t1 (exec_log s i evs2).
Proof.
  intros s [Hok1 Hok2]%Forall_app [Hcr1 Hcr2]%Forall_app [Hcl1 Hcl2]%run_clean_app Ht Hk1 Hk2 Hi.
  assert (crons NewScheduler) as Hc0 by (intros eid e expr c off He; cbn in He; by rewrite lookup_empty in He).
  destruct (watched_run 0 evs1 t0 t0 NewScheduler) as [_ Hc]; try done; [apply wf_new|apply single_new|split; [lia|done]|].
  apply (watched_run i evs2 t1 t1 s); try done.
  - apply wf_run; [done|apply wf_new].
  - apply single_run; [done|done|apply wf_new|apply single_new].
  - split; [lia|]. split; [lia|]. intros g Hg. by rewrite lookup_ge_None_2 in Hg.
Qed.

Lemma cron_executions_witness :
  let t0 := 1700000000 * Second in
  let evs1 := [Op (OpAddCron t0 "j" "0,30 9 * * *" 0 0)] in
  let evs2 := [Op (OpStart (fun _ => t0) [] ["j"]); Go 0 (AtTop t0); Op (OpRunNow "j"); Go 0 (Tick (t0 + 24 * Hour));
    Op (OpAdd (t0 + 24 * Hour) "poll" Second true 0); Go 0 (JobDone (t0 + 25 * Hour)); Go 0 (AtTop (t0 + 25 * Hour));
    Go 0 (Tick (t0 + 49 * Hour))] in
  let s := sched_run NewScheduler evs1 in
  well_timed t0 (exec_log s 0 evs2) /\ length (exec_log s 0 evs2) = 2%nat.
Proof.
  intros t0 evs1 evs2 s. split; [|vm_compute; reflexivity].
  apply (cron_executions evs1 evs2 t0 t0 0).
  - repeat constructor.
  - repeat constructor; try (vm_compute; congruence).
  - repeat split; try (intros _; vm_compute; reflexivity); repeat constructor; set_solver.
  - split; [vm_compute; reflexivity|done].
  - exists t0. split; [done|]. split; [done|exact I].
  - exists t0. split; [done|]. split; [intros eid; done|].
    exists t0. split; [done|]. split; [intros now [= <-]; done|].
    exists t0. split; [done|]. split; [exact I|].
    exists (t0 + 24 * Hour). split; [vm_compute; congruence|]. split; [intros now [= <-]; vm_compute; split; congruence|].
    exists (t0 + 24 * Hour). split; [done|]. split; [done|].
    exists (t0 + 25 * Hour). split; [vm_compute; congruence|]. split; [intros now [= <-]; vm_compute; split; congruence|].
    exists (t0 + 25 * Hour). split; [done|]. split; [intros now [= <-]; done|].
    exists (t0 + 49 * Hour). split; [vm_compute; congruence|]. split; [intros now [= <-]; vm_compute; split; congruence|exact I].
  - vm_compute. lia.
Defined.
