(* ===== verification/Threads.v ===== *)
(** * Goroutines and mutexes

    An operation of a component that locks is a program of locks, unlocks and atomic
    actions on the component's state, and goroutines are interleaved at every
    instruction.  A mutex is free, locked, or locked for reading by some goroutines;
    that a waiting writer holds back new readers is left out.  Programs that take
    their mutexes in the order of a rank cannot deadlock, and every program ends. *)

From S2P Require Import Prelude.
#[local] Open Scope list_scope.

(** A rank of the mutexes of a component. *)
Class Ranked (M : Type) := {
  rank : M -> nat;
  rank_bound : nat;
  rank_lt : forall m, (rank m < rank_bound)%nat
}.

Section threads.
Context {St M : Type} `{EqDecision M}.

(** ** Programs *)

(** [Do f] acts on the state at once and says what to do next. *)
Inductive instr :=
| Lock (m : M)
| Unlock (m : M)
| RLock (m : M)
| RUnlock (m : M)
| Do (f : St -> St * list instr).

Abbreviation program := (list instr).

Definition act (f : St -> St) : instr := Do (fun h => (f h, [])).

(** ** Goroutines *)

Inductive lock_state := Free | Writer (t : nat) | Readers (ts : list nat).

Record config := mkConfig { state : St; locks : M -> lock_state; threads : list program }.

Definition set_lock (locks : M -> lock_state) (m : M) (l : lock_state) : M -> lock_state :=
  fun m' => if decide (m' = m) then l else locks m'.

Fixpoint remove_one (t : nat) (ts : list nat) : list nat :=
  match ts with
  | [] => []
  | x :: ts => if decide (x = t) then ts else x :: remove_one t ts
  end.

Definition read_unlock (t : nat) (l : lock_state) : lock_state :=
  match l with
  | Readers ts => match remove_one t ts with [] => Free | ts => Readers ts end
  | l => l
  end.

(** The next instruction of goroutine [t], if it can run. *)
Definition step (t : nat) (cf : config) : option config :=
  match threads cf !! t with
  | None | Some [] => None
  | Some (i :: p) =>
      match i with
      | Lock m =>
          match locks cf m with
          | Free => Some (mkConfig (state cf) (set_lock (locks cf) m (Writer t)) (<[t := p]> (threads cf)))
          | _ => None
          end
      | RLock m =>
          match locks cf m with
          | Free => Some (mkConfig (state cf) (set_lock (locks cf) m (Readers [t])) (<[t := p]> (threads cf)))
          | Readers ts =>
              Some (mkConfig (state cf) (set_lock (locks cf) m (Readers (t :: ts))) (<[t := p]> (threads cf)))
          | Writer _ => None
          end
      | Unlock m => Some (mkConfig (state cf) (set_lock (locks cf) m Free) (<[t := p]> (threads cf)))
      | RUnlock m =>
          Some (mkConfig (state cf) (set_lock (locks cf) m (read_unlock t (locks cf m))) (<[t := p]> (threads cf)))
      | Do f =>
          let '(h, q) := f (state cf) in
          Some (mkConfig h (locks cf) (<[t := q ++ p]> (threads cf)))
      end
  end.

(** A step of some goroutine. *)
Definition some_step (cf cf' : config) : Prop := exists t, step t cf = Some cf'.

Definition reachable (cf cf' : config) : Prop := rtc some_step cf cf'.

(** Some goroutine is not done, and none can run. *)
Definition deadlocked (cf : config) : Prop :=
  (exists t p, threads cf !! t = Some p /\ p <> []) /\ forall t, step t cf = None.

Definition all_free : M -> lock_state := fun _ => Free.

Definition start (h : St) (ps : list program) : config := mkConfig h all_free ps.

(** Runs the goroutines of a schedule; one that cannot run is passed over. *)
Definition run_schedule (ts : list nat) (cf : config) : config :=
  foldl (fun cf t => default cf (step t cf)) cf ts.

Definition stuck (cf : config) : Prop := forall t, step t cf = None.

Lemma run_schedule_reachable ts cf : reachable cf (run_schedule ts cf).
Proof.
  revert cf. induction ts as [|t ts IH]; intros cf; [apply rtc_refl|]. cbn.
  destruct (step t cf) as [cf'|] eqn:Hst; cbn; [|apply IH]. eapply rtc_l; [by exists t|apply IH].
Qed.

(** ** Invariants of the state *)

(** Every action of the program, and of what it goes on with, keeps the invariant. *)
Inductive keeps (I : St -> Prop) : program -> Prop :=
| keeps_done : keeps I []
| keeps_lock m p : keeps I p -> keeps I (Lock m :: p)
| keeps_unlock m p : keeps I p -> keeps I (Unlock m :: p)
| keeps_rlock m p : keeps I p -> keeps I (RLock m :: p)
| keeps_runlock m p : keeps I p -> keeps I (RUnlock m :: p)
| keeps_do f p : (forall s, I s -> I (f s).1) -> (forall s, I s -> keeps I ((f s).2 ++ p)) -> keeps I (Do f :: p).

Lemma keeps_app I p q : keeps I p -> keeps I q -> keeps I (p ++ q).
Proof.
  induction 1 as [|m p Hp IH|m p Hp IH|m p Hp IH|m p Hp IH|f p Hf Hp IH]; intros Hq; cbn; [done|constructor; auto..|].
  constructor; [done|]. intros s Hs. rewrite app_assoc. by apply IH.
Qed.

Lemma keeps_act I f p : (forall s, I s -> I (f s)) -> keeps I p -> keeps I (act f :: p).
Proof. intros Hf Hp. by constructor. Qed.

Lemma keeps_mjoin I (ps : list program) : Forall (keeps I) ps -> keeps I (mjoin ps).
Proof. induction 1 as [|p ps Hp Hps IH]; [constructor|]. by apply keeps_app. Qed.

Lemma step_keeps I t cf cf' :
  step t cf = Some cf' -> I (state cf) -> Forall (keeps I) (threads cf) -> I (state cf') /\ Forall (keeps I) (threads cf').
Proof.
  unfold step. destruct (threads cf !! t) as [[|i p]|] eqn:Ht; [done| |done]. intros Hst Hi Hps.
  assert (keeps I (i :: p)) as Hp by (rewrite list.Forall_forall in Hps; by eapply Hps, list_elem_of_lookup_2).
  assert (forall q, keeps I q -> Forall (keeps I) (<[t := q]> (threads cf))) as Hins by (intros q Hq; by apply Forall_insert).
  destruct i as [m|m|m|m|f]; inversion Hp; subst.
  - destruct (locks cf m); [|done..]. injection Hst as <-. by split; [|apply Hins].
  - injection Hst as <-. by split; [|apply Hins].
  - destruct (locks cf m); try done; injection Hst as <-; by split; [|apply Hins].
  - injection Hst as <-. by split; [|apply Hins].
  - destruct (f (state cf)) as [s q] eqn:Hf. injection Hst as <-.
    match goal with H1 : forall s, I s -> I (f s).1, H2 : forall s, I s -> keeps I _ |- _ =>
      specialize (H1 _ Hi); specialize (H2 _ Hi); rewrite Hf in H1, H2 end.
    split; [done|]. by apply Hins.
Qed.

(** An invariant that every program keeps holds however they are interleaved. *)
Lemma reachable_keeps I cf cf' :
  reachable cf cf' -> I (state cf) -> Forall (keeps I) (threads cf) -> I (state cf').
Proof.
  induction 1 as [cf|cf cf1 cf' [t Hst] Hr IH]; intros Hi Hps; [done|].
  destruct (step_keeps I t cf cf1 Hst Hi Hps). by apply IH.
Qed.

Section ordered.
Context `{Ranked M}.

(** ** The order of the mutexes *)

(** A program that holds [hs], each locked for writing or reading, takes mutexes
    in the order of their ranks and releases the last one first. *)
Inductive ordered : list (M * bool) -> program -> Prop :=
| ordered_done : ordered [] []
| ordered_lock hs m p :
    Forall (fun x => (rank x.1 < rank m)%nat) hs -> ordered ((m, true) :: hs) p -> ordered hs (Lock m :: p)
| ordered_rlock hs m p :
    Forall (fun x => (rank x.1 < rank m)%nat) hs -> ordered ((m, false) :: hs) p -> ordered hs (RLock m :: p)
| ordered_unlock hs m p : ordered hs p -> ordered ((m, true) :: hs) (Unlock m :: p)
| ordered_runlock hs m p : ordered hs p -> ordered ((m, false) :: hs) (RUnlock m :: p)
| ordered_do hs f p : (forall h, ordered hs ((f h).2 ++ p)) -> ordered hs (Do f :: p).

Lemma ordered_app hs p q : ordered hs p -> ordered [] q -> ordered hs (p ++ q).
Proof.
  induction 1 as [|hs m p Hr Hp IH|hs m p Hr Hp IH|hs m p Hp IH|hs m p Hp IH|hs f p Hp IH]; intros Hq; cbn;
    first [exact Hq | by constructor; auto | idtac]. constructor. intros h. rewrite app_assoc. by apply IH.
Qed.

Lemma ordered_act hs f p : ordered hs p -> ordered hs (act f :: p).
Proof. intros Hp. constructor. by intros h. Qed.

Lemma ordered_mjoin (ps : list program) q hs :
  (forall p q, p ∈ ps -> ordered hs q -> ordered hs (p ++ q)) -> ordered hs q -> ordered hs (mjoin ps ++ q).
Proof.
  induction ps as [|p ps IH]; intros Hps Hq; [done|]. cbn. rewrite <- app_assoc.
  apply Hps; [by left|]. apply IH; [|done]. intros p' q' Hp'. apply Hps. by right.
Qed.

(** ** No deadlock in order *)

(** What each goroutine holds, and that a mutex in use has a holder. *)
Record lock_inv (held : nat -> list (M * bool)) (cf : config) : Prop := {
  li_ordered t p : threads cf !! t = Some p -> ordered (held t) p;
  li_none t : threads cf !! t = None -> held t = [];
  li_writer m t : locks cf m = Writer t -> (m, true) ∈ held t;
  li_readers m ts : locks cf m = Readers ts ->
    ts <> [] /\ NoDup ts /\ forall t, t ∈ ts -> (m, false) ∈ held t
}.

Lemma set_lock_eq l m x : set_lock l m x m = x.
Proof. unfold set_lock. by rewrite decide_True. Qed.

Lemma set_lock_ne l m x m' : m' <> m -> set_lock l m x m' = l m'.
Proof. intros Hne. unfold set_lock. by rewrite decide_False. Qed.

Lemma remove_one_elem t ts x : NoDup ts -> x ∈ remove_one t ts <-> x ∈ ts /\ x <> t.
Proof.
  induction 1 as [|y ts Hy Hnd IH]; cbn; [set_solver|]. destruct (decide (y = t)) as [->|Hne].
  - rewrite elem_of_cons. split; [intros Hx; split; [by right|by intros ->]|]. intros [[->|?] ?]; done.
  - rewrite !elem_of_cons, IH. naive_solver.
Qed.

Lemma remove_one_NoDup t ts : NoDup ts -> NoDup (remove_one t ts).
Proof.
  induction 1 as [|y ts Hy Hnd IH]; cbn; [constructor|]. destruct (decide (y = t)); [done|].
  constructor; [|done]. rewrite remove_one_elem by done. tauto.
Qed.

(** Goroutine [t] goes on with [p], holding [hs]. *)
Definition update_held (held : nat -> list (M * bool)) (t : nat) (hs : list (M * bool)) :=
  fun t' => if decide (t' = t) then hs else held t'.

Lemma lock_inv_update held cf t i p p' hs l h :
  lock_inv held cf -> threads cf !! t = Some (i :: p) -> ordered hs p' ->
  (forall m t', l m = Writer t' -> (m, true) ∈ update_held held t hs t') ->
  (forall m ts, l m = Readers ts -> ts <> [] /\ NoDup ts /\ forall t', t' ∈ ts -> (m, false) ∈ update_held held t hs t') ->
  lock_inv (update_held held t hs) (mkConfig h l (<[t := p']> (threads cf))).
Proof.
  intros [H1 H2 H3 H4] Ht Hp Hw Hr. assert ((t < length (threads cf))%nat) as Hlt by (by eapply lookup_lt_Some).
  split; cbn [threads locks]; [| |done|done].
  - intros t' q Hq. unfold update_held. destruct (decide (t' = t)) as [->|Hne].
    + rewrite list_lookup_insert_eq in Hq by done. by simplify_eq.
    + rewrite list_lookup_insert_ne in Hq by done. by apply H1.
  - intros t' Hq. unfold update_held. destruct (decide (t' = t)) as [->|Hne].
    + by rewrite list_lookup_insert_eq in Hq by done.
    + rewrite list_lookup_insert_ne in Hq by done. by apply H2.
Qed.

(** Taking a mutex. *)
Lemma lock_inv_take held cf t i p m w l :
  lock_inv held cf -> threads cf !! t = Some (i :: p) -> ordered ((m, w) :: held t) p ->
  (forall m', m' <> m -> l m' = locks cf m') ->
  (forall t', l m = Writer t' -> t' = t /\ w = true) ->
  (forall ts, l m = Readers ts -> ts <> [] /\ NoDup ts /\
     forall t', t' ∈ ts -> (t' = t /\ w = false) \/ (m, false) ∈ held t') ->
  exists held', lock_inv held' (mkConfig (state cf) l (<[t := p]> (threads cf))).
Proof.
  intros Hinv Ht Hp Hl Hw Hr. pose proof Hinv as [H1 H2 H3 H4].
  assert (forall x t', x ∈ held t' -> x ∈ update_held held t ((m, w) :: held t) t') as Hold
    by (intros x t' Hx; unfold update_held; case_decide; [subst; by right|done]).
  exists (update_held held t ((m, w) :: held t)). apply (lock_inv_update held cf t i p); [done|done|done| |].
  - intros m' t' Hm'. destruct (decide (m' = m)) as [->|Hne].
    + destruct (Hw _ Hm') as [-> ->]. unfold update_held. rewrite decide_True by done. by left.
    + rewrite Hl in Hm' by done. by apply Hold, H3.
  - intros m' ts Hm'. destruct (decide (m' = m)) as [->|Hne].
    + destruct (Hr _ Hm') as (Hne & Hnd & Hts). split; [done|]. split; [done|]. intros t' Ht'.
      destruct (Hts _ Ht') as [[-> ->]|Hh]; [|by apply Hold].
      unfold update_held. rewrite decide_True by done. by left.
    + rewrite Hl in Hm' by done. destruct (H4 _ _ Hm') as (Hn & Hnd & Hts). split; [done|]. split; [done|].
      intros t' Ht'. by apply Hold, Hts.
Qed.

(** Releasing the mutex taken last. *)
Lemma lock_inv_release held cf t i p m w hs l :
  lock_inv held cf -> threads cf !! t = Some (i :: p) -> held t = (m, w) :: hs -> ordered hs p ->
  (forall m', m' <> m -> l m' = locks cf m') ->
  (forall t', l m = Writer t' -> w = false /\ locks cf m = Writer t') ->
  (forall ts, l m = Readers ts -> exists ts', locks cf m = Readers ts' /\ w = false /\ ts = remove_one t ts' /\ ts <> []) ->
  exists held', lock_inv held' (mkConfig (state cf) l (<[t := p]> (threads cf))).
Proof.
  intros Hinv Ht Hh Hp Hl Hw Hr. pose proof Hinv as [H1 H2 H3 H4].
  assert (forall x t', x ∈ held t' -> t' <> t \/ x <> (m, w) -> x ∈ update_held held t hs t') as Hold.
  { intros x t' Hx Hor. unfold update_held. case_decide; [subst|done]. rewrite Hh in Hx.
    apply elem_of_cons in Hx as [->|Hx]; [by destruct Hor|done]. }
  exists (update_held held t hs). apply (lock_inv_update held cf t i p); [done|done|done| |].
  - intros m' t' Hm'. destruct (decide (m' = m)) as [->|Hne].
    + destruct (Hw _ Hm') as [-> Hm]. apply Hold; [by apply H3|]. right. congruence.
    + rewrite Hl in Hm' by done. apply Hold; [by apply H3|]. right. congruence.
  - intros m' ts Hm'. destruct (decide (m' = m)) as [->|Hne].
    + destruct (Hr _ Hm') as (ts' & Hm & -> & -> & Hn). destruct (H4 _ _ Hm) as (_ & Hnd & Hts).
      split; [done|]. split; [by apply remove_one_NoDup|]. intros t' [Ht' Hne']%remove_one_elem; [|done].
      apply Hold; [by apply Hts|by left].
    + rewrite Hl in Hm' by done. destruct (H4 _ _ Hm') as (Hn & Hnd & Hts). split; [done|]. split; [done|].
      intros t' Ht'. apply Hold; [by apply Hts|]. right. congruence.
Qed.

Lemma step_lock_inv held cf t cf' :
  lock_inv held cf -> step t cf = Some cf' -> exists held', lock_inv held' cf'.
Proof.
  intros Hinv Hst. unfold step in Hst. destruct (threads cf !! t) as [[|i p]|] eqn:Ht; try done.
  pose proof Hinv as [H1 H2 H3 H4]. pose proof (H1 _ _ Ht) as Ho.
  destruct i as [m|m|m|m|f].
  - inversion Ho; subst. destruct (locks cf m) eqn:Hm; try done. injection Hst as <-.
    eapply (lock_inv_take held cf t _ p m true); [done|exact Ht|done|by apply set_lock_ne| |].
    + intros t'. rewrite set_lock_eq. intros [= <-]. done.
    + intros ts. by rewrite set_lock_eq.
  - inversion Ho as [| | |hs m' p' Hp Hh| |]; subst. injection Hst as <-.
    eapply (lock_inv_release held cf t _ p m true); [done|exact Ht|symmetry; exact Hh|done|by apply set_lock_ne| |];
      [intros t'|intros ts]; by rewrite set_lock_eq.
  - inversion Ho as [| |hs m' p' Hr Hp| | |]; subst. destruct (locks cf m) as [|t'|ts] eqn:Hm; try done; injection Hst as <-.
    + eapply (lock_inv_take held cf t _ p m false); [done|exact Ht|done|by apply set_lock_ne| |].
      * intros t'. by rewrite set_lock_eq.
      * intros ts. rewrite set_lock_eq. intros [= <-]. split; [done|]. split; [apply NoDup_singleton|].
        intros t' ->%list_elem_of_singleton. by left.
    + destruct (H4 _ _ Hm) as (Hn & Hnd & Hts).
      eapply (lock_inv_take held cf t _ p m false); [done|exact Ht|done|by apply set_lock_ne| |].
      * intros t'. by rewrite set_lock_eq.
      * intros ts'. rewrite set_lock_eq. intros [= <-]. split; [done|]. split.
        -- constructor; [|done]. intros Hin. apply Hts in Hin. rewrite list.Forall_forall in Hr.
           apply Hr in Hin. cbn in Hin. lia.
        -- intros t' [->|Hin]%elem_of_cons; [by left|right; by apply Hts].
  - inversion Ho as [| | | |hs m' p' Hp Hh|]; subst. injection Hst as <-.
    eapply (lock_inv_release held cf t _ p m false); [done|exact Ht|symmetry; exact Hh|done|by apply set_lock_ne| |].
    + intros t'. rewrite set_lock_eq. destruct (locks cf m) as [|t2|ts]; cbn; [done|done|].
      by destruct (remove_one t ts).
    + intros ts. rewrite set_lock_eq. destruct (locks cf m) as [|t2|ts2]; cbn; [done|done|].
      intros Hts. exists ts2. destruct (remove_one t ts2) eqn:Hr; [done|]. by simplify_eq.
  - inversion Ho as [| | | | |hs f' p' Hp]; subst. destruct (f (state cf)) as [h q] eqn:Hf. injection Hst as <-.
    exists (update_held held t (held t)). specialize (Hp (state cf)). rewrite Hf in Hp. cbn in Hp.
    assert (forall x t', x ∈ held t' -> x ∈ update_held held t (held t) t') as Hold
      by (intros x t'; unfold update_held; case_decide; by subst).
    eapply (lock_inv_update held cf t); [done|exact Ht|done| |].
    + intros m t' Hm. by apply Hold, H3.
    + intros m ts Hm. destruct (H4 _ _ Hm) as (Hn & Hnd & Hts). split; [done|]. split; [done|].
      intros t' Ht'. by apply Hold, Hts.
Qed.

(** A goroutine that waits, waits for one whose next mutex has a higher rank. *)
Lemma waits_higher held cf t i p :
  lock_inv held cf -> (forall t, step t cf = None) -> threads cf !! t = Some (i :: p) ->
  exists m t' i' p', (i = Lock m \/ i = RLock m) /\ threads cf !! t' = Some (i' :: p') /\
    forall m', i' = Lock m' \/ i' = RLock m' -> (rank m < rank m')%nat.
Proof.
  intros [H1 H2 H3 H4] Hst Ht. pose proof (Hst t) as Hn. unfold step in Hn. rewrite Ht in Hn.
  assert (forall m t' w, (m, w) ∈ held t' -> exists i' p', threads cf !! t' = Some (i' :: p') /\
    forall m', i' = Lock m' \/ i' = RLock m' -> (rank m < rank m')%nat) as Hholder.
  { intros m t' w Hm. destruct (threads cf !! t') as [[|i' p']|] eqn:Ht'.
    - apply H1 in Ht'. inversion Ht' as [Hh| | | | |]. rewrite <- Hh in Hm. by apply elem_of_nil in Hm.
    - exists i', p'. split; [done|]. apply H1 in Ht'.
      intros m' [->| ->]; inversion Ht' as [|? ? ? Hr|? ? ? Hr| | |]; subst;
        rewrite list.Forall_forall in Hr; apply (Hr _ Hm).
    - rewrite (H2 _ Ht') in Hm. by apply elem_of_nil in Hm. }
  destruct i as [m|m|m|m|f]; try done.
  - destruct (locks cf m) as [|t'|ts] eqn:Hm; [done| |].
    + destruct (Hholder m t' true (H3 _ _ Hm)) as (i' & p' & ? & ?). eauto 10.
    + destruct (H4 _ _ Hm) as (Hne & _ & Hts). destruct ts as [|t' ts]; [done|].
      destruct (Hholder m t' false (Hts t' ltac:(by left))) as (i' & p' & ? & ?). eauto 10.
  - destruct (locks cf m) as [|t'|ts] eqn:Hm; [done| |done].
    destruct (Hholder m t' true (H3 _ _ Hm)) as (i' & p' & ? & ?). eauto 10.
  - by destruct (f (state cf)).
Qed.

Lemma no_deadlock held cf :
  lock_inv held cf -> (forall t, step t cf = None) -> forall t p, threads cf !! t = Some p -> p = [].
Proof.
  intros Hinv Hst.
  assert (forall n t i p m, threads cf !! t = Some (i :: p) -> (i = Lock m \/ i = RLock m) ->
    (rank_bound - n <= rank m)%nat -> (n <= rank_bound)%nat -> False) as Hn.
  { induction n as [|n IH]; intros t i p m Ht Hi Hr Hle; [pose proof (rank_lt m); lia|].
    destruct (waits_higher held cf t i p Hinv Hst Ht) as (m1 & t' & i' & p' & Hi1 & Ht' & Hlt).
    assert (m1 = m) as -> by (destruct Hi as [->| ->], Hi1 as [?|?]; congruence).
    destruct (waits_higher held cf t' i' p' Hinv Hst Ht') as (m2 & _ & _ & _ & Hi2 & _).
    specialize (Hlt _ Hi2). apply (IH t' i' p' m2); [done|done|lia|lia]. }
  intros t [|i p] Ht; [done|exfalso].
  destruct (waits_higher held cf t i p Hinv Hst Ht) as (m & _ & _ & _ & Hi & _).
  apply (Hn rank_bound t i p m); [done|done|lia|lia].
Qed.

Lemma start_lock_inv h ps : Forall (ordered []) ps -> lock_inv (fun _ => []) (start h ps).
Proof.
  intros Hps. split; cbn; try done.
  intros t p Ht. rewrite list.Forall_forall in Hps. by eapply Hps, list_elem_of_lookup_2.
Qed.

Lemma reachable_lock_inv cf cf' held :
  reachable cf cf' -> lock_inv held cf -> exists held', lock_inv held' cf'.
Proof.
  intros Hr. revert held. induction Hr as [cf|cf cf1 cf' [t Hst] Hr IH]; intros held Hinv; [eauto|].
  destruct (step_lock_inv held cf t cf1 Hinv Hst) as [held1 Hinv1]. by apply (IH held1).
Qed.
End ordered.

(** ** Every program ends *)

Definition next_prog (p' p : program) : Prop :=
  match p with
  | [] => False
  | Do f :: p => exists h, p' = ((f h).2 ++ p)%list
  | _ :: p => p' = p
  end.

(** One of the programs goes on. *)
Definition next_progs (ps' ps : list program) : Prop :=
  exists t p p', ps !! t = Some p /\ next_prog p' p /\ ps' = <[t := p']> ps.

Lemma progs_Acc ps : Forall (Acc next_prog) ps -> Acc next_progs ps.
Proof.
  induction 1 as [|p ps Hp Hps IH]; [constructor; intros ps' (t & p & p' & Ht & _); done|].
  revert ps Hps IH. induction Hp as [p Hp IHp]. intros ps Hps IH.
  induction IH as [ps IH IHps]. constructor. intros ps' ([|t] & q & q' & Ht & Hq & ->).
  - cbn in Ht. simplify_eq. cbn. apply IHp; [done|done|]. by constructor.
  - cbn in Ht. change (<[S t := q']> (p :: ps)) with (p :: <[t := q']> ps).
    assert (next_progs (<[t:=q']> ps) ps) as Hn by (exists t, q, q'; done).
    apply IHps; [done|]. apply list.Forall_forall. intros x Hx.
    apply list_elem_of_lookup in Hx as [j Hj]. destruct (decide (j = t)) as [->|Hne].
    + assert ((t < length ps)%nat) by (by eapply lookup_lt_Some).
      rewrite list_lookup_insert_eq in Hj by done. simplify_eq.
      rewrite list.Forall_forall in Hps. apply (Acc_inv (Hps q ltac:(by eapply list_elem_of_lookup_2)) Hq).
    + rewrite list_lookup_insert_ne in Hj by done. rewrite list.Forall_forall in Hps.
      by eapply Hps, list_elem_of_lookup_2.
Qed.

Lemma step_next_progs t cf cf' : step t cf = Some cf' -> next_progs (threads cf') (threads cf).
Proof.
  unfold step. destruct (threads cf !! t) as [[|i p]|] eqn:Ht; [done| |done]. intros Hst.
  assert (exists p', next_prog p' (i :: p) /\ threads cf' = <[t := p']> (threads cf)) as (p' & Hp & ->);
    [|by exists t, (i :: p), p'].
  destruct i as [m|m|m|m|f].
  - destruct (locks cf m); [|done..]. injection Hst as <-. by exists p.
  - injection Hst as <-. by exists p.
  - destruct (locks cf m); try done; injection Hst as <-; by exists p.
  - injection Hst as <-. by exists p.
  - destruct (f (state cf)) as [h q] eqn:Hf. injection Hst as <-. exists (q ++ p)%list. split; [|done].
    exists (state cf). by rewrite Hf.
Qed.

Lemma config_Acc cf : Acc next_progs (threads cf) -> Acc (fun cf' cf => some_step cf cf') cf.
Proof.
  intros H. remember (threads cf) as ps eqn:Hps. revert cf Hps.
  induction H as [ps _ IH]; intros cf ->. constructor. intros cf' [t Hst].
  eapply IH; [by eapply step_next_progs|done].
Qed.

(** ** One operation at a time *)

(** The program runs by itself to its end, never taking a mutex it holds. *)
Inductive exec : list (M * bool) -> St -> program -> St -> Prop :=
| exec_done h : exec [] h [] h
| exec_lock hs h m p h' : m ∉ hs.*1 -> exec ((m, true) :: hs) h p h' -> exec hs h (Lock m :: p) h'
| exec_rlock hs h m p h' : m ∉ hs.*1 -> exec ((m, false) :: hs) h p h' -> exec hs h (RLock m :: p) h'
| exec_unlock hs h m p h' : exec hs h p h' -> exec ((m, true) :: hs) h (Unlock m :: p) h'
| exec_runlock hs h m p h' : exec hs h p h' -> exec ((m, false) :: hs) h (RUnlock m :: p) h'
| exec_do hs h f p h' : exec hs (f h).1 ((f h).2 ++ p) h' -> exec hs h (Do f :: p) h'.

(** The mutexes goroutine 0 holds. *)
Definition holds_only (hs : list (M * bool)) (l : M -> lock_state) : Prop :=
  NoDup hs.*1 /\
  forall m, (m ∉ hs.*1 -> l m = Free) /\ ((m, true) ∈ hs -> l m = Writer 0) /\
    ((m, false) ∈ hs -> l m = Readers [0%nat]).

Lemma holds_only_take hs l m (w : bool) :
  holds_only hs l -> m ∉ hs.*1 ->
  holds_only ((m, w) :: hs) (set_lock l m (if w then Writer 0 else Readers [0%nat])).
Proof.
  intros [Hnd Hl] Hm. split; [by constructor|]. intros m'. cbn [fmap list_fmap fst].
  destruct (decide (m' = m)) as [->|Hne].
  - rewrite set_lock_eq. split; [intros Hn; exfalso; apply Hn; by left|].
    split; intros [Heq|Hin]%elem_of_cons; simplify_eq; try done;
      exfalso; apply Hm; by apply list_elem_of_fmap; eexists (_, _).
  - rewrite set_lock_ne by done. destruct (Hl m') as (H1 & H2 & H3).
    split; [|split]; [intros Hn; apply H1; intros Hin; apply Hn; by right| |];
      intros [Heq|Hin]%elem_of_cons; simplify_eq; auto.
Qed.

Lemma holds_only_release hs l m (w : bool) :
  holds_only ((m, w) :: hs) l -> holds_only hs (set_lock l m Free).
Proof.
  intros [Hnd Hl]. cbn in Hnd. apply list.NoDup_cons in Hnd as [Hm Hnd]. split; [done|]. intros m'.
  destruct (decide (m' = m)) as [->|Hne].
  - rewrite set_lock_eq. split; [done|]. split; intros Hin; exfalso; apply Hm;
      by apply list_elem_of_fmap; eexists (_, _).
  - rewrite set_lock_ne by done. destruct (Hl m') as (H1 & H2 & H3). split; [|split].
    + intros Hn. apply H1. cbn. rewrite elem_of_cons. tauto.
    + intros Hin. apply H2. by right.
    + intros Hin. apply H3. by right.
Qed.

Lemma exec_reachable hs h p h' l :
  exec hs h p h' -> holds_only hs l ->
  exists l', reachable (mkConfig h l [p]) (mkConfig h' l' [[]]) /\ forall m, l' m = Free.
Proof.
  intros Hex. revert l.
  induction Hex as [h|hs h m p h' Hm Hex IH|hs h m p h' Hm Hex IH|hs h m p h' Hex IH|hs h m p h' Hex IH
    |hs h f p h' Hex IH]; intros l Hl.
  - exists l. split; [apply rtc_refl|]. intros m. apply Hl. apply not_elem_of_nil.
  - destruct (IH (set_lock l m (Writer 0))) as (l' & Hr & Hf); [by apply (holds_only_take hs l m true)|].
    exists l'. split; [|done]. eapply rtc_l; [|exact Hr]. exists 0%nat. cbn.
    by rewrite (proj1 (proj2 Hl m) Hm).
  - destruct (IH (set_lock l m (Readers [0%nat]))) as (l' & Hr & Hf); [by apply (holds_only_take hs l m false)|].
    exists l'. split; [|done]. eapply rtc_l; [|exact Hr]. exists 0%nat. cbn.
    by rewrite (proj1 (proj2 Hl m) Hm).
  - destruct (IH (set_lock l m Free)) as (l' & Hr & Hf); [by eapply holds_only_release|].
    exists l'. split; [|done]. eapply rtc_l; [|exact Hr]. by exists 0%nat.
  - destruct (IH (set_lock l m Free)) as (l' & Hr & Hf); [by eapply holds_only_release|].
    exists l'. split; [|done]. eapply rtc_l; [|exact Hr]. exists 0%nat. cbn.
    destruct (proj2 Hl m) as (_ & _ & H3). rewrite H3 by (by left). done.
  - destruct (IH l Hl) as (l' & Hr & Hf). exists l'. split; [|done]. eapply rtc_l; [|exact Hr].
    exists 0%nat. cbn. by destruct (f h).
Qed.

Lemma holds_nothing l : (forall m, l m = Free) -> holds_only [] l.
Proof. intros Hl. split; [constructor|]. intros m. split; [done|]. split; intros H; by apply elem_of_nil in H. Qed.

Lemma exec_act hs h f p h' : exec hs (f h) p h' -> exec hs h (act f :: p) h'.
Proof. intros H. by constructor. Qed.

(** A loop of locked updates. *)
Lemma exec_loop {A : Type} hs (mu : A -> M) (f : A -> St -> St) (xs : list A) h p h' :
  (forall x, x ∈ xs -> mu x ∉ hs.*1) ->
  exec hs (foldl (fun h x => f x h) h xs) p h' ->
  exec hs h (mjoin (map (fun x => [Lock (mu x); act (f x); Unlock (mu x)]) xs) ++ p) h'.
Proof.
  revert h. induction xs as [|x xs IH]; intros h Hmu Hex; [done|]. cbn [map mjoin list_join app foldl] in *.
  constructor; [apply Hmu; by left|]. apply exec_act. constructor. apply IH; [|done].
  intros y Hy. apply Hmu. by right.
Qed.

(** ** One goroutine *)

Lemma step_alone t h l p cf' : step t (mkConfig h l [p]) = Some cf' -> t = 0%nat /\ exists p', threads cf' = [p'].
Proof.
  destruct t; [|done]. cbn. destruct p as [|i p]; [done|].
  destruct i; [destruct (l m)| |destruct (l m)| |destruct (f h)]; intros; simplify_eq/=; eauto.
Qed.

Lemma runs_alone_unique h l p cf1 cf2 :
  reachable (mkConfig h l [p]) cf1 -> reachable (mkConfig h l [p]) cf2 -> stuck cf1 -> stuck cf2 -> cf1 = cf2.
Proof.
  intros H1 H2 Hs1 Hs2. remember (mkConfig h l [p]) as cf eqn:Hcf. revert h l p Hcf.
  induction H1 as [cf|cf cfm cf1 [t Hst] Hr IH]; intros h l p ->.
  - inversion H2 as [|? ? ? [t Hst] ?]; subst; [done|]. by rewrite Hs1 in Hst.
  - destruct (step_alone _ _ _ _ _ Hst) as [-> [p' Hp']].
    inversion H2 as [|? ? ? [t' Hst'] Hr']; subst; [by rewrite Hs2 in Hst|].
    destruct (step_alone _ _ _ _ _ Hst') as [-> _]. rewrite Hst in Hst'. simplify_eq.
    destruct y as [hm lm tm]; cbn in Hp'; subst tm. by eapply IH.
Qed.

Lemma stuck_done h l : stuck (mkConfig h l [[]]).
Proof. by intros [|[|t]]. Qed.

Lemma stuck_locked h l m p : l m <> Free -> stuck (mkConfig h l [Lock m :: p]).
Proof. intros Hm [|[|t]]; cbn; [by destruct (l m)|done|done]. Qed.
End threads.

#[global] Arguments config : clear implicits.

Lemma ordered_Acc {St M : Type} `{EqDecision M} `{Ranked M} (hs : list (M * bool)) (p : list (@instr St M)) : ordered hs p -> Acc next_prog p.
Proof.
  induction 1 as [|hs m p Hr Hp IH|hs m p Hr Hp IH|hs m p Hp IH|hs m p Hp IH|hs f p Hp IH];
    constructor; intros p'; cbn; [done|by intros ->..|]. intros [h ->]. apply IH.
Qed.

(** Goroutines that take their mutexes in order: every run ends, and when none can go
    on all are done. *)
Lemma ordered_progress {St M : Type} `{EqDecision M} `{Ranked M} (s : St) (ps : list (list (@instr St M))) :
  Forall (ordered []) ps ->
  let cf := start s ps in
  Acc (fun cf' cf => some_step cf cf') cf /\
  forall cf', reachable cf cf' -> (forall t, step t cf' = None) -> Forall (fun p => p = []) (threads cf').
Proof.
  intros Hord cf. split.
  - apply config_Acc, progs_Acc. cbn. eapply Forall_impl; [|exact Hord]. intros p. apply ordered_Acc.
  - intros cf' Hr Hst. destruct (reachable_lock_inv cf cf' _ Hr (start_lock_inv s _ Hord)) as [held Hinv].
    apply list.Forall_forall. intros p Hp. apply list_elem_of_lookup in Hp as [t Ht].
    by eapply (no_deadlock held cf').
Qed.

Lemma waiting_all {A : Type} (ps : list (list A)) :
  forallb (fun p => match p with [] => false | _ => true end) ps = true -> Forall (fun p => p <> []) ps.
Proof. rewrite forallb_forall, <- List.Forall_forall. apply Forall_impl. by intros []. Qed.

(** An order in which the objects of a set can be ranged over. *)
Definition by_elements (s : gset nat) : list nat := elements s.

(** Solves the obligations of a straight program. *)
Ltac ordered_step :=
  match goal with
  | |- ordered [] [] => constructor
  | |- ordered _ (Lock _ :: _) => constructor; [repeat constructor; cbn; lia|]
  | |- ordered _ (RLock _ :: _) => constructor; [repeat constructor; cbn; lia|]
  | |- ordered _ (Unlock _ :: _) => constructor
  | |- ordered _ (RUnlock _ :: _) => constructor
  | |- ordered _ (act _ :: _) => apply ordered_act
  | |- ordered _ (Do (fun h => (_, [])) :: _) => apply ordered_act
  end.

