(* ===== verification/Hub.v ===== *)
(** * The WebSocket hub ([pantry/websocket/hub.go])

    Clients, rooms and the hub, with their mutexes: the operations are programs of
    [Threads], whose goroutines are interleaved at every instruction.

    A client, a room and a connection are addresses.  Of a connection
    ([websocket.go]) the part the hub depends on is modelled: its flag, its mutex
    and its close handler; what the network library answers to a write is an
    argument. *)

From S2P Require Import Prelude Threads.

(** ** State *)

Record Client := mkClient {
  c_id : string;
  c_conn : nat;
  c_data : gmap string string;
  c_rooms : gmap string nat
}.

Record Room := mkRoom { r_name : string; r_clients : gset nat }.

(** [k_onClose] is the client whose removal the close handler calls. *)
Record Conn := mkConn { k_closed : bool; k_onClose : option nat }.

Inductive output :=
| Connected (c : nat)
| Disconnected (c : nat)
| Wrote (k : nat) (data : string)
| BroadcastDone (lastErr : option ws_error)
with ws_error := ErrConnectionClosed | NetworkError.

Record Hub := mkHub {
  clients : gset nat;
  rooms : gmap string nat;
  closed : bool;
  client_at : gmap nat Client;
  room_at : gmap nat Room;
  conn_at : gmap nat Conn;
  next : nat;
  out : list output
}.

Definition NewHub : Hub := mkHub ∅ ∅ false ∅ ∅ ∅ 0 [].

Definition set_client (h : Hub) (c : nat) (x : Client) : Hub :=
  mkHub (clients h) (rooms h) (closed h) (<[c := x]> (client_at h)) (room_at h) (conn_at h) (next h) (out h).
Definition set_room (h : Hub) (r : nat) (x : Room) : Hub :=
  mkHub (clients h) (rooms h) (closed h) (client_at h) (<[r := x]> (room_at h)) (conn_at h) (next h) (out h).
Definition set_conn (h : Hub) (k : nat) (x : Conn) : Hub :=
  mkHub (clients h) (rooms h) (closed h) (client_at h) (room_at h) (<[k := x]> (conn_at h)) (next h) (out h).
Definition emit (h : Hub) (o : output) : Hub :=
  mkHub (clients h) (rooms h) (closed h) (client_at h) (room_at h) (conn_at h) (next h) (out h ++ [o]).

(** Reads of the objects. *)
Definition rooms_of (h : Hub) (c : nat) : gmap string nat := from_option c_rooms ∅ (client_at h !! c).
Definition members (h : Hub) (r : nat) : gset nat := from_option r_clients ∅ (room_at h !! r).
Definition name_of (h : Hub) (r : nat) : string := from_option r_name "" (room_at h !! r).
Definition conn_of (h : Hub) (c : nat) : nat := from_option c_conn 0%nat (client_at h !! c).

(** Writes to a field of an object. *)
Definition update_rooms (h : Hub) (c : nat) (f : gmap string nat -> gmap string nat) : Hub :=
  match client_at h !! c with
  | Some x => set_client h c (mkClient (c_id x) (c_conn x) (c_data x) (f (c_rooms x)))
  | None => h
  end.
Definition update_members (h : Hub) (r : nat) (f : gset nat -> gset nat) : Hub :=
  match room_at h !! r with
  | Some x => set_room h r (mkRoom (r_name x) (f (r_clients x)))
  | None => h
  end.

(** ** Programs *)

Inductive mutex := MHub | MRoom (r : nat) | MClient (c : nat) | MConn (k : nat).

#[global] Instance mutex_eq_dec : EqDecision mutex.
Proof. solve_decision. Defined.

(** Hub before room before client before connection. *)
Definition mutex_rank (m : mutex) : nat :=
  match m with MHub => 0 | MRoom _ => 1 | MClient _ => 2 | MConn _ => 3 end.

#[global] Instance mutex_ranked : Ranked mutex :=
  {| rank := mutex_rank; rank_bound := 4; rank_lt := ltac:(intros []; cbn; lia) |}.

Abbreviation prog := (list (@instr Hub mutex)).
Abbreviation config := (Threads.config Hub mutex).
Abbreviation hub := (@state Hub mutex).

Section operations.
(** The orders in which the maps are ranged over, and what the network answers. *)
Context (order : gset nat -> list nat) (rorder : gmap string nat -> list nat).
Context (net : nat -> string -> bool).

Definition NewClient (conn : nat) (id : string) : prog :=
  [Lock MHub;
   act (fun h =>
     if closed h then h
     else
       let c := next h in
       emit
         (mkHub ({[c]} ∪ clients h) (rooms h) (closed h) (<[c := mkClient id conn ∅ ∅]> (client_at h))
            (room_at h)
            (<[conn := mkConn (from_option k_closed false (conn_at h !! conn)) (Some c)]> (conn_at h))
            (S c) (out h))
         (Connected c));
   Unlock MHub].

Definition removeClient (c : nat) : prog :=
  [Lock MHub;
   Do (fun h =>
     if decide (c ∈ clients h) then
       (h,
        [Lock (MClient c);
         Do (fun h =>
           (h, mjoin (map (fun r => [Lock (MRoom r); act (fun h => update_members h r (fun s => s ∖ {[c]}));
                                     Unlock (MRoom r)]) (rorder (rooms_of h c)))));
         act (fun h => update_rooms h c (fun _ => ∅));
         Unlock (MClient c);
         act (fun h =>
           emit
             (mkHub (clients h ∖ {[c]}) (rooms h) (closed h) (client_at h) (room_at h) (conn_at h)
                (next h) (out h))
             (Disconnected c))])
     else (h, []));
   Unlock MHub].

(** [conn.Close()]: the handler runs after the mutex is released. *)
Definition Conn_Close (k : nat) : prog :=
  [Lock (MConn k);
   Do (fun h =>
     match conn_at h !! k with
     | Some x =>
         if k_closed x then (h, [Unlock (MConn k)])
         else
           (set_conn h k (mkConn true (k_onClose x)),
            Unlock (MConn k) :: from_option removeClient [] (k_onClose x))
     | None => (h, [Unlock (MConn k)])
     end)].

Definition Hub_Close : prog :=
  [Lock MHub;
   Do (fun h =>
     if closed h then (h, [])
     else
       (mkHub (clients h) (rooms h) true (client_at h) (room_at h) (conn_at h) (next h) (out h),
        mjoin (map (fun c => Conn_Close (conn_of h c)) (order (clients h))) ++
        [act (fun h => mkHub ∅ ∅ (closed h) (client_at h) (room_at h) (conn_at h) (next h) (out h))]));
   Unlock MHub].

(** [GetRoom], and what its caller does with the room. *)
Definition GetRoom (name : string) (k : nat -> prog) : prog :=
  [Lock MHub;
   Do (fun h =>
     match rooms h !! name with
     | Some r => (h, Unlock MHub :: k r)
     | None =>
         let r := next h in
         (mkHub (clients h) (<[name := r]> (rooms h)) (closed h) (client_at h)
            (<[r := mkRoom name ∅]> (room_at h)) (conn_at h) (S r) (out h),
          Unlock MHub :: k r)
     end)].

Definition DeleteRoom (name : string) : prog :=
  [Lock MHub;
   Do (fun h =>
     match rooms h !! name with
     | None => (h, [Unlock MHub])
     | Some r =>
         (mkHub (clients h) (delete name (rooms h)) (closed h) (client_at h) (room_at h) (conn_at h)
            (next h) (out h),
          [Unlock MHub;
           Lock (MRoom r);
           Do (fun h =>
             (h, mjoin (map (fun c => [Lock (MClient c); act (fun h => update_rooms h c (delete name));
                                       Unlock (MClient c)]) (order (members h r)))));
           act (fun h => update_members h r (fun _ => ∅));
           Unlock (MRoom r)])
     end)].

Definition Room_Join (r c : nat) : prog :=
  [Lock (MRoom r);
   act (fun h => update_members h r (fun s => {[c]} ∪ s));
   Unlock (MRoom r);
   Lock (MClient c);
   act (fun h => update_rooms h c (<[name_of h r := r]>));
   Unlock (MClient c)].

Definition Room_Leave (r c : nat) : prog :=
  [Lock (MRoom r);
   act (fun h => update_members h r (fun s => s ∖ {[c]}));
   Unlock (MRoom r);
   Lock (MClient c);
   act (fun h => update_rooms h c (delete (name_of h r)));
   Unlock (MClient c)].

Definition Client_Join (c : nat) (roomName : string) : prog :=
  GetRoom roomName (fun r => Room_Join r c).

Definition Client_Leave (c : nat) (roomName : string) : prog :=
  [RLock (MClient c);
   Do (fun h =>
     (h, RUnlock (MClient c) :: from_option (fun r => Room_Leave r c) [] (rooms_of h c !! roomName)))].

Definition Client_Set (c : nat) (key value : string) : prog :=
  [Lock (MClient c);
   act (fun h =>
     match client_at h !! c with
     | Some x => set_client h c (mkClient (c_id x) (c_conn x) (<[key := value]> (c_data x)) (c_rooms x))
     | None => h
     end);
   Unlock (MClient c)].

(** The sends of a broadcast, one client after the other, with the last error. *)
Fixpoint send_all (cs : list nat) (data : string) (lastErr : option ws_error) : prog :=
  match cs with
  | [] => [act (fun h => emit h (BroadcastDone lastErr))]
  | c :: cs =>
      [Do (fun h =>
         let k := conn_of h c in
         (h,
          [Lock (MConn k);
           Do (fun h =>
             if from_option k_closed false (conn_at h !! k)
             then (h, Unlock (MConn k) :: send_all cs data (Some ErrConnectionClosed))
             else if net k data then (emit h (Wrote k data), Unlock (MConn k) :: send_all cs data lastErr)
             else (h, Unlock (MConn k) :: send_all cs data (Some NetworkError)))]))]
  end.

Definition Broadcast (data : string) : prog :=
  [RLock MHub; Do (fun h => (h, RUnlock MHub :: send_all (order (clients h)) data None))].

Definition BroadcastExcept (except : nat) (data : string) : prog :=
  [RLock MHub;
   Do (fun h => (h, RUnlock MHub ::
     send_all (filter (fun c => c <> except) (order (clients h))) data None))].

Definition Room_Broadcast (r : nat) (data : string) : prog :=
  [RLock (MRoom r); Do (fun h => (h, RUnlock (MRoom r) :: send_all (order (members h r)) data None))].

Definition Room_BroadcastExcept (r except : nat) (data : string) : prog :=
  [RLock (MRoom r);
   Do (fun h => (h, RUnlock (MRoom r) ::
     send_all (filter (fun c => c <> except) (order (members h r))) data None))].
End operations.

(** Reads. *)
Definition Clients (h : Hub) : Z := Z.of_nat (size (clients h)).
Definition Room_ (h : Hub) (name : string) : option nat := rooms h !! name.
Definition Has (h : Hub) (r c : nat) : bool := bool_decide (c ∈ members h r).
Definition Size (h : Hub) (r : nat) : Z := Z.of_nat (size (members h r)).
Definition InRoom (h : Hub) (c : nat) (name : string) : bool := bool_decide (is_Some (rooms_of h c !! name)).
Definition Client_Get (h : Hub) (c : nat) (key : string) : option string :=
  client_at h !! c ≫= fun x => c_data x !! key.

(** ** Operations, as requests of a goroutine *)

Inductive hub_op :=
| OpNewClient (conn : nat) (id : string)
| OpGetRoom (name : string)
| OpDeleteRoom (name : string)
| OpRoomJoin (r c : nat)
| OpRoomLeave (r c : nat)
| OpJoin (c : nat) (name : string)
| OpLeave (c : nat) (name : string)
| OpSet (c : nat) (key value : string)
| OpBroadcast (data : string)
| OpBroadcastExcept (except : nat) (data : string)
| OpRoomBroadcast (r : nat) (data : string)
| OpRoomBroadcastExcept (r except : nat) (data : string)
| OpConnClose (k : nat)
| OpHubClose.

Section op_prog.
Context (order : gset nat -> list nat) (rorder : gmap string nat -> list nat).
Context (net : nat -> string -> bool).

Definition op_prog (o : hub_op) : prog :=
  match o with
  | OpNewClient conn id => NewClient conn id
  | OpGetRoom name => GetRoom name (fun _ => [])
  | OpDeleteRoom name => DeleteRoom order name
  | OpRoomJoin r c => Room_Join r c
  | OpRoomLeave r c => Room_Leave r c
  | OpJoin c name => Client_Join c name
  | OpLeave c name => Client_Leave c name
  | OpSet c key value => Client_Set c key value
  | OpBroadcast data => Broadcast order net data
  | OpBroadcastExcept except data => BroadcastExcept order net except data
  | OpRoomBroadcast r data => Room_Broadcast order net r data
  | OpRoomBroadcastExcept r except data => Room_BroadcastExcept order net r except data
  | OpConnClose k => Conn_Close rorder k
  | OpHubClose => Hub_Close order rorder
  end.

(** A goroutine that performs operations one after the other. *)
Definition ops_prog (os : list hub_op) : prog := mjoin (map op_prog os).
End op_prog.

(** Closing a connection removes its client, and closing the hub closes every
    connection: the other operations take their mutexes in order. *)
Definition in_order (o : hub_op) : bool :=
  match o with OpConnClose _ | OpHubClose => false | _ => true end.

Section ordered_ops.
Context (order : gset nat -> list nat) (rorder : gmap string nat -> list nat).
Context (net : nat -> string -> bool).

Lemma ordered_send_all cs data lastErr : ordered [] (send_all net cs data lastErr).
Proof.
  revert lastErr. induction cs as [|c cs IH]; intros lastErr; cbn [send_all]; [repeat ordered_step|].
  constructor. intros h. cbn. repeat ordered_step. constructor. intros h'.
  destruct (from_option _ _ _); [|destruct (net _ _)]; cbn; rewrite app_nil_r; ordered_step; apply IH.
Qed.

Lemma ordered_op o : in_order o = true -> ordered [] (op_prog order rorder net o).
Proof.
  destruct o; intros Ho; try done; cbn [op_prog];
    unfold NewClient, GetRoom, DeleteRoom, Room_Join, Room_Leave, Client_Join, Client_Leave, Client_Set,
      Broadcast, BroadcastExcept, Room_Broadcast, Room_BroadcastExcept;
    repeat ordered_step; try (constructor; intros h; cbn; rewrite app_nil_r; ordered_step; apply ordered_send_all).
  - constructor. intros h. destruct (rooms h !! name); cbn; repeat ordered_step.
  - constructor. intros h. destruct (rooms h !! name) as [r|]; cbn; repeat ordered_step.
    constructor. intros h'. cbn [snd]. apply ordered_mjoin; [|repeat ordered_step].
    intros p q Hp Hq. apply list_elem_of_fmap in Hp as (c & -> & _). cbn. by repeat ordered_step.
  - unfold GetRoom. ordered_step. constructor. intros h. destruct (rooms h !! name); cbn; repeat ordered_step.
  - constructor. intros h. cbn. ordered_step. destruct (rooms_of h c !! name); cbn; repeat ordered_step.
Qed.

Lemma ordered_ops os :
  forallb in_order os = true -> ordered [] (ops_prog order rorder net os).
Proof.
  unfold ops_prog. induction os as [|o os IH]; cbn; [intros _; constructor|].
  intros [Ho Hos]%andb_true_iff. apply ordered_app; [by apply ordered_op|by apply IH].
Qed.
End ordered_ops.

(** ** Membership *)

(** The members of a room are connected clients that know they are in it; the
    rooms a client knows are the hub's, and count it among their members. *)
Record consistent (h : Hub) : Prop := {
  con_member r c : c ∈ members h r -> c ∈ clients h /\ rooms_of h c !! name_of h r = Some r;
  con_room c n r : rooms_of h c !! n = Some r -> c ∈ members h r /\ rooms h !! n = Some r;
  con_name n r : rooms h !! n = Some r -> name_of h r = n /\ is_Some (room_at h !! r);
  con_client c : c ∈ clients h -> is_Some (client_at h !! c);
  con_fresh c : is_Some (client_at h !! c) \/ is_Some (room_at h !! c) -> (c < next h)%nat
}.

(** Only connected clients join, rooms are used while the hub has them, and the
    hub is not closed. *)
Definition allowed (h : Hub) (o : hub_op) : Prop :=
  match o with
  | OpRoomJoin r c => rooms h !! name_of h r = Some r /\ c ∈ clients h
  | OpRoomLeave r _ => rooms h !! name_of h r = Some r
  | OpJoin c _ => c ∈ clients h
  | OpHubClose => False
  | _ => True
  end.

Lemma members_update h r f r' :
  members (update_members h r f) r' =
  if decide (r' = r /\ is_Some (room_at h !! r)) then f (members h r) else members h r'.
Proof.
  unfold members, update_members. destruct (room_at h !! r) as [x|] eqn:Hx.
  - cbn. destruct (decide (r' = r)) as [->|Hne].
    + rewrite lookup_insert_eq, decide_True by (split; eauto). cbn. done.
    + rewrite lookup_insert_ne, decide_False by naive_solver. done.
  - rewrite decide_False; [done|]. intros [_ [? ?]]. done.
Qed.

Lemma rooms_of_update h c f c' :
  rooms_of (update_rooms h c f) c' =
  if decide (c' = c /\ is_Some (client_at h !! c)) then f (rooms_of h c) else rooms_of h c'.
Proof.
  unfold rooms_of, update_rooms. destruct (client_at h !! c) as [x|] eqn:Hx.
  - cbn. destruct (decide (c' = c)) as [->|Hne].
    + rewrite lookup_insert_eq, decide_True by (split; eauto). cbn. done.
    + rewrite lookup_insert_ne, decide_False by naive_solver. done.
  - rewrite decide_False; [done|]. intros [_ [? ?]]. done.
Qed.

(** What the updates leave alone. *)
Record same_frame (h h' : Hub) : Prop := {
  sf_clients : clients h' = clients h;
  sf_rooms : rooms h' = rooms h;
  sf_next : next h' = next h;
  sf_name r : name_of h' r = name_of h r;
  sf_room r : is_Some (room_at h' !! r) <-> is_Some (room_at h !! r);
  sf_client c : is_Some (client_at h' !! c) <-> is_Some (client_at h !! c)
}.

Lemma same_frame_refl h : same_frame h h.
Proof. by split. Qed.

Lemma same_frame_trans h1 h2 h3 : same_frame h1 h2 -> same_frame h2 h3 -> same_frame h1 h3.
Proof.
  intros [A1 A2 A3 A4 A5 A6] [B1 B2 B3 B4 B5 B6]. split; try congruence.
  - intros r. by rewrite B5.
  - intros c. by rewrite B6.
Qed.

Lemma update_rooms_frame h c f : same_frame h (update_rooms h c f).
Proof.
  unfold update_rooms. destruct (client_at h !! c) as [x|] eqn:Hx; [|apply same_frame_refl].
  split; try done. intros c'. cbn. rewrite lookup_insert_is_Some. split.
  - intros [->|[_ ?]]; [by rewrite Hx|done].
  - intros ?. destruct (decide (c = c')); [by left|by right].
Qed.

Lemma update_members_frame h r f : same_frame h (update_members h r f).
Proof.
  unfold update_members. destruct (room_at h !! r) as [x|] eqn:Hx; [|apply same_frame_refl].
  split; try done.
  - intros r'. unfold name_of. cbn. destruct (decide (r = r')) as [<-|Hne].
    + by rewrite lookup_insert_eq, Hx.
    + by rewrite lookup_insert_ne.
  - intros r'. cbn. rewrite lookup_insert_is_Some. split.
    + intros [->|[_ ?]]; [by rewrite Hx|done].
    + intros ?. destruct (decide (r = r')); [by left|by right].
Qed.

Lemma rooms_of_members h r f c : rooms_of (update_members h r f) c = rooms_of h c.
Proof. unfold update_members. by destruct (room_at h !! r). Qed.

Lemma members_of_rooms h c f r : members (update_rooms h c f) r = members h r.
Proof. unfold update_rooms. by destruct (client_at h !! c). Qed.

(** The loops of [removeClient] and [DeleteRoom]. *)
Lemma remove_from_rooms c rs h :
  let h' := foldl (fun h r => update_members h r (fun s => s ∖ {[c]})) h rs in
  same_frame h h' /\ (forall x, rooms_of h' x = rooms_of h x) /\
  forall r x, x ∈ members h' r <-> x ∈ members h r /\ ~ (x = c /\ r ∈ rs).
Proof.
  revert h. induction rs as [|r rs IH]; intros h; cbn [foldl].
  - split; [apply same_frame_refl|]. split; [done|]. intros r x. split; [|tauto].
    intros Hx. split; [done|]. intros [_ Hr]. by apply elem_of_nil in Hr.
  - destruct (IH (update_members h r (fun s => s ∖ {[c]}))) as (Hf & Hr & Hm).
    split; [eapply same_frame_trans; [apply update_members_frame|exact Hf]|].
    split; [intros x; by rewrite Hr, rooms_of_members|]. intros r' x. rewrite Hm, members_update.
    rewrite elem_of_cons. case_decide as Hd.
    + destruct Hd as [-> _]. rewrite elem_of_difference, elem_of_singleton. tauto.
    + split; [|tauto]. intros [Hx Hn]. split; [done|]. intros [-> [->|?]]; [|tauto].
      apply Hd. split; [done|]. unfold members in Hx. destruct (room_at h !! r); [done|]. cbn in Hx. set_solver.
Qed.

Lemma delete_from_clients n cs h :
  let h' := foldl (fun h c => update_rooms h c (delete n)) h cs in
  same_frame h h' /\ (forall r, members h' r = members h r) /\
  forall c m, rooms_of h' c !! m = if decide (c ∈ cs /\ m = n) then None else rooms_of h c !! m.
Proof.
  revert h. induction cs as [|c cs IH]; intros h; cbn [foldl].
  - split; [apply same_frame_refl|]. split; [done|]. intros c m. rewrite decide_False; [done|].
    intros [Hc _]. by apply elem_of_nil in Hc.
  - destruct (IH (update_rooms h c (delete n))) as (Hf & Hm & Hr).
    split; [eapply same_frame_trans; [apply update_rooms_frame|exact Hf]|].
    split; [intros r; by rewrite Hm, members_of_rooms|]. intros c' m. rewrite Hr, rooms_of_update.
    assert (forall x, (if decide (c' = c /\ is_Some (client_at h !! c)) then delete n (rooms_of h c) else rooms_of h c') !! x =
      if decide (c' = c /\ x = n) then None else rooms_of h c' !! x) as Hone.
    { intros x. destruct (decide (c' = c)) as [->|Hne].
      - destruct (client_at h !! c) as [y|] eqn:Hy.
        + rewrite (decide_True (P := c = c /\ is_Some (Some y))) by eauto. destruct (decide (x = n)) as [->|Hx].
          * by rewrite lookup_delete_eq, decide_True.
          * rewrite lookup_delete_ne by done. by rewrite decide_False by naive_solver.
        + rewrite decide_False by (intros [_ [? ?]]; done). unfold rooms_of. rewrite Hy. cbn.
          rewrite lookup_empty. by case_decide.
      - rewrite !decide_False by naive_solver. done. }
    rewrite Hone. destruct (decide (c' ∈ cs /\ m = n)) as [Hd|Hd].
    + rewrite decide_True; [done|]. destruct Hd. split; [by right|done].
    + destruct (decide (c' = c /\ m = n)) as [[-> ->]|Hd2].
      * rewrite decide_True; [done|]. split; [by left|done].
      * rewrite decide_False; [done|]. intros [[->|?]%elem_of_cons ->]; tauto.
Qed.

Lemma consistent_ext h h' :
  same_frame h h' -> (forall r, members h' r = members h r) -> (forall c, rooms_of h' c = rooms_of h c) ->
  consistent h -> consistent h'.
Proof.
  intros [F1 F2 F3 F4 F5 F6] Hm Hr [H1 H2 H3 H4 H5]. split.
  - intros r c. rewrite Hm, F1, Hr, F4. apply H1.
  - intros c n r. rewrite Hm, F2, Hr. apply H2.
  - intros n r. rewrite F2, F4, F5. apply H3.
  - intros c. rewrite F1, F6. apply H4.
  - intros c. rewrite F3, F5, F6. apply H5.
Qed.

Lemma consistent_new : consistent NewHub.
Proof.
  split; unfold members, rooms_of; cbn; intros *; rewrite ?lookup_empty; cbn; try set_solver.
Qed.

Section serial.
Context (order : gset nat -> list nat) (rorder : gmap string nat -> list nat).
Context (net : nat -> string -> bool).
Context (Horder : forall s, order s ≡ₚ elements s).
Context (Hrorder : forall m, rorder m ≡ₚ (map_to_list m).*2).

Lemma elem_of_order s c : c ∈ order s <-> c ∈ s.
Proof. rewrite (Horder s). apply elem_of_elements. Qed.

Lemma elem_of_rorder m r : r ∈ rorder m <-> exists n, m !! n = Some r.
Proof.
  rewrite (Hrorder m), list_elem_of_fmap. split.
  - intros ([n r'] & -> & Hr). apply elem_of_map_to_list in Hr. eauto.
  - intros (n & Hn). exists (n, r). split; [done|]. by apply elem_of_map_to_list.
Qed.

Definition performs (h : Hub) (o : hub_op) (h' : Hub) : Prop := exec (St:=Hub) [] h (op_prog order rorder net o) h'.

Lemma exec_act3 h m f : exec [] h ([Lock m; act f; Unlock m] : prog) (f h).
Proof. constructor; [apply not_elem_of_nil|]. apply exec_act. constructor. constructor. Qed.

(** *** New clients and rooms *)

Lemma consistent_new_client h conn id :
  consistent h -> exists h', performs h (OpNewClient conn id) h' /\ consistent h'.
Proof.
  intros Hc. eexists. split; [apply exec_act3|]. cbn. destruct (closed h); [done|].
  destruct Hc as [H1 H2 H3 H4 H5]. set (c := next h).
  assert (client_at h !! c = None) as Hno.
  { apply eq_None_not_Some. intros Hs. specialize (H5 c (or_introl Hs)). lia. }
  assert (forall r, members (emit (mkHub ({[c]} ∪ clients h) (rooms h) (closed h)
     (<[c := mkClient id conn ∅ ∅]> (client_at h)) (room_at h)
     (<[conn := mkConn (from_option k_closed false (conn_at h !! conn)) (Some c)]> (conn_at h)) (S c) (out h))
     (Connected c)) r = members h r) as Hm by done.
  split; cbn [clients rooms emit next].
  - intros r x Hx. destruct (H1 r x Hx) as [Hcl Hr]. split; [by apply elem_of_union_r|].
    unfold rooms_of in *. cbn. rewrite lookup_insert_ne; [done|]. intros <-. by rewrite Hno in Hr.
  - intros x n r Hr. apply H2. unfold rooms_of in *. cbn in Hr. destruct (decide (c = x)) as [<-|Hne].
    + rewrite lookup_insert_eq in Hr. cbn in Hr. by rewrite lookup_empty in Hr.
    + by rewrite lookup_insert_ne in Hr.
  - intros n r Hr. by apply H3.
  - intros x. rewrite elem_of_union, elem_of_singleton. cbn. rewrite lookup_insert_is_Some.
    destruct (decide (c = x)); [tauto|]. intros [->|Hx]; [done|]. right. auto.
  - intros x. cbn. rewrite lookup_insert_is_Some. intros [[<-|[_ Hx]]|Hx]; [lia| |];
      [specialize (H5 x (or_introl Hx))|specialize (H5 x (or_intror Hx))]; lia.
Qed.

(** The room a name leads to, made if there is none. *)
Definition get_room (h : Hub) (name : string) : Hub * nat :=
  match rooms h !! name with
  | Some r => (h, r)
  | None =>
      (mkHub (clients h) (<[name := next h]> (rooms h)) (closed h) (client_at h)
         (<[next h := mkRoom name ∅]> (room_at h)) (conn_at h) (S (next h)) (out h), next h)
  end.

Lemma exec_get_room h name k h' :
  exec [] (get_room h name).1 (k (get_room h name).2) h' -> exec [] h (GetRoom name k) h'.
Proof.
  intros Hex. unfold GetRoom. constructor; [apply not_elem_of_nil|]. constructor. unfold get_room in Hex.
  destruct (rooms h !! name); cbn; rewrite app_nil_r; by constructor.
Qed.

Lemma get_room_spec h name :
  consistent h ->
  let '(h', r) := get_room h name in
  consistent h' /\ rooms h' !! name = Some r /\ clients h' = clients h.
Proof.
  intros Hc. unfold get_room. destruct (rooms h !! name) as [r|] eqn:Hr; [done|].
  destruct Hc as [H1 H2 H3 H4 H5]. set (r := next h).
  assert (room_at h !! r = None) as Hno.
  { apply eq_None_not_Some. intros Hs. specialize (H5 r (or_intror Hs)). lia. }
  assert (forall x, room_at h !! x <> None -> <[r := mkRoom name ∅]> (room_at h) !! x = room_at h !! x) as Hold
    by (intros x Hx; apply lookup_insert_ne; by intros <-).
  assert (forall x c, c ∈ from_option r_clients ∅ (<[r := mkRoom name ∅]> (room_at h) !! x) -> c ∈ members h x /\ r <> x)
    as Hmem.
  { intros x c Hx. destruct (decide (r = x)) as [<-|Hne].
    - rewrite lookup_insert_eq in Hx. cbn in Hx. set_solver.
    - rewrite lookup_insert_ne in Hx by done. done. }
  split; [|split; [cbn; apply lookup_insert_eq|done]]. split; cbn [clients rooms next].
  - intros x c Hx. apply Hmem in Hx as [Hx Hne]. destruct (H1 _ _ Hx) as [Hcl Hroom]. split; [done|].
    unfold name_of in *. cbn. by rewrite lookup_insert_ne.
  - intros c n x Hx. destruct (H2 _ _ _ Hx) as [Hm Hn]. split.
    + unfold members. cbn. rewrite lookup_insert_ne; [done|]. intros <-. unfold members in Hm. rewrite Hno in Hm.
      cbn in Hm. set_solver.
    + rewrite lookup_insert_ne; [done|]. intros <-. congruence.
  - intros n x. rewrite lookup_insert_Some. unfold name_of. cbn. intros [[<- <-]|[Hne Hx]].
    + rewrite lookup_insert_eq. eauto.
    + destruct (H3 _ _ Hx) as [Hn Hs]. rewrite lookup_insert_ne; [done|]. intros <-. rewrite Hno in Hs. by destruct Hs.
  - exact H4.
  - intros x. cbn. rewrite lookup_insert_is_Some. intros [Hx|[<-|[_ Hx]]]; [|lia|];
      [specialize (H5 x (or_introl Hx))|specialize (H5 x (or_intror Hx))]; lia.
Qed.

(** *** Joining and leaving *)

Definition join_room (h : Hub) (r c : nat) : Hub :=
  update_rooms (update_members h r (fun s => {[c]} ∪ s)) c (<[name_of h r := r]>).

Definition leave_room (h : Hub) (r c : nat) : Hub :=
  update_rooms (update_members h r (fun s => s ∖ {[c]})) c (delete (name_of h r)).

Lemma exec_join_room h r c : exec [] h (Room_Join r c) (join_room h r c).
Proof.
  unfold Room_Join. constructor; [apply not_elem_of_nil|]. apply exec_act. constructor.
  constructor; [apply not_elem_of_nil|]. apply exec_act. constructor.
  rewrite (sf_name _ _ (update_members_frame h r _)). constructor.
Qed.

Lemma exec_leave_room h r c : exec [] h (Room_Leave r c) (leave_room h r c).
Proof.
  unfold Room_Leave. constructor; [apply not_elem_of_nil|]. apply exec_act. constructor.
  constructor; [apply not_elem_of_nil|]. apply exec_act. constructor.
  rewrite (sf_name _ _ (update_members_frame h r _)). constructor.
Qed.

Lemma join_room_view h r c :
  is_Some (room_at h !! r) -> is_Some (client_at h !! c) ->
  same_frame h (join_room h r c) /\
  (forall x, members (join_room h r c) x = if decide (x = r) then {[c]} ∪ members h r else members h x) /\
  (forall x, rooms_of (join_room h r c) x = if decide (x = c) then <[name_of h r := r]> (rooms_of h c) else rooms_of h x).
Proof.
  intros Hr Hc. unfold join_room. split; [|split].
  - eapply same_frame_trans; [apply update_members_frame|apply update_rooms_frame].
  - intros x. rewrite members_of_rooms, members_update.
    destruct (decide (x = r)) as [->|Hne]; [by rewrite decide_True|by rewrite decide_False by tauto].
  - intros x. rewrite rooms_of_update, !rooms_of_members.
    pose proof (proj2 (sf_client _ _ (update_members_frame h r (fun s => {[c]} ∪ s)) c) Hc).
    destruct (decide (x = c)) as [->|Hne]; [by rewrite decide_True|by rewrite decide_False by tauto].
Qed.

Lemma leave_room_view h r c :
  is_Some (room_at h !! r) -> is_Some (client_at h !! c) ->
  same_frame h (leave_room h r c) /\
  (forall x, members (leave_room h r c) x = if decide (x = r) then members h r ∖ {[c]} else members h x) /\
  (forall x, rooms_of (leave_room h r c) x = if decide (x = c) then delete (name_of h r) (rooms_of h c) else rooms_of h x).
Proof.
  intros Hr Hc. unfold leave_room. split; [|split].
  - eapply same_frame_trans; [apply update_members_frame|apply update_rooms_frame].
  - intros x. rewrite members_of_rooms, members_update.
    destruct (decide (x = r)) as [->|Hne]; [by rewrite decide_True|by rewrite decide_False by tauto].
  - intros x. rewrite rooms_of_update, !rooms_of_members.
    pose proof (proj2 (sf_client _ _ (update_members_frame h r (fun s => s ∖ {[c]})) c) Hc).
    destruct (decide (x = c)) as [->|Hne]; [by rewrite decide_True|by rewrite decide_False by tauto].
Qed.

Lemma consistent_join_room h r c n :
  consistent h -> rooms h !! n = Some r -> c ∈ clients h -> consistent (join_room h r c).
Proof.
  intros [H1 H2 H3 H4 H5] Hn Hc. destruct (H3 _ _ Hn) as [Hname Hroom].
  destruct (join_room_view h r c Hroom (H4 _ Hc)) as ([F1 F2 F3 F4 F5 F6] & Hm & Hr). split.
  - intros x y. rewrite Hm, F1, Hr, F4. case_decide as Hx.
    + subst x. rewrite elem_of_union, elem_of_singleton. intros [->|Hy].
      * split; [done|]. rewrite decide_True by done. apply lookup_insert_eq.
      * destruct (H1 _ _ Hy) as [Hcl Hry]. split; [done|]. case_decide; subst; [apply lookup_insert_eq|done].
    + intros Hy. destruct (H1 _ _ Hy) as [Hcl Hry]. split; [done|]. case_decide; [subst y|done].
      rewrite lookup_insert_ne; [done|]. intros He. rewrite <- He, Hname in Hry. apply H2 in Hry as [_ Hry]. congruence.
  - intros x m y. rewrite Hr, F2, Hm. case_decide as Hx.
    + subst x. rewrite lookup_insert_Some. intros [[<- <-]|[Hne Hy]].
      * rewrite decide_True by done. split; [set_solver|]. by rewrite Hname.
      * destruct (H2 _ _ _ Hy). split; [|done]. case_decide; [subst; set_solver|done].
    + intros Hy. destruct (H2 _ _ _ Hy). split; [|done]. case_decide; [subst; set_solver|done].
  - intros m y. rewrite F2, F4, F5. apply H3.
  - intros y. rewrite F1, F6. apply H4.
  - intros y. rewrite F3, F5, F6. apply H5.
Qed.

Lemma consistent_leave_room h r c n :
  consistent h -> rooms_of h c !! n = Some r -> consistent (leave_room h r c).
Proof.
  intros [H1 H2 H3 H4 H5] Hcr. destruct (H2 _ _ _ Hcr) as [Hmem Hn]. destruct (H3 _ _ Hn) as [Hname Hroom].
  destruct (H1 _ _ Hmem) as [Hc _].
  destruct (leave_room_view h r c Hroom (H4 _ Hc)) as ([F1 F2 F3 F4 F5 F6] & Hm & Hr). split.
  - intros x y. rewrite Hm, F1, Hr, F4. case_decide as Hx.
    + subst x. rewrite elem_of_difference, elem_of_singleton. intros [Hy Hyc].
      destruct (H1 _ _ Hy) as [Hcl Hry]. split; [done|]. by rewrite decide_False.
    + intros Hy. destruct (H1 _ _ Hy) as [Hcl Hry]. split; [done|]. case_decide; [subst y|done].
      rewrite lookup_delete_ne; [done|]. intros He. rewrite <- He, Hname in Hry. apply H2 in Hry as [_ Hry]. congruence.
  - intros x m y. rewrite Hr, F2, Hm. case_decide as Hx.
    + subst x. rewrite lookup_delete_Some. intros [Hne Hy]. destruct (H2 _ _ _ Hy) as [Hmy Hny]. split; [|done].
      rewrite decide_False; [done|]. intros ->. destruct (H3 _ _ Hny). congruence.
    + intros Hy. destruct (H2 _ _ _ Hy) as [Hmy Hny]. split; [|done]. case_decide; [subst; set_solver|done].
  - intros m y. rewrite F2, F4, F5. apply H3.
  - intros y. rewrite F1, F6. apply H4.
  - intros y. rewrite F3, F5, F6. apply H5.
Qed.

Lemma consistent_join h c name :
  consistent h -> c ∈ clients h -> exists h', performs h (OpJoin c name) h' /\ consistent h'.
Proof.
  intros Hc Hcl. pose proof (get_room_spec h name Hc) as Hg. destruct (get_room h name) as [h1 r] eqn:He.
  destruct Hg as (Hc1 & Hr & Hcl1). exists (join_room h1 r c). split.
  - apply (exec_get_room h name). rewrite He. apply exec_join_room.
  - eapply consistent_join_room; [done|exact Hr|by rewrite Hcl1].
Qed.

Lemma consistent_leave h c name :
  consistent h -> exists h', performs h (OpLeave c name) h' /\ consistent h'.
Proof.
  intros Hc. destruct (rooms_of h c !! name) as [r|] eqn:Hr.
  - exists (leave_room h r c). split; [|by eapply consistent_leave_room].
    constructor; [apply not_elem_of_nil|]. constructor. cbn. rewrite Hr. constructor. cbn. apply exec_leave_room.
  - exists h. split; [|done].
    constructor; [apply not_elem_of_nil|]. constructor. cbn. rewrite Hr. constructor. constructor.
Qed.

(** *** Deleting a room *)

Definition delete_room (h : Hub) (name : string) : Hub :=
  match rooms h !! name with
  | None => h
  | Some r =>
      let h := mkHub (clients h) (delete name (rooms h)) (closed h) (client_at h) (room_at h) (conn_at h)
                 (next h) (out h) in
      update_members (foldl (fun h c => update_rooms h c (delete name)) h (order (members h r))) r (fun _ => ∅)
  end.

Lemma exec_delete_room h name : performs h (OpDeleteRoom name) (delete_room h name).
Proof.
  constructor; [apply not_elem_of_nil|]. constructor. unfold delete_room.
  destruct (rooms h !! name) as [r|]; cbn [snd fst app]; [|constructor; constructor].
  constructor. constructor; [apply not_elem_of_nil|]. constructor. cbn [fst snd].
  apply (exec_loop _ MClient (fun c h => update_rooms h c (delete name))).
  - intros c _ Hin. cbn in Hin. apply elem_of_cons in Hin as [?|Hin]; [done|by apply elem_of_nil in Hin].
  - apply exec_act. constructor. constructor.
Qed.

Lemma consistent_delete_room h name : consistent h -> consistent (delete_room h name).
Proof.
  intros Hc. unfold delete_room. destruct (rooms h !! name) as [r|] eqn:Hn; [|done].
  destruct Hc as [H1 H2 H3 H4 H5]. destruct (H3 _ _ Hn) as [Hname Hroom].
  set (h1 := mkHub _ (delete name (rooms h)) _ _ _ _ _ _).
  destruct (delete_from_clients name (order (members h1 r)) h1) as ([F1 F2 F3 F4 F5 F6] & Hm & Hr).
  set (h2 := foldl _ h1 _) in *.
  destruct (update_members_frame h2 r (fun _ => ∅)) as [G1 G2 G3 G4 G5 G6].
  assert (forall x, members (update_members h2 r (fun _ => ∅)) x = if decide (x = r) then ∅ else members h x) as Hm'.
  { intros x. rewrite members_update. pose proof (proj2 (F5 r) Hroom).
    destruct (decide (x = r)) as [->|Hne]; [by rewrite decide_True|]. rewrite decide_False by tauto. apply Hm. }
  assert (forall x m, rooms_of (update_members h2 r (fun _ => ∅)) x !! m =
    if decide (x ∈ members h r /\ m = name) then None else rooms_of h x !! m) as Hr'.
  { intros x m. rewrite rooms_of_members, Hr. destruct (decide (x ∈ members h r /\ m = name)) as [[Hx ->]|Hd].
    - rewrite decide_True; [done|]. split; [by apply elem_of_order|done].
    - rewrite decide_False; [done|]. intros [Hx ->]. apply Hd. split; [|done]. by apply elem_of_order in Hx. }
  split.
  - intros x y. rewrite Hm', Hr', G1, F1, G4, F4. case_decide as Hx; [set_solver|]. intros Hy.
    destruct (H1 _ _ Hy) as [Hcl Hry]. split; [done|]. rewrite decide_False; [done|]. intros [_ He].
    change (name_of h1 x) with (name_of h x) in He. rewrite He in Hry. apply H2 in Hry as [_ Hry]. congruence.
  - intros x m y. rewrite Hm', Hr', G2, F2. case_decide as Hd; [done|]. intros Hy.
    destruct (H2 _ _ _ Hy) as [Hmy Hny]. assert (m <> name) as Hne.
    { intros ->. apply Hd. split; [|done]. congruence. }
    cbn [h1 rooms]. rewrite lookup_delete_ne by done. split; [|done]. rewrite decide_False; [done|].
    intros ->. destruct (H3 _ _ Hny). congruence.
  - intros m y. rewrite G2, F2, G4, F4, G5, F5. cbn [h1 rooms]. intros [_ Hy]%lookup_delete_Some. by apply H3.
  - intros y. rewrite G1, F1, G6, F6. apply H4.
  - intros y. rewrite G3, F3, G5, F5, G6, F6. apply H5.
Qed.

(** *** Closing a connection *)

Definition remove_client (h : Hub) (c : nat) : Hub :=
  if decide (c ∈ clients h) then
    let h := update_rooms
      (foldl (fun h r => update_members h r (fun s => s ∖ {[c]})) h (rorder (rooms_of h c))) c (fun _ => ∅) in
    emit (mkHub (clients h ∖ {[c]}) (rooms h) (closed h) (client_at h) (room_at h) (conn_at h) (next h) (out h))
      (Disconnected c)
  else h.

Lemma exec_remove_client h c : exec [] h (removeClient rorder c) (remove_client h c).
Proof.
  constructor; [apply not_elem_of_nil|]. constructor. unfold remove_client. case_decide; cbn [fst snd app].
  - assert (forall m, m <> MHub -> m ∉ [MHub]) as Hin by (intros m Hm ?%list_elem_of_singleton; done).
    constructor; [by apply Hin|]. constructor. cbn [fst snd].
    apply (exec_loop _ MRoom (fun r h => update_members h r (fun s => s ∖ {[c]}))).
    + intros r _. cbn. rewrite !elem_of_cons, elem_of_nil. intros [?|[?|[]]]; done.
    + apply exec_act. constructor. apply exec_act. constructor. constructor.
  - constructor. constructor.
Qed.

Lemma consistent_remove_client h c : consistent h -> consistent (remove_client h c).
Proof.
  intros Hc. unfold remove_client. case_decide as Hcl; [|done].
  destruct Hc as [H1 H2 H3 H4 H5].
  destruct (remove_from_rooms c (rorder (rooms_of h c)) h) as ([F1 F2 F3 F4 F5 F6] & Hr & Hm).
  set (h1 := foldl _ h _) in *.
  destruct (update_rooms_frame h1 c (fun _ => ∅)) as [G1 G2 G3 G4 G5 G6].
  set (h2 := update_rooms h1 c (fun _ => ∅)) in *.
  assert (forall x, rooms_of h2 x = if decide (x = c) then ∅ else rooms_of h x) as Hr2.
  { intros x. unfold h2. rewrite rooms_of_update. pose proof (proj2 (F6 c) (H4 _ Hcl)).
    destruct (decide (x = c)) as [->|Hne]; [by rewrite decide_True|]. rewrite decide_False by tauto. apply Hr. }
  assert (forall x y, y ∈ members h2 x <-> y ∈ members h x /\ y <> c) as Hm2.
  { intros x y. unfold h2. rewrite members_of_rooms, Hm, elem_of_rorder. split.
    - intros [Hy Hn]. split; [done|]. intros ->. apply Hn. split; [done|]. apply H1 in Hy as [_ Hy]. eauto.
    - intros [Hy Hne]. split; [done|]. tauto. }
  assert (forall x, members (emit (mkHub (clients h2 ∖ {[c]}) (rooms h2) (closed h2) (client_at h2) (room_at h2)
    (conn_at h2) (next h2) (out h2)) (Disconnected c)) x = members h2 x) as Hsame by done.
  split; cbn [emit clients rooms next].
  - intros x y. rewrite Hsame, Hm2. intros [Hy Hne]. destruct (H1 _ _ Hy) as [Hcy Hry]. split.
    + rewrite G1, F1. set_solver.
    + change (rooms_of h2 y !! name_of h2 x = Some x). rewrite Hr2, G4, F4, decide_False by done. done.
  - intros x m y Hy. change (rooms_of h2 x !! m = Some y) in Hy. rewrite Hr2 in Hy.
    case_decide as Hx; [by rewrite lookup_empty in Hy|]. destruct (H2 _ _ _ Hy) as [Hmy Hny].
    rewrite Hsame, Hm2, G2, F2. done.
  - intros m y Hy. rewrite G2, F2 in Hy. change (name_of h2 y = m /\ is_Some (room_at h2 !! y)).
    rewrite G4, F4, G5, F5. by apply H3.
  - intros y Hy. change (is_Some (client_at h2 !! y)). rewrite G6, F6. apply H4. rewrite <- F1, <- G1. set_solver.
  - intros y. change (is_Some (client_at h2 !! y) \/ is_Some (room_at h2 !! y) -> (y < next h2)%nat).
    rewrite G3, F3, G5, F5, G6, F6. apply H5.
Qed.

Definition conn_close (h : Hub) (k : nat) : Hub :=
  match conn_at h !! k with
  | Some x =>
      if k_closed x then h
      else
        let h := set_conn h k (mkConn true (k_onClose x)) in
        from_option (remove_client h) h (k_onClose x)
  | None => h
  end.

Lemma exec_conn_close h k : performs h (OpConnClose k) (conn_close h k).
Proof.
  unfold performs. cbn. unfold Conn_Close, conn_close.
  constructor; [apply not_elem_of_nil|]. constructor. destruct (conn_at h !! k) as [x|]; [|constructor; constructor].
  destruct (k_closed x); [constructor; constructor|]. cbn [fst snd app]. constructor. rewrite app_nil_r.
  destruct (k_onClose x) as [c|]; cbn [from_option]; [apply exec_remove_client|constructor].
Qed.

Lemma consistent_conn_close h k :
  consistent h -> exists h', performs h (OpConnClose k) h' /\ consistent h'.
Proof.
  intros Hc. eexists. split; [apply exec_conn_close|]. unfold conn_close.
  destruct (conn_at h !! k) as [x|]; [|done]. destruct (k_closed x); [done|].
  assert (consistent (set_conn h k (mkConn true (k_onClose x)))) as Hc1
    by (apply (consistent_ext h); [by split|done|done|done]).
  destruct (k_onClose x); [by apply consistent_remove_client|done].
Qed.

(** Closing connections removes connected clients only. *)
Lemma conn_close_keeps h k c r :
  c ∉ clients h -> c ∈ members h r -> (c ∈ members (conn_close h k) r) /\ (c ∉ clients (conn_close h k)).
Proof.
  intros Hcl Hm. unfold conn_close. destruct (conn_at h !! k) as [x|]; [|done]. destruct (k_closed x); [done|].
  cbn zeta. set (h1 := set_conn _ _ _). assert ((c ∉ clients h1) /\ c ∈ members h1 r) as [Hcl1 Hm1] by done.
  destruct (k_onClose x) as [d|]; [|done]. cbn. unfold remove_client. case_decide as Hd; [|done].
  destruct (remove_from_rooms d (rorder (rooms_of h1 d)) h1) as ([F1 _ _ _ _ _] & _ & Hmem).
  cbv zeta. set (h2 := foldl _ _ _) in *. split; cbn -[update_rooms].
  - change (c ∈ members (update_rooms h2 d (fun _ => ∅)) r). rewrite members_of_rooms. apply Hmem.
    split; [done|]. by intros [-> _].
  - rewrite (sf_clients _ _ (update_rooms_frame h2 d _)), F1. set_solver.
Qed.

(** *** Broadcasts *)

Definition with_out (h : Hub) (os : list output) : Hub :=
  mkHub (clients h) (rooms h) (closed h) (client_at h) (room_at h) (conn_at h) (next h) (out h ++ os).

(** What a send to a client gives. *)
Definition send_result (h : Hub) (data : string) (c : nat) : option ws_error :=
  if from_option k_closed false (conn_at h !! conn_of h c) then Some ErrConnectionClosed
  else if net (conn_of h c) data then None else Some NetworkError.

Definition written (h : Hub) (data : string) (c : nat) : option output :=
  match send_result h data c with
  | None => Some (Wrote (conn_of h c) data)
  | Some _ => None
  end.

(** The error of the last send that failed. *)
Definition last_error (lastErr : option ws_error) (errs : list ws_error) : option ws_error :=
  match list.last errs with Some e => Some e | None => lastErr end.

Lemma last_error_cons lastErr e errs : last_error lastErr (e :: errs) = last_error (Some e) errs.
Proof. unfold last_error. rewrite list.last_cons. by destruct (list.last errs). Qed.

Lemma exec_send_all cs data lastErr h :
  exec [] h (send_all net cs data lastErr)
    (with_out h (omap (written h data) cs ++ [BroadcastDone (last_error lastErr (omap (send_result h data) cs))])).
Proof.
  revert h lastErr. induction cs as [|c cs IH]; intros h lastErr.
  - cbn. apply exec_act. constructor.
  - cbn [send_all]. constructor. cbn [fst snd app]. constructor; [apply not_elem_of_nil|]. constructor.
    assert (forall h', conn_at h' = conn_at h -> client_at h' = client_at h ->
      omap (written h' data) cs = omap (written h data) cs /\
      omap (send_result h' data) cs = omap (send_result h data) cs) as Hsame.
    { intros h' Hk Hcl. assert (forall x, send_result h' data x = send_result h data x) as Hs
        by (intros x; unfold send_result, conn_of; by rewrite Hk, Hcl).
      split; apply omap_eq; intros x; [|apply Hs]. unfold written, conn_of. by rewrite Hs, Hcl. }
    unfold written at 1, send_result at 1. cbn [omap list_omap].
    destruct (from_option k_closed false (conn_at h !! conn_of h c)) eqn:Hk; [|destruct (net (conn_of h c) data) eqn:Hn];
      cbn [fst snd]; rewrite app_nil_r; constructor.
    + unfold written, send_result. rewrite Hk. rewrite last_error_cons. apply IH.
    + destruct (Hsame (emit h (Wrote (conn_of h c) data)) eq_refl eq_refl) as [Hw Hr].
      pose proof (IH (emit h (Wrote (conn_of h c) data)) lastErr) as Hx. rewrite Hw, Hr in Hx.
      unfold written, send_result. rewrite Hk, Hn. unfold with_out, emit in *. cbn in *.
      rewrite <- app_assoc in Hx. exact Hx.
    + unfold written, send_result. rewrite Hk, Hn. rewrite last_error_cons. apply IH.
Qed.
Lemma same_out_consistent h os : consistent h -> consistent (with_out h os).
Proof. by apply (consistent_ext h). Qed.

Lemma exec_broadcast h (f : Hub -> list nat) data (m : mutex) :
  exec [] h [RLock m; Do (fun h => (h, RUnlock m :: send_all net (f h) data None))]
    (with_out h (omap (written h data) (f h) ++ [BroadcastDone (last_error None (omap (send_result h data) (f h)))])).
Proof.
  constructor; [apply not_elem_of_nil|]. constructor. cbn [fst snd app]. constructor.
  rewrite app_nil_r. apply exec_send_all.
Qed.

(** Whether a send to a client delivers the data. *)
Definition delivers (h : Hub) (data : string) (c : nat) : bool :=
  negb (from_option k_closed false (conn_at h !! conn_of h c)) && net (conn_of h c) data.

Definition failure (h : Hub) (c : nat) : ws_error :=
  if from_option k_closed false (conn_at h !! conn_of h c) then ErrConnectionClosed else NetworkError.

Lemma send_result_delivers h data c :
  send_result h data c = if delivers h data c then None else Some (failure h c).
Proof. unfold send_result, delivers, failure. by destruct (from_option _ _ _), (net _ _). Qed.

Lemma written_filter h data cs :
  omap (written h data) cs =
  map (fun c => Wrote (conn_of h c) data) (filter (fun c => delivers h data c = true) cs).
Proof.
  induction cs as [|c cs IH]; [done|]. rewrite filter_cons. cbn [omap list_omap].
  change (list_omap _ _ (written h data) cs) with (omap (written h data) cs).
  rewrite IH. unfold written. rewrite send_result_delivers. case_decide as Hd; [by rewrite Hd|].
  apply not_true_is_false in Hd. by rewrite Hd.
Qed.

Lemma last_error_filter h data cs :
  last_error None (omap (send_result h data) cs) =
  list.last (filter (fun c => delivers h data c = false) cs) ≫= fun c => Some (failure h c).
Proof.
  unfold last_error. induction cs as [|c cs IH]; [done|]. rewrite filter_cons. cbn [omap list_omap].
  change (list_omap _ _ (send_result h data) cs) with (omap (send_result h data) cs).
  rewrite send_result_delivers. case_decide as Hd.
  - rewrite Hd, !list.last_cons. destruct (list.last (omap _ _)), (list.last (filter _ _)); simplify_eq/=; done.
  - apply not_false_is_true in Hd. by rewrite Hd.
Qed.

(** *** Any operation *)

Lemma consistent_leave_any h r c :
  consistent h -> rooms h !! name_of h r = Some r -> consistent (leave_room h r c).
Proof.
  intros Hc Hn. destruct (rooms_of h c !! name_of h r) as [r'|] eqn:Hr.
  - destruct (con_room h Hc _ _ _ Hr) as [_ Hr']. assert (r' = r) as -> by congruence.
    by eapply consistent_leave_room.
  - assert (c ∉ members h r) as Hmem.
    { intros Hm. apply (con_member h Hc) in Hm as [_ Hm]. congruence. }
    apply (consistent_ext h); [| | |done]; unfold leave_room.
    + eapply same_frame_trans; [apply update_members_frame|apply update_rooms_frame].
    + intros x. rewrite members_of_rooms, members_update. case_decide as Hd; [destruct Hd as [-> _]; set_solver|done].
    + intros x. rewrite rooms_of_update, !rooms_of_members. case_decide as Hd; [destruct Hd as [-> _]|done].
      by rewrite delete_id.
Qed.

Lemma consistent_set h c key value :
  consistent h -> exists h', performs h (OpSet c key value) h' /\ consistent h'.
Proof.
  intros Hc. eexists. split; [apply exec_act3|]. cbn. destruct (client_at h !! c) as [x|] eqn:Hx; [|done].
  apply (consistent_ext h); [|done| |done].
  - split; try done. intros c'. cbn. rewrite lookup_insert_is_Some.
    destruct (decide (c = c')) as [<-|Hne]; [rewrite Hx; naive_solver|naive_solver].
  - intros c'. unfold rooms_of. cbn. destruct (decide (c = c')) as [<-|Hne].
    + by rewrite lookup_insert_eq, Hx.
    + by rewrite lookup_insert_ne.
Qed.

Lemma consistent_op h o :
  consistent h -> allowed h o -> exists h', performs h o h' /\ consistent h'.
Proof.
  intros Hc Ha. destruct o; cbn in Ha; try done.
  - by apply consistent_new_client.
  - pose proof (get_room_spec h name Hc) as Hg. destruct (get_room h name) as [h1 r] eqn:He.
    exists h1. split; [|tauto]. apply exec_get_room. rewrite He. constructor.
  - exists (delete_room h name). split; [apply exec_delete_room|by apply consistent_delete_room].
  - destruct Ha as [Hr Hcl]. exists (join_room h r c). split; [apply exec_join_room|by eapply consistent_join_room].
  - exists (leave_room h r c). split; [apply exec_leave_room|by apply consistent_leave_any].
  - by apply consistent_join.
  - by apply consistent_leave.
  - by apply consistent_set.
  - eexists. split; [apply (exec_broadcast h (fun h => order (clients h)))|by apply same_out_consistent].
  - eexists. split; [apply (exec_broadcast h (fun h => filter (fun c => c <> except) (order (clients h))))|by apply same_out_consistent].
  - eexists. split; [apply (exec_broadcast h (fun h => order (members h r)))|by apply same_out_consistent].
  - eexists. split; [apply (exec_broadcast h (fun h => filter (fun c => c <> except) (order (members h r))))|by apply same_out_consistent].
  - by apply consistent_conn_close.
Qed.
End serial.

(** ** Runs of one goroutine *)

(** The operation, with no other goroutine about, takes the hub to [h'] and
    releases its mutexes. *)
Definition runs_to (order : gset nat -> list nat) (rorder : gmap string nat -> list nat)
  (net : nat -> string -> bool) (h : Hub) (o : hub_op) (h' : Hub) : Prop :=
  exists l, reachable (start h [op_prog order rorder net o]) (mkConfig h' l [[]]) /\ forall m, l m = Free.

(** Operations one after the other, from a new hub. *)
Definition serially order rorder net : Hub -> Prop :=
  rtc (fun h h' => exists o, allowed h o /\ runs_to order rorder net h o h') NewHub.

Lemma performs_runs_to order rorder net h o h' :
  performs order rorder net h o h' -> runs_to order rorder net h o h'.
Proof.
  intros Hex. destruct (exec_reachable [] h _ h' all_free Hex) as (l & Hr & Hl); [by apply holds_nothing|].
  by exists l.
Qed.

(** [Hub.Close], from the loop on: it stops at the first connection that is open
    and has a close handler, inside the handler. *)
Lemma close_blocks rorder ks h l k c rest :
  (forall m, l m = if decide (m = MHub) then Writer 0 else Free) ->
  k ∈ ks -> conn_at h !! k = Some (mkConn false (Some c)) ->
  exists h' l' q,
    reachable (mkConfig h l [mjoin (map (Conn_Close rorder) ks) ++ rest]) (mkConfig h' l' [Lock MHub :: q]) /\
    l' MHub = Writer 0 /\ closed h' = closed h /\ clients h' = clients h.
Proof.
  intros Hl Hk. revert h l Hl. induction ks as [|k' ks IH]; intros h l Hl Hc; [by apply elem_of_nil in Hk|].
  assert (forall p, step 0 (mkConfig h l [Lock (MConn k') :: p]) =
    Some (mkConfig h (set_lock l (MConn k') (Writer 0)) [p])) as Htake by (intros p; cbn; by rewrite Hl).
  set (l1 := set_lock l (MConn k') (Writer 0)) in *.
  assert (forall m, set_lock l1 (MConn k') Free m = if decide (m = MHub) then Writer 0 else Free) as Hl2.
  { intros m. destruct (decide (m = MConn k')) as [->|Hne]; [by rewrite set_lock_eq|].
    unfold l1. by rewrite !set_lock_ne. }
  cbn [map mjoin list_join]. unfold Conn_Close at 1. cbn [app].
  destruct (conn_at h !! k') as [x|] eqn:Hx.
  - destruct (k_closed x) eqn:Hcl.
    + assert (k ∈ ks) as Hks by (apply elem_of_cons in Hk as [<-|?]; [by simplify_eq|done]).
      destruct (IH Hks h _ Hl2 Hc) as (h' & l' & q & Hr & Hrest). exists h', l', q. split; [|done].
      eapply rtc_l; [exists 0%nat; apply Htake|]. eapply rtc_l; [exists 0%nat; cbn; rewrite Hx, Hcl; reflexivity|].
      eapply rtc_l; [by exists 0%nat|]. exact Hr.
    + destruct (k_onClose x) as [d|] eqn:Hd.
      * exists (set_conn h k' (mkConn true (Some d))), (set_lock l1 (MConn k') Free). eexists. split.
        { eapply rtc_l; [exists 0%nat; apply Htake|]. eapply rtc_l; [exists 0%nat; cbn; rewrite Hx, Hcl, Hd; reflexivity|].
          eapply rtc_l; [by exists 0%nat|]. cbn. apply rtc_refl. }
        split; [|done]. by rewrite Hl2.
      * assert (k <> k') as Hne by (intros ->; simplify_eq).
        assert (k ∈ ks) as Hks by (apply elem_of_cons in Hk as [?|?]; done).
        destruct (IH Hks (set_conn h k' (mkConn true None)) _ Hl2) as (h' & l' & q & Hr & Hrest).
        { cbn. by rewrite lookup_insert_ne. }
        exists h', l', q. split; [|done].
        eapply rtc_l; [exists 0%nat; apply Htake|]. eapply rtc_l; [exists 0%nat; cbn; rewrite Hx, Hcl, Hd; reflexivity|].
        eapply rtc_l; [by exists 0%nat|]. exact Hr.
  - assert (k ∈ ks) as Hks by (apply elem_of_cons in Hk as [<-|?]; [by simplify_eq|done]).
    destruct (IH Hks h _ Hl2 Hc) as (h' & l' & q & Hr & Hrest). exists h', l', q. split; [|done].
    eapply rtc_l; [exists 0%nat; apply Htake|]. eapply rtc_l; [exists 0%nat; cbn; rewrite Hx; reflexivity|].
    eapply rtc_l; [by exists 0%nat|]. exact Hr.
Qed.

Lemma runs_to_performs order rorder net h o h' h'' :
  runs_to order rorder net h o h' -> performs order rorder net h o h'' -> h' = h''.
Proof.
  intros (l & Hr & _) Hp. destruct (performs_runs_to _ _ _ _ _ _ Hp) as (l' & Hr' & _).
  pose proof (runs_alone_unique _ _ _ _ _ Hr Hr' (stuck_done _ _) (stuck_done _ _)). by simplify_eq.
Qed.

Lemma serially_consistent order rorder net :
  (forall s, order s ≡ₚ elements s) -> (forall m, rorder m ≡ₚ (map_to_list m).*2) ->
  forall h, serially order rorder net h -> consistent h.
Proof.
  intros Ho Hro h Hs. unfold serially in Hs. pose proof consistent_new as Hc. revert Hc. remember NewHub as h0 eqn:E. clear E.
  induction Hs as [h|h0 h1 h (o & Ha & Hrun) Hs IH]; intros Hc; [done|]. apply IH.
  destruct (consistent_op order rorder net Ho Hro h0 o Hc Ha) as (h' & Hp & Hc').
  by rewrite (runs_to_performs _ _ _ _ _ _ _ Hrun Hp).
Qed.

(** ** Sample hubs *)

Definition one_client : Hub :=
  mkHub {[0%nat]} ∅ false {[0%nat := mkClient "a" 0 ∅ ∅]} ∅ {[0%nat := mkConn false (Some 0%nat)]} 1 [].

(** A client in a room. *)
Definition client_in_room : Hub :=
  mkHub {[0%nat]} {["lobby" := 1%nat]} false {[0%nat := mkClient "a" 0 ∅ {["lobby" := 1%nat]}]}
    {[1%nat := mkRoom "lobby" {[0%nat]}]} {[0%nat := mkConn false (Some 0%nat)]} 2 [].

(** ** Theorems *)

(** C27. The hub is free of deadlocks as long as nobody closes anything: with any
    number of goroutines, each performing any of the other operations one after
    the other, every run comes to an end, under every interleaving, and when no
    goroutine can go on all of them are done. *)
Theorem hub_progress order rorder net h (oss : list (list hub_op)) :
  Forall (fun os => forallb in_order os = true) oss ->
  let cf := start h (map (ops_prog order rorder net) oss) in
  Acc (fun cf' cf => some_step cf cf') cf /\
  forall cf', reachable cf cf' -> (forall t, step t cf' = None) -> Forall (fun p => p = []) (threads cf').
Proof.
  intros Hos. apply ordered_progress.
  apply Forall_map. eapply Forall_impl; [|exact Hos]. intros os. apply ordered_ops.
Qed.

Lemma hub_progress_witness :
  let ops := [[OpNewClient 0 "a"; OpJoin 0 "lobby"; OpBroadcast "hi"]; [OpGetRoom "lobby"; OpDeleteRoom "lobby"]] in
  let cf := start NewHub (map (ops_prog by_elements (fun m => (map_to_list m).*2) (fun _ _ => true)) ops) in
  Acc (fun cf' cf => some_step cf cf') cf /\
  forall cf', reachable cf cf' -> (forall t, step t cf' = None) -> Forall (fun p => p = []) (threads cf').
Proof.
  intros ops cf. apply (hub_progress by_elements (fun m => (map_to_list m).*2) (fun _ _ => true) NewHub ops).
  repeat constructor.
Defined.

(** Performed one after the other from a new hub, in any order and whatever the
    order of the maps, the operations keep the rooms and the clients in step: a
    member of a room is a connected client that knows the room by its name, a
    room a client knows is the hub's room of that name and has the client as a
    member; and every such operation can always be performed to its end, leaving
    every mutex free. *)
Theorem hub_membership order rorder net :
  (forall s, order s ≡ₚ elements s) -> (forall m, rorder m ≡ₚ (map_to_list m).*2) ->
  forall h, serially order rorder net h ->
    (forall r c, c ∈ members h r -> c ∈ clients h /\ rooms_of h c !! name_of h r = Some r) /\
    (forall c n r, rooms_of h c !! n = Some r -> c ∈ members h r /\ rooms h !! n = Some r) /\
    (forall n r, rooms h !! n = Some r -> name_of h r = n) /\
    (forall o, allowed h o -> exists h', runs_to order rorder net h o h').
Proof.
  intros Ho Hro h Hs. pose proof (serially_consistent order rorder net Ho Hro h Hs) as Hc.
  split; [apply (con_member h Hc)|]. split; [apply (con_room h Hc)|].
  split; [intros n r Hn; by apply (con_name h Hc)|]. intros o Ha.
  destruct (consistent_op order rorder net Ho Hro h o Hc Ha) as (h' & Hp & _).
  exists h'. by apply performs_runs_to.
Qed.

Lemma hub_membership_witness :
  let order := by_elements in let rorder := fun m : gmap string nat => (map_to_list m).*2 in
  let net := fun _ _ => true in
  exists o, allowed NewHub o /\ exists h', runs_to order rorder net NewHub o h'.
Proof.
  intros order rorder net. exists (OpNewClient 0 "a"). split; [exact I|].
  apply (hub_membership order rorder net); [done|done|apply rtc_refl|exact I].
Defined.

(** A broadcast alone sends the data to every client it ranges over, once and in
    that order: to those whose connection is open and takes the write.  It skips
    no client because an earlier one failed, changes nothing else, and reports an
    error exactly when some client did not get the data: the error of the last
    one that did not. *)
Theorem broadcast_delivers order rorder net h data h' :
  runs_to order rorder net h (OpBroadcast data) h' ->
  let k c := conn_of h c in
  let shut c := from_option k_closed false (conn_at h !! k c) in
  let got c := negb (shut c) && net (k c) data in
  exists e,
    h' = with_out h (map (fun c => Wrote (k c) data) (filter (fun c => got c = true) (order (clients h))) ++
           [BroadcastDone e]) /\
    e = list.last (filter (fun c => got c = false) (order (clients h))) ≫= fun c =>
        Some (if shut c then ErrConnectionClosed else NetworkError).
Proof.
  intros Hr k shut got. rewrite (runs_to_performs _ _ _ _ _ _ _ Hr (exec_broadcast net h (fun h => order (clients h)) data MHub)).
  generalize (order (clients h)). intros cs. eexists. split; [f_equal; f_equal|].
  - apply written_filter.
  - apply last_error_filter.
Qed.

Lemma broadcast_delivers_witness :
  let order := by_elements in let rorder := fun m : gmap string nat => (map_to_list m).*2 in
  let net k (_ : string) := negb (k =? 1)%nat in
  let h := mkHub {[0%nat; 1%nat]} ∅ false {[0%nat := mkClient "a" 0 ∅ ∅; 1%nat := mkClient "b" 1 ∅ ∅]} ∅
             {[0%nat := mkConn false (Some 0%nat); 1%nat := mkConn false (Some 1%nat)]} 2 [] in
  let h' := with_out h [Wrote 0 "x"; BroadcastDone (Some NetworkError)] in
  exists e, h' = with_out h (map (fun c => Wrote (conn_of h c) "x") [0%nat] ++ [BroadcastDone e]).
Proof.
  intros order rorder net h h'.
  assert (runs_to order rorder net h (OpBroadcast "x") h') as Hr.
  { apply performs_runs_to. exact (exec_broadcast net h (fun h => order (clients h)) "x" MHub). }
  destruct (broadcast_delivers order rorder net h "x" h' Hr) as (e & Hh & _). exists e. rewrite Hh at 1. reflexivity.
Defined.

(** [Hub.Close] of a hub with a client whose connection is open never returns: it
    closes the connection while it holds the hub's mutex, and the connection's
    close handler, [removeClient], takes that mutex.  The hub stays locked for
    good, marked closed with its clients still registered. *)
Theorem Hub_Close_deadlocks order rorder net h c c' :
  (forall s, order s ≡ₚ elements s) ->
  closed h = false -> c ∈ clients h -> conn_at h !! conn_of h c = Some (mkConn false (Some c')) ->
  (exists cf, reachable (start h [op_prog order rorder net OpHubClose]) cf /\ deadlocked cf /\
     locks cf MHub = Writer 0 /\ closed (hub cf) = true /\ clients (hub cf) = clients h) /\
  forall h', ~ runs_to order rorder net h OpHubClose h'.
Proof.
  intros Ho Hcl Hc Hk.
  set (h1 := mkHub (clients h) (rooms h) true (client_at h) (room_at h) (conn_at h) (next h) (out h)).
  set (ks := map (fun c => conn_of h c) (order (clients h))).
  assert (conn_of h c ∈ ks) as Hks.
  { apply list_elem_of_fmap. exists c. split; [done|]. by apply (elem_of_order order Ho). }
  destruct (close_blocks rorder ks h1 (set_lock all_free MHub (Writer 0)) (conn_of h c) c'
    ([act (fun h => mkHub ∅ ∅ (closed h) (client_at h) (room_at h) (conn_at h) (next h) (out h))] ++ [Unlock MHub]))
    as (h' & l' & q & Hr & Hl & Hcl' & Hcs); [done|done|done|].
  assert (reachable (start h [op_prog order rorder net OpHubClose]) (mkConfig h' l' [Lock MHub :: q])) as Hr'.
  { eapply rtc_l; [by exists 0%nat|]. eapply rtc_l; [exists 0%nat; cbn; rewrite Hcl; reflexivity|].
    unfold ks in Hr. rewrite map_map in Hr. cbn. rewrite <- app_assoc. exact Hr. }
  assert (stuck (mkConfig h' l' [Lock MHub :: q])) as Hs by (apply stuck_locked; by rewrite Hl).
  split.
  - eexists. split; [exact Hr'|]. split; [|done]. split; [|exact Hs]. exists 0%nat. eexists. by split.
  - intros h2 (l2 & Hr2 & _).
    by pose proof (runs_alone_unique _ _ _ _ _ Hr' Hr2 Hs (stuck_done _ _)).
Qed.

Lemma Hub_Close_deadlocks_witness :
  closed one_client = false /\
  forall h', ~ runs_to by_elements (fun m => (map_to_list m).*2) (fun _ _ => true) one_client OpHubClose h'.
Proof.
  split; [done|].
  apply (Hub_Close_deadlocks by_elements (fun m => (map_to_list m).*2) (fun _ _ => true) one_client 0 0);
    [done|done| |reflexivity]. cbn. set_solver.
Defined.

(** A client in a room, and the room deleted while the client goes: [removeClient]
    holds the client's mutex and waits for the room's, [DeleteRoom] holds the room's
    and waits for the client's.  Both wait for good, and the hub's mutex stays
    taken, so that a third goroutine that only asks for a room waits with them. *)
Theorem delete_room_against_disconnect_deadlocks :
  let rorder := fun m : gmap string nat => (map_to_list m).*2 in
  let cf := start client_in_room
    (map (op_prog by_elements rorder (fun _ _ => true)) [OpDeleteRoom "lobby"; OpConnClose 0; OpGetRoom "other"]) in
  exists cf', reachable cf cf' /\ deadlocked cf' /\
    Forall (fun p => p <> []) (threads cf') /\
    locks cf' MHub = Writer 1 /\ locks cf' (MRoom 1) = Writer 0 /\ locks cf' (MClient 0) = Writer 1.
Proof.
  intros rorder cf. set (cf' := run_schedule [0;0;0;0;0;1;1;1;1;1;1;1]%nat cf). exists cf'.
  split; [apply run_schedule_reachable|].
  assert (Forall (fun p => p <> []) (threads cf')) as Hwait by (apply waiting_all; vm_compute; reflexivity).
  split; [split|].
  - destruct (lookup_lt_is_Some_2 (threads cf') 0) as [p Hp]; [apply Nat.ltb_lt; vm_compute; reflexivity|].
    exists 0%nat, p. split; [done|]. exact (Forall_lookup_1 _ _ _ _ Hwait Hp).
  - intros [|[|[|t]]]; vm_compute; reflexivity.
  - split; [exact Hwait|]. vm_compute. done.
Qed.

(** A client that has disconnected can still join: it becomes a member of the room
    although it is no client of the hub, and no closing of connections, its own
    again or others, takes it out. *)
Theorem late_join_stays order rorder net :
  (forall s, order s ≡ₚ elements s) -> (forall m, rorder m ≡ₚ (map_to_list m).*2) ->
  forall h c name h1 h2,
    serially order rorder net h -> c ∉ clients h ->
    runs_to order rorder net h (OpJoin c name) h1 ->
    rtc (fun h h' => exists k, runs_to order rorder net h (OpConnClose k) h') h1 h2 ->
    exists r, rooms h1 !! name = Some r /\ c ∈ members h2 r /\ c ∉ clients h2.
Proof.
  intros Ho Hro h c name h1 h2 Hs Hc Hj Hk.
  pose proof (serially_consistent order rorder net Ho Hro h Hs) as Hcons.
  pose proof (get_room_spec order rorder Ho Hro h name Hcons) as Hg. destruct (get_room h name) as [hr r] eqn:He.
  destruct Hg as (Hc1 & Hr & Hcl1). exists r.
  assert (h1 = join_room hr r c) as ->.
  { apply (runs_to_performs order rorder net h (OpJoin c name)); [done|].
    apply (exec_get_room h name). rewrite He. apply exec_join_room. }
  destruct (con_name hr Hc1 _ _ Hr) as [Hname Hroom].
  assert (c ∈ members (join_room hr r c) r /\ c ∉ clients (join_room hr r c)) as Hstart.
  { unfold join_room. rewrite members_of_rooms, members_update, decide_True by done.
    rewrite (sf_clients _ _ (update_rooms_frame _ _ _)), (sf_clients _ _ (update_members_frame _ _ _)), Hcl1.
    split; [|done]. set_solver. }
  split; [unfold join_room; by rewrite (sf_rooms _ _ (update_rooms_frame _ _ _)), (sf_rooms _ _ (update_members_frame _ _ _))|].
  revert Hstart. generalize (join_room hr r c) Hk. clear -Ho Hro. intros h1 Hk. induction Hk as [|h1 h2 h3 (k & Hrun) _ IH]; [done|].
  intros [Hm Hcl]. apply IH. rewrite (runs_to_performs _ _ _ _ _ _ _ Hrun (exec_conn_close order rorder net h1 k)).
  exact (conn_close_keeps order rorder Ho Hro h1 k c r Hcl Hm).
Qed.

Lemma late_join_stays_witness :
  exists h1 r, rooms h1 !! "lobby" = Some r /\ (0%nat ∈ members h1 r) /\ (0%nat ∉ clients h1).
Proof.
  assert (forall s, by_elements s ≡ₚ elements s) as Ho by done.
  set (rorder := fun m : gmap string nat => (map_to_list m).*2).
  assert (forall m, rorder m ≡ₚ (map_to_list m).*2) as Hro by done.
  set (net := fun (_ : nat) (_ : string) => true).
  eassert (runs_to by_elements rorder net NewHub (OpNewClient 0 "a") _) as H1 by (apply performs_runs_to, exec_act3).
  cbn [closed NewHub] in H1. match type of H1 with runs_to _ _ _ _ _ ?x => set (ha := x) in H1 end.
  assert (runs_to by_elements rorder net ha (OpConnClose 0) (conn_close rorder ha 0)) as H2
    by (apply performs_runs_to, exec_conn_close).
  set (h := conn_close rorder ha 0) in *.
  assert (serially by_elements rorder net h) as Hs.
  { eapply rtc_l; [exists (OpNewClient 0 "a"); by split|]. eapply rtc_l; [exists (OpConnClose 0); by split|]. apply rtc_refl. }
  assert (0%nat ∉ clients h) as Hcl by (apply (bool_decide_eq_true_1 _); vm_compute; reflexivity).
  eexists.
  assert (runs_to by_elements rorder net h (OpJoin 0 "lobby")
    (join_room (get_room h "lobby").1 (get_room h "lobby").2 0)) as Hr.
  { apply performs_runs_to. apply (exec_get_room h "lobby"). apply exec_join_room. }
  apply (late_join_stays by_elements rorder net Ho Hro h 0 "lobby" _ _ Hs Hcl Hr (rtc_refl _ _)).
Defined.
