(* ===== verification/Runner.v ===== *)
(** * The job runner ([pantry/jobs/jobs.go])

    Workers that take jobs from a bounded queue, retry the ones that fail after a
    growing delay, and stop.  The runner, its callers, its workers and its timers
    are one transition system; what a handler answers, and when, is an event.

    A job is an address: the caller, the queue and the timers share it.  A handler
    does not write the fields of its job; [Attempts] is counted without
    wrap-around, since it grows by one for an execution. *)

From S2P Require Import Prelude.

(** ** Data *)

Inductive job_error := ErrNoHandler | HandlerError (msg : string).

Record Job := mkJob {
  ID : string;
  Type_ : string;
  Payload : string;
  Priority : Z;
  MaxRetries : Z;
  RetryDelay : Duration;
  Timeout : Duration;
  Attempts : Z;
  CreatedAt : Time;
  Error_ : option job_error
}.

(** What the callers and the hooks see. *)
Inductive entry :=
| Accepted (j : nat)
| Refused (j : nat)
| Started (j : nat) (attempt : Z)
| Succeeded (j : nat)
| Retried (j : nat) (err : job_error) (attempt : Z) (delay : Duration)
| Failed (j : nat) (err : job_error)
| Dropped (j : nat).

(** A worker waits in its select, holds a job it has not looked up, runs the
    handler, or has returned. *)
Inductive worker := Idle | Received (j : nat) | Running (j : nat) | Exited.

(** [senders] are the calls of [MustEnqueue] that wait for room; [timers] the
    retries that wait, with the time they are due. *)
Record Runner := mkRunner {
  handlers : gset string;
  queue : list nat;
  workers : Z;
  queueSize : Z;
  running : bool;
  stopCh_closed : bool;
  pool : list worker;
  senders : list nat;
  timers : list (Time * nat);
  job_at : gmap nat Job;
  log : list entry;
  crashed : bool
}.

(** [New]; the jobs are those the callers will hand in. *)
Definition New (cfgWorkers cfgQueueSize : Z) (jobs : gmap nat Job) : Runner :=
  mkRunner ∅ [] (if cfgWorkers <=? 0 then 4 else cfgWorkers)
    (if cfgQueueSize <=? 0 then 100 else cfgQueueSize) false false [] [] [] jobs [] false.

Definition set_queue (r : Runner) (q : list nat) : Runner :=
  mkRunner (handlers r) q (workers r) (queueSize r) (running r) (stopCh_closed r) (pool r) (senders r)
    (timers r) (job_at r) (log r) (crashed r).
Definition set_running (r : Runner) (b : bool) : Runner :=
  mkRunner (handlers r) (queue r) (workers r) (queueSize r) b (stopCh_closed r) (pool r) (senders r)
    (timers r) (job_at r) (log r) (crashed r).
Definition set_pool (r : Runner) (ws : list worker) : Runner :=
  mkRunner (handlers r) (queue r) (workers r) (queueSize r) (running r) (stopCh_closed r) ws (senders r)
    (timers r) (job_at r) (log r) (crashed r).
Definition set_senders (r : Runner) (js : list nat) : Runner :=
  mkRunner (handlers r) (queue r) (workers r) (queueSize r) (running r) (stopCh_closed r) (pool r) js
    (timers r) (job_at r) (log r) (crashed r).
Definition set_timers (r : Runner) (ts : list (Time * nat)) : Runner :=
  mkRunner (handlers r) (queue r) (workers r) (queueSize r) (running r) (stopCh_closed r) (pool r) (senders r)
    ts (job_at r) (log r) (crashed r).
Definition set_job (r : Runner) (j : nat) (x : Job) : Runner :=
  mkRunner (handlers r) (queue r) (workers r) (queueSize r) (running r) (stopCh_closed r) (pool r) (senders r)
    (timers r) (<[j := x]> (job_at r)) (log r) (crashed r).
Definition write (r : Runner) (e : entry) : Runner :=
  mkRunner (handlers r) (queue r) (workers r) (queueSize r) (running r) (stopCh_closed r) (pool r) (senders r)
    (timers r) (job_at r) (log r ++ [e]) (crashed r).
(** A panic outside of [recover] ends the process. *)
Definition crash (r : Runner) : Runner :=
  mkRunner (handlers r) (queue r) (workers r) (queueSize r) (running r) (stopCh_closed r) (pool r) (senders r)
    (timers r) (job_at r) (log r) true.

(** ** Operations *)

Definition Register (r : Runner) (jobType : string) : Runner :=
  mkRunner ({[jobType]} ∪ handlers r) (queue r) (workers r) (queueSize r) (running r) (stopCh_closed r)
    (pool r) (senders r) (timers r) (job_at r) (log r) (crashed r).

Definition Start (r : Runner) : Runner :=
  if running r then r
  else set_pool (set_running r true) (pool r ++ replicate (Z.to_nat (workers r)) Idle).

(** The part of [Stop] before its wait; closing a closed channel panics. *)
Definition Stop (r : Runner) : Runner :=
  if negb (running r) then r
  else if stopCh_closed r then crash (set_running r false)
  else
    mkRunner (handlers r) (queue r) (workers r) (queueSize r) false true (pool r) (senders r)
      (timers r) (job_at r) (log r) (crashed r).

(** When the wait of [Stop] ends with nil. *)
Definition stop_returns (r : Runner) : bool :=
  forallb (fun w => match w with Exited => true | _ => false end) (pool r).

Definition with_defaults (job : Job) (now : Time) : Job :=
  mkJob (ID job) (Type_ job) (Payload job) (Priority job)
    (if MaxRetries job =? 0 then 3 else MaxRetries job)
    (if RetryDelay job =? 0 then Second else RetryDelay job)
    (if Timeout job =? 0 then 30 * Second else Timeout job)
    (Attempts job)
    (if CreatedAt job =? zero_time then now else CreatedAt job)
    (Error_ job).

Definition has_room (r : Runner) : bool := Z.of_nat (length (queue r)) <? queueSize r.

Definition Enqueue (r : Runner) (j : nat) (now : Time) : option (Runner * bool) :=
  match job_at r !! j with
  | None => None
  | Some job =>
      let r := set_job r j (with_defaults job now) in
      if has_room r then Some (set_queue r (queue r ++ [j]), true) else Some (r, false)
  end.

(** [MustEnqueue] up to its send. *)
Definition MustEnqueue (r : Runner) (j : nat) (now : Time) : option Runner :=
  match job_at r !! j with
  | None => None
  | Some job => Some (set_senders (set_job r j (with_defaults job now)) (senders r ++ [j]))
  end.

(** [1 << n] on an [int], [None] where it panics. *)
Definition one_shl (n : Z) : option Z :=
  if n <? 0 then None else if 64 <=? n then Some 0 else Some (wrap64 (Z.shiftl 1 n)).

Definition calculateRetryDelay (job : Job) : option Duration :=
  match one_shl (Attempts job - 1) with
  | None => None
  | Some multiplier => Some (int_mul (RetryDelay job) multiplier)
  end.

Definition set_Attempts (job : Job) (n : Z) : Job :=
  mkJob (ID job) (Type_ job) (Payload job) (Priority job) (MaxRetries job) (RetryDelay job)
    (Timeout job) n (CreatedAt job) (Error_ job).
Definition set_Error (job : Job) (e : job_error) : Job :=
  mkJob (ID job) (Type_ job) (Payload job) (Priority job) (MaxRetries job) (RetryDelay job)
    (Timeout job) (Attempts job) (CreatedAt job) (Some e).

(** [process] up to the call of the handler. *)
Definition process_start (r : Runner) (w j : nat) (job : Job) : Runner :=
  if decide (Type_ job ∈ handlers r) then
    let attempts := Attempts job + 1 in
    set_pool (write (set_job r j (set_Attempts job attempts)) (Started j attempts)) (<[w := Running j]> (pool r))
  else set_pool (write r (Failed j ErrNoHandler)) (<[w := Idle]> (pool r)).

(** [process] from the return of the handler on. *)
Definition process_end (r : Runner) (w j : nat) (job : Job) (err : option string) (now : Time) : Runner :=
  let free r := set_pool r (<[w := Idle]> (pool r)) in
  match err with
  | None => free (write r (Succeeded j))
  | Some msg =>
      let err := HandlerError msg in
      let job := set_Error job err in
      let r := set_job r j job in
      if Attempts job <? MaxRetries job then
        match calculateRetryDelay job with
        | None => crash r
        | Some delay =>
            free (set_timers (write r (Retried j err (Attempts job) delay)) (timers r ++ [(time_Add now delay, j)]))
        end
      else free (write r (Failed j err))
  end.

(** ** The system *)

Inductive event :=
| CallRegister (jobType : string)
| CallStart
| CallStop
| CallEnqueue (j : nat) (now : Time)
| CallMustEnqueue (j : nat) (now : Time)
| SenderProceeds (i : nat)
| WorkerReceives (w : nat)
| WorkerStops (w : nat)
| WorkerLooksUp (w : nat)
| HandlerReturns (w : nat) (err : option string) (now : Time)
| HandlerPanics (w : nat)
| TimerFires (i : nat) (now : Time).

(** The state after an event, if it can happen. *)
Definition step (r : Runner) (e : event) : option Runner :=
  if crashed r then None
  else
  match e with
  | CallRegister jobType => Some (Register r jobType)
  | CallStart => Some (Start r)
  | CallStop => Some (Stop r)
  | CallEnqueue j now =>
      match Enqueue r j now with
      | Some (r, true) => Some (write r (Accepted j))
      | Some (r, false) => Some (write r (Refused j))
      | None => None
      end
  | CallMustEnqueue j now =>
      match MustEnqueue r j now with
      | Some r => Some (write r (Accepted j))
      | None => None
      end
  | SenderProceeds i =>
      match senders r !! i with
      | Some j =>
          if has_room r
          then Some (set_senders (set_queue r (queue r ++ [j])) (delete i (senders r)))
          else None
      | None => None
      end
  | WorkerReceives w =>
      match pool r !! w, queue r with
      | Some Idle, j :: q => Some (set_pool (set_queue r q) (<[w := Received j]> (pool r)))
      | _, _ => None
      end
  | WorkerStops w =>
      match pool r !! w with
      | Some Idle => if stopCh_closed r then Some (set_pool r (<[w := Exited]> (pool r))) else None
      | _ => None
      end
  | WorkerLooksUp w =>
      match pool r !! w with
      | Some (Received j) =>
          match job_at r !! j with
          | Some job => Some (process_start r w j job)
          | None => None
          end
      | _ => None
      end
  | HandlerReturns w err now =>
      match pool r !! w with
      | Some (Running j) =>
          match job_at r !! j with
          | Some job => Some (process_end r w j job err now)
          | None => None
          end
      | _ => None
      end
  | HandlerPanics w =>
      match pool r !! w with
      | Some (Running _) => Some (crash r)
      | _ => None
      end
  | TimerFires i now =>
      match timers r !! i with
      | Some (due, j) =>
          if due <=? now then
            match Enqueue (set_timers r (delete i (timers r))) j now with
            | Some (r, true) => Some r
            | Some (r, false) => Some (write r (Dropped j))
            | None => None
            end
          else None
      | None => None
      end
  end.

Definition some_step (r r' : Runner) : Prop := exists e, step r e = Some r'.

Definition reachable (r r' : Runner) : Prop := rtc some_step r r'.

(** What the runner does by itself, apart from its callers. *)
Definition internal (e : event) : bool :=
  match e with
  | CallRegister _ | CallStart | CallStop | CallEnqueue _ _ | CallMustEnqueue _ _ => false
  | _ => true
  end.

Definition internal_step (r r' : Runner) : Prop := exists e, internal e = true /\ step r e = Some r'.

(** Runs the events of a list, [None] if one cannot happen. *)
Fixpoint run (r : Runner) (es : list event) : option Runner :=
  match es with
  | [] => Some r
  | e :: es => match step r e with Some r => run r es | None => None end
  end.

(** ** Reading the log *)

Definition accepted (l : list entry) : list nat :=
  omap (fun e => match e with Accepted j => Some j | _ => None end) l.

(** The jobs that have come to an end, each with one entry for it. *)
Definition ended (l : list entry) : list nat :=
  omap (fun e => match e with Succeeded j | Failed j _ | Dropped j => Some j | _ => None end) l.

(** The numbers with which the attempts of a job started. *)
Definition starts (j : nat) (l : list entry) : list Z :=
  omap (fun e => match e with Started i a => if decide (i = j) then Some a else None | _ => None end) l.

(** The effective bound of a job: zero means three. *)
Definition limit (job : Job) : Z := if MaxRetries job =? 0 then 3 else MaxRetries job.

(** The jobs the runner holds. *)
Definition held (w : worker) : list nat :=
  match w with Received j | Running j => [j] | Idle | Exited => [] end.

Definition held_by (ws : list worker) : list nat := ws ≫= held.

Definition live (r : Runner) : list nat := queue r ++ senders r ++ held_by (pool r) ++ (timers r).*2.

(** ** Counting *)

Definition cnt (j : nat) (l : list nat) : nat := count_occ Nat.eq_dec l j.

Arguments cnt : simpl never.

Lemma cnt_nil j : cnt j [] = 0%nat.
Proof. done. Qed.

Lemma cnt_app j l k : cnt j (l ++ k) = (cnt j l + cnt j k)%nat.
Proof. apply count_occ_app. Qed.

Lemma cnt_one i j : cnt j [i] = if decide (i = j) then 1%nat else 0%nat.
Proof. unfold cnt. cbn. destruct (Nat.eq_dec i j); by case_decide. Qed.

Lemma cnt_cons i j l : cnt j (i :: l) = (cnt j [i] + cnt j l)%nat.
Proof. apply (cnt_app j [i] l). Qed.

Lemma cnt_delete (l : list nat) i x j : l !! i = Some x -> (cnt j (delete i l) + cnt j [x] = cnt j l)%nat.
Proof.
  revert i. induction l as [|y l IH]; intros [|i] Hi; simplify_eq/=.
  - rewrite (cnt_cons _ j l). lia.
  - rewrite (cnt_cons y j l), (cnt_cons y j). specialize (IH i Hi). lia.
Qed.

Lemma cnt_bind_insert (f : worker -> list nat) ws w x y j :
  ws !! w = Some x -> (cnt j (<[w := y]> ws ≫= f) + cnt j (f x) = cnt j (ws ≫= f) + cnt j (f y))%nat.
Proof.
  revert w. induction ws as [|z ws IH]; intros [|w] Hw; simplify_eq/=; rewrite !cnt_app; [lia|].
  specialize (IH w Hw). lia.
Qed.

Lemma cnt_held_by ws w x y j :
  ws !! w = Some x -> (cnt j (held_by (<[w := y]> ws)) + cnt j (held x) = cnt j (held_by ws) + cnt j (held y))%nat.
Proof. apply cnt_bind_insert. Qed.

Lemma cnt_held_by_idle ws n j : cnt j (held_by (ws ++ replicate n Idle)) = cnt j (held_by ws).
Proof.
  unfold held_by. rewrite bind_app, cnt_app. assert (replicate n Idle ≫= held = []) as -> by (by induction n).
  rewrite cnt_nil. lia.
Qed.

Lemma cnt_elem j l : (0 < cnt j l)%nat <-> j ∈ l.
Proof. unfold cnt. rewrite list_elem_of_In, (count_occ_In Nat.eq_dec). lia. Qed.

(** The jobs whose handler runs. *)
Definition runs (w : worker) : list nat := match w with Running j => [j] | _ => [] end.
Definition running_of (ws : list worker) : list nat := ws ≫= runs.

Lemma cnt_running_of ws w x y j :
  ws !! w = Some x -> (cnt j (running_of (<[w := y]> ws)) + cnt j (runs x) = cnt j (running_of ws) + cnt j (runs y))%nat.
Proof. apply cnt_bind_insert. Qed.

Lemma cnt_running_of_idle ws n j : cnt j (running_of (ws ++ replicate n Idle)) = cnt j (running_of ws).
Proof.
  unfold running_of. rewrite bind_app, cnt_app. assert (replicate n Idle ≫= runs = []) as -> by (by induction n).
  rewrite cnt_nil. lia.
Qed.

Lemma running_held ws j : (cnt j (running_of ws) <= cnt j (held_by ws))%nat.
Proof.
  induction ws as [|w ws IH]; [done|]. unfold running_of, held_by in *. cbn. rewrite !cnt_app.
  destruct w; cbn; rewrite ?cnt_nil; lia.
Qed.

Lemma perm_cnt l k : (forall j, cnt j l = cnt j k) -> l ≡ₚ k.
Proof. intros H. by apply (Permutation_count_occ Nat.eq_dec). Qed.

(** The jobs of the log and of the runner, counted. *)
Definition balanced (r : Runner) : Prop :=
  forall j, cnt j (accepted (log r)) = (cnt j (live r) + cnt j (ended (log r)))%nat.

Lemma cnt_live r j :
  cnt j (live r) = (cnt j (queue r) + cnt j (senders r) + cnt j (held_by (pool r)) + cnt j (timers r).*2)%nat.
Proof. unfold live. rewrite !cnt_app. lia. Qed.

Lemma accepted_app l k : accepted (l ++ k) = accepted l ++ accepted k.
Proof. apply omap_app. Qed.
Lemma ended_app l k : ended (l ++ k) = ended l ++ ended k.
Proof. apply omap_app. Qed.
Lemma starts_app j l k : starts j (l ++ k) = starts j l ++ starts j k.
Proof. apply omap_app. Qed.

(** ** Every job is somewhere *)

Lemma accepted_one e : accepted [e] = match e with Accepted j => [j] | _ => [] end.
Proof. by destruct e. Qed.
Lemma ended_one e : ended [e] = match e with Succeeded j | Failed j _ | Dropped j => [j] | _ => [] end.
Proof. by destruct e. Qed.

(** The equations of the counts of an entry. *)
Ltac counts :=
  repeat first
    [ progress rewrite ?cnt_app, ?accepted_app, ?ended_app, ?accepted_one, ?ended_one, ?fmap_app, ?cnt_held_by_idle, ?cnt_nil in *
    | progress cbn [negb held queue senders pool timers log live fmap list_fmap fst snd
        write crash set_queue set_pool set_senders set_timers set_job set_running] in * ].

Lemma balanced_step r e r' : balanced r -> step r e = Some r' -> balanced r'.
Proof.
  intros Hb Hst j. specialize (Hb j). rewrite cnt_live in *. unfold step in Hst.
  destruct (crashed r); [done|]. destruct e.
  - simplify_eq/=. lia.
  - simplify_eq. unfold Start. destruct (running r); counts; lia.
  - simplify_eq. unfold Stop. destruct (running r); [destruct (stopCh_closed r)|]; counts; lia.
  - unfold Enqueue in Hst. destruct (job_at r !! j0); [|done].
    destruct (has_room _); simplify_eq; counts; lia.
  - unfold MustEnqueue in Hst. destruct (job_at r !! j0); [|done]. simplify_eq; counts; lia.
  - destruct (senders r !! i) as [x|] eqn:Hi; [|done]. destruct (has_room r); [|done]. simplify_eq.
    pose proof (cnt_delete _ _ _ j Hi). counts. lia.
  - destruct (pool r !! w) as [[]|] eqn:Hw; try done. destruct (queue r) as [|x q]; [done|]. simplify_eq.
    pose proof (cnt_held_by _ _ _ (Received x) j Hw). rewrite (cnt_cons x) in Hb. counts. lia.
  - destruct (pool r !! w) as [[]|] eqn:Hw; try done. destruct (stopCh_closed r); [|done]. simplify_eq.
    pose proof (cnt_held_by _ _ _ Exited j Hw). counts. lia.
  - destruct (pool r !! w) as [[|x| |]|] eqn:Hw; try done. destruct (job_at r !! x) as [job|]; [|done].
    simplify_eq. unfold process_start.
    pose proof (cnt_held_by _ _ _ (Running x) j Hw). pose proof (cnt_held_by _ _ _ Idle j Hw).
    case_decide; counts; lia.
  - destruct (pool r !! w) as [[| |x|]|] eqn:Hw; try done. destruct (job_at r !! x) as [job|]; [|done].
    simplify_eq. unfold process_end. pose proof (cnt_held_by _ _ _ Idle j Hw).
    destruct err; [destruct (_ <? _); [destruct (calculateRetryDelay _)|]|]; counts; lia.
  - destruct (pool r !! w) as [[]|]; try done. simplify_eq. counts. lia.
  - destruct (timers r !! i) as [[due x]|] eqn:Hi; [|done]. destruct (due <=? now); [|done].
    assert (cnt j (delete i (timers r)).*2 + cnt j [x] = cnt j (timers r).*2)%nat as Hd.
    { rewrite fmap_delete. apply cnt_delete. by rewrite list_lookup_fmap, Hi. }
    unfold Enqueue in Hst. cbn in Hst. destruct (job_at r !! x); [|done].
    destruct (has_room _); simplify_eq; counts; lia.
Qed.

Lemma reachable_ind_step (P : Runner -> Prop) r0 r :
  P r0 -> (forall r e r', P r -> step r e = Some r' -> P r') -> reachable r0 r -> P r.
Proof. intros H0 Hstep. induction 1 as [|? ? ? [e Hst] _ IH]; [done|]. eauto. Qed.

(** ** The attempts of a job *)

Definition failures (l : list entry) : list nat :=
  omap (fun e => match e with Failed j (HandlerError _) => Some j | _ => None end) l.
Definition successes (l : list entry) : list nat :=
  omap (fun e => match e with Succeeded j => Some j | _ => None end) l.

Lemma failures_app l k : failures (l ++ k) = failures l ++ failures k.
Proof. apply omap_app. Qed.
Lemma successes_app l k : successes (l ++ k) = successes l ++ successes k.
Proof. apply omap_app. Qed.
Lemma failures_one e : failures [e] = match e with Failed j (HandlerError _) => [j] | _ => [] end.
Proof. by destruct e as [| | | | |? []|]. Qed.
Lemma successes_one e : successes [e] = match e with Succeeded j => [j] | _ => [] end.
Proof. by destruct e. Qed.
Lemma starts_one j e :
  starts j [e] = match e with Started i a => if decide (i = j) then [a] else [] | _ => [] end.
Proof. destruct e; try done. cbn. by case_decide. Qed.

Lemma outcomes_ended l j : (cnt j (failures l) + cnt j (successes l) <= cnt j (ended l))%nat.
Proof.
  induction l as [|e l IH]; [done|]. change (e :: l) with ([e] ++ l).
  rewrite failures_app, successes_app, ended_app, !cnt_app, failures_one, successes_one, ended_one.
  destruct e as [| | | | |? []|]; rewrite ?cnt_nil; lia.
Qed.

(** A job that is accepted at most once. *)
Record attempts_ok (job0 : Job) (j : nat) (r : Runner) (job : Job) : Prop := {
  ao_job : job_at r !! j = Some job;
  ao_limit : limit job = limit job0;
  ao_starts : starts j (log r) = seqZ 1 (Attempts job);
  ao_bound : 0 <= Attempts job <= Z.max 1 (limit job);
  ao_max : (0 < cnt j (accepted (log r)))%nat -> MaxRetries job = limit job;
  ao_more : cnt j (running_of (pool r)) = 0%nat -> cnt j (ended (log r)) = 0%nat ->
    Attempts job = 0 \/ Attempts job < limit job;
  ao_started : (0 < cnt j (running_of (pool r)))%nat -> 1 <= Attempts job;
  ao_failed : (0 < cnt j (failures (log r)))%nat -> Attempts job = Z.max 1 (limit job);
  ao_succeeded : (0 < cnt j (successes (log r)))%nat -> 1 <= Attempts job
}.

Ltac attempts_simpl :=
  repeat first
    [ progress rewrite ?cnt_app, ?accepted_app, ?ended_app, ?failures_app, ?successes_app, ?starts_app,
        ?accepted_one, ?ended_one, ?failures_one, ?successes_one, ?starts_one, ?fmap_app,
        ?cnt_held_by_idle, ?cnt_running_of_idle, ?cnt_nil, ?app_nil_r, ?cnt_one, ?lookup_insert_eq in *
    | progress cbn [negb held runs queue senders pool timers log live fmap list_fmap fst snd job_at
        Attempts MaxRetries write crash set_queue set_pool set_senders set_timers set_job set_running] in * ].

Lemma limit_defaults job now : limit (with_defaults job now) = limit job.
Proof. unfold limit, with_defaults. cbn. destruct (MaxRetries job =? 0) eqn:E; [done|by rewrite E]. Qed.

Lemma max_defaults job now : MaxRetries (with_defaults job now) = limit job.
Proof. done. Qed.

Lemma limit_Attempts job n : limit (set_Attempts job n) = limit job.
Proof. done. Qed.
Lemma limit_Error job e : limit (set_Error job e) = limit job.
Proof. done. Qed.
Lemma limit_max job : MaxRetries job <> 0 -> MaxRetries job = limit job.
Proof. unfold limit. intros H. by rewrite (proj2 (Z.eqb_neq _ _) H). Qed.

Lemma attempts_frame job0 j r r' job :
  attempts_ok job0 j r job ->
  job_at r' !! j = Some job -> starts j (log r') = starts j (log r) ->
  cnt j (accepted (log r')) = cnt j (accepted (log r)) -> cnt j (ended (log r')) = cnt j (ended (log r)) ->
  cnt j (failures (log r')) = cnt j (failures (log r)) -> cnt j (successes (log r')) = cnt j (successes (log r)) ->
  cnt j (running_of (pool r')) = cnt j (running_of (pool r)) ->
  attempts_ok job0 j r' job.
Proof. intros [A1 A2 A3 A4 A5 A6 A7 A8 A9] J E1 E2 E3 E4 E5 E6. split; rewrite ?E1, ?E2, ?E3, ?E4, ?E5, ?E6; auto. Qed.

Lemma attempts_enqueue job0 j r r' job now :
  attempts_ok job0 j r job ->
  job_at r' !! j = Some (with_defaults job now) -> starts j (log r') = starts j (log r) ->
  (cnt j (ended (log r)) <= cnt j (ended (log r')))%nat ->
  cnt j (failures (log r')) = cnt j (failures (log r)) -> cnt j (successes (log r')) = cnt j (successes (log r)) ->
  cnt j (running_of (pool r')) = cnt j (running_of (pool r)) ->
  attempts_ok job0 j r' (with_defaults job now).
Proof.
  intros [A1 A2 A3 A4 A5 A6 A7 A8 A9] J E1 E3 E4 E5 E6.
  split; rewrite ?E1, ?E4, ?E5, ?E6, ?limit_defaults, ?max_defaults; auto.
  intros Hr He. apply A6; [done|]. lia.
Qed.

(** Another job's event. *)
Ltac other_job := eapply attempts_frame; [eassumption|attempts_simpl..]; rewrite ?lookup_insert_ne by done;
  rewrite ?decide_False by done; rewrite ?cnt_nil, ?app_nil_r in *; try done; try lia;
  attempts_simpl; rewrite ?decide_False in * by done; try done; try lia.

Lemma attempts_start job0 j r r' w job :
  balanced r -> balanced r' -> (cnt j (accepted (log r')) <= 1)%nat ->
  attempts_ok job0 j r job -> pool r !! w = Some (Received j) -> r' = process_start r w j job ->
  exists job', attempts_ok job0 j r' job'.
Proof.
  intros Hb Hb' Hone [A1 A2 A3 A4 A5 A6 A7 A8 A9] Hw ->.
  specialize (Hb j). specialize (Hb' j). rewrite cnt_live in *.
  pose proof (outcomes_ended (log r) j) as Hout. pose proof (running_held (pool r) j) as Hrun.
  pose proof (cnt_held_by _ _ _ (Running j) j Hw). pose proof (cnt_held_by _ _ _ Idle j Hw).
  pose proof (cnt_running_of _ _ _ (Running j) j Hw). pose proof (cnt_running_of _ _ _ Idle j Hw).
  pose proof (running_held (<[w := Running j]> (pool r)) j). pose proof (running_held (<[w := Idle]> (pool r)) j).
  unfold process_start in *. case_decide.
  - exists (set_Attempts job (Attempts job + 1)). attempts_simpl. rewrite !decide_True in * by done.
    pose proof (limit_max job). split; attempts_simpl; rewrite ?limit_Attempts; cbn [set_Attempts Attempts MaxRetries]; try done; try lia.
    rewrite decide_True, A3, (seqZ_app 1 (Attempts job) 1) by (done || lia). by rewrite (Z.add_comm (Attempts job) 1).
  - exists job. attempts_simpl. rewrite !decide_True in * by done.
    split; attempts_simpl; rewrite ?decide_True by done; try done; try lia.
Qed.

Lemma attempts_end job0 j r r' w job err now :
  balanced r -> balanced r' -> (cnt j (accepted (log r')) <= 1)%nat ->
  attempts_ok job0 j r job -> pool r !! w = Some (Running j) -> r' = process_end r w j job err now ->
  exists job', attempts_ok job0 j r' job'.
Proof.
  intros Hb Hb' Hone [A1 A2 A3 A4 A5 A6 A7 A8 A9] Hw ->.
  specialize (Hb j). specialize (Hb' j). rewrite cnt_live in *.
  pose proof (outcomes_ended (log r) j) as Hout. pose proof (running_held (pool r) j) as Hrun.
  pose proof (cnt_held_by _ _ _ Idle j Hw). pose proof (cnt_running_of _ _ _ Idle j Hw).
  pose proof (running_held (<[w := Idle]> (pool r)) j).
  unfold process_end in *. destruct err as [msg|].
  - cbv zeta in *. change (Attempts (set_Error job (HandlerError msg))) with (Attempts job) in *.
    change (MaxRetries (set_Error job (HandlerError msg))) with (MaxRetries job) in *.
    destruct (Attempts job <? MaxRetries job) eqn:Hlt; [destruct (calculateRetryDelay _)|];
      exists (set_Error job (HandlerError msg)); attempts_simpl; rewrite ?decide_True in * by done;
      pose proof (limit_max job); split; attempts_simpl; rewrite ?limit_Error;
      cbn [set_Error Attempts MaxRetries] in *; rewrite ?decide_True by done; try done; try lia.
  - exists job. attempts_simpl. rewrite !decide_True in * by done.
    split; attempts_simpl; rewrite ?decide_True by done; try done; try lia.
Qed.

Lemma attempts_step job0 j r e r' job :
  balanced r -> balanced r' -> (cnt j (accepted (log r')) <= 1)%nat ->
  attempts_ok job0 j r job -> step r e = Some r' -> exists job', attempts_ok job0 j r' job'.
Proof.
  intros Hb Hb' Hone Ha Hst. pose proof (ao_job _ _ _ _ Ha) as Hj.
  unfold step in Hst. destruct (crashed r); [done|]. destruct e.
  - simplify_eq. exists job. other_job.
  - simplify_eq. exists job. unfold Start in *. destruct (running r); other_job.
  - simplify_eq. exists job. unfold Stop. destruct (running r); [destruct (stopCh_closed r)|]; other_job.
  - unfold Enqueue in Hst. destruct (job_at r !! j0) as [x|] eqn:Hx; [|done].
    destruct (decide (j0 = j)) as [->|Hne].
    + exists (with_defaults job now). simplify_eq. destruct (has_room _); simplify_eq; eapply attempts_enqueue; try done; by attempts_simpl.
    + exists job. destruct (has_room _); simplify_eq; other_job.
  - unfold MustEnqueue in Hst. destruct (job_at r !! j0) as [x|] eqn:Hx; [|done].
    destruct (decide (j0 = j)) as [->|Hne].
    + exists (with_defaults job now). simplify_eq. eapply attempts_enqueue; try done; by attempts_simpl.
    + exists job. simplify_eq; other_job.
  - exists job. destruct (senders r !! i) as [x|] eqn:Hi; [|done]. destruct (has_room r); [|done]. simplify_eq. other_job.
  - exists job. destruct (pool r !! w) as [[]|] eqn:Hw; try done. destruct (queue r) as [|x q]; [done|]. simplify_eq.
    pose proof (cnt_running_of _ _ _ (Received x) j Hw). other_job.
  - exists job. destruct (pool r !! w) as [[]|] eqn:Hw; try done. destruct (stopCh_closed r); [|done]. simplify_eq.
    pose proof (cnt_running_of _ _ _ Exited j Hw). other_job.
  - destruct (pool r !! w) as [[|x| |]|] eqn:Hw; try done. destruct (job_at r !! x) as [y|] eqn:Hx; [|done].
    simplify_eq. destruct (decide (x = j)) as [->|Hne].
    + simplify_eq. eapply (attempts_start job0 j r _ w); try eassumption; reflexivity.
    + exists job. pose proof (cnt_running_of _ _ _ (Running x) j Hw). pose proof (cnt_running_of _ _ _ Idle j Hw).
      unfold process_start. case_decide; other_job.
  - destruct (pool r !! w) as [[| |x|]|] eqn:Hw; try done. destruct (job_at r !! x) as [y|] eqn:Hx; [|done].
    simplify_eq. destruct (decide (x = j)) as [->|Hne].
    + simplify_eq. eapply (attempts_end job0 j r _ w); try eassumption; reflexivity.
    + exists job. pose proof (cnt_running_of _ _ _ Idle j Hw).
      unfold process_end. destruct err; [cbv zeta; destruct (_ <? _); [destruct (calculateRetryDelay _)|]|];
        other_job.
  - exists job. destruct (pool r !! w) as [[]|]; try done. simplify_eq. other_job.
  - destruct (timers r !! i) as [[due x]|] eqn:Hi; [|done]. destruct (due <=? now); [|done].
    unfold Enqueue in Hst. cbn in Hst. destruct (job_at r !! x) as [y|] eqn:Hx; [|done].
    destruct (decide (x = j)) as [->|Hne].
    + exists (with_defaults job now). simplify_eq. destruct (has_room _); simplify_eq;
        eapply attempts_enqueue; try done; attempts_simpl; try done; lia.
    + exists job. destruct (has_room _); simplify_eq; other_job.
Qed.

Lemma step_log r e r' : step r e = Some r' -> exists es, log r' = log r ++ es.
Proof.
  assert (forall A (x : list A), exists es, x = x ++ es) as Hsame by (intros A x; exists []; by rewrite app_nil_r).
  unfold step. destruct (crashed r); [done|]. intros Hst. destruct e; unfold Enqueue, MustEnqueue in Hst; cbn in Hst.
  - simplify_eq. apply Hsame.
  - simplify_eq. unfold Start. destruct (running r); apply Hsame.
  - simplify_eq. unfold Stop. destruct (running r); [destruct (stopCh_closed r)|]; apply Hsame.
  - destruct (job_at r !! j); [|done]. destruct (has_room _); simplify_eq; by eexists.
  - destruct (job_at r !! j); [|done]. simplify_eq. by eexists.
  - destruct (senders r !! i); [|done]. destruct (has_room r); [|done]. simplify_eq. apply Hsame.
  - destruct (pool r !! w) as [[]|]; try done. destruct (queue r); [done|]. simplify_eq. apply Hsame.
  - destruct (pool r !! w) as [[]|]; try done. destruct (stopCh_closed r); [|done]. simplify_eq. apply Hsame.
  - destruct (pool r !! w) as [[]|]; try done. destruct (job_at r !! j); [|done]. simplify_eq.
    unfold process_start. case_decide; by eexists.
  - destruct (pool r !! w) as [[]|]; try done. destruct (job_at r !! j); [|done]. simplify_eq. unfold process_end.
    destruct err; [cbv zeta; destruct (_ <? _); [destruct (calculateRetryDelay _); [|apply Hsame]|]|]; by eexists.
  - destruct (pool r !! w) as [[]|]; try done. simplify_eq. apply Hsame.
  - destruct (timers r !! i) as [[due x]|]; [|done]. destruct (due <=? now); [|done]. cbn in Hst.
    destruct (job_at r !! x); [|done]. destruct (has_room _); simplify_eq; [apply Hsame|by eexists].
Qed.

Lemma accepted_grows r e r' j : step r e = Some r' -> (cnt j (accepted (log r)) <= cnt j (accepted (log r')))%nat.
Proof. intros Hst. destruct (step_log r e r' Hst) as [es ->]. rewrite accepted_app, cnt_app. lia. Qed.

(** ** Work left *)

(** The attempts a job has left. *)
Definition attempts_left (jobs : gmap nat Job) (j : nat) : nat :=
  match jobs !! j with Some job => Z.to_nat (limit job - Attempts job) | None => 0%nat end.

Definition worker_work (jobs : gmap nat Job) (w : worker) : nat :=
  match w with
  | Idle => 1%nat
  | Exited => 0%nat
  | Received j => S (5 * attempts_left jobs j + 2)%nat
  | Running j => S (5 * attempts_left jobs j + (if decide (attempts_left jobs j = 0) then 1 else 5))%nat
  end.

Definition work (r : Runner) : nat :=
  ((if crashed r then 0 else 1) +
   sum_list_with (fun j => 5 * attempts_left (job_at r) j + 3) (queue r) +
   sum_list_with (fun j => 5 * attempts_left (job_at r) j + 4) (senders r) +
   sum_list_with (fun t => 5 * attempts_left (job_at r) t.2 + 4) (timers r) +
   sum_list_with (worker_work (job_at r)) (pool r))%nat.

(** What is left does not grow when an attempt of a job is counted. *)
Lemma left_insert jobs j job job' k :
  jobs !! j = Some job -> limit job' = limit job -> Attempts job <= Attempts job' ->
  (attempts_left (<[j := job']> jobs) k <= attempts_left jobs k)%nat.
Proof.
  intros Hj Hl Ha. unfold attempts_left. destruct (decide (j = k)) as [<-|Hne].
  - rewrite lookup_insert_eq, Hj. lia.
  - by rewrite lookup_insert_ne.
Qed.

Lemma worker_work_le jobs jobs' w :
  (forall j, (attempts_left jobs' j <= attempts_left jobs j)%nat) -> (worker_work jobs' w <= worker_work jobs w)%nat.
Proof.
  intros Hle. destruct w as [|j|j|]; cbn -[Nat.mul]; try lia; specialize (Hle j); [lia|].
  repeat case_decide; lia.
Qed.

Lemma sums_le (jobs jobs' : gmap nat Job) :
  (forall j, (attempts_left jobs' j <= attempts_left jobs j)%nat) ->
  (forall l, (sum_list_with (fun j => 5 * attempts_left jobs' j + 3) l <=
     sum_list_with (fun j => 5 * attempts_left jobs j + 3) l)%nat) /\
  (forall l, (sum_list_with (fun j => 5 * attempts_left jobs' j + 4) l <=
     sum_list_with (fun j => 5 * attempts_left jobs j + 4) l)%nat) /\
  (forall l : list (Time * nat), (sum_list_with (fun t => 5 * attempts_left jobs' t.2 + 4) l <=
     sum_list_with (fun t => 5 * attempts_left jobs t.2 + 4) l)%nat) /\
  (forall l, (sum_list_with (worker_work jobs') l <= sum_list_with (worker_work jobs) l)%nat).
Proof.
  intros Hle. repeat split; intros l; apply sum_le; intros x.
  - specialize (Hle x). lia.
  - specialize (Hle x). lia.
  - specialize (Hle x.2). lia.
  - by apply worker_work_le.
Qed.

Lemma work_insert jobs jobs' ws w x y :
  (forall j, (attempts_left jobs' j <= attempts_left jobs j)%nat) -> ws !! w = Some x ->
  (sum_list_with (worker_work jobs') (<[w := y]> ws) + worker_work jobs x <=
   sum_list_with (worker_work jobs) ws + worker_work jobs' y)%nat.
Proof.
  intros Hle Hw. destruct (sums_le _ _ Hle) as (_ & _ & _ & H4). specialize (H4 (<[w := Idle]> ws)).
  pose proof (sum_insert (worker_work jobs') _ _ _ y Hw). pose proof (sum_insert (worker_work jobs') _ _ _ Idle Hw).
  pose proof (sum_insert (worker_work jobs) _ _ _ Idle Hw). cbn [worker_work] in *. lia.
Qed.

(** A step of a worker that holds [x] and changes [jobs] to [jobs']. *)
Lemma work_worker r r' w x y more :
  crashed r = false -> pool r !! w = Some x ->
  (forall j, (attempts_left (job_at r') j <= attempts_left (job_at r) j)%nat) ->
  queue r' = queue r -> senders r' = senders r -> timers r' = timers r ++ more -> pool r' = <[w := y]> (pool r) ->
  (sum_list_with (fun t => 5 * attempts_left (job_at r') t.2 + 4) more + worker_work (job_at r') y <
     worker_work (job_at r) x)%nat ->
  (work r' < work r)%nat.
Proof.
  intros Hc Hw Hle Hq Hs Ht Hp Hlt. unfold work. rewrite Hc, Hq, Hs, Ht, Hp, sum_list_with_app.
  destruct (sums_le _ _ Hle) as (H1 & H2 & H3 & _).
  specialize (H1 (queue r)). specialize (H2 (senders r)). specialize (H3 (timers r)).
  pose proof (work_insert _ _ _ _ x y Hle Hw). destruct (crashed r'); lia.
Qed.

Lemma work_process_start r w j job :
  crashed r = false -> pool r !! w = Some (Received j) -> job_at r !! j = Some job ->
  (work (process_start r w j job) < work r)%nat.
Proof.
  intros Hc Hw Hj. assert (attempts_left (job_at r) j = Z.to_nat (limit job - Attempts job)) as E1
    by (unfold attempts_left; by rewrite Hj).
  unfold process_start. case_decide.
  - apply (work_worker r _ w (Received j) (Running j) []); try done; [|by rewrite app_nil_r|].
    + intros k. apply (left_insert _ _ job); [done|done|]. cbn. lia.
    + cbn [sum_list_with worker_work job_at set_pool write set_job].
      assert (attempts_left (<[j := set_Attempts job (Attempts job + 1)]> (job_at r)) j =
        Z.to_nat (limit job - (Attempts job + 1))) as -> by (unfold attempts_left; by rewrite lookup_insert_eq).
      rewrite E1. case_decide; lia.
  - apply (work_worker r _ w (Received j) Idle []); try done; [by rewrite app_nil_r|].
    cbn [sum_list_with worker_work job_at set_pool write]. lia.
Qed.

Lemma work_process_end r w j job err now :
  crashed r = false -> pool r !! w = Some (Running j) -> job_at r !! j = Some job ->
  (work (process_end r w j job err now) < work r)%nat.
Proof.
  intros Hc Hw Hj. assert (attempts_left (job_at r) j = Z.to_nat (limit job - Attempts job)) as E1
    by (unfold attempts_left; by rewrite Hj).
  assert (1 <= worker_work (job_at r) (Running j))%nat as Hpos by (cbn [worker_work]; lia).
  unfold process_end. destruct err as [msg|].
  - assert (forall k, attempts_left (<[j := set_Error job (HandlerError msg)]> (job_at r)) k <=
      attempts_left (job_at r) k)%nat as Hle by (intros k; apply (left_insert _ _ job); [done|done|cbn; lia]).
    cbv zeta. change (Attempts (set_Error job _)) with (Attempts job). change (MaxRetries (set_Error job _)) with (MaxRetries job).
    destruct (Attempts job <? MaxRetries job) eqn:Hlt; [destruct (calculateRetryDelay _)|].
    + eapply (work_worker r _ w (Running j) Idle); try done.
      cbn [sum_list_with worker_work snd job_at set_pool set_timers write set_job]. specialize (Hle j).
      assert (0 < attempts_left (job_at r) j)%nat.
      { rewrite E1. unfold limit. destruct (MaxRetries job =? 0) eqn:H0; lia. }
      rewrite decide_False by lia. lia.
    + unfold work. rewrite Hc. destruct (sums_le _ _ Hle) as (H1 & H2 & H3 & H4).
      specialize (H1 (queue r)). specialize (H2 (senders r)). specialize (H3 (timers r)). specialize (H4 (pool r)).
      cbn [crashed crash queue senders timers pool job_at set_job]. lia.
    + apply (work_worker r _ w (Running j) Idle []); try done; [by rewrite app_nil_r|].
      cbn [sum_list_with worker_work]. case_decide; lia.
  - apply (work_worker r _ w (Running j) Idle []); try done; [by rewrite app_nil_r|].
    cbn [sum_list_with worker_work]. case_decide; lia.
Qed.

Lemma work_timer r r' i due j now ok :
  crashed r = false -> timers r !! i = Some (due, j) ->
  Enqueue (set_timers r (delete i (timers r))) j now = Some (r', ok) -> (work r' < work r)%nat.
Proof.
  intros Hc Hi. unfold Enqueue. cbn [job_at set_timers]. destruct (job_at r !! j) as [job|] eqn:Hj; [|done].
  assert (forall k, attempts_left (<[j := with_defaults job now]> (job_at r)) k <=
    attempts_left (job_at r) k)%nat as Hle by (intros k; apply (left_insert _ _ job); [done|apply limit_defaults|cbn; lia]).
  destruct (sums_le _ _ Hle) as (H1 & H2 & H3 & H4).
  specialize (H1 (queue r)). specialize (H2 (senders r)). specialize (H3 (delete i (timers r))). specialize (H4 (pool r)).
  specialize (Hle j). pose proof (sum_delete (fun t => 5 * attempts_left (job_at r) t.2 + 4)%nat _ _ _ Hi) as Hd.
  cbn [snd] in Hd. intros Hst. destruct (has_room _); simplify_eq; unfold work; rewrite Hc;
    cbn [crashed queue senders timers pool job_at set_job set_queue set_timers]; rewrite ?Hc, ?sum_list_with_app;
    cbn [sum_list_with]; lia.
Qed.

Lemma work_step r e r' : internal e = true -> step r e = Some r' -> (work r' < work r)%nat.
Proof.
  intros He Hst. unfold step in Hst. destruct (crashed r) eqn:Hc; [done|].
  destruct e; try done; clear He.
  - destruct (senders r !! i) as [x|] eqn:Hi; [|done]. destruct (has_room r); [|done]. simplify_eq. unfold work.
    cbn [crashed queue senders timers pool job_at set_queue set_senders]. rewrite Hc, sum_list_with_app.
    pose proof (sum_delete (fun j => 5 * attempts_left (job_at r) j + 4)%nat _ _ _ Hi) as Hd.
    cbn [sum_list_with] in *. lia.
  - destruct (pool r !! w) as [[]|] eqn:Hw; try done. destruct (queue r) as [|x q] eqn:Hq; [done|]. simplify_eq. unfold work.
    cbn [crashed queue senders timers pool job_at set_queue set_pool]. rewrite Hc, Hq.
    pose proof (sum_insert (worker_work (job_at r)) _ _ _ (Received x) Hw) as Hd. cbn [sum_list_with worker_work] in *. lia.
  - destruct (pool r !! w) as [[]|] eqn:Hw; try done. destruct (stopCh_closed r); [|done]. simplify_eq.
    apply (work_worker r _ w Idle Exited []); try done; [by rewrite app_nil_r|]. cbn. lia.
  - destruct (pool r !! w) as [[|x| |]|] eqn:Hw; try done. destruct (job_at r !! x) as [job|] eqn:Hx; [|done].
    simplify_eq. by apply work_process_start.
  - destruct (pool r !! w) as [[| |x|]|] eqn:Hw; try done. destruct (job_at r !! x) as [job|] eqn:Hx; [|done].
    simplify_eq. by apply work_process_end.
  - destruct (pool r !! w) as [[]|]; try done. simplify_eq. unfold work. rewrite Hc. cbn. lia.
  - destruct (timers r !! i) as [[due x]|] eqn:Hi; [|done]. destruct (due <=? now); [|done].
    destruct (Enqueue _ _ _) as [[r1 ok]|] eqn:Hen; [|done]. pose proof (work_timer _ _ _ _ _ _ _ Hc Hi Hen) as Hlt.
    destruct ok; simplify_eq; exact Hlt.
Qed.

Lemma internal_Acc r : Acc (fun r' r => internal_step r r') r.
Proof.
  remember (work r) as n eqn:Hn. revert r Hn. induction (Nat.lt_wf_0 n) as [n _ IH]. intros r ->.
  constructor. intros r' (e & He & Hst). eapply IH; [by eapply work_step|done].
Qed.

(** ** Workers at work *)

(** Before [Stop], the workers are those [Start] made, and none has returned. *)
Record staffed (r : Runner) : Prop := {
  st_workers : 1 <= workers r;
  st_size : 1 <= queueSize r;
  st_queue : Z.of_nat (length (queue r)) <= queueSize r;
  st_jobs : forall j, j ∈ accepted (log r) -> is_Some (job_at r !! j);
  st_pool : stopCh_closed r = false ->
    (Exited ∉ pool r) /\ Z.of_nat (length (pool r)) = if running r then workers r else 0
}.

(** What an event leaves as it is, and how the jobs and the queue change. *)
Record keeps (r r' : Runner) : Prop := {
  ke_workers : workers r' = workers r;
  ke_size : queueSize r' = queueSize r;
  ke_queue : Z.of_nat (length (queue r')) <= Z.max (Z.of_nat (length (queue r))) (queueSize r);
  ke_jobs : forall j, is_Some (job_at r !! j) -> is_Some (job_at r' !! j);
  ke_accepted : forall j, j ∈ accepted (log r') -> j ∈ accepted (log r) \/ is_Some (job_at r' !! j)
}.

Lemma keeps_staffed r r' :
  keeps r r' -> (stopCh_closed r' = false -> stopCh_closed r = false /\
    ((Exited ∉ pool r) -> (Exited ∉ pool r')) /\
    (Z.of_nat (length (pool r)) = (if running r then workers r else 0) ->
     Z.of_nat (length (pool r')) = if running r' then workers r' else 0)) ->
  staffed r -> staffed r'.
Proof.
  intros [K1 K2 K3 K4 K5] Hp [S1 S2 S3 S4 S5]. split.
  - lia.
  - lia.
  - lia.
  - intros j Hj. apply K5 in Hj as [Hj|Hj]; [|done]. by apply K4, S4.
  - intros Hs. destruct (Hp Hs) as (Hs' & He & Hl). destruct (S5 Hs'). auto.
Qed.

Lemma has_room_lt r : has_room r = true -> Z.of_nat (length (queue r)) + 1 <= queueSize r.
Proof. unfold has_room. lia. Qed.

Lemma insert_Some_jobs (jobs : gmap nat Job) j x k : is_Some (jobs !! k) -> is_Some (<[j := x]> jobs !! k).
Proof. rewrite lookup_insert_is_Some. destruct (decide (j = k)); auto. Qed.

Lemma exited_insert (ws : list worker) (w : nat) x : (Exited ∉ ws) -> x <> Exited -> (Exited ∉ <[w := x]> ws).
Proof.
  intros Hn Hx Hin. apply list_elem_of_lookup in Hin as [i Hi]. apply list_lookup_insert_Some in Hi as [(-> & ? & _)|[_ Hi]].
  - done.
  - apply Hn. by eapply list_elem_of_lookup_2.
Qed.

Lemma Enqueue_keeps r j now r' ok :
  Enqueue r j now = Some (r', ok) ->
  keeps r r' /\ is_Some (job_at r' !! j) /\ pool r' = pool r /\ running r' = running r /\ stopCh_closed r' = stopCh_closed r /\
  log r' = log r.
Proof.
  unfold Enqueue. destruct (job_at r !! j) as [job|]; [|done]. intros Hst.
  destruct (has_room _) eqn:Hroom; simplify_eq; (split; [split; cbn; try done|]);
    try (split; [cbn; rewrite lookup_insert_eq; by eexists|done]);
    try (intros k; apply insert_Some_jobs); auto.
  - apply has_room_lt in Hroom. cbn in Hroom. rewrite length_app. cbn. lia.
  - lia.
Qed.

Lemma keeps_refl r : keeps r r.
Proof. split; auto. lia. Qed.

Ltac keep_it :=
  split; cbn; try done; try lia; auto; try (intros k; apply insert_Some_jobs);
  try (intros k; rewrite ?accepted_app, ?elem_of_app, ?accepted_one; auto; intros [?|?%elem_of_nil]; auto; done).

Lemma staffed_step r e r' : staffed r -> step r e = Some r' -> staffed r'.
Proof.
  intros Hs Hst. unfold step in Hst. destruct (crashed r); [done|].
  assert (forall (w : nat) x, (Exited ∉ pool r) -> x <> Exited -> (Exited ∉ <[w := x]> (pool r))) as Hex by (intros; by apply exited_insert).
  destruct e.
  - simplify_eq. by destruct Hs; split.
  - simplify_eq. unfold Start. destruct (running r) eqn:Hr; [done|]. destruct Hs as [S1 S2 S3 S4 S5]. split; try done.
    cbn. intros Hc. destruct (S5 Hc) as [He Hl]. rewrite Hr in Hl. split.
    + rewrite elem_of_app. intros [?|Hin]; [done|]. by apply elem_of_replicate in Hin as [? _].
    + rewrite length_app, length_replicate. lia.
  - simplify_eq. unfold Stop. destruct (running r); [destruct (stopCh_closed r) eqn:Hc|]; destruct Hs; split; try done.
    cbn. by rewrite Hc.
  - destruct (Enqueue r j now) as [[r1 ok]|] eqn:He; [|done]. destruct (Enqueue_keeps _ _ _ _ _ He) as ([K1 K2 K3 K4 K5] & Hj & Hp & Hr & Hc & Hl).
    assert (staffed (write r1 (if ok then Accepted j else Refused j))) as Hw.
    { apply (keeps_staffed r); [|cbn; by rewrite Hp, Hr, Hc, K1|done]. split; cbn; try done.
      intros k. rewrite accepted_app, elem_of_app, Hl, accepted_one.
      destruct ok; [|intros [?|?%elem_of_nil]; auto; done]. intros [?|Hk]; [by left|]. right. by inversion_clear Hk as [|??? Hn]; [|inversion Hn]. }
    by destruct ok; simplify_eq.
  - unfold MustEnqueue in Hst. destruct (job_at r !! j) as [job|] eqn:Hj; [|done]. simplify_eq.
    apply (keeps_staffed r); [|done|done]. split; cbn; try done; [lia|intros k; apply insert_Some_jobs|].
    intros k. rewrite accepted_app, elem_of_app. intros [?|Hk]; [by left|]. right. rewrite accepted_one in Hk.
    apply list_elem_of_singleton in Hk as ->. rewrite lookup_insert_eq. by eexists.
  - destruct (senders r !! i); [|done]. destruct (has_room r) eqn:Hroom; [|done]. simplify_eq. apply has_room_lt in Hroom.
    apply (keeps_staffed r); [|done|done]. split; cbn; auto. rewrite length_app. cbn. lia.
  - destruct (pool r !! w) as [[]|]; try done. destruct (queue r) as [|x q] eqn:Hq; [done|]. simplify_eq.
    apply (keeps_staffed r); [|cbn|done].
    + split; cbn; auto. rewrite Hq. cbn. lia.
    + intros Hc. rewrite length_insert. auto.
  - destruct (pool r !! w) as [[]|]; try done. destruct (stopCh_closed r) eqn:Hc; [|done]. simplify_eq.
    apply (keeps_staffed r); [by split; cbn; auto; lia| |done]. cbn. by rewrite Hc.
  - destruct (pool r !! w) as [[]|]; try done. destruct (job_at r !! j) as [job|] eqn:Hj; [|done]. simplify_eq.
    unfold process_start. case_decide; (apply (keeps_staffed r); [keep_it|cbn; rewrite length_insert; auto|done]).
  - destruct (pool r !! w) as [[]|]; try done. destruct (job_at r !! j) as [job|] eqn:Hj; [|done]. simplify_eq.
    unfold process_end. destruct err as [msg|]; [cbv zeta; destruct (_ <? _); [destruct (calculateRetryDelay _)|]|];
      (apply (keeps_staffed r); [keep_it|cbn; rewrite ?length_insert; auto|done]).
  - destruct (pool r !! w) as [[]|]; try done. simplify_eq. by destruct Hs; split.
  - destruct (timers r !! i) as [[due j]|]; [|done]. destruct (due <=? now); [|done].
    destruct (Enqueue _ j now) as [[r1 ok]|] eqn:He; [|done]. destruct (Enqueue_keeps _ _ _ _ _ He) as ([K1 K2 K3 K4 K5] & Hj & Hp & Hr & Hc & Hl).
    cbn in *. destruct ok; simplify_eq; (apply (keeps_staffed r); [|cbn; by rewrite Hp, Hr, Hc, K1|done]); split; cbn; try done;
      intros k; rewrite Hl, ?accepted_app, ?elem_of_app, ?accepted_one; auto; intros [?|?%elem_of_nil]; auto; done.
Qed.

Lemma staffed_New w q jobs : staffed (New w q jobs).
Proof. split; cbn; try lia; [destruct (w <=? 0) eqn:?; lia|destruct (q <=? 0) eqn:?; lia|destruct (q <=? 0) eqn:?; lia| |]; set_solver. Qed.

Lemma reachable_staffed w q jobs r : reachable (New w q jobs) r -> staffed r.
Proof. apply (reachable_ind_step staffed); [apply staffed_New|]. intros r1 e r2. apply staffed_step. Qed.

Lemma reachable_balanced w q jobs r : reachable (New w q jobs) r -> balanced r.
Proof. apply (reachable_ind_step balanced); [done|]. intros r1 e r2. apply balanced_step. Qed.

Lemma reachable_attempts w q jobs r j job0 :
  jobs !! j = Some job0 -> Attempts job0 = 0 -> reachable (New w q jobs) r ->
  (cnt j (accepted (log r)) <= 1)%nat -> exists job, attempts_ok job0 j r job.
Proof.
  intros Hj Ha Hr.
  apply (reachable_ind_step (fun r => balanced r /\
    ((cnt j (accepted (log r)) <= 1)%nat -> exists job, attempts_ok job0 j r job)) (New w q jobs)); [| |done].
  - split; [done|]. intros _. exists job0. split; cbn; try done; rewrite ?Ha; try done; try lia.
    all: rewrite cnt_nil; intros Hn; exfalso; exact (Nat.nlt_0_r _ Hn).
  - intros r1 e r2 [Hb IH] Hst. pose proof (balanced_step _ _ _ Hb Hst) as Hb2. split; [done|]. intros Hone.
    destruct IH as [job Hok]; [pose proof (accepted_grows _ _ _ j Hst); lia|].
    exact (attempts_step job0 j r1 e r2 job Hb Hb2 Hone Hok Hst).
Qed.

Definition stuck (r : Runner) : Prop := forall e r', internal e = true -> step r e <> Some r'.

Lemma internal_keeps_running r e r' :
  internal e = true -> step r e = Some r' -> running r' = running r /\ stopCh_closed r' = stopCh_closed r.
Proof.
  intros He Hst. unfold step in Hst. destruct (crashed r); [done|]. destruct e; try done; clear He.
  - destruct (senders r !! i); [|done]. destruct (has_room r); [|done]. by simplify_eq.
  - destruct (pool r !! w) as [[]|]; try done. destruct (queue r); [done|]. by simplify_eq.
  - destruct (pool r !! w) as [[]|]; try done. destruct (stopCh_closed r) eqn:Hc; [|done]. simplify_eq. by cbn.
  - destruct (pool r !! w) as [[]|]; try done. destruct (job_at r !! j); [|done]. simplify_eq.
    unfold process_start. by case_decide.
  - destruct (pool r !! w) as [[]|]; try done. destruct (job_at r !! j); [|done]. simplify_eq.
    unfold process_end. destruct err; [cbv zeta; destruct (_ <? _); [destruct (calculateRetryDelay _)|]|]; done.
  - destruct (pool r !! w) as [[]|]; try done. by simplify_eq.
  - destruct (timers r !! i) as [[due j]|]; [|done]. destruct (due <=? now); [|done].
    destruct (Enqueue _ j now) as [[r1 ok]|] eqn:He; [|done]. destruct (Enqueue_keeps _ _ _ _ _ He) as (_ & _ & _ & Hr & Hc & _).
    by destruct ok; simplify_eq.
Qed.

Lemma stuck_empty r :
  staffed r -> balanced r -> running r = true -> stopCh_closed r = false -> crashed r = false -> stuck r ->
  live r = [].
Proof.
  intros [S1 S2 S3 S4 S5] Hb Hrun Hstop Hc Hst. destruct (S5 Hstop) as [Hex Hlen]. rewrite Hrun in Hlen.
  assert (forall j, (0 < cnt j (live r))%nat -> is_Some (job_at r !! j)) as Hlive.
  { intros j Hj. apply S4, cnt_elem. rewrite Hb. lia. }
  assert (timers r = []) as Ht.
  { destruct (timers r) as [|[due j] ts] eqn:Ht; [done|]. exfalso.
    destruct (Hlive j) as [job Hj]; [rewrite cnt_live, Ht; cbn; rewrite (cnt_cons j), cnt_one, decide_True by done; lia|].
    specialize (Hst (TimerFires 0 due)). unfold step in Hst. rewrite Hc, Ht in Hst. cbn in Hst.
    rewrite Z.leb_refl in Hst. unfold Enqueue in Hst. cbn in Hst. rewrite Hj in Hst.
    destruct (has_room _); by eapply Hst. }
  assert (forall w x, pool r !! w = Some x -> x = Idle) as Hidle.
  { intros w x Hw. assert (forall j, x = Received j \/ x = Running j -> is_Some (job_at r !! j)) as Hj.
    { intros j Hx. apply Hlive. rewrite cnt_live. pose proof (cnt_held_by _ _ _ Idle j Hw) as Hh. cbn [held] in Hh.
      rewrite cnt_nil in Hh. assert (cnt j (held x) = 1%nat) by (destruct Hx as [-> | ->]; cbn [held]; by rewrite cnt_one, decide_True).
      lia. }
    destruct x as [|j|j|]; [done| | |].
    - destruct (Hj j) as [job Hjob]; [auto|]. exfalso. specialize (Hst (WorkerLooksUp w)). unfold step in Hst.
      rewrite Hc, Hw, Hjob in Hst. by eapply Hst.
    - destruct (Hj j) as [job Hjob]; [auto|]. exfalso. specialize (Hst (HandlerReturns w None 0)). unfold step in Hst.
      rewrite Hc, Hw, Hjob in Hst. by eapply Hst.
    - exfalso. apply Hex. by eapply list_elem_of_lookup_2. }
  assert (held_by (pool r) = []) as Hh.
  { clear -Hidle. unfold held_by. induction (pool r) as [|x ws IH]; [done|]. cbn.
    rewrite (Hidle 0%nat x eq_refl). apply IH. intros w. apply (Hidle (S w)). }
  assert (queue r = []) as Hq.
  { destruct (queue r) as [|j q] eqn:Hq; [done|]. exfalso. destruct (pool r) as [|x ws] eqn:Hp; [cbn in Hlen; lia|].
    specialize (Hst (WorkerReceives 0)). unfold step in Hst. rewrite Hc, Hp, Hq in Hst. cbn in Hst.
    rewrite (Hidle 0%nat x eq_refl) in Hst. by eapply Hst. }
  assert (senders r = []) as Hs.
  { destruct (senders r) as [|j js] eqn:Hs; [done|]. exfalso.
    assert (has_room r = true) as Hroom by (unfold has_room; rewrite Hq; apply Z.ltb_lt; cbn; lia).
    specialize (Hst (SenderProceeds 0)). unfold step in Hst. rewrite Hc, Hs, Hroom in Hst. cbn in Hst. by eapply Hst. }
  unfold live. by rewrite Hq, Hs, Hh, Ht.
Qed.

Lemma run_reachable r es r' : run r es = Some r' -> reachable r r'.
Proof.
  revert r. induction es as [|e es IH]; intros r H; cbn in H; simplify_eq; [apply rtc_refl|].
  destruct (step r e) as [r1|] eqn:Hst; [|done]. eapply rtc_l; [by exists e|by apply IH].
Qed.

Lemma step_sizes r e r' : step r e = Some r' -> workers r' = workers r /\ queueSize r' = queueSize r.
Proof.
  intros Hst. unfold step in Hst. destruct (crashed r); [done|]. destruct e.
  - by simplify_eq.
  - simplify_eq. unfold Start. by destruct (running r).
  - simplify_eq. unfold Stop. destruct (running r); [destruct (stopCh_closed r)|]; done.
  - destruct (Enqueue r j now) as [[r1 ok]|] eqn:He; [|done]. destruct (Enqueue_keeps _ _ _ _ _ He) as ([K1 K2 _ _ _] & _).
    by destruct ok; simplify_eq.
  - unfold MustEnqueue in Hst. destruct (job_at r !! j); [|done]. by simplify_eq.
  - destruct (senders r !! i); [|done]. destruct (has_room r); [|done]. by simplify_eq.
  - destruct (pool r !! w) as [[]|]; try done. destruct (queue r); [done|]. by simplify_eq.
  - destruct (pool r !! w) as [[]|]; try done. destruct (stopCh_closed r); [|done]. by simplify_eq.
  - destruct (pool r !! w) as [[]|]; try done. destruct (job_at r !! j); [|done]. simplify_eq.
    unfold process_start. by case_decide.
  - destruct (pool r !! w) as [[]|]; try done. destruct (job_at r !! j); [|done]. simplify_eq.
    unfold process_end. destruct err; [cbv zeta; destruct (_ <? _); [destruct (calculateRetryDelay _)|]|]; done.
  - destruct (pool r !! w) as [[]|]; try done. by simplify_eq.
  - destruct (timers r !! i) as [[due j]|]; [|done]. destruct (due <=? now); [|done].
    destruct (Enqueue _ j now) as [[r1 ok]|] eqn:He; [|done]. destruct (Enqueue_keeps _ _ _ _ _ He) as ([K1 K2 _ _ _] & _).
    by destruct ok; simplify_eq.
Qed.

Lemma reachable_sizes w q jobs r :
  reachable (New w q jobs) r ->
  workers r = (if w <=? 0 then 4 else w) /\ queueSize r = (if q <=? 0 then 100 else q).
Proof.
  apply (reachable_ind_step (fun r => workers r = _ /\ queueSize r = _)); [done|].
  intros r1 e r2 [Hw Hq] Hst. destruct (step_sizes _ _ _ Hst). by split; congruence.
Qed.

Lemma length_running_of ws : (length (running_of ws) <= length ws)%nat.
Proof. unfold running_of. induction ws as [|[] ws IH]; cbn; lia. Qed.

(** ** Sample runs *)

Definition sample_job (type_ : string) : Job := mkJob "" type_ "" 0 0 0 0 0 zero_time None.

Definition two_jobs : gmap nat Job := {[0%nat := sample_job "mail"; 1%nat := sample_job "mail"]}.

(** One worker and one place in the queue: the first job fails, and its retry
    finds the second one in the queue while the worker is held by nothing. *)
Definition dropped_run : list event :=
  [CallRegister "mail"; CallStart; CallEnqueue 0 1; WorkerReceives 0; WorkerLooksUp 0;
   HandlerReturns 0 (Some "timeout") 5; CallEnqueue 1 6; TimerFires 0 1000000005].

(** Started again after a stop, the worker sees the closed channel first. *)
Definition restarted_run : list event :=
  [CallRegister "mail"; CallStart; CallStop; WorkerStops 0; CallStart; CallEnqueue 0 1; WorkerStops 1].

(** ** Theorems *)

(** No job is lost track of or done twice: under every interleaving of callers,
    workers and timers, the jobs that were accepted are, counted with
    multiplicity, those in the queue, those of blocked callers, those in the hands
    of a worker, those that wait for a retry, and those that came to an end
    (handled, given up, or dropped at a retry). *)
Theorem runner_conserves w q jobs r :
  reachable (New w q jobs) r ->
  accepted (log r) ≡ₚ queue r ++ senders r ++ held_by (pool r) ++ (timers r).*2 ++ ended (log r).
Proof.
  intros Hr. apply perm_cnt. intros j. rewrite (reachable_balanced _ _ _ _ Hr j), cnt_live, !cnt_app. lia.
Qed.

Lemma runner_conserves_witness :
  exists r, run (New 1 1 two_jobs) dropped_run = Some r /\
    accepted (log r) ≡ₚ queue r ++ senders r ++ held_by (pool r) ++ (timers r).*2 ++ ended (log r).
Proof.
  destruct (run (New 1 1 two_jobs) dropped_run) as [r|] eqn:Hr; [|exfalso; vm_compute in Hr; discriminate].
  exists r. split; [done|]. apply (runner_conserves 1 1 two_jobs). by eapply run_reachable.
Defined.

(** A job handed in once runs at most [MaxRetries] times (three times when that is
    zero, once when it is negative), its attempts are numbered from one, it is
    given up after an error of its handler only when it has used all of them, and
    it never succeeds without having run. *)
Theorem attempts_bounded w q jobs r j job :
  reachable (New w q jobs) r -> jobs !! j = Some job -> Attempts job = 0 ->
  (count_occ Nat.eq_dec (accepted (log r)) j <= 1)%nat ->
  let most := Z.max 1 (if MaxRetries job =? 0 then 3 else MaxRetries job) in
  exists n, 0 <= n <= most /\ starts j (log r) = seqZ 1 n /\
    (forall msg, Failed j (HandlerError msg) ∈ log r -> n = most) /\
    (Succeeded j ∈ log r -> 1 <= n).
Proof.
  intros Hr Hj Ha Hone most. destruct (reachable_attempts w q jobs r j job Hj Ha Hr Hone) as [job' [A1 A2 A3 A4 A5 A6 A7 A8 A9]].
  change most with (Z.max 1 (limit job)). rewrite <- A2. exists (Attempts job'). split; [done|]. split; [done|]. split.
  - intros msg Hin. apply A8, cnt_elem, list_elem_of_omap. by exists (Failed j (HandlerError msg)).
  - intros Hin. apply A9, cnt_elem, list_elem_of_omap. by exists (Succeeded j).
Qed.

Lemma attempts_bounded_witness :
  exists r, run (New 1 1 two_jobs) dropped_run = Some r /\
    exists n, 0 <= n <= 3 /\ starts 0 (log r) = seqZ 1 n.
Proof.
  destruct (run (New 1 1 two_jobs) dropped_run) as [r|] eqn:Hr; [|exfalso; vm_compute in Hr; discriminate].
  exists r. split; [done|].
  destruct (attempts_bounded 1 1 two_jobs r 0 (sample_job "mail")) as (n & Hn & Hs & _);
    [by eapply run_reachable|reflexivity|reflexivity| |by exists n].
  assert (forall r, run (New 1 1 two_jobs) dropped_run = Some r -> (count_occ Nat.eq_dec (accepted (log r)) 0 <= 1)%nat) as H.
  { intros r' Hr'. vm_compute in Hr'. simplify_eq. cbn. lia. }
  by apply H.
Defined.

(** C14. A running runner does its work: left to itself it makes finitely many steps
    (workers, handlers that return, timers), in whatever order, and when it has
    none left, no handler having panicked, every job that was accepted has come to
    an end. *)
Theorem runner_settles w q jobs r :
  reachable (New w q jobs) r -> running r = true -> stopCh_closed r = false ->
  Acc (fun r' r => internal_step r r') r /\
  forall r', rtc internal_step r r' -> crashed r' = false ->
    (forall e r'', internal e = true -> step r' e <> Some r'') ->
    accepted (log r') ≡ₚ ended (log r') /\ queue r' = [] /\ senders r' = [] /\ timers r' = [].
Proof.
  intros Hr Hrun Hstop. split; [apply internal_Acc|]. intros r' Hi Hc Hstuck.
  assert (reachable (New w q jobs) r' /\ running r' = true /\ stopCh_closed r' = false) as (Hr' & Hrun' & Hstop').
  { clear Hc Hstuck. induction Hi as [|r1 r2 r3 (e & He & Hst) Hi IH]; [done|].
    destruct (internal_keeps_running _ _ _ He Hst). apply IH; [|congruence|congruence].
    eapply rtc_r; [exact Hr|]. by exists e. }
  pose proof (stuck_empty r' (reachable_staffed _ _ _ _ Hr') (reachable_balanced _ _ _ _ Hr') Hrun' Hstop' Hc Hstuck) as Hl.
  split.
  - apply perm_cnt. intros j. by rewrite (reachable_balanced _ _ _ _ Hr' j), Hl.
  - unfold live in Hl. by repeat (apply app_eq_nil in Hl as [? Hl]); destruct (timers r').
Qed.

Lemma runner_settles_witness :
  exists r, run (New 2 1 two_jobs) [CallRegister "mail"; CallStart; CallEnqueue 0 1] = Some r /\
    Acc (fun r' r => internal_step r r') r.
Proof.
  destruct (run (New 2 1 two_jobs) [CallRegister "mail"; CallStart; CallEnqueue 0 1]) as [r|] eqn:Hr;
    [|exfalso; vm_compute in Hr; discriminate].
  exists r. split; [done|]. assert (reachable (New 2 1 two_jobs) r) as Hreach by (by eapply run_reachable).
  vm_compute in Hr. apply (runner_settles 2 1 two_jobs r); [done| |]; by simplify_eq.
Defined.

(** Until it is stopped, the queue never holds more than its size and never more
    handlers run at once than there are workers. *)
Theorem runner_bounds w q jobs r :
  reachable (New w q jobs) r ->
  Z.of_nat (length (queue r)) <= (if q <=? 0 then 100 else q) /\
  (stopCh_closed r = false -> Z.of_nat (length (running_of (pool r))) <= if w <=? 0 then 4 else w).
Proof.
  intros Hr. destruct (reachable_staffed _ _ _ _ Hr) as [S1 S2 S3 _ S5].
  destruct (reachable_sizes _ _ _ _ Hr) as [Hw Hq]. split; [by rewrite <- Hq|]. intros Hs.
  destruct (S5 Hs) as [_ Hl]. pose proof (length_running_of (pool r)). rewrite <- Hw. destruct (running r); lia.
Qed.

Lemma runner_bounds_witness :
  exists r, run (New 1 1 two_jobs) dropped_run = Some r /\ Z.of_nat (length (queue r)) <= 1.
Proof.
  destruct (run (New 1 1 two_jobs) dropped_run) as [r|] eqn:Hr; [|exfalso; vm_compute in Hr; discriminate].
  exists r. split; [done|]. apply (runner_bounds 1 1 two_jobs). by eapply run_reachable.
Defined.

(** The delay before the next attempt doubles with each attempt, exactly while it
    fits an [int64]; a count of attempts below one, which only the caller can
    cause, panics. *)
Theorem retry_delay_doubles job :
  (1 <= Attempts job <= 63 -> in_int64 (RetryDelay job * 2 ^ (Attempts job - 1)) = true ->
   calculateRetryDelay job = Some (RetryDelay job * 2 ^ (Attempts job - 1))) /\
  (65 <= Attempts job -> calculateRetryDelay job = Some 0) /\
  (Attempts job < 1 -> calculateRetryDelay job = None).
Proof.
  unfold calculateRetryDelay, one_shl. split; [|split].
  - intros Ha Hr. destruct (Attempts job - 1 <? 0) eqn:H1; [lia|]. destruct (64 <=? Attempts job - 1) eqn:H2; [lia|].
    rewrite Z.shiftl_1_l. rewrite (wrap64_id (2 ^ (Attempts job - 1))).
    + unfold int_mul. by rewrite wrap64_id.
    + pose proof (Z.pow_lt_mono_r 2 (Attempts job - 1) 63). unfold in_int64, min_int64, max_int64.
      assert (0 < 2 ^ (Attempts job - 1)) by (apply Z.pow_pos_nonneg; lia). lia.
  - intros Ha. destruct (Attempts job - 1 <? 0) eqn:H1; [lia|]. destruct (64 <=? Attempts job - 1) eqn:H2; [|lia].
    unfold int_mul. by rewrite Z.mul_0_r.
  - intros Ha. destruct (Attempts job - 1 <? 0) eqn:H1; [done|lia].
Qed.

(** A retry that comes when the queue is full is given up without a word: the job
    had two attempts left, no hook is told, and nobody gets an error. *)
Theorem retry_dropped_silently :
  exists r, run (New 1 1 two_jobs) dropped_run = Some r /\
    log r = [Accepted 0; Started 0 1; Retried 0 (HandlerError "timeout") 1 Second; Accepted 1; Dropped 0] /\
    (exists job, job_at r !! 0%nat = Some job /\ MaxRetries job = 3 /\ Attempts job = 1) /\
    (0%nat ∉ queue r) /\ timers r = [].
Proof.
  eexists. split; [vm_compute; reflexivity|]. split; [vm_compute; reflexivity|].
  split; [eexists; vm_compute; done|]. split; [|reflexivity]. cbn. rewrite list_elem_of_singleton. lia.
Qed.

(** A runner that was stopped cannot be used again.  [Start] starts workers on the
    channel [Stop] closed: each may return before it takes a job, so that a runner
    that says it runs holds an accepted job for ever; and the next [Stop] closes
    the channel a second time, which panics. *)
Theorem restart_broken :
  (forall w q jobs r, reachable (New w q jobs) r -> running r = true -> stopCh_closed r = true -> crashed r = false ->
     exists r', step r CallStop = Some r' /\ crashed r' = true) /\
  exists r, run (New 1 1 two_jobs) restarted_run = Some r /\
    running r = true /\ crashed r = false /\ queue r = [0%nat] /\ accepted (log r) = [0%nat] /\
    forall e r', internal e = true -> step r e <> Some r'.
Proof.
  split.
  - intros w q jobs r _ Hr Hs Hc. eexists. unfold step. rewrite Hc. split; [reflexivity|]. unfold Stop. by rewrite Hr, Hs.
  - eexists. split; [vm_compute; reflexivity|]. repeat split.
    intros e r' He Hst. destruct e as [| | | | |i|w|w|w|w err now|w|i now]; try done;
      try (destruct i; done); destruct w as [|[|w]]; done.
Qed.
