(* ===== verification/Pool.v ===== *)
(** * The worker pool ([pantry/jobs/pool.go])

    Tasks under a semaphore, with a wait group, a counter and futures.  Each task
    is followed through the atomic operations of [Go] or [TryGo] and of the
    deferred function that ends it; the tasks are interleaved freely. *)

From S2P Require Import Prelude.

(** ** State *)

(** Where the goroutine of a task is: [Blocked] before [p.sem <- struct{}{}],
    [Acquired], [Added] (after [p.wg.Add(1)]), [Body] (after [p.running.Add(1)]:
    the task runs), [Returned] (the deferred function starts), [Released] (after
    [<-p.sem]), [WgDone] (after [p.wg.Done()]) and [Finished]. *)
Inductive stage := Blocked | Acquired | Added | Body | Returned | Released | WgDone | Finished.

#[global] Instance stage_eq_dec : EqDecision stage.
Proof. solve_decision. Defined.

(** A task, whether it panicked, and the future it resolves. *)
Record task := mkTask { t_stage : stage; t_panicked : bool; t_future : option nat }.

(** A future: the result, once [done] is closed. *)
Record Future := mkFuture { f_value : string; f_err : option string; f_done : bool }.

Record Pool := mkPool {
  capacity : Z;
  sem : Z;
  wg : Z;
  running : Z;
  tasks : list task;
  futures : list Future
}.

Definition NewPool (workers : Z) : Pool := mkPool (if workers <=? 0 then 4 else workers) 0 0 0 [] [].

Definition set_stage (p : Pool) (i : nat) (t : task) (s : stage) : Pool :=
  mkPool (capacity p) (sem p) (wg p) (running p)
    (<[i := mkTask s (t_panicked t) (t_future t)]> (tasks p)) (futures p).

(** ** Operations *)

(** The call of [Go], before it acquires. *)
Definition Go (p : Pool) (fut : option nat) : Pool :=
  mkPool (capacity p) (sem p) (wg p) (running p) (tasks p ++ [mkTask Blocked false fut]) (futures p).

Definition TryGo (p : Pool) : Pool * bool :=
  if sem p <? capacity p
  then (mkPool (capacity p) (sem p + 1) (wg p) (running p) (tasks p ++ [mkTask Acquired false None]) (futures p), true)
  else (p, false).

(** [Submit] makes the future and hands the task to [Go]. *)
Definition Submit (p : Pool) : Pool :=
  let f := length (futures p) in
  Go (mkPool (capacity p) (sem p) (wg p) (running p) (tasks p) (futures p ++ [mkFuture "" None false])) (Some f).

(** The next operation of a goroutine, outside of the task. *)
Definition advance (p : Pool) (i : nat) : option Pool :=
  match tasks p !! i with
  | None => None
  | Some t =>
      let p' := set_stage p i t in
      match t_stage t with
      | Blocked =>
          if sem p <? capacity p
          then Some (mkPool (capacity p) (sem p + 1) (wg p) (running p) (tasks (p' Acquired)) (futures p))
          else None
      | Acquired => Some (mkPool (capacity p) (sem p) (wg p + 1) (running p) (tasks (p' Added)) (futures p))
      | Added => Some (mkPool (capacity p) (sem p) (wg p) (running p + 1) (tasks (p' Body)) (futures p))
      | Body => None
      | Returned => Some (mkPool (capacity p) (sem p - 1) (wg p) (running p) (tasks (p' Released)) (futures p))
      | Released => Some (mkPool (capacity p) (sem p) (wg p - 1) (running p) (tasks (p' WgDone)) (futures p))
      | WgDone => Some (mkPool (capacity p) (sem p) (wg p) (running p - 1) (tasks (p' Finished)) (futures p))
      | Finished => None
      end
  end.

(** The end of a task: it returns a result, or panics. *)
Inductive ending := Returns (value : string) (err : option string) | Panics.

Definition finish (p : Pool) (i : nat) (e : ending) : option Pool :=
  match tasks p !! i with
  | Some (mkTask Body _ fut) =>
      let panicked := match e with Panics => true | Returns _ _ => false end in
      let futures :=
        match e, fut with
        | Returns v err, Some f => <[f := mkFuture v err true]> (futures p)
        | _, _ => futures p
        end in
      Some (mkPool (capacity p) (sem p) (wg p) (running p) (<[i := mkTask Returned panicked fut]> (tasks p)) futures)
  | _ => None
  end.

(** [Wait] returns when the count of the wait group is zero. *)
Definition Wait_returns (p : Pool) : bool := wg p =? 0.
Definition Running (p : Pool) : Z := running p.

Definition Ready (p : Pool) (f : nat) : bool := from_option f_done false (futures p !! f).

(** [Future.Wait]: nothing until the channel is closed. *)
Definition Future_Wait (p : Pool) (f : nat) : option (string * option string) :=
  match futures p !! f with
  | Some x => if f_done x then Some (f_value x, f_err x) else None
  | None => None
  end.

(** ** The system *)

Inductive event := CallGo | CallTryGo | CallSubmit | Advance (i : nat) | TaskEnds (i : nat) (e : ending).

Definition step (p : Pool) (e : event) : option Pool :=
  match e with
  | CallGo => Some (Go p None)
  | CallTryGo => Some (TryGo p).1
  | CallSubmit => Some (Submit p)
  | Advance i => advance p i
  | TaskEnds i e => finish p i e
  end.

Definition some_step (p p' : Pool) : Prop := exists e, step p e = Some p'.
Definition reachable (p p' : Pool) : Prop := rtc some_step p p'.

(** What happens without a further call. *)
Definition internal_step (p p' : Pool) : Prop :=
  exists e, match e with Advance _ | TaskEnds _ _ => True | _ => False end /\ step p e = Some p'.

Fixpoint run (p : Pool) (es : list event) : option Pool :=
  match es with
  | [] => Some p
  | e :: es => match step p e with Some p => run p es | None => None end
  end.

(** ** Counts *)

Definition holds_sem (s : stage) : nat := match s with Acquired | Added | Body | Returned => 1 | _ => 0 end.
Definition holds_wg (s : stage) : nat := match s with Added | Body | Returned | Released => 1 | _ => 0 end.
Definition counted (s : stage) : nat := match s with Body | Returned | Released | WgDone => 1 | _ => 0 end.
Definition executing (s : stage) : nat := match s with Body => 1 | _ => 0 end.

(** The operations a goroutine has left. *)
Definition left_of (s : stage) : nat :=
  match s with
  | Blocked => 7 | Acquired => 6 | Added => 5 | Body => 4 | Returned => 3 | Released => 2 | WgDone => 1 | Finished => 0
  end.

Definition total (f : stage -> nat) (p : Pool) : nat := sum_list_with (fun t => f (t_stage t)) (tasks p).

Record counts_ok (p : Pool) : Prop := {
  co_sem : sem p = Z.of_nat (total holds_sem p);
  co_wg : wg p = Z.of_nat (total holds_wg p);
  co_running : running p = Z.of_nat (total counted p);
  co_capacity : sem p <= capacity p;
  co_positive : 1 <= capacity p
}.

Lemma total_insert (f : stage -> nat) (ts : list task) i t s b fut :
  ts !! i = Some t ->
  (sum_list_with (fun t => f (t_stage t)) (<[i := mkTask s b fut]> ts) + f (t_stage t) =
   sum_list_with (fun t => f (t_stage t)) ts + f s)%nat.
Proof. intros Hi. apply (sum_insert (fun t => f (t_stage t)) ts i t (mkTask s b fut) Hi). Qed.

Lemma total_app (f : stage -> nat) (ts : list task) s b fut :
  sum_list_with (fun t => f (t_stage t)) (ts ++ [mkTask s b fut]) =
  (sum_list_with (fun t => f (t_stage t)) ts + f s)%nat.
Proof. rewrite sum_list_with_app. cbn. lia. Qed.

Lemma counts_step p e p' : counts_ok p -> step p e = Some p' -> counts_ok p'.
Proof.
  intros [H1 H2 H3 H4 H5] Hst. unfold total in *. destruct e; cbn in Hst.
  - simplify_eq. split; unfold total; cbn; rewrite ?total_app; cbn; lia.
  - simplify_eq. unfold TryGo. destruct (sem p <? capacity p) eqn:Hs; [|by split].
    split; unfold total; cbn; rewrite ?total_app; cbn; lia.
  - simplify_eq. split; unfold total; cbn; rewrite ?total_app; cbn; lia.
  - unfold advance in Hst. destruct (tasks p !! i) as [[s b fut]|] eqn:Hi; [|done]. cbn in Hst.
    pose proof (fun f s' => total_insert f _ _ _ s' b fut Hi) as Ht. cbn in Ht.
    destruct s; try done; [destruct (sem p <? capacity p) eqn:Hs; [|done]|..]; simplify_eq; split; unfold total; cbn;
      try (match goal with |- context [sum_list_with (fun t => ?f (t_stage t)) (<[i := mkTask ?s' b fut]> _)] =>
        specialize (Ht f s'); cbn in Ht end); lia.
  - unfold finish in Hst. destruct (tasks p !! i) as [[[] b fut]|] eqn:Hi; try done. simplify_eq.
    set (b' := match e with Panics => true | _ => false end).
    pose proof (fun f => total_insert f _ _ _ Returned b' fut Hi) as Ht. cbn in Ht.
    split; unfold total; cbn;
      try (match goal with |- context [sum_list_with (fun t => ?f (t_stage t)) (<[i := _]> _)] =>
        specialize (Ht f); cbn in Ht end); lia.
Qed.

Lemma counts_New w : counts_ok (NewPool w).
Proof. split; cbn; try done; destruct (w <=? 0) eqn:?; lia. Qed.

Lemma reachable_step (P : Pool -> Prop) p0 p :
  P p0 -> (forall p e p', P p -> step p e = Some p' -> P p') -> reachable p0 p -> P p.
Proof. intros H0 Hstep. induction 1 as [|? ? ? [e Hst] _ IH]; [done|]. eauto. Qed.

Lemma reachable_counts w p : reachable (NewPool w) p -> counts_ok p.
Proof. apply (reachable_step counts_ok); [apply counts_New|]. intros p1 e p2. apply counts_step. Qed.

Lemma executing_le p : (total executing p <= total holds_sem p)%nat.
Proof. apply sum_le. intros t. by destruct (t_stage t); cbn; lia. Qed.

(** ** Futures *)

Definition past_body (s : stage) : bool :=
  match s with Returned | Released | WgDone | Finished => true | _ => false end.

(** Each future belongs to one task, and is open until that task has returned. *)
Record futures_ok (p : Pool) : Prop := {
  fo_own i t f : tasks p !! i = Some t -> t_future t = Some f -> (f < length (futures p))%nat;
  fo_one i j t u f : tasks p !! i = Some t -> tasks p !! j = Some u -> t_future t = Some f -> t_future u = Some f -> i = j;
  fo_open i t f x : tasks p !! i = Some t -> t_future t = Some f -> futures p !! f = Some x ->
    past_body (t_stage t) = false -> f_done x = false
}.

Lemma lookup_snoc_Some {A : Type} (l : list A) x i y :
  (l ++ [x]) !! i = Some y -> l !! i = Some y \/ (i = length l /\ y = x).
Proof. rewrite lookup_snoc_Some. naive_solver. Qed.

Lemma futures_new_task p s fut :
  futures_ok p -> (forall f, fut = Some f -> exists x, futures p !! f = Some x /\ f_done x = false) ->
  (forall f, fut = Some f -> forall i t, tasks p !! i = Some t -> t_future t <> Some f) ->
  forall c a b r, futures_ok (mkPool c a b r (tasks p ++ [mkTask s false fut]) (futures p)).
Proof.
  intros [F1 F2 F3] Hf Hnew c a b r. split; cbn.
  - intros i t f Hi Ht. apply lookup_snoc_Some in Hi as [Hi|[-> ->]]; [by eapply F1|]. cbn in Ht.
    destruct (Hf f Ht) as (x & Hx & _). by apply lookup_lt_Some in Hx.
  - intros i j t u f Hi Hj Ht Hu. apply lookup_snoc_Some in Hi as [Hi|[-> ->]], Hj as [Hj|[-> ->]]; cbn in *.
    + by eapply F2.
    + by destruct (Hnew f Hu i t Hi).
    + by destruct (Hnew f Ht j u Hj).
    + done.
  - intros i t f x Hi Ht Hx Hs. apply lookup_snoc_Some in Hi as [Hi|[-> ->]]; [by eapply F3|]. cbn in Ht.
    destruct (Hf f Ht) as (y & Hy & Hd). congruence.
Qed.

(** Moving a task on leaves the futures as they are, but for its own. *)
Lemma futures_move p i t s b fs :
  futures_ok p -> tasks p !! i = Some t -> length fs = length (futures p) ->
  (forall f, t_future t <> Some f -> fs !! f = futures p !! f) ->
  (past_body s = false -> past_body (t_stage t) = false /\ fs = futures p) ->
  forall c x y z, futures_ok (mkPool c x y z (<[i := mkTask s b (t_future t)]> (tasks p)) fs).
Proof.
  intros [F1 F2 F3] Hi Hl Hfs Hs c x y z.
  assert (forall j u, <[i := mkTask s b (t_future t)]> (tasks p) !! j = Some u ->
    (j = i /\ u = mkTask s b (t_future t)) \/ (j <> i /\ tasks p !! j = Some u)) as Hlk.
  { intros j u Hj. apply list_lookup_insert_Some in Hj. naive_solver. }
  split; cbn.
  - intros j u f Hj Hu. rewrite Hl. apply Hlk in Hj as [[-> ->]|[_ Hj]]; by eapply F1.
  - intros j k u v f Hj Hk Hu Hv.
    apply Hlk in Hj as [[-> ->]|[_ Hj]], Hk as [[-> ->]|[_ Hk]]; [done|by eapply F2..].
  - intros j u f g Hj Hu Hg Hb. apply Hlk in Hj as [[-> ->]|[Hne Hj]]; cbn in *.
    + destruct (Hs Hb) as [Hb' ->]. by eapply F3.
    + rewrite Hfs in Hg; [by eapply F3|]. intros Ht. by apply Hne, (F2 j i u t f).
Qed.

Lemma futures_step p e p' : futures_ok p -> step p e = Some p' -> futures_ok p'.
Proof.
  intros Hf Hst. destruct e; cbn in Hst.
  - simplify_eq. by apply futures_new_task.
  - simplify_eq. unfold TryGo. destruct (sem p <? capacity p); [by apply futures_new_task|done].
  - simplify_eq. unfold Submit, Go. cbn [tasks futures capacity sem wg running].
    set (p1 := mkPool (capacity p) (sem p) (wg p) (running p) (tasks p) (futures p ++ [mkFuture "" None false])).
    assert (futures_ok p1) as Hf1.
    { destruct Hf as [F1 F2 F3]. split; cbn; [|exact F2|].
      - intros i t f Hi Ht. rewrite length_app. pose proof (F1 _ _ _ Hi Ht). lia.
      - intros i t f x Hi Ht Hx. pose proof (F1 _ _ _ Hi Ht). rewrite lookup_app_l in Hx by done. by eapply F3. }
    apply (futures_new_task p1); [done| |].
    + intros f [= <-]. eexists. cbn. by rewrite lookup_app_r, Nat.sub_diag by done.
    + intros f [= <-] i t Hi Ht. pose proof (fo_own _ Hf _ _ _ Hi Ht). lia.
  - unfold advance in Hst. destruct (tasks p !! i) as [t|] eqn:Hi; [|done].
    destruct (t_stage t) eqn:Ht; try done; [destruct (sem p <? capacity p); [|done]|..]; simplify_eq;
      (apply futures_move; [done|done|done|done|]); rewrite Ht; done.
  - unfold finish in Hst. destruct (tasks p !! i) as [[[] b fut]|] eqn:Hi; try done. simplify_eq.
    apply (futures_move p i (mkTask Body b fut)); [done|done| | |done].
    + destruct e, fut; try done. apply length_insert.
    + intros f Hne. destruct e, fut; try done. cbn in Hne. rewrite list_lookup_insert_ne; [done|congruence].
Qed.

Lemma reachable_futures w p : reachable (NewPool w) p -> futures_ok p.
Proof. apply (reachable_step futures_ok); [by split|]. intros p1 e p2. apply futures_step. Qed.

(** A task past its body writes no future any more, and no other task writes its. *)
Definition settled (i f : nat) (x : Future) (p : Pool) : Prop :=
  futures_ok p /\ futures p !! f = Some x /\
  exists t, tasks p !! i = Some t /\ t_future t = Some f /\ past_body (t_stage t) = true.

Lemma settled_step i f x p e p' : settled i f x p -> step p e = Some p' -> settled i f x p'.
Proof.
  intros (Hf & Hx & t & Hi & Ht & Hb) Hst. split; [by eapply futures_step|]. destruct e; cbn in Hst.
  - simplify_eq. split; [done|]. exists t. split; [|done]. cbn. by apply lookup_app_l_Some.
  - simplify_eq. unfold TryGo. destruct (sem p <? capacity p); [|eauto].
    split; [done|]. exists t. split; [|done]. cbn. by apply lookup_app_l_Some.
  - simplify_eq. split; [cbn; by apply lookup_app_l_Some|]. exists t. split; [|done]. cbn. by apply lookup_app_l_Some.
  - unfold advance in Hst. destruct (tasks p !! i0) as [u|] eqn:Hu; [|done].
    destruct (decide (i0 = i)) as [->|Hne].
    + simplify_eq. destruct (t_stage t) eqn:Hs; try done; simplify_eq; (split; [done|]); cbn;
        rewrite list_lookup_insert_eq by (by eapply lookup_lt_Some); eauto.
    + destruct (t_stage u); try done; [destruct (sem p <? capacity p); [|done]|..]; simplify_eq; (split; [done|]);
        exists t; (split; [|done]); cbn; by rewrite list_lookup_insert_ne.
  - unfold finish in Hst. destruct (tasks p !! i0) as [[[] b fut]|] eqn:Hu; try done. simplify_eq. cbn.
    assert (i0 <> i) as Hne by (intros ->; by simplify_eq). split.
    + destruct e, fut as [g|]; try done. rewrite list_lookup_insert_ne; [done|]. intros ->.
      by apply Hne, (fo_one p Hf i0 i _ _ f Hu Hi).
    + exists t. by rewrite list_lookup_insert_ne.
Qed.

(** ** Progress *)

Lemma left_step p p' : internal_step p p' -> (total left_of p' < total left_of p)%nat.
Proof.
  intros (e & He & Hst). unfold total. destruct e; try done; cbn in Hst.
  - unfold advance in Hst. destruct (tasks p !! i) as [[s b fut]|] eqn:Hi; [|done]. cbn in Hst.
    pose proof (fun s' => total_insert left_of _ _ _ s' b fut Hi) as Ht.
    destruct s; try done; [destruct (sem p <? capacity p); [|done]|..]; simplify_eq; cbn;
      match goal with |- context [<[i := mkTask ?s' b fut]> _] => specialize (Ht s'); cbn in Ht end; lia.
  - unfold finish in Hst. destruct (tasks p !! i) as [[[] b fut]|] eqn:Hi; try done. simplify_eq. cbn.
    match goal with |- context [<[i := mkTask ?s' ?b' fut]> _] =>
      pose proof (total_insert left_of _ _ _ s' b' fut Hi) as Ht end. cbn in Ht. lia.
Qed.

Lemma pool_Acc p : Acc (fun p' p => internal_step p p') p.
Proof.
  remember (total left_of p) as n eqn:Hn. revert p Hn. induction (Nat.lt_wf_0 n) as [n _ IH]. intros p ->.
  constructor. intros p' Hst. eapply IH; [by eapply left_step|done].
Qed.

Lemma total_zero (f : stage -> nat) p :
  (forall i t, tasks p !! i = Some t -> f (t_stage t) = 0%nat) -> total f p = 0%nat.
Proof.
  unfold total. induction (tasks p) as [|t ts IH]; intros H; [done|]. cbn. rewrite (H 0%nat t eq_refl).
  apply IH. intros i. apply (H (S i)).
Qed.

Lemma total_zero_inv (f : stage -> nat) p :
  total f p = 0%nat -> forall t, t ∈ tasks p -> f (t_stage t) = 0%nat.
Proof.
  unfold total. induction (tasks p) as [|u ts IH]; intros Hz t Ht; [by apply elem_of_nil in Ht|].
  cbn in Hz. apply elem_of_cons in Ht as [->|Ht]; [lia|]. apply IH; [lia|done].
Qed.

Lemma count_executing p : length (filter (fun t => t_stage t = Body) (tasks p)) = total executing p.
Proof.
  unfold total. induction (tasks p) as [|t ts IH]; [done|]. rewrite filter_cons. cbn [sum_list_with].
  rewrite <- IH. case_decide as Hb; [by rewrite Hb|]. by destruct (t_stage t).
Qed.

Lemma step_capacity p e p' : step p e = Some p' -> capacity p' = capacity p.
Proof.
  intros Hst. destruct e; cbn in Hst.
  - by simplify_eq.
  - simplify_eq. unfold TryGo. by destruct (sem p <? capacity p).
  - by simplify_eq.
  - unfold advance in Hst. destruct (tasks p !! i) as [t|]; [|done].
    destruct (t_stage t); try done; [destruct (sem p <? capacity p); [|done]|..]; by simplify_eq.
  - unfold finish in Hst. destruct (tasks p !! i) as [[[] b fut]|]; try done. by simplify_eq.
Qed.

Lemma reachable_capacity w p : reachable (NewPool w) p -> capacity p = if w <=? 0 then 4 else w.
Proof.
  apply (reachable_step (fun p => capacity p = _)); [done|]. intros p1 e p2 Hc Hst.
  by rewrite (step_capacity _ _ _ Hst).
Qed.

Lemma stuck_finished p :
  counts_ok p -> (forall p', ~ internal_step p p') -> 1 <= capacity p ->
  Forall (fun t => t_stage t = Finished) (tasks p) /\ sem p = 0 /\ wg p = 0 /\ running p = 0.
Proof.
  intros [H1 H2 H3 H4 H5] Hstuck _.
  assert (forall i t, tasks p !! i = Some t -> t_stage t = Blocked \/ t_stage t = Finished) as Hends.
  { intros i [s b fut] Hi. cbn. destruct s; auto; exfalso;
      (eapply Hstuck; first [exists (Advance i)|idtac]; cbn; unfold advance; rewrite Hi; by split) ||
      (eapply Hstuck; exists (TaskEnds i Panics); cbn; unfold finish; rewrite Hi; by split). }
  assert (total holds_sem p = 0%nat /\ total holds_wg p = 0%nat /\ total counted p = 0%nat) as (Z1 & Z2 & Z3).
  { repeat split; apply total_zero; intros i t Hi; by destruct (Hends i t Hi) as [-> | ->]. }
  split; [|lia]. apply list.Forall_lookup. intros i [s b fut] Hi. destruct (Hends i _ Hi) as [Hs|Hs]; cbn in Hs; subst; [|done].
  exfalso. eapply Hstuck. exists (Advance i). cbn. unfold advance. rewrite Hi. cbn.
  rewrite (proj2 (Z.ltb_lt (sem p) (capacity p))) by lia. by split.
Qed.

Lemma pool_run_reachable p es p' : run p es = Some p' -> reachable p p'.
Proof.
  revert p. induction es as [|e es IH]; intros p H; cbn in H; simplify_eq; [apply rtc_refl|].
  destruct (step p e) as [p1|] eqn:Hst; [|done]. eapply rtc_l; [by exists e|by apply IH].
Qed.

(** ** Sample runs *)

(** A task up to its body, and from its end on. *)
Definition begin (i : nat) : list event := [Advance i; Advance i; Advance i].
Definition close (i : nat) : list event := [Advance i; Advance i; Advance i].

(** One worker; the second task begins when the first has released its place. *)
Definition overlap_run : list event :=
  [CallGo] ++ begin 0 ++ [TaskEnds 0 (Returns "" None); Advance 0; CallGo] ++ begin 1.

(** ** Theorems *)

(** The pool is bounded: whatever the interleaving of callers and tasks, the tasks
    that execute are never more than the workers; [TryGo] refuses exactly when
    all the places are taken; and when [Wait] returns, no task executes nor has
    anything left but to lower the counter of [Running], save those whose [Go]
    has not returned. *)
Theorem pool_bounded w p :
  reachable (NewPool w) p ->
  let most := if w <=? 0 then 4 else w in
  Z.of_nat (length (filter (fun t => t_stage t = Body) (tasks p))) <= most /\
  ((TryGo p).2 = false <-> sem p = most) /\
  (Wait_returns p = true -> forall t, t ∈ tasks p ->
     t_stage t = Blocked \/ t_stage t = Acquired \/ t_stage t = WgDone \/ t_stage t = Finished).
Proof.
  intros Hr most. destruct (reachable_counts _ _ Hr) as [H1 H2 H3 H4 H5].
  assert (capacity p = most) as Hc by (by apply (reachable_capacity w)).
  split; [|split].
  - rewrite count_executing. pose proof (executing_le p). lia.
  - unfold TryGo. destruct (sem p <? capacity p) eqn:Hs; cbn; split; try done; lia.
  - unfold Wait_returns. intros Hw t Ht. assert (total holds_wg p = 0%nat) as Hz by lia.
    pose proof (total_zero_inv holds_wg p Hz t Ht). destruct (t_stage t); cbn in *; auto; lia.
Qed.

Lemma pool_bounded_witness :
  exists p, run (NewPool 1) overlap_run = Some p /\
    Z.of_nat (length (filter (fun t => t_stage t = Body) (tasks p))) <= 1.
Proof.
  destruct (run (NewPool 1) overlap_run) as [p|] eqn:Hp; [|exfalso; vm_compute in Hp; discriminate].
  exists p. split; [done|]. apply (pool_bounded 1 p). by eapply pool_run_reachable.
Defined.

(** The pool drains: without further calls it makes finitely many steps, the ends
    of tasks included, and when none is left every task, those that waited in [Go]
    among them, has run and the counts are zero. *)
Theorem pool_drains w p :
  reachable (NewPool w) p ->
  Acc (fun p' p => internal_step p p') p /\
  forall p', rtc internal_step p p' -> (forall p'', ~ internal_step p' p'') ->
    Forall (fun t => t_stage t = Finished) (tasks p') /\ sem p' = 0 /\ wg p' = 0 /\ running p' = 0.
Proof.
  intros Hr. split; [apply pool_Acc|]. intros p' Hi Hstuck.
  assert (reachable (NewPool w) p') as Hr'.
  { clear Hstuck. induction Hi as [|p1 p2 p3 (e & _ & Hst) Hi IH]; [done|]. apply IH.
    eapply rtc_r; [exact Hr|]. by exists e. }
  destruct (reachable_counts _ _ Hr') as [H1 H2 H3 H4 H5]. apply stuck_finished; [|done|lia]. by split.
Qed.

Lemma pool_drains_witness :
  exists p, run (NewPool 1) overlap_run = Some p /\ Acc (fun p' p => internal_step p p') p.
Proof.
  destruct (run (NewPool 1) overlap_run) as [p|] eqn:Hp; [|exfalso; vm_compute in Hp; discriminate].
  exists p. split; [done|]. apply (pool_drains 1 p). by eapply pool_run_reachable.
Defined.

(** A future gives the result of its task, and keeps it: nothing before the task
    has returned, then what it returned, however many other tasks run or are
    submitted.  When the task panics nothing ever resolves the future, although
    the pool recovers from the panic and goes on: whoever waits for it waits for
    good. *)
Theorem future_lifecycle w p i b f e p' :
  reachable (NewPool w) p -> tasks p !! i = Some (mkTask Body b (Some f)) -> finish p i e = Some p' ->
  Future_Wait p f = None /\
  forall p'', reachable p' p'' ->
    Future_Wait p'' f = match e with Returns v err => Some (v, err) | Panics => None end.
Proof.
  intros Hr Hi He. pose proof (reachable_futures _ _ Hr) as Hf.
  destruct (lookup_lt_is_Some_2 (futures p) f) as [x Hx]; [by eapply (fo_own p Hf)|].
  pose proof (fo_open p Hf _ _ _ _ Hi eq_refl Hx eq_refl) as Hd.
  split; [unfold Future_Wait; by rewrite Hx, Hd|].
  set (y := match e with Returns v err => mkFuture v err true | Panics => x end).
  assert (settled i f y p') as Hs.
  { split; [by eapply (futures_step p (TaskEnds i e))|]. unfold finish in He. rewrite Hi in He. simplify_eq. cbn. split.
    - destruct e; [|done]. apply list_lookup_insert_eq. by eapply lookup_lt_Some.
    - eexists. split; [apply list_lookup_insert_eq; by eapply lookup_lt_Some|done]. }
  intros p'' Hr''. assert (settled i f y p'') as (_ & Hy & _).
  { eapply (reachable_step (settled i f y)); [exact Hs| |exact Hr'']. intros p1 ev p2. apply settled_step. }
  unfold Future_Wait. rewrite Hy. unfold y. destruct e; [done|]. by rewrite Hd.
Qed.

Lemma future_lifecycle_witness :
  exists p p', run (NewPool 1) ([CallSubmit] ++ begin 0) = Some p /\ finish p 0 Panics = Some p' /\
    forall p'', reachable p' p'' -> Future_Wait p'' 0 = None.
Proof.
  destruct (run (NewPool 1) ([CallSubmit] ++ begin 0)) as [p|] eqn:Hp; [|exfalso; vm_compute in Hp; discriminate].
  assert (reachable (NewPool 1) p) as Hr by (by eapply pool_run_reachable).
  vm_compute in Hp. simplify_eq. eexists _, _. split; [reflexivity|]. split; [reflexivity|].
  apply (future_lifecycle 1 _ 0 false 0 Panics _ Hr); reflexivity.
Defined.

(** [Running] is not the number of tasks that execute: the deferred function gives
    back the place before it lowers the counter, so that the counter exceeds the
    number of workers, and is not zero when [Wait] returns. *)
Theorem running_overcounts :
  (exists p, run (NewPool 1) overlap_run = Some p /\ Running p = 2) /\
  (exists p, run (NewPool 1) ([CallGo] ++ begin 0 ++ [TaskEnds 0 (Returns "" None); Advance 0; Advance 0]) = Some p /\
     Wait_returns p = true /\ Running p = 1).
Proof. split; eexists; vm_compute; repeat split. Qed.
