(* ===== verification/Feature.v ===== *)
(** * Feature flags: evaluation ([pantry/feature/feature.go])

    Dynamic values with Go's interface comparison, rules, rollouts by a hash of
    the user, and variants by weight.  An evaluation answers [None] when it
    panics.  The manager and its stores are in [FeatureStore]. *)

From Stdlib Require Import Floats.SpecFloat.
From S2P Require Import Prelude Float64 GoStrings.
#[local] Open Scope list_scope.

(** ** Values of type [any] *)

(** The dynamic types the code distinguishes; [VOther] is a value of another
    comparable type, [VMap] stands for one of another type that [==] does not
    compare. *)
Inductive value :=
| VNil
| VBool (b : bool)
| VString (s : string)
| VInt (z : Z)
| VInt32 (z : Z)
| VInt64 (z : Z)
| VFloat32 (f : float64)
| VFloat64 (f : float64)
| VStrings (l : list string)
| VList (l : list value)
| VOther (type_ : string) (z : Z)
| VMap (type_ : string).

(** [a == b] on interfaces: [None] is the panic of comparing an uncomparable
    type with itself. *)
Definition go_eq (a b : value) : option bool :=
  match a, b with
  | VNil, VNil => Some true
  | VBool x, VBool y => Some (Bool.eqb x y)
  | VString x, VString y => Some (String.eqb x y)
  | VInt x, VInt y | VInt32 x, VInt32 y | VInt64 x, VInt64 y => Some (x =? y)
  | VFloat32 x, VFloat32 y | VFloat64 x, VFloat64 y => Some (f64_eq x y)
  | VStrings _, VStrings _ | VList _, VList _ => None
  | VOther t x, VOther u y => Some (String.eqb t u && (x =? y))
  | VMap t, VMap u => if String.eqb t u then None else Some false
  | _, _ => Some false
  end.

Definition toFloat64 (v : value) : float64 :=
  match v with
  | VInt z | VInt32 z | VInt64 z => f64_of_int z
  | VFloat32 f | VFloat64 f => f
  | _ => f64_of_int 0
  end.

(** ** Operators *)

Definition f64_nonzero (f : float64) : bool := negb (f64_eq f (f64_of_int 0)).

Definition compareEqual (a b : value) : option bool :=
  match a, b with
  | VString x, VString y => Some (String.eqb x y)
  | _, _ =>
      let af := toFloat64 a in
      let bf := toFloat64 b in
      if f64_nonzero af || f64_nonzero bf then Some (f64_eq af bf) else go_eq a b
  end.

Fixpoint in_values (actual : value) (items : list value) : option bool :=
  match items with
  | [] => Some false
  | item :: items =>
      match compareEqual actual item with
      | None => None
      | Some true => Some true
      | Some false => in_values actual items
      end
  end.

Definition in_strings (s : string) (items : list string) : bool := existsb (fun item => String.eqb item s) items.

Definition compareIn (actual list : value) : option bool :=
  match list, actual with
  | VStrings items, VString s => Some (in_strings s items)
  | VList items, _ => in_values actual items
  | _, _ => Some false
  end.

(** [findSubstring]: [fuel] indices are left from [i] on. *)
Fixpoint find_from (fuel : nat) (i : nat) (s substr : string) : Z :=
  match fuel with
  | O => -1
  | S fuel =>
      if String.eqb (str_take (String.length substr) (str_drop i s)) substr then Z.of_nat i
      else find_from fuel (S i) s substr
  end.

Definition findSubstring (s substr : string) : Z :=
  find_from (S (String.length s) - String.length substr) 0 s substr.

Definition containsString (s substr : string) : bool :=
  (String.length substr <=? String.length s)%nat && (0 <=? findSubstring s substr).

Definition compareContains (actual substr : value) : bool :=
  match actual, substr with
  | VString s, VString b =>
      (0 <? String.length s)%nat && (0 <? String.length b)%nat && containsString s b
  | VStrings items, VString s => in_strings s items
  | _, _ => false
  end.

Definition compareNumeric (a b : value) : Z :=
  let af := toFloat64 a in
  let bf := toFloat64 b in
  if f64_lt af bf then -1 else if f64_lt bf af then 1 else 0.

Definition matchOperator (op : string) (actual expected : value) : option bool :=
  if in_strings op ["eq"; "=="; ""] then compareEqual actual expected
  else if in_strings op ["neq"; "!="] then negb <$> compareEqual actual expected
  else if String.eqb op "in" then compareIn actual expected
  else if in_strings op ["nin"; "not_in"] then negb <$> compareIn actual expected
  else if String.eqb op "contains" then Some (compareContains actual expected)
  else if in_strings op ["gt"; ">"] then Some (0 <? compareNumeric actual expected)
  else if in_strings op ["gte"; ">="] then Some (0 <=? compareNumeric actual expected)
  else if in_strings op ["lt"; "<"] then Some (compareNumeric actual expected <? 0)
  else if in_strings op ["lte"; "<="] then Some (compareNumeric actual expected <=? 0)
  else Some false.

(** ** Flags *)

Record Rule := mkRule {
  r_attribute : string;
  r_operator : string;
  r_value : value;
  r_enabled : bool;
  r_variant : string
}.

Record Variant := mkVariant { v_key : string; v_value : value; v_weight : Z }.

Record Flag := mkFlag {
  f_key : string;
  f_name : string;
  f_description : string;
  f_enabled : bool;
  f_rules : list Rule;
  f_percentage : Z;
  f_groups : list string;
  f_variants : list Variant;
  f_metadata : gmap string value;
  f_created : Time;
  f_updated : Time
}.

(** A nil map of attributes reads like an empty one. *)
Record EvalContext := mkContext {
  x_user : string;
  x_groups : list string;
  x_attributes : gmap string value
}.

Definition empty_context : EvalContext := mkContext "" [] ∅.

Definition matchRule (rule : Rule) (ctx : EvalContext) : option bool :=
  let attrValue :=
    if String.eqb (r_attribute rule) "user_id" then VString (x_user ctx)
    else if String.eqb (r_attribute rule) "groups" then VStrings (x_groups ctx)
    else default VNil (x_attributes ctx !! r_attribute rule) in
  match attrValue with
  | VNil => Some false
  | _ => matchOperator (r_operator rule) attrValue (r_value rule)
  end.

(** ** Hashing *)

(** [hash/fnv], 32-bit FNV-1a. *)
Definition fnv_step (h : Z) (c : ascii) : Z := (Z.lxor h (byte_code c) * 16777619) mod 4294967296.

Fixpoint fnv_write (h : Z) (s : string) : Z :=
  match s with
  | "" => h
  | String c s => fnv_write (fnv_step h c) s
  end.

Definition fnv_offset : Z := 2166136261.

Definition user_hash (key sep userID : string) : Z :=
  fnv_write (fnv_write (fnv_write fnv_offset key) sep) userID.

Definition inPercentage (flagKey userID : string) (percentage : Z) : bool :=
  if percentage <=? 0 then false
  else if 100 <=? percentage then true
  else user_hash flagKey ":" userID mod 100 <? percentage.

(** ** Evaluation *)

(** The answer of the first rule that matches. *)
Fixpoint first_rule (rules : list Rule) (ctx : EvalContext) : option (option bool) :=
  match rules with
  | [] => Some None
  | rule :: rules =>
      match matchRule rule ctx with
      | None => None
      | Some true => Some (Some (r_enabled rule))
      | Some false => first_rule rules ctx
      end
  end.

Definition shares_group (fgs cgs : list string) : bool :=
  existsb (fun fg => existsb (fun cg => String.eqb fg cg) cgs) fgs.

Definition evaluate (flag : Flag) (octx : option EvalContext) : option bool :=
  let ctx := default empty_context octx in
  match first_rule (f_rules flag) ctx with
  | None => None
  | Some (Some b) => Some b
  | Some None =>
      if shares_group (f_groups flag) (x_groups ctx) then Some true
      else if (0 <? f_percentage flag) && negb (String.eqb (x_user ctx) "") then
        if inPercentage (f_key flag) (x_user ctx) (f_percentage flag) then Some true
        else Some (f_enabled flag)
      else Some (f_enabled flag)
  end.

(** ** Variants *)

Definition weight_of (v : Variant) : Z := if v_weight v <=? 0 then 1 else v_weight v.

Definition totalWeight (vs : list Variant) : Z := fold_left (fun t v => int_add t (weight_of v)) vs 0.

(** The loop of [selectVariant] from a cumulative weight on. *)
Fixpoint select_from (hash cumulative : Z) (vs : list Variant) : option Variant :=
  match vs with
  | [] => None
  | v :: vs =>
      let cumulative := int_add cumulative (weight_of v) in
      if hash <? cumulative then Some v else select_from hash cumulative vs
  end.

(** [None] is a panic: the division by zero when the total weight is a multiple of
    2^32, or no variant at all. *)
Definition selectVariant (flag : Flag) (userID : string) : option (string * value) :=
  let total := totalWeight (f_variants flag) in
  if total =? 0 then Some ("", VNil)
  else
    let m := total mod 4294967296 in
    if m =? 0 then None
    else
      let hash := user_hash (f_key flag) ":variant:" userID mod m in
      match select_from hash 0 (f_variants flag) with
      | Some v => Some (v_key v, v_value v)
      | None =>
          match f_variants flag with
          | v :: _ => Some (v_key v, v_value v)
          | [] => None
          end
      end.

Definition find_variant (key : string) (vs : list Variant) : option Variant :=
  List.find (fun v => String.eqb (v_key v) key) vs.

(** The variant the rules assign: the first rule with a variant of the flag that
    matches. *)
Fixpoint rule_variant (rules : list Rule) (vs : list Variant) (ctx : EvalContext) : option (option Variant) :=
  match rules with
  | [] => Some None
  | rule :: rules =>
      if String.eqb (r_variant rule) "" then rule_variant rules vs ctx
      else
        match matchRule rule ctx with
        | None => None
        | Some false => rule_variant rules vs ctx
        | Some true =>
            match find_variant (r_variant rule) vs with
            | Some v => Some (Some v)
            | None => rule_variant rules vs ctx
            end
        end
  end.

(** [GetVariant], of a flag that exists. *)
Definition flag_variant (flag : Flag) (octx : option EvalContext) : option (string * value) :=
  match f_variants flag with
  | [] => Some ("", VNil)
  | v0 :: _ =>
      let ctx := default empty_context octx in
      match rule_variant (f_rules flag) (f_variants flag) ctx with
      | None => None
      | Some (Some v) => Some (v_key v, v_value v)
      | Some None =>
          if negb (String.eqb (x_user ctx) "") then selectVariant flag (x_user ctx)
          else Some (v_key v0, v_value v0)
      end
  end.

(** ** Lemmas *)

Lemma in_strings_elem s items : in_strings s items = true <-> s ∈ items.
Proof.
  unfold in_strings. rewrite existsb_exists. setoid_rewrite <- list_elem_of_In. setoid_rewrite String.eqb_eq.
  split; [by intros (x & Hx & ->)|eauto].
Qed.

Lemma shares_group_elem fgs cgs : shares_group fgs cgs = true <-> exists g, g ∈ fgs /\ g ∈ cgs.
Proof.
  unfold shares_group. rewrite existsb_exists. setoid_rewrite existsb_exists.
  setoid_rewrite <- list_elem_of_In. setoid_rewrite String.eqb_eq.
  split; [intros (x & Hx & y & Hy & ->); eauto|intros (g & Hx & Hy); eauto 6].
Qed.

Lemma find_from_spec fuel i s sub :
  (0 <=? find_from fuel i s sub) = true <->
  exists j, (i <= j < i + fuel)%nat /\ str_take (String.length sub) (str_drop j s) = sub.
Proof.
  revert i. induction fuel as [|fuel IH]; intros i; cbn [find_from].
  - split; [done|]. intros (j & Hj & _). lia.
  - destruct (String.eqb _ _) eqn:He.
    + apply String.eqb_eq in He. split; [|lia]. intros _. exists i. split; [lia|done].
    + rewrite IH. apply String.eqb_neq in He. split.
      * intros (j & Hj & Hs). exists j. split; [lia|done].
      * intros (j & Hj & Hs). exists j. split; [|done]. assert (i <> j) by (by intros ->). lia.
Qed.

Lemma containsString_spec s sub : containsString s sub = true <-> exists p q, s = p +:+ sub +:+ q.
Proof.
  unfold containsString, findSubstring. rewrite andb_true_iff, Nat.leb_le, find_from_spec. split.
  - intros (Hl & j & Hj & Hs). exists (str_take j s), (str_drop (String.length sub) (str_drop j s)).
    assert (String.length (str_drop j s) = String.length s - j)%nat as Hd.
    { rewrite <- (str_take_drop j s) at 2. rewrite string_length_app, str_take_length. lia. }
    pose proof (str_take_drop (String.length sub) (str_drop j s)) as E. rewrite Hs in E. by rewrite E, str_take_drop.
  - intros (p & q & ->). rewrite !string_length_app. split; [lia|]. exists (String.length p). split; [lia|].
    by rewrite str_drop_app, str_take_app.
Qed.

Lemma first_rule_spec rules ctx r :
  first_rule rules ctx = Some r <->
  match r with
  | Some b => exists pre rule post, rules = pre ++ rule :: post /\
      Forall (fun x => matchRule x ctx = Some false) pre /\ matchRule rule ctx = Some true /\ r_enabled rule = b
  | None => Forall (fun x => matchRule x ctx = Some false) rules
  end.
Proof.
  induction rules as [|rule rules IH]; cbn [first_rule].
  - destruct r; [|by split; [constructor|]]. split; [done|]. intros (pre & ? & ? & H & _). by destruct pre.
  - destruct (matchRule rule ctx) as [[]|] eqn:Hm.
    + destruct r as [b|]; split.
      * intros [= <-]. by exists [], rule, rules.
      * intros (pre & x & post & H & Hpre & Hx & <-). destruct pre as [|y pre]; simplify_eq/=; [congruence|].
        inversion Hpre; congruence.
      * done.
      * intros H. inversion H; congruence.
    + rewrite IH. destruct r as [b|]; split.
      * intros (pre & x & post & -> & Hpre & Hx & <-). exists (rule :: pre), x, post. split; [done|]. by split; [constructor|].
      * intros (pre & x & post & H & Hpre & Hx & <-). destruct pre as [|y pre]; simplify_eq/=.
        exists pre, x, post. by inversion Hpre.
      * by constructor.
      * intros H. by inversion H.
    + split; [done|]. destruct r as [b|].
      * intros (pre & x & post & H & Hpre & Hx & _). destruct pre as [|y pre]; simplify_eq/=. inversion Hpre; congruence.
      * intros H. inversion H; congruence.
Qed.

(** The user's place in the rollouts of a flag. *)
Definition bucket (key user : string) : Z := user_hash key ":" user mod 100.

Lemma bucket_range key user : 0 <= bucket key user < 100.
Proof. by apply Z.mod_pos_bound. Qed.

Lemma inPercentage_bucket key user p : inPercentage key user p = (bucket key user <? p).
Proof.
  unfold inPercentage. pose proof (bucket_range key user). unfold bucket in *.
  destruct (p <=? 0) eqn:H0; [lia|]. destruct (100 <=? p) eqn:H1; [lia|done].
Qed.

Lemma weight_pos v : 1 <= weight_of v.
Proof. unfold weight_of. destruct (v_weight v <=? 0) eqn:?; lia. Qed.

Fixpoint weights (vs : list Variant) : Z := match vs with [] => 0 | v :: vs => weight_of v + weights vs end.

Lemma weights_pos vs : 0 <= weights vs.
Proof. induction vs as [|v vs IH]; cbn; [lia|]. pose proof (weight_pos v). lia. Qed.

Lemma totalWeight_from t vs :
  0 <= t -> t + weights vs <= max_int64 -> fold_left (fun t v => int_add t (weight_of v)) vs t = t + weights vs.
Proof.
  revert t. induction vs as [|v vs IH]; intros t Ht Hb; cbn in *; [lia|].
  pose proof (weight_pos v). pose proof (weights_pos vs).
  unfold int_add at 2. rewrite wrap64_id by (unfold in_int64, min_int64, max_int64 in *; lia).
  rewrite IH by lia. lia.
Qed.

Lemma select_from_spec hash c vs :
  0 <= c <= hash -> hash < c + weights vs -> c + weights vs <= max_int64 ->
  exists pre v post, vs = pre ++ v :: post /\ select_from hash c vs = Some v /\
    c + weights pre <= hash < c + weights pre + weight_of v.
Proof.
  revert c. induction vs as [|v vs IH]; intros c Hc Hh Hm; cbn in *; [lia|].
  pose proof (weight_pos v). pose proof (weights_pos vs).
  unfold int_add. rewrite wrap64_id by (unfold in_int64, min_int64, max_int64 in *; lia).
  destruct (hash <? c + weight_of v) eqn:Hlt.
  - exists [], v, vs. split; [done|]. split; [done|]. cbn. lia.
  - destruct (IH (c + weight_of v)) as (pre & x & post & -> & Hs & Hr); [lia|lia|lia|].
    exists (v :: pre), x, post. split; [done|]. split; [done|]. cbn. lia.
Qed.

(** ** Specification *)

(** How a flag is decided: by the first rule that matches, by a group, by the
    rollout, or by its default. *)
Inductive decides (flag : Flag) (ctx : EvalContext) : bool -> Prop :=
| by_rule pre rule post :
    f_rules flag = pre ++ rule :: post -> Forall (fun r => matchRule r ctx = Some false) pre ->
    matchRule rule ctx = Some true -> decides flag ctx (r_enabled rule)
| by_group g :
    Forall (fun r => matchRule r ctx = Some false) (f_rules flag) ->
    g ∈ f_groups flag -> g ∈ x_groups ctx -> decides flag ctx true
| by_rollout :
    Forall (fun r => matchRule r ctx = Some false) (f_rules flag) ->
    x_user ctx <> "" -> bucket (f_key flag) (x_user ctx) < f_percentage flag -> decides flag ctx true
| by_default :
    Forall (fun r => matchRule r ctx = Some false) (f_rules flag) ->
    (forall g, g ∈ f_groups flag -> (g ∉ x_groups ctx)) ->
    x_user ctx = "" \/ f_percentage flag <= bucket (f_key flag) (x_user ctx) -> decides flag ctx (f_enabled flag).

Definition with_percentage (flag : Flag) (p : Z) : Flag :=
  mkFlag (f_key flag) (f_name flag) (f_description flag) (f_enabled flag) (f_rules flag) p (f_groups flag)
    (f_variants flag) (f_metadata flag) (f_created flag) (f_updated flag).

(** What is decided when no rule matches. *)
Definition unruled (flag : Flag) (ctx : EvalContext) : bool :=
  shares_group (f_groups flag) (x_groups ctx) ||
  (negb (String.eqb (x_user ctx) "") && (bucket (f_key flag) (x_user ctx) <? f_percentage flag)) ||
  f_enabled flag.

Lemma evaluate_unruled flag ctx :
  evaluate flag (Some ctx) =
  match first_rule (f_rules flag) ctx with
  | None => None
  | Some (Some b) => Some b
  | Some None => Some (unruled flag ctx)
  end.
Proof.
  unfold evaluate, unruled. cbn [default]. destruct (first_rule _ _) as [[]|]; try done.
  rewrite inPercentage_bucket. pose proof (bucket_range (f_key flag) (x_user ctx)).
  destruct (shares_group _ _); [done|]. destruct (String.eqb _ _); cbn [negb andb orb]; [by rewrite andb_false_r|].
  destruct (0 <? f_percentage flag) eqn:Hp; cbn [negb andb orb]; [by destruct (bucket _ _ <? _)|].
  destruct (bucket _ _ <? _) eqn:Hb; [lia|done].
Qed.

Lemma first_rule_none rules ctx :
  first_rule rules ctx = None <->
  exists pre rule post, rules = pre ++ rule :: post /\
    Forall (fun r => matchRule r ctx = Some false) pre /\ matchRule rule ctx = None.
Proof.
  induction rules as [|rule rules IH]; cbn [first_rule].
  - split; [done|]. intros (pre & ? & ? & H & _). by destruct pre.
  - destruct (matchRule rule ctx) as [[]|] eqn:Hm.
    + split; [done|]. intros (pre & x & post & H & Hpre & Hx). destruct pre as [|y pre]; simplify_eq/=; try congruence.
      inversion Hpre; congruence.
    + rewrite IH. split.
      * intros (pre & x & post & -> & Hpre & Hx). exists (rule :: pre), x, post. split; [done|]. by split; [constructor|].
      * intros (pre & x & post & H & Hpre & Hx). destruct pre as [|y pre]; simplify_eq/=; try congruence.
        exists pre, x, post. by inversion Hpre.
    + split; [|done]. intros _. by exists [], rule, rules.
Qed.

Lemma decides_by_rule flag ctx b pre rule post :
  f_rules flag = pre ++ rule :: post -> Forall (fun r => matchRule r ctx = Some false) pre ->
  matchRule rule ctx = Some true -> decides flag ctx b -> r_enabled rule = b.
Proof.
  intros Hr Hpre Hm Hd.
  assert (first_rule (f_rules flag) ctx = Some (Some (r_enabled rule))) as Hf by (apply first_rule_spec; eauto 10).
  assert (~ Forall (fun r => matchRule r ctx = Some false) (f_rules flag)) as Hno.
  { intros Hall. rewrite Hr in Hall. apply Forall_app in Hall as [_ Hall]. inversion Hall; congruence. }
  destruct Hd as [pre' rule' post' Hr' Hpre' Hm'|g Hall|Hall|Hall]; try by destruct Hno.
  assert (first_rule (f_rules flag) ctx = Some (Some (r_enabled rule'))) as Hf' by (apply first_rule_spec; eauto 10).
  congruence.
Qed.

Lemma unruled_decides flag ctx b :
  Forall (fun r => matchRule r ctx = Some false) (f_rules flag) -> unruled flag ctx = b <-> decides flag ctx b.
Proof.
  intros Hno. unfold unruled. split.
  - intros <-. destruct (shares_group _ _) eqn:Hg.
    { apply shares_group_elem in Hg as (g & H1 & H2). by eapply by_group. }
    assert (forall g, g ∈ f_groups flag -> (g ∉ x_groups ctx)) as Hg'.
    { intros g H1 H2. apply not_true_iff_false in Hg. apply Hg, shares_group_elem. eauto. }
    cbn. destruct (String.eqb _ _) eqn:Hu; cbn [negb andb orb].
    { apply String.eqb_eq in Hu. by apply by_default; [| |left]. }
    apply String.eqb_neq in Hu. destruct (bucket _ _ <? _) eqn:Hb; cbn.
    + apply by_rollout; [done|done|lia].
    + apply by_default; [done|done|right; lia].
  - intros Hd. destruct Hd as [pre rule post Hr Hpre Hm|g _ H1 H2|_ Hu Hb|_ Hg Hb].
    + rewrite Hr in Hno. apply Forall_app in Hno as [_ Hno]. inversion Hno; congruence.
    + assert (shares_group (f_groups flag) (x_groups ctx) = true) as -> by (apply shares_group_elem; eauto). done.
    + apply String.eqb_neq in Hu. rewrite Hu, (proj2 (Z.ltb_lt _ _) Hb). cbn. by rewrite orb_true_r.
    + assert (shares_group (f_groups flag) (x_groups ctx) = false) as ->.
      { apply not_true_is_false. rewrite shares_group_elem. intros (g & H1 & H2). by eapply Hg. }
      destruct Hb as [->|Hb]; [done|]. rewrite (proj2 (Z.ltb_ge _ _) Hb), andb_false_r. done.
Qed.

Lemma first_rule_panics flag ctx b : first_rule (f_rules flag) ctx = None -> ~ decides flag ctx b.
Proof.
  intros Hf Hd. destruct Hd as [pre rule post Hr Hpre Hm|g Hno|Hno|Hno];
    [assert (first_rule (f_rules flag) ctx = Some (Some (r_enabled rule))) by (apply first_rule_spec; eauto 10); congruence|..];
    pose proof (proj2 (first_rule_spec _ _ None) Hno); congruence.
Qed.

(** ** Theorems *)

(** An evaluation gives the decision of the first rule that matches, else of the
    groups, else of the rollout, else the default; it has exactly one outcome, and
    panics exactly when a rule does before any rule matches. *)
Theorem evaluate_decides flag ctx :
  (forall b, evaluate flag (Some ctx) = Some b <-> decides flag ctx b) /\
  (evaluate flag (Some ctx) = None <->
   exists pre rule post, f_rules flag = pre ++ rule :: post /\
     Forall (fun r => matchRule r ctx = Some false) pre /\ matchRule rule ctx = None).
Proof.
  rewrite evaluate_unruled. split.
  - intros b. destruct (first_rule (f_rules flag) ctx) as [[c|]|] eqn:Hf.
    + apply first_rule_spec in Hf as (pre & rule & post & Hr & Hpre & Hm & <-). split.
      * intros [= <-]. by eapply by_rule.
      * intros Hd. f_equal. by eapply decides_by_rule.
    + pose proof (proj1 (first_rule_spec _ _ None) Hf) as Hno. cbn in Hno. rewrite <- unruled_decides by done. naive_solver.
    + split; [done|]. intros Hd. exfalso. by eapply (first_rule_panics flag ctx).
  - destruct (first_rule (f_rules flag) ctx) as [[c|]|] eqn:Hf.
    + split; [done|]. rewrite <- first_rule_none. congruence.
    + split; [done|]. rewrite <- first_rule_none. congruence.
    + rewrite first_rule_none in Hf. done.
Qed.

(** Raising the percentage takes the flag away from nobody; and where no rule and
    no group decides, a flag that is off by default is on for exactly the users
    whose bucket, one of a hundred that depends on the flag and the user only, is
    below the percentage: for everyone with an ID at 100, for nobody at 0. *)
Theorem rollout flag ctx p q :
  (p <= q -> evaluate (with_percentage flag p) (Some ctx) = Some true ->
   evaluate (with_percentage flag q) (Some ctx) = Some true) /\
  (Forall (fun r => matchRule r ctx = Some false) (f_rules flag) ->
   (forall g, g ∈ f_groups flag -> (g ∉ x_groups ctx)) -> f_enabled flag = false ->
   exists n, 0 <= n < 100 /\
     forall r, evaluate (with_percentage flag r) (Some ctx) = Some true <-> x_user ctx <> "" /\ n < r).
Proof.
  split.
  - intros Hpq. rewrite !evaluate_unruled. cbn [with_percentage f_rules]. destruct (first_rule _ _) as [[]|]; try done.
    unfold unruled. cbn [with_percentage f_groups f_percentage f_key f_enabled].
    destruct (shares_group (f_groups flag) (x_groups ctx)), (String.eqb (x_user ctx) ""), (f_enabled flag);
      cbn [negb andb orb]; rewrite ?orb_false_r, ?orb_true_r; try done.
    destruct (bucket _ _ <? p) eqn:Hp; [|done]. intros _. by rewrite (proj2 (Z.ltb_lt _ q)) by lia.
  - intros Hno Hg He. exists (bucket (f_key flag) (x_user ctx)). split; [apply bucket_range|]. intros r.
    rewrite evaluate_unruled. cbn [with_percentage f_rules]. rewrite (proj2 (first_rule_spec _ _ None)) by done.
    unfold unruled. cbn [with_percentage f_groups f_percentage f_key f_enabled]. rewrite He, orb_false_r.
    assert (shares_group (f_groups flag) (x_groups ctx) = false) as ->.
    { apply not_true_is_false. rewrite shares_group_elem. intros (g & H1 & H2). by eapply Hg. }
    destruct (String.eqb _ _) eqn:Hu; cbn [negb andb orb].
    + apply String.eqb_eq in Hu. naive_solver.
    + apply String.eqb_neq in Hu. split; [intros [= H]; split; [done|lia]|].
      intros [_ Hlt]. by rewrite (proj2 (Z.ltb_lt _ r)).
Qed.

Definition ten_percent : Flag := mkFlag "new-ui" "" "" false [] 10 [] [] ∅ 0 0.

Lemma rollout_witness :
  evaluate (with_percentage ten_percent 100) (Some (mkContext "u1" [] ∅)) = Some true /\
  exists n, 0 <= n < 100 /\
    forall r, evaluate (with_percentage ten_percent r) (Some (mkContext "u1" [] ∅)) = Some true <-> "u1" <> "" /\ n < r.
Proof.
  split.
  - apply (rollout ten_percent (mkContext "u1" [] ∅) 99 100); [lia|]. vm_compute. reflexivity.
  - apply (rollout ten_percent (mkContext "u1" [] ∅) 99 100); [constructor| |reflexivity].
    intros g Hg. by apply elem_of_nil in Hg.
Defined.

(** The users of a flag are divided among its variants by their weights, a weight
    that is not positive counting as one: a variant gets the users whose hash,
    modulo the total weight, falls in its interval, which is as long as its
    weight; no user is left over. *)
Theorem variant_shares flag user :
  f_variants flag <> [] -> weights (f_variants flag) < 4294967296 ->
  exists pre v post,
    f_variants flag = pre ++ v :: post /\ selectVariant flag user = Some (v_key v, v_value v) /\
    weights pre <= user_hash (f_key flag) ":variant:" user mod weights (f_variants flag) < weights pre + weight_of v /\
    weight_of v = Z.max 1 (v_weight v).
Proof.
  intros Hne Hw. set (vs := f_variants flag) in *.
  assert (1 <= weights vs) as Hpos.
  { destruct vs as [|v vs]; [done|]. cbn. pose proof (weight_pos v). pose proof (weights_pos vs). lia. }
  assert (totalWeight vs = weights vs) as Ht.
  { unfold totalWeight. rewrite totalWeight_from; unfold max_int64; lia. }
  set (hash := user_hash (f_key flag) ":variant:" user mod weights vs).
  assert (0 <= hash < weights vs) as Hh by (apply Z.mod_pos_bound; lia).
  destruct (select_from_spec hash 0 vs) as (pre & v & post & Hvs & Hs & Hr); [lia|lia|unfold max_int64; lia|].
  exists pre, v, post. split; [done|]. split; [|split; [lia|unfold weight_of; destruct (v_weight v <=? 0) eqn:?; lia]].
  unfold selectVariant. fold vs. rewrite Ht. destruct (weights vs =? 0) eqn:H0; [lia|].
  rewrite Z.mod_small by lia. rewrite H0. fold hash. by rewrite Hs.
Qed.

Lemma variant_shares_witness :
  let flag := mkFlag "button" "" "" true [] 0 [] [mkVariant "red" VNil 3; mkVariant "blue" VNil 0] ∅ 0 0 in
  exists pre v post,
    f_variants flag = pre ++ v :: post /\ selectVariant flag "u1" = Some (v_key v, v_value v).
Proof.
  intros flag. destruct (variant_shares flag "u1") as (pre & v & post & Hv & Hs & _); [discriminate|vm_compute; reflexivity|].
  exists pre, v, post. split; [exact Hv|exact Hs].
Defined.

(** [contains] on strings is the search for a substring that is not empty, written
    out in the package: it agrees with the definition by concatenation. *)
Theorem contains_operator s sub :
  matchOperator "contains" (VString s) (VString sub) = Some true <->
  sub <> "" /\ exists p q, s = p +:+ sub +:+ q.
Proof.
  change (matchOperator "contains" (VString s) (VString sub)) with (Some (compareContains (VString s) (VString sub))).
  cbn [compareContains]. rewrite <- containsString_spec. split.
  - intros [= H]. apply andb_prop in H as [H Hc]. apply andb_prop in H as [_ H]. split; [|done]. by intros ->.
  - intros [Hne Hc]. f_equal. rewrite Hc, andb_true_r.
    assert (0 < String.length sub)%nat by (destruct sub; [done|cbn; lia]).
    unfold containsString in Hc. apply andb_prop in Hc as [Hl _]. apply Nat.leb_le in Hl.
    apply andb_true_iff. rewrite !Nat.ltb_lt. lia.
Qed.

(** The order operators compare strings as the number zero: every string is at
    least and at most every other, and below none, so that a rule for versions
    written as strings matches every version, or none. *)
Theorem strings_unordered a b :
  matchOperator "gte" (VString a) (VString b) = Some true /\
  matchOperator "lte" (VString a) (VString b) = Some true /\
  matchOperator "gt" (VString a) (VString b) = Some false /\
  matchOperator "lt" (VString a) (VString b) = Some false.
Proof. by repeat split. Qed.

(** A rule that compares the groups of the user with a list by [eq] or [neq] panics
    for every user, in every flag that reaches it. *)
Theorem groups_equality_panics flag ctx op v e pre rule post :
  (op = "eq" \/ op = "==" \/ op = "" \/ op = "neq" \/ op = "!=") ->
  f_rules flag = pre ++ rule :: post -> Forall (fun r => matchRule r ctx = Some false) pre ->
  rule = mkRule "groups" op (VStrings v) e "" -> evaluate flag (Some ctx) = None.
Proof.
  intros Hop Hr Hpre ->. rewrite evaluate_unruled.
  assert (first_rule (f_rules flag) ctx = None) as ->; [|done].
  apply first_rule_none. do 3 eexists. split; [exact Hr|]. split; [done|].
  unfold matchRule. cbn. by destruct Hop as [->|[->|[->|[->| ->]]]].
Qed.

Lemma groups_equality_panics_witness :
  evaluate (mkFlag "f" "" "" false [mkRule "groups" "eq" (VStrings ["beta"]) true ""] 0 [] [] ∅ 0 0)
    (Some (mkContext "u" ["beta"] ∅)) = None.
Proof.
  eapply (groups_equality_panics _ _ "eq" ["beta"] true [] _ []);
    [by left|reflexivity|constructor|reflexivity].
Defined.
