(* ===== verification/FeatureStore.v ===== *)
(** * Feature flags: stores, the manager and its HTTP handlers
    ([pantry/feature/store.go], [feature.go], [middleware.go])

    The stores behind a class, the stores of the package as instances, the
    manager proved over the class.

    A flag is a value here: the manager, a store in memory and the callers share
    its pointer, but every operation of the manager that writes a flag saves it,
    and what a caller does with a pointer it was given is left out. *)

From S2P Require Import Prelude Float64 GoStrings Feature.
#[local] Open Scope list_scope.

Inductive feature_error :=
| ErrFlagNotFound
| ErrInvalidKey
| ErrInvalidPercentage
| StoreError (msg : string).

(** ** The interface *)

Class FlagStore (S : Type) := {
  Load : S -> string -> result feature_error Flag;
  LoadAll : S -> result feature_error (list Flag);
  Save : S -> Flag -> S * option feature_error;
  Store_Delete : S -> string -> S * option feature_error
}.

(** The flags of a list by their keys, a later one replacing an earlier one. *)
Definition by_key (l : list Flag) : gmap string Flag := fold_left (fun m f => <[f_key f := f]> m) l ∅.

Arguments by_key : simpl never.

(** What a store promises: it holds a map of flags by their keys, saves a flag as
    [norm] of it, and answers with an error when it changed nothing. *)
Class FlagStoreLaws (S : Type) `{FlagStore S} := {
  valid : S -> Prop;
  flags_of : S -> gmap string Flag;
  norm : Flag -> Flag;
  norm_key f : f_key (norm f) = f_key f;
  held_norm s k f : valid s -> flags_of s !! k = Some f -> norm f = f;
  load_law s k : valid s ->
    Load s k = match flags_of s !! k with Some f => Ok f | None => Err ErrFlagNotFound end;
  load_all_law s : valid s -> exists l, LoadAll s = Ok l /\ by_key l = flags_of s;
  save_law s f : valid s ->
    valid (Save s f).1 /\
    flags_of (Save s f).1 = match (Save s f).2 with None => <[f_key f := norm f]> (flags_of s) | Some _ => flags_of s end;
  delete_law s k : valid s ->
    valid (Store_Delete s k).1 /\
    flags_of (Store_Delete s k).1 = match (Store_Delete s k).2 with None => delete k (flags_of s) | Some _ => flags_of s end
}.

(** ** The stores *)

(** [MemoryStore], over the order in which its map is ranged over. *)
Record MemoryStore := mkMemoryStore { ms_flags : gmap string Flag }.

Definition NewMemoryStore : MemoryStore := mkMemoryStore ∅.

Definition MemoryStore_store (order : gmap string Flag -> list Flag) : FlagStore MemoryStore := {|
  Load s k := match ms_flags s !! k with Some f => Ok f | None => Err ErrFlagNotFound end;
  LoadAll s := Ok (order (ms_flags s));
  Save s f := (mkMemoryStore (<[f_key f := f]> (ms_flags s)), None);
  Store_Delete s k := (mkMemoryStore (delete k (ms_flags s)), None)
|}.

(** [MapStore]: what is saved or deleted is ignored. *)
Record MapStore := mkMapStore { mp_flags : gmap string Flag }.

Definition simple_flag (k : string) (b : bool) : Flag := mkFlag k "" "" b [] 0 [] [] ∅ zero_time zero_time.

Definition NewMapStoreSimple (flags : gmap string bool) : MapStore :=
  mkMapStore (map_imap (fun k b => Some (simple_flag k b)) flags).

Definition MapStore_store (order : gmap string Flag -> list Flag) : FlagStore MapStore := {|
  Load s k := match mp_flags s !! k with Some f => Ok f | None => Err ErrFlagNotFound end;
  LoadAll s := Ok (order (mp_flags s));
  Save s _ := (s, None);
  Store_Delete s _ := (s, None)
|}.

(** [EnvStore], over the environment; the keys are those it was told of. *)
Record EnvStore := mkEnvStore { es_prefix : string; es_keys : list string }.

Definition NewEnvStore (prefix : string) : EnvStore :=
  mkEnvStore (if String.eqb prefix "" then "FEATURE_" else prefix) [].

Definition EnvStore_Register (s : EnvStore) (key : string) : EnvStore :=
  mkEnvStore (es_prefix s) (if decide (key ∈ es_keys s) then es_keys s else es_keys s ++ [key]).

Definition EnvStore_Load (getenv : string -> string) (s : EnvStore) (key : string) : result feature_error Flag :=
  let value := getenv (es_prefix s +:+ key) in
  if String.eqb value "" then Err ErrFlagNotFound
  else Ok (simple_flag key (in_strings value ["true"; "1"; "yes"; "on"])).

Definition EnvStore_store (getenv : string -> string) : FlagStore EnvStore := {|
  Load := EnvStore_Load getenv;
  LoadAll s := Ok (omap (fun k => match EnvStore_Load getenv s k with Ok f => Some f | Err _ => None end) (es_keys s));
  Save s f := (EnvStore_Register s (f_key f), None);
  Store_Delete s k := (mkEnvStore (es_prefix s) (filter (fun x => x <> k) (es_keys s)), None)
|}.

(** *** JSON files *)

Definition f64_finite (f : float64) : bool :=
  match f with Floats.SpecFloat.S754_zero _ | Floats.SpecFloat.S754_finite _ _ _ => true | _ => false end.

Section json.
(** What encoding and decoding make of the types that are not written out here,
    [None] where [json.Marshal] fails; whether the file can be written. *)
Context (json_other : value -> option value) (write_ok : list Flag -> bool).

(** A number in JSON, decoded; one that does not fit a [float64] does not decode,
    and an infinity or a NaN is not encoded. *)
Definition json_number (f : float64) : option value := if f64_finite f then Some (VFloat64 f) else None.

(** A value encoded to JSON and decoded into [any]: numbers become [float64] and
    slices [[]any]. *)
Fixpoint json_value (v : value) : option value :=
  match v with
  | VNil | VBool _ | VString _ => Some v
  | VInt z | VInt32 z | VInt64 z => json_number (f64_of_int z)
  | VFloat64 f => json_number f
  | VStrings l => Some (VList (map VString l))
  | VList l =>
      match mapM json_value l with
      | Some l => Some (VList l)
      | None => None
      end
  | VFloat32 _ | VOther _ _ | VMap _ => json_other v
  end.

Definition json_rule (r : Rule) : option Rule :=
  match json_value (r_value r) with
  | Some v => Some (mkRule (r_attribute r) (r_operator r) v (r_enabled r) (r_variant r))
  | None => None
  end.

Definition json_variant (x : Variant) : option Variant :=
  match json_value (v_value x) with
  | Some v => Some (mkVariant (v_key x) v (v_weight x))
  | None => None
  end.

Definition json_metadata (m : gmap string value) : option (gmap string value) :=
  if decide (map_Forall (fun _ v => is_Some (json_value v)) m) then Some (omap json_value m) else None.

Definition json_flag (f : Flag) : option Flag :=
  match mapM json_rule (f_rules f), mapM json_variant (f_variants f), json_metadata (f_metadata f) with
  | Some rules, Some variants, Some metadata =>
      Some (mkFlag (f_key f) (f_name f) (f_description f) (f_enabled f) rules (f_percentage f) (f_groups f)
              variants metadata (f_created f) (f_updated f))
  | _, _, _ => None
  end.

(** [JSONStore]: no file, a file that does not parse, or the flags in it. *)
Inductive JSONStore := NoFile | BadFile | Flags (l : list Flag).

Definition loadUnsafe (s : JSONStore) : result feature_error (list Flag) :=
  match s with
  | NoFile => Ok []
  | BadFile => Err (StoreError "unmarshal")
  | Flags l => Ok l
  end.

Definition saveUnsafe (s : JSONStore) (l : list Flag) : JSONStore * option feature_error :=
  match mapM json_flag l with
  | Some l' => if write_ok l' then (Flags l', None) else (s, Some (StoreError "write"))
  | None => (s, Some (StoreError "marshal"))
  end.

(** Replaces the first flag with the key, or adds the flag at the end. *)
Fixpoint put_flag (l : list Flag) (flag : Flag) : list Flag :=
  match l with
  | [] => [flag]
  | f :: l => if String.eqb (f_key f) (f_key flag) then flag :: l else f :: put_flag l flag
  end.

Definition JSONStore_store : FlagStore JSONStore := {|
  Load s k :=
    match loadUnsafe s with
    | Err e => Err e
    | Ok l => match List.find (fun f => String.eqb (f_key f) k) l with Some f => Ok f | None => Err ErrFlagNotFound end
    end;
  LoadAll := loadUnsafe;
  Save s f := match loadUnsafe s with Err e => (s, Some e) | Ok l => saveUnsafe s (put_flag l f) end;
  Store_Delete s k :=
    match loadUnsafe s with
    | Err e => (s, Some e)
    | Ok l => saveUnsafe s (filter (fun f => f_key f <> k) l)
    end
|}.
End json.

(** [CompositeStore], over the order in which the map of [LoadAll] is ranged over. *)
Section composite.
Context {S : Type} `{FlagStore S} (order : gmap string Flag -> list Flag).

Fixpoint Composite_Load (stores : list S) (k : string) : result feature_error Flag :=
  match stores with
  | [] => Err ErrFlagNotFound
  | s :: stores => match Load s k with Ok f => Ok f | Err _ => Composite_Load stores k end
  end.

Definition composite_flags (stores : list S) : gmap string Flag :=
  fold_left (fun m s => match LoadAll s with Ok l => fold_left (fun m f => <[f_key f := f]> m) l m | Err _ => m end) stores ∅.

Definition CompositeStore_store : FlagStore (list S) := {|
  Load := Composite_Load;
  LoadAll stores := Ok (order (composite_flags stores));
  Save stores f :=
    match stores with
    | [] => ([], None)
    | s :: stores => let '(s, e) := Save s f in (s :: stores, e)
    end;
  Store_Delete stores k :=
    match stores with
    | [] => ([], None)
    | s :: stores => let '(s, e) := Store_Delete s k in (s :: stores, e)
    end
|}.
End composite.

(** ** The manager *)

Record Manager (S : Type) := mkManager {
  m_store : option S;
  m_flags : gmap string Flag;
  m_defaults : gmap string bool
}.
Arguments mkManager {S} _ _ _.
Arguments m_store {S} _.
Arguments m_flags {S} _.
Arguments m_defaults {S} _.

Section manager.
Context {S : Type} `{FlagStore S}.

Definition NewManager (store : option S) : Manager S :=
  mkManager store
    (match store with
     | Some s => match LoadAll s with Ok l => by_key l | Err _ => ∅ end
     | None => ∅
     end) ∅.

(** [m.store.Save(flag)] of a manager whose map holds the flag. *)
Definition save_flag (m : Manager S) (flag : Flag) : Manager S * option feature_error :=
  let m := mkManager (m_store m) (<[f_key flag := flag]> (m_flags m)) (m_defaults m) in
  match m_store m with
  | None => (m, None)
  | Some s => let '(s, e) := Save s flag in (mkManager (Some s) (m_flags m) (m_defaults m), e)
  end.

Definition touch (flag : Flag) (enabled : bool) (percentage : Z) (created now : Time) : Flag :=
  mkFlag (f_key flag) (f_name flag) (f_description flag) enabled (f_rules flag) percentage (f_groups flag)
    (f_variants flag) (f_metadata flag) created now.

Definition Register (m : Manager S) (flag : Flag) (now : Time) : Manager S * option feature_error :=
  if String.eqb (f_key flag) "" then (m, Some ErrInvalidKey)
  else
    save_flag m (touch flag (f_enabled flag) (f_percentage flag)
      (if f_created flag =? zero_time then now else f_created flag) now).

Definition RegisterSimple (m : Manager S) (key : string) (enabled : bool) (now : Time) : Manager S * option feature_error :=
  Register m (simple_flag key enabled) now.

Definition SetDefault (m : Manager S) (key : string) (enabled : bool) : Manager S :=
  mkManager (m_store m) (m_flags m) (<[key := enabled]> (m_defaults m)).

Definition SetEnabled (m : Manager S) (key : string) (enabled : bool) (now : Time) : Manager S * option feature_error :=
  match m_flags m !! key with
  | None => (m, Some ErrFlagNotFound)
  | Some flag => save_flag m (touch flag enabled (f_percentage flag) (f_created flag) now)
  end.

Definition SetPercentage (m : Manager S) (key : string) (percentage : Z) (now : Time) : Manager S * option feature_error :=
  if (percentage <? 0) || (100 <? percentage) then (m, Some ErrInvalidPercentage)
  else
    match m_flags m !! key with
    | None => (m, Some ErrFlagNotFound)
    | Some flag => save_flag m (touch flag (f_enabled flag) percentage (f_created flag) now)
    end.

Definition Delete (m : Manager S) (key : string) : Manager S * option feature_error :=
  match m_flags m !! key with
  | None => (m, Some ErrFlagNotFound)
  | Some _ =>
      let flags := delete key (m_flags m) in
      match m_store m with
      | None => (mkManager None flags (m_defaults m), None)
      | Some s => let '(s, e) := Store_Delete s key in (mkManager (Some s) flags (m_defaults m), e)
      end
  end.

Definition Reload (m : Manager S) : Manager S * option feature_error :=
  match m_store m with
  | None => (m, None)
  | Some s =>
      match LoadAll s with
      | Err e => (m, Some e)
      | Ok l => (mkManager (m_store m) (by_key l) (m_defaults m), None)
      end
  end.

(** [IsEnabledFor]; [None] is a panic. *)
Definition IsEnabledFor (m : Manager S) (key : string) (ctx : option EvalContext) : option bool :=
  match m_flags m !! key with
  | None => Some (default false (m_defaults m !! key))
  | Some flag => evaluate flag ctx
  end.

Definition GetVariant (m : Manager S) (key : string) (ctx : option EvalContext) : option (string * value) :=
  match m_flags m !! key with
  | None => Some ("", VNil)
  | Some flag => flag_variant flag ctx
  end.

(** ** Handlers: the status of the answer, and the manager *)

Definition key_of_path (path : string) : string := TrimPrefix path "/".

Definition handleGet (m : Manager S) (path : string) : Z :=
  let key := key_of_path path in
  if String.eqb key "" then 200 else match m_flags m !! key with Some _ => 200 | None => 404 end.

(** [None] for a body that does not decode. *)
Definition handlePost (m : Manager S) (body : option Flag) (now : Time) : Manager S * Z :=
  match body with
  | None => (m, 400)
  | Some flag => let '(m, e) := Register m flag now in (m, match e with None => 201 | Some _ => 400 end)
  end.

Definition put_percentage (m : Manager S) (key : string) (percentage : option Z) (now : Time) : Manager S * Z :=
  match percentage with
  | None => (m, 200)
  | Some p =>
      let '(m, e) := SetPercentage m key p now in
      (m, match e with None => 200 | Some ErrInvalidPercentage => 400 | Some _ => 404 end)
  end.

Definition handlePut (m : Manager S) (path : string) (body : option (option bool * option Z)) (now : Time) : Manager S * Z :=
  let key := key_of_path path in
  if String.eqb key "" then (m, 400)
  else
    match body with
    | None => (m, 400)
    | Some (enabled, percentage) =>
        match enabled with
        | None => put_percentage m key percentage now
        | Some b =>
            let '(m, e) := SetEnabled m key b now in
            match e with
            | Some _ => (m, 404)
            | None => put_percentage m key percentage now
            end
        end
    end.

Definition handleDelete (m : Manager S) (path : string) : Manager S * Z :=
  let key := key_of_path path in
  if String.eqb key "" then (m, 400)
  else let '(m, e) := Delete m key in (m, match e with None => 204 | Some _ => 404 end).

(** [RequireFeature]: whether the next handler runs; otherwise 404. *)
Definition RequireFeature (m : Manager S) (flag : string) (ctx : option EvalContext) : option bool := IsEnabledFor m flag ctx.

(** [ClientConfig] of some flags. *)
Fixpoint ClientConfig (m : Manager S) (ctx : option EvalContext) (flags : list string) : option (gmap string bool) :=
  match flags with
  | [] => Some ∅
  | key :: flags =>
      match IsEnabledFor m key ctx with
      | None => None
      | Some b => match ClientConfig m ctx flags with None => None | Some r => Some (<[key := b]> r) end
      end
  end.
End manager.

(** [buildContextFromRequest]. *)
Definition buildContextFromRequest (userID groups : string) : EvalContext :=
  mkContext userID (if String.eqb groups "" then [] else map TrimSpace (split_byte "," groups)) ∅.

(** ** Flags by their keys *)

Lemma by_key_app l k : by_key (l ++ k) = fold_left (fun m f => <[f_key f := f]> m) k (by_key l).
Proof. apply fold_left_app. Qed.

Lemma fold_key_lookup (l : list Flag) (m : gmap string Flag) k :
  fold_left (fun m f => <[f_key f := f]> m) l m !! k =
  match list.last (filter (fun f => f_key f = k) l) with Some f => Some f | None => m !! k end.
Proof.
  revert m. induction l as [|f l IH]; intros m; [done|]. cbn [fold_left]. rewrite IH, filter_cons.
  case_decide as Hk.
  - rewrite list.last_cons. destruct (list.last _); [done|]. rewrite <- Hk. apply lookup_insert_eq.
  - destruct (list.last _); [done|]. by apply lookup_insert_ne.
Qed.

Lemma by_key_key l k f : by_key l !! k = Some f -> f_key f = k.
Proof.
  unfold by_key. rewrite fold_key_lookup, lookup_empty. destruct (list.last _) as [g|] eqn:Hl; [|done].
  intros [= ->]. apply list.last_Some_elem_of, list_elem_of_filter in Hl. tauto.
Qed.

Definition keys_ok (m : gmap string Flag) : Prop := forall k f, m !! k = Some f -> f_key f = k.

(** With distinct keys, the map holds exactly the flags of the list. *)
Lemma by_key_NoDup l k f :
  NoDup (map f_key l) -> by_key l !! k = Some f <-> f ∈ l /\ f_key f = k.
Proof.
  intros Hnd. unfold by_key. rewrite fold_key_lookup, lookup_empty. split.
  - destruct (list.last _) as [g|] eqn:Hl; [|done]. intros [= ->].
    apply list.last_Some_elem_of, list_elem_of_filter in Hl. tauto.
  - intros [Hf Hk]. assert (filter (fun f => f_key f = k) l = [f]) as ->; [|done].
    induction l as [|g l IH]; [by apply elem_of_nil in Hf|]. cbn in Hnd. apply list.NoDup_cons in Hnd as [Hg Hnd].
    rewrite filter_cons. apply elem_of_cons in Hf as [->|Hf].
    + rewrite decide_True by done. f_equal. apply filter_none. intros x Hx He. apply Hg.
      rewrite Hk, <- He. apply list_elem_of_fmap. eauto.
    + rewrite decide_False; [by apply IH|]. intros He. apply Hg. rewrite He, <- Hk. apply list_elem_of_fmap. eauto.
Qed.

(** The law that [LoadAll] of a map of flags owes. *)
Definition order_ok (order : gmap string Flag -> list Flag) : Prop := forall m, order m ≡ₚ (map_to_list m).*2.

Lemma order_by_key order m : order_ok order -> keys_ok m -> by_key (order m) = m.
Proof.
  intros Ho Hk. assert (NoDup (map f_key (order m))) as Hnd.
  { rewrite (Ho m). assert (map f_key (map_to_list m).*2 = (map_to_list m).*1) as ->.
    { rewrite map_map. apply map_ext_in. intros [k f] Hin. apply list_elem_of_In, elem_of_map_to_list in Hin.
      cbn. by apply Hk. }
    apply NoDup_fst_map_to_list. }
  apply map_eq. intros k. apply option_eq. intros f. rewrite by_key_NoDup by done.
  rewrite (Ho m), list_elem_of_fmap. split.
  - intros [([k' g] & -> & Hin) Hf]. apply elem_of_map_to_list in Hin. cbn in *. rewrite <- Hf, (Hk _ _ Hin). done.
  - intros Hf. split; [|by apply Hk]. exists (k, f). split; [done|]. by apply elem_of_map_to_list.
Qed.

(** ** The stores keep their promises *)

Section memory_laws.
Context (order : gmap string Flag -> list Flag) (Horder : order_ok order).

#[local] Instance memory_store : FlagStore MemoryStore := MemoryStore_store order.

#[local] Program Instance MemoryStore_laws : FlagStoreLaws MemoryStore := {|
  valid s := keys_ok (ms_flags s);
  flags_of := ms_flags;
  norm f := f
|}.
Next Obligation. done. Qed.
Next Obligation. done. Qed.
Next Obligation. done. Qed.
Next Obligation. intros s Hs. exists (order (ms_flags s)). split; [done|]. by apply order_by_key. Qed.
Next Obligation.
  intros s f Hs. cbn. split; [|done]. intros k g. cbn. rewrite lookup_insert_Some. naive_solver.
Qed.
Next Obligation. intros s k Hs. cbn. split; [|done]. intros k' g. cbn. rewrite lookup_delete_Some. naive_solver. Qed.
End memory_laws.

(** *** JSON files *)

Lemma put_flag_elem l f g :
  NoDup (map f_key l) -> g ∈ put_flag l f <-> g = f \/ (g ∈ l /\ f_key g <> f_key f).
Proof.
  induction l as [|x l IH]; intros Hnd; cbn [put_flag].
  - rewrite list_elem_of_singleton. set_solver.
  - cbn in Hnd. apply list.NoDup_cons in Hnd as [Hx Hnd]. destruct (String.eqb _ _) eqn:He.
    + apply String.eqb_eq in He. rewrite !elem_of_cons. split; [|naive_solver].
      intros [->|Hg]; [by left|]. right. split; [by right|]. intros Hk. apply Hx. rewrite He, <- Hk.
      apply list_elem_of_fmap. eauto.
    + apply String.eqb_neq in He. rewrite !elem_of_cons, IH by done. naive_solver.
Qed.

Lemma put_flag_keys l f : NoDup (map f_key l) -> NoDup (map f_key (put_flag l f)).
Proof.
  induction l as [|x l IH]; intros Hnd; cbn [put_flag map].
  - apply list.NoDup_singleton.
  - cbn in Hnd. apply list.NoDup_cons in Hnd as [Hx Hnd]. destruct (String.eqb _ _) eqn:He; cbn.
    + apply String.eqb_eq in He. rewrite <- He. by constructor.
    + apply String.eqb_neq in He. constructor; [|by apply IH]. intros Hin. apply list_elem_of_fmap in Hin as (g & Hg & Hin).
      apply put_flag_elem in Hin as [->|[Hin _]]; [done| |done]. apply Hx. rewrite Hg. apply list_elem_of_fmap. eauto.
Qed.

Lemma by_key_put l f : NoDup (map f_key l) -> by_key (put_flag l f) = <[f_key f := f]> (by_key l).
Proof.
  intros Hnd. apply map_eq. intros k. apply option_eq. intros g.
  rewrite by_key_NoDup by (by apply put_flag_keys). rewrite put_flag_elem, lookup_insert_Some, by_key_NoDup by done.
  naive_solver.
Qed.

Lemma by_key_filter l k :
  NoDup (map f_key l) ->
  NoDup (map f_key (filter (fun f => f_key f <> k) l)) /\
  by_key (filter (fun f => f_key f <> k) l) = delete k (by_key l).
Proof.
  intros Hnd. assert (NoDup (map f_key (filter (fun f => f_key f <> k) l))) as Hnd'.
  { clear -Hnd. induction l as [|x l IH]; [constructor|]. cbn in Hnd. apply list.NoDup_cons in Hnd as [Hx Hnd].
    rewrite filter_cons. case_decide; [|by apply IH]. cbn. constructor; [|by apply IH].
    intros Hin. apply Hx. apply list_elem_of_fmap in Hin as (g & Hg & Hin). apply list_elem_of_filter in Hin as [_ Hin].
    rewrite Hg. apply list_elem_of_fmap. eauto. }
  split; [done|]. apply map_eq. intros k'. apply option_eq. intros g.
  rewrite by_key_NoDup, list_elem_of_filter, lookup_delete_Some, by_key_NoDup by done. naive_solver.
Qed.

Lemma find_key l k f :
  NoDup (map f_key l) -> List.find (fun f => String.eqb (f_key f) k) l = Some f <-> f ∈ l /\ f_key f = k.
Proof.
  induction l as [|x l IH]; intros Hnd; cbn.
  - split; [done|]. by intros [?%elem_of_nil _].
  - cbn in Hnd. apply list.NoDup_cons in Hnd as [Hx Hnd]. destruct (String.eqb _ _) eqn:He.
    + apply String.eqb_eq in He. rewrite elem_of_cons. split; [naive_solver|]. intros [[->|Hf] Hk]; [done|].
      destruct Hx. rewrite He, <- Hk. apply list_elem_of_fmap. eauto.
    + apply String.eqb_neq in He. rewrite IH, elem_of_cons by done. naive_solver.
Qed.

Section json_laws.
Context (json_other : value -> option value) (write_ok : list Flag -> bool).
(** What is decoded is encoded and decoded as it is. *)
Context (json_other_ok : forall v v', json_other v = Some v' -> json_value json_other v' = Some v').

Lemma json_number_ok f v : json_number f = Some v -> json_value json_other v = Some v.
Proof. unfold json_number. destruct (f64_finite f) eqn:Hf; [|done]. intros [= <-]. cbn. unfold json_number. by rewrite Hf. Qed.

Lemma json_value_ok v v' : json_value json_other v = Some v' -> json_value json_other v' = Some v'.
Proof.
  revert v v'. fix IH 1. intros [|b|s|z|z|z|f|f|l|l|t z|t] v'; cbn [json_value]; intros Hv; simplify_eq;
    try done; try (by eapply json_number_ok); try (by apply json_other_ok in Hv).
  - clear IH. cbn [json_value]. assert (mapM (json_value json_other) (map VString l) = Some (map VString l)) as ->; [|done].
    apply mapM_Some. induction l; by constructor.
  - destruct (mapM (json_value json_other) l) as [l'|] eqn:Hl; [|done]. simplify_eq. cbn [json_value].
    assert (mapM (json_value json_other) l' = Some l') as ->; [|done].
    apply mapM_Some in Hl. apply mapM_Some. revert l' Hl. induction l as [|x l IHl]; intros l' Hl; inversion Hl; subst; constructor.
    + by apply (IH x).
    + by apply IHl.
Qed.

Lemma mapM_ok {A : Type} (f : A -> option A) l l' :
  (forall x y, f x = Some y -> f y = Some y) -> mapM f l = Some l' -> mapM f l' = Some l'.
Proof.
  intros Hf. rewrite !mapM_Some. intros H. induction H as [|x y l l' Hx H IH]; constructor; eauto.
Qed.

Lemma json_rule_ok r r' : json_rule json_other r = Some r' -> json_rule json_other r' = Some r'.
Proof.
  unfold json_rule. destruct (json_value _ (r_value r)) as [v|] eqn:Hv; [|done]. intros [= <-]. cbn.
  by rewrite (json_value_ok _ _ Hv).
Qed.

Lemma json_variant_ok x x' : json_variant json_other x = Some x' -> json_variant json_other x' = Some x'.
Proof.
  unfold json_variant. destruct (json_value _ (v_value x)) as [v|] eqn:Hv; [|done]. intros [= <-]. cbn.
  by rewrite (json_value_ok _ _ Hv).
Qed.

Lemma json_metadata_ok m m' : json_metadata json_other m = Some m' -> json_metadata json_other m' = Some m'.
Proof.
  unfold json_metadata. case_decide as Hm; [|done]. intros [= <-].
  assert (forall k v, omap (json_value json_other) m !! k = Some v -> json_value json_other v = Some v) as Hok.
  { intros k v Hk. rewrite lookup_omap in Hk. destruct (m !! k) as [x|]; [|done]. cbn in Hk. by apply json_value_ok in Hk. }
  rewrite decide_True by (intros k v Hk; rewrite (Hok k v Hk); by eexists). f_equal. apply map_eq. intros k.
  rewrite lookup_omap. destruct (omap (json_value json_other) m !! k) as [v|] eqn:Hk; [|done]. cbn. by apply (Hok k).
Qed.

Lemma json_flag_ok f f' : json_flag json_other f = Some f' -> json_flag json_other f' = Some f'.
Proof.
  unfold json_flag. destruct (mapM _ (f_rules f)) as [rs|] eqn:Hr; [|done].
  destruct (mapM _ (f_variants f)) as [vs|] eqn:Hv; [|done]. destruct (json_metadata _ _) as [md|] eqn:Hm; [|done].
  intros [= <-]. cbn. rewrite (mapM_ok _ _ _ json_rule_ok Hr), (mapM_ok _ _ _ json_variant_ok Hv).
  by rewrite (json_metadata_ok _ _ Hm).
Qed.

Lemma json_flag_key f f' : json_flag json_other f = Some f' -> f_key f' = f_key f.
Proof.
  unfold json_flag. destruct (mapM _ (f_rules f)); [|done].
  destruct (mapM _ (f_variants f)); [|done]. destruct (json_metadata _ _); [|done]. by intros [= <-].
Qed.

Lemma mapM_put l f :
  Forall (fun f => json_flag json_other f = Some f) l ->
  mapM (json_flag json_other) (put_flag l f) =
  match json_flag json_other f with Some f' => Some (put_flag l f') | None => None end.
Proof.
  assert (forall l, Forall (fun f => json_flag json_other f = Some f) l -> mapM (json_flag json_other) l = Some l) as Hid.
  { clear. intros l Hl. apply mapM_Some. induction Hl; by constructor. }
  induction l as [|x l IH]; intros Hl.
  - cbn. by destruct (json_flag _ f).
  - inversion Hl as [|? ? Hx Hl']; subst. cbn [put_flag]. destruct (String.eqb _ _) eqn:He.
    + cbn [mapM]. destruct (json_flag json_other f) as [f'|] eqn:Hf; [|done]. cbn. rewrite (Hid l Hl'). cbn.
      rewrite (json_flag_key _ _ Hf). by rewrite He.
    + cbn [mapM]. rewrite Hx. cbn. rewrite (IH Hl'). destruct (json_flag json_other f) as [f'|] eqn:Hf; [|done]. cbn.
      rewrite (json_flag_key _ _ Hf). by rewrite He.
Qed.

#[local] Instance json_store : FlagStore JSONStore := JSONStore_store json_other write_ok.

Definition json_valid (s : JSONStore) : Prop :=
  match s with
  | NoFile => True
  | BadFile => False
  | Flags l => NoDup (map f_key l) /\ Forall (fun f => json_flag json_other f = Some f) l
  end.

Definition json_list (s : JSONStore) : list Flag := match s with Flags l => l | _ => [] end.

Lemma json_valid_list s : json_valid s ->
  loadUnsafe s = Ok (json_list s) /\ NoDup (map f_key (json_list s)) /\
  Forall (fun f => json_flag json_other f = Some f) (json_list s).
Proof. destruct s as [| |l]; cbn; [|done|]; intros H; [|tauto]. split; [done|]. split; constructor. Qed.

#[local] Program Instance JSONStore_laws : FlagStoreLaws JSONStore := {|
  valid := json_valid;
  flags_of s := by_key (json_list s);
  norm f := default f (json_flag json_other f)
|}.
Next Obligation. intros f. cbn [default]. cbv beta. destruct (json_flag json_other f) eqn:Hf; cbn; [by apply json_flag_key in Hf|done]. Qed.
Next Obligation.
  intros s k f Hs Hk. cbn in *. destruct (json_valid_list s Hs) as (_ & Hnd & Hall). apply by_key_NoDup in Hk as [Hf _]; [|done].
  rewrite list.Forall_forall in Hall. by rewrite (Hall f Hf).
Qed.
Next Obligation.
  intros s k Hs. cbn in *. destruct (json_valid_list s Hs) as (-> & Hnd & _).
  destruct (List.find _ _) as [f|] eqn:Hf.
  - apply find_key in Hf; [|done]. apply by_key_NoDup in Hf; [|done]. by rewrite Hf.
  - destruct (by_key _ !! k) as [f|] eqn:Hk; [|done]. apply by_key_NoDup in Hk; [|done].
    apply find_key in Hk; [|done]. congruence.
Qed.
Next Obligation. intros s Hs. cbn in *. destruct (json_valid_list s Hs) as (-> & _). eauto. Qed.
Next Obligation.
  intros s f Hs. cbn in *. destruct (json_valid_list s Hs) as (-> & Hnd & Hall). unfold saveUnsafe.
  rewrite mapM_put by done. destruct (json_flag json_other f) as [f'|] eqn:Hf; [|done].
  destruct (write_ok _); [|done]. cbn. split.
  - split; [by apply put_flag_keys|]. rewrite list.Forall_forall in *. intros g Hg. apply put_flag_elem in Hg; [|done].
    destruct Hg as [->|[Hg _]]; [by eapply json_flag_ok|by apply Hall].
  - rewrite by_key_put by done. by rewrite (json_flag_key _ _ Hf).
Qed.
Next Obligation.
  intros s k Hs. cbn in *. destruct (json_valid_list s Hs) as (-> & Hnd & Hall). unfold saveUnsafe.
  assert (Forall (fun f => json_flag json_other f = Some f) (filter (fun f => f_key f <> k) (json_list s))) as Hall'.
  { rewrite list.Forall_forall in *. intros g Hg. apply list_elem_of_filter in Hg as [_ Hg]. by apply Hall. }
  assert (mapM (json_flag json_other) (filter (fun f => f_key f <> k) (json_list s)) = Some (filter (fun f => f_key f <> k) (json_list s))) as ->.
  { apply mapM_Some. clear -Hall'. induction Hall'; by constructor. }
  destruct (by_key_filter (json_list s) k Hnd) as [Hnd' Hd]. destruct (write_ok _); [|done]. cbn. by rewrite Hd.
Qed.
End json_laws.

(** ** The manager and its store *)

Inductive manager_op :=
| OpRegister (flag : Flag)
| OpSetEnabled (key : string) (enabled : bool)
| OpSetPercentage (key : string) (percentage : Z)
| OpSetDefault (key : string) (enabled : bool)
| OpDelete (key : string)
| OpReload.

Section in_step.
Context {S : Type} `{Hlaws : FlagStoreLaws S}.

Definition run_op (m : Manager S) (o : manager_op) (now : Time) : Manager S * option feature_error :=
  match o with
  | OpRegister flag => Register m flag now
  | OpSetEnabled key enabled => SetEnabled m key enabled now
  | OpSetPercentage key p => SetPercentage m key p now
  | OpSetDefault key enabled => (SetDefault m key enabled, None)
  | OpDelete key => Delete m key
  | OpReload => Reload m
  end.

(** An operation that answers nil, or refuses and changes nothing. *)
Definition ok_step (m m' : Manager S) : Prop :=
  exists o now e, run_op m o now = (m', e) /\ (e = None \/ m' = m).

Definition in_step (m : Manager S) : Prop :=
  exists s, m_store m = Some s /\ valid s /\ keys_ok (m_flags m) /\
    forall k, norm <$> (m_flags m !! k) = flags_of s !! k.

Lemma by_key_keys_ok l : keys_ok (by_key l).
Proof. intros k f. apply by_key_key. Qed.

Lemma loaded_in_step s l : valid s -> LoadAll s = Ok l -> forall d, in_step (mkManager (Some s) (by_key l) d).
Proof.
  intros Hs Hl d. exists s. split; [done|]. split; [done|]. split; [apply by_key_keys_ok|]. intros k. cbn.
  destruct (load_all_law s Hs) as (l' & Hl' & Hk). rewrite Hl in Hl'. simplify_eq. rewrite Hk.
  destruct (flags_of s !! k) as [f|] eqn:Hf; [|done]. cbn. f_equal. by eapply held_norm.
Qed.

Lemma NewManager_in_step s : valid s -> in_step (NewManager (Some s)).
Proof.
  intros Hs. unfold NewManager. destruct (load_all_law s Hs) as (l & Hl & _). rewrite Hl. by apply loaded_in_step.
Qed.

Lemma save_in_step m flag m' : in_step m -> save_flag m flag = (m', None) -> in_step m'.
Proof.
  intros (s & Hm & Hs & Hk & Hi) Hsave. unfold save_flag in Hsave. cbn in Hsave. rewrite Hm in Hsave.
  destruct (Save s flag) as [s' e] eqn:Hst. simplify_eq. pose proof (save_law s flag Hs) as [Hv Hf].
  rewrite Hst in Hv, Hf. cbn in Hv, Hf. exists s'. split; [done|]. split; [done|]. split.
  - intros k f. cbn. rewrite lookup_insert_Some. naive_solver.
  - intros k. cbn. rewrite Hf. destruct (decide (f_key flag = k)) as [<-|Hne].
    + by rewrite !lookup_insert_eq.
    + by rewrite !lookup_insert_ne.
Qed.

Lemma ok_step_in_step m m' : in_step m -> ok_step m m' -> in_step m'.
Proof.
  intros Hm (o & now & e & Hrun & He). destruct He as [-> | ->]; [|done]. destruct o; cbn in Hrun.
  - unfold Register in Hrun. destruct (String.eqb _ _); [done|]. by eapply save_in_step.
  - unfold SetEnabled in Hrun. destruct (m_flags m !! key); [|done]. by eapply save_in_step.
  - unfold SetPercentage in Hrun. destruct (_ || _); [done|]. destruct (m_flags m !! key); [|done]. by eapply save_in_step.
  - by simplify_eq.
  - unfold Delete in Hrun. destruct (m_flags m !! key); [|done]. destruct Hm as (s & Hm & Hs & Hk & Hi). rewrite Hm in Hrun.
    destruct (Store_Delete s key) as [s' e] eqn:Hst. simplify_eq. pose proof (delete_law s key Hs) as [Hv Hf].
    rewrite Hst in Hv, Hf. cbn in Hv, Hf. exists s'. split; [done|]. split; [done|]. split.
    + intros k f'. cbn. rewrite lookup_delete_Some. naive_solver.
    + intros k. cbn. rewrite Hf. destruct (decide (key = k)) as [<-|Hne].
      * by rewrite !lookup_delete_eq.
      * by rewrite !lookup_delete_ne.
  - unfold Reload in Hrun. destruct Hm as (s & Hm & Hs & Hk & Hi). rewrite Hm in Hrun.
    destruct (LoadAll s) as [l|] eqn:Hl; [|done]. simplify_eq. by apply loaded_in_step.
Qed.

Lemma in_step_reload m m' : in_step m -> Reload m = (m', None) -> forall k, m_flags m' !! k = norm <$> (m_flags m !! k).
Proof.
  intros (s & Hm & Hs & Hk & Hi) Hr k. unfold Reload in Hr. rewrite Hm in Hr.
  destruct (load_all_law s Hs) as (l & Hl & Hf). rewrite Hl in Hr. simplify_eq. cbn. by rewrite Hf, Hi.
Qed.
End in_step.

(** ** Rules through JSON *)

Lemma f64_of_int_finite_eq z v : json_number (f64_of_int z) = Some v -> v = VFloat64 (f64_of_int z).
Proof. unfold json_number. destruct (f64_finite _); [|done]. by intros [= <-]. Qed.

(** The values of a rule that a JSON file keeps the meaning of, for its operator. *)
Definition json_safe (op : string) (v : value) : bool :=
  match v with
  | VBool _ | VString _ | VNil | VFloat64 _ => true
  | VInt z | VInt32 z | VInt64 z => f64_nonzero (f64_of_int z)
  | VStrings _ => in_strings op ["in"; "nin"; "not_in"; "gt"; ">"; "gte"; ">="; "lt"; "<"; "lte"; "<="; "contains"]
  | _ => false
  end.

Lemma compareEqual_string a x :
  (forall s, a <> VString s) -> compareEqual a (VString x) = Some false.
Proof.
  intros Ha. assert (compareEqual a (VString x) =
    if f64_nonzero (toFloat64 a) || f64_nonzero (f64_of_int 0) then Some (f64_eq (toFloat64 a) (f64_of_int 0))
    else go_eq a (VString x)) as -> by (by destruct a; try destruct (Ha s)).
  change (f64_nonzero (f64_of_int 0)) with false. rewrite orb_false_r.
  destruct (f64_nonzero (toFloat64 a)) eqn:Hn.
  - unfold f64_nonzero in Hn. by destruct (f64_eq _ _).
  - by destruct a; try destruct (Ha s).
Qed.

Lemma in_values_strings actual l : in_values actual (map VString l) = compareIn actual (VStrings l).
Proof.
  assert ((exists s, actual = VString s) \/ forall s, actual <> VString s) as [[s ->]|Hs]
    by (destruct actual; eauto; right; done).
  - cbn [compareIn]. unfold in_strings. induction l as [|x l IH]; [done|]. cbn. rewrite String.eqb_sym.
    destruct (String.eqb x s); [done|exact IH].
  - assert (compareIn actual (VStrings l) = Some false) as -> by (by destruct actual; try destruct (Hs s)).
    induction l as [|x l IH]; [done|]. cbn [map in_values]. by rewrite compareEqual_string.
Qed.

Lemma compareEqual_int_json a z v :
  f64_nonzero (f64_of_int z) = true -> (v = VInt z \/ v = VInt32 z \/ v = VInt64 z) ->
  compareEqual a v = compareEqual a (VFloat64 (f64_of_int z)).
Proof.
  intros Hz Hv. assert (forall w, toFloat64 w = f64_of_int z -> (forall s, w <> VString s) ->
    compareEqual a w = Some (f64_eq (toFloat64 a) (f64_of_int z))) as H.
  { intros w Hw Hs. assert (compareEqual a w = if f64_nonzero (toFloat64 a) || f64_nonzero (toFloat64 w)
      then Some (f64_eq (toFloat64 a) (toFloat64 w)) else go_eq a w) as ->
      by (destruct a, w; try reflexivity; exfalso; by eapply Hs).
    by rewrite Hw, Hz, orb_true_r. }
  rewrite (H (VFloat64 (f64_of_int z))) by done. by destruct Hv as [->|[->| ->]]; apply H.
Qed.

Lemma matchOperator_json other op a v v' :
  json_safe op v = true -> json_value other v = Some v' -> matchOperator op a v' = matchOperator op a v.
Proof.
  intros Hs Hv. assert (forall z, v = VInt z \/ v = VInt32 z \/ v = VInt64 z -> matchOperator op a v' = matchOperator op a v) as Hint.
  { intros z Hz. assert (v' = VFloat64 (f64_of_int z)) as -> by (by destruct Hz as [->|[->| ->]]; apply f64_of_int_finite_eq).
    assert (f64_nonzero (f64_of_int z) = true) as Hnz by (by destruct Hz as [->|[->| ->]]).
    unfold matchOperator. rewrite (compareEqual_int_json a z v Hnz Hz).
    assert (compareIn a (VFloat64 (f64_of_int z)) = compareIn a v) as -> by (by destruct Hz as [->|[->| ->]]).
    assert (compareContains a (VFloat64 (f64_of_int z)) = compareContains a v) as ->
      by (by destruct Hz as [->|[->| ->]]; destruct a).
    assert (compareNumeric a (VFloat64 (f64_of_int z)) = compareNumeric a v) as ->
      by (by destruct Hz as [->|[->| ->]]). done. }
  destruct v as [|b|s|z|z|z|f|f|l|l|t z|t]; try done; cbn [json_value] in Hv; simplify_eq; try done.
  - apply (Hint z); auto.
  - apply (Hint z); auto.
  - apply (Hint z); auto.
  - unfold json_number in Hv. destruct (f64_finite f); [|done]. by simplify_eq.
  - unfold json_safe in Hs. apply in_strings_elem in Hs.
    assert (compareIn a (VList (map VString l)) = compareIn a (VStrings l)) as Hin.
    { transitivity (in_values a (map VString l)); [by destruct a|]. apply in_values_strings. }
    repeat (apply elem_of_cons in Hs as [->|Hs]); [..|by apply elem_of_nil in Hs]; unfold matchOperator; cbn -[compareIn compareContains];
      rewrite ?Hin; try done; by destruct a.
Qed.

Lemma json_flag_enabled other f : f_enabled (default f (json_flag other f)) = f_enabled f.
Proof.
  unfold json_flag. destruct (mapM _ (f_rules f)); [|done].
  destruct (mapM _ (f_variants f)); [|done]. by destruct (json_metadata _ _).
Qed.

Lemma fold_keys_ok (l : list Flag) (m : gmap string Flag) :
  keys_ok m -> keys_ok (fold_left (fun m f => <[f_key f := f]> m) l m).
Proof.
  revert m. induction l as [|f l IH]; intros m Hm; [done|]. cbn. apply IH. intros k g.
  rewrite lookup_insert_Some. naive_solver.
Qed.

Lemma keys_ok_empty : keys_ok ∅.
Proof. intros k f Hk. by rewrite lookup_empty in Hk. Qed.

Lemma composite_keys_ok {S : Type} `{FlagStore S} (stores : list S) : keys_ok (composite_flags stores).
Proof.
  unfold composite_flags. pose proof keys_ok_empty as Hm.
  revert Hm. generalize (∅ : gmap string Flag). induction stores as [|s stores IH]; intros m Hm; [done|]. cbn.
  apply IH. destruct (LoadAll s); [by apply fold_keys_ok|done].
Qed.

(** ** Theorems *)

(** Over any store that keeps its promises, a manager made from it stays in step
    with it: after any sequence of operations that answer nil, or refuse and
    change nothing, the flags it answers from are those the store holds, as the
    store represents them, and reloading only replaces each by that
    representation. *)
Theorem manager_in_step {S : Type} `{FlagStoreLaws S} (s : S) m :
  valid s -> rtc ok_step (NewManager (Some s)) m ->
  (exists s', m_store m = Some s' /\ valid s' /\ forall k, norm <$> (m_flags m !! k) = flags_of s' !! k) /\
  (forall m', Reload m = (m', None) -> forall k, m_flags m' !! k = norm <$> (m_flags m !! k)).
Proof.
  intros Hs Hr. assert (in_step m) as Hm.
  { pose proof (NewManager_in_step s Hs) as H0'. induction Hr as [|m1 m2 m3 Hst Hr IH]; [done|].
    apply IH. by eapply ok_step_in_step. }
  split; [|intros m'; by apply in_step_reload].
  destruct Hm as (s' & Hst & Hv & _ & Hk). by exists s'.
Qed.

Definition by_map (m : gmap string Flag) : list Flag := (map_to_list m).*2.

Definition one_flag_manager : Manager MemoryStore :=
  (Register (H := MemoryStore_store by_map) (NewManager (H := MemoryStore_store by_map) (Some NewMemoryStore)) (simple_flag "a" true) 5).1.

Lemma manager_in_step_witness :
  (exists s', m_store one_flag_manager = Some s' /\
     forall k, (fun f => f) <$> (m_flags one_flag_manager !! k) = ms_flags s' !! k) /\
  (forall m', @Reload MemoryStore (MemoryStore_store by_map) one_flag_manager = (m', None) ->
     forall k, m_flags m' !! k = (fun f => f) <$> (m_flags one_flag_manager !! k)).
Proof.
  destruct (@manager_in_step MemoryStore (MemoryStore_store by_map) (MemoryStore_laws by_map (fun _ => reflexivity _))
    NewMemoryStore one_flag_manager) as [(s' & Hs & _ & Hk) Hr].
  - apply keys_ok_empty.
  - eapply rtc_l; [|apply rtc_refl]. exists (OpRegister (simple_flag "a" true)), 5, None. split; [reflexivity|by left].
  - split; [by exists s'|exact Hr].
Defined.

(** A save that fails leaves the manager ahead of its store: [SetEnabled] answers
    the error, yet the flag is changed for every evaluation until a [Reload]
    takes the change back. *)
Theorem failed_save_applies {S : Type} `{FlagStoreLaws S} m s k flag b now m' e :
  in_step m -> m_store m = Some s -> m_flags m !! k = Some flag -> f_enabled flag = negb b ->
  (forall f, f_enabled (norm f) = f_enabled f) ->
  SetEnabled m k b now = (m', Some e) ->
  (exists flag', m_flags m' !! k = Some flag' /\ f_enabled flag' = b) /\
  forall m'', Reload m' = (m'', None) -> exists flag'', m_flags m'' !! k = Some flag'' /\ f_enabled flag'' = negb b.
Proof.
  intros (s0 & Hm & Hs & Hk & Hi) Hm' Hflag He Hnorm Hset. assert (s0 = s) as -> by congruence. pose proof (Hk k flag Hflag) as Hkey.
  unfold SetEnabled in Hset. rewrite Hflag in Hset. unfold save_flag in Hset. cbn in Hset. rewrite Hm in Hset.
  destruct (Save s _) as [s' e'] eqn:Hsave. simplify_eq.
  pose proof (save_law s (touch flag b (f_percentage flag) (f_created flag) now) Hs) as [Hv Hf].
  rewrite Hsave in Hv, Hf. cbn in Hv, Hf. split.
  - cbn. rewrite lookup_insert_eq. by eexists.
  - intros m'' Hr. unfold Reload in Hr. cbn in Hr. destruct (load_all_law s' Hv) as (l & Hl & Hlk). rewrite Hl in Hr.
    simplify_eq. cbn. rewrite Hlk, Hf, <- Hi, Hflag. eexists. split; [reflexivity|]. by rewrite Hnorm, He.
Qed.

Lemma failed_save_applies_witness :
  let store := JSONStore_store (fun _ => None) (fun _ => false) in
  let m := NewManager (Some (Flags [simple_flag "a" false])) in
  let m' := (SetEnabled m "a" true 5).1 in
  exists flag', m_flags m' !! "a" = Some flag' /\ f_enabled flag' = true.
Proof.
  intros store m m'.
  assert (forall v v' : value, (fun _ : value => @None value) v = Some v' -> json_value (fun _ => None) v' = Some v') as Hother by done.
  apply (@failed_save_applies JSONStore store (JSONStore_laws (fun _ => None) (fun _ => false) Hother) m
    (Flags [simple_flag "a" false]) "a" (simple_flag "a" false) true 5 m' (StoreError "write")).
  - apply (@NewManager_in_step JSONStore store (JSONStore_laws (fun _ => None) (fun _ => false) Hother)).
    split; [apply list.NoDup_singleton|by repeat constructor].
  - reflexivity.
  - reflexivity.
  - reflexivity.
  - intros f. change (f_enabled (default f (json_flag (fun _ => None) f)) = f_enabled f). apply json_flag_enabled.
  - reflexivity.
Defined.

(** A composite store contradicts itself where two of its stores have a flag: it
    loads the flag of the first, but the manager gets the flag of the second,
    and what the manager saves goes to the first and is gone after a reload. *)
Theorem composite_disagrees (order order' : gmap string Flag -> list Flag) (s1 s2 : MemoryStore) k f1 f2 b now :
  order_ok order -> order_ok order' -> keys_ok (ms_flags s1) -> keys_ok (ms_flags s2) ->
  ms_flags s1 !! k = Some f1 -> ms_flags s2 !! k = Some f2 ->
  let inner := MemoryStore_store order in
  let store := CompositeStore_store order' in
  let m := NewManager (Some [s1; s2]) in
  Load [s1; s2] k = Ok f1 /\ m_flags m !! k = Some f2 /\
  exists m1 m2, SetEnabled m k b now = (m1, None) /\ Reload m1 = (m2, None) /\
    (exists f, m_flags m1 !! k = Some f /\ f_enabled f = b) /\ m_flags m2 !! k = Some f2.
Proof.
  intros Ho Ho' Hk1 Hk2 H1 H2 inner store m.
  assert (forall s1', LoadAll [s1'; s2] = Ok (order' (composite_flags (H := inner) [s1'; s2]))) as Hload by done.
  assert (forall s1', by_key (order' (composite_flags (H := inner) [s1'; s2])) !! k = Some f2) as Hsecond.
  { intros s1'. rewrite order_by_key; [|done|apply composite_keys_ok].
    unfold composite_flags. cbn. rewrite fold_key_lookup. change (fold_left _ (order (ms_flags s1')) ∅) with (by_key (order (ms_flags s1'))).
    pose proof (order_by_key order (ms_flags s2) Ho Hk2) as Hb. unfold by_key in Hb.
    pose proof (f_equal (lookup k) Hb) as Hb2. rewrite fold_key_lookup, lookup_empty, H2 in Hb2.
    by destruct (list.last _). }
  assert (m_flags m !! k = Some f2) as Hm by apply Hsecond.
  split; [cbn; by rewrite H1|]. split; [done|].
  eexists _, _. split; [unfold SetEnabled; rewrite Hm; reflexivity|]. split; [reflexivity|]. split; [|apply Hsecond].
  cbn. rewrite (Hk2 k f2 H2), lookup_insert_eq. by eexists.
Qed.

Lemma composite_disagrees_witness :
  let s1 := mkMemoryStore {["a" := simple_flag "a" true]} in
  let s2 := mkMemoryStore {["a" := simple_flag "a" false]} in
  let inner := MemoryStore_store by_map in let store := CompositeStore_store by_map in
  Load [s1; s2] "a" = Ok (simple_flag "a" true) /\
  m_flags (NewManager (Some [s1; s2])) !! "a" = Some (simple_flag "a" false).
Proof.
  intros s1 s2 inner store.
  destruct (composite_disagrees by_map by_map s1 s2 "a" (simple_flag "a" true) (simple_flag "a" false) true 5)
    as (H1 & H2 & _); [intros m; reflexivity|intros m; reflexivity| | |reflexivity|reflexivity|split; [exact H1|exact H2]];
    intros k f Hk; unfold s1, s2 in Hk; cbn [ms_flags] in Hk; apply lookup_singleton_Some in Hk as [<- <-]; reflexivity.
Defined.

(** A JSON file keeps the meaning of a rule: one whose value is a string, a
    boolean, a number other than an integer zero, or a list of strings used with
    an operator on lists, matches the same contexts after it was saved and
    loaded.  The integer zero does not keep it: it comes back as a float, and is
    no longer equal to the zero of an attribute. *)
Theorem json_keeps_rules other r r' ctx :
  json_safe (r_operator r) (r_value r) = true -> json_rule other r = Some r' ->
  matchRule r' ctx = matchRule r ctx /\ r_enabled r' = r_enabled r.
Proof.
  intros Hs Hr. unfold json_rule in Hr. destruct (json_value other (r_value r)) as [v|] eqn:Hv; [|done].
  injection Hr as <-. split; [|done]. unfold matchRule. cbn.
  destruct (if String.eqb (r_attribute r) "user_id" then _ else _); try done; by rewrite (matchOperator_json _ _ _ _ _ Hs Hv).
Qed.

Lemma json_keeps_rules_witness :
  matchRule (mkRule "country" "in" (VStrings ["US"; "CA"]) true "") (mkContext "u" [] {["country" := VString "CA"]}) = Some true /\
  forall ctx, matchRule (mkRule "country" "in" (VList [VString "US"; VString "CA"]) true "") ctx =
    matchRule (mkRule "country" "in" (VStrings ["US"; "CA"]) true "") ctx.
Proof.
  split; [reflexivity|].
  intros ctx. apply (json_keeps_rules (fun _ => None) (mkRule "country" "in" (VStrings ["US"; "CA"]) true "")); reflexivity.
Defined.

Theorem json_loses_zero :
  let r := mkRule "logins" "eq" (VInt 0) true "" in
  let ctx := mkContext "u" [] {["logins" := VInt 0]} in
  matchRule r ctx = Some true /\
  exists r', json_rule (fun _ => None) r = Some r' /\ matchRule r' ctx = Some false.
Proof.
  split; [reflexivity|]. exists (mkRule "logins" "eq" (VFloat64 (f64_of_int 0)) true ""). split; reflexivity.
Qed.

(** A [PUT] that carries a percentage out of range is answered 400, but the enabled
    flag it also carries has been applied and saved. *)
Theorem put_applies_half {S : Type} `{FlagStore S} (m : Manager S) path flag b p now m1 :
  key_of_path path <> "" -> m_flags m !! key_of_path path = Some flag -> f_key flag = key_of_path path ->
  SetEnabled m (key_of_path path) b now = (m1, None) -> p < 0 \/ 100 < p ->
  handlePut m path (Some (Some b, Some p)) now = (m1, 400) /\
  exists flag', m_flags m1 !! key_of_path path = Some flag' /\ f_enabled flag' = b.
Proof.
  intros Hp Hf Hk Hset Hout. unfold handlePut. rewrite (proj2 (String.eqb_neq _ _) Hp), Hset. split.
  - unfold put_percentage, SetPercentage. destruct ((p <? 0) || (100 <? p)) eqn:Hr; [done|lia].
  - unfold SetEnabled in Hset. rewrite Hf in Hset. unfold save_flag in Hset. cbn in Hset.
    destruct (m_store m); [destruct (Save _ _)|]; simplify_eq; cbn; rewrite Hk, lookup_insert_eq; by eexists.
Qed.

Lemma put_applies_half_witness :
  let store := MemoryStore_store by_map in
  let m := (Register (NewManager (Some NewMemoryStore)) (simple_flag "a" false) 5).1 in
  (handlePut m "/a" (Some (Some true, Some 101)) 6).2 = 400.
Proof.
  intros store m.
  assert (exists flag, m_flags m !! "a" = Some flag /\ f_key flag = "a") as (flag & Hf & Hk) by (eexists; split; vm_compute; reflexivity).
  destruct (put_applies_half m "/a" flag true 101 6 (SetEnabled m "a" true 6).1) as [H _];
    [discriminate|exact Hf|exact Hk|reflexivity|lia|by rewrite H].
Defined.
