(* ===== verification/Paths.v ===== *)
(** * Paths of the library ([path] and [path/filepath])

    [path.Clean], which is [filepath.Clean] on Unix, with what it guarantees of a
    rooted and of a relative path; [filepath.Join], [filepath.Ext] and the parts of
    [strings] that treat separators. *)

From S2P Require Import Prelude GoStrings.
#[local] Open Scope list_scope.

(** ** Package [path] *)

(** One element of a path, onto the elements before it (the last one first); a
    path that is not rooted keeps the [..] that it cannot resolve. *)
Definition clean_step (rooted : bool) (stack : list string) (seg : string) : list string :=
  if String.eqb seg "" || String.eqb seg "." then stack
  else if String.eqb seg ".." then
    match stack with
    | [] => if rooted then [] else [".."]
    | top :: below => if String.eqb top ".." then ".." :: stack else below
    end
  else seg :: stack.

Definition clean_segments (rooted : bool) (segs : list string) : list string :=
  rev (fold_left (clean_step rooted) segs []).

(** [path.Clean]. *)
Definition Clean (p : string) : string :=
  if String.eqb p "" then "."
  else if HasPrefix p "/" then "/" +:+ String.concat "/" (clean_segments true (split_byte "/" (str_drop 1 p)))
  else
    match clean_segments false (split_byte "/" p) with
    | [] => "."
    | segs => String.concat "/" segs
    end.

(** [filepath.Join]: the leading empty elements are left out. *)
Fixpoint Join (elems : list string) : string :=
  match elems with
  | [] => ""
  | "" :: elems => Join elems
  | _ => Clean (String.concat "/" elems)
  end.

(** [filepath.Ext]: from the last dot of the last element. *)
Definition Ext (p : string) : string :=
  let base := match cut_last_byte "/" p with Some (_, b) => b | None => p end in
  match cut_last_byte "." base with Some (_, e) => String "." e | None => "" end.

(** A rooted path of names. *)
Definition path_string (p : list string) : string := "/" +:+ String.concat "/" p.

(** [filepath.Abs] in the working directory [cwd]. *)
Definition Abs (cwd p : string) : string := if HasPrefix p "/" then Clean p else Join [cwd; p].

(** ** Package [strings] *)

Fixpoint trim_left_byte (c : ascii) (s : string) : string :=
  match s with
  | "" => ""
  | String d s' => if Ascii.eqb d c then trim_left_byte c s' else s
  end.

Fixpoint trim_right_byte (c : ascii) (s : string) : string :=
  match s with
  | "" => ""
  | String d s =>
      match trim_right_byte c s with
      | "" => if Ascii.eqb d c then "" else String d ""
      | r => String d r
      end
  end.

(** [strings.Trim] with a cutset of one byte. *)
Definition Trim (s : string) (c : ascii) : string := trim_right_byte c (trim_left_byte c s).

(** [strings.Index]: [None] is -1. *)
Fixpoint Index (s sub : string) : option nat :=
  if HasPrefix s sub then Some 0%nat
  else match s with "" => None | String _ s => S <$> Index s sub end.

(** ** Cleaned paths *)

(** An element that a cleaned path can have. *)
Definition plain (seg : string) : Prop := seg <> "" /\ seg <> "." /\ seg <> ".." /\ string_has "/" seg = false.

Lemma clean_step_plain stack seg :
  string_has "/" seg = false -> Forall plain stack -> Forall plain (clean_step true stack seg).
Proof.
  intros Hs Hst. unfold clean_step. destruct (String.eqb seg "") eqn:H1; [done|].
  destruct (String.eqb seg ".") eqn:H2; [done|]. destruct (String.eqb seg "..") eqn:H3; cbn.
  - destruct stack as [|top below]; [constructor|]. inversion Hst as [|? ? Ht Hb]; subst.
    destruct (String.eqb top "..") eqn:Htop; [|done]. apply String.eqb_eq in Htop as ->. by destruct Ht as (_ & _ & ? & _).
  - apply String.eqb_neq in H1, H2, H3. by constructor.
Qed.

Lemma clean_segments_plain segs :
  Forall (fun x => string_has "/" x = false) segs -> Forall plain (clean_segments true segs).
Proof.
  intros Hs. unfold clean_segments. apply Forall_rev.
  assert (Forall plain (@nil string)) as Hst by constructor. revert Hst. generalize (@nil string).
  induction Hs as [|x l Hx Hs IH]; intros st Hst; cbn; [done|]. apply IH. by apply clean_step_plain.
Qed.

Lemma clean_plain_onto rooted segs st : Forall plain segs -> fold_left (clean_step rooted) segs st = rev segs ++ st.
Proof.
  intros Hs. revert st. induction Hs as [|x l (H1 & H2 & H3 & _) Hs IH]; intros st; [done|]. cbn. rewrite IH. unfold clean_step.
  rewrite (proj2 (String.eqb_neq _ _) H1), (proj2 (String.eqb_neq _ _) H2), (proj2 (String.eqb_neq _ _) H3). cbn.
  by rewrite <- app_assoc.
Qed.

(** Plain elements are left as they are. *)
Lemma clean_plain segs : Forall plain segs -> clean_segments true segs = segs.
Proof. intros Hs. unfold clean_segments. by rewrite clean_plain_onto, app_nil_r, rev_involutive. Qed.

Lemma join_cons x l : l <> [] -> String.concat "/" (x :: l) = x +:+ String "/" (String.concat "/" l).
Proof. by destruct l. Qed.

Lemma plain_pieces segs : Forall plain segs -> Forall (fun x => string_has "/" x = false) segs.
Proof. apply Forall_impl. by intros x (_ & _ & _ & ?). Qed.

Lemma Clean_join segs : Forall plain segs -> Clean ("/" +:+ String.concat "/" segs) = "/" +:+ String.concat "/" segs.
Proof.
  intros Hs. unfold Clean. cbn [String.append]. cbn [String.eqb HasPrefix Ascii.eqb andb str_drop].
  change (HasPrefix (String "/" (String.concat "/" segs)) "/") with true. cbn [str_drop].
  destruct (decide (segs = [])) as [->|Hne]; [done|].
  by rewrite (split_byte_concat "/"), clean_plain by (done || by apply plain_pieces).
Qed.

(** Every element of a cleaned path is one of the path. *)
Lemma clean_segments_in rooted segs x : x ∈ clean_segments rooted segs -> x ∈ segs.
Proof.
  unfold clean_segments. rewrite list_elem_of_In, <- in_rev, <- list_elem_of_In. intros Hx.
  assert (forall l st, x ∈ fold_left (clean_step rooted) l st -> x ∈ l \/ x ∈ st) as Hin.
  { clear. induction l as [|y l IH]; intros st Hx; [by right|]. cbn in Hx. apply IH in Hx as [Hx|Hx]; [left; by right|].
    unfold clean_step in Hx. destruct (String.eqb y "" || String.eqb y "."); [by right|].
    destruct (String.eqb y "..") eqn:Hy; [apply String.eqb_eq in Hy as ->|].
    - destruct st as [|top st]; [destruct rooted; [by apply elem_of_nil in Hx|apply list_elem_of_singleton in Hx as ->; left; left]|].
      destruct (String.eqb top ".."); [|right; by right].
      apply elem_of_cons in Hx as [->|Hx]; [left; left|by right].
    - apply elem_of_cons in Hx as [->|Hx]; [left; left|by right]. }
  apply Hin in Hx as [Hx|Hx]; [done|by apply elem_of_nil in Hx].
Qed.

Lemma Clean_rooted p : HasPrefix p "/" = true ->
  exists segs, Forall plain segs /\ Clean p = "/" +:+ String.concat "/" segs /\
    forall x, x ∈ segs -> x ∈ split_byte "/" (str_drop 1 p).
Proof.
  intros Hp. unfold Clean. destruct (String.eqb p "") eqn:He; [apply String.eqb_eq in He; by subst|]. rewrite Hp.
  eexists. split; [|split; [reflexivity|]].
  - apply clean_segments_plain, split_byte_pieces.
  - intros x. apply clean_segments_in.
Qed.

Lemma has_join c l : Ascii.eqb c "/" = false -> string_has c (String.concat "/" l) = existsb (string_has c) l.
Proof.
  intros Hc. induction l as [|x l IH]; [done|]. destruct l as [|y l]; [cbn; by rewrite orb_false_r|].
  rewrite join_cons, string_has_app by done. cbn [string_has]. rewrite Ascii.eqb_sym in Hc. rewrite Hc. cbn [existsb orb].
  by rewrite IH.
Qed.

Lemma has_split c d s x : x ∈ split_byte d s -> string_has c x = true -> string_has c s = true.
Proof.
  revert x. induction s as [|e s IH]; intros x Hx Hc; cbn [split_byte] in Hx.
  - apply list_elem_of_singleton in Hx as ->. done.
  - destruct (Ascii.eqb e d).
    + apply elem_of_cons in Hx as [->|Hx]; [done|]. cbn. rewrite (IH x Hx Hc). apply orb_true_r.
    + destruct (split_byte d s) as [|w ws] eqn:Hs.
      * apply list_elem_of_singleton in Hx as ->. cbn in *. by rewrite orb_false_r in Hc; rewrite Hc.
      * apply elem_of_cons in Hx as [->|Hx].
        -- cbn in *. destruct (Ascii.eqb e c); [done|]. cbn in *. by apply (IH w); [left|].
        -- cbn. rewrite (IH x); [apply orb_true_r|by right|done].
Qed.

Lemma has_slash c s : Ascii.eqb c "/" = false -> string_has c ("/" +:+ s) = string_has c s.
Proof. intros Hc. change (Ascii.eqb "/" c || string_has c s = string_has c s). by rewrite Ascii.eqb_sym, Hc. Qed.

(** A cleaned path has no bytes but slashes that the path had not. *)
Lemma Clean_has c p : HasPrefix p "/" = true -> Ascii.eqb c "/" = false -> string_has c p = false ->
  string_has c (Clean p) = false.
Proof.
  intros Hp Hc Hh. destruct (Clean_rooted p Hp) as (segs & _ & -> & Hin).
  rewrite has_slash, has_join by done. apply not_true_is_false. rewrite existsb_exists. intros (x & Hx & Hhas).
  apply list_elem_of_In, Hin in Hx. apply (has_split c) in Hx; [|done].
  destruct p as [|d p]; [done|]. cbn in *. rewrite Hx, orb_true_r in Hh. done.
Qed.

Lemma no_double_slash segs : Forall plain segs -> HasPrefix ("/" +:+ String.concat "/" segs) "//" = false.
Proof.
  intros Hs. apply not_true_is_false. intros [r Hr]%HasPrefix_spec. injection Hr as Hr.
  destruct Hs as [|x l (Hx & _ & _ & Hh) Hs]; [done|]. destruct x as [|c x]; [done|].
  assert (c = "/"%char) as -> by (destruct l; cbn in Hr; by injection Hr). done.
Qed.

(** ** Pieces *)

Lemma split_byte_sep c a b : split_byte c (a +:+ String c b) = split_byte c a ++ split_byte c b.
Proof.
  induction a as [|d a IH]; cbn; [by rewrite Ascii.eqb_refl|]. rewrite IH.
  destruct (Ascii.eqb d c); [done|]. by destruct (split_byte c a) as [|w ws] eqn:Ha; [destruct a; cbn in Ha; repeat case_match|].
Qed.

Lemma split_byte_nonempty c s : split_byte c s <> [].
Proof. destruct s; cbn; [done|]. by repeat case_match. Qed.

Lemma string_concat_split c s : String.concat (String c "") (split_byte c s) = s.
Proof.
  revert s. apply (split_byte_ind c (fun s => String.concat (String c "") (split_byte c s) = s)).
  - intros s Hs. by rewrite split_byte_none.
  - intros a b Ha IH. rewrite split_byte_app by done. rewrite <- IH at 2.
    by destruct (split_byte c b) as [|w ws] eqn:Hb; [apply split_byte_nonempty in Hb|].
Qed.

Lemma Contains_spec s sub : Contains s sub = true <-> exists a b, s = a +:+ (sub +:+ b).
Proof.
  split.
  - induction s as [|c s IH]; cbn; intros H; apply orb_true_iff in H as [H|H].
    + apply HasPrefix_spec in H as [r ->]. by exists "", r.
    + done.
    + apply HasPrefix_spec in H as [r Hr]. by exists "", r.
    + destruct (IH H) as (a & b & ->). by exists (String c a), b.
  - intros (a & b & ->). induction a as [|c a IH]; cbn.
    + assert (HasPrefix (sub +:+ b) sub = true) as Hp by (apply HasPrefix_spec; eauto).
      destruct (sub +:+ b); cbn in *; by rewrite Hp.
    + rewrite IH. apply orb_true_r.
Qed.

(** A piece is a substring. *)
Lemma piece_contains c s x : x ∈ split_byte c s -> Contains s x = true.
Proof.
  revert s. apply (split_byte_ind c (fun s => x ∈ split_byte c s -> Contains s x = true)).
  - intros s Hs Hx. rewrite split_byte_none in Hx by done. apply list_elem_of_singleton in Hx as ->.
    apply Contains_spec. exists "", "". cbn. by rewrite string_app_nil_r.
  - intros a b Ha IH Hx. rewrite split_byte_app in Hx by done. apply elem_of_cons in Hx as [->|Hx].
    + apply Contains_spec. by exists "", (String c b).
    + apply IH, Contains_spec in Hx as (a' & b' & ->). apply Contains_spec. exists (a +:+ String c a'), b'.
      by rewrite <- string_app_assoc.
Qed.

Section no_empty_piece.
Context (c : ascii) (s : string) (Hs : "" ∉ split_byte c s).

Lemma no_empty_double : Contains s (String c (String c "")) = false.
Proof.
  apply not_true_is_false. intros (a & b & ->)%Contains_spec. apply Hs. cbn.
  rewrite split_byte_sep. apply elem_of_app. right. cbn. rewrite Ascii.eqb_refl. left.
Qed.

Lemma no_empty_head : HasPrefix s (String c "") = false.
Proof.
  apply not_true_is_false. intros [r ->]%HasPrefix_spec. apply Hs. cbn. rewrite Ascii.eqb_refl. left.
Qed.

Lemma no_empty_last t : s <> t +:+ String c "".
Proof. intros ->. apply Hs. rewrite split_byte_sep. apply elem_of_app. right. left. Qed.
End no_empty_piece.

(** ** Trimming *)

Lemma trim_left_byte_head c s : HasPrefix (trim_left_byte c s) (String c "") = false.
Proof.
  induction s as [|d s IH]; cbn; [done|]. destruct (Ascii.eqb d c) eqn:Hd; [done|]. cbn.
  by rewrite Ascii.eqb_sym, Hd.
Qed.

Lemma trim_left_byte_id c s : HasPrefix s (String c "") = false -> trim_left_byte c s = s.
Proof.
  destruct s as [|d s]; cbn; [done|]. rewrite andb_true_r, Ascii.eqb_sym. intros ->. done.
Qed.

Lemma trim_right_byte_snoc c t d : d <> c -> trim_right_byte c (t +:+ String d "") = t +:+ String d "".
Proof.
  intros Hd. induction t as [|e t IH]; cbn; [by rewrite (proj2 (Ascii.eqb_neq _ _) Hd)|]. rewrite IH.
  by destruct t.
Qed.

Lemma trim_right_byte_head c s : HasPrefix s (String c "") = false -> HasPrefix (trim_right_byte c s) (String c "") = false.
Proof.
  destruct s as [|d s]; cbn; [done|]. rewrite andb_true_r, Ascii.eqb_sym. intros Hd. rewrite Hd.
  destruct (trim_right_byte c s); cbn; by rewrite Ascii.eqb_sym, Hd.
Qed.

Lemma Trim_head s c : HasPrefix (Trim s c) (String c "") = false.
Proof. apply trim_right_byte_head, trim_left_byte_head. Qed.

Lemma Trim_id s c : "" ∉ split_byte c s -> Trim s c = s.
Proof.
  intros Hs. unfold Trim. rewrite trim_left_byte_id by by apply no_empty_head.
  destruct (string_snoc s) as [->|(t & d & ->)]; [done|]. apply trim_right_byte_snoc.
  intros ->. by apply (no_empty_last c _ Hs t).
Qed.

Lemma trim_left_byte_has c d s : string_has d s = false -> string_has d (trim_left_byte c s) = false.
Proof.
  induction s as [|e s IH]; [done|]. cbn. intros [He Hs]%orb_false_iff. destruct (Ascii.eqb e c); [by apply IH|].
  cbn. by rewrite He.
Qed.

Lemma trim_right_byte_has c d s : string_has d s = false -> string_has d (trim_right_byte c s) = false.
Proof.
  induction s as [|e s IH]; [done|]. cbn. intros [He Hs]%orb_false_iff. specialize (IH Hs).
  destruct (trim_right_byte c s); [destruct (Ascii.eqb e c)|]; cbn in *; by rewrite ?He.
Qed.

Lemma Trim_has s c d : string_has d s = false -> string_has d (Trim s c) = false.
Proof. intros H. by apply trim_right_byte_has, trim_left_byte_has. Qed.

Lemma trim_left_byte_slash c s : trim_left_byte c (String c s) = trim_left_byte c s.
Proof. cbn. by rewrite Ascii.eqb_refl. Qed.

Lemma trim_right_byte_end c s : trim_right_byte c (s +:+ String c "") = trim_right_byte c s.
Proof. induction s as [|d s IH]; cbn; [by rewrite Ascii.eqb_refl|]. by rewrite IH. Qed.

(** Separators around a string are trimmed. *)
Lemma Trim_end s c : Trim (s +:+ String c "") c = Trim s c.
Proof.
  unfold Trim. induction s as [|d s IH]; cbn; [by rewrite Ascii.eqb_refl|].
  destruct (Ascii.eqb d c); [done|]. apply (trim_right_byte_end c (String d s)).
Qed.

(** ** Relative paths *)

Definition rel_stack (st : list string) : Prop := exists n rest, st = rest ++ repeat ".." n /\ Forall plain rest.

Lemma clean_step_rel st seg : string_has "/" seg = false -> rel_stack st -> rel_stack (clean_step false st seg).
Proof.
  intros Hs (n & rest & -> & Hr). unfold clean_step.
  destruct (String.eqb seg "") eqn:H1; [by exists n, rest|]. destruct (String.eqb seg ".") eqn:H2; [by exists n, rest|].
  destruct (String.eqb seg "..") eqn:H3; cbn [orb].
  - destruct Hr as [|top rest Ht Hr]; cbn [app].
    + exists (S n), []. destruct n; cbn; [done|]. done.
    + destruct (String.eqb top "..") eqn:Htop; [apply String.eqb_eq in Htop as ->; by destruct Ht as (_ & _ & ? & _)|].
      by exists n, rest.
  - exists n, (seg :: rest). split; [done|]. apply String.eqb_neq in H1, H2, H3. by constructor.
Qed.

Lemma repeat_rev {A : Type} (x : A) n : rev (repeat x n) = repeat x n.
Proof. induction n as [|n IH]; cbn; [done|]. rewrite IH. symmetry. apply (repeat_cons n x). Qed.

Lemma clean_segments_rel segs :
  Forall (fun x => string_has "/" x = false) segs ->
  exists n rest, clean_segments false segs = repeat ".." n ++ rest /\ Forall plain rest.
Proof.
  intros Hs. unfold clean_segments.
  assert (rel_stack (fold_left (clean_step false) segs [])) as (n & rest & -> & Hr).
  { assert (rel_stack []) as Hst by by exists 0%nat, []. revert Hst. generalize (@nil string).
    induction Hs as [|x l Hx Hs IH]; intros st Hst; cbn; [done|]. apply IH. by apply clean_step_rel. }
  exists n, (rev rest). rewrite rev_app_distr, repeat_rev. split; [done|]. by apply Forall_rev.
Qed.

Lemma clean_dots n st : Forall (fun x => x = "..") st -> fold_left (clean_step false) (repeat ".." n) st = repeat ".." n ++ st.
Proof.
  revert st. induction n as [|n IH]; intros st Hst; [done|]. cbn [repeat fold_left].
  assert (clean_step false st ".." = ".." :: st) as ->.
  { unfold clean_step. cbn. destruct Hst as [|x st -> Hst]; [done|]. done. }
  rewrite IH by (by constructor). change (".." :: st) with ([".."] ++ st). by rewrite app_assoc, <- repeat_cons.
Qed.

Lemma clean_rel_id n rest : Forall plain rest -> clean_segments false (repeat ".." n ++ rest) = repeat ".." n ++ rest.
Proof.
  intros Hr. unfold clean_segments. rewrite fold_left_app, clean_dots by constructor.
  rewrite clean_plain_onto by done. by rewrite app_nil_r, rev_app_distr, rev_involutive, repeat_rev.
Qed.

(** Without [..], the elements that are neither empty nor a dot are kept. *)
Definition kept (seg : string) : bool := negb (String.eqb seg "" || String.eqb seg ".").

Lemma clean_no_dotdot rooted segs :
  ".." ∉ segs -> clean_segments rooted segs = List.filter kept segs.
Proof.
  intros Hs. unfold clean_segments.
  assert (forall st, fold_left (clean_step rooted) segs st = rev (List.filter kept segs) ++ st) as ->;
    [|by rewrite app_nil_r, rev_involutive].
  induction segs as [|x l IH]; intros st; [done|]. apply not_elem_of_cons in Hs as [Hx Hl]. cbn.
  rewrite IH by done. unfold clean_step, kept at 2. destruct (String.eqb x "" || String.eqb x "."); [done|]. cbn.
  rewrite (proj2 (String.eqb_neq _ _)) by done. by rewrite <- app_assoc.
Qed.

Lemma kept_plain segs :
  ".." ∉ segs -> Forall (fun x => string_has "/" x = false) segs -> Forall plain (List.filter kept segs).
Proof.
  intros Hd Hs. induction Hs as [|x l Hx Hs IH]; [constructor|]. apply not_elem_of_cons in Hd as [Hne Hd]. cbn.
  unfold kept at 1. destruct (String.eqb x "") eqn:H1; [by apply IH|]. destruct (String.eqb x ".") eqn:H2; [by apply IH|]. cbn.
  apply String.eqb_neq in H1, H2. constructor; [done|by apply IH].
Qed.

Definition rel_string (segs : list string) : string := match segs with [] => "." | _ => String.concat "/" segs end.

Lemma rel_pieces n rest : Forall plain rest -> Forall (fun x => string_has "/" x = false) (repeat ".." n ++ rest).
Proof.
  intros Hr. apply Forall_app. split; [|by apply plain_pieces]. induction n; cbn; by constructor.
Qed.

Lemma split_rel_string n rest : Forall plain rest ->
  split_byte "/" (rel_string (repeat ".." n ++ rest)) = match repeat ".." n ++ rest with [] => ["."] | l => l end.
Proof.
  intros Hr. pose proof (rel_pieces n rest Hr) as Hp. destruct (repeat ".." n ++ rest) as [|x l]; [done|].
  by apply (split_byte_concat "/").
Qed.

Lemma rel_no_empty n rest : Forall plain rest -> "" ∉ split_byte "/" (rel_string (repeat ".." n ++ rest)).
Proof.
  intros Hr. rewrite split_rel_string by done. destruct (repeat ".." n ++ rest) as [|y l] eqn:Hl; [by intros ?%list_elem_of_singleton|].
  rewrite <- Hl. intros [Hx|Hx]%elem_of_app.
  - apply list_elem_of_In, repeat_spec in Hx. done.
  - rewrite list.Forall_forall in Hr. by destruct (Hr _ Hx).
Qed.

(** A relative path is cleaned to its [..] and its plain elements. *)
Lemma Clean_relative p : HasPrefix p "/" = false ->
  exists n rest, Forall plain rest /\ Clean p = rel_string (repeat ".." n ++ rest) /\
    forall x, x ∈ repeat ".." n ++ rest -> x ∈ split_byte "/" p.
Proof.
  intros Hp. unfold Clean. destruct (String.eqb p "") eqn:He.
  - exists 0%nat, []. split; [done|]. split; [done|]. by intros x ?%elem_of_nil.
  - rewrite Hp. destruct (clean_segments_rel (split_byte "/" p)) as (n & rest & Hc & Hr); [apply split_byte_pieces|].
    exists n, rest. split; [done|]. split; [rewrite Hc; by destruct (repeat ".." n ++ rest)|]. intros x. rewrite <- Hc. apply clean_segments_in.
Qed.

Lemma Clean_rel_id n rest : Forall plain rest ->
  Clean (rel_string (repeat ".." n ++ rest)) = rel_string (repeat ".." n ++ rest).
Proof.
  intros Hr. pose proof (rel_no_empty n rest Hr) as Hne. unfold Clean.
  destruct (String.eqb (rel_string (repeat ".." n ++ rest)) "") eqn:He;
    [apply String.eqb_eq in He; rewrite He in Hne; exfalso; apply Hne; left|].
  rewrite no_empty_head by done. rewrite split_rel_string by done. pose proof (clean_rel_id n rest Hr) as Hid.
  destruct (repeat ".." n ++ rest) as [|x l]; [done|]. by rewrite Hid.
Qed.

(** ** Rooted paths of names *)

Lemma plain_kept p : Forall plain p -> List.filter kept p = p.
Proof.
  induction 1 as [|x p (H1 & H2 & _) Hp IH]; [done|]. cbn. unfold kept at 1.
  by rewrite (proj2 (String.eqb_neq _ _) H1), (proj2 (String.eqb_neq _ _) H2), IH.
Qed.

Lemma plain_dotdot p : Forall plain p -> ".." ∉ p.
Proof. intros Hp Hin. rewrite list.Forall_forall in Hp. by destruct (Hp _ Hin) as (_ & _ & ? & _). Qed.

Lemma split_path_string p : Forall plain p ->
  split_byte "/" (String.concat "/" p) = match p with [] => [""] | _ => p end.
Proof. intros Hp. destruct p as [|x p]; [done|]. by apply (split_byte_concat "/"); [|apply plain_pieces]. Qed.

(** The elements of a path. *)
Definition key_segs (q : string) : list string := List.filter kept (split_byte "/" q).

Lemma Join_base b q : Forall plain b -> q <> "" -> ".." ∉ split_byte "/" q ->
  Join [path_string b; q] = path_string (b ++ key_segs q).
Proof.
  intros Hb Hq Hd. unfold path_string at 1. cbn [String.append Join]. destruct q as [|c q]; [done|]. set (s := String c q) in *.
  change (String.concat "/" [String "/" (String.concat "/" b); s]) with (String "/" (String.concat "/" b +:+ String "/" s)).
  unfold Clean. cbn [String.eqb]. change (HasPrefix (String "/" ?x) "/") with true. cbv iota. cbn [str_drop].
  rewrite split_byte_sep, clean_no_dotdot, List.filter_app.
  - unfold path_string, key_segs. do 3 f_equal. rewrite split_path_string by done. destruct b; [done|]. by apply plain_kept.
  - intros [Hin|Hin]%elem_of_app; [|done]. rewrite split_path_string in Hin by done. destruct b as [|x b].
    + by apply list_elem_of_singleton in Hin.
    + by apply plain_dotdot in Hin.
Qed.

Lemma concat_app_prefix p q : exists r, String.concat "/" (p ++ q) = String.concat "/" p +:+ r.
Proof.
  induction p as [|x p IH]; [by eexists|]. destruct IH as [r Hr]. destruct p as [|y p].
  - destruct q as [|z q]; cbn [app]; [exists ""; cbn; by rewrite string_app_nil_r|].
    exists (String "/" (String.concat "/" (z :: q))). by rewrite join_cons.
  - cbn [app] in *. rewrite (join_cons x (y :: p ++ q)), (join_cons x (y :: p)) by done. exists r. rewrite Hr.
    apply (string_app_assoc x (String "/" (String.concat "/" (y :: p))) r).
Qed.

Lemma concat_snoc p x : p <> [] -> String.concat "/" (p ++ [x]) = String.concat "/" p +:+ String "/" x.
Proof.
  induction p as [|y p IH]; [done|]. intros _. destruct (decide (p = [])) as [->|Hp]; [done|].
  cbn [app]. rewrite !join_cons, IH by (done || by destruct p). apply (string_app_assoc y (String "/" _)).
Qed.

Lemma path_prefix p q : HasPrefix (path_string (p ++ q)) (path_string p) = true.
Proof.
  apply HasPrefix_spec. destruct (concat_app_prefix p q) as [r Hr]. exists r. unfold path_string. by rewrite Hr, string_app_assoc.
Qed.

(** ** Replacing *)

Lemma ReplaceAll_byte_none c new s : string_has c s = false -> ReplaceAll s (String c "") new = s.
Proof.
  unfold ReplaceAll. induction s as [|d s IH]; [done|]. cbn. intros [Hd Hs]%orb_false_iff.
  rewrite Ascii.eqb_sym, Hd. cbn. by rewrite IH.
Qed.

Lemma ReplaceAll_byte_length c d s : String.length (ReplaceAll s (String c "") (String d "")) = String.length s.
Proof. unfold ReplaceAll. induction s as [|e s IH]; [done|]. cbn. destruct (Ascii.eqb c e); cbn; by rewrite IH. Qed.

Section halve.
Context (c : ascii).
#[local] Abbreviation two := (String c (String c "")).
#[local] Abbreviation one := (String c "").

Lemma replace_double_le s :
  (String.length (replace_from two one 0 s) <= String.length s)%nat /\
  (String.length (replace_from two one 1 s) <= pred (String.length s))%nat.
Proof.
  induction s as [|d s [IH0 IH1]]; [done|]. split; [|cbn; lia]. cbn [replace_from].
  destruct (HasPrefix (String d s) two) eqn:Hp; cbn [String.length]; [|lia].
  change (one +:+ ?x) with (String c x). cbn [String.length Nat.sub]. lia.
Qed.

Lemma replace_double_lt s : Contains s two = true -> (String.length (ReplaceAll s two one) < String.length s)%nat.
Proof.
  unfold ReplaceAll. induction s as [|d s IH]; [done|]. intros H. cbn [Contains] in H. cbn [replace_from].
  destruct (HasPrefix (String d s) two) eqn:Hp.
  - pose proof (proj2 (replace_double_le s)). change (one +:+ ?x) with (String c x). cbn [String.length Nat.sub].
    destruct s as [|e s]; [by cbn in Hp; rewrite andb_false_r in Hp|]. cbn [String.length] in *. lia.
  - cbn [orb] in H. specialize (IH H). cbn [String.length]. lia.
Qed.

Lemma replace_double_nonempty s : s <> "" -> ReplaceAll s two one <> "".
Proof. unfold ReplaceAll. destruct s as [|d s]; [done|]. intros _. cbn [replace_from]. by destruct (HasPrefix (String d s) two). Qed.
End halve.
