(* ===== verification/Url.v ===== *)
(** * Return URLs ([pantry/urlutil/urlutil.go])

    [SafeReturn] and its variants, over [path.Clean] and the part of [url.Parse]
    that can refuse a path.  [IsValidAbsHTTPURL], which needs all of
    [url.Parse], is not modelled. *)

From S2P Require Import Prelude GoStrings Paths.
#[local] Open Scope list_scope.

(** ** Package [net/url] *)

Definition is_control (c : ascii) : bool := (byte_code c <? 32) || (byte_code c =? 127).
Definition is_hex (c : ascii) : bool :=
  is_digit c || ((65 <=? byte_code c) && (byte_code c <=? 70)) || ((97 <=? byte_code c) && (byte_code c <=? 102)).

(** Every percent sign is followed by two hexadecimal digits. *)
Fixpoint escapes_ok (s : string) : bool :=
  match s with
  | "" => true
  | String c s =>
      if Ascii.eqb c "%" then
        match s with
        | String a (String b _) => is_hex a && is_hex b && escapes_ok s
        | _ => false
        end
      else escapes_ok s
  end.

Definition before (c : ascii) (s : string) : string := match cut_byte c s with Some (a, _) => a | None => s end.
Definition after (c : ascii) (s : string) : string := match cut_byte c s with Some (_, b) => b | None => "" end.

(** [url.Parse] of a string that begins with one slash: it has no scheme and no
    host, and is refused for a control character before the fragment or a broken
    escape in the path or the fragment. *)
Definition Parse_path_ok (s : string) : bool :=
  let u := before "#" s in
  string_forall (fun c => negb (is_control c)) u && escapes_ok (before "?" u) && escapes_ok (after "#" s).

(** ** The package *)

Definition DefaultExcludedPaths : list string := ["/logout"; "/login"].

Definition pathHasSegment (p seg : string) : bool :=
  if String.eqb seg "" then false
  else existsb (fun s => String.eqb s seg) (split_byte "/" (TrimPrefix (Clean p) "/")).

Definition CR : ascii := byte_of_code 13.
Definition LF : ascii := byte_of_code 10.

Definition is_excluded (clean : string) (excluded : list string) : bool :=
  existsb (fun ex => String.eqb clean ex || HasPrefix clean (ex +:+ "?")) excluded.

Definition SafeReturnExcluding (ret badID fallback : string) (excluded : list string) : string :=
  let ret := TrimSpace ret in
  if String.eqb ret "" then fallback
  else if string_has CR ret || string_has LF ret then fallback
  else if string_has "\" ret then fallback
  else if negb (HasPrefix ret "/") || HasPrefix ret "//" then fallback
  else
    let clean := Clean ret in
    if negb (HasPrefix clean "/") then fallback
    else if negb (Parse_path_ok clean) then fallback
    else if negb (String.eqb badID "") && pathHasSegment clean badID then fallback
    else if is_excluded clean excluded then fallback
    else clean.

Definition SafeReturn (ret badID fallback : string) : string :=
  SafeReturnExcluding ret badID fallback DefaultExcludedPaths.

Definition SafeReturnRaw (ret badID fallback : string) : string := SafeReturnExcluding ret badID fallback [].

(** ** Lemmas *)

Lemma pathHasSegment_elem segs seg :
  Forall plain segs -> seg <> "" -> pathHasSegment ("/" +:+ String.concat "/" segs) seg = true <-> seg ∈ segs.
Proof.
  intros Hs Hne. unfold pathHasSegment. rewrite (proj2 (String.eqb_neq _ _) Hne), Clean_join by done.
  change (TrimPrefix ("/" +:+ String.concat "/" segs) "/") with (String.concat "/" segs).
  assert (existsb (fun s => String.eqb s seg) (split_byte "/" (String.concat "/" segs)) = true <-> seg ∈ split_byte "/" (String.concat "/" segs)) as ->.
  { rewrite existsb_exists. setoid_rewrite <- list_elem_of_In. setoid_rewrite String.eqb_eq. naive_solver. }
  destruct (decide (segs = [])) as [->|Hn].
  - cbn. rewrite list_elem_of_singleton. split; [done|]. by intros ?%elem_of_nil.
  - rewrite (split_byte_concat "/"); [done|done|by apply plain_pieces].
Qed.

Lemma is_excluded_spec r excluded :
  is_excluded r excluded = false <-> forall ex, ex ∈ excluded -> r <> ex /\ HasPrefix r (ex +:+ "?") = false.
Proof.
  unfold is_excluded. rewrite <- not_true_iff_false, existsb_exists. setoid_rewrite <- list_elem_of_In. split.
  - intros H ex Hex. split.
    + intros ->. apply H. exists ex. split; [done|]. by rewrite String.eqb_refl.
    + apply not_true_is_false. intros Hp. apply H. exists ex. split; [done|]. by rewrite Hp, orb_true_r.
  - intros H (ex & Hex & He). destruct (H ex Hex) as [Hne Hp]. apply String.eqb_neq in Hne. by rewrite Hne, Hp in He.
Qed.

(** The bytes of an ordinary path element. *)
Definition ordinary (c : ascii) : bool :=
  is_digit c || is_upper c || is_lower c || Ascii.eqb c "-" || Ascii.eqb c "_" || Ascii.eqb c "." || Ascii.eqb c "~".

Definition path_byte (c : ascii) : bool := ordinary c || Ascii.eqb c "/".

Lemma escapes_none s : string_has "%" s = false -> escapes_ok s = true.
Proof. induction s as [|c s IH]; [done|]. cbn. intros [Hc Hs]%orb_false_iff. rewrite Hc. by apply IH. Qed.

Lemma ordinary_path segs :
  Forall (fun x => string_forall ordinary x = true) segs -> string_forall path_byte ("/" +:+ String.concat "/" segs) = true.
Proof.
  intros Hs. change (path_byte "/" && string_forall path_byte (String.concat "/" segs) = true).
  assert (forall x, string_forall ordinary x = true -> string_forall path_byte x = true) as Hord.
  { intros x. apply string_forall_impl. intros c Hc. unfold path_byte. by rewrite Hc. }
  change (path_byte "/") with true. cbn [andb].
  induction Hs as [|x l Hx Hs IH]; [done|]. destruct (decide (l = [])) as [->|Hl]; [by apply Hord|].
  rewrite join_cons, string_forall_app, (Hord x Hx) by done. exact IH.
Qed.

Lemma path_byte_clean c : path_byte c = true -> negb (is_space c) && negb (is_control c) = true.
Proof.
  intros Hc. pose proof (ascii_forall (fun c => negb (path_byte c) || negb (is_space c) && negb (is_control c))) as H.
  specialize (H eq_refl c). cbv beta in H. by rewrite Hc in H.
Qed.

Lemma cut_none c s : string_has c s = false -> before c s = s /\ after c s = "".
Proof. intros H%cut_byte_none. unfold before, after. by rewrite H. Qed.

Lemma parse_ordinary p : string_forall path_byte p = true -> Parse_path_ok p = true.
Proof.
  intros Hp. unfold Parse_path_ok.
  destruct (cut_none "#" p) as [-> ->]; [by eapply string_forall_has|].
  destruct (cut_none "?" p) as [-> _]; [by eapply string_forall_has|].
  rewrite (escapes_none p) by (by eapply string_forall_has). rewrite !andb_true_r.
  eapply string_forall_impl; [|exact Hp]. intros c Hc%path_byte_clean. by apply andb_prop in Hc as [_ ?].
Qed.

(** ** Theorems *)

(** What [SafeReturn] accepts is safe to redirect to: it is the fallback, or a
    path from the root on this host, without empty, [.] or [..] elements, that
    does not begin with two slashes, has no line break, backslash or control
    character that could leave the header, names no element that is the bad
    identifier, and neither is an excluded path nor continues one with a query. *)
Theorem SafeReturn_safe ret badID fallback excluded :
  let r := SafeReturnExcluding ret badID fallback excluded in
  r = fallback \/
  exists segs,
    r = "/" +:+ String.concat "/" segs /\ Forall plain segs /\ HasPrefix r "//" = false /\
    string_has CR r = false /\ string_has LF r = false /\ string_has "\" r = false /\
    (forall c, is_control c = true -> string_has c (before "#" r) = false) /\
    (badID <> "" -> (badID ∉ segs)) /\
    (forall ex, ex ∈ excluded -> r <> ex /\ HasPrefix r (ex +:+ "?") = false).
Proof.
  unfold SafeReturnExcluding. set (t := TrimSpace ret).
  destruct (String.eqb t ""); [by left|].
  destruct (string_has CR t || string_has LF t) eqn:Hcr; [by left|]. apply orb_false_iff in Hcr as [Hcr Hlf].
  destruct (string_has "\" t) eqn:Hbs; [by left|].
  destruct (negb (HasPrefix t "/") || HasPrefix t "//") eqn:Hp; [by left|].
  apply orb_false_iff in Hp as [Hp _]. apply negb_false_iff in Hp.
  destruct (negb (HasPrefix (Clean t) "/")); [by left|]. destruct (Parse_path_ok (Clean t)) eqn:Hparse; [|by left]. cbn [negb].
  destruct (negb (String.eqb badID "") && pathHasSegment (Clean t) badID) eqn:Hid; [by left|].
  destruct (is_excluded (Clean t) excluded) eqn:Hex; [by left|]. right.
  destruct (Clean_rooted t Hp) as (segs & Hs & Hc & _). exists segs.
  split; [done|]. split; [done|]. split; [rewrite Hc; by apply no_double_slash|].
  split; [by apply Clean_has|]. split; [by apply Clean_has|]. split; [by apply Clean_has|]. split; [|split].
  - intros c Hctl. unfold Parse_path_ok in Hparse. apply andb_prop in Hparse as [Hparse _].
    apply andb_prop in Hparse as [Hparse _]. by eapply string_forall_has; [exact Hparse|cbn; rewrite Hctl].
  - intros Hne Hin. rewrite Hc in Hid. apply (pathHasSegment_elem segs badID Hs Hne) in Hin.
    rewrite Hin, (proj2 (String.eqb_neq _ _) Hne) in Hid. done.
  - by apply is_excluded_spec.
Qed.

(** An ordinary path is not turned away or changed: elements of letters, digits
    and [-_.~] are returned as they are, unless one is the bad identifier or the
    path is excluded. *)
Theorem SafeReturn_keeps segs badID fallback excluded :
  Forall plain segs -> Forall (fun x => string_forall ordinary x = true) segs ->
  (badID ∉ segs) -> (("/" +:+ String.concat "/" segs) ∉ excluded) ->
  SafeReturnExcluding ("/" +:+ String.concat "/" segs) badID fallback excluded = "/" +:+ String.concat "/" segs.
Proof.
  intros Hs Hord Hid Hex. set (p := "/" +:+ String.concat "/" segs) in *.
  pose proof (ordinary_path segs Hord) as Hp. fold p in Hp.
  assert (forall c, path_byte c = false -> string_has c p = false) as Hno by (intros c; by apply string_forall_has).
  unfold SafeReturnExcluding. rewrite TrimSpace_no_space.
  2: { rewrite no_space_forall. eapply string_forall_impl; [|exact Hp].
       intros c Hc%path_byte_clean. by apply andb_prop in Hc as [? _]. }
  rewrite !Hno by done. change (String.eqb p "") with false. change (HasPrefix p "/") with true.
  rewrite (no_double_slash segs Hs : HasPrefix p "//" = false). cbn [negb orb].
  rewrite (Clean_join segs Hs : Clean p = p). change (HasPrefix p "/") with true.
  rewrite (parse_ordinary p Hp). cbn [negb].
  assert (negb (String.eqb badID "") && pathHasSegment p badID = false) as ->.
  { destruct (String.eqb badID "") eqn:He; [done|]. apply String.eqb_neq in He. cbn [negb andb].
    apply not_true_is_false. by intros ?%(pathHasSegment_elem segs badID Hs He). }
  assert (is_excluded p excluded = false) as ->; [|done].
  apply is_excluded_spec. intros ex Hin. split; [by intros ->|].
  apply not_true_is_false. intros [r Hr]%HasPrefix_spec. specialize (Hno "?"%char eq_refl).
  rewrite Hr, !string_has_app in Hno. apply orb_false_iff in Hno as [Hno _]. apply orb_false_iff in Hno as [_ Hno]. done.
Qed.

Lemma SafeReturn_keeps_witness :
  SafeReturn "/items/5/edit" "6" "/" = "/items/5/edit" /\ SafeReturn "/items/6/edit" "6" "/" = "/".
Proof.
  split; [|by vm_compute].
  apply (SafeReturn_keeps ["items"; "5"; "edit"] "6" "/" DefaultExcludedPaths).
  - repeat constructor; done.
  - repeat constructor.
  - by apply (bool_decide_unpack _).
  - by apply (bool_decide_unpack _).
Defined.

(** The exclusions are on the text of the path: a fragment, or a space that
    [path.Clean] brings to the end, passes them, and the browser then asks for the
    excluded path; and an element with a query is not the identifier it shows. *)
Theorem exclusions_bypassed fallback :
  SafeReturn "/logout#x" "" fallback = "/logout#x" /\
  SafeReturn "/logout /." "" fallback = "/logout " /\
  SafeReturn "/items/5?tab=1" "5" fallback = "/items/5?tab=1" /\
  SafeReturn "/logout" "" fallback = fallback /\ SafeReturn "/items/5" "5" fallback = fallback.
Proof. by repeat split. Qed.
