(* ===== verification/Utf8.v ===== *)
(** * Runes (package [unicode/utf8])

    A string of bytes as the runes that a [range] loop and [[]rune(s)] see: a byte
    that begins no well-formed encoding is the rune 65533 of width one. *)

From S2P Require Import Prelude GoStrings.
#[local] Open Scope list_scope.

Definition RuneError : Z := 65533.

Definition cont (y : Z) : bool := (128 <=? y) && (y <=? 191).

(** Whether [y] may follow the first byte [x] of two, three or four. *)
Definition starts2 (x y : Z) : bool := (194 <=? x) && (x <=? 223) && cont y.
Definition starts3 (x y : Z) : bool :=
  (224 <=? x) && (x <=? 239) && ((if x =? 224 then 160 else 128) <=? y) && (y <=? (if x =? 237 then 159 else 191)).
Definition starts4 (x y : Z) : bool :=
  (240 <=? x) && (x <=? 244) && ((if x =? 240 then 144 else 128) <=? y) && (y <=? (if x =? 244 then 143 else 191)).

Fixpoint runes (s : string) : list Z :=
  match s with
  | "" => []
  | String a s1 =>
      let x := byte_code a in
      if x <? 128 then x :: runes s1
      else
        match s1 with
        | "" => RuneError :: runes s1
        | String b s2 =>
            let y := byte_code b in
            if starts2 x y then (64 * (x - 192) + (y - 128)) :: runes s2
            else
              match s2 with
              | "" => RuneError :: runes s1
              | String c s3 =>
                  let z := byte_code c in
                  if starts3 x y && cont z then (4096 * (x - 224) + 64 * (y - 128) + (z - 128)) :: runes s3
                  else
                    match s3 with
                    | "" => RuneError :: runes s1
                    | String d s4 =>
                        let w := byte_code d in
                        if starts4 x y && cont z && cont w
                        then (262144 * (x - 240) + 4096 * (y - 128) + 64 * (z - 128) + (w - 128)) :: runes s4
                        else RuneError :: runes s1
                    end
              end
        end
  end.

Definition rune_count (s : string) : Z := Z.of_nat (length (runes s)).

(** ** Encoding *)

Definition valid_rune (r : Z) : bool :=
  ((0 <=? r) && (r <? 55296)) || ((57344 <=? r) && (r <=? 1114111)).

(** [string(r)] for one rune. *)
Definition encode (r : Z) : string :=
  if negb (valid_rune r) then
    String (byte_of_code 239) (String (byte_of_code 191) (String (byte_of_code 189) ""))
  else if r <? 128 then String (byte_of_code r) ""
  else if r <? 2048 then
    String (byte_of_code (192 + r / 64)) (String (byte_of_code (128 + r mod 64)) "")
  else if r <? 65536 then
    String (byte_of_code (224 + r / 4096)) (String (byte_of_code (128 + r / 64 mod 64)) (String (byte_of_code (128 + r mod 64)) ""))
  else
    String (byte_of_code (240 + r / 262144)) (String (byte_of_code (128 + r / 4096 mod 64))
      (String (byte_of_code (128 + r / 64 mod 64)) (String (byte_of_code (128 + r mod 64)) ""))).

Definition string_of_runes (l : list Z) : string := String.concat "" (map encode l).

(** ** Lemmas *)

Definition is_ascii (c : ascii) : bool := byte_code c <? 128.

Lemma runes_ascii_cons c s : is_ascii c = true -> runes (String c s) = byte_code c :: runes s.
Proof. unfold is_ascii. intros Hc. cbn [runes]. by rewrite Hc. Qed.

(** On ASCII strings a rune is a byte. *)
Lemma runes_ascii s : string_forall is_ascii s = true -> runes s = map byte_code (String.list_ascii_of_string s).
Proof.
  induction s as [|c s IH]; [done|]. cbn [string_forall]. intros [Hc Hs]%andb_prop.
  rewrite runes_ascii_cons, IH by done. done.
Qed.

Lemma rune_count_ascii s : string_forall is_ascii s = true -> rune_count s = Z.of_nat (String.length s).
Proof.
  intros Hs. unfold rune_count. rewrite runes_ascii, length_map by done. f_equal. clear Hs.
  induction s as [|c s IH]; cbn; auto.
Qed.

(** A byte outside ASCII begins a rune outside ASCII. *)
Lemma runes_other_cons c s : is_ascii c = false -> exists r l, runes (String c s) = r :: l /\ 128 <= r.
Proof.
  unfold is_ascii. intros Hc. cbn [runes]. rewrite Hc. apply Z.ltb_ge in Hc.
  assert (forall l, exists r k, RuneError :: l = r :: k /\ 128 <= r) as Herr by (intros l; by exists RuneError, l).
  destruct s as [|b s]; [apply Herr|].
  destruct (starts2 (byte_code c) (byte_code b)) eqn:H2.
  { unfold starts2, cont in H2. eexists _, _. split; [done|]. lia. }
  destruct s as [|d s]; [apply Herr|].
  destruct (starts3 (byte_code c) (byte_code b) && cont (byte_code d)) eqn:H3.
  { unfold starts3, cont in H3. eexists _, _. split; [done|].
    destruct (byte_code c =? 224) eqn:?, (byte_code c =? 237) eqn:?; lia. }
  destruct s as [|e s]; [apply Herr|].
  destruct (starts4 (byte_code c) (byte_code b) && cont (byte_code d) && cont (byte_code e)) eqn:H4; [|apply Herr].
  unfold starts4, cont in H4. eexists _, _. split; [done|].
  destruct (byte_code c =? 240) eqn:?, (byte_code c =? 244) eqn:?; lia.
Qed.

(** A test of runes that holds of ASCII only is a test of bytes. *)
Lemma forallb_runes p s :
  (forall r, p r = true -> r < 128) -> forallb p (runes s) = string_forall (fun c => p (byte_code c)) s.
Proof.
  intros Hp. induction s as [|c s IH]; [done|]. cbn [string_forall]. destruct (is_ascii c) eqn:Hc.
  - rewrite runes_ascii_cons by done. cbn [forallb]. by rewrite IH.
  - destruct (runes_other_cons c s Hc) as (r & l & -> & Hr). cbn [forallb]. unfold is_ascii in Hc. apply Z.ltb_ge in Hc.
    assert (p r = false) as -> by (apply not_true_is_false; intros ?%Hp; lia).
    assert (p (byte_code c) = false) as -> by (apply not_true_is_false; intros ?%Hp; lia). done.
Qed.

(** Encoded runes decode. *)
Lemma runes_encode r s : valid_rune r = true -> runes (encode r +:+ s) = r :: runes s.
Proof.
  intros Hv. unfold encode. rewrite Hv. cbn [negb]. unfold valid_rune in Hv.
  destruct (r <? 128) eqn:Hr1.
  { cbn [String.append]. rewrite runes_ascii_cons, byte_code_of_code; unfold is_ascii; rewrite ?byte_code_of_code; lia || done. }
  destruct (r <? 2048) eqn:Hr2.
  { pose proof (Z.div_mod r 64 ltac:(lia)). pose proof (Z.mod_pos_bound r 64 ltac:(lia)).
    cbn [String.append runes]. rewrite !byte_code_of_code by lia.
    rewrite (proj2 (Z.ltb_ge _ _)) by lia.
    assert (starts2 (192 + r / 64) (128 + r mod 64) = true) as -> by (unfold starts2, cont; lia). f_equal. lia. }
  pose proof (Z.div_mod r 64 ltac:(lia)). pose proof (Z.mod_pos_bound r 64 ltac:(lia)).
  pose proof (Z.div_mod (r / 64) 64 ltac:(lia)) as Hd. pose proof (Z.mod_pos_bound (r / 64) 64 ltac:(lia)).
  rewrite Zdiv.Zdiv_Zdiv in Hd by lia. change (64 * 64) with 4096 in Hd.
  destruct (r <? 65536) eqn:Hr3.
  { cbn [String.append runes]. rewrite !byte_code_of_code by lia.
    rewrite (proj2 (Z.ltb_ge _ _)) by lia.
    assert (starts2 (224 + r / 4096) (128 + r / 64 mod 64) = false) as -> by (unfold starts2; lia).
    assert (starts3 (224 + r / 4096) (128 + r / 64 mod 64) && cont (128 + r mod 64) = true) as ->.
    { unfold starts3, cont. destruct (224 + r / 4096 =? 224) eqn:?, (224 + r / 4096 =? 237) eqn:?; lia. }
    f_equal. lia. }
  pose proof (Z.div_mod (r / 4096) 64 ltac:(lia)) as He. pose proof (Z.mod_pos_bound (r / 4096) 64 ltac:(lia)).
  rewrite Zdiv.Zdiv_Zdiv in He by lia. change (4096 * 64) with 262144 in He.
  cbn [String.append runes]. rewrite !byte_code_of_code by lia.
  rewrite (proj2 (Z.ltb_ge _ _)) by lia.
  assert (starts2 (240 + r / 262144) (128 + r / 4096 mod 64) = false) as -> by (unfold starts2; lia).
  assert (starts3 (240 + r / 262144) (128 + r / 4096 mod 64) = false) as -> by (unfold starts3; lia). cbn [andb].
  assert (starts4 (240 + r / 262144) (128 + r / 4096 mod 64) && cont (128 + r / 64 mod 64) && cont (128 + r mod 64) = true) as ->.
  { unfold starts4, cont. destruct (240 + r / 262144 =? 240) eqn:?, (240 + r / 262144 =? 244) eqn:?; lia. }
  f_equal. lia.
Qed.

Lemma runes_string_of_runes l : Forall (fun r => valid_rune r = true) l -> runes (string_of_runes l) = l.
Proof.
  unfold string_of_runes. induction 1 as [|r l Hr Hl IH]; [done|]. cbn [map].
  destruct l as [|x l].
  - cbn [String.concat map]. rewrite <- (string_app_nil_r (encode r)), runes_encode by done. done.
  - change (String.concat "" (encode r :: map encode (x :: l))) with (encode r +:+ ("" +:+ String.concat "" (map encode (x :: l)))).
    cbn [String.append]. rewrite runes_encode by done. by rewrite IH.
Qed.

(** The bytes of a string, as numbers. *)
Definition codes (s : string) : list Z := map byte_code (String.list_ascii_of_string s).

(** A test that does not tell the runes outside ASCII apart can be made on bytes. *)
Lemma runes_exists (f : Z -> bool) b s :
  (forall r, 128 <= r -> f r = b) -> existsb f (runes s) = existsb f (codes s).
Proof.
  intros Hf. remember (String.length s) as n eqn:Hn. revert s Hn. induction (Nat.lt_wf_0 n) as [n _ IH]. intros s ->.
  assert (Hrec : forall t, (String.length t < String.length s)%nat -> existsb f (runes t) = existsb f (codes t)) by (intros t Ht; by eapply IH).
  clear IH. destruct s as [|a s1]; [done|]. cbn [runes codes map String.list_ascii_of_string existsb]. fold (codes s1).
  destruct (Z.ltb_spec (byte_code a) 128) as [Ha|Ha]; [cbn [existsb]; by rewrite Hrec by (cbn; lia)|].
  assert (Herr : existsb f (RuneError :: runes s1) = f (byte_code a) || existsb f (codes s1)).
  { cbn [existsb]. rewrite Hrec by (cbn; lia). by rewrite !Hf by (unfold RuneError; lia). }
  destruct s1 as [|b1 s2]; [exact Herr|].
  destruct (starts2 (byte_code a) (byte_code b1)) eqn:H2.
  { unfold starts2, cont in H2. cbn [existsb codes map String.list_ascii_of_string]. fold (codes s2). rewrite Hrec by (cbn; lia).
    rewrite !(Hf _) by lia. by destruct b. }
  destruct s2 as [|d s3]; [exact Herr|].
  destruct (starts3 (byte_code a) (byte_code b1) && cont (byte_code d)) eqn:H3.
  { unfold starts3, cont in H3. cbn [existsb codes map String.list_ascii_of_string]. fold (codes s3). rewrite Hrec by (cbn; lia).
    assert (128 <= byte_code b1) by (destruct (byte_code a =? 224); lia).
    rewrite !(Hf _) by (destruct (byte_code a =? 224) eqn:?, (byte_code a =? 237) eqn:?; lia). by destruct b. }
  destruct s3 as [|e s4]; [exact Herr|].
  destruct (starts4 (byte_code a) (byte_code b1) && cont (byte_code d) && cont (byte_code e)) eqn:H4; [|exact Herr].
  unfold starts4, cont in H4. cbn [existsb codes map String.list_ascii_of_string]. fold (codes s4). rewrite Hrec by (cbn; lia).
  assert (128 <= byte_code b1) by (destruct (byte_code a =? 240); lia).
  rewrite !(Hf _) by (destruct (byte_code a =? 240) eqn:?, (byte_code a =? 244) eqn:?; lia). by destruct b.
Qed.

(** A byte of ASCII is one of the runes. *)
Lemma runes_has c s : is_ascii c = true -> string_has c s = true -> byte_code c ∈ runes s.
Proof.
  intros Hc Hs. assert (existsb (Z.eqb (byte_code c)) (runes s) = true) as H.
  { unfold is_ascii in Hc. rewrite (runes_exists _ false) by (intros; lia). unfold codes. revert Hs.
    induction s as [|d s IH]; [done|]. cbn. intros [H|H]%orb_prop; [|rewrite IH by done; by rewrite orb_true_r].
    apply Ascii.eqb_eq in H as ->. by rewrite Z.eqb_refl. }
  apply existsb_exists in H as (r & Hr & He%Z.eqb_eq). subst. by apply list_elem_of_In.
Qed.
