(* ===== verification/HttpRetry.v ===== *)
(** * Retries of HTTP requests ([pantry/retry/http.go])

    [Transport.RoundTrip] over the surroundings of [Retry]: the configuration is
    that of the retry loops with the part for HTTP, but for [OnRetry], which here
    may be given no error and is the argument [hook].  The transport below and the
    closing of a response act on the world.  A body is a stream, what is left to be
    read of it: the transport below reads as much as it likes, and the body of the
    request is what it leaves.  [sent] is not in the code: the bodies as they were
    when the requests were made, in order.  [None] is a run out of fuel. *)

From stdpp Require Import list numbers strings.
From S2P Require Import Prelude Float64 GoStrings Utf8 Retry.

#[local] Open Scope list_scope.

Record Response := mkResponse { StatusCode : Z; RetryAfterHeader : string }.

Definition default_codes : list Z := [429; 500; 502; 503; 504].

Section http.
Context {E W : Type}.

Record HTTPConfig := mkHTTPConfig {
  base_config : Config E W;
  RetryStatusCodes : list Z;
  RetryOnConnectionError : bool;
  RespectRetryAfter : bool;
  MaxRetryAfter : Duration
}.

(** What is left to be read, and the error that reading meets then, if any. *)
Record Stream := mkStream { bytes_left : string; read_error : option E }.

(** [io.ReadAll]. *)
Definition ReadAll (b : Stream) : result E string :=
  match read_error b with Some e => Err e | None => Ok (bytes_left b) end.

(** A request: its body, [None] where there is none, and what [GetBody] gives,
    [None] where that is nil. *)
Record Request := mkRequest { rq_body : option Stream; rq_GetBody : option (result E Stream) }.

Definition DefaultHTTPConfig : HTTPConfig := mkHTTPConfig DefaultConfig default_codes true true (5 * Minute).

(** ** [Retry-After] *)

(** The loop over the digits: the count wraps around, and anything else ends it. *)
Fixpoint scan_seconds (rs : list Z) (seconds : Z) : option Z :=
  match rs with
  | [] => Some seconds
  | c :: rs => if (48 <=? c) && (c <=? 57) then scan_seconds rs (int_add (int_mul seconds 10) (c - 48)) else None
  end.

(** [date]: [time.Parse] in RFC 1123; [now]: the time [time.Until] reads. *)
Definition parseRetryAfter (date : string -> option Time) (now : Time) (value : string) : Duration :=
  if String.eqb value "" then 0
  else
    match date value with
    | None => match scan_seconds (runes value) 0 with Some s => int_mul s Second | None => 0 end
    | Some t => let delay := time_Sub t now in if delay <? 0 then 0 else delay
    end.

Definition shouldRetryStatus (status : Z) (codes : list Z) : bool := existsb (Z.eqb status) codes.

Definition IsRetryableStatus (status : Z) : bool := existsb (Z.eqb status) default_codes.

(** ** The loop *)

Context (env : Env (E := E) (W := W)) (date : string -> option Time) (Now : W -> Time).
(** The transport below, which also answers what it leaves of the body, and closing
    the body of a response. *)
Context (base : option Stream -> W -> W * option Stream * result E Response) (close : Response -> W -> W).

Definition normal (cfg : HTTPConfig) : HTTPConfig :=
  mkHTTPConfig (if MaxAttempts (base_config cfg) <=? 0 then DefaultConfig else base_config cfg)
    (match RetryStatusCodes cfg with [] => default_codes | codes => codes end)
    (RetryOnConnectionError cfg) (RespectRetryAfter cfg)
    (if MaxRetryAfter cfg <=? 0 then 5 * Minute else MaxRetryAfter cfg).

(** The delay before the next attempt, after an answer. *)
Definition http_delay (cfg : HTTPConfig) (delay : Duration) (resp : option Response) (w : W) : W * Duration :=
  let '(w, actual) := addJitter env delay (Jitter (base_config cfg)) w in
  match resp with
  | Some r =>
      if RespectRetryAfter cfg then
        let retryAfter := parseRetryAfter date (Now w) (RetryAfterHeader r) in
        (w, if 0 <? retryAfter then (if MaxRetryAfter cfg <? retryAfter then MaxRetryAfter cfg else retryAfter) else actual)
      else (w, actual)
  | None => (w, actual)
  end.

Definition call_hook (cfg : HTTPConfig) (hook : option (Z -> option E -> Duration -> W -> W)) (attempt : Z) (err : option E) (d : Duration) (w : W) : W :=
  match hook with Some f => f attempt err d w | None => w end.

Definition split_answer (r : result E Response) : option Response * option E :=
  match r with Ok x => (Some x, None) | Err e => (None, Some e) end.

Definition close_opt (r : option Response) (w : W) : W := match r with Some r => close r w | None => w end.

(** The body for an attempt: from the second on it is reset, where there is
    [GetBody]; otherwise it is what the last attempt left. *)
Definition attempt_body (getBody : option (result E Stream)) (attempt : Z) (body : option Stream) : result E (option Stream) :=
  if 1 <? attempt then
    match getBody with
    | Some (Ok b) => Ok (Some b)
    | Some (Err e) => Err e
    | None => Ok body
    end
  else Ok body.

Fixpoint http_loop (fuel : nat) (cfg : HTTPConfig) (hook : option (Z -> option E -> Duration -> W -> W))
    (getBody : option (result E Stream)) (body : option Stream)
    (attempt : Z) (lastResp : option Response) (lastErr : option E) (delay : Duration) (sent : list (option Stream)) (w : W)
  : option (W * option Response * option E * list (option Stream)) :=
  match fuel with
  | O => None
  | S fuel =>
    if attempt <=? MaxAttempts (base_config cfg) then
      match ctx_Err env w with
      | Some e => Some (w, None, match lastErr with Some l => Some l | None => Some e end, sent)
      | None =>
        match attempt_body getBody attempt body with
        | Err e => Some (w, None, Some e, sent)
        | Ok body =>
          let sent := sent ++ [body] in
          let '(w, body, answer) := base body w in
          let '(resp, err) := split_answer answer in
          let retry := match resp with Some r => shouldRetryStatus (StatusCode r) (RetryStatusCodes cfg) | None => true end in
          if negb retry then Some (w, resp, None, sent)
          else
            let w := close_opt lastResp w in
            if match err with Some _ => negb (RetryOnConnectionError cfg) | None => false end then Some (w, None, err, sent)
            else if MaxAttempts (base_config cfg) <=? attempt then Some (w, resp, err, sent)
            else
              let '(w, actual) := http_delay cfg delay resp w in
              let w := close_opt resp w in
              let w := call_hook cfg hook attempt err actual w in
              match wait_retry env actual w with
              | (w, true) => Some (w, None, match err with Some e => Some e | None => ctx_Err env w end, sent)
              | (w, false) =>
                  http_loop fuel cfg hook getBody body (attempt + 1) resp err
                    (nextDelay env (base_config cfg) delay) sent w
              end
        end
      end
    else Some (w, lastResp, match lastResp with Some _ => None | None => lastErr end, sent)
  end.

Definition RoundTrip (cfg : HTTPConfig) (hook : option (Z -> option E -> Duration -> W -> W)) (req : Request) (w : W)
  : option (W * option Response * option E * list (option Stream)) :=
  let cfg := normal cfg in
  let run body getBody := http_loop (S (Z.to_nat (MaxAttempts (base_config cfg)))) cfg hook getBody body 1 None None
                            (InitialDelay (base_config cfg)) [] w in
  match rq_body req, rq_GetBody req with
  | Some body, None =>
      match ReadAll body with
      | Err e => Some (w, None, Some e, [])
      | Ok bodyBytes => let fresh := mkStream bodyBytes None in run (Some fresh) (Some (Ok fresh))
      end
  | body, getBody => run body getBody
  end.

(** ** Lemmas *)

Lemma normal_attempts cfg : 1 <= MaxAttempts (base_config (normal cfg)).
Proof. unfold normal. cbn. destruct (Z.leb_spec (MaxAttempts (base_config cfg)) 0); [by cbn|lia]. Qed.

(** What the loop ends with, from attempt [attempt] on: [body] is sent each time. *)
Definition http_outcome (cfg : HTTPConfig) (body : option Stream) (attempt : Z)
    (sent0 : list (option Stream)) (o : option (W * option Response * option E * list (option Stream))) : Prop :=
  exists w resp err sent, o = Some (w, resp, err, sent0 ++ sent) /\
    Z.of_nat (length sent) <= MaxAttempts (base_config cfg) - attempt + 1 /\ Forall (fun b => b = body) sent /\
    (forall r, resp = Some r -> err = None /\
       (shouldRetryStatus (StatusCode r) (RetryStatusCodes cfg) = false \/ Z.of_nat (length sent) = MaxAttempts (base_config cfg) - attempt + 1)).

(** The body of every attempt is [body]: the first one's is, and [GetBody] gives
    it, or there is none at all. *)
Lemma http_loop_outcome fuel cfg hook body getBody now_body attempt lastResp lastErr delay sent w :
  1 <= attempt <= MaxAttempts (base_config cfg) -> (Z.to_nat (MaxAttempts (base_config cfg) - attempt) < fuel)%nat ->
  (attempt = 1 -> now_body = body) ->
  match getBody with
  | Some (Ok b) => body = Some b
  | Some (Err _) => True
  | None => now_body = None /\ body = None /\ forall w, (base None w).1.2 = None
  end ->
  http_outcome cfg body attempt sent (http_loop fuel cfg hook getBody now_body attempt lastResp lastErr delay sent w).
Proof.
  revert now_body attempt lastResp lastErr delay sent w.
  induction fuel as [|fuel IH]; intros now_body attempt lastResp lastErr delay sent w Ha Hf H1 Hg; [lia|]. cbn [http_loop].
  rewrite (proj2 (Z.leb_le _ _)) by lia.
  assert (Hnone : forall w err, http_outcome cfg body attempt sent (Some (w, None, err, sent))).
  { intros w' err. exists w', None, err, []. rewrite app_nil_r. split; [done|]. split; [cbn; lia|]. split; [constructor|done]. }
  destruct (ctx_Err env w) as [e|]; [apply Hnone|].
  assert (Hb : attempt_body getBody attempt now_body = Ok body \/ exists e, attempt_body getBody attempt now_body = Err e).
  { unfold attempt_body. destruct (Z.ltb_spec 1 attempt); [|left; by rewrite H1 by lia]. destruct getBody as [[b|e]|]; [left; by rewrite Hg|right; eauto|].
    left. by destruct Hg as (-> & -> & _). }
  destruct Hb as [-> | [e ->]]; [|apply Hnone].
  destruct (base body w) as [[w1 left_body] answer] eqn:Hbase. destruct (split_answer answer) as [resp err] eqn:Hs.
  assert (Hone : forall w resp err, (forall r, resp = Some r -> err = None /\
      (shouldRetryStatus (StatusCode r) (RetryStatusCodes cfg) = false \/ attempt = MaxAttempts (base_config cfg))) ->
      http_outcome cfg body attempt sent (Some (w, resp, err, sent ++ [body]))).
  { intros w' r' e' Hr. exists w', r', e', [body]. split; [done|]. split; [cbn; lia|]. split; [by repeat constructor|].
    intros r Er. destruct (Hr r Er) as [Hr1 Hr2]. split; [done|]. destruct Hr2 as [Hr2|Hr2]; [by left|right; cbn; lia]. }
  destruct (match resp with Some r => _ | None => true end) eqn:Hretry; cbn [negb].
  2:{ apply Hone. intros r ->. split; [done|by left]. }
  destruct (match err with Some _ => _ | None => false end); [by apply Hone|].
  destruct (Z.leb_spec (MaxAttempts (base_config cfg)) attempt).
  { apply Hone. intros r ->. split; [destruct answer; cbn in Hs; congruence|]. right. lia. }
  destruct (http_delay cfg delay resp _) as [w2 actual]. destruct (wait_retry env actual _) as [w3 []]; [by apply Hone|].
  destruct (IH left_body (attempt + 1) resp err (nextDelay env (base_config cfg) delay) (sent ++ [body]) w3 ltac:(lia) ltac:(lia) ltac:(lia))
    as (w4 & r4 & e4 & s4 & -> & Hl & Hfa & Hr).
  { destruct getBody as [[b|e]|]; [done|done|]. destruct Hg as (_ & -> & Hn). split; [|done]. specialize (Hn w). by rewrite Hbase in Hn. }
  exists w4, r4, e4, (body :: s4).
  split; [by rewrite <- app_assoc|]. split; [cbn [length]; lia|]. split; [by constructor|].
  intros r Er. destruct (Hr r Er) as [Hr1 Hr2]. split; [done|]. destruct Hr2; [by left|right; cbn [length]; lia].
Qed.

Lemma scan_seconds_codes s acc z :
  parse_digits s acc = Some z -> 0 <= acc -> in_int64 z = true -> scan_seconds (map byte_code (String.list_ascii_of_string s)) acc = Some z.
Proof.
  revert acc. induction s as [|c s IH]; intros acc H Ha Hz; [cbn in *; congruence|].
  cbn [parse_digits] in H. cbn [String.list_ascii_of_string map scan_seconds].
  change ((48 <=? byte_code c) && (byte_code c <=? 57)) with (is_digit c). destruct (is_digit c) eqn:Hd; [|done].
  assert (Hmono : acc * 10 + (byte_code c - 48) <= z).
  { clear IH. unfold is_digit in Hd. assert (0 <= acc * 10 + (byte_code c - 48)) by lia. revert H H0. generalize (acc * 10 + (byte_code c - 48)). clear.
    induction s as [|d s IH]; intros a H Ha; [cbn in H; injection H; lia|]. cbn [parse_digits] in H.
    destruct (is_digit d) eqn:Hd; [|done]. unfold is_digit in Hd. apply IH in H; lia. }
  unfold is_digit in Hd. unfold in_int64, min_int64, max_int64 in Hz.
  assert (Ew : int_add (int_mul acc 10) (byte_code c - 48) = acc * 10 + (byte_code c - 48)).
  { unfold int_add, int_mul. rewrite !wrap64_id; [done|..]; unfold in_int64, min_int64, max_int64; try lia.
    rewrite wrap64_id; unfold in_int64, min_int64, max_int64; lia. }
  rewrite Ew. apply IH; [done|lia|]. unfold in_int64, min_int64, max_int64. lia.
Qed.

(** ** Theorems *)

(** C32. A request always ends, after at most [MaxAttempts] requests to the transport
    (three when the configuration has no positive number); and it gives a response
    only when its status is not one to retry or no attempt is left.  However much of
    the body the transport reads each time, every attempt starts with the whole body
    of the request, as long as its [GetBody], where it has one, gives that. *)
Theorem RoundTrip_total cfg hook req w :
  (forall w, (base None w).1.2 = None) ->
  (forall g, rq_GetBody req = Some g -> exists b, rq_body req = Some b /\ match g with Ok b' => b' = b | Err _ => True end) ->
  exists w' resp err sent, RoundTrip cfg hook req w = Some (w', resp, err, sent) /\
    Z.of_nat (length sent) <= MaxAttempts (base_config (normal cfg)) /\ Forall (fun b => b = rq_body req) sent /\
    (forall r, resp = Some r -> err = None /\
       (shouldRetryStatus (StatusCode r) (RetryStatusCodes (normal cfg)) = false \/
        Z.of_nat (length sent) = MaxAttempts (base_config (normal cfg)))).
Proof.
  intros Hbase Hg. pose proof (normal_attempts cfg) as Hn.
  assert (Hout : forall o, http_outcome (normal cfg) (rq_body req) 1 [] o -> exists w' resp err sent, o = Some (w', resp, err, sent) /\
    Z.of_nat (length sent) <= MaxAttempts (base_config (normal cfg)) /\ Forall (fun b => b = rq_body req) sent /\
    (forall r, resp = Some r -> err = None /\
       (shouldRetryStatus (StatusCode r) (RetryStatusCodes (normal cfg)) = false \/
        Z.of_nat (length sent) = MaxAttempts (base_config (normal cfg))))).
  { intros o (w' & resp & err & sent & -> & Hl & Hf & Hr). exists w', resp, err, sent. split; [done|]. split; [lia|]. split; [done|].
    intros r Er. destruct (Hr r Er) as [H1 H2]. split; [done|]. destruct H2; [by left|right; lia]. }
  unfold RoundTrip. destruct (rq_GetBody req) as [g|].
  - destruct (Hg g eq_refl) as (b & Hb & Hgb). rewrite Hb in *. apply Hout, http_loop_outcome; [lia|lia|done|].
    destruct g as [b'|e]; [by subst|done].
  - destruct (rq_body req) as [b|]; [|apply Hout, http_loop_outcome; [lia|lia|done|done]].
    unfold ReadAll. destruct b as [b [e|]]; cbn [read_error bytes_left].
    + exists w, None, (Some e), []. split; [done|]. split; [cbn [length Z.of_nat]; lia|]. split; [constructor|done].
    + apply Hout, http_loop_outcome; [lia|lia|done|done].
Qed.

(** The wait before a retry is bounded: without jitter it is at most the present
    delay or [MaxRetryAfter], whatever the server asks for. *)
Theorem http_delay_bounded cfg delay resp w :
  f64_le (Jitter (base_config cfg)) (f64_of_int 0) = true ->
  (http_delay cfg delay resp w).2 <= Z.max delay (MaxRetryAfter cfg).
Proof.
  intros Hj. unfold http_delay, addJitter. rewrite Hj. destruct resp as [r|]; [|cbn; lia]. destruct (RespectRetryAfter cfg); [|cbn; lia]. cbn [snd].
  destruct (0 <? _); [|lia]. destruct (Z.ltb_spec (MaxRetryAfter cfg) (parseRetryAfter date (Now w) (RetryAfterHeader r))); lia.
Qed.

(** A [Retry-After] of [n] seconds is read as [n] thousand million nanoseconds in
    64 bits: exactly up to 9223372036 seconds; above, the product wraps around, to
    a wait that is short or negative, and so none. *)
Theorem parseRetryAfter_seconds now n :
  0 <= n <= max_int64 -> date (Itoa n) = None ->
  parseRetryAfter date now (Itoa n) = wrap64 (n * Second) /\ (n <= 9223372036 -> parseRetryAfter date now (Itoa n) = n * Second).
Proof.
  intros Hn Hd. destruct (Itoa_head n ltac:(lia)) as (c & s & Hs & _).
  assert (Ep : parseRetryAfter date now (Itoa n) = wrap64 (n * Second)).
  { unfold parseRetryAfter. rewrite Hd, Hs. cbn [String.eqb]. rewrite <- Hs.
    rewrite runes_ascii by (eapply string_forall_impl; [|apply Itoa_digits; lia]; intros d; unfold is_digit, is_ascii; lia).
    rewrite (scan_seconds_codes _ 0 n); [done| |lia|].
    - unfold Itoa. rewrite (proj2 (Z.ltb_ge n 0)), Z.abs_eq by lia. rewrite parse_digits_of by (apply Itoa_fuel; lia). done.
    - unfold in_int64, min_int64, max_int64 in *. lia. }
  rewrite Ep. split; [done|]. intros Hs'. apply wrap64_id. unfold in_int64, min_int64, max_int64, Second in *. lia.
Qed.
End http.

(** ** Examples *)

(** A server that answers 503 a number of times, and a transport that reads the
    whole body. *)
Definition toy_base (body : option (Stream (E := string))) (w : sim) : sim * option (Stream (E := string)) * result string Response :=
  let body := (fun b => mkStream "" (read_error b)) <$> body in
  match failing w with
  | O => (w, body, Ok (mkResponse 200 ""))
  | S n => (mkSim n (waits w), body, Ok (mkResponse 503 "2"))
  end.
Definition toy_env : Env (E := string) (W := sim) :=
  mkEnv (fun _ => None) (fun d s => (mkSim (failing s) (waits s ++ [d]), false)) (fun s => (s, f64_of_int 0)) (fun _ => min_int64).
Definition toy_run (cfg : HTTPConfig) (req : Request) (w : sim) := RoundTrip toy_env (fun _ => None) (fun _ => 0) toy_base (fun _ w => w) cfg None req w.

Lemma RoundTrip_total_witness :
  let body := Some (mkStream "body" None) in
  exists w resp err sent, toy_run DefaultHTTPConfig (mkRequest body None) (mkSim 2 []) = Some (w, resp, err, sent) /\
    sent = [body; body; body] /\ Forall (fun b => b = body) sent.
Proof.
  destruct (RoundTrip_total toy_env (fun _ => None) (fun _ => 0) toy_base (fun _ w => w) DefaultHTTPConfig None
    (mkRequest (Some (mkStream "body" None)) None) (mkSim 2 [])) as (w & resp & err & sent & H & _ & Hf & _);
    [by intros [[|n] ?]|discriminate|].
  exists w, resp, err, sent. split; [exact H|]. split; [|exact Hf]. by vm_compute in H; injection H as <- <- <- <-.
Defined.

(** With [GetBody] left nil on a body that is not buffered, the second attempt would
    send what the first left. *)
Example unbuffered_resends_nothing :
  (fun o => o.2) <$> http_loop toy_env (fun _ => None) (fun _ => 0) toy_base (fun _ w => w) 9 DefaultHTTPConfig None None (Some (mkStream "body" None))
    1 None None Second [] (mkSim 1 []) = Some [Some (mkStream "body" None); Some (mkStream "" None)].
Proof. vm_compute. reflexivity. Qed.

(** The waits are what the server asked for. *)
Example waits_as_asked :
  (fun o => waits o.1.1.1) <$> toy_run DefaultHTTPConfig (mkRequest None None) (mkSim 2 []) = Some [2 * Second; 2 * Second].
Proof. vm_compute. reflexivity. Qed.

Lemma http_delay_bounded_witness :
  (http_delay toy_env (fun _ => None) (fun _ => 0)
     (mkHTTPConfig (ConstantBackoff Second 3) default_codes true true Minute) Second (Some (mkResponse 503 "3600")) (mkSim 0 [])).2 <= Minute.
Proof.
  exact (http_delay_bounded toy_env (fun _ => None) (fun _ => 0) (mkHTTPConfig (ConstantBackoff Second 3) default_codes true true Minute)
    Second (Some (mkResponse 503 "3600")) (mkSim 0 []) eq_refl).
Defined.

Lemma parseRetryAfter_seconds_witness :
  parseRetryAfter (fun _ => None) 0 (Itoa 18446744074) = 290448384.
Proof.
  rewrite (proj1 (parseRetryAfter_seconds (fun _ => None) 0 18446744074 ltac:(unfold max_int64; lia) eq_refl)). reflexivity.
Defined.
