(* ===== verification/HttpWriter.v ===== *)
(** * Response writers of [net/http]

    A handler is what it does to the response writer: a list of calls, on a map of
    headers, whose keys are canonical.  [Wire] is the part of the server's writer
    that decides what is sent: headers set after the status line are not, and of
    several status lines the first counts, but for informational ones.  Whether a
    body is sent after all (not for [HEAD], 204 or 304) is left to the server, and
    the codes it refuses (under 100 or over 999) are not used. *)

From stdpp Require Import list numbers strings gmap.
From S2P Require Import Prelude GoStrings.

#[local] Open Scope list_scope.

(** ** Headers ([net/http], [net/textproto]) *)

Abbreviation Headers := (gmap string (list string)) (only parsing).

Definition token_byte (c : ascii) : bool :=
  is_digit c || is_upper c || is_lower c || string_has c "!#$%&'*+-.^_`|~".

Fixpoint canonical_from (upper : bool) (s : string) : string :=
  match s with
  | "" => ""
  | String c s => String (if upper then upper_byte c else lower_byte c) (canonical_from (Ascii.eqb c "-") s)
  end.

Definition CanonicalHeaderKey (s : string) : string := if string_forall token_byte s then canonical_from true s else s.

Definition header_Add (h : Headers) (k v : string) : Headers :=
  let k := CanonicalHeaderKey k in <[k := default [] (h !! k) ++ [v]]> h.
Definition header_Set (h : Headers) (k v : string) : Headers := <[CanonicalHeaderKey k := [v]]> h.
Definition header_Del (h : Headers) (k : string) : Headers := delete (CanonicalHeaderKey k) h.
Definition header_Get (h : Headers) (k : string) : string :=
  match h !! CanonicalHeaderKey k with Some (v :: _) => v | _ => "" end.

(** ** Response writers *)

Inductive call : Type :=
  | SetHeader (k v : string) | AddHeader (k v : string) | DelHeader (k : string)
  | WriteHeader (code : Z) | Write (b : string).

(** The writer of the server: its headers, the status line with the headers that
    went with it, and the body. *)
Record Wire := mkWire { w_header : Headers; w_sent : option (Z * Headers); w_out : string }.

Definition fresh : Wire := mkWire ∅ None "".

Definition informational (code : Z) : bool := (100 <=? code) && (code <=? 199) && negb (code =? 101).

Definition net_WriteHeader (code : Z) (w : Wire) : Wire :=
  match w_sent w with
  | Some _ => w
  | None => if informational code then w else mkWire (w_header w) (Some (code, w_header w)) (w_out w)
  end.

Definition net_Write (b : string) (w : Wire) : Wire :=
  let w := net_WriteHeader 200 w in mkWire (w_header w) (w_sent w) (w_out w +:+ b).

Definition with_header (f : Headers -> Headers) (w : Wire) : Wire := mkWire (f (w_header w)) (w_sent w) (w_out w).

Definition net_call (w : Wire) (c : call) : Wire :=
  match c with
  | SetHeader k v => with_header (fun h => header_Set h k v) w
  | AddHeader k v => with_header (fun h => header_Add h k v) w
  | DelHeader k => with_header (fun h => header_Del h k) w
  | WriteHeader code => net_WriteHeader code w
  | Write b => net_Write b w
  end.

(** What the client gets when the handler is done. *)
Definition received (w : Wire) : Z * Headers * string :=
  match w_sent w with Some (code, h) => (code, h, w_out w) | None => (200, w_header w, w_out w) end.
