(* ===== verification/HttpCache.v ===== *)
(** * The caching middleware ([pantry/cache/middleware.go])

    Responses recorded, encoded, kept in any [Cache] of [MemoryCache], and
    replayed, over the writers of [HttpWriter].  Go ranges over a map in any
    order: the encoder takes the order of the keys. *)

From stdpp Require Import list numbers strings gmap.
From S2P Require Import Prelude Float64 GoStrings HttpWriter MemoryCache.

#[local] Open Scope list_scope.

(** ** Entries *)

Definition LF : ascii := byte_of_code 10.

Record cacheEntry := mkEntry { StatusCode : Z; EntryHeaders : Headers; Body : string }.

Definition header_lines (order : list string) (h : Headers) : list (string * string) :=
  concat (map (fun k => map (pair k) (default [] (h !! k))) order).

Fixpoint write_lines (ls : list (string * string)) : string :=
  match ls with
  | [] => ""
  | (k, v) :: ls => k +:+ String ":" (v +:+ String LF (write_lines ls))
  end.

Definition encodeCacheEntry (order : list string) (e : cacheEntry) : string :=
  Itoa (StatusCode e) +:+ String LF (write_lines (header_lines order (EntryHeaders e)) +:+ String LF (Body e)).

(** Each round takes a line: there are at most as many as bytes. *)
Fixpoint read_headers (fuel : nat) (data : string) (h : Headers) : Headers * string :=
  match fuel with
  | O => (h, data)
  | S fuel =>
      match cut_byte LF data with
      | None => (h, data)
      | Some (line, data) =>
          if String.eqb line "" then (h, data)
          else match cut_byte ":" line with
               | None => read_headers fuel data h
               | Some (k, v) => read_headers fuel data (header_Add h k v)
               end
      end
  end.

Definition decodeCacheEntry (data : string) : option cacheEntry :=
  match cut_byte LF data with
  | None => None
  | Some (status, data) =>
      match Atoi status with
      | None => None
      | Some status =>
          let '(h, body) := read_headers (S (String.length data)) data ∅ in
          Some (mkEntry status h body)
      end
  end.

(** ** The recorder *)

Record responseRecorder := mkRecorder { r_wire : Wire; r_body : string; r_status : Z; r_wroteHeader : bool }.

Definition rec_WriteHeader (code : Z) (r : responseRecorder) : responseRecorder :=
  if r_wroteHeader r then r else mkRecorder (net_WriteHeader code (r_wire r)) (r_body r) code true.

Definition rec_Write (b : string) (r : responseRecorder) : responseRecorder :=
  let r := if r_wroteHeader r then r else rec_WriteHeader 200 r in
  mkRecorder (net_Write b (r_wire r)) (r_body r +:+ b) (r_status r) (r_wroteHeader r).

Definition rec_call (r : responseRecorder) (c : call) : responseRecorder :=
  match c with
  | WriteHeader code => rec_WriteHeader code r
  | Write b => rec_Write b r
  | _ => mkRecorder (net_call (r_wire r) c) (r_body r) (r_status r) (r_wroteHeader r)
  end.

Definition shouldCache (h : Headers) : bool :=
  let cc := ToLower (header_Get h "Cache-Control") in
  negb (Contains cc "no-store" || Contains cc "private") && negb (String.eqb (header_Get h "Vary") "*").

(** ** The middleware *)

Record Request := mkRequest { Method : string; Path : string; RawQuery : string }.

Definition DefaultKeyFunc (r : Request) : string :=
  Method r +:+ ":" +:+ Path r +:+ (if String.eqb (RawQuery r) "" then "" else "?" +:+ RawQuery r).
Definition PathKeyFunc (r : Request) : string := Method r +:+ ":" +:+ Path r.

Record MiddlewareConfig := mkConfig {
  TTL : Duration; KeyFunc : option (Request -> string); KeyPrefix : string; Skip : option (Request -> bool); CacheErrors : bool
}.

Section middleware.
Context {S : Type} `{Cache S} (oob : float64 -> Z) (cfg : MiddlewareConfig).

Definition ttl : Duration := if TTL cfg =? 0 then 5 * Minute else TTL cfg.
Definition key_of (r : Request) : string :=
  let key := match KeyFunc cfg with Some f => f r | None => DefaultKeyFunc r end in
  if String.eqb (KeyPrefix cfg) "" then key else KeyPrefix cfg +:+ key.

Definition max_age : string := Itoa (f64_to_int64 oob (Seconds ttl)).

(** The keys in the order of the range, then the two of the cache. *)
Definition writeCachedResponse (order : list string) (e : cacheEntry) (w : Wire) : Wire :=
  let w := foldl net_call w (map (fun '(k, v) => AddHeader k v) (header_lines order (EntryHeaders e))) in
  foldl net_call w [SetHeader "X-Cache" "HIT"; SetHeader "Cache-Control" ("public, max-age=" +:+ max_age);
                    WriteHeader (StatusCode e); Write (Body e)].

Definition cacheable (r : Request) : bool :=
  (String.eqb (Method r) "GET" || String.eqb (Method r) "HEAD") && negb (match Skip cfg with Some f => f r | None => false end).

(** [handler] is what the next handler does; [now] and [later] are the times of
    reading and of writing the cache; the orders are those of the two ranges. *)
Definition Middleware (handler : Request -> list call) (orders : (Headers -> list string)) (now later : Time) (s : S) (r : Request) (w : Wire)
  : S * Wire :=
  if negb (cacheable r) then (s, foldl net_call w (handler r))
  else
    let key := key_of r in
    match match Get s now key with Ok data => decodeCacheEntry data | Err _ => None end with
    | Some e => (s, writeCachedResponse (orders (EntryHeaders e)) e w)
    | None =>
        let rec := foldl rec_call (mkRecorder w "" 200 false) (handler r) in
        if negb (CacheErrors cfg) && ((r_status rec <? 200) || (300 <=? r_status rec)) then (s, r_wire rec)
        else if negb (shouldCache (w_header (r_wire rec))) then (s, r_wire rec)
        else
          let e := mkEntry (r_status rec) (w_header (r_wire rec)) (r_body rec) in
          ((Set_ s later key (encodeCacheEntry (orders (EntryHeaders e)) e) ttl).1, r_wire rec)
    end.
End middleware.

(** ** Lemmas: entries *)

(** The orders in which a map can be ranged over. *)
Definition order_of (order : list string) (h : Headers) : Prop := NoDup order /\ forall k, k ∈ order <-> is_Some (h !! k).

Definition clean_key (k : string) : Prop := CanonicalHeaderKey k = k /\ string_has ":" k = false /\ string_has LF k = false.
Definition clean (h : Headers) : Prop :=
  map_Forall (fun k vs => clean_key k /\ vs <> [] /\ Forall (fun v => string_has LF v = false) vs) h.

Definition clean_line (l : string * string) : Prop := clean_key l.1 /\ string_has LF l.2 = false.

Definition add_line (h : Headers) (l : string * string) : Headers := header_Add h l.1 l.2.

Lemma read_lines ls fuel body h : (length ls < fuel)%nat -> Forall clean_line ls ->
  read_headers fuel (write_lines ls +:+ String LF body) h = (foldl add_line h ls, body).
Proof.
  revert fuel h. induction ls as [|[k v] ls IH]; intros [|fuel] h Hf Hc; cbn [length] in Hf; try lia.
  - done.
  - apply Forall_cons_1 in Hc as [[(Hk & Hkc & Hkl) Hv] Hc]. cbn [fst snd] in *. cbn [write_lines read_headers].
    assert (E : cut_byte LF ((k +:+ String ":" (v +:+ String LF (write_lines ls))) +:+ String LF body) =
      Some (k +:+ String ":" v, write_lines ls +:+ String LF body)).
    { replace ((k +:+ String ":" (v +:+ String LF (write_lines ls))) +:+ String LF body) with
        ((k +:+ String ":" v) +:+ String LF (write_lines ls +:+ String LF body)).
      - apply cut_byte_app. rewrite string_has_app, Hkl. cbn. exact Hv.
      - rewrite <- !string_app_assoc. f_equal. cbn. f_equal. by rewrite <- string_app_assoc. }
    rewrite E. assert (Hne : String.eqb (k +:+ String ":" v) "" = false) by by destruct k. rewrite Hne, cut_byte_app by done.
    rewrite IH by (done || lia). done.
Qed.

Lemma add_lines_key k vs h : CanonicalHeaderKey k = k -> vs <> [] ->
  foldl add_line h (map (pair k) vs) = <[k := default [] (h !! k) ++ vs]> h.
Proof.
  intros Hk. revert h. induction vs as [|v vs IH]; intros h Hne; [done|]. cbn [map foldl]. unfold add_line at 2, header_Add. cbn [fst snd]. rewrite Hk.
  destruct (decide (vs = [])) as [->|Hvs]; [done|]. rewrite IH by done. rewrite lookup_insert_eq, insert_insert. cbn [default from_option].
  rewrite decide_True by done. unfold id. by rewrite <- app_assoc.
Qed.

Lemma add_lines h0 h order : clean h -> NoDup order -> (forall k, k ∈ order -> is_Some (h !! k) /\ h0 !! k = None) ->
  forall k, foldl add_line h0 (header_lines order h) !! k = if bool_decide (k ∈ order) then h !! k else h0 !! k.
Proof.
  intros Hc. revert h0. induction order as [|k0 order IH]; intros h0 Hn Hk k; [done|].
  apply list.NoDup_cons in Hn as [Hk0 Hn]. unfold header_lines. cbn [map concat]. rewrite foldl_app.
  destruct (Hk k0 ltac:(by left)) as [[vs Hvs] H0]. rewrite Hvs. cbn [default from_option].
  destruct (Hc k0 vs Hvs) as ((Hcan & _) & Hne & _). rewrite add_lines_key, H0 by done. cbn [default from_option app].
  fold (header_lines order h). rewrite IH; [|done|].
  - destruct (decide (k = k0)) as [->|Hd].
    + rewrite (bool_decide_false (k0 ∈ order)) by done. rewrite (bool_decide_true (k0 ∈ k0 :: order)) by by left. by rewrite lookup_insert_eq.
    + rewrite lookup_insert_ne by done.
      assert (Hiff : bool_decide (k ∈ k0 :: order) = bool_decide (k ∈ order)) by (apply bool_decide_ext; rewrite elem_of_cons; naive_solver).
      by rewrite Hiff.
  - intros x Hx. split; [apply (Hk x); by right|]. rewrite lookup_insert_ne by set_solver. by apply (Hk x); right.
Qed.

Lemma header_lines_clean h order : clean h -> Forall clean_line (header_lines order h).
Proof.
  intros Hc. unfold header_lines. induction order as [|k order IH]; [constructor|]. cbn [map concat]. apply Forall_app. split; [|done].
  destruct (h !! k) as [vs|] eqn:E; [|constructor]. cbn [default from_option]. destruct (Hc k vs E) as (Hk & _ & Hv).
  apply list.Forall_forall. intros l (v & -> & Hin)%list_elem_of_fmap. split; [done|]. rewrite list.Forall_forall in Hv. by apply Hv.
Qed.

Lemma write_lines_length ls : (length ls <= String.length (write_lines ls))%nat.
Proof.
  induction ls as [|[k v] ls IH]; [done|]. cbn [write_lines length]. rewrite !string_length_app. cbn [String.length]. rewrite string_length_app. cbn [String.length]. lia.
Qed.

Lemma Itoa_no_LF z : string_has LF (Itoa z) = false.
Proof.
  destruct (Z.ltb_spec z 0) as [Hz|Hz]; [|by apply Itoa_has].
  unfold Itoa. rewrite (proj2 (Z.ltb_lt z 0)) by done. pose proof (Itoa_has LF (Z.abs z) ltac:(lia) eq_refl) as Hi.
  unfold Itoa in Hi. rewrite (proj2 (Z.ltb_ge (Z.abs z) 0)), Z.abs_idemp in Hi by lia. cbn. exact Hi.
Qed.

Lemma decode_encode order e : in_int64 (StatusCode e) = true -> clean (EntryHeaders e) -> order_of order (EntryHeaders e) ->
  decodeCacheEntry (encodeCacheEntry order e) = Some e.
Proof.
  intros Hs Hc [Hn Ho]. unfold decodeCacheEntry, encodeCacheEntry. rewrite cut_byte_app by apply Itoa_no_LF. rewrite Atoi_Itoa by done.
  rewrite read_lines; [| |by apply header_lines_clean].
  - destruct e as [st h b]. cbn in *. do 2 f_equal. apply map_eq. intros k. rewrite add_lines; [|done|done|intros x Hx; split; [by apply Ho|done]].
    case_bool_decide as Hk; [done|]. symmetry. rewrite lookup_empty. apply eq_None_not_Some. by rewrite <- Ho.
  - rewrite string_length_app. pose proof (write_lines_length (header_lines order (EntryHeaders e))). cbn. lia.
Qed.

(** ** Lemmas: writers *)

Lemma net_adds h order w : clean h -> order_of order h -> w_header w = ∅ ->
  foldl net_call w (map (fun '(k, v) => AddHeader k v) (header_lines order h)) = mkWire h (w_sent w) (w_out w).
Proof.
  intros Hc [Hn Ho] Hw.
  assert (E : forall ls w, foldl net_call w (map (fun '(k, v) => AddHeader k v) ls) = mkWire (foldl add_line (w_header w) ls) (w_sent w) (w_out w)).
  { induction ls as [|[k v] ls IH]; intros w0; [by destruct w0|]. cbn [map foldl]. rewrite IH. done. }
  rewrite E, Hw. f_equal. apply map_eq. intros k. rewrite add_lines; [|done|done|intros x Hx; split; [by apply Ho|done]].
  case_bool_decide as Hk; [done|]. symmetry. rewrite lookup_empty. apply eq_None_not_Some. by rewrite <- Ho.
Qed.

(** The recorder has the body that was sent and, but for informational ones, the
    status. *)
Definition in_step (r : responseRecorder) : Prop :=
  w_out (r_wire r) = r_body r /\
  (r_wroteHeader r = false -> r_status r = 200 /\ w_sent (r_wire r) = None /\ r_body r = "") /\
  (r_wroteHeader r = true -> informational (r_status r) = false -> exists h, w_sent (r_wire r) = Some (r_status r, h)).

Lemma in_step_WriteHeader code r : in_step r -> in_step (rec_WriteHeader code r).
Proof.
  intros H. unfold rec_WriteHeader. destruct (r_wroteHeader r) eqn:E; [exact H|]. destruct H as (Ho & Hf & Ht). destruct (Hf E) as (_ & Hs & Hb).
  unfold in_step. cbn. unfold net_WriteHeader. rewrite Hs. split; [by destruct (informational code)|]. split; [done|]. intros _ Hi. rewrite Hi. cbn. by eexists.
Qed.

Lemma in_step_call r c : in_step r -> in_step (rec_call r c).
Proof.
  intros H. destruct c as [k v|k v|k|code|b]; [exact H..|by apply in_step_WriteHeader|].
  cbn [rec_call]. unfold rec_Write.
  assert (H1 : in_step (if r_wroteHeader r then r else rec_WriteHeader 200 r)) by (destruct (r_wroteHeader r); [exact H|by apply in_step_WriteHeader]).
  assert (Hw : r_wroteHeader (if r_wroteHeader r then r else rec_WriteHeader 200 r) = true).
  { destruct (r_wroteHeader r) eqn:E; [done|]. unfold rec_WriteHeader. by rewrite E. }
  revert H1 Hw. generalize (if r_wroteHeader r then r else rec_WriteHeader 200 r). intros r1 (Ho & _ & Ht) Hw.
  unfold in_step. cbn. unfold net_Write, net_WriteHeader. split; [|split; [congruence|]].
  - destruct (w_sent (r_wire r1)); cbn; by rewrite Ho.
  - intros _ Hi. destruct (Ht Hw Hi) as [h Hh]. rewrite Hh. cbn. rewrite Hh. by eexists.
Qed.

Lemma in_step_calls cs r : in_step r -> in_step (foldl rec_call r cs).
Proof. revert r. induction cs as [|c cs IH]; intros r H; [done|]. apply IH. by apply in_step_call. Qed.

(** ** Theorems *)

Section replay.
Context {S : Type} `{CacheLaws S} (oob : float64 -> Z) (cfg : MiddlewareConfig).
Context (orders : Headers -> list string) (Horders : forall h, order_of (orders h) h).

(** What the middleware records of a request that goes to the handler. *)
Definition recorded (handler : Request -> list call) (r : Request) : responseRecorder :=
  foldl rec_call (mkRecorder fresh "" 200 false) (handler r).

(** What the middleware asks of a response before it keeps it. *)
Definition kept (rec : responseRecorder) : Prop :=
  (CacheErrors cfg = true \/ 200 <= r_status rec < 300) /\ shouldCache (w_header (r_wire rec)) = true.

End replay.

Definition keys (h : Headers) : list string := (map_to_list h).*1.

Lemma keys_order h : order_of (keys h) h.
Proof.
  split; [apply NoDup_fst_map_to_list|]. intros k. unfold keys. rewrite list_elem_of_fmap. split.
  - intros ([k' v] & -> & Hin%elem_of_map_to_list). by eexists.
  - intros [v Hv]. exists (k, v). split; [done|]. by apply elem_of_map_to_list.
Qed.

(** A page for one visitor: a cookie, and [no-cache]. *)
Definition page (_ : Request) : list call :=
  [SetHeader "set-cookie" "session=1"; SetHeader "Cache-Control" "no-cache"; WriteHeader 200; Write "hello"; SetHeader "X-Late" "yes"].
Definition get (q : string) : Request := mkRequest "GET" "/p" q.
Definition defaults : MiddlewareConfig := mkConfig 0 None "" None false.
Definition no_oob (_ : float64) : Z := 0.


(** What the second visitor gets: the first one's cookie, as public. *)
Example cookie_replayed :
  let s1 := (Middleware no_oob defaults page keys 0 1 NewMemory (get "") fresh).1 in
  let h := (received (Middleware no_oob defaults page keys 5 6 s1 (get "") fresh).2).1.2 in
  h !! "Set-Cookie" = Some ["session=1"] /\ h !! "Cache-Control" = Some ["public, max-age=300"] /\ h !! "X-Late" = Some ["yes"].
Proof. vm_compute. done. Qed.

(** Values are not escaped: of a header whose value has an empty line in it, what
    comes behind the line is read back as the beginning of the body. *)
Theorem line_feeds_reach_body status k v rest body :
  in_int64 status = true -> clean_key k -> string_has LF v = false ->
  decodeCacheEntry (encodeCacheEntry [k] (mkEntry status {[k := [v +:+ String LF (String LF rest)]]} body)) =
    Some (mkEntry status {[k := [v]]} (rest +:+ String LF (String LF body))).
Proof.
  intros Hs Hk Hv. unfold decodeCacheEntry, encodeCacheEntry, header_lines. cbn [StatusCode EntryHeaders Body].
  rewrite cut_byte_app by apply Itoa_no_LF. rewrite Atoi_Itoa by done. cbn [map concat].
  rewrite lookup_singleton_eq. cbn [default from_option]. unfold id. cbn [map app write_lines].
  assert (E : (k +:+ String ":" ((v +:+ String LF (String LF rest)) +:+ String LF "")) +:+ String LF body =
    write_lines [(k, v)] +:+ String LF (rest +:+ String LF (String LF body))).
  { cbn [write_lines]. rewrite <- !string_app_assoc. f_equal. cbn. f_equal. rewrite <- !string_app_assoc. f_equal. cbn. do 2 f_equal. by rewrite <- string_app_assoc. }
  rewrite E, read_lines.
  - cbn [foldl]. unfold add_line, header_Add. cbn [fst snd]. destruct Hk as (-> & _). by rewrite lookup_empty.
  - rewrite string_length_app. cbn [length write_lines]. rewrite string_length_app. cbn. lia.
  - apply (list.Forall_cons_2 clean_line (k, v) []); [by split|constructor].
Qed.

Lemma line_feeds_reach_body_witness :
  decodeCacheEntry (encodeCacheEntry ["X-Name"] (mkEntry 200 {["X-Name" := ["Ann" +:+ String LF (String LF "<script>")]]} "hello")) =
    Some (mkEntry 200 {["X-Name" := ["Ann"]]} ("<script>" +:+ String LF (String LF "hello"))).
Proof. apply (line_feeds_reach_body 200 "X-Name" "Ann" "<script>" "hello"); [done|split_and!; done|done]. Defined.

(** The query string is not sorted. *)
Example query_not_sorted : DefaultKeyFunc (get "a=1&b=2") <> DefaultKeyFunc (get "b=2&a=1").
Proof. vm_compute. congruence. Qed.

(** After an informational status the recorder has not the status that is sent. *)
Example informational_recorded :
  let rec := foldl rec_call (mkRecorder fresh "" 200 false) [WriteHeader 103; WriteHeader 200; Write "hello"] in
  r_status rec = 103 /\ (received (r_wire rec)).1.1 = 200.
Proof. vm_compute. done. Qed.
