(* ===== verification/Sender.v ===== *)
(** * Sending webhooks ([pantry/webhook/sender.go])

    The sender with its retries, the batch sender and the dispatcher, over a world
    [W] that the clock, the client, the context and the callback of a delivery act
    on.  The marshalling of a payload and what [http.NewRequest] refuses are
    arguments.  [deliver_loop] is the loop as it is written; [deliver_step] is the
    same loop one step at a time, which the goroutines of a batch interleave; the
    world changes in the steps only, between which it is that of all of them.
    [DispatchAsync] is [Dispatch] with the senders of [async_sender]; its channel is
    not modelled. *)

From stdpp Require Import list numbers strings gmap relations.
From S2P Require Import Prelude Float64 GoStrings Hex HttpWriter Webhook.

#[local] Open Scope list_scope.

(** ** Identifiers ([webhook.go]) *)

(** The bytes of the clock, from the low one on. *)
Definition clock_byte (ts i : Z) : ascii := byte_of_code (Z.land (Z.shiftr ts (i * 8)) 255).

Definition randomHex (ts n : Z) : string :=
  str_take (Z.to_nat n) (hex_encode (String.string_of_list_ascii (map (clock_byte ts) (seqZ 0 (Z.quot n 2 + 1))))).

Section sender.
Context {E W C Data : Type}.

(** ** Events and results *)

Record Event := mkEvent {
  e_ID : string; e_Type : string; e_Timestamp : Time; e_Data : Data; e_Metadata : gmap string string
}.

Inductive send_error :=
| MarshalFailed (e : E)
| CreateRequestFailed (e : E)
| RequestFailed (e : E)
| ReceivedStatus (code : Z)
| ContextDone (e : E)
| ErrDeliveryFailed.

Record DeliveryResult := mkDeliveryResult {
  Success : bool; StatusCode : Z; ResponseBody : string; dr_Duration : Duration; Attempt : Z;
  dr_Error : option send_error; dr_Timestamp : Time
}.

(** A request as it is sent, and what comes back. *)
Record Post := mkPost { p_url : string; p_Header : Headers; p_body : string }.
Record Reply := mkReply { rp_Status : Z; rp_Body : string }.

(** ** Configuration *)

Record SenderConfig := mkSenderConfig {
  c_SigningSecret : string; c_SignatureHeader : string; c_TimestampHeader : string; c_HTTPClient : option C;
  c_Timeout : Duration; c_MaxRetries : Z; c_RetryBackoff : Duration; c_MaxBackoff : Duration;
  c_BackoffMultiplier : float64; c_Headers : gmap string string; c_UserAgent : string;
  c_OnDelivery : option (string -> DeliveryResult -> W -> W)
}.

Record Sender := mkSender {
  signingSecret : string; signatureHeader : string; timestampHeader : string; httpClient : C;
  timeout : Duration; maxRetries : Z; retryBackoff : Duration; maxBackoff : Duration;
  backoffMultiplier : float64; headers : gmap string string; userAgent : string;
  onDelivery : option (string -> DeliveryResult -> W -> W)
}.

(** [Env]: [time.Now]; [ctx.Err()]; the [select] between [time.After] and
    [ctx.Done()], with the error of the context where that was taken; the client's
    [Do], with what is read of the answer's body; the client for a timeout; what
    [http.NewRequest] refuses; the order in which [range] visits the headers; the
    two marshallings; the conversion of an out-of-range [float64]; the HMAC. *)
Record Env := mkEnv {
  Now : W -> W * Time;
  ctx_Err : W -> option E;
  wait_backoff : Duration -> W -> W * option E;
  Do : C -> Post -> W -> W * result E Reply;
  default_client : Duration -> C;
  refused_url : string -> option E;
  range : gmap string string -> W -> list (string * string);
  marshal_data : Data -> option string;
  marshal_payload : Payload -> result E string;
  oob : float64 -> Z;
  hmac_sha256 : string -> string -> string;
  hmac_sha512 : string -> string -> string
}.
Context (env : Env).
Implicit Types (s : Sender) (w : W).

Definition or_default (v d : string) : string := if String.eqb v "" then d else v.
Definition or_positive (v d : Z) : Z := if v <=? 0 then d else v.

Definition NewSender (cfg : SenderConfig) : Sender :=
  let timeout := or_positive (c_Timeout cfg) (30 * Second) in
  mkSender (c_SigningSecret cfg)
    (or_default (c_SignatureHeader cfg) "X-Webhook-Signature")
    (or_default (c_TimestampHeader cfg) "X-Webhook-Timestamp")
    (match c_HTTPClient cfg with Some c => c | None => default_client env timeout end)
    timeout
    (or_positive (c_MaxRetries cfg) 3)
    (or_positive (c_RetryBackoff cfg) (1 * Second))
    (or_positive (c_MaxBackoff cfg) (1 * Minute))
    (if f64_le (c_BackoffMultiplier cfg) (f64_of_int 0) then f64_2 else c_BackoffMultiplier cfg)
    (c_Headers cfg)
    (or_default (c_UserAgent cfg) "Waffle-Webhook/1.0")
    (c_OnDelivery cfg).

(** ** One attempt *)

Definition plain_headers s w : Headers :=
  foldl (fun h '(k, v) => header_Set h k v)
    (header_Set (header_Set ∅ "Content-Type" "application/json") "User-Agent" (userAgent s)) (range env (headers s) w).

(** The signature, under the time it is made at. *)
Definition sign s (data : string) (h : Headers) w : W * Headers :=
  if String.eqb (signingSecret s) "" then (w, h)
  else
    let '(w, now) := Now env w in
    let timestamp := now / Second in
    let signature := SignPayloadWithTimestamp (hmac_sha256 env) (hmac_sha512 env) timestamp data (signingSecret s) in
    (w, header_Set (header_Set h (signatureHeader s) signature) (timestampHeader s) (Itoa timestamp)).

Definition failed_result (start : Time) (attempt : Z) (err : send_error) w : W * DeliveryResult :=
  let '(w, now) := Now env w in
  (w, mkDeliveryResult false 0 "" (time_Sub now start) attempt (Some err) start).

Definition attemptDelivery s (url data : string) (attempt : Z) w : W * DeliveryResult :=
  let '(w, start) := Now env w in
  match refused_url env url with
  | Some e => failed_result start attempt (CreateRequestFailed e) w
  | None =>
    let '(w, h) := sign s data (plain_headers s w) w in
    match Do env (httpClient s) (mkPost url h data) w with
    | (w, Err e) => failed_result start attempt (RequestFailed e) w
    | (w, Ok reply) =>
      let '(w, now) := Now env w in
      let body := truncateString (str_take 1024 (rp_Body reply)) 500 in
      let ok := isSuccessStatus (rp_Status reply) in
      (w, mkDeliveryResult ok (rp_Status reply) body (time_Sub now start) attempt
            (if ok then None else Some (ReceivedStatus (rp_Status reply))) start)
    end
  end.

Definition isRetryable (result : DeliveryResult) : bool :=
  if StatusCode result =? 0 then true else isRetryableStatus (StatusCode result).

(** ** The loop *)

Definition call_onDelivery s (url : string) (result : DeliveryResult) w : W :=
  match onDelivery s with Some f => f url result w | None => w end.

Definition next_backoff s (backoff : Duration) : Duration :=
  let backoff := f64_to_int64 (oob env) (f64_mul (f64_of_int backoff) (backoffMultiplier s)) in
  if maxBackoff s <? backoff then maxBackoff s else backoff.

Fixpoint deliver_loop (fuel : nat) s (url data : string) (attempt : Z) (backoff : Duration) (results : list DeliveryResult) w
  : option (W * (list DeliveryResult * option send_error)) :=
  match fuel with
  | O => None
  | S fuel =>
    if attempt <=? int_add (maxRetries s) 1 then
      match ctx_Err env w with
      | Some e => Some (w, (results, Some (ContextDone e)))
      | None =>
        let '(w, result) := attemptDelivery s url data attempt w in
        let results := results ++ [result] in
        let w := call_onDelivery s url result w in
        if Success result then Some (w, (results, None))
        else if maxRetries s <? attempt then Some (w, (results, Some ErrDeliveryFailed))
        else if negb (isRetryable result) then Some (w, (results, Some ErrDeliveryFailed))
        else
          match wait_backoff env backoff w with
          | (w, Some e) => Some (w, (results, Some (ContextDone e)))
          | (w, None) => deliver_loop fuel s url data (attempt + 1) (next_backoff s backoff) results w
          end
      end
    else Some (w, (results, Some ErrDeliveryFailed))
  end.

Definition attempts s : nat := Z.to_nat (maxRetries s + 1).

Definition deliverRaw s (url data : string) w : option (W * (list DeliveryResult * option send_error)) :=
  deliver_loop (S (attempts s)) s url data 1 (retryBackoff s) [] w.

(** ** Sending *)

Definition generateDeliveryID w : W * string :=
  let '(w, t1) := Now env w in
  let '(w, t2) := Now env w in
  (w, "dlv_" +:+ Itoa (wrap64 t1) +:+ "_" +:+ randomHex (wrap64 t2) 8).

Definition generateEventID w : W * string :=
  let '(w, t1) := Now env w in
  let '(w, t2) := Now env w in
  (w, "evt_" +:+ Itoa (wrap64 t1) +:+ "_" +:+ randomHex (wrap64 t2) 8).

Definition eventToRaw (event : Event) : RawEvent :=
  mkRawEvent (e_ID event) (e_Type event) (e_Timestamp event) (marshal_data env (e_Data event)) (e_Metadata event).

(** The payload, marshalled: one for all the attempts. *)
Definition build (event : Event) w : W * result E string :=
  let '(w, id) := generateDeliveryID w in (w, marshal_payload env (mkPayload (eventToRaw event) id 1)).

Definition SendWithResults s (url : string) (event : Event) w : option (W * (list DeliveryResult * option send_error)) :=
  match build event w with
  | (w, Err e) => Some (w, ([], Some (MarshalFailed e)))
  | (w, Ok data) => deliverRaw s url data w
  end.

(** The error of [Send] and of [SendRaw]. *)
Definition verdict (r : list DeliveryResult * option send_error) : option send_error :=
  match r with
  | (_, Some err) => Some err
  | (results, None) =>
      match list.last results with
      | Some result => if Success result then None else dr_Error result
      | None => None
      end
  end.

Definition Send s (url : string) (event : Event) w : option (W * option send_error) :=
  prod_map id verdict <$> SendWithResults s url event w.

Definition SendRaw s (url payload : string) w : option (W * option send_error) :=
  prod_map id verdict <$> deliverRaw s url payload w.

(** ** The loop, one step at a time

    Before the context is looked at, before the request, and before the wait. *)

Inductive phase := AtCheck | AtAttempt | AtWait.

Record Loop := mkLoop { l_attempt : Z; l_backoff : Duration; l_results : list DeliveryResult; l_phase : phase }.

Definition start_loop s : Loop := mkLoop 1 (retryBackoff s) [] AtCheck.

Definition deliver_step s (url data : string) (l : Loop) w : W * (Loop + (list DeliveryResult * option send_error)) :=
  let results := l_results l in
  let attempt := l_attempt l in
  match l_phase l with
  | AtCheck =>
      if attempt <=? int_add (maxRetries s) 1 then
        match ctx_Err env w with
        | Some e => (w, inr (results, Some (ContextDone e)))
        | None => (w, inl (mkLoop attempt (l_backoff l) results AtAttempt))
        end
      else (w, inr (results, Some ErrDeliveryFailed))
  | AtAttempt =>
      let '(w, result) := attemptDelivery s url data attempt w in
      let results := results ++ [result] in
      let w := call_onDelivery s url result w in
      (w, if Success result then inr (results, None)
          else if maxRetries s <? attempt then inr (results, Some ErrDeliveryFailed)
          else if negb (isRetryable result) then inr (results, Some ErrDeliveryFailed)
          else inl (mkLoop attempt (l_backoff l) results AtWait))
  | AtWait =>
      match wait_backoff env (l_backoff l) w with
      | (w, Some e) => (w, inr (results, Some (ContextDone e)))
      | (w, None) => (w, inl (mkLoop (attempt + 1) (next_backoff s (l_backoff l)) results AtCheck))
      end
  end.

(** Nobody else runs. *)
Fixpoint deliver_run (fuel : nat) s (url data : string) (l : Loop) w : option (W * (list DeliveryResult * option send_error)) :=
  match fuel with
  | O => None
  | S fuel =>
      match deliver_step s url data l w with
      | (w, inr r) => Some (w, r)
      | (w, inl l) => deliver_run fuel s url data l w
      end
  end.

(** ** The batch sender and the dispatcher *)

Record BatchResult := mkBatchResult { br_URL : string; br_Results : list DeliveryResult; br_Error : option send_error }.

(** A goroutine: before its semaphore, in [deliverRaw] with its payload, or at its end. *)
Inductive task := Queued | Delivering (data : string) (l : Loop) | Finished (r : BatchResult).

Definition delivering (t : task) : nat := match t with Delivering _ _ => 1 | _ => 0 end.
Definition in_flight (ts : list task) : nat := sum_list_with delivering ts.

(** [limit] is the semaphore of a batch; a dispatcher has none. *)
Definition room (limit : option Z) (ts : list task) : Prop :=
  match limit with Some n => Z.of_nat (in_flight ts) < n | None => True end.

Inductive batch_step (limit : option Z) (jobs : list (Sender * string)) (event : Event) : W * list task -> W * list task -> Prop :=
| batch_start i s url w w' ts data : jobs !! i = Some (s, url) -> ts !! i = Some Queued -> room limit ts ->
    build event w = (w', Ok data) ->
    batch_step limit jobs event (w, ts) (w', <[i := Delivering data (start_loop s)]> ts)
| batch_unmarshalled i s url w w' ts e : jobs !! i = Some (s, url) -> ts !! i = Some Queued -> room limit ts ->
    build event w = (w', Err e) ->
    batch_step limit jobs event (w, ts) (w', <[i := Finished (mkBatchResult url [] (Some (MarshalFailed e)))]> ts)
| batch_abandon i s url w ts e : jobs !! i = Some (s, url) -> ts !! i = Some Queued -> limit <> None ->
    ctx_Err env w = Some e ->
    batch_step limit jobs event (w, ts) (w, <[i := Finished (mkBatchResult url [] (Some (ContextDone e)))]> ts)
| batch_deliver i s url w w' ts data l l' : jobs !! i = Some (s, url) -> ts !! i = Some (Delivering data l) ->
    deliver_step s url data l w = (w', inl l') ->
    batch_step limit jobs event (w, ts) (w', <[i := Delivering data l']> ts)
| batch_finish i s url w w' ts data l rs err : jobs !! i = Some (s, url) -> ts !! i = Some (Delivering data l) ->
    deliver_step s url data l w = (w', inr (rs, err)) ->
    batch_step limit jobs event (w, ts) (w', <[i := Finished (mkBatchResult url rs err)]> ts).

Definition queued (jobs : list (Sender * string)) : list task := replicate (length jobs) Queued.

Record BatchSender := mkBatchSender { b_sender : Sender; concurrency : Z }.

Definition NewBatchSender s (n : Z) : BatchSender := mkBatchSender s (or_positive n 10).

Definition batch_jobs (b : BatchSender) (urls : list string) : list (Sender * string) := map (pair (b_sender b)) urls.

(** A run of the goroutines to the end of all of them, which is what [wg.Wait] waits for. *)
Definition run_all (limit : option Z) (jobs : list (Sender * string)) (event : Event) w w' (results : list BatchResult) : Prop :=
  rtc (batch_step limit jobs event) (w, queued jobs) (w', map Finished results).

Definition SendToAll (b : BatchSender) (urls : list string) (event : Event) w w' (results : list BatchResult) : Prop :=
  run_all (Some (concurrency b)) (batch_jobs b urls) event w w' results.

(** The subscriptions are shared with those who gave them: the map holds pointers
    into [heap]. *)
Abbreviation Heap := (gmap positive Subscription) (only parsing).

Record Dispatcher := mkDispatcher { subscriptions : gmap string positive; d_sender : Sender }.

Definition NewDispatcher s : Dispatcher := mkDispatcher ∅ s.

Definition with_ID (id : string) (sub : Subscription) : Subscription :=
  mkSubscription id (sub_URL sub) (sub_Events sub) (sub_Secret sub) (sub_Active sub) (sub_Metadata sub) (sub_CreatedAt sub) (sub_UpdatedAt sub).
Definition with_CreatedAt (t : Time) (sub : Subscription) : Subscription :=
  mkSubscription (sub_ID sub) (sub_URL sub) (sub_Events sub) (sub_Secret sub) (sub_Active sub) (sub_Metadata sub) t (sub_UpdatedAt sub).
Definition with_UpdatedAt (t : Time) (sub : Subscription) : Subscription :=
  mkSubscription (sub_ID sub) (sub_URL sub) (sub_Events sub) (sub_Secret sub) (sub_Active sub) (sub_Metadata sub) (sub_CreatedAt sub) t.

(** [None] is the panic on a nil pointer. *)
Definition Subscribe (d : Dispatcher) (p : positive) (heap : Heap) w : option (Dispatcher * Heap * W) :=
  match heap !! p with
  | None => None
  | Some sub =>
    let '(w, sub) := if String.eqb (sub_ID sub) "" then let '(w, id) := generateEventID w in (w, with_ID id sub) else (w, sub) in
    let '(w, sub) := if sub_CreatedAt sub =? zero_time then let '(w, t) := Now env w in (w, with_CreatedAt t sub) else (w, sub) in
    let '(w, t) := Now env w in
    let sub := with_UpdatedAt t sub in
    Some (mkDispatcher (<[sub_ID sub := p]> (subscriptions d)) (d_sender d), <[p := sub]> heap, w)
  end.

Definition Unsubscribe (d : Dispatcher) (id : string) : Dispatcher * bool :=
  match subscriptions d !! id with
  | Some _ => (mkDispatcher (delete id (subscriptions d)) (d_sender d), true)
  | None => (d, false)
  end.

Definition GetSubscription (d : Dispatcher) (id : string) : option positive := subscriptions d !! id.

(** [order]: the keys, as [range] visits them. *)
Definition ListSubscriptions (d : Dispatcher) (order : list string) : list positive := omap (fun id => subscriptions d !! id) order.

Definition matching_subs (d : Dispatcher) (heap : Heap) (order : list string) (eventType : string) : list Subscription :=
  filter (fun sub => Matches sub eventType = true) (omap (fun p => heap !! p) (ListSubscriptions d order)).

(** The sender of a subscription with a secret of its own: without the names of the
    headers in [Dispatch], and without the further headers, the user agent and the
    callback in [DispatchAsync]. *)
Definition subscription_sender (d : Dispatcher) (sub : Subscription) : Sender :=
  let s := d_sender d in
  if String.eqb (sub_Secret sub) "" then s
  else NewSender (mkSenderConfig (sub_Secret sub) "" "" (Some (httpClient s)) (timeout s) (maxRetries s) (retryBackoff s)
         (maxBackoff s) (backoffMultiplier s) (headers s) (userAgent s) (onDelivery s)).

Definition async_sender (d : Dispatcher) (sub : Subscription) : Sender :=
  let s := d_sender d in
  if String.eqb (sub_Secret sub) "" then s
  else NewSender (mkSenderConfig (sub_Secret sub) "" "" (Some (httpClient s)) (timeout s) (maxRetries s) (retryBackoff s)
         (maxBackoff s) (backoffMultiplier s) ∅ "" None).

Definition dispatch_jobs (d : Dispatcher) (subs : list Subscription) : list (Sender * string) :=
  map (fun sub => (subscription_sender d sub, sub_URL sub)) subs.

(** No result at all where nothing matches. *)
Definition Dispatch (d : Dispatcher) (heap : Heap) (order : list string) (event : Event) w w' (results : list BatchResult) : Prop :=
  match matching_subs d heap order (e_Type event) with
  | [] => w' = w /\ results = []
  | subs => run_all None (dispatch_jobs d subs) event w w' results
  end.

(** ** Lemmas: the loop *)

Lemma deliver_loop_run fuel s url data attempt backoff results w :
  deliver_loop fuel s url data attempt backoff results w =
  deliver_run (3 * fuel) s url data (mkLoop attempt backoff results AtCheck) w.
Proof.
  revert attempt backoff results w. induction fuel as [|fuel IH]; intros attempt backoff results w; [done|].
  replace (3 * S fuel)%nat with (S (S (S (3 * fuel)))) by lia.
  cbn [deliver_loop deliver_run deliver_step l_phase l_attempt l_results l_backoff].
  destruct (attempt <=? _); [|done]. destruct (ctx_Err env w); [done|].
  cbn [deliver_loop deliver_run deliver_step l_phase l_attempt l_results l_backoff].
  destruct (attemptDelivery s url data attempt w) as [w1 r]. destruct (Success r); [done|].
  destruct (maxRetries s <? attempt); [done|]. destruct (isRetryable r); cbn [negb]; [|done].
  cbn [deliver_loop deliver_run deliver_step l_phase l_attempt l_results l_backoff].
  destruct (wait_backoff env backoff _) as [w2 [e|]]; [done|]. apply IH.
Qed.

Lemma attemptDelivery_result s url data n w :
  let r := (attemptDelivery s url data n w).2 in
  Attempt r = n /\ Success r = isSuccessStatus (StatusCode r) /\ (Success r = true <-> dr_Error r = None).
Proof.
  unfold attemptDelivery, failed_result. destruct (Now env w) as [w1 start].
  destruct (refused_url env url); [destruct (Now env w1); cbn; naive_solver|].
  destruct (sign s data _ w1) as [w2 h]. destruct (Do env (httpClient s) _ w2) as [w3 [reply|e]]; destruct (Now env w3); cbn; [|naive_solver].
  split; [done|]. split; [done|]. destruct (isSuccessStatus (rp_Status reply)); naive_solver.
Qed.

Definition numbered (rs : list DeliveryResult) : Prop := map Attempt rs = seqZ 1 (Z.of_nat (length rs)).

Definition to_retry (r : DeliveryResult) : Prop := Success r = false /\ isRetryable r = true.

Lemma numbered_snoc rs r : numbered rs -> Attempt r = Z.of_nat (length rs) + 1 -> numbered (rs ++ [r]).
Proof.
  unfold numbered. intros H Hr. rewrite map_app, length_app, H. cbn [map length]. rewrite Nat2Z.inj_add, seqZ_app by lia.
  f_equal. rewrite Hr, seqZ_cons by lia. f_equal. lia.
Qed.

(** What a delivery ends with. *)
Definition settled s (r : list DeliveryResult * option send_error) : Prop :=
  let '(rs, err) := r in
  numbered rs /\ Z.of_nat (length rs) <= maxRetries s + 1 /\
  match err with
  | None => exists rs0 x, rs = rs0 ++ [x] /\ Forall to_retry rs0 /\ Success x = true
  | Some ErrDeliveryFailed => exists rs0 x, rs = rs0 ++ [x] /\ Forall to_retry rs0 /\ Success x = false /\
      (isRetryable x = false \/ Z.of_nat (length rs) = maxRetries s + 1)
  | Some (ContextDone _) => Forall to_retry rs
  | Some _ => False
  end.

Definition loop_ok s (l : Loop) : Prop :=
  1 <= l_attempt l <= maxRetries s + 1 /\ numbered (l_results l) /\ Forall to_retry (l_results l) /\
  Z.of_nat (length (l_results l)) = match l_phase l with AtWait => l_attempt l | _ => l_attempt l - 1 end /\
  (l_phase l = AtWait -> l_attempt l <= maxRetries s) /\
  (l_attempt l = 1 -> l_backoff l = retryBackoff s) /\ (1 < l_attempt l -> l_backoff l <= maxBackoff s).

Definition loop_left s (l : Loop) : nat :=
  Z.to_nat (3 * (maxRetries s + 1 - l_attempt l)) + match l_phase l with AtCheck => 3 | AtAttempt => 2 | AtWait => 1 end.

(** The retries of a sender leave room for one more attempt. *)
Definition sane s : Prop := 0 <= maxRetries s < max_int64.

Lemma start_loop_ok s : sane s -> loop_ok s (start_loop s).
Proof. unfold sane, loop_ok. cbn. intros. repeat split; try done; lia. Qed.

Lemma deliver_step_ok s url data l w : sane s -> loop_ok s l ->
  match (deliver_step s url data l w).2 with
  | inl l' => loop_ok s l' /\ (loop_left s l' < loop_left s l)%nat
  | inr r => settled s r
  end.
Proof.
  intros Hs (Ha & Hn & Hr & Hl & Hw & H1 & H2). destruct l as [a b rs ph].
  cbn [l_attempt l_results l_phase l_backoff] in *. unfold deliver_step. cbn [l_attempt l_results l_phase l_backoff].
  destruct ph.
  - assert (int_add (maxRetries s) 1 = maxRetries s + 1) as ->
      by (apply wrap64_id; unfold sane in Hs; unfold in_int64, min_int64, max_int64 in *; lia).
    rewrite (proj2 (Z.leb_le _ _)) by lia.
    destruct (ctx_Err env w); cbn; [split; [done|split; [lia|done]]|]. unfold loop_ok, loop_left. cbn. repeat split; try done; lia.
  - pose proof (attemptDelivery_result s url data a w) as Hat. destruct (attemptDelivery s url data a w) as [w1 r]. cbn in Hat.
    destruct Hat as (Hra & _ & _). assert (numbered (rs ++ [r])) as Hnr by (apply numbered_snoc; [done|lia]).
    assert (Z.of_nat (length (rs ++ [r])) = a) as Hlen by (rewrite length_app; cbn; lia). cbn [snd].
    destruct (Success r) eqn:Hsr; [split; [done|]; split; [lia|]; by exists rs, r|].
    destruct (Z.ltb_spec (maxRetries s) a); [split; [done|]; split; [lia|]; exists rs, r; repeat split; try done; right; lia|].
    destruct (isRetryable r) eqn:Hir; cbn [negb]; [|split; [done|]; split; [lia|]; exists rs, r; repeat split; try done; by left].
    unfold loop_ok, loop_left. cbn. repeat split; try done; try lia. apply Forall_app. by repeat constructor.
  - specialize (Hw eq_refl). destruct (wait_backoff env b w) as [w1 [e|]]; cbn [snd]; [split; [done|]; split; [lia|done]|].
    unfold loop_ok, loop_left. cbn. repeat split; try done; try lia. intros _. unfold next_backoff.
    destruct (Z.ltb_spec (maxBackoff s) (f64_to_int64 (oob env) (f64_mul (f64_of_int b) (backoffMultiplier s)))); lia.
Qed.

Lemma deliver_run_total fuel s url data l w : sane s -> loop_ok s l -> (loop_left s l <= fuel)%nat ->
  exists w' r, deliver_run fuel s url data l w = Some (w', r) /\ settled s r.
Proof.
  intros Hs. revert l w. induction fuel as [|fuel IH]; intros l w Hl Hf.
  { unfold loop_left in Hf. destruct (l_phase l); lia. }
  cbn [deliver_run]. pose proof (deliver_step_ok s url data l w Hs Hl) as Hstep.
  destruct (deliver_step s url data l w) as [w1 [l'|r]]; cbn [snd] in Hstep; [|eauto]. destruct Hstep. apply IH; [done|lia].
Qed.

Lemma deliverRaw_settles s url data w : sane s -> exists w' r, deliverRaw s url data w = Some (w', r) /\ settled s r.
Proof.
  intros Hs. unfold deliverRaw. rewrite deliver_loop_run. apply deliver_run_total; [done|by apply start_loop_ok|].
  unfold loop_left, attempts. unfold sane in Hs. cbn. lia.
Qed.

(** What [SendWithResults] gives. *)
Definition outcome_ok s (rs : list DeliveryResult) (err : option send_error) : Prop :=
  settled s (rs, err) \/ (rs = [] /\ exists e, err = Some (MarshalFailed e)).

Lemma outcome_verdict s rs err : outcome_ok s rs err ->
  verdict (rs, err) = err /\ (err = None <-> exists rs0 x, rs = rs0 ++ [x] /\ Success x = true).
Proof.
  intros H. destruct err as [err|].
  - split; [done|]. split; [done|]. intros (rs0 & x & -> & Hx). exfalso.
    destruct H as [(_ & _ & H)|[H _]]; [|by destruct rs0]. destruct err; try done.
    + apply Forall_app in H as [_ H]. inversion H as [|? ? [Hf _] _]. congruence.
    + destruct H as (rs1 & y & Heq & _ & Hy & _). apply app_inj_tail in Heq as [_ ->]. congruence.
  - destruct H as [(_ & _ & rs0 & x & -> & _ & Hx)|[_ [e He]]]; [|done]. cbn. split; [|naive_solver].
    rewrite last_snoc. by rewrite Hx.
Qed.

(** ** Lemmas: the batch *)

Definition task_ok (j : Sender * string) (t : task) : Prop :=
  match t with
  | Queued => True
  | Delivering _ l => loop_ok j.1 l
  | Finished r => br_URL r = j.2 /\ outcome_ok j.1 (br_Results r) (br_Error r)
  end.

Definition task_left (j : Sender * string) (t : task) : nat :=
  match t with
  | Queued => S (loop_left j.1 (start_loop j.1))
  | Delivering _ l => loop_left j.1 l
  | Finished _ => 0
  end.

Fixpoint batch_left (jobs : list (Sender * string)) (ts : list task) : nat :=
  match jobs, ts with
  | j :: jobs, t :: ts => task_left j t + batch_left jobs ts
  | _, _ => 0
  end.

Lemma batch_left_insert jobs ts i j t t' : jobs !! i = Some j -> ts !! i = Some t ->
  (task_left j t' < task_left j t)%nat -> (batch_left jobs (<[i := t']> ts) < batch_left jobs ts)%nat.
Proof.
  revert jobs i. induction ts as [|u ts IH]; intros [|k jobs] [|i] Hj Ht Hlt; try done.
  - injection Hj as ->. injection Ht as ->. change (<[O := t']> (t :: ts)) with (t' :: ts). cbn [batch_left]. lia.
  - specialize (IH jobs i Hj Ht Hlt). change (<[S i := t']> (u :: ts)) with (u :: <[i := t']> ts). cbn [batch_left]. lia.
Qed.

Lemma in_flight_insert ts i t t' : ts !! i = Some t ->
  (in_flight (<[i := t']> ts) + delivering t = in_flight ts + delivering t')%nat.
Proof.
  unfold in_flight. revert i. induction ts as [|u ts IH]; intros [|i] Ht; try done.
  - injection Ht as ->. change (<[O := t']> (t :: ts)) with (t' :: ts). cbn [sum_list_with]. lia.
  - specialize (IH i Ht). change (<[S i := t']> (u :: ts)) with (u :: <[i := t']> ts). cbn [sum_list_with]. lia.
Qed.

Definition within (limit : option Z) (ts : list task) : Prop :=
  match limit with Some n => Z.of_nat (in_flight ts) <= n | None => True end.

Definition batch_inv (limit : option Z) (jobs : list (Sender * string)) (ts : list task) : Prop :=
  Forall2 task_ok jobs ts /\ within limit ts.

Lemma within_insert limit ts i t t' : ts !! i = Some t -> within limit ts ->
  (delivering t' <= delivering t)%nat \/ room limit ts -> within limit (<[i := t']> ts).
Proof.
  intros Ht Hw Hd. pose proof (in_flight_insert ts i t t' Ht). unfold within, room in *. destruct limit; [|done].
  assert (delivering t' <= 1)%nat by (destruct t'; cbn; lia). destruct Hd; lia.
Qed.

Lemma task_ok_insert jobs ts i j t' : Forall2 task_ok jobs ts -> jobs !! i = Some j -> task_ok j t' ->
  Forall2 task_ok jobs (<[i := t']> ts).
Proof.
  intros H Hj Ht. rewrite <- (list_insert_id jobs i j Hj). by apply Forall2_insert.
Qed.

Section batch.
Context (limit : option Z) (jobs : list (Sender * string)) (event : Event).
Hypothesis (Hjobs : Forall (fun j => sane j.1) jobs).

Lemma job_sane i s url : jobs !! i = Some (s, url) -> sane s.
Proof. intros H. by apply (Forall_lookup_1 _ _ _ _ Hjobs) in H. Qed.

Lemma batch_step_inv st st' : batch_step limit jobs event st st' -> batch_inv limit jobs st.2 ->
  batch_inv limit jobs st'.2 /\ (batch_left jobs st'.2 < batch_left jobs st.2)%nat.
Proof.
  intros Hstep [Hok Hw]. destruct Hstep as [i s url w w' ts data Hj Ht Hr Hb|i s url w w' ts e Hj Ht Hr Hb
    |i s url w ts e Hj Ht Hl Hc|i s url w w' ts data l l' Hj Ht Hd|i s url w w' ts data l rs err Hj Ht Hd]; cbn [snd] in *;
    pose proof (job_sane _ _ _ Hj) as Hs.
  - split; [split|]; [eapply task_ok_insert; [done..|by apply start_loop_ok]|eapply within_insert; [done..|by right]|].
    eapply batch_left_insert; [done..|cbn; lia].
  - split; [split|]; [eapply task_ok_insert; [done..|]|eapply within_insert; [done..|left; cbn; lia]|].
    + cbn. split; [done|]. right. eauto.
    + eapply batch_left_insert; [done..|cbn; lia].
  - split; [split|]; [eapply task_ok_insert; [done..|]|eapply within_insert; [done..|left; cbn; lia]|].
    + cbn. split; [done|]. left. unfold sane in Hs. split; [done|]. cbn. split; [lia|done].
    + eapply batch_left_insert; [done..|cbn; lia].
  - destruct (Forall2_lookup_r _ _ _ _ _ Hok Ht) as (j & Hj' & Hok'). simplify_eq.
    pose proof (deliver_step_ok s url data l w Hs Hok') as Hstep. rewrite Hd in Hstep. cbn in Hstep. destruct Hstep.
    split; [split|]; [by eapply task_ok_insert|eapply within_insert; [done..|left; cbn; lia]|]. by eapply batch_left_insert.
  - destruct (Forall2_lookup_r _ _ _ _ _ Hok Ht) as (j & Hj' & Hok'). simplify_eq.
    pose proof (deliver_step_ok s url data l w Hs Hok') as Hstep. rewrite Hd in Hstep. cbn in Hstep.
    split; [split|]; [eapply task_ok_insert; [done..|]|eapply within_insert; [done..|left; cbn; lia]|].
    + cbn. split; [done|]. by left.
    + eapply batch_left_insert; [done..|]. cbn. unfold loop_left. destruct (l_phase l); lia.
Qed.

Lemma batch_inv_start : match limit with Some n => 0 <= n | None => True end -> batch_inv limit jobs (queued jobs).
Proof.
  intros Hn. assert (forall js : list (Sender * string), in_flight (queued js) = 0%nat) as H0 by (induction js; [done|by cbn]).
  split; [|unfold within; rewrite H0; by destruct limit]. clear. unfold queued. induction jobs; cbn; by constructor.
Qed.

Lemma batch_steps n st st' : nsteps (batch_step limit jobs event) n st st' -> batch_inv limit jobs st.2 ->
  batch_inv limit jobs st'.2 /\ (n + batch_left jobs st'.2 <= batch_left jobs st.2)%nat.
Proof.
  induction 1 as [|n st1 st2 st3 Hs _ IH]; intros Hinv; [split; [done|lia]|].
  destruct (batch_step_inv _ _ Hs Hinv) as [Hinv' Hlt]. destruct (IH Hinv'). split; [done|lia].
Qed.

(** Where there is room at all, somebody can go on until all are finished. *)
Lemma batch_progress w ts : match limit with Some n => 1 <= n | None => True end -> Forall2 task_ok jobs ts ->
  (exists st', batch_step limit jobs event (w, ts) st') \/ exists results, ts = map Finished results.
Proof.
  intros Hn Hok.
  assert ((exists i data l, ts !! i = Some (Delivering data l)) \/ in_flight ts = 0%nat) as [(i & data & l & Ht)|H0].
  { clear. induction ts as [|t ts [(i & data & l & Ht)|IH]]; [by right|left; exists (S i); eauto|].
    destruct t; [by right|left; exists O; eauto|by right]. }
  - destruct (Forall2_lookup_r _ _ _ _ _ Hok Ht) as ([s url] & Hj & _). left.
    destruct (deliver_step s url data l w) as [w' [l'|[rs err]]] eqn:Hd; eexists; [by eapply batch_deliver|by eapply batch_finish].
  - assert ((exists i, ts !! i = Some Queued) \/ exists results, ts = map Finished results) as [[i Ht]|?]; [|left|by right].
    { clear - H0. induction ts as [|t ts IH]; [right; by exists []|]. destruct t as [|data l|r]; [left; by exists O|done|].
      destruct (IH H0) as [[i Hi]|[rs ->]]; [left; by exists (S i)|right; by exists (r :: rs)]. }
    destruct (Forall2_lookup_r _ _ _ _ _ Hok Ht) as ([s url] & Hj & _).
    assert (room limit ts) by (unfold room; destruct limit; [lia|done]).
    destruct (build event w) as [w' [data|e]] eqn:Hb; eexists; [by eapply batch_start|by eapply batch_unmarshalled].
Qed.
End batch.
End sender.

Lemma NewSender_sane {E W C Data : Type} (env : Env (E := E) (W := W) (C := C) (Data := Data)) cfg :
  c_MaxRetries cfg < max_int64 -> sane (NewSender env cfg).
Proof. intros H. unfold sane. cbn. unfold or_positive. destruct (Z.leb_spec (c_MaxRetries cfg) 0); [done|lia]. Qed.

Lemma subscription_sender_sane {E W C Data : Type} (env : Env (E := E) (W := W) (C := C) (Data := Data)) d sub :
  sane (d_sender d) -> sane (subscription_sender env d sub).
Proof.
  intros [H1 H2]. unfold subscription_sender. destruct (String.eqb (sub_Secret sub) ""); [done|]. by apply NewSender_sane.
Qed.

Lemma dispatched_urls {E W C Data : Type} (env : Env (E := E) (W := W) (C := C) (Data := Data)) d subs results :
  Forall2 task_ok (dispatch_jobs env d subs) (map Finished results) -> map br_URL results = map sub_URL subs.
Proof.
  revert results. induction subs as [|sub subs IH]; intros [|r results] H; inversion H; [done|].
  subst. cbn. f_equal; [|by apply IH]. by match goal with H : task_ok _ _ |- _ => destruct H end.
Qed.

(** Answers that get better with time. *)
Definition toy_env : Env (E := string) (W := Z) (C := unit) (Data := string) := {|
  Now w := (w + 1, w * Second);
  ctx_Err _ := None;
  wait_backoff d w := (w + d / Second, None);
  Do _ _ w := (w + 1, if w <? 5 then Err "refused" else Ok (mkReply (if w <? 12 then 503 else 200) "ok"));
  default_client _ := tt;
  refused_url _ := None;
  range m _ := map_to_list m;
  marshal_data d := Some d;
  marshal_payload p := Ok (pl_DeliveryID p);
  oob _ := 0;
  hmac_sha256 := toy_hmac;
  hmac_sha512 := toy_hmac
|}.

Definition toy_config : SenderConfig (E := string) (W := Z) (C := unit) := {|
  c_SigningSecret := "k"; c_SignatureHeader := ""; c_TimestampHeader := ""; c_HTTPClient := None; c_Timeout := 0; c_MaxRetries := 0;
  c_RetryBackoff := 0; c_MaxBackoff := 0; c_BackoffMultiplier := f64_of_int 0; c_Headers := ∅; c_UserAgent := ""; c_OnDelivery := None
|}.

Definition toy_event : Event := mkEvent "e" "order.created" 0 "data" ∅.

Example toy_delivery :
  (fun '(_, (rs, err)) => (map StatusCode rs, map Attempt rs, err)) <$> SendWithResults toy_env (NewSender toy_env toy_config) "https://hooks" toy_event 0
  = Some ([0; 503; 200], [1; 2; 3], None).
Proof. vm_compute. reflexivity. Qed.

(** ** Theorems *)

(** C31. A webhook is given up or delivered after a bounded number of attempts: with
    any configuration but the largest count of retries, sending returns; the
    attempts are numbered from 1 and at most one more than the retries; all but the
    last failed in a way that is retried; there is no error exactly where the last
    attempt succeeded, and the error [ErrDeliveryFailed] says that the last one
    failed for good or was the last one allowed. [Send] gives that same error. *)
Theorem Send_settles {E W C Data : Type} (env : Env (E := E) (W := W) (C := C) (Data := Data)) cfg url event w :
  let s := NewSender env cfg in
  c_MaxRetries cfg < max_int64 ->
  exists w' rs err, SendWithResults env s url event w = Some (w', (rs, err)) /\
    Send env s url event w = Some (w', err) /\ outcome_ok s rs err /\
    (err = None <-> exists rs0 x, rs = rs0 ++ [x] /\ Success x = true).
Proof.
  intros s Hm.
  assert (exists w' rs err, SendWithResults env s url event w = Some (w', (rs, err)) /\ outcome_ok s rs err)
    as (w' & rs & err & H & Hok).
  { unfold SendWithResults. destruct (build env event w) as [w1 [data|e]].
    - destruct (deliverRaw_settles env s url data w1) as (w2 & [rs err] & Hr & Hs); [by apply NewSender_sane|].
      exists w2, rs, err. split; [done|by left].
    - exists w1, [], (Some (MarshalFailed e)). split; [done|]. right. eauto. }
  exists w', rs, err. destruct (outcome_verdict s rs err Hok) as [Hv Hiff].
  split; [done|]. split; [unfold Send; rewrite H; change (Some (w', verdict (rs, err)) = Some (w', err)); by rewrite Hv|]. done.
Qed.

Lemma Send_settles_witness :
  c_MaxRetries toy_config < max_int64 /\
  exists w' rs err, SendWithResults toy_env (NewSender toy_env toy_config) "https://hooks" toy_event 0 = Some (w', (rs, err)) /\
    Send toy_env (NewSender toy_env toy_config) "https://hooks" toy_event 0 = Some (w', err) /\
    outcome_ok (NewSender toy_env toy_config) rs err /\
    (err = None <-> exists rs0 x, rs = rs0 ++ [x] /\ Success x = true).
Proof. split; [done|]. apply (Send_settles toy_env toy_config "https://hooks" toy_event 0). done. Defined.

(** C20. [SendToAll] returns, whatever the interleaving of its goroutines: no run
    has more steps than [batch_left] counts, somebody can go on until all have
    finished, never more than [concurrency] deliveries are under way, and at the end
    the results are those of the URLs, in their order. *)
Theorem SendToAll_returns {E W C Data : Type} (env : Env (E := E) (W := W) (C := C) (Data := Data)) s n urls event w :
  let b := NewBatchSender s n in
  let jobs := batch_jobs b urls in
  let step := batch_step env (Some (concurrency b)) jobs event in
  sane s ->
  (forall k st, nsteps step k (w, queued jobs) st -> (k <= batch_left jobs (queued jobs))%nat) /\
  (forall w' ts, rtc step (w, queued jobs) (w', ts) ->
    Z.of_nat (in_flight ts) <= concurrency b /\
    ((exists st, step (w', ts) st) \/
     exists results, ts = map Finished results /\ SendToAll env b urls event w w' results /\
       Forall2 (fun url r => br_URL r = url /\ outcome_ok s (br_Results r) (br_Error r)) urls results)).
Proof.
  intros b jobs step Hs.
  assert (Hj : Forall (fun j => sane j.1) jobs) by (apply Forall_fmap, Forall_true; done).
  assert (Hc : 1 <= concurrency b) by (change (1 <= or_positive n 10); unfold or_positive; destruct (Z.leb_spec n 0); lia).
  pose proof (batch_inv_start (Some (concurrency b)) jobs (Z.le_trans 0 1 _ ltac:(done) Hc)) as H0.
  split; [intros k st Hk; destruct (batch_steps env _ _ _ Hj _ _ _ Hk H0) as [_ Hle]; cbn [snd] in Hle; lia|].
  intros w' ts Hr. destruct (rtc_nsteps_1 _ _ Hr) as [k Hk]. destruct (batch_steps env _ _ _ Hj _ _ _ Hk H0) as [[Hok Hw] _].
  split; [done|]. destruct (batch_progress env (Some (concurrency b)) jobs event w' ts Hc Hok) as [?|[results ->]]; [by left|right].
  exists results. split; [done|]. split; [done|]. cbn [snd] in Hok. unfold jobs, batch_jobs in Hok.
  change (map Finished results) with (Finished <$> results) in Hok. change (map (pair (b_sender b)) urls) with (pair (b_sender b) <$> urls) in Hok.
  apply (Forall2_fmap_1 (pair s) Finished) in Hok. eapply Forall2_impl; [|exact Hok]. by intros url r [H1 H2].
Qed.

Lemma SendToAll_returns_witness :
  let s := NewSender toy_env toy_config in
  let b := NewBatchSender s 2 in
  let jobs := batch_jobs b ["https://a"; "https://b"; "https://c"] in
  let step := batch_step toy_env (Some (concurrency b)) jobs toy_event in
  sane s /\
  (forall k st, nsteps step k (0, queued jobs) st -> (k <= batch_left jobs (queued jobs))%nat) /\
  (forall w' ts, rtc step (0, queued jobs) (w', ts) ->
    Z.of_nat (in_flight ts) <= concurrency b /\
    ((exists st, step (w', ts) st) \/
     exists results, ts = map Finished results /\ SendToAll toy_env b ["https://a"; "https://b"; "https://c"] toy_event 0 w' results /\
       Forall2 (fun url r => br_URL r = url /\ outcome_ok s (br_Results r) (br_Error r)) ["https://a"; "https://b"; "https://c"] results)).
Proof. split; [done|]. apply SendToAll_returns. done. Defined.

(** The waits: the first is [RetryBackoff] as it is, larger than [MaxBackoff] or
    not; those after it are at most [MaxBackoff]. *)
Theorem backoff_bounded {E W C Data : Type} (env : Env (E := E) (W := W) (C := C) (Data := Data)) s url data l :
  sane s -> rtc (fun l l' => exists w w', deliver_step env s url data l w = (w', inl l')) (start_loop s) l ->
  if l_attempt l =? 1 then l_backoff l = retryBackoff s else l_backoff l <= maxBackoff s.
Proof.
  intros Hs Hr. assert (loop_ok s l) as (Ha & _ & _ & _ & _ & H1 & H2).
  { remember (start_loop s) as l0 eqn:He. assert (loop_ok s l0) as H0 by (subst; by apply start_loop_ok). clear He.
    induction Hr as [|l1 l2 l3 (w & w' & Hd) _ IH]; [done|]. apply IH.
    pose proof (deliver_step_ok env s url data l1 w Hs H0) as H. rewrite Hd in H. apply H. }
  destruct (Z.eqb_spec (l_attempt l) 1); [by apply H1|apply H2; lia].
Qed.

Lemma backoff_bounded_witness :
  let s := NewSender toy_env toy_config in
  sane s /\ (if l_attempt (start_loop s) =? 1 then l_backoff (start_loop s) = retryBackoff s else l_backoff (start_loop s) <= maxBackoff s).
Proof. split; [done|]. apply (backoff_bounded toy_env _ "https://hooks" "x"); [done|apply rtc_refl]. Defined.

(** What is signed: an attempt with a secret carries the time of the attempt,
    and the HMAC of that time with the very body that is sent, whatever the further
    headers of the sender say, where the two headers have different names. *)
Theorem sign_covers {E W C Data : Type} (env : Env (E := E) (W := W) (C := C) (Data := Data)) s data h w w' h' :
  signingSecret s <> "" -> CanonicalHeaderKey (signatureHeader s) <> CanonicalHeaderKey (timestampHeader s) ->
  sign env s data h w = (w', h') ->
  exists t, Now env w = (w', t) /\ header_Get h' (timestampHeader s) = Itoa (t / Second) /\
    header_Get h' (signatureHeader s) = hex_encode (hmac_sha256 env (signingSecret s) (Itoa (t / Second) +:+ "." +:+ data)).
Proof.
  intros Hs Hne H. unfold sign in H. apply String.eqb_neq in Hs. rewrite Hs in H. destruct (Now env w) as [w1 t].
  injection H as <- <-. exists t. unfold header_Get, header_Set. rewrite lookup_insert_eq.
  split; [done|]. split; [done|]. by rewrite lookup_insert_ne, lookup_insert_eq by congruence.
Qed.

Lemma sign_covers_witness :
  exists t, Now toy_env 7 = (8, t) /\
    header_Get (sign toy_env (NewSender toy_env toy_config) "body" ∅ 7).2 "x-webhook-timestamp" = Itoa (t / Second) /\
    header_Get (sign toy_env (NewSender toy_env toy_config) "body" ∅ 7).2 "x-webhook-signature" =
      hex_encode (hmac_sha256 toy_env "k" (Itoa (t / Second) +:+ "." +:+ "body")).
Proof.
  apply (sign_covers toy_env (NewSender toy_env toy_config) "body" ∅ 7 8); [discriminate|by vm_compute|reflexivity].
Defined.

(** A dispatcher reaches exactly the subscriptions that match: whatever the
    order of the map, [Dispatch] gives a result for each that the map leads to, is
    active and has a pattern for the event, and for no other. *)
Theorem Dispatch_reaches {E W C Data : Type} (env : Env (E := E) (W := W) (C := C) (Data := Data)) d heap order event w w' results :
  order ≡ₚ (map_to_list (subscriptions d)).*1 -> sane (d_sender d) ->
  Dispatch env d heap order event w w' results ->
  map br_URL results = map sub_URL (matching_subs d heap order (e_Type event)) /\
  forall sub, sub ∈ matching_subs d heap order (e_Type event) <->
    exists id p, GetSubscription d id = Some p /\ heap !! p = Some sub /\ sub_Active sub = true /\
      existsb (sub_pattern_matches (e_Type event)) (sub_Events sub) = true.
Proof.
  intros Ho Hs Hd. split.
  - unfold Dispatch in Hd. remember (matching_subs d heap order (e_Type event)) as subs eqn:Hsubs. clear Hsubs.
    destruct subs as [|sub subs]; [by destruct Hd as [_ ->]|]. unfold run_all in Hd.
    set (jobs := dispatch_jobs env d (sub :: subs)) in *.
    assert (Hj : Forall (fun j => sane j.1) jobs) by (apply Forall_fmap, Forall_true; intros x; by apply subscription_sender_sane).
    destruct (rtc_nsteps_1 _ _ Hd) as [k Hk]. destruct (batch_steps env _ _ _ Hj _ _ _ Hk (batch_inv_start None jobs I)) as [[Hok _] _].
    cbn [snd] in Hok. apply (dispatched_urls env d). done.
  - intros sub. unfold matching_subs. rewrite list_elem_of_filter, list_elem_of_omap. unfold Matches. rewrite andb_true_iff. split.
    + intros [[Ha Hp] (p & Hin & Hh)]. apply list_elem_of_omap in Hin as (id & _ & Hid). by exists id, p.
    + intros (id & p & Hid & Hh & Ha & Hp). split; [done|]. exists p. split; [|done]. apply list_elem_of_omap. exists id. split; [|done].
      rewrite Ho. apply list_elem_of_fmap. exists (id, p). split; [done|]. by apply elem_of_map_to_list.
Qed.

Lemma Dispatch_reaches_witness :
  let d := mkDispatcher {["s1" := 1%positive]} (NewSender toy_env toy_config) in
  let sub := mkSubscription "s1" "https://hooks" ["order.*"] "own" true ∅ 0 0 in
  exists results : list (BatchResult (E := string)), map br_URL results = map sub_URL (matching_subs d {[1%positive := sub]} ["s1"] "order.created") /\
  forall sub', sub' ∈ matching_subs d {[1%positive := sub]} ["s1"] "order.created" <->
    exists id p, GetSubscription d id = Some p /\ ({[1%positive := sub]} : gmap positive Subscription) !! p = Some sub' /\ sub_Active sub' = true /\
      existsb (sub_pattern_matches "order.created") (sub_Events sub') = true.
Proof.
  intros d sub. eexists [mkBatchResult (E := string) "https://hooks" _ _].
  eapply (Dispatch_reaches toy_env d {[1%positive := sub]} ["s1"] toy_event 20); [by vm_compute|done|].
  eapply rtc_l; [eapply (batch_start toy_env None _ _ 0%nat); try reflexivity; exact I|].
  eapply rtc_l; [eapply (batch_deliver toy_env None _ _ 0%nat); reflexivity|].
  eapply rtc_l; [eapply (batch_finish toy_env None _ _ 0%nat); [reflexivity..|vm_compute; reflexivity]|]. apply rtc_refl.
Defined.

(** A subscription, once added, is what its identifier leads to, and the identifier
    is not empty; the others stay where they were. *)
Theorem Subscribe_spec {E W C Data : Type} (env : Env (E := E) (W := W) (C := C) (Data := Data)) (d : Dispatcher (E := E) (W := W) (C := C)) p heap w d' heap' w' :
  Subscribe env d p heap w = Some (d', heap', w') ->
  exists sub, heap' !! p = Some sub /\ sub_ID sub <> "" /\ GetSubscription d' (sub_ID sub) = Some p /\
    (forall id, id <> sub_ID sub -> GetSubscription d' id = GetSubscription d id) /\
    (Unsubscribe d' (sub_ID sub)).2 = true /\ GetSubscription (Unsubscribe d' (sub_ID sub)).1 (sub_ID sub) = None.
Proof.
  intros H. unfold Subscribe in H. destruct (heap !! p) as [sub|] eqn:Hp; [|done].
  assert (exists w1 sub1, (if String.eqb (sub_ID sub) "" then let '(w, id) := generateEventID env w in (w, with_ID id sub) else (w, sub)) = (w1, sub1)
    /\ sub_ID sub1 <> "") as (w1 & sub1 & Heq & Hne).
  { destruct (String.eqb_spec (sub_ID sub) "") as [_|Hne]; [|eauto]. unfold generateEventID.
    destruct (Now env w) as [w1 t1]. destruct (Now env w1) as [w2 t2]. by eexists _, _. }
  rewrite Heq in H. assert (exists w2 sub2, (if sub_CreatedAt sub1 =? zero_time then let '(w, t) := Now env w1 in (w, with_CreatedAt t sub1) else (w1, sub1)) = (w2, sub2)
    /\ sub_ID sub2 = sub_ID sub1) as (w2 & sub2 & Heq2 & Hid).
  { destruct (sub_CreatedAt sub1 =? zero_time); [|eauto]. destruct (Now env w1). by eexists _, _. }
  rewrite Heq2 in H. destruct (Now env w2) as [w3 t]. injection H as <- <- <-.
  exists (with_UpdatedAt t sub2). rewrite lookup_insert_eq. unfold GetSubscription, Unsubscribe. cbn [with_UpdatedAt sub_ID subscriptions].
  rewrite lookup_insert_eq. cbn [fst snd subscriptions].
  split; [done|]. split; [congruence|]. split; [done|]. split; [intros id Hn; by rewrite lookup_insert_ne|]. split; [done|]. apply lookup_delete_eq.
Qed.

(** A subscription with a secret of its own is not signed under the headers that
    the dispatcher's sender was given. *)
Theorem own_secret_resets_headers {E W C Data : Type} (env : Env (E := E) (W := W) (C := C) (Data := Data)) d sub :
  sub_Secret sub <> "" ->
  signatureHeader (subscription_sender env d sub) = "X-Webhook-Signature" /\
  timestampHeader (subscription_sender env d sub) = "X-Webhook-Timestamp" /\
  headers (async_sender env d sub) = ∅ /\ userAgent (async_sender env d sub) = "Waffle-Webhook/1.0" /\
  onDelivery (async_sender env d sub) = None.
Proof. intros H. unfold subscription_sender, async_sender. apply String.eqb_neq in H. by rewrite H. Qed.

(** With the largest count of retries, one more wraps around: nothing is sent at all. *)
Theorem most_retries_send_nothing {E W C Data : Type} (env : Env (E := E) (W := W) (C := C) (Data := Data)) s url data w :
  maxRetries s = max_int64 -> deliverRaw env s url data w = Some (w, ([], Some ErrDeliveryFailed)).
Proof. intros H. unfold deliverRaw. cbn [deliver_loop]. by rewrite H. Qed.

(** A context that is done before the first attempt: nothing is sent. *)
Theorem done_context_sends_nothing {E W C Data : Type} (env : Env (E := E) (W := W) (C := C) (Data := Data)) s url data w e :
  sane s -> ctx_Err env w = Some e -> deliverRaw env s url data w = Some (w, ([], Some (ContextDone e))).
Proof.
  intros Hs He. unfold deliverRaw. cbn [deliver_loop]. unfold int_add. unfold sane in Hs.
  rewrite wrap64_id by (unfold in_int64, min_int64, max_int64 in *; lia). rewrite (proj2 (Z.leb_le _ _)) by lia. by rewrite He.
Qed.
