(* ===== verification/Timeout.v ===== *)
(** * The timeout middleware ([pantry/timeout/timeout.go])

    The handler runs in a goroutine of its own and writes through [timeoutWriter],
    while the middleware waits for its end, for its panic or for the deadline.  The
    two run as the steps of a relation on their common state, over the writers of
    [HttpWriter].  A call of the writer is one step, as it holds the mutex; the
    change of a header is two, as the map is got under the mutex and changed
    outside it. *)

From stdpp Require Import list numbers strings gmap relations.
From S2P Require Import Prelude GoStrings HttpWriter.

#[local] Open Scope list_scope.

(** ** The writer *)

Record timeoutWriter := mkTW { tw_wire : Wire; timedOut : bool; written : bool; statusCode : Z }.

Definition tw_Write (b : string) (w : timeoutWriter) : timeoutWriter :=
  if timedOut w then w
  else if written w then mkTW (net_Write b (tw_wire w)) false true (statusCode w)
  else mkTW (net_Write b (tw_wire w)) false true (if statusCode w =? 0 then 200 else statusCode w).

Definition tw_WriteHeader (code : Z) (w : timeoutWriter) : timeoutWriter :=
  if timedOut w || written w then w else mkTW (net_WriteHeader code (tw_wire w)) false true code.

Definition header_call (c : call) : bool := match c with WriteHeader _ | Write _ => false | _ => true end.

(** A call that is not for a header. *)
Definition tw_call (c : call) (w : timeoutWriter) : timeoutWriter :=
  match c with WriteHeader code => tw_WriteHeader code w | Write b => tw_Write b w | _ => w end.

Definition on_wire (f : Wire -> Wire) (w : timeoutWriter) : timeoutWriter :=
  mkTW (f (tw_wire w)) (timedOut w) (written w) (statusCode w).

(** ** Configuration *)

Record Request := mkRequest { r_Method : string; r_Path : string; r_Header : Headers }.

Record Config := mkConfig {
  Timeout : Z; OnTimeout : option (list call); Skipper : option (Request -> bool); ErrorHandler : option (string -> list call)
}.

Definition DefaultConfig : Config := mkConfig (30 * Second) None None None.

Definition the_timeout (cfg : Config) : Z := if Timeout cfg <=? 0 then 30 * Second else Timeout cfg.

Definition skipped (cfg : Config) (r : Request) : bool := match Skipper cfg with Some f => f r | None => false end.

Definition message : string := "Service Unavailable: request timeout".

Definition timeout_calls (cfg : Config) : list call := default [WriteHeader 503; Write message] (OnTimeout cfg).

Definition SkipWebSocket (r : Request) : bool := String.eqb (header_Get (r_Header r) "Upgrade") "websocket".
Definition SkipSSE (r : Request) : bool := String.eqb (header_Get (r_Header r) "Accept") "text/event-stream".
Definition SkipPaths (paths : list string) (r : Request) : bool := bool_decide (r_Path r ∈ (list_to_set paths : gset string)).
Definition SkipMethods (methods : list string) (r : Request) : bool := bool_decide (r_Method r ∈ (list_to_set methods : gset string)).
Fixpoint CombineSkippers (skippers : list (Request -> bool)) (r : Request) : bool :=
  match skippers with [] => false | skip :: skippers => if skip r then true else CombineSkippers skippers r end.

(** ** Steps *)

(** Where the goroutine of the handler is: in the handler, after the send of its
    panic, or ended, with [done] closed. *)
Inductive phase := Running | PanicSent | Closed.

Inductive outcome := Completed | Panicked (p : string) | Handled (p : string) | TimedOut.

(** Where the middleware is: in the [select], before it sets [timedOut], writing
    with the calls that are left, or at its end. *)
Inductive waiter := Waiting | Cutting (o : outcome) | Writing (rest : list call) (o : outcome) | Returned (o : outcome).

Record state := mkState {
  writer : timeoutWriter;
  todo : list call; (* what the handler has still to do *)
  ending : option string; (* the panic that ends it *)
  holding : option (call * bool); (* a change of a header, and whether the map is the real one *)
  goroutine : phase;
  panicChan : option string;
  fired : bool; (* [ctx.Done()] *)
  main : waiter
}.

Definition start (calls : list call) (ending : option string) : state :=
  mkState (mkTW fresh false false 0) calls ending None Running None false Waiting.

Section steps.
Context (cfg : Config).

(** What follows the mark: the calls of the configured handler, or a new panic. *)
Definition cut (o : outcome) : waiter :=
  match o with
  | TimedOut => Writing (timeout_calls cfg) TimedOut
  | Panicked p => match ErrorHandler cfg with Some f => Writing (f p) (Handled p) | None => Returned (Panicked p) end
  | o => Returned o
  end.

Inductive step : state -> state -> Prop :=
| step_header w c rest e ph pc f m : header_call c = true -> (* [Header()] *)
    step (mkState w (c :: rest) e None ph pc f m) (mkState w rest e (Some (c, negb (timedOut w))) ph pc f m)
| step_mutate w rest e c real ph pc f m :
    step (mkState w rest e (Some (c, real)) ph pc f m)
         (mkState (if real : bool then on_wire (fun w => net_call w c) w else w) rest e None ph pc f m)
| step_write w c rest e ph pc f m : header_call c = false ->
    step (mkState w (c :: rest) e None ph pc f m) (mkState (tw_call c w) rest e None ph pc f m)
| step_panic w p f m :
    step (mkState w [] (Some p) None Running None f m) (mkState w [] (Some p) None PanicSent (Some p) f m)
| step_close_panic w e pc f m : step (mkState w [] e None PanicSent pc f m) (mkState w [] e None Closed pc f m)
| step_close w pc f m : step (mkState w [] None None Running pc f m) (mkState w [] None None Closed pc f m)
| step_fire w t e h ph pc f m : step (mkState w t e h ph pc f m) (mkState w t e h ph pc true m)
| step_done w t e h pc f : step (mkState w t e h Closed pc f Waiting) (mkState w t e h Closed pc f (Returned Completed))
| step_received w t e h ph p f :
    step (mkState w t e h ph (Some p) f Waiting) (mkState w t e h ph None f (Cutting (Panicked p)))
| step_timeout w t e h ph pc : step (mkState w t e h ph pc true Waiting) (mkState w t e h ph pc true (Cutting TimedOut))
| step_cut w t e h ph pc f o :
    step (mkState w t e h ph pc f (Cutting o))
         (mkState (mkTW (tw_wire w) true (written w) (statusCode w)) t e h ph pc f (cut o))
| step_respond w t e h ph pc f c rest o :
    step (mkState w t e h ph pc f (Writing (c :: rest) o)) (mkState (on_wire (fun w => net_call w c) w) t e h ph pc f (Writing rest o))
| step_return w t e h ph pc f o : step (mkState w t e h ph pc f (Writing [] o)) (mkState w t e h ph pc f (Returned o)).

Definition reachable (calls : list call) (e : option string) (s : state) : Prop := rtc step (start calls e) s.

(** A request that is skipped goes to the handler itself. *)
Definition Middleware (r : Request) (calls : list call) (e : option string) (w : Wire) : Prop :=
  if skipped cfg r then w = foldl net_call fresh calls
  else exists s o, reachable calls e s /\ main s = Returned o /\ w = tw_wire (writer s).
End steps.

(** ** Lemmas *)

Definition plain (c : call) : Prop := match c with WriteHeader code => informational code = false | _ => True end.

(** What the client can tell: the status and the body that were sent. *)
Definition obs (w : Wire) : option Z * string := (fst <$> w_sent w, w_out w).

Lemma obs_header c w : header_call c = true -> obs (net_call w c) = obs w.
Proof. by destruct c. Qed.

Lemma obs_call c w w' : obs w = obs w' -> obs (net_call w c) = obs (net_call w' c).
Proof.
  unfold obs. destruct w as [h1 [[s1 g1]|] o1], w' as [h2 [[s2 g2]|] o2]; cbn; intros [=]; subst;
    destruct c; cbn; try done; unfold net_WriteHeader; cbn; by destruct (informational code).
Qed.

Lemma obs_calls cs w w' : obs w = obs w' -> obs (foldl net_call w cs) = obs (foldl net_call w' cs).
Proof. revert w w'. induction cs as [|c cs IH]; intros w w' H; [done|]. apply IH. by apply obs_call. Qed.

Definition sent (w : Wire) : bool := bool_decide (is_Some (w_sent w)).

Lemma sent_header c w : header_call c = true -> sent (net_call w c) = sent w.
Proof. by destruct c. Qed.

Lemma tw_call_net c w : header_call c = false -> plain c -> timedOut w = false -> written w = sent (tw_wire w) ->
  tw_wire (tw_call c w) = net_call (tw_wire w) c /\ timedOut (tw_call c w) = false /\ written (tw_call c w) = sent (tw_wire (tw_call c w)).
Proof.
  intros Hc Hp Ht Hw. destruct c as [| | |code|b]; try done; cbn [tw_call net_call plain] in *.
  - unfold tw_WriteHeader. rewrite Ht, Hw. unfold sent, net_WriteHeader. destruct (w_sent (tw_wire w)) eqn:E; cbn; rewrite ?E, ?Hp; cbn; [|done].
    repeat split; try done. rewrite Hw. unfold sent. by rewrite E.
  - unfold tw_Write. rewrite Ht. unfold sent, net_Write, net_WriteHeader.
    destruct (written w); cbn; (split; [done|]; split; [done|]); by destruct (w_sent (tw_wire w)) eqn:E; cbn; rewrite ?E.
Qed.

Definition pending (h : option (call * bool)) (w : Wire) : Wire := match h with Some (c, _) => net_call w c | None => w end.

(** While the time is not out: the calls made, then the one that is pending and
    those to do, are the handler's; and nothing is refused. *)
Definition ahead (calls : list call) (s : state) : Prop :=
  timedOut (writer s) = false /\ written (writer s) = sent (tw_wire (writer s)) /\
  (forall c real, holding s = Some (c, real) -> header_call c = true /\ real = true) /\ Forall plain (todo s) /\
  exists before, calls = before ++ todo s /\ pending (holding s) (tw_wire (writer s)) = foldl net_call fresh before.

(** Afterwards: the status and the body are those of some of the handler's calls,
    and of what the middleware wrote. *)
Definition behind (calls wrote : list call) (s : state) : Prop :=
  timedOut (writer s) = true /\ (forall c real, holding s = Some (c, real) -> header_call c = true) /\
  exists before, before `prefix_of` calls /\ obs (tw_wire (writer s)) = obs (foldl net_call fresh (before ++ wrote)).

Section invariant.
Context (cfg : Config) (calls : list call) (e : option string) (Hplain : Forall plain calls).

(** What the middleware writes itself. *)
Definition response (o : outcome) : list call :=
  match o with
  | TimedOut => timeout_calls cfg
  | Handled p => match ErrorHandler cfg with Some f => f p | None => [] end
  | Panicked _ | Completed => []
  end.

Definition inv (s : state) : Prop :=
  (goroutine s <> Running -> todo s = [] /\ holding s = None) /\
  match main s with
  | Waiting => ahead calls s
  | Cutting o => ahead calls s /\ o <> Completed /\ (forall p, o <> Handled p)
  | Writing rest o => o <> Completed /\ exists wrote, response o = wrote ++ rest /\ behind calls wrote s
  | Returned Completed => ahead calls s /\ goroutine s = Closed
  | Returned o => behind calls (response o) s
  end.

Lemma inv_start : inv (start calls e).
Proof.
  unfold inv. cbn. split; [done|]. split; [done|]. split; [done|]. split; [done|]. split; [exact Hplain|]. exists []. done.
Qed.

Lemma ahead_step s s' : ahead calls s -> main s' = main s -> step cfg s s' -> ahead calls s'.
Proof.
  intros (Ht & Hw & Hh & Hp & before & Hb & Hpend) Hm Hs. unfold ahead.
  destruct Hs; cbn [writer todo ending holding goroutine panicChan fired main pending] in *;
    try (split; [done|]; split; [done|]; split; [done|]; split; [done|]; by exists before); try discriminate Hm.
  - apply Forall_cons_1 in Hp as [_ Hp]. rewrite Ht. split; [done|]. split; [done|]. split; [by intros ? ? [= <- <-]|]. split; [done|].
    exists (before ++ [c]). rewrite <- app_assoc. split; [done|]. by rewrite foldl_app, <- Hpend.
  - destruct (Hh c real eq_refl) as [Hc ->]. cbn [on_wire tw_wire timedOut written]. split; [done|]. split; [by rewrite sent_header|].
    split; [done|]. split; [done|]. by exists before.
  - apply Forall_cons_1 in Hp as [Hpc Hp]. destruct (tw_call_net c w H Hpc Ht Hw) as (E & Et & Ew).
    split; [done|]. split; [done|]. split; [done|]. split; [done|].
    exists (before ++ [c]). rewrite <- app_assoc. split; [done|]. by rewrite foldl_app, <- Hpend, E.
  - destruct o; cbn [cut] in Hm; try discriminate Hm; destruct (ErrorHandler cfg); discriminate Hm.
  - injection Hm as Hm. exfalso. assert (length rest = length (c :: rest)) by by f_equal. cbn in *. lia.
Qed.

Lemma behind_step wrote s s' : behind calls wrote s -> main s' = main s -> step cfg s s' -> behind calls wrote s'.
Proof.
  intros (Ht & Hh & before & Hb & Ho) Hm Hs. unfold behind.
  destruct Hs; cbn [writer todo ending holding goroutine panicChan fired main] in *;
    try (split; [done|]; split; [done|]; by exists before); try discriminate Hm.
  - split; [done|]. split; [by intros ? ? [= <- <-]|]. by exists before.
  - pose proof (Hh c real eq_refl) as Hc. destruct real; cbn [on_wire tw_wire timedOut]; (split; [done|]; split; [done|]; exists before; split; [done|]).
    + by rewrite obs_header.
    + exact Ho.
  - assert (E : tw_call c w = w).
    { destruct c; try done; cbn [tw_call]; [unfold tw_WriteHeader|unfold tw_Write]; by rewrite Ht. }
    rewrite E. split; [done|]. split; [done|]. by exists before.
  - injection Hm as Hm. exfalso. assert (length rest = length (c :: rest)) by by f_equal. cbn in *. lia.
Qed.

Lemma ahead_behind w t e0 h ph pc f o m : ahead calls (mkState w t e0 h ph pc f (Cutting o)) ->
  behind calls [] (mkState (mkTW (tw_wire w) true (written w) (statusCode w)) t e0 h ph pc f m).
Proof.
  intros (_ & _ & Hh & _ & before & Hb & Hp). cbn [writer todo holding] in *. split; [done|]. split; [intros c real E; by apply (Hh c real)|].
  exists before. split; [by exists t|]. rewrite app_nil_r, <- Hp. destruct h as [[c real]|]; [|done].
  destruct (Hh c real eq_refl) as [Hc _]. cbn [pending writer tw_wire]. by rewrite obs_header.
Qed.

(** A step that is the handler's, or of the clock. *)
Lemma inv_same s s' : inv s -> step cfg s s' -> main s' = main s -> (goroutine s' <> Running -> todo s' = [] /\ holding s' = None) ->
  (goroutine s = Closed -> goroutine s' = Closed) -> inv s'.
Proof.
  intros [_ Hi] Hs Hm Hg Hcl. split; [exact Hg|]. rewrite Hm. destruct (main s) as [|o|rest o|o] eqn:E.
  - apply (ahead_step s); [done|congruence|done].
  - destruct Hi as [Hi Ho]. split; [|done]. apply (ahead_step s); [done|congruence|done].
  - destruct Hi as (Ho & wrote & Hr & Hi). split; [done|]. exists wrote. split; [done|]. apply (behind_step _ s); [done|congruence|done].
  - destruct o; [destruct Hi as [Hi Hc]; split; [apply (ahead_step s); [done|congruence|done]|by apply Hcl]|..];
      (apply (behind_step _ s); [done|congruence|done]).
Qed.

Lemma tw_inv_step s s' : inv s -> step cfg s s' -> inv s'.
Proof.
  intros Hi Hs. pose proof Hi as [Hg Hm]. destruct Hs.
  1-7: (eapply inv_same; [exact Hi|by constructor|done|cbn [goroutine todo holding] in *|done]).
  1-3: (intros Hr; destruct (Hg Hr) as [E1 E2]; by simplify_eq).
  all: try done.
  all: try (intros; match goal with |- _ /\ _ => idtac end; first [done|by destruct (Hg ltac:(done))]).
  all: cbn [main goroutine] in *; try (split; [exact Hg|]; cbn [main]).
  - destruct Hm as (Hm & Hne & Hnh). pose proof (ahead_behind _ _ _ _ _ _ _ _ (cut cfg o) Hm) as Hb.
    destruct o as [|p|p|]; [done| |by destruct (Hnh p)|].
    + cbn [cut] in *. destruct (ErrorHandler cfg) as [g|] eqn:Ee; [|exact Hb]. split; [done|]. exists []. cbn [response]. by rewrite Ee.
    + split; [done|]. by exists [].
  - destruct Hm as (Hne & wrote & Hr & Ht & Hh & before & Hb & Ho). split; [done|]. exists (wrote ++ [c]). rewrite <- app_assoc. split; [done|].
    split; [done|]. split; [done|]. exists before. split; [done|]. cbn [writer on_wire tw_wire] in *.
    rewrite app_assoc, foldl_app. cbn [foldl]. by apply obs_call.
  - destruct Hm as (Hne & wrote & Hr & Hb). rewrite app_nil_r in Hr. subst wrote. by destruct o.
Qed.

Lemma tw_inv_reachable s : reachable cfg calls e s -> inv s.
Proof.
  unfold reachable. revert s. apply (rtc_ind_r (R := step cfg) inv (start calls e)); [exact inv_start|].
  intros s1 s2 _ H12 Hi. by apply (tw_inv_step s1).
Qed.

Lemma returned_step s s' o : inv s -> main s = Returned o -> step cfg s s' ->
  main s' = Returned o /\ w_sent (tw_wire (writer s')) = w_sent (tw_wire (writer s)) /\ w_out (tw_wire (writer s')) = w_out (tw_wire (writer s)).
Proof.
  intros [Hg Hi] Hm Hs. rewrite Hm in Hi.
  assert (Hd : timedOut (writer s) = true \/ todo s = [] /\ holding s = None).
  { destruct o; [right; apply Hg; destruct Hi as [_ ->]; done|left; by destruct Hi..]. }
  assert (Hh : forall c real, holding s = Some (c, real) -> header_call c = true).
  { destruct o; [destruct Hi as [(_ & _ & Hh & _) _]; intros c real E; by apply (Hh c real)|..]; by destruct Hi as (_ & Hh & _). }
  destruct Hs; cbn [writer todo holding main] in *; try done.
  - destruct real; [|done]. pose proof (Hh c true eq_refl) as Hc. by destruct c.
  - destruct Hd as [Ht|[? _]]; [|done]. destruct c; try done; cbn [tw_call]; [unfold tw_WriteHeader|unfold tw_Write]; by rewrite Ht.
Qed.
End invariant.

(** *** The middleware alone *)

Lemma writes_return cfg w t e h ph pc f rest o : exists w', timedOut w' = timedOut w /\
  rtc (step cfg) (mkState w t e h ph pc f (Writing rest o)) (mkState w' t e h ph pc f (Returned o)).
Proof.
  revert w. induction rest as [|c rest IH]; intros w.
  - exists w. split; [done|]. apply rtc_once, step_return.
  - destruct (IH (on_wire (fun w => net_call w c) w)) as (w' & Hw & Hs). exists w'. split; [done|]. eapply rtc_l; [apply step_respond|exact Hs].
Qed.

Lemma cut_returns cfg w t e h ph pc f o : exists w' o',
  rtc (step cfg) (mkState w t e h ph pc f (Cutting o)) (mkState w' t e h ph pc f (Returned o')).
Proof.
  destruct (cut cfg o) as [| |rest o'|o'] eqn:E.
  1-2: (destruct o; cbn in E; [done| |done|done]; by destruct (ErrorHandler cfg)).
  - destruct (writes_return cfg (mkTW (tw_wire w) true (written w) (statusCode w)) t e h ph pc f rest o') as (w' & _ & Hs).
    exists w', o'. eapply rtc_l; [apply step_cut|]. rewrite E. first [exact Hs|reflexivity].
  - eexists _, o'. eapply rtc_l; [apply step_cut|]. rewrite E. first [exact Hs|reflexivity].
Qed.

(** ** Theorems *)

(** C22. One response: when the middleware has returned, either the handler was at
    its end, and the response is all that it wrote, or the client has the status
    and the body of some of the handler's calls, followed by the calls of the
    middleware (the 503, or those that are configured), and no call of the handler
    after those. *)
Theorem one_response cfg calls e s o : Forall plain calls -> reachable cfg calls e s -> main s = Returned o ->
  match o with
  | Completed => tw_wire (writer s) = foldl net_call fresh calls
  | _ => exists before, before `prefix_of` calls /\ obs (tw_wire (writer s)) = obs (foldl net_call fresh (before ++ response cfg o))
  end.
Proof.
  intros Hp Hr Hm. pose proof (tw_inv_reachable cfg calls e Hp s Hr) as [Hg Hi]. rewrite Hm in Hi.
  destruct o; [|destruct Hi as (_ & _ & before & Hb); by exists before..].
  destruct Hi as [(_ & _ & _ & _ & before & -> & Hb) Hc]. destruct (Hg ltac:(congruence)) as [Ht Hh]. rewrite Ht, Hh in *.
  by rewrite app_nil_r, <- Hb.
Qed.

(** Once the middleware has returned, nothing that the handler does reaches the
    client: neither status nor body change any more. *)
Theorem nothing_after cfg calls e s o s' : Forall plain calls -> reachable cfg calls e s -> main s = Returned o -> rtc (step cfg) s s' ->
  main s' = Returned o /\ w_sent (tw_wire (writer s')) = w_sent (tw_wire (writer s)) /\ w_out (tw_wire (writer s')) = w_out (tw_wire (writer s)).
Proof.
  intros Hp Hr Hm Hs. revert Hr Hm. induction Hs as [s|s1 s2 s3 H12 H23 IH]; intros Hr Hm; [done|].
  pose proof (tw_inv_reachable cfg calls e Hp s1 Hr) as Hi. pose proof (returned_step cfg calls s1 s2 o Hi Hm H12) as (Hm2 & Hs2 & Ho2).
  destruct IH as (IH1 & IH2 & IH3); [by eapply rtc_r|done|]. split; [done|]. split; congruence.
Qed.

(** When the time is out the middleware comes to its end by its own steps:
    whatever the handler does or does not do, there is a run in which it makes no
    step and the middleware returns. *)
Theorem deadline_returns cfg s : fired s = true ->
  exists s' o, rtc (step cfg) s s' /\ main s' = Returned o /\ todo s' = todo s /\ holding s' = holding s /\ goroutine s' = goroutine s.
Proof.
  intros Hf. destruct s as [w t e' h ph pc f m]. cbn in Hf. subst f. destruct m as [|o|rest o|o].
  - destruct (cut_returns cfg w t e' h ph pc true TimedOut) as (w' & o' & Hs). eexists _, o'. split; [eapply rtc_l; [apply step_timeout|exact Hs]|done].
  - destruct (cut_returns cfg w t e' h ph pc true o) as (w' & o' & Hs). eexists _, o'. split; [exact Hs|done].
  - destruct (writes_return cfg w t e' h ph pc true rest o) as (w' & _ & Hs). eexists _, o. split; [exact Hs|done].
  - eexists _, o. split; [reflexivity|done].
Qed.

(** *** Witnesses *)

Definition slow : list call := [SetHeader "X-A" "1"; Write "partial"; Write "rest"].

Ltac go c := eapply rtc_l; [apply c; done|cbn].

(** The handler has written a part when the time is out. *)
Definition timed_out : state :=
  mkState (mkTW (foldl net_call fresh [SetHeader "X-A" "1"; Write "partial"; WriteHeader 503; Write message]) true true 200)
    [Write "rest"] None None Running None true (Returned TimedOut).

Lemma timed_out_reachable : reachable DefaultConfig slow None timed_out.
Proof.
  unfold reachable, start, slow. go step_header. go step_mutate. go step_write. go step_fire. go step_timeout. go step_cut.
  go step_respond. go step_respond. go step_return. reflexivity.
Qed.

Theorem one_response_witness :
  exists before, before `prefix_of` slow /\ obs (tw_wire (writer timed_out)) = obs (foldl net_call fresh (before ++ response DefaultConfig TimedOut)).
Proof. refine (one_response DefaultConfig slow None timed_out TimedOut _ timed_out_reachable eq_refl). repeat constructor. Defined.

Theorem nothing_after_witness :
  let s' := mkState (writer timed_out) [] None None Running None true (Returned TimedOut) in
  main s' = Returned TimedOut /\ w_sent (tw_wire (writer s')) = w_sent (tw_wire (writer timed_out)) /\
  w_out (tw_wire (writer s')) = w_out (tw_wire (writer timed_out)).
Proof.
  refine (nothing_after DefaultConfig slow None timed_out TimedOut _ _ timed_out_reachable eq_refl _); [repeat constructor|].
  apply rtc_once. exact (step_write DefaultConfig (writer timed_out) (Write "rest") [] None Running None true (Returned TimedOut) eq_refl).
Defined.

Theorem deadline_returns_witness :
  let s := mkState (mkTW fresh false false 0) slow None None Running None true Waiting in
  exists s' o, rtc (step DefaultConfig) s s' /\ main s' = Returned o /\ todo s' = todo s /\ holding s' = holding s /\ goroutine s' = goroutine s.
Proof. exact (deadline_returns DefaultConfig (mkState (mkTW fresh false false 0) slow None None Running None true Waiting) eq_refl). Defined.

(** A response that was begun is not replaced: the client has 200, and the text of
    the 503 after the part. *)
Example begun_response : received (tw_wire (writer timed_out)) =
  (200, {["X-A" := ["1"]]}, "partialService Unavailable: request timeout").
Proof. vm_compute. reflexivity. Qed.

(** A panic can be lost: both [panicChan] and [done] are ready, and the [select] may
    take [done].  The client has an empty 200. *)
Example panic_lost :
  exists s, reachable DefaultConfig [] (Some "boom") s /\ main s = Returned Completed /\ received (tw_wire (writer s)) = (200, ∅, "").
Proof.
  eexists. split; [|split].
  - unfold reachable, start. go step_panic. go step_close_panic. go step_done. reflexivity.
  - reflexivity.
  - reflexivity.
Qed.

(** After an informational status the writer refuses the real one. *)
Example informational_refused :
  let calls := [WriteHeader 103; WriteHeader 404; Write "no"] in
  exists s, reachable DefaultConfig calls None s /\ main s = Returned Completed /\
    (received (tw_wire (writer s))).1.1 = 200 /\ (received (foldl net_call fresh calls)).1.1 = 404.
Proof.
  cbn zeta. eexists. split; [|split; [|split]].
  - unfold reachable, start. go step_write. go step_write. go step_write. go step_close. go step_done. reflexivity.
  - reflexivity.
  - reflexivity.
  - reflexivity.
Qed.
