(* ===== verification/Errors.v ===== *)
(** * Application errors ([pantry/errors])

    The structured errors of [errors.go] live in a store, as the methods that add to
    an error change it in place and every holder of the pointer sees it.  A value of
    the interface [error] is nil, a pointer to one, which may itself be nil, or an
    error of another package with the errors that it wraps.  [http.go] writes over
    [HttpWriter].  What [encoding/json] makes of the fields of a struct, by their
    tags, is written out; the text of a value is an argument. *)

From stdpp Require Import list numbers strings gmap sorting.
From S2P Require Import Prelude GoStrings HttpWriter.

#[local] Open Scope list_scope.

(** ** Errors *)

Abbreviation loc := nat (only parsing).

(** [Ptr None] is the nil pointer in an interface: the interface is not nil. *)
Inductive error := Ptr (l : option loc) | Foreign (text : string) (wraps : list error).

(** A value of [Details]: its text is what the tests need. *)
Inductive detail := Text (s : string) | FieldErrors (l : list (string * string * string)).

Record Error := mkError { Code : string; Message : string; Status : Z; Details : option (gmap string detail); Err_ : option error }.

Abbreviation store := (gmap nat Error) (only parsing).

Definition alloc (st : store) (e : Error) : store * loc := let l := base.fresh (dom st) in (<[l := e]> st, l).

(** [e.f = v] for a pointer: [None] is the panic of a nil pointer. *)
Definition set_error (l : option loc) (f : Error -> Error) (st : store) : option store :=
  match l with Some l => match st !! l with Some e => Some (<[l := f e]> st) | None => None end | None => None end.

Definition WithDetails (l : option loc) (details : option (gmap string detail)) : store -> option store :=
  set_error l (fun e => mkError (Code e) (Message e) (Status e) details (Err_ e)).
Definition WithDetail (l : option loc) (key : string) (value : detail) : store -> option store :=
  set_error l (fun e => mkError (Code e) (Message e) (Status e) (Some (<[key := value]> (default ∅ (Details e)))) (Err_ e)).
Definition Error_Wrap (l : option loc) (err : option error) : store -> option store :=
  set_error l (fun e => mkError (Code e) (Message e) (Status e) (Details e) err).

Definition HTTPStatus (e : Error) : Z := if Status e =? 0 then 500 else Status e.

Definition New (code message : string) (status : Z) (st : store) : store * loc := alloc st (mkError code message status None None).
Definition Wrap (err : option error) (code message : string) (status : Z) (st : store) : store * loc :=
  alloc st (mkError code message status None err).

(** [errors.As(err, &e)]: the first pointer of the tree, which is not looked into. *)
Fixpoint As (err : error) : option (option loc) :=
  match err with
  | Ptr l => Some l
  | Foreign _ wraps => (fix any ws := match ws with [] => None | w :: ws => match As w with Some l => Some l | None => any ws end end) wraps
  end.

Definition internal (err : error) : Error := mkError "internal_error" "an internal error occurred" 500 None (Some err).

(** The pointer that is returned; nil for nil. *)
Definition From (err : option error) (st : store) : store * option loc :=
  match err with
  | None => (st, None)
  | Some err =>
      match As err with
      | Some l => (st, l)
      | None => let '(st, l) := alloc st (internal err) in (st, Some l)
      end
  end.

(** *** The constructors *)

Definition BadRequest (message : string) : store -> store * loc := New "bad_request" message 400.
Definition Unauthorized (message : string) : store -> store * loc := New "unauthorized" message 401.
Definition Forbidden (message : string) : store -> store * loc := New "forbidden" message 403.
Definition NotFound (message : string) : store -> store * loc := New "not_found" message 404.
Definition MethodNotAllowed (message : string) : store -> store * loc := New "method_not_allowed" message 405.
Definition Conflict (message : string) : store -> store * loc := New "conflict" message 409.
Definition Gone (message : string) : store -> store * loc := New "gone" message 410.
Definition UnprocessableEntity (message : string) : store -> store * loc := New "unprocessable_entity" message 422.
Definition TooManyRequests (message : string) : store -> store * loc := New "too_many_requests" message 429.
Definition Internal (message : string) : store -> store * loc := New "internal_error" message 500.
Definition NotImplemented (message : string) : store -> store * loc := New "not_implemented" message 501.
Definition ServiceUnavailable (message : string) : store -> store * loc := New "service_unavailable" message 503.
Definition Timeout (message : string) : store -> store * loc := New "timeout" message 504.
Definition Validation (message : string) : store -> store * loc := New "validation_failed" message 400.
Definition AlreadyExists (message : string) : store -> store * loc := New "already_exists" message 409.
Definition InvalidInput (message : string) : store -> store * loc := New "invalid_input" message 400.
Definition AuthenticationFailed (message : string) : store -> store * loc := New "authentication_failed" message 401.
Definition PermissionDenied (message : string) : store -> store * loc := New "permission_denied" message 403.

(** *** Validation errors: fields, messages and codes *)

Abbreviation ValidationErrors := (list (string * string * string)) (only parsing).

Definition AddWithCode (field message code : string) (v : ValidationErrors) : ValidationErrors := v ++ [(field, message, code)].
Definition Add (field message : string) (v : ValidationErrors) : ValidationErrors := AddWithCode field message "" v.
Definition HasErrors (v : ValidationErrors) : bool := (0 <? length v)%nat.

Definition ValidationErrors_Error (v : ValidationErrors) : string :=
  match v with [] => "validation failed" | (field, message, _) :: _ => "validation failed: " +:+ field +:+ ": " +:+ message end.

Definition ToError (v : ValidationErrors) (st : store) : store * option loc :=
  if HasErrors v then
    let '(st, l) := Validation "validation failed" st in (default st (WithDetail (Some l) "errors" (FieldErrors v) st), Some l)
  else (st, None).

(** *** Text *)

(** [Error()], through the errors that are wrapped: [None] is a panic, or a cycle of
    pointers, on which the code does not return. *)
Fixpoint Error_Error (fuel : nat) (st : store) (l : option loc) : option string :=
  match fuel with
  | O => None
  | S fuel =>
      match l with
      | None => None
      | Some l =>
          match st !! l with
          | None => None
          | Some e =>
              match Err_ e with
              | None => Some (Code e +:+ ": " +:+ Message e)
              | Some err =>
                  match match err with Ptr l => Error_Error fuel st l | Foreign text _ => Some text end with
                  | Some t => Some (Code e +:+ ": " +:+ Message e +:+ ": " +:+ t)
                  | None => None
                  end
              end
          end
      end
  end.

(** ** Responses ([http.go]) *)

(** *** JSON *)

Inductive json := JStr (s : string) | JNum (z : Z) | JArr (l : list json) | JObj (fields : list (string * json)).

(** A field of a struct: its name, the tag under [json], its value, and whether
    that is empty. *)
Record field := mkField { f_name : string; f_tag : string; f_value : json; f_empty : bool }.

(** What [encoding/json] does with a field: the tag [-] drops it; otherwise the tag
    has a name, or is empty and leaves the field's, and perhaps [omitempty]. *)
Definition marshal_field (f : field) : list (string * json) :=
  if String.eqb (f_tag f) "-" then []
  else
    let '(name, options) := match cut_byte "," (f_tag f) with Some (n, o) => (n, o) | None => (f_tag f, "") end in
    if f_empty f && String.eqb options "omitempty" then []
    else [(if String.eqb name "" then f_name f else name, f_value f)].

Definition marshal_struct (fields : list field) : json := JObj (concat (map marshal_field fields)).

Definition empty_string (s : string) : bool := String.eqb s "".

Definition marshal_FieldError (e : string * string * string) : json :=
  let '(fld, message, code) := e in
  marshal_struct [mkField "Field" "field" (JStr fld) (empty_string fld); mkField "Message" "message" (JStr message) (empty_string message);
                  mkField "Code" "code,omitempty" (JStr code) (empty_string code)].

Definition marshal_detail (d : detail) : json :=
  match d with Text s => JStr s | FieldErrors l => JArr (map marshal_FieldError l) end.

(** A map, in the order of its keys. *)
Definition marshal_details (m : option (gmap string detail)) : json :=
  JObj (map (fun k => (k, match default ∅ m !! k with Some d => marshal_detail d | None => JObj [] end)) (merge_sort str_le (map_to_list (default ∅ m)).*1)).

Definition no_details (m : option (gmap string detail)) : bool := Nat.eqb (size (default ∅ m)) 0.

Section http.
(** The text of a value; and the value that is made of an error behind the
    interface, if it is asked for. *)
Context (print : json -> string) (marshal_error : option error -> json).

(** The fields of the struct with their tags. *)
Definition Error_fields (e : Error) : list field :=
  [mkField "Code" "code" (JStr (Code e)) (empty_string (Code e));
   mkField "Message" "message" (JStr (Message e)) (empty_string (Message e));
   mkField "Status" "-" (JNum (Status e)) (Status e =? 0);
   mkField "Details" "details,omitempty" (marshal_details (Details e)) (no_details (Details e));
   mkField "Err" "-" (marshal_error (Err_ e)) (match Err_ e with Some _ => false | None => true end)].

(** The alias in [MarshalJSON] has the same fields, which are those of the struct
    around it. *)
Definition MarshalJSON (e : Error) : json := marshal_struct (Error_fields e).

(** [Response], with the line feed of the encoder. *)
Definition encode (e : Error) : string := print (JObj [("error", MarshalJSON e)]) +:+ String (byte_of_code 10) "".

(** What happens to the writer: [None] is a panic. *)
Definition writeError (w : Wire) (l : option loc) (st : store) : option Wire :=
  match l with
  | Some l =>
      match st !! l with
      | Some e => Some (foldl net_call w [SetHeader "Content-Type" "application/json; charset=utf-8"; WriteHeader (HTTPStatus e); Write (encode e)])
      | None => None
      end
  | None => None
  end.

Definition Write_ (w : Wire) (err : option error) (st : store) : store * option Wire :=
  let '(st, l) := From err st in (st, writeError w l st).

(** With what is logged: the code and the message. *)
Definition WriteWithLogger (w : Wire) (err : option error) (st : store) : store * option (Wire * list (string * string)) :=
  let '(st, l) := From err st in
  match l with
  | Some l' =>
      match st !! l' with
      | Some e =>
          let log := if 500 <=? Status e then [(Code e, Message e)] else [] in
          (st, match writeError w l st with Some w => Some (w, log) | None => None end)
      | None => (st, None)
      end
  | None => (st, None)
  end.

(** A handler is what it does to the writer, and whether it panics. *)
Definition Handler (calls : list call) (panics : bool) (w : Wire) (st : store) : store * option Wire :=
  let w := foldl net_call w calls in
  if panics then let '(st, l) := Internal "an unexpected error occurred" st in Write_ w (Some (Ptr (Some l))) st else (st, Some w).

Definition NotFoundHandler (w : Wire) (st : store) : store * option Wire :=
  let '(st, l) := NotFound "the requested resource was not found" st in Write_ w (Some (Ptr (Some l))) st.
Definition MethodNotAllowedHandler (w : Wire) (st : store) : store * option Wire :=
  let '(st, l) := MethodNotAllowed "the requested method is not allowed" st in Write_ w (Some (Ptr (Some l))) st.

(** A handler that returns an error, in the store that it leaves. *)
Definition WrapHandler (calls : list call) (err : option error) (w : Wire) (st : store) : store * option Wire :=
  let w := foldl net_call w calls in
  match err with Some err => Write_ w (Some err) st | None => (st, Some w) end.

Definition StatusFromError (err : option error) (st : store) : option Z :=
  match err with
  | None => Some 200
  | Some err => let '(st, l) := From (Some err) st in match l with Some l => HTTPStatus <$> st !! l | None => None end
  end.
Definition CodeFromError (err : option error) (st : store) : option string :=
  match err with
  | None => Some ""
  | Some err => let '(st, l) := From (Some err) st in match l with Some l => Code <$> st !! l | None => None end
  end.
End http.

(** ** Lemmas *)

Lemma alloc_spec st e st' l : alloc st e = (st', l) -> st !! l = None /\ st' = <[l := e]> st.
Proof. intros [= <- <-]. split; [|done]. apply not_elem_of_dom, is_fresh. Qed.

(** Pointers that are not nil are in the store. *)
Definition allocated (err : error) (st : store) : Prop :=
  match As err with Some (Some l) => is_Some (st !! l) | Some None => False | None => True end.

Lemma From_spec err st : allocated err st -> exists st' l e, From (Some err) st = (st', Some l) /\ st' !! l = Some e /\
  match As err with Some _ => st' = st | None => e = internal err /\ st !! l = None /\ st' = <[l := e]> st end.
Proof.
  unfold allocated, From. destruct (As err) as [[l|]|]; [|done|].
  - intros [e He]. by exists st, l, e.
  - intros _. destruct (alloc st (internal err)) as [st' l] eqn:E. apply alloc_spec in E as [Hl ->].
    exists (<[l := internal err]> st), l, (internal err). split; [done|]. split; [by apply lookup_insert_eq|]. done.
Qed.

Section responses.
Context (print : json -> string) (marshal_error : option error -> json).
#[local] Abbreviation encode := (encode print marshal_error).

Definition error_calls (e : Error) : list call :=
  [SetHeader "Content-Type" "application/json; charset=utf-8"; WriteHeader (HTTPStatus e); Write (encode e)].

Lemma received_fresh h e : informational (HTTPStatus e) = false ->
  let w := foldl net_call (mkWire h None "") (error_calls e) in
  (received w).1.1 = HTTPStatus e /\ (received w).2 = encode e.
Proof. intros Hi. cbn. unfold net_Write, net_WriteHeader. cbn. rewrite Hi. cbn. by split. Qed.

(** A handler that returns an error before it has written is answered once, with
    the status that [StatusFromError] gives for the error and the JSON of the first
    [*Error] in it, or of an internal error when there is none. *)
Theorem error_response calls err st h : foldl net_call fresh calls = mkWire h None "" -> allocated err st ->
  exists st' w e, WrapHandler print marshal_error calls (Some err) fresh st = (st', Some w) /\
    StatusFromError (Some err) st = Some (HTTPStatus e) /\ CodeFromError (Some err) st = Some (Code e) /\
    (informational (HTTPStatus e) = false -> (received w).1.1 = HTTPStatus e /\ (received w).2 = encode e) /\
    (As err = None -> HTTPStatus e = 500 /\ Code e = "internal_error").
Proof.
  intros Hw Ha. destruct (From_spec err st Ha) as (st' & l & e & Hf & Hl & Hc). exists st'. eexists _, e.
  unfold WrapHandler, Write_, StatusFromError, CodeFromError, writeError. rewrite Hf, Hw, Hl. cbn [fmap option_fmap option_map].
  split; [done|]. split; [done|]. split; [done|]. split; [intros Hi; by apply received_fresh|].
  intros Hn. rewrite Hn in Hc. by destruct Hc as [-> _].
Qed.

(** The JSON of an error: of its fields, only code, message and details. *)
Lemma MarshalJSON_public e :
  MarshalJSON marshal_error e =
  JObj ([("code", JStr (Code e)); ("message", JStr (Message e))] ++
        if no_details (Details e) then [] else [("details", marshal_details (Details e))]).
Proof. unfold MarshalJSON, marshal_struct, Error_fields. cbn. rewrite !andb_false_r, andb_true_r. by destruct (no_details (Details e)). Qed.

Definition internal_json : json :=
  JObj [("error", JObj [("code", JStr "internal_error"); ("message", JStr "an internal error occurred")])].

(** C30. What is behind an error does not show.  An error of another package,
    whatever it is, is answered with 500 and the fixed JSON of an internal error; and
    the answer to an [*Error] is the same whatever error it wraps.  (What is written
    is by the fields and the tags of the struct.) *)
Theorem internal_hidden calls w st :
  (forall err, As err = None ->
     (WrapHandler print marshal_error calls (Some err) w st).2 =
       Some (foldl net_call w (calls ++ [SetHeader "Content-Type" "application/json; charset=utf-8"; WriteHeader 500;
                                         Write (print internal_json +:+ String (byte_of_code 10) "")]))) /\
  (forall err l e cause st', As err = Some (Some l) -> st !! l = Some e -> Error_Wrap (Some l) cause st = Some st' ->
     (WrapHandler print marshal_error calls (Some err) w st').2 = (WrapHandler print marshal_error calls (Some err) w st).2).
Proof.
  unfold WrapHandler, Write_, From, writeError, encode. split.
  - intros err ->. unfold alloc. cbn [snd]. rewrite lookup_insert_eq, MarshalJSON_public, foldl_app. reflexivity.
  - intros err l e cause st' -> He Hw. unfold Error_Wrap, set_error in Hw. rewrite He in Hw. injection Hw as <-. cbn [snd].
    by rewrite lookup_insert_eq, He, !MarshalJSON_public.
Qed.
End responses.

(** A pointer that is got back by [From] is the one that was returned: what is added
    to it is seen by every holder. *)
Lemma From_shares l key value st st' e : st !! l = Some e -> WithDetail (Some l) key value st = Some st' ->
  From (Some (Ptr (Some l))) st' = (st', Some l) /\
  st' !! l = Some (mkError (Code e) (Message e) (Status e) (Some (<[key := value]> (default ∅ (Details e)))) (Err_ e)).
Proof. intros He. unfold WithDetail, set_error. rewrite He. intros [= <-]. split; [done|]. by rewrite lookup_insert_eq. Qed.

(** [ToError] of no errors, returned as an [error], is not nil: the handler that
    returns it panics in [Write], whatever it wrote. *)
Lemma ToError_not_nil print marshal_error calls w st : (WrapHandler print marshal_error calls (Some (Ptr (ToError [] st).2)) w st).2 = None.
Proof. reflexivity. Qed.

(** An error that wraps itself has no text. *)
Lemma cycle_diverges fuel st l e : st !! l = Some e -> Err_ e = Some (Ptr (Some l)) -> Error_Error fuel st (Some l) = None.
Proof. intros He Hw. induction fuel as [|fuel IH]; [done|]. cbn [Error_Error]. by rewrite He, Hw, IH. Qed.

(** Pointers to older errors only: then there is a text, with fuel for the chain. *)
Definition older (st : store) : Prop :=
  map_Forall (fun l e => forall err, Err_ e = Some err -> match err with Ptr (Some l') => (l' < l)%nat /\ is_Some (st !! l') | Ptr None => False | Foreign _ _ => True end) st.

Lemma Error_total st l : older st -> is_Some (st !! l) -> is_Some (Error_Error (S l) st (Some l)).
Proof.
  intros Ho. assert (E : forall fuel l, (l < fuel)%nat -> is_Some (st !! l) -> is_Some (Error_Error fuel st (Some l))).
  { clear l. induction fuel as [|fuel IH]; intros l Hl [e He]; [lia|]. cbn [Error_Error]. rewrite He. pose proof (Ho l e He) as H.
    destruct (Err_ e) as [err|] eqn:Ee; [|done]. specialize (H err Ee). destruct err as [[l'|]|text wraps]; [|done|done]. destruct H as [Hlt Hs]. destruct (IH l' ltac:(lia) Hs) as [t ->]. done. }
  apply E. lia.
Qed.

(** ** Witnesses *)

(** A printer, and one for errors that shows what they say. *)
Fixpoint show (j : json) : string :=
  match j with
  | JStr s => s
  | JNum z => Itoa z
  | JArr l => "[" +:+ String.concat "," (map show l) +:+ "]"
  | JObj fields => "{" +:+ String.concat "," (map (fun kv => kv.1 +:+ ":" +:+ show kv.2) fields) +:+ "}"
  end.
Definition tell (err : option error) : json := match err with Some (Foreign t _) => JStr t | _ => JStr "" end.

Definition lost : store := {[ 0%nat := mkError "not_found" "no such user" 404 None None ]}.

Theorem error_response_witness :
  exists st' w e, WrapHandler show tell [SetHeader "X-A" "1"] (Some (Foreign "load" [Foreign "io" []; Ptr (Some 0%nat)])) fresh lost = (st', Some w) /\
    StatusFromError (Some (Foreign "load" [Foreign "io" []; Ptr (Some 0%nat)])) lost = Some (HTTPStatus e) /\
    CodeFromError (Some (Foreign "load" [Foreign "io" []; Ptr (Some 0%nat)])) lost = Some (Code e) /\
    (informational (HTTPStatus e) = false -> (received w).1.1 = HTTPStatus e /\ (received w).2 = encode show tell e) /\
    (As (Foreign "load" [Foreign "io" []; Ptr (Some 0%nat)]) = None -> HTTPStatus e = 500 /\ Code e = "internal_error").
Proof.
  refine (error_response show tell [SetHeader "X-A" "1"] (Foreign "load" [Foreign "io" []; Ptr (Some 0%nat)]) lost {[ "X-A" := ["1"] ]} _ _).
  - vm_compute. reflexivity.
  - vm_compute. eexists. reflexivity.
Defined.

Theorem internal_hidden_witness :
  (WrapHandler show tell [] (Some (Foreign "password is 123" [])) fresh lost).2 =
    Some (foldl net_call fresh [SetHeader "Content-Type" "application/json; charset=utf-8"; WriteHeader 500;
      Write (show internal_json +:+ String (byte_of_code 10) "")]) /\
  (WrapHandler show tell [] (Some (Ptr (Some 0%nat))) fresh
     {[ 0%nat := mkError "not_found" "no such user" 404 None (Some (Foreign "password is 123" [])) ]}).2 =
  (WrapHandler show tell [] (Some (Ptr (Some 0%nat))) fresh lost).2.
Proof.
  destruct (internal_hidden show tell [] fresh lost) as [H1 H2]. split; [by apply H1|].
  by apply (H2 (Ptr (Some 0%nat)) 0%nat (mkError "not_found" "no such user" 404 None None) (Some (Foreign "password is 123" []))).
Defined.

(** An error without a status is written as a 500 and not logged. *)
Example zero_status_not_logged :
  let st := {[ 0%nat := mkError "oops" "no status" 0 None None ]} in
  match (WriteWithLogger show tell fresh (Some (Ptr (Some 0%nat))) st).2 with
  | Some (w, log) => (received w).1.1 = 500 /\ log = []
  | None => False
  end.
Proof. vm_compute. done. Qed.

(** A panic after the handler has begun to write: the status stays, and the JSON is
    appended. *)
Example late_panic :
  match (Handler show tell [Write "part"] true fresh ∅).2 with
  | Some w => received w = (200, ∅, "part{error:{code:internal_error,message:an unexpected error occurred}}" +:+ String (byte_of_code 10) "")
  | None => False
  end.
Proof. vm_compute. reflexivity. Qed.
