(* ===== verification/Strconv.v ===== *)
(** * Decimal text as [float64] ([strconv.ParseFloat])

    The syntax that [ParseFloat] reads (decimal and hexadecimal, with
    underscores, and the names of the infinities and of the NaN) and the value it
    gives: the nearest float64, ties to even, or an error outside its range. *)

From Stdlib Require Import Floats.SpecFloat.
From S2P Require Import Prelude Float64 GoStrings.
#[local] Open Scope list_scope.

(** ** Syntax *)

Definition lower_is (c : ascii) (d : ascii) : bool := Ascii.eqb (lower_byte c) d.

Definition cut_sign (s : string) : bool * string :=
  match s with
  | String c s' => if Ascii.eqb c "-" then (true, s') else if Ascii.eqb c "+" then (false, s') else (false, s)
  | "" => (false, s)
  end.

Definition f64_inf (neg : bool) : float64 := S754_infinity neg.

(** [special]: the whole of [s] is the name of a value. *)
Definition special (s : string) : option float64 :=
  let '(neg, t) := cut_sign s in
  if String.eqb (ToLower t) "inf" || String.eqb (ToLower t) "infinity" then Some (f64_inf neg)
  else if String.eqb (ToLower s) "nan" then Some S754_nan
  else None.

(** The value of a hexadecimal digit that is not a decimal one. *)
Definition hex_letter (c : ascii) : option Z :=
  let c := lower_byte c in
  if (97 <=? byte_code c) && (byte_code c <=? 102) then Some (byte_code c - 87) else None.

(** The digits of a mantissa: their value, how many stand after the point,
    whether there was one at all, and the text after them. *)
Fixpoint scan_mantissa (hex dot saw : bool) (mant frac : Z) (s : string) : Z * Z * bool * string :=
  match s with
  | "" => (mant, frac, saw, s)
  | String c s' =>
      let base := if hex then 16 else 10 in
      let digit d := scan_mantissa hex dot true (mant * base + d) (if dot then frac + 1 else frac) s' in
      if Ascii.eqb c "_" then scan_mantissa hex dot saw mant frac s'
      else if Ascii.eqb c "." then if dot then (mant, frac, saw, s) else scan_mantissa hex true saw mant frac s'
      else if is_digit c then digit (byte_code c - 48)
      else
        match (if hex then hex_letter c else None) with
        | Some d => digit d
        | None => (mant, frac, saw, s)
        end
  end.

(** The digits of an exponent, which is not counted beyond five digits. *)
Fixpoint scan_exponent (e : Z) (s : string) : Z * string :=
  match s with
  | "" => (e, s)
  | String c s' =>
      if Ascii.eqb c "_" then scan_exponent e s'
      else if is_digit c then scan_exponent (if e <? 10000 then e * 10 + (byte_code c - 48) else e) s'
      else (e, s)
  end.

(** [underscoreOK]: underscores stand between digits, or after a prefix. *)
Inductive seen := SeenStart | SeenDigit | SeenUnderscore | SeenOther.

Fixpoint underscores (hex : bool) (saw : seen) (s : string) : bool :=
  match s with
  | "" => match saw with SeenUnderscore => false | _ => true end
  | String c s =>
      if is_digit c || (hex && (match hex_letter c with Some _ => true | None => false end))
      then underscores hex SeenDigit s
      else if Ascii.eqb c "_" then match saw with SeenDigit => underscores hex SeenUnderscore s | _ => false end
      else match saw with SeenUnderscore => false | _ => underscores hex SeenOther s end
  end.

Definition underscoreOK (s : string) : bool :=
  let t := (cut_sign s).2 in
  match t with
  | String "0" (String x u) =>
      if lower_is x "b" || lower_is x "o" || lower_is x "x" then underscores (lower_is x "x") SeenDigit u
      else underscores false SeenStart t
  | _ => underscores false SeenStart t
  end.

(** [readFloat] of a whole string: the sign, whether the base is sixteen, the
    mantissa as an integer and the exponent of ten or two that goes with it. *)
Definition readFloat (s : string) : option (bool * bool * Z * Z) :=
  let '(neg, t) := cut_sign s in
  let '(hex, t) :=
    match t with
    | String "0" (String x (String c u)) => if lower_is x "x" then (true, String c u) else (false, t)
    | _ => (false, t)
    end in
  let '(mant, frac, saw, t) := scan_mantissa hex false false 0 0 t in
  if negb saw then None
  else
    let scale e := if hex then e - 4 * frac else e - frac in
    let whole e := if underscoreOK s then Some (neg, hex, mant, scale e) else None in
    match t with
    | "" => if hex then None else whole 0
    | String c t =>
        if lower_is c (if hex then "p" else "e") then
          let '(eneg, t) := cut_sign t in
          match t with
          | String d _ =>
              if is_digit d then
                let '(e, t) := scan_exponent 0 t in
                if String.eqb t "" then whole (if eneg then - e else e) else None
              else None
          | "" => None
          end
        else None
    end.

(** ** Value *)

(** The nearest float64 of [mant * 10 ^ e] or [mant * 2 ^ e]. *)
Definition f64_of_decimal (neg : bool) (mant e : Z) : float64 :=
  match mant with
  | Z.pos m =>
      if 0 <=? e then (if neg then f64_of_int (- (mant * 10 ^ e)) else f64_of_int (mant * 10 ^ e))
      else f64_div (S754_finite neg m 0) (S754_finite false (Z.to_pos (10 ^ (- e))) 0)
  | _ => S754_zero neg
  end.

Definition f64_of_hex (neg : bool) (mant e : Z) : float64 :=
  match mant with
  | Z.pos m => binary_normalize f64_prec f64_emax (if neg then - mant else mant) e neg
  | _ => S754_zero neg
  end.

Definition f64_is_inf (x : float64) : bool := match x with S754_infinity _ => true | _ => false end.

(** [strconv.ParseFloat(s, 64)]: [None] is a syntax or a range error. *)
Definition ParseFloat (s : string) : option float64 :=
  match special s with
  | Some x => Some x
  | None =>
      match readFloat s with
      | Some (neg, hex, mant, e) =>
          let x := if hex then f64_of_hex neg mant e else f64_of_decimal neg mant e in
          if f64_is_inf x then None else Some x
      | None => None
      end
  end.

(** ** Integers *)

Lemma scan_mantissa_digits s saw acc v :
  parse_digits s acc = Some v ->
  scan_mantissa false false saw acc 0 s = (v, 0, saw || negb (String.eqb s ""), "").
Proof.
  revert saw acc. induction s as [|c s IH]; intros saw acc; cbn [parse_digits scan_mantissa].
  - intros [= <-]. by rewrite orb_false_r.
  - destruct (is_digit c) eqn:Hc; [|done]. intros Hp.
    assert (Ascii.eqb c "_" = false /\ Ascii.eqb c "." = false) as [-> ->]
      by (split; apply Ascii.eqb_neq; by intros ->).
    rewrite (IH true _ Hp). by rewrite orb_true_r.
Qed.

Lemma underscores_digits st s :
  string_forall is_digit s = true -> st <> SeenUnderscore -> underscores false st s = true.
Proof.
  revert st. induction s as [|c s IH]; intros st; cbn [string_forall underscores]; [by destruct st|].
  intros [Hc Hs]%andb_prop Hst. rewrite Hc. by apply IH.
Qed.

Lemma parse_digits_forall s acc v : parse_digits s acc = Some v -> string_forall is_digit s = true.
Proof.
  revert acc. induction s as [|c s IH]; intros acc; cbn; [done|]. destruct (is_digit c); [|done]. by apply IH.
Qed.

Lemma digit_not_letter c d : is_digit c = true -> is_digit d = false -> lower_byte d = d -> lower_is c d = false.
Proof.
  intros Hc Hd Hl. unfold lower_is. apply Ascii.eqb_neq. intros He.
  assert (lower_byte c = c) as Hlc.
  { unfold lower_byte, is_digit in *. destruct (is_upper c) eqn:Hu; [|done]. unfold is_upper in Hu. lia. }
  congruence.
Qed.

(** A string of digits, with or without a minus sign, is the integer it shows. *)
Lemma readFloat_digits neg c s v :
  parse_digits (String c s) 0 = Some v ->
  readFloat (if neg : bool then String "-" (String c s) else String c s) = Some (neg, false, v, 0).
Proof.
  intros Hp. pose proof (parse_digits_forall _ _ _ Hp) as Hd. cbn [string_forall] in Hd.
  apply andb_prop in Hd as [Hc Hs].
  assert (cut_sign (if neg then String "-" (String c s) else String c s) = (neg, String c s)) as Hcut.
  { destruct neg; [done|]. unfold cut_sign.
    assert (Ascii.eqb c "-" = false /\ Ascii.eqb c "+" = false) as [-> ->] by (split; apply Ascii.eqb_neq; by intros ->). done. }
  assert (underscoreOK (if neg then String "-" (String c s) else String c s) = true) as Hu.
  { unfold underscoreOK. rewrite Hcut. cbn [snd].
    assert (underscores false SeenStart (String c s) = true) as Hall by (apply underscores_digits; cbn; [by rewrite Hc|done]).
    destruct s as [|x u]; [by destruct c as [[] [] [] [] [] [] [] []]|].
    cbn [string_forall] in Hs. apply andb_prop in Hs as [Hx _]. rewrite !(digit_not_letter x) by done. cbn [orb].
    by destruct c as [[] [] [] [] [] [] [] []]. }
  unfold readFloat. rewrite Hcut.
  assert ((match String c s with
           | String "0" (String x (String c' u)) => if lower_is x "x" then (true, String c' u) else (false, String c s)
           | _ => (false, String c s)
           end) = (false, String c s)) as ->.
  { destruct s as [|x [|y u]]; [by destruct c as [[] [] [] [] [] [] [] []] | by destruct c as [[] [] [] [] [] [] [] []]|].
    cbn [string_forall] in Hs. apply andb_prop in Hs as [Hx _]. rewrite (digit_not_letter x) by done.
    by destruct c as [[] [] [] [] [] [] [] []]. }
  rewrite (scan_mantissa_digits _ false 0 v Hp). cbn [orb negb String.eqb]. by rewrite Hu.
Qed.

Lemma special_digits neg c s :
  is_digit c = true -> special (if neg : bool then String "-" (String c s) else String c s) = None.
Proof.
  intros Hc. unfold special.
  assert (cut_sign (if neg then String "-" (String c s) else String c s) = (neg, String c s)) as ->.
  { destruct neg; [done|]. unfold cut_sign.
    assert (Ascii.eqb c "-" = false /\ Ascii.eqb c "+" = false) as [-> ->] by (split; apply Ascii.eqb_neq; by intros ->). done. }
  unfold ToLower. cbn [string_map]. pose proof (digit_not_letter c "i" Hc eq_refl eq_refl) as Hi.
  pose proof (digit_not_letter c "n" Hc eq_refl eq_refl) as Hn. unfold lower_is in *. cbn [String.eqb]. rewrite Hi.
  cbn [orb]. destruct neg; [done|]. cbn [string_map String.eqb]. by rewrite Hn.
Qed.

(** [ParseFloat] of a printed integer is its conversion. *)
Lemma ParseFloat_Itoa z : exact_signed z -> ParseFloat (Itoa z) = Some (f64_of_int z).
Proof.
  unfold exact_signed. intros Hz. unfold Itoa.
  destruct (digits_of_head (Z.to_nat (Z.log2 (Z.abs z))) (Z.abs z) "" ltac:(lia)) as (c & s & Hd & Hc).
  pose proof (parse_digits_of _ _ "" (Itoa_fuel (Z.abs z) ltac:(lia))) as Hp. rewrite Hd in *.
  change (parse_digits "" (Z.abs z)) with (Some (Z.abs z)) in Hp.
  unfold ParseFloat. rewrite special_digits, (readFloat_digits (z <? 0) c s _ Hp) by done.
  assert (f64_of_decimal (z <? 0) (Z.abs z) 0 = f64_of_int z) as ->.
  { destruct z as [|p|p]; [done| |].
    - change (f64_of_int (Z.pos p * 10 ^ 0) = f64_of_int (Z.pos p)). f_equal. lia.
    - change (f64_of_int (- (Z.pos p * 10 ^ 0)) = f64_of_int (Z.neg p)). f_equal. lia. }
  assert (f64_is_inf (f64_of_int z) = false) as ->; [|done].
  destruct (decide (z = 0)) as [->|]; [done|]. destruct (decide (0 < z)).
  - by rewrite f64_of_int_canon by lia.
  - rewrite <- (Z.opp_involutive z), f64_of_int_opp, f64_of_int_canon by lia. done.
Qed.
