(* ===== verification/Geo.v ===== *)
(** * Coordinates and geohashes ([pantry/geo/geo.go], [geohash.go])

    Degrees are binary64 numbers, with the rounding of Go ([Float64]); the edges of
    the cells of a geohash are exact ([Dyadic]).  The trigonometry of [geo.go] is
    not modelled, nor is what [strings.ToLower] does to letters that are not ASCII
    (it maps the Kelvin sign to a [k]). *)

From stdpp Require Import list numbers strings.
From Stdlib Require Import Floats.SpecFloat.
From S2P Require Import Prelude Float64 Dyadic GoStrings Strconv.

#[local] Open Scope list_scope.

(** ** Coordinates and boxes ([geo.go]) *)

Record Coord := mkCoord { Lat : float64; Lon : float64 }.

Record BoundingBox := mkBox { MinLat : float64; MaxLat : float64; MinLon : float64; MaxLon : float64 }.

Definition deg (n : Z) : float64 := f64_of_int n.

Definition Valid (c : Coord) : bool :=
  f64_le (deg (-90)) (Lat c) && f64_le (Lat c) (deg 90) && f64_le (deg (-180)) (Lon c) && f64_le (Lon c) (deg 180).

Definition IsZero (c : Coord) : bool := f64_eq (Lat c) (deg 0) && f64_eq (Lon c) (deg 0).

Definition Contains (bb : BoundingBox) (c : Coord) : bool :=
  f64_le (MinLat bb) (Lat c) && f64_le (Lat c) (MaxLat bb) && f64_le (MinLon bb) (Lon c) && f64_le (Lon c) (MaxLon bb).

Definition middle (x y : float64) : float64 := f64_div (f64_add x y) f64_2.

Definition Center (bb : BoundingBox) : Coord := mkCoord (middle (MinLat bb) (MaxLat bb)) (middle (MinLon bb) (MaxLon bb)).

Definition Expand (bb : BoundingBox) (degrees : float64) : BoundingBox :=
  mkBox (f64_sub (MinLat bb) degrees) (f64_add (MaxLat bb) degrees) (f64_sub (MinLon bb) degrees) (f64_add (MaxLon bb) degrees).

(** A literal with [d] digits after the point. *)
Definition decimal (n : Z) (d : Z) : float64 := f64_div (f64_of_int n) (f64_of_int (10 ^ d)).

Inductive Unit_ := Kilometers | Miles | Meters | Feet | NauticalMiles.

Definition Unit_String (u : Unit_) : string :=
  match u with Kilometers => "km" | Miles => "mi" | Meters => "m" | Feet => "ft" | NauticalMiles => "nm" end.

Definition ConvertDistance (value : float64) (from to : Unit_) : float64 :=
  let meters := match from with
                | Kilometers => f64_mul value (deg 1000)
                | Miles => f64_mul value (decimal 1609344 3)
                | Meters => value
                | Feet => f64_mul value (decimal 3048 4)
                | NauticalMiles => f64_mul value (deg 1852)
                end in
  match to with
  | Kilometers => f64_div meters (deg 1000)
  | Miles => f64_div meters (decimal 1609344 3)
  | Meters => meters
  | Feet => f64_div meters (decimal 3048 4)
  | NauticalMiles => f64_div meters (deg 1852)
  end.

(** The edge from [a], the vertex before, to [b], seen from [point]. *)
Definition crosses (point a b : Coord) : bool :=
  xorb (f64_lt (Lon point) (Lon b)) (f64_lt (Lon point) (Lon a)) &&
  f64_lt (Lat point)
    (f64_add (f64_div (f64_mul (f64_sub (Lat a) (Lat b)) (f64_sub (Lon point) (Lon b))) (f64_sub (Lon a) (Lon b))) (Lat b)).

Fixpoint ray (point before : Coord) (polygon : list Coord) (inside : bool) : bool :=
  match polygon with
  | [] => inside
  | b :: polygon => ray point b polygon (if crosses point before b then negb inside else inside)
  end.

Definition PointInPolygon (point : Coord) (polygon : list Coord) : bool :=
  match list.last polygon with
  | Some b => if (length polygon <? 3)%nat then false else ray point b polygon false
  | None => false
  end.

Fixpoint shoelace (before : Coord) (polygon : list Coord) (area : float64) : float64 :=
  match polygon with
  | [] => area
  | b :: polygon =>
      shoelace b polygon (f64_add area (f64_mul (f64_add (Lon before) (Lon b)) (f64_sub (Lat before) (Lat b))))
  end.

Definition PolygonArea (polygon : list Coord) : float64 :=
  match list.last polygon with
  | Some b =>
      if (length polygon <? 3)%nat then deg 0
      else f64_mul (f64_mul (f64_div (SFabs (shoelace b polygon (deg 0))) f64_2) (deg 111)) (deg 111)
  | None => deg 0
  end.

Definition parseDecimal (s : string) : option Coord :=
  match split_byte "," s with
  | [a; b] =>
      match ParseFloat (TrimSpace a), ParseFloat (TrimSpace b) with
      | Some lat, Some lon => let coord := mkCoord lat lon in if Valid coord then Some coord else None
      | _, _ => None
      end
  | _ => None
  end.

(** ** Geohashes ([geohash.go]) *)

Definition base32 : string := "0123456789bcdefghjkmnpqrstuvwxyz".
Definition base32_at (i : Z) : ascii := default "0"%char (String.get (Z.to_nat i) base32).

(** [strings.IndexRune], -1 when there is none. *)
Fixpoint index_from (i : Z) (s : string) (c : ascii) : Z :=
  match s with "" => -1 | String d s => if Ascii.eqb d c then i else index_from (i + 1) s c end.
Definition IndexByte : string -> ascii -> Z := index_from 0.

Definition world : BoundingBox := mkBox (deg (-90)) (deg 90) (deg (-180)) (deg 180).

Definition mid (isLon : bool) (b : BoundingBox) : float64 :=
  if isLon then middle (MinLon b) (MaxLon b) else middle (MinLat b) (MaxLat b).

(** The half of the box that a bit says. *)
Definition halve (isLon up : bool) (b : BoundingBox) : BoundingBox :=
  let m := mid isLon b in
  match isLon, up with
  | true, true => mkBox (MinLat b) (MaxLat b) m (MaxLon b)
  | true, false => mkBox (MinLat b) (MaxLat b) (MinLon b) m
  | false, true => mkBox m (MaxLat b) (MinLon b) (MaxLon b)
  | false, false => mkBox (MinLat b) m (MinLon b) (MaxLon b)
  end.

Record encoder := mkEncoder { e_box : BoundingBox; e_hash : string; e_bit : Z; e_ch : Z; e_isLon : bool }.

Definition put_bit (up : bool) (bit ch : Z) : Z := if up then Z.lor ch (Z.shiftl 1 (4 - bit)) else ch.

Definition encode_bit (c : Coord) (e : encoder) : encoder :=
  let up := f64_le (mid (e_isLon e) (e_box e)) (if e_isLon e then Lon c else Lat c) in
  let ch := put_bit up (e_bit e) (e_ch e) in
  let box := halve (e_isLon e) up (e_box e) in
  if e_bit e + 1 =? 5 then mkEncoder box (e_hash e +:+ String (base32_at ch) "") 0 0 (negb (e_isLon e))
  else mkEncoder box (e_hash e) (e_bit e + 1) ch (negb (e_isLon e)).

Fixpoint encode_loop (fuel : nat) (c : Coord) (precision : Z) (e : encoder) : encoder :=
  match fuel with
  | O => e
  | S fuel => if strlen (e_hash e) <? precision then encode_loop fuel c precision (encode_bit c e) else e
  end.

Definition clamp_precision (precision : Z) : Z :=
  let precision := if precision <? 1 then 1 else precision in if 12 <? precision then 12 else precision.

(** Five bits for each character: sixty for the longest. *)
Definition Geohash (c : Coord) (precision : Z) : string :=
  e_hash (encode_loop 61 c (clamp_precision precision) (mkEncoder world "" 0 0 true)).

Inductive geo_error := ErrInvalidGeohash.

Definition has_bit (idx bit : Z) : bool := negb (Z.land idx (Z.shiftl 1 bit) =? 0).

Definition decode_bit (idx : Z) (st : BoundingBox * bool) (bit : Z) : BoundingBox * bool :=
  (halve st.2 (has_bit idx bit) st.1, negb st.2).
Definition decode_char (st : BoundingBox * bool) (idx : Z) : BoundingBox * bool := foldl (decode_bit idx) st [4; 3; 2; 1; 0].

Fixpoint decode_loop (st : BoundingBox * bool) (hash : string) : result geo_error (BoundingBox * bool) :=
  match hash with
  | "" => Ok st
  | String c hash =>
      let idx := IndexByte base32 c in
      if idx =? -1 then Err ErrInvalidGeohash else decode_loop (decode_char st idx) hash
  end.

Definition GeohashBounds (hash : string) : result geo_error BoundingBox :=
  match decode_loop (world, true) (ToLower hash) with Ok st => Ok st.1 | Err e => Err e end.

Definition GeohashDecode (hash : string) : result geo_error Coord :=
  match GeohashBounds hash with Ok bounds => Ok (Center bounds) | Err e => Err e end.

(** N, NE, E, SE, S, SW, W, NW: latitude, longitude. *)
Definition offsets : list (Z * Z) := [(1, 0); (1, 1); (0, 1); (-1, 1); (-1, 0); (-1, -1); (0, -1); (1, -1)].

Definition neighbor (bounds : BoundingBox) (precision : Z) (offset : Z * Z) : string :=
  let center := Center bounds in
  let latDelta := f64_sub (MaxLat bounds) (MinLat bounds) in
  let lonDelta := f64_sub (MaxLon bounds) (MinLon bounds) in
  Geohash (mkCoord (f64_add (Lat center) (f64_mul (deg offset.1) latDelta))
                   (f64_add (Lon center) (f64_mul (deg offset.2) lonDelta))) precision.

Definition GeohashNeighbors (hash : string) : result geo_error (list string) :=
  match GeohashBounds hash with
  | Ok bounds => Ok (map (neighbor bounds (strlen hash)) offsets)
  | Err e => Err e
  end.

Definition precisions : list (float64 * float64) :=
  [(deg 23, deg 23); (decimal 28 1, decimal 56 1); (decimal 70 2, decimal 70 2); (decimal 87 3, decimal 18 2);
   (decimal 22 3, decimal 22 3); (decimal 27 4, decimal 55 4); (decimal 68 5, decimal 68 5); (decimal 86 6, decimal 17 5);
   (decimal 21 6, decimal 21 6); (decimal 27 7, decimal 53 7); (decimal 67 8, decimal 67 8); (decimal 83 9, decimal 17 8)].

Definition GeohashPrecision (precision : Z) : float64 * float64 :=
  nth (Z.to_nat (clamp_precision precision - 1)) precisions (deg 0, deg 0).

Definition GeohashContains (parent child : string) : bool := HasPrefix (ToLower child) (ToLower parent).

(** [if !seen\[hash\]], with the list of the hashes for [seen]. *)
Definition add_hash (hashes : list string) (hash : string) : list string :=
  if existsb (String.eqb hash) hashes then hashes else hashes ++ [hash].

Fixpoint lon_loop (fuel : nat) (lat lon last step : float64) (precision : Z) (hashes : list string) : option (list string) :=
  if negb (f64_le lon last) then Some hashes
  else match fuel with
       | O => None
       | S fuel => lon_loop fuel lat (f64_add lon step) last step precision (add_hash hashes (Geohash (mkCoord lat lon) precision))
       end.

Fixpoint lat_loop (fuel : nat) (bounds : BoundingBox) (lat latStep lonStep : float64) (precision : Z) (hashes : list string)
  : option (list string) :=
  if negb (f64_le lat (MaxLat bounds)) then Some hashes
  else match fuel with
       | O => None
       | S fuel' =>
           match lon_loop fuel lat (MinLon bounds) (MaxLon bounds) lonStep precision hashes with
           | None => None
           | Some hashes => lat_loop fuel' bounds (f64_add lat latStep) latStep lonStep precision hashes
           end
       end.

(** [None]: more than [fuel] steps; the loops do not end when a bound is infinite. *)
Definition GeohashesInBounds (fuel : nat) (bounds : BoundingBox) (precision : Z) : option (list string) :=
  let precision := clamp_precision precision in
  let '(latErr, lonErr) := GeohashPrecision precision in
  match lat_loop fuel bounds (MinLat bounds) (f64_mul latErr f64_2) (f64_mul lonErr f64_2) precision [] with
  | None => None
  | Some hashes =>
      Some (foldl (fun hashes corner => add_hash hashes (Geohash corner precision)) hashes
        [mkCoord (MinLat bounds) (MinLon bounds); mkCoord (MinLat bounds) (MaxLon bounds);
         mkCoord (MaxLat bounds) (MinLon bounds); mkCoord (MaxLat bounds) (MaxLon bounds)])
  end.

Definition GeohashValid (hash : string) : bool :=
  negb ((String.length hash =? 0)%nat || (12 <? String.length hash)%nat) &&
  string_forall (fun c => negb (IndexByte base32 c =? -1)) (ToLower hash).


(** ** Lemmas: the edges of the cells *)

(** The edge [i] of the [2 ^ k] cells between [-w] and [w]. *)
Definition edge (w k i : Z) : float64 := f64_dy (w * (2 * i - 2 ^ k)) k.

Definition axis (w k i : Z) : Prop := 0 < w <= 180 /\ 0 <= k <= 31 /\ 0 <= i <= 2 ^ k.

Lemma axis_pow k : 0 <= k <= 31 -> 0 < 2 ^ k <= 2 ^ 31.
Proof. intros Hk. split; [apply Z.pow_pos_nonneg; lia|]. apply Z.pow_le_mono_r; lia. Qed.

Lemma small_axis z : Z.abs z <= 1000 * 2 ^ 32 -> small z.
Proof. unfold small. lia. Qed.

(** Products with the width are bounded; the rest is linear. *)
Ltac axis := unfold axis in *; repeat match goal with H : _ /\ _ |- _ => destruct H end;
  repeat match goal with Hk : 0 <= ?k, Hk' : ?k <= 31 |- _ =>
    lazymatch goal with _ : 0 < 2 ^ k <= 2 ^ 31 |- _ => fail | _ => pose proof (axis_pow k (conj Hk Hk')) end end;
  try apply small_axis; try nia.

Lemma edge_small w k i : axis w k i -> small (w * (2 * i - 2 ^ k)).
Proof. intros H. axis. Qed.

Lemma edge_double w k i : axis w k i -> edge w (k + 1) (2 * i) = edge w k i.
Proof.
  intros H. unfold edge. rewrite <- (f64_dy_double (w * (2 * i - 2 ^ k))); [|by apply edge_small|destruct H as (_ & ? & _); lia].
  f_equal. destruct H as (_ & ? & _). rewrite Z.pow_add_r by lia. ring.
Qed.

Lemma middle_edge w k i : axis w k i -> axis w k (i + 1) -> middle (edge w k i) (edge w k (i + 1)) = edge w (k + 1) (2 * i + 1).
Proof.
  intros H H'. unfold middle, edge. rewrite f64_add_dy; [| by apply edge_small | by apply edge_small | axis | axis].
  rewrite f64_half_dy; [|axis|axis]. f_equal. destruct H as (_ & ? & _). rewrite Z.pow_add_r by lia. ring.
Qed.

Lemma edge_le w k i j : axis w k i -> axis w k j -> f64_le (edge w k i) (edge w k j) = (i <=? j).
Proof.
  intros H H'. unfold edge. rewrite f64_le_dy; [| by apply edge_small | by apply edge_small | axis].
  destruct (Z.leb_spec i j); [apply Z.leb_le|apply Z.leb_gt]; axis.
Qed.

Lemma edge_nan w k i : axis w k i -> f64_is_nan (edge w k i) = false.
Proof. intros H. apply f64_dy_nan; [by apply edge_small|axis]. Qed.

(** The cell of column [x] and row [y]. *)
Record cell := mkCell { kx : Z; cx : Z; ky : Z; cy : Z }.

Definition in_world (t : cell) : Prop := 0 <= kx t <= 30 /\ 0 <= cx t < 2 ^ kx t /\ 0 <= ky t <= 30 /\ 0 <= cy t < 2 ^ ky t.

Definition box (t : cell) : BoundingBox :=
  mkBox (edge 90 (ky t) (cy t)) (edge 90 (ky t) (cy t + 1)) (edge 180 (kx t) (cx t)) (edge 180 (kx t) (cx t + 1)).

Definition half_cell (isLon up : bool) (t : cell) : cell :=
  let b := if up then 1 else 0 in
  if isLon then mkCell (kx t + 1) (2 * cx t + b) (ky t) (cy t) else mkCell (kx t) (cx t) (ky t + 1) (2 * cy t + b).

Lemma box_world : world = box (mkCell 0 0 0 0).
Proof. reflexivity. Qed.

Lemma in_world_axes t : in_world t ->
  axis 180 (kx t) (cx t) /\ axis 180 (kx t) (cx t + 1) /\ axis 90 (ky t) (cy t) /\ axis 90 (ky t) (cy t + 1).
Proof. unfold in_world, axis. lia. Qed.

Lemma mid_box isLon t : in_world t ->
  mid isLon (box t) = if isLon then edge 180 (kx t + 1) (2 * cx t + 1) else edge 90 (ky t + 1) (2 * cy t + 1).
Proof. intros (Hx & Hx' & Hy & Hy')%in_world_axes. destruct isLon; cbn; by rewrite middle_edge. Qed.

Lemma halve_box isLon up t : in_world t -> halve isLon up (box t) = box (half_cell isLon up t).
Proof.
  intros H. unfold halve. rewrite mid_box by done. destruct (in_world_axes t H) as (Hx & Hx' & Hy & Hy').
  destruct isLon, up; unfold half_cell, box; cbn [MinLat MaxLat MinLon MaxLon kx cx ky cy]; f_equal;
    rewrite ?Z.add_0_r, <- ?edge_double by done; f_equal; ring.
Qed.

(** ** Lemmas: bits *)

Definition bit_up (c : Coord) (isLon : bool) (b : BoundingBox) : bool := f64_le (mid isLon b) (if isLon then Lon c else Lat c).

(** What five turns of the loop of [Geohash] do. *)
Definition encode_step (c : Coord) (s : Z * (BoundingBox * bool)) (i : Z) : Z * (BoundingBox * bool) :=
  let '(ch, (b, l)) := s in let u := bit_up c l b in (put_bit u i ch, (halve l u b, negb l)).
Definition five (c : Coord) (st : BoundingBox * bool) : Z * (BoundingBox * bool) := foldl (encode_step c) (0, st) [0; 1; 2; 3; 4].

(** The bits that are put are the bits that are read. *)
Lemma five_decode c st : 0 <= (five c st).1 < 32 /\ decode_char st (five c st).1 = (five c st).2.
Proof.
  destruct st as [b l]. unfold five, decode_char. cbn [foldl encode_step].
  set (u0 := bit_up c l b). set (b1 := halve l u0 b). set (u1 := bit_up c (negb l) b1). set (b2 := halve (negb l) u1 b1).
  set (u2 := bit_up c (negb (negb l)) b2). set (b3 := halve (negb (negb l)) u2 b2).
  set (u3 := bit_up c (negb (negb (negb l))) b3). set (b4 := halve (negb (negb (negb l))) u3 b3).
  set (u4 := bit_up c (negb (negb (negb (negb l)))) b4). cbn [fst snd]. unfold decode_bit. cbn [fst snd].
  assert (E : forall v0 v1 v2 v3 v4, let ch := put_bit v4 4 (put_bit v3 3 (put_bit v2 2 (put_bit v1 1 (put_bit v0 0 0)))) in
    (0 <= ch < 32) /\ has_bit ch 4 = v0 /\ has_bit ch 3 = v1 /\ has_bit ch 2 = v2 /\ has_bit ch 1 = v3 /\ has_bit ch 0 = v4)
    by (intros [] [] [] [] []; cbn; done).
  destruct (E u0 u1 u2 u3 u4) as (Hr & -> & -> & -> & -> & ->). done.
Qed.

Lemma five_encode c b l h :
  Nat.iter 5 (encode_bit c) (mkEncoder b h 0 0 l) =
  let '(ch, (b', l')) := five c (b, l) in mkEncoder b' (h +:+ String (base32_at ch) "") 0 0 l'.
Proof. reflexivity. Qed.

Fixpoint chars (n : nat) (c : Coord) (st : BoundingBox * bool) : string * (BoundingBox * bool) :=
  match n with
  | O => ("", st)
  | S n => let '(ch, st) := five c st in let '(h, st) := chars n c st in (String (base32_at ch) h, st)
  end.

Lemma loop_five f c p b h l : strlen h < p ->
  encode_loop (5 + f) c p (mkEncoder b h 0 0 l) = encode_loop f c p (Nat.iter 5 (encode_bit c) (mkEncoder b h 0 0 l)).
Proof.
  intros Hp. apply Z.ltb_lt in Hp. cbn [Nat.add Nat.iter]. set (e := mkEncoder b h 0 0 l).
  assert (E : forall e, (strlen (e_hash e) <? p) = true -> forall f, encode_loop (S f) c p e = encode_loop f c p (encode_bit c e)).
  { intros e0 He f0. cbn [encode_loop]. by rewrite He. }
  rewrite !E; [done|exact Hp..].
Qed.

Lemma strlen_snoc h c : strlen (h +:+ String c "") = strlen h + 1.
Proof. unfold strlen. rewrite string_length_app. cbn. lia. Qed.

Lemma loop_chars n f c p b h l : strlen h + Z.of_nat n = p ->
  e_hash (encode_loop (5 * n + S f) c p (mkEncoder b h 0 0 l)) = (h +:+ (chars n c (b, l)).1).
Proof.
  revert b h l. induction n as [|n IH]; intros b h l Hp.
  - cbn [Nat.mul Nat.add encode_loop chars fst]. rewrite string_app_nil_r. cbn [e_hash]. by rewrite (proj2 (Z.ltb_ge _ _)) by lia.
  - replace (5 * S n + S f)%nat with (5 + (5 * n + S f))%nat by lia. rewrite loop_five by lia. rewrite five_encode. cbn [chars].
    destruct (five c (b, l)) as [ch [b' l']]. rewrite IH by (rewrite strlen_snoc; lia).
    destruct (chars n c (b', l')) as [h' st']. cbn [fst]. by rewrite <- string_app_assoc.
Qed.

Lemma clamp_range p : 1 <= clamp_precision p <= 12.
Proof. unfold clamp_precision. destruct (Z.ltb_spec p 1), (Z.ltb_spec 12 1), (Z.ltb_spec 12 p); lia. Qed.

Lemma clamp_id p : 1 <= p <= 12 -> clamp_precision p = p.
Proof. unfold clamp_precision. intros. destruct (Z.ltb_spec p 1), (Z.ltb_spec 12 1), (Z.ltb_spec 12 p); lia. Qed.

Lemma Geohash_chars c p : Geohash c p = (chars (Z.to_nat (clamp_precision p)) c (world, true)).1.
Proof.
  unfold Geohash. pose proof (clamp_range p) as Hr. replace 61%nat with (5 * Z.to_nat (clamp_precision p) + S (60 - 5 * Z.to_nat (clamp_precision p)))%nat by lia.
  rewrite loop_chars; [done|]. unfold strlen. cbn [String.length]. lia.
Qed.

Lemma base32_index ch : 0 <= ch < 32 -> IndexByte base32 (base32_at ch) = ch.
Proof.
  intros H. assert (E : Forall (fun n => IndexByte base32 (base32_at (Z.of_nat n)) = Z.of_nat n) (seq 0 32)) by (repeat constructor).
  rewrite list.Forall_forall in E. specialize (E (Z.to_nat ch)). rewrite Z2Nat.id in E by lia. apply E, elem_of_seq. lia.
Qed.

Lemma base32_lower ch : 0 <= ch < 32 -> lower_byte (base32_at ch) = base32_at ch.
Proof.
  intros H. assert (E : Forall (fun n => lower_byte (base32_at (Z.of_nat n)) = base32_at (Z.of_nat n)) (seq 0 32)) by (repeat constructor).
  rewrite list.Forall_forall in E. specialize (E (Z.to_nat ch)). rewrite Z2Nat.id in E by lia. apply E, elem_of_seq. lia.
Qed.

Lemma chars_spec n c st :
  decode_loop st (chars n c st).1 = Ok (chars n c st).2 /\ ToLower (chars n c st).1 = (chars n c st).1 /\
  String.length (chars n c st).1 = n /\ string_forall (fun c => negb (IndexByte base32 c =? -1)) (chars n c st).1 = true.
Proof.
  revert st. induction n as [|n IH]; intros st; [done|]. cbn [chars]. destruct (five_decode c st) as [Hr Hd].
  destruct (five c st) as [ch st1]. cbn [fst snd] in *. specialize (IH st1). destruct (chars n c st1) as [h st2]. cbn [fst snd] in *.
  destruct IH as (IH1 & IH2 & IH3 & IH4). cbn [decode_loop String.length string_forall]. rewrite base32_index by done.
  rewrite (proj2 (Z.eqb_neq ch (-1))) by lia. rewrite Hd. unfold ToLower in *. cbn [string_map]. rewrite base32_lower, IH2, IH4, IH3 by done. done.
Qed.

(** ** Lemmas: cells *)

(** A state of the loops: a cell, and the axis that is next. *)
Definition at_depth (m : Z) (st : BoundingBox * bool) : Prop :=
  exists t, st.1 = box t /\ in_world t /\ kx t = ky t + (if st.2 then 0 else 1) /\ kx t + ky t = m.

Lemma at_depth_world : at_depth 0 (world, true).
Proof. exists (mkCell 0 0 0 0). rewrite box_world. unfold in_world. cbn [kx cx ky cy fst snd]. split; [done|]. change (2 ^ 0) with 1. lia. Qed.

Lemma half_in_world (isLon up : bool) t m : in_world t -> kx t = ky t + (if isLon then 0 else 1) -> kx t + ky t = m -> m < 60 ->
  in_world (half_cell isLon up t) /\ kx (half_cell isLon up t) = ky (half_cell isLon up t) + (if negb isLon then 0 else 1) /\
  kx (half_cell isLon up t) + ky (half_cell isLon up t) = m + 1.
Proof.
  unfold in_world. intros (Hkx & Hx & Hky & Hy) Hk Hm Hl.
  destruct isLon, up; cbn [half_cell kx cx ky cy negb] in *; rewrite ?(Z.pow_add_r 2 _ 1) by lia; lia.
Qed.

Lemma at_depth_step m st up : at_depth m st -> m < 60 -> at_depth (m + 1) (halve st.2 up st.1, negb st.2).
Proof.
  intros (t & Hb & Hw & Hk & Hm) Hl. destruct (half_in_world st.2 up t m Hw Hk Hm Hl) as (Hw' & Hk' & Hm').
  exists (half_cell st.2 up t). cbn [fst snd]. by rewrite Hb, halve_box.
Qed.

(** *** A chosen half contains the point *)

Lemma half_contains c isLon t : in_world t -> Contains (box t) c = true ->
  Contains (box (half_cell isLon (bit_up c isLon (box t)) t)) c = true.
Proof.
  intros H Hc. rewrite <- halve_box by done. unfold Contains in *. apply andb_true_iff in Hc as [[[H1 H2]%andb_true_iff H3]%andb_true_iff H4].
  destruct (in_world_axes t H) as (Hx & Hx' & Hy & Hy').
  assert (Hn : f64_is_nan (mid isLon (box t)) = false).
  { rewrite mid_box by done. destruct isLon; apply edge_nan; unfold axis, in_world in *; rewrite Z.pow_add_r by lia; lia. }
  destruct (f64_le_nan _ _ H1) as [_ Hlat]. destruct (f64_le_nan _ _ H3) as [_ Hlon].
  unfold halve, bit_up. destruct isLon.
  - destruct (f64_le (mid true (box t)) (Lon c)) eqn:E; cbn [MinLat MaxLat MinLon MaxLon]; rewrite ?H1, ?H2, ?H3, ?H4, ?E; [done|].
    by rewrite f64_le_total.
  - destruct (f64_le (mid false (box t)) (Lat c)) eqn:E; cbn [MinLat MaxLat MinLon MaxLon]; rewrite ?H1, ?H2, ?H3, ?H4, ?E; [done|].
    by rewrite f64_le_total.
Qed.

Definition holds (c : Coord) (m : Z) (st : BoundingBox * bool) : Prop := at_depth m st /\ Contains st.1 c = true.

Lemma holds_step c m st : holds c m st -> m < 60 -> holds c (m + 1) (halve st.2 (bit_up c st.2 st.1) st.1, negb st.2).
Proof.
  intros [Hd Hc] Hl. split; [by apply at_depth_step|]. destruct Hd as (t & Hb & Hw & _). cbn [fst]. rewrite Hb in *.
  rewrite halve_box by done. by apply half_contains.
Qed.

Lemma five_holds c m st : holds c m st -> m + 5 <= 60 -> holds c (m + 5) (five c st).2.
Proof.
  intros H Hl. destruct st as [b l]. unfold five. cbn [foldl encode_step fst snd].
  do 5 (apply holds_step in H; [|lia]; cbn [fst snd] in H). replace (m + 5) with (m + 1 + 1 + 1 + 1 + 1) by lia. exact H.
Qed.

Lemma chars_holds n c m st : holds c m st -> m + 5 * Z.of_nat n <= 60 -> holds c (m + 5 * Z.of_nat n) (chars n c st).2.
Proof.
  revert m st. induction n as [|n IH]; intros m st H Hl; [by rewrite Z.add_0_r|]. cbn [chars].
  pose proof (five_holds c m st H ltac:(lia)) as H5. destruct (five c st) as [ch st1]. cbn [snd] in *.
  pose proof (IH (m + 5) st1 H5 ltac:(lia)) as Hn. destruct (chars n c st1) as [h st2]. cbn [snd] in *.
  replace (m + 5 * Z.of_nat (S n)) with (m + 5 + 5 * Z.of_nat n) by lia. exact Hn.
Qed.

(** *** Only one cell contains a point that is on no upper edge *)

(** The cells with their lower edges and without their upper ones. *)
Definition inside (b : BoundingBox) (c : Coord) : bool :=
  f64_le (MinLat b) (Lat c) && f64_lt (Lat c) (MaxLat b) && f64_le (MinLon b) (Lon c) && f64_lt (Lon c) (MaxLon b).

Lemma mid_between w k i : axis w k i -> axis w k (i + 1) -> k + 1 <= 31 ->
  f64_le (edge w k i) (edge w (k + 1) (2 * i + 1)) = true /\ f64_le (edge w (k + 1) (2 * i + 1)) (edge w k (i + 1)) = true.
Proof.
  intros H H' Hk. rewrite <- (edge_double w k i H), <- (edge_double w k (i + 1) H').
  rewrite !edge_le by (unfold axis in *; rewrite Z.pow_add_r by lia; lia). split; apply Z.leb_le; lia.
Qed.

Lemma step_unique c (isLon up : bool) t m : in_world t -> kx t = ky t + (if isLon then 0 else 1) -> kx t + ky t = m -> m < 60 ->
  inside (halve isLon up (box t)) c = true -> bit_up c isLon (box t) = up /\ inside (box t) c = true.
Proof.
  intros H Hk Hm Hl. destruct (half_in_world isLon up t m H Hk Hm Hl) as (Hw & _).
  assert (Hmid : forall b x y, f64_le b x = true -> f64_lt x y = true -> f64_le b y = true)
    by (intros b x y Hb Hxy%f64_lt_le; by eapply f64_le_trans_any).
  destruct (in_world_axes t H) as (Hx & Hx' & Hy & Hy').
  assert (Hlow : f64_le (if isLon then MinLon (box t) else MinLat (box t)) (mid isLon (box t)) = true /\
                 f64_le (mid isLon (box t)) (if isLon then MaxLon (box t) else MaxLat (box t)) = true).
  { rewrite mid_box by done. destruct isLon; cbn [box MinLon MaxLon MinLat MaxLat]; (apply mid_between; [done|done|unfold in_world in H; lia]). }
  destruct Hlow as [Hlo Hhi]. unfold inside, halve, bit_up.
  destruct isLon, up; cbn [MinLat MaxLat MinLon MaxLon]; intros [[[H1 H2]%andb_true_iff H3]%andb_true_iff H4]%andb_true_iff;
    rewrite ?H1, ?H2, ?H3, ?H4.
  - by rewrite (f64_le_trans_any _ _ _ Hlo H3).
  - rewrite (f64_lt_not_le _ _ H4). by rewrite (f64_lt_le_trans _ _ _ H4 Hhi).
  - by rewrite (f64_le_trans_any _ _ _ Hlo H1).
  - rewrite (f64_lt_not_le _ _ H2). by rewrite (f64_lt_le_trans _ _ _ H2 Hhi).
Qed.

Lemma depth_unique c m b l up : at_depth m (b, l) -> m < 60 -> inside (halve l up b) c = true ->
  bit_up c l b = up /\ inside b c = true.
Proof. intros (t & Hb & Hw & Hk & Hm) Hl Hi. cbn [fst snd] in *. subst b. by apply (step_unique c l up t m). Qed.

Lemma bits_index idx : 0 <= idx < 32 ->
  put_bit (has_bit idx 0) 4 (put_bit (has_bit idx 1) 3 (put_bit (has_bit idx 2) 2 (put_bit (has_bit idx 3) 1 (put_bit (has_bit idx 4) 0 0)))) = idx.
Proof.
  intros H. assert (E : Forall (fun n => let idx := Z.of_nat n in
    put_bit (has_bit idx 0) 4 (put_bit (has_bit idx 1) 3 (put_bit (has_bit idx 2) 2 (put_bit (has_bit idx 3) 1 (put_bit (has_bit idx 4) 0 0)))) = idx)
    (seq 0 32)) by (repeat constructor).
  rewrite list.Forall_forall in E. specialize (E (Z.to_nat idx)). cbn zeta in E. rewrite Z2Nat.id in E by lia. apply E, elem_of_seq. lia.
Qed.

Lemma decode_depth idx m st : at_depth m st -> m + 5 <= 60 -> at_depth (m + 5) (decode_char st idx).
Proof.
  intros H Hl. unfold decode_char, decode_bit. cbn [foldl]. replace (m + 5) with (m + 1 + 1 + 1 + 1 + 1) by lia.
  do 5 (apply at_depth_step; [|lia]). exact H.
Qed.

Lemma bits_unique c idx ns ch m st : at_depth m st -> m + Z.of_nat (length ns) <= 60 ->
  inside (foldl (decode_bit idx) st (map (fun i => 4 - i) ns)).1 c = true ->
  foldl (encode_step c) (ch, st) ns =
    (foldl (fun ch i => put_bit (has_bit idx (4 - i)) i ch) ch ns, foldl (decode_bit idx) st (map (fun i => 4 - i) ns)) /\
  inside st.1 c = true.
Proof.
  revert ch m st. induction ns as [|i ns IH]; intros ch m st H Hl Hi; [done|]. cbn [map foldl length] in *.
  destruct st as [b l]. pose proof (at_depth_step m (b, l) (has_bit idx (4 - i)) H ltac:(lia)) as H'.
  destruct (IH (put_bit (has_bit idx (4 - i)) i ch) (m + 1) _ H' ltac:(lia) Hi) as [E Hi'].
  apply (depth_unique c m) in Hi' as [Eu Hi']; [|exact H|lia]. cbn [encode_step fst snd] in *. by rewrite Eu, E.
Qed.

Lemma five_unique c idx m st : 0 <= idx < 32 -> at_depth m st -> m + 5 <= 60 -> inside (decode_char st idx).1 c = true ->
  five c st = (idx, decode_char st idx) /\ inside st.1 c = true.
Proof.
  intros Hr H Hl Hi. destruct (bits_unique c idx [0; 1; 2; 3; 4] 0 m st H Hl Hi) as [E Hi'].
  split; [|done]. unfold five. rewrite E. f_equal. exact (bits_index idx Hr).
Qed.

Lemma index_from_spec i s c : index_from i s c = -1 \/ exists n, index_from i s c = i + Z.of_nat n /\ String.get n s = Some c.
Proof.
  revert i. induction s as [|d s IH]; intros i; [by left|]. cbn [index_from]. destruct (Ascii.eqb_spec d c) as [->|Hd].
  - right. exists 0%nat. split; [lia|done].
  - destruct (IH (i + 1)) as [E|(n & E & Hn)]; [by left|]. right. exists (S n). rewrite E. split; [lia|done].
Qed.

Lemma base32_inverse c : IndexByte base32 c <> -1 -> 0 <= IndexByte base32 c < 32 /\ base32_at (IndexByte base32 c) = c.
Proof.
  intros Hc. destruct (index_from_spec 0 base32 c) as [E|(n & E & Hn)]; [done|]. unfold IndexByte. rewrite E.
  pose proof (string_get_lt n base32 c Hn) as Hl. change (String.length base32) with 32%nat in Hl. split; [lia|].
  unfold base32_at. replace (Z.to_nat (0 + Z.of_nat n)) with n by lia. by rewrite Hn.
Qed.

Lemma decode_unique c m st h st' : at_depth m st -> m + 5 * strlen h <= 60 -> decode_loop st h = Ok st' ->
  at_depth (m + 5 * strlen h) st' /\ (inside st'.1 c = true -> chars (String.length h) c st = (h, st') /\ inside st.1 c = true).
Proof.
  unfold strlen. revert m st. induction h as [|d h IH]; intros m st H Hl Hd.
  - injection Hd as <-. cbn. rewrite Z.add_0_r. done.
  - cbn [decode_loop String.length] in *. destruct (Z.eqb_spec (IndexByte base32 d) (-1)) as [|Hn]; [done|].
    destruct (base32_inverse d Hn) as [Hr Hc]. pose proof (decode_depth (IndexByte base32 d) m st H ltac:(lia)) as H5.
    destruct (IH (m + 5) _ H5 ltac:(lia) Hd) as [Hd' Hu]. split.
    + replace (m + 5 * Z.of_nat (S (String.length h))) with (m + 5 + 5 * Z.of_nat (String.length h)) by lia. done.
    + intros Hi. destruct (Hu Hi) as [Ech Hi']. destruct (five_unique c _ m st Hr H ltac:(lia) Hi') as [E5 Hi0].
      cbn [chars]. rewrite E5, Ech, Hc. done.
Qed.

(** *** A point of the world is in the half that is chosen, upper edges aside *)

Lemma half_inside c isLon b : f64_is_nan (mid isLon b) = false -> inside b c = true -> inside (halve isLon (bit_up c isLon b) b) c = true.
Proof.
  intros Hn. unfold inside. intros [[[H1 H2]%andb_true_iff H3]%andb_true_iff H4]%andb_true_iff.
  destruct (f64_le_nan _ _ H1) as [_ Hlat]. destruct (f64_le_nan _ _ H3) as [_ Hlon]. unfold halve, bit_up. destruct isLon.
  - destruct (f64_le (mid true b) (Lon c)) eqn:E; cbn [MinLat MaxLat MinLon MaxLon]; rewrite ?H1, ?H2, ?H3, ?H4, ?E; [done|].
    rewrite (f64_lt_of_le (Lon c) (mid true b)); [done|by apply f64_le_total|done].
  - destruct (f64_le (mid false b) (Lat c)) eqn:E; cbn [MinLat MaxLat MinLon MaxLon]; rewrite ?H1, ?H2, ?H3, ?H4, ?E; [done|].
    rewrite (f64_lt_of_le (Lat c) (mid false b)); [done|by apply f64_le_total|done].
Qed.

Lemma depth_mid_nan m b l : at_depth m (b, l) -> m < 60 -> f64_is_nan (mid l b) = false.
Proof.
  intros (t & Hb & Hw & Hk & Hm) Hl. cbn [fst snd] in *. subst b. rewrite mid_box by done.
  destruct l; apply edge_nan; unfold axis, in_world in *; rewrite Z.pow_add_r by lia; lia.
Qed.

Lemma steps_inside c ns ch m st : at_depth m st -> m + Z.of_nat (length ns) <= 60 -> inside st.1 c = true ->
  at_depth (m + Z.of_nat (length ns)) (foldl (encode_step c) (ch, st) ns).2 /\ inside (foldl (encode_step c) (ch, st) ns).2.1 c = true.
Proof.
  revert ch m st. induction ns as [|n ns IH]; intros ch m st H Hl Hi; [by rewrite Z.add_0_r|]. cbn [foldl length] in *.
  destruct st as [b l]. cbn [fst] in Hi. cbn [encode_step].
  pose proof (at_depth_step m (b, l) (bit_up c l b) H ltac:(lia)) as H'. pose proof (depth_mid_nan _ _ _ H ltac:(lia)) as Hn.
  destruct (IH (put_bit (bit_up c l b) n ch) (m + 1) _ H' ltac:(lia) (half_inside _ _ _ Hn Hi)) as [Hd Hi'].
  split; [|exact Hi']. replace (m + Z.of_nat (S (length ns))) with (m + 1 + Z.of_nat (length ns)) by lia. exact Hd.
Qed.

Lemma chars_inside c n m st : at_depth m st -> m + 5 * Z.of_nat n <= 60 -> inside st.1 c = true -> inside (chars n c st).2.1 c = true.
Proof.
  revert m st. induction n as [|n IH]; intros m st H Hl Hi; [done|]. cbn [chars].
  destruct (steps_inside c [0; 1; 2; 3; 4] 0 m st H ltac:(cbn; lia) Hi) as [Hd Hi']. fold (five c st) in Hd, Hi'.
  destruct (five c st) as [ch st1]. cbn [snd] in *. pose proof (IH (m + 5) st1 Hd ltac:(lia) Hi') as Hn. by destruct (chars n c st1).
Qed.

Lemma GeohashValid_length h : GeohashValid h = true -> 1 <= strlen h <= 12 /\ strlen (ToLower h) = strlen h.
Proof.
  unfold GeohashValid, strlen. intros [Hl _]%andb_true_iff. apply negb_true_iff, orb_false_iff in Hl as [H0 H1].
  apply Nat.eqb_neq in H0. apply Nat.ltb_ge in H1. split; [lia|]. f_equal. unfold ToLower. clear. induction h as [|c h IH]; [done|]. cbn. by rewrite IH.
Qed.

Lemma GeohashBounds_decode h b : GeohashBounds h = Ok b -> exists l, decode_loop (world, true) (ToLower h) = Ok (b, l).
Proof. unfold GeohashBounds. destruct (decode_loop _ _) as [[b' l]|]; [|done]. intros [= <-]. by exists l. Qed.

Lemma contains_valid c : Contains world c = Valid c.
Proof. reflexivity. Qed.

(** ** Theorems *)

(** The cell of the geohash of a valid coordinate contains it, and the geohash
    is a valid one of the length that is asked for, between 1 and 12. *)
Theorem geohash_roundtrip c precision : Valid c = true ->
  GeohashValid (Geohash c precision) = true /\ strlen (Geohash c precision) = clamp_precision precision /\
  exists b, GeohashBounds (Geohash c precision) = Ok b /\ Contains b c = true.
Proof.
  intros Hv. pose proof (clamp_range precision) as Hr. rewrite Geohash_chars.
  destruct (chars_spec (Z.to_nat (clamp_precision precision)) c (world, true)) as (Hd & Hl & Hn & Hf).
  pose proof (chars_holds (Z.to_nat (clamp_precision precision)) c 0 (world, true)) as Hh. rewrite Z.add_0_l in Hh.
  destruct (Hh ltac:(split; [exact at_depth_world|exact Hv]) ltac:(lia)) as [_ Hc].
  unfold GeohashValid, GeohashBounds, strlen. rewrite Hl, Hd, Hn, Hf. split; [|split; [lia|by eexists]].
  apply andb_true_iff. split; [|done]. apply negb_true_iff, orb_false_iff. split; [apply Nat.eqb_neq|apply Nat.ltb_ge]; lia.
Qed.

Theorem geohash_roundtrip_witness :
  let c := mkCoord (decimal 488584 4) (decimal 22945 4) in
  GeohashValid (Geohash c 9) = true /\ strlen (Geohash c 9) = 9 /\ exists b, GeohashBounds (Geohash c 9) = Ok b /\ Contains b c = true.
Proof. exact (geohash_roundtrip (mkCoord (decimal 488584 4) (decimal 22945 4)) 9 eq_refl). Defined.

(** C25. For each valid geohash, the coordinates that have it are those of its cell,
    the upper edges of the cell excepted. *)
Theorem geohash_cell c h b : GeohashValid h = true -> GeohashBounds h = Ok b -> inside world c = true ->
  Geohash c (strlen h) = ToLower h <-> inside b c = true.
Proof.
  intros Hv Hb Hw. destruct (GeohashValid_length h Hv) as [Hl Hlow]. destruct (GeohashBounds_decode h b Hb) as [l Hd].
  assert (E : Geohash c (strlen h) = (chars (String.length (ToLower h)) c (world, true)).1).
  { rewrite Geohash_chars, clamp_id by done. unfold strlen in *. do 2 f_equal. lia. }
  rewrite E. pose proof (decode_unique c 0 (world, true) (ToLower h) (b, l) at_depth_world ltac:(lia) Hd) as [_ Hu]. split.
  - intros Eh. pose proof (chars_inside c (String.length (ToLower h)) 0 (world, true) at_depth_world) as Hi. unfold strlen in *.
    specialize (Hi ltac:(lia) Hw). destruct (chars_spec (String.length (ToLower h)) c (world, true)) as (Hd' & _).
    rewrite Eh, Hd in Hd'. injection Hd' as Hd'. by rewrite <- Hd' in Hi.
  - intros Hi. by destruct (Hu Hi) as [-> _].
Qed.

Theorem geohash_cell_witness :
  let c := mkCoord (deg 45) (deg 0) in let b := mkBox (deg 45) (deg 90) (deg 0) (deg 45) in
  Geohash c (strlen "U") = ToLower "U" <-> inside b c = true.
Proof. exact (geohash_cell (mkCoord (deg 45) (deg 0)) "U" (mkBox (deg 45) (deg 90) (deg 0) (deg 45)) eq_refl eq_refl eq_refl). Defined.

(** ** Lemmas: neighbors *)

Definition shift (t : cell) (offset : Z * Z) : cell := mkCell (kx t) (cx t + offset.2) (ky t) (cy t + offset.1).

Lemma edge_scale w k i j : axis w k i -> 0 <= j -> k + j <= 31 -> edge w (k + j) (2 ^ j * i) = edge w k i.
Proof.
  intros H Hj Hk. unfold edge. rewrite <- (f64_dy_scale (w * (2 * i - 2 ^ k)) j k) by (by apply edge_small || (unfold axis in H; lia)).
  unfold f64_dy. f_equal; [|lia]. unfold axis in H. rewrite Z.pow_add_r by lia. ring.
Qed.

(** The middle of the cell [i + o] from the middle of the cell [i]. *)
Lemma moved_middle w k i o : axis w k i -> axis w k (i + 1) -> axis w k (i + o) -> k <= 30 -> -1 <= o <= 1 ->
  f64_add (middle (edge w k i) (edge w k (i + 1))) (f64_mul (deg o) (f64_sub (edge w k (i + 1)) (edge w k i))) =
  edge w (k + 1) (2 * (i + o) + 1).
Proof.
  intros H H' Ho Hk Hr. rewrite middle_edge by done. unfold edge at 2 3.
  pose proof (edge_small _ _ _ H) as Hs. pose proof (edge_small _ _ _ H') as Hs'.
  unfold axis in H. rewrite f64_sub_dy by (done || lia || (apply small_axis; nia)).
  replace (w * (2 * (i + 1) - 2 ^ k) - w * (2 * i - 2 ^ k)) with (2 * w) by ring.
  assert (Em : f64_mul (deg o) (f64_dy (2 * w) k) = f64_dy (4 * w * o) (k + 1)).
  { destruct (decide (o = 0)) as [->|Ho0].
    - rewrite Z.mul_0_r, f64_dy_zero, f64_dy_signed by (lia || (apply small_axis; lia)). unfold signed_dyad.
      rewrite (proj2 (Z.ltb_ge _ _)) by lia. reflexivity.
    - unfold deg. rewrite <- f64_dy_int, f64_mul_dy by (lia || (apply small_axis; nia)).
      rewrite <- (f64_dy_double (o * (2 * w))) by (lia || (apply small_axis; nia)). rewrite Z.add_0_l. f_equal. ring. }
  rewrite Em. unfold edge. pose proof (axis_pow k ltac:(lia)). rewrite Z.pow_add_r by lia.
  rewrite f64_add_dy by (lia || (apply small_axis; unfold axis in Ho; nia)). f_equal. ring.
Qed.

(** The only closed cell that contains the middle of another is that one. *)
Lemma middle_cell w k i j : axis w k i -> axis w k (i + 1) -> axis w k j -> axis w k (j + 1) -> k <= 30 ->
  f64_le (edge w k j) (edge w (k + 1) (2 * i + 1)) = true -> f64_le (edge w (k + 1) (2 * i + 1)) (edge w k (j + 1)) = true -> j = i.
Proof.
  intros Hi Hi' Hj Hj' Hk. rewrite <- (edge_double w k j Hj), <- (edge_double w k (j + 1) Hj').
  assert (axis w (k + 1) (2 * i + 1) /\ axis w (k + 1) (2 * j) /\ axis w (k + 1) (2 * (j + 1))) as (H1 & H2 & H3)
    by (unfold axis in *; rewrite Z.pow_add_r by lia; lia).
  rewrite !edge_le by done. lia.
Qed.

Lemma in_world_middle w k i : axis w k i -> axis w k (i + 1) -> k <= 30 ->
  f64_le (edge w 0 0) (edge w (k + 1) (2 * i + 1)) = true /\ f64_le (edge w (k + 1) (2 * i + 1)) (edge w 0 1) = true.
Proof.
  intros H H' Hk. assert (axis w (k + 1) (2 * i + 1)) as Hm by (unfold axis in *; rewrite Z.pow_add_r by lia; lia).
  pose proof (axis_pow (k + 1) ltac:(unfold axis in *; lia)) as Hp.
  assert (axis w 0 0 /\ axis w 0 1 /\ axis w (k + 1) (2 ^ (k + 1) * 0) /\ axis w (k + 1) (2 ^ (k + 1) * 1)) as (H0 & H1 & H2 & H3)
    by (unfold axis in *; change (2 ^ 0) with 1; lia).
  rewrite <- (edge_scale w 0 0 (k + 1)), <- (edge_scale w 0 1 (k + 1)), Z.add_0_l by (done || unfold axis in *; lia).
  rewrite !edge_le by done. unfold axis in *. split; apply Z.leb_le; lia.
Qed.

Lemma neighbor_box t (l : bool) n off : in_world t -> in_world (shift t off) -> -1 <= off.1 <= 1 -> -1 <= off.2 <= 1 ->
  kx t = ky t + (if l then 0 else 1) -> kx t + ky t = 5 * n -> 1 <= n <= 12 -> GeohashBounds (neighbor (box t) n off) = Ok (box (shift t off)).
Proof.
  intros Ht Hs Ho1 Ho2 Hl Hm Hn. destruct (in_world_axes t Ht) as (Hx & Hx' & Hy & Hy').
  destruct (in_world_axes _ Hs) as (Sx & Sx' & Sy & Sy'). cbn [shift kx cx ky cy] in *. pose proof Ht as Ht'. unfold in_world in Ht'.
  unfold neighbor, Center. cbn [box MinLat MaxLat MinLon MaxLon Lat Lon]. rewrite !moved_middle by (done || lia).
  set (nc := mkCoord _ _).
  assert (Hw : Contains world nc = true).
  { unfold Contains. rewrite box_world. cbn [box MinLat MaxLat MinLon MaxLon nc Lat Lon kx cx ky cy]. change (0 + 1) with 1.
    destruct (in_world_middle _ _ _ Sy Sy' ltac:(lia)) as [-> ->]. by destruct (in_world_middle _ _ _ Sx Sx' ltac:(lia)) as [-> ->]. }
  rewrite Geohash_chars, clamp_id by done. unfold GeohashBounds.
  destruct (chars_spec (Z.to_nat n) nc (world, true)) as (Hd & -> & _). rewrite Hd.
  pose proof (chars_holds (Z.to_nat n) nc 0 (world, true) (conj at_depth_world Hw) ltac:(lia)) as [(t' & Hb & Ht2 & Hk & Hk') Hc].
  assert (kx t' = kx t /\ ky t' = ky t) as [Ekx Eky] by (destruct l, (chars (Z.to_nat n) nc (world, true)).2 as [? []]; cbn [snd] in Hk; lia).
  destruct (in_world_axes t' Ht2) as (Tx & Tx' & Ty & Ty'). rewrite Ekx, Eky in *.
  rewrite Hb in Hc |- *. unfold Contains in Hc. cbn [box MinLat MaxLat MinLon MaxLon nc Lat Lon] in Hc. rewrite Ekx, Eky in Hc.
  apply andb_true_iff in Hc as [[[H1 H2]%andb_true_iff H3]%andb_true_iff H4].
  unfold box. cbn [shift kx cx ky cy]. rewrite Ekx, Eky.
  rewrite (middle_cell 90 (ky t) (cy t + off.1) (cy t')), (middle_cell 180 (kx t) (cx t + off.2) (cx t')) by (done || lia). done.
Qed.

Lemma offsets_range : Forall (fun off => -1 <= off.1 <= 1 /\ -1 <= off.2 <= 1) offsets.
Proof. repeat constructor; cbn; lia. Qed.

(** The neighbors of a geohash: its cell is one of the grid, and the geohash
    that is given for each of the eight directions is that of the next cell of the
    grid in that direction, when there is one; none is wrapped around. *)
Theorem neighbors_adjacent h b : GeohashValid h = true -> GeohashBounds h = Ok b ->
  exists t ns, in_world t /\ b = box t /\ GeohashNeighbors h = Ok ns /\ length ns = 8%nat /\
    forall k off, offsets !! k = Some off -> in_world (shift t off) ->
      exists n, ns !! k = Some n /\ GeohashBounds n = Ok (box (shift t off)).
Proof.
  intros Hv Hb. destruct (GeohashValid_length h Hv) as [Hl Hlow]. destruct (GeohashBounds_decode h b Hb) as [l Hd].
  destruct (decode_unique (mkCoord b.(MinLat) b.(MinLon)) 0 (world, true) (ToLower h) (b, l) at_depth_world ltac:(lia) Hd) as [(t & Ht & Hw & Hk & Hm) _].
  cbn [fst snd] in Ht, Hk. exists t, (map (neighbor b (strlen h)) offsets). split; [done|]. split; [done|].
  unfold GeohashNeighbors. rewrite Hb. split; [done|]. split; [done|]. intros k off Hoff Hs.
  exists (neighbor b (strlen h) off). split; [by rewrite list_lookup_fmap, Hoff|]. rewrite Ht.
  destruct (Forall_lookup_1 _ _ _ _ offsets_range Hoff) as [Ho1 Ho2]. by apply (neighbor_box t l); [..|lia|].
Qed.

Theorem neighbors_adjacent_witness :
  exists t ns, in_world t /\ mkBox (deg 45) (deg 90) (deg 0) (deg 45) = box t /\ GeohashNeighbors "u" = Ok ns /\ length ns = 8%nat /\
    forall k off, offsets !! k = Some off -> in_world (shift t off) ->
      exists n, ns !! k = Some n /\ GeohashBounds n = Ok (box (shift t off)).
Proof. exact (neighbors_adjacent "u" (mkBox (deg 45) (deg 90) (deg 0) (deg 45)) eq_refl eq_refl). Defined.

(** At the antimeridian the neighbor to the east is the cell itself; the cell that
    touches it is "800". *)
Example no_wrap : GeohashNeighbors "xbp" = Ok ["xbr"; "xbr"; "xbp"; "rzz"; "rzz"; "rzy"; "xbn"; "xbq"].
Proof. reflexivity. Qed.

(** The steps of [GeohashesInBounds] are longer than the cells: the cell "9" is
    between the two that are found. *)
Example cell_missed :
  let bounds := mkBox (deg 10) (deg 20) (deg (-136)) (deg (-80)) in
  GeohashesInBounds 10 bounds 1 = Some ["8"; "d"] /\
  Contains bounds (mkCoord (deg 15) (deg (-100))) = true /\ Geohash (mkCoord (deg 15) (deg (-100))) 1 = "9".
Proof. vm_compute. done. Qed.

Example paris : Geohash (mkCoord (decimal 488584 4) (decimal 22945 4)) 12 = "u09tunquc9zh".
Proof. vm_compute. reflexivity. Qed.
