(* ===== verification/Regex.v ===== *)
(** * Regular expressions (package [regexp])

    The patterns that [pantry/validate/validate.go] compiles: their syntax, read
    from the text of the pattern as [regexp.MustCompile] reads it, their
    languages, and a matcher by derivatives with its proof.  Every pattern that
    the rules use is anchored at both ends and its classes hold ASCII bytes only
    (or exclude only ASCII bytes), so that [MatchString] is membership of the
    whole string, byte by byte. *)

From S2P Require Import Prelude GoStrings.
#[local] Open Scope list_scope.

(** ** Syntax *)

(** A class of bytes: ranges, both ends included, or what they leave out. *)
Record cls := mkCls { c_neg : bool; c_ranges : list (ascii * ascii) }.

Definition in_range (c : ascii) (r : ascii * ascii) : bool :=
  (byte_code r.1 <=? byte_code c) && (byte_code c <=? byte_code r.2).

Definition in_cls (k : cls) (c : ascii) : bool := xorb (c_neg k) (existsb (in_range c) (c_ranges k)).

Inductive re :=
| Void
| Eps
| Cls (k : cls)
| Cat (a b : re)
| Alt (a b : re)
| Star (a : re).

#[export] Instance cls_eq_dec : EqDecision cls.
Proof. solve_decision. Defined.

#[export] Instance re_eq_dec : EqDecision re.
Proof. solve_decision. Defined.

Definition Chr (c : ascii) : re := Cls (mkCls false [(c, c)]).
Definition Plus (a : re) : re := Cat a (Star a).
Definition Opt (a : re) : re := Alt a Eps.

(** [a] exactly [n] times, and then at most [m] times more. *)
Fixpoint Times (n : nat) (a : re) : re :=
  match n with
  | O => Eps
  | 1%nat => a
  | S n => Cat a (Times n a)
  end.

Fixpoint UpTo (m : nat) (a : re) : re :=
  match m with
  | O => Eps
  | S m => Opt (Cat a (UpTo m a))
  end.

(** ** The text of a pattern *)

Definition digit_range : ascii * ascii := ("0", "9")%char.

(** [\s] is a tab, a line feed, a form feed, a carriage return or a space. *)
Definition space_ranges : list (ascii * ascii) :=
  [(byte_of_code 9, byte_of_code 10); (byte_of_code 12, byte_of_code 13); (" ", " ")%char].

(** What follows a backslash. *)
Definition escape (c : ascii) : list (ascii * ascii) :=
  if Ascii.eqb c "d" then [digit_range] else if Ascii.eqb c "s" then space_ranges else [(c, c)].

(** The items of a class up to its closing bracket, and the text after it; a
    minus sign before the bracket stands for itself. *)
Fixpoint parse_class (fuel : nat) (s : string) : option (list (ascii * ascii) * string) :=
  match fuel with
  | O => None
  | S fuel =>
      match s with
      | "" => None
      | String "]" s => Some ([], s)
      | String "\" (String c s) =>
          match parse_class fuel s with
          | Some (l, s) => Some (escape c ++ l, s)
          | None => None
          end
      | String a s =>
          let single :=
            match parse_class fuel s with
            | Some (l, s) => Some ((a, a) :: l, s)
            | None => None
            end in
          match s with
          | String "-" (String b s) =>
              if Ascii.eqb b "]" then single
              else
                match parse_class fuel s with
                | Some (l, s) => Some ((a, b) :: l, s)
                | None => None
                end
          | _ => single
          end
      end
  end.

Definition parse_set (fuel : nat) (s : string) : option (re * string) :=
  let '(neg, s) := match s with String "^" s => (true, s) | _ => (false, s) end in
  match parse_class fuel s with
  | Some (l, s) => Some (Cls (mkCls neg l), s)
  | None => None
  end.

(** A number and the text after it. *)
Fixpoint parse_number (s : string) (acc : Z) : Z * string :=
  match s with
  | String c s' => if is_digit c then parse_number s' (10 * acc + (byte_code c - 48)) else (acc, s)
  | "" => (acc, s)
  end.

(** The bounds of [{n}], [{n,}] and [{n,m}], after the opening brace. *)
Definition parse_bounds (s : string) : option (nat * option nat * string) :=
  let '(n, s) := parse_number s 0 in
  match s with
  | String "}" s => Some (Z.to_nat n, Some (Z.to_nat n), s)
  | String "," (String "}" s) => Some (Z.to_nat n, None, s)
  | String "," s =>
      let '(m, s) := parse_number s 0 in
      match s with
      | String "}" s => Some (Z.to_nat n, Some (Z.to_nat m), s)
      | _ => None
      end
  | _ => None
  end.

Definition repeat_re (n : nat) (m : option nat) (a : re) : re :=
  match m with
  | Some m =>
      if Nat.eqb n 0 then UpTo m a
      else if Nat.eqb m n then Times n a else Cat (Times n a) (UpTo (m - n) a)
  | None => if Nat.eqb n 0 then Star a else Cat (Times n a) (Star a)
  end.

(** The operators after an atom; at most one here, as in every pattern of the
    program. *)
Definition parse_postfix (a : re) (s : string) : option (re * string) :=
  match s with
  | String "*" s => Some (Star a, s)
  | String "+" s => Some (Plus a, s)
  | String "?" s => Some (Opt a, s)
  | String "{" s =>
      match parse_bounds s with
      | Some (n, m, s) => Some (repeat_re n m a, s)
      | None => None
      end
  | _ => Some (a, s)
  end.

(** Alternatives up to a closing parenthesis or the end of the text: the ones
    before the last bar, the pieces of the present one, the last first. *)
Fixpoint parse_alts (fuel : nat) (done_ : option re) (cur : re) (s : string) : option (re * string) :=
  let finish := match done_ with Some d => Alt d cur | None => cur end in
  let push a := if decide (cur = Eps) then a else Cat cur a in
  match fuel with
  | O => None
  | S fuel =>
      let piece (p : option (re * string)) :=
        match p with
        | Some (a, s) =>
            match parse_postfix a s with
            | Some (a, s) => parse_alts fuel done_ (push a) s
            | None => None
            end
        | None => None
        end in
      match s with
      | "" => Some (finish, s)
      | String ")" _ => Some (finish, s)
      | String "|" s => parse_alts fuel (Some finish) Eps s
      | String "(" s =>
          let s := match s with String "?" (String ":" s) => s | _ => s end in
          piece
            match parse_alts fuel None Eps s with
            | Some (a, String ")" s) => Some (a, s)
            | _ => None
            end
      | String "[" s => piece (parse_set fuel s)
      | String "\" (String c s) => piece (Some (Cls (mkCls false (escape c)), s))
      | String c s => piece (Some (Chr c, s))
      end
  end.

(** [regexp.MustCompile] of a pattern that begins with [^] and ends with [$]. *)
Definition MustCompile (pattern : string) : re :=
  match pattern with
  | String "^" s =>
      match cut_last_byte "$" s with
      | Some (body, "") =>
          match parse_alts (S (String.length body)) None Eps body with
          | Some (r, "") => r
          | _ => Void
          end
      | _ => Void
      end
  | _ => Void
  end.

(** ** Languages *)

Inductive matches : re -> string -> Prop :=
| m_eps : matches Eps ""
| m_cls k c : in_cls k c = true -> matches (Cls k) (String c "")
| m_cat a b s t : matches a s -> matches b t -> matches (Cat a b) (s +:+ t)
| m_alt_l a b s : matches a s -> matches (Alt a b) s
| m_alt_r a b s : matches b s -> matches (Alt a b) s
| m_star_nil a : matches (Star a) ""
| m_star_step a s t : matches a s -> matches (Star a) t -> matches (Star a) (s +:+ t).

(** ** The matcher *)

Fixpoint nullable (r : re) : bool :=
  match r with
  | Void => false
  | Eps => true
  | Cls _ => false
  | Cat a b => nullable a && nullable b
  | Alt a b => nullable a || nullable b
  | Star _ => true
  end.

(** Concatenation and alternative without the parts that do not matter. *)
Definition cat (a b : re) : re :=
  match a, b with
  | Void, _ => Void
  | _, Void => Void
  | Eps, b => b
  | a, Eps => a
  | a, b => Cat a b
  end.

Definition alt (a b : re) : re :=
  match a, b with
  | Void, b => b
  | a, Void => a
  | a, b => if decide (a = b) then a else Alt a b
  end.

Fixpoint deriv (c : ascii) (r : re) : re :=
  match r with
  | Void => Void
  | Eps => Void
  | Cls k => if in_cls k c then Eps else Void
  | Cat a b => if nullable a then alt (cat (deriv c a) b) (deriv c b) else cat (deriv c a) b
  | Alt a b => alt (deriv c a) (deriv c b)
  | Star a => cat (deriv c a) (Star a)
  end.

Fixpoint MatchString (r : re) (s : string) : bool :=
  match s with
  | "" => nullable r
  | String c s => MatchString (deriv c r) s
  end.

(** ** Correctness of the matcher *)

Lemma matches_void s : ~ matches Void s.
Proof. by inversion 1. Qed.

Lemma matches_eps s : matches Eps s <-> s = "".
Proof. split; [by inversion 1|]. intros ->. constructor. Qed.

Lemma matches_cls k s : matches (Cls k) s <-> exists c, s = String c "" /\ in_cls k c = true.
Proof. split; [inversion 1; eauto|]. intros (c & -> & Hc). by constructor. Qed.

Lemma matches_cat a b s : matches (Cat a b) s <-> exists t u, s = t +:+ u /\ matches a t /\ matches b u.
Proof. split; [inversion 1; eauto|]. intros (t & u & -> & Ha & Hb). by constructor. Qed.

Lemma matches_alt a b s : matches (Alt a b) s <-> matches a s \/ matches b s.
Proof. split; [inversion 1; auto|]. intros [H|H]; [by apply m_alt_l|by apply m_alt_r]. Qed.

Lemma matches_opt a s : matches (Opt a) s <-> matches a s \/ s = "".
Proof. unfold Opt. by rewrite matches_alt, matches_eps. Qed.

(** The first byte of an iteration is in a non-empty piece. *)
Lemma matches_star_cons a c s :
  matches (Star a) (String c s) <->
  exists t u, s = t +:+ u /\ matches a (String c t) /\ matches (Star a) u.
Proof.
  split.
  - remember (Star a) as r eqn:Hr. remember (String c s) as w eqn:Hw. intros H. revert c s Hw.
    induction H as [| | | | | |b v t Hv _ Ht IH]; intros c0 s0 Hw; simplify_eq.
    destruct v as [|d v]; cbn in Hw; [by apply IH|]. injection Hw as -> <-. eauto.
  - intros (t & u & -> & Ha & Hu). change (matches (Star a) (String c t +:+ u)). by constructor.
Qed.

Lemma nullable_spec r : nullable r = true <-> matches r "".
Proof.
  induction r as [| |k|a IHa b IHb|a IHa b IHb|a IHa]; cbn [nullable].
  - split; [done|by intros ?%matches_void].
  - split; [constructor|done].
  - split; [done|by inversion 1].
  - rewrite andb_true_iff, IHa, IHb, matches_cat. split.
    + intros [Ha Hb]. by exists "", "".
    + intros ([|c t] & u & Hs & Ha & Hb); [|done]. by cbn in Hs; subst.
  - by rewrite orb_true_iff, IHa, IHb, matches_alt.
  - split; [constructor|done].
Qed.

Lemma cat_spec a b s : matches (cat a b) s <-> matches (Cat a b) s.
Proof.
  assert (forall s, matches (Cat Void b) s <-> matches Void s) as Hl
    by (intros; rewrite matches_cat; split; [intros (? & ? & _ & []%matches_void & _)|intros []%matches_void]).
  assert (forall a s, matches (Cat a Void) s <-> matches Void s) as Hr
    by (intros; rewrite matches_cat; split; [intros (? & ? & _ & _ & []%matches_void)|intros []%matches_void]).
  assert (forall s, matches (Cat Eps b) s <-> matches b s) as Hel.
  { intros. rewrite matches_cat. setoid_rewrite matches_eps. split; [by intros (? & ? & -> & -> & ?)|by exists "", s0]. }
  assert (forall a s, matches (Cat a Eps) s <-> matches a s) as Her.
  { intros. rewrite matches_cat. setoid_rewrite matches_eps. split.
    - intros (? & ? & -> & ? & ->). by rewrite string_app_nil_r.
    - exists s0, "". by rewrite string_app_nil_r. }
  unfold cat. destruct a, b; rewrite ?Hl, ?Hr, ?Hel, ?Her; done.
Qed.

Lemma alt_spec a b s : matches (alt a b) s <-> matches (Alt a b) s.
Proof.
  assert (forall b s, matches (Alt Void b) s <-> matches b s) as Hl
    by (intros; rewrite matches_alt; pose proof matches_void; naive_solver).
  assert (forall a s, matches (Alt a Void) s <-> matches a s) as Hr
    by (intros; rewrite matches_alt; pose proof matches_void; naive_solver).
  assert (forall a b s, matches (if decide (a = b) then a else Alt a b) s <-> matches (Alt a b) s) as Hd.
  { clear. intros a b s. destruct (decide (a = b)) as [->|]; [|done]. rewrite matches_alt. naive_solver. }
  unfold alt. destruct a; rewrite ?Hl; try done; destruct b; rewrite ?Hr, ?Hd; done.
Qed.

Lemma deriv_spec c r s : matches (deriv c r) s <-> matches r (String c s).
Proof.
  revert s. induction r as [| |k|a IHa b IHb|a IHa b IHb|a IHa]; intros s; cbn [deriv].
  - split; by intros ?%matches_void.
  - split; [by intros ?%matches_void|by inversion 1].
  - destruct (in_cls k c) eqn:Hk.
    + rewrite matches_eps. split; [intros ->; by constructor|by inversion 1].
    + split; [by intros ?%matches_void|]. inversion 1; congruence.
  - assert (matches (cat (deriv c a) b) s <-> exists t u, s = t +:+ u /\ matches a (String c t) /\ matches b u) as Hcat.
    { rewrite cat_spec, matches_cat. by setoid_rewrite IHa. }
    rewrite matches_cat.
    assert ((exists t u, String c s = t +:+ u /\ matches a t /\ matches b u) <->
            (exists t u, s = t +:+ u /\ matches a (String c t) /\ matches b u) \/ (nullable a = true /\ matches b (String c s))) as ->.
    { rewrite nullable_spec. split.
      - intros ([|d t] & u & Hs & Ha & Hb); cbn in Hs; [right; by subst|]. injection Hs as -> ->. left. by exists t, u.
      - intros [(t & u & -> & Ha & Hb)|[Ha Hb]]; [by exists (String c t), u|by exists "", (String c s)]. }
    destruct (nullable a); [rewrite alt_spec, matches_alt, Hcat, IHb|rewrite Hcat]; naive_solver.
  - by rewrite alt_spec, !matches_alt, IHa, IHb.
  - rewrite cat_spec, matches_cat, matches_star_cons. by setoid_rewrite IHa.
Qed.

Lemma MatchString_spec r s : MatchString r s = true <-> matches r s.
Proof.
  revert r. induction s as [|c s IH]; intros r; cbn [MatchString]; [apply nullable_spec|].
  by rewrite IH, deriv_spec.
Qed.

(** ** The languages of common shapes *)

Lemma matches_star_cls k s : matches (Star (Cls k)) s <-> string_forall (in_cls k) s = true.
Proof.
  induction s as [|c s IH]; [split; [done|constructor]|]. rewrite matches_star_cons. cbn [string_forall].
  rewrite andb_true_iff, <- IH. setoid_rewrite matches_cls. split.
  - intros (t & u & -> & (d & [= <- ->] & Hc) & Hu). done.
  - intros [Hc Hs]. exists "", s. eauto.
Qed.

Lemma matches_plus_cls k s : matches (Plus (Cls k)) s <-> s <> "" /\ string_forall (in_cls k) s = true.
Proof.
  unfold Plus. rewrite matches_cat. setoid_rewrite matches_star_cls. setoid_rewrite matches_cls. split.
  - intros (t & u & -> & (c & -> & Hc) & Hu). cbn. by rewrite Hc, Hu.
  - intros [Hne Hs]. destruct s as [|c s]; [done|]. cbn in Hs. apply andb_prop in Hs as [Hc Hs].
    exists (String c ""), s. eauto.
Qed.

(** A sequence of classes, one for each byte. *)
Fixpoint match_each (ks : list cls) (s : string) : bool :=
  match ks, s with
  | [], "" => true
  | k :: ks, String c s => in_cls k c && match_each ks s
  | _, _ => false
  end.

Fixpoint fixed (r : re) : option (list cls) :=
  match r with
  | Eps => Some []
  | Cls k => Some [k]
  | Cat a b =>
      match fixed a, fixed b with
      | Some k, Some l => Some (k ++ l)
      | _, _ => None
      end
  | _ => None
  end.

Lemma match_each_app k l s :
  match_each (k ++ l) s = true <-> exists t u, s = t +:+ u /\ match_each k t = true /\ match_each l u = true.
Proof.
  revert s. induction k as [|x k IH]; intros s; cbn [app match_each].
  - split; [by exists "", s|]. intros ([|] & u & -> & ? & ?); done.
  - destruct s as [|c s].
    + split; [done|]. intros ([|] & u & Hs & H1 & _); done.
    + rewrite andb_true_iff, IH. split.
      * intros (Hc & t & u & -> & Ht & Hu). exists (String c t), u. cbn. by rewrite Hc.
      * intros ([|d t] & u & Hs & Ht & Hu); [done|]. cbn in Hs, Ht. injection Hs as -> ->.
        apply andb_prop in Ht as [? ?]. split; [done|]. by exists t, u.
Qed.

Lemma matches_fixed r ks s : fixed r = Some ks -> matches r s <-> match_each ks s = true.
Proof.
  revert ks s. induction r as [| |k|a IHa b IHb| |]; intros ks s; cbn [fixed]; try done.
  - intros [= <-]. rewrite matches_eps. by destruct s.
  - intros [= <-]. rewrite matches_cls. cbn. split.
    + intros (d & -> & Hc). cbn. by rewrite Hc.
    + destruct s as [|c [|d s]]; cbn; try done; [|by rewrite andb_false_r]. rewrite andb_true_r. eauto.
  - destruct (fixed a) as [k|]; [|done]. destruct (fixed b) as [l|]; [|done]. intros [= <-].
    rewrite matches_cat, match_each_app. setoid_rewrite (IHa k); [|done]. by setoid_rewrite (IHb l).
Qed.

Lemma match_each_length ks s : match_each ks s = true -> String.length s = length ks.
Proof.
  revert s. induction ks as [|k ks IH]; intros [|c s]; cbn; try done. intros [_ H]%andb_prop. by rewrite (IH s).
Qed.

Lemma match_each_replicate n k s :
  match_each (replicate n k) s = true <-> String.length s = n /\ string_forall (in_cls k) s = true.
Proof.
  revert s. induction n as [|n IH]; intros [|c s]; cbn; try (split; [done|by intros [? _]]).
  rewrite !andb_true_iff, IH. naive_solver.
Qed.

Lemma match_each_single k s : match_each [k] s = true <-> exists c, s = String c "" /\ in_cls k c = true.
Proof. rewrite <- (matches_fixed (Cls k) [k]) by done. apply matches_cls. Qed.

(** The byte at each place is in its class. *)
Lemma match_each_places ks s :
  match_each ks s = true <->
  String.length s = length ks /\
  forall i k c, ks !! i = Some k -> String.get i s = Some c -> in_cls k c = true.
Proof.
  revert s. induction ks as [|k ks IH]; intros [|c s]; cbn [match_each length String.length].
  - split; [|done]. done.
  - split; [done|by intros [? _]].
  - split; [done|by intros [? _]].
  - rewrite andb_true_iff, IH. split.
    + intros (Hc & Hl & H). split; [by rewrite Hl|]. intros [|i] k' d; cbn; [by intros [= <-] [= <-]|apply H].
    + intros [[= Hl] H]. split; [by apply (H 0%nat)|]. split; [done|]. intros i. apply (H (S i)).
Qed.

(** At most so many bytes of a class. *)
Lemma matches_upto_cls n k s :
  matches (UpTo n (Cls k)) s <-> (String.length s <= n)%nat /\ string_forall (in_cls k) s = true.
Proof.
  revert s. induction n as [|n IH]; intros s; cbn [UpTo].
  - rewrite matches_eps. destruct s; cbn; [split; [split; [lia|done]|done]|]. split; [done|lia].
  - rewrite matches_opt, matches_cat. setoid_rewrite IH. setoid_rewrite matches_cls. split.
    + intros [(t & u & -> & (c & -> & Hc) & Hl & Hu)| ->]; [|cbn; split; [lia|done]]. cbn. rewrite Hc. split; [lia|done].
    + intros [Hl Hs]. destruct s as [|c s]; [by right|left]. cbn in *. apply andb_prop in Hs as [Hc Hs].
      exists (String c ""), s. split; [done|]. split; [eauto|]. split; [lia|done].
Qed.

(** Pieces with a separator between them, as [split_byte] finds them. *)
Lemma matches_chr c s : matches (Chr c) s <-> s = String c "".
Proof.
  unfold Chr. rewrite matches_cls. split.
  - intros (d & -> & Hd). unfold in_cls in Hd. cbn in Hd. rewrite orb_false_r in Hd.
    apply andb_prop in Hd as [? ?]. f_equal. apply byte_code_inj. cbn in *. lia.
  - intros ->. exists c. split; [done|]. unfold in_cls, in_range. cbn. rewrite Z.leb_refl. done.
Qed.

Section Separated.
Context (sep : ascii) (w : re) (Hw : forall x, matches w x -> string_has sep x = false).

Lemma matches_sep_step s :
  matches (Star (Cat (Chr sep) w)) s <->
  s = "" \/ exists t, s = String sep t /\ matches (Cat w (Star (Cat (Chr sep) w))) t.
Proof.
  destruct s as [|c s]; [split; [by left|constructor]|]. rewrite matches_star_cons. setoid_rewrite matches_cat.
  setoid_rewrite matches_chr. split.
  - intros (t & u & -> & (a & b & Hab & -> & Hb) & Hu). cbn in Hab. injection Hab as -> ->. right.
    exists (b +:+ u). split; [done|]. by exists b, u.
  - intros [?|(t & [= -> ->] & (a & b & -> & Ha & Hb))]; [done|]. exists a, b. split; [done|].
    split; [by exists (String sep ""), a|done].
Qed.

Lemma matches_separated s :
  matches (Cat w (Star (Cat (Chr sep) w))) s <-> Forall (matches w) (split_byte sep s).
Proof.
  induction s as [s Hs|a b Ha IH] using (split_byte_ind sep).
  - rewrite split_byte_none, list.Forall_singleton, matches_cat by done. setoid_rewrite matches_sep_step. split.
    + intros (t & u & -> & Ht & [-> |(v & -> & _)]); [by rewrite string_app_nil_r|].
      rewrite string_has_app in Hs. cbn in Hs. rewrite Ascii.eqb_refl, orb_true_r in Hs. done.
    + intros Hm. exists s, "". rewrite string_app_nil_r. auto.
  - rewrite split_byte_app, list.Forall_cons, <- IH, matches_cat by done. setoid_rewrite matches_sep_step. split.
    + intros (t & u & Heq & Ht & [-> |(v & -> & Hv)]).
      * rewrite string_app_nil_r in Heq. subst t. apply Hw in Ht. rewrite string_has_app in Ht. cbn in Ht.
        rewrite Ascii.eqb_refl, orb_true_r in Ht. done.
      * assert (cut_byte sep (a +:+ String sep b) = Some (t, v)) as Hc by (rewrite Heq; apply cut_byte_app; auto).
        rewrite cut_byte_app in Hc by done. by injection Hc as -> ->.
    + intros [Hm Hb]. eauto 8.
Qed.

(** Pieces with a separator after each, and a last one of another kind. *)
Lemma matches_terminated last s :
  (forall x, matches last x -> string_has sep x = false) ->
  matches (Cat (Star (Cat w (Chr sep))) last) s <->
  exists ls t, split_byte sep s = ls ++ [t] /\ Forall (matches w) ls /\ matches last t.
Proof.
  intros Hlast. split.
  - rewrite matches_cat. intros (u & v & -> & Hu & Hv). remember (Star (Cat w (Chr sep))) as r eqn:Hr.
    induction Hu as [| | | | | |a x y Hx _ Hy IH]; simplify_eq.
    + exists [], v. cbn [String.append]. rewrite split_byte_none by auto. done.
    + apply matches_cat in Hx as (p & q & -> & Hp & Hq%matches_chr). subst q.
      destruct IH as (ls & t & Hsp & Hls & Ht); [done|]. exists (p :: ls), t.
      rewrite <- !string_app_assoc. change (String sep "" +:+ (y +:+ v)) with (String sep (y +:+ v)).
      rewrite split_byte_app, Hsp by auto. auto.
  - intros (ls & t & Hsp & Hls & Ht). revert s Hsp. induction Hls as [|x ls Hx Hls IH]; intros s Hsp.
    + destruct (split_byte_cases sep s) as [[_ H]|(a & b & -> & _ & H)]; rewrite H in Hsp.
      * injection Hsp as ->. rewrite matches_cat. exists "", t. split; [done|]. split; [constructor|done].
      * injection Hsp as _ Hb. by destruct (split_byte_cases sep b) as [[_ Hn]|(? & ? & _ & _ & Hn)]; rewrite Hn in Hb.
    + destruct (split_byte_cases sep s) as [[_ H]|(a & b & -> & _ & H)]; rewrite H in Hsp.
      * injection Hsp as _ Hb. by destruct ls.
      * injection Hsp as -> Hb. specialize (IH b Hb). rewrite matches_cat in IH |- *.
        destruct IH as (u & v & -> & Hu & Hv). exists ((x +:+ String sep "") +:+ u), v.
        rewrite <- !string_app_assoc. split; [done|]. split; [|done]. rewrite string_app_assoc.
        apply m_star_step; [|done]. apply m_cat; [done|]. by apply matches_chr.
Qed.
End Separated.

(** A class without a byte matches no string with it. *)
Lemma string_forall_cls_has k c s : in_cls k c = false -> string_forall (in_cls k) s = true -> string_has c s = false.
Proof. intros Hc Hs. by eapply string_forall_has. Qed.
