(* ===== verification/Values.v ===== *)
(** * Values as [reflect] shows them ([pantry/validate/validate.go])

    What a rule of [pantry/validate] sees of a Go value: its kind, its type and
    its contents; and the helpers of [validate.go] on values.  A value is a tree,
    so that what the model says is about values without pointer cycles (on a cycle
    of structs the program does not return). *)

From S2P Require Import Prelude Float64 GoStrings Utf8 Strconv.
#[local] Open Scope list_scope.

(** ** Values *)

(** A field of a struct type; [f_tags] are the keys and values of its tag. *)
Record field := mkField {
  f_name : string;
  f_exported : bool;
  f_tags : list (string * string)
}.

(** [ty] is the name of the type.  [Nil] is the zero [reflect.Value], and the
    interface without a value; [Iface] a place of interface type, such as a field
    of type [any]; a pointer has an address.  [Stringer s v] is [v] of a type with
    a [String] method, which gives [s]; a type with a name and no such method is
    told from others by [ty] only. *)
Inductive value :=
| Nil
| Str (ty : string) (s : string)
| Bool (ty : string) (b : bool)
| Int (ty : string) (z : Z)
| Uint (ty : string) (z : Z)
| Float (ty : string) (x : float64)
| Bytes (s : string)
| Slice (ty : string) (l : option (list value))
| Array (ty : string) (l : list value)
| Map (ty : string) (l : option (list (value * value)))
| Ptr (ty : string) (p : option (Z * value))
| Struct (ty : string) (fs : list (field * value))
| Iface (v : value)
| Stringer (s : string) (v : value).

(** [fmt.Sprintf("%v", v)] of the values whose text depends on more than their
    contents (addresses, floats and composites). *)
Class Fmt := { Sprintf_v : value -> string }.

Inductive Kind :=
| KInvalid | KString | KBool | KInt | KUint | KFloat | KSlice | KArray | KMap | KPtr | KStruct | KInterface.

Fixpoint kind (v : value) : Kind :=
  match v with
  | Nil => KInvalid
  | Str _ _ => KString
  | Bool _ _ => KBool
  | Int _ _ => KInt
  | Uint _ _ => KUint
  | Float _ _ => KFloat
  | Bytes _ | Slice _ _ => KSlice
  | Array _ _ => KArray
  | Map _ _ => KMap
  | Ptr _ _ => KPtr
  | Struct _ _ => KStruct
  | Iface _ => KInterface
  | Stringer _ v => kind v
  end.

(** [val.Interface()]: the dynamic value of an interface. *)
Definition Interface (v : value) : value := match v with Iface v => v | v => v end.

(** The contents without the methods of the type. *)
Fixpoint contents (v : value) : value := match v with Stringer _ v => contents v | v => v end.

Definition opt_list {A : Type} (l : option (list A)) : list A := match l with Some l => l | None => [] end.

(** [val.Len()] of a slice, an array or a map. *)
Definition Len (v : value) : Z :=
  match contents v with
  | Bytes s => Z.of_nat (String.length s)
  | Slice _ l => Z.of_nat (length (opt_list l))
  | Array _ l => Z.of_nat (length l)
  | Map _ l => Z.of_nat (length (opt_list l))
  | _ => 0
  end.

(** The elements of a slice or an array. *)
Definition elems (v : value) : list value :=
  match contents v with
  | Bytes s => map (fun c => Uint "uint8" (byte_code c)) (String.list_ascii_of_string s)
  | Slice _ l => opt_list l
  | Array _ l => l
  | _ => []
  end.

(** ** Helpers of the package *)

Definition toString `{Fmt} (v : value) : string :=
  match v with
  | Nil => ""
  | Str _ s => s
  | Bytes s => s
  | Stringer s _ => s
  | Int _ z => Itoa z
  | Uint _ z => Itoa z
  | Bool _ b => if b then "true" else "false"
  | _ => Sprintf_v v
  end.

Definition toFloat (v : value) : option float64 :=
  match contents v with
  | Float _ x => Some x
  | Int _ z | Uint _ z => Some (f64_of_int z)
  | Str _ s => ParseFloat s
  | _ => None
  end.

(** The conversion of an [uint64] that an [int64] cannot hold wraps around; that of
    a float that it cannot hold is up to the implementation ([oob]). *)
Definition toInt (oob : float64 -> Z) (v : value) : option Z :=
  match contents v with
  | Int _ z => Some z
  | Uint _ z => Some (wrap64 z)
  | Float _ x => Some (f64_to_int64 oob x)
  | Str _ s => Atoi s
  | _ => None
  end.

Definition getLen (oob : float64 -> Z) (v : value) : Z :=
  match contents v with
  | Str _ s => rune_count s
  | Int _ z => z
  | Uint _ z => wrap64 z
  | Float _ x => f64_to_int64 oob x
  | v => Len v
  end.

Definition isEmpty (v : value) : bool :=
  match contents v with
  | Nil => true
  | Str _ s => String.eqb s ""
  | Bool _ b => negb b
  | Int _ z | Uint _ z => z =? 0
  | Float _ x => f64_eq x (f64_of_int 0)
  | Bytes _ | Slice _ _ | Array _ _ | Map _ _ => Len v =? 0
  | Ptr _ p => match p with None => true | Some _ => false end
  | Iface w => match w with Nil => true | _ => false end
  | _ => false
  end.

Fixpoint find_field (name : string) (fs : list (field * value)) : option (field * value) :=
  match fs with
  | [] => None
  | (f, v) :: fs => if String.eqb (f_name f) name then Some (f, v) else find_field name fs
  end.

(** [getFieldValue]: [None] is the panic of [Interface] on an unexported field,
    [Some None] the answer [false].  Fields promoted from embedded structs are not
    looked for. *)
Definition getFieldValue (sv : value) (name : string) : option (option value) :=
  match contents sv with
  | Struct _ fs =>
      match find_field name fs with
      | None => Some None
      | Some (f, v) => if f_exported f then Some (Some (Interface v)) else None
      end
  | _ => Some None
  end.

(** ** Equality *)

(** [reflect.DeepEqual]; values of different types differ. *)
Fixpoint DeepEqual (v w : value) {struct v} : bool :=
  let fix all2 l k :=
    match l, k with
    | [], [] => true
    | x :: l, y :: k => DeepEqual x y && all2 l k
    | _, _ => false
    end in
  match v, w with
  | Nil, Nil => true
  | Str t s, Str u r => String.eqb t u && String.eqb s r
  | Bool t a, Bool u b => String.eqb t u && Bool.eqb a b
  | Int t a, Int u b => String.eqb t u && (a =? b)
  | Uint t a, Uint u b => String.eqb t u && (a =? b)
  | Float t a, Float u b => String.eqb t u && f64_eq a b
  | Bytes a, Bytes b => String.eqb a b
  | Slice t None, Slice u None => String.eqb t u
  | Slice t (Some l), Slice u (Some k) => String.eqb t u && all2 l k
  | Array t l, Array u k => String.eqb t u && all2 l k
  | Map t None, Map u None => String.eqb t u
  | Map t (Some l), Map u (Some k) =>
      String.eqb t u && (Nat.eqb (length l) (length k)) &&
      (fix each l :=
         match l with
         | [] => true
         | (a, x) :: l =>
             (fix look k :=
                match k with
                | [] => false
                | (b, y) :: k => if DeepEqual a b then DeepEqual x y else look k
                end) k && each l
         end) l
  | Ptr t None, Ptr u None => String.eqb t u
  | Ptr t (Some (a, x)), Ptr u (Some (b, y)) => String.eqb t u && ((a =? b) || DeepEqual x y)
  | Struct t fs, Struct u gs =>
      String.eqb t u &&
      (fix all2f fs gs :=
         match fs, gs with
         | [], [] => true
         | (_, x) :: fs, (_, y) :: gs => DeepEqual x y && all2f fs gs
         | _, _ => false
         end) fs gs
  | Iface x, Iface y => DeepEqual x y
  | Stringer _ x, Stringer _ y => DeepEqual x y
  | _, _ => false
  end.

(** [==] of keys of type [any]; pointers are compared by address. *)
Fixpoint key_eq (v w : value) {struct v} : bool :=
  let fix all2 l k :=
    match l, k with
    | [], [] => true
    | x :: l, y :: k => key_eq x y && all2 l k
    | _, _ => false
    end in
  match v, w with
  | Nil, Nil => true
  | Str t s, Str u r => String.eqb t u && String.eqb s r
  | Bool t a, Bool u b => String.eqb t u && Bool.eqb a b
  | Int t a, Int u b => String.eqb t u && (a =? b)
  | Uint t a, Uint u b => String.eqb t u && (a =? b)
  | Float t a, Float u b => String.eqb t u && f64_eq a b
  | Array t l, Array u k => String.eqb t u && all2 l k
  | Ptr t None, Ptr u None => String.eqb t u
  | Ptr t (Some (a, _)), Ptr u (Some (b, _)) => String.eqb t u && (a =? b)
  | Struct t fs, Struct u gs =>
      String.eqb t u &&
      (fix all2f fs gs :=
         match fs, gs with
         | [], [] => true
         | (_, x) :: fs, (_, y) :: gs => key_eq x y && all2f fs gs
         | _, _ => false
         end) fs gs
  | Iface x, Iface y => key_eq x y
  | Stringer _ x, Stringer _ y => key_eq x y
  | _, _ => false
  end.

(** Whether a value can be the key of a map; the other ones panic. *)
Fixpoint hashable (v : value) : bool :=
  match v with
  | Bytes _ | Slice _ _ | Map _ _ => false
  | Array _ l => (fix all l := match l with [] => true | x :: l => hashable x && all l end) l
  | Struct _ fs => (fix all fs := match fs with [] => true | (_, x) :: fs => hashable x && all fs end) fs
  | Iface v | Stringer _ v => hashable v
  | _ => true
  end.

(** Induction over the values inside structs, pointers and slices. *)
Section Induction.
Context (P : value -> Prop)
  (Hstruct : forall ty fs, Forall (fun p => P p.2) fs -> P (Struct ty fs))
  (Hptr : forall ty a e, P e -> P (Ptr ty (Some (a, e))))
  (Hslice : forall ty l, Forall P l -> P (Slice ty (Some l)))
  (Hstringer : forall s w, P w -> P (Stringer s w))
  (Hother : forall v,
     match v with
     | Struct _ _ | Ptr _ (Some _) | Slice _ (Some _) | Stringer _ _ => False
     | _ => True
     end -> P v).

Fixpoint value_nested_ind (v : value) : P v :=
  match v with
  | Struct ty fs =>
      Hstruct ty fs
        ((fix all (fs : list (field * value)) : Forall (fun p => P p.2) fs :=
            match fs with
            | [] => @List.Forall_nil _ _
            | (f, w) :: fs => @List.Forall_cons _ (fun p => P p.2) (f, w) fs (value_nested_ind w) (all fs)
            end) fs)
  | Ptr ty (Some (a, e)) => Hptr ty a e (value_nested_ind e)
  | Slice ty (Some l) =>
      Hslice ty l
        ((fix all (l : list value) : Forall P l :=
            match l with
            | [] => @List.Forall_nil _ _
            | w :: l => @List.Forall_cons _ P w l (value_nested_ind w) (all l)
            end) l)
  | Stringer s w => Hstringer s w (value_nested_ind w)
  | v => Hother v I
  end.
End Induction.
