(* ===== verification/Rules.v ===== *)
(** * The rules of the validator ([pantry/validate/rules.go])

    One definition per rule, on the values of [Values], with the patterns of
    [validate.go] read by [Regex.MustCompile].  A rule gives the key of the message
    of what is wrong, or the empty string.  The rules that only hand the text to
    another package ([url], [uri], [json], [cidr], [mac], [regex], [datetime],
    [date], [time], [timezone], [duration]) are not modelled; for a string,
    [strings.TrimSpace], [ToUpper] and [ToLower] are those of [GoStrings], on
    ASCII. *)

From S2P Require Import Prelude Float64 GoStrings Utf8 Strconv Regex Values.
#[local] Open Scope list_scope.

(** ** The patterns *)

Definition emailRegex : re := MustCompile "^[a-zA-Z0-9._%+\-]+@[a-zA-Z0-9.\-]+\.[a-zA-Z]{2,}$".
Definition uuidRegex : re := MustCompile "^[0-9a-fA-F]{8}-[0-9a-fA-F]{4}-[0-9a-fA-F]{4}-[0-9a-fA-F]{4}-[0-9a-fA-F]{12}$".
Definition uuid3Regex : re := MustCompile "^[0-9a-fA-F]{8}-[0-9a-fA-F]{4}-3[0-9a-fA-F]{3}-[0-9a-fA-F]{4}-[0-9a-fA-F]{12}$".
Definition uuid4Regex : re := MustCompile "^[0-9a-fA-F]{8}-[0-9a-fA-F]{4}-4[0-9a-fA-F]{3}-[89abAB][0-9a-fA-F]{3}-[0-9a-fA-F]{12}$".
Definition uuid5Regex : re := MustCompile "^[0-9a-fA-F]{8}-[0-9a-fA-F]{4}-5[0-9a-fA-F]{3}-[89abAB][0-9a-fA-F]{3}-[0-9a-fA-F]{12}$".
Definition ulidRegex : re := MustCompile "^[0-9A-HJKMNP-TV-Z]{26}$".
Definition alphaRegex : re := MustCompile "^[a-zA-Z]+$".
Definition alphaNumRegex : re := MustCompile "^[a-zA-Z0-9]+$".
Definition alphaNumSpaceRegex : re := MustCompile "^[a-zA-Z0-9 ]+$".
Definition numericRegex : re := MustCompile "^[-+]?[0-9]+$".
Definition hexRegex : re := MustCompile "^[0-9a-fA-F]+$".
Definition hexColorRegex : re := MustCompile "^#([0-9a-fA-F]{3}|[0-9a-fA-F]{6}|[0-9a-fA-F]{8})$".
Definition rgbRegex : re := MustCompile "^rgb\(\s*(\d{1,3})\s*,\s*(\d{1,3})\s*,\s*(\d{1,3})\s*\)$".
Definition rgbaRegex : re := MustCompile "^rgba\(\s*(\d{1,3})\s*,\s*(\d{1,3})\s*,\s*(\d{1,3})\s*,\s*(0|1|0?\.\d+)\s*\)$".
Definition hslRegex : re := MustCompile "^hsl\(\s*(\d{1,3})\s*,\s*(\d{1,3})%\s*,\s*(\d{1,3})%\s*\)$".
Definition hslaRegex : re := MustCompile "^hsla\(\s*(\d{1,3})\s*,\s*(\d{1,3})%\s*,\s*(\d{1,3})%\s*,\s*(0|1|0?\.\d+)\s*\)$".
Definition base64Regex : re := MustCompile "^[A-Za-z0-9+/]*={0,2}$".
Definition base64URLRegex : re := MustCompile "^[A-Za-z0-9_-]*={0,2}$".
Definition isbn10Regex : re := MustCompile "^(?:\d{9}X|\d{10})$".
Definition isbn13Regex : re := MustCompile "^\d{13}$".
Definition issnRegex : re := MustCompile "^\d{4}-\d{3}[\dX]$".
Definition hostnameRegex : re := MustCompile "^[a-zA-Z0-9]([a-zA-Z0-9\-]{0,61}[a-zA-Z0-9])?$".
Definition fqdnRegex : re := MustCompile "^([a-zA-Z0-9]([a-zA-Z0-9\-]{0,61}[a-zA-Z0-9])?\.)+[a-zA-Z]{2,}$".
Definition e164Regex : re := MustCompile "^\+[1-9]\d{1,14}$".
Definition semverRegex : re := MustCompile "^v?(0|[1-9]\d*)\.(0|[1-9]\d*)\.(0|[1-9]\d*)(?:-((?:0|[1-9]\d*|\d*[a-zA-Z-][0-9a-zA-Z-]*)(?:\.(?:0|[1-9]\d*|\d*[a-zA-Z-][0-9a-zA-Z-]*))*))?(?:\+([0-9a-zA-Z-]+(?:\.[0-9a-zA-Z-]+)*))?$".
Definition slugRegex : re := MustCompile "^[a-z0-9]+(?:-[a-z0-9]+)*$".
Definition jwtRegex : re := MustCompile "^[A-Za-z0-9_-]+\.[A-Za-z0-9_-]+\.[A-Za-z0-9_-]+$".

(** ** Package [unicode] *)

(** The classes of runes, which are tables; for ASCII they are as documented. *)
Class Unicode := {
  IsUpper : Z -> bool;
  IsLower : Z -> bool;
  IsLetter : Z -> bool;
  IsDigit : Z -> bool;
  IsPunctOrSymbol : Z -> bool
}.

(** ** The tables of codes *)

Definition countryCodes : list string :=
  ["AD"; "AE"; "AF"; "AG"; "AI"; "AL"; "AM"; "AO"; "AQ"; "AR"; "AS"; "AT"; "AU"; "AW"; "AX"; "AZ";
   "BA"; "BB"; "BD"; "BE"; "BF"; "BG"; "BH"; "BI"; "BJ"; "BL"; "BM"; "BN"; "BO"; "BQ"; "BR"; "BS";
   "BT"; "BV"; "BW"; "BY"; "BZ"; "CA"; "CC"; "CD"; "CF"; "CG"; "CH"; "CI"; "CK"; "CL"; "CM"; "CN";
   "CO"; "CR"; "CU"; "CV"; "CW"; "CX"; "CY"; "CZ"; "DE"; "DJ"; "DK"; "DM"; "DO"; "DZ"; "EC"; "EE";
   "EG"; "EH"; "ER"; "ES"; "ET"; "FI"; "FJ"; "FK"; "FM"; "FO"; "FR"; "GA"; "GB"; "GD"; "GE"; "GF";
   "GG"; "GH"; "GI"; "GL"; "GM"; "GN"; "GP"; "GQ"; "GR"; "GS"; "GT"; "GU"; "GW"; "GY"; "HK"; "HM";
   "HN"; "HR"; "HT"; "HU"; "ID"; "IE"; "IL"; "IM"; "IN"; "IO"; "IQ"; "IR"; "IS"; "IT"; "JE"; "JM";
   "JO"; "JP"; "KE"; "KG"; "KH"; "KI"; "KM"; "KN"; "KP"; "KR"; "KW"; "KY"; "KZ"; "LA"; "LB"; "LC";
   "LI"; "LK"; "LR"; "LS"; "LT"; "LU"; "LV"; "LY"; "MA"; "MC"; "MD"; "ME"; "MF"; "MG"; "MH"; "MK";
   "ML"; "MM"; "MN"; "MO"; "MP"; "MQ"; "MR"; "MS"; "MT"; "MU"; "MV"; "MW"; "MX"; "MY"; "MZ"; "NA";
   "NC"; "NE"; "NF"; "NG"; "NI"; "NL"; "NO"; "NP"; "NR"; "NU"; "NZ"; "OM"; "PA"; "PE"; "PF"; "PG";
   "PH"; "PK"; "PL"; "PM"; "PN"; "PR"; "PS"; "PT"; "PW"; "PY"; "QA"; "RE"; "RO"; "RS"; "RU"; "RW";
   "SA"; "SB"; "SC"; "SD"; "SE"; "SG"; "SH"; "SI"; "SJ"; "SK"; "SL"; "SM"; "SN"; "SO"; "SR"; "SS";
   "ST"; "SV"; "SX"; "SY"; "SZ"; "TC"; "TD"; "TF"; "TG"; "TH"; "TJ"; "TK"; "TL"; "TM"; "TN"; "TO";
   "TR"; "TT"; "TV"; "TW"; "TZ"; "UA"; "UG"; "UM"; "US"; "UY"; "UZ"; "VA"; "VC"; "VE"; "VG"; "VI";
   "VN"; "VU"; "WF"; "WS"; "YE"; "YT"; "ZA"; "ZM"; "ZW"].

Definition languageCodes : list string :=
  ["aa"; "ab"; "ae"; "af"; "ak"; "am"; "an"; "ar"; "as"; "av"; "ay"; "az"; "ba"; "be"; "bg"; "bh";
   "bi"; "bm"; "bn"; "bo"; "br"; "bs"; "ca"; "ce"; "ch"; "co"; "cr"; "cs"; "cu"; "cv"; "cy"; "da";
   "de"; "dv"; "dz"; "ee"; "el"; "en"; "eo"; "es"; "et"; "eu"; "fa"; "ff"; "fi"; "fj"; "fo"; "fr";
   "fy"; "ga"; "gd"; "gl"; "gn"; "gu"; "gv"; "ha"; "he"; "hi"; "ho"; "hr"; "ht"; "hu"; "hy"; "hz";
   "ia"; "id"; "ie"; "ig"; "ii"; "ik"; "io"; "is"; "it"; "iu"; "ja"; "jv"; "ka"; "kg"; "ki"; "kj";
   "kk"; "kl"; "km"; "kn"; "ko"; "kr"; "ks"; "ku"; "kv"; "kw"; "ky"; "la"; "lb"; "lg"; "li"; "ln";
   "lo"; "lt"; "lu"; "lv"; "mg"; "mh"; "mi"; "mk"; "ml"; "mn"; "mr"; "ms"; "mt"; "my"; "na"; "nb";
   "nd"; "ne"; "ng"; "nl"; "nn"; "no"; "nr"; "nv"; "ny"; "oc"; "oj"; "om"; "or"; "os"; "pa"; "pi";
   "pl"; "ps"; "pt"; "qu"; "rm"; "rn"; "ro"; "ru"; "rw"; "sa"; "sc"; "sd"; "se"; "sg"; "si"; "sk";
   "sl"; "sm"; "sn"; "so"; "sq"; "sr"; "ss"; "st"; "su"; "sv"; "sw"; "ta"; "te"; "tg"; "th"; "ti";
   "tk"; "tl"; "tn"; "to"; "tr"; "ts"; "tt"; "tw"; "ty"; "ug"; "uk"; "ur"; "uz"; "ve"; "vi"; "vo";
   "wa"; "wo"; "xh"; "yi"; "yo"; "za"; "zh"; "zu"].

(** ** Rules

    A rule gets the value of the field, its parameter and the struct; the answer
    [None] is a panic. *)

Definition RuleFunc : Type := value -> string -> value -> option string.

Definition in_table (l : list string) (s : string) : bool := existsb (String.eqb s) l.

(** [strings.ContainsAny(s, chars)], by runes. *)
Definition ContainsAny (s chars : string) : bool :=
  existsb (fun r => existsb (Z.eqb r) (runes chars)) (runes s).
Definition ContainsRune (s : string) (r : Z) : bool := existsb (Z.eqb r) (runes s).

Definition digit_rune (r : Z) : bool := (48 <=? r) && (r <=? 57).
Definition alnum_rune (r : Z) : bool :=
  digit_rune r || ((65 <=? r) && (r <=? 90)) || ((97 <=? r) && (r <=? 122)).

Section Rules.
Context `{Fmt} `{Unicode}.
Implicit Types (value sv : value) (param : string).

Definition pass : option string := Some "".
Definition fails (key : string) : option string := Some key.

(** A rule of text: the empty text passes, any other fails when [bad]. *)
Definition on_text (key : string) (bad : string -> bool) value : option string :=
  let s := toString value in
  if String.eqb s "" then pass else if bad s then fails key else pass.

Definition on_pattern (key : string) (r : re) : RuleFunc :=
  fun value _ _ => on_text key (fun s => negb (MatchString r s)) value.

Definition ruleRequired : RuleFunc := fun value _ _ =>
  match contents value with
  | Nil => fails "required"
  | Str _ s => if String.eqb (TrimSpace s) "" then fails "required" else pass
  | Bytes _ | Slice _ _ | Array _ _ | Map _ _ => if Len value =? 0 then fails "required" else pass
  | Ptr _ None => fails "required"
  | _ => pass
  end.

Definition ruleEmail : RuleFunc := on_pattern "email" emailRegex.
Definition ruleUUID : RuleFunc := on_pattern "uuid" uuidRegex.
Definition ruleUUID3 : RuleFunc := on_pattern "uuid3" uuid3Regex.
Definition ruleUUID4 : RuleFunc := on_pattern "uuid4" uuid4Regex.
Definition ruleUUID5 : RuleFunc := on_pattern "uuid5" uuid5Regex.
Definition ruleULID : RuleFunc := on_pattern "ulid" ulidRegex.
Definition ruleAlpha : RuleFunc := on_pattern "alpha" alphaRegex.
Definition ruleAlphaNum : RuleFunc := on_pattern "alphanum" alphaNumRegex.
Definition ruleAlphaNumSpace : RuleFunc := on_pattern "alphanumspace" alphaNumSpaceRegex.
Definition ruleNumeric : RuleFunc := on_pattern "numeric" numericRegex.
Definition ruleHexadecimal : RuleFunc := on_pattern "hexadecimal" hexRegex.
Definition ruleHexColor : RuleFunc := on_pattern "hexcolor" hexColorRegex.
Definition ruleRGB : RuleFunc := on_pattern "rgb" rgbRegex.
Definition ruleRGBA : RuleFunc := on_pattern "rgba" rgbaRegex.
Definition ruleHSL : RuleFunc := on_pattern "hsl" hslRegex.
Definition ruleHSLA : RuleFunc := on_pattern "hsla" hslaRegex.
Definition ruleJWT : RuleFunc := on_pattern "jwt" jwtRegex.
Definition ruleBase64 : RuleFunc := fun value _ _ =>
  on_text "base64" (fun s => negb (Z.of_nat (String.length s) mod 4 =? 0) || negb (MatchString base64Regex s)) value.
Definition ruleBase64URL : RuleFunc := on_pattern "base64url" base64URLRegex.

(** The byte at an index within the string, as [int(s[i]-'0')]: a byte minus a
    byte wraps around at 256. *)
Definition byte_at (s : string) (i : nat) : ascii := default "000"%char (String.get i s).
Definition digit_at (s : string) (i : nat) : Z := (byte_code (byte_at s i) - 48) mod 256.

Fixpoint isbn10_sum (s : string) (i : nat) (n : nat) (sum : Z) : Z :=
  match n with
  | O => sum
  | S n => isbn10_sum s (S i) n (sum + digit_at s i * (10 - Z.of_nat i))
  end.

Definition ruleISBN10 : RuleFunc := fun value _ _ =>
  let s := toString value in
  if String.eqb s "" then pass
  else
    let s := ReplaceAll s "-" "" in
    if negb (MatchString isbn10Regex s) then fails "isbn10"
    else
      let sum := isbn10_sum s 0 9 0 in
      let sum := if Ascii.eqb (byte_at s 9) "X" then sum + 10 else sum + digit_at s 9 in
      if sum mod 11 =? 0 then pass else fails "isbn10".

Fixpoint isbn13_sum (s : string) (i : nat) (n : nat) (sum : Z) : Z :=
  match n with
  | O => sum
  | S n => isbn13_sum s (S i) n (if Nat.even i then sum + digit_at s i else sum + digit_at s i * 3)
  end.

Definition ruleISBN13 : RuleFunc := fun value _ _ =>
  let s := toString value in
  if String.eqb s "" then pass
  else
    let s := ReplaceAll s "-" "" in
    if negb (MatchString isbn13Regex s) then fails "isbn13"
    else
      let check := (10 - isbn13_sum s 0 12 0 mod 10) mod 10 in
      if digit_at s 12 =? check then pass else fails "isbn13".

Definition ruleISBN : RuleFunc := fun value param sv =>
  let s := toString value in
  if String.eqb s "" then pass
  else
    let s := ReplaceAll s "-" "" in
    if Nat.eqb (String.length s) 10 then ruleISBN10 (Str "string" s) param sv
    else if Nat.eqb (String.length s) 13 then ruleISBN13 (Str "string" s) param sv
    else fails "isbn".

Definition ruleISSN : RuleFunc := on_pattern "issn" issnRegex.

Definition ruleASCII : RuleFunc := fun value _ _ =>
  on_text "ascii" (fun s => existsb (fun r => 127 <? r) (runes s)) value.
Definition rulePrintASCII : RuleFunc := fun value _ _ =>
  on_text "printascii" (fun s => existsb (fun r => (r <? 32) || (126 <? r)) (runes s)) value.
Definition ruleMultibyte : RuleFunc := fun value _ _ =>
  on_text "multibyte" (fun s => negb (existsb (fun r => 127 <? r) (runes s))) value.
Definition ruleLowercase : RuleFunc := fun value _ _ =>
  on_text "lowercase" (fun s => existsb (fun r => IsLetter r && negb (IsLower r)) (runes s)) value.
Definition ruleUppercase : RuleFunc := fun value _ _ =>
  on_text "uppercase" (fun s => existsb (fun r => IsLetter r && negb (IsUpper r)) (runes s)) value.

(** ** Length and size *)

(** What [min], [max] and [between] measure. *)
Definition size (v : value) : option float64 :=
  match contents v with
  | Str _ s => Some (f64_of_int (rune_count s))
  | Bytes _ | Slice _ _ | Array _ _ | Map _ _ => Some (f64_of_int (Len v))
  | Int _ z | Uint _ z => Some (f64_of_int z)
  | Float _ x => Some x
  | _ => None
  end.

Definition ruleMin : RuleFunc := fun value param _ =>
  match ParseFloat param with
  | None => pass
  | Some m => match size value with
              | Some x => if f64_lt x m then fails "min" else pass
              | None => pass
              end
  end.

Definition ruleMax : RuleFunc := fun value param _ =>
  match ParseFloat param with
  | None => pass
  | Some m => match size value with
              | Some x => if f64_lt m x then fails "max" else pass
              | None => pass
              end
  end.

Definition ruleLen : RuleFunc := fun value param _ =>
  match Atoi param with
  | None => pass
  | Some n =>
      match contents value with
      | Str _ s => if rune_count s =? n then pass else fails "len"
      | Bytes _ | Slice _ _ | Array _ _ | Map _ _ => if Len value =? n then pass else fails "len"
      | _ => pass
      end
  end.

Definition ruleBetween : RuleFunc := fun value param _ =>
  match split_byte "|" param with
  | [p; q] =>
      match ParseFloat p, ParseFloat q with
      | Some min, Some max =>
          match size value with
          | Some x => if f64_lt x min || f64_lt max x then fails "between" else pass
          | None => pass
          end
      | _, _ => pass
      end
  | _ => pass
  end.

(** ** Comparisons *)

Definition is_nil (v : value) : bool := match v with Nil => true | _ => false end.

Definition ruleEq : RuleFunc := fun value param _ =>
  if is_nil value then pass else if String.eqb (toString value) param then pass else fails "eq".
Definition ruleNe : RuleFunc := fun value param _ =>
  if is_nil value then pass else if String.eqb (toString value) param then fails "ne" else pass.

(** A comparison with the parameter as a number. *)
Definition on_numbers (key : string) (bad : float64 -> float64 -> bool) : RuleFunc := fun value param _ =>
  if is_nil value then pass
  else
    match ParseFloat param with
    | None => pass
    | Some p => match toFloat value with
                | Some x => if bad x p then fails key else pass
                | None => pass
                end
    end.

Definition ruleGt : RuleFunc := on_numbers "gt" (fun x p => f64_le x p).
Definition ruleGte : RuleFunc := on_numbers "gte" (fun x p => f64_lt x p).
Definition ruleLt : RuleFunc := on_numbers "lt" (fun x p => f64_le p x).
Definition ruleLte : RuleFunc := on_numbers "lte" (fun x p => f64_lt p x).

Definition ruleEqField : RuleFunc := fun value param sv =>
  match getFieldValue sv param with
  | None => None
  | Some None => pass
  | Some (Some other) => if DeepEqual value other then pass else fails "eqfield"
  end.

Definition ruleNeField : RuleFunc := fun value param sv =>
  match getFieldValue sv param with
  | None => None
  | Some None => pass
  | Some (Some other) => if DeepEqual value other then fails "nefield" else pass
  end.

(** A comparison with another field as a number. *)
Definition on_fields (key : string) (bad : float64 -> float64 -> bool) : RuleFunc := fun value param sv =>
  match getFieldValue sv param with
  | None => None
  | Some None => pass
  | Some (Some other) =>
      match toFloat value, toFloat other with
      | Some x, Some y => if bad x y then fails key else pass
      | _, _ => pass
      end
  end.

Definition ruleGtField : RuleFunc := on_fields "gtfield" (fun x y => f64_le x y).
Definition ruleGteField : RuleFunc := on_fields "gtefield" (fun x y => f64_lt x y).
Definition ruleLtField : RuleFunc := on_fields "ltfield" (fun x y => f64_le y x).
Definition ruleLteField : RuleFunc := on_fields "ltefield" (fun x y => f64_lt y x).

(** ** Names and text *)

Definition ruleHostname : RuleFunc := fun value _ _ =>
  on_text "hostname" (fun s => (253 <? Z.of_nat (String.length s)) || negb (MatchString hostnameRegex s)) value.
Definition ruleFQDN : RuleFunc := on_pattern "fqdn" fqdnRegex.

Definition ruleContains : RuleFunc := fun value param _ =>
  on_text "contains" (fun s => negb (Contains s param)) value.
Definition ruleContainsAny : RuleFunc := fun value param _ =>
  on_text "containsany" (fun s => negb (ContainsAny s param)) value.
Definition ruleContainsRune : RuleFunc := fun value param _ =>
  on_text "containsrune"
    (fun s => match runes param with [] => false | r :: _ => negb (ContainsRune s r) end) value.
Definition ruleExcludes : RuleFunc := fun value param _ => on_text "excludes" (fun s => Contains s param) value.
Definition ruleExcludesAll : RuleFunc := fun value param _ =>
  on_text "excludesall" (fun s => ContainsAny s param) value.
Definition ruleExcludesRune : RuleFunc := fun value param _ =>
  on_text "excludesrune"
    (fun s => match runes param with [] => false | r :: _ => ContainsRune s r end) value.
Definition ruleStartsWith : RuleFunc := fun value param _ =>
  on_text "startswith" (fun s => negb (HasPrefix s param)) value.
Definition ruleEndsWith : RuleFunc := fun value param _ =>
  on_text "endswith" (fun s => negb (HasSuffix s param)) value.
Definition ruleStartsNotWith : RuleFunc := fun value param _ =>
  on_text "startsnotwith" (fun s => HasPrefix s param) value.
Definition ruleEndsNotWith : RuleFunc := fun value param _ =>
  on_text "endsnotwith" (fun s => HasSuffix s param) value.

(** ** Special rules *)

Definition ruleOneOf : RuleFunc := fun value param _ =>
  on_text "oneof" (fun s => negb (in_table (split_byte " " param) s)) value.

(** The elements are the keys of a map, the ones before it in [seen]. *)
Fixpoint unique_from (seen : list value) (l : list value) : option string :=
  match l with
  | [] => pass
  | x :: l =>
      if negb (hashable x) then None
      else if existsb (key_eq x) seen then fails "unique"
      else unique_from (x :: seen) l
  end.

Definition ruleUnique : RuleFunc := fun value _ _ =>
  match contents value with
  | Bytes _ | Slice _ _ | Array _ _ => unique_from [] (map Interface (elems value))
  | _ => pass
  end.

Definition ruleDive : RuleFunc := fun _ _ _ => pass.

(** [luhnValid], from the last byte to the first. *)
Fixpoint luhn_loop (digits : list Z) (alternate : bool) (sum : Z) : Z :=
  match digits with
  | [] => sum
  | d :: digits =>
      let d := if alternate then let d := d * 2 in if 9 <? d then d - 9 else d else d in
      luhn_loop digits (negb alternate) (sum + d)
  end.

Definition luhnValid (s : string) : bool :=
  let n := Z.of_nat (String.length s) in
  if (n <? 13) || (19 <? n) then false
  else
    luhn_loop (rev (map (fun c => (byte_code c - 48) mod 256) (String.list_ascii_of_string s))) false 0 mod 10 =? 0.

Definition ruleCreditCard : RuleFunc := fun value _ _ =>
  on_text "creditcard"
    (fun s =>
       let s := ReplaceAll (ReplaceAll s " " "") "-" "" in
       negb (forallb digit_rune (runes s)) || negb (luhnValid s)) value.

Definition ruleE164 : RuleFunc := on_pattern "e164" e164Regex.

Definition ruleCountryCode : RuleFunc := fun value _ _ =>
  let s := ToUpper (toString value) in
  if String.eqb s "" then pass else if in_table countryCodes s then pass else fails "countrycode".
Definition ruleLanguageCode : RuleFunc := fun value _ _ =>
  let s := ToLower (toString value) in
  if String.eqb s "" then pass else if in_table languageCodes s then pass else fails "languagecode".

Definition ruleBCP47 : RuleFunc := fun value _ _ =>
  on_text "bcp47"
    (fun s =>
       let parts := split_byte "-" s in
       Nat.eqb (length parts) 0 || (4 <? Z.of_nat (length parts)) ||
       negb (in_table languageCodes (ToLower (hd "" parts)))) value.

Definition ruleFilePath : RuleFunc := fun value _ _ =>
  on_text "filepath" (fun s => ContainsRune s 0 || (4096 <? Z.of_nat (String.length s))) value.
Definition ruleDirPath : RuleFunc := fun value _ _ =>
  on_text "dirpath" (fun s => ContainsRune s 0 || (4096 <? Z.of_nat (String.length s))) value.
Definition ruleSemver : RuleFunc := on_pattern "semver" semverRegex.

Definition ruleBoolean : RuleFunc := fun value _ _ =>
  let s := ToLower (toString value) in
  if String.eqb s "" then pass
  else if in_table ["true"; "false"; "1"; "0"; "yes"; "no"; "on"; "off"] s then pass else fails "boolean".

Definition ruleCVV : RuleFunc := fun value _ _ =>
  on_text "cvv"
    (fun s => let n := Z.of_nat (String.length s) in
              (n <? 3) || (4 <? n) || negb (forallb digit_rune (runes s))) value.

(** A number within bounds, in degrees. *)
Definition on_degrees (key : string) (bound : Z) : RuleFunc := fun value _ _ =>
  if is_nil value then pass
  else
    match toFloat value with
    | None => fails key
    | Some x => if f64_lt x (f64_of_int (- bound)) || f64_lt (f64_of_int bound) x then fails key else pass
    end.

Definition ruleLatitude : RuleFunc := on_degrees "latitude" 90.
Definition ruleLongitude : RuleFunc := on_degrees "longitude" 180.

Definition rulePostalCode : RuleFunc := fun value _ _ =>
  on_text "postcode"
    (fun s =>
       let cleaned := ReplaceAll (ReplaceAll s " " "") "-" "" in
       let n := Z.of_nat (String.length cleaned) in
       (n <? 3) || (10 <? n) || negb (forallb alnum_rune (runes cleaned))) value.

Definition ruleSlug : RuleFunc := on_pattern "slug" slugRegex.

(** The flags of [ruleStrongPassword]: a rune counts for the first class that it
    is in. *)
Definition rune_class (r : Z) : option nat :=
  if IsUpper r then Some 0%nat
  else if IsLower r then Some 1%nat
  else if IsDigit r then Some 2%nat
  else if IsPunctOrSymbol r then Some 3%nat
  else None.

Definition has_class (s : string) (k : nat) : bool :=
  existsb (fun r => match rune_class r with Some j => Nat.eqb j k | None => false end) (runes s).

Definition ruleStrongPassword : RuleFunc := fun value _ _ =>
  on_text "strongpassword"
    (fun s =>
       (Z.of_nat (String.length s) <? 8) ||
       negb (has_class s 0) || negb (has_class s 1) || negb (has_class s 2) || negb (has_class s 3)) value.
End Rules.

(** ** [email.go] *)

Definition SimpleEmailValid (s : string) : bool :=
  match cut_byte "@" (TrimSpace s) with
  | None => false
  | Some (name, domain) =>
      if String.eqb name "" || String.eqb domain "" then false else Contains domain "."
  end.
