(* ===== verification/Ip.v ===== *)
(** * Addresses ([pantry/validate/rules.go], the rules [ip], [ipv4] and [ipv6])

    [net.ParseIP] as the library reads it ([netip.ParseAddr] without zones), the
    three rules over it, and what the rule for IPv4 accepts. *)

From S2P Require Import Prelude Float64 GoStrings Utf8 Strconv Regex Values Rules.
#[local] Open Scope list_scope.

(** ** [net.ParseIP] *)

(** [parseIPv4Fields]: the octets read before, the value and the number of digits of
    the present one, and whether a dot may not come now. *)
Fixpoint parseIPv4Fields (s : string) (val digLen : Z) (no_dot : bool) (fields : list Z) : option (list Z) :=
  match s with
  | "" => if Nat.ltb (length fields) 3 then None else Some (fields ++ [val])
  | String c s =>
      if is_digit c then
        if (digLen =? 1) && (val =? 0) then None
        else
          let val := val * 10 + (byte_code c - 48) in
          if 255 <? val then None else parseIPv4Fields s val (digLen + 1) false fields
      else if Ascii.eqb c "." then
        if no_dot || String.eqb s "" then None
        else if Nat.eqb (length fields) 3 then None
        else parseIPv4Fields s 0 0 true (fields ++ [val])
      else None
  end.

Definition hex_value (c : ascii) : option Z :=
  if is_digit c then Some (byte_code c - 48) else hex_letter c.

(** The digits of a group: their number, their value and the text after them;
    [None] when there are too many. *)
Fixpoint scan_group (s : string) (off acc : Z) : option (Z * Z * string) :=
  match s with
  | "" => Some (off, acc, s)
  | String c s' =>
      match hex_value c with
      | None => Some (off, acc, s)
      | Some d =>
          let acc := acc * 16 + d in
          if (3 <? off) || (65535 <? acc) then None else scan_group s' (off + 1) acc
      end
  end.

(** The end of [parseIPv6]: the bytes read and the place of the ellipsis. *)
Definition expand (ip : list Z) (ellipsis : option nat) : option (list Z) :=
  if Nat.ltb (length ip) 16 then
    match ellipsis with
    | None => None
    | Some e => Some (take e ip ++ replicate (16 - length ip) 0 ++ drop e ip)
    end
  else match ellipsis with None => Some ip | Some _ => None end.

(** The loop of [parseIPv6]; every round reads two bytes, so that eight are
    enough. *)
Fixpoint groups (fuel : nat) (s : string) (ip : list Z) (ellipsis : option nat) : option (list Z) :=
  let finish s := if String.eqb s "" then expand ip ellipsis else None in
  match fuel with
  | O => finish s
  | S fuel =>
      match scan_group s 0 0 with
      | None => None
      | Some (off, acc, t) =>
          if off =? 0 then None
          else
            let more :=
              let ip := ip ++ [acc / 256; acc mod 256] in
              match t with
              | "" => expand ip ellipsis
              | String c t =>
                  if negb (Ascii.eqb c ":") || String.eqb t "" then None
                  else
                    match t with
                    | String ":" u =>
                        match ellipsis with
                        | Some _ => None
                        | None => if String.eqb u "" then expand ip (Some (length ip)) else groups fuel u ip (Some (length ip))
                        end
                    | _ => groups fuel t ip ellipsis
                    end
              end in
            match t with
            | String "." _ =>
                if match ellipsis with None => negb (Nat.eqb (length ip) 12) | Some _ => false end then None
                else if Nat.ltb 16 (length ip + 4) then None
                else match parseIPv4Fields s 0 0 true [] with
                     | Some v4 => expand (ip ++ v4) ellipsis
                     | None => None
                     end
            | _ => more
            end
      end
  end.

Definition parseIPv6 (s : string) : option (list Z) :=
  match s with
  | String ":" (String ":" t) => if String.eqb t "" then Some (replicate 16 0) else groups 8 t [] (Some 0%nat)
  | _ => groups 8 s [] None
  end.

(** The sixteen bytes of the address that stands for an IPv4 address. *)
Definition mapped (v4 : list Z) : list Z := replicate 10 0 ++ [255; 255] ++ v4.

(** The first of the bytes that decide the family. *)
Fixpoint family (s : string) : option ascii :=
  match s with
  | "" => None
  | String c s => if existsb (Ascii.eqb c) ["."; ":"; "%"]%char then Some c else family s
  end.

(** An address with a zone is refused. *)
Definition ParseIP (s : string) : option (list Z) :=
  match family s with
  | Some "."%char => mapped <$> parseIPv4Fields s 0 0 true []
  | Some ":"%char => if string_has "%" s then None else parseIPv6 s
  | _ => None
  end.

Definition is_To4 (ip : list Z) : bool :=
  bool_decide (take 12 ip = replicate 10 0 ++ [255; 255]).

(** ** The rules *)

Section IpRules.
Context `{Fmt}.

Definition ruleIP : RuleFunc := fun value _ _ =>
  on_text "ip" (fun s => match ParseIP s with None => true | Some _ => false end) value.
Definition ruleIPv4 : RuleFunc := fun value _ _ =>
  on_text "ipv4" (fun s => match ParseIP s with None => true | Some ip => negb (is_To4 ip) end) value.
Definition ruleIPv6 : RuleFunc := fun value _ _ =>
  on_text "ipv6" (fun s => match ParseIP s with None => true | Some ip => is_To4 ip end) value.
End IpRules.

Example parse_some :
  map ParseIP ["1.2.3.4"; "01.2.3.4"; "1.2.3"; "1.2.3.4.5"; "256.1.1.1"; "1..2.3"; "fe80::1%eth0"; "12345::"; "1::2::3"] =
  [Some (mapped [1; 2; 3; 4]); None; None; None; None; None; None; None; None].
Proof. by vm_compute. Qed.

Example parse_v6 :
  ParseIP "2001:db8::8:800:200c:417a" = Some [32; 1; 13; 184; 0; 0; 0; 0; 0; 8; 8; 0; 32; 12; 65; 122] /\
  ParseIP "::ffff:1.2.3.4" = Some (mapped [1; 2; 3; 4]) /\ ParseIP "::" = Some (replicate 16 0) /\
  ParseIP "1:2:3:4:5:6:7:8" = Some [0; 1; 0; 2; 0; 3; 0; 4; 0; 5; 0; 6; 0; 7; 0; 8] /\
  ParseIP "1:2:3:4:5:6:7::8" = None.
Proof. by vm_compute. Qed.

(** ** Dotted quads *)

Definition octet (a : Z) : Prop := 0 <= a <= 255.

Definition quad (a b c d : Z) : string :=
  Itoa a +:+ String "." (Itoa b +:+ String "." (Itoa c +:+ String "." (Itoa d))).

(** The digits of an octet: its value and how many there are. *)
Fixpoint scan_octet (p : string) (val digLen : Z) : option (Z * Z) :=
  match p with
  | "" => Some (val, digLen)
  | String c p =>
      if (digLen =? 1) && (val =? 0) then None
      else let val := val * 10 + (byte_code c - 48) in if 255 <? val then None else scan_octet p val (digLen + 1)
  end.

Lemma parse_octet p t val n b fields :
  string_forall is_digit p = true ->
  parseIPv4Fields (p +:+ t) val n b fields =
  match scan_octet p val n with
  | Some (v, n') => parseIPv4Fields t v n' (if String.eqb p "" then b else false) fields
  | None => None
  end.
Proof.
  revert val n b. induction p as [|c p IH]; intros val n b; [done|]. cbn [string_forall String.append parseIPv4Fields scan_octet String.eqb].
  intros [Hc Hp]%andb_prop. rewrite Hc. destruct (_ && _); [done|]. destruct (255 <? _); [done|]. rewrite IH by done.
  destruct (scan_octet p _ _) as [[v n']|]; [|done]. by destruct (String.eqb p "").
Qed.

(** Only digits and dots are read. *)
Lemma parse_bytes s val n b fields l :
  parseIPv4Fields s val n b fields = Some l -> string_forall (fun c => is_digit c || Ascii.eqb c ".") s = true.
Proof.
  revert val n b fields. induction s as [|c s IH]; intros val n b fields; cbn [parseIPv4Fields string_forall]; [done|].
  destruct (is_digit c); cbn [orb]; [repeat case_match; try done; apply IH|].
  destruct (Ascii.eqb c "."); cbn [andb]; [repeat case_match; try done; apply IH|done].
Qed.

Definition octets : list Z := map Z.of_nat (seq 0 256).

Lemma octet_elem a : octet a -> In a octets.
Proof. unfold octet, octets. intros Ha. apply in_map_iff. exists (Z.to_nat a). split; [lia|]. apply in_seq. lia. Qed.

Lemma scan_Itoa a : octet a -> scan_octet (Itoa a) 0 0 = Some (a, Z.of_nat (String.length (Itoa a))).
Proof.
  intros Ha%octet_elem.
  assert (forallb (fun a => bool_decide (scan_octet (Itoa a) 0 0 = Some (a, Z.of_nat (String.length (Itoa a))))) octets = true) as H by (by vm_compute).
  rewrite forallb_forall in H. specialize (H a Ha). by apply bool_decide_eq_true in H.
Qed.

Definition digit_chars : list ascii := map digit_byte [0; 1; 2; 3; 4; 5; 6; 7; 8; 9].

Lemma digit_chars_elem c : is_digit c = true -> In c digit_chars.
Proof.
  intros Hc. pose proof (ascii_forall (fun c => negb (is_digit c) || existsb (Ascii.eqb c) digit_chars) eq_refl c) as H.
  cbv beta in H. rewrite Hc in H. cbn [negb orb] in H. apply existsb_exists in H as (d & Hd & He%Ascii.eqb_eq). by subst.
Qed.

(** What is read as an octet is the decimal text of its value. *)
Definition canonical (p : string) : bool :=
  match scan_octet p 0 0 with
  | Some (v, _) => String.eqb p (Itoa v) && (0 <=? v) && (v <=? 255)
  | None => true
  end.

Lemma scan_canonical p v n :
  string_forall is_digit p = true -> p <> "" -> scan_octet p 0 0 = Some (v, n) -> p = Itoa v /\ octet v.
Proof.
  intros Hp Hne Hs. assert (canonical p = true) as Hc.
  { assert (H1 : forallb (fun a => canonical (String a "")) digit_chars = true) by (by vm_compute).
    assert (H2 : forallb (fun a => forallb (fun b => canonical (String a (String b ""))) digit_chars) digit_chars = true) by (by vm_compute).
    assert (H3 : forallb (fun a => forallb (fun b => forallb (fun c => canonical (String a (String b (String c "")))) digit_chars) digit_chars) digit_chars = true)
      by (by vm_compute).
    assert (H4 : forallb (fun a => forallb (fun b => forallb (fun c => forallb (fun d =>
      match scan_octet (String a (String b (String c (String d "")))) 0 0 with Some _ => false | None => true end) digit_chars) digit_chars) digit_chars) digit_chars = true)
      by (by vm_compute).
    rewrite !forallb_forall in H1, H2, H3, H4.
    destruct p as [|a p]; [done|]. cbn [string_forall] in Hp. apply andb_prop in Hp as [Ha%digit_chars_elem Hp].
    destruct p as [|b p]; [by apply H1|]. cbn [string_forall] in Hp. apply andb_prop in Hp as [Hb%digit_chars_elem Hp].
    specialize (H2 a Ha). specialize (H3 a Ha). specialize (H4 a Ha). rewrite !forallb_forall in H2, H3, H4.
    destruct p as [|c p]; [by apply H2|]. cbn [string_forall] in Hp. apply andb_prop in Hp as [Hc%digit_chars_elem Hp].
    specialize (H3 b Hb). specialize (H4 b Hb). rewrite !forallb_forall in H3, H4.
    destruct p as [|d p]; [by apply H3|]. cbn [string_forall] in Hp. apply andb_prop in Hp as [Hd%digit_chars_elem Hp].
    specialize (H4 c Hc). rewrite !forallb_forall in H4. specialize (H4 d Hd).
    exfalso. clear -Hs H4.
    assert (forall q r v n, scan_octet q v n = None -> scan_octet (q +:+ r) v n = None) as Happ.
    { induction q as [|x q IH]; intros r v' n'; [done|]. cbn [String.append scan_octet]. destruct (_ && _); [done|]. destruct (255 <? _); [done|]. apply IH. }
    destruct (scan_octet (String a (String b (String c (String d "")))) 0 0) as [x|] eqn:He; [done|].
    apply (Happ _ p) in He. cbn [String.append] in He. congruence. }
  unfold canonical in Hc. rewrite Hs in Hc. apply andb_prop in Hc as [Hc Hh]. apply andb_prop in Hc as [Hc%String.eqb_eq Hl].
  split; [done|unfold octet; lia].
Qed.

Lemma digits_of_dots p : string_forall (fun c => is_digit c || Ascii.eqb c ".") p = true -> string_has "." p = false -> string_forall is_digit p = true.
Proof.
  induction p as [|c p IH]; [done|]. cbn [string_forall string_has]. intros [Hc Hp]%andb_prop [Hd Hh]%orb_false_iff.
  rewrite Hd, orb_false_r in Hc. by rewrite Hc, IH.
Qed.

Lemma parse_quad_from s fields l :
  s <> "" -> (length fields <= 3)%nat -> parseIPv4Fields s 0 0 true fields = Some l ->
  exists vs, l = fields ++ vs /\ Forall octet vs /\ s = String.concat "." (map Itoa vs) /\ length l = 4%nat.
Proof.
  revert fields. induction s as [s Hs|p t Hp IH] using (split_byte_ind "."); intros fields Hne Hl Hparse.
  - pose proof (digits_of_dots s (parse_bytes _ _ _ _ _ _ Hparse) Hs) as Hd.
    rewrite <- (string_app_nil_r s), (parse_octet s "") in Hparse by done.
    destruct (scan_octet s 0 0) as [[v n]|] eqn:Hscan; [|done]. destruct (scan_canonical s v n Hd Hne Hscan) as [-> Hv].
    cbn [parseIPv4Fields] in Hparse. destruct (Nat.ltb (length fields) 3) eqn:H3; [done|]. injection Hparse as <-.
    apply Nat.ltb_ge in H3. exists [v]. rewrite length_app. cbn. repeat split; [by constructor|lia].
  - pose proof (parse_bytes _ _ _ _ _ _ Hparse) as Hb. rewrite string_forall_app in Hb. apply andb_prop in Hb as [Hb _].
    pose proof (digits_of_dots p Hb Hp) as Hd. rewrite parse_octet in Hparse by done.
    destruct (scan_octet p 0 0) as [[v n]|] eqn:Hscan; [|done]. cbn [parseIPv4Fields] in Hparse.
    change (is_digit ".") with false in Hparse. change (Ascii.eqb "." ".") with true in Hparse. cbn iota in Hparse.
    destruct (String.eqb_spec p "") as [->|Hpne]; [done|]. cbn [orb] in Hparse.
    destruct (String.eqb_spec t "") as [->|Htne]; [done|]. destruct (Nat.eqb_spec (length fields) 3) as [|H3]; [done|].
    destruct (scan_canonical p v n Hd Hpne Hscan) as [-> Hv].
    destruct (IH (fields ++ [v])) as (vs & -> & Hvs & -> & Hlen); [done|rewrite length_app; cbn; lia|done|].
    exists (v :: vs). rewrite <- app_assoc. split; [done|]. split; [by constructor|]. rewrite <- app_assoc in Hlen. split; [|done].
    destruct vs; [done|]. done.
Qed.

Lemma parse_quad a b c d :
  octet a -> octet b -> octet c -> octet d -> parseIPv4Fields (quad a b c d) 0 0 true [] = Some [a; b; c; d].
Proof.
  intros Ha Hb Hc Hd. unfold quad.
  assert (forall v, octet v -> string_forall is_digit (Itoa v) = true) as Hdig by (intros v Hv; apply Itoa_digits; unfold octet in Hv; lia).
  assert (forall v, octet v -> String.eqb (Itoa v) "" = false) as Hne
    by (intros v Hv; destruct (Itoa_head v) as (x & u & -> & _); [unfold octet in Hv; lia|done]).
  assert (forall v t, octet v -> String.eqb (Itoa v +:+ t) "" = false) as Hne'
    by (intros v t Hv; destruct (Itoa_head v) as (x & u & -> & _); [unfold octet in Hv; lia|done]).
  rewrite parse_octet, scan_Itoa, Hne by auto. cbn [parseIPv4Fields]. rewrite Hne' by done.
  change (is_digit ".") with false. change (Ascii.eqb "." ".") with true. cbn [orb length Nat.eqb app].
  rewrite parse_octet, scan_Itoa, Hne by auto. cbn [parseIPv4Fields]. rewrite Hne' by done.
  change (is_digit ".") with false. change (Ascii.eqb "." ".") with true. cbn [orb length Nat.eqb app].
  rewrite parse_octet, scan_Itoa, Hne by auto. cbn [parseIPv4Fields]. rewrite Hne by done.
  change (is_digit ".") with false. change (Ascii.eqb "." ".") with true. cbn [orb length Nat.eqb app].
  rewrite <- (string_app_nil_r (Itoa d)), parse_octet, scan_Itoa by auto. done.
Qed.

Definition is_quad (s : string) : Prop :=
  exists a b c d, octet a /\ octet b /\ octet c /\ octet d /\ s = quad a b c d.

Lemma parse_is_quad s l : parseIPv4Fields s 0 0 true [] = Some l <-> exists a b c d, octet a /\ octet b /\ octet c /\ octet d /\ s = quad a b c d /\ l = [a; b; c; d].
Proof.
  split.
  - intros Hp. assert (s <> "") as Hne by (by intros ->).
    destruct (parse_quad_from s [] l Hne ltac:(cbn; lia) Hp) as (vs & -> & Hvs & -> & Hlen). cbn [app] in *.
    destruct vs as [|a [|b [|c [|d [|]]]]]; try done. inversion Hvs as [|? ? Ha Hvs1]; subst. inversion Hvs1 as [|? ? Hb Hvs2]; subst.
    inversion Hvs2 as [|? ? Hc Hvs3]; subst. inversion Hvs3 as [|? ? Hd]; subst. by exists a, b, c, d.
  - intros (a & b & c & d & Ha & Hb & Hc & Hd & -> & ->). by apply parse_quad.
Qed.

Lemma is_To4_mapped v4 : length v4 = 4%nat -> is_To4 (mapped v4) = true.
Proof. intros H. unfold is_To4. apply bool_decide_eq_true. do 4 (destruct v4 as [|? v4]; [done|]). by destruct v4. Qed.

Lemma family_spec s :
  match family s with
  | Some c => exists t u, s = t +:+ String c u /\ (c = "." \/ c = ":" \/ c = "%")%char
  | None => string_has "." s = false /\ string_has ":" s = false
  end.
Proof.
  induction s as [|c s IH]; [done|]. cbn [family]. destruct (existsb (Ascii.eqb c) _) eqn:Hc.
  - exists "", s. split; [done|]. apply existsb_exists in Hc as (d & Hd & ->%Ascii.eqb_eq). cbn in Hd. naive_solver.
  - assert (Ascii.eqb c "." = false /\ Ascii.eqb c ":" = false) as [H1 H2] by (cbn in Hc; rewrite !orb_false_iff in Hc; tauto).
    destruct (family s) as [d|]; [destruct IH as (t & u & -> & Hd); by exists (String c t), u|].
    cbn [string_has]. rewrite H1, H2. done.
Qed.

(** ** Theorems *)

(** The rule for IPv4 accepts, of the texts without a colon, exactly the dotted quads:
    four decimal numbers from 0 to 255 without leading zeros.  It also accepts the
    IPv6 text of an address that stands for an IPv4 one, which the rule for IPv6
    refuses. *)
Theorem ipv4_spec `{Fmt} ty s param sv :
  (string_has ":" s = false -> ruleIPv4 (Str ty s) param sv = Some "" <-> s = "" \/ is_quad s) /\
  (string_has ":" s = false -> ruleIPv6 (Str ty s) param sv = Some "" -> s = "") /\
  (s <> "" -> ruleIP (Str ty s) param sv = Some "" <->
     ruleIPv4 (Str ty s) param sv = Some "" \/ ruleIPv6 (Str ty s) param sv = Some "") /\
  ruleIPv4 (Str ty "::ffff:1.2.3.4") param sv = Some "" /\ ruleIPv6 (Str ty "::ffff:1.2.3.4") param sv = Some "ipv6".
Proof.
  assert (string_has ":" s = false -> forall ip, ParseIP s = Some ip <-> exists l, parseIPv4Fields s 0 0 true [] = Some l /\ ip = mapped l) as Hparse.
  { intros Hcolon ip. unfold ParseIP. pose proof (family_spec s) as Hf. destruct (family s) as [c|].
    - destruct Hf as (t & u & -> & [-> |[-> | ->]]).
      + destruct (parseIPv4Fields _ _ _ _ _); cbn; naive_solver.
      + rewrite string_has_app in Hcolon. cbn in Hcolon. by rewrite orb_true_r in Hcolon.
      + split; [done|]. intros (l & Hl & _). apply parse_bytes in Hl. rewrite string_forall_app in Hl. cbn in Hl. by rewrite andb_false_r in Hl.
    - split; [done|]. intros (l & Hl & _). apply parse_is_quad in Hl as (a & b & c & d & _ & _ & _ & _ & -> & _).
      destruct Hf as [Hf _]. unfold quad in Hf. rewrite string_has_app in Hf. cbn in Hf. by rewrite orb_true_r in Hf. }
  unfold ruleIPv4, ruleIPv6, ruleIP, on_text, pass, fails. cbn [toString].
  split; [|split; [|split; [|by split]]].
  - intros Hc. specialize (Hparse Hc). destruct (String.eqb_spec s "") as [->|Hs]; [by split; auto|].
    destruct (ParseIP s) as [ip|] eqn:Hip.
    + destruct (proj1 (Hparse ip) eq_refl) as (l & Hl & ->). apply parse_is_quad in Hl as (a & b & c & d & Ha & Hb & Hcc & Hd & -> & ->).
      rewrite is_To4_mapped by done. cbn [negb]. split; [|done]. intros _. right. by exists a, b, c, d.
    + split; [done|]. intros [?|(a & b & c & d & Ha & Hb & Hcc & Hd & ->)]; [done|].
      destruct (Hparse (mapped [a; b; c; d])) as [_ Hno]. discriminate Hno. exists [a; b; c; d]. split; [by apply parse_quad|done].
  - intros Hc. specialize (Hparse Hc). destruct (String.eqb_spec s "") as [->|Hs]; [done|].
    destruct (ParseIP s) as [ip|] eqn:Hip; [|done].
    destruct (proj1 (Hparse ip) eq_refl) as (l & Hl & ->). apply parse_is_quad in Hl as (a & b & c & d & _ & _ & _ & _ & -> & ->).
    by rewrite is_To4_mapped.
  - intros Hs. rewrite (proj2 (String.eqb_neq _ _) Hs). destruct (ParseIP s) as [ip|]; [destruct (is_To4 ip)|]; naive_solver.
Qed.

Lemma ipv4_spec_witness :
  (ruleIPv4 (H := {| Sprintf_v _ := "" |}) (Str "string" "192.168.0.1") "" Nil = Some "" <-> "192.168.0.1" = "" \/ is_quad "192.168.0.1") /\
  is_quad "192.168.0.1".
Proof.
  split; [by apply (ipv4_spec "string" "192.168.0.1" "" Nil)|]. exists 192, 168, 0, 1. unfold octet. by repeat split.
Defined.
