(* ===== verification/Config.v ===== *)
(** * Configuration ([config])

    The durations of [duration.go], the values of an application
    ([appconfig.go]), and what [LoadWithAppConfig] makes of the values that viper
    has merged: lists, durations, defaults of Let's Encrypt, validation.  viper is
    an argument (what it holds, and setting a key), as are [json.Unmarshal] into a
    list, the levels that zap knows, [url.Parse] and [strconv.Quote].  The case of
    letters is that of ASCII. *)

From stdpp Require Import list numbers strings gmap.
From S2P Require Import Prelude Float64 GoStrings Utf8.

#[local] Open Scope list_scope.

(** ** [time.ParseDuration] *)

Definition two63 : Z := 9223372036854775808.

Fixpoint leadingInt (s : string) (x : Z) : option (Z * string) :=
  match s with
  | "" => Some (x, "")
  | String c s' =>
      if is_digit c then
        if two63 / 10 <? x then None
        else
          let x := x * 10 + (byte_code c - 48) in
          if two63 <? x then None else leadingInt s' x
      else Some (x, s)
  end.

Fixpoint leadingFraction (s : string) (x : Z) (scale : float64) (overflow : bool) : Z * float64 * string :=
  match s with
  | "" => (x, scale, "")
  | String c s' =>
      if is_digit c then
        if overflow || ((two63 - 1) / 10 <? x) then leadingFraction s' x scale true
        else
          let y := x * 10 + (byte_code c - 48) in
          if two63 <? y then leadingFraction s' x scale true
          else leadingFraction s' y (f64_mul scale (f64_of_int 10)) false
      else (x, scale, s)
  end.

Definition unit_byte (c : ascii) : bool := negb (Ascii.eqb c "." || is_digit c).

Fixpoint leadingUnit (s : string) : string * string :=
  match s with
  | "" => ("", "")
  | String c s' => if unit_byte c then let '(u, r) := leadingUnit s' in (String c u, r) else ("", s)
  end.

Definition unit_of (u : string) : option Z :=
  if String.eqb u "ns" then Some Nanosecond
  else if String.eqb u "us" || String.eqb u "µs" || String.eqb u "μs" then Some Microsecond
  else if String.eqb u "ms" then Some Millisecond
  else if String.eqb u "s" then Some Second
  else if String.eqb u "m" then Some Minute
  else if String.eqb u "h" then Some Hour
  else None.

(** A number and its unit. *)
Definition parse_term (s : string) : option (Z * string) :=
  match s with
  | "" => None
  | String c _ =>
    if unit_byte c then None
    else
      match leadingInt s 0 with
      | None => None
      | Some (v, s1) =>
        let pre := negb (String.length s1 =? String.length s)%nat in
        let '(f, scale, s2, post) :=
          match s1 with
          | String c t =>
              if Ascii.eqb c "." then
                let '(f, scale, r) := leadingFraction t 0 (f64_of_int 1) false in
                (f, scale, r, negb (String.length r =? String.length t)%nat)
              else (0, f64_of_int 1, s1, false)
          | "" => (0, f64_of_int 1, s1, false)
          end in
        if negb pre && negb post then None
        else
          let '(u, s3) := leadingUnit s2 in
          match unit_of u with
          | None => None
          | Some unit =>
            if two63 / unit <? v then None
            else
              let v := v * unit in
              let v := if 0 <? f then v + default 0 (f64_trunc (f64_mul (f64_of_int f) (f64_div (f64_of_int unit) scale))) else v in
              if two63 <? v then None else Some (v, s3)
          end
      end
  end.

(** [fuel] bounds the terms: each has a byte at least. *)
Fixpoint parse_terms (fuel : nat) (s : string) (d : Z) : option Z :=
  match s with
  | "" => Some d
  | _ =>
    match fuel with
    | O => None
    | S fuel =>
      match parse_term s with
      | None => None
      | Some (v, s) => if two63 <? d + v then None else parse_terms fuel s (d + v)
      end
    end
  end.

Definition ParseDuration (s : string) : option Duration :=
  let '(neg, s) :=
    match s with
    | String c s' => if Ascii.eqb c "-" then (true, s') else if Ascii.eqb c "+" then (false, s') else (false, s)
    | "" => (false, s)
    end in
  if String.eqb s "0" then Some 0
  else if String.eqb s "" then None
  else
    match parse_terms (String.length s) s 0 with
    | None => None
    | Some d => if (neg : bool) then Some (- d) else if two63 - 1 <? d then None else Some d
    end.

(** ** Values ([any]) *)

Inductive any :=
| ANil
| AString (s : string)
| AInt (z : Z)
| AInt32 (z : Z)
| AInt64 (z : Z)
| AFloat64 (x : float64)
| ABool (b : bool)
| AStrings (l : list string)
| AList (l : list any)
| ADuration (d : Duration)
| AOther.

Inductive duration_error := NotPositive | TooLong | CannotParse.

(** ** [duration.go] *)

Definition maxDurationSeconds : float64 := f64_div (f64_of_int max_int64) (f64_of_int Second).
Definition maxDurationSecondsInt64 : Z := max_int64 / Second.

(** The integers, but [int32], which needs no check for its size. *)
Definition seconds_of (n : Z) (def : Duration) : Duration * option duration_error :=
  if n <=? 0 then (def, Some NotPositive)
  else if maxDurationSecondsInt64 <? n then (def, Some TooLong)
  else (int_mul n Second, None).

Section config.
Context (oob : float64 -> Z).

Definition parseDurationFlexible (raw : any) (def : Duration) : Duration * option duration_error :=
  match raw with
  | ADuration t => if t <=? 0 then (def, Some NotPositive) else (t, None)
  | AString t =>
      let s := TrimSpace t in
      if String.eqb s "" then (def, None)
      else
        match ParseDuration s with
        | Some d => if d <=? 0 then (def, Some NotPositive) else (d, None)
        | None => match Atoi s with Some n => seconds_of n def | None => (def, Some CannotParse) end
        end
  | AInt n | AInt64 n => seconds_of n def
  | AInt32 n => if n <=? 0 then (def, Some NotPositive) else (int_mul n Second, None)
  | AFloat64 t =>
      if f64_le t (f64_of_int 0) then (def, Some NotPositive)
      else if f64_lt maxDurationSeconds t then (def, Some TooLong)
      else
        let secs := f64_to_int64 oob t in
        let frac := f64_sub t (f64_of_int secs) in
        (int_add (int_mul secs Second) (f64_to_int64 oob (f64_mul frac (f64_of_int Second))), None)
  | _ => (def, None)
  end.

(** ** [appconfig.go] *)

Abbreviation AppConfigValues := (gmap string any) (only parsing).

Definition value_of (a : AppConfigValues) (key : string) : any := default ANil (a !! key).

Definition App_String (a : AppConfigValues) (key : string) : string :=
  match value_of a key with AString v => v | _ => "" end.
Definition App_Int (a : AppConfigValues) (key : string) : Z :=
  match value_of a key with AInt v => v | AInt64 v => v | _ => 0 end.
Definition App_Int64 (a : AppConfigValues) (key : string) : Z :=
  match value_of a key with AInt64 v => v | AInt v => v | _ => 0 end.
Definition App_Bool (a : AppConfigValues) (key : string) : bool :=
  match value_of a key with ABool v => v | _ => false end.
Definition App_StringSlice (a : AppConfigValues) (key : string) : list string :=
  match value_of a key with AStrings v => v | _ => [] end.
Definition App_Duration (a : AppConfigValues) (key : string) (def : Duration) : Duration :=
  match value_of a key with
  | ANil => def
  | raw => match parseDurationFlexible raw def with (dur, None) => dur | (_, Some _) => def end
  end.

(** What is logged of a key. *)
Definition redacted_key (name : string) : bool :=
  let n := ToLower name in Contains n "key" || Contains n "secret" || Contains n "password" || Contains n "token".

Record AppKey := mkAppKey { k_Name : string; k_Default : any }.

(** What is registered: a flag with its kind, unless the name is taken or the
    default has a type that is not supported. *)
Definition flag_default (d : any) : option any :=
  match d with
  | AString _ | AInt _ | AInt64 _ | ABool _ => Some d
  | AStrings _ => Some (AString "")
  | _ => None
  end.

Fixpoint registerAppFlags (keys : list AppKey) (flags : gmap string any) : result string (gmap string any) :=
  match keys with
  | [] => Ok flags
  | k :: keys =>
      match flags !! k_Name k with
      | Some _ => Err (k_Name k)
      | None =>
          match flag_default (k_Default k) with
          | Some d => registerAppFlags keys (<[k_Name k := d]> flags)
          | None => Err (k_Name k)
          end
      end
  end.

(** ** Lists ([normalizeListKeys])

    [V] is viper: [v_Get] and [v_Set].  [unmarshal] is [json.Unmarshal] into a list
    of strings, [sprint] is [fmt.Sprint] of an element that is not a string. *)

Section lists.
Context {V : Type} (v_Get : V -> string -> any) (v_Set : V -> string -> any -> V).
Context (unmarshal : string -> option (list string)) (sprint : any -> string).

Definition element (e : any) : string := match e with AString s => s | _ => sprint e end.

Definition normalize_key (key : string) (v : V) : result string V :=
  match v_Get v key with
  | AString t =>
      let s := TrimSpace t in
      if String.eqb s "" then Ok (v_Set v key (AStrings []))
      else match unmarshal s with Some arr => Ok (v_Set v key (AStrings arr)) | None => Err key end
  | AList t => Ok (v_Set v key (AStrings (map element t)))
  | _ => Ok v
  end.

Fixpoint normalizeListKeys (keys : list string) (v : V) : result string V :=
  match keys with
  | [] => Ok v
  | key :: keys => match normalize_key key v with Ok v => normalizeListKeys keys v | Err e => Err e end
  end.

End lists.

(** ** The core configuration *)

Record HTTPConfig := mkHTTPConfig {
  HTTPPort : Z; HTTPSPort : Z; UseHTTPS : bool; ReadTimeout : Duration; ReadHeaderTimeout : Duration;
  WriteTimeout : Duration; IdleTimeout : Duration; ShutdownTimeout : Duration
}.

Record TLSConfig := mkTLSConfig {
  CertFile : string; KeyFile : string; UseLetsEncrypt : bool; LetsEncryptEmail : string; LetsEncryptCacheDir : string;
  Domain : string; Domains : list string; LetsEncryptChallenge : string; Route53HostedZoneID : string; ACMEDirectoryURL : string
}.

Record CORSConfig := mkCORSConfig {
  EnableCORS : bool; CORSAllowedOrigins : list string; CORSAllowedMethods : list string; CORSAllowedHeaders : list string;
  CORSExposedHeaders : list string; CORSAllowCredentials : bool; CORSMaxAge : Z
}.

Record SecurityConfig := mkSecurityConfig {
  EnableSecurityHeaders : bool; XFrameOptions : string; XContentTypeOptions : string; ReferrerPolicy : string;
  XSSProtection : string; HSTSMaxAge : Z; HSTSIncludeSubDomains : bool; HSTSPreload : bool;
  ContentSecurityPolicy : string; PermissionsPolicy : string
}.

Record CoreConfig := mkCoreConfig {
  c_Env : string; LogLevel : string; c_HTTP : HTTPConfig; c_TLS : TLSConfig; c_CORS : CORSConfig; c_Security : SecurityConfig;
  DBConnectTimeout : Duration; IndexBootTimeout : Duration; MaxRequestBodyBytes : Z; EnableCompression : bool; CompressionLevel : Z
}.

Definition blank (s : string) : bool := String.eqb (TrimSpace s) "".

Definition EffectiveDomains (t : TLSConfig) : list string :=
  match Domains t with
  | _ :: _ => Domains t
  | [] => if negb (blank (Domain t)) then [Domain t] else []
  end.

(** ** [isValidEmail] *)

Definition control_rune (c : Z) : bool := (c <=? 32) || (c =? 127).

Definition isValidEmail (email : string) : bool :=
  let email := TrimSpace email in
  match cut_byte "@" email with
  | None => false
  | Some (local, domain) =>
      if String.eqb local "" || String.eqb domain "" then false
      else if string_has "@" domain then false
      else if 64 <? strlen local then false
      else if 255 <? strlen domain then false
      else if negb (string_has "." domain) then false
      else if HasPrefix domain "." || HasSuffix domain "." || HasPrefix domain "-" || HasSuffix domain "-" then false
      else negb (existsb control_rune (runes email))
  end.

(** ** [validateCoreConfig]

    [level_known]: the levels of zap; [url_Parse]: the scheme and the host, or the
    text of the error. *)

Context (level_known : string -> bool) (url_Parse : string -> result string (string * string)) (Quote : string -> string).

Definition dquote (s : string) : string := String "034" (s +:+ String "034" "").

Definition report (bad : bool) (msg : string) : list string := if bad then [msg] else [].

Definition challenge_of (t : TLSConfig) : string := ToLower (TrimSpace (LetsEncryptChallenge t)).

Definition missing_acme (t : TLSConfig) (p : string) : list string :=
  report (blank (Domain t) && bool_decide (Domains t = [])) (p +:+ "_DOMAIN or " +:+ p +:+ "_DOMAINS for Let's Encrypt") ++
  report (blank (LetsEncryptEmail t)) (p +:+ "_LETS_ENCRYPT_EMAIL (or --lets_encrypt_email)") ++
  report (String.eqb (challenge_of t) "dns-01" && blank (Route53HostedZoneID t))
    (p +:+ "_ROUTE53_HOSTED_ZONE_ID (or --route53_hosted_zone_id) for dns-01").

(** The domains whose wildcards are looked for, and the first that needs dns-01. *)
Definition all_domains (t : TLSConfig) : list string := if negb (blank (Domain t)) then [Domain t] else Domains t.

Definition wildcard_problem (t : TLSConfig) : list string :=
  match find (fun d => HasPrefix d "*." && negb (String.eqb (challenge_of t) "dns-01")) (all_domains t) with
  | Some d => ["wildcard domain " +:+ Quote d +:+ " requires dns-01 challenge (set lets_encrypt_challenge=dns-01)"]
  | None => []
  end.

Definition directory_problem (t : TLSConfig) : list string :=
  if String.eqb (ACMEDirectoryURL t) "" then []
  else
    match url_Parse (ACMEDirectoryURL t) with
    | Err err => ["acme_directory_url is not a valid URL: " +:+ err]
    | Ok (scheme, host) =>
        if negb (String.eqb scheme "https") then ["acme_directory_url must use HTTPS scheme"]
        else report (String.eqb host "") "acme_directory_url must include a host"
    end.

Definition invalid_acme (t : TLSConfig) : list string :=
  report (negb (blank (Domain t)) && negb (bool_decide (Domains t = []))) "cannot specify both domain and domains; use one or the other" ++
  report (negb (blank (LetsEncryptEmail t)) && negb (isValidEmail (LetsEncryptEmail t)))
    "lets_encrypt_email must be a valid email address (e.g., user@example.com)" ++
  report (negb (String.eqb (challenge_of t) "http-01") && negb (String.eqb (challenge_of t) "dns-01"))
    ("lets_encrypt_challenge must be " +:+ dquote "http-01" +:+ " or " +:+ dquote "dns-01") ++
  wildcard_problem t ++ directory_problem t.

Definition port_ok (p : Z) : bool := negb ((p <=? 0) || (65535 <? p)).

Definition validMethods : list string := ["GET"; "POST"; "PUT"; "DELETE"; "PATCH"; "HEAD"; "OPTIONS"; "TRACE"; "CONNECT"].

Definition origin_problem (c : CORSConfig) (o : string) : list string :=
  if String.eqb o "*" then
    report (CORSAllowCredentials c) ("CORS: cannot use " +:+ dquote "*" +:+ " in cors_allowed_origins when cors_allow_credentials=true")
  else
    match url_Parse o with
    | Err err => ["CORS: invalid origin URL " +:+ Quote o +:+ ": " +:+ err]
    | Ok (scheme, host) =>
        if String.eqb scheme "" || String.eqb host "" then
          ["CORS: origin " +:+ Quote o +:+ " must be a full URL with scheme (e.g., https://example.com)"]
        else report (negb (String.eqb scheme "http") && negb (String.eqb scheme "https"))
               ("CORS: origin " +:+ Quote o +:+ " has invalid scheme " +:+ Quote scheme +:+ " (must be http or https)")
    end.

Definition maxCORSMaxAge : Z := 7 * 24 * 60 * 60.

Definition missing_cors (c : CORSConfig) : list string :=
  report (bool_decide (CORSAllowedOrigins c = [])) "CORS: cors_allowed_origins (JSON array) required when enable_cors=true" ++
  report (bool_decide (CORSAllowedMethods c = [])) "CORS: cors_allowed_methods (JSON array) required when enable_cors=true".

Definition invalid_cors (c : CORSConfig) : list string :=
  flat_map (fun m => report (negb (bool_decide (ToUpper m ∈ validMethods))) ("CORS: invalid HTTP method " +:+ Quote m)) (CORSAllowedMethods c) ++
  flat_map (origin_problem c) (CORSAllowedOrigins c) ++
  report (CORSMaxAge c <? 0) "CORS: cors_max_age must be >= 0" ++
  report (maxCORSMaxAge <? CORSMaxAge c)
    ("CORS: cors_max_age " +:+ Itoa (CORSMaxAge c) +:+ " exceeds maximum of " +:+ Itoa maxCORSMaxAge +:+ " seconds (1 week)").

Definition invalid_http (h : HTTPConfig) : list string :=
  report (ReadTimeout h <=? 0) "read_timeout must be > 0" ++
  report (ReadHeaderTimeout h <=? 0) "read_header_timeout must be > 0 (required for Slowloris protection)" ++
  report (WriteTimeout h <=? 0) "write_timeout must be > 0" ++
  report (IdleTimeout h <=? 0) "idle_timeout must be > 0" ++
  report (ShutdownTimeout h <=? 0) "shutdown_timeout must be > 0" ++
  report ((0 <? ReadHeaderTimeout h) && (0 <? ReadTimeout h) && (ReadTimeout h <? ReadHeaderTimeout h))
    "read_header_timeout should not exceed read_timeout".

Definition missing_of (cfg : CoreConfig) (p : string) : list string :=
  let t := c_TLS cfg in
  (if UseLetsEncrypt t then missing_acme t p else []) ++
  report (UseHTTPS (c_HTTP cfg) && negb (UseLetsEncrypt t) && (blank (CertFile t) || blank (KeyFile t)))
    (p +:+ "_CERT_FILE and " +:+ p +:+ "_KEY_FILE (or --cert_file/--key_file) for manual TLS") ++
  (if EnableCORS (c_CORS cfg) then missing_cors (c_CORS cfg) else []).

Definition invalid_of (cfg : CoreConfig) : list string :=
  let t := c_TLS cfg in
  let h := c_HTTP cfg in
  report (negb (String.eqb (LogLevel cfg) "") && negb (level_known (ToLower (LogLevel cfg))))
    ("log_level " +:+ Quote (LogLevel cfg) +:+ " is invalid; valid levels: debug, info, warn, error, dpanic, panic, fatal") ++
  report (UseLetsEncrypt t && negb (UseHTTPS h)) "use_lets_encrypt=true requires use_https=true" ++
  report (UseLetsEncrypt t && (negb (blank (CertFile t)) || negb (blank (KeyFile t))))
    "use_lets_encrypt=true cannot be combined with cert_file/key_file" ++
  (if UseLetsEncrypt t then invalid_acme t else []) ++
  report (negb (port_ok (HTTPPort h))) "http_port must be in 1..65535" ++
  report (negb (port_ok (HTTPSPort h))) "https_port must be in 1..65535" ++
  report (UseHTTPS h && (HTTPPort h =? HTTPSPort h)) "http_port and https_port cannot be equal when use_https=true" ++
  report (UseHTTPS h && (HTTPSPort h =? 80)) "https_port cannot be 80; port 80 is used by the ACME/redirect server" ++
  (if EnableCORS (c_CORS cfg) then invalid_cors (c_CORS cfg) else []) ++
  report (DBConnectTimeout cfg <=? 0) "db_connect_timeout must be > 0" ++
  report (IndexBootTimeout cfg <=? 0) "index_boot_timeout must be > 0" ++
  report (negb (CompressionLevel cfg =? 0) && ((CompressionLevel cfg <? 1) || (9 <? CompressionLevel cfg)))
    "compression_level must be between 1 and 9 (or 0 for default)" ++
  report (MaxRequestBodyBytes cfg <? -1) "max_request_body_bytes must be >= -1 (-1 = reject all, 0 = no limit)" ++
  invalid_http h.

Definition validateCoreConfig (cfg : CoreConfig) (envPrefix : string) : option string :=
  let missing := missing_of cfg envPrefix in
  let invalid := invalid_of cfg in
  match missing, invalid with
  | [], [] => None
  | _, _ =>
      let parts := (match missing with [] => [] | _ => ["missing: " +:+ String.concat ", " missing] end) ++
                   (match invalid with [] => [] | _ => ["invalid: " +:+ String.concat ", " invalid] end) in
      Some ("core configuration errors: " +:+ String.concat " | " parts)
  end.

(** ** The end of [LoadWithAppConfig]

    From the merged values to the configuration that is returned; [decode] is
    [v.Unmarshal]. *)

Definition with_durations (dur : string -> Duration -> Duration) (cfg : CoreConfig) : CoreConfig :=
  let h := c_HTTP cfg in
  mkCoreConfig (c_Env cfg) (LogLevel cfg)
    (mkHTTPConfig (HTTPPort h) (HTTPSPort h) (UseHTTPS h) (dur "read_timeout" (15 * Second)) (dur "read_header_timeout" (10 * Second))
       (dur "write_timeout" (60 * Second)) (dur "idle_timeout" (120 * Second)) (dur "shutdown_timeout" (15 * Second)))
    (c_TLS cfg) (c_CORS cfg) (c_Security cfg) (dur "db_connect_timeout" (10 * Second)) (dur "index_boot_timeout" (120 * Second))
    (MaxRequestBodyBytes cfg) (EnableCompression cfg) (CompressionLevel cfg).

Definition directory_default (cfg : CoreConfig) : string :=
  let t := c_TLS cfg in
  if UseLetsEncrypt t && String.eqb (ACMEDirectoryURL t) "" then
    if String.eqb (c_Env cfg) "prod" then "https://acme-v02.api.letsencrypt.org/directory"
    else "https://acme-staging-v02.api.letsencrypt.org/directory"
  else ACMEDirectoryURL t.

Definition with_TLS_defaults (cfg : CoreConfig) : CoreConfig :=
  let t := c_TLS cfg in
  mkCoreConfig (c_Env cfg) (LogLevel cfg) (c_HTTP cfg)
    (mkTLSConfig (CertFile t) (KeyFile t) (UseLetsEncrypt t) (LetsEncryptEmail t) (LetsEncryptCacheDir t) (Domain t) (Domains t)
       (challenge_of t) (Route53HostedZoneID t) (directory_default cfg))
    (c_CORS cfg) (c_Security cfg) (DBConnectTimeout cfg) (IndexBootTimeout cfg) (MaxRequestBodyBytes cfg) (EnableCompression cfg)
    (CompressionLevel cfg).

Definition list_keys : list string :=
  ["cors_allowed_origins"; "cors_allowed_methods"; "cors_allowed_headers"; "cors_exposed_headers"; "domains"].

Inductive load_error := BadList (key : string) | CannotDecode (e : string) | InvalidConfig (msg : string).

Definition load_core {V : Type} (v_Get : V -> string -> any) (v_Set : V -> string -> any -> V)
    (unmarshal : string -> option (list string)) (sprint : any -> string) (decode : V -> result string CoreConfig)
    (envPrefix : string) (v : V) : result load_error CoreConfig :=
  let envPrefix := if String.eqb envPrefix "" then "WAFFLE" else envPrefix in
  match normalizeListKeys v_Get v_Set unmarshal sprint list_keys v with
  | Err key => Err (BadList key)
  | Ok v =>
    match decode v with
    | Err e => Err (CannotDecode e)
    | Ok cfg =>
      let cfg := with_durations (fun key def => (parseDurationFlexible (v_Get v key) def).1) cfg in
      let cfg := with_TLS_defaults cfg in
      match validateCoreConfig cfg envPrefix with
      | Some msg => Err (InvalidConfig msg)
      | None => Ok cfg
      end
    end
  end.

(** ** What a valid configuration is *)

Definition directory_ok (t : TLSConfig) : Prop :=
  ACMEDirectoryURL t = "" \/ exists host, url_Parse (ACMEDirectoryURL t) = Ok ("https", host) /\ host <> "".

Definition acme_ok (t : TLSConfig) : Prop :=
  blank (CertFile t) = true /\ blank (KeyFile t) = true /\
  (blank (Domain t) = true <-> Domains t <> []) /\
  isValidEmail (LetsEncryptEmail t) = true /\
  ((challenge_of t = "http-01" /\ Forall (fun d => HasPrefix d "*." = false) (EffectiveDomains t)) \/
   (challenge_of t = "dns-01" /\ blank (Route53HostedZoneID t) = false)) /\
  directory_ok t.

Definition origin_ok (c : CORSConfig) (o : string) : Prop :=
  (o = "*" /\ CORSAllowCredentials c = false) \/
  (o <> "*" /\ exists scheme host, url_Parse o = Ok (scheme, host) /\ (scheme = "http" \/ scheme = "https") /\ host <> "").

Definition cors_ok (c : CORSConfig) : Prop :=
  CORSAllowedOrigins c <> [] /\ CORSAllowedMethods c <> [] /\
  Forall (fun m => ToUpper m ∈ validMethods) (CORSAllowedMethods c) /\ Forall (origin_ok c) (CORSAllowedOrigins c) /\
  0 <= CORSMaxAge c <= 604800.

Definition http_ok (h : HTTPConfig) : Prop :=
  0 < ReadHeaderTimeout h <= ReadTimeout h /\ 0 < WriteTimeout h /\ 0 < IdleTimeout h /\ 0 < ShutdownTimeout h.

Definition ports_ok (h : HTTPConfig) : Prop :=
  1 <= HTTPPort h <= 65535 /\ 1 <= HTTPSPort h <= 65535 /\
  (UseHTTPS h = true -> HTTPPort h <> HTTPSPort h /\ HTTPSPort h <> 80).

Definition tls_ok (h : HTTPConfig) (t : TLSConfig) : Prop :=
  (UseLetsEncrypt t = true -> UseHTTPS h = true /\ acme_ok t) /\
  (UseHTTPS h = true -> UseLetsEncrypt t = false -> blank (CertFile t) = false /\ blank (KeyFile t) = false).

Definition config_ok (cfg : CoreConfig) : Prop :=
  (LogLevel cfg = "" \/ level_known (ToLower (LogLevel cfg)) = true) /\
  ports_ok (c_HTTP cfg) /\ tls_ok (c_HTTP cfg) (c_TLS cfg) /\ (EnableCORS (c_CORS cfg) = true -> cors_ok (c_CORS cfg)) /\
  0 < DBConnectTimeout cfg /\ 0 < IndexBootTimeout cfg /\ 0 <= CompressionLevel cfg <= 9 /\ -1 <= MaxRequestBodyBytes cfg /\
  http_ok (c_HTTP cfg).

(** ** Lemmas: validation *)

Lemma report_nil b m : report b m = [] <-> b = false.
Proof. by destruct b. Qed.

Lemma flat_map_nil {A B : Type} (f : A -> list B) l : flat_map f l = [] <-> Forall (fun x => f x = []) l.
Proof.
  induction l as [|x l IH]; [done|]. cbn. rewrite app_nil, IH, Forall_cons_iff. done.
Qed.

Lemma isValidEmail_blank s : blank s = true -> isValidEmail s = false.
Proof. unfold blank, isValidEmail. intros H%String.eqb_eq. by rewrite H. Qed.

Lemma find_nil (f : string -> bool) (g : string -> string) l :
  (match find f l with Some d => [g d] | None => [] end) = [] <-> Forall (fun d => f d = false) l.
Proof.
  induction l as [|x l IH]; cbn; [done|]. destruct (f x) eqn:Hx.
  - split; [done|]. intros H. inversion H. congruence.
  - rewrite IH, Forall_cons_iff. naive_solver.
Qed.

Lemma directory_problem_nil t : directory_problem t = [] <-> directory_ok t.
Proof.
  unfold directory_problem, directory_ok. destruct (String.eqb_spec (ACMEDirectoryURL t) "") as [->|Hne]; [naive_solver|].
  destruct (url_Parse (ACMEDirectoryURL t)) as [[scheme host]|e]; [|naive_solver].
  destruct (String.eqb_spec scheme "https") as [->|Hs]; cbn [negb]; [|naive_solver].
  rewrite report_nil, String.eqb_neq. naive_solver.
Qed.

Lemma origin_problem_nil c o : origin_problem c o = [] <-> origin_ok c o.
Proof.
  unfold origin_problem, origin_ok. destruct (String.eqb_spec o "*") as [->|Hne]; [rewrite report_nil; naive_solver|].
  destruct (url_Parse o) as [[scheme host]|e]; [|naive_solver].
  destruct (String.eqb_spec scheme "") as [->|Hs]; cbn [orb]; [naive_solver|].
  destruct (String.eqb_spec host "") as [->|Hh]; [naive_solver|].
  rewrite report_nil. destruct (String.eqb_spec scheme "http"), (String.eqb_spec scheme "https"); naive_solver.
Qed.

Lemma domains_nil t :
  blank (Domain t) && bool_decide (Domains t = []) = false /\ negb (blank (Domain t)) && negb (bool_decide (Domains t = [])) = false <->
  (blank (Domain t) = true <-> Domains t <> []).
Proof.
  destruct (blank (Domain t)), (bool_decide_reflect (Domains t = [])); cbn; intuition congruence.
Qed.

Lemma email_nil t :
  blank (LetsEncryptEmail t) = false /\ negb (blank (LetsEncryptEmail t)) && negb (isValidEmail (LetsEncryptEmail t)) = false <->
  isValidEmail (LetsEncryptEmail t) = true.
Proof.
  pose proof (isValidEmail_blank (LetsEncryptEmail t)) as Hb.
  destruct (blank (LetsEncryptEmail t)), (isValidEmail (LetsEncryptEmail t)); cbn; intuition congruence.
Qed.

Lemma all_domains_effective t : (blank (Domain t) = true <-> Domains t <> []) -> all_domains t = EffectiveDomains t.
Proof.
  unfold all_domains, EffectiveDomains. intros H. destruct (blank (Domain t)), (Domains t); cbn; intuition congruence.
Qed.

Lemma challenge_nil t l :
  (String.eqb (challenge_of t) "dns-01" && blank (Route53HostedZoneID t) = false /\
   negb (String.eqb (challenge_of t) "http-01") && negb (String.eqb (challenge_of t) "dns-01") = false /\
   Forall (fun d => HasPrefix d "*." && negb (String.eqb (challenge_of t) "dns-01") = false) l) <->
  ((challenge_of t = "http-01" /\ Forall (fun d => HasPrefix d "*." = false) l) \/
   (challenge_of t = "dns-01" /\ blank (Route53HostedZoneID t) = false)).
Proof.
  destruct (String.eqb_spec (challenge_of t) "dns-01") as [Hd|Hd].
  - assert (Forall (fun d => HasPrefix d "*." && negb true = false) l) by (apply Forall_true; intros; by rewrite andb_false_r).
    rewrite Hd. cbn [String.eqb negb andb]. split; [intros [H1 _]; right; done|intros [[H1 _]|[_ H1]]; [done|]]. by rewrite andb_false_r.
  - cbn [negb andb]. split.
    + intros (_ & H1 & H2). left. destruct (String.eqb_spec (challenge_of t) "http-01"); [|done]. split; [done|].
      eapply Forall_impl; [|exact H2]. intros d. cbv beta. by rewrite andb_true_r.
    + intros [[-> H2]|[H1 _]]; [|done]. repeat split. eapply Forall_impl; [|exact H2]. intros d. cbv beta. by intros ->.
Qed.

Lemma acme_nil t p : blank (CertFile t) = true /\ blank (KeyFile t) = true /\ missing_acme t p = [] /\ invalid_acme t = [] <-> acme_ok t.
Proof.
  unfold missing_acme, invalid_acme, acme_ok, wildcard_problem. rewrite !app_nil, !report_nil, directory_problem_nil, find_nil.
  rewrite <- (domains_nil t), <- (email_nil t), <- (challenge_nil t (EffectiveDomains t)).
  pose proof (all_domains_effective t) as He. rewrite <- (domains_nil t) in He. split.
  - intros (H1 & H2 & (H3 & H4 & H5) & H6 & H7 & H8 & H9 & H10). rewrite He in H9 by done. repeat (split; [tauto|]). done.
  - intros (H1 & H2 & [H3 H6] & [H4 H7] & (H5 & H8 & H9) & H10). rewrite He by done. repeat (split; [tauto|]). done.
Qed.

Lemma cors_nil c : missing_cors c = [] /\ invalid_cors c = [] <-> cors_ok c.
Proof.
  unfold missing_cors, invalid_cors, cors_ok, maxCORSMaxAge. rewrite !app_nil, !report_nil, !flat_map_nil, !bool_decide_eq_false.
  assert (Hm : forall l, Forall (fun m => report (negb (bool_decide (ToUpper m ∈ validMethods))) ("CORS: invalid HTTP method " +:+ Quote m) = []) l
    <-> Forall (fun m => ToUpper m ∈ validMethods) l).
  { intros l. apply Forall_iff. intros m. rewrite report_nil, negb_false_iff. apply bool_decide_eq_true. }
  assert (Ho : forall l, Forall (fun o => origin_problem c o = []) l <-> Forall (origin_ok c) l).
  { intros l. apply Forall_iff. intros o. apply origin_problem_nil. }
  rewrite Hm, Ho, !Z.ltb_ge. change (7 * 24 * 60 * 60) with 604800. tauto.
Qed.

Lemma http_nil h : invalid_http h = [] <-> http_ok h.
Proof. unfold invalid_http, http_ok. rewrite !app_nil, !report_nil. lia. Qed.

Lemma if_nil {A : Type} (b : bool) (l : list A) : (if b then l else []) = [] <-> (b = true -> l = []).
Proof. destruct b; naive_solver. Qed.

Lemma ports_nil h :
  negb (port_ok (HTTPPort h)) = false /\ negb (port_ok (HTTPSPort h)) = false /\ UseHTTPS h && (HTTPPort h =? HTTPSPort h) = false /\
  UseHTTPS h && (HTTPSPort h =? 80) = false <-> ports_ok h.
Proof. unfold ports_ok, port_ok. destruct (UseHTTPS h); lia. Qed.

Lemma tls_nil h t p :
  UseLetsEncrypt t && negb (UseHTTPS h) = false /\ UseLetsEncrypt t && (negb (blank (CertFile t)) || negb (blank (KeyFile t))) = false /\
  (UseLetsEncrypt t = true -> missing_acme t p = []) /\ (UseLetsEncrypt t = true -> invalid_acme t = []) /\
  UseHTTPS h && negb (UseLetsEncrypt t) && (blank (CertFile t) || blank (KeyFile t)) = false <-> tls_ok h t.
Proof.
  unfold tls_ok. rewrite <- (acme_nil t p).
  destruct (UseLetsEncrypt t), (UseHTTPS h), (blank (CertFile t)), (blank (KeyFile t)); cbn; intuition congruence.
Qed.

Lemma validate_ok cfg p : validateCoreConfig cfg p = None <-> config_ok cfg.
Proof.
  assert (validateCoreConfig cfg p = None <-> missing_of cfg p = [] /\ invalid_of cfg = []) as ->.
  { unfold validateCoreConfig. destruct (missing_of cfg p), (invalid_of cfg); naive_solver. }
  unfold missing_of, invalid_of, config_ok. rewrite !app_nil, !report_nil, !if_nil, http_nil.
  rewrite <- (ports_nil (c_HTTP cfg)), <- (tls_nil _ _ p), <- cors_nil.
  assert (negb (String.eqb (LogLevel cfg) "") && negb (level_known (ToLower (LogLevel cfg))) = false <->
    LogLevel cfg = "" \/ level_known (ToLower (LogLevel cfg)) = true) as ->.
  { destruct (String.eqb_spec (LogLevel cfg) ""), (level_known (ToLower (LogLevel cfg))); cbn; intuition congruence. }
  rewrite !Z.leb_gt, !Z.ltb_ge.
  assert (negb (CompressionLevel cfg =? 0) && ((CompressionLevel cfg <? 1) || (9 <? CompressionLevel cfg)) = false <-> 0 <= CompressionLevel cfg <= 9)
    as -> by lia.
  tauto.
Qed.
End config.

(** ** Lemmas: durations *)

Lemma parse_digits_mono s acc z : parse_digits s acc = Some z -> 0 <= acc -> acc <= z.
Proof.
  revert acc. induction s as [|c s IH]; intros acc H Ha; cbn [parse_digits] in H; [simplify_eq; lia|].
  destruct (is_digit c) eqn:Hd; [|done]. unfold is_digit in Hd. apply IH in H; [lia|]. lia.
Qed.

Definition no_digit_head (s : string) : bool := match s with "" => true | String c _ => negb (is_digit c) end.

Lemma leadingInt_digits s rest acc z :
  parse_digits s acc = Some z -> 0 <= acc -> z <= two63 -> no_digit_head rest = true -> leadingInt (s +:+ rest) acc = Some (z, rest).
Proof.
  revert acc. induction s as [|c s IH]; intros acc H Ha Hz Hr.
  - cbn in *. injection H as ->. destruct rest as [|c r]; [done|]. cbn in *. by destruct (is_digit c).
  - cbn [parse_digits] in H. destruct (is_digit c) eqn:Hd; [|done]. change (String c s +:+ rest) with (String c (s +:+ rest)). cbn [leadingInt].
    rewrite Hd. assert (Hdc : 0 <= byte_code c - 48 <= 9) by (unfold is_digit in Hd; lia).
    assert (acc * 10 + (byte_code c - 48) <= z) as Hm by (apply (parse_digits_mono s); [done|lia]). unfold two63 in *.
    change (9223372036854775808 / 10) with 922337203685477580. destruct (Z.ltb_spec 922337203685477580 acc); [lia|].
    destruct (Z.ltb_spec 9223372036854775808 (acc * 10 + (byte_code c - 48))); [lia|]. apply IH; [done|lia|done|done].
Qed.

Lemma Itoa_parse z : 0 <= z -> parse_digits (Itoa z) 0 = Some z.
Proof.
  intros Hz. unfold Itoa. rewrite (proj2 (Z.ltb_ge z 0) Hz), Z.abs_eq by done. rewrite parse_digits_of by (by apply Itoa_fuel). done.
Qed.

Lemma leadingUnit_all u : string_forall unit_byte u = true -> leadingUnit u = (u, "").
Proof. induction u as [|c u IH]; [done|]. cbn. intros [-> Hu]%andb_prop. by rewrite IH. Qed.

(** What is known of a unit. *)
Lemma unit_of_spec u k : unit_of u = Some k -> string_forall unit_byte u = true /\ no_space u = true /\ no_digit_head u = true /\ u <> "" /\ 1 <= k <= Hour /\ (exists c r, u = String c r /\ Ascii.eqb c "." = false).
Proof.
  unfold unit_of. intros H. repeat (match goal with H : context [String.eqb u ?x] |- _ => destruct (String.eqb_spec u x) as [->|_] end; cbn [orb] in H; [injection H as <-; (do 4 (split; [done|])); (split; [by vm_compute|by eexists _, _])|]). done.
Qed.

Lemma parse_term_unit n u k : unit_of u = Some k -> 0 <= n -> n * k <= two63 -> parse_term (Itoa n +:+ u) = Some (n * k, "").
Proof.
  intros Hu Hn Hk. destruct (unit_of_spec u k Hu) as (Hall & _ & Hh & Hne & Hk1 & c & r & -> & Hdot).
  destruct (Itoa_head n Hn) as (d & s & Hi & Hd). unfold parse_term. rewrite Hi at 1. change (String d s +:+ String c r) with (String d (s +:+ String c r)).
  cbv iota. unfold unit_byte at 1. rewrite Hd, orb_true_r. cbn [negb].
  rewrite (leadingInt_digits _ _ _ n) by (try apply Itoa_parse; try done; unfold two63 in *; nia).
  rewrite Hdot. rewrite (leadingUnit_all _ Hall), Hu.
  assert ((String.length (String c r) =? String.length (Itoa n +:+ String c r))%nat = false) as ->.
  { apply Nat.eqb_neq. rewrite string_length_app, Hi. cbn. lia. }
  cbn [negb andb]. change (0 <? 0) with false. cbv iota.
  destruct (Z.ltb_spec (two63 / k) n) as [Hlt|_]; [exfalso|].
  { assert (n * k / k <= two63 / k) by (apply Z.div_le_mono; lia). rewrite Z.div_mul in H by lia. lia. }
  by rewrite (proj2 (Z.ltb_ge _ _) Hk).
Qed.

Lemma Itoa_no_space n : 0 <= n -> no_space (Itoa n) = true.
Proof.
  intros Hn. rewrite no_space_forall. eapply string_forall_impl; [|by apply Itoa_digits].
  intros c. unfold is_digit, is_space. cbv beta. intros Hc. lia.
Qed.

Lemma ParseDuration_unit n u k : unit_of u = Some k -> 0 <= n -> n * k <= max_int64 -> ParseDuration (Itoa n +:+ u) = Some (n * k).
Proof.
  intros Hu Hn Hk. destruct (unit_of_spec u k Hu) as (_ & _ & _ & Hne & _ & c & r & -> & _).
  pose proof (parse_term_unit n _ k Hu Hn ltac:(unfold two63, max_int64 in *; lia)) as Ht.
  destruct (Itoa_head n Hn) as (d & s & Hi & Hd). unfold ParseDuration.
  assert (Hs : Itoa n +:+ String c r = String d (s +:+ String c r)) by (by rewrite Hi).
  assert (Ascii.eqb d "-" = false /\ Ascii.eqb d "+" = false) as [Hm Hp].
  { split; apply Ascii.eqb_neq; intros ->; done. }
  rewrite Hs, Hm, Hp, <- Hs. 
  assert (String.eqb (Itoa n +:+ String c r) "0" = false) as ->.
  { apply String.eqb_neq. rewrite Hi. intros He. injection He as _ He. by destruct s. }
  assert (String.eqb (Itoa n +:+ String c r) "" = false) as -> by (apply String.eqb_neq; by rewrite Hi).
  assert (exists m, String.length (Itoa n +:+ String c r) = S m) as [m ->] by (rewrite Hs; cbn; eauto).
  cbn [parse_terms]. rewrite Hs at 1. cbv iota. rewrite Ht, Z.add_0_l.
  rewrite (proj2 (Z.ltb_ge two63 (n * k))) by (unfold two63, max_int64 in *; lia).
  destruct m; cbn [parse_terms]; rewrite (proj2 (Z.ltb_ge (two63 - 1) (n * k))) by (unfold two63, max_int64 in *; lia); done.
Qed.

(** ** Lemmas: the challenge *)

Lemma trim_left_head s : trim_left s = "" \/ exists c r, trim_left s = String c r /\ is_space c = false.
Proof. induction s as [|c s IH]; [by left|]. cbn. destruct (is_space c) eqn:Hc; [done|right; eauto]. Qed.

Lemma trim_right_cons c s : is_space c = false -> trim_right (String c s) = String c (trim_right s).
Proof. intros Hc. cbn. rewrite Hc. by destruct (trim_right s). Qed.

Lemma trim_right_idem s : trim_right (trim_right s) = trim_right s.
Proof.
  induction s as [|c s IH]; [done|]. cbn. destruct (trim_right s) as [|d r] eqn:Hr.
  - destruct (is_space c) eqn:Hc; [done|]. cbn. by rewrite Hc.
  - change (trim_right (String c (String d r))) with (match trim_right (String d r) with "" => if is_space c then "" else String c "" | r => String c r end).
    by rewrite IH.
Qed.

Lemma TrimSpace_idem s : TrimSpace (TrimSpace s) = TrimSpace s.
Proof.
  unfold TrimSpace. destruct (trim_left_head s) as [->|(c & r & -> & Hc)]; [done|].
  rewrite trim_right_cons by done. cbn [trim_left]. rewrite Hc, trim_right_cons by done. by rewrite trim_right_idem.
Qed.

Lemma lower_space c : is_space (lower_byte c) = is_space c.
Proof. apply Bool.eqb_prop. revert c. apply ascii_forall. by vm_compute. Qed.

Lemma TrimSpace_ToLower s : TrimSpace (ToLower s) = ToLower (TrimSpace s).
Proof.
  assert (Hl : trim_left (ToLower s) = ToLower (trim_left s)).
  { unfold ToLower. induction s as [|c s IH]; [done|]. cbn. rewrite lower_space. by destruct (is_space c). }
  unfold TrimSpace. rewrite Hl. generalize (trim_left s). intros t. unfold ToLower.
  induction t as [|c t IH]; [done|]. cbn. rewrite IH, lower_space. destruct (trim_right t); cbn; [by destruct (is_space c)|done].
Qed.

(** The challenge of a loaded configuration is canonical. *)
Lemma challenge_canonical cfg : challenge_of (c_TLS (with_TLS_defaults cfg)) = LetsEncryptChallenge (c_TLS (with_TLS_defaults cfg)).
Proof.
  change (ToLower (TrimSpace (challenge_of (c_TLS cfg))) = challenge_of (c_TLS cfg)). unfold challenge_of. by rewrite TrimSpace_ToLower, TrimSpace_idem, ToLower_idem.
Qed.

(** ** Theorems *)

(** Validation is exact: a configuration is accepted exactly when the ports are
    valid and differ, Let's Encrypt has HTTPS, one source of domains, an address,
    a challenge that can be met and a directory, manual TLS has its files, CORS its
    origins and methods, and the timeouts, levels and limits are in range. *)
Theorem validate_exact level_known url_Parse Quote cfg envPrefix :
  validateCoreConfig level_known url_Parse Quote cfg envPrefix = None <-> config_ok level_known url_Parse cfg.
Proof. apply validate_ok. Qed.

(** C11. A loaded configuration is valid: whatever viper holds, when loading
    succeeds the configuration that is returned, with its durations and defaults,
    passes the validation; its challenge is written the way the server compares it,
    and with Let's Encrypt there are a directory and domains, and wildcards only
    with dns-01. *)
Theorem load_valid {V : Type} oob level_known url_Parse Quote v_Get (v_Set : V -> string -> any -> V) unmarshal sprint decode envPrefix v cfg :
  load_core oob level_known url_Parse Quote v_Get v_Set unmarshal sprint decode envPrefix v = Ok cfg ->
  config_ok level_known url_Parse cfg /\
  (UseLetsEncrypt (c_TLS cfg) = true ->
    ACMEDirectoryURL (c_TLS cfg) <> "" /\ EffectiveDomains (c_TLS cfg) <> [] /\
    (LetsEncryptChallenge (c_TLS cfg) = "dns-01" \/
     (LetsEncryptChallenge (c_TLS cfg) = "http-01" /\ Forall (fun d => HasPrefix d "*." = false) (EffectiveDomains (c_TLS cfg))))).
Proof.
  unfold load_core. destruct (normalizeListKeys _ _ _ _ _ v) as [v1|]; [|done]. destruct (decode v1) as [c0|]; [|done].
  destruct (validateCoreConfig _ _ _ _ _) eqn:Hv; [done|]. intros [= <-]. apply validate_ok in Hv. split; [done|].
  set (c1 := with_durations _ c0) in *. intros Hle. destruct Hv as (_ & _ & [Hacme _] & _).
  destruct (Hacme Hle) as [_ (_ & _ & Hd & _ & Hc & _)]. rewrite challenge_canonical in Hc. split; [|split].
  - change (UseLetsEncrypt (c_TLS c1) = true) in Hle. change (directory_default c1 <> ""). unfold directory_default. rewrite Hle. cbn [andb].
    destruct (String.eqb_spec (ACMEDirectoryURL (c_TLS c1)) ""); [|done]. by destruct (String.eqb (c_Env c1) "prod").
  - unfold EffectiveDomains. destruct (Domains (c_TLS (with_TLS_defaults c1))) eqn:Hds; [|done].
    destruct (blank (Domain (c_TLS (with_TLS_defaults c1)))) eqn:Hb; [by destruct (proj1 Hd eq_refl)|done].
  - destruct Hc as [[H1 H2]|[H1 _]]; [by right|by left].
Qed.

(** A toy viper: what it holds, and lists that are comma-separated. *)
Definition toy_unmarshal (s : string) : option (list string) := if HasPrefix s "[" then Some (split_byte "," (str_drop 1 s)) else None.

Definition toy_core : CoreConfig :=
  mkCoreConfig "prod" "info" (mkHTTPConfig 8080 443 true 0 0 0 0 0)
    (mkTLSConfig "" "" true "ops@example.com" "cache" "" ["*.example.com"; "example.com"] " DNS-01 " "Z1" "")
    (mkCORSConfig false [] [] [] [] false 0) (mkSecurityConfig true "" "" "" "" 0 true false "" "") 0 0 0 true 5.

Definition toy_Get (v : gmap string any) (key : string) : any := default ANil (v !! key).
Definition toy_Set (v : gmap string any) (key : string) (x : any) : gmap string any := <[key := x]> v.
Definition toy_load : result load_error CoreConfig :=
  load_core (fun _ => 0) (fun l => String.eqb l "info") (fun _ => Ok ("https", "acme-v02.api.letsencrypt.org")) (fun s => s)
    toy_Get toy_Set toy_unmarshal (fun _ => "") (fun _ => Ok toy_core) "" {["idle_timeout" := AString "2m"]}.

Lemma load_valid_witness :
  exists cfg, toy_load = Ok cfg /\ IdleTimeout (c_HTTP cfg) = 2 * Minute /\
    config_ok (fun l => String.eqb l "info") (fun _ => Ok ("https", "acme-v02.api.letsencrypt.org")) cfg /\
    (UseLetsEncrypt (c_TLS cfg) = true ->
      ACMEDirectoryURL (c_TLS cfg) <> "" /\ EffectiveDomains (c_TLS cfg) <> [] /\
      (LetsEncryptChallenge (c_TLS cfg) = "dns-01" \/
       (LetsEncryptChallenge (c_TLS cfg) = "http-01" /\ Forall (fun d => HasPrefix d "*." = false) (EffectiveDomains (c_TLS cfg))))).
Proof.
  eexists. split; [vm_compute; reflexivity|]. split; [reflexivity|].
  apply (load_valid (fun _ => 0) (fun l => String.eqb l "info") (fun _ => Ok ("https", "acme-v02.api.letsencrypt.org")) (fun s => s)
    toy_Get toy_Set toy_unmarshal (fun _ => "") (fun _ => Ok toy_core) "" {["idle_timeout" := AString "2m"]}).
  vm_compute. reflexivity.
Defined.

(** Durations read back: a number of any unit, up to the largest duration,
    gives that duration, and a bare number of seconds gives those seconds. *)
Theorem duration_round_trip oob n u k def :
  0 < n -> n * k <= max_int64 -> unit_of u = Some k ->
  parseDurationFlexible oob (AString (Itoa n +:+ u)) def = (n * k, None).
Proof.
  intros Hn Hk Hu. destruct (unit_of_spec u k Hu) as (_ & Hsp & _ & Hne & Hk1 & _). unfold parseDurationFlexible.
  rewrite TrimSpace_no_space by (rewrite no_space_app, Itoa_no_space, Hsp by lia; done).
  destruct (Itoa_head n ltac:(lia)) as (d & s & Hi & _). rewrite (ParseDuration_unit n u k) by (done || lia). rewrite Hi. cbn [String.eqb].
  change (String.eqb (String d s +:+ u) "") with false. cbv iota. rewrite (proj2 (Z.leb_gt _ _)) by nia. done.
Qed.

Lemma duration_round_trip_witness :
  0 < 90 /\ 90 * Minute <= max_int64 /\ parseDurationFlexible (fun _ => 0) (AString (Itoa 90 +:+ "m")) Second = (90 * Minute, None).
Proof. split; [done|]. split; [done|]. apply (duration_round_trip (fun _ => 0) 90 "m" Minute Second); done. Defined.

(** A duration that is read is positive, when the default is, unless it came as a
    [float64]. *)
Theorem duration_positive oob raw def :
  0 < def -> match raw with AFloat64 _ => False | AInt32 n => n < 2 ^ 31 | _ => True end ->
  0 < (parseDurationFlexible oob raw def).1.
Proof.
  intros Hd Hraw. assert (Hs : forall n, 0 < (seconds_of n def).1).
  { intros n. unfold seconds_of, maxDurationSecondsInt64. change (max_int64 / Second) with 9223372036. destruct (Z.leb_spec n 0); [done|].
    destruct (Z.ltb_spec 9223372036 n); [done|]. cbn [fst]. unfold int_mul.
    rewrite wrap64_id by (unfold in_int64, min_int64, max_int64, Second; lia). unfold Second. lia. }
  destruct raw; cbn [parseDurationFlexible]; try done.
  - destruct (String.eqb (TrimSpace s) ""); [done|]. destruct (ParseDuration (TrimSpace s)) as [d|].
    + destruct (Z.leb_spec d 0); done.
    + destruct (Atoi (TrimSpace s)); [apply Hs|done].
  - destruct (Z.leb_spec z 0); [done|]. cbn [fst]. unfold int_mul.
    rewrite wrap64_id by (unfold in_int64, min_int64, max_int64, Second; lia). unfold Second. lia.
  - destruct (Z.leb_spec d 0); done.
Qed.

(** As a [float64] it need not be: a small fraction of a second is no time at all,
    and the largest number of seconds that is let through wraps around. *)
Theorem float_durations (oob : float64 -> Z) :
  parseDurationFlexible oob (AFloat64 (f64_div (f64_of_int 1) (f64_of_int 10000000000))) Second = (0, None) /\
  (parseDurationFlexible oob (AFloat64 maxDurationSeconds) Second).2 = None /\
  (parseDurationFlexible oob (AFloat64 maxDurationSeconds) Second).1 < 0.
Proof. split; [vm_compute; reflexivity|]. split; vm_compute; reflexivity. Qed.

(** The getters of an application's configuration do not convert: what came as text,
    as every environment variable does, is no integer and no boolean, and a list
    that came as text or from a file is no list. *)
Theorem getters_do_not_convert (a : gmap string any) key s l :
  (a !! key = Some (AString s) -> App_Int a key = 0 /\ App_Int64 a key = 0 /\ App_Bool a key = false /\ App_StringSlice a key = []) /\
  (a !! key = Some (AList l) -> App_StringSlice a key = []).
Proof. unfold App_Int, App_Int64, App_Bool, App_StringSlice, value_of. split; by intros ->. Qed.
