(* ===== verification/Middleware.v ===== *)
(** * The middleware of the router ([middleware], [logging], [metrics], [router], [httputil])

    A handler is what it does with a request: its calls of the response writer, in
    order, the panic that ends it, and what is recorded (log lines and metrics).  A
    middleware is a function on handlers, and [New] stacks those of the framework.
    Those of chi are arguments, as are the encoder and the decoder of
    [encoding/json] and [strconv.Quote]. *)

From stdpp Require Import list numbers strings gmap.
From S2P Require Import Prelude GoStrings Utf8 Paths HttpWriter Config.

#[local] Open Scope list_scope.

(** ** Requests and handlers *)

(** [rq_limit]: the limit of an [http.MaxBytesReader] around the body; [rq_pattern]:
    the pattern of the route, if chi knows one. *)
Record Request := mkRequest {
  rq_Method : string; rq_Path : string; rq_TLS : bool; rq_Header : Headers; rq_limit : option Z; rq_pattern : string
}.

Inductive record :=
| Access (method path scheme : string) (status : Z)
| Metric (path method : string) (status : Z)
| PanicRecovered (p : string)
| PanicAfterHeaders (status : Z).

Record Outcome := mkOutcome { o_calls : list call; o_panic : option string; o_records : list record }.

Abbreviation Handler := (Request -> Outcome) (only parsing).
Abbreviation Middleware := ((Request -> Outcome) -> Request -> Outcome) (only parsing).

Definition responds (calls : list call) : Outcome := mkOutcome calls None [].

(** [ww.Status()]: 0 while nothing is sent. *)
Definition status_of (calls : list call) : Z :=
  match w_sent (foldl net_call fresh calls) with Some (code, _) => code | None => 0 end.

(** ** [httputil/json.go] *)

Definition clamp_status (status : Z) : Z := if (status <? 100) || (599 <? status) then 500 else status.

(** [encoded]: the text with its line feed, or an error, which is only logged. *)
Definition WriteJSON (status : Z) (encoded : result string string) : list call :=
  [SetHeader "Content-Type" "application/json"; WriteHeader (clamp_status status)] ++
  match encoded with Ok b => [Write b] | Err _ => [] end.

Section json.
Context (encode : string -> string -> string) (Quote : string -> string).

Definition JSONError (status : Z) (code message : string) : list call := WriteJSON status (Ok (encode code message)).
Definition JSONErrorSimple (status : Z) (message : string) : list call := WriteJSON status (Ok (encode message "")).

(** Errors of decoding, as [parseJSONError] tells them apart. *)
Inductive json_error := JSONEOF | JSONSyntax (offset : Z) | JSONType (field type : string) | JSONOther (msg : string).

Definition parseJSONError (err : json_error) : string :=
  match err with
  | JSONEOF => "request body is empty"
  | JSONSyntax offset => "malformed JSON at position " +:+ Itoa offset
  | JSONType field type => "invalid value for field " +:+ Quote field +:+ ": expected " +:+ type
  | JSONOther msg =>
      if HasPrefix msg "json: unknown field" then
        "unknown field " +:+ Quote (Trim (TrimPrefix msg "json: unknown field ") "034")
      else if String.eqb msg "http: request body too large" then "request body too large"
      else "invalid JSON in request body"
  end.

(** [dec.More()]: something is left that does not close a list or an object. *)
Definition json_space (c : ascii) : bool := Ascii.eqb c " " || Ascii.eqb c "009" || Ascii.eqb c "010" || Ascii.eqb c "013".
Fixpoint More (rest : string) : bool :=
  match rest with
  | "" => false
  | String c rest => if json_space c then More rest else negb (Ascii.eqb c "]" || Ascii.eqb c "}")
  end.

(** [Decode]: the first value of a text and what is left, where unknown fields are
    refused or not. *)
Definition bind {T : Type} (Decode : bool -> string -> result json_error (T * string)) (strict : bool)
    (body : option string) (contentLength : Z) : result string T :=
  match body with
  | None => Err "request body is empty"
  | Some body =>
      if contentLength =? 0 then Err "request body is empty"
      else
        match Decode strict body with
        | Err err => Err (parseJSONError err)
        | Ok (v, rest) => if More rest then Err "request body contains multiple JSON values" else Ok v
        end
  end.

Definition BindJSON {T : Type} (Decode : bool -> string -> result json_error (T * string)) := bind Decode true.
Definition BindJSONAllowUnknown {T : Type} (Decode : bool -> string -> result json_error (T * string)) := bind Decode false.

(** ** [middleware] *)

Record SecurityHeadersOptions := mkSecurityHeadersOptions {
  sh_XFrameOptions : string; sh_XContentTypeOptions : string; sh_ReferrerPolicy : string; sh_XSSProtection : string;
  sh_HSTSMaxAge : Z; sh_HSTSIncludeSubDomains : bool; sh_HSTSPreload : bool; sh_ContentSecurityPolicy : string; sh_PermissionsPolicy : string
}.

Definition DefaultSecurityHeadersOptions : SecurityHeadersOptions :=
  mkSecurityHeadersOptions "SAMEORIGIN" "nosniff" "strict-origin-when-cross-origin" "1; mode=block" 31536000 true false "" "".

Definition set_unless_empty (k v : string) : list call := if String.eqb v "" then [] else [SetHeader k v].

Definition hsts_value (opts : SecurityHeadersOptions) : string :=
  "max-age=" +:+ Itoa (sh_HSTSMaxAge opts) +:+ (if sh_HSTSIncludeSubDomains opts then "; includeSubDomains" else "") +:+
  (if sh_HSTSPreload opts then "; preload" else "").

Definition security_calls (opts : SecurityHeadersOptions) (r : Request) : list call :=
  set_unless_empty "X-Frame-Options" (sh_XFrameOptions opts) ++
  set_unless_empty "X-Content-Type-Options" (sh_XContentTypeOptions opts) ++
  set_unless_empty "Referrer-Policy" (sh_ReferrerPolicy opts) ++
  set_unless_empty "X-XSS-Protection" (sh_XSSProtection opts) ++
  (if (0 <? sh_HSTSMaxAge opts) && rq_TLS r then [SetHeader "Strict-Transport-Security" (hsts_value opts)] else []) ++
  set_unless_empty "Content-Security-Policy" (sh_ContentSecurityPolicy opts) ++
  set_unless_empty "Permissions-Policy" (sh_PermissionsPolicy opts).

(** Calls made before the next handler. *)
Definition before (calls : list call) (o : Outcome) : Outcome := mkOutcome (calls ++ o_calls o) (o_panic o) (o_records o).

Definition SecurityHeaders (opts : SecurityHeadersOptions) : Middleware := fun next r => before (security_calls opts r) (next r).

Definition SecurityHeadersFromConfig (coreCfg : option CoreConfig) : Middleware :=
  match coreCfg with
  | None => fun next => next
  | Some cfg =>
      let s := c_Security cfg in
      if negb (EnableSecurityHeaders s) then fun next => next
      else SecurityHeaders (mkSecurityHeadersOptions (XFrameOptions s) (XContentTypeOptions s) (ReferrerPolicy s) (XSSProtection s)
             (HSTSMaxAge s) (HSTSIncludeSubDomains s) (HSTSPreload s) (ContentSecurityPolicy s) (PermissionsPolicy s))
  end.

Definition SecureDefaults : Middleware := SecurityHeaders DefaultSecurityHeadersOptions.

(** The media type of a request, without its parameters. *)
Definition media_type (ct : string) : string :=
  ToLower (TrimSpace (match cut_byte ";" ct with Some (a, _) => a | None => ct end)).

Definition not_json : Outcome := responds (JSONError 415 "unsupported_media_type" "Content-Type must be application/json").

Definition RequireJSON : Middleware := fun next r =>
  let ct := TrimSpace (header_Get (rq_Header r) "Content-Type") in
  if String.eqb ct "" then not_json
  else
    let ct := media_type ct in
    if negb (String.eqb ct "application/json") && negb (HasSuffix ct "+json") then not_json else next r.

Definition NotFoundHandler : Handler := fun _ => responds (JSONError 404 "not_found" "The requested resource was not found").
Definition MethodNotAllowedHandler : Handler := fun _ =>
  responds (JSONError 405 "method_not_allowed" "The requested HTTP method is not allowed for this resource").

Definition with_limit (n : Z) (r : Request) : Request :=
  mkRequest (rq_Method r) (rq_Path r) (rq_TLS r) (rq_Header r) (Some n) (rq_pattern r).

Definition LimitBodySize (maxBytes : Z) : Middleware :=
  if maxBytes <=? 0 then fun next => next else fun next r => next (with_limit maxBytes r).

Context (chi_Compress : Z -> Middleware).

(** [None] is a panic. *)
Definition CompressFromConfig (coreCfg : option CoreConfig) : option Middleware :=
  match coreCfg with
  | None => Some (fun next => next)
  | Some cfg =>
      if negb (EnableCompression cfg) then Some (fun next => next)
      else
        let level := CompressionLevel cfg in
        if (level <? 1) || (9 <? level) then None else Some (chi_Compress level)
  end.

Definition clamp_level (level : Z) : Z :=
  let level := if level <? 1 then 1 else level in if 9 <? level then 9 else level.

Definition Compress (level : Z) : Middleware := chi_Compress (clamp_level level).

Record CORSOptions := mkCORSOptions {
  AllowedOrigins : list string; AllowedMethods : list string; AllowedHeaders : list string; ExposedHeaders : list string;
  AllowCredentials : bool; MaxAge : Z
}.

Context (cors_Handler : CORSOptions -> Middleware).

Definition config_cors (c : CORSConfig) : CORSOptions :=
  mkCORSOptions (CORSAllowedOrigins c) (CORSAllowedMethods c) (CORSAllowedHeaders c) (CORSExposedHeaders c) (CORSAllowCredentials c) (CORSMaxAge c).

Definition CORSFromConfig (coreCfg : option CoreConfig) : Middleware :=
  match coreCfg with
  | None => fun next => next
  | Some cfg => if negb (EnableCORS (c_CORS cfg)) then fun next => next else cors_Handler (config_cors (c_CORS cfg))
  end.

(** The options that are used; [None] is a panic. *)
Definition cors_options (opts : CORSOptions) : option CORSOptions :=
  if AllowCredentials opts && existsb (String.eqb "*") (AllowedOrigins opts) then None
  else if maxCORSMaxAge <? MaxAge opts then None
  else Some (mkCORSOptions (AllowedOrigins opts)
               (match AllowedMethods opts with [] => ["GET"; "POST"; "OPTIONS"] | l => l end)
               (match AllowedHeaders opts with [] => ["Accept"; "Authorization"; "Content-Type"] | l => l end)
               (ExposedHeaders opts) (AllowCredentials opts) (if MaxAge opts =? 0 then 300 else MaxAge opts)).

Definition CORS (opts : CORSOptions) : option Middleware := cors_Handler <$> cors_options opts.

Definition CORSPermissive : Middleware :=
  cors_Handler (mkCORSOptions ["*"] ["GET"; "POST"; "PUT"; "PATCH"; "DELETE"; "OPTIONS"]
    ["Accept"; "Authorization"; "Content-Type"; "X-Requested-With"] [] false 300).

(** ** [logging] and [metrics] *)

(** [http.Error]. *)
Definition http_Error (msg : string) (code : Z) : list call :=
  [DelHeader "Content-Length"; SetHeader "Content-Type" "text/plain; charset=utf-8"; SetHeader "X-Content-Type-Options" "nosniff";
   WriteHeader code; Write (msg +:+ String "010" "")].

Definition Recoverer : Middleware := fun next r =>
  let o := next r in
  match o_panic o with
  | None => o
  | Some p =>
      let status := status_of (o_calls o) in
      if status =? 0 then mkOutcome (o_calls o ++ http_Error "internal server error" 500) None (o_records o ++ [PanicRecovered p])
      else mkOutcome (o_calls o) None (o_records o ++ [PanicRecovered p; PanicAfterHeaders status])
  end.

Definition schemeFromRequest (r : Request) : string :=
  if rq_TLS r then "https"
  else
    let xf := header_Get (rq_Header r) "X-Forwarded-Proto" in
    if negb (String.eqb xf "") then
      let xf := ToLower (TrimSpace xf) in
      if String.eqb xf "https" || String.eqb xf "http" then xf else "http"
    else "http".

Definition status_or_200 (calls : list call) : Z := let s := status_of calls in if s =? 0 then 200 else s.

(** What is recorded once the next handler has returned, which a panic prevents. *)
Definition recording (f : Request -> list call -> record) : Middleware := fun next r =>
  let o := next r in
  match o_panic o with
  | Some _ => o
  | None => mkOutcome (o_calls o) None (o_records o ++ [f r (o_calls o)])
  end.

Definition RequestLogger : Middleware :=
  recording (fun r calls => Access (rq_Method r) (rq_Path r) (schemeFromRequest r) (status_or_200 calls)).

Definition maxPathLabelLength : Z := 256.

Definition rune_start (c : ascii) : bool := negb ((128 <=? byte_code c) && (byte_code c <? 192)).

(** The loop: [n] goes down while the byte behind the first [n] continues a rune. *)
Fixpoint boundary (s : string) (n : nat) : nat :=
  match n with
  | O => O
  | S n' => match String.get n s with Some c => if rune_start c then n else boundary s n' | None => n end
  end.

Definition truncateUTF8 (s : string) (maxBytes : Z) : string :=
  if maxBytes <=? 0 then ""
  else if strlen s <=? maxBytes then s
  else str_take (boundary s (Z.to_nat maxBytes)) s.

Definition path_label (r : Request) : string :=
  let path := if String.eqb (rq_pattern r) "" then rq_Path r else rq_pattern r in
  if maxPathLabelLength <? strlen path then
    let truncateLen := maxPathLabelLength - 3 in
    let truncateLen := if truncateLen <? 1 then 1 else truncateLen in
    truncateUTF8 path truncateLen +:+ "..."
  else path.

Definition HTTPMetrics : Middleware :=
  recording (fun r calls =>
    let s := status_or_200 calls in Metric (path_label r) (rq_Method r) (if (s <? 100) || (599 <? s) then 500 else s)).

(** ** [router.New]

    The stack around the routes, the first outermost; [None] is a panic. *)

Context (RequestID RealIP : Middleware).

Definition New (coreCfg : option CoreConfig) : option Middleware :=
  match CompressFromConfig coreCfg, coreCfg with
  | Some compress, Some cfg =>
      Some (fun routes =>
        RequestID (RealIP (Recoverer (compress (LimitBodySize (MaxRequestBodyBytes cfg) (HTTPMetrics (RequestLogger routes)))))))
  | _, _ => None
  end.

(** ** [pantry/health] *)

(** A check that is not nil gives its error, if any; [order] is that of the map. *)
Definition check_result (check : option (option string)) : string :=
  match check with
  | None | Some None => "ok"
  | Some (Some err) => if String.eqb err "" then "error" else "error: " +:+ err
  end.

Definition check_failed (check : option (option string)) : bool := match check with Some (Some _) => true | _ => false end.

Context (encode_health : string -> gmap string string -> string).

Definition health_Handler (order : list (string * option (option string))) : list call :=
  match order with
  | [] => WriteJSON 200 (Ok (encode_health "ok" ∅))
  | _ =>
      let results := foldl (fun m '(name, check) => <[name := check_result check]> m) ∅ order in
      if existsb (fun x => check_failed x.2) order then WriteJSON 503 (Ok (encode_health "error" results))
      else WriteJSON 200 (Ok (encode_health "ok" results))
  end.
End json.

(** ** Lemmas: what is sent *)

Definition valid_code (c : call) : Prop := match c with WriteHeader code => 100 <= code | _ => True end.

Lemma foldl_sent cs w x : w_sent w = Some x -> w_sent (foldl net_call w cs) = Some x.
Proof.
  revert w. induction cs as [|c cs IH]; intros w H; [done|]. apply IH. destruct c; try done; cbn; unfold net_Write, net_WriteHeader; by rewrite H.
Qed.

Lemma status_of_received cs : status_of cs <> 0 -> (received (foldl net_call fresh cs)).1.1 = status_of cs.
Proof. unfold status_of, received. by destruct (w_sent (foldl net_call fresh cs)) as [[code h]|]. Qed.

Lemma status_zero cs : Forall valid_code cs -> status_of cs = 0 -> w_sent (foldl net_call fresh cs) = None.
Proof.
  unfold status_of. intros Hv. assert (forall w, (forall x, w_sent w = Some x -> 100 <= x.1) -> forall x, w_sent (foldl net_call w cs) = Some x -> 100 <= x.1) as H.
  { induction Hv as [|c cs Hc _ IH]; intros w Hw; [done|]. apply IH.
    destruct c as [| | |code|b]; try done; cbn; unfold net_Write, net_WriteHeader; cbn.
    - destruct (w_sent w) as [y|] eqn:Hy; [intros x Hx; apply Hw; congruence|]. destruct (informational code); cbn; intros x Hx; [congruence|]. by injection Hx as <-.
    - destruct (w_sent w) as [y|] eqn:Hy; cbn; intros x Hx; [apply Hw; congruence|]. by injection Hx as <-. }
  specialize (H fresh ltac:(done)). destruct (w_sent (foldl net_call fresh cs)) as [[code h]|]; [|done].
  intros ->. specialize (H _ eq_refl). cbn in H. lia.
Qed.

Definition call_key (c : call) : option string :=
  match c with SetHeader k _ | AddHeader k _ | DelHeader k => Some (CanonicalHeaderKey k) | _ => None end.

(** A header that the calls leave alone is in the answer. *)
Definition holds_header (K v : string) (w : Wire) : Prop :=
  w_header w !! K = Some [v] /\ forall code h, w_sent w = Some (code, h) -> h !! K = Some [v].

Lemma holds_header_call K v c w : call_key c <> Some K -> holds_header K v w -> holds_header K v (net_call w c).
Proof.
  intros Hc Hh. assert (Hwh : forall code, holds_header K v (net_WriteHeader code w)).
  { intros code. unfold net_WriteHeader. destruct (w_sent w) as [[c0 h0]|] eqn:Hs; [exact Hh|]. destruct (informational code); [exact Hh|].
    destruct Hh as [H1 _]. split; [done|]. intros c1 h [= _ <-]. done. }
  destruct Hh as [H1 H2].
  destruct c as [k x|k x|k|code|b]; cbn [net_call call_key] in *; [split; [|exact H2]..|apply Hwh|].
  - cbn [with_header w_header]. unfold header_Set. rewrite lookup_insert_ne by congruence. done.
  - cbn [with_header w_header]. unfold header_Add. rewrite lookup_insert_ne by congruence. done.
  - cbn [with_header w_header]. unfold header_Del. rewrite lookup_delete_ne by congruence. done.
  - destruct (Hwh 200) as [Ha Hb]. unfold net_Write. by split.
Qed.

Lemma holds_header_calls K v cs w : Forall (fun c => call_key c <> Some K) cs -> holds_header K v w -> holds_header K v (foldl net_call w cs).
Proof. intros Hcs. revert w. induction Hcs as [|c cs Hc _ IH]; intros w Hw; [done|]. apply IH. by apply holds_header_call. Qed.

Definition set_calls (kvs : list (string * string)) : list call := map (fun '(k, v) => SetHeader k v) kvs.

Lemma set_calls_holds kvs k v w :
  w_sent w = None -> NoDup (map (fun kv => CanonicalHeaderKey kv.1) kvs) -> (k, v) ∈ kvs ->
  holds_header (CanonicalHeaderKey k) v (foldl net_call w (set_calls kvs)).
Proof.
  revert w. induction kvs as [|[k1 v1] kvs IH]; intros w Hw Hn Hin; [by apply not_elem_of_nil in Hin|].
  cbn [set_calls map foldl] in *. apply list.NoDup_cons in Hn as [Hnot Hn].
  apply elem_of_cons in Hin as [[= -> ->]|Hin]; [|by apply IH].
  apply holds_header_calls; [|split; [cbn; unfold header_Set; apply lookup_insert_eq|cbn; by rewrite Hw]].
  apply Forall_forall. intros c ([k2 v2] & <- & Hin2)%in_map_iff. cbn. intros [= He].
  apply Hnot. cbn [fst]. rewrite <- He. apply list_elem_of_In, in_map_iff. by exists (k2, v2).
Qed.

(** The headers of [SecurityHeaders], in order. *)
Definition security_keys : list string :=
  ["X-Frame-Options"; "X-Content-Type-Options"; "Referrer-Policy"; "X-XSS-Protection"; "Strict-Transport-Security";
   "Content-Security-Policy"; "Permissions-Policy"].

Lemma security_calls_pairs opts r : exists kvs, security_calls opts r = set_calls kvs /\ sublist (map fst kvs) security_keys.
Proof.
  assert (Hone : forall k v, exists kvs, set_unless_empty k v = set_calls kvs /\ sublist (map fst kvs) [k]).
  { intros k v. unfold set_unless_empty. destruct (String.eqb v ""); [exists []; split; [done|apply sublist_nil_l]|by exists [(k, v)]]. }
  assert (Happ : forall cs1 cs2 ks1 ks2, (exists kvs, cs1 = set_calls kvs /\ sublist (map fst kvs) ks1) ->
    (exists kvs, cs2 = set_calls kvs /\ sublist (map fst kvs) ks2) -> exists kvs, cs1 ++ cs2 = set_calls kvs /\ sublist (map fst kvs) (ks1 ++ ks2)).
  { intros cs1 cs2 ks1 ks2 (l1 & -> & H1) (l2 & -> & H2). exists (l1 ++ l2). unfold set_calls. rewrite !map_app. split; [done|]. by apply sublist_app. }
  unfold security_calls, security_keys.
  change ["X-Frame-Options"; "X-Content-Type-Options"; "Referrer-Policy"; "X-XSS-Protection"; "Strict-Transport-Security";
    "Content-Security-Policy"; "Permissions-Policy"] with
    (["X-Frame-Options"] ++ ["X-Content-Type-Options"] ++ ["Referrer-Policy"] ++ ["X-XSS-Protection"] ++ ["Strict-Transport-Security"] ++
     ["Content-Security-Policy"] ++ ["Permissions-Policy"]).
  repeat (apply Happ; [try apply Hone|]); [|apply Hone].
  destruct ((0 <? sh_HSTSMaxAge opts) && rq_TLS r); [by exists [("Strict-Transport-Security", hsts_value opts)]|exists []; split; [done|apply sublist_nil_l]].
Qed.

Lemma sublist_map {A B : Type} (f : A -> B) l1 l2 : sublist l1 l2 -> sublist (map f l1) (map f l2).
Proof. induction 1; cbn; by constructor. Qed.

(** ** Lemmas: runes *)

Lemma get_app_r n s t : String.get (String.length s + n) (s +:+ t) = String.get n t.
Proof. induction s as [|c s IH]; [done|]. exact IH. Qed.

Lemma get_app_l n s t : (n < String.length s)%nat -> String.get n (s +:+ t) = String.get n s.
Proof. revert n. induction s as [|c s IH]; intros [|n] H; cbn in *; try lia; [done|]. apply IH. lia. Qed.

Lemma str_take_app_ge n s t : str_take (String.length s + n) (s +:+ t) = s +:+ str_take n t.
Proof. induction s as [|c s IH]; [done|]. change (String c (str_take (String.length s + n) (s +:+ t)) = String c (s +:+ str_take n t)). by rewrite IH. Qed.

(** Of the bytes of a rune only the first starts one. *)
Lemma encode_starts r n c : valid_rune r = true -> String.get (S n) (encode r) = Some c -> rune_start c = false.
Proof.
  unfold encode, rune_start. intros Hr H.
  assert (Hb : forall z, 0 <= z < 64 -> negb ((128 <=? byte_code (byte_of_code (128 + z))) && (byte_code (byte_of_code (128 + z)) <? 192)) = false).
  { intros z Hz. rewrite byte_code_of_code by lia. lia. }
  assert (Hm : forall z, 0 <= z mod 64 < 64) by (intros z; apply Z.mod_pos_bound; lia).
  rewrite Hr in H. cbn [negb] in H. destruct (r <? 128); [by destruct n|]. destruct (r <? 2048); [|destruct (r <? 65536)];
    repeat (destruct n as [|n]; cbn [String.get] in H; [injection H as <-; apply Hb, Hm|]); by destruct n.
Qed.

Lemma get_some n s : (n < String.length s)%nat -> exists c, String.get n s = Some c.
Proof. revert n. induction s as [|c s IH]; intros [|n] H; cbn in *; try lia; [eauto|]. apply IH. lia. Qed.

Lemma boundary_spec s n : (n < String.length s)%nat ->
  (boundary s n <= n)%nat /\ (boundary s n = 0%nat \/ exists c, String.get (boundary s n) s = Some c /\ rune_start c = true).
Proof.
  induction n as [|n IH]; intros Hn; [split; [done|by left]|]. cbn [boundary].
  destruct (String.get (S n) s) as [c|] eqn:Hg.
  - destruct (rune_start c) eqn:Hc; [split; [done|right; by exists c]|]. destruct (IH ltac:(lia)) as [H1 H2]. split; [lia|done].
  - destruct (get_some _ _ Hn). congruence.
Qed.

Lemma take_whole_runes l n c : Forall (fun r => valid_rune r = true) l ->
  n = 0%nat \/ (String.get n (string_of_runes l) = Some c /\ rune_start c = true) ->
  exists k, str_take n (string_of_runes l) = string_of_runes (take k l).
Proof.
  intros Hl. revert n. induction Hl as [|r l Hr _ IH]; intros n H; [exists O; by destruct n|].
  destruct n as [|n]; [by exists O|]. destruct H as [H|[H Hc]]; [done|].
  assert (Hcons : string_of_runes (r :: l) = encode r +:+ string_of_runes l).
  { unfold string_of_runes. cbn [map]. destruct (map encode l) as [|x xs] eqn:Hm; [|done].
    destruct l; [|done]. cbn. by rewrite string_app_nil_r. }
  rewrite Hcons in *. destruct (le_lt_dec (String.length (encode r)) (S n)) as [Hge|Hlt].
  - replace (S n) with (String.length (encode r) + (S n - String.length (encode r)))%nat in * by lia.
    rewrite get_app_r in H. destruct (IH _ (or_intror (conj H Hc))) as [k Hk]. exists (S k).
    rewrite str_take_app_ge, Hk. cbn [take]. unfold string_of_runes. cbn [map]. destruct (map encode (take k l)) as [|x xs] eqn:Hm; [|done].
    cbn. by rewrite string_app_nil_r.
  - rewrite get_app_l in H by done. rewrite (encode_starts _ _ _ Hr H) in Hc. done.
Qed.

(** ** Theorems *)

(** The framework recovers: behind [Recoverer] no panic gets out, and a handler
    that panicked before it answered is answered with 500; an answer that was begun
    keeps its status. *)
Theorem Recoverer_contains (next : Handler) r :
  Forall valid_code (o_calls (next r)) ->
  let o := Recoverer next r in
  o_panic o = None /\
  (o_panic (next r) <> None ->
   (received (foldl net_call fresh (o_calls o))).1.1 = if status_of (o_calls (next r)) =? 0 then 500 else status_of (o_calls (next r))).
Proof.
  intros Hv o. subst o. unfold Recoverer. destruct (o_panic (next r)) as [p|] eqn:Hp; [|split; [exact Hp|intros H; by destruct H]].
  destruct (Z.eqb_spec (status_of (o_calls (next r))) 0) as [Hz|Hz]; cbn [o_panic o_calls]; (split; [done|]); intros _; [|by apply status_of_received].
  rewrite foldl_app. apply status_zero in Hz; [|done]. destruct (foldl net_call fresh (o_calls (next r))) as [h sent out]. cbn in Hz. subst. reflexivity.
Qed.

Lemma Recoverer_contains_witness :
  let next : Handler := fun _ => mkOutcome [SetHeader "A" "b"] (Some "nil map") [] in
  let r := mkRequest "GET" "/" false ∅ None "" in
  let o := Recoverer next r in
  o_panic o = None /\
  (o_panic (next r) <> None ->
   (received (foldl net_call fresh (o_calls o))).1.1 = if status_of (o_calls (next r)) =? 0 then 500 else status_of (o_calls (next r))).
Proof. intros next r. apply (Recoverer_contains next r). repeat constructor. Defined.

Definition observed (x : record) : bool := match x with Access _ _ _ _ | Metric _ _ _ => true | _ => false end.

(** What is seen of a request behind the stack of [New]: one that is answered is
    counted and logged once each, with the status that is sent; one that panics is
    neither counted nor logged, as both are recorded after the handler. *)
Theorem recorded_unless_panic (routes : Handler) n r :
  Forall valid_code (o_calls (routes (if 0 <? n then with_limit n r else r))) ->
  let o := routes (if 0 <? n then with_limit n r else r) in
  let o' := Recoverer (LimitBodySize n (HTTPMetrics (RequestLogger routes))) r in
  (o_panic o <> None -> filter (fun x => observed x = true) (o_records o') = filter (fun x => observed x = true) (o_records o)) /\
  (o_panic o = None -> exists scheme code,
     o_records o' = o_records o ++ [Access (rq_Method r) (rq_Path r) scheme code; Metric (path_label r) (rq_Method r) (if (code <? 100) || (599 <? code) then 500 else code)] /\
     code = (received (foldl net_call fresh (o_calls o))).1.1).
Proof.
  intros Hv o o'. subst o'. unfold LimitBodySize.
  assert (Hlim : forall h, (if n <=? 0 then fun next : Handler => next else fun next r => next (with_limit n r)) h r = h (if 0 <? n then with_limit n r else r)).
  { intros h. destruct (Z.leb_spec n 0), (Z.ltb_spec 0 n); lia || done. }
  unfold Recoverer. rewrite Hlim. set (r1 := if 0 <? n then with_limit n r else r) in *.
  assert (rq_Method r1 = rq_Method r /\ rq_Path r1 = rq_Path r /\ path_label r1 = path_label r) as (Hm & Hp & Hl) by (subst r1; by destruct (0 <? n)).
  unfold HTTPMetrics, RequestLogger, recording. fold o. destruct (o_panic o) as [p|] eqn:Hpanic.
  - split; [|done]. intros _. do 3 (rewrite ?Hpanic; cbv beta iota). destruct (status_of (o_calls o) =? 0); cbn [o_records]; rewrite list.filter_app; cbn; by rewrite app_nil_r.
  - split; [done|]. intros _. cbn [o_panic o_calls o_records]. exists (schemeFromRequest r1), (status_or_200 (o_calls o)).
    rewrite <- app_assoc, Hm, Hp, Hl. split; [done|]. unfold status_or_200. destruct (Z.eqb_spec (status_of (o_calls o)) 0) as [Hz|Hz].
    + apply status_zero in Hz; [|done]. unfold received. by rewrite Hz.
    + symmetry. by apply status_of_received.
Qed.

Lemma recorded_unless_panic_witness :
  let routes : Handler := fun _ => mkOutcome [WriteHeader 204] None [] in
  let r := mkRequest "GET" "/a" true ∅ None "/{x}" in
  let o' := Recoverer (LimitBodySize 10 (HTTPMetrics (RequestLogger routes))) r in
  o_records o' = [Access "GET" "/a" "https" 204; Metric "/{x}" "GET" 204] /\
  ((o_panic (routes (with_limit 10 r)) <> None -> filter (fun x => observed x = true) (o_records o') = []) /\
   (o_panic (routes (with_limit 10 r)) = None -> exists scheme code,
     o_records o' = [] ++ [Access "GET" "/a" scheme code; Metric (path_label r) "GET" (if (code <? 100) || (599 <? code) then 500 else code)] /\
     code = (received (foldl net_call fresh (o_calls (routes (with_limit 10 r))))).1.1)).
Proof.
  intros routes r o'. split; [by vm_compute|]. apply (recorded_unless_panic routes 10 r). by repeat constructor.
Defined.

(** A valid configuration can still stop the router: [New] panics exactly where
    compression is on with the level 0, which the validation lets through. *)
Theorem New_panics_iff level_known url_Parse chi_Compress RequestID RealIP cfg :
  config_ok level_known url_Parse cfg ->
  New chi_Compress RequestID RealIP (Some cfg) = None <-> EnableCompression cfg = true /\ CompressionLevel cfg = 0.
Proof.
  intros (_ & _ & _ & _ & _ & _ & Hc & _). unfold New, CompressFromConfig. destruct (EnableCompression cfg); cbn [negb]; [|naive_solver].
  destruct (Z.ltb_spec (CompressionLevel cfg) 1), (Z.ltb_spec 9 (CompressionLevel cfg)); cbn [orb]; try lia; (split; [intros; split; [done|]; lia || done|]); [done..|].
  intros [_ H1]. lia.
Qed.

Lemma New_panics_iff_witness :
  let cfg := mkCoreConfig "dev" "" (mkHTTPConfig 8080 443 false 15 10 60 120 15)
    (mkTLSConfig "" "" false "" "" "" [] "" "" "") (mkCORSConfig false [] [] [] [] false 0)
    (mkSecurityConfig true "" "" "" "" 0 true false "" "") 10 120 0 true 0 in
  New (fun _ next => next) (fun next => next) (fun next => next) (Some cfg) = None <-> EnableCompression cfg = true /\ CompressionLevel cfg = 0.
Proof.
  intros cfg. apply (New_panics_iff (fun _ => true) (fun _ => Err "")). apply (validate_ok (fun _ => true) (fun _ => Err "") (fun s => s) cfg "").
  by vm_compute.
Defined.

(** The body limit of a configuration: -1, which is documented to reject every
    body, and 0 leave the body as it is. *)
Theorem reject_all_is_no_limit (next : Handler) r n :
  LimitBodySize n next r = next (if 0 <? n then with_limit n r else r) /\ LimitBodySize (-1) next r = next r.
Proof. split; [|done]. unfold LimitBodySize. destruct (Z.leb_spec n 0), (Z.ltb_spec 0 n); lia || done. Qed.

(** The security headers are sent: each header that the options ask for is in the
    answer, unless the handler itself sets or removes it. *)
Theorem security_headers_sent opts (next : Handler) r k v :
  SetHeader k v ∈ security_calls opts r ->
  Forall (fun c => call_key c <> Some (CanonicalHeaderKey k)) (o_calls (next r)) ->
  header_Get (received (foldl net_call fresh (o_calls (SecurityHeaders opts next r)))).1.2 k = v.
Proof.
  intros Hin Hcs. destruct (security_calls_pairs opts r) as (kvs & Heq & Hsub). unfold SecurityHeaders, before. cbn [o_calls].
  rewrite foldl_app, Heq in *. assert ((k, v) ∈ kvs) as Hkv.
  { unfold set_calls in Hin. apply list_elem_of_In, in_map_iff in Hin as ([k' v'] & [= -> ->] & ?). by apply list_elem_of_In. }
  assert (NoDup (map (fun kv => CanonicalHeaderKey kv.1) kvs)) as Hn.
  { rewrite <- (map_map fst CanonicalHeaderKey). eapply sublist_NoDup; [|by apply sublist_map].
    apply (bool_decide_unpack _). by vm_compute. }
  destruct (holds_header_calls _ _ _ _ Hcs (set_calls_holds kvs k v fresh eq_refl Hn Hkv)) as [H1 H2].
  unfold received, header_Get. destruct (w_sent _) as [[code h]|]; cbn [fst snd]; [by rewrite (H2 code h eq_refl)|by rewrite H1].
Qed.

Lemma security_headers_sent_witness :
  header_Get (received (foldl net_call fresh (o_calls (SecurityHeaders DefaultSecurityHeadersOptions (fun _ => responds [Write "hi"])
    (mkRequest "GET" "/" true ∅ None ""))))).1.2 "x-frame-options" = "SAMEORIGIN".
Proof.
  apply (security_headers_sent DefaultSecurityHeadersOptions (fun _ => responds [Write "hi"]) (mkRequest "GET" "/" true ∅ None "") "X-Frame-Options" "SAMEORIGIN");
    [set_solver|by repeat constructor].
Defined.

(** A handler behind [RequireJSON] only sees requests whose media type is JSON or
    ends in [+json]; the others are answered with 415. *)
Theorem RequireJSON_spec encode (next : Handler) r :
  let mt := media_type (TrimSpace (header_Get (rq_Header r) "Content-Type")) in
  if String.eqb mt "application/json" || HasSuffix mt "+json" then RequireJSON encode next r = next r
  else (received (foldl net_call fresh (o_calls (RequireJSON encode next r)))).1.1 = 415.
Proof.
  cbv zeta. unfold RequireJSON. destruct (String.eqb_spec (TrimSpace (header_Get (rq_Header r) "Content-Type")) "") as [->|_]; [done|].
  destruct (String.eqb (media_type _) "application/json"), (HasSuffix (media_type _) "+json"); done.
Qed.

(** Binding accepts a body exactly when it begins with a value that decodes and
    nothing follows but white space, or but something that begins with a closing
    bracket or brace, which the decoder takes for the end. *)
Theorem bind_spec {T : Type} Quote (Decode : bool -> string -> result json_error (T * string)) strict body len v :
  bind Quote Decode strict body len = Ok v <->
  exists b rest, body = Some b /\ len <> 0 /\ Decode strict b = Ok (v, rest) /\
    exists ws tail, rest = ws +:+ tail /\ string_forall json_space ws = true /\
      (tail = "" \/ exists c t, tail = String c t /\ (c = "]"%char \/ c = "}"%char)).
Proof.
  assert (HM : forall rest, More rest = false <-> exists ws tail, rest = ws +:+ tail /\ string_forall json_space ws = true /\
      (tail = "" \/ exists c t, tail = String c t /\ (c = "]"%char \/ c = "}"%char))).
  { induction rest as [|c rest IH]; cbn [More].
    - split; [|done]. intros _. exists "", "". split; [done|]. split; [done|by left].
    - destruct (json_space c) eqn:Hc.
      + rewrite IH. split.
        * intros (ws & tail & -> & Hws & Ht). exists (String c ws), tail. split; [done|]. split; [cbn; by rewrite Hc|done].
        * intros ([|d ws] & tail & He & Hws & Ht).
          -- destruct Ht as [->|(d & t & -> & Hd)]; [done|]. injection He as -> ->. destruct Hd as [->| ->]; done.
          -- injection He as -> ->. cbn in Hws. apply andb_prop in Hws as [_ Hws]. by exists ws, tail.
      + split.
        * intros Hn. apply negb_false_iff, orb_prop in Hn. exists "", (String c rest). split; [done|]. split; [done|]. right. exists c, rest.
          split; [done|]. destruct Hn as [Hn|Hn]; apply Ascii.eqb_eq in Hn; auto.
        * intros ([|d ws] & tail & He & Hws & Ht).
          -- destruct Ht as [->|(d & t & -> & Hd)]; [done|]. injection He as -> ->. destruct Hd as [->| ->]; done.
          -- injection He as <- ->. cbn in Hws. apply andb_prop in Hws as [Hws _]. congruence. }
  unfold bind. destruct body as [b|]; [|split; [done|by intros (b & rest & ? & _)]].
  destruct (Z.eqb_spec len 0) as [->|Hl]; [split; [done|by intros (b' & rest & _ & ? & _)]|].
  destruct (Decode strict b) as [[v' rest]|e] eqn:Hd; [|split; [done|intros (b' & rest & [= <-] & _ & Hd' & _); congruence]].
  destruct (More rest) eqn:Hm.
  - split; [done|]. intros (b' & rest' & [= <-] & _ & Hd' & Ht). rewrite Hd in Hd'. injection Hd' as <- <-. apply HM in Ht. congruence.
  - split; [intros [= <-]; exists b, rest; split; [done|]; split; [done|]; split; [done|]; by apply HM|].
    intros (b' & rest' & [= <-] & _ & Hd' & _). rewrite Hd in Hd'. by injection Hd' as <- _.
Qed.

(** A label is cut between runes: the text that is kept has at most the bytes
    allowed, and consists of the first runes of the whole. *)
Theorem truncateUTF8_whole l maxBytes :
  Forall (fun r => valid_rune r = true) l ->
  strlen (truncateUTF8 (string_of_runes l) maxBytes) <= Z.max 0 maxBytes /\
  exists k, truncateUTF8 (string_of_runes l) maxBytes = string_of_runes (take k l).
Proof.
  intros Hl. unfold truncateUTF8. destruct (Z.leb_spec maxBytes 0); [split; [change (0 <= Z.max 0 maxBytes); lia|by exists O]|].
  destruct (Z.leb_spec (strlen (string_of_runes l)) maxBytes); [split; [lia|exists (length l); by rewrite take_ge]|].
  unfold strlen in *. destruct (boundary_spec (string_of_runes l) (Z.to_nat maxBytes)) as [Hle Hb]; [lia|].
  split; [rewrite str_take_length; lia|]. destruct Hb as [Hz|(c & Hg & Hc)]; [|by eapply take_whole_runes; [|right]].
  apply (take_whole_runes l _ "a" Hl). by left.
Qed.

Lemma truncateUTF8_whole_witness :
  truncateUTF8 (string_of_runes [104; 233; 8364]) 4 = string_of_runes [104; 233] /\
  strlen (truncateUTF8 (string_of_runes [104; 233; 8364]) 4) <= Z.max 0 4 /\
  exists k, truncateUTF8 (string_of_runes [104; 233; 8364]) 4 = string_of_runes (take k [104; 233; 8364]).
Proof. split; [by vm_compute|]. apply truncateUTF8_whole. by repeat constructor. Defined.

(** Credentials are never allowed with every origin: not by [CORS], which panics, and
    not by a valid configuration. *)
Theorem cors_credentials level_known url_Parse opts cfg :
  (forall o, cors_options opts = Some o -> AllowCredentials o = true -> "*" ∉ AllowedOrigins o) /\
  (config_ok level_known url_Parse cfg -> EnableCORS (c_CORS cfg) = true -> AllowCredentials (config_cors (c_CORS cfg)) = true ->
   "*" ∉ AllowedOrigins (config_cors (c_CORS cfg))).
Proof.
  split.
  - unfold cors_options. intros o H Hc. destruct (AllowCredentials opts) eqn:Ha, (existsb (String.eqb "*") (AllowedOrigins opts)) eqn:He;
      cbn [andb] in H; try done; (destruct (maxCORSMaxAge <? MaxAge opts); [done|]); injection H as <-; cbn [AllowCredentials AllowedOrigins] in *; try congruence.
    intros Hin. apply not_true_iff_false in He. apply He, existsb_exists. exists "*". split; [by apply list_elem_of_In|done].
  - intros (_ & _ & _ & Hcors & _) He Ha Hin. destruct (Hcors He) as (_ & _ & _ & Ho & _). cbn in Ha, Hin.
    rewrite Forall_forall in Ho. apply list_elem_of_In, Ho in Hin. destruct Hin as [[_ Hf]|[Hf _]]; congruence.
Qed.
