(* ===== verification/HttpTools.v ===== *)
(** * Request IDs, back links and files ([pantry/requestid], [pantry/httpnav], [pantry/fileserver])

    The identifiers of requests and their middleware, the link a page goes back to,
    and the choice of a file that is compressed already.  Random bytes, the clock,
    [url.Parse], the tables of [mime] and the files are arguments. *)

From stdpp Require Import list numbers strings gmap.
From S2P Require Import Prelude GoStrings Hex Utf8 Paths HttpWriter.

#[local] Open Scope list_scope.

(** ** Request IDs: generators *)

Definition string_of_bytes (l : list Z) : string := String.string_of_list_ascii (map byte_of_code l).

Definition EncodeToString (l : list Z) : string := hex_encode (string_of_bytes l).

(** [byte(n >> k)], for each [k]. *)
Definition bytes_of (n : Z) (shifts : list Z) : list Z := map (fun k => Z.land (Z.shiftr n k) 255) shifts.

(** [random]: four random bytes, zeros where reading them failed. *)
Definition GenerateTimestamp (now : Z) (random : list Z) : string :=
  EncodeToString (bytes_of now [56; 48; 40; 32; 24; 16; 8; 0]) +:+ EncodeToString random.

Definition uuid_bytes (b : list Z) : list Z :=
  let b := <[6%nat := Z.lor (Z.land (default 0 (b !! 6%nat)) 15) 64]> b in
  <[8%nat := Z.lor (Z.land (default 0 (b !! 8%nat)) 63) 128]> b.

Definition uuid_string (b : list Z) : string :=
  EncodeToString (take 4 b) +:+ "-" +:+ EncodeToString (take 2 (drop 4 b)) +:+ "-" +:+ EncodeToString (take 2 (drop 6 b)) +:+ "-" +:+
  EncodeToString (take 2 (drop 8 b)) +:+ "-" +:+ EncodeToString (drop 10 b).

(** [b]: sixteen random bytes, [None] where reading them failed. *)
Definition GenerateUUID (b : option (list Z)) (now : Z) (random : list Z) : string :=
  match b with None => GenerateTimestamp now random | Some b => uuid_string (uuid_bytes b) end.

Definition GenerateShort (b : option (list Z)) (now : Z) (random : list Z) : string :=
  match b with None => GenerateTimestamp now random | Some b => EncodeToString b end.

(** The counter is a [uint64]. *)
Definition GenerateSequential (prefix : string) (ts counter : Z) : Z * string :=
  let c := (counter + 1) mod 2 ^ 64 in
  (c, prefix +:+ "-" +:+ EncodeToString (bytes_of ts [24; 16; 8; 0]) +:+ "-" +:+ EncodeToString (bytes_of c [24; 16; 8; 0])).

Definition GeneratePrefixed (prefix : string) (b : option (list Z)) (now : Z) (random : list Z) : string :=
  prefix +:+ GenerateUUID b now random.

(** ** Request IDs: validators

    The loops over runes are made on bytes here: no byte of a longer rune is a
    digit or a dash. *)

Definition hex_char (c : ascii) : bool :=
  is_digit c || ((97 <=? byte_code c) && (byte_code c <=? 102)) || ((65 <=? byte_code c) && (byte_code c <=? 70)).

Fixpoint uuid_from (i : Z) (s : string) : bool :=
  match s with
  | "" => true
  | String c s =>
      (if (i =? 8) || (i =? 13) || (i =? 18) || (i =? 23) then Ascii.eqb c "-" else hex_char c) && uuid_from (i + 1) s
  end.

Definition ValidateUUID (s : string) : bool := (strlen s =? 36) && uuid_from 0 s.

Definition id_length_ok (s : string) : bool := negb ((strlen s =? 0) || (128 <? strlen s)).

Definition ValidateHex (s : string) : bool := id_length_ok s && string_forall hex_char s.

Definition ValidateAlphanumeric (s : string) : bool :=
  id_length_ok s && string_forall (fun c => is_digit c || is_lower c || is_upper c || Ascii.eqb c "-" || Ascii.eqb c "_") s.

(** ** Request IDs: the middleware *)

Section requestid.
Context {W : Type}.

Record Config := mkConfig {
  c_Header : string; Generator : option (W -> W * string); TrustProxy : bool; Validator : option (string -> bool); SetResponseHeader : bool
}.

Context (uuid : W -> W * string).

Definition DefaultHeader : string := "X-Request-ID".
Definition default_validator (s : string) : bool := (0 <? strlen s) && (strlen s <=? 128).

Definition DefaultConfig : Config := mkConfig DefaultHeader (Some uuid) true (Some default_validator) true.

Definition header_name (cfg : Config) : string := if String.eqb (c_Header cfg) "" then DefaultHeader else c_Header cfg.

(** The identifier of the request, and the calls made before the next handler. *)
Definition request_id (cfg : Config) (h : Headers) (w : W) : W * string * list call :=
  let requestID :=
    if TrustProxy cfg then
      let id := header_Get h (header_name cfg) in
      if negb (String.eqb id "") && negb (default default_validator (Validator cfg) id) then "" else id
    else "" in
  let '(w, requestID) := if String.eqb requestID "" then default uuid (Generator cfg) w else (w, requestID) in
  (w, requestID, if SetResponseHeader cfg then [SetHeader (header_name cfg) requestID] else []).

End requestid.

(** [ctx]: the identifier in the context, empty where there is none. *)
Definition SetHeaderWithName (ctx header : string) (h : Headers) : Headers :=
  if String.eqb ctx "" then h else header_Set h header ctx.

Definition Transport_RoundTrip (t_Header ctx : string) (h : Headers) : Headers :=
  let header := if String.eqb t_Header "" then DefaultHeader else t_Header in
  if String.eqb (header_Get h header) "" then SetHeaderWithName ctx header h else h.

(** A request of [NewRequest]: its headers and its body, which is always nil. *)
Definition NewRequest (ctx : string) (body : option string) : Headers * option string :=
  (SetHeaderWithName ctx DefaultHeader ∅, None).

(** ** Back links *)

Definition isLocal (p : string) : bool := negb (String.eqb p "") && HasPrefix p "/".

Definition pickQuery (raw : string) : string := if String.eqb raw "" then "" else "?" +:+ raw.

Record URL := mkURL { u_Scheme : string; u_Host : string; u_Path : string; u_RawQuery : string }.

(** [query] and [form]: the values of [return] in the query and in the form. *)
Definition ResolveBackURL (url_Parse : string -> option URL) (host query form referer fallback : string) : string :=
  let fallback := if negb (isLocal fallback) then "/" else fallback in
  let ret := TrimSpace query in
  if isLocal ret then ret
  else
    let ret := TrimSpace form in
    if isLocal ret then ret
    else
      if String.eqb referer "" then fallback
      else
        match url_Parse referer with
        | Some u =>
            let same := (String.eqb (u_Scheme u) "" && HasPrefix (u_Path u) "/") || (String.eqb (u_Host u) host && HasPrefix (u_Path u) "/") in
            if same then
              let p := u_Path u +:+ pickQuery (u_RawQuery u) in
              if isLocal p then p else fallback
            else fallback
        | None => fallback
        end.

Definition CurrentPath (u : URL) : string := u_Path u +:+ (if String.eqb (u_RawQuery u) "" then "" else "?" +:+ u_RawQuery u).

Definition HasExplicitReturn (query : string) : bool :=
  let ret := TrimSpace query in negb (String.eqb ret "") && HasPrefix ret "/".

(** ** Files *)

Definition EqualFold (a b : string) : bool := String.eqb (ToLower a) (ToLower b).

Definition before_semicolon (part : string) : string := match cut_byte ";" part with Some (a, _) => a | None => part end.

Definition acceptsEncoding (header encoding : string) : bool :=
  existsb (fun part => EqualFold (TrimSpace (before_semicolon part)) encoding) (split_byte "," header).

(** The loop over the suffixes: each round takes three bytes at least. *)
Fixpoint strip_compressed (fuel : nat) (base : string) : string :=
  match fuel with
  | O => base
  | S fuel =>
      if HasSuffix base ".br" || HasSuffix base ".gz" then strip_compressed fuel (TrimSuffix (TrimSuffix base ".br") ".gz") else base
  end.

Definition mimeTypeByOriginal (TypeByExtension : string -> string) (name : string) : string :=
  let base := strip_compressed (String.length name) name in
  let ext := ToLower (Ext base) in
  let mt := TypeByExtension ext in
  if negb (String.eqb mt "") then mt
  else if String.eqb ext ".wasm" then "application/wasm"
  else if String.eqb ext ".js" then "application/javascript"
  else if String.eqb ext ".mjs" then "application/javascript"
  else if String.eqb ext ".json" then "application/json"
  else "application/octet-stream".

Record Options := mkOptions { CacheControl : string; DisablePrecompressed : bool }.

(** What is served: a file with its encoding and its type, or what [http.FileServer]
    makes of the request. *)
Inductive served := Precompressed (file encoding contentType : string) | FileServer.

(** The name that is looked for under the root. *)
Definition requested (urlPath : string) : string := TrimPrefix (Clean ("/" +:+ urlPath)) "/".

(** [is_file]: whether a name opens and is no directory. *)
Definition candidate (is_file : string -> bool) (TypeByExtension : string -> string) (req ext encoding : string) (accepted : bool) : option served :=
  if accepted && is_file (req +:+ ext) then Some (Precompressed (req +:+ ext) encoding (mimeTypeByOriginal TypeByExtension req)) else None.

Definition precompressed (is_file : string -> bool) (TypeByExtension : string -> string) (req accept : string) : option served :=
  match candidate is_file TypeByExtension req ".br" "br" (acceptsEncoding accept "br") with
  | Some s => Some s
  | None => candidate is_file TypeByExtension req ".gz" "gzip" (acceptsEncoding accept "gzip")
  end.

Definition file_calls (s : served) : list call :=
  match s with
  | Precompressed _ encoding contentType =>
      [SetHeader "Content-Encoding" encoding; SetHeader "Vary" "Accept-Encoding"; SetHeader "Content-Type" contentType]
  | FileServer => []
  end.

Definition HandlerWithOptions (opts : Options) (is_file : string -> bool) (TypeByExtension : string -> string) (method urlPath accept : string)
  : list call * served :=
  if negb (String.eqb method "GET") && negb (String.eqb method "HEAD") then ([], FileServer)
  else
    let req := requested urlPath in
    let cache := if String.eqb (CacheControl opts) "" then [] else [SetHeader "Cache-Control" (CacheControl opts)] in
    let s := if DisablePrecompressed opts then FileServer else default FileServer (precompressed is_file TypeByExtension req accept) in
    (cache ++ file_calls s, s).

Definition Handler : (string -> bool) -> (string -> string) -> string -> string -> string -> list call * served :=
  HandlerWithOptions (mkOptions "" false).

(** ** Lemmas *)

Definition byte (x : Z) : Prop := 0 <= x < 256.

Lemma encode_cons x l : byte x ->
  EncodeToString (x :: l) = String (hex_digit (x / 16)) (String (hex_digit (x mod 16)) (EncodeToString l)).
Proof. intros Hx. unfold EncodeToString, string_of_bytes. cbn [map String.string_of_list_ascii hex_encode]. by rewrite byte_code_of_code. Qed.

Lemma hex_char_digit v : 0 <= v < 16 -> hex_char (hex_digit v) = true.
Proof. intros Hv. unfold hex_char, is_digit, hex_digit. rewrite byte_code_of_code by (split_ifs; lia). split_ifs; lia. Qed.

Lemma nibbles_hex x : byte x -> hex_char (hex_digit (x / 16)) = true /\ hex_char (hex_digit (x mod 16)) = true.
Proof.
  intros [H1 H2]. split; apply hex_char_digit; [|apply Z.mod_pos_bound; lia].
  split; [apply Z.div_pos; lia|apply Z.div_lt_upper_bound; lia].
Qed.

Lemma encode_hex l : Forall byte l -> string_forall hex_char (EncodeToString l) = true /\ String.length (EncodeToString l) = (2 * length l)%nat.
Proof.
  induction 1 as [|x l Hx _ [IH1 IH2]]; [done|]. rewrite encode_cons by done. destruct (nibbles_hex x Hx) as [Ha Hb].
  cbn [string_forall String.length length]. rewrite Ha, Hb, IH1, IH2. split; [done|lia].
Qed.

Lemma encode_inj l1 l2 : Forall byte l1 -> Forall byte l2 -> EncodeToString l1 = EncodeToString l2 -> l1 = l2.
Proof.
  unfold EncodeToString. intros H1 H2 He. apply (f_equal hex_decode) in He. rewrite !hex_round_trip in He. injection He as He.
  revert l2 H2 He. induction H1 as [|x l1 Hx H1 IH]; intros l2 H2 He; destruct H2 as [|y l2 Hy H2]; try done.
  injection He as Hxy He. f_equal; [|by apply IH]. apply (f_equal byte_code) in Hxy. by rewrite !byte_code_of_code in Hxy.
Qed.

Lemma land_byte n : byte (Z.land n 255).
Proof. unfold byte. change 255 with (Z.ones 8). rewrite Z.land_ones by lia. change 256 with (2 ^ 8). apply Z.mod_pos_bound. lia. Qed.

Lemma bytes_of_byte n shifts : Forall byte (bytes_of n shifts).
Proof. unfold bytes_of. induction shifts; cbn; constructor; [apply land_byte|done]. Qed.

(** The four low bytes are the number modulo [2 ^ 32]. *)
Lemma bytes_of_inj a b : bytes_of a [24; 16; 8; 0] = bytes_of b [24; 16; 8; 0] -> a mod 2 ^ 32 = b mod 2 ^ 32.
Proof.
  unfold bytes_of. cbn [map]. change 255 with (Z.ones 8). intros H. injection H as H1 H2 H3 H4.
  apply Z.bits_inj'. intros n Hn. destruct (Z.lt_ge_cases n 32) as [Hlt|Hge]; [|by rewrite !Z.mod_pow2_bits_high by lia].
  rewrite !Z.mod_pow2_bits_low by lia.
  assert (Hbit : forall k, 0 <= k -> k <= n < k + 8 -> Z.land (Z.shiftr a k) (Z.ones 8) = Z.land (Z.shiftr b k) (Z.ones 8) -> Z.testbit a n = Z.testbit b n).
  { intros k Hk Hr He. apply (f_equal (fun z => Z.testbit z (n - k))) in He. rewrite !Z.land_spec, !Z.shiftr_spec, Z.ones_spec_low in He by lia.
    rewrite !andb_true_r in He. by replace (n - k + k) with n in He by lia. }
  destruct (Z.lt_ge_cases n 8); [by apply (Hbit 0)|]. destruct (Z.lt_ge_cases n 16); [by apply (Hbit 8)|].
  destruct (Z.lt_ge_cases n 24); [by apply (Hbit 16)|]. by apply (Hbit 24).
Qed.

Lemma string_app_inj_r s t u : s +:+ t = s +:+ u -> t = u.
Proof. induction s as [|c s IH]; [done|]. intros H. injection H as H. by apply IH. Qed.

Lemma string_app_inj_length s1 s2 t1 t2 : String.length s1 = String.length s2 -> s1 +:+ t1 = s2 +:+ t2 -> s1 = s2 /\ t1 = t2.
Proof.
  revert s2. induction s1 as [|c s1 IH]; intros [|d s2] Hl He; try done. injection Hl as Hl. injection He as -> He.
  destruct (IH _ Hl He) as [-> ->]. done.
Qed.

(** ** Theorems *)

(** A generated identifier is a UUID of version 4: whatever the sixteen random
    bytes, [ValidateUUID] accepts it, and its fifteenth character is a 4. *)
Theorem GenerateUUID_valid b now random :
  length b = 16%nat -> Forall byte b ->
  ValidateUUID (GenerateUUID (Some b) now random) = true /\ String.get 14 (GenerateUUID (Some b) now random) = Some "4"%char.
Proof.
  intros Hl Hb. do 16 (destruct b as [|? b]; [done|]). destruct b; [|done]. clear Hl.
  repeat match goal with H : Forall byte (_ :: _) |- _ => apply Forall_cons_iff in H as [? H] end.
  assert (Hv : forall x, byte x -> byte (Z.lor (Z.land x 15) 64) /\ Z.lor (Z.land x 15) 64 / 16 = 4).
  { intros x Hx. change 15 with (Z.ones 4). rewrite Z.land_ones by lia. change (2 ^ 4) with 16.
    assert (Hm : 0 <= x mod 16 < 16) by (apply Z.mod_pos_bound; lia). revert Hm. generalize (x mod 16). intros m Hm.
    assert (m = 0 \/ m = 1 \/ m = 2 \/ m = 3 \/ m = 4 \/ m = 5 \/ m = 6 \/ m = 7 \/ m = 8 \/ m = 9 \/ m = 10 \/ m = 11 \/ m = 12 \/ m = 13 \/ m = 14 \/ m = 15) by lia.
    unfold byte. repeat match goal with H : _ \/ _ |- _ => destruct H as [->|H] end; subst; by vm_compute. }
  assert (Hr : forall x, byte x -> byte (Z.lor (Z.land x 63) 128)).
  { intros x Hx. unfold byte. assert (0 <= Z.land x 63 < 64) as Hm.
    { change 63 with (Z.ones 6). rewrite Z.land_ones by lia. change 64 with (2 ^ 6). apply Z.mod_pos_bound. lia. }
    revert Hm. generalize (Z.land x 63). intros m Hm. split; [apply Z.lor_nonneg; lia|].
    change 256 with (2 ^ 8). destruct (Z.eq_dec m 0) as [->|]; [by vm_compute|]. apply Z.log2_lt_pow2.
    - enough (0 <= Z.lor m 128 /\ Z.lor m 128 <> 0) by lia. split; [apply Z.lor_nonneg; lia|]. intros Hz. apply Z.lor_eq_0_iff in Hz. lia.
    - rewrite Z.log2_lor by lia. assert (Z.log2 m < 6) by (apply Z.log2_lt_pow2; lia). change (Z.log2 128) with 7. lia. }
  unfold GenerateUUID, uuid_string, uuid_bytes. cbn [list_insert insert lookup list_lookup default from_option id take drop].
  match goal with |- context [Z.lor (Z.land ?x 15) 64] => destruct (Hv x ltac:(done)) as [Hv1 Hv2]; revert Hv1 Hv2; generalize (Z.lor (Z.land x 15) 64) end.
  match goal with |- context [Z.lor (Z.land ?x 63) 128] => pose proof (Hr x ltac:(done)) as Hr1; revert Hr1; generalize (Z.lor (Z.land x 63) 128) end.
  intros y Hy x Hx Hx4. rewrite !encode_cons by done.
  change (EncodeToString []) with "". cbn [String.append]. split; [|cbn [String.get]; by rewrite Hx4].
  unfold ValidateUUID. apply andb_true_intro. split; [done|]. cbn [uuid_from].
  repeat match goal with H : byte ?v |- _ => destruct (nibbles_hex v H) as [-> ->]; clear H end. done.
Qed.

Lemma GenerateUUID_valid_witness :
  let b := [255; 0; 17; 34; 51; 68; 85; 102; 119; 136; 153; 170; 187; 204; 221; 238] in
  GenerateUUID (Some b) 0 [] = "ff001122-3344-4566-b788-99aabbccddee" /\
  ValidateUUID (GenerateUUID (Some b) 0 []) = true /\ String.get 14 (GenerateUUID (Some b) 0 []) = Some "4"%char.
Proof. intros b. split; [by vm_compute|]. apply GenerateUUID_valid; [done|]. by repeat (constructor; [done|]). Defined.

(** Where no random bytes can be read the identifier is none: it has 24 digits. *)
Theorem GenerateTimestamp_hex now random :
  length random = 4%nat -> Forall byte random ->
  ValidateHex (GenerateUUID None now random) = true /\ ValidateUUID (GenerateUUID None now random) = false.
Proof.
  intros Hl Hr. unfold GenerateUUID, GenerateTimestamp. destruct (encode_hex _ (bytes_of_byte now [56; 48; 40; 32; 24; 16; 8; 0])) as [H1 H2].
  destruct (encode_hex random Hr) as [H3 H4]. unfold ValidateHex, ValidateUUID, id_length_ok, strlen. rewrite string_length_app, H2, H4, Hl, string_forall_app, H1, H3.
  done.
Qed.

(** Sequential identifiers differ: two calls with one prefix give different
    identifiers as long as their counters differ in the low 32 bits, whatever the
    clock says. *)
Theorem sequential_unique prefix ts1 ts2 c1 c2 :
  (c1 + 1) mod 2 ^ 32 <> (c2 + 1) mod 2 ^ 32 ->
  (GenerateSequential prefix ts1 c1).2 <> (GenerateSequential prefix ts2 c2).2.
Proof.
  intros Hne He. cbn [GenerateSequential snd] in He. apply string_app_inj_r, (string_app_inj_r "-") in He.
  destruct (encode_hex _ (bytes_of_byte ts1 [24; 16; 8; 0])) as [_ L1]. destruct (encode_hex _ (bytes_of_byte ts2 [24; 16; 8; 0])) as [_ L2].
  destruct (string_app_inj_length _ _ _ _ ltac:(by rewrite L1, L2) He) as [_ Ht].
  apply (string_app_inj_r "-") in Ht. apply encode_inj in Ht; [|apply bytes_of_byte..].
  apply bytes_of_inj in Ht. apply Hne. revert Ht. change (2 ^ 64) with (2 ^ 32 * 2 ^ 32).
  assert (Hm : forall z, (z mod (2 ^ 32 * 2 ^ 32)) mod 2 ^ 32 = z mod 2 ^ 32).
  { intros z. rewrite Z.rem_mul_r by lia. rewrite Z.mul_comm, Z.mod_add, Z.mod_mod by lia. done. }
  by rewrite !Hm.
Qed.

Lemma sequential_unique_witness :
  (7 + 1) mod 2 ^ 32 <> (8 + 1) mod 2 ^ 32 /\ (GenerateSequential "req" 5 7).2 <> (GenerateSequential "req" 5 8).2.
Proof. split; [by vm_compute|]. apply sequential_unique. by vm_compute. Defined.

(** The identifier of a request: it is never empty when the generator gives none
    that is; one that the client sent is only kept where proxies are trusted and the
    validator accepts it, and any other is generated. *)
Theorem request_id_chosen {W : Type} (uuid : W -> W * string) cfg h w :
  (forall w, (default uuid (Generator cfg) w).2 <> "") ->
  let '(w', id, calls) := request_id uuid cfg h w in
  id <> "" /\ calls = (if SetResponseHeader cfg then [SetHeader (header_name cfg) id] else []) /\
  ((TrustProxy cfg = true /\ id = header_Get h (header_name cfg) /\ default default_validator (Validator cfg) id = true /\ w' = w) \/
   (w', id) = default uuid (Generator cfg) w).
Proof.
  intros Hg. unfold request_id. specialize (Hg w).
  assert (Hgen : forall s, s = "" -> let '(w', id) := (if String.eqb s "" then default uuid (Generator cfg) w else (w, s)) in
    id <> "" /\ (w', id) = default uuid (Generator cfg) w).
  { intros s ->. cbn. by destruct (default uuid (Generator cfg) w). }
  destruct (TrustProxy cfg) eqn:Ht.
  2:{ specialize (Hgen "" eq_refl). cbn in Hgen |- *. destruct (default uuid (Generator cfg) w) as [w1 id1]. destruct Hgen. split; [done|]. split; [done|by right]. }
  set (id := header_Get h (header_name cfg)). destruct (String.eqb_spec id "") as [He|Hne]; cbn [negb andb].
  { specialize (Hgen id He). rewrite He in *. cbn in Hgen |- *. destruct (default uuid (Generator cfg) w) as [w1 id1]. destruct Hgen.
    split; [done|]. split; [done|by right]. }
  destruct (default default_validator (Validator cfg) id) eqn:Hv; cbn [negb].
  - rewrite (proj2 (String.eqb_neq _ _) Hne). split; [done|]. split; [done|]. by left.
  - specialize (Hgen "" eq_refl). cbn in Hgen |- *. destruct (default uuid (Generator cfg) w) as [w1 id1]. destruct Hgen.
    split; [done|]. split; [done|by right].
Qed.

Lemma request_id_chosen_witness :
  let uuid := fun n : Z => (n + 1, "u" +:+ Itoa n) in
  let '(w', id, calls) := request_id uuid (DefaultConfig uuid) (header_Set ∅ "x-request-id" "abc") 3 in
  id <> "" /\ calls = [SetHeader "X-Request-ID" id] /\
  ((true = true /\ id = header_Get (header_Set ∅ "x-request-id" "abc") "X-Request-ID" /\ default_validator id = true /\ w' = 3) \/ (w', id) = uuid 3).
Proof.
  intros uuid. apply (request_id_chosen uuid (DefaultConfig uuid) (header_Set ∅ "x-request-id" "abc") 3).
  intros w. unfold DefaultConfig. cbn. by destruct (Itoa w).
Defined.

(** A back link begins with a slash, whatever the request says; but so does a
    link to another host: two slashes are let through, from the query and the form. *)
Theorem back_url_local url_Parse host query form referer fallback :
  HasPrefix (ResolveBackURL url_Parse host query form referer fallback) "/" = true /\
  ResolveBackURL url_Parse host "//evil.example/a" form referer fallback = "//evil.example/a".
Proof.
  split; [|done]. unfold ResolveBackURL. assert (Hl : forall s, isLocal s = true -> HasPrefix s "/" = true) by (intros s [_ H]%andb_prop; done).
  assert (Hf : HasPrefix (if negb (isLocal fallback) then "/" else fallback) "/" = true) by (destruct (isLocal fallback) eqn:Hi; [by apply Hl|done]).
  destruct (isLocal (TrimSpace query)) eqn:Hq; [by apply Hl|]. destruct (isLocal (TrimSpace form)) eqn:Hfm; [by apply Hl|].
  destruct (String.eqb referer ""); [done|]. destruct (url_Parse referer) as [u|]; [|done].
  destruct (_ || _); [|done]. destruct (isLocal (u_Path u +:+ _)) eqn:Hp; [by apply Hl|done].
Qed.

(** The header of the transport: what is sent is the identifier of the context,
    unless the request has one already; [NewRequest] sends no body at all. *)
Theorem transport_propagates t_Header ctx h body :
  (header_Get h (if String.eqb t_Header "" then DefaultHeader else t_Header) <> "" -> Transport_RoundTrip t_Header ctx h = h) /\
  (header_Get h (if String.eqb t_Header "" then DefaultHeader else t_Header) = "" -> ctx <> "" ->
   header_Get (Transport_RoundTrip t_Header ctx h) (if String.eqb t_Header "" then DefaultHeader else t_Header) = ctx) /\
  (NewRequest ctx body).2 = None.
Proof.
  unfold Transport_RoundTrip, SetHeaderWithName. cbv zeta. split; [|split; [|done]].
  - intros Hne%String.eqb_neq. by rewrite Hne.
  - intros -> Hc%String.eqb_neq. rewrite Hc. cbn [String.eqb]. unfold header_Get, header_Set. by rewrite lookup_insert_eq.
Qed.

(** A compressed file is served only to who accepts it: the file is the one
    asked for with the suffix of an encoding that the client lists, no name on the
    way to it is [..], and the type is that of the file asked for. *)
Theorem precompressed_accepted opts is_file types method urlPath accept calls file encoding ct :
  HandlerWithOptions opts is_file types method urlPath accept = (calls, Precompressed file encoding ct) ->
  is_file file = true /\ acceptsEncoding accept encoding = true /\ ct = mimeTypeByOriginal types (requested urlPath) /\
  ((file = requested urlPath +:+ ".br" /\ encoding = "br") \/ (file = requested urlPath +:+ ".gz" /\ encoding = "gzip")) /\
  exists segs, Forall plain segs /\ requested urlPath = String.concat "/" segs.
Proof.
  assert (Hc : forall ext enc acc f e c, candidate is_file types (requested urlPath) ext enc acc = Some (Precompressed f e c) ->
    acc = true /\ is_file f = true /\ f = requested urlPath +:+ ext /\ e = enc /\ c = mimeTypeByOriginal types (requested urlPath)).
  { intros ext enc acc f e c H. unfold candidate in H. destruct acc; [|done]. cbn [andb] in H. destruct (is_file _) eqn:Hf; [|done]. by injection H as <- <- <-. }
  assert (Hn : forall ext enc acc, candidate is_file types (requested urlPath) ext enc acc = None \/
    exists f e c, candidate is_file types (requested urlPath) ext enc acc = Some (Precompressed f e c)).
  { intros ext enc acc. unfold candidate. destruct (_ && _); [right; eauto|by left]. }
  unfold HandlerWithOptions. destruct (_ && _); [done|]. destruct (DisablePrecompressed opts); [done|]. intros H. injection H as _ H.
  assert (Hsegs : exists segs, Forall plain segs /\ requested urlPath = String.concat "/" segs).
  { destruct (Clean_rooted ("/" +:+ urlPath) eq_refl) as (segs & Hp & He & _). exists segs. split; [done|]. unfold requested. by rewrite He. }
  unfold precompressed in H.
  destruct (Hn ".br" "br" (acceptsEncoding accept "br")) as [Hb|(f & e & c & Hb)]; rewrite Hb in H.
  - destruct (Hn ".gz" "gzip" (acceptsEncoding accept "gzip")) as [Hg|(f & e & c & Hg)]; rewrite Hg in H; [done|].
    injection H as -> -> ->. destruct (Hc _ _ _ _ _ _ Hg) as (Ha & Hf & -> & -> & ->). repeat (split; [done|]). split; [by right|done].
  - injection H as -> -> ->. destruct (Hc _ _ _ _ _ _ Hb) as (Ha & Hf & -> & -> & ->). repeat (split; [done|]). split; [by left|done].
Qed.

Lemma precompressed_accepted_witness :
  let is_file f := String.eqb f "js/app.js.gz" in
  exists calls ct, HandlerWithOptions (mkOptions "" false) is_file (fun _ => "") "GET" "js/../js/app.js" "br;q=1, gzip" = (calls, Precompressed "js/app.js.gz" "gzip" ct) /\
  is_file "js/app.js.gz" = true /\ acceptsEncoding "br;q=1, gzip" "gzip" = true /\ ct = mimeTypeByOriginal (fun _ => "") (requested "js/../js/app.js") /\
  (("js/app.js.gz" = requested "js/../js/app.js" +:+ ".br" /\ "gzip" = "br") \/ ("js/app.js.gz" = requested "js/../js/app.js" +:+ ".gz" /\ "gzip" = "gzip")) /\
  exists segs, Forall plain segs /\ requested "js/../js/app.js" = String.concat "/" segs.
Proof.
  intros is_file. eexists _, _. split; [vm_compute; reflexivity|].
  eapply (precompressed_accepted (mkOptions "" false) is_file (fun _ => "") "GET" "js/../js/app.js" "br;q=1, gzip"). vm_compute. reflexivity.
Defined.

(** An encoding that the client refuses, with the quality 0, counts as accepted. *)
Theorem refused_encoding_accepted : acceptsEncoding "gzip;q=0" "gzip" = true.
Proof. reflexivity. Qed.

(** The loop over the suffixes ends with a name that has none of them. *)
Theorem strip_compressed_done s : HasSuffix (strip_compressed (String.length s) s) ".br" = false /\ HasSuffix (strip_compressed (String.length s) s) ".gz" = false.
Proof.
  assert (Hlen : forall s suf, HasSuffix s suf = true -> String.length (TrimSuffix s suf) = (String.length s - String.length suf)%nat).
  { intros t suf (p & ->)%HasSuffix_spec. rewrite TrimSuffix_app, string_length_app. lia. }
  assert (Hle : forall s suf, (String.length (TrimSuffix s suf) <= String.length s)%nat).
  { intros t suf. destruct (HasSuffix t suf) eqn:H; [rewrite Hlen by done; lia|]. unfold TrimSuffix. by rewrite H. }
  assert (Hsuf : forall s suf, HasSuffix s suf = true -> (String.length suf <= String.length s)%nat).
  { intros t suf (p & ->)%HasSuffix_spec. rewrite string_length_app. lia. }
  enough (Hgen : forall fuel t, (String.length t <= fuel)%nat -> HasSuffix (strip_compressed fuel t) ".br" = false /\ HasSuffix (strip_compressed fuel t) ".gz" = false) by (by apply Hgen).
  induction fuel as [|fuel IH]; intros t Hl; [by destruct t; [|cbn in Hl; lia]|]. cbn [strip_compressed].
  destruct (HasSuffix t ".br") eqn:Hb; cbn [orb].
  - apply IH. pose proof (Hlen _ _ Hb) as H1. pose proof (Hsuf _ _ Hb) as H2. pose proof (Hle (TrimSuffix t ".br") ".gz") as H3. cbn [String.length] in *. lia.
  - destruct (HasSuffix t ".gz") eqn:Hg; [|done]. apply IH. assert (TrimSuffix t ".br" = t) as -> by (unfold TrimSuffix; by rewrite Hb).
    pose proof (Hlen _ _ Hg) as H1. pose proof (Hsuf _ _ Hg) as H2. cbn [String.length] in *. lia.
Qed.
