(* ===== verification/Server.v ===== *)
(** * The server ([server/server.go], [server/certrenewer.go])

    [ListenAndServeWithContext] in two parts: [startup], which opens what the
    configuration asks for, over the answers of the network and of the certificate
    services; and [serve_loop], the [select] that waits, over the events in the
    order in which they are taken.  [Resources] is what is open.  The checks of the
    redirect from port 80, the wait for a certificate and the forced renewal of
    [autocert] are written out; its manager and the file system are arguments. *)

From stdpp Require Import list numbers strings gmap.
From S2P Require Import Prelude GoStrings Utf8 Paths Ip Config.

#[local] Open Scope list_scope.

(** ** The redirect *)



(** [net.SplitHostPort]; [None] is an error. *)
Definition SplitHostPort (hostport : string) : option (string * string) :=
  match cut_last_byte ":" hostport with
  | None => None
  | Some (before, port) =>
      match hostport with
      | String c rest =>
          if Ascii.eqb c "[" then
            match cut_byte "]" rest with
            | None => None
            | Some (host, after) =>
                (* the colon behind the bracket must be the last one *)
                if String.eqb after (String ":" port) then
                  if string_has "[" rest || string_has "]" after then None else Some (host, port)
                else None
            end
          else if string_has ":" before then None
          else if string_has "[" hostport || string_has "]" hostport then None
          else Some (before, port)
      | "" => None
      end
  end.

Definition isValidRequestURI (uri : string) : bool :=
  forallb (fun c => negb (((c <? 32) && negb (c =? 9)) || (c =? 127))) (runes uri).

Definition control_free (s : string) : bool := forallb (fun c => negb ((c <? 32) || (c =? 127))) (runes s).

Definition port_valid (portStr : string) : bool :=
  String.eqb portStr "" || match Atoi portStr with Some port => (0 <? port) && (port <=? 65535) | None => false end.

(** An address in brackets, with or without a zone. *)
Definition bracketed (hostPart : string) : bool := HasPrefix hostPart "[" && HasSuffix hostPart "]".

Definition bracket_valid (hostPart : string) : bool :=
  if strlen hostPart <? 3 then false
  else
    let ipv6Part := str_take (String.length hostPart - 2) (str_drop 1 hostPart) in
    let ipv6Part := match cut_byte "%" ipv6Part with Some (a, _) => a | None => ipv6Part end in
    match ParseIP ipv6Part with Some _ => true | None => false end.

Definition isValidHost (host : string) : bool :=
  if String.eqb host "" then false
  else
    match (match SplitHostPort host with Some (h, p) => if port_valid p then Some h else None | None => Some host end) with
    | None => false
    | Some hostPart =>
        if String.eqb hostPart "" then false
        else if bracketed hostPart && negb (bracket_valid hostPart) then false
        else if negb (control_free hostPart) then false
        else negb (Contains host "://" || HasPrefix host "/")
    end.

Inductive redirect := BadRequest | MovedPermanently (target : string).

Definition httpRedirectHandler (host reqURI : string) : redirect :=
  if negb (isValidHost host) then BadRequest
  else if negb (isValidRequestURI reqURI) then BadRequest
  else MovedPermanently ("https://" +:+ host +:+ reqURI).

(** ** TLS files *)

(** [os.Stat]: what a file is. *)
Inductive stat := NotExist | NoAccess | Dir | File (perm : Z).

Inductive tls_problem := TLSMissing (path : string) | TLSNoAccess (path : string) | TLSDirectory (path : string) | TLSPermissive (path : string).

Definition stat_problem (path : string) (s : stat) : option tls_problem :=
  match s with
  | NotExist => Some (TLSMissing path)
  | NoAccess => Some (TLSNoAccess path)
  | Dir => Some (TLSDirectory path)
  | File _ => None
  end.

Definition validateTLSFiles (windows : bool) (Stat : string -> stat) (certFile keyFile : string) : option tls_problem :=
  match stat_problem certFile (Stat certFile) with
  | Some e => Some e
  | None =>
      match stat_problem keyFile (Stat keyFile) with
      | Some e => Some e
      | None =>
          match Stat keyFile with
          | File perm => if negb windows && negb (Z.land perm 63 =? 0) then Some (TLSPermissive keyFile) else None
          | _ => None
          end
      end
  end.

(** Whether the text of the problem says so: it does for the permissions, and for
    a path that has these words. *)
Definition says_permissive (e : tls_problem) : bool :=
  match e with
  | TLSPermissive _ => true
  | TLSMissing p | TLSNoAccess p | TLSDirectory p => Contains p "overly permissive permissions"
  end.

(** ** Certificates *)

Inductive renewer := DNS01Renewer | AutocertRenewer (domain cacheDir : string).

Definition ChallengeType (r : renewer) : string := match r with DNS01Renewer => "dns-01" | AutocertRenewer _ _ => "http-01" end.

Section autocert.
Context {W E : Type}.
(** Removing a file; the manager, which gives the expiry of the certificate. *)
Context (Remove : string -> W -> W * option E) (GetCertificate : string -> W -> W * result E Time).

Definition ForceRenewal (domain cacheDir : string) (w : W) : W * result E Time :=
  let w := if negb (String.eqb cacheDir "") then (Remove (Join [cacheDir; domain]) w).1 else w in
  GetCertificate domain w.

Context (Now : W -> Time) (ctx_Err : W -> option E) (sleep : Duration -> W -> W * option E) (timed_out : E -> E).

(** [deadline] is the earlier of the timeout and of the context's own; [None]: out of fuel. *)
Fixpoint wait_loop (fuel : nat) (host : string) (deadline : Time) (w : W) : option (W * option E) :=
  match fuel with
  | O => None
  | S fuel =>
    match ctx_Err w with
    | Some e => Some (w, Some e)
    | None =>
      match GetCertificate host w with
      | (w, Ok _) => Some (w, None)
      | (w, Err e) =>
        if time_After (Now w) deadline then Some (w, Some (timed_out e))
        else
          match sleep Second w with
          | (w, Some e) => Some (w, Some e)
          | (w, None) => wait_loop fuel host deadline w
          end
      end
    end
  end.

Definition wait_deadline (timeout : Duration) (ctxDeadline : option Time) (w : W) : Time :=
  let deadline := time_Add (Now w) timeout in
  match ctxDeadline with Some d => if time_Before d deadline then d else deadline | None => deadline end.

Definition waitForCert (fuel : nat) (host : string) (timeout : Duration) (ctxDeadline : option Time) (w : W) : option (W * option E) :=
  wait_loop fuel host (wait_deadline timeout ctxDeadline w) w.
End autocert.

(** ** Starting *)

(** A server of [net/http]: whether it takes connections, and its handlers that run. *)
Record Http := mkHttp { accepting : bool; handlers : nat }.

(** [aux], [primary]: the servers that were started.  [base_open]: the listener;
    [tracked]: whether [Serve] has got as far as to register it. *)
Record Resources := mkResources {
  aux : option Http;
  primary : option Http;
  base_open : bool;
  tracked : bool;
  renewing : bool; (* the background renewal of dns-01 *)
  cert_renewer : option renewer; (* [SetCertRenewer] *)
  whitelist : option string (* the host that autocert gives certificates for *)
}.

Definition nothing : Resources := mkResources None None false false false None None.

Definition with_aux (h : option Http) (r : Resources) : Resources :=
  mkResources h (primary r) (base_open r) (tracked r) (renewing r) (cert_renewer r) (whitelist r).
Definition with_primary (h : option Http) (r : Resources) : Resources :=
  mkResources (aux r) h (base_open r) (tracked r) (renewing r) (cert_renewer r) (whitelist r).
Definition with_listener (base tr : bool) (r : Resources) : Resources :=
  mkResources (aux r) (primary r) base tr (renewing r) (cert_renewer r) (whitelist r).

(** [Shutdown]: no more connections; [left] handlers still run when it returns.
    [Close] does not wait for handlers. *)
Definition stop_accepting (left : Http -> nat) (h : Http) : Http := mkHttp false (left h).

(** [cleanupListener]. *)
Definition cleanupListener (r : Resources) : Resources := with_listener false (tracked r) r.

(** [Shutdown] and [Close] of the primary server also close the listener, if it is
    registered. *)
Definition srv_Shutdown (left : nat) (r : Resources) : Resources :=
  with_listener (base_open r && negb (tracked r)) (tracked r) (with_primary (stop_accepting (fun _ => left) <$> primary r) r).
Definition srv_Close (r : Resources) : Resources :=
  with_listener (base_open r && negb (tracked r)) (tracked r) (with_primary (stop_accepting handlers <$> primary r) r).

(** [StopBackgroundRenewal], a deferred call. *)
Definition StopBackgroundRenewal (r : Resources) : Resources :=
  mkResources (aux r) (primary r) (base_open r) (tracked r) false (cert_renewer r) (whitelist r).

(** [shutdownAux] under a deadline, after which [left] handlers still run; [auxSrv]:
    whether that variable is not nil. *)
Definition shutdownAux (auxSrv : bool) (left : nat) (r : Resources) : Resources :=
  if auxSrv then with_aux (stop_accepting (fun _ => left) <$> aux r) r else r.

(** [shutdownAux] without a deadline waits for the handlers: whether it returns,
    where [drains] says whether those that run end. *)
Definition shutdownAux_wait (drains auxSrv : bool) (r : Resources) : bool * Resources :=
  if auxSrv then
    let returns := drains || forallb (fun h => Nat.eqb (handlers h) 0) (option_list (aux r)) in
    (returns, with_aux (stop_accepting (fun h => if returns then O else handlers h) <$> aux r) r)
  else (true, r).

Section server.
Context {E : Type}.

(** What is asked of the surroundings, each thing once: listening, the manager of
    dns-01, its first certificate, the files of the certificate; [a_drains]: whether
    the requests to port 80 end. *)
Record Answers := mkAnswers {
  a_listen : option E; a_manager : option E; a_prewarm : option E; a_keypair : option E;
  a_stat : string -> stat; a_windows : bool; a_drains : bool
}.

Inductive server_error :=
| NilHandler | ListenHTTP (e : E) | ListenHTTPS (e : E) | Manager (e : E) | PreWarm (e : E) | NoFiles | TLSFiles (p : tls_problem)
| ProductionSecurity (p : tls_problem) | LoadKeyPair (e : E) | ShutdownFailed (e : E) | PrimaryFailed (e : E) | AuxiliaryFailed (e : E).

(** The listener and the primary server on top of what runs already. *)
Definition listening (r : Resources) : Resources := with_listener true false (with_primary (Some (mkHttp true 0)) r).

(** A way out after port 80 was opened: it is stopped again, which waits for the
    [n] requests that it has by then, and the deferred calls run. *)
Definition abandon (a : Answers) (n : nat) (e : server_error) (r : Resources) : option (result server_error unit) * Resources :=
  match shutdownAux_wait (a_drains a) true (with_aux (Some (mkHttp true n)) r) with
  | (true, r) => (Some (Err e), StopBackgroundRenewal r)
  | (false, r) => (None, r)
  end.

(** [n]: the requests to port 80 that run where it has to be stopped.  [None]: the
    call does not return. *)
Definition startup (cfg : CoreConfig) (a : Answers) (n : nat) : option (result server_error unit) * Resources :=
  let t := c_TLS cfg in
  if negb (UseHTTPS (c_HTTP cfg)) then
    match a_listen a with
    | Some e => (Some (Err (ListenHTTP e)), nothing)
    | None => (Some (Ok tt), listening nothing)
    end
  else if UseLetsEncrypt t then
    if String.eqb (LetsEncryptChallenge t) "dns-01" then
      match a_manager a with
      | Some e => (Some (Err (Manager e)), nothing)
      | None =>
        match a_prewarm a with
        | Some e => (Some (Err (PreWarm e)), nothing)
        | None =>
          let r := mkResources (Some (mkHttp true 0)) None false false true (Some DNS01Renewer) None in
          match a_listen a with
          | Some e => abandon a n (ListenHTTPS e) r
          | None => (Some (Ok tt), listening r)
          end
        end
      end
    else
      let r := mkResources (Some (mkHttp true 0)) None false false false (Some (AutocertRenewer (Domain t) (LetsEncryptCacheDir t))) (Some (Domain t)) in
      match a_listen a with
      | Some e => abandon a n (ListenHTTPS e) r
      | None => (Some (Ok tt), listening r)
      end
  else if String.eqb (CertFile t) "" || String.eqb (KeyFile t) "" then (Some (Err NoFiles), nothing)
  else
    let problem := validateTLSFiles (a_windows a) (a_stat a) (CertFile t) (KeyFile t) in
    match (match problem with
           | Some p => if says_permissive p then (if String.eqb (c_Env cfg) "prod" then Some (ProductionSecurity p) else None)
                       else Some (TLSFiles p)
           | None => None
           end) with
    | Some e => (Some (Err e), nothing)
    | None =>
      let r := mkResources (Some (mkHttp true 0)) None false false false None None in
      match a_keypair a with
      | Some e => abandon a n (LoadKeyPair e) r
      | None =>
        match a_listen a with
        | Some e => abandon a n (ListenHTTPS e) r
        | None => (Some (Ok tt), listening r)
        end
      end
    end.

(** ** Waiting *)

(** What [Shutdown] under a deadline comes to: the handlers of the primary server
    have ended, with what closing the listener gave, or its time is over. *)
Inductive drained := Drained (err : option E) | Expired (left : nat) (e : E).

(** What happens while the server waits: [Serve] registers the listener; requests
    come and go ([p] run on the primary server now, [a] on port 80); and what the
    [select] takes: [EvDone], the context was done, with what the two [Shutdown]s
    come to; [EvPrimary], [EvAux], what a server ended with, [None] for
    [http.ErrServerClosed]. *)
Inductive event :=
| EvServing | EvRequests (p a : nat)
| EvDone (aux_left : nat) (d : drained) | EvPrimary (err : option E) | EvAux (err : option E).

(** A server that takes no more connections has no more handlers than before. *)
Definition run_handlers (n : nat) (h : Http) : Http := mkHttp (accepting h) (if accepting h then n else Nat.min n (handlers h)).

(** [Serve] has ended: it closed its listener, and its handlers run on. *)
Definition primary_ended (r : Resources) : Resources := with_listener false (tracked r) (with_primary (stop_accepting handlers <$> primary r) r).
Definition aux_ended (r : Resources) : Resources := with_aux (stop_accepting handlers <$> aux r) r.

Definition drained_left (d : drained) : nat := match d with Drained _ => O | Expired n _ => n end.
Definition drained_error (d : drained) : option E := match d with Drained err => err | Expired _ e => Some e end.

(** [auxSrv]: whether the variable, and with it the channel of port 80, is not nil.
    The result is the error, and whether it was the context that ended it; [None]:
    the call has not returned. *)
Fixpoint serve_loop (drains auxSrv : bool) (events : list event) (r : Resources) : option (option server_error * bool) * Resources :=
  match events with
  | [] => (None, r)
  | EvServing :: events => serve_loop drains auxSrv events (with_listener (base_open r) true r)
  | EvRequests p a :: events =>
      serve_loop drains auxSrv events (with_aux (run_handlers a <$> aux r) (with_primary (run_handlers p <$> primary r) r))
  | EvDone aux_left d :: _ =>
      let r := shutdownAux auxSrv aux_left r in
      let r := srv_Shutdown (drained_left d) r in
      match drained_error d with
      | Some e => (Some (Some (ShutdownFailed e), true), StopBackgroundRenewal (cleanupListener r))
      | None => (Some (None, true), StopBackgroundRenewal (cleanupListener r))
      end
  | EvPrimary err :: _ =>
      let r := primary_ended r in
      match err with
      | Some e =>
          match shutdownAux_wait drains auxSrv r with
          | (true, r) => (Some (Some (PrimaryFailed e), false), StopBackgroundRenewal (cleanupListener r))
          | (false, r) => (None, r)
          end
      | None =>
          match shutdownAux_wait drains auxSrv r with
          | (true, r) => (Some (None, false), StopBackgroundRenewal (cleanupListener r))
          | (false, r) => (None, r)
          end
      end
  | EvAux err :: events =>
      if auxSrv then
        let r := aux_ended r in
        match err with
        | Some e => (Some (Some (AuxiliaryFailed e), false), StopBackgroundRenewal (cleanupListener (srv_Close r)))
        | None => serve_loop drains false events r
        end
      else serve_loop drains auxSrv events r
  end.

Definition aux_started (r : Resources) : bool := match aux r with Some _ => true | None => false end.

Definition ListenAndServe (cfg : CoreConfig) (nil_handler : bool) (a : Answers) (n : nat) (events : list event)
  : option (option server_error * bool) * Resources :=
  if nil_handler then (Some (Some NilHandler, false), nothing)
  else
    match startup cfg a n with
    | (None, r) => (None, r)
    | (Some (Err e), r) => (Some (Some e, false), r)
    | (Some (Ok _), r) => serve_loop (a_drains a) (aux_started r) events r
    end.
End server.

(** ** Lemmas *)

Lemma forallb_no_control (p : Z -> bool) c s :
  is_ascii c = true -> p (byte_code c) = false -> forallb p (runes s) = true -> string_has c s = false.
Proof.
  intros Ha Hp Hs. apply not_true_is_false. intros H%(runes_has c s Ha). rewrite forallb_forall in Hs.
  apply list_elem_of_In, Hs in H. congruence.
Qed.

Lemma Atoi_has c s z : Atoi s = Some z -> is_digit c = false -> c <> "+"%char -> c <> "-"%char -> string_has c s = false.
Proof.
  intros H Hd Hp Hm.
  assert (Hdig : forall t acc n, parse_digits t acc = Some n -> string_has c t = false).
  { induction t as [|d t IH]; intros acc n Ht; [done|]. cbn in Ht |- *. destruct (is_digit d) eqn:Hdd; [|done].
    destruct (Ascii.eqb_spec d c) as [->|_]; [congruence|]. by eapply IH. }
  unfold Atoi in H. destruct s as [|d s]; [done|]. cbn [string_has].
  assert (Hdc : Ascii.eqb d c = false \/ d = c) by (destruct (Ascii.eqb_spec d c); auto).
  destruct (Ascii.eqb_spec d "-") as [->|Hd1].
  - destruct s as [|e s]; [done|]. destruct (parse_digits (String e s) 0) eqn:He; [|done]. apply Hdig in He.
    destruct Hdc as [->|<-]; [done|done].
  - destruct (Ascii.eqb_spec d "+") as [->|Hd2].
    + destruct s as [|e s]; [done|]. destruct (parse_digits (String e s) 0) eqn:He; [|done]. apply Hdig in He.
      destruct Hdc as [->|<-]; [done|done].
    + destruct (parse_digits (String d s) 0) eqn:He; [|done]. by apply Hdig in He.
Qed.

Lemma cut_last_whole c s a b : cut_last_byte c s = Some (a, b) -> s = a +:+ String c b.
Proof.
  revert a. induction s as [|d s IH]; intros a H; [done|]. cbn [cut_last_byte] in H. destruct (cut_last_byte c s) as [[x y]|].
  - injection H as <- ->. change (String d s = String d (x +:+ String c b)). f_equal. by apply IH.
  - destruct (Ascii.eqb_spec d c) as [->|_]; [|done]. by injection H as <- <-.
Qed.

Lemma SplitHostPort_has c host h p : SplitHostPort host = Some (h, p) ->
  c <> ":"%char -> c <> "["%char -> c <> "]"%char -> string_has c h = false -> string_has c p = false -> string_has c host = false.
Proof.
  intros H H1 H2 H3 Hh Hp. unfold SplitHostPort in H. destruct (cut_last_byte ":" host) as [[before port]|] eqn:Hcut; [|done].
  assert (Hne : forall d, c <> d -> Ascii.eqb d c = false) by (intros d Hd; apply Ascii.eqb_neq; congruence).
  destruct host as [|a rest]; [done|]. destruct (Ascii.eqb_spec a "[") as [->|Ha].
  - destruct (cut_byte "]" rest) as [[hst after]|] eqn:Hb; [|done]. destruct (String.eqb_spec after (String ":" port)) as [->|]; [|done].
    destruct (_ || _); [done|]. injection H as -> ->. apply cut_byte_some in Hb as [-> _].
    cbn [string_has]. rewrite string_has_app. cbn [string_has]. by rewrite Hh, Hp, !Hne by done.
  - destruct (string_has ":" before); [done|]. destruct (_ || _); [done|]. injection H as -> ->.
    rewrite (cut_last_whole _ _ _ _ Hcut), string_has_app. cbn [string_has]. by rewrite Hh, Hp, Hne.
Qed.

(** A host that is accepted holds no control character. *)
Lemma isValidHost_has c host : isValidHost host = true -> byte_code c < 32 \/ byte_code c = 127 -> string_has c host = false.
Proof.
  intros H Hc. unfold isValidHost in H. destruct (String.eqb host ""); [done|].
  assert (Hh : forall h, control_free h = true -> string_has c h = false).
  { intros h. apply forallb_no_control; [unfold is_ascii; lia|]. pose proof (byte_code_range c). lia. }
  assert (Hne : forall d, 32 <= byte_code d < 127 -> c <> d) by (intros d Hd ->; lia).
  destruct (SplitHostPort host) as [[h p]|] eqn:Hs.
  - destruct (port_valid p) eqn:Hp; [|done]. destruct (String.eqb h ""); [done|]. destruct (_ && _); [done|].
    destruct (control_free h) eqn:Hf; [|done]. eapply SplitHostPort_has; [done|by apply Hne..| |]; [by apply Hh|].
    unfold port_valid in Hp. destruct (String.eqb_spec p "") as [->|_]; [done|]. destruct (Atoi p) eqn:Ha; [|done].
    eapply Atoi_has; [done| |by apply Hne..]. unfold is_digit. lia.
  - destruct (String.eqb host ""); [done|]. destruct (_ && _); [done|]. destruct (control_free host) eqn:Hf; [|done]. by apply Hh.
Qed.

(** Nothing listens and nothing is renewed. *)
Definition closed (h : option Http) : Prop := match h with Some h => accepting h = false | None => True end.

Definition released (r : Resources) : Prop :=
  closed (aux r) /\ closed (primary r) /\ base_open r = false /\ renewing r = false.

Lemma closed_stop left h : closed (stop_accepting left <$> h).
Proof. by destruct h. Qed.

Lemma closed_run n h : closed h -> closed (run_handlers n <$> h).
Proof. by destruct h. Qed.

#[local] Hint Resolve closed_stop closed_run : core.

(** The primary server when the call returns: stopped, and without handlers where
    its shutdown did not report an error. *)
Definition idle (h : option Http) : Prop := match h with Some h => handlers h = O | None => True end.

Lemma shutdownAux_wait_closed drains auxSrv r ok r' :
  shutdownAux_wait drains auxSrv r = (ok, r') -> (auxSrv = false -> closed (aux r)) ->
  closed (aux r') /\ primary r' = primary r /\ (drains = true -> ok = true).
Proof.
  unfold shutdownAux_wait. destruct auxSrv; intros [= <- <-] Hc.
  - split; [apply closed_stop|]. split; [done|]. by intros ->.
  - split; [by apply Hc|done].
Qed.

(** The ways in which the loop returns. *)
Lemma serve_loop_end {E : Type} drains auxSrv (events : list (event (E := E))) r o r' :
  serve_loop drains auxSrv events r = (Some o, r') -> (auxSrv = false -> closed (aux r)) ->
  released r' /\ (o = (None, true) -> idle (primary r')).
Proof.
  revert auxSrv r. induction events as [|ev events IH]; intros auxSrv r H Hc; [done|]. cbn [serve_loop] in H.
  assert (Hp : forall ok r1, shutdownAux_wait drains auxSrv (primary_ended r) = (ok, r1) -> released (StopBackgroundRenewal (cleanupListener r1))).
  { intros ok r1 (H1 & H2 & _)%shutdownAux_wait_closed; [|done]. repeat split; [done|]. cbn [primary StopBackgroundRenewal cleanupListener with_listener]. rewrite H2. apply closed_stop. }
  destruct ev as [|p n|left d|[e|]|err].
  - eapply IH; [exact H|done].
  - eapply IH; [exact H|]. intros Ha. by apply closed_run, Hc.
  - assert (Hr : released (StopBackgroundRenewal (cleanupListener (srv_Shutdown (drained_left d) (shutdownAux auxSrv left r))))).
    { repeat split; [|apply closed_stop]. unfold shutdownAux. destruct auxSrv; [apply closed_stop|by apply Hc]. }
    destruct d as [[e|]|k e]; cbn [drained_error] in H; injection H as <- <-; (split; [exact Hr|]); try discriminate.
    intros _. cbn. unfold shutdownAux. destruct auxSrv; cbn; by destruct (primary r).
  - destruct (shutdownAux_wait _ _ _) as [[] r1] eqn:Hw; [|done]. injection H as <- <-. split; [by eapply Hp|discriminate].
  - destruct (shutdownAux_wait _ _ _) as [[] r1] eqn:Hw; [|done]. injection H as <- <-. split; [by eapply Hp|discriminate].
  - destruct auxSrv; [|by eapply IH]. destruct err as [e|].
    + injection H as <- <-. split; [|discriminate]. repeat split; apply closed_stop.
    + eapply IH; [exact H|]. intros _. apply closed_stop.
Qed.

Lemma serve_loop_done {E : Type} drains auxSrv (events : list (event (E := E))) r err r' :
  serve_loop drains auxSrv events r = (Some (err, true), r') ->
  exists left d, EvDone left d ∈ events /\ err = ShutdownFailed <$> drained_error d.
Proof.
  revert auxSrv r. induction events as [|ev events IH]; intros auxSrv r H; [done|]. cbn [serve_loop] in H.
  assert (Hrec : forall a r0, serve_loop drains a events r0 = (Some (err, true), r') ->
    exists left d, EvDone left d ∈ ev :: events /\ err = ShutdownFailed <$> drained_error d).
  { intros a r0 (l & d & Hs & ?)%IH. exists l, d. split; [by right|done]. }
  destruct ev as [|p n|left d|[e|]|er].
  - by eapply Hrec.
  - by eapply Hrec.
  - exists left, d. split; [by left|]. destruct (drained_error d); by injection H as <- _.
  - by destruct (shutdownAux_wait _ _ _) as [[] ?].
  - by destruct (shutdownAux_wait _ _ _) as [[] ?].
  - destruct auxSrv; [|by eapply Hrec]. destruct er; [done|by eapply Hrec].
Qed.

(** Without the context: the error of a server, or that the primary one was closed. *)
Lemma serve_loop_failed {E : Type} drains auxSrv (events : list (event (E := E))) r err :
  (serve_loop drains auxSrv events r).1 = Some (err, false) -> err <> None \/ EvPrimary None ∈ events.
Proof.
  revert auxSrv r. induction events as [|ev events IH]; intros auxSrv r H; [done|]. cbn [serve_loop] in H.
  assert (Hrec : forall a r0, (serve_loop drains a events r0).1 = Some (err, false) -> err <> None \/ EvPrimary None ∈ ev :: events).
  { intros a r0 [He|He]%IH; [by left|right; by right]. }
  destruct ev as [|p n|left d|[e|]|er].
  - by eapply Hrec.
  - by eapply Hrec.
  - by destruct (drained_error d).
  - destruct (shutdownAux_wait _ _ _) as [[] ?]; [|done]. injection H as <-. by left.
  - right. by left.
  - destruct auxSrv; [|by eapply Hrec]. destruct er; [injection H as <-; by left|by eapply Hrec].
Qed.

Definition ends {E : Type} (ev : event (E := E)) : Prop := match ev with EvDone _ _ | EvPrimary _ => True | _ => False end.

Lemma serve_loop_returns {E : Type} auxSrv (events : list (event (E := E))) r ev :
  ev ∈ events -> ends ev -> (serve_loop true auxSrv events r).1 <> None.
Proof.
  revert auxSrv r. induction events as [|e events IH]; intros auxSrv r Hin Hev; [by apply not_elem_of_nil in Hin|]. cbn [serve_loop].
  assert (Hw : forall r0, exists r1, shutdownAux_wait true auxSrv r0 = (true, r1)) by (intros r0; unfold shutdownAux_wait; destruct auxSrv; eauto).
  apply elem_of_cons in Hin as [<-|Hin].
  - destruct ev as [|? ?|? d|[?|]|?]; try done; [by destruct (drained_error d)| |]; by destruct (Hw (primary_ended r)) as [r1 ->].
  - destruct e as [|? ?|? d|[?|]|er]; try (by apply IH); [by destruct (drained_error d)| | |];
      [by destruct (Hw (primary_ended r)) as [r1 ->]..|]. destruct auxSrv; [|by apply IH]. destruct er; [done|by apply IH].
Qed.

Lemma abandon_end {E : Type} (a : Answers (E := E)) n e r o r' :
  abandon a n e r = (Some o, r') -> primary r = None -> base_open r = false -> o = Err e /\ released r'.
Proof.
  unfold abandon. intros H Hp Hb. destruct (shutdownAux_wait _ _ _) as [[] r1] eqn:Hw; [|done]. injection H as <- <-. split; [done|].
  unfold shutdownAux_wait in Hw. injection Hw as _ <-. repeat split; cbn; [by rewrite Hp|done].
Qed.

Lemma startup_released {E : Type} cfg (a : Answers (E := E)) n e r : startup cfg a n = (Some (Err e), r) -> released r.
Proof.
  assert (Hn : released nothing) by done.
  unfold startup. intros H. repeat case_match; simplify_eq; try done;
    (apply abandon_end in H as [_ ?]; [done..|]); done.
Qed.

(** The wait ends, when sleeping takes its time and asking does not turn the clock
    back. *)
Lemma wait_loop_returns {W E : Type} (GetCertificate : string -> W -> W * result E Time) (Now : W -> Time) ctx_Err sleep (timed_out : E -> E)
    fuel host deadline w :
  (forall h w, Now w <= Now (GetCertificate h w).1) ->
  (forall d w w', sleep d w = (w', None) -> Now w + d <= Now w') ->
  deadline - Now w < Z.of_nat fuel * Second ->
  wait_loop GetCertificate Now ctx_Err sleep timed_out (S fuel) host deadline w <> None.
Proof.
  intros Hg Hs. revert w. induction fuel as [|fuel IH]; intros w Hd; cbn [wait_loop].
  - destruct (ctx_Err w); [done|]. specialize (Hg host w). destruct (GetCertificate host w) as [w1 [t|e]]; [done|]. cbn [fst] in Hg.
    unfold time_After. rewrite (proj2 (Z.ltb_lt _ _)) by lia. done.
  - destruct (ctx_Err w); [done|]. pose proof (Hg host w) as Hg'. destruct (GetCertificate host w) as [w1 [t|e]]; [done|]. cbn [fst] in Hg'.
    destruct (time_After (Now w1) deadline); [done|]. destruct (sleep Second w1) as [w2 [e'|]] eqn:Hsl; [done|].
    apply Hs in Hsl. apply IH. unfold Second in *. lia.
Qed.

(** ** Theorems *)

(** C23. The redirect from port 80 is safe: whatever the host and the target of the
    request, it is refused, or sent to [https://], the host and the target, in
    which there is no control character but the tab: no header can be injected. *)
Theorem redirect_safe host reqURI c :
  byte_code c < 32 \/ byte_code c = 127 ->
  httpRedirectHandler host reqURI = BadRequest \/
  exists rest, httpRedirectHandler host reqURI = MovedPermanently ("https://" +:+ rest) /\ rest = host +:+ reqURI /\
    (c <> "009"%char -> string_has c rest = false) /\ HasPrefix host "/" = false.
Proof.
  intros Hc. unfold httpRedirectHandler. destruct (isValidHost host) eqn:Hh; [|by left]. destruct (isValidRequestURI reqURI) eqn:Hu; [|by left].
  right. exists (host +:+ reqURI). split; [done|]. split; [done|]. split.
  - intros Ht. rewrite string_has_app, (isValidHost_has c host Hh Hc). cbn [orb].
    eapply forallb_no_control; [unfold is_ascii; lia| |exact Hu]. pose proof (byte_code_range c).
    assert (byte_code c <> 9) by (intros H9; apply Ht, byte_code_inj; by rewrite H9). lia.
  - unfold isValidHost in Hh. destruct (HasPrefix host "/"); [|done]. rewrite orb_true_r in Hh. cbn [negb] in Hh.
    repeat (case_match; try done).
Qed.

Lemma redirect_safe_witness :
  httpRedirectHandler "example.com:8080" "/a?b=c" = MovedPermanently "https://example.com:8080/a?b=c" /\
  (httpRedirectHandler ("x" +:+ String "010" "y") "/" = BadRequest \/
   exists rest, httpRedirectHandler ("x" +:+ String "010" "y") "/" = MovedPermanently ("https://" +:+ rest) /\ rest = ("x" +:+ String "010" "y") +:+ "/" /\
     ("010"%char <> "009"%char -> string_has "010" rest = false) /\ HasPrefix ("x" +:+ String "010" "y") "/" = false).
Proof. split; [by vm_compute|]. apply (redirect_safe ("x" +:+ String "010" "y") "/" "010"). left. by vm_compute. Defined.

(** C10. What the server leaves when [ListenAndServeWithContext] returns, whatever
    the configuration, the answers of the network and the events: no server takes
    connections, no listener is open and no background renewal goes on; a graceful
    stop (by the context and without an error) has also waited for the requests of
    the primary server.  The call returns when the context is done or the primary
    server has ended, provided that the requests to port 80 end; and when it was the
    context it gives no error but that of [Shutdown]. *)
Theorem serve_releases {E : Type} cfg nil_handler (a : Answers (E := E)) n events :
  (forall o r, ListenAndServe cfg nil_handler a n events = (Some o, r) ->
     released r /\ (o = (None, true) -> idle (primary r))) /\
  (forall ev, a_drains a = true -> ev ∈ events -> ends ev -> (ListenAndServe cfg nil_handler a n events).1 <> None) /\
  (forall err r, ListenAndServe cfg nil_handler a n events = (Some (err, true), r) ->
     exists left d, EvDone left d ∈ events /\ err = ShutdownFailed <$> drained_error d).
Proof.
  unfold ListenAndServe. destruct nil_handler; [split; [by intros o r [= <- <-]|done]|].
  destruct (startup cfg a n) as [[[[]|e]|] r0] eqn:Hs; (split; [|split]); try done.
  - intros o r H. eapply serve_loop_end; [exact H|]. unfold aux_started. by destruct (aux r0).
  - intros ev ->. apply serve_loop_returns.
  - intros err r. apply serve_loop_done.
  - intros o r [= <- <-]. split; [by eapply startup_released|done].
  - intros ev Hd. exfalso. revert Hs. unfold startup, abandon, shutdownAux_wait. rewrite Hd. cbn [orb]. repeat case_match; congruence.
Qed.

Lemma serve_releases_witness :
  let cfg := mkCoreConfig "dev" "debug" (mkHTTPConfig 8080 443 false 15 10 60 120 15)
    (mkTLSConfig "" "" false "" "" "" [] "http-01" "" "") (mkCORSConfig false [] [] [] [] false 0)
    (mkSecurityConfig true "" "" "" "" 0 true false "" "") 10 120 0 true 5 in
  let a := mkAnswers (E := string) None None None None (fun _ => NotExist) false true in
  (ListenAndServe cfg false a 0 [EvServing; EvRequests 3 0; EvDone 0 (Drained None)]).1 <> None.
Proof.
  intros cfg a. destruct (serve_releases cfg false a 0 [EvServing; EvRequests 3 0; EvDone 0 (Drained None)]) as (_ & H & _).
  apply (H (EvDone 0 (Drained None))); [reflexivity| |exact I]. right. right. left.
Defined.

(** Where a server ends by itself its requests are not waited for: those of the
    primary server still run when the call has returned. *)
Theorem crash_leaves_requests {E : Type} drains auxSrv (e : E) r p n :
  primary r = Some (mkHttp true 0) -> (auxSrv = true -> drains = true \/ aux r = None) ->
  exists r', serve_loop drains auxSrv [EvServing; EvRequests p n; EvPrimary (Some e)] r = (Some (Some (PrimaryFailed e), false), r') /\
    primary r' = Some (mkHttp false p).
Proof.
  intros Hp Hd. cbn [serve_loop]. set (r1 := primary_ended _). assert (Hr1 : primary r1 = Some (mkHttp false p)) by (subst r1; cbn; by rewrite Hp).
  assert (Ha : aux r = None -> aux r1 = None) by (intros Hn; subst r1; cbn; by rewrite Hn).
  unfold shutdownAux_wait. destruct auxSrv; [|eexists; split; [reflexivity|done]].
  destruct (Hd eq_refl) as [->|Hn]; [eexists; split; [reflexivity|done]|]. rewrite (Ha Hn). cbn [option_list forallb]. rewrite orb_true_r.
  eexists. split; [reflexivity|done].
Qed.

Lemma crash_leaves_requests_witness :
  exists r', serve_loop true false [EvServing; EvRequests 7 0; EvPrimary (Some "accept failed")] (listening nothing)
      = (Some (Some (PrimaryFailed "accept failed"), false), r') /\ primary r' = Some (mkHttp false 7).
Proof. apply (crash_leaves_requests true false "accept failed" (listening nothing) 7 0); [reflexivity|discriminate]. Defined.

(** Waiting for a certificate ends within the seconds of its timeout, and
    without an error exactly when the last thing done was to get one. *)
Theorem waitForCert_returns {W E : Type} (GetCertificate : string -> W -> W * result E Time) (Now : W -> Time) ctx_Err sleep (timed_out : E -> E)
    n host ctxDeadline w :
  (forall h w, Now w <= Now (GetCertificate h w).1) ->
  (forall d w w', sleep d w = (w', None) -> Now w + d <= Now w') ->
  exists w' r, waitForCert GetCertificate Now ctx_Err sleep timed_out (S (S n)) host (Z.of_nat n * Second) ctxDeadline w = Some (w', r) /\
    (r = None -> exists w0 t, GetCertificate host w0 = (w', Ok t)).
Proof.
  intros Hg Hs. unfold waitForCert. set (dl := wait_deadline _ _ _ _).
  assert (Hdl : dl - Now w < Z.of_nat (S n) * Second).
  { subst dl. unfold wait_deadline, time_Add, time_Before. destruct ctxDeadline as [d|]; [destruct (Z.ltb_spec d (Now w + Z.of_nat n * Second))|]; unfold Second in *; lia. }
  pose proof (wait_loop_returns GetCertificate Now ctx_Err sleep timed_out (S n) host dl w Hg Hs Hdl) as H.
  assert (Hend : forall fuel w w', wait_loop GetCertificate Now ctx_Err sleep timed_out fuel host dl w = Some (w', None) ->
    exists w0 t, GetCertificate host w0 = (w', Ok t)).
  { intros fuel. clear H Hdl. induction fuel as [|fuel IH]; intros v v' H; [done|]. cbn [wait_loop] in H. destruct (ctx_Err v); [done|].
    destruct (GetCertificate host v) as [w1 [t|e]] eqn:Hgc; [injection H as <-; eauto|]. destruct (time_After _ _); [done|].
    destruct (sleep Second w1) as [w2 [e'|]]; [done|]. by eapply IH. }
  destruct (wait_loop _ _ _ _ _ _ _ _ _) as [[w' r]|] eqn:Hl; [|done]. exists w', r. split; [done|]. intros ->. by eapply Hend.
Qed.

Lemma waitForCert_returns_witness :
  exists w' r, waitForCert (E := unit) (fun _ w => (w, if w <? 3 * Second then Err tt else Ok 0)) (fun w => w) (fun _ => None) (fun d w => (w + d, None)) (fun e => e)
      62 "example.com" (Z.of_nat 60 * Second) None 0 = Some (w', r) /\
    (r = None -> exists w0 t, (fun (_ : string) w => (w, if w <? 3 * Second then Err tt else Ok 0)) "example.com" w0 = (w', Ok t)).
Proof.
  apply (waitForCert_returns (E := unit) (fun _ w => (w, if w <? 3 * Second then Err tt else Ok 0)) (fun w => w) (fun _ => None) (fun d w => (w + d, None)) (fun e => e)
    60 "example.com" None 0); [intros; cbn; lia|]. intros d w w' [= <-]. lia.
Defined.

(** With http-01 only [domain] is served: a configuration with [domains] instead
    passes the validation, and the manager is given no host at all. *)
Theorem http01_ignores_domains {E : Type} level_known url_Parse Quote cfg (a : Answers (E := E)) n r :
  validateCoreConfig level_known url_Parse Quote cfg "WAFFLE" = None ->
  UseLetsEncrypt (c_TLS cfg) = true -> LetsEncryptChallenge (c_TLS cfg) = "http-01" -> Domains (c_TLS cfg) <> [] ->
  startup cfg a n = (Some (Ok tt), r) ->
  EffectiveDomains (c_TLS cfg) = Domains (c_TLS cfg) /\ exists d, whitelist r = Some d /\ blank d = true.
Proof.
  intros Hv Hle Hch Hds Hs. apply validate_ok in Hv as (_ & _ & [Hacme _] & _). destruct (Hacme Hle) as [Hh (_ & _ & Hd & _)].
  split; [unfold EffectiveDomains; by destruct (Domains (c_TLS cfg))|]. exists (Domain (c_TLS cfg)). split; [|by apply Hd].
  unfold startup in Hs. rewrite Hh, Hle, Hch in Hs. cbn in Hs. destruct (a_listen a); [|by injection Hs as <-]. unfold abandon in Hs. cbn in Hs. by destruct (a_drains a || _).
Qed.

(** A key that others can read is only let through outside production. *)
Theorem insecure_key_refused {E : Type} cfg (a : Answers (E := E)) n perm r0 r :
  UseHTTPS (c_HTTP cfg) = true -> UseLetsEncrypt (c_TLS cfg) = false -> a_windows a = false ->
  a_stat a (KeyFile (c_TLS cfg)) = File perm -> Z.land perm 63 <> 0 -> startup cfg a n = (r0, r) -> r0 = Some (Ok tt) -> c_Env cfg <> "prod".
Proof.
  intros H1 H2 Hw Hk Hp Hs -> He. unfold startup in Hs. rewrite H1, H2, He in Hs. cbn [negb] in Hs.
  destruct (_ || _); [done|]. unfold validateTLSFiles in Hs. rewrite Hk, Hw in Hs. cbn [stat_problem negb andb] in Hs.
  rewrite (proj2 (Z.eqb_neq _ _) Hp) in Hs. cbn [negb] in Hs.
  destruct (stat_problem (CertFile (c_TLS cfg)) _) as [p|]; [|done]. by destruct (says_permissive p).
Qed.
