(* ===== verification/App.v ===== *)
(** * The application ([app/app.go])

    [Run], from the bootstrap logger to the shutdown hook, over any hooks: functions
    on a world [W] of their own.  The server is that of [Server], over the answers
    and events it meets; what its requests do to the world is an argument, as are
    building the logger and flushing it.  The theorems run hooks that also write
    down, in a world of their own, when they were called and what they reported
    ([traced]). *)

From stdpp Require Import list numbers strings gmap.
From S2P Require Import Prelude Config Server.

#[local] Open Scope list_scope.

Inductive stage := SLoad | SValidate | SLogger | SConnect | SSchema | SStartup | SBuild | SReady | SServe | SShutdown.

(** The order of the documentation. *)
Definition stages : list stage := [SLoad; SValidate; SLogger; SConnect; SSchema; SStartup; SBuild; SReady; SServe; SShutdown].

Section app.
Context {C D H W E : Type}.

Record Hooks := mkHooks {
  LoadConfig : W -> W * result E (CoreConfig * C);
  ValidateConfig : option (CoreConfig -> C -> W -> W * option E);
  ConnectDB : CoreConfig -> C -> W -> W * result E D;
  EnsureSchema : option (CoreConfig -> C -> D -> W -> W * option E);
  Startup : option (CoreConfig -> C -> D -> W -> W * option E);
  BuildHandler : CoreConfig -> C -> D -> W -> W * result E H;
  OnReady : option (CoreConfig -> C -> D -> W -> W);
  Shutdown : option (CoreConfig -> C -> D -> W -> W * option E)
}.

Inductive run_error := ServerError (e : server_error (E := E)) | ShutdownError (e : E).

(** [Exited]: [os.Exit(1)] at a stage, which runs no deferred call. *)
Inductive outcome := Exited (s : stage) | Returned (err : option run_error).

Context (build_logger : string -> string -> W -> W * bool) (serve_requests : H -> W -> W) (nil_handler : H -> bool).

(** A hook that may be nil. *)
Definition optional (f : option (W -> W * option E)) (w : W) : W * option E :=
  match f with
  | None => (w, None)
  | Some f => f w
  end.

(** The end of [Run]: [done] says whether the context is cancelled now. *)
Definition finish (hooks : Hooks) (core : CoreConfig) (appCfg : C) (db : D) (serverErr : option (server_error (E := E))) (done : bool)
    (w : W) : W * option outcome :=
  let '(w, shutdownErr) :=
    match Shutdown hooks with
    | None => (w, None)
    | Some f => if done then (w, None) else f core appCfg db w
    end in
  (w, Some (Returned (match serverErr with
                      | Some e => Some (ServerError e)
                      | None => ShutdownError <$> shutdownErr
                      end))).

(** Serving, with the outcome [None] while it goes on.  [late]: whether the context
    is cancelled by the time it is looked at, where it was not what ended the
    server; [n]: see [startup]. *)
Definition serve (hooks : Hooks) (answers : Answers (E := E)) (n : nat) (events : list (event (E := E))) (late : bool)
    (core : CoreConfig) (appCfg : C) (db : D) (w : W) : W * option outcome :=
  let '(w, handler) := BuildHandler hooks core appCfg db w in
  match handler with
  | Err _ => (w, Some (Exited SBuild))
  | Ok handler =>
    let w := match OnReady hooks with Some f => f core appCfg db w | None => w end in
    let w := serve_requests handler w in
    match (ListenAndServe core (nil_handler handler) answers n events).1 with
    | None => (w, None)
    | Some (serverErr, by_ctx) => finish hooks core appCfg db serverErr (by_ctx || late) w
    end
  end.

Definition Run (hooks : Hooks) (answers : Answers (E := E)) (n : nat) (events : list (event (E := E))) (late : bool) (w : W)
  : W * option outcome :=
  let '(w, loaded) := LoadConfig hooks w in
  match loaded with
  | Err _ => (w, Some (Exited SLoad))
  | Ok (core, appCfg) =>
    let '(w, err) := optional ((fun f => f core appCfg) <$> ValidateConfig hooks) w in
    match err with
    | Some _ => (w, Some (Exited SValidate))
    | None =>
      let '(w, built) := build_logger (LogLevel core) (c_Env core) w in
      if negb built then (w, Some (Exited SLogger))
      else
        let '(w, db) := ConnectDB hooks core appCfg w in
        match db with
        | Err _ => (w, Some (Exited SConnect))
        | Ok db =>
          let '(w, err) := optional ((fun f => f core appCfg db) <$> EnsureSchema hooks) w in
          match err with
          | Some _ => (w, Some (Exited SSchema))
          | None =>
            let '(w, err) := optional ((fun f => f core appCfg db) <$> Startup hooks) w in
            match err with
            | Some _ => (w, Some (Exited SStartup))
            | None => serve hooks answers n events late core appCfg db w
            end
          end
        end
    end
  end.
End app.

Arguments Hooks : clear implicits.
Arguments outcome : clear implicits.

(** ** Hooks that write down their calls *)

Section traced.
Context {C D H W E : Type}.

(** A world with the calls so far, each with whether it succeeded, the
    configuration that was loaded and the handler that was built. *)
Record Traced := mkTraced { t_world : W; t_log : list (stage * bool); t_core : option CoreConfig; t_handler : option H }.

Definition note (s : stage) (ok : bool) (w : W) (t : Traced) : Traced := mkTraced w (t_log t ++ [(s, ok)]) (t_core t) (t_handler t).
Definition is_ok {A B : Type} (r : result A B) : bool := match r with Ok _ => true | Err _ => false end.
Definition is_none {A : Type} (o : option A) : bool := match o with None => true | Some _ => false end.

Definition traced_hook (s : stage) (f : W -> W * option E) (t : Traced) : Traced * option E :=
  let '(w, err) := f (t_world t) in (note s (is_none err) w t, err).

Definition traced (h : Hooks C D H W E) : Hooks C D H Traced E := {|
  LoadConfig t :=
    let '(w, r) := LoadConfig h (t_world t) in
    let t := note SLoad (is_ok r) w t in
    (mkTraced w (t_log t) (match r with Ok (core, _) => Some core | Err _ => None end) (t_handler t), r);
  ValidateConfig := (fun f core c => traced_hook SValidate (f core c)) <$> ValidateConfig h;
  ConnectDB core c t := let '(w, r) := ConnectDB h core c (t_world t) in (note SConnect (is_ok r) w t, r);
  EnsureSchema := (fun f core c d => traced_hook SSchema (f core c d)) <$> EnsureSchema h;
  Startup := (fun f core c d => traced_hook SStartup (f core c d)) <$> Startup h;
  BuildHandler core c d t :=
    let '(w, r) := BuildHandler h core c d (t_world t) in
    let t := note SBuild (is_ok r) w t in
    (mkTraced w (t_log t) (t_core t) (match r with Ok hd => Some hd | Err _ => None end), r);
  OnReady := (fun f core c d t => note SReady true (f core c d (t_world t)) t) <$> OnReady h;
  Shutdown := (fun f core c d => traced_hook SShutdown (f core c d)) <$> Shutdown h
|}.

Definition traced_logger (build : string -> string -> W -> W * bool) (level env : string) (t : Traced) : Traced * bool :=
  let '(w, ok) := build level env (t_world t) in (note SLogger ok w t, ok).

Definition traced_serve (serve : H -> W -> W) (h : H) (t : Traced) : Traced := note SServe true (serve h (t_world t)) t.

(** The stages of an application with these hooks, up to the server: those of the
    documentation, less the hooks that are nil. *)
Definition present (h : Hooks C D H W E) (s : stage) : bool :=
  match s with
  | SValidate => negb (is_none (ValidateConfig h))
  | SSchema => negb (is_none (EnsureSchema h))
  | SStartup => negb (is_none (Startup h))
  | SReady => negb (is_none (OnReady h))
  | SShutdown => false
  | _ => true
  end.

Definition planned (h : Hooks C D H W E) : list stage := List.filter (present h) stages.

Definition succeeded (l : list stage) : list (stage * bool) := map (fun s => (s, true)) l.

(** What a run comes to, by the calls it made. *)
Definition lifecycle (hooks : Hooks C D H W E) (nil_handler : H -> bool) (answers : Answers (E := E)) (n : nat) (events : list (event (E := E)))
    (late : bool) (t : Traced) (o : option (outcome E)) : Prop :=
  match o with
  | Some (Exited s) =>
      s <> SServe /\ exists before after, planned hooks = before ++ s :: after /\ t_log t = succeeded before ++ [(s, false)]
  | None =>
      t_log t = succeeded (planned hooks) /\
      exists core h, t_core t = Some core /\ t_handler t = Some h /\ (ListenAndServe core (nil_handler h) answers n events).1 = None
  | Some (Returned err) =>
      exists core h serverErr by_ctx, t_core t = Some core /\ t_handler t = Some h /\
        (ListenAndServe core (nil_handler h) answers n events).1 = Some (serverErr, by_ctx) /\
        if is_none (Shutdown hooks) || by_ctx || late
        then t_log t = succeeded (planned hooks) /\ err = ServerError <$> serverErr
        else exists shutdownErr, t_log t = succeeded (planned hooks) ++ [(SShutdown, is_none shutdownErr)] /\
               err = match serverErr with Some e => Some (ServerError e) | None => ShutdownError <$> shutdownErr end
  end.

(** ** Lemmas *)

Lemma succeeded_app l k : succeeded (l ++ k) = succeeded l ++ succeeded k.
Proof. apply map_app. Qed.

(** A stage [s] of a run whose calls so far were [l], all with success: it either
    reports a failure or is one more of them. *)
Definition advances (hooks : Hooks C D H W E) (l : list stage) (s : stage) (t t' : Traced) (failed : bool) : Prop :=
  t_core t' = t_core t /\ t_handler t' = t_handler t /\
  if failed then present hooks s = true /\ t_log t' = succeeded (List.filter (present hooks) l) ++ [(s, false)]
  else t_log t' = succeeded (List.filter (present hooks) (l ++ [s])).

Lemma note_advances hooks l s t w ok :
  t_log t = succeeded (List.filter (present hooks) l) -> present hooks s = true -> advances hooks l s t (note s ok w t) (negb ok).
Proof.
  intros Hl Hs. unfold advances, note. cbn. rewrite Hl. split; [done|]. split; [done|]. destruct ok; cbn [negb]; [|done].
  rewrite List.filter_app, succeeded_app. cbn [List.filter]. by rewrite Hs.
Qed.

Lemma absent_advances hooks l s t :
  t_log t = succeeded (List.filter (present hooks) l) -> present hooks s = false -> advances hooks l s t t false.
Proof. intros Hl Hs. split; [done|]. split; [done|]. rewrite List.filter_app. cbn [List.filter]. by rewrite Hs, List.app_nil_r. Qed.

Lemma optional_advances hooks l s (f : option (W -> W * option E)) t t' err :
  optional (traced_hook s <$> f) t = (t', err) -> t_log t = succeeded (List.filter (present hooks) l) ->
  present hooks s = negb (is_none f) -> advances hooks l s t t' (negb (is_none err)).
Proof.
  intros Ho Hl Hs. destruct f as [f|]; cbn in Ho.
  - unfold traced_hook in Ho. destruct (f (t_world t)) as [w e]. injection Ho as <- <-. by apply note_advances.
  - injection Ho as <- <-. by apply absent_advances.
Qed.

Lemma exited_ok hooks nil_handler answers n events late l s t t1 t' k :
  advances hooks l s t t1 true -> t_log t' = t_log t1 -> stages = l ++ s :: k -> s <> SServe -> lifecycle hooks nil_handler answers n events late t' (Some (Exited s)).
Proof.
  intros (_ & _ & Hp & Hl) Ht Hs Hne. split; [done|]. exists (List.filter (present hooks) l), (List.filter (present hooks) k). split; [|congruence].
  unfold planned. rewrite Hs, List.filter_app. cbn [List.filter]. by rewrite Hp.
Qed.

Context (build_logger : string -> string -> W -> W * bool) (serve_requests : H -> W -> W) (nil_handler : H -> bool).

Lemma serve_ok (hooks : Hooks C D H W E) answers n events late core appCfg db t :
  t_log t = succeeded (List.filter (present hooks) [SLoad; SValidate; SLogger; SConnect; SSchema; SStartup]) -> t_core t = Some core ->
  let '(t', o) := serve (traced_serve serve_requests) nil_handler (traced hooks) answers n events late core appCfg db t in
  lifecycle hooks nil_handler answers n events late t' o.
Proof.
  intros Hl Hc. unfold serve. cbn [traced BuildHandler OnReady]. destruct (BuildHandler hooks core appCfg db (t_world t)) as [w1 r] eqn:Hb.
  pose proof (note_advances hooks _ SBuild t w1 (is_ok r) Hl eq_refl) as Ha. destruct r as [h|e].
  2:{ eapply (exited_ok _ _ _ _ _ _ _ SBuild); [exact Ha|reflexivity|reflexivity|done]. }
  destruct Ha as (Hc1 & _ & Hl1). cbn [is_ok negb t_log note app] in Hl1.
  set (t1 := mkTraced _ _ _ (Some h)). set (t2 := match _ <$> OnReady hooks with Some f => f core appCfg db t1 | None => t1 end).
  assert (Ht2 : t_core t2 = Some core /\ t_handler t2 = Some h /\
    t_log t2 = succeeded (List.filter (present hooks) [SLoad; SValidate; SLogger; SConnect; SSchema; SStartup; SBuild; SReady])).
  { subst t2. destruct (OnReady hooks) as [f|] eqn:Hr; cbn [fmap option_fmap option_map].
    - destruct (note_advances hooks _ SReady t1 (f core appCfg db (t_world t1)) true Hl1) as (? & ? & ?); [by cbn; rewrite Hr|].
      by subst t1; cbn in *.
    - destruct (absent_advances hooks _ SReady t1 Hl1) as (? & ? & ?); [by cbn; rewrite Hr|]. by subst t1; cbn in *. }
  destruct Ht2 as (Hc2 & Hh2 & Hl2). unfold traced_serve.
  destruct (note_advances hooks _ SServe t2 (serve_requests h (t_world t2)) true Hl2 eq_refl) as (Hc3 & Hh3 & Hl3).
  cbn [negb app] in Hl3. set (t3 := note SServe true _ t2) in *.
  assert (Hp : t_log t3 = succeeded (planned hooks)).
  { rewrite Hl3. unfold planned, stages. by rewrite (List.filter_app _ [SLoad; SValidate; SLogger; SConnect; SSchema; SStartup; SBuild; SReady; SServe] [SShutdown]), List.app_nil_r. }
  destruct (ListenAndServe core (nil_handler h) answers n events).1 as [[serverErr by_ctx]|] eqn:Hs.
  - unfold finish. cbn [traced Shutdown]. destruct (Shutdown hooks) as [f|] eqn:Hsh; cbn [fmap option_fmap option_map].
    + destruct (by_ctx || late) eqn:Hd.
      * exists core, h, serverErr, by_ctx. rewrite Hc3, Hh3, Hsh, <- orb_assoc, Hd. split; [done|]. split; [done|]. split; [done|]. cbn. by destruct serverErr.
      * unfold traced_hook. destruct (f core appCfg db (t_world t3)) as [w4 err] eqn:Hf.
        exists core, h, serverErr, by_ctx. cbn [note t_core t_handler t_log]. rewrite Hc3, Hh3, Hsh, <- orb_assoc, Hd. do 3 (split; [done|]). exists err. by rewrite Hp.
    + exists core, h, serverErr, by_ctx. rewrite Hc3, Hh3, Hsh. do 3 (split; [done|]). cbn. by destruct serverErr.
  - split; [done|]. exists core, h. by rewrite Hc3, Hh3.
Qed.

Lemma Run_ok (hooks : Hooks C D H W E) answers n events late w :
  let '(t, o) := Run (traced_logger build_logger) (traced_serve serve_requests) nil_handler (traced hooks) answers n events late (mkTraced w [] None None) in
  lifecycle hooks nil_handler answers n events late t o.
Proof.
  unfold Run. cbn [traced LoadConfig t_world]. destruct (LoadConfig hooks w) as [w1 r].
  pose proof (note_advances hooks [] SLoad (mkTraced w [] None None) w1 (is_ok r) eq_refl eq_refl) as Ha.
  destruct r as [[core appCfg]|e]; [|eapply (exited_ok _ _ _ _ _ _ [] SLoad); [exact Ha|reflexivity|reflexivity|done]].
  destruct Ha as (_ & _ & Hl1). cbn [is_ok negb app] in Hl1. set (t1 := mkTraced w1 _ (Some core) _).
  assert (Hc1 : t_core t1 = Some core) by done. change (t_log t1 = succeeded (List.filter (present hooks) [SLoad])) in Hl1.
  clearbody t1. cbn [traced ValidateConfig ConnectDB EnsureSchema Startup].
  assert (Hv : forall s (f : option (CoreConfig -> C -> W -> W * option E)),
    (fun g => g core appCfg) <$> ((fun f core c => traced_hook s (f core c)) <$> f) = traced_hook s <$> ((fun f => f core appCfg) <$> f)) by (by intros s []).
  assert (Hd : forall db s (f : option (CoreConfig -> C -> D -> W -> W * option E)),
    (fun g => g core appCfg db) <$> ((fun f core c d => traced_hook s (f core c d)) <$> f) = traced_hook s <$> ((fun f => f core appCfg db) <$> f)) by (by intros db s []).
  rewrite Hv. destruct (optional _ t1) as [t2 e2] eqn:H2. apply (optional_advances hooks [SLoad] SValidate) in H2; [|done|by cbn; destruct (ValidateConfig hooks)].
  destruct e2; [eapply (exited_ok _ _ _ _ _ _ [SLoad] SValidate); [exact H2|reflexivity|reflexivity|done]|]. destruct H2 as (Hc2 & _ & Hl2).
  unfold traced_logger. destruct (build_logger (LogLevel core) (c_Env core) (t_world t2)) as [w3 built].
  pose proof (note_advances hooks [SLoad; SValidate] SLogger t2 w3 built Hl2 eq_refl) as H3.
  destruct built; cbn [negb] in *; [|eapply (exited_ok _ _ _ _ _ _ [SLoad; SValidate] SLogger); [exact H3|reflexivity|reflexivity|done]].
  destruct H3 as (Hc3 & _ & Hl3). set (t3 := note SLogger true w3 t2) in *. destruct (ConnectDB hooks core appCfg (t_world t3)) as [w4 r].
  pose proof (note_advances hooks [SLoad; SValidate; SLogger] SConnect t3 w4 (is_ok r) Hl3 eq_refl) as H4.
  destruct r as [db|e]; [|eapply (exited_ok _ _ _ _ _ _ [SLoad; SValidate; SLogger] SConnect); [exact H4|reflexivity|reflexivity|done]].
  destruct H4 as (Hc4 & _ & Hl4). cbn [is_ok negb] in Hl4. cbn [is_ok] in Hc4 |- *. set (t4 := note SConnect true w4 t3) in *.
  rewrite Hd. destruct (optional _ t4) as [t5 e5] eqn:H5. apply (optional_advances hooks [SLoad; SValidate; SLogger; SConnect] SSchema) in H5; [|exact Hl4|by cbn; destruct (EnsureSchema hooks)].
  destruct e5; [eapply (exited_ok _ _ _ _ _ _ [SLoad; SValidate; SLogger; SConnect] SSchema); [exact H5|reflexivity|reflexivity|done]|].
  destruct H5 as (Hc5 & _ & Hl5). rewrite Hd. destruct (optional _ t5) as [t6 e6] eqn:H6.
  apply (optional_advances hooks [SLoad; SValidate; SLogger; SConnect; SSchema] SStartup) in H6; [|exact Hl5|by cbn; destruct (Startup hooks)].
  destruct e6; [eapply (exited_ok _ _ _ _ _ _ [SLoad; SValidate; SLogger; SConnect; SSchema] SStartup); [exact H6|reflexivity|reflexivity|done]|].
  destruct H6 as (Hc6 & _ & Hl6). apply serve_ok; [exact Hl6|congruence].
Qed.

(** Where the server ended without the context: with an error of its own, or closed. *)
Lemma ended_by_itself core (nil : bool) (answers : Answers (E := E)) n events serverErr :
  (ListenAndServe core nil answers n events).1 = Some (serverErr, false) -> serverErr <> None \/ EvPrimary None ∈ events.
Proof.
  unfold ListenAndServe. destruct nil; [intros [= <-]; by left|].
  destruct (startup core answers n) as [[[[]|e]|] r]; [|intros [= <-]; by left|done]. apply serve_loop_failed.
Qed.

Lemma succeeded_stages l s ok : (s, ok) ∈ succeeded l -> s ∈ l.
Proof. intros (x & [= -> _] & Hx)%list_elem_of_fmap. done. Qed.
End traced.

Arguments Traced : clear implicits.

(** An application with a database and no schema; each hook leaves its mark. *)
Definition toy_hooks : Hooks unit unit unit Z string := {|
  LoadConfig w := (w + 1, Ok (mkCoreConfig "dev" "debug" (mkHTTPConfig 8080 443 false 15 10 60 120 15)
    (mkTLSConfig "" "" false "" "" "" [] "http-01" "" "") (mkCORSConfig false [] [] [] [] false 0)
    (mkSecurityConfig true "" "" "" "" 0 true false "" "") 10 120 0 true 5, tt));
  ValidateConfig := None;
  ConnectDB _ _ w := (w + 5, Ok tt);
  EnsureSchema := None;
  Startup := None;
  BuildHandler _ _ _ w := (w, Ok tt);
  OnReady := Some (fun _ _ _ w => w + 5);
  Shutdown := Some (fun _ _ _ w => (w + 100, None))
|}.

Definition toy_answers : Answers (E := string) := mkAnswers None None None None (fun _ => NotExist) false true.

Definition toy_run := Run (traced_logger (fun _ _ w => (w, true))) (traced_serve (fun (_ : unit) w => w + 1)) (fun _ => false) (traced toy_hooks) toy_answers 0.

(** ** Theorems *)

(** C5. The life of an application, for any hooks, by the calls that it makes of
    them: the stages that the hooks have are called in the documented order, none is
    left out and none comes twice; a stage that reports a failure is the last one,
    and the process exits there, before anything is served; without a failure the
    server is run on the configuration that was loaded and the handler that was
    built, and the shutdown hook after it unless the context is cancelled; the
    result is the error of the server or else that of the hook. *)
Theorem Run_lifecycle {C D H W E : Type} (hooks : Hooks C D H W E) build_logger serve_requests nil_handler answers n events late w :
  let '(t, o) := Run (traced_logger build_logger) (traced_serve serve_requests) nil_handler (traced hooks) answers n events late (mkTraced w [] None None) in
  lifecycle hooks nil_handler answers n events late t o.
Proof. apply Run_ok. Qed.

(** C6. The shutdown hook does not run on a graceful shutdown: whatever the hooks,
    it is only called where the server ended by itself, which [Run] reports as the
    server's error unless the primary server was closed; a signal, which cancels the
    context that [Run] then looks at, skips it. *)
Theorem shutdown_hook_only_after_failure {C D H W E : Type} (hooks : Hooks C D H W E)
    build_logger serve_requests nil_handler answers n events late w t o ok :
  Run (traced_logger build_logger) (traced_serve serve_requests) nil_handler (traced hooks) answers n events late (mkTraced w [] None None) = (t, o) ->
  (SShutdown, ok) ∈ t_log t ->
  late = false /\ ((exists e, o = Some (Returned (Some (ServerError e)))) \/ EvPrimary None ∈ events).
Proof.
  intros Hr Hin. pose proof (Run_ok build_logger serve_requests nil_handler hooks answers n events late w) as Hok. rewrite Hr in Hok.
  assert (Hn : SShutdown ∉ planned hooks).
  { unfold planned. intros Hp%list_elem_of_In%filter_In. by destruct Hp as [_ Hp]. }
  destruct o as [[s|err]|].
  - destruct Hok as (_ & before & after & Hp & Hl). exfalso. apply Hn. rewrite Hp. rewrite Hl in Hin.
    apply elem_of_app in Hin as [Hin%succeeded_stages|Hin%list_elem_of_singleton]; [set_solver|]. injection Hin as -> _. set_solver.
  - destruct Hok as (core & h & serverErr & by_ctx & _ & _ & Hs & Hl). destruct (is_none (Shutdown hooks)); [destruct Hl as [Hl _]; rewrite Hl in Hin; by apply succeeded_stages in Hin|].
    destruct by_ctx, late; cbn [orb] in Hl; try (destruct Hl as [Hl _]; rewrite Hl in Hin; by apply succeeded_stages in Hin).
    split; [done|]. destruct Hl as (shutdownErr & _ & ->). destruct (ended_by_itself _ _ _ _ _ _ Hs) as [He|?]; [|by right].
    left. destruct serverErr; [by eexists|done].
  - destruct Hok as [Hl _]. rewrite Hl in Hin. by apply succeeded_stages in Hin.
Qed.

Lemma shutdown_hook_only_after_failure_witness :
  exists t o, toy_run [EvServing; EvPrimary (Some "crash")] false (mkTraced 0 [] None None) = (t, o) /\ (SShutdown, true) ∈ t_log t /\
    false = false /\ ((exists e, o = Some (Returned (Some (ServerError e)))) \/ EvPrimary None ∈ [EvServing; EvPrimary (Some "crash")]).
Proof.
  eexists _, _. split; [vm_compute; reflexivity|]. split; [cbn; set_solver|].
  eapply (shutdown_hook_only_after_failure toy_hooks (fun _ _ w => (w, true)) (fun (_ : unit) w => w + 1) (fun _ => false) toy_answers 0
    [EvServing; EvPrimary (Some "crash")] false 0 _ _ true); [vm_compute; reflexivity|cbn; set_solver].
Defined.

(** The same application and a signal: it ends without an error, and its hook is
    not called; and one whose database cannot be reached. *)
Example signal_skips_hook :
  (let '(t, o) := toy_run [EvServing; EvDone 0 (Drained None)] false (mkTraced 0 [] None None) in (t_world t, map fst (t_log t), o))
  = (12, [SLoad; SLogger; SConnect; SBuild; SReady; SServe], Some (Returned None)).
Proof. vm_compute. reflexivity. Qed.
