(* ===== verification/Checksum.v ===== *)
(** * Check digits of the validator ([pantry/validate/rules.go])

    ISBN-10, ISBN-13 and the Luhn numbers of credit cards: what [Rules] computes
    as sums over the places of a number, and the typing errors that the sums
    detect. *)

From S2P Require Import Prelude GoStrings Utf8 Strconv Regex Values Rules.
#[local] Open Scope list_scope.

(** ** Sums over places *)

(** The sum of what [f] makes of the digit at each place, from place [i] on. *)
Fixpoint place_sum (f : nat -> Z -> Z) (i : nat) (ds : list Z) : Z :=
  match ds with
  | [] => 0
  | d :: ds => f i d + place_sum f (S i) ds
  end.

Lemma place_sum_app f i ds es : place_sum f i (ds ++ es) = place_sum f i ds + place_sum f (i + length ds) es.
Proof.
  revert i. induction ds as [|d ds IH]; intros i; cbn [app place_sum length]; [by rewrite Nat.add_0_r|].
  rewrite IH. replace (S i + length ds)%nat with (i + S (length ds))%nat by lia. lia.
Qed.

(** Two numbers that differ in one place, or in two neighbours, and have the same
    remainder. *)
Lemma one_place f m a x y b :
  (place_sum f 0 (a ++ x :: b)) mod m = (place_sum f 0 (a ++ y :: b)) mod m -> 0 < m ->
  (f (length a) x - f (length a) y) mod m = 0.
Proof.
  rewrite !place_sum_app. cbn [place_sum Nat.add]. intros H Hm.
  apply Z.cong_iff_0 in H. rewrite <- H. f_equal. lia.
Qed.

Lemma two_places f m a x y b :
  (place_sum f 0 (a ++ x :: y :: b)) mod m = (place_sum f 0 (a ++ y :: x :: b)) mod m -> 0 < m ->
  (f (length a) x + f (S (length a)) y - f (length a) y - f (S (length a)) x) mod m = 0.
Proof.
  rewrite !place_sum_app. cbn [place_sum Nat.add]. intros H Hm.
  apply Z.cong_iff_0 in H. rewrite <- H. f_equal. lia.
Qed.

(** ** The sums of the rules *)

Definition digit_value (c : ascii) : Z := (byte_code c - 48) mod 256.
Definition digit_values (s : string) : list Z := map digit_value (String.list_ascii_of_string s).

Definition isbn13_place (i : nat) (d : Z) : Z := if Nat.even i then d else 3 * d.
Definition luhn_place (i : nat) (d : Z) : Z := if Nat.even i then d else if 9 <? d * 2 then d * 2 - 9 else d * 2.
Definition isbn10_place (i : nat) (d : Z) : Z := (10 - Z.of_nat i) * d.

(** The last place of an ISBN-10 may be an X, which stands for ten. *)
Definition isbn10_value (c : ascii) : Z := if Ascii.eqb c "X" then 10 else digit_value c.

Lemma digit_value_range c : is_digit c = true -> 0 <= digit_value c <= 9.
Proof. unfold is_digit, digit_value. intros H. rewrite Z.mod_small; lia. Qed.

Lemma digit_value_inj c d : is_digit c = true -> is_digit d = true -> digit_value c = digit_value d -> c = d.
Proof.
  unfold is_digit, digit_value. intros Hc Hd. rewrite !Z.mod_small by lia. intros H. apply byte_code_inj. lia.
Qed.

Lemma list_ascii_app s t :
  String.list_ascii_of_string (s +:+ t) = String.list_ascii_of_string s ++ String.list_ascii_of_string t.
Proof. induction s as [|c s IH]; [done|]. cbn. by rewrite IH. Qed.

Lemma list_ascii_length s : length (String.list_ascii_of_string s) = String.length s.
Proof. induction s as [|c s IH]; cbn; auto. Qed.

(** Taking out the hyphens, of which there are none. *)
Lemma ReplaceAll_none c s : string_has c s = false -> ReplaceAll s (String c "") "" = s.
Proof.
  unfold ReplaceAll. induction s as [|d s IH]; [done|]. cbn [string_has]. intros [Hd Hs]%orb_false_iff.
  cbn [replace_from]. assert (HasPrefix (String d s) (String c "") = false) as ->.
  { cbn [HasPrefix]. by rewrite ?Hd, ?(Ascii.eqb_sym c d), ?Hd. }
  by rewrite IH.
Qed.

(** What [isbn10Regex] and [isbn13Regex] leave: places with a digit. *)
Lemma in_digits c : in_cls (mkCls false [digit_range]) c = is_digit c.
Proof. unfold in_cls. cbn. by rewrite orb_false_r. Qed.

Lemma in_chr d c : in_cls (mkCls false [(d, d)]) c = Ascii.eqb c d.
Proof.
  apply eq_true_iff_eq. unfold in_cls, in_range. cbn. rewrite orb_false_r, Ascii.eqb_eq. split.
  - intros H. apply byte_code_inj. lia.
  - intros ->. lia.
Qed.

Lemma isbn10_shape s :
  MatchString isbn10Regex s = true <->
  exists t c, s = t +:+ String c "" /\ String.length t = 9%nat /\ string_forall is_digit t = true /\
    is_digit c || Ascii.eqb c "X" = true.
Proof.
  set (dig := mkCls false [digit_range]).
  assert (exists a b, isbn10Regex = Alt a b /\ fixed a = Some (replicate 9 dig ++ [mkCls false [("X", "X")%char]]) /\
            fixed b = Some (replicate 9 dig ++ [dig])) as (a & b & Hr & Ha & Hb) by (eexists _, _; split; [reflexivity|done]).
  rewrite MatchString_spec, Hr, matches_alt, (matches_fixed a _ s Ha), (matches_fixed b _ s Hb), !match_each_app.
  setoid_rewrite match_each_replicate. setoid_rewrite match_each_single.
  assert (forall t, string_forall (in_cls dig) t = string_forall is_digit t) as Hd
    by (induction t as [|x t IH]; [done|]; cbn [string_forall]; unfold dig at 1; by rewrite in_digits, IH).
  split.
  - intros [(t & u & -> & [Hl Ht] & c & -> & Hc)|(t & u & -> & [Hl Ht] & c & -> & Hc)];
      exists t, c; rewrite Hd in Ht; repeat (split; [done|]).
    + rewrite in_chr in Hc. by rewrite Hc, orb_true_r.
    + unfold dig in Hc. rewrite in_digits in Hc. by rewrite Hc.
  - intros (t & c & -> & Hl & Ht & [Hc|Hc]%orb_true_iff); [right|left]; exists t, (String c ""); rewrite Hd;
      repeat (split; [done|]); exists c; (split; [done|]); [unfold dig; by rewrite in_digits|by rewrite in_chr].
Qed.

Lemma isbn13_shape s :
  MatchString isbn13Regex s = true <-> String.length s = 13%nat /\ string_forall is_digit s = true.
Proof.
  rewrite MatchString_spec.
  assert (fixed isbn13Regex = Some (replicate 13 (mkCls false [digit_range]))) as H by reflexivity.
  rewrite (matches_fixed _ _ s H), match_each_replicate.
  assert (string_forall (in_cls (mkCls false [digit_range])) s = string_forall is_digit s) as ->; [|done].
  induction s as [|x s IH]; [done|]. cbn [string_forall]. by rewrite in_digits, IH.
Qed.

Definition isbn10_total (s : string) : Z :=
  place_sum isbn10_place 0 (map isbn10_value (String.list_ascii_of_string s)).

Lemma isbn10_sum_spec t c :
  String.length t = 9%nat -> string_forall is_digit t = true ->
  isbn10_sum (t +:+ String c "") 0 9 0 + isbn10_value c = isbn10_total (t +:+ String c "").
Proof.
  intros Hl Hd. do 9 (destruct t as [|? t]; [done|]). destruct t; [|done].
  cbn [string_forall] in Hd. repeat (apply andb_prop in Hd as [? Hd]).
  assert (forall x, is_digit x = true -> isbn10_value x = digit_value x) as Hv.
  { intros x Hx. unfold isbn10_value. destruct (Ascii.eqb_spec x "X") as [->|]; done. }
  unfold isbn10_total. cbn [String.append String.list_ascii_of_string map place_sum].
  repeat match goal with H : is_digit ?x = true |- context [isbn10_value ?x] => rewrite (Hv x H) end.
  unfold isbn10_place. cbn [isbn10_sum].
  change (digit_at ?s ?i) with (digit_value (byte_at s i)).
  unfold byte_at. cbn [String.get default from_option id]. clear. lia.
Qed.

Definition isbn13_total (s : string) : Z := place_sum isbn13_place 0 (digit_values s).

Lemma isbn13_sum_spec s :
  String.length s = 13%nat -> string_forall is_digit s = true ->
  isbn13_total s = isbn13_sum s 0 12 0 + digit_at s 12 /\ 0 <= digit_at s 12 <= 9.
Proof.
  intros Hl Hd. do 13 (destruct s as [|? s]; [done|]). destruct s; [|done].
  cbn [string_forall] in Hd. repeat (apply andb_prop in Hd as [? Hd]).
  unfold isbn13_total, digit_values. cbn [String.list_ascii_of_string map place_sum].
  unfold isbn13_place. cbn [isbn13_sum Nat.even].
  change (digit_at ?s ?i) with (digit_value (byte_at s i)).
  unfold byte_at. cbn [String.get default from_option id]. split; [ring|by apply digit_value_range].
Qed.

Lemma luhn_loop_spec ds b sum i :
  Nat.even i = negb b -> luhn_loop ds b sum = sum + place_sum luhn_place i ds.
Proof.
  revert b sum i. induction ds as [|d ds IH]; intros b sum i Hi; cbn [luhn_loop place_sum]; [lia|].
  rewrite (IH _ _ (S i)) by (rewrite Nat.even_succ, <- Nat.negb_even, Hi; done).
  unfold luhn_place at 2. rewrite Hi. destruct b; cbn [negb]; [|lia]. destruct (9 <? d * 2); lia.
Qed.

Definition luhn_total (s : string) : Z := place_sum luhn_place 0 (rev (digit_values s)).

Lemma luhnValid_spec s :
  luhnValid s = true <-> (13 <= String.length s <= 19)%nat /\ luhn_total s mod 10 = 0.
Proof.
  unfold luhnValid. rewrite (luhn_loop_spec _ false 0 0) by done. fold digit_value.
  destruct ((_ <? 13) || _) eqn:Hl; [split; [done|intros [Hr _]; exfalso; lia]|].
  rewrite Z.eqb_eq, Z.add_0_l. split; [|by intros [_ H]]. intros H. split; [lia|exact H].
Qed.

(** ** Theorems *)

(** An ISBN-10 without its hyphens. *)
Definition isbn10_valid (s : string) : Prop :=
  (exists t c, s = t +:+ String c "" /\ String.length t = 9%nat /\ string_forall is_digit t = true /\
     is_digit c || Ascii.eqb c "X" = true) /\
  isbn10_total s mod 11 = 0.

Definition isbn13_valid (s : string) : Prop :=
  (String.length s = 13%nat /\ string_forall is_digit s = true) /\ isbn13_total s mod 10 = 0.

Definition luhn_valid (s : string) : Prop :=
  string_forall is_digit s = true /\ (13 <= String.length s <= 19)%nat /\ luhn_total s mod 10 = 0.

Lemma check13 sum d : 0 <= d <= 9 -> (d =? (10 - sum mod 10) mod 10) = ((sum + d) mod 10 =? 0).
Proof.
  intros Hd. pose proof (Z.mod_pos_bound sum 10 ltac:(lia)). pose proof (Z.div_mod sum 10 ltac:(lia)).
  apply eq_true_iff_eq. rewrite !Z.eqb_eq. split; intros Hs.
  - subst d. rewrite Z.add_mod_idemp_r by lia. replace (sum + (10 - sum mod 10)) with ((sum / 10 + 1) * 10) by lia.
    by rewrite Z.mod_mul.
  - apply Z.mod_divide in Hs as [q Hq]; [|lia].
    assert (q = sum / 10 \/ q = sum / 10 + 1) as [-> | ->] by lia.
    + assert (sum mod 10 = 0) as -> by lia. replace d with 0 by lia. done.
    + rewrite Z.mod_small; lia.
Qed.

Lemma isbn10_last t c : String.length t = 9%nat -> byte_at (t +:+ String c "") 9 = c.
Proof. intros Hl. do 9 (destruct t as [|? t]; [done|]). by destruct t. Qed.

Lemma isbn10_decides t :
  MatchString isbn10Regex t = true ->
  (if Ascii.eqb (byte_at t 9) "X" then isbn10_sum t 0 9 0 + 10 else isbn10_sum t 0 9 0 + digit_at t 9) = isbn10_total t.
Proof.
  intros (u & c & -> & Hl & Hd & _)%isbn10_shape. rewrite <- isbn10_sum_spec by done. unfold digit_at.
  rewrite isbn10_last by done. unfold isbn10_value, digit_value. by destruct (Ascii.eqb c "X").
Qed.

Definition isbn10_char (c : ascii) : bool := is_digit c || Ascii.eqb c "X".

(** What a valid number has at a place. *)
Lemma isbn10_place_char a c b :
  isbn10_valid (a +:+ String c b) -> (String.length a < 10)%nat /\ isbn10_char c = true.
Proof.
  intros [(t & x & Ht & Hl & Hd & Hx) _].
  assert (string_forall isbn10_char (a +:+ String c b) = true) as Hf.
  { rewrite Ht, string_forall_app. cbn [string_forall]. unfold isbn10_char at 2. rewrite Hx, andb_true_r.
    eapply string_forall_impl; [|exact Hd]. intros y Hy. unfold isbn10_char. by rewrite Hy. }
  rewrite string_forall_app in Hf. apply andb_prop in Hf as [_ Hf]. apply andb_prop in Hf as [Hc _].
  apply (f_equal String.length) in Ht. rewrite !string_length_app, Hl in Ht. cbn in Ht. split; [lia|done].
Qed.

Lemma isbn10_value_range c : isbn10_char c = true -> 0 <= isbn10_value c <= 10.
Proof.
  unfold isbn10_char, isbn10_value. destruct (Ascii.eqb c "X"); [lia|]. rewrite orb_false_r.
  intros H. pose proof (digit_value_range c H). lia.
Qed.

Lemma isbn10_value_inj c d :
  is_digit c || Ascii.eqb c "X" = true -> is_digit d || Ascii.eqb d "X" = true -> isbn10_value c = isbn10_value d -> c = d.
Proof.
  unfold isbn10_value. destruct (Ascii.eqb_spec c "X") as [->|Hc], (Ascii.eqb_spec d "X") as [->|Hd]; rewrite ?orb_false_r; [done| | |].
  - intros _ H. pose proof (digit_value_range d H). lia.
  - intros H _. pose proof (digit_value_range c H). lia.
  - apply digit_value_inj.
Qed.

(** Eleven is prime, so that no weight of a place below eleven is lost. *)
Lemma weight_eleven i x : (i < 10)%nat -> -10 <= x <= 10 -> ((10 - Z.of_nat i) * x) mod 11 = 0 -> x = 0.
Proof.
  intros Hi Hx H. apply Z.mod_divide in H as [q Hq]; [|lia]. do 10 (destruct i as [|i]; [lia|]). lia.
Qed.

Lemma isbn10_one a c d b : isbn10_valid (a +:+ String c b) -> isbn10_valid (a +:+ String d b) -> c = d.
Proof.
  intros Hc Hd. destruct (isbn10_place_char _ _ _ Hc) as [Hi Hcc]. destruct (isbn10_place_char _ _ _ Hd) as [_ Hdd].
  destruct Hc as [_ Hc], Hd as [_ Hd]. unfold isbn10_total in Hc, Hd. rewrite list_ascii_app, map_app in Hc, Hd.
  rewrite <- Hd in Hc. apply one_place in Hc; [|lia]. rewrite length_map, list_ascii_length in Hc.
  unfold isbn10_place in Hc. rewrite <- Z.mul_sub_distr_l in Hc.
  pose proof (isbn10_value_range c Hcc). pose proof (isbn10_value_range d Hdd).
  apply weight_eleven in Hc; [|done|lia]. apply isbn10_value_inj; [done|done|lia].
Qed.

Lemma isbn10_swap a c d b :
  isbn10_valid (a +:+ String c (String d b)) -> isbn10_valid (a +:+ String d (String c b)) -> c = d.
Proof.
  intros Hc Hd. destruct (isbn10_place_char _ _ _ Hc) as [_ Hcc]. destruct (isbn10_place_char _ _ _ Hd) as [_ Hdd].
  destruct Hc as [_ Hc], Hd as [_ Hd]. unfold isbn10_total in Hc, Hd. rewrite list_ascii_app, map_app in Hc, Hd.
  rewrite <- Hd in Hc. apply two_places in Hc; [|lia]. rewrite length_map, list_ascii_length in Hc.
  unfold isbn10_place in Hc. rewrite Nat2Z.inj_succ in Hc.
  pose proof (isbn10_value_range c Hcc). pose proof (isbn10_value_range d Hdd).
  apply isbn10_value_inj; [done|done|]. apply Z.mod_divide in Hc as [q Hq]; [|lia].
  assert (isbn10_value c - isbn10_value d = q * 11) by (rewrite <- Hq; ring). lia.
Qed.

Lemma digits_place a c b : string_forall is_digit (a +:+ String c b) = true -> is_digit c = true.
Proof. rewrite string_forall_app. by intros [_ [? _]%andb_prop]%andb_prop. Qed.

Lemma digit_values_app s t : digit_values (s +:+ t) = digit_values s ++ digit_values t.
Proof. unfold digit_values. by rewrite list_ascii_app, map_app. Qed.

Lemma isbn13_one a c d b : isbn13_valid (a +:+ String c b) -> isbn13_valid (a +:+ String d b) -> c = d.
Proof.
  intros [[_ Hc] Hcs] [[_ Hd] Hds]. apply digits_place in Hc, Hd. unfold isbn13_total in Hcs, Hds.
  rewrite digit_values_app in Hcs, Hds. rewrite <- Hds in Hcs. apply one_place in Hcs; [|lia].
  pose proof (digit_value_range c Hc). pose proof (digit_value_range d Hd).
  apply digit_value_inj; [done|done|]. apply Z.mod_divide in Hcs as [q Hq]; [|lia].
  unfold isbn13_place in Hq. destruct (Nat.even _); lia.
Qed.

(** The Luhn sum runs from the last place to the first. *)
Lemma luhn_one a c d b : luhn_valid (a +:+ String c b) -> luhn_valid (a +:+ String d b) -> c = d.
Proof.
  intros (Hc & _ & Hcs) (Hd & _ & Hds). apply digits_place in Hc, Hd. unfold luhn_total in Hcs, Hds.
  rewrite digit_values_app, rev_app_distr in Hcs, Hds. change (digit_values (String ?x b)) with (digit_value x :: digit_values b) in Hcs, Hds.
  cbn [rev] in Hcs, Hds. rewrite <- !app_assoc in Hcs, Hds. cbn [app] in Hcs, Hds. rewrite <- Hds in Hcs.
  apply one_place in Hcs; [|lia]. pose proof (digit_value_range c Hc). pose proof (digit_value_range d Hd).
  apply digit_value_inj; [done|done|]. apply Z.mod_divide in Hcs as [q Hq]; [|lia].
  unfold luhn_place in Hq. destruct (Nat.even _); [lia|].
  destruct (9 <? digit_value c * 2) eqn:?, (9 <? digit_value d * 2) eqn:?; lia.
Qed.

Lemma luhn_swap a c d b :
  luhn_valid (a +:+ String c (String d b)) -> luhn_valid (a +:+ String d (String c b)) ->
  c = d \/ (c = "0" /\ d = "9")%char \/ (c = "9" /\ d = "0")%char.
Proof.
  intros (Hc & _ & Hcs) (Hd & _ & Hds). apply digits_place in Hc, Hd. unfold luhn_total in Hcs, Hds.
  rewrite digit_values_app, rev_app_distr in Hcs, Hds.
  change (digit_values (String ?x (String ?y b))) with (digit_value x :: digit_value y :: digit_values b) in Hcs, Hds.
  cbn [rev] in Hcs, Hds. rewrite <- !app_assoc in Hcs, Hds. cbn [app] in Hcs, Hds. rewrite <- Hds in Hcs.
  apply two_places in Hcs; [|lia]. pose proof (digit_value_range c Hc). pose proof (digit_value_range d Hd).
  assert (digit_value c = digit_value d \/ (digit_value c = 0 /\ digit_value d = 9) \/ (digit_value c = 9 /\ digit_value d = 0)) as He.
  { apply Z.mod_divide in Hcs as [q Hq]; [|lia]. unfold luhn_place in Hq. rewrite Nat.even_succ, <- Nat.negb_even in Hq.
    destruct (Nat.even _); cbn [negb] in Hq;
      destruct (9 <? digit_value c * 2) eqn:?, (9 <? digit_value d * 2) eqn:?; lia. }
  destruct He as [He|[[Hv Hw]|[Hv Hw]]]; [left|right; left|right; right].
  - by apply digit_value_inj.
  - split; by apply digit_value_inj.
  - split; by apply digit_value_inj.
Qed.

Lemma string_has_mid x a c d b :
  string_has x (a +:+ String c (String d b)) = false ->
  string_has x a = false /\ Ascii.eqb c x = false /\ Ascii.eqb d x = false /\ string_has x b = false.
Proof. rewrite string_has_app. cbn [string_has]. rewrite !orb_false_iff. naive_solver. Qed.

Section Theorems.
Context `{Fmt}.

Lemma isbn_valid ty s param sv :
  (ruleISBN10 (Str ty s) param sv = Some "" <-> s = "" \/ isbn10_valid (ReplaceAll s "-" "")) /\
  (ruleISBN13 (Str ty s) param sv = Some "" <-> s = "" \/ isbn13_valid (ReplaceAll s "-" "")).
Proof.
  unfold ruleISBN10, ruleISBN13, isbn10_valid, isbn13_valid, pass, fails. cbn [toString].
  generalize (ReplaceAll s "-" "") as t. intros t. rewrite <- isbn10_shape.
  destruct (String.eqb_spec s "") as [->|Hs]; [by split; split; auto|]. split.
  - destruct (MatchString isbn10Regex t) eqn:Hm; cbn [negb]; [|by split; [|intros [?|[? _]]]].
    rewrite (isbn10_decides t Hm). rewrite <- Z.eqb_eq. destruct (_ =? 0); naive_solver.
  - rewrite <- isbn13_shape. destruct (MatchString isbn13Regex t) eqn:Hm; cbn [negb];
      [|by split; [|intros [?|[? _]]]].
    apply isbn13_shape in Hm as [Hl Hd]. destruct (isbn13_sum_spec t Hl Hd) as [-> Hr].
    rewrite (check13 _ _ Hr), <- Z.eqb_eq. destruct (_ =? 0); naive_solver.
Qed.

Lemma creditcard_valid ty s param sv :
  ruleCreditCard (Str ty s) param sv = Some "" <-> s = "" \/ luhn_valid (ReplaceAll (ReplaceAll s " " "") "-" "").
Proof.
  unfold ruleCreditCard, on_text, luhn_valid, pass, fails. cbn [toString].
  destruct (String.eqb_spec s "") as [->|Hs]; [by split; auto|]. generalize (ReplaceAll (ReplaceAll s " " "") "-" "") as t. intros t.
  rewrite forallb_runes, <- luhnValid_spec by (unfold digit_rune; lia).
  change (string_forall (fun c => digit_rune (byte_code c)) t) with (string_forall is_digit t).
  destruct (string_forall is_digit t), (luhnValid t); naive_solver.
Qed.

(** The rule for ISBN-10 accepts nothing but ten places, hyphens apart, that are
    digits, the last one possibly an X for ten, and whose sum weighted from ten
    to one is a multiple of eleven; the rule for ISBN-13 thirteen digits whose
    sum weighted by one and three in turn is a multiple of ten; and the rule for
    credit cards thirteen to nineteen digits, spaces apart too, with a Luhn sum
    that is a multiple of ten. *)
Theorem check_digits ty s param sv :
  (ruleISBN10 (Str ty s) param sv = Some "" <-> s = "" \/ isbn10_valid (ReplaceAll s "-" "")) /\
  (ruleISBN13 (Str ty s) param sv = Some "" <-> s = "" \/ isbn13_valid (ReplaceAll s "-" "")) /\
  (ruleCreditCard (Str ty s) param sv = Some "" <-> s = "" \/ luhn_valid (ReplaceAll (ReplaceAll s " " "") "-" "")).
Proof. split; [apply isbn_valid|]. split; [apply isbn_valid|apply creditcard_valid]. Qed.

(** The check digits of an ISBN detect every error in one place, and that of an
    ISBN-10 also every exchange of two neighbours. *)
Theorem isbn_detects ty a c d b param sv :
  string_has "-" (a +:+ String c (String d b)) = false ->
  (ruleISBN10 (Str ty (a +:+ String c b)) param sv = Some "" ->
   ruleISBN10 (Str ty (a +:+ String d b)) param sv = Some "" -> c = d) /\
  (ruleISBN13 (Str ty (a +:+ String c b)) param sv = Some "" ->
   ruleISBN13 (Str ty (a +:+ String d b)) param sv = Some "" -> c = d) /\
  (ruleISBN10 (Str ty (a +:+ String c (String d b))) param sv = Some "" ->
   ruleISBN10 (Str ty (a +:+ String d (String c b))) param sv = Some "" -> c = d).
Proof.
  intros Hh.
  assert (forall x y, (ruleISBN10 (Str ty (a +:+ String x y)) param sv = Some "" -> string_has "-" (a +:+ String x y) = false -> isbn10_valid (a +:+ String x y)) /\
            (ruleISBN13 (Str ty (a +:+ String x y)) param sv = Some "" -> string_has "-" (a +:+ String x y) = false -> isbn13_valid (a +:+ String x y))) as Hv.
  { intros x y. destruct (isbn_valid ty (a +:+ String x y) param sv) as [H10 H13].
    split; intros Hr Hn; [apply H10 in Hr|apply H13 in Hr]; rewrite ReplaceAll_none in Hr by done;
      destruct Hr as [Hr|Hr]; try done; by destruct a. }
  apply string_has_mid in Hh as (Ha & Hc & Hd & Hb).
  repeat split; intros H1 H2; apply Hv in H1, H2;
    try (by rewrite string_has_app; cbn [string_has]; rewrite ?Ha, ?Hc, ?Hd, ?Hb).
  - by eapply isbn10_one.
  - by eapply isbn13_one.
  - by eapply isbn10_swap.
Qed.

(** The Luhn sum detects every error in one digit of a card number, and every
    exchange of two neighbours but that of 0 and 9. *)
Theorem luhn_detects ty a c d b param sv :
  string_has "-" (a +:+ String c (String d b)) = false -> string_has " " (a +:+ String c (String d b)) = false ->
  (ruleCreditCard (Str ty (a +:+ String c b)) param sv = Some "" ->
   ruleCreditCard (Str ty (a +:+ String d b)) param sv = Some "" -> c = d) /\
  (ruleCreditCard (Str ty (a +:+ String c (String d b))) param sv = Some "" ->
   ruleCreditCard (Str ty (a +:+ String d (String c b))) param sv = Some "" ->
   c = d \/ (c = "0" /\ d = "9")%char \/ (c = "9" /\ d = "0")%char).
Proof.
  intros Hh Hs.
  assert (forall x y, ruleCreditCard (Str ty (a +:+ String x y)) param sv = Some "" ->
            string_has "-" (a +:+ String x y) = false -> string_has " " (a +:+ String x y) = false -> luhn_valid (a +:+ String x y)) as Hv.
  { intros x y Hr Hn Hp. apply creditcard_valid in Hr. rewrite !ReplaceAll_none in Hr by done || (by rewrite ReplaceAll_none).
    destruct Hr as [Hr|Hr]; [by destruct a|done]. }
  apply string_has_mid in Hh as (Ha & Hc & Hd & Hb), Hs as (Ha' & Hc' & Hd' & Hb').
  split; intros H1 H2; apply Hv in H1, H2; try (by rewrite string_has_app; cbn [string_has]; rewrite ?Ha, ?Hc, ?Hd, ?Hb, ?Ha', ?Hc', ?Hd', ?Hb').
  - by eapply luhn_one.
  - by eapply luhn_swap.
Qed.
End Theorems.

#[local] Instance no_fmt : Fmt := {| Sprintf_v _ := "" |}.

Lemma isbn_detects_witness :
  ruleISBN10 (Str "string" "0-306-40615-2") "" Nil = Some "" /\ ruleISBN13 (Str "string" "978-0-306-40615-7") "" Nil = Some "" /\
  (ruleISBN10 (Str "string" ("030640" +:+ String "1" "152")) "" Nil = Some "" -> "6"%char = "1"%char).
Proof.
  split; [by vm_compute|]. split; [by vm_compute|].
  by refine (proj1 (isbn_detects "string" "030640" "6" "1" "152" "" Nil _) _).
Defined.

Lemma luhn_detects_witness :
  ruleCreditCard (Str "string" "4111111111111111") "" Nil = Some "" /\
  (ruleCreditCard (Str "string" ("411111111111111" +:+ String "2" "")) "" Nil = Some "" -> "1"%char = "2"%char).
Proof.
  split; [by vm_compute|].
  by refine (proj1 (luhn_detects "string" "411111111111111" "1" "2" "" "" Nil _ _) _).
Defined.
