(* ===== verification/Formats.v ===== *)
(** * What the rules of the validator accept ([pantry/validate/rules.go])

    The languages of the patterns in terms of places, pieces and labels, the
    comparisons with numbers, and the rules on values that they do not look
    into. *)

From Stdlib Require Import Floats.SpecFloat.
From S2P Require Import Prelude Float64 GoStrings Utf8 Strconv Regex Values Rules.
#[local] Open Scope list_scope.

(** ** Shapes *)

(** A pattern of classes only, place by place. *)
Definition places_agree (ks : list cls) (place : nat -> ascii -> bool) : bool :=
  forallb
    (fun i => match ks !! i with
              | Some k => forallb (fun n => Bool.eqb (in_cls k (ascii_of_nat n)) (place i (ascii_of_nat n))) (seq 0 256)
              | None => true
              end) (seq 0 (length ks)).

Lemma places_agree_spec ks place i k c :
  places_agree ks place = true -> ks !! i = Some k -> in_cls k c = place i c.
Proof.
  unfold places_agree. rewrite forallb_forall. intros H Hi.
  specialize (H i ltac:(apply in_seq; pose proof (lookup_lt_Some _ _ _ Hi); lia)). cbv beta in H. rewrite Hi in H.
  apply eqb_prop. by apply (ascii_forall (fun c => Bool.eqb (in_cls k c) (place i c))).
Qed.

Lemma matches_places r ks place s :
  fixed r = Some ks -> places_agree ks place = true ->
  MatchString r s = true <-> String.length s = length ks /\ forall i c, String.get i s = Some c -> place i c = true.
Proof.
  intros Hr Hp. rewrite MatchString_spec, (matches_fixed r ks s Hr), match_each_places. split; intros [Hl H]; (split; [done|]).
  - intros i c Hc. assert (is_Some (ks !! i)) as [k Hk].
    { apply lookup_lt_is_Some. rewrite <- Hl. by apply string_get_lt in Hc. }
    rewrite <- (places_agree_spec ks place i k c Hp Hk). by eapply H.
  - intros i k c Hk Hc. rewrite (places_agree_spec ks place i k c Hp Hk). by apply H.
Qed.

Definition is_letter (c : ascii) : bool := is_upper c || is_lower c.
Definition is_alnum (c : ascii) : bool := is_letter c || is_digit c.
Definition is_hex_digit (c : ascii) : bool :=
  is_digit c || ((65 <=? byte_code c) && (byte_code c <=? 70)) || ((97 <=? byte_code c) && (byte_code c <=? 102)).

Definition uuid_place (version : option ascii) (variant : bool) (i : nat) (c : ascii) : bool :=
  if existsb (Nat.eqb i) [8; 13; 18; 23]%nat then Ascii.eqb c "-"
  else if Nat.eqb i 14 then match version with Some v => Ascii.eqb c v | None => is_hex_digit c end
  else if Nat.eqb i 19 && variant then existsb (Ascii.eqb c) ["8"; "9"; "a"; "b"; "A"; "B"]%char
  else is_hex_digit c.

Definition is_uuid (version : option ascii) (variant : bool) (s : string) : Prop :=
  String.length s = 36%nat /\ forall i c, String.get i s = Some c -> uuid_place version variant i c = true.

(** A label of a host name. *)
Definition label_byte (c : ascii) : bool := is_alnum c || Ascii.eqb c "-".
Definition label (s : string) : Prop :=
  (1 <= String.length s <= 63)%nat /\ string_forall label_byte s = true /\
  HasPrefix s "-" = false /\ HasSuffix s "-" = false.

Definition domain (s : string) : Prop :=
  exists ls t, split_byte "." s = ls ++ [t] /\ ls <> [] /\ Forall label ls /\
    (2 <= String.length t)%nat /\ string_forall is_letter t = true.

Definition slug_byte (c : ascii) : bool := is_lower c || is_digit c.
Definition slug (s : string) : Prop :=
  Forall (fun p => p <> "" /\ string_forall slug_byte p = true) (split_byte "-" s).

Definition phone (s : string) : Prop :=
  exists c t, s = "+" +:+ String c t /\ is_digit c = true /\ c <> "0"%char /\
    (1 <= String.length t <= 14)%nat /\ string_forall is_digit t = true.

(** ** The languages of the patterns *)

Lemma in_one c d : in_cls (mkCls false [(d, d)]) c = Ascii.eqb c d.
Proof.
  apply eq_true_iff_eq. unfold in_cls, in_range. cbn. rewrite orb_false_r, Ascii.eqb_eq. split.
  - intros H. apply byte_code_inj. lia.
  - intros ->. lia.
Qed.

(** Two tests of bytes that agree on all 256. *)
Definition bytes_agree (f g : ascii -> bool) : bool :=
  forallb (fun n => Bool.eqb (f (ascii_of_nat n)) (g (ascii_of_nat n))) (seq 0 256).

Lemma bytes_agree_spec f g s : bytes_agree f g = true -> string_forall f s = string_forall g s.
Proof.
  intros H. assert (forall c, f c = g c) as Hc
    by (intros c; apply eqb_prop; by apply (ascii_forall (fun c => Bool.eqb (f c) (g c)))).
  induction s as [|c s IH]; [done|]. cbn. by rewrite Hc, IH.
Qed.

Definition alnum_cls : cls := mkCls false [("a", "z"); ("A", "Z"); ("0", "9")]%char.
Definition label_cls : cls := mkCls false [("a", "z"); ("A", "Z"); ("0", "9"); ("-", "-")]%char.

Lemma in_alnum c : in_cls alnum_cls c = is_alnum c.
Proof. apply eqb_prop. by apply (ascii_forall (fun c => Bool.eqb (in_cls alnum_cls c) (is_alnum c))). Qed.

Lemma label_byte_alnum c : is_alnum c = true -> label_byte c = true /\ Ascii.eqb c "-" = false.
Proof.
  intros Hc. pose proof (ascii_forall (fun c => negb (is_alnum c) || (label_byte c && negb (Ascii.eqb c "-"))) eq_refl c) as H.
  cbv beta in H. rewrite Hc in H. cbn [negb orb] in H. apply andb_prop in H as [H1 H2]. by destruct (Ascii.eqb c "-").
Qed.

Lemma label_alnum c : label_byte c = true -> Ascii.eqb c "-" = false -> is_alnum c = true.
Proof. unfold label_byte. intros [H|H]%orb_prop; [done|congruence]. Qed.

Definition label_re : re := Cat (Cls alnum_cls) (Opt (Cat (UpTo 61 (Cls label_cls)) (Cls alnum_cls))).

Lemma matches_label s : matches label_re s <-> label s.
Proof.
  unfold label_re, label. rewrite matches_cat. setoid_rewrite matches_opt. setoid_rewrite matches_cat.
  setoid_rewrite matches_upto_cls. setoid_rewrite matches_cls. setoid_rewrite in_alnum.
  assert (forall u, string_forall (in_cls label_cls) u = string_forall label_byte u) as Hl by (intros; by apply bytes_agree_spec).
  assert (forall c s, HasPrefix (String c s) "-" = Ascii.eqb c "-") as Hpre.
  { intros c u. apply eq_true_iff_eq. rewrite HasPrefix_spec, Ascii.eqb_eq. split; [by intros [r [= -> ->]]|]. intros ->. by exists u. }
  split.
  - intros (t & u & -> & (c & -> & Hc) & [(v & w & -> & (Hv & Hvf) & d & -> & Hd)| ->]).
    + destruct (label_byte_alnum c Hc) as [Hlc Hnc]. destruct (label_byte_alnum d Hd) as [Hld Hnd].
      cbn [String.append]. rewrite Hpre. change (String c (v +:+ String d "")) with (String c v +:+ String d "").
      rewrite HasSuffix_snoc, string_forall_app, string_length_app. cbn [string_forall String.length].
      rewrite Hl in Hvf. rewrite Hlc, Hld, Hvf, Hnc, Hnd. split; [lia|done].
    + destruct (label_byte_alnum c Hc) as [Hlc Hnc]. cbn [String.append]. rewrite Hpre, Hnc. cbn. rewrite Hlc.
      split; [lia|]. split; [done|]. split; [done|]. exact Hnc || (change (HasSuffix ("" +:+ String c "") "-" = false); by rewrite HasSuffix_snoc).
  - intros (Hlen & Hf & Hp & Hs). destruct s as [|c s]; [cbn in Hlen; lia|]. rewrite Hpre in Hp.
    cbn [string_forall] in Hf. apply andb_prop in Hf as [Hc Hf]. exists (String c ""), s.
    split; [done|]. split; [exists c; split; [done|by apply label_alnum]|].
    destruct (string_snoc s) as [->|(t & d & ->)]; [by right|left].
    change (String c (t +:+ String d "")) with (String c t +:+ String d "") in Hs. rewrite HasSuffix_snoc in Hs.
    rewrite string_forall_app in Hf. apply andb_prop in Hf as [Ht Hd]. cbn in Hd. rewrite andb_true_r in Hd.
    rewrite <- Hl in Ht. exists t, (String d ""). split; [done|]. cbn [String.length] in Hlen. rewrite string_length_app in Hlen.
    cbn in Hlen. split; [split; [lia|done]|]. exists d. split; [done|by apply label_alnum].
Qed.

Lemma hostname_label s : MatchString hostnameRegex s = true <-> label s.
Proof. rewrite MatchString_spec, <- matches_label. reflexivity. Qed.

Lemma label_no_dot x : label x -> string_has "." x = false.
Proof. intros (_ & Hf & _). by eapply string_forall_has. Qed.

Lemma matches_at_least n k s :
  matches (Cat (Times (S n) (Cls k)) (Star (Cls k))) s <-> (S n <= String.length s)%nat /\ string_forall (in_cls k) s = true.
Proof.
  assert (fixed (Times (S n) (Cls k)) = Some (replicate (S n) k)) as Hf.
  { induction n as [|n IH]; [done|]. change (Times (S (S n)) (Cls k)) with (Cat (Cls k) (Times (S n) (Cls k))).
    cbn [fixed]. by rewrite IH. }
  rewrite matches_cat. setoid_rewrite (matches_fixed _ _ _ Hf). setoid_rewrite match_each_replicate.
  setoid_rewrite matches_star_cls. split.
  - intros (t & u & -> & [Hl Ht] & Hu). rewrite string_length_app, string_forall_app, Ht, Hu. split; [lia|done].
  - intros [Hl Hs]. exists (str_take (S n) s), (str_drop (S n) s). rewrite str_take_drop. split; [done|].
    rewrite <- (str_take_drop (S n) s), string_forall_app in Hs. apply andb_prop in Hs as [Ht Hd].
    rewrite str_take_length. repeat split; [lia|done|done].
Qed.

Definition letter_cls : cls := mkCls false [("a", "z"); ("A", "Z")]%char.

Lemma fqdn_domain s : MatchString fqdnRegex s = true <-> domain s.
Proof.
  rewrite MatchString_spec. set (last := Cat (Times 2 (Cls letter_cls)) (Star (Cls letter_cls))).
  assert (fqdnRegex = Cat (Plus (Cat label_re (Chr "."))) last) as -> by reflexivity.
  assert (forall t, matches last t <-> (2 <= String.length t)%nat /\ string_forall is_letter t = true) as Hlast.
  { intros t. unfold last. rewrite matches_at_least. by rewrite (bytes_agree_spec _ is_letter). }
  assert (forall x, matches label_re x -> string_has "." x = false) as Hlab by (intros x Hx; by apply label_no_dot, matches_label).
  assert (forall x, matches last x -> string_has "." x = false) as Htop
    by (intros x [_ Hx]%Hlast; by eapply string_forall_has).
  pose proof (fun s => matches_terminated "." label_re Hlab last s Htop) as Hterm.
  unfold domain. split.
  - rewrite matches_cat. unfold Plus. setoid_rewrite matches_cat at 1. intros (t & u & -> & (v & w & -> & Hv & Hw) & Hu).
    apply matches_cat in Hv as (x & y & -> & Hx & ->%matches_chr).
    assert (matches (Cat (Star (Cat label_re (Chr "."))) last) (w +:+ u)) as Hr by (apply matches_cat; eauto).
    apply Hterm in Hr as (ls & t & Hsp & Hls & Ht). exists (x :: ls), t.
    rewrite <- !string_app_assoc. change (String "." "" +:+ (w +:+ u)) with (String "." (w +:+ u)).
    rewrite split_byte_app, Hsp by auto. apply Hlast in Ht as [H1 H2]. split; [done|]. split; [done|]. split; [|done].
    constructor; [by apply matches_label|]. eapply Forall_impl; [|exact Hls]. intros z. apply matches_label.
  - intros (ls & t & Hsp & Hne & Hls & Hlen & Hf). destruct ls as [|x ls]; [done|].
    destruct (split_byte_cases "." s) as [[_ H]|(a & b & -> & _ & H)]; rewrite H in Hsp.
    { injection Hsp as _ Hb. by destruct ls. }
    injection Hsp as -> Hb. inversion Hls as [|? ? Hx Hls']; subst.
    assert (matches (Cat (Star (Cat label_re (Chr "."))) last) b) as Hr.
    { apply Hterm. exists ls, t. split; [done|]. split; [|by apply Hlast].
      eapply Forall_impl; [|exact Hls']. intros z. apply matches_label. }
    apply matches_cat in Hr as (w & u & -> & Hw & Hu). unfold Plus. rewrite matches_cat.
    exists ((x +:+ String "." "") +:+ w), u. rewrite <- !string_app_assoc. split; [done|]. split; [|done].
    rewrite string_app_assoc. apply m_cat; [|done]. apply m_cat; [by apply matches_label|by apply matches_chr].
Qed.

Lemma slug_pieces s : MatchString slugRegex s = true <-> slug s.
Proof.
  rewrite MatchString_spec. set (w := Plus (Cls (mkCls false [("a", "z"); ("0", "9")]%char))).
  assert (slugRegex = Cat w (Star (Cat (Chr "-") w))) as -> by reflexivity.
  assert (forall x, matches w x <-> x <> "" /\ string_forall slug_byte x = true) as Hw.
  { intros x. unfold w. rewrite matches_plus_cls. by rewrite (bytes_agree_spec _ slug_byte). }
  rewrite matches_separated; [|intros x [_ Hx]%Hw; by eapply string_forall_has].
  unfold slug. split; apply Forall_impl; intros x; apply Hw.
Qed.

Lemma e164_phone s : MatchString e164Regex s = true <-> phone s.
Proof.
  rewrite MatchString_spec.
  assert (e164Regex = Cat (Cat (Chr "+") (Cls (mkCls false [("1", "9")%char])))
            (Cat (Times 1 (Cls (mkCls false [digit_range]))) (UpTo 13 (Cls (mkCls false [digit_range]))))) as -> by reflexivity.
  assert (forall c, in_cls (mkCls false [("1", "9")%char]) c = is_digit c && negb (Ascii.eqb c "0")) as H19.
  { intros c. apply eqb_prop. by apply (ascii_forall (fun c => Bool.eqb (in_cls (mkCls false [("1", "9")%char]) c) (is_digit c && negb (Ascii.eqb c "0")))). }
  unfold phone. cbn [Times]. rewrite matches_cat. repeat setoid_rewrite matches_cat. setoid_rewrite matches_chr.
  setoid_rewrite matches_cls. setoid_rewrite matches_upto_cls. setoid_rewrite H19. split.
  - intros (t & u & -> & (a & b & -> & -> & (c & -> & Hc)) & (v & w & -> & (d & -> & Hd) & Hl & Hw)).
    apply andb_prop in Hc as [Hc Hc0]. apply negb_true_iff, Ascii.eqb_neq in Hc0.
    exists c, (String d w). rewrite <- !string_app_assoc. split; [done|]. split; [done|]. split; [done|].
    cbn [String.length string_forall]. split; [lia|]. rewrite (bytes_agree_spec _ is_digit) in Hw by done. rewrite Hw, andb_true_r.
    rewrite <- Hd. symmetry. apply eqb_prop. by apply (ascii_forall (fun c => Bool.eqb (in_cls (mkCls false [digit_range]) c) (is_digit c))).
  - intros (c & t & -> & Hc & Hc0 & Hl & Ht). destruct t as [|d w]; [cbn in Hl; lia|].
    cbn [String.length string_forall] in *. apply andb_prop in Ht as [Hd Hw].
    exists (String "+" (String c "")), (String d w). split; [done|]. split.
    + exists (String "+" ""), (String c ""). split; [done|]. split; [done|]. exists c. split; [done|].
      rewrite Hc. apply negb_true_iff. by apply Ascii.eqb_neq.
    + exists (String d ""), w. split; [done|]. split.
      * exists d. split; [done|]. rewrite <- Hd. apply eqb_prop.
        by apply (ascii_forall (fun c => Bool.eqb (in_cls (mkCls false [digit_range]) c) (is_digit c))).
      * split; [lia|]. by rewrite (bytes_agree_spec _ is_digit).
Qed.

(** An address: a name, an at sign, and a domain whose last piece is two letters or
    more. *)
Definition local_byte (c : ascii) : bool :=
  is_alnum c || existsb (Ascii.eqb c) ["."; "_"; "%"; "+"; "-"]%char.
Definition domain_byte (c : ascii) : bool := is_alnum c || Ascii.eqb c "." || Ascii.eqb c "-".

Definition email (s : string) : Prop :=
  exists l d t, s = l +:+ String "@" (d +:+ String "." t) /\
    l <> "" /\ string_forall local_byte l = true /\ d <> "" /\ string_forall domain_byte d = true /\
    (2 <= String.length t)%nat /\ string_forall is_letter t = true.

Lemma email_shape s : MatchString emailRegex s = true <-> email s.
Proof.
  rewrite MatchString_spec.
  set (loc := mkCls false [("a", "z"); ("A", "Z"); ("0", "9"); (".", "."); ("_", "_"); ("%", "%"); ("+", "+"); ("-", "-")]%char).
  set (dom := mkCls false [("a", "z"); ("A", "Z"); ("0", "9"); (".", "."); ("-", "-")]%char).
  assert (emailRegex = Cat (Cat (Cat (Cat (Plus (Cls loc)) (Chr "@")) (Plus (Cls dom))) (Chr "."))
            (Cat (Times 2 (Cls letter_cls)) (Star (Cls letter_cls)))) as -> by reflexivity.
  assert (forall u, string_forall (in_cls loc) u = string_forall local_byte u) as Hloc by (intros; by apply bytes_agree_spec).
  assert (forall u, string_forall (in_cls dom) u = string_forall domain_byte u) as Hdom by (intros; by apply bytes_agree_spec).
  assert (forall u, string_forall (in_cls letter_cls) u = string_forall is_letter u) as Hlet by (intros; by apply bytes_agree_spec).
  split.
  - intros (x & t & -> & (y & z & -> & (u & d & -> & (l & a & -> & Hl & ->%matches_chr)%matches_cat & Hd)%matches_cat & ->%matches_chr)%matches_cat & Ht)%matches_cat.
    apply matches_plus_cls in Hl as [Hl0 Hl], Hd as [Hd0 Hd]. apply matches_at_least in Ht as [Ht0 Ht].
    rewrite Hloc in Hl. rewrite Hdom in Hd. rewrite Hlet in Ht. exists l, d, t. rewrite <- !string_app_assoc. by repeat split.
  - intros (l & d & t & -> & Hl0 & Hl & Hd0 & Hd & Ht0 & Ht). rewrite <- Hloc in Hl. rewrite <- Hdom in Hd. rewrite <- Hlet in Ht.
    change (String "@" (d +:+ String "." t)) with (String "@" "" +:+ (d +:+ (String "." "" +:+ t))). rewrite !string_app_assoc.
    repeat apply m_cat; try (by apply matches_chr); [by apply matches_plus_cls|by apply matches_plus_cls|by apply matches_at_least].
Qed.

Lemma email_has_at s : MatchString emailRegex s = true -> string_has "@" s = true.
Proof.
  intros (l & d & t & -> & _)%email_shape. rewrite string_has_app. cbn. by rewrite orb_true_r.
Qed.


(** ** Theorems *)

Lemma on_pattern_pass `{Fmt} key r ty s param sv :
  key <> "" -> on_pattern key r (Str ty s) param sv = Some "" <-> s = "" \/ MatchString r s = true.
Proof.
  intros Hk. unfold on_pattern, on_text, pass, fails. cbn [toString].
  destruct (String.eqb_spec s ""); [naive_solver|]. destruct (MatchString r s); naive_solver.
Qed.

(** The rules for names: a slug is pieces of lower-case letters and digits with
    single hyphens between them; a host name is one label (63 letters, digits and
    hyphens at most, none of the latter at an end); a domain is labels with dots
    between them, at least two, the last one of letters only; a phone number is a
    plus sign and two to fifteen digits, the first not zero; an address is a name,
    an at sign and a domain that ends in a dot and two letters or more. *)
Theorem names_spec `{Fmt} ty s param sv :
  (ruleSlug (Str ty s) param sv = Some "" <-> s = "" \/ slug s) /\
  (ruleHostname (Str ty s) param sv = Some "" <-> s = "" \/ label s) /\
  (ruleFQDN (Str ty s) param sv = Some "" <-> s = "" \/ domain s) /\
  (ruleE164 (Str ty s) param sv = Some "" <-> s = "" \/ phone s) /\
  (ruleEmail (Str ty s) param sv = Some "" <-> s = "" \/ email s).
Proof.
  unfold ruleSlug, ruleFQDN, ruleE164, ruleEmail. rewrite !on_pattern_pass, slug_pieces, fqdn_domain, e164_phone, email_shape by done.
  split; [done|]. split; [|done]. unfold ruleHostname, on_text, pass, fails. cbn [toString].
  destruct (String.eqb_spec s "") as [|Hs]; [naive_solver|]. rewrite <- hostname_label.
  destruct (MatchString hostnameRegex s) eqn:Hm; cbn [negb]; [|rewrite orb_true_r; naive_solver].
  apply hostname_label in Hm as (Hl & _). rewrite orb_false_r, (proj2 (Z.ltb_ge _ _)) by lia. naive_solver.
Qed.

(** The rules for UUIDs look at every one of the 36 places: hyphens, the version,
    for versions 4 and 5 the variant, and hexadecimal digits. *)
Theorem uuid_spec `{Fmt} ty s param sv :
  (ruleUUID (Str ty s) param sv = Some "" <-> s = "" \/ is_uuid None false s) /\
  (ruleUUID3 (Str ty s) param sv = Some "" <-> s = "" \/ is_uuid (Some "3"%char) false s) /\
  (ruleUUID4 (Str ty s) param sv = Some "" <-> s = "" \/ is_uuid (Some "4"%char) true s) /\
  (ruleUUID5 (Str ty s) param sv = Some "" <-> s = "" \/ is_uuid (Some "5"%char) true s).
Proof.
  unfold ruleUUID, ruleUUID3, ruleUUID4, ruleUUID5. rewrite !on_pattern_pass by done. unfold is_uuid.
  assert (forall r v b,
    match fixed r with Some ks => Nat.eqb (length ks) 36 && places_agree ks (uuid_place v b) | None => false end = true ->
    MatchString r s = true <-> String.length s = 36%nat /\ forall i c, String.get i s = Some c -> uuid_place v b i c = true) as Hr.
  { intros r v b Hc. destruct (fixed r) as [ks|] eqn:Hf; [|done]. apply andb_prop in Hc as [Hl%Nat.eqb_eq Hp].
    rewrite (matches_places r ks (uuid_place v b)) by done. by rewrite Hl. }
  rewrite (Hr uuidRegex None false), (Hr uuid3Regex (Some "3"%char) false), (Hr uuid4Regex (Some "4"%char) true),
    (Hr uuid5Regex (Some "5"%char) true); [done|..]; by vm_compute.
Qed.

(** [SimpleEmailValid] never refuses what the rule accepts; it is a weaker check. *)
Lemma Contains_has d c t : Contains (d +:+ String c t) (String c "") = true.
Proof.
  induction d as [|x d IH]; cbn [String.append Contains].
  - assert (HasPrefix (String c t) (String c "") = true) as -> by (apply HasPrefix_spec; by exists t). done.
  - rewrite IH. by rewrite orb_true_r.
Qed.

Theorem SimpleEmailValid_weaker `{Fmt} ty s param sv :
  s <> "" -> ruleEmail (Str ty s) param sv = Some "" -> SimpleEmailValid s = true.
Proof.
  intros Hs. unfold ruleEmail. rewrite on_pattern_pass by done. intros [?|(l & d & t & -> & Hl0 & Hl & Hd0 & Hd & Ht0 & Ht)%email_shape]; [done|].
  unfold SimpleEmailValid. rewrite TrimSpace_no_space.
  - rewrite cut_byte_app by (by eapply string_forall_has). rewrite (proj2 (String.eqb_neq _ _) Hl0).
    assert (String.eqb (d +:+ String "." t) "" = false) as -> by (by destruct d). apply Contains_has.
  - rewrite no_space_forall, string_forall_app. cbn [string_forall]. rewrite string_forall_app. cbn [string_forall].
    assert (forall f u, (forall c, negb (f c) || negb (is_space c) = true) -> string_forall f u = true -> string_forall (fun c => negb (is_space c)) u = true) as Hsp.
    { intros g u Hg. apply string_forall_impl. intros c Hc. specialize (Hg c). by rewrite Hc in Hg. }
    rewrite (Hsp local_byte l), (Hsp domain_byte d), (Hsp is_letter t); try done; by apply ascii_forall.
Qed.

Lemma SimpleEmailValid_weaker_witness : SimpleEmailValid "ann@example.com" = true /\ SimpleEmailValid "ann@localhost" = false.
Proof.
  split; [|done]. by apply (@SimpleEmailValid_weaker {| Sprintf_v _ := "" |} "string" "ann@example.com" "" Nil).
Defined.

(** ** Numbers *)

Lemma split_bounds p q : 0 <= p -> 0 <= q -> split_byte "|" (Itoa p +:+ String "|" (Itoa q)) = [Itoa p; Itoa q].
Proof. intros Hp Hq. rewrite split_byte_app, split_byte_none by (by apply Itoa_has). done. Qed.

(** What the rules of size measure, when it is an integer. *)
Inductive measures : value -> Z -> Prop :=
| measures_string ty s : measures (Str ty s) (rune_count s)
| measures_slice ty l : measures (Slice ty l) (Z.of_nat (length (opt_list l)))
| measures_array ty l : measures (Array ty l) (Z.of_nat (length l))
| measures_map ty l : measures (Map ty l) (Z.of_nat (length (opt_list l)))
| measures_int ty z : measures (Int ty z) z
| measures_uint ty z : measures (Uint ty z) z.

Lemma measures_size v n : measures v n -> size v = Some (f64_of_int n).
Proof. by destruct 1. Qed.

(** With integer parameters below 2^53 the rules of size compare exactly, by runes
    for a string, by elements for a collection and by value for an integer. *)
Theorem size_exact v n p q sv :
  measures v n -> exact_signed n -> exact_signed p -> exact_signed q ->
  (ruleMin v (Itoa p) sv = Some "" <-> p <= n) /\
  (ruleMax v (Itoa p) sv = Some "" <-> n <= p) /\
  (0 <= p -> 0 <= q -> ruleBetween v (Itoa p +:+ String "|" (Itoa q)) sv = Some "" <-> p <= n <= q).
Proof.
  intros Hv Hn Hp Hq. unfold ruleMin, ruleMax, ruleBetween, pass, fails.
  rewrite (measures_size v n Hv), !ParseFloat_Itoa, !f64_lt_signed by done.
  split; [destruct (n <? p) eqn:?; split; (done || lia)|].
  split; [destruct (p <? n) eqn:?; split; (done || lia)|].
  intros Hp0 Hq0. rewrite split_bounds, !ParseFloat_Itoa, !f64_lt_signed by done.
  destruct (n <? p) eqn:?, (q <? n) eqn:?; cbn [orb]; split; (done || lia).
Qed.

Lemma size_exact_witness :
  ruleMin (Str "string" "ab") (Itoa 3) Nil = Some "min" /\ ruleMin (Int "int" 18) (Itoa 18) Nil = Some "" /\
  (ruleMax (Slice "[]int" (Some [Nil; Nil])) (Itoa 2) Nil = Some "" <-> 2 <= 2).
Proof.
  split; [by vm_compute|]. split; [by vm_compute|].
  apply (size_exact _ 2 2 5 Nil (measures_slice "[]int" (Some [Nil; Nil]))); done.
Defined.

(** So do the comparisons, of an integer with the parameter or with another field. *)
Theorem comparisons_exact ty n ty' p name sv :
  exact_signed n -> exact_signed p -> getFieldValue sv name = Some (Some (Int ty' p)) ->
  (ruleGt (Int ty n) (Itoa p) sv = Some "" <-> p < n) /\ (ruleGte (Int ty n) (Itoa p) sv = Some "" <-> p <= n) /\
  (ruleLt (Int ty n) (Itoa p) sv = Some "" <-> n < p) /\ (ruleLte (Int ty n) (Itoa p) sv = Some "" <-> n <= p) /\
  (ruleGtField (Int ty n) name sv = Some "" <-> p < n) /\ (ruleGteField (Int ty n) name sv = Some "" <-> p <= n) /\
  (ruleLtField (Int ty n) name sv = Some "" <-> n < p) /\ (ruleLteField (Int ty n) name sv = Some "" <-> n <= p).
Proof.
  intros Hn Hp Hf. unfold ruleGt, ruleGte, ruleLt, ruleLte, ruleGtField, ruleGteField, ruleLtField, ruleLteField, on_numbers, on_fields, pass, fails.
  cbn [is_nil]. rewrite Hf, ParseFloat_Itoa by done. unfold toFloat. cbn [contents].
  rewrite !f64_lt_signed, !f64_le_signed by done.
  destruct (n <=? p) eqn:?, (n <? p) eqn:?, (p <=? n) eqn:?, (p <? n) eqn:?; repeat split; (done || lia).
Qed.

Lemma comparisons_exact_witness :
  ruleGtField (Int "int" 3) "Min" (Struct "Form" [(mkField "Min" true [], Int "int" 5)]) = Some "gtfield" /\
  (ruleGt (Int "int" 7) (Itoa 5) (Struct "Form" [(mkField "Min" true [], Int "int" 5)]) = Some "" <-> 5 < 7).
Proof.
  split; [by vm_compute|].
  apply (comparisons_exact "int" 7 "int" 5 "Min" (Struct "Form" [(mkField "Min" true [], Int "int" 5)])); done.
Defined.

(** Beyond 2^53 an integer and its neighbour are the same float64: a value above
    the maximum passes, and one that is less counts as equal. *)
Theorem comparisons_round :
  ruleMax (Int "int64" 9007199254740993) "9007199254740992" Nil = Some "" /\
  ruleMin (Int "int64" 9007199254740992) "9007199254740993" Nil = Some "" /\
  ruleGt (Int "int64" 9007199254740993) "9007199254740992" Nil = Some "gt".
Proof. by vm_compute. Qed.

(** Degrees are within their bounds, for integers; but a NaN, or a text that reads
    as one, is a latitude and a longitude. *)
Theorem degrees_spec ty n param sv :
  exact_signed n ->
  (ruleLatitude (Int ty n) param sv = Some "" <-> -90 <= n <= 90) /\
  (ruleLongitude (Int ty n) param sv = Some "" <-> -180 <= n <= 180) /\
  ruleLatitude (Float "float64" S754_nan) param sv = Some "" /\ ruleLongitude (Str "string" "NaN") param sv = Some "".
Proof.
  intros Hn. unfold ruleLatitude, ruleLongitude, on_degrees, pass, fails. cbn [is_nil]. unfold toFloat. cbn [contents].
  rewrite !f64_lt_signed by (done || (unfold exact_signed; lia)).
  change (Z.opp 90) with (-90). change (Z.opp 180) with (-180).
  split; [destruct (n <? -90) eqn:?, (90 <? n) eqn:?; split; (done || lia)|].
  split; [destruct (n <? -180) eqn:?, (180 <? n) eqn:?; split; (done || lia)|]. by split.
Qed.

Lemma degrees_spec_witness : ruleLatitude (Int "int" 91) "" Nil = Some "latitude" /\ (ruleLatitude (Int "int" 90) "" Nil = Some "" <-> -90 <= 90 <= 90).
Proof. split; [by vm_compute|]. by apply (degrees_spec "int" 90 "" Nil). Defined.

(** ** Values that a rule does not look into *)

(** The rules of size, length and comparison let every pointer pass, whatever it
    points to, and those of comparison every struct, such as a [time.Time]. *)
Theorem unmeasured_pass v param sv :
  (exists ty p, contents v = Ptr ty p) \/ (exists ty fs, contents v = Struct ty fs) ->
  ruleMin v param sv = Some "" /\ ruleMax v param sv = Some "" /\ ruleLen v param sv = Some "" /\
  ruleBetween v param sv = Some "" /\ ruleGt v param sv = Some "" /\ ruleLt v param sv = Some "" /\
  (getFieldValue sv param <> None -> ruleGtField v param sv = Some "" /\ ruleLtField v param sv = Some "").
Proof.
  intros Hv.
  assert (size v = None) as Hsize by (unfold size; by destruct Hv as [(? & ? & ->)|(? & ? & ->)]).
  assert (toFloat v = None) as Hfloat by (unfold toFloat; by destruct Hv as [(? & ? & ->)|(? & ? & ->)]).
  unfold ruleMin, ruleMax, ruleLen, ruleBetween, ruleGt, ruleLt, ruleGtField, ruleLtField, on_numbers, on_fields, pass.
  rewrite Hsize, Hfloat.
  split; [by destruct (ParseFloat param)|]. split; [by destruct (ParseFloat param)|].
  split; [destruct (Atoi param); [|done]; by destruct Hv as [(? & ? & ->)|(? & ? & ->)]|].
  split; [by destruct (split_byte _ _) as [|? [|? [|]]]; try done; repeat case_match|].
  split; [by repeat case_match|]. split; [by repeat case_match|].
  intros Hf. destruct (getFieldValue sv param) as [[|]|]; done.
Qed.

Lemma unmeasured_pass_witness :
  ruleGtField (Stringer "2024-01-01" (Struct "time.Time" [])) "Start"
    (Struct "Form" [(mkField "Start" true [], Stringer "2025-01-01" (Struct "time.Time" []))]) = Some "" /\
  ruleMin (Ptr "*int" (Some (1, Int "int" 3))) "18" Nil = Some "".
Proof.
  split.
  - destruct (unmeasured_pass (Stringer "2024-01-01" (Struct "time.Time" [])) "Start"
      (Struct "Form" [(mkField "Start" true [], Stringer "2025-01-01" (Struct "time.Time" []))])) as (_ & _ & _ & _ & _ & _ & H).
    + right. by eexists _, _.
    + by apply H.
  - refine (proj1 (unmeasured_pass (Ptr "*int" (Some (1, Int "int" 3))) "18" Nil _)). left. by eexists _, _.
Defined.

(** The email rule looks at the text of a pointer, which has no at sign: a nil pointer
    and a pointer to a valid address are both refused. *)
Theorem pointers_refused `{Fmt} addr ty v param sv :
  string_has "@" (Sprintf_v (Ptr ty None)) = false -> string_has "@" (Sprintf_v (Ptr ty (Some (addr, v)))) = false ->
  Sprintf_v (Ptr ty None) <> "" -> Sprintf_v (Ptr ty (Some (addr, v))) <> "" ->
  ruleEmail (Ptr ty None) param sv = Some "email" /\ ruleEmail (Ptr ty (Some (addr, v))) param sv = Some "email".
Proof.
  intros H1 H2 H3 H4. unfold ruleEmail, on_pattern, on_text, fails. cbn [toString].
  assert (forall s, string_has "@" s = false -> MatchString emailRegex s = false) as Hno.
  { intros s Hs. apply not_true_is_false. intros Hm%email_has_at. congruence. }
  rewrite (proj2 (String.eqb_neq _ _) H3), (proj2 (String.eqb_neq _ _) H4). by rewrite !Hno.
Qed.

#[local] Instance address_fmt : Fmt := {| Sprintf_v v := match v with Ptr _ (Some _) => "0xc000012345" | _ => "<nil>" end |}.

Lemma pointers_refused_witness :
  ruleEmail (Ptr "*string" None) "" Nil = Some "email" /\
  ruleEmail (Ptr "*string" (Some (1, Str "string" "ann@example.com"))) "" Nil = Some "email".
Proof. by apply (pointers_refused 1 "*string" (Str "string" "ann@example.com") "" Nil). Defined.
