(* ===== verification/Messages.v ===== *)
(** * Messages of the validator ([pantry/validate/messages.go])

    The message provider and the tables of the built-in locales.  A table is a Go
    map, which providers share: a provider holds references into a store of
    tables, where the tables of the package have the addresses 0 to 6. *)

From S2P Require Import Prelude GoStrings.
#[local] Open Scope list_scope.

(** ** The tables *)

Definition defaultEnglishMessages : gmap string string := list_to_map
  [("required", "{field} is required");
   ("email", "{field} must be a valid email address");
   ("url", "{field} must be a valid URL");
   ("uri", "{field} must be a valid URI");
   ("uuid", "{field} must be a valid UUID");
   ("uuid3", "{field} must be a valid UUID v3");
   ("uuid4", "{field} must be a valid UUID v4");
   ("uuid5", "{field} must be a valid UUID v5");
   ("ulid", "{field} must be a valid ULID");
   ("alpha", "{field} must contain only letters");
   ("alphanum", "{field} must contain only letters and numbers");
   ("alphanumspace", "{field} must contain only letters, numbers, and spaces");
   ("numeric", "{field} must be a number");
   ("hexadecimal", "{field} must be a valid hexadecimal value");
   ("hexcolor", "{field} must be a valid hex color");
   ("rgb", "{field} must be a valid RGB color");
   ("rgba", "{field} must be a valid RGBA color");
   ("hsl", "{field} must be a valid HSL color");
   ("hsla", "{field} must be a valid HSLA color");
   ("json", "{field} must be valid JSON");
   ("jwt", "{field} must be a valid JWT token");
   ("base64", "{field} must be valid Base64");
   ("base64url", "{field} must be valid Base64URL");
   ("isbn", "{field} must be a valid ISBN");
   ("isbn10", "{field} must be a valid ISBN-10");
   ("isbn13", "{field} must be a valid ISBN-13");
   ("issn", "{field} must be a valid ISSN");
   ("ascii", "{field} must contain only ASCII characters");
   ("printascii", "{field} must contain only printable ASCII characters");
   ("multibyte", "{field} must contain multibyte characters");
   ("lowercase", "{field} must be lowercase");
   ("uppercase", "{field} must be uppercase");
   ("min", "{field} must be at least {param}");
   ("max", "{field} must be at most {param}");
   ("len", "{field} must be exactly {param}");
   ("between", "{field} must be between {min} and {max}");
   ("eq", "{field} must equal {param}");
   ("ne", "{field} must not equal {param}");
   ("gt", "{field} must be greater than {param}");
   ("gte", "{field} must be greater than or equal to {param}");
   ("lt", "{field} must be less than {param}");
   ("lte", "{field} must be less than or equal to {param}");
   ("eqfield", "{field} must equal {param}");
   ("nefield", "{field} must not equal {param}");
   ("gtfield", "{field} must be greater than {param}");
   ("gtefield", "{field} must be greater than or equal to {param}");
   ("ltfield", "{field} must be less than {param}");
   ("ltefield", "{field} must be less than or equal to {param}");
   ("ip", "{field} must be a valid IP address");
   ("ipv4", "{field} must be a valid IPv4 address");
   ("ipv6", "{field} must be a valid IPv6 address");
   ("cidr", "{field} must be a valid CIDR notation");
   ("cidrv4", "{field} must be a valid CIDR v4 notation");
   ("cidrv6", "{field} must be a valid CIDR v6 notation");
   ("mac", "{field} must be a valid MAC address");
   ("hostname", "{field} must be a valid hostname");
   ("fqdn", "{field} must be a valid FQDN");
   ("contains", "{field} must contain '{param}'");
   ("containsany", "{field} must contain at least one of '{param}'");
   ("containsrune", "{field} must contain the character '{param}'");
   ("excludes", "{field} must not contain '{param}'");
   ("excludesall", "{field} must not contain any of '{param}'");
   ("excludesrune", "{field} must not contain the character '{param}'");
   ("startswith", "{field} must start with '{param}'");
   ("endswith", "{field} must end with '{param}'");
   ("startsnotwith", "{field} must not start with '{param}'");
   ("endsnotwith", "{field} must not end with '{param}'");
   ("regex", "{field} must match the pattern {param}");
   ("datetime", "{field} must be a valid datetime in format {param}");
   ("date", "{field} must be a valid date");
   ("time", "{field} must be a valid time");
   ("timezone", "{field} must be a valid timezone");
   ("duration", "{field} must be a valid duration");
   ("oneof", "{field} must be one of [{param}]");
   ("enum", "{field} must be one of [{param}]");
   ("unique", "{field} must contain unique values");
   ("creditcard", "{field} must be a valid credit card number");
   ("e164", "{field} must be a valid E.164 phone number");
   ("countrycode", "{field} must be a valid country code");
   ("languagecode", "{field} must be a valid language code");
   ("bcp47", "{field} must be a valid BCP 47 language tag");
   ("filepath", "{field} must be a valid file path");
   ("dirpath", "{field} must be a valid directory path");
   ("semver", "{field} must be a valid semantic version");
   ("boolean", "{field} must be a boolean value");
   ("cvv", "{field} must be a valid CVV");
   ("latitude", "{field} must be a valid latitude");
   ("longitude", "{field} must be a valid longitude");
   ("postcode", "{field} must be a valid postal code");
   ("slug", "{field} must be a valid URL slug");
   ("strongpassword", "{field} must be a strong password (min 8 chars, uppercase, lowercase, number, special char)")].

Definition spanishMessages : gmap string string := list_to_map
  [("required", "{field} es obligatorio");
   ("email", "{field} debe ser una dirección de correo válida");
   ("url", "{field} debe ser una URL válida");
   ("min", "{field} debe ser al menos {param}");
   ("max", "{field} debe ser como máximo {param}");
   ("len", "{field} debe tener exactamente {param}");
   ("between", "{field} debe estar entre {min} y {max}");
   ("eq", "{field} debe ser igual a {param}");
   ("ne", "{field} no debe ser igual a {param}");
   ("gt", "{field} debe ser mayor que {param}");
   ("gte", "{field} debe ser mayor o igual que {param}");
   ("lt", "{field} debe ser menor que {param}");
   ("lte", "{field} debe ser menor o igual que {param}");
   ("alpha", "{field} solo debe contener letras");
   ("alphanum", "{field} solo debe contener letras y números");
   ("numeric", "{field} debe ser un número");
   ("oneof", "{field} debe ser uno de [{param}]");
   ("uuid", "{field} debe ser un UUID válido");
   ("ip", "{field} debe ser una dirección IP válida");
   ("ipv4", "{field} debe ser una dirección IPv4 válida");
   ("ipv6", "{field} debe ser una dirección IPv6 válida");
   ("creditcard", "{field} debe ser un número de tarjeta de crédito válido");
   ("strongpassword", "{field} debe ser una contraseña segura (mín 8 caracteres, mayúscula, minúscula, número, carácter especial)")].

Definition frenchMessages : gmap string string := list_to_map
  [("required", "{field} est obligatoire");
   ("email", "{field} doit être une adresse email valide");
   ("url", "{field} doit être une URL valide");
   ("min", "{field} doit être au moins {param}");
   ("max", "{field} doit être au maximum {param}");
   ("len", "{field} doit être exactement {param}");
   ("between", "{field} doit être entre {min} et {max}");
   ("eq", "{field} doit être égal à {param}");
   ("ne", "{field} ne doit pas être égal à {param}");
   ("gt", "{field} doit être supérieur à {param}");
   ("gte", "{field} doit être supérieur ou égal à {param}");
   ("lt", "{field} doit être inférieur à {param}");
   ("lte", "{field} doit être inférieur ou égal à {param}");
   ("alpha", "{field} ne doit contenir que des lettres");
   ("alphanum", "{field} ne doit contenir que des lettres et des chiffres");
   ("numeric", "{field} doit être un nombre");
   ("oneof", "{field} doit être l'un des [{param}]");
   ("uuid", "{field} doit être un UUID valide");
   ("ip", "{field} doit être une adresse IP valide");
   ("creditcard", "{field} doit être un numéro de carte de crédit valide");
   ("strongpassword", "{field} doit être un mot de passe fort (min 8 caractères, majuscule, minuscule, chiffre, caractère spécial)")].

Definition germanMessages : gmap string string := list_to_map
  [("required", "{field} ist erforderlich");
   ("email", "{field} muss eine gültige E-Mail-Adresse sein");
   ("url", "{field} muss eine gültige URL sein");
   ("min", "{field} muss mindestens {param} sein");
   ("max", "{field} darf höchstens {param} sein");
   ("len", "{field} muss genau {param} sein");
   ("between", "{field} muss zwischen {min} und {max} liegen");
   ("eq", "{field} muss gleich {param} sein");
   ("ne", "{field} darf nicht gleich {param} sein");
   ("gt", "{field} muss größer als {param} sein");
   ("gte", "{field} muss größer oder gleich {param} sein");
   ("lt", "{field} muss kleiner als {param} sein");
   ("lte", "{field} muss kleiner oder gleich {param} sein");
   ("alpha", "{field} darf nur Buchstaben enthalten");
   ("alphanum", "{field} darf nur Buchstaben und Zahlen enthalten");
   ("numeric", "{field} muss eine Zahl sein");
   ("oneof", "{field} muss einer von [{param}] sein");
   ("uuid", "{field} muss eine gültige UUID sein");
   ("ip", "{field} muss eine gültige IP-Adresse sein");
   ("creditcard", "{field} muss eine gültige Kreditkartennummer sein");
   ("strongpassword", "{field} muss ein starkes Passwort sein (min 8 Zeichen, Großbuchstabe, Kleinbuchstabe, Zahl, Sonderzeichen)")].

Definition portugueseMessages : gmap string string := list_to_map
  [("required", "{field} é obrigatório");
   ("email", "{field} deve ser um endereço de email válido");
   ("url", "{field} deve ser uma URL válida");
   ("min", "{field} deve ter no mínimo {param}");
   ("max", "{field} deve ter no máximo {param}");
   ("len", "{field} deve ter exatamente {param}");
   ("between", "{field} deve estar entre {min} e {max}");
   ("eq", "{field} deve ser igual a {param}");
   ("ne", "{field} não deve ser igual a {param}");
   ("gt", "{field} deve ser maior que {param}");
   ("gte", "{field} deve ser maior ou igual a {param}");
   ("lt", "{field} deve ser menor que {param}");
   ("lte", "{field} deve ser menor ou igual a {param}");
   ("alpha", "{field} deve conter apenas letras");
   ("alphanum", "{field} deve conter apenas letras e números");
   ("numeric", "{field} deve ser um número");
   ("oneof", "{field} deve ser um de [{param}]");
   ("uuid", "{field} deve ser um UUID válido");
   ("ip", "{field} deve ser um endereço IP válido");
   ("creditcard", "{field} deve ser um número de cartão de crédito válido");
   ("strongpassword", "{field} deve ser uma senha forte (mín 8 caracteres, maiúscula, minúscula, número, caractere especial)")].

Definition chineseMessages : gmap string string := list_to_map
  [("required", "{field}是必填项");
   ("email", "{field}必须是有效的电子邮件地址");
   ("url", "{field}必须是有效的URL");
   ("min", "{field}必须至少为{param}");
   ("max", "{field}必须最多为{param}");
   ("len", "{field}必须正好为{param}");
   ("between", "{field}必须在{min}和{max}之间");
   ("eq", "{field}必须等于{param}");
   ("ne", "{field}不能等于{param}");
   ("gt", "{field}必须大于{param}");
   ("gte", "{field}必须大于或等于{param}");
   ("lt", "{field}必须小于{param}");
   ("lte", "{field}必须小于或等于{param}");
   ("alpha", "{field}只能包含字母");
   ("alphanum", "{field}只能包含字母和数字");
   ("numeric", "{field}必须是数字");
   ("oneof", "{field}必须是[{param}]之一");
   ("uuid", "{field}必须是有效的UUID");
   ("ip", "{field}必须是有效的IP地址");
   ("creditcard", "{field}必须是有效的信用卡号");
   ("strongpassword", "{field}必须是强密码（至少8个字符，大写字母，小写字母，数字，特殊字符）")].

Definition japaneseMessages : gmap string string := list_to_map
  [("required", "{field}は必須です");
   ("email", "{field}は有効なメールアドレスである必要があります");
   ("url", "{field}は有効なURLである必要があります");
   ("min", "{field}は{param}以上である必要があります");
   ("max", "{field}は{param}以下である必要があります");
   ("len", "{field}は正確に{param}である必要があります");
   ("between", "{field}は{min}から{max}の間である必要があります");
   ("eq", "{field}は{param}と等しい必要があります");
   ("ne", "{field}は{param}と等しくない必要があります");
   ("gt", "{field}は{param}より大きい必要があります");
   ("gte", "{field}は{param}以上である必要があります");
   ("lt", "{field}は{param}より小さい必要があります");
   ("lte", "{field}は{param}以下である必要があります");
   ("alpha", "{field}は文字のみを含む必要があります");
   ("alphanum", "{field}は文字と数字のみを含む必要があります");
   ("numeric", "{field}は数字である必要があります");
   ("oneof", "{field}は[{param}]のいずれかである必要があります");
   ("uuid", "{field}は有効なUUIDである必要があります");
   ("ip", "{field}は有効なIPアドレスである必要があります");
   ("creditcard", "{field}は有効なクレジットカード番号である必要があります");
   ("strongpassword", "{field}は強力なパスワードである必要があります（8文字以上、大文字、小文字、数字、特殊文字）")].

(** ** Providers *)

Abbreviation ref := Z (only parsing).

(** The tables in memory; no table was ever made at an address from [next] on. *)
Record store := mkStore { tables : gmap Z (gmap string string); next : ref }.

(** The store when the package is initialised. *)
Definition english : ref := 0.
Definition initial : store :=
  mkStore
    (list_to_map [(0, defaultEnglishMessages); (1, spanishMessages); (2, frenchMessages); (3, germanMessages);
                  (4, portugueseMessages); (5, chineseMessages); (6, japaneseMessages)]) 7.

Record MessageProvider := mkProvider { messages : gmap string ref; locale : string; fallback : string }.

Definition NewMessageProvider : MessageProvider := mkProvider ∅ "en" "en".

(** The map itself is kept, not its contents. *)
Definition RegisterLocale (m : MessageProvider) (loc : string) (r : ref) : MessageProvider :=
  mkProvider (<[loc := r]> (messages m)) (locale m) (fallback m).

Definition DefaultMessages : MessageProvider := RegisterLocale NewMessageProvider "en" english.

Definition SetLocale (m : MessageProvider) (loc : string) : MessageProvider := mkProvider (messages m) loc (fallback m).
Definition SetFallback (m : MessageProvider) (loc : string) : MessageProvider := mkProvider (messages m) (locale m) loc.

(** [make(map[string]string)]. *)
Definition new_table (st : store) (t : gmap string string) : store * ref :=
  (mkStore (<[next st := t]> (tables st)) (next st + 1), next st).

Definition table_at (st : store) (r : ref) : gmap string string := default ∅ (tables st !! r).

Definition AddMessage (st : store) (m : MessageProvider) (loc key message : string) : store * MessageProvider :=
  let '(st, m, r) :=
    match messages m !! loc with
    | Some r => (st, m, r)
    | None => let '(st, r) := new_table st ∅ in (st, RegisterLocale m loc r, r)
    end in
  (mkStore (<[r := <[key := message]> (table_at st r)]> (tables st)) (next st), m).

(** [format]. *)
Definition format (msg fld param : string) : string :=
  let msg := ReplaceAll msg "{field}" fld in
  let msg := ReplaceAll msg "{param}" param in
  if Contains param "|" then
    match split_byte "|" param with
    | p :: q :: _ => ReplaceAll (ReplaceAll msg "{min}" p) "{max}" q
    | [p] => ReplaceAll msg "{min}" p
    | [] => msg
    end
  else msg.

Definition lookup_message (st : store) (m : MessageProvider) (loc key : string) : option string :=
  match messages m !! loc with
  | Some r => table_at st r !! key
  | None => None
  end.

Definition Get (st : store) (m : MessageProvider) (key fld param : string) : string :=
  match lookup_message st m (locale m) key with
  | Some msg => format msg fld param
  | None =>
      match lookup_message st m (fallback m) key with
      | Some msg => format msg fld param
      | None => key +:+ " validation failed for " +:+ fld
      end
  end.

(** Every table is copied into one of its own. *)
Definition clone_step (acc : store * gmap string ref) (p : string * ref) : store * gmap string ref :=
  let '(st, r) := new_table acc.1 (table_at acc.1 p.2) in (st, <[p.1 := r]> acc.2).

Definition Clone (st : store) (m : MessageProvider) : store * MessageProvider :=
  let '(st, ms) := fold_left clone_step (map_to_list (messages m)) (st, ∅) in
  (st, mkProvider ms (locale m) (fallback m)).

Definition RegisterBuiltinLocales (m : MessageProvider) : MessageProvider :=
  fold_left (fun m p => RegisterLocale m p.1 p.2)
    [("en", 0); ("es", 1); ("fr", 2); ("de", 3); ("pt", 4); ("zh", 5); ("ja", 6)] m.

Definition MessagesForLocale (loc : string) : MessageProvider :=
  SetLocale (RegisterBuiltinLocales NewMessageProvider) loc.

(** ** Lemmas *)

(** The tables that a provider refers to exist. *)
Definition refs_below (n : ref) (m : MessageProvider) : Prop := forall loc r, messages m !! loc = Some r -> r < n.

Lemma clone_fold l : forall st acc,
  NoDup (l.*1) -> (forall p, p ∈ l -> p.2 < next st) ->
  let '(st', ms) := fold_left clone_step l (st, acc) in
  next st <= next st' /\
  (forall r, r < next st -> table_at st' r = table_at st r) /\
  (forall loc r, (loc, r) ∈ l -> exists r', ms !! loc = Some r' /\ next st <= r' /\ table_at st' r' = table_at st r) /\
  (forall loc, (loc ∉ l.*1) -> ms !! loc = acc !! loc).
Proof.
  induction l as [|[loc r] l IH]; intros st acc Hnd Hlt; cbn [fold_left].
  - split; [lia|]. split; [done|]. split; [|done]. by intros ? ? ?%elem_of_nil.
  - cbn in Hnd. apply list.NoDup_cons in Hnd as [Hni Hnd].
    unfold clone_step at 2. cbn [new_table fst snd].
    set (st1 := mkStore (<[next st := table_at st r]> (tables st)) (next st + 1)).
    assert (Hold : forall x, x < next st -> table_at st1 x = table_at st x).
    { intros x Hx. unfold table_at, st1. cbn [tables]. by rewrite lookup_insert_ne by lia. }
    specialize (IH st1 (<[loc := next st]> acc) Hnd).
    destruct (fold_left clone_step l (st1, <[loc := next st]> acc)) as [st' ms].
    destruct IH as (Hn & Ht & Hin & Hout).
    { intros p Hp. assert (p.2 < next st) by (apply Hlt; by right). unfold st1. cbn. lia. }
    unfold st1 at 1 in Hn. cbn [next] in Hn. split; [lia|]. split; [|split].
    + intros x Hx. rewrite Ht by (unfold st1; cbn; lia). by apply Hold.
    + intros loc' r' [[= -> ->]|Hp]%elem_of_cons.
      * exists (next st). rewrite Hout by done. rewrite lookup_insert_eq. split; [done|]. split; [lia|].
        rewrite Ht by (unfold st1; cbn; lia). unfold table_at at 1, st1. cbn [tables]. by rewrite lookup_insert_eq.
      * destruct (Hin loc' r' Hp) as (x & Hx & Hge & Htab). exists x. split; [done|]. unfold st1 in Hge. cbn in Hge. split; [lia|].
        rewrite Htab. apply Hold. apply (Hlt (loc', r')). by right.
    + intros loc' Hl. cbn in Hl. rewrite Hout by set_solver. rewrite lookup_insert_ne; [done|]. set_solver.
Qed.

Lemma Clone_spec st m :
  refs_below (next st) m ->
  let '(st', c) := Clone st m in
  next st <= next st' /\ locale c = locale m /\ fallback c = fallback m /\
  (forall r, r < next st -> table_at st' r = table_at st r) /\
  (forall loc r, messages c !! loc = Some r -> next st <= r) /\
  (forall loc key, lookup_message st' c loc key = lookup_message st m loc key).
Proof.
  intros Hm. unfold Clone. pose proof (clone_fold (map_to_list (messages m)) st ∅ (NoDup_fst_map_to_list _)) as H.
  destruct (fold_left clone_step (map_to_list (messages m)) (st, ∅)) as [st' ms]. cbn [messages locale fallback].
  destruct H as (Hn & Ht & Hin & Hout).
  { intros [loc r] Hp%elem_of_map_to_list. by apply (Hm loc). }
  assert (forall loc, messages m !! loc = None -> ms !! loc = None) as Hnone.
  { intros loc Hl. rewrite Hout; [by rewrite lookup_empty|]. intros ([l r] & -> & Hp)%list_elem_of_fmap.
    apply elem_of_map_to_list in Hp. cbn in *. congruence. }
  split; [done|]. split; [done|]. split; [done|]. split; [done|]. split.
  - intros loc r Hr. destruct (messages m !! loc) as [x|] eqn:Hx; [|rewrite Hnone in Hr; done].
    destruct (Hin loc x) as (y & Hy & Hge & _); [by apply elem_of_map_to_list|]. congruence.
  - intros loc key. unfold lookup_message. cbn [messages]. destruct (messages m !! loc) as [x|] eqn:Hx; [|by rewrite Hnone].
    destruct (Hin loc x) as (y & Hy & _ & Htab); [by apply elem_of_map_to_list|]. by rewrite Hy, Htab.
Qed.

(** What a provider without shared tables finds after an addition. *)
Lemma AddMessage_other st m m0 loc key message loc' key' :
  (forall l r r', messages m !! l = Some r -> messages m0 !! loc' = Some r' -> r <> r') ->
  refs_below (next st) m0 ->
  lookup_message (AddMessage st m loc key message).1 m0 loc' key' = lookup_message st m0 loc' key'.
Proof.
  intros Hd Hb. unfold AddMessage. destruct (messages m !! loc) as [r|] eqn:Hr; cbn [new_table fst];
    unfold lookup_message; destruct (messages m0 !! loc') as [r'|] eqn:Hr'; try done; unfold table_at; cbn [tables].
  - rewrite lookup_insert_ne; [done|]. by eapply Hd.
  - specialize (Hb loc' r' Hr'). by rewrite !lookup_insert_ne by lia.
Qed.

Lemma AddMessage_own st m loc key message :
  lookup_message (AddMessage st m loc key message).1 (AddMessage st m loc key message).2 loc key = Some message.
Proof.
  unfold AddMessage. destruct (messages m !! loc) as [r|] eqn:Hr; cbn [new_table fst snd]; unfold lookup_message, RegisterLocale; cbn [messages];
    rewrite ?Hr, ?lookup_insert_eq; unfold table_at; cbn [tables]; rewrite !lookup_insert_eq; cbn [default from_option id];
    by rewrite lookup_insert_eq.
Qed.

Lemma Get_lookup st st' m m' key fld param :
  locale m = locale m' -> fallback m = fallback m' ->
  (forall loc k, lookup_message st m loc k = lookup_message st' m' loc k) ->
  Get st m key fld param = Get st' m' key fld param.
Proof. intros Hl Hf H. unfold Get. by rewrite Hl, Hf, !H. Qed.

(** ** Theorems *)

(** A clone answers as the provider it was made from, and what is added through the
    clone is what the clone answers and changes no other provider. *)
Theorem Clone_independent st m m0 loc key message fld param :
  refs_below (next st) m -> refs_below (next st) m0 ->
  let '(st1, c) := Clone st m in
  let '(st2, c') := AddMessage st1 c loc key message in
  (forall k, Get st1 c k fld param = Get st m k fld param) /\
  (locale m = loc -> Get st2 c' key fld param = format message fld param) /\
  (forall k, Get st2 m0 k fld param = Get st m0 k fld param).
Proof.
  intros Hm Hm0. pose proof (Clone_spec st m Hm) as H. destruct (Clone st m) as [st1 c].
  destruct H as (Hn & Hl & Hf & Ht & Hge & Hlook).
  pose proof (AddMessage_own st1 c loc key message) as Hown.
  assert (forall loc' k, lookup_message (AddMessage st1 c loc key message).1 m0 loc' k = lookup_message st m0 loc' k) as Hother.
  { intros loc' k. rewrite AddMessage_other.
    - unfold lookup_message. destruct (messages m0 !! loc') as [r|] eqn:Hr; [|done]. rewrite Ht; [done|]. by apply (Hm0 loc').
    - intros l r r' Hr Hr'. specialize (Hge l r Hr). specialize (Hm0 loc' r' Hr'). lia.
    - intros l r Hr. specialize (Hm0 l r Hr). lia. }
  assert (locale (AddMessage st1 c loc key message).2 = locale c) as Hloc
    by (unfold AddMessage; by destruct (messages c !! loc)).
  destruct (AddMessage st1 c loc key message) as [st2 c']. cbn [fst snd] in *. split; [|split].
  - intros k. by apply Get_lookup.
  - intros <-. unfold Get. by rewrite Hloc, Hl, Hown.
  - intros k. by apply Get_lookup.
Qed.

Lemma Clone_independent_witness :
  let '(st1, c) := Clone initial DefaultMessages in
  let '(st2, c') := AddMessage st1 c "en" "email" "no" in
  (forall k, Get st1 c k "Name" "" = Get initial DefaultMessages k "Name" "") /\
  ("en" = "en" -> Get st2 c' "email" "Name" "" = format "no" "Name" "") /\
  (forall k, Get st2 DefaultMessages k "Name" "" = Get initial DefaultMessages k "Name" "").
Proof.
  apply (Clone_independent initial DefaultMessages DefaultMessages "en" "email" "no" "Name" "");
    intros loc r; unfold DefaultMessages, RegisterLocale, NewMessageProvider; cbn [messages];
    intros [[<- <-]|[_ Hr]]%lookup_insert_Some; try (rewrite lookup_empty in Hr; done); done.
Defined.

(** The providers that [DefaultMessages] makes share the table of the package: what
    one adds, every other answers. *)
Theorem AddMessage_leaks key message fld param :
  let '(st, _) := AddMessage initial DefaultMessages "en" key message in
  Get st DefaultMessages key fld param = format message fld param.
Proof.
  unfold AddMessage. change (messages DefaultMessages !! "en") with (Some english). cbn iota beta.
  unfold Get, lookup_message. cbn [locale DefaultMessages RegisterLocale NewMessageProvider messages].
  rewrite lookup_insert_eq. unfold table_at at 1. cbn [tables]. rewrite lookup_insert_eq. cbn [default from_option id].
  by rewrite lookup_insert_eq.
Qed.
