(* ===== verification/Validator.v ===== *)
(** * The validator ([pantry/validate/validate.go])

    The parsing of tags and the walk over a struct: its fields with the rules of
    their tags, nested structs, pointers to structs and slices of either.  The
    table of rules is the validator's own, so that rules of the user are functions
    of it like those of [Rules]; [None] is the panic of a rule. *)

From S2P Require Import Prelude Float64 GoStrings Utf8 Strconv Regex Values Rules Ip Messages.
#[local] Open Scope list_scope.

(** ** Tags *)

Record rule := mkRule { r_name : string; r_param : string }.

Definition parse_part (part : string) : option rule :=
  let part := TrimSpace part in
  if String.eqb part "" then None
  else
    Some match cut_byte "=" part with
         | Some (name, param) => mkRule name param
         | None => mkRule part ""
         end.

Definition parseTag (tag : string) : list rule := omap parse_part (split_byte "," tag).

(** ** The validator *)

Record Error := mkError { e_Field : string; e_Rule : string; e_Param : string; e_Value : value; e_Message : string }.

Abbreviation Errors := (list Error) (only parsing).

Record Validator := mkValidator {
  tagName : string;
  v_rules : gmap string RuleFunc;
  v_messages : MessageProvider;
  stopOnFirst : bool
}.

Definition RegisterRule (v : Validator) (name : string) (fn : RuleFunc) : Validator :=
  mkValidator (tagName v) (<[name := fn]> (v_rules v)) (v_messages v) (stopOnFirst v).

Definition RegisterRuleFunc (v : Validator) (name : string) (fn : value -> bool) (messageKey : string) : Validator :=
  RegisterRule v name (fun value _ _ => Some (if fn value then "" else messageKey)).

Definition SetMessages (v : Validator) (m : MessageProvider) : Validator :=
  mkValidator (tagName v) (v_rules v) m (stopOnFirst v).

(** The options of [New]. *)
Definition WithTagName (name : string) (v : Validator) : Validator :=
  mkValidator name (v_rules v) (v_messages v) (stopOnFirst v).
Definition WithMessages (m : MessageProvider) (v : Validator) : Validator := SetMessages v m.
Definition WithStopOnFirstError (v : Validator) : Validator := mkValidator (tagName v) (v_rules v) (v_messages v) true.

(** [Tag.Get(key)]. *)
Fixpoint tag_get (key : string) (tags : list (string * string)) : string :=
  match tags with
  | [] => ""
  | (k, v) :: tags => if String.eqb k key then v else tag_get key tags
  end.

(** The name of a field in an error. *)
Definition field_name (prefix : string) (f : field) : string :=
  let jsonTag := tag_get "json" (f_tags f) in
  let first := hd "" (split_byte "," jsonTag) in
  let name := if negb (String.eqb jsonTag "") && negb (String.eqb first "") && negb (String.eqb first "-") then first else f_name f in
  if String.eqb prefix "" then name else prefix +:+ "." +:+ name.

Section Walk.
Context (st : store) (v : Validator).

(** The loop of [validateValue] over the rules. *)
Fixpoint check_rules (rules : list rule) (value : value) (fieldName : string) (sv : Values.value) (errs : Errors) : option Errors :=
  match rules with
  | [] => Some errs
  | r :: rules =>
      if String.eqb (r_name r) "omitempty" then check_rules rules value fieldName sv errs
      else
        match v_rules v !! r_name r with
        | None => check_rules rules value fieldName sv errs
        | Some ruleFn =>
            match ruleFn value (r_param r) sv with
            | None => None
            | Some msgKey =>
                if String.eqb msgKey "" then check_rules rules value fieldName sv errs
                else
                  let msg := Get st (v_messages v) msgKey fieldName (r_param r) in
                  let errs := errs ++ [mkError fieldName (r_name r) (r_param r) value msg] in
                  if stopOnFirst v then Some errs else check_rules rules value fieldName sv errs
            end
        end
  end.

Definition is_omitempty (r : rule) : bool := String.eqb (r_name r) "omitempty".

Definition validateValue (val : value) (fieldName tag : string) (sv : value) : option Errors :=
  if String.eqb tag "" || String.eqb tag "-" then Some []
  else
    let rules := parseTag tag in
    if existsb is_omitempty rules && isEmpty val then Some []
    else check_rules rules (Interface val) fieldName sv [].

(** Where the walk stands: at the struct it was called with, at a field, at an
    element of a slice, or behind a pointer. *)
Inductive place := AtRoot | AtField | AtElement | AtPointee.

Definition is_root (p : place) : bool := match p with AtRoot => true | _ => false end.

Definition index_name (name : string) (j : Z) : string := name +:+ "[" +:+ Itoa j +:+ "]".

(** The loops over the fields of a struct and over the elements of a slice, where
    [walk] is what is done with each. *)
Definition field_loop (walk : place -> value -> string -> option Errors) (sv : value) (prefix : string) :=
  fix fields (fs : list (field * value)) (errs : Errors) : option Errors :=
    match fs with
    | [] => Some errs
    | (f, fv) :: fs =>
        if negb (f_exported f) then fields fs errs
        else
          let fieldName := field_name prefix f in
          match validateValue fv fieldName (tag_get (tagName v) (f_tags f)) sv with
          | None => None
          | Some fieldErrs =>
              let errs := errs ++ fieldErrs in
              if stopOnFirst v && negb (Nat.eqb (length errs) 0) then Some errs
              else
                match walk AtField fv fieldName with
                | None => None
                | Some nestedErrs => fields fs (errs ++ nestedErrs)
                end
          end
    end.

Definition element_loop (walk : place -> value -> string -> option Errors) (prefix : string) :=
  fix elements (l : list value) (j : Z) (errs : Errors) : option Errors :=
    match l with
    | [] => Some errs
    | e :: l =>
        match walk AtElement e (index_name prefix j) with
        | None => None
        | Some nestedErrs => elements l (j + 1) (errs ++ nestedErrs)
        end
    end.

(** [validateStruct] and the three cases of its loop that call it again: structs,
    pointers to structs and slices of either. *)
Fixpoint validateStruct (p : place) (val : value) (prefix : string) {struct val} : option Errors :=
  match val with
  | Stringer _ w => validateStruct p w prefix
  | Struct ty fs =>
      if String.eqb ty "time.Time" && negb (is_root p) then Some []
      else field_loop validateStruct (Struct ty fs) prefix fs []
  | Ptr _ (Some (_, e)) =>
      match p with
      | AtField | AtElement => validateStruct AtPointee e prefix
      | _ => Some []
      end
  | Slice _ (Some l) =>
      match p with
      | AtField => element_loop validateStruct prefix l 0 []
      | _ => Some []
      end
  | _ => Some []
  end.
End Walk.

(** What a call returns as an [error]: the nil interface is [None]; a slice of
    errors that is returned as an [error] is never the nil interface, empty or
    not. *)
Inductive go_error := NotAStruct (k : Kind) | ValidationErrors (errs : Errors).

(** [reflect.ValueOf(s)], or what it points to. *)
Definition target (s : value) : value :=
  match contents s with
  | Ptr _ (Some (_, e)) => contents e
  | Ptr _ None => Nil
  | val => val
  end.

Definition StructCtx (st : store) (v : Validator) (s : value) : option (option go_error) :=
  match target s with
  | Struct ty fs =>
      match validateStruct st v AtRoot (Struct ty fs) "" with
      | Some errs => Some (Some (ValidationErrors errs))
      | None => None
      end
  | val => Some (Some (NotAStruct (kind val)))
  end.

Definition Validate_Struct (st : store) (v : Validator) (s : value) : option (option go_error) := StructCtx st v s.

Definition Var (st : store) (v : Validator) (val : value) (tag : string) : option (option go_error) :=
  match validateValue st v val "" tag Nil with
  | None => None
  | Some [] => Some None
  | Some errs => Some (Some (ValidationErrors errs))
  end.

(** ** [Errors] *)

Definition HasErrors (e : Errors) : bool := negb (Nat.eqb (length e) 0).
Definition FieldErrors (e : Errors) (fieldName : string) : Errors := base.filter (fun err => e_Field err = fieldName) e.
Definition First (e : Errors) : option Error := head e.
Definition Errors_Error (e : Errors) : string := String.concat "; " (map e_Message e).

Definition ToMap (e : Errors) : gmap string (list string) :=
  fold_left (fun m err => <[e_Field err := default [] (m !! e_Field err) ++ [e_Message err]]> m) e ∅.

(** ** The built-in rules *)

Section Builtin.
Context `{Fmt} `{Unicode}.

(** [registerBuiltinRules], without the rules that are not modelled. *)
Definition builtin_rules : list (string * RuleFunc) :=
  [("required", ruleRequired);
   ("email", ruleEmail); ("uuid", ruleUUID); ("uuid3", ruleUUID3); ("uuid4", ruleUUID4); ("uuid5", ruleUUID5);
   ("ulid", ruleULID); ("alpha", ruleAlpha); ("alphanum", ruleAlphaNum); ("alphanumspace", ruleAlphaNumSpace);
   ("numeric", ruleNumeric); ("hexadecimal", ruleHexadecimal); ("hexcolor", ruleHexColor); ("rgb", ruleRGB);
   ("rgba", ruleRGBA); ("hsl", ruleHSL); ("hsla", ruleHSLA); ("jwt", ruleJWT); ("base64", ruleBase64);
   ("base64url", ruleBase64URL); ("isbn", ruleISBN); ("isbn10", ruleISBN10); ("isbn13", ruleISBN13);
   ("issn", ruleISSN); ("ascii", ruleASCII); ("printascii", rulePrintASCII); ("multibyte", ruleMultibyte);
   ("lowercase", ruleLowercase); ("uppercase", ruleUppercase);
   ("min", ruleMin); ("max", ruleMax); ("len", ruleLen); ("between", ruleBetween);
   ("eq", ruleEq); ("ne", ruleNe); ("gt", ruleGt); ("gte", ruleGte); ("lt", ruleLt); ("lte", ruleLte);
   ("eqfield", ruleEqField); ("nefield", ruleNeField); ("gtfield", ruleGtField); ("gtefield", ruleGteField);
   ("ltfield", ruleLtField); ("ltefield", ruleLteField);
   ("ip", ruleIP); ("ipv4", ruleIPv4); ("ipv6", ruleIPv6); ("hostname", ruleHostname); ("fqdn", ruleFQDN);
   ("contains", ruleContains); ("containsany", ruleContainsAny); ("containsrune", ruleContainsRune);
   ("excludes", ruleExcludes); ("excludesall", ruleExcludesAll); ("excludesrune", ruleExcludesRune);
   ("startswith", ruleStartsWith); ("endswith", ruleEndsWith); ("startsnotwith", ruleStartsNotWith);
   ("endsnotwith", ruleEndsNotWith);
   ("oneof", ruleOneOf); ("enum", ruleOneOf); ("unique", ruleUnique); ("dive", ruleDive);
   ("creditcard", ruleCreditCard); ("e164", ruleE164); ("countrycode", ruleCountryCode);
   ("languagecode", ruleLanguageCode); ("bcp47", ruleBCP47); ("filepath", ruleFilePath); ("dirpath", ruleDirPath);
   ("semver", ruleSemver); ("boolean", ruleBoolean); ("cvv", ruleCVV); ("latitude", ruleLatitude);
   ("longitude", ruleLongitude); ("postcode", rulePostalCode); ("slug", ruleSlug);
   ("strongpassword", ruleStrongPassword)].

Definition New (opts : list (Validator -> Validator)) : Validator :=
  fold_left (fun v opt => opt v) opts
    (mkValidator "validate" (list_to_map builtin_rules) DefaultMessages false).
End Builtin.

(** ** Which rules fail *)

Section Reports.
Context (st : store) (v : Validator).

(** A rule of a field that does not hold, with the error it gives. *)
Definition rule_fails (value : value) (name : string) (sv : Values.value) (r : rule) (e : Error) : Prop :=
  exists fn key,
    is_omitempty r = false /\ v_rules v !! r_name r = Some fn /\ fn value (r_param r) sv = Some key /\ key <> "" /\
    e = mkError name (r_name r) (r_param r) value (Get st (v_messages v) key name (r_param r)).

Definition rule_panics (value sv : Values.value) (r : rule) : Prop :=
  exists fn, is_omitempty r = false /\ v_rules v !! r_name r = Some fn /\ fn value (r_param r) sv = None.

(** The rules that a tag asks for: none when the field is optional and empty. *)
Definition asks (val : value) (tag : string) (r : rule) : Prop :=
  tag <> "" /\ tag <> "-" /\ existsb is_omitempty (parseTag tag) && isEmpty val = false /\ r ∈ parseTag tag.

Definition value_fails (val : value) (name tag : string) (sv : value) (e : Error) : Prop :=
  exists r, asks val tag r /\ rule_fails (Interface val) name sv r e.

Definition value_panics (val : value) (tag : string) (sv : value) : Prop :=
  exists r, asks val tag r /\ rule_panics (Interface val) sv r.

(** The fields that the walk comes to: exported fields, with the name that errors
    give them and the struct that they are in. *)
Inductive visited : place -> value -> string -> string -> field -> value -> value -> Prop :=
| visited_here p ty fs prefix f fv :
    String.eqb ty "time.Time" && negb (is_root p) = false -> (f, fv) ∈ fs -> f_exported f = true ->
    visited p (Struct ty fs) prefix (field_name prefix f) f fv (Struct ty fs)
| visited_inside p ty fs prefix f fv name g gv sv :
    String.eqb ty "time.Time" && negb (is_root p) = false -> (f, fv) ∈ fs -> f_exported f = true ->
    visited AtField fv (field_name prefix f) name g gv sv -> visited p (Struct ty fs) prefix name g gv sv
| visited_pointee p ty a e prefix name g gv sv :
    p = AtField \/ p = AtElement -> visited AtPointee e prefix name g gv sv ->
    visited p (Ptr ty (Some (a, e))) prefix name g gv sv
| visited_element ty l prefix j e name g gv sv :
    l !! j = Some e -> visited AtElement e (index_name prefix (Z.of_nat j)) name g gv sv ->
    visited AtField (Slice ty (Some l)) prefix name g gv sv
| visited_methods p s w prefix name g gv sv :
    visited p w prefix name g gv sv -> visited p (Stringer s w) prefix name g gv sv.

Definition struct_fails (p : place) (val : value) (prefix : string) (e : Error) : Prop :=
  exists name f fv sv, visited p val prefix name f fv sv /\ value_fails fv name (tag_get (tagName v) (f_tags f)) sv e.

Definition struct_panics (p : place) (val : value) (prefix : string) : Prop :=
  exists name f fv sv, visited p val prefix name f fv sv /\ value_panics fv (tag_get (tagName v) (f_tags f)) sv.

(** An outcome that reports only what fails, and all of it when the walk does not
    stop at the first error or finds none. *)
Definition reports (F : Error -> Prop) (P : Prop) (out : option Errors) : Prop :=
  match out with
  | None => P
  | Some errs =>
      (forall e, e ∈ errs -> F e) /\
      (stopOnFirst v = false \/ errs = [] -> (forall e, F e -> e ∈ errs) /\ ~ P)
  end.

Lemma reports_iff (F G : Error -> Prop) (P Q : Prop) out :
  (forall e, F e <-> G e) -> (P <-> Q) -> reports F P out -> reports G Q out.
Proof.
  intros HF HP. destruct out as [errs|]; cbn; [|by rewrite HP]. intros [H1 H2].
  split; [intros e He; by apply HF, H1|]. intros Hs. destruct (H2 Hs) as [H3 H4]. split; [|by rewrite <- HP].
  intros e He. by apply H3, HF.
Qed.

Lemma reports_nil : reports (fun _ => False) False (Some []).
Proof. split; [by intros e ?%elem_of_nil|]. intros _. split; [intros ? []|intros []]. Qed.

(** Errors that are appended to those before them. *)
Lemma reports_app (F G : Error -> Prop) (P Q : Prop) errs new :
  reports F P (Some errs) -> reports G Q (Some new) ->
  reports (fun e => F e \/ G e) (P \/ Q) (Some (errs ++ new)).
Proof.
  intros [F1 F2] [G1 G2]. split; [intros e [He|He]%elem_of_app; [left; by apply F1|right; by apply G1]|].
  intros Hs. assert (stopOnFirst v = false \/ (errs = [] /\ new = [])) as Hs'
    by (destruct Hs as [?|?%app_eq_nil]; auto).
  destruct F2 as [F2 FP]; [naive_solver|]. destruct G2 as [G2 GP]; [naive_solver|].
  split; [|tauto]. intros e [He|He]; apply elem_of_app; [left; by apply F2|right; by apply G2].
Qed.

(** The walk that stops with an error leaves what comes after unsaid. *)
Lemma reports_stop (F G : Error -> Prop) (P Q : Prop) errs :
  reports F P (Some errs) -> stopOnFirst v = true -> errs <> [] ->
  reports (fun e => F e \/ G e) (P \/ Q) (Some errs).
Proof. intros [F1 _] Hs Hne. split; [intros e He; left; by apply F1|]. intros [?|?]; congruence. Qed.

Lemma check_rules_reports rules value name sv errs F P :
  reports F P (Some errs) -> (stopOnFirst v = true -> errs = []) ->
  reports (fun e => F e \/ exists r, r ∈ rules /\ rule_fails value name sv r e)
    (P \/ exists r, r ∈ rules /\ rule_panics value sv r)
    (check_rules st v rules value name sv errs).
Proof.
  revert errs F P. induction rules as [|r rules IH]; intros errs F P HF Hstop; cbn [check_rules].
  - eapply reports_iff; [..|exact HF]; [intros e|]; set_solver.
  - assert (Hskip : (forall e, ~ rule_fails value name sv r e) -> ~ rule_panics value sv r ->
      reports (fun e => F e \/ exists r', r' ∈ r :: rules /\ rule_fails value name sv r' e)
        (P \/ exists r', r' ∈ r :: rules /\ rule_panics value sv r') (check_rules st v rules value name sv errs)).
    { intros Hf Hp. eapply reports_iff; [..|by apply (IH errs F P)]; [intros e|]; set_solver. }
    destruct (is_omitempty r) eqn:Hom; unfold is_omitempty in Hom; rewrite Hom.
    { apply Hskip; [intros e (fn & k & Ho & _)|intros (fn & Ho & _)]; unfold is_omitempty in Ho; congruence. }
    destruct (v_rules v !! r_name r) as [fn|] eqn:Hfn.
    2: { apply Hskip; [intros e (fn & k & _ & Hf & _)|intros (fn & _ & Hf & _)]; congruence. }
    destruct (fn value (r_param r) sv) as [key|] eqn:Hkey.
    2: { right. exists r. split; [by left|]. exists fn. done. }
    destruct (String.eqb_spec key "") as [->|Hne].
    { apply Hskip; [intros e (fn' & k & _ & Hf & Hk & Hk0 & _)|intros (fn' & _ & Hf & Hk)]; congruence. }
    set (err := mkError name (r_name r) (r_param r) value (Get st (v_messages v) key name (r_param r))).
    assert (reports (fun e => F e \/ rule_fails value name sv r e) (P \/ rule_panics value sv r) (Some (errs ++ [err]))) as Happ.
    { apply reports_app; [done|]. split.
      - intros e ->%list_elem_of_singleton. by exists fn, key.
      - intros _. split.
        + intros e (fn' & k & _ & Hf & Hk & _ & ->). apply list_elem_of_singleton. unfold err. congruence.
        + intros (fn' & _ & Hf & Hk). congruence. }
    destruct (stopOnFirst v) eqn:Hs.
    + eapply reports_iff; [..|eapply reports_stop; [exact Happ|done|by destruct errs]].
      * intros e. cbv beta. instantiate (1 := fun e => exists r', r' ∈ rules /\ rule_fails value name sv r' e). set_solver.
      * instantiate (1 := exists r', r' ∈ rules /\ rule_panics value sv r'). set_solver.
    + eapply reports_iff; [..|apply (IH _ _ _ Happ); congruence]; [intros e|]; set_solver.
Qed.

Lemma validateValue_reports val name tag sv :
  reports (value_fails val name tag sv) (value_panics val tag sv) (validateValue st v val name tag sv).
Proof.
  assert (Hnone : (forall r, ~ asks val tag r) -> reports (value_fails val name tag sv) (value_panics val tag sv) (Some [])).
  { intros H. eapply reports_iff; [..|apply reports_nil]; [intros e|].
    - split; [done|]. intros (r & Hr & _). by apply (H r).
    - split; [done|]. intros (r & Hr & _). by apply (H r). }
  unfold validateValue. destruct (String.eqb_spec tag "") as [->|H1]; cbn [orb]; [apply Hnone; by intros r (? & _)|].
  destruct (String.eqb_spec tag "-") as [->|H2]; [apply Hnone; by intros r (_ & ? & _)|].
  destruct (existsb is_omitempty (parseTag tag) && isEmpty val) eqn:Ho.
  { apply Hnone. intros r (_ & _ & Hx & _). congruence. }
  eapply reports_iff; [..|apply (check_rules_reports _ _ _ _ [] (fun _ => False) False); [apply reports_nil|done]]; [intros e|].
  - unfold value_fails, asks. naive_solver.
  - unfold value_panics, asks. naive_solver.
Qed.

(** The fields of a struct from some field on. *)
Definition fields_fail (fs : list (field * value)) (sv : value) (prefix : string) (e : Error) : Prop :=
  exists f fv, (f, fv) ∈ fs /\ f_exported f = true /\
    (value_fails fv (field_name prefix f) (tag_get (tagName v) (f_tags f)) sv e \/
     struct_fails AtField fv (field_name prefix f) e).

Definition fields_panic (fs : list (field * value)) (sv : value) (prefix : string) : Prop :=
  exists f fv, (f, fv) ∈ fs /\ f_exported f = true /\
    (value_panics fv (tag_get (tagName v) (f_tags f)) sv \/ struct_panics AtField fv (field_name prefix f)).

Lemma visited_struct p ty fs prefix name g gv sv :
  visited p (Struct ty fs) prefix name g gv sv <->
  String.eqb ty "time.Time" && negb (is_root p) = false /\
  exists f fv, (f, fv) ∈ fs /\ f_exported f = true /\
    ((name = field_name prefix f /\ g = f /\ gv = fv /\ sv = Struct ty fs) \/ visited AtField fv (field_name prefix f) name g gv sv).
Proof.
  split.
  - inversion 1; subst; split; try done; naive_solver.
  - intros (Ht & f & fv & Hin & He & [(-> & -> & -> & ->)|Hv]); [by constructor|by eapply visited_inside].
Qed.

Lemma struct_fails_struct p ty fs prefix e :
  String.eqb ty "time.Time" && negb (is_root p) = false ->
  struct_fails p (Struct ty fs) prefix e <-> fields_fail fs (Struct ty fs) prefix e.
Proof.
  intros Ht. unfold struct_fails, fields_fail. setoid_rewrite visited_struct. split.
  - intros (name & g & gv & sv & (_ & f & fv & Hin & He & [(-> & -> & -> & ->)|Hv]) & Hf); exists f, fv; [by auto|].
    split; [done|]. split; [done|]. right. by exists name, g, gv, sv.
  - intros (f & fv & Hin & He & [Hf|(name & g & gv & sv & Hv & Hf)]).
    + exists (field_name prefix f), f, fv, (Struct ty fs). split; [|done]. split; [done|]. exists f, fv.
      split; [done|]. split; [done|by left].
    + exists name, g, gv, sv. split; [|done]. split; [done|]. exists f, fv. split; [done|]. split; [done|by right].
Qed.

Lemma struct_panics_struct p ty fs prefix :
  String.eqb ty "time.Time" && negb (is_root p) = false ->
  struct_panics p (Struct ty fs) prefix <-> fields_panic fs (Struct ty fs) prefix.
Proof.
  intros Ht. unfold struct_panics, fields_panic. setoid_rewrite visited_struct. split.
  - intros (name & g & gv & sv & (_ & f & fv & Hin & He & [(-> & -> & -> & ->)|Hv]) & Hf); exists f, fv; [by auto|].
    split; [done|]. split; [done|]. right. by exists name, g, gv, sv.
  - intros (f & fv & Hin & He & [Hf|(name & g & gv & sv & Hv & Hf)]).
    + exists (field_name prefix f), f, fv, (Struct ty fs). split; [|done]. split; [done|]. exists f, fv.
      split; [done|]. split; [done|by left].
    + exists name, g, gv, sv. split; [|done]. split; [done|]. exists f, fv. split; [done|]. split; [done|by right].
Qed.

Lemma fields_fail_cons f fv fs sv prefix e :
  fields_fail ((f, fv) :: fs) sv prefix e <->
  (f_exported f = true /\
     (value_fails fv (field_name prefix f) (tag_get (tagName v) (f_tags f)) sv e \/ struct_fails AtField fv (field_name prefix f) e)) \/
  fields_fail fs sv prefix e.
Proof.
  unfold fields_fail. setoid_rewrite elem_of_cons. split.
  - intros (g & gv & [[= -> ->]|Hin] & He & Hf); [by left|]. right. by exists g, gv.
  - intros [[He Hf]|(g & gv & Hin & He & Hf)]; [exists f, fv|exists g, gv]; auto.
Qed.

Lemma fields_panic_cons f fv fs sv prefix :
  fields_panic ((f, fv) :: fs) sv prefix <->
  (f_exported f = true /\
     (value_panics fv (tag_get (tagName v) (f_tags f)) sv \/ struct_panics AtField fv (field_name prefix f))) \/
  fields_panic fs sv prefix.
Proof.
  unfold fields_panic. setoid_rewrite elem_of_cons. split.
  - intros (g & gv & [[= -> ->]|Hin] & He & Hf); [by left|]. right. by exists g, gv.
  - intros [[He Hf]|(g & gv & Hin & He & Hf)]; [exists f, fv|exists g, gv]; auto.
Qed.

Lemma fields_fail_nil sv prefix e : ~ fields_fail [] sv prefix e.
Proof. by intros (f & fv & ?%elem_of_nil & _). Qed.

Lemma fields_panic_nil sv prefix : ~ fields_panic [] sv prefix.
Proof. by intros (f & fv & ?%elem_of_nil & _). Qed.

Definition walk_reports (val : value) : Prop :=
  forall p prefix, reports (struct_fails p val prefix) (struct_panics p val prefix) (validateStruct st v p val prefix).

Lemma field_loop_reports sv prefix fs errs F P :
  Forall (fun p => walk_reports p.2) fs -> reports F P (Some errs) ->
  reports (fun e => F e \/ fields_fail fs sv prefix e) (P \/ fields_panic fs sv prefix)
    (field_loop st v (validateStruct st v) sv prefix fs errs).
Proof.
  intros Hfs. revert errs F P. induction Hfs as [|[f fv] fs Hfv Hfs IH]; intros errs F P HF; cbn [field_loop].
  - eapply reports_iff; [..|exact HF]; [intros e; pose proof (fields_fail_nil sv prefix e)|pose proof (fields_panic_nil sv prefix)]; tauto.
  - destruct (f_exported f) eqn:He; cbn [negb].
    2: { eapply reports_iff; [..|apply (IH _ _ _ HF)]; [intros e; rewrite fields_fail_cons|rewrite fields_panic_cons]; rewrite He; intuition discriminate. }
    pose proof (validateValue_reports fv (field_name prefix f) (tag_get (tagName v) (f_tags f)) sv) as Hval.
    destruct (validateValue st v fv (field_name prefix f) (tag_get (tagName v) (f_tags f)) sv) as [ferrs|].
    2: { right. apply fields_panic_cons. by auto. }
    pose proof (reports_app _ _ _ _ _ _ HF Hval) as Happ.
    destruct (stopOnFirst v && negb (Nat.eqb (length (errs ++ ferrs)) 0)) eqn:Hstop.
    { apply andb_prop in Hstop as [Hs Hl]. eapply reports_iff; [..|eapply reports_stop; [exact Happ|done|by destruct (errs ++ ferrs)]].
      - intros e. instantiate (1 := fun e => struct_fails AtField fv (field_name prefix f) e \/ fields_fail fs sv prefix e).
        cbv beta. rewrite fields_fail_cons, He. tauto.
      - instantiate (1 := struct_panics AtField fv (field_name prefix f) \/ fields_panic fs sv prefix).
        rewrite fields_panic_cons, He. tauto. }
    specialize (Hfv AtField (field_name prefix f)). cbn [snd] in Hfv.
    destruct (validateStruct st v AtField fv (field_name prefix f)) as [nerrs|].
    2: { right. apply fields_panic_cons. by auto. }
    pose proof (reports_app _ _ _ _ _ _ Happ Hfv) as Happ2.
    eapply reports_iff; [..|apply (IH _ _ _ Happ2)]; [intros e; rewrite fields_fail_cons|rewrite fields_panic_cons]; rewrite He; tauto.
Qed.

Lemma element_loop_reports prefix l j errs F P :
  Forall walk_reports l -> reports F P (Some errs) ->
  reports
    (fun e => F e \/ exists i w, l !! i = Some w /\ struct_fails AtElement w (index_name prefix (Z.of_nat j + Z.of_nat i)) e)
    (P \/ exists i w, l !! i = Some w /\ struct_panics AtElement w (index_name prefix (Z.of_nat j + Z.of_nat i)))
    (element_loop (validateStruct st v) prefix l (Z.of_nat j) errs).
Proof.
  intros Hl. revert j errs F P. induction Hl as [|w l Hw Hl IH]; intros j errs F P HF; cbn [element_loop].
  - eapply reports_iff; [..|exact HF]; [intros e|]; (split; [by left|]); intros [?|(i & w & Hi & _)]; done.
  - specialize (Hw AtElement (index_name prefix (Z.of_nat j))).
    destruct (validateStruct st v AtElement w (index_name prefix (Z.of_nat j))) as [nerrs|].
    2: { right. exists 0%nat, w. rewrite Z.add_0_r. done. }
    pose proof (reports_app _ _ _ _ _ _ HF Hw) as Happ. specialize (IH (S j) _ _ _ Happ).
    rewrite Nat2Z.inj_succ in IH. unfold Z.succ in IH.
    eapply reports_iff; [..|exact IH]; [intros e|]; split.
    + intros [[?|?]|(i & x & Hi & Hf)]; [by left|right; exists 0%nat, w; by rewrite Z.add_0_r|].
      right. exists (S i), x. rewrite Nat2Z.inj_succ. unfold Z.succ. by rewrite (Z.add_comm (Z.of_nat i)), Z.add_assoc.
    + intros [?|([|i] & x & Hi & Hf)]; [by do 2 left|left; right|right].
      * rewrite Z.add_0_r in Hf. cbn in Hi. by injection Hi as ->.
      * exists i, x. rewrite Nat2Z.inj_succ in Hf. unfold Z.succ in Hf. by rewrite (Z.add_comm (Z.of_nat i)), Z.add_assoc in Hf.
    + intros [[?|?]|(i & x & Hi & Hf)]; [by left|right; exists 0%nat, w; by rewrite Z.add_0_r|].
      right. exists (S i), x. rewrite Nat2Z.inj_succ. unfold Z.succ. by rewrite (Z.add_comm (Z.of_nat i)), Z.add_assoc.
    + intros [?|([|i] & x & Hi & Hf)]; [by do 2 left|left; right|right].
      * rewrite Z.add_0_r in Hf. cbn in Hi. by injection Hi as ->.
      * exists i, x. rewrite Nat2Z.inj_succ in Hf. unfold Z.succ in Hf. by rewrite (Z.add_comm (Z.of_nat i)), Z.add_assoc in Hf.
Qed.

Lemma reports_nothing p val prefix :
  (forall name g gv sv, ~ visited p val prefix name g gv sv) ->
  reports (struct_fails p val prefix) (struct_panics p val prefix) (Some []).
Proof.
  intros Hv. eapply reports_iff; [..|apply reports_nil]; [intros e|]; (split; [done|]).
  - intros (name & g & gv & sv & Hx & _). by eapply Hv.
  - intros (name & g & gv & sv & Hx & _). by eapply Hv.
Qed.

Lemma validateStruct_reports val : walk_reports val.
Proof.
  induction val as [ty fs IH|ty a e IH|ty l IH|s w IH|val Hother] using value_nested_ind; intros p prefix; cbn [validateStruct].
  - destruct (String.eqb ty "time.Time" && negb (is_root p)) eqn:Ht.
    + apply reports_nothing. intros name g gv sv Hv. apply visited_struct in Hv as [? _]. congruence.
    + eapply reports_iff; [..|apply (field_loop_reports (Struct ty fs) prefix fs [] (fun _ => False) False IH reports_nil)].
      * intros e. rewrite struct_fails_struct by done. tauto.
      * rewrite struct_panics_struct by done. tauto.
  - assert (forall q, q = AtField \/ q = AtElement -> p = q ->
      reports (struct_fails p (Ptr ty (Some (a, e))) prefix) (struct_panics p (Ptr ty (Some (a, e))) prefix)
        (validateStruct st v AtPointee e prefix)) as H.
    { intros q Hq ->. eapply reports_iff; [..|apply (IH AtPointee prefix)]; [intros err|]; unfold struct_fails, struct_panics; split;
        intros (name & g & gv & sv & Hv & Hf); exists name, g, gv, sv; (split; [|done]); [by constructor|by inversion Hv|by constructor|by inversion Hv]. }
    destruct p; try (apply reports_nothing; inversion 1; naive_solver); [by apply (H AtField); [left|]|by apply (H AtElement); [right|]].
  - destruct p; try (apply reports_nothing; by inversion 1).
    eapply reports_iff; [..|apply (element_loop_reports prefix l 0 [] (fun _ => False) False IH reports_nil)]; [intros err|];
      unfold struct_fails, struct_panics; split.
    + intros [[]|(i & w & Hi & name & g & gv & sv & Hv & Hf)]. exists name, g, gv, sv. split; [|done]. by eapply visited_element.
    + intros (name & g & gv & sv & Hv & Hf). right. inversion Hv; subst. naive_solver.
    + intros [[]|(i & w & Hi & name & g & gv & sv & Hv & Hf)]. exists name, g, gv, sv. split; [|done]. by eapply visited_element.
    + intros (name & g & gv & sv & Hv & Hf). right. inversion Hv; subst. naive_solver.
  - eapply reports_iff; [..|apply (IH p prefix)]; [intros err|]; unfold struct_fails, struct_panics; split;
      intros (name & g & gv & sv & Hv & Hf); exists name, g, gv, sv; (split; [|done]); [by constructor|by inversion Hv|by constructor|by inversion Hv].
  - destruct val as [| | | | | | |ty [l|]| | |ty [[a e]|]| | |]; try done; apply reports_nothing; by inversion 1.
Qed.
End Reports.

(** ** Stopping at the first error *)

(** What is left of a list of errors when some after the first are not looked for. *)
Definition first_of (a' a : Errors) : Prop := sublist a' a /\ head a' = head a.

Lemma first_of_refl a : first_of a a.
Proof. by split. Qed.

Lemma first_of_nil a' a : first_of a' a -> a' = [] <-> a = [].
Proof. intros [_ Hh]. by destruct a', a. Qed.

Lemma first_of_app a' a b' b : first_of a' a -> first_of b' b -> first_of (a' ++ b') (a ++ b).
Proof.
  intros [Ha Hah] [Hb Hbh]. split; [by apply sublist_app|].
  destruct a' as [|x a'], a as [|y a]; cbn in *; try done.
Qed.

Lemma first_of_more a' a b : first_of a' a -> a' <> [] -> first_of a' (a ++ b).
Proof.
  intros [Ha Hah] Hne. split; [by apply sublist_inserts_r|]. destruct a' as [|x a'], a as [|y a]; cbn in *; congruence.
Qed.

Section Stop.
Context (st : store) (v : Validator) (Hv : stopOnFirst v = false).

Lemma check_rules_stop rules value name sv errs out :
  check_rules st v rules value name sv errs = Some out -> errs = [] ->
  exists out', check_rules st (WithStopOnFirstError v) rules value name sv [] = Some out' /\ first_of out' out.
Proof.
  assert (Hmore : forall rules errs out, check_rules st v rules value name sv errs = Some out -> exists new, out = errs ++ new).
  { clear -Hv. induction rules as [|r rules IH]; intros errs out; cbn [check_rules]; [intros [= <-]; exists []; by rewrite app_nil_r|].
    destruct (String.eqb (r_name r) "omitempty"); [apply IH|]. destruct (v_rules v !! r_name r) as [fn|]; [|apply IH].
    destruct (fn value (r_param r) sv) as [key|]; [|done]. destruct (String.eqb key ""); [apply IH|]. rewrite Hv.
    intros (new & ->)%IH. rewrite <- app_assoc. by eexists. }
  intros Hc ->. revert out Hc. induction rules as [|r rules IH]; intros out; cbn [check_rules].
  - intros [= <-]. by exists [].
  - destruct (String.eqb (r_name r) "omitempty"); [apply IH|]. change (v_rules (WithStopOnFirstError v)) with (v_rules v).
    destruct (v_rules v !! r_name r) as [fn|]; [|apply IH].
    destruct (fn value (r_param r) sv) as [key|]; [|done]. destruct (String.eqb key ""); [apply IH|].
    rewrite Hv. cbn [stopOnFirst WithStopOnFirstError v_messages app]. intros (new & ->)%Hmore.
    eexists. split; [reflexivity|]. apply first_of_more; [apply first_of_refl|done].
Qed.

Lemma validateValue_stop val name tag sv out :
  validateValue st v val name tag sv = Some out ->
  exists out', validateValue st (WithStopOnFirstError v) val name tag sv = Some out' /\ first_of out' out.
Proof.
  unfold validateValue. destruct (_ || _); [intros [= <-]; by exists []|].
  destruct (_ && _); [intros [= <-]; by exists []|]. intros H. by eapply check_rules_stop.
Qed.

Definition stops (val : value) : Prop := forall p prefix out,
  validateStruct st v p val prefix = Some out ->
  exists out', validateStruct st (WithStopOnFirstError v) p val prefix = Some out' /\ first_of out' out.

(** An accumulator only grows. *)
Lemma field_loop_more walk sv prefix fs errs out :
  field_loop st v walk sv prefix fs errs = Some out -> exists new, out = errs ++ new.
Proof.
  revert errs. induction fs as [|[f fv] fs IH]; intros errs; cbn [field_loop]; [intros [= <-]; exists []; by rewrite app_nil_r|].
  destruct (negb (f_exported f)); [apply IH|]. destruct (validateValue _ _ _ _ _ _) as [fe|]; [|done]. rewrite Hv. cbn [andb].
  destruct (walk AtField fv _) as [ne|]; [|done]. intros (new & ->)%IH. rewrite <- !app_assoc. by eexists.
Qed.

Lemma field_loop_stop sv prefix fs errs' errs out :
  Forall (fun p => stops p.2) fs -> first_of errs' errs ->
  field_loop st v (validateStruct st v) sv prefix fs errs = Some out ->
  exists out', field_loop st (WithStopOnFirstError v) (validateStruct st (WithStopOnFirstError v)) sv prefix fs errs' = Some out' /\
    first_of out' out.
Proof.
  intros Hfs. revert errs' errs. induction Hfs as [|[f fv] fs Hfv Hfs IH]; intros errs' errs He; cbn [field_loop].
  - intros [= <-]. by exists errs'.
  - destruct (negb (f_exported f)); [by apply IH|]. change (tagName (WithStopOnFirstError v)) with (tagName v).
    destruct (validateValue st v _ _ _ _) as [fe|] eqn:Hval; [|done].
    destruct (validateValue_stop _ _ _ _ _ Hval) as (fe' & -> & Hfe). rewrite Hv. cbn [andb].
    pose proof (first_of_app _ _ _ _ He Hfe) as Happ. cbn [stopOnFirst WithStopOnFirstError andb].
    destruct (validateStruct st v AtField fv (field_name prefix f)) as [ne|] eqn:Hne; [|done]. intros Hout.
    destruct (negb (Nat.eqb (length (errs' ++ fe')) 0)) eqn:Hlen.
    + apply field_loop_more in Hout as (new & ->). exists (errs' ++ fe'). split; [done|]. rewrite <- app_assoc.
      apply first_of_more; [done|by destruct (errs' ++ fe')].
    + cbn [snd] in Hfv. destruct (Hfv AtField (field_name prefix f) ne Hne) as (ne' & -> & Hnf). eapply IH; [|exact Hout].
      by apply first_of_app.
Qed.

Lemma element_loop_stop prefix l j errs' errs out :
  Forall stops l -> first_of errs' errs ->
  element_loop (validateStruct st v) prefix l j errs = Some out ->
  exists out', element_loop (validateStruct st (WithStopOnFirstError v)) prefix l j errs' = Some out' /\ first_of out' out.
Proof.
  intros Hl. revert j errs' errs. induction Hl as [|w l Hw Hl IH]; intros j errs' errs He; cbn [element_loop].
  - intros [= <-]. by exists errs'.
  - destruct (validateStruct st v AtElement w (index_name prefix j)) as [ne|] eqn:Hne; [|done].
    destruct (Hw _ _ _ Hne) as (ne' & -> & Hnf). apply IH. by apply first_of_app.
Qed.

Lemma validateStruct_stop val : stops val.
Proof.
  induction val as [ty fs IH|ty a e IH|ty l IH|s w IH|val Hother] using value_nested_ind; intros p prefix out; cbn [validateStruct].
  - destruct (_ && _); [intros [= <-]; by exists []|]. apply field_loop_stop; [done|apply first_of_refl].
  - destruct p; first [apply IH | intros [= <-]; by exists []].
  - destruct p; try (intros [= <-]; by exists []). apply element_loop_stop; [done|apply first_of_refl].
  - apply IH.
  - destruct val as [| | | | | | |ty [l|]| | |ty [[a e]|]| | |]; try done; intros [= <-]; by exists [].
Qed.
End Stop.

(** ** The keys that rules give *)

Section Keys.
Context `{Fmt} `{Unicode}.

Definition known_key (k : string) : bool :=
  String.eqb k "" || match defaultEnglishMessages !! k with Some _ => true | None => false end.
Definition keys_known (f : RuleFunc) : Prop := forall value param sv k, f value param sv = Some k -> known_key k = true.

Lemma on_text_keys key bad value k : on_text key bad value = Some k -> k = "" \/ k = key.
Proof. unfold on_text, pass, fails. repeat case_match; naive_solver. Qed.
Lemma on_numbers_keys key bad value param sv k : on_numbers key bad value param sv = Some k -> k = "" \/ k = key.
Proof. unfold on_numbers, pass, fails. repeat case_match; naive_solver. Qed.
Lemma on_fields_keys key bad value param sv k : on_fields key bad value param sv = Some k -> k = "" \/ k = key.
Proof. unfold on_fields, pass, fails. repeat case_match; naive_solver. Qed.
Lemma on_degrees_keys key bad value param sv k : on_degrees key bad value param sv = Some k -> k = "" \/ k = key.
Proof. unfold on_degrees, pass, fails. repeat case_match; naive_solver. Qed.
Lemma unique_from_keys seen l k : unique_from seen l = Some k -> k = "" \/ k = "unique".
Proof.
  revert seen. induction l as [|x l IH]; intros seen; cbn [unique_from]; unfold pass, fails; [naive_solver|].
  repeat case_match; [done|naive_solver|apply IH].
Qed.

Ltac keys :=
  intros ? ? ? k Hk;
  first
    [ apply on_text_keys in Hk | apply on_numbers_keys in Hk | apply on_fields_keys in Hk | apply on_degrees_keys in Hk
    | apply unique_from_keys in Hk
    | cbv delta [ruleRequired ruleISBN ruleISBN10 ruleISBN13 ruleMin ruleMax ruleLen ruleBetween ruleEq ruleNe ruleEqField ruleNeField
                 ruleUnique ruleDive ruleCountryCode ruleLanguageCode ruleBoolean pass fails] in Hk; cbv beta zeta in Hk;
      repeat case_match; try apply unique_from_keys in Hk; simplify_eq ];
  try (destruct Hk as [-> | ->]); vm_compute; reflexivity.

Lemma builtin_keys : Forall (fun p => keys_known p.2) builtin_rules.
Proof. unfold builtin_rules. repeat (constructor; [cbn [snd]; keys|]). constructor. Qed.
End Keys.

(** ** Theorems *)

(** C18. [Struct] reports exactly the rules that do not hold: every error it gives is of a
    rule of a field that the walk comes to (exported, nested, behind a pointer or
    in a slice of structs), a walk that does not stop early or finds nothing leaves
    out none, and it panics only where a rule does. *)
Theorem Struct_reports st v s ty fs :
  target s = Struct ty fs ->
  match StructCtx st v s with
  | None => struct_panics v AtRoot (Struct ty fs) ""
  | Some (Some (ValidationErrors errs)) =>
      (forall e, e ∈ errs -> struct_fails st v AtRoot (Struct ty fs) "" e) /\
      (stopOnFirst v = false \/ errs = [] ->
       (forall e, struct_fails st v AtRoot (Struct ty fs) "" e -> e ∈ errs) /\ ~ struct_panics v AtRoot (Struct ty fs) "")
  | Some _ => False
  end.
Proof.
  intros Ht. unfold StructCtx. rewrite Ht.
  pose proof (validateStruct_reports st v (Struct ty fs) AtRoot "") as H.
  by destruct (validateStruct st v AtRoot (Struct ty fs) "").
Qed.

(** [WithStopOnFirstError] finds the same first error, leaves out only errors that
    the full walk gives as well, and finds none only where there is none. *)
Theorem stop_on_first st v s errs :
  stopOnFirst v = false -> StructCtx st v s = Some (Some (ValidationErrors errs)) ->
  exists errs', StructCtx st (WithStopOnFirstError v) s = Some (Some (ValidationErrors errs')) /\
    sublist errs' errs /\ First errs' = First errs.
Proof.
  intros Hv. unfold StructCtx. destruct (target s) as [| | | | | | | | | | |ty fs| |]; try done.
  destruct (validateStruct st v AtRoot (Struct ty fs) "") as [out|] eqn:Hout; [|done]. intros [= <-].
  destruct (validateStruct_stop st v Hv (Struct ty fs) AtRoot "" out Hout) as (out' & -> & Hs & Hh). by exists out'.
Qed.

(** What [Struct] returns is never the nil error, not even for a valid struct, whose
    list of errors is empty: the caller that compares it with nil takes every
    struct for invalid.  [Var] does return nil. *)
Theorem Struct_never_nil st v :
  (forall s, StructCtx st v s <> Some None) /\
  (forall ty fs, (forall f fv, (f, fv) ∈ fs -> f_exported f = false) ->
   StructCtx st v (Struct ty fs) = Some (Some (ValidationErrors [])) /\ Var st v (Struct ty fs) "" = Some None).
Proof.
  split.
  - intros s. unfold StructCtx. destruct (target s); try done. by destruct (validateStruct _ _ _ _ _).
  - intros ty fs Hfs. split; [|done]. unfold StructCtx, target. cbn [contents validateStruct is_root negb]. rewrite andb_false_r.
    assert (field_loop st v (validateStruct st v) (Struct ty fs) "" fs [] = Some []) as ->; [|done].
    generalize (Struct ty fs) as sv. intros sv. induction fs as [|[f fv] fs IH]; [done|]. cbn [field_loop].
    rewrite (Hfs f fv) by (by left). cbn [negb]. apply IH. intros g gv Hg. apply (Hfs g gv). by right.
Qed.

(** A tag is read back: rules whose names have no comma, equals sign or space and
    whose parameters have no comma or space, written one after the other with
    commas between them. *)
Definition write_rule (r : rule) : string :=
  if String.eqb (r_param r) "" then r_name r else r_name r +:+ "=" +:+ r_param r.

Definition plain_rule (r : rule) : Prop :=
  r_name r <> "" /\ string_has "," (r_name r) = false /\ string_has "=" (r_name r) = false /\ no_space (r_name r) = true /\
  string_has "," (r_param r) = false /\ no_space (r_param r) = true.

Lemma parse_part_write r : plain_rule r -> parse_part (write_rule r) = Some r.
Proof.
  intros (Hne & _ & He & Hn & _ & Hp). destruct r as [name param]. cbn [r_name r_param] in *. unfold write_rule, parse_part. cbn [r_name r_param].
  destruct (String.eqb_spec param "") as [->|Hp0].
  - rewrite TrimSpace_no_space by done. rewrite (proj2 (String.eqb_neq _ _) Hne), (proj2 (cut_byte_none _ _) He). done.
  - rewrite TrimSpace_no_space by (rewrite !no_space_app, Hn, Hp; done).
    assert (String.eqb (name +:+ "=" +:+ param) "" = false) as -> by (apply String.eqb_neq; by destruct name).
    change ("=" +:+ param) with (String "=" param). by rewrite cut_byte_app.
Qed.

Theorem parseTag_write rules :
  rules <> [] -> Forall plain_rule rules -> parseTag (String.concat "," (map write_rule rules)) = rules.
Proof.
  intros Hne Hr. unfold parseTag. change "," with (String "," "") at 1. rewrite (split_byte_concat ",").
  - induction Hr as [|r rules Hr Hrs IH]; [done|]. cbn [map omap list_omap]. rewrite parse_part_write by done.
    f_equal. destruct rules; [done|]. by apply IH.
  - by destruct rules.
  - apply Forall_map. eapply Forall_impl; [|exact Hr]. intros r (_ & Hn & _ & _ & Hp & _). unfold write_rule.
    destruct (String.eqb (r_param r) ""); [done|]. rewrite !string_has_app, Hn, Hp. done.
Qed.

Lemma parseTag_write_witness : parseTag "required,min=2" = [mkRule "required" ""; mkRule "min" "2"].
Proof.
  apply (parseTag_write [mkRule "required" ""; mkRule "min" "2"]); [done|]. repeat constructor; done.
Defined.

(** No tag gives a rule a parameter with a comma: a pattern with bounds, such as
    [regex=^[0-9]{2,4}$], is cut at the comma, and what follows is taken for another
    rule, which is ignored because no rule has its name. *)
Theorem comma_in_parameter :
  (forall tag r, r ∈ parseTag tag -> string_has "," (r_param r) = false /\ string_has "," (r_name r) = false) /\
  parseTag "regex=^[0-9]{2,4}$" = [mkRule "regex" "^[0-9]{2"; mkRule "4}$" ""].
Proof.
  split; [|done]. intros tag r (part & Hin & Hp)%list_elem_of_omap.
  pose proof (split_byte_pieces "," tag) as Hall. rewrite list.Forall_forall in Hall. apply Hall in Hin.
  unfold parse_part in Hp. destruct (String.eqb (TrimSpace part) ""); [done|].
  assert (string_has "," (TrimSpace part) = false) as Ht by (by apply TrimSpace_has).
  destruct (cut_byte "=" (TrimSpace part)) as [[name param]|] eqn:Hc; injection Hp as <-; [|done].
  apply cut_byte_some in Hc as [Heq _]. rewrite Heq, string_has_app in Ht. cbn [string_has] in Ht.
  apply orb_false_iff in Ht as [Hn Ht]. apply orb_false_iff in Ht as [_ Ht]. done.
Qed.

(** Every built-in rule that fails has a message: the answer of the default provider
    is never the generic one. *)
Theorem builtin_messages `{Fmt} `{Unicode} name f value param sv key fld :
  (name, f) ∈ builtin_rules -> f value param sv = Some key -> key <> "" ->
  exists msg, defaultEnglishMessages !! key = Some msg /\ Get initial DefaultMessages key fld param = format msg fld param.
Proof.
  intros Hin Hf Hk. pose proof builtin_keys as Hall. rewrite list.Forall_forall in Hall.
  specialize (Hall _ Hin value param sv key Hf). unfold known_key in Hall.
  rewrite (proj2 (String.eqb_neq _ _) Hk) in Hall. cbn [orb] in Hall.
  destruct (defaultEnglishMessages !! key) as [msg|] eqn:Hm; [|done]. exists msg. split; [done|].
  unfold Get, lookup_message. change (messages DefaultMessages !! locale DefaultMessages) with (Some english). cbn iota.
  change (table_at initial english) with defaultEnglishMessages. by rewrite Hm.
Qed.

(** [dive] does nothing: no rule ever looks at the elements of a slice of strings or
    numbers. *)
Theorem dive_ignored `{Fmt} `{Unicode} st ty l name sv :
  Forall (fun w => match w with Str _ _ | Int _ _ | Uint _ _ | Float _ _ | Bool _ _ => True | _ => False end) l ->
  validateValue st (New []) (Slice ty (Some l)) name "dive" sv = Some [] /\
  validateStruct st (New []) AtField (Slice ty (Some l)) name = Some [].
Proof.
  intros Hl. split.
  - unfold validateValue. change (parseTag "dive") with [mkRule "dive" ""]. reflexivity.
  - cbn [validateStruct]. generalize 0 as j. induction Hl as [|w l Hw Hl IH]; intros j; cbn [element_loop]; [done|].
    by destruct w; try done; cbn [validateStruct app]; apply IH.
Qed.

#[local] Instance plain_fmt : Fmt := {| Sprintf_v _ := "" |}.
#[local] Instance ascii_unicode : Unicode := {|
  IsUpper r := (65 <=? r) && (r <=? 90);
  IsLower r := (97 <=? r) && (r <=? 122);
  IsLetter r := ((65 <=? r) && (r <=? 90)) || ((97 <=? r) && (r <=? 122));
  IsDigit r := (48 <=? r) && (r <=? 57);
  IsPunctOrSymbol r := (33 <=? r) && (r <=? 47)
|}.

Definition tagged (name tag : string) : field := mkField name true [("validate", tag)].

Definition user : value :=
  Struct "User"
    [(tagged "Name" "required,min=2", Str "string" "J");
     (mkField "secret" false [("validate", "required")], Str "string" "");
     (tagged "Addresses" "",
        Slice "[]Address" (Some [Struct "Address" [(mkField "Zip" true [("json", "zip,omitempty"); ("validate", "postcode")], Str "string" "1")]]))].

Lemma Struct_reports_witness :
  StructCtx initial (New []) user =
    Some (Some (ValidationErrors
      [mkError "Name" "min" "2" (Str "string" "J") "Name must be at least 2";
       mkError "Addresses[0].zip" "postcode" "" (Str "string" "1") "Addresses[0].zip must be a valid postal code"])) /\
  match StructCtx initial (New []) user with
  | None => struct_panics (New []) AtRoot user ""
  | Some (Some (ValidationErrors errs)) =>
      (forall e, e ∈ errs -> struct_fails initial (New []) AtRoot user "" e) /\
      (stopOnFirst (New []) = false \/ errs = [] ->
       (forall e, struct_fails initial (New []) AtRoot user "" e -> e ∈ errs) /\ ~ struct_panics (New []) AtRoot user "")
  | Some _ => False
  end.
Proof.
  split; [by vm_compute|]. by apply (Struct_reports initial (New []) user "User").
Defined.

Lemma builtin_messages_witness : exists msg, defaultEnglishMessages !! "min" = Some msg /\ Get initial DefaultMessages "min" "Name" "2" = format msg "Name" "2".
Proof.
  refine (builtin_messages "min" ruleMin (Str "string" "J") "2" Nil "min" "Name" _ _ _).
  - by apply (list_elem_of_lookup_2 _ 29).
  - by vm_compute.
  - done.
Defined.

Lemma dive_ignored_witness :
  validateValue initial (New []) (Slice "[]string" (Some [Str "string" "not an email"])) "Emails" "dive" Nil = Some [] /\
  validateStruct initial (New []) AtField (Slice "[]string" (Some [Str "string" "not an email"])) "Emails" = Some [].
Proof. apply (dive_ignored initial "[]string" [Str "string" "not an email"] "Emails" Nil). by repeat constructor. Defined.

(** A nested struct that fails does not end the walk until the next field has been
    looked at: with [WithStopOnFirstError] there can be two errors. *)
Definition order : value :=
  Struct "Order"
    [(tagged "Address" "", Struct "Address" [(tagged "Zip" "required", Str "string" "")]);
     (tagged "Email" "email", Str "string" "nobody"); (tagged "Name" "required", Str "string" "")].

Lemma stop_on_first_witness :
  StructCtx initial (New [WithStopOnFirstError]) order =
    Some (Some (ValidationErrors
      [mkError "Address.Zip" "required" "" (Str "string" "") "Address.Zip is required";
       mkError "Email" "email" "" (Str "string" "nobody") "Email must be a valid email address"])) /\
  exists errs', StructCtx initial (WithStopOnFirstError (New [])) order = Some (Some (ValidationErrors errs')) /\
    sublist errs'
      [mkError "Address.Zip" "required" "" (Str "string" "") "Address.Zip is required";
       mkError "Email" "email" "" (Str "string" "nobody") "Email must be a valid email address";
       mkError "Name" "required" "" (Str "string" "") "Name is required"] /\
    First errs' = Some (mkError "Address.Zip" "required" "" (Str "string" "") "Address.Zip is required").
Proof.
  split; [by vm_compute|].
  apply (stop_on_first initial (New []) order
    [mkError "Address.Zip" "required" "" (Str "string" "") "Address.Zip is required";
     mkError "Email" "email" "" (Str "string" "nobody") "Email must be a valid email address";
     mkError "Name" "required" "" (Str "string" "") "Name is required"]); by vm_compute.
Defined.

(** A tag can make [Struct] panic: a comparison with a field that is not exported, or
    [unique] on elements that cannot be the keys of a map. *)
Theorem tags_panic :
  StructCtx initial (New [])
    (Struct "Form" [(tagged "Confirm" "eqfield=password", Str "string" "x"); (mkField "password" false [], Str "string" "x")]) = None /\
  StructCtx initial (New [])
    (Struct "Table" [(tagged "Rows" "unique", Slice "[][]int" (Some [Slice "[]int" (Some [])]))]) = None.
Proof. by vm_compute. Qed.
