(* ===== verification/Storage.v ===== *)
(** * Object storage ([pantry/storage/storage.go], [memory.go])

    The paths and media types every backend shares, and the backend in memory.
    The map of media types is a variable of the package and an argument here; the
    sniffing of a content by [net/http] is a parameter.  Metadata are Go maps,
    which a caller can hold: an object keeps the address of its map. *)

From stdpp Require Import sorting.
From S2P Require Import Prelude GoStrings Paths.
#[local] Open Scope list_scope.

(** ** [storage.go] *)

Inductive StoreError :=
| ErrNotFound | ErrPermissionDenied | ErrAlreadyExists | ErrInvalidPath | ErrPresignNotSupported
| ErrBucketNotFound | ErrInvalidConfig
(** an error of the context, of the reader, of the operating system *)
| ErrContext | ErrRead | ErrOS.

Record PutOptions := {
  po_ContentType : string;
  po_Metadata : gmap string string;
  po_IfNotExists : bool
}.
Definition no_options : PutOptions := {| po_ContentType := ""; po_Metadata := ∅; po_IfNotExists := false |}.

Record ListOptions := {
  MaxKeys : Z;
  Delimiter : string;
  ContinuationToken : string
}.
Definition no_list_options : ListOptions := {| MaxKeys := 0; Delimiter := ""; ContinuationToken := "" |}.

(** The address of a map of metadata; [None] is nil. *)
Abbreviation map_ref := (option nat) (only parsing).

Record ObjectInfo := {
  oi_Path : string;
  oi_Size : Z;
  oi_ContentType : string;
  oi_LastModified : Time;
  oi_Metadata : map_ref
}.

Record ListResult := {
  Objects : list ObjectInfo;
  CommonPrefixes : list string;
  IsTruncated : bool;
  NextContinuationToken : string
}.

(** The loop that removes the double slashes; each round shortens the path. *)
Fixpoint collapse (fuel : nat) (path : string) : string :=
  match fuel with
  | O => path
  | S fuel => if Contains path "//" then collapse fuel (ReplaceAll path "//" "/") else path
  end.

Definition NormalizePath (path : string) : string :=
  let path := ReplaceAll (Clean (Trim path "/")) "\" "/" in
  collapse (String.length path) path.

Definition ValidatePath (path : string) : option StoreError :=
  if String.eqb path "" then Some ErrInvalidPath
  else if Contains path ".." then Some ErrInvalidPath
  else if string_has Ascii.zero path then Some ErrInvalidPath
  else None.

Definition mimeTypes : gmap string string := list_to_map
  [(".txt", "text/plain");
   (".html", "text/html");
   (".htm", "text/html");
   (".css", "text/css");
   (".csv", "text/csv");
   (".xml", "application/xml");
   (".json", "application/json");
   (".js", "application/javascript");
   (".mjs", "application/javascript");
   (".ts", "application/typescript");
   (".md", "text/markdown");
   (".yaml", "application/x-yaml");
   (".yml", "application/x-yaml");
   (".toml", "application/toml");
   (".jpg", "image/jpeg");
   (".jpeg", "image/jpeg");
   (".png", "image/png");
   (".gif", "image/gif");
   (".bmp", "image/bmp");
   (".webp", "image/webp");
   (".svg", "image/svg+xml");
   (".ico", "image/x-icon");
   (".tiff", "image/tiff");
   (".tif", "image/tiff");
   (".avif", "image/avif");
   (".heic", "image/heic");
   (".heif", "image/heif");
   (".mp4", "video/mp4");
   (".webm", "video/webm");
   (".avi", "video/x-msvideo");
   (".mov", "video/quicktime");
   (".wmv", "video/x-ms-wmv");
   (".flv", "video/x-flv");
   (".mkv", "video/x-matroska");
   (".m4v", "video/x-m4v");
   (".mp3", "audio/mpeg");
   (".wav", "audio/wav");
   (".ogg", "audio/ogg");
   (".flac", "audio/flac");
   (".aac", "audio/aac");
   (".m4a", "audio/mp4");
   (".wma", "audio/x-ms-wma");
   (".pdf", "application/pdf");
   (".doc", "application/msword");
   (".docx", "application/vnd.openxmlformats-officedocument.wordprocessingml.document");
   (".xls", "application/vnd.ms-excel");
   (".xlsx", "application/vnd.openxmlformats-officedocument.spreadsheetml.sheet");
   (".ppt", "application/vnd.ms-powerpoint");
   (".pptx", "application/vnd.openxmlformats-officedocument.presentationml.presentation");
   (".odt", "application/vnd.oasis.opendocument.text");
   (".ods", "application/vnd.oasis.opendocument.spreadsheet");
   (".odp", "application/vnd.oasis.opendocument.presentation");
   (".rtf", "application/rtf");
   (".epub", "application/epub+zip");
   (".zip", "application/zip");
   (".tar", "application/x-tar");
   (".gz", "application/gzip");
   (".bz2", "application/x-bzip2");
   (".xz", "application/x-xz");
   (".7z", "application/x-7z-compressed");
   (".rar", "application/vnd.rar");
   (".ttf", "font/ttf");
   (".otf", "font/otf");
   (".woff", "font/woff");
   (".woff2", "font/woff2");
   (".eot", "application/vnd.ms-fontobject");
   (".wasm", "application/wasm");
   (".exe", "application/x-msdownload");
   (".dll", "application/x-msdownload");
   (".dmg", "application/x-apple-diskimage");
   (".iso", "application/x-iso9660-image");
   (".apk", "application/vnd.android.package-archive");
   (".ipa", "application/x-itunes-ipa")].

Section DetectContentType.
Context (mimes : gmap string string) (sniff : string -> string).

(** A missing key and an empty value are the same to the code. *)
Definition DetectContentType (path content : string) : string :=
  let ct := default "" (mimes !! ToLower (Ext path)) in
  if negb (String.eqb ct "") then ct
  else if (0 <? String.length content)%nat then sniff content
  else "application/octet-stream".
End DetectContentType.

Definition RegisterMimeType (mimes : gmap string string) (ext mimeType : string) : gmap string string :=
  let ext := if HasPrefix ext "." then ext else "." +:+ ext in
  <[ToLower ext := mimeType]> mimes.

(** ** [memory.go] *)

Record memoryObject := {
  data : string;
  contentType : string;
  metadata : map_ref;
  modTime : Time
}.

(** [maps] are the metadata maps that [Put] and [Copy] have made, by address:
    callers that got an [ObjectInfo] hold the same addresses. *)
Record Memory := {
  objects : gmap string memoryObject;
  baseURL : string;
  maps : list (gmap string string)
}.

Definition NewMemory (url : string) : Memory := {| objects := ∅; baseURL := url; maps := [] |}.

Definition set_objects (m : Memory) (os : gmap string memoryObject) : Memory :=
  {| objects := os; baseURL := baseURL m; maps := maps m |}.

(** [make(map[string]string)] and the loop that fills it. *)
Definition make_map (m : Memory) (t : gmap string string) : Memory * map_ref :=
  ({| objects := objects m; baseURL := baseURL m; maps := maps m ++ [t] |}, Some (length (maps m))).

Definition read_map (m : Memory) (r : map_ref) : gmap string string := default ∅ (r ≫= fun l => maps m !! l).

(** What a caller that holds the map of an [ObjectInfo] does with
    [info.Metadata[k] = v]; writing to a nil map panics ([None]). *)
Definition write_map (m : Memory) (r : map_ref) (k v : string) : option Memory :=
  match r with
  | Some l => Some {| objects := objects m; baseURL := baseURL m; maps := alter <[k := v]> l (maps m) |}
  | None => None
  end.

Definition object_info (path : string) (obj : memoryObject) : ObjectInfo :=
  {| oi_Path := path; oi_Size := Z.of_nat (String.length (data obj)); oi_ContentType := contentType obj;
     oi_LastModified := modTime obj; oi_Metadata := metadata obj |}.

Section Memory.
Context (mimes : gmap string string) (sniff : string -> string).
(** [ctx.Err()]. *)
Implicit Type ctx : option StoreError.

(** [r] is what [io.ReadAll] gives. *)
Definition Put ctx (m : Memory) (path : string) (r : result StoreError string) (opts : option PutOptions) (now : Time)
  : Memory * option StoreError :=
  match ctx with
  | Some e => (m, Some e)
  | None =>
      let path := NormalizePath path in
      match ValidatePath path with
      | Some e => (m, Some e)
      | None =>
          let opts := default no_options opts in
          if po_IfNotExists opts && bool_decide (is_Some (objects m !! path)) then (m, Some ErrAlreadyExists)
          else
            match r with
            | Err e => (m, Some e)
            | Ok content =>
                let ct := if String.eqb (po_ContentType opts) "" then DetectContentType mimes sniff path content
                          else po_ContentType opts in
                let '(m, meta) := if (0 <? size (po_Metadata opts))%nat then make_map m (po_Metadata opts) else (m, None) in
                (set_objects m (<[path := {| data := content; contentType := ct; metadata := meta; modTime := now |}]> (objects m)), None)
            end
      end
  end.

Definition PutBytes ctx (m : Memory) (path content : string) (opts : option PutOptions) (now : Time) :=
  Put ctx m path (Ok content) opts now.

Definition lookup_object ctx (m : Memory) (path : string) : result StoreError (string * memoryObject) :=
  match ctx with
  | Some e => Err e
  | None =>
      let path := NormalizePath path in
      match objects m !! path with
      | Some obj => Ok (path, obj)
      | None => Err ErrNotFound
      end
  end.

Definition Get ctx (m : Memory) (path : string) : result StoreError string :=
  try! (_, obj) := lookup_object ctx m path in Ok (data obj).
Definition GetBytes ctx (m : Memory) (path : string) : result StoreError string :=
  try! (_, obj) := lookup_object ctx m path in Ok (data obj).
Definition GetWithInfo ctx (m : Memory) (path : string) : result StoreError (string * ObjectInfo) :=
  try! (path, obj) := lookup_object ctx m path in Ok (data obj, object_info path obj).
Definition Head ctx (m : Memory) (path : string) : result StoreError ObjectInfo :=
  try! (path, obj) := lookup_object ctx m path in Ok (object_info path obj).

Definition Delete ctx (m : Memory) (path : string) : Memory * option StoreError :=
  match ctx with
  | Some e => (m, Some e)
  | None =>
      let path := NormalizePath path in
      match objects m !! path with
      | None => (m, Some ErrNotFound)
      | Some _ => (set_objects m (delete path (objects m)), None)
      end
  end.

Definition delete_one (s : Memory * Z) (path : string) : Memory * Z :=
  let '(m, deleted) := s in
  let path := NormalizePath path in
  match objects m !! path with
  | Some _ => (set_objects m (delete path (objects m)), deleted + 1)
  | None => (m, deleted)
  end.

Definition DeleteMany ctx (m : Memory) (paths : list string) : Memory * Z * option StoreError :=
  match ctx with
  | Some e => (m, 0, Some e)
  | None => (fold_left delete_one paths (m, 0), None)
  end.

Definition Exists ctx (m : Memory) (path : string) : result StoreError bool :=
  match ctx with
  | Some e => Err e
  | None => Ok (bool_decide (is_Some (objects m !! NormalizePath path)))
  end.

Definition Copy ctx (m : Memory) (src dst : string) (now : Time) : Memory * option StoreError :=
  match ctx with
  | Some e => (m, Some e)
  | None =>
      let src := NormalizePath src in
      let dst := NormalizePath dst in
      match objects m !! src with
      | None => (m, Some ErrNotFound)
      | Some srcObj =>
          let '(m, meta) := match metadata srcObj with
                            | Some _ => make_map m (read_map m (metadata srcObj))
                            | None => (m, None)
                            end in
          (set_objects m (<[dst := {| data := data srcObj; contentType := contentType srcObj; metadata := meta; modTime := now |}]> (objects m)), None)
      end
  end.

(** The second critical section of [Move]. *)
Definition Move_delete (m : Memory) (src : string) : Memory :=
  set_objects m (delete (NormalizePath src) (objects m)).

Definition Move ctx (m : Memory) (src dst : string) (now : Time) : Memory * option StoreError :=
  match Copy ctx m src dst now with
  | (m, Some e) => (m, Some e)
  | (m, None) => (Move_delete m src, None)
  end.

Definition PresignedURL : result StoreError string := Err ErrPresignNotSupported.
Definition PresignedUploadURL : result StoreError string := Err ErrPresignNotSupported.

Definition URL (m : Memory) (path : string) : string :=
  if String.eqb (baseURL m) "" then "" else baseURL m +:+ "/" +:+ NormalizePath path.

Definition Clear (m : Memory) : Memory := set_objects m ∅.
Definition Count (m : Memory) : Z := Z.of_nat (size (objects m)).
End Memory.

(** *** [List] *)


Definition list_prefix (prefix : string) : string :=
  let prefix := NormalizePath prefix in if String.eqb prefix "." then "" else prefix.

Definition list_max (opts : ListOptions) : Z := if MaxKeys opts <=? 0 then 1000 else MaxKeys opts.

(** The keys with the prefix, sorted: the order of the map does not matter. *)
Definition list_keys (m : Memory) (prefix : string) : list string :=
  merge_sort str_le (List.filter (fun k => String.eqb prefix "" || HasPrefix k prefix) (map_to_list (objects m)).*1).

(** The common prefix under which a key is grouped, if it is. *)
Definition group_of (prefix delimiter path : string) : option string :=
  if String.eqb delimiter "" then None
  else
    let suffix := if String.eqb prefix "" then path else TrimPrefix (TrimPrefix path prefix) "/" in
    match Index suffix delimiter with
    | Some idx => Some (str_take (String.length path - String.length suffix + idx + 1) path)
    | None => None
    end.

Record list_state := {
  seenPrefixes : gset string;
  ls_result : ListResult
}.

Definition empty_result : ListResult :=
  {| Objects := []; CommonPrefixes := []; IsTruncated := false; NextContinuationToken := "" |}.

Definition add_prefix (s : list_state) (g : string) : list_state :=
  let r := ls_result s in
  if bool_decide (g ∈ seenPrefixes s) then s
  else {| seenPrefixes := {[g]} ∪ seenPrefixes s;
          ls_result := {| Objects := Objects r; CommonPrefixes := CommonPrefixes r ++ [g];
                          IsTruncated := IsTruncated r; NextContinuationToken := NextContinuationToken r |} |}.

Definition add_object (s : list_state) (i : ObjectInfo) : list_state :=
  let r := ls_result s in
  {| seenPrefixes := seenPrefixes s;
     ls_result := {| Objects := Objects r ++ [i]; CommonPrefixes := CommonPrefixes r;
                     IsTruncated := IsTruncated r; NextContinuationToken := NextContinuationToken r |} |}.

Definition truncate_at (s : list_state) (path : string) : list_state :=
  let r := ls_result s in
  {| seenPrefixes := seenPrefixes s;
     ls_result := {| Objects := Objects r; CommonPrefixes := CommonPrefixes r;
                     IsTruncated := true; NextContinuationToken := path |} |}.

(** The loop over the sorted keys; [obj] is read under the lock that the keys
    were collected under, so that it is there. *)
Fixpoint list_loop (m : Memory) (prefix delimiter : string) (max : Z) (keys : list string) (s : list_state) : list_state :=
  match keys with
  | [] => s
  | path :: keys =>
      match objects m !! path with
      | None => list_loop m prefix delimiter max keys s
      | Some obj =>
          match group_of prefix delimiter path with
          | Some g => list_loop m prefix delimiter max keys (add_prefix s g)
          | None =>
              if max <=? Z.of_nat (length (Objects (ls_result s))) then truncate_at s path
              else list_loop m prefix delimiter max keys (add_object s (object_info path obj))
          end
      end
  end.

Definition List (ctx : option StoreError) (m : Memory) (prefix : string) (opts : option ListOptions) : result StoreError ListResult :=
  match ctx with
  | Some e => Err e
  | None =>
      let opts := default no_list_options opts in
      let prefix := list_prefix prefix in
      Ok (ls_result (list_loop m prefix (Delimiter opts) (list_max opts) (list_keys m prefix)
                       {| seenPrefixes := ∅; ls_result := empty_result |}))
  end.

(** ** Paths *)

Lemma collapse_id fuel p : Contains p "//" = false -> collapse fuel p = p.
Proof. intros H. destruct fuel; cbn; [done|]. by rewrite H. Qed.

(** The fuel of [NormalizePath] is enough: no double slash is left. *)
Lemma collapse_done fuel p : (String.length p <= fuel)%nat -> Contains (collapse fuel p) "//" = false.
Proof.
  revert p. induction fuel as [|fuel IH]; intros p Hp.
  - destruct p; cbn in Hp; [done|lia].
  - cbn [collapse]. destruct (Contains p "//") eqn:Hc; [|done].
    apply IH. pose proof (replace_double_lt "/" p Hc). lia.
Qed.

Lemma collapse_nonempty fuel p : p <> "" -> collapse fuel p <> "".
Proof.
  revert p. induction fuel as [|fuel IH]; intros p Hp; cbn; [done|]. destruct (Contains p "//"); [|done].
  apply IH. by apply (replace_double_nonempty "/").
Qed.

Lemma Clean_nonempty p : Clean p <> "".
Proof.
  destruct (HasPrefix p "/") eqn:Hp.
  - by destruct (Clean_rooted p Hp) as (segs & _ & -> & _).
  - destruct (Clean_relative p Hp) as (n & rest & Hr & -> & _). intros He.
    pose proof (rel_no_empty n rest Hr) as Hne. rewrite He in Hne. apply Hne. left.
Qed.

Lemma NormalizePath_nonempty p : NormalizePath p <> "".
Proof.
  unfold NormalizePath. apply collapse_nonempty. intros He.
  pose proof (ReplaceAll_byte_length "\" "/" (Clean (Trim p "/"))) as Hl. rewrite He in Hl. cbn in Hl.
  by destruct (Clean (Trim p "/")) eqn:Hc; [apply Clean_nonempty in Hc|].
Qed.

(** The paths that normalising leaves alone. *)
Definition canonical (k : string) : Prop :=
  string_has "\" k = false /\ exists n rest, Forall plain rest /\ k = rel_string (repeat ".." n ++ rest).

Lemma NormalizePath_id k : canonical k -> NormalizePath k = k.
Proof.
  intros [Hb (n & rest & Hr & Hk)]. pose proof (rel_no_empty n rest Hr) as Hne. rewrite <- Hk in Hne.
  unfold NormalizePath. rewrite Trim_id by done. rewrite Hk at 1 2. rewrite Clean_rel_id by done. rewrite <- Hk.
  rewrite ReplaceAll_byte_none by done. by apply collapse_id, (no_empty_double "/").
Qed.

Lemma rel_string_has c n rest : Ascii.eqb c "/" = false -> Ascii.eqb c "." = false ->
  (forall x, x ∈ repeat ".." n ++ rest -> string_has c x = false) -> string_has c (rel_string (repeat ".." n ++ rest)) = false.
Proof.
  intros Hs Hd Hx. unfold rel_string. destruct (repeat ".." n ++ rest) as [|y l] eqn:Hl.
  - cbn [string_has]. by rewrite Ascii.eqb_sym, Hd.
  - rewrite has_join by done. apply not_true_is_false. rewrite existsb_exists. intros (x & Hin & Hc).
    apply list_elem_of_In in Hin. by rewrite Hx in Hc.
Qed.

Lemma NormalizePath_canonical p : string_has "\" p = false -> canonical (NormalizePath p).
Proof.
  intros Hb. unfold NormalizePath.
  destruct (Clean_relative (Trim p "/") (Trim_head p "/")) as (n & rest & Hr & -> & Hin).
  assert (string_has "\" (rel_string (repeat ".." n ++ rest)) = false) as Hb'.
  { apply rel_string_has; [done..|]. intros x Hx. apply not_true_is_false. intros Hc.
    apply (has_split "\" "/" (Trim p "/") x) in Hc; [|by apply Hin]. by rewrite Trim_has in Hc. }
  rewrite ReplaceAll_byte_none by done. rewrite collapse_id by (apply (no_empty_double "/"); by apply rel_no_empty).
  split; [done|]. by exists n, rest.
Qed.

(** ** The backend against its specification *)

(** What an object holds, its metadata by value. *)
Record entry := { e_data : string; e_type : string; e_time : Time; e_meta : option (gmap string string) }.

Definition entry_of (m : Memory) (o : memoryObject) : entry :=
  {| e_data := data o; e_type := contentType o; e_time := modTime o; e_meta := metadata o ≫= fun l => maps m !! l |}.
Definition view (m : Memory) : gmap string entry := entry_of m <$> objects m.

(** Every map of metadata belongs to one object. *)
Definition wf (m : Memory) : Prop :=
  map_Forall (fun _ o => match metadata o with Some l => (l < length (maps m))%nat | None => True end) (objects m) /\
  forall p q o o' l, objects m !! p = Some o -> objects m !! q = Some o' ->
    metadata o = Some l -> metadata o' = Some l -> p = q.

Lemma view_lookup m p : view m !! p = entry_of m <$> (objects m !! p).
Proof. apply lookup_fmap. Qed.

Lemma entry_of_make m t o : (match metadata o with Some l => (l < length (maps m))%nat | None => True end) ->
  entry_of (make_map m t).1 o = entry_of m o.
Proof.
  unfold entry_of. destruct (metadata o) as [l|]; cbn; [|done]. intros Hl. f_equal. by apply lookup_app_l.
Qed.

(** A new object under a path, with no metadata or with a map of its own. *)
Definition fresh_map (m : Memory) (t : option (gmap string string)) : Memory * map_ref :=
  match t with Some t => make_map m t | None => (m, None) end.

Lemma insert_fresh m t p d ct now :
  wf m ->
  let '(m1, r) := fresh_map m t in
  let m' := set_objects m1 (<[p := {| data := d; contentType := ct; metadata := r; modTime := now |}]> (objects m1)) in
  wf m' /\ view m' = <[p := {| e_data := d; e_type := ct; e_time := now; e_meta := t |}]> (view m).
Proof.
  intros [Hl Hu].
  assert (forall t, view (make_map m t).1 = view m) as Hview.
  { intros u. apply map_eq. intros q. rewrite !view_lookup. change (objects (make_map m u).1) with (objects m).
    destruct (objects m !! q) as [o|] eqn:Hq; [|done]. cbn. f_equal. apply entry_of_make. apply (Hl q o Hq). }
  assert (forall r, (forall q o l, objects m !! q = Some o -> metadata o = Some l -> r <> Some l) ->
    forall q q' o o' l,
      <[p := {| data := d; contentType := ct; metadata := r; modTime := now |}]> (objects m) !! q = Some o ->
      <[p := {| data := d; contentType := ct; metadata := r; modTime := now |}]> (objects m) !! q' = Some o' ->
      metadata o = Some l -> metadata o' = Some l -> q = q') as Huniq.
  { intros r Hr q q' o o' l [[<- <-]|[Hpq Hq]]%lookup_insert_Some [[<- <-]|[Hpq' Hq']]%lookup_insert_Some Ho Ho'; cbn in *; [done| | |].
    - by destruct (Hr q' o' l Hq' Ho').
    - by destruct (Hr q o l Hq Ho).
    - by apply (Hu q q' o o' l). }
  destruct t as [t|]; cbn.
  - split; [split|].
    + intros q o Hq. cbn in Hq |- *. rewrite length_app. cbn.
      apply lookup_insert_Some in Hq as [[<- <-]|[_ Hq]]; cbn; [lia|]. specialize (Hl q o Hq). cbn in Hl. destruct (metadata o); [lia|done].
    + cbn. apply Huniq. intros q o l Hq Ho [= <-]. specialize (Hl q o Hq). cbn in Hl. rewrite Ho in Hl. lia.
    + unfold view at 1. cbn. rewrite fmap_insert. unfold entry_of at 1. cbn.
      rewrite list_lookup_middle by done. f_equal. apply (Hview t).
  - split; [split|].
    + intros q o Hq. cbn in Hq. apply lookup_insert_Some in Hq as [[<- <-]|[_ Hq]]; cbn; [done|]. apply (Hl q o Hq).
    + cbn. apply Huniq. by intros.
    + unfold view at 1. cbn. by rewrite fmap_insert.
Qed.

Lemma delete_wf m p : wf m -> wf (set_objects m (delete p (objects m))).
Proof.
  intros [Hl Hu]. split; cbn.
  - intros q o Hq. cbn in Hq. apply lookup_delete_Some in Hq as [_ Hq]. apply (Hl q o Hq).
  - intros q q' o o' l [_ Hq]%lookup_delete_Some [_ Hq']%lookup_delete_Some. by apply Hu.
Qed.

Lemma view_delete m p : view (set_objects m (delete p (objects m))) = delete p (view m).
Proof. unfold view. cbn. by rewrite fin_maps.fmap_delete. Qed.

(** The calls of a client; [OWrite] writes to the metadata that [Head] gave. *)
Inductive op :=
| OPut (path : string) (r : result StoreError string) (opts : option PutOptions) (now : Time)
| OGet (path : string)
| OExists (path : string)
| ODelete (path : string)
| ODeleteMany (paths : list string)
| OCopy (src dst : string) (now : Time)
| OMove (src dst : string) (now : Time)
| OClear
| OWrite (path k v : string).

Inductive reply :=
| RDone (e : option StoreError)
| RObject (r : result StoreError (string * string * Time * option (gmap string string)))
| RExists (r : result StoreError bool)
| RDeleted (n : Z)
| RPanic.

Section run.
Context (mimes : gmap string string) (sniff : string -> string).

Definition run (m : Memory) (o : op) : Memory * reply :=
  match o with
  | OPut path r opts now => let '(m, e) := Put mimes sniff None m path r opts now in (m, RDone e)
  | OGet path =>
      (m, RObject (try! (content, i) := GetWithInfo None m path in
                   Ok (content, oi_ContentType i, oi_LastModified i, oi_Metadata i ≫= fun l => maps m !! l)))
  | OExists path => (m, RExists (Exists None m path))
  | ODelete path => let '(m, e) := Delete None m path in (m, RDone e)
  | ODeleteMany paths => let '(m, n, e) := DeleteMany None m paths in (m, RDeleted n)
  | OCopy src dst now => let '(m, e) := Copy None m src dst now in (m, RDone e)
  | OMove src dst now => let '(m, e) := Move None m src dst now in (m, RDone e)
  | OClear => (Clear m, RDone None)
  | OWrite path k v =>
      match Head None m path with
      | Err e => (m, RDone (Some e))
      | Ok i => match write_map m (oi_Metadata i) k v with Some m => (m, RDone None) | None => (m, RPanic) end
      end
  end.

Fixpoint run_all (m : Memory) (ops : list op) : Memory * list reply :=
  match ops with
  | [] => (m, [])
  | o :: ops => let '(m, r) := run m o in let '(m, rs) := run_all m ops in (m, r :: rs)
  end.

(** The specification: a map from normalised paths to objects by value. *)
Definition spec_put (s : gmap string entry) (path : string) (r : result StoreError string) (opts : PutOptions) (now : Time)
  : gmap string entry * option StoreError :=
  let key := NormalizePath path in
  match ValidatePath key, bool_decide (is_Some (s !! key)) && po_IfNotExists opts, r with
  | Some e, _, _ => (s, Some e)
  | None, true, _ => (s, Some ErrAlreadyExists)
  | None, false, Err e => (s, Some e)
  | None, false, Ok content =>
      (<[key := {| e_data := content; e_time := now;
                   e_type := if String.eqb (po_ContentType opts) "" then DetectContentType mimes sniff key content
                             else po_ContentType opts;
                   e_meta := if decide (po_Metadata opts = ∅) then None else Some (po_Metadata opts) |}]> s, None)
  end.

Definition spec_copy (s : gmap string entry) (src dst : string) (now : Time) : gmap string entry * option StoreError :=
  match s !! NormalizePath src with
  | Some e => (<[NormalizePath dst := {| e_data := e_data e; e_type := e_type e; e_time := now; e_meta := e_meta e |}]> s, None)
  | None => (s, Some ErrNotFound)
  end.

(** The keys that are there, each once. *)
Fixpoint spec_deletes (s : gmap string entry) (paths : list string) : gmap string entry * Z :=
  match paths with
  | [] => (s, 0)
  | p :: ps =>
      let '(s', n) := spec_deletes (delete (NormalizePath p) s) ps in
      (s', if bool_decide (is_Some (s !! NormalizePath p)) then n + 1 else n)
  end.

Definition spec (s : gmap string entry) (o : op) : gmap string entry * reply :=
  match o with
  | OPut path r opts now => let '(s, e) := spec_put s path r (default no_options opts) now in (s, RDone e)
  | OGet path =>
      (s, RObject match s !! NormalizePath path with
                  | Some e => Ok (e_data e, e_type e, e_time e, e_meta e)
                  | None => Err ErrNotFound
                  end)
  | OExists path => (s, RExists (Ok (bool_decide (is_Some (s !! NormalizePath path)))))
  | ODelete path =>
      (delete (NormalizePath path) s, RDone (if decide (is_Some (s !! NormalizePath path)) then None else Some ErrNotFound))
  | ODeleteMany paths => let '(s, n) := spec_deletes s paths in (s, RDeleted n)
  | OCopy src dst now => let '(s, e) := spec_copy s src dst now in (s, RDone e)
  | OMove src dst now =>
      let '(s, e) := spec_copy s src dst now in
      (if decide (e = None) then delete (NormalizePath src) s else s, RDone e)
  | OClear => (∅, RDone None)
  | OWrite path k v =>
      match s !! NormalizePath path with
      | None => (s, RDone (Some ErrNotFound))
      | Some e =>
          match e_meta e with
          | None => (s, RPanic)
          | Some t =>
              (<[NormalizePath path := {| e_data := e_data e; e_type := e_type e; e_time := e_time e; e_meta := Some (<[k := v]> t) |}]> s,
               RDone None)
          end
      end
  end.

Fixpoint spec_all (s : gmap string entry) (ops : list op) : gmap string entry * list reply :=
  match ops with
  | [] => (s, [])
  | o :: ops => let '(s, r) := spec s o in let '(s, rs) := spec_all s ops in (s, r :: rs)
  end.
End run.

(** *** The simulation *)

Definition simulates (m : Memory) (r : reply) (s : gmap string entry * reply) : Prop := wf m /\ (view m, r) = s.

Section simulation.
Context (mimes : gmap string string) (sniff : string -> string).

Lemma view_is_Some m p : bool_decide (is_Some (view m !! p)) = bool_decide (is_Some (objects m !! p)).
Proof. rewrite view_lookup. apply bool_decide_ext. by rewrite fmap_is_Some. Qed.

Lemma Put_sim m path r opts now : wf m ->
  let '(m', e) := Put mimes sniff None m path r opts now in
  wf m' /\ (view m', e) = spec_put mimes sniff (view m) path r (default no_options opts) now.
Proof.
  intros Hm. unfold Put, spec_put. destruct (ValidatePath (NormalizePath path)) as [e|]; [done|].
  rewrite view_is_Some, andb_comm. destruct (_ && _); [done|]. destruct r as [content|e]; [|done].
  set (o := default no_options opts). set (ct := if String.eqb (po_ContentType o) "" then _ else _).
  pose proof (insert_fresh m (if decide (po_Metadata o = ∅) then None else Some (po_Metadata o)) (NormalizePath path) content ct now Hm) as H.
  destruct (decide (po_Metadata o = ∅)) as [->|Hne].
  - rewrite map_size_empty. cbn [Nat.ltb Nat.leb]. cbn in H. destruct H as [Hw Hv]. split; [done|]. by f_equal.
  - assert ((0 <? size (po_Metadata o))%nat = true) as ->.
    { apply Nat.ltb_lt. assert (size (po_Metadata o) <> 0%nat); [|lia]. by intros ?%map_size_empty_inv. }
    cbn in H. destruct H as [Hw Hv]. split; [done|]. by f_equal.
Qed.

Lemma Copy_sim m src dst now : wf m ->
  let '(m', e) := Copy None m src dst now in wf m' /\ (view m', e) = spec_copy (view m) src dst now.
Proof.
  intros Hm. unfold Copy, spec_copy. rewrite view_lookup. destruct (objects m !! NormalizePath src) as [o|] eqn:Ho; [|done].
  cbn [fmap option_fmap option_map]. pose proof (proj1 Hm _ _ Ho) as Hl. cbn in Hl.
  pose proof (insert_fresh m (e_meta (entry_of m o)) (NormalizePath dst) (data o) (contentType o) now Hm) as H.
  destruct (metadata o) as [l|] eqn:Hmeta; cbn in H; rewrite Hmeta in H; cbn in H.
  - apply lookup_lt_is_Some in Hl as [t Ht]. unfold read_map. cbn. rewrite Ht in H |- *. cbn in H |- *.
    rewrite Hmeta. cbn. rewrite Ht. destruct H as [Hw Hv]. split; [done|]. by f_equal.
  - cbn. rewrite Hmeta. destruct H as [Hw Hv]. split; [done|]. by f_equal.
Qed.

Lemma Delete_sim m path : wf m ->
  let '(m', e) := Delete None m path in
  wf m' /\ (view m', RDone e) = (delete (NormalizePath path) (view m),
    RDone (if decide (is_Some (view m !! NormalizePath path)) then None else Some ErrNotFound)).
Proof.
  intros Hm. unfold Delete. rewrite view_lookup. destruct (objects m !! NormalizePath path) as [o|] eqn:Ho.
  - split; [by apply delete_wf|]. by rewrite view_delete.
  - split; [done|]. rewrite delete_id by (by rewrite view_lookup, Ho). done.
Qed.

Lemma DeleteMany_sim paths m n : wf m ->
  let '(m', n') := fold_left delete_one paths (m, n) in
  wf m' /\ (view m', n' - n) = spec_deletes (view m) paths.
Proof.
  revert m n. induction paths as [|p paths IH]; intros m n Hm; cbn; [split; [done|]; f_equal; lia|].
  rewrite view_is_Some. destruct (objects m !! NormalizePath p) as [o|] eqn:Ho.
  - specialize (IH _ (n + 1) (delete_wf m (NormalizePath p) Hm)). rewrite view_delete in IH.
    destruct (fold_left delete_one paths _) as [m' n']. destruct IH as [Hw <-]. split; [done|]. cbn. f_equal. lia.
  - specialize (IH m n Hm). rewrite delete_id by (by rewrite view_lookup, Ho).
    destruct (fold_left delete_one paths _) as [m' n']. destruct IH as [Hw <-]. split; [done|]. done.
Qed.

(** A write through the map of one object changes that object only. *)
Lemma write_sim m p o l k v : wf m -> objects m !! p = Some o -> metadata o = Some l ->
  let m' := {| objects := objects m; baseURL := baseURL m; maps := alter <[k := v]> l (maps m) |} in
  wf m' /\ exists t, e_meta (entry_of m o) = Some t /\
    view m' = <[p := {| e_data := data o; e_type := contentType o; e_time := modTime o; e_meta := Some (<[k := v]> t) |}]> (view m).
Proof.
  intros [Hl Hu] Ho Hmeta. cbn zeta. split; [split|].
  - intros q o' Hq. cbn in *. rewrite length_alter. apply (Hl q o' Hq).
  - cbn. done.
  - pose proof (Hl p o Ho) as Hlt. cbn in Hlt. rewrite Hmeta in Hlt. apply lookup_lt_is_Some in Hlt as [t Ht].
    exists t. split; [cbn; rewrite Hmeta; done|]. apply map_eq. intros q. rewrite view_lookup. cbn.
    destruct (decide (q = p)) as [->|Hne].
    + rewrite Ho, lookup_insert_eq. cbn. f_equal. unfold entry_of. cbn. rewrite Hmeta. cbn. by rewrite list_lookup_alter_eq, Ht.
    + rewrite lookup_insert_ne by done. rewrite view_lookup. destruct (objects m !! q) as [o'|] eqn:Hq; [|done]. cbn. f_equal.
      unfold entry_of. cbn. f_equal. destruct (metadata o') as [l'|] eqn:Hm'; [|done]. cbn.
      rewrite list_lookup_alter_ne; [done|]. intros ->. by destruct Hne; apply (Hu q p o' o l').
Qed.

Lemma run_sim m o : wf m -> let '(m', r) := run mimes sniff m o in simulates m' r (spec mimes sniff (view m) o).
Proof.
  intros Hm. unfold simulates. destruct o as [path r opts now|path|path|path|paths|src dst now|src dst now| |path k v]; cbn [run spec].
  - pose proof (Put_sim m path r opts now Hm) as H. destruct (Put mimes sniff None m path r opts now) as [m' e].
    destruct H as [Hw <-]. done.
  - split; [done|]. unfold GetWithInfo, lookup_object. rewrite view_lookup. destruct (objects m !! NormalizePath path); done.
  - split; [done|]. unfold Exists. by rewrite view_is_Some.
  - pose proof (Delete_sim m path Hm) as H. destruct (Delete None m path). exact H.
  - unfold DeleteMany. pose proof (DeleteMany_sim paths m 0 Hm) as H. destruct (fold_left delete_one paths (m, 0)) as [m' n].
    destruct H as [Hw H]. rewrite Z.sub_0_r in H. rewrite <- H. done.
  - pose proof (Copy_sim m src dst now Hm) as H. destruct (Copy None m src dst now). destruct H as [Hw <-]. done.
  - unfold Move. pose proof (Copy_sim m src dst now Hm) as H. destruct (Copy None m src dst now) as [m' [e|]]; destruct H as [Hw <-]; [done|].
    split; [by apply delete_wf|]. unfold Move_delete. by rewrite view_delete.
  - split; [|done]. split; cbn; [apply map_Forall_empty|done].
  - unfold Head, lookup_object. rewrite view_lookup. destruct (objects m !! NormalizePath path) as [o|] eqn:Ho; [|done].
    cbn. destruct (metadata o) as [l|] eqn:Hmeta; cbn; [|done].
    destruct (write_sim m _ o l k v Hm Ho Hmeta) as (Hw & t & Ht & Hv). cbn in Ht. rewrite Hmeta in Ht. cbn in Ht. rewrite Ht.
    split; [done|]. f_equal; exact Hv.
Qed.

Lemma run_all_sim ops m : wf m ->
  let '(m', rs) := run_all mimes sniff m ops in wf m' /\ (view m', rs) = spec_all mimes sniff (view m) ops.
Proof.
  revert m. induction ops as [|o ops IH]; intros m Hm; cbn; [done|].
  pose proof (run_sim m o Hm) as H. destruct (run mimes sniff m o) as [m1 r]. destruct H as [Hw <-].
  specialize (IH m1 Hw). destruct (run_all mimes sniff m1 ops) as [m2 rs]. destruct IH as [Hw' <-]. done.
Qed.
End simulation.

Lemma store_wf_new url : wf (NewMemory url).
Proof. split; cbn; [apply map_Forall_empty|done]. Qed.

(** C19. The memory backend is a map from normalised paths to objects by value:
    whatever calls a client makes, and though the objects keep their metadata in
    maps that callers hold, every reply is that of the specification and the
    objects are those of the specification.  Copying is deep; the one write the
    specification needs outside the operations of the store is the write through
    the map that [Head] hands out, which reaches the stored object and no other. *)
Theorem Memory_refines mimes sniff url ops :
  let '(m, rs) := run_all mimes sniff (NewMemory url) ops in
  wf m /\ rs = (spec_all mimes sniff ∅ ops).2 /\ view m = (spec_all mimes sniff ∅ ops).1.
Proof.
  pose proof (run_all_sim mimes sniff ops (NewMemory url) (store_wf_new url)) as H.
  destruct (run_all mimes sniff (NewMemory url) ops) as [m rs]. destruct H as [Hw H].
  change (view (NewMemory url)) with (∅ : gmap string entry) in H. by rewrite <- H.
Qed.

(** ** Listing *)

Section listing.
Context (m : Memory) (prefix delimiter : string).

Definition is_leaf (path : string) : bool := match group_of prefix delimiter path with None => true | Some _ => false end.
Definition info_of (path : string) : option ObjectInfo := object_info path <$> objects m !! path.

(** What a state of the loop has seen. *)
Definition loop_ok (s : list_state) : Prop :=
  NoDup (CommonPrefixes (ls_result s)) /\ forall g, g ∈ seenPrefixes s <-> g ∈ CommonPrefixes (ls_result s).

Lemma add_prefix_ok s g : loop_ok s ->
  loop_ok (add_prefix s g) /\ Objects (ls_result (add_prefix s g)) = Objects (ls_result s) /\
  IsTruncated (ls_result (add_prefix s g)) = IsTruncated (ls_result s) /\
  NextContinuationToken (ls_result (add_prefix s g)) = NextContinuationToken (ls_result s) /\
  forall h, h ∈ CommonPrefixes (ls_result (add_prefix s g)) <-> h = g \/ h ∈ CommonPrefixes (ls_result s).
Proof.
  intros [Hn Hs]. unfold add_prefix. case_bool_decide as Hg.
  - do 4 (split; [done|]). intros h. split; [by right|]. intros [->|?]; [by apply Hs|done].
  - cbn. split; [split; cbn|do 3 (split; [done|]); intros h; rewrite elem_of_app, list_elem_of_singleton; tauto].
    + apply list.NoDup_app. split; [done|]. split; [|apply NoDup_singleton]. intros x Hx ->%list_elem_of_singleton. by apply Hg, Hs.
    + intros h. rewrite elem_of_union, elem_of_singleton, elem_of_app, list_elem_of_singleton, Hs. tauto.
Qed.

Lemma list_loop_spec max keys s :
  loop_ok s -> IsTruncated (ls_result s) = false -> Z.of_nat (length (Objects (ls_result s))) <= max ->
  Forall (fun k => is_Some (objects m !! k)) keys ->
  let room := (Z.to_nat max - length (Objects (ls_result s)))%nat in
  let leaves := List.filter is_leaf keys in
  let r := ls_result (list_loop m prefix delimiter max keys s) in
  Objects r = Objects (ls_result s) ++ omap info_of (take room leaves) /\
  IsTruncated r = (room <? length leaves)%nat /\
  NextContinuationToken r = (if IsTruncated r then default "" (leaves !! room) else NextContinuationToken (ls_result s)) /\
  NoDup (CommonPrefixes r) /\
  (forall g, g ∈ CommonPrefixes r -> g ∈ CommonPrefixes (ls_result s) \/ exists k, k ∈ keys /\ group_of prefix delimiter k = Some g) /\
  (IsTruncated r = false ->
   forall g, g ∈ CommonPrefixes (ls_result s) \/ (exists k, k ∈ keys /\ group_of prefix delimiter k = Some g) -> g ∈ CommonPrefixes r).
Proof.
  intros Hok Ht Hmax Hkeys. revert s Hok Ht Hmax. induction Hkeys as [|k keys [o Ho] Hkeys IH]; intros s Hok Ht Hmax; cbn zeta.
  - cbn. rewrite take_nil, app_nil_r, Ht. cbn. do 3 (split; [done|]). split; [apply Hok|]. split; [by left|].
    intros _ g [?|(k & ?%elem_of_nil & _)]; done.
  - cbn [list_loop List.filter]. rewrite Ho. pose proof (eq_refl (is_leaf k)) as Hleaf. unfold is_leaf at 2 in Hleaf.
    destruct (group_of prefix delimiter k) as [g|] eqn:Hg; rewrite !Hleaf.
    + destruct (add_prefix_ok s g Hok) as (Hok' & Hobj & Htr & Htok & Hcp).
      specialize (IH (add_prefix s g) Hok'). rewrite Hobj, Htr in IH. specialize (IH Ht Hmax). cbn zeta in IH.
      destruct IH as (H1 & H2 & H3 & H4 & H5 & H6). rewrite Htok in H3. do 4 (split; [done|]). split.
      * intros h Hh. apply H5 in Hh as [Hh|(k' & Hk' & Hg')]; [|right; exists k'; split; [by right|done]].
        apply Hcp in Hh as [->|Hh]; [right; exists k; split; [left|exact Hg]|by left].
      * intros Hf h Hh. apply H6; [done|]. destruct Hh as [Hh|(k' & [->|Hk']%elem_of_cons & Hg')].
        -- left. apply Hcp. by right.
        -- left. apply Hcp. left. by simplify_eq.
        -- right. by exists k'.
    + destruct (max <=? Z.of_nat (length (Objects (ls_result s)))) eqn:Hfull.
      * replace (Z.to_nat max - length (Objects (ls_result s)))%nat with 0%nat by lia. cbn. rewrite app_nil_r.
        do 3 (split; [done|]). split; [apply Hok|]. split; [by left|done].
      * assert (loop_ok (add_object s (object_info k o))) as Hok' by exact Hok.
        specialize (IH _ Hok' Ht). cbn [Objects ls_result add_object] in IH. rewrite length_app in IH. cbn [length] in IH.
        destruct (IH ltac:(lia)) as (H1 & H2 & H3 & H4 & H5 & H6). clear IH.
        replace (Z.to_nat max - length (Objects (ls_result s)))%nat
          with (S (Z.to_nat max - (length (Objects (ls_result s)) + 1)))%nat by lia.
        cbn [take omap list_omap length lookup list_lookup]. unfold info_of at 1. rewrite Ho. cbn [fmap option_fmap option_map].
        split; [by rewrite H1, <- app_assoc|]. split; [by rewrite H2|]. split; [by rewrite H3|]. split; [done|].
        split.
        -- intros h Hh. apply H5 in Hh as [Hh|(k' & Hk' & Hg')]; [by left|right; exists k'; split; [by right|done]].
        -- intros Hf h Hh. apply H6; [done|]. destruct Hh as [Hh|(k' & [->|Hk']%elem_of_cons & Hg')]; [by left|by simplify_eq|].
           right. by exists k'.
Qed.
End listing.

Lemma list_keys_elem m prefix k :
  k ∈ list_keys m prefix <-> is_Some (objects m !! k) /\ HasPrefix k prefix = true.
Proof.
  unfold list_keys. rewrite merge_sort_Permutation, list_elem_of_In, filter_In, <- list_elem_of_In, list_elem_of_fmap.
  assert (String.eqb prefix "" || HasPrefix k prefix = HasPrefix k prefix) as ->.
  { destruct (String.eqb prefix "") eqn:He; [apply String.eqb_eq in He as ->; by destruct k|done]. }
  split; intros [H Hp]; split; try done.
  - destruct H as ([k' o] & -> & H%elem_of_map_to_list). by eexists.
  - destruct H as [o Ho]. exists (k, o). split; [done|]. by apply elem_of_map_to_list.
Qed.

Lemma list_keys_sorted m prefix : StronglySorted str_le (list_keys m prefix).
Proof. apply StronglySorted_merge_sort; apply _. Qed.

Lemma list_keys_NoDup m prefix : NoDup (list_keys m prefix).
Proof.
  unfold list_keys. rewrite merge_sort_Permutation. apply NoDup_ListNoDup, List.NoDup_filter, NoDup_ListNoDup, NoDup_fst_map_to_list.
Qed.

(** The objects under a prefix that are listed themselves, in order. *)
Definition leaves (m : Memory) (prefix delimiter : string) : list string :=
  List.filter (is_leaf prefix delimiter) (list_keys m prefix).

(** What the loop of [List] returns, for any options. *)
Lemma list_result m prefix opts r :
  List None m prefix opts = Ok r ->
  let o := default no_list_options opts in
  let p := list_prefix prefix in
  let max := list_max o in
  let ls := leaves m p (Delimiter o) in
  0 < max /\
  Objects r = omap (info_of m) (take (Z.to_nat max) ls) /\
  IsTruncated r = (max <? Z.of_nat (length ls)) /\
  (IsTruncated r = true -> ls !! Z.to_nat max = Some (NextContinuationToken r)) /\
  NoDup (CommonPrefixes r) /\
  (forall g, g ∈ CommonPrefixes r ->
     exists k, is_Some (objects m !! k) /\ HasPrefix k p = true /\ group_of p (Delimiter o) k = Some g) /\
  (IsTruncated r = false -> forall k g, k ∈ list_keys m p -> group_of p (Delimiter o) k = Some g -> g ∈ CommonPrefixes r).
Proof.
  intros [= <-]. cbn zeta. set (o := default no_list_options opts). set (p := list_prefix prefix).
  assert (0 < list_max o) as Hmax by (unfold list_max; destruct (MaxKeys o <=? 0) eqn:?; lia). split; [done|].
  pose proof (list_loop_spec m p (Delimiter o) (list_max o) (list_keys m p) {| seenPrefixes := ∅; ls_result := empty_result |}) as H.
  cbn zeta in H. destruct H as (H1 & H2 & H3 & H4 & H5 & H6).
  - split; [constructor|]. intros g. cbn. rewrite elem_of_empty, elem_of_nil. tauto.
  - done.
  - cbn. lia.
  - apply list.Forall_forall. intros k Hk. by apply list_keys_elem in Hk as [? _].
  - fold (leaves m p (Delimiter o)) in H1, H2, H3. set (r := ls_result _) in *. cbn in H1, H2. rewrite Nat.sub_0_r in H1, H2.
    split; [done|]. split; [rewrite H2; destruct (list_max o <? _) eqn:?; [apply Nat.ltb_lt|apply Nat.ltb_ge]; lia|].
    split; [|split; [done|split]].
    + intros Ht. rewrite Ht in H2, H3. cbn in H3. rewrite Nat.sub_0_r in H3. symmetry in H2. apply Nat.ltb_lt, lookup_lt_is_Some in H2 as [x Hx].
      rewrite H3, Hx. done.
    + intros g Hg. apply H5 in Hg as [Hg|(k & Hk & Hg)]; [by apply elem_of_nil in Hg|]. apply list_keys_elem in Hk as [? ?]. by exists k.
    + intros Ht k g Hk Hg. apply H6; [done|]. right. by exists k.
Qed.

Lemma leaves_elem m p delimiter k : k ∈ leaves m p delimiter <-> k ∈ list_keys m p /\ group_of p delimiter k = None.
Proof.
  unfold leaves. rewrite list_elem_of_In, filter_In, <- list_elem_of_In. unfold is_leaf. destruct (group_of p delimiter k); intuition congruence.
Qed.

Lemma list_page m prefix opts r :
  List None m prefix (Some opts) = Ok r -> IsTruncated r = true ->
  Objects r = omap (info_of m) (take (Z.to_nat (list_max opts)) (leaves m (list_prefix prefix) (Delimiter opts))) /\
  leaves m (list_prefix prefix) (Delimiter opts) !! Z.to_nat (list_max opts) = Some (NextContinuationToken r) /\
  is_Some (objects m !! NextContinuationToken r).
Proof.
  intros Hr Ht. destruct (list_result m prefix _ r Hr) as (_ & Ho & _ & Htok & _). split; [done|]. split; [by apply Htok|].
  apply Htok, list_elem_of_lookup_2, leaves_elem in Ht as [Hk _]. by apply list_keys_elem in Hk as [? _].
Qed.

(** [List] gives, in the order of their paths, the first [MaxKeys] (1000 when it
    is not positive) of the objects whose path begins with the normalised prefix and
    is not grouped by the delimiter; it says that it is truncated exactly when
    there are more, and its token is then the path of the first one left out.  The
    common prefixes are distinct, each is the group of an object, and when the
    result is not truncated every group is there: nothing under the prefix is missing. *)
Theorem List_spec m prefix opts r :
  List None m prefix opts = Ok r ->
  let o := default no_list_options opts in
  let p := list_prefix prefix in
  let max := list_max o in
  let ls := leaves m p (Delimiter o) in
  Objects r = omap (info_of m) (take (Z.to_nat max) ls) /\
  IsTruncated r = (max <? Z.of_nat (length ls)) /\
  (IsTruncated r = true -> ls !! Z.to_nat max = Some (NextContinuationToken r)) /\
  NoDup (CommonPrefixes r) /\
  (forall g, g ∈ CommonPrefixes r ->
     exists k, is_Some (objects m !! k) /\ HasPrefix k p = true /\ group_of p (Delimiter o) k = Some g) /\
  (IsTruncated r = false -> forall k, is_Some (objects m !! k) -> HasPrefix k p = true ->
     match group_of p (Delimiter o) k with Some g => g ∈ CommonPrefixes r | None => k ∈ oi_Path <$> Objects r end).
Proof.
  intros Hr. destruct (list_result m prefix opts r Hr) as (Hmax & H1 & H2 & H3 & H4 & H5 & H6). cbn zeta in *.
  do 5 (split; [done|]). intros Ht k Hk Hp. specialize (H6 Ht).
  set (p := list_prefix prefix) in *. set (d := Delimiter (default no_list_options opts)) in *.
  assert (k ∈ list_keys m p) as Hin by by apply list_keys_elem.
  destruct (group_of p d k) as [g|] eqn:Hg; [by apply (H6 k)|].
  rewrite H1, take_ge by (rewrite Ht in H2; lia). destruct Hk as [x Hx]. apply list_elem_of_fmap.
  exists (object_info k x). split; [done|]. apply list_elem_of_omap.
  exists k. split; [by apply leaves_elem|unfold info_of; by rewrite Hx].
Qed.

(** *** Pages *)

(** A client that asks for the next page with the token it was given: the pages
    it has seen after [n] requests, and whether it goes on. *)
Fixpoint follow (m : Memory) (prefix : string) (opts : ListOptions) (n : nat) : list (list ObjectInfo) * bool :=
  match n with
  | O => ([], true)
  | S n =>
      match List None m prefix (Some opts) with
      | Err _ => ([], false)
      | Ok r =>
          if IsTruncated r then
            let '(pages, more) :=
              follow m prefix {| MaxKeys := MaxKeys opts; Delimiter := Delimiter opts; ContinuationToken := NextContinuationToken r |} n in
            (Objects r :: pages, more)
          else ([Objects r], false)
      end
  end.

Lemma List_token m prefix opts t :
  List None m prefix (Some {| MaxKeys := MaxKeys opts; Delimiter := Delimiter opts; ContinuationToken := t |}) =
  List None m prefix (Some opts).
Proof. done. Qed.

(** Only the first page can be read: the token is never looked at, so that a
    client that follows the tokens of a truncated result sees the same page after
    every request, never ends, and never sees the object the token names. *)
Theorem pages_repeat m prefix opts r n :
  List None m prefix (Some opts) = Ok r -> IsTruncated r = true ->
  follow m prefix opts n = (repeat (Objects r) n, true) /\
  (NextContinuationToken r ∉ oi_Path <$> concat (repeat (Objects r) n)) /\
  is_Some (objects m !! NextContinuationToken r).
Proof.
  intros Hr Ht. split; [|split].
  - revert opts Hr. induction n as [|n IH]; intros opts Hr; [done|]. cbn [follow]. rewrite Hr, Ht.
    rewrite IH by by rewrite List_token. done.
  - destruct (list_page _ _ _ _ Hr Ht) as (Ho & Htok & _). intros Hin. apply list_elem_of_fmap in Hin as (i & Hi & Hc).
    assert (i ∈ Objects r) as Hir.
    { clear -Hc. induction n as [|n IH]; cbn in Hc; [by apply elem_of_nil in Hc|]. apply elem_of_app in Hc as [?|?]; auto. }
    rewrite Ho in Hir. apply list_elem_of_omap in Hir as (k & Hk & Hinfo). unfold info_of in Hinfo.
    destruct (objects m !! k) as [x|]; [|done]. injection Hinfo as <-. cbn in Hi. subst k.
    apply list_elem_of_lookup in Hk as [j Hj]. apply lookup_take_Some in Hj as [Hj Hlt].
    assert (NoDup (leaves m (list_prefix prefix) (Delimiter opts))) as Hnd.
    { unfold leaves. apply NoDup_ListNoDup, List.NoDup_filter, NoDup_ListNoDup, list_keys_NoDup. }
    pose proof (NoDup_lookup _ _ _ _ Hnd Hj Htok). lia.
  - by destruct (list_page _ _ _ _ Hr Ht) as (_ & _ & ?).
Qed.

(** A store of three objects and its first page of two. *)
Definition sample_put (m : Memory) (path : string) : Memory := fst (PutBytes mimeTypes (fun _ => "text/plain") None m path "x" None 1).
Definition sample : Memory := fold_left sample_put ["a/1"; "a/2"; "b"] (NewMemory "").
Definition sample_page : ListResult :=
  let i p := {| oi_Path := p; oi_Size := 1; oi_ContentType := "text/plain"; oi_LastModified := 1; oi_Metadata := None |} in
  {| Objects := [i "a/1"; i "a/2"]; CommonPrefixes := []; IsTruncated := true; NextContinuationToken := "b" |}.

Lemma sample_wf_step ps m : wf m -> wf (fold_left sample_put ps m).
Proof.
  revert m. induction ps as [|p ps IH]; intros m Hm; [done|]. apply IH. unfold sample_put, PutBytes.
  pose proof (Put_sim mimeTypes (fun _ => "text/plain") m p (Ok "x") None 1 Hm) as H. by destruct (Put _ _ None m p (Ok "x") None 1), H.
Qed.

Lemma sample_wf : wf sample.
Proof. apply sample_wf_step, store_wf_new. Qed.

Lemma List_spec_witness :
  List None sample "" (Some {| MaxKeys := 2; Delimiter := ""; ContinuationToken := "" |}) = Ok sample_page /\
  IsTruncated sample_page = (2 <? Z.of_nat (length (leaves sample "" ""))).
Proof.
  assert (List None sample "" (Some {| MaxKeys := 2; Delimiter := ""; ContinuationToken := "" |}) = Ok sample_page) as H by (vm_compute; reflexivity).
  split; [exact H|]. destruct (List_spec sample "" _ sample_page H) as (_ & Ht & _). exact Ht.
Defined.

Lemma pages_repeat_witness :
  List None sample "" (Some {| MaxKeys := 2; Delimiter := ""; ContinuationToken := "" |}) = Ok sample_page /\
  follow sample "" {| MaxKeys := 2; Delimiter := ""; ContinuationToken := "" |} 5 = (repeat (Objects sample_page) 5, true).
Proof.
  assert (List None sample "" (Some {| MaxKeys := 2; Delimiter := ""; ContinuationToken := "" |}) = Ok sample_page) as H by (vm_compute; reflexivity).
  split; [exact H|]. by apply (pages_repeat sample "" _ sample_page 5 H).
Defined.

(** *** What is listed and what can be read *)

Definition no_backslash (s : string) : bool := negb (string_has "\" s).

(** The paths a call can store under have no backslash. *)
Definition op_plain (o : op) : bool :=
  match o with
  | OPut path _ _ _ => no_backslash path
  | OCopy _ dst _ | OMove _ dst _ => no_backslash dst
  | _ => true
  end.

Definition keys_canonical (s : gmap string entry) : Prop := map_Forall (fun k _ => canonical k) s.

Lemma delete_canonical s k : keys_canonical s -> keys_canonical (delete k s).
Proof. intros H q e [_ Hq]%lookup_delete_Some. exact (H q e Hq). Qed.

Lemma insert_canonical s k e : canonical k -> keys_canonical s -> keys_canonical (<[k := e]> s).
Proof. intros Hk H. by apply map_Forall_insert_2. Qed.

Section canonical.
Context (mimes : gmap string string) (sniff : string -> string).

Lemma copy_canonical s src dst now : no_backslash dst = true -> keys_canonical s -> keys_canonical (spec_copy s src dst now).1.
Proof.
  intros Hd Hs. unfold spec_copy. destruct (s !! NormalizePath src); [|done]. apply insert_canonical; [|done].
  apply NormalizePath_canonical. by apply negb_true_iff.
Qed.

Lemma deletes_canonical paths s : keys_canonical s -> keys_canonical (spec_deletes s paths).1.
Proof.
  revert s. induction paths as [|p paths IH]; intros s Hs; cbn; [done|].
  pose proof (IH _ (delete_canonical s (NormalizePath p) Hs)). by destruct (spec_deletes (delete (NormalizePath p) s) paths).
Qed.

Lemma spec_canonical s o : op_plain o = true -> keys_canonical s -> keys_canonical (spec mimes sniff s o).1.
Proof.
  intros Ho Hs. destruct o as [path r opts now|path|path|path|paths|src dst now|src dst now| |path k v]; cbn [spec op_plain] in *.
  - unfold spec_put. destruct (ValidatePath _); [done|]. destruct (_ && _); [done|]. destruct r; [|done].
    apply insert_canonical; [|done]. apply NormalizePath_canonical. by apply negb_true_iff.
  - done.
  - done.
  - by apply delete_canonical.
  - pose proof (deletes_canonical paths s Hs). by destruct (spec_deletes s paths).
  - pose proof (copy_canonical s src dst now Ho Hs). by destruct (spec_copy s src dst now).
  - pose proof (copy_canonical s src dst now Ho Hs) as H. destruct (spec_copy s src dst now) as [s' e]. cbn in *.
    destruct (decide (e = None)); [by apply delete_canonical|done].
  - apply map_Forall_empty.
  - destruct (s !! NormalizePath path) as [e|] eqn:He; [|done]. destruct (e_meta e); [|done].
    apply insert_canonical; [exact (Hs _ _ He)|done].
Qed.

Lemma spec_all_canonical ops s : Forall (fun o => op_plain o = true) ops -> keys_canonical s ->
  keys_canonical (spec_all mimes sniff s ops).1.
Proof.
  intros Ho. revert s. induction Ho as [|o ops Ho Hops IH]; intros s Hs; cbn; [done|].
  pose proof (spec_canonical s o Ho Hs) as H1. destruct (spec mimes sniff s o) as [s1 r1]. specialize (IH s1 H1).
  by destruct (spec_all mimes sniff s1 ops).
Qed.
End canonical.

Lemma listed_lookup m prefix opts r i :
  List None m prefix opts = Ok r -> i ∈ Objects r -> exists o, objects m !! oi_Path i = Some o /\ i = object_info (oi_Path i) o.
Proof.
  intros Hr Hi. destruct (list_result m prefix opts r Hr) as (_ & Ho & _). rewrite Ho in Hi.
  apply list_elem_of_omap in Hi as (k & Hk & Hinfo). unfold info_of in Hinfo.
  destruct (objects m !! k) as [o|] eqn:Hko; [|done]. injection Hinfo as <-. by exists o.
Qed.

(** When no call stores under a path with a backslash, every object that a
    listing shows can be read, with the same information, under the path that the
    listing gives, and its size is that of its content. *)
Theorem listed_readable mimes sniff url ops prefix opts r i :
  Forall (fun o => op_plain o = true) ops ->
  let m := (run_all mimes sniff (NewMemory url) ops).1 in
  List None m prefix opts = Ok r -> i ∈ Objects r ->
  exists content, GetWithInfo None m (oi_Path i) = Ok (content, i) /\ oi_Size i = Z.of_nat (String.length content).
Proof.
  intros Ho m Hr Hi. destruct (listed_lookup m prefix opts r i Hr Hi) as (o & Hlook & Hinfo).
  assert (canonical (oi_Path i)) as Hc.
  { pose proof (run_all_sim mimes sniff ops (NewMemory url) (store_wf_new url)) as H. subst m.
    pose proof (spec_all_canonical mimes sniff ops (view (NewMemory url)) Ho) as Hc.
    destruct (run_all mimes sniff (NewMemory url) ops) as [m rs]. destruct H as [_ H]. rewrite <- H in Hc.
    assert (keys_canonical ∅) as H0 by apply map_Forall_empty. specialize (Hc H0).
    eapply (Hc (oi_Path i)). cbn in *. by rewrite view_lookup, Hlook. }
  exists (data o). unfold GetWithInfo, lookup_object. rewrite NormalizePath_id, Hlook by done. cbn.
  split; [by rewrite Hinfo at 2|]. by rewrite Hinfo.
Qed.

Lemma listed_readable_witness :
  let ops := [OPut "/a//b/" (Ok "xy") None 1] in
  let i := {| oi_Path := "a/b"; oi_Size := 2; oi_ContentType := "text/plain"; oi_LastModified := 1; oi_Metadata := None |} in
  Forall (fun o => op_plain o = true) ops /\
  exists content, GetWithInfo None (run_all ∅ (fun _ => "text/plain") (NewMemory "") ops).1 "a/b" = Ok (content, i).
Proof.
  cbv zeta. set (ops := [OPut "/a//b/" (Ok "xy") None 1]).
  set (i := {| oi_Path := "a/b"; oi_Size := 2; oi_ContentType := "text/plain"; oi_LastModified := 1; oi_Metadata := None |}).
  assert (Forall (fun o => op_plain o = true) ops) as Ho by (repeat constructor). split; [exact Ho|].
  destruct (listed_readable ∅ (fun _ => "text/plain") "" ops "a" None
    {| Objects := [i]; CommonPrefixes := []; IsTruncated := false; NextContinuationToken := "" |} i Ho) as (c & Hc & _);
    [vm_compute; reflexivity|left|]. exists c. exact Hc.
Defined.

(** With a backslash it is not so: an object stored under [dir\] is listed as
    [dir/], and reading, looking up or deleting [dir/] does not find it. *)
Theorem backslash_unreadable mimes sniff content now :
  let m := (PutBytes mimes sniff None (NewMemory "") "dir\" content None now).1 in
  exists i, List None m "" None = Ok {| Objects := [i]; CommonPrefixes := []; IsTruncated := false; NextContinuationToken := "" |} /\
    oi_Path i = "dir/" /\
    GetBytes None m (oi_Path i) = Err ErrNotFound /\ Head None m (oi_Path i) = Err ErrNotFound /\
    Delete None m (oi_Path i) = (m, Some ErrNotFound).
Proof.
  cbv zeta. set (o := {| data := content; contentType := DetectContentType mimes sniff "dir/" content; metadata := None; modTime := now |}).
  assert ((PutBytes mimes sniff None (NewMemory "") "dir\" content None now).1 = set_objects (NewMemory "") {["dir/" := o]}) as -> by reflexivity.
  exists (object_info "dir/" o). split; [reflexivity|]. split; [done|].
  assert (NormalizePath "dir/" = "dir") as Hn by reflexivity.
  unfold GetBytes, Head, Delete, lookup_object. cbn [object_info oi_Path]. rewrite Hn. cbn [objects set_objects].
  by rewrite lookup_singleton_ne by done.
Qed.

(** A directory cannot be listed: a prefix that ends in a slash lists what it
    lists without it, so [foo/] also lists [foobar]; asking for a common prefix that
    a listing returned shows objects outside of it. *)
Theorem List_slash m d opts :
  List None m (d +:+ "/") opts = List None m d opts /\
  (NormalizePath d = d -> d <> "." -> forall k o, objects m !! (d +:+ k) = Some o ->
    Delimiter (default no_list_options opts) = "" \/ Index k (Delimiter (default no_list_options opts)) = None ->
    HasPrefix k "/" = false ->
    forall r, List None m (d +:+ "/") opts = Ok r -> IsTruncated r = false -> d +:+ k ∈ oi_Path <$> Objects r).
Proof.
  assert (List None m (d +:+ "/") opts = List None m d opts) as Heq.
  { unfold List, list_prefix, NormalizePath. by rewrite (Trim_end d "/"). }
  split; [done|]. intros Hd Hdot k o Hk Hidx Hsl r Hr Ht. rewrite Heq in Hr.
  destruct (list_result m d opts r Hr) as (_ & Ho & Htr & _). cbn zeta in *.
  assert (list_prefix d = d) as Hp by (unfold list_prefix; rewrite Hd; by rewrite (proj2 (String.eqb_neq _ _) Hdot)). rewrite Hp in *.
  apply list_elem_of_fmap. exists (object_info (d +:+ k) o). split; [done|]. rewrite Ho, take_ge by (rewrite Ht in Htr; lia).
  apply list_elem_of_omap. exists (d +:+ k). split; [|unfold info_of; by rewrite Hk].
  apply leaves_elem. split; [apply list_keys_elem; split; [done|apply HasPrefix_spec; by exists k]|].
  unfold group_of. destruct (String.eqb (Delimiter _) "") eqn:Hde; [done|]. apply String.eqb_neq in Hde. destruct Hidx as [?|Hidx]; [done|].
  rewrite (proj2 (String.eqb_neq d "")) by (intros ->; by apply (NormalizePath_nonempty "")).
  assert (TrimPrefix (TrimPrefix (d +:+ k) d) "/" = k) as ->; [|by rewrite Hidx].
  unfold TrimPrefix at 2. rewrite (proj2 (HasPrefix_spec _ _)) by (by exists k). rewrite str_drop_app.
  unfold TrimPrefix. by rewrite Hsl.
Qed.

Lemma List_slash_witness :
  let m := fold_left sample_put ["foo/a"; "foobar"] (NewMemory "") in
  List None m "foo/" None = List None m "foo" None /\ "foobar" ∈ oi_Path <$> Objects (default empty_result (match List None m "foo/" None with Ok r => Some r | Err _ => None end)).
Proof.
  cbv zeta. set (m := fold_left sample_put ["foo/a"; "foobar"] (NewMemory "")).
  destruct (List_slash m "foo" None) as [Heq Hin]. split; [exact Heq|].
  destruct (List None m "foo/" None) as [r|] eqn:Hr; [|vm_compute in Hr; discriminate Hr].
  refine (Hin eq_refl _ "bar" {| data := "x"; contentType := "text/plain"; metadata := None; modTime := 1 |} _ (or_introl eq_refl) eq_refl r Hr _).
  - discriminate.
  - vm_compute. reflexivity.
  - vm_compute in Hr. injection Hr as <-. reflexivity.
Defined.

(** *** Moving *)

(** [Move] to another path takes the object there, with its content, media type
    and metadata, and leaves every other path; moving an object onto itself, by any
    spelling of its path, deletes it and reports success. *)
Theorem Move_spec m src dst now e :
  wf m -> view m !! NormalizePath src = Some e ->
  let '(m', err) := Move None m src dst now in
  err = None /\ wf m' /\
  (NormalizePath src <> NormalizePath dst ->
   view m' = <[NormalizePath dst := {| e_data := e_data e; e_type := e_type e; e_time := now; e_meta := e_meta e |}]>
               (delete (NormalizePath src) (view m))) /\
  (NormalizePath src = NormalizePath dst -> view m' = delete (NormalizePath src) (view m)).
Proof.
  intros Hm He. unfold Move. pose proof (Copy_sim m src dst now Hm) as H.
  destruct (Copy None m src dst now) as [m1 e1]. destruct H as [Hw H]. unfold spec_copy in H. rewrite He in H.
  injection H as Hv ->. split; [done|]. split; [by apply delete_wf|]. unfold Move_delete. rewrite view_delete, Hv.
  split; [intros Hne; by rewrite delete_insert_ne|]. intros <-. by rewrite delete_insert_eq.
Qed.

Lemma Move_spec_witness :
  view sample !! NormalizePath "/a/1" = Some {| e_data := "x"; e_type := "text/plain"; e_time := 1; e_meta := None |} /\
  view (Move None sample "/a/1" "a//1" 2).1 = delete "a/1" (view sample).
Proof.
  assert (view sample !! NormalizePath "/a/1" = Some {| e_data := "x"; e_type := "text/plain"; e_time := 1; e_meta := None |}) as He
    by (vm_compute; reflexivity).
  split; [exact He|].
  pose proof (Move_spec sample "/a/1" "a//1" 2 _ sample_wf He) as H.
  destruct (Move None sample "/a/1" "a//1" 2) as [m' err]. destruct H as (_ & _ & _ & H). by apply H.
Defined.

(** [Move] is not atomic: a [Put] of the source that another caller makes between
    its two critical sections succeeds, and what it stored is then nowhere. *)
Theorem Move_loses_put mimes sniff m src dst now now' content m1 m2 :
  Copy None m src dst now = (m1, None) -> PutBytes mimes sniff None m1 src content None now' = (m2, None) ->
  NormalizePath src <> NormalizePath dst ->
  let m3 := Move_delete m2 src in
  GetBytes None m2 src = Ok content /\ GetBytes None m3 src = Err ErrNotFound /\ GetBytes None m3 dst = GetBytes None m src.
Proof.
  intros Hc Hp Hne. cbv zeta. unfold GetBytes, lookup_object, Move_delete. cbn [objects set_objects].
  unfold PutBytes, Put in Hp. cbn [default po_IfNotExists po_Metadata no_options andb] in Hp.
  destruct (ValidatePath (NormalizePath src)); [done|]. rewrite map_size_empty in Hp. cbn [Nat.ltb Nat.leb] in Hp.
  injection Hp as <-. cbn [objects set_objects].
  unfold Copy in Hc. destruct (objects m !! NormalizePath src) as [o|]; [|done].
  assert (exists r, objects m1 = <[NormalizePath dst := {| data := data o; contentType := contentType o; metadata := r; modTime := now |}]> (objects m)) as [r ->].
  { destruct (metadata o); cbn in Hc; injection Hc as <-; cbn; by eexists. }
  rewrite lookup_insert_eq, lookup_delete_eq. rewrite lookup_delete_ne, lookup_insert_ne by done. by rewrite lookup_insert_eq.
Qed.

Lemma Move_loses_put_witness :
  NormalizePath "a/1" <> NormalizePath "c" /\
  exists m3, GetBytes None m3 "a/1" = Err ErrNotFound /\ GetBytes None m3 "c" = GetBytes None sample "a/1".
Proof.
  split; [discriminate|]. set (m1 := (Copy None sample "a/1" "c" 2).1).
  set (m2 := (PutBytes ∅ (fun _ => "t") None m1 "a/1" "new" None 3).1). exists (Move_delete m2 "a/1").
  apply (Move_loses_put ∅ (fun _ => "t") sample "a/1" "c" 2 3 "new" m1 m2); [vm_compute; reflexivity..|discriminate].
Defined.

(** Normalising a path without backslashes is idempotent, leaves [..] only in front
    and is never empty: the empty path names the object [.], and the test for the
    empty path in [ValidatePath] never fires. *)
Theorem NormalizePath_idempotent p :
  NormalizePath p <> "" /\
  (string_has "\" p = false ->
   NormalizePath (NormalizePath p) = NormalizePath p /\
   exists n rest, Forall plain rest /\ NormalizePath p = rel_string (repeat ".." n ++ rest)) /\
  (forall mimes sniff m content now, ValidatePath (NormalizePath "") = None /\
     GetBytes None (PutBytes mimes sniff None m "" content None now).1 "/." = Ok content).
Proof.
  split; [apply NormalizePath_nonempty|]. split.
  - intros Hb. pose proof (NormalizePath_canonical p Hb) as Hc. split; [by apply NormalizePath_id|]. apply Hc.
  - intros mimes sniff m content now. split; [reflexivity|].
    unfold PutBytes, Put. assert (NormalizePath "" = ".") as -> by reflexivity.
    change (ValidatePath ".") with (@None StoreError). cbv iota. cbn [default po_IfNotExists no_options andb po_Metadata].
    rewrite map_size_empty. cbn [Nat.ltb Nat.leb].
    unfold GetBytes, lookup_object. assert (NormalizePath "/." = ".") as -> by reflexivity. cbn [fst objects set_objects].
    by rewrite lookup_insert_eq.
Qed.

Lemma NormalizePath_idempotent_witness :
  string_has "\" "/a/./b//../c/" = false /\ NormalizePath (NormalizePath "/a/./b//../c/") = NormalizePath "/a/./b//../c/".
Proof. split; [reflexivity|]. by apply (NormalizePath_idempotent "/a/./b//../c/"). Defined.
