(* ===== verification/LocalStore.v ===== *)
(** * Storage on the file system ([pantry/storage/local.go])

    The file system is a map from absolute paths, as lists of names, to files and
    directories; links, permissions and failures of the device are left out.  The
    operations of [os] and [filepath] on it are written with the errors that the
    backend tells apart; the name of a temporary file is an argument. *)

From stdpp Require Import sorting.
From S2P Require Import Prelude GoStrings Paths Storage.
#[local] Open Scope list_scope.

(** ** The file system *)

Inductive node :=
| NFile (content : string) (mtime : Time)
| NDir.

Abbreviation fpath := (list string) (only parsing).
(** The root directory is always there and is not a key. *)
Abbreviation fs_map := (gmap (list string) node) (only parsing).

Inductive errno := ENOENT | ENOTDIR | EISDIR | EEXIST | ENOTEMPTY | EINVAL.

Definition segs_of (s : string) : fpath := List.filter (fun x => negb (String.eqb x "")) (split_byte "/" s).

(** [filepath.Dir] of a rooted path. *)
Definition Dir (p : string) : string :=
  match cut_last_byte "/" p with Some (a, _) => Clean (a +:+ "/") | None => "." end.

(** [filepath.Rel] of two cleaned rooted paths. *)
Fixpoint strip_common (base target : fpath) : fpath * fpath :=
  match base, target with
  | b :: base', t :: target' => if String.eqb b t then strip_common base' target' else (base, target)
  | _, _ => (base, target)
  end.
Definition Rel (base target : fpath) : string :=
  let '(b, t) := strip_common base target in
  rel_string (repeat ".." (length b) ++ t).

(** What the kernel finds under [segs], starting in the directory [dir]. *)
Fixpoint resolve (fs : fs_map) (dir segs : fpath) : result errno node :=
  match segs with
  | [] => Ok NDir
  | x :: rest =>
      match fs !! (dir ++ [x]) with
      | None => Err ENOENT
      | Some NDir => resolve fs (dir ++ [x]) rest
      | Some (NFile c t) => if decide (rest = []) then Ok (NFile c t) else Err ENOTDIR
      end
  end.
Definition os_Stat (fs : fs_map) (p : fpath) : result errno node := resolve fs [] p.

Fixpoint mkdir_from (fs : fs_map) (dir segs : fpath) : result errno fs_map :=
  match segs with
  | [] => Ok fs
  | x :: rest =>
      match fs !! (dir ++ [x]) with
      | Some (NFile _ _) => Err ENOTDIR
      | Some NDir => mkdir_from fs (dir ++ [x]) rest
      | None => mkdir_from (<[dir ++ [x] := NDir]> fs) (dir ++ [x]) rest
      end
  end.
Definition os_MkdirAll (fs : fs_map) (p : fpath) : result errno fs_map := mkdir_from fs [] p.

(** The paths below a directory. *)
Definition below (p q : fpath) : bool := bool_decide (p `prefix_of` q) && negb (bool_decide (p = q)).
Definition empty_dir (fs : fs_map) (p : fpath) : bool := forallb (fun q => negb (below p q)) (map_to_list fs).*1.

(** Opening [p] for writing: its directory must be one, and [p] not a directory. *)
Definition os_Create (fs : fs_map) (p : fpath) (content : string) (now : Time) : result errno fs_map :=
  match os_Stat fs (removelast p) with
  | Err e => Err e
  | Ok (NFile _ _) => Err ENOTDIR
  | Ok NDir =>
      match p, fs !! p with
      | [], _ | _, Some NDir => Err EISDIR
      | _, _ => Ok (<[p := NFile content now]> fs)
      end
  end.

Definition os_Remove (fs : fs_map) (p : fpath) : result errno fs_map :=
  match os_Stat fs p with
  | Err e => Err e
  | Ok (NFile _ _) => Ok (delete p fs)
  | Ok NDir => if decide (p = []) then Err EINVAL else if empty_dir fs p then Ok (delete p fs) else Err ENOTEMPTY
  end.

Definition rebase (src dst p : fpath) : fpath := if bool_decide (src `prefix_of` p) then dst ++ drop (length src) p else p.

(** [rename]: a file replaces a file, a directory an empty directory. *)
Definition os_Rename (fs : fs_map) (src dst : fpath) : result errno fs_map :=
  match os_Stat fs src, os_Stat fs (removelast dst) with
  | Err e, _ | _, Err e => Err e
  | _, Ok (NFile _ _) => Err ENOTDIR
  | Ok (NFile c t), Ok NDir =>
      if decide (dst = []) then Err EISDIR
      else match fs !! dst with
           | Some NDir => Err EISDIR
           | _ => Ok (<[dst := NFile c t]> (delete src fs))
           end
  | Ok NDir, Ok NDir =>
      if decide (src = dst) then Ok fs
      else if bool_decide (src `prefix_of` dst) then Err EINVAL
      else match fs !! dst with
           | Some (NFile _ _) => Err ENOTDIR
           | Some NDir =>
               if empty_dir fs dst
               then Ok (list_to_map (prod_map (rebase src dst) id <$> map_to_list (delete dst fs)))
               else Err ENOTEMPTY
           | None => if decide (dst = []) then Err EEXIST
                     else Ok (list_to_map (prod_map (rebase src dst) id <$> map_to_list fs))
           end
  end.

(** The order of [filepath.Walk]: a directory, then what is below it, the names of
    a directory in the order of their bytes. *)
Fixpoint walk_leb (p q : fpath) : bool :=
  match p, q with
  | [], _ => true
  | _, [] => false
  | x :: p, y :: q =>
      match String.compare x y with Lt => true | Gt => false | Eq => walk_leb p q end
  end.
Definition walk_le (p q : fpath) : Prop := walk_leb p q = true.
#[global] Instance walk_le_dec : RelDecision walk_le := fun p q => decide (walk_leb p q = true).

Definition walk_paths (fs : fs_map) (root : fpath) : list fpath :=
  root :: merge_sort walk_le (List.filter (below root) (map_to_list fs).*1).

(** ** The backend *)

Record Local := {
  basePath : string;
  local_baseURL : string;
  createDirs : bool
}.

(** [CreateDirs] is a pointer: nil means true. *)
Record LocalConfig := { cfg_BasePath : string; cfg_BaseURL : string; cfg_CreateDirs : option bool }.

Definition NewLocal (cwd : string) (cfg : LocalConfig) (fs : fs_map) : fs_map * result StoreError Local :=
  if String.eqb (cfg_BasePath cfg) "" then (fs, Err ErrInvalidConfig)
  else
    let base := Abs cwd (cfg_BasePath cfg) in
    let create := default true (cfg_CreateDirs cfg) in
    match (if create then os_MkdirAll fs (segs_of base) else Ok fs) with
    | Err _ => (fs, Err ErrOS)
    | Ok fs =>
        match os_Stat fs (segs_of base) with
        | Err _ => (fs, Err ErrOS)
        | Ok (NFile _ _) => (fs, Err ErrInvalidConfig)
        | Ok NDir =>
            let url := if HasSuffix (cfg_BaseURL cfg) "/" then str_take (String.length (cfg_BaseURL cfg) - 1) (cfg_BaseURL cfg)
                       else cfg_BaseURL cfg in
            (fs, Ok {| basePath := base; local_baseURL := url; createDirs := create |})
        end
    end.

Definition fullPath (l : Local) (path : string) : result StoreError string :=
  let path := NormalizePath path in
  match ValidatePath path with
  | Some e => Err e
  | None =>
      let full := Join [basePath l; path] in
      if negb (HasPrefix full (basePath l)) then Err ErrInvalidPath else Ok full
  end.
Definition GetFullPath : Local -> string -> result StoreError string := fullPath.

(** The errors of [os] as the backend reports them. *)
Definition not_found (e : errno) : StoreError := match e with ENOENT => ErrNotFound | _ => ErrOS end.

Section Local.
Context (mimes : gmap string string) (sniff : string -> string).
(** What [Stat] says is the size of a directory. *)
Context (dir_size : Z).

Definition mkdirs (l : Local) (fs : fs_map) (full : string) : result errno fs_map :=
  if createDirs l then os_MkdirAll fs (segs_of (Dir full)) else Ok fs.

(** [tmp] is the name that [os.CreateTemp] chose in the directory.  [r] is what
    copying from the reader gives. *)
Definition Local_Put (ctx : option StoreError) (l : Local) (fs : fs_map) (path : string) (r : result StoreError string)
    (opts : option PutOptions) (tmp : string) (now : Time) : fs_map * option StoreError :=
  match ctx with
  | Some e => (fs, Some e)
  | None =>
      match fullPath l path with
      | Err e => (fs, Some e)
      | Ok full =>
          if (match opts with Some o => po_IfNotExists o | None => false end) &&
             (match os_Stat fs (segs_of full) with Ok _ => true | Err _ => false end)
          then (fs, Some ErrAlreadyExists)
          else
            match mkdirs l fs full with
            | Err _ => (fs, Some ErrOS)
            | Ok fs =>
                let tmpPath := segs_of (Dir full) ++ [tmp] in
                match os_Create fs tmpPath "" now with
                | Err _ => (fs, Some ErrOS)
                | Ok fs1 =>
                    match r with
                    | Err e => (delete tmpPath fs1, Some e)
                    | Ok content =>
                        let fs2 := <[tmpPath := NFile content now]> fs1 in
                        match os_Rename fs2 tmpPath (segs_of full) with
                        | Err _ => (delete tmpPath fs2, Some ErrOS)
                        | Ok fs3 => (fs3, None)
                        end
                    end
                end
            end
      end
  end.

Definition Local_PutBytes ctx l fs path content opts tmp now := Local_Put ctx l fs path (Ok content) opts tmp now.

(** [os.Open] opens directories too. *)
Definition Local_Get (ctx : option StoreError) (l : Local) (fs : fs_map) (path : string) : result StoreError node :=
  match ctx with
  | Some e => Err e
  | None =>
      try! full := fullPath l path in
      match os_Stat fs (segs_of full) with
      | Ok n => Ok n
      | Err e => Err (not_found e)
      end
  end.

Definition Local_GetBytes ctx l fs path : result StoreError string :=
  try! n := Local_Get ctx l fs path in
  match n with
  | NFile content _ => Ok content
  | NDir => Err ErrOS
  end.

Definition fileInfoToObjectInfo (path : string) (n : node) (dir_time : Time) : ObjectInfo :=
  {| oi_Path := NormalizePath path;
     oi_Size := match n with NFile c _ => Z.of_nat (String.length c) | NDir => dir_size end;
     oi_ContentType := DetectContentType mimes sniff path "";
     oi_LastModified := match n with NFile _ t => t | NDir => dir_time end;
     oi_Metadata := None |}.

Definition Local_GetWithInfo ctx l fs path (dir_time : Time) : result StoreError (node * ObjectInfo) :=
  try! n := Local_Get ctx l fs path in Ok (n, fileInfoToObjectInfo path n dir_time).

Definition Local_Head (ctx : option StoreError) (l : Local) (fs : fs_map) (path : string) : result StoreError ObjectInfo :=
  match ctx with
  | Some e => Err e
  | None =>
      try! full := fullPath l path in
      match os_Stat fs (segs_of full) with
      | Err e => Err (not_found e)
      | Ok NDir => Err ErrNotFound
      | Ok n => Ok (fileInfoToObjectInfo path n 0)
      end
  end.

Definition Local_Delete (ctx : option StoreError) (l : Local) (fs : fs_map) (path : string) : fs_map * option StoreError :=
  match ctx with
  | Some e => (fs, Some e)
  | None =>
      match fullPath l path with
      | Err e => (fs, Some e)
      | Ok full =>
          match os_Remove fs (segs_of full) with
          | Ok fs => (fs, None)
          | Err e => (fs, Some (not_found e))
          end
      end
  end.

(** [ctxs] is what [ctx.Err()] gives before each path. *)
Fixpoint Local_DeleteMany_loop (l : Local) (fs : fs_map) (paths : list (option StoreError * string)) (deleted : Z) (lastErr : option StoreError)
  : fs_map * Z * option StoreError :=
  match paths with
  | [] => (fs, deleted, lastErr)
  | (Some e, _) :: _ => (fs, deleted, Some e)
  | (None, path) :: paths =>
      match Local_Delete None l fs path with
      | (fs, None) => Local_DeleteMany_loop l fs paths (deleted + 1) lastErr
      | (fs, Some ErrNotFound) => Local_DeleteMany_loop l fs paths deleted lastErr
      | (fs, Some e) => Local_DeleteMany_loop l fs paths deleted (Some e)
      end
  end.
Definition Local_DeleteMany (l : Local) (fs : fs_map) paths := Local_DeleteMany_loop l fs paths 0 None.

Definition Local_Exists (ctx : option StoreError) (l : Local) (fs : fs_map) (path : string) : result StoreError bool :=
  match ctx with
  | Some e => Err e
  | None =>
      try! full := fullPath l path in
      match os_Stat fs (segs_of full) with
      | Ok NDir => Ok false
      | Ok (NFile _ _) => Ok true
      | Err ENOENT => Ok false
      | Err _ => Err ErrOS
      end
  end.

Definition Local_Copy (ctx : option StoreError) (l : Local) (fs : fs_map) (src dst : string) (now : Time) : fs_map * option StoreError :=
  match ctx with
  | Some e => (fs, Some e)
  | None =>
      match fullPath l src, fullPath l dst with
      | Err e, _ | _, Err e => (fs, Some e)
      | Ok srcPath, Ok dstPath =>
          match os_Stat fs (segs_of srcPath) with
          | Err e => (fs, Some (not_found e))
          | Ok _ =>
              match mkdirs l fs dstPath with
              | Err _ => (fs, Some ErrOS)
              | Ok fs =>
                  match os_Create fs (segs_of dstPath) "" now with
                  | Err _ => (fs, Some ErrOS)
                  | Ok fs =>
                      (* what the open source file holds now *)
                      match os_Stat fs (segs_of srcPath) with
                      | Ok (NFile content _) => (<[segs_of dstPath := NFile content now]> fs, None)
                      | _ => (fs, Some ErrOS)
                      end
                  end
              end
          end
      end
  end.

Definition Local_Move (ctx : option StoreError) (l : Local) (fs : fs_map) (src dst : string) (now : Time) : fs_map * option StoreError :=
  match ctx with
  | Some e => (fs, Some e)
  | None =>
      match fullPath l src, fullPath l dst with
      | Err e, _ | _, Err e => (fs, Some e)
      | Ok srcPath, Ok dstPath =>
          match mkdirs l fs dstPath with
          | Err _ => (fs, Some ErrOS)
          | Ok fs =>
              match os_Rename fs (segs_of srcPath) (segs_of dstPath) with
              | Ok fs => (fs, None)
              | Err _ =>
                  match Local_Copy None l fs src dst now with
                  | (fs, Some e) => (fs, Some e)
                  | (fs, None) =>
                      match os_Remove fs (segs_of srcPath) with
                      | Ok fs => (fs, None)
                      | Err _ => (fs, Some ErrOS)
                      end
                  end
              end
          end
      end
  end.

Definition Local_URL (l : Local) (path : string) : string :=
  if String.eqb (local_baseURL l) "" then "" else local_baseURL l +:+ "/" +:+ NormalizePath path.

(** *** [List] *)

Inductive walk_step := Continue | SkipDir | SkipAll.

(** The function that [List] gives to [filepath.Walk], for an entry without error. *)
Definition walk_fn (base : fpath) (prefix delimiter : string) (max : Z) (p : fpath) (n : node) (s : list_state) : list_state * walk_step :=
  if decide (p = base) then (s, Continue)
  else
    let relPath := Rel base p in
    let is_dir := match n with NDir => true | _ => false end in
    let whole := String.eqb prefix "" || String.eqb prefix "." in
    if negb whole && negb (HasPrefix relPath prefix) then (s, if is_dir then SkipDir else Continue)
    else
      match group_of (if whole then "" else prefix) delimiter relPath with
      | Some g => (add_prefix s g, if is_dir then SkipDir else Continue)
      | None =>
          if is_dir then (s, Continue)
          else if max <=? Z.of_nat (length (Objects (ls_result s))) then (truncate_at s relPath, SkipAll)
          else (add_object s (fileInfoToObjectInfo relPath n 0), Continue)
      end.

(** [skip] is the directory that is being skipped. *)
Fixpoint walk_loop (fs : fs_map) (base : fpath) (prefix delimiter : string) (max : Z) (skip : option fpath) (paths : list fpath) (s : list_state)
  : list_state :=
  match paths with
  | [] => s
  | p :: paths =>
      if match skip with Some d => below d p | None => false end
      then walk_loop fs base prefix delimiter max skip paths s
      else
        match os_Stat fs p with
        | Err _ => walk_loop fs base prefix delimiter max None paths s
        | Ok n =>
            match walk_fn base prefix delimiter max p n s with
            | (s, Continue) => walk_loop fs base prefix delimiter max None paths s
            | (s, SkipDir) => walk_loop fs base prefix delimiter max (Some p) paths s
            | (s, SkipAll) => s
            end
        end
  end.

Definition path_le (a b : ObjectInfo) : Prop := str_le (oi_Path a) (oi_Path b).
#[local] Instance path_le_dec : RelDecision path_le := fun a b => str_le_dec (oi_Path a) (oi_Path b).

Definition sort_result (r : ListResult) : ListResult :=
  {| Objects := merge_sort path_le (Objects r); CommonPrefixes := merge_sort str_le (CommonPrefixes r);
     IsTruncated := IsTruncated r; NextContinuationToken := NextContinuationToken r |}.

Definition Local_List (ctx : option StoreError) (l : Local) (fs : fs_map) (prefix : string) (opts : option ListOptions) : result StoreError ListResult :=
  match ctx with
  | Some e => Err e
  | None =>
      let prefix := NormalizePath prefix in
      let searchPath := if String.eqb prefix "" || String.eqb prefix "." then basePath l else Join [basePath l; prefix] in
      let opts := default no_list_options opts in
      let start := {| seenPrefixes := ∅; ls_result := empty_result |} in
      match os_Stat fs (segs_of searchPath) with
      | Err ENOENT => Ok (sort_result (ls_result start))
      | Err _ => Err ErrOS
      | Ok _ =>
          Ok (sort_result (ls_result (walk_loop fs (segs_of (basePath l)) prefix (Delimiter opts) (list_max opts) None
                (walk_paths fs (segs_of searchPath)) start)))
      end
  end.
End Local.

(** ** Paths *)

Lemma segs_of_split s : segs_of s = List.filter (fun x => negb (String.eqb x "")) (split_byte "/" s).
Proof. done. Qed.

Lemma plain_filter p : Forall plain p -> List.filter (fun x => negb (String.eqb x "")) p = p.
Proof.
  induction 1 as [|x p (Hx & _) Hp IH]; [done|]. cbn. by rewrite (proj2 (String.eqb_neq _ _) Hx), IH.
Qed.

Lemma segs_of_path p : Forall plain p -> segs_of (path_string p) = p.
Proof.
  intros Hp. unfold segs_of, path_string. change (split_byte "/" ("/" +:+ ?s)) with ("" :: split_byte "/" s). cbn [List.filter].
  cbn [String.eqb negb]. rewrite split_path_string by done. destruct p as [|x p]; [done|]. by apply plain_filter.
Qed.

Lemma valid_dotdot q : ValidatePath q = None -> ".." ∉ split_byte "/" q.
Proof.
  unfold ValidatePath. destruct (String.eqb q ""); [done|]. destruct (Contains q "..") eqn:Hc; [done|]. intros _ Hin.
  apply piece_contains in Hin. by rewrite Hc in Hin.
Qed.

Lemma key_segs_plain q : ValidatePath q = None -> Forall plain (key_segs q).
Proof. intros Hq. apply kept_plain; [by apply valid_dotdot|apply split_byte_pieces]. Qed.

Section backend.
Context (l : Local) (b : fpath) (Hbase : basePath l = path_string b) (Hb : Forall plain b).

Lemma fullPath_ok path : ValidatePath (NormalizePath path) = None ->
  fullPath l path = Ok (path_string (b ++ key_segs (NormalizePath path))).
Proof.
  intros Hv. unfold fullPath. rewrite Hv, Hbase, Join_base by (done || by apply NormalizePath_nonempty || by apply valid_dotdot).
  by rewrite path_prefix.
Qed.

Lemma fullPath_inv path full : fullPath l path = Ok full ->
  ValidatePath (NormalizePath path) = None /\ full = path_string (b ++ key_segs (NormalizePath path)) /\
  Forall plain (b ++ key_segs (NormalizePath path)).
Proof.
  intros H. destruct (ValidatePath (NormalizePath path)) as [e|] eqn:Hv.
  - unfold fullPath in H. by rewrite Hv in H.
  - rewrite fullPath_ok in H by done. split; [done|]. split; [by injection H|]. apply Forall_app. split; [done|]. by apply key_segs_plain.
Qed.
End backend.

(** C16. No path leaves the root: with the root in the clean form that [NewLocal]
    gives it, whatever path a caller passes, with [..], backslashes or double
    slashes, [fullPath] refuses it or returns the root followed by plain names.
    The refused paths are those with two dots in a row or a zero byte after
    normalising; the test of the prefix never refuses more. *)
Theorem fullPath_inside l b path :
  basePath l = path_string b -> Forall plain b ->
  match fullPath l path with
  | Ok full => exists names, Forall plain names /\ full = path_string (b ++ names) /\
                 names = key_segs (NormalizePath path) /\ ValidatePath (NormalizePath path) = None
  | Err e => ValidatePath (NormalizePath path) = Some e /\ e = ErrInvalidPath
  end.
Proof.
  intros Hbase Hb. destruct (ValidatePath (NormalizePath path)) as [e|] eqn:Hv.
  - unfold fullPath. rewrite Hv. split; [done|]. unfold ValidatePath in Hv.
    destruct (String.eqb _ ""); [by injection Hv|]. destruct (Contains _ ".."); [by injection Hv|]. by destruct (string_has _ _); [injection Hv|].
  - rewrite (fullPath_ok l b Hbase Hb path Hv). exists (key_segs (NormalizePath path)). split; [by apply key_segs_plain|done].
Qed.

Lemma fullPath_inside_witness :
  let l := {| basePath := "/srv/data"; local_baseURL := ""; createDirs := true |} in
  Forall plain ["srv"; "data"] /\ exists names, Forall plain names /\ fullPath l "x\./y//z" = Ok (path_string (["srv"; "data"] ++ names)).
Proof.
  cbv zeta. assert (Forall plain ["srv"; "data"]) as Hp by (repeat constructor; done). split; [exact Hp|].
  pose proof (fullPath_inside {| basePath := "/srv/data"; local_baseURL := ""; createDirs := true |} ["srv"; "data"] "x\./y//z" eq_refl Hp) as H.
  destruct (fullPath _ "x\./y//z") as [full|e] eqn:Hf; [|destruct H as [H _]; vm_compute in H; discriminate H].
  destruct H as (names & Hn & -> & _). by exists names.
Defined.

(** ** The file system, its invariant *)

(** What is not in the root directory is in a directory. *)
Definition wf_fs (fs : fs_map) : Prop :=
  fs !! [] = None /\ forall p x n, fs !! (p ++ [x]) = Some n -> p = [] \/ fs !! p = Some NDir.

Definition file_at (fs : fs_map) (p : fpath) : option (string * Time) :=
  match fs !! p with Some (NFile c t) => Some (c, t) | _ => None end.

Lemma prefix_dir fs p q n : wf_fs fs -> fs !! (p ++ q) = Some n -> q <> [] -> p = [] \/ fs !! p = Some NDir.
Proof.
  intros [_ Hw]. revert n. induction q as [|x q IH] using rev_ind; intros n Hn Hq; [done|].
  rewrite app_assoc in Hn. apply Hw in Hn as [Hn|Hn].
  - apply app_eq_nil in Hn as [-> _]. by left.
  - destruct (decide (q = [])) as [->|Hne]; [rewrite app_nil_r in Hn; by right|by eapply IH].
Qed.

Lemma resolve_some fs d s n : resolve fs d s = Ok n -> s <> [] -> fs !! (d ++ s) = Some n.
Proof.
  revert d. induction s as [|x s IH]; intros d H Hs; [done|]. cbn in H.
  destruct (fs !! (d ++ [x])) as [[c t|]|] eqn:Hx; [|
|done].
  - destruct (decide (s = [])) as [->|]; [|done]. by injection H as <-.
  - destruct s as [|y s]; [by injection H as <-|]. specialize (IH _ H ltac:(done)). by rewrite <- app_assoc in IH.
Qed.

Lemma stat_some fs p n : os_Stat fs p = Ok n -> p <> [] -> fs !! p = Some n.
Proof. apply (resolve_some fs []). Qed.

Lemma resolve_lookup fs d s n : wf_fs fs -> fs !! (d ++ s) = Some n -> s <> [] -> resolve fs d s = Ok n.
Proof.
  intros Hw. revert d. induction s as [|x s IH]; intros d H Hs; [done|]. cbn.
  destruct (decide (s = [])) as [->|Hne]; [rewrite H; by destruct n|].
  change (x :: s) with ([x] ++ s) in H. rewrite app_assoc in H.
  destruct (prefix_dir _ _ _ _ Hw H Hne) as [Hd|Hd]; [by destruct d|]. rewrite Hd. by apply IH.
Qed.

Lemma stat_lookup fs p n : wf_fs fs -> fs !! p = Some n -> os_Stat fs p = Ok n.
Proof. intros Hw H. apply (resolve_lookup fs [] p n Hw H). intros ->. by rewrite (proj1 Hw) in H. Qed.

Lemma stat_dir fs p : os_Stat fs p = Ok NDir -> p = [] \/ fs !! p = Some NDir.
Proof. intros H. destruct (decide (p = [])); [by left|right; by apply stat_some]. Qed.

Lemma insert_dir_wf fs p : wf_fs fs -> p <> [] -> fs !! p = None -> (removelast p = [] \/ fs !! removelast p = Some NDir) ->
  wf_fs (<[p := NDir]> fs).
Proof.
  intros [H0 Hw] Hp Hn Hpar. split; [by rewrite lookup_insert_ne|]. intros q x n [[-> <-]|[Hne Hq]]%lookup_insert_Some.
  - rewrite removelast_last in Hpar. destruct Hpar as [Hpar|Hpar]; [by left|right]. rewrite lookup_insert_ne; [done|].
    intros Heq. rewrite Heq in Hn. by rewrite Hn in Hpar.
  - destruct (Hw q x n Hq) as [->|Hd]; [by left|right]. rewrite lookup_insert_ne; [done|]. intros ->. by rewrite Hn in Hd.
Qed.

Lemma insert_file_wf fs p c t : wf_fs fs -> p <> [] -> fs !! p <> Some NDir -> (removelast p = [] \/ fs !! removelast p = Some NDir) ->
  wf_fs (<[p := NFile c t]> fs).
Proof.
  intros [H0 Hw] Hp Hn Hpar. split; [by rewrite lookup_insert_ne|]. intros q x n [[-> <-]|[Hne Hq]]%lookup_insert_Some.
  - rewrite removelast_last in Hpar. destruct Hpar as [Hpar|Hpar]; [by left|right]. rewrite lookup_insert_ne; [done|].
    intros Heq. by rewrite Heq in Hn.
  - destruct (Hw q x n Hq) as [->|Hd]; [by left|right]. rewrite lookup_insert_ne; [done|]. by intros ->.
Qed.

Lemma delete_file_wf fs p c t : wf_fs fs -> fs !! p = Some (NFile c t) -> wf_fs (delete p fs).
Proof.
  intros [H0 Hw] Hp. split; [by rewrite lookup_delete_None; right|]. intros q x n [Hne Hq]%lookup_delete_Some.
  destruct (Hw q x n Hq) as [->|Hd]; [by left|right]. rewrite lookup_delete_ne; [done|]. intros ->. by rewrite Hp in Hd.
Qed.

Lemma file_at_insert fs p c t q : q <> p -> file_at (<[p := NFile c t]> fs) q = file_at fs q.
Proof. intros Hq. unfold file_at. by rewrite lookup_insert_ne. Qed.

Lemma file_at_delete fs p q : q <> p -> file_at (delete p fs) q = file_at fs q.
Proof. intros Hq. unfold file_at. by rewrite lookup_delete_ne. Qed.

Lemma removelast_snoc_eq (p : fpath) : p = [] \/ exists x, p = removelast p ++ [x].
Proof.
  destruct p as [|y p] using rev_ind; [by left|]. right. exists y. by rewrite removelast_last.
Qed.

Lemma mkdir_from_spec s : forall fs d fs', wf_fs fs -> d = [] \/ fs !! d = Some NDir -> mkdir_from fs d s = Ok fs' ->
  wf_fs fs' /\ (forall q, file_at fs' q = file_at fs q) /\ (forall q n, fs !! q = Some n -> fs' !! q = Some n) /\
  (d ++ s = [] \/ fs' !! (d ++ s) = Some NDir) /\ (forall q n, fs' !! q = Some n -> fs !! q = Some n \/ q `prefix_of` d ++ s).
Proof.
  induction s as [|x s IH]; intros fs d fs' Hw Hd H; cbn in H.
  - injection H as <-. rewrite app_nil_r. by eauto 10.
  - destruct (fs !! (d ++ [x])) as [[c t|]|] eqn:Hx; [done| |].
    + destruct (IH fs (d ++ [x]) fs' Hw ltac:(by right) H) as (? & ? & ? & H4 & H5). rewrite <- app_assoc in H4, H5. done.
    + assert (d ++ [x] <> []) as Hne by by destruct d.
      destruct (IH (<[d ++ [x] := NDir]> fs) (d ++ [x]) fs') as (H1 & H2 & H3 & H4 & H5); [|right; apply lookup_insert_eq|done|].
      { apply insert_dir_wf; [done..|]. by rewrite removelast_last. }
      rewrite <- app_assoc in H4, H5. split; [done|]. split; [|split; [|split; [done|]]].
      * intros q. rewrite H2. unfold file_at. destruct (decide (q = d ++ [x])) as [->|]; [by rewrite lookup_insert_eq, Hx|by rewrite lookup_insert_ne].
      * intros q n Hq. apply H3. rewrite lookup_insert_ne; [done|]. intros <-. by rewrite Hx in Hq.
      * intros q n Hq. destruct (H5 q n Hq) as [[[<- <-]|[_ ?]]%lookup_insert_Some|?]; [right|by left|by right].
        cbn [app]. apply (prefix_app d), prefix_cons, prefix_nil.
Qed.

Lemma Create_ok fs p c t fs' : wf_fs fs -> os_Create fs p c t = Ok fs' ->
  p <> [] /\ fs !! p <> Some NDir /\ (removelast p = [] \/ fs !! removelast p = Some NDir) /\ fs' = <[p := NFile c t]> fs /\ wf_fs fs'.
Proof.
  intros Hw. unfold os_Create. destruct (os_Stat fs (removelast p)) as [[|]|] eqn:Hs; [done| |done]. apply stat_dir in Hs.
  destruct p as [|x p]; [done|]. destruct (fs !! (x :: p)) as [[c' t'|]|] eqn:Hp; [|done|]; intros [= <-];
    (split; [done|]; split; [done|]; split; [done|]; split; [done|]; apply insert_file_wf; rewrite ?Hp; done).
Qed.

(** ** The directory of a path *)

Lemma segs_of_Dir p : Forall plain p -> segs_of (Dir (path_string p)) = removelast p.
Proof.
  intros Hp. destruct p as [|x p _] using rev_ind; [done|]. apply Forall_app in Hp as [Hp Hx].
  apply list.Forall_singleton in Hx as (_ & _ & _ & Hx). rewrite removelast_last. unfold Dir, path_string.
  destruct (decide (p = [])) as [->|Hne].
  - cbn [app String.concat]. change ("/" +:+ x) with ("" +:+ String "/" x). by rewrite cut_last_app.
  - rewrite concat_snoc, string_app_assoc, cut_last_app by done. unfold Clean. cbn [String.append String.eqb].
    change (HasPrefix (String "/" ?x) "/") with true. cbv iota. cbn [str_drop].
    rewrite split_byte_sep, split_path_string by done. destruct p as [|y p]; [done|]. cbn [split_byte].
    rewrite clean_no_dotdot.
    + rewrite List.filter_app. change (List.filter kept [""]) with (@nil string). rewrite app_nil_r, plain_kept by done.
      by apply (segs_of_path (y :: p)).
    + intros [Hin|Hin]%elem_of_app; [by apply plain_dotdot in Hin|by apply list_elem_of_singleton in Hin].
Qed.

Section operations.
Context (l : Local) (b : fpath) (Hbase : basePath l = path_string b) (Hb : Forall plain b).

(** Where the object of a path is kept. *)
Definition place (path : string) : fpath := b ++ key_segs (NormalizePath path).

Lemma mkdirs_spec fs full p fs' : Forall plain p -> full = path_string p -> wf_fs fs -> mkdirs l fs full = Ok fs' ->
  wf_fs fs' /\ (forall q, file_at fs' q = file_at fs q) /\ (forall q n, fs !! q = Some n -> fs' !! q = Some n) /\
  (forall q n, fs' !! q = Some n -> fs !! q = Some n \/ q `prefix_of` removelast p).
Proof.
  intros Hp -> Hw. unfold mkdirs. destruct (createDirs l); [|intros [= <-]; by eauto 10].
  rewrite segs_of_Dir by done. intros H. destruct (mkdir_from_spec _ fs [] fs' Hw ltac:(by left) H) as (? & ? & ? & _ & ?). done.
Qed.

(** A rename of the temporary file. *)
Lemma Rename_tmp fs d tmp p c t fs' :
  wf_fs fs -> fs !! (d ++ [tmp]) = Some (NFile c t) -> os_Rename fs (d ++ [tmp]) p = Ok fs' ->
  p <> [] /\ fs' = <[p := NFile c t]> (delete (d ++ [tmp]) fs) /\ wf_fs fs'.
Proof.
  intros Hw Ht. unfold os_Rename. rewrite (stat_lookup _ _ _ Hw Ht).
  destruct (os_Stat fs (removelast p)) as [[|]|] eqn:Hs; [done| |done]. destruct (decide (p = [])) as [|Hp]; [done|].
  assert (Hfile : fs !! p <> Some NDir -> wf_fs (<[p := NFile c t]> (delete (d ++ [tmp]) fs))).
  { intros Hnd. apply insert_file_wf; [by eapply delete_file_wf|done| |].
    - rewrite lookup_delete_Some. by intros [_ ?].
    - apply stat_dir in Hs as [Hs|Hs]; [by left|right]. rewrite lookup_delete_ne; [done|]. intros Heq. by rewrite Heq, Hs in Ht. }
  destruct (fs !! p) as [[c' t'|]|] eqn:Hlook; [|done|]; intros [= <-]; (split; [done|split; [done|by apply Hfile]]).
Qed.

Lemma GetBytes_file fs path c t : wf_fs fs -> ValidatePath (NormalizePath path) = None -> fs !! place path = Some (NFile c t) ->
  Local_GetBytes None l fs path = Ok c.
Proof.
  intros Hw Hv Hp. unfold Local_GetBytes, Local_Get. rewrite (fullPath_ok l b Hbase Hb path Hv). cbn [result_bind].
  rewrite segs_of_path by (apply Forall_app; split; [done|by apply key_segs_plain]).
  fold (place path). by rewrite (stat_lookup _ _ _ Hw Hp).
Qed.

Lemma Put_spec fs path r opts tmp now :
  wf_fs fs -> fs !! (removelast (place path) ++ [tmp]) = None ->
  let '(fs', e) := Local_Put None l fs path r opts tmp now in
  wf_fs fs' /\
  match e with
  | None => exists content, r = Ok content /\ ValidatePath (NormalizePath path) = None /\
              fs' !! place path = Some (NFile content now) /\ forall q, q <> place path -> file_at fs' q = file_at fs q
  | Some _ => forall q, file_at fs' q = file_at fs q
  end.
Proof.
  intros Hw Hfresh. unfold Local_Put. destruct (fullPath l path) as [full|e] eqn:Hf; [|done].
  destruct (fullPath_inv l b Hbase Hb path full Hf) as (Hv & Hfull & Hp). fold (place path) in Hfull, Hp.
  destruct (_ && _); [done|]. destruct (mkdirs l fs full) as [fs0|] eqn:Hmk; [|done].
  destruct (mkdirs_spec fs full _ fs0 Hp Hfull Hw Hmk) as (Hw0 & Hfiles & _ & Hnew).
  subst full. rewrite segs_of_Dir, segs_of_path by done. set (d := removelast (place path)) in *. set (tp := d ++ [tmp]) in *.
  assert (file_at fs tp = None) as Hfresh'. { unfold file_at. by rewrite Hfresh. }
  destruct (os_Create fs0 tp "" now) as [fs1|] eqn:Hcr; [|done].
  destruct (Create_ok fs0 tp "" now fs1 Hw0 Hcr) as (Htp & Hnd & Hpar & -> & Hw1).
  assert (forall c q, file_at (delete tp (<[tp := NFile c now]> fs0)) q = file_at fs q) as Hback.
  { intros c q. destruct (decide (q = tp)) as [->|Hq]; [unfold file_at at 1; by rewrite lookup_delete_eq, Hfresh'|].
    by rewrite file_at_delete, file_at_insert, Hfiles. }
  destruct r as [content|e].
  - rewrite insert_insert_eq. assert (Hw2 : wf_fs (<[tp := NFile content now]> fs0)) by by apply insert_file_wf.
    destruct (os_Rename _ tp (place path)) as [fs3|] eqn:Hre.
    + destruct (Rename_tmp _ d tmp _ content now fs3 Hw2 ltac:(apply lookup_insert_eq) Hre) as (Hne & -> & Hw3).
      split; [done|]. exists content. split; [done|]. split; [done|]. split; [apply lookup_insert_eq|].
      intros q Hq. by rewrite file_at_insert.
    + split; [|done]. eapply delete_file_wf; [done|apply lookup_insert_eq].
  - split; [|done]. eapply delete_file_wf; [done|apply lookup_insert_eq].
Qed.
End operations.

(** C33. A [Put] on the file system is atomic: when it succeeds the object is read back
    with the content that the reader gave and every other file is as it was; when
    it fails, whatever the reason and the moment, every file is as it was.  It
    keeps the invariant of the file system. *)
Theorem Put_atomic l b fs path r opts tmp now :
  basePath l = path_string b -> Forall plain b -> wf_fs fs ->
  fs !! (removelast (place b path) ++ [tmp]) = None ->
  let '(fs', e) := Local_Put None l fs path r opts tmp now in
  wf_fs fs' /\
  match e with
  | None => exists content, r = Ok content /\ Local_GetBytes None l fs' path = Ok content /\
              forall q, q <> place b path -> file_at fs' q = file_at fs q
  | Some _ => forall q, file_at fs' q = file_at fs q
  end.
Proof.
  intros Hbase Hb Hw Hfresh. pose proof (Put_spec l b Hbase Hb fs path r opts tmp now Hw Hfresh) as H.
  destruct (Local_Put None l fs path r opts tmp now) as [fs' [e|]]; [done|]. destruct H as (Hw' & content & -> & Hv & Hp & Hq).
  split; [done|]. exists content. split; [done|]. split; [|done]. by eapply (GetBytes_file l b).
Qed.

Definition srv : Local := {| basePath := "/srv"; local_baseURL := ""; createDirs := true |}.
Definition srv_fs : fs_map := {[["srv"] := NDir]}.

Lemma srv_plain : Forall plain ["srv"].
Proof. repeat constructor; done. Qed.

Lemma singleton_wf x n : wf_fs {[[x] := n]}.
Proof.
  split; [by rewrite lookup_singleton_ne|]. intros p y m Hm. apply lookup_singleton_Some in Hm as [Heq _].
  left. destruct p as [|z p]; [done|]. by destruct p.
Qed.

Lemma Put_atomic_witness :
  srv_fs !! (removelast (place ["srv"] "a/b") ++ [".tmp-1"]) = None /\
  Local_GetBytes None srv (Local_Put None srv srv_fs "a/b" (Ok "x") None ".tmp-1" 5).1 "a/b" = Ok "x".
Proof.
  assert (srv_fs !! (removelast (place ["srv"] "a/b") ++ [".tmp-1"]) = None) as Hn by (vm_compute; reflexivity). split; [exact Hn|].
  pose proof (Put_atomic srv ["srv"] srv_fs "a/b" (Ok "x") None ".tmp-1" 5 eq_refl srv_plain (singleton_wf _ _) Hn) as H.
  assert ((Local_Put None srv srv_fs "a/b" (Ok "x") None ".tmp-1" 5).2 = None) as He by (vm_compute; reflexivity).
  destruct (Local_Put None srv srv_fs "a/b" (Ok "x") None ".tmp-1" 5) as [fs' e]. cbn [snd] in He. rewrite He in H.
  destruct H as (_ & c & Hc & Hget & _). injection Hc as <-. exact Hget.
Defined.

(** ** Listing outside of the root *)

Lemma strip_common_app p b t : strip_common (p ++ b) (p ++ t) = strip_common b t.
Proof. induction p as [|x p IH]; [done|]. cbn. by rewrite String.eqb_refl. Qed.

Lemma strip_common_nil b t : (strip_common b t).1 = [] -> b `prefix_of` t.
Proof.
  revert t. induction b as [|x b IH]; intros t H; [apply prefix_nil|]. destruct t as [|y t]; [done|]. cbn in H.
  destruct (String.eqb x y) eqn:Hxy; [|done]. apply String.eqb_eq in Hxy as ->. by apply prefix_cons, IH.
Qed.

(** A path that is not below the base is reached through its parent. *)
Lemma Rel_outside base p : ~ base `prefix_of` p -> HasPrefix (Rel base p) ".." = true.
Proof.
  intros Hn. unfold Rel. destruct (strip_common base p) as [b t] eqn:Hs.
  destruct b as [|x b]; [destruct Hn; apply strip_common_nil; by rewrite Hs|]. cbn.
  by destruct (repeat ".." (length b) ++ t).
Qed.

Section walk.
Context (mimes : gmap string string) (sniff : string -> string) (dir_size : Z) (fs : fs_map) (base : fpath).
Context (prefix delimiter : string) (max : Z).
#[local] Abbreviation fn := (walk_fn mimes sniff dir_size base prefix delimiter max).
#[local] Abbreviation loop := (walk_loop mimes sniff dir_size fs base prefix delimiter max).

Lemma add_prefix_objects s g : Objects (ls_result (add_prefix s g)) = Objects (ls_result s).
Proof. unfold add_prefix. by case_bool_decide. Qed.

Lemma fn_keeps p n s i : i ∈ Objects (ls_result s) -> i ∈ Objects (ls_result (fn p n s).1).
Proof.
  intros Hi. unfold walk_fn. repeat case_match; cbn; rewrite ?add_prefix_objects; try done. all: apply elem_of_app; by left.
Qed.

Lemma walk_keeps paths : forall skip s i, i ∈ Objects (ls_result s) -> i ∈ Objects (ls_result (loop skip paths s)).
Proof.
  induction paths as [|p paths IH]; intros skip s i Hi; [done|]. cbn [walk_loop].
  destruct (match skip with Some d => below d p | None => false end); [by apply IH|].
  destruct (os_Stat fs p) as [n|]; [|by apply IH]. pose proof (fn_keeps p n s i Hi) as Hk.
  destruct (fn p n s) as [s' []]; [by apply IH|by apply IH|done].
Qed.

(** A file that no directory above it makes the walk skip is listed. *)
Lemma walk_lists p c t : os_Stat fs p = Ok (NFile c t) -> p <> base ->
  String.eqb prefix "" || String.eqb prefix "." = false -> HasPrefix (Rel base p) prefix = true ->
  group_of prefix delimiter (Rel base p) = None ->
  (forall d n s s', below d p = true -> fn d n s <> (s', SkipDir)) ->
  forall paths skip s, p ∈ paths -> match skip with Some d => below d p = false | None => True end ->
  IsTruncated (ls_result (loop skip paths s)) = false ->
  fileInfoToObjectInfo mimes sniff dir_size (Rel base p) (NFile c t) 0 ∈ Objects (ls_result (loop skip paths s)).
Proof.
  intros Hp Hne Hwhole Hpre Hgrp Hskip. induction paths as [|q paths IH]; intros skip s Hin Hsk Ht; [by apply elem_of_nil in Hin|].
  cbn [walk_loop] in *. apply elem_of_cons in Hin as [<-|Hin].
  - assert ((match skip with Some d => below d p | None => false end) = false) as Hno by by destruct skip. rewrite Hno, Hp in *.
    unfold walk_fn in *. destruct (decide (p = base)); [done|]. rewrite Hwhole, Hpre, Hgrp in *. cbn [negb andb] in *.
    destruct (max <=? _); [done|]. apply walk_keeps. cbn. apply elem_of_app. right. left.
  - destruct (match skip with Some d => below d q | None => false end); [by apply IH|].
    destruct (os_Stat fs q) as [n|]; [|by apply IH]. destruct (fn q n s) as [s' []] eqn:Hfn; [by apply IH| |].
    + apply IH; [done| |done]. apply not_true_is_false. intros Hb. by apply (Hskip q n s s').
    + exfalso. revert Ht. unfold walk_fn in Hfn. repeat case_match; by simplify_eq.
Qed.
End walk.

Lemma below_spec p q : below p q = true <-> p `prefix_of` q /\ p <> q.
Proof. unfold below. rewrite andb_true_iff, negb_true_iff, bool_decide_eq_true, bool_decide_eq_false. done. Qed.

Lemma walk_paths_elem fs root p n : fs !! p = Some n -> below root p = true -> p ∈ walk_paths fs root.
Proof.
  intros Hp Hb. right. rewrite merge_sort_Permutation, list_elem_of_In, filter_In, <- list_elem_of_In. split; [|done].
  apply list_elem_of_fmap. exists (p, n). split; [done|]. by apply elem_of_map_to_list.
Qed.

Lemma Join_parent bs x : Forall plain (bs ++ [x]) -> Join [path_string (bs ++ [x]); ".."] = path_string bs.
Proof.
  intros Hp. unfold path_string at 1. cbn [String.append Join].
  change (String.concat "/" [String "/" (String.concat "/" (bs ++ [x])); ".."]) with (String "/" (String.concat "/" (bs ++ [x]) +:+ String "/" "..")).
  unfold Clean. cbn [String.eqb]. change (HasPrefix (String "/" ?s) "/") with true. cbv iota. cbn [str_drop].
  assert (split_byte "/" (String.concat "/" (bs ++ [x])) = bs ++ [x]) as Hs
    by (apply (split_byte_concat "/"); [by destruct bs|by apply plain_pieces]).
  rewrite split_byte_sep, Hs.
  change (split_byte "/" "..") with [".."]. unfold clean_segments. rewrite fold_left_app, (clean_plain_onto true (bs ++ [x])) by done.
  rewrite app_nil_r, rev_app_distr. cbn. apply Forall_app in Hp as [Hp Hx]. apply list.Forall_singleton in Hx as (_ & _ & Hx & _).
  unfold clean_step. cbn. rewrite (proj2 (String.eqb_neq _ _) Hx). by rewrite rev_involutive.
Qed.

Lemma dotdot_searchPath l bs x : basePath l = path_string (bs ++ [x]) -> Forall plain (bs ++ [x]) ->
  (if String.eqb (NormalizePath "..") "" || String.eqb (NormalizePath "..") "." then basePath l else Join [basePath l; NormalizePath ".."]) = path_string bs.
Proof. intros -> Hp. change (NormalizePath "..") with "..". cbn [String.eqb Ascii.eqb Bool.eqb orb]. by apply Join_parent. Qed.

(** [List] does not check its prefix: with the prefix [..] it walks the parent of
    the root, and unless the result is truncated every file that is in the parent
    and not in the root is in it, with its size and the path that leads there, though
    every other operation refuses that path. *)
Theorem List_escapes mimes sniff dir_size l bs x y rest fs c t :
  basePath l = path_string (bs ++ [x]) -> Forall plain (bs ++ [x]) -> Forall plain (y :: rest) ->
  forallb no_backslash (y :: rest) = true -> y <> x -> wf_fs fs ->
  fs !! (bs ++ y :: rest) = Some (NFile c t) ->
  exists r, Local_List mimes sniff dir_size None l fs ".." None = Ok r /\
    (IsTruncated r = false -> exists i, i ∈ Objects r /\ oi_Path i = "../" +:+ String.concat "/" (y :: rest) /\
       oi_Size i = Z.of_nat (String.length c)) /\
    Local_GetBytes None l fs ("../" +:+ String.concat "/" (y :: rest)) = Err ErrInvalidPath.
Proof.
  intros Hbase Hp Hyr Hbs Hne Hw Hf. pose proof Hp as [Hpb Hpx]%Forall_app.
  assert (Hcan : NormalizePath ("../" +:+ String.concat "/" (y :: rest)) = "../" +:+ String.concat "/" (y :: rest)).
  { apply NormalizePath_id. assert ("../" +:+ String.concat "/" (y :: rest) = rel_string (repeat ".." 1 ++ y :: rest)) as -> by done.
    split; [|by exists 1%nat, (y :: rest)]. apply rel_string_has; [done..|].
    intros z [->%list_elem_of_singleton|Hz]%elem_of_app; [done|]. apply list_elem_of_In in Hz.
    rewrite forallb_forall in Hbs. by apply Hbs, negb_true_iff in Hz. }
  assert (Hstat : os_Stat fs (bs ++ y :: rest) = Ok (NFile c t)) by by apply stat_lookup.
  unfold Local_List. rewrite (dotdot_searchPath l bs x Hbase Hp), segs_of_path by done.
  assert (os_Stat fs bs = Ok NDir) as ->.
  { destruct (decide (bs = [])) as [->|Hb]; [done|]. apply stat_lookup; [done|].
    by destruct (prefix_dir fs bs (y :: rest) _ Hw Hf ltac:(done)). }
  eexists. split; [reflexivity|]. split.
  - rewrite Hbase, segs_of_path by done. cbn [sort_result IsTruncated Objects]. intros Ht. change (NormalizePath "..") with ".." in *.
    assert (Hnp : ~ (bs ++ [x]) `prefix_of` (bs ++ y :: rest)) 
      by (intros [k Hk]; rewrite <- app_assoc in Hk; apply app_inv_head in Hk; injection Hk; congruence).
    eexists. split; [|split].
    + rewrite merge_sort_Permutation. refine (walk_lists mimes sniff dir_size fs (bs ++ [x]) ".." _ _ (bs ++ y :: rest) c t Hstat _ eq_refl _ _ _ _ None _ _ I Ht).
      * intros Heq. apply Hnp. by rewrite Heq.
      * by apply Rel_outside.
      * done.
      * intros d n s s' Hd Hfn. unfold walk_fn in Hfn. destruct (decide (d = bs ++ [x])); [done|]. cbn [String.eqb Ascii.eqb Bool.eqb orb negb andb] in Hfn.
        rewrite (Rel_outside (bs ++ [x]) d) in Hfn. { cbn in Hfn. repeat case_match; by simplify_eq. }
        intros Hpre. apply Hnp. apply below_spec in Hd as [Hd _]. by etrans.
      * eapply walk_paths_elem; [done|]. apply below_spec. split; [by apply prefix_app_r|]. intros Heq.
        rewrite <- (app_nil_r bs) in Heq at 1. by apply app_inv_head in Heq.
    + unfold Rel. rewrite strip_common_app. cbn [strip_common]. rewrite (proj2 (String.eqb_neq x y)) by congruence. exact Hcan.
    + done.
  - unfold Local_GetBytes, Local_Get, fullPath. rewrite Hcan. done.
Qed.

Definition etc_fs : fs_map := <[["srv"] := NDir]> (<[["etc"] := NDir]> (<[["etc"; "passwd"] := NFile "root" 7]> ∅)).

(** A decidable form of the invariant. *)
Definition wf_fs_b (fs : fs_map) : bool :=
  forallb (fun pn => match removelast pn.1 with
                     | [] => negb (bool_decide (pn.1 = []))
                     | d => match fs !! d with Some NDir => true | _ => false end
                     end) (map_to_list fs).

Lemma wf_fs_b_spec fs : wf_fs_b fs = true -> wf_fs fs.
Proof.
  unfold wf_fs_b. rewrite forallb_forall. intros H. split.
  - destruct (fs !! []) as [n|] eqn:Hn; [|done]. exfalso. apply elem_of_map_to_list, list_elem_of_In, H in Hn. by vm_compute in Hn.
  - intros p x n Hn. apply elem_of_map_to_list, list_elem_of_In, H in Hn. cbn [fst] in Hn. rewrite removelast_last in Hn.
    destruct p as [|y p]; [by left|right]. by destruct (fs !! (y :: p)) as [[|]|].
Qed.

Lemma List_escapes_witness :
  wf_fs etc_fs /\ exists r i, Local_List ∅ id 0 None srv etc_fs ".." None = Ok r /\ i ∈ Objects r /\ oi_Path i = "../etc/passwd".
Proof.
  assert (wf_fs etc_fs) as Hw by (apply wf_fs_b_spec; vm_compute; reflexivity). split; [exact Hw|].
  destruct (List_escapes ∅ id 0 srv [] "srv" "etc" ["passwd"] etc_fs "root" 7) as (r & Hr & Hi & _);
    [reflexivity|exact srv_plain|repeat constructor; done|reflexivity|done|exact Hw|vm_compute; reflexivity|].
  assert (IsTruncated r = false) as Ht.
  { assert (match Local_List ∅ id 0 None srv etc_fs ".." None with Ok r => IsTruncated r | Err _ => true end = false) as H by (vm_compute; reflexivity).
    by rewrite Hr in H. }
  destruct (Hi Ht) as (i & Hin & Hp & _). exists r, i. split; [exact Hr|]. split; [exact Hin|exact Hp].
Defined.

(** ** Where the backends differ *)

Lemma mkdir_from_id fs s : forall d n, wf_fs fs -> fs !! (d ++ s) = Some NDir \/ s = [] ->
  d = [] \/ fs !! d = Some n -> mkdir_from fs d s = Ok fs.
Proof.
  induction s as [|x s IH]; intros d n Hw Hs Hd; [done|]. cbn. destruct Hs as [Hs|]; [|done].
  assert (fs !! (d ++ [x]) = Some NDir) as Hx.
  { destruct (decide (s = [])) as [->|Hne]; [done|]. change (x :: s) with ([x] ++ s) in Hs. rewrite app_assoc in Hs.
    destruct (prefix_dir _ _ _ _ Hw Hs Hne) as [H|]; [by destruct d|done]. }
  rewrite Hx. apply (IH _ NDir); [done|left; by rewrite <- app_assoc|by right].
Qed.

Lemma mkdirs_id l fs p c t : Forall plain p -> wf_fs fs -> fs !! p = Some (NFile c t) -> mkdirs l fs (path_string p) = Ok fs.
Proof.
  intros Hp Hw Hf. unfold mkdirs. destruct (createDirs l); [|done]. rewrite segs_of_Dir by done.
  apply (mkdir_from_id fs (removelast p) [] NDir); [done| |by left]. cbn.
  destruct (removelast_snoc_eq p) as [->|[x Hx]]; [by right|]. destruct (decide (removelast p = [])) as [|Hne]; [by right|left].
  rewrite Hx in Hf. by destruct (prefix_dir _ _ _ _ Hw Hf ltac:(done)).
Qed.

Section differences.
Context (l : Local) (b : fpath) (Hbase : basePath l = path_string b) (Hb : Forall plain b).

Lemma place_plain path : ValidatePath (NormalizePath path) = None -> Forall plain (place b path).
Proof. intros Hv. apply Forall_app. split; [done|by apply key_segs_plain]. Qed.

Lemma Create_over fs p c t now : wf_fs fs -> fs !! p = Some (NFile c t) -> os_Create fs p "" now = Ok (<[p := NFile "" now]> fs).
Proof.
  intros Hw Hp. unfold os_Create. assert (os_Stat fs (removelast p) = Ok NDir) as ->.
  { destruct (decide (removelast p = [])) as [->|Hne]; [done|]. apply stat_lookup; [done|].
    destruct (removelast_snoc_eq p) as [->|[x Hx]]; [done|]. rewrite Hx in Hp. by destruct (prefix_dir _ _ _ _ Hw Hp ltac:(done)). }
  destruct p as [|y p]; [by rewrite (proj1 Hw) in Hp|]. by rewrite Hp.
Qed.

Lemma Copy_self fs src dst now c t : wf_fs fs ->
  ValidatePath (NormalizePath src) = None -> ValidatePath (NormalizePath dst) = None ->
  place b src = place b dst -> fs !! place b src = Some (NFile c t) ->
  Local_Copy None l fs src dst now = (<[place b src := NFile "" now]> fs, None).
Proof.
  intros Hw Hs Hd Heq Hf. unfold Local_Copy. rewrite !(fullPath_ok l b Hbase Hb) by done. fold (place b src) (place b dst).
  rewrite <- Heq, segs_of_path, (stat_lookup _ _ _ Hw Hf), (mkdirs_id l fs _ c t) by (done || by apply place_plain).
  rewrite (Create_over fs _ c t) by done.
  assert (wf_fs (<[place b src := NFile "" now]> fs)) as Hw'.
  { destruct (Create_ok fs (place b src) "" now _ Hw (Create_over fs _ c t now Hw Hf)) as (_ & _ & _ & _ & ?). done. }
  rewrite (stat_lookup _ (place b src) (NFile "" now) Hw') by apply lookup_insert_eq. by rewrite insert_insert_eq.
Qed.

Lemma Move_self fs src dst now c t : wf_fs fs ->
  ValidatePath (NormalizePath src) = None -> ValidatePath (NormalizePath dst) = None ->
  place b src = place b dst -> fs !! place b src = Some (NFile c t) ->
  Local_Move None l fs src dst now = (fs, None).
Proof.
  intros Hw Hs Hd Heq Hf. unfold Local_Move. rewrite !(fullPath_ok l b Hbase Hb) by done. fold (place b src) (place b dst).
  rewrite <- Heq, segs_of_path, (mkdirs_id l fs _ c t) by (done || by apply place_plain).
  unfold os_Rename. rewrite (stat_lookup _ _ _ Hw Hf). pose proof (Create_over fs _ c t now Hw Hf) as Hc. unfold os_Create in Hc.
  destruct (os_Stat fs (removelast (place b src))) as [[|]|]; [done| |done].
  destruct (decide (place b src = [])) as [He|_]; [by rewrite He, (proj1 Hw) in Hf|]. rewrite Hf. by rewrite insert_delete_id.
Qed.

(** Nothing is under a file. *)
Lemma resolve_under fs d s x rest c t : wf_fs fs -> s <> [] -> fs !! (d ++ s) = Some (NFile c t) ->
  resolve fs d (s ++ x :: rest) = Err ENOTDIR.
Proof.
  intros Hw. revert d. induction s as [|y s IH]; intros d Hs Hf; [done|]. cbn.
  destruct (decide (s = [])) as [->|Hne].
  - rewrite Hf. cbn. done.
  - change (y :: s) with ([y] ++ s) in Hf. rewrite app_assoc in Hf.
    destruct (prefix_dir _ _ _ _ Hw Hf Hne) as [Hd|Hd]; [by destruct d|]. rewrite Hd. by apply IH.
Qed.
End differences.

(** On the file system, copying an object onto itself empties it and reports
    success: the destination is truncated before the source is read.  Moving it onto
    itself does nothing, where the backend in memory deletes it. *)
Theorem Copy_self_truncates l b fs src dst now c t :
  basePath l = path_string b -> Forall plain b -> wf_fs fs ->
  ValidatePath (NormalizePath src) = None -> ValidatePath (NormalizePath dst) = None ->
  place b src = place b dst -> fs !! place b src = Some (NFile c t) ->
  let '(fs', e) := Local_Copy None l fs src dst now in
  e = None /\ Local_GetBytes None l fs src = Ok c /\ Local_GetBytes None l fs' src = Ok "" /\
  Local_Move None l fs src dst now = (fs, None).
Proof.
  intros Hbase Hb Hw Hs Hd Heq Hf. rewrite (Copy_self l b Hbase Hb fs src dst now c t) by done.
  split; [done|]. split; [by eapply (GetBytes_file l b)|]. split; [|by apply (Move_self l b Hbase Hb fs src dst now c t)].
  eapply (GetBytes_file l b); [done..| |done|apply lookup_insert_eq].
  by destruct (Create_ok fs (place b src) "" now _ Hw (Create_over fs _ c t now Hw Hf)) as (_ & _ & _ & _ & ?).
Qed.

Lemma Copy_self_truncates_witness :
  wf_fs (<[["srv"; "a"] := NFile "data" 3]> srv_fs) /\
  Local_GetBytes None srv (Local_Copy None srv (<[["srv"; "a"] := NFile "data" 3]> srv_fs) "a" "/a/" 9).1 "a" = Ok "".
Proof.
  assert (wf_fs (<[["srv"; "a"] := NFile "data" 3]> srv_fs)) as Hw by (apply wf_fs_b_spec; vm_compute; reflexivity). split; [exact Hw|].
  pose proof (Copy_self_truncates srv ["srv"] _ "a" "/a/" 9 "data" 3 eq_refl srv_plain Hw eq_refl eq_refl eq_refl eq_refl) as H.
  destruct (Local_Copy None srv _ "a" "/a/" 9) as [fs' e]. apply H.
Defined.

(** The empty path is the root itself: [Delete] of it removes the directory of an
    empty store and reports success.  Under an object, [Exists] and [Head] report an
    unspecified error instead of that there is no object. *)
Theorem root_and_under l b fs path q x rest c t :
  basePath l = path_string b -> Forall plain b -> wf_fs fs ->
  (b <> [] -> fs !! b = Some NDir -> empty_dir fs b = true -> Local_Delete None l fs "" = (delete b fs, None)) /\
  (ValidatePath (NormalizePath q) = None -> fs !! place b path = Some (NFile c t) -> place b q = place b path ++ x :: rest ->
   Local_Exists None l fs q = Err ErrOS /\ forall mimes sniff dir_size, Local_Head mimes sniff dir_size None l fs q = Err ErrOS).
Proof.
  intros Hbase Hb Hw. split.
  - intros Hne Hd He. unfold Local_Delete. rewrite (fullPath_ok l b Hbase Hb "" eq_refl).
    change (key_segs (NormalizePath "")) with (@nil string). rewrite app_nil_r, segs_of_path by done.
    unfold os_Remove. rewrite (stat_lookup _ _ _ Hw Hd). destruct (decide (b = [])); [done|]. by rewrite He.
  - intros Hq Hf Heq. assert (os_Stat fs (place b q) = Err ENOTDIR) as Hs.
    { rewrite Heq. apply (resolve_under fs [] _ x rest c t Hw); [|done]. intros Hn. by rewrite Hn, (proj1 Hw) in Hf. }
    assert (fullPath l q = Ok (path_string (place b q))) as Hfp by by apply fullPath_ok.
    pose proof (place_plain b Hb q Hq) as Hpl. unfold Local_Exists, Local_Head.
    rewrite Hfp. cbn [result_bind]. rewrite segs_of_path, Hs by done. done.
Qed.

Lemma root_and_under_witness :
  wf_fs srv_fs /\ Local_Delete None srv srv_fs "" = (delete ["srv"] srv_fs, None) /\
  Local_Exists None srv (<[["srv"; "a"] := NFile "data" 3]> srv_fs) "a/b" = Err ErrOS.
Proof.
  assert (wf_fs srv_fs) as Hw by (apply wf_fs_b_spec; vm_compute; reflexivity). split; [exact Hw|]. split.
  - destruct (root_and_under srv ["srv"] srv_fs "a" "a/b" "b" [] "data" 3 eq_refl srv_plain Hw) as [H _]. apply H; [done|vm_compute; reflexivity..].
  - assert (wf_fs (<[["srv"; "a"] := NFile "data" 3]> srv_fs)) as Hw' by (apply wf_fs_b_spec; vm_compute; reflexivity).
    destruct (root_and_under srv ["srv"] _ "a" "a/b" "b" [] "data" 3 eq_refl srv_plain Hw') as [_ H].
    apply H; vm_compute; reflexivity.
Defined.
