(* ===== verification/Sse.v ===== *)
(** * Server-sent events ([pantry/sse/sse.go])

    Events and their format, the stream to one client and the loops that serve it.
    What the client makes of the bytes is the interpretation of an event stream in
    the HTML standard, written here by itself: the format is judged against it.
    Encoding a value as JSON is left to the caller. *)

From S2P Require Import Prelude GoStrings.
#[local] Open Scope list_scope.

Definition LF : ascii := byte_of_code 10.
Definition CR : ascii := byte_of_code 13.
Definition line (s : string) : string := s +:+ String LF "".

(** ** Events *)

Record Event := mkEvent {
  ID : string;
  EventType : string;
  Data : string;
  Retry : Z
}.

Definition NewEvent (data : string) : Event := mkEvent "" "" data 0.
Definition NewEventWithType (eventType data : string) : Event := mkEvent "" eventType data 0.
Definition NewJSONEvent (eventType : string) (marshalled : option string) : option Event :=
  match marshalled with Some data => Some (mkEvent "" eventType data 0) | None => None end.
Definition WithID (e : Event) (id : string) : Event := mkEvent id (EventType e) (Data e) (Retry e).
Definition WithRetry (e : Event) (ms : Z) : Event := mkEvent (ID e) (EventType e) (Data e) ms.

Definition data_lines (data : string) : string :=
  String.concat "" (map (fun l => line ("data: " +:+ l)) (split_byte LF data)).

Definition Bytes (e : Event) : string :=
  (if String.eqb (ID e) "" then "" else line ("id: " +:+ ID e)) +:+
  (if String.eqb (EventType e) "" then "" else line ("event: " +:+ EventType e)) +:+
  (if 0 <? Retry e then line ("retry: " +:+ Itoa (Retry e)) else "") +:+
  (if String.eqb (Data e) "" then "" else data_lines (Data e)) +:+
  String LF "".

(** ** The stream *)

Inductive sse_error := ErrFlushNotSupported | ErrStreamClosed | ErrWrite | ErrCanceled.

(** [written] is what the network has taken; [done_closed] says that the channel
    [done] is closed. *)
Record Stream := mkStream {
  written : string;
  closed : bool;
  done_closed : bool;
  LastEventID : string
}.

Definition sse_headers : list (string * string) :=
  [("Content-Type", "text/event-stream"); ("Cache-Control", "no-cache"); ("Connection", "keep-alive"); ("X-Accel-Buffering", "no")].

(** [flusher] says whether the response writer can flush. *)
Definition NewStream (flusher : bool) (lastEventID : string) : result sse_error Stream :=
  if flusher then Ok (mkStream "" false false lastEventID) else Err ErrFlushNotSupported.

(** What the network answers to a write: [None] when it takes all the bytes, and
    otherwise how many of them it took before the error. *)
Abbreviation outcome := (option nat) (only parsing).

Definition taken (t : outcome) (bytes : string) : string :=
  match t with None => bytes | Some n => str_take n bytes end.

(** A write and its flush. *)
Definition write (s : Stream) (t : outcome) (bytes : string) : Stream * option sse_error :=
  if closed s then (s, Some ErrStreamClosed)
  else (mkStream (written s +:+ taken t bytes) (closed s) (done_closed s) (LastEventID s),
        match t with None => None | Some _ => Some ErrWrite end).

Definition Send (s : Stream) (t : outcome) (e : Event) := write s t (Bytes e).
Definition SendData (s : Stream) (t : outcome) (data : string) := Send s t (NewEvent data).
Definition SendEvent (s : Stream) (t : outcome) (eventType data : string) := Send s t (NewEventWithType eventType data).
Definition SendComment (s : Stream) (t : outcome) (comment : string) := write s t (line (": " +:+ comment) +:+ String LF "").
Definition SendRetry (s : Stream) (t : outcome) (ms : Z) := write s t (line ("retry: " +:+ Itoa ms) +:+ String LF "").

Definition Close (s : Stream) : Stream :=
  if closed s then s else mkStream (written s) true true (LastEventID s).
Definition IsClosed (s : Stream) : bool := closed s.

(** ** Serving *)

Record Config := mkConfig { KeepAliveInterval : Duration; RetryInterval : Duration }.
Definition DefaultConfig : Config := mkConfig (30 * Second) (3 * Second).

(** The case that [select] takes; an event or a tick comes with what the network
    answers to the write. *)
Inductive choice :=
| CtxDone
| Received (e : Event) (t : outcome)
| EventsClosed
| Tick (t : outcome).

(** The loop; [None] is a loop that still waits. *)
Fixpoint serve_loop (s : Stream) (cs : list choice) : Stream * option (option sse_error) :=
  match cs with
  | [] => (s, None)
  | CtxDone :: _ => (s, Some (Some ErrCanceled))
  | EventsClosed :: _ => (s, Some None)
  | Received e t :: cs =>
      match Send s t e with
      | (s, Some err) => (s, Some (Some err))
      | (s, None) => serve_loop s cs
      end
  | Tick t :: cs =>
      match SendComment s t "keep-alive" with
      | (s, Some err) => (s, Some (Some err))
      | (s, None) => serve_loop s cs
      end
  end.

Definition initial_retry (cfg : Config) (s : Stream) (t : outcome) : Stream :=
  if 0 <? RetryInterval cfg then fst (SendRetry s t (RetryInterval cfg / Millisecond)) else s.

(** [Serve]; the stream is closed when the loop is left. *)
Definition Serve (cfg : Config) (s : Stream) (retry : outcome) (cs : list choice) : Stream * option (option sse_error) :=
  let s := initial_retry cfg s retry in
  let cs := if 0 <? KeepAliveInterval cfg then cs else List.filter (fun c => match c with Tick _ => false | _ => true end) cs in
  match serve_loop s cs with
  | (s, None) => (s, None)
  | (s, Some err) => (Close s, Some err)
  end.

(** [ServeFunc]: what the function sends, whose errors it gets, and between that
    the ticks of the other goroutine, which stops at its first error. *)
Fixpoint serve_func_loop (s : Stream) (ticking : bool) (cs : list (Event * outcome + outcome)) : Stream * list (option sse_error) :=
  match cs with
  | [] => (s, [])
  | inl (e, t) :: cs =>
      let '(s, err) := Send s t e in
      let '(s, errs) := serve_func_loop s ticking cs in (s, err :: errs)
  | inr t :: cs =>
      if ticking then
        let '(s, err) := SendComment s t "keep-alive" in
        serve_func_loop s (match err with None => true | Some _ => false end) cs
      else serve_func_loop s ticking cs
  end.

Definition ServeFunc (cfg : Config) (s : Stream) (retry : outcome) (cs : list (Event * outcome + outcome)) : Stream * list (option sse_error) :=
  let '(s, errs) := serve_func_loop (initial_retry cfg s retry) (0 <? KeepAliveInterval cfg) cs in
  (Close s, errs).

(** ** The client

    The fields and buffers of an [EventSource] and the processing of its stream,
    a byte at a time; [k_cr] says that the last byte was a carriage return. *)

Record message := mkMessage { m_type : string; m_data : string; m_lastEventID : string }.

Record client := mkClient {
  k_line : string;
  k_cr : bool;
  k_data : string;
  k_type : string;
  k_id : string;
  k_retry : option Z;
  k_messages : list message
}.

Definition new_client : client := mkClient "" false "" "" "" None [].

(** The trailing line feed of the data buffer is dropped. *)
Definition dispatch (c : client) : client :=
  mkClient "" (k_cr c) "" "" (k_id c) (k_retry c)
    (if String.eqb (k_data c) "" then k_messages c
     else k_messages c ++
       [mkMessage (if String.eqb (k_type c) "" then "message" else k_type c)
          (str_take (String.length (k_data c) - 1) (k_data c)) (k_id c)]).

Definition process_field (c : client) (name value : string) : client :=
  if String.eqb name "event" then mkClient "" (k_cr c) (k_data c) value (k_id c) (k_retry c) (k_messages c)
  else if String.eqb name "data" then mkClient "" (k_cr c) (k_data c +:+ value +:+ String LF "") (k_type c) (k_id c) (k_retry c) (k_messages c)
  else if String.eqb name "id" then
    mkClient "" (k_cr c) (k_data c) (k_type c) (if string_has Ascii.zero value then k_id c else value) (k_retry c) (k_messages c)
  else if String.eqb name "retry" then
    mkClient "" (k_cr c) (k_data c) (k_type c) (k_id c)
      (match value with "" => k_retry c | _ => match parse_digits value 0 with Some n => Some n | None => k_retry c end end) (k_messages c)
  else mkClient "" (k_cr c) (k_data c) (k_type c) (k_id c) (k_retry c) (k_messages c).

Definition process_line (c : client) : client :=
  match k_line c with
  | "" => dispatch c
  | l =>
      match cut_byte ":" l with
      | Some ("", _) => mkClient "" (k_cr c) (k_data c) (k_type c) (k_id c) (k_retry c) (k_messages c)
      | Some (name, value) => process_field c name (TrimPrefix value " ")
      | None => process_field c l ""
      end
  end.

Definition set_cr (c : client) (cr : bool) : client := mkClient (k_line c) cr (k_data c) (k_type c) (k_id c) (k_retry c) (k_messages c).
Definition add_byte (c : client) (b : ascii) : client :=
  mkClient (k_line c +:+ String b "") false (k_data c) (k_type c) (k_id c) (k_retry c) (k_messages c).

Definition feed_byte (c : client) (b : ascii) : client :=
  if Ascii.eqb b LF then (if k_cr c then set_cr c false else process_line c)
  else if Ascii.eqb b CR then set_cr (process_line (set_cr c false)) true
  else add_byte c b.

Fixpoint feed (c : client) (s : string) : client :=
  match s with
  | "" => c
  | String b s => feed (feed_byte c b) s
  end.

(** ** Reading lines *)

Definition plain_text (s : string) : bool := negb (string_has LF s || string_has CR s).

Lemma feed_app c s t : feed c (s +:+ t) = feed (feed c s) t.
Proof. revert c. induction s as [|b s IH]; intros c; [done|]. apply IH. Qed.

Definition set_line (c : client) (s : string) : client := mkClient s (k_cr c) (k_data c) (k_type c) (k_id c) (k_retry c) (k_messages c).

Lemma feed_plain c s : plain_text s = true -> k_cr c = false -> feed c s = set_line c (k_line c +:+ s).
Proof.
  revert c. induction s as [|b s IH]; intros c Hs Hc; cbn [feed].
  - rewrite string_app_nil_r. by destruct c.
  - unfold plain_text in Hs. cbn [string_has] in Hs. apply negb_true_iff, orb_false_iff in Hs as [[Hl Hs]%orb_false_iff [Hr Hs']%orb_false_iff].
    unfold feed_byte. rewrite Hl, Hr. rewrite IH; [|unfold plain_text; by rewrite Hs, Hs'|done].
    unfold set_line, add_byte. cbn. rewrite Hc. by rewrite <- string_app_assoc.
Qed.

Lemma feed_line c s : plain_text s = true -> k_line c = "" -> k_cr c = false -> feed c (line s) = process_line (set_line c s).
Proof.
  intros Hs Hl Hc. unfold line. rewrite feed_app, (feed_plain c s) by done. cbn [feed]. unfold feed_byte.
  change (Ascii.eqb LF LF) with true. cbv iota. unfold set_line at 1. cbn [k_cr]. rewrite Hc. by rewrite Hl.
Qed.

(** Between two messages nothing is pending but the last ID. *)
Definition between (c : client) : Prop := k_line c = "" /\ k_cr c = false /\ k_data c = "" /\ k_type c = "".

(** In the fields of a message no line is pending. *)
Definition at_line (c : client) : Prop := k_line c = "" /\ k_cr c = false.

Lemma plain_app s t : plain_text (s +:+ t) = plain_text s && plain_text t.
Proof.
  unfold plain_text. rewrite !string_has_app. by destruct (string_has LF s), (string_has CR s), (string_has LF t), (string_has CR t).
Qed.

Ltac at_line_field :=
  intros [Hl Hc] ?; rewrite feed_line by (rewrite ?plain_app; done);
  unfold process_line, set_line; cbn; unfold TrimPrefix; cbn; try done.

Lemma feed_id c v : at_line c -> plain_text v = true -> string_has Ascii.zero v = false ->
  feed c (line ("id: " +:+ v)) = mkClient "" false (k_data c) (k_type c) v (k_retry c) (k_messages c).
Proof. intros Hat Hv Hz. revert Hat Hv. at_line_field. unfold process_field. cbn. by rewrite Hz, Hc. Qed.

Lemma feed_event c v : at_line c -> plain_text v = true ->
  feed c (line ("event: " +:+ v)) = mkClient "" false (k_data c) v (k_id c) (k_retry c) (k_messages c).
Proof. at_line_field. unfold process_field. cbn. by rewrite Hc. Qed.

Lemma feed_data c v : at_line c -> plain_text v = true ->
  feed c (line ("data: " +:+ v)) = mkClient "" false (k_data c +:+ v +:+ String LF "") (k_type c) (k_id c) (k_retry c) (k_messages c).
Proof. at_line_field. unfold process_field. cbn. by rewrite Hc. Qed.

Lemma Itoa_plain z : 0 <= z -> plain_text (Itoa z) = true.
Proof. intros Hz. unfold plain_text. by rewrite !Itoa_has. Qed.

Lemma Itoa_read_back z : 0 <= z -> exists b s, Itoa z = String b s /\ parse_digits (Itoa z) 0 = Some z.
Proof.
  intros Hz. destruct (Itoa_head z Hz) as (b & s & Hb & _). exists b, s. split; [done|].
  unfold Itoa. replace (z <? 0) with false by lia. rewrite Z.abs_eq by done. by rewrite (parse_digits_of _ _ "" (Itoa_fuel z Hz)).
Qed.

Lemma feed_retry c z : at_line c -> 0 <= z ->
  feed c (line ("retry: " +:+ Itoa z)) = mkClient "" false (k_data c) (k_type c) (k_id c) (Some z) (k_messages c).
Proof.
  intros Hat Hz. pose proof (Itoa_plain z Hz) as Hp. destruct (Itoa_read_back z Hz) as (b & s & Hb & Hd). revert Hat Hp. at_line_field.
  unfold process_field. cbn. rewrite Hd, Hc. by rewrite Hb.
Qed.

Lemma feed_comment c v : at_line c -> plain_text v = true ->
  feed c (line (": " +:+ v)) = mkClient "" false (k_data c) (k_type c) (k_id c) (k_retry c) (k_messages c).
Proof. at_line_field. by rewrite Hc. Qed.

Lemma feed_blank c : at_line c -> feed c (String LF "") = dispatch c.
Proof. intros [Hl Hc]. cbn [feed]. unfold feed_byte. change (Ascii.eqb LF LF) with true. cbv iota. by rewrite Hc; unfold process_line; rewrite Hl. Qed.

Lemma feed_data_lines ps c : at_line c -> Forall (fun p => plain_text p = true) ps ->
  feed c (String.concat "" (map (fun l => line ("data: " +:+ l)) ps)) =
  mkClient "" false (k_data c +:+ String.concat "" (map line ps)) (k_type c) (k_id c) (k_retry c) (k_messages c).
Proof.
  intros Hat Hps. revert c Hat. induction Hps as [|p ps Hp Hps IH]; intros c Hat.
  - destruct Hat as [Hl Hc]. cbn. rewrite string_app_nil_r. destruct c; cbn in *; by subst.
  - assert (forall x xs, String.concat "" (x :: xs) = x +:+ String.concat "" xs) as Hcons
      by (intros x [|y xs]; cbn; [by rewrite string_app_nil_r|done]).
    cbn [map]. rewrite !Hcons, feed_app, feed_data by done. rewrite IH by done. cbn [k_data k_type k_id k_retry k_messages].
    unfold line at 2. by rewrite !string_app_assoc.
Qed.

Lemma lines_back d : String.concat "" (map line (split_byte LF d)) = line d.
Proof.
  revert d. apply (split_byte_ind LF (fun d => String.concat "" (map line (split_byte LF d)) = line d)).
  - intros s Hs. by rewrite split_byte_none.
  - intros a b Ha IH. rewrite split_byte_app by done. cbn [map].
    destruct (split_byte LF b) as [|w ws] eqn:Hb; [by destruct b; cbn in Hb; repeat case_match|].
    change (String.concat "" (line a :: map line (w :: ws))) with (line a +:+ String.concat "" (map line (w :: ws))).
    rewrite IH. unfold line. by rewrite <- !string_app_assoc.
Qed.

(** ** What a message gives *)

(** Fields without line breaks; the data without carriage returns; an ID without
    the zero byte. *)
Definition plain_event (e : Event) : bool :=
  plain_text (ID e) && negb (string_has Ascii.zero (ID e)) && plain_text (EventType e) && negb (string_has CR (Data e)).

(** The client after an event: nothing is dispatched without data. *)
Definition receive (c : client) (e : Event) : client :=
  let id := if String.eqb (ID e) "" then k_id c else ID e in
  mkClient "" false "" "" id (if 0 <? Retry e then Some (Retry e) else k_retry c)
    (if String.eqb (Data e) "" then k_messages c
     else k_messages c ++ [mkMessage (if String.eqb (EventType e) "" then "message" else EventType e) (Data e) id]).

Lemma plain_pieces_text d : string_has CR d = false -> Forall (fun p => plain_text p = true) (split_byte LF d).
Proof.
  revert d. apply (split_byte_ind LF (fun d => string_has CR d = false -> Forall (fun p => plain_text p = true) (split_byte LF d))).
  - intros s Hs Hc. rewrite split_byte_none by done. repeat constructor. unfold plain_text. by rewrite Hs, Hc.
  - intros a b Ha IH. rewrite string_has_app. cbn [string_has]. intros [Hca Hcb]%orb_false_iff. rewrite split_byte_app by done.
    constructor; [unfold plain_text; by rewrite Ha, Hca|by apply IH].
Qed.

Lemma dispatch_line cr d t id r ms :
  dispatch (mkClient "" cr (line d) t id r ms) =
  mkClient "" cr "" "" id r (ms ++ [mkMessage (if String.eqb t "" then "message" else t) d id]).
Proof.
  unfold dispatch, line. cbn [k_data k_cr k_type k_id k_retry k_messages].
  rewrite string_length_app. cbn [String.length]. replace (String.length d + 1 - 1)%nat with (String.length d) by lia.
  rewrite str_take_app. by destruct d.
Qed.

Lemma feed_Bytes c e : between c -> plain_event e = true -> feed c (Bytes e) = receive c e.
Proof.
  intros (Hl & Hc & Hd & Ht) He. unfold plain_event in He.
  apply andb_true_iff in He as [[[Hid Hz]%andb_true_iff Hty]%andb_true_iff Hdata]. apply negb_true_iff in Hz, Hdata.
  unfold Bytes. rewrite !feed_app.
  assert (forall c0 k v (f : client), at_line c0 -> (v <> "" -> feed c0 (line (k +:+ v)) = f) ->
    feed c0 (if String.eqb v "" then "" else line (k +:+ v)) = if String.eqb v "" then c0 else f) as Hopt.
  { intros c0 k v f H0 Hf. destruct (String.eqb v "") eqn:Hv; [done|]. apply Hf. by apply String.eqb_neq. }
  set (id := if String.eqb (ID e) "" then k_id c else ID e).
  assert (feed c (if String.eqb (ID e) "" then "" else line ("id: " +:+ ID e)) = mkClient "" false "" "" id (k_retry c) (k_messages c)) as ->.
  { unfold id. destruct (String.eqb (ID e) ""); [destruct c; cbn in *; by subst|]. by rewrite feed_id, Hd, Ht. }
  assert (forall t, feed (mkClient "" false "" "" id (k_retry c) (k_messages c)) (if String.eqb t "" then "" else line ("event: " +:+ t)) =
    if plain_text t then mkClient "" false "" t id (k_retry c) (k_messages c) else feed (mkClient "" false "" "" id (k_retry c) (k_messages c)) (if String.eqb t "" then "" else line ("event: " +:+ t))) as ->.
  { intros t. destruct (plain_text t) eqn:Hpt; [|done]. destruct (String.eqb t "") eqn:He; [by apply String.eqb_eq in He as ->|]. by rewrite feed_event. }
  rewrite Hty. set (c2 := mkClient "" false "" (EventType e) id (k_retry c) (k_messages c)).
  assert (feed c2 (if 0 <? Retry e then line ("retry: " +:+ Itoa (Retry e)) else "") =
    mkClient "" false "" (EventType e) id (if 0 <? Retry e then Some (Retry e) else k_retry c) (k_messages c)) as ->.
  { destruct (0 <? Retry e) eqn:Hr; [|done]. by rewrite feed_retry by (done || lia). }
  unfold receive. fold id. destruct (String.eqb (Data e) "") eqn:He.
  - change (feed ?x "") with x. by rewrite feed_blank.
  - unfold data_lines. rewrite feed_data_lines by (done || by apply plain_pieces_text). cbn [k_data k_type k_id k_retry k_messages].
    rewrite lines_back. change ("" +:+ line (Data e)) with (line (Data e)). rewrite feed_blank by done.
    by rewrite dispatch_line.
Qed.

(** ** Serving a client *)

Lemma receive_between c e : between (receive c e).
Proof. done. Qed.

Lemma feed_keep_alive c v : between c -> plain_text v = true -> feed c (line (": " +:+ v) +:+ String LF "") = c.
Proof.
  intros (Hl & Hc & Hd & Ht) Hv. rewrite feed_app, feed_comment, feed_blank by done. unfold dispatch. cbn. rewrite Hd. cbn.
  destruct c; cbn in *; by subst.
Qed.

Definition set_retry (c : client) (r : Z) : client := mkClient (k_line c) (k_cr c) (k_data c) (k_type c) (k_id c) (Some r) (k_messages c).

Lemma feed_retry_message c r : between c -> 0 <= r -> feed c (line ("retry: " +:+ Itoa r) +:+ String LF "") = set_retry c r.
Proof.
  intros (Hl & Hc & Hd & Ht) Hr. rewrite feed_app, feed_retry, feed_blank by done. unfold dispatch, set_retry. cbn. rewrite Hd. cbn.
  by rewrite Hl, Hc, Ht.
Qed.

Definition plain_choice (c : choice) : bool := match c with Received e _ => plain_event e | _ => true end.

(** The events of which the network took all the bytes before the loop is left. *)
Fixpoint sent (cs : list choice) : list Event :=
  match cs with
  | Received e None :: cs => e :: sent cs
  | Received e (Some n) :: _ => if (String.length (Bytes e) <=? n)%nat then [e] else []
  | Tick None :: cs => sent cs
  | _ => []
  end.

(** *** Writes that stop half-way *)

Lemma process_line_messages c : k_line c <> "" -> k_messages (process_line c) = k_messages c.
Proof.
  intros Hl. unfold process_line. destruct (k_line c) as [|b l] eqn:E; [done|]. rewrite <- E. clear E.
  assert (forall name v, k_messages (process_field c name v) = k_messages c) as Hf
    by (intros; unfold process_field; repeat case_match; done).
  destruct (cut_byte ":" (k_line c)) as [[[|n name] v]|]; [done|apply Hf|apply Hf].
Qed.

(** Lines that are neither empty nor broken. *)
Definition full_lines (ls : list string) : Prop := Forall (fun l => l <> "" /\ plain_text l = true) ls.
Definition text_of (ls : list string) : string := String.concat "" (map line ls).

Lemma text_of_cons l ls : text_of (l :: ls) = line l +:+ text_of ls.
Proof. destruct ls; [by rewrite string_app_nil_r|done]. Qed.

Lemma plain_take n s : plain_text s = true -> plain_text (str_take n s) = true.
Proof.
  rewrite <- (str_take_drop n s) at 1. rewrite plain_app. by intros [? _]%andb_prop.
Qed.

Lemma feed_line_messages c l : at_line c -> l <> "" -> plain_text l = true ->
  at_line (feed c (line l)) /\ k_messages (feed c (line l)) = k_messages c.
Proof.
  intros [Hl Hc] Hne Hp. rewrite feed_line by done. split.
  - unfold process_line, set_line. cbn [k_line]. destruct l as [|b l]; [done|].
    destruct (cut_byte ":" (String b l)) as [[[|n name] v]|]; [by split| |];
      unfold process_field; repeat case_match; by split.
  - by rewrite process_line_messages.
Qed.

Lemma str_take_app_split n a b : str_take n (a +:+ b) = str_take n a +:+ str_take (n - String.length a) b.
Proof. revert n. induction a as [|x a IH]; intros [|n]; cbn; [done|done| |by rewrite IH]. by destruct b. Qed.

(** Of some lines and the blank one after them, a part that leaves out the last
    byte dispatches nothing. *)
Lemma feed_part ls n : full_lines ls -> (n <= String.length (text_of ls))%nat -> forall c, at_line c ->
  k_messages (feed c (str_take n (text_of ls))) = k_messages c.
Proof.
  intros Hls. revert n. induction Hls as [|l ls [Hne Hp] Hls IH]; intros n Hn c Hc; [by destruct n|].
  rewrite text_of_cons in *. rewrite str_take_app_split. destruct (Nat.le_gt_cases n (String.length l)) as [Hnl|Hnl].
  - assert (String.length (line l) = S (String.length l)) as Hll by (unfold line; rewrite string_length_app; cbn; lia).
    replace (n - String.length (line l))%nat with 0%nat by lia.
    replace (str_take 0 (text_of ls)) with "" by by destruct (text_of ls).
    rewrite string_app_nil_r. unfold line. rewrite str_take_app_split.
    replace (n - String.length l)%nat with 0%nat by lia. change (str_take 0 (String LF "")) with "". rewrite string_app_nil_r.
    destruct Hc as [Hkl Hcr]. by rewrite feed_plain by (by apply plain_take || done).
  - assert (String.length (line l) = S (String.length l)) as Hll by (unfold line; rewrite string_length_app; cbn; lia).
    rewrite string_length_app in Hn. rewrite (str_take_all n (line l)) by lia. rewrite feed_app.
    destruct (feed_line_messages c l Hc Hne Hp) as [Hat Hm]. by rewrite IH, Hm by (done || lia).
Qed.

Lemma feed_taken ls n c : full_lines ls -> at_line c -> (n < String.length (text_of ls +:+ String LF ""))%nat ->
  k_messages (feed c (str_take n (text_of ls +:+ String LF ""))) = k_messages c.
Proof.
  intros Hls Hc Hn. rewrite string_length_app in Hn. cbn [String.length] in Hn. rewrite str_take_app_split.
  replace (n - String.length (text_of ls))%nat with 0%nat by lia. change (str_take 0 (String LF "")) with "".
  rewrite string_app_nil_r. apply feed_part; [done|lia|done].
Qed.

(** The lines of an event. *)
Definition fields (e : Event) : list string :=
  (if String.eqb (ID e) "" then [] else ["id: " +:+ ID e]) ++
  (if String.eqb (EventType e) "" then [] else ["event: " +:+ EventType e]) ++
  (if 0 <? Retry e then ["retry: " +:+ Itoa (Retry e)] else []) ++
  (if String.eqb (Data e) "" then [] else map (fun l => "data: " +:+ l) (split_byte LF (Data e))).

Lemma text_of_app a b : text_of (a ++ b) = text_of a +:+ text_of b.
Proof. induction a as [|l a IH]; [done|]. cbn [app]. rewrite !text_of_cons, IH. by rewrite string_app_assoc. Qed.

Lemma Bytes_fields e : Bytes e = text_of (fields e) +:+ String LF "".
Proof.
  unfold Bytes, fields. rewrite !text_of_app, <- !string_app_assoc. repeat f_equal; try (case_match; done).
  destruct (String.eqb (Data e) ""); [done|]. unfold data_lines, text_of. by rewrite map_map.
Qed.

Lemma fields_full e : plain_event e = true -> full_lines (fields e).
Proof.
  intros He. unfold plain_event in He.
  apply andb_true_iff in He as [[[Hid _]%andb_true_iff Hty]%andb_true_iff Hdata]. apply negb_true_iff in Hdata.
  unfold full_lines, fields. rewrite !Forall_app. repeat split.
  - case_match; repeat constructor; [discriminate|]. by rewrite plain_app, Hid.
  - case_match; repeat constructor; [discriminate|]. by rewrite plain_app, Hty.
  - destruct (0 <? Retry e) eqn:Hr; repeat constructor; [discriminate|]. rewrite plain_app. apply Itoa_plain. lia.
  - case_match; [constructor|]. apply Forall_map. eapply Forall_impl; [|by apply plain_pieces_text].
    intros p Hp. cbn beta. split; [discriminate|]. by rewrite plain_app, Hp.
Qed.

Lemma serve_loop_read c cs : forall s,
  closed s = false -> between (feed c (written s)) -> forallb plain_choice cs = true ->
  let s' := (serve_loop s cs).1 in
  closed s' = false /\ k_messages (feed c (written s')) = k_messages (foldl receive (feed c (written s)) (sent cs)).
Proof.
  induction cs as [|x cs IH]; intros s Hs Hb Hp; cbn zeta; [done|]. cbn [forallb] in Hp. apply andb_true_iff in Hp as [Hx Hp].
  destruct x as [|e [n|]| |[n|]]; cbn [serve_loop sent foldl]; unfold Send, SendComment, write; rewrite ?Hs; try done.
  - cbn [fst closed written taken]. split; [done|]. rewrite feed_app. cbn [plain_choice] in Hx.
    destruct (Nat.leb_spec (String.length (Bytes e)) n) as [Hn|Hn].
    + rewrite str_take_all by done. cbn [foldl]. by rewrite feed_Bytes.
    + cbn [foldl]. rewrite Bytes_fields in *. apply feed_taken; [by apply fields_full|by destruct Hb as (? & ? & _)|done].
  - set (s1 := mkStream _ _ _ _).
    assert (feed c (written s1) = receive (feed c (written s)) e) as Hf by (cbn; rewrite feed_app; by apply feed_Bytes).
    specialize (IH s1). cbn zeta in IH. rewrite Hf in IH. by apply IH.
  - cbn [fst closed written taken]. split; [done|]. rewrite feed_app. cbn [foldl].
    change (line (": " +:+ "keep-alive") +:+ String LF "") with (text_of [": keep-alive"] +:+ String LF "").
    destruct (Nat.lt_ge_cases n (String.length (text_of [": keep-alive"] +:+ String LF ""))) as [Hn|Hn].
    + apply feed_taken; [by repeat constructor|by destruct Hb as (? & ? & _)|done].
    + rewrite str_take_all by done. f_equal. by apply (feed_keep_alive _ "keep-alive").
  - set (s1 := mkStream _ _ _ _).
    assert (feed c (written s1) = feed c (written s)) as Hf by (cbn [written s1 taken]; rewrite feed_app; by apply (feed_keep_alive _ "keep-alive")).
    specialize (IH s1). cbn zeta in IH. rewrite Hf in IH. by apply IH.
Qed.

(** The keep-alive cases that can be taken. *)
Definition cases (cfg : Config) (cs : list choice) : list choice :=
  if 0 <? KeepAliveInterval cfg then cs else List.filter (fun c => match c with Tick _ => false | _ => true end) cs.

(** The messages of the events, each with the last ID that is not empty. *)
Fixpoint messages_of (id : string) (es : list Event) : list message :=
  match es with
  | [] => []
  | e :: es =>
      let id := if String.eqb (ID e) "" then id else ID e in
      (if String.eqb (Data e) "" then [] else [mkMessage (if String.eqb (EventType e) "" then "message" else EventType e) (Data e) id])
      ++ messages_of id es
  end.

Lemma receive_messages es : forall c, k_messages (foldl receive c es) = k_messages c ++ messages_of (k_id c) es.
Proof.
  induction es as [|e es IH]; intros c; cbn [foldl messages_of]; [by rewrite app_nil_r|].
  rewrite IH. cbn [receive k_messages k_id]. destruct (String.eqb (Data e) ""); [done|]. by rewrite <- app_assoc.
Qed.

(** A network that did not take the retry interval takes nothing any more. *)
Definition stays_failed (retry : outcome) (cs : list choice) : bool :=
  match retry with
  | None => true
  | Some _ => forallb (fun c => match c with
                                | Received _ (Some O) | Tick (Some O) | CtxDone | EventsClosed => true
                                | _ => false
                                end) cs
  end.

Lemma conn_failed s cs :
  closed s = false -> stays_failed (Some 0%nat) cs = true ->
  closed (serve_loop s cs).1 = false /\ written (serve_loop s cs).1 = written s /\ sent cs = [].
Proof.
  intros Hs Hc. destruct cs as [|[|e [[|n]|]| |[[|n]|]] cs]; try done;
    cbn [serve_loop sent]; unfold Send, SendComment, write; rewrite Hs; cbn [fst closed written taken].
  - rewrite string_app_nil_r. split; [done|]. split; [done|].
    destruct (Nat.leb_spec (String.length (Bytes e)) 0) as [H|H]; [|done].
    rewrite Bytes_fields, string_length_app in H. cbn in H. lia.
  - by rewrite string_app_nil_r.
Qed.

Lemma initial_retry_closed cfg s t : closed s = false -> closed (initial_retry cfg s t) = false.
Proof. intros Hs. unfold initial_retry, SendRetry, write. rewrite Hs. by destruct (0 <? _). Qed.

(** What the retry interval leaves in the client: no message and no ID; and, when
    it was taken, nothing pending. *)
Lemma initial_retry_read cfg last t :
  let c := feed new_client (written (initial_retry cfg (mkStream "" false false last) t)) in
  k_messages c = [] /\ (t = None -> between c /\ k_id c = "").
Proof.
  cbn zeta. unfold initial_retry. destruct (0 <? RetryInterval cfg) eqn:Hr; [|done].
  set (r := RetryInterval cfg / Millisecond). assert (0 <= r) as Hr0 by (apply Z.div_pos; unfold Millisecond; lia).
  unfold SendRetry, write. cbn [closed fst written]. change ("" +:+ ?x) with x.
  destruct t as [n|]; cbn [taken].
  - split; [|done].
    change (line ("retry: " +:+ Itoa r) +:+ String LF "") with (text_of ["retry: " +:+ Itoa r] +:+ String LF "").
    destruct (Nat.lt_ge_cases n (String.length (text_of ["retry: " +:+ Itoa r] +:+ String LF ""))) as [Hn|Hn].
    + apply (feed_taken [_]); [|done|done]. repeat constructor; [discriminate|]. rewrite plain_app. by apply Itoa_plain.
    + rewrite str_take_all by done. change (text_of ["retry: " +:+ Itoa r]) with (line ("retry: " +:+ Itoa r)).
      by rewrite feed_retry_message.
  - by rewrite feed_retry_message.
Qed.

(** C36. What a client reads: of any run of [Serve] on a new stream, whatever the
    select takes, after how many bytes the network fails and however many
    keep-alives and retry intervals are between, the client receives the events of
    which the network took all the bytes before the end, those without data left
    out (they are written, and no client dispatches them), in order and once each,
    with their types, their data to the byte and the last ID; of an event cut off
    in the middle it receives nothing.  It holds for events whose ID and type have
    no line breaks, whose ID has no zero byte and whose data has no carriage
    return, and for a network that takes nothing more once it failed to take the
    retry interval, the error of which [Serve] drops.  A run that ends leaves the
    stream closed. *)
Theorem Serve_delivers cfg last retry cs s :
  NewStream true last = Ok s -> forallb plain_choice cs = true -> stays_failed retry cs = true ->
  let '(s', r) := Serve cfg s retry cs in
  k_messages (feed new_client (written s')) = messages_of "" (sent (cases cfg cs)) /\
  match r with Some _ => closed s' = true /\ done_closed s' = true | None => closed s' = false end.
Proof.
  intros [= <-] Hp Hf. unfold Serve. fold (cases cfg cs). set (s0 := initial_retry cfg _ retry).
  destruct (initial_retry_read cfg last retry) as [Hm Hok]. fold s0 in Hm, Hok.
  assert (closed s0 = false) as Hs by by apply initial_retry_closed.
  assert (Hsub : forall f, forallb f cs = true -> forallb f (cases cfg cs) = true).
  { intros f H. unfold cases. destruct (0 <? KeepAliveInterval cfg); [done|].
    rewrite forallb_forall in H |- *. intros x [Hx _]%filter_In. by apply H. }
  assert (closed (serve_loop s0 (cases cfg cs)).1 = false /\
    k_messages (feed new_client (written (serve_loop s0 (cases cfg cs)).1)) = messages_of "" (sent (cases cfg cs))) as [Hs' Hmsg].
  { destruct retry as [n|].
    - destruct (conn_failed s0 (cases cfg cs) Hs (Hsub _ Hf)) as (Hc & Hw & ->). by rewrite Hw.
    - destruct (Hok eq_refl) as [Hb Hid].
      destruct (serve_loop_read new_client (cases cfg cs) s0 Hs Hb (Hsub _ Hp)) as [Hc ->].
      by rewrite receive_messages, Hm, Hid. }
  destruct (serve_loop s0 (cases cfg cs)) as [s' [err|]]; cbn [fst] in *; [|done]. unfold Close. by rewrite Hs'.
Qed.

Lemma Serve_delivers_witness :
  let e := mkEvent "7" "" ("a" +:+ String LF "b") 0 in
  let cs := [Tick None; Received e None; Received (NewEventWithType "ping" "") None; Received (NewEvent "cut") (Some 10%nat)] in
  forallb plain_choice cs = true /\
  k_messages (feed new_client (written (Serve DefaultConfig (mkStream "" false false "") None cs).1))
  = [mkMessage "message" ("a" +:+ String LF "b") "7"].
Proof.
  cbv zeta. split; [reflexivity|].
  pose proof (Serve_delivers DefaultConfig "" None
    [Tick None; Received (mkEvent "7" "" ("a" +:+ String LF "b") 0) None; Received (NewEventWithType "ping" "") None;
     Received (NewEvent "cut") (Some 10%nat)] _ eq_refl eq_refl eq_refl) as H.
  destruct (Serve _ _ _ _) as [s' r]. destruct H as [H _]. exact H.
Defined.

(** [Serve] drops the error of the retry interval: when half of it was taken and the
    network goes on, the next event is read as part of that line, and lost. *)
Theorem half_retry_loses_event :
  let '(s, r) := Serve DefaultConfig (mkStream "" false false "") (Some 9%nat) [Received (NewEvent "hello") None; EventsClosed] in
  r = Some None /\ k_messages (feed new_client (written s)) = [].
Proof. vm_compute. split; reflexivity. Qed.

(** *** Lines that end in a carriage return *)

Definition pending (c : client) (s : string) : client := mkClient s false (k_data c) (k_type c) (k_id c) (k_retry c) (k_messages c).

Lemma feed_pending c s : plain_text s = true -> s <> "" -> k_line c = "" -> feed c s = pending c s.
Proof.
  intros Hs Hne Hl. destruct s as [|b s]; [done|]. cbn [feed]. unfold plain_text in Hs. cbn [string_has] in Hs.
  apply negb_true_iff, orb_false_iff in Hs as [[Hb Hs]%orb_false_iff [Hb' Hs']%orb_false_iff].
  unfold feed_byte. rewrite Hb, Hb'. rewrite feed_plain by (unfold plain_text; rewrite ?Hs, ?Hs'; done).
  unfold set_line, pending, add_byte. cbn. by rewrite Hl.
Qed.

Lemma feed_cr c s : feed c (String CR s) = feed (set_cr (process_line (set_cr c false)) true) s.
Proof. reflexivity. Qed.

Lemma process_field_line k name v c : plain_text v = true -> k = name +:+ ": " ->
  (name = "event" \/ name = "data") -> process_line (pending c (k +:+ v)) = process_field (pending c "") name v.
Proof. intros Hv -> [-> | ->]; reflexivity. Qed.

(** Two fields, each ended by a carriage return or a line feed. *)
Lemma feed_field c k name v x rest :
  plain_text v = true -> k = name +:+ ": " -> name = "event" \/ name = "data" -> k_line c = "" ->
  (x = LF \/ x = CR) ->
  feed c ((k +:+ v) +:+ String x rest) = feed (set_cr (process_field (pending c "") name v) (Ascii.eqb x CR)) rest.
Proof.
  intros Hv Hk Hn Hl Hx. rewrite feed_app, (feed_pending c (k +:+ v)); [|subst k; rewrite plain_app, Hv; by destruct Hn as [-> | ->]
    |subst k; by destruct Hn as [-> | ->]|done].
  destruct Hx as [-> | ->]; cbn [feed]; unfold feed_byte.
  - change (Ascii.eqb LF LF) with true. change (Ascii.eqb LF CR) with false. cbv iota. cbn [pending k_cr].
    fold (pending c (k +:+ v)). rewrite (process_field_line k name v c) by done. by destruct Hn as [-> | ->].
  - change (Ascii.eqb CR LF) with false. change (Ascii.eqb CR CR) with true. cbv iota. 
    change (set_cr (pending c (k +:+ v)) false) with (pending c (k +:+ v)). by rewrite (process_field_line k name v c).
Qed.

(** Nothing is escaped: a carriage return in the data, which [Bytes] takes for
    part of a line and the client for its end, and a line feed in the type, let who
    controls them send the client another event of any type with any data. *)
Theorem Bytes_injection d t v :
  plain_text d = true -> plain_text t = true -> plain_text v = true -> d <> "" -> t <> "" -> v <> "" ->
  k_messages (feed new_client (Bytes (NewEvent
    (d +:+ String CR (String CR ("event: " +:+ t +:+ String CR ("data: " +:+ v)))))))
  = [mkMessage "message" d ""; mkMessage t v ""] /\
  k_messages (feed new_client (Bytes (NewEventWithType (t +:+ String LF ("data: " +:+ v +:+ String LF "")) d)))
  = [mkMessage t v ""; mkMessage "message" d ""].
Proof.
  intros Hd Ht Hv Hdn Htn Hvn.
  assert (forall w, plain_text w = true -> string_has LF w = false) as Hlf by (intros w [? _]%negb_true_iff%orb_false_iff; done).
  assert (forall w, w <> "" -> String.eqb w "" = false) as Hne by (intros w; apply String.eqb_neq).
  split.
  - assert (Bytes (NewEvent (d +:+ String CR (String CR ("event: " +:+ t +:+ String CR ("data: " +:+ v))))) =
      ("data: " +:+ d) +:+ String CR (String CR (("event: " +:+ t) +:+ String CR (("data: " +:+ v) +:+ String LF (String LF ""))))) as ->.
    { unfold Bytes, NewEvent. cbn [ID EventType Retry Data String.eqb]. change (0 <? 0) with false. cbv iota.
      set (x := String CR (String CR _)).
      rewrite (Hne (d +:+ x)) by (intros Hx; by destruct d). unfold data_lines. rewrite split_byte_none.
      2:{ subst x. rewrite string_has_app, Hlf by done. cbn [orb string_has]. rewrite !string_has_app. cbn [string_has].
          rewrite string_has_app, (Hlf t), (Hlf v) by done. done. }
      cbn [map String.concat]. unfold line. subst x. cbn [String.append]. rewrite <- !string_app_assoc. cbn [String.append].
      by rewrite <- !string_app_assoc. }
    rewrite (feed_field _ _ "data") by auto. rewrite feed_cr, (feed_field _ _ "event") by auto.
    rewrite (feed_field _ _ "data") by auto. rewrite feed_blank by done.
    change (k_messages (dispatch (mkClient "" false (line v) t "" None (k_messages (dispatch (mkClient "" false (line d) "" "" None []))))) = [mkMessage "message" d ""; mkMessage t v ""]).
    rewrite !dispatch_line. by rewrite (Hne t).
  - assert (Bytes (NewEventWithType (t +:+ String LF ("data: " +:+ v +:+ String LF "")) d) =
      ("event: " +:+ t) +:+ String LF (("data: " +:+ v) +:+ String LF (String LF (("data: " +:+ d) +:+ String LF (String LF ""))))) as ->.
    { unfold Bytes, NewEventWithType. cbn [ID EventType Retry Data String.eqb]. change (0 <? 0) with false. cbv iota.
      rewrite (Hne (t +:+ _)) by (intros Hx; by destruct t). rewrite (Hne d) by done.
      unfold data_lines. rewrite split_byte_none by by apply Hlf. cbn [map String.concat]. unfold line. cbn [String.append].
      rewrite <- !string_app_assoc. cbn [String.append]. rewrite <- !string_app_assoc. cbn [String.append]. done. }
    rewrite (feed_field _ _ "event") by auto. rewrite (feed_field _ _ "data") by auto.
    change (String LF (?k +:+ ?r)) with (String LF "" +:+ (k +:+ r)). rewrite feed_app, feed_blank by done.
    rewrite (feed_field _ _ "data") by auto. rewrite feed_blank by done.
    change (k_messages (dispatch (mkClient "" false (line d) "" "" None (k_messages (dispatch (mkClient "" false (line v) t "" None []))))) = [mkMessage t v ""; mkMessage "message" d ""]).
    rewrite !dispatch_line. by rewrite (Hne t).
Qed.

Lemma Bytes_injection_witness :
  plain_text "news" = true /\
  k_messages (feed new_client (Bytes (NewEventWithType ("news" +:+ String LF ("data: " +:+ "forged" +:+ String LF "")) "hello")))
  = [mkMessage "news" "forged" ""; mkMessage "message" "hello" ""].
Proof. split; [reflexivity|]. by apply (Bytes_injection "hello" "news" "forged"). Defined.
