(* ===== verification/Broker.v ===== *)
(** * The broker of server-sent events ([pantry/sse/broker.go])

    Clients, channels and the broker, with their mutexes: the operations are
    programs of [Threads].  A client and a channel are addresses.  The Go channel of
    a client's events is a bounded queue with a flag for its closing; the loop of
    [runClient] is the operation of receiving once, for each case of its select.  A
    panic is recorded in the output: the goroutine, and a process without recovery,
    end there. *)

From S2P Require Import Prelude GoStrings Sse Threads.
#[local] Open Scope list_scope.

(** ** State *)

Record Client := mkClient {
  c_id : option string;
  c_events : list Event;
  c_events_closed : bool;
  c_data : gmap string string;
  c_channels : gmap string nat;
  c_done : bool;
  c_closed : bool
}.

Record Channel := mkChannel { ch_name : string; ch_clients : gset nat }.

Inductive output :=
| Connected (c : nat)
| Disconnected (c : nat)
(** what [Send] answers: taken into the buffer, or refused *)
| Accepted (c : nat) (e : Event)
| Refused (c : nat) (e : Event)
(** what [runClient] passes to [Send] of the stream, whether or not the stream
    takes it *)
| Delivered (c : nat) (e : Event)
| Panicked (c : nat).

Record Broker := mkBroker {
  clients : gset nat;
  channels : gmap string nat;
  broker_closed : bool;
  nextID : Z;
  bufferSize : nat;
  client_at : gmap nat Client;
  channel_at : gmap nat Channel;
  next : nat;
  out : list output
}.

Record BrokerConfig := mkBrokerConfig { cfg_KeepAlive : Duration; cfg_Retry : Duration; cfg_ClientBufferSize : Z }.
Definition DefaultBrokerConfig : BrokerConfig := mkBrokerConfig (30 * Second) (3 * Second) 256.

Definition NewBrokerWithConfig (cfg : BrokerConfig) : Broker :=
  mkBroker ∅ ∅ false 0 (Z.to_nat (if cfg_ClientBufferSize cfg <=? 0 then 256 else cfg_ClientBufferSize cfg)) ∅ ∅ 0 [].
Definition NewBroker : Broker := NewBrokerWithConfig DefaultBrokerConfig.

(** [formatClientID]: digits are written from the end of a buffer of 20 bytes, whose
    index is [i]; an index below zero panics ([None]). *)
Fixpoint format_loop (i : nat) (id : Z) (written : string) : option string :=
  if id <=? 0 then Some written
  else match i with
       | O => None
       | S i => format_loop i (id / 10) (String (digit_byte (id mod 10)) written)
       end.
Definition formatClientID (id : Z) : option string := if id =? 0 then Some "0" else format_loop 20 id "".

Definition wrap_uint64 (z : Z) : Z := z mod 18446744073709551616.

(** *** Fields *)

Definition set_clients (b : Broker) (cs : gset nat) : Broker :=
  mkBroker cs (channels b) (broker_closed b) (nextID b) (bufferSize b) (client_at b) (channel_at b) (next b) (out b).
Definition set_channels (b : Broker) (chs : gmap string nat) : Broker :=
  mkBroker (clients b) chs (broker_closed b) (nextID b) (bufferSize b) (client_at b) (channel_at b) (next b) (out b).
Definition emit (b : Broker) (o : output) : Broker :=
  mkBroker (clients b) (channels b) (broker_closed b) (nextID b) (bufferSize b) (client_at b) (channel_at b) (next b) (out b ++ [o]).
Definition update_client (b : Broker) (c : nat) (f : Client -> Client) : Broker :=
  mkBroker (clients b) (channels b) (broker_closed b) (nextID b) (bufferSize b) (alter f c (client_at b)) (channel_at b) (next b) (out b).
Definition update_channel (b : Broker) (ch : nat) (f : gset nat -> gset nat) : Broker :=
  mkBroker (clients b) (channels b) (broker_closed b) (nextID b) (bufferSize b) (client_at b)
    (alter (fun x => mkChannel (ch_name x) (f (ch_clients x))) ch (channel_at b)) (next b) (out b).

Definition channels_of (b : Broker) (c : nat) : gmap string nat := from_option c_channels ∅ (client_at b !! c).
Definition members (b : Broker) (ch : nat) : gset nat := from_option ch_clients ∅ (channel_at b !! ch).
Definition name_of (b : Broker) (ch : nat) : string := from_option ch_name "" (channel_at b !! ch).

Definition with_channels (f : gmap string nat -> gmap string nat) (x : Client) : Client :=
  mkClient (c_id x) (c_events x) (c_events_closed x) (c_data x) (f (c_channels x)) (c_done x) (c_closed x).
Definition with_events (f : list Event -> list Event) (x : Client) : Client :=
  mkClient (c_id x) (f (c_events x)) (c_events_closed x) (c_data x) (c_channels x) (c_done x) (c_closed x).
Definition close_events (x : Client) : Client :=
  mkClient (c_id x) (c_events x) true (c_data x) (c_channels x) (c_done x) (c_closed x).
Definition close_done (x : Client) : Client :=
  mkClient (c_id x) (c_events x) (c_events_closed x) (c_data x) (c_channels x) true (c_closed x).
Definition leave_all (x : Client) : Client :=
  mkClient (c_id x) (c_events x) (c_events_closed x) (c_data x) ∅ (c_done x) true.

(** ** Mutexes *)

Inductive mutex := MBroker | MClient (c : nat) | MChannel (ch : nat).

#[global] Instance mutex_eq_dec : EqDecision mutex.
Proof. solve_decision. Defined.

(** Broker before client before channel. *)
Definition mutex_rank (m : mutex) : nat := match m with MBroker => 0 | MClient _ => 1 | MChannel _ => 2 end.

#[global] Instance mutex_ranked : Ranked mutex :=
  {| rank := mutex_rank; rank_bound := 3; rank_lt := ltac:(intros []; cbn; lia) |}.

Abbreviation prog := (list (@instr Broker mutex)).

(** ** Operations *)

Section operations.
(** The orders in which the maps are ranged over. *)
Context (order : gset nat -> list nat) (chorder : gmap string nat -> list nat).

Definition addClient : prog :=
  [Lock MBroker;
   act (fun b =>
     if broker_closed b then b
     else
       let id := wrap_uint64 (nextID b + 1) in
       let c := next b in
       emit
         (mkBroker ({[c]} ∪ clients b) (channels b) (broker_closed b) id (bufferSize b)
            (<[c := mkClient (formatClientID id) [] false ∅ ∅ false false]> (client_at b)) (channel_at b) (S c) (out b))
         (Connected c));
   Unlock MBroker].

Definition removeClient (c : nat) : prog :=
  [Lock MBroker;
   Do (fun b =>
     if decide (c ∈ clients b) then
       (b,
        [Lock (MClient c);
         Do (fun b =>
           (b, mjoin (map (fun ch => [Lock (MChannel ch); act (fun b => update_channel b ch (fun s => s ∖ {[c]}));
                                      Unlock (MChannel ch)]) (chorder (channels_of b c)))));
         act (fun b => update_client b c leave_all);
         Unlock (MClient c);
         act (fun b =>
           let b := if from_option c_done false (client_at b !! c) then emit b (Panicked c) else update_client b c close_done in
           emit (set_clients b (clients b ∖ {[c]})) (Disconnected c))])
     else (b, []));
   Unlock MBroker].

(** One turn of the loop of [runClient] that takes the case of the events: with a
    closed and empty channel the loop is left; [ok] is the answer of the stream's
    [Send], of which an error takes the client away. *)
Definition receive_event (c : nat) (ok : bool) : prog :=
  [Do (fun b =>
     match client_at b !! c with
     | None => (b, [])
     | Some x =>
         match c_events x with
         | [] => (b, if c_events_closed x then removeClient c else [])
         | e :: _ =>
             (emit (update_client b c (with_events tail)) (Delivered c e), if ok then [] else removeClient c)
         end
     end)].

Definition Broker_Close : prog :=
  [Lock MBroker;
   act (fun b =>
     if broker_closed b then b
     else
       let b := foldl (fun b c => if from_option c_events_closed false (client_at b !! c) then emit b (Panicked c)
                                  else update_client b c close_events) b (order (clients b)) in
       mkBroker ∅ ∅ true (nextID b) (bufferSize b) (client_at b) (channel_at b) (next b) (out b));
   Unlock MBroker].

(** [GetChannel], and what its caller does with the channel. *)
Definition GetChannel (name : string) (k : nat -> prog) : prog :=
  [Lock MBroker;
   Do (fun b =>
     match channels b !! name with
     | Some ch => (b, Unlock MBroker :: k ch)
     | None =>
         let ch := next b in
         (mkBroker (clients b) (<[name := ch]> (channels b)) (broker_closed b) (nextID b) (bufferSize b) (client_at b)
            (<[ch := mkChannel name ∅]> (channel_at b)) (S ch) (out b),
          Unlock MBroker :: k ch)
     end)].

Definition DeleteChannel (name : string) : prog :=
  [Lock MBroker;
   Do (fun b =>
     match channels b !! name with
     | None => (b, [Unlock MBroker])
     | Some ch =>
         (set_channels b (delete name (channels b)),
          [Unlock MBroker;
           Lock (MChannel ch);
           Do (fun b =>
             (b, mjoin (map (fun c => [Lock (MClient c); act (fun b => update_client b c (with_channels (delete name)));
                                       Unlock (MClient c)]) (order (members b ch)))));
           act (fun b => update_channel b ch (fun _ => ∅));
           Unlock (MChannel ch)])
     end)].

Definition Channel_Subscribe (ch c : nat) : prog :=
  [Lock (MChannel ch);
   act (fun b => update_channel b ch (fun s => {[c]} ∪ s));
   Unlock (MChannel ch);
   Lock (MClient c);
   act (fun b => update_client b c (with_channels (<[name_of b ch := ch]>)));
   Unlock (MClient c)].

Definition Channel_Unsubscribe (ch c : nat) : prog :=
  [Lock (MChannel ch);
   act (fun b => update_channel b ch (fun s => s ∖ {[c]}));
   Unlock (MChannel ch);
   Lock (MClient c);
   act (fun b => update_client b c (with_channels (delete (name_of b ch))));
   Unlock (MClient c)].

Definition Client_Subscribe (c : nat) (name : string) : prog := GetChannel name (fun ch => Channel_Subscribe ch c).

Definition Client_Unsubscribe (c : nat) (name : string) : prog :=
  [RLock (MClient c);
   Do (fun b =>
     (b, RUnlock (MClient c) :: from_option (fun ch => Channel_Unsubscribe ch c) [] (channels_of b c !! name)))].

(** The select of [Client.Send]: sending on a closed channel panics. *)
Definition push (c : nat) (e : Event) (b : Broker) : Broker :=
  match client_at b !! c with
  | None => b
  | Some x =>
      if c_events_closed x then emit b (Panicked c)
      else if (length (c_events x) <? bufferSize b)%nat
      then emit (update_client b c (with_events (fun es => es ++ [e]))) (Accepted c e)
      else emit b (Refused c e)
  end.

Definition Client_Send (c : nat) (e : Event) : prog :=
  [RLock (MClient c);
   Do (fun b =>
     if from_option c_closed false (client_at b !! c)
     then (emit b (Refused c e), [RUnlock (MClient c)])
     else (b, [RUnlock (MClient c); act (push c e)]))].

Definition Client_Set (c : nat) (key value : string) : prog :=
  [Lock (MClient c);
   act (fun b => update_client b c (fun x =>
     mkClient (c_id x) (c_events x) (c_events_closed x) (<[key := value]> (c_data x)) (c_channels x) (c_done x) (c_closed x)));
   Unlock (MClient c)].

Definition Client_Close (c : nat) : prog := removeClient c.

Definition Broker_Broadcast (e : Event) : prog :=
  [RLock MBroker; Do (fun b => (b, RUnlock MBroker :: mjoin (map (fun c => Client_Send c e) (order (clients b)))))].

Definition Channel_Broadcast (ch : nat) (e : Event) : prog :=
  [RLock (MChannel ch);
   Do (fun b => (b, RUnlock (MChannel ch) :: mjoin (map (fun c => Client_Send c e) (order (members b ch)))))].
End operations.

(** Reads. *)
Definition Clients (b : Broker) : Z := Z.of_nat (size (clients b)).
Definition Broker_Channel (b : Broker) (name : string) : option nat := channels b !! name.
Definition Channels (b : Broker) : list string := (map_to_list (channels b)).*1.
Definition Has (b : Broker) (ch c : nat) : bool := bool_decide (c ∈ members b ch).
Definition Size (b : Broker) (ch : nat) : Z := Z.of_nat (size (members b ch)).
Definition Client_Get (b : Broker) (c : nat) (key : string) : option string := client_at b !! c ≫= fun x => c_data x !! key.
Definition Client_Channels (b : Broker) (c : nat) : list string := (map_to_list (channels_of b c)).*1.
Definition InChannel (b : Broker) (c : nat) (name : string) : bool := bool_decide (is_Some (channels_of b c !! name)).

(** ** Requests *)

Inductive broker_op :=
| OpAddClient
| OpRemoveClient (c : nat)
| OpReceive (c : nat) (ok : bool)
| OpClose
| OpGetChannel (name : string)
| OpDeleteChannel (name : string)
| OpSubscribe (ch c : nat)
| OpUnsubscribe (ch c : nat)
| OpClientSubscribe (c : nat) (name : string)
| OpClientUnsubscribe (c : nat) (name : string)
| OpSend (c : nat) (e : Event)
| OpSet (c : nat) (key value : string)
| OpBroadcast (e : Event)
| OpChannelBroadcast (ch : nat) (e : Event).

Section op_prog.
Context (order : gset nat -> list nat) (chorder : gmap string nat -> list nat).

Definition op_prog (o : broker_op) : prog :=
  match o with
  | OpAddClient => addClient
  | OpRemoveClient c => removeClient chorder c
  | OpReceive c ok => receive_event chorder c ok
  | OpClose => Broker_Close order
  | OpGetChannel name => GetChannel name (fun _ => [])
  | OpDeleteChannel name => DeleteChannel order name
  | OpSubscribe ch c => Channel_Subscribe ch c
  | OpUnsubscribe ch c => Channel_Unsubscribe ch c
  | OpClientSubscribe c name => Client_Subscribe c name
  | OpClientUnsubscribe c name => Client_Unsubscribe c name
  | OpSend c e => Client_Send c e
  | OpSet c key value => Client_Set c key value
  | OpBroadcast e => Broker_Broadcast order e
  | OpChannelBroadcast ch e => Channel_Broadcast order ch e
  end.

Definition ops_prog (os : list broker_op) : prog := mjoin (map op_prog os).
End op_prog.

(** Deleting a channel takes the mutexes of clients under that of the channel. *)
Definition in_order (o : broker_op) : bool := match o with OpDeleteChannel _ => false | _ => true end.

(** ** Identifiers *)

Lemma digits_of_fuel f g n rest : (0 < f)%nat -> (0 < g)%nat -> 0 <= n < 10 ^ Z.of_nat f -> n < 10 ^ Z.of_nat g ->
  digits_of f n rest = digits_of g n rest.
Proof.
  revert g n rest. induction f as [|f IH]; intros g n rest Hf Hg Hn Hng; [lia|]. destruct g as [|g]; [lia|].
  cbn [digits_of]. destruct (n <? 10) eqn:H10; [done|].
  rewrite Nat2Z.inj_succ, Z.pow_succ_r in Hn, Hng by lia.
  destruct f as [|f]; [cbn in Hn; lia|]. destruct g as [|g]; [cbn in Hng; lia|].
  apply IH; [lia|lia|split; [apply Z.div_pos; lia|apply Z.div_lt_upper_bound; lia]|apply Z.div_lt_upper_bound; lia].
Qed.

Lemma format_loop_digits i : forall id w, 0 < id < 10 ^ Z.of_nat i -> format_loop i id w = Some (digits_of i id w).
Proof.
  induction i as [|i IH]; intros id w Hid; [cbn in Hid; lia|]. cbn [format_loop digits_of].
  replace (id <=? 0) with false by lia. rewrite Nat2Z.inj_succ, Z.pow_succ_r in Hid by lia.
  destruct (id <? 10) eqn:H10.
  - rewrite Z.div_small, Z.mod_small by lia. by destruct i.
  - apply IH. split; [apply Z.div_str_pos; lia|apply Z.div_lt_upper_bound; lia].
Qed.

(** The identifiers of clients are the decimal numbers: the buffer of 20 bytes is
    large enough for every [uint64], so that no index is out of range, and the
    result is what [strconv] prints; different numbers have different identifiers. *)
Theorem formatClientID_spec id :
  0 <= id < 18446744073709551616 ->
  formatClientID id = Some (Itoa id) /\
  forall id', 0 <= id' < 18446744073709551616 -> formatClientID id' = formatClientID id -> id' = id.
Proof.
  assert (forall z, 0 <= z < 18446744073709551616 -> formatClientID z = Some (Itoa z)) as Hf.
  { intros z Hz. unfold formatClientID. destruct (z =? 0) eqn:H0; [by replace z with 0 by lia|].
    assert (z < 10 ^ Z.of_nat 20) as H20 by (change (10 ^ Z.of_nat 20) with 100000000000000000000; lia).
    rewrite format_loop_digits by (split; [lia|done]). f_equal. unfold Itoa. replace (z <? 0) with false by lia.
    rewrite Z.abs_eq by lia. pose proof (Itoa_fuel z ltac:(lia)). apply digits_of_fuel; lia. }
  intros Hid. split; [by apply Hf|]. intros id' Hid' Heq. rewrite !Hf in Heq by done. injection Heq as Heq.
  destruct (Itoa_read_back id ltac:(lia)) as (_ & _ & _ & H1). destruct (Itoa_read_back id' ltac:(lia)) as (_ & _ & _ & H2).
  rewrite Heq, H1 in H2. by injection H2.
Qed.

Lemma formatClientID_spec_witness : 0 <= 18446744073709551615 < 18446744073709551616 /\
  formatClientID 18446744073709551615 = Some "18446744073709551615".
Proof. split; [lia|]. destruct (formatClientID_spec 18446744073709551615 ltac:(lia)) as [H _]. exact H. Defined.

(** ** Events in order *)

Definition accepted (c : nat) (os : list output) : list Event :=
  omap (fun o => match o with Accepted c' e => if decide (c' = c) then Some e else None | _ => None end) os.
Definition delivered (c : nat) (os : list output) : list Event :=
  omap (fun o => match o with Delivered c' e => if decide (c' = c) then Some e else None | _ => None end) os.
Definition queue (b : Broker) (c : nat) : list Event := from_option c_events [] (client_at b !! c).

(** What was accepted for a client has been delivered, or waits in its buffer, in
    order; the buffer is within its bound. *)
Definition in_flow (b : Broker) : Prop :=
  (forall c, accepted c (out b) = delivered c (out b) ++ queue b c) /\
  (forall c, (length (queue b c) <= bufferSize b)%nat) /\
  (forall c, is_Some (client_at b !! c) -> (c < next b)%nat).

(** A change that the flow does not see. *)
Definition same_flow (b b' : Broker) : Prop :=
  (forall c, accepted c (out b') = accepted c (out b)) /\ (forall c, delivered c (out b') = delivered c (out b)) /\
  (forall c, queue b' c = queue b c) /\ bufferSize b' = bufferSize b /\ (next b <= next b')%nat /\
  (forall c, is_Some (client_at b' !! c) -> is_Some (client_at b !! c) \/ (next b <= c < next b')%nat).

Lemma same_flow_in b b' : same_flow b b' -> in_flow b -> in_flow b'.
Proof.
  intros (Ha & Hd & Hq & Hb & Hn & Hc) (H1 & H2 & H3). split; [|split].
  - intros c. by rewrite Ha, Hd, Hq.
  - intros c. by rewrite Hq, Hb.
  - intros c Hs. apply Hc in Hs as [Hs|Hs]; [apply H3 in Hs|]; lia.
Qed.

Lemma same_flow_refl b : same_flow b b.
Proof. repeat split; auto. Qed.

Lemma same_flow_trans b1 b2 b3 : same_flow b1 b2 -> same_flow b2 b3 -> same_flow b1 b3.
Proof.
  intros (A1 & A2 & A3 & A4 & A5 & A6) (B1 & B2 & B3 & B4 & B5 & B6).
  split; [intros c; by rewrite B1|]. split; [intros c; by rewrite B2|]. split; [intros c; by rewrite B3|].
  split; [by rewrite B4|]. split; [lia|]. intros c Hc. apply B6 in Hc as [Hc|Hc]; [apply A6 in Hc as [?|?]|]; [by left|right; lia|right; lia].
Qed.

Lemma accepted_snoc c os o : accepted c (os ++ [o]) = accepted c os ++ accepted c [o].
Proof. apply omap_app. Qed.
Lemma delivered_snoc c os o : delivered c (os ++ [o]) = delivered c os ++ delivered c [o].
Proof. apply omap_app. Qed.

Lemma emit_same b o : (forall c, accepted c [o] = []) -> (forall c, delivered c [o] = []) -> same_flow b (emit b o).
Proof.
  intros Ha Hd. unfold same_flow, emit. cbn [out bufferSize next client_at].
  split; [intros c; by rewrite accepted_snoc, Ha, app_nil_r|]. split; [intros c; by rewrite delivered_snoc, Hd, app_nil_r|].
  split; [done|]. split; [done|]. split; [lia|]. by left.
Qed.

Lemma update_client_same b c f : (forall x, c_events (f x) = c_events x) -> same_flow b (update_client b c f).
Proof.
  intros Hf. unfold same_flow, update_client, queue. cbn [out bufferSize next client_at].
  do 2 (split; [done|]). split; [|split; [done|]; split; [lia|]].
  - intros c'. destruct (decide (c' = c)) as [->|Hne]; [|by rewrite lookup_alter_ne]. rewrite lookup_alter_eq.
    destruct (client_at b !! c); cbn; [apply Hf|done].
  - intros c' Hc'. left. destruct (decide (c' = c)) as [->|Hne]; [|by rewrite lookup_alter_ne in Hc'].
    rewrite lookup_alter_eq in Hc'. by apply fmap_is_Some in Hc'.
Qed.

Lemma update_channel_same b ch f : same_flow b (update_channel b ch f).
Proof. repeat split; auto. Qed.

Lemma set_clients_same b b' cs : same_flow b b' -> same_flow b (set_clients b' cs).
Proof. intros (H1 & H2 & H3 & H4 & H5 & H6). repeat split; auto. Qed.

(** The programs of [same_flow] actions. *)
Lemma keeps_same f (p : prog) : (forall b, same_flow b (f b)) -> keeps in_flow p -> keeps in_flow (act f :: p).
Proof. intros Hf Hp. apply keeps_act; [|done]. intros b. by apply same_flow_in. Qed.

Ltac same_step :=
  lazymatch goal with
  | |- same_flow ?b ?b => apply same_flow_refl
  | |- same_flow _ (if _ then _ else _) => case_match; same_step
  | |- same_flow _ (emit ?b _) => eapply same_flow_trans; [|apply emit_same; done]; same_step
  | |- same_flow _ (set_clients _ _) => apply set_clients_same; same_step
  | |- same_flow _ (update_channel _ _ _) => apply update_channel_same
  | |- same_flow _ (update_client _ _ _) => apply update_client_same; done
  | _ => idtac
  end.

Ltac keeps_step :=
  lazymatch goal with
  | |- keeps _ [] => constructor
  | |- keeps _ (Lock _ :: _) => constructor
  | |- keeps _ (RLock _ :: _) => constructor
  | |- keeps _ (Unlock _ :: _) => constructor
  | |- keeps _ (RUnlock _ :: _) => constructor
  | |- keeps _ (act _ :: _) => apply keeps_same; [solve [intros; same_step]|]
  | |- keeps _ (Do (fun b => (b, _)) :: _) => constructor; [done|intros ? _; cbn [snd]]
  end.

Section flow.
Context (order : gset nat -> list nat) (chorder : gmap string nat -> list nat).

Lemma mjoin_keeps {A : Type} (f : A -> prog) (xs : list A) (q : prog) :
  (forall x, keeps in_flow (f x)) -> keeps in_flow q -> keeps in_flow (mjoin (map f xs) ++ q).
Proof. intros Hf Hq. apply keeps_app; [|done]. apply keeps_mjoin, Forall_map, Forall_true. done. Qed.

Lemma removeClient_keeps c : keeps in_flow (removeClient chorder c).
Proof.
  unfold removeClient. keeps_step. constructor; [intros b Hb; by case_decide|]. intros b _. case_decide; cbn [snd app]; repeat keeps_step.
  apply mjoin_keeps; [intros ch; repeat keeps_step|]. repeat keeps_step.
Qed.

Lemma push_in_flow c e b : in_flow b -> in_flow (push c e b).
Proof.
  intros Hb. unfold push. destruct (client_at b !! c) as [x|] eqn:Hx; [|done].
  destruct (c_events_closed x); [eapply same_flow_in; [|done]; same_step|].
  destruct (length (c_events x) <? bufferSize b)%nat eqn:Hlen; [|eapply same_flow_in; [|done]; same_step].
  apply Nat.ltb_lt in Hlen. destruct Hb as (H1 & H2 & H3).
  assert (forall c', queue (emit (update_client b c (with_events (fun es => es ++ [e]))) (Accepted c e)) c' =
    queue b c' ++ (if decide (c' = c) then [e] else [])) as Hq.
  { intros c'. unfold queue. cbn. destruct (decide (c' = c)) as [->|Hne].
    - rewrite lookup_alter_eq, Hx. done.
    - by rewrite lookup_alter_ne, app_nil_r. }
  split; [|split].
  - intros c'. rewrite Hq. cbn [out emit update_client]. rewrite accepted_snoc, delivered_snoc, H1. cbn.
    destruct (decide (c = c')) as [->|Hne]; [rewrite decide_True by done|rewrite decide_False by done]; cbn; by rewrite !app_nil_r, ?app_assoc.
  - intros c'. rewrite Hq, length_app. cbn [bufferSize emit update_client]. destruct (decide (c' = c)) as [->|Hne]; cbn; [|specialize (H2 c'); lia].
    unfold queue. rewrite Hx. cbn. lia.
  - intros c'. cbn. destruct (decide (c' = c)) as [->|Hne]; [intros _; apply H3; by rewrite Hx|rewrite lookup_alter_ne by done; apply H3].
Qed.

Lemma Client_Send_keeps c e : keeps in_flow (Client_Send c e).
Proof.
  unfold Client_Send. keeps_step. constructor.
  - intros b Hb. case_match; [|done]. cbn. eapply same_flow_in; [|done]. same_step.
  - intros b _. case_match; cbn [snd app]; repeat keeps_step. apply keeps_act; [|constructor]. intros b'. apply push_in_flow.
Qed.

Lemma receive_in_flow c b e es x :
  in_flow b -> client_at b !! c = Some x -> c_events x = e :: es -> in_flow (emit (update_client b c (with_events tail)) (Delivered c e)).
Proof.
  intros (H1 & H2 & H3) Hx He.
  assert (forall c', queue (emit (update_client b c (with_events tail)) (Delivered c e)) c' = if decide (c' = c) then es else queue b c') as Hq.
  { intros c'. unfold queue. cbn. destruct (decide (c' = c)) as [->|Hne]; [|by rewrite lookup_alter_ne].
    rewrite lookup_alter_eq, Hx. cbn. by rewrite He. }
  split; [|split].
  - intros c'. rewrite Hq. cbn [out emit update_client]. rewrite accepted_snoc, delivered_snoc, H1. cbn.
    destruct (decide (c' = c)) as [->|Hne].
    + rewrite decide_True by done. unfold queue. rewrite Hx. cbn. by rewrite He, app_nil_r, <- app_assoc.
    + rewrite decide_False by done. by rewrite !app_nil_r.
  - intros c'. rewrite Hq. cbn [bufferSize emit update_client]. destruct (decide (c' = c)) as [->|Hne]; [|apply H2].
    specialize (H2 c). unfold queue in H2. rewrite Hx in H2. cbn in H2. rewrite He in H2. cbn in H2. lia.
  - intros c'. cbn. destruct (decide (c' = c)) as [->|Hne]; [intros _; apply H3; by rewrite Hx|rewrite lookup_alter_ne by done; apply H3].
Qed.

Lemma receive_keeps c ok : keeps in_flow (receive_event chorder c ok).
Proof.
  unfold receive_event. constructor.
  - intros b Hb. destruct (client_at b !! c) as [x|] eqn:Hx; [|done]. destruct (c_events x) as [|e es] eqn:He; [done|].
    cbn. by eapply receive_in_flow.
  - intros b _. rewrite app_nil_r. repeat case_match; cbn [snd]; first [apply removeClient_keeps | constructor].
Qed.

Lemma close_all_same cs : forall b,
  same_flow b (foldl (fun b c => if from_option c_events_closed false (client_at b !! c) then emit b (Panicked c)
                                 else update_client b c close_events) b cs).
Proof.
  induction cs as [|c cs IH]; intros b; cbn [foldl]; [apply same_flow_refl|].
  eapply same_flow_trans; [|apply IH]. same_step.
Qed.

Lemma add_channel_same b name :
  same_flow b (mkBroker (clients b) (<[name := next b]> (channels b)) (broker_closed b) (nextID b) (bufferSize b) (client_at b)
            (<[next b := mkChannel name ∅]> (channel_at b)) (S (next b)) (out b)).
Proof. repeat split; auto. cbn. lia. Qed.

Lemma GetChannel_keeps name k : (forall ch, keeps in_flow (k ch)) -> keeps in_flow (GetChannel name k).
Proof.
  intros Hk. unfold GetChannel. keeps_step. constructor.
  - intros b Hb. destruct (channels b !! name); [done|]. cbn. eapply same_flow_in; [apply add_channel_same|done].
  - intros b _. destruct (channels b !! name); cbn [snd]; rewrite app_nil_r; keeps_step; apply Hk.
Qed.

Lemma add_client_in_flow b : in_flow b ->
  in_flow (if broker_closed b then b else
     emit (mkBroker ({[next b]} ∪ clients b) (channels b) (broker_closed b) (wrap_uint64 (nextID b + 1)) (bufferSize b)
            (<[next b := mkClient (formatClientID (wrap_uint64 (nextID b + 1))) [] false ∅ ∅ false false]> (client_at b))
            (channel_at b) (S (next b)) (out b)) (Connected (next b))).
Proof.
  intros Hb. destruct (broker_closed b); [done|]. eapply same_flow_in; [|exact Hb]. eapply same_flow_trans; [|apply emit_same; done].
  destruct Hb as (_ & _ & H3). repeat split; [|cbn; lia|].
  - intros c. unfold queue. cbn. destruct (decide (c = next b)) as [->|Hne]; [|by rewrite lookup_insert_ne].
    rewrite lookup_insert_eq. destruct (client_at b !! next b) eqn:Hn; [|done]. specialize (H3 (next b) ltac:(by rewrite Hn)). lia.
  - intros c. cbn. destruct (decide (c = next b)) as [->|Hne]; [right; lia|rewrite lookup_insert_ne by done; by left].
Qed.

Lemma subscribe_keeps ch c : keeps in_flow (Channel_Subscribe ch c).
Proof. unfold Channel_Subscribe. repeat keeps_step. Qed.

Lemma unsubscribe_keeps ch c : keeps in_flow (Channel_Unsubscribe ch c).
Proof. unfold Channel_Unsubscribe. repeat keeps_step. Qed.

Lemma op_keeps o : keeps in_flow (op_prog order chorder o).
Proof.
  destruct o as [|c|c ok| |name|name|ch c|ch c|c name|c name|c e|c key value|e|ch e]; cbn [op_prog].
  - unfold addClient. keeps_step. apply keeps_act; [apply add_client_in_flow|]. repeat keeps_step.
  - apply removeClient_keeps.
  - apply receive_keeps.
  - unfold Broker_Close. keeps_step. apply keeps_same; [|repeat keeps_step]. intros b. destruct (broker_closed b); [apply same_flow_refl|].
    pose proof (close_all_same (order (clients b)) b) as (H1 & H2 & H3 & H4 & H5 & H6). repeat split; auto.
  - apply GetChannel_keeps. intros; constructor.
  - unfold DeleteChannel. keeps_step. constructor.
    + intros b Hb. destruct (channels b !! name); [|done]. cbn. eapply same_flow_in; [|exact Hb]. repeat split; auto.
    + intros b _. destruct (channels b !! name); cbn [snd app]; repeat keeps_step.
      apply mjoin_keeps; [intros c; repeat keeps_step|]. repeat keeps_step.
  - apply subscribe_keeps.
  - apply unsubscribe_keeps.
  - apply GetChannel_keeps. intros ch. apply subscribe_keeps.
  - unfold Client_Unsubscribe. repeat keeps_step. rewrite app_nil_r. keeps_step. destruct (_ !! name); cbn; [apply unsubscribe_keeps|constructor].
  - apply Client_Send_keeps.
  - unfold Client_Set. repeat keeps_step.
  - unfold Broker_Broadcast. repeat keeps_step. rewrite app_nil_r. keeps_step. apply keeps_mjoin, Forall_map, Forall_true. intros c. apply Client_Send_keeps.
  - unfold Channel_Broadcast. repeat keeps_step. rewrite app_nil_r. keeps_step. apply keeps_mjoin, Forall_map, Forall_true. intros c. apply Client_Send_keeps.
Qed.

Lemma ops_keep os : keeps in_flow (ops_prog order chorder os).
Proof. apply keeps_mjoin, Forall_map, Forall_true. apply op_keeps. Qed.
End flow.

(** ** The order of the mutexes *)

Section broker_ordered_ops.
Context (order : gset nat -> list nat) (chorder : gmap string nat -> list nat).

Lemma ordered_remove c : ordered [] (removeClient chorder c).
Proof.
  unfold removeClient. ordered_step. constructor. intros b. case_decide; cbn; repeat ordered_step.
  constructor. intros b'. cbn [snd]. apply ordered_mjoin; [|repeat ordered_step].
  intros p q Hp Hq. apply list_elem_of_fmap in Hp as (ch & -> & _). cbn. by repeat ordered_step.
Qed.

Lemma ordered_send c e : ordered [] (Client_Send c e).
Proof. unfold Client_Send. ordered_step. constructor. intros b. case_match; cbn; repeat ordered_step. Qed.

Lemma ordered_sends cs e : ordered [] (mjoin (map (fun c => Client_Send c e) cs)).
Proof.
  induction cs as [|c cs IH]; [constructor|]. change (ordered [] (Client_Send c e ++ mjoin (map (fun c => Client_Send c e) cs))).
  apply ordered_app; [apply ordered_send|done].
Qed.

Lemma broker_ordered_op o : in_order o = true -> ordered [] (op_prog order chorder o).
Proof.
  destruct o; intros Ho; try done; cbn [op_prog];
    unfold addClient, Broker_Close, GetChannel, Channel_Subscribe, Channel_Unsubscribe, Client_Subscribe, Client_Unsubscribe, Client_Set,
      Broker_Broadcast, Channel_Broadcast;
    repeat ordered_step; try (constructor; intros b; cbn; rewrite app_nil_r; ordered_step; apply ordered_sends).
  - apply ordered_remove.
  - unfold receive_event. constructor. intros b. rewrite app_nil_r. repeat case_match; cbn [snd]; first [apply ordered_remove|constructor].
  - constructor. intros b. destruct (channels b !! name); cbn; repeat ordered_step.
  - unfold GetChannel. ordered_step. constructor. intros b. destruct (channels b !! name); cbn; repeat ordered_step.
  - constructor. intros b. cbn. ordered_step. destruct (channels_of b c !! name); cbn; repeat ordered_step.
  - apply ordered_send.
Qed.

Lemma broker_ordered_ops os : forallb in_order os = true -> ordered [] (ops_prog order chorder os).
Proof.
  unfold ops_prog. induction os as [|o os IH]; cbn; [intros _; constructor|].
  intros [Ho Hos]%andb_true_iff. apply ordered_app; [by apply broker_ordered_op|by apply IH].
Qed.
End broker_ordered_ops.

(** ** Theorems *)

(** C37. However the goroutines are interleaved, whatever they call and even if the
    broker is closed or clients go, the events of a client stay in order: those that
    [Send] and the broadcasts accepted for it are, in that order and once each,
    those its loop has passed to the stream ([Delivered], also when that last write
    fails) followed by those in its buffer, and the buffer never holds more than
    its bound. *)
Theorem events_in_order order chorder cfg (oss : list (list broker_op)) cf' :
  reachable (start (NewBrokerWithConfig cfg) (map (ops_prog order chorder) oss)) cf' ->
  let b := state cf' in
  forall c, accepted c (out b) = delivered c (out b) ++ queue b c /\ (length (queue b c) <= bufferSize b)%nat.
Proof.
  intros Hr b c. assert (in_flow b) as (H1 & H2 & _); [|by split].
  apply (reachable_keeps in_flow _ cf' Hr).
  - split; [done|]. split; [intros c'; apply Nat.le_0_l|]. intros c' Hc'. cbn in Hc'. by apply is_Some_None in Hc'.
  - apply Forall_map, Forall_true. apply ops_keep.
Qed.

Lemma events_in_order_witness :
  let e := NewEvent "hi" in
  let cf := start NewBroker [ops_prog by_elements (fun m => (map_to_list m).*2) [OpAddClient; OpSend 0 e; OpSend 0 e; OpReceive 0 true]] in
  let b := state (run_schedule (repeat 0%nat 20) cf) in
  accepted 0 (out b) = delivered 0 (out b) ++ queue b 0 /\ accepted 0 (out b) = [e; e].
Proof.
  cbv zeta. split; [|vm_compute; reflexivity].
  apply (events_in_order by_elements (fun m => (map_to_list m).*2) DefaultBrokerConfig
    [[OpAddClient; OpSend 0 (NewEvent "hi"); OpSend 0 (NewEvent "hi"); OpReceive 0 true]]), run_schedule_reachable.
Defined.

(** Without [DeleteChannel] the broker is free of deadlocks: any number of
    goroutines, performing any of the other operations, closing the broker and
    losing clients included, come to an end under every interleaving. *)
Theorem broker_progress order chorder b (oss : list (list broker_op)) :
  Forall (fun os => forallb in_order os = true) oss ->
  let cf := start b (map (ops_prog order chorder) oss) in
  Acc (fun cf' cf => some_step cf cf') cf /\
  forall cf', reachable cf cf' -> (forall t, step t cf' = None) -> Forall (fun p => p = []) (threads cf').
Proof.
  intros Hos. apply ordered_progress. apply Forall_map. eapply Forall_impl; [|exact Hos]. intros os. apply broker_ordered_ops.
Qed.

Lemma broker_progress_witness :
  Forall (fun os => forallb in_order os = true) [[OpAddClient; OpClientSubscribe 0 "news"]; [OpClose]] /\
  Acc (fun cf' cf => some_step cf cf')
    (start NewBroker (map (ops_prog by_elements (fun m => (map_to_list m).*2)) [[OpAddClient; OpClientSubscribe 0 "news"]; [OpClose]])).
Proof.
  assert (Forall (fun os => forallb in_order os = true) [[OpAddClient; OpClientSubscribe 0 "news"]; [OpClose]]) as Hos by (repeat constructor).
  split; [exact Hos|]. apply (broker_progress by_elements (fun m => (map_to_list m).*2) NewBroker _ Hos).
Defined.

(** A client subscribed to a channel. *)
Definition subscribed : Broker :=
  mkBroker {[0%nat]} {["news" := 1%nat]} false 1 4 {[0%nat := mkClient (Some "1") [] false ∅ {["news" := 1%nat]} false false]}
    {[1%nat := mkChannel "news" {[0%nat]}]} 2 [].

(** Deleting a channel while one of its clients disconnects can deadlock: the
    first holds the mutex of the channel and waits for that of the client, the
    second holds that of the client, and that of the broker, and waits for that of
    the channel; from then on every operation of the broker waits. *)
Theorem delete_channel_deadlocks :
  let cf := start subscribed
    (map (op_prog by_elements (fun m => (map_to_list m).*2)) [OpDeleteChannel "news"; OpRemoveClient 0; OpAddClient]) in
  exists cf', reachable cf cf' /\ deadlocked cf' /\ Forall (fun p => p <> []) (threads cf') /\
    locks cf' MBroker = Writer 1 /\ locks cf' (MChannel 1) = Writer 0 /\ locks cf' (MClient 0) = Writer 1.
Proof.
  intros cf. set (cf' := run_schedule [0;0;0;0;0;1;1;1;1;1;1;1]%nat cf). exists cf'.
  split; [apply run_schedule_reachable|].
  assert (Forall (fun p => p <> []) (threads cf')) as Hwait by (apply waiting_all; vm_compute; reflexivity).
  split; [split|].
  - destruct (lookup_lt_is_Some_2 (threads cf') 0) as [p Hp]; [apply Nat.ltb_lt; vm_compute; reflexivity|].
    exists 0%nat, p. split; [done|]. exact (Forall_lookup_1 _ _ _ _ Hwait Hp).
  - intros [|[|[|t]]]; vm_compute; reflexivity.
  - split; [exact Hwait|]. vm_compute. done.
Qed.

(** *** After closing *)

Definition close_one (b : Broker) (c : nat) : Broker :=
  if from_option c_events_closed false (client_at b !! c) then emit b (Panicked c) else update_client b c close_events.

Lemma close_all_again cs c x : forall b, client_at b !! c = Some (close_events x) ->
  client_at (foldl close_one b cs) !! c = Some (close_events x).
Proof.
  induction cs as [|c' cs IH]; intros b Hb; [done|]. cbn. apply IH. unfold close_one.
  destruct (decide (c' = c)) as [->|Hne]; [by rewrite Hb|]. destruct (from_option _ _ _); [done|]. cbn. by rewrite lookup_alter_ne.
Qed.

Lemma close_all_at cs c x : forall b, c ∈ cs -> client_at b !! c = Some x -> c_events_closed x = false ->
  client_at (foldl close_one b cs) !! c = Some (close_events x).
Proof.
  induction cs as [|c' cs IH]; intros b Hc Hb Hx; [by apply elem_of_nil in Hc|]. cbn.
  destruct (decide (c' = c)) as [->|Hne].
  - apply close_all_again. unfold close_one. rewrite Hb. cbn. rewrite Hx. cbn. by rewrite lookup_alter_eq, Hb.
  - apply elem_of_cons in Hc as [->|Hc]; [done|]. apply IH; [done| |done]. unfold close_one.
    destruct (from_option _ _ _); [done|]. cbn. by rewrite lookup_alter_ne.
Qed.

Lemma close_all_channels cs : forall b, channel_at (foldl close_one b cs) = channel_at b.
Proof. induction cs as [|c cs IH]; intros b; [done|]. cbn. rewrite IH. unfold close_one. by destruct (from_option _ _ _). Qed.

(** Closing the broker does not mark its clients as closed: a [Send] to a client
    that was connected, which its own handler or a broadcast begun before can still
    make, panics on the closed channel; and the removal of the client, which its loop
    then calls, does nothing, so that [Done] is never closed, its disconnection is
    not reported and it stays a member of its channels. *)
Theorem send_after_close_panics order chorder b c x e :
  (forall s, order s ≡ₚ elements s) ->
  broker_closed b = false -> c ∈ clients b -> client_at b !! c = Some x ->
  c_closed x = false -> c_events_closed x = false ->
  exists b' l, reachable (start b [ops_prog order chorder [OpClose; OpRemoveClient c; OpSend c e]]) (mkConfig b' l [[]]) /\
    Panicked c ∈ out b' /\ client_at b' !! c = Some (close_events x) /\ channel_at b' = channel_at b /\ (c ∉ clients b').
Proof.
  intros Hord Hcl Hc Hx Hx1 Hx2.
  set (b0 := foldl close_one b (order (clients b))).
  set (b1 := mkBroker ∅ ∅ true (nextID b0) (bufferSize b0) (client_at b0) (channel_at b0) (next b0) (out b0)).
  assert (client_at b1 !! c = Some (close_events x)) as H1.
  { cbn. apply close_all_at; [|done|done]. rewrite (Hord (clients b)). by apply elem_of_elements. }
  assert (channel_at b1 = channel_at b) as Hch by apply close_all_channels.
  assert (exec [] b (ops_prog order chorder [OpClose; OpRemoveClient c; OpSend c e] : prog) (emit b1 (Panicked c))) as Hex.
  { unfold ops_prog. cbn [map mjoin list_join op_prog Broker_Close removeClient Client_Send app].
    constructor; [set_solver|]. apply exec_act. rewrite Hcl. fold close_one. fold b0. fold b1. constructor.
    constructor; [set_solver|]. constructor. cbn [clients b1]. rewrite decide_False by set_solver. cbn [fst snd app]. constructor.
    constructor; [set_solver|]. constructor. rewrite H1. cbn [from_option close_events c_closed]. rewrite Hx1. cbn [fst snd app].
    constructor. apply exec_act. unfold push. rewrite H1. constructor. }
  destruct (exec_reachable [] b _ _ all_free Hex) as (l & Hr & _); [by apply holds_nothing|].
  exists (emit b1 (Panicked c)), l. split; [exact Hr|]. split; [cbn; apply elem_of_app; right; left|]. split; [done|]. split; [done|]. set_solver.
Qed.

Lemma send_after_close_panics_witness :
  0%nat ∈ clients subscribed /\
  exists b' l, reachable (start subscribed [ops_prog by_elements (fun m => (map_to_list m).*2) [OpClose; OpRemoveClient 0; OpSend 0 (NewEvent "x")]]) (mkConfig b' l [[]]) /\
    Panicked 0 ∈ out b'.
Proof.
  assert (0%nat ∈ clients subscribed) as Hc by (cbn [clients subscribed]; set_solver). split; [exact Hc|].
  destruct (send_after_close_panics by_elements (fun m => (map_to_list m).*2) subscribed 0
    (mkClient (Some "1") [] false ∅ {["news" := 1%nat]} false false) (NewEvent "x")) as (b' & l & Hr & Hp & _);
    [done|reflexivity|exact Hc|reflexivity|reflexivity|reflexivity|]. exists b', l. split; [exact Hr|exact Hp].
Defined.
