(* ===== verification/Plural.v ===== *)
(** * Plural forms

    [src/pantry/i18n/plural.go]: the plural function of each language family,
    and the table that picks one for a locale.  Counts are the code's [int], as
    [Z]; [%] is Go's remainder, which takes the sign of the count.

    The doc comment of each function is a list of rules in the language the
    Unicode CLDR uses; [rule] is that language, the [doc_*] lists below are the
    comments, and [plural_follows_docs] is the equivalence of the two for every
    count that is not negative. *)

From S2P Require Import Prelude GoStrings.

#[local] Open Scope list_scope.

(** ** The categories *)

Definition PluralForm : Type := string.

Definition PluralZero : PluralForm := "zero".
Definition PluralOne : PluralForm := "one".
Definition PluralTwo : PluralForm := "two".
Definition PluralFew : PluralForm := "few".
Definition PluralMany : PluralForm := "many".
Definition PluralOther : PluralForm := "other".

Definition PluralFunc : Type := Z -> PluralForm.

(** Go's [n % m] on [int]. *)
Definition int_rem (n m : Z) : Z := Z.rem n m.

(** ** The families *)

Definition PluralEnglish : PluralFunc := fun n =>
  if n =? 1 then PluralOne else PluralOther.

Definition PluralFrench : PluralFunc := fun n =>
  if (n =? 0) || (n =? 1) then PluralOne else PluralOther.

Definition PluralRussian : PluralFunc := fun n =>
  let n := if n <? 0 then wrap64 (- n) else n in
  let mod10 := int_rem n 10 in
  let mod100 := int_rem n 100 in
  if (mod10 =? 1) && negb (mod100 =? 11) then PluralOne
  else if (2 <=? mod10) && (mod10 <=? 4) && ((mod100 <? 12) || (14 <? mod100)) then PluralFew
  else if (mod10 =? 0) || ((5 <=? mod10) && (mod10 <=? 9))
          || ((11 <=? mod100) && (mod100 <=? 14)) then PluralMany
  else PluralOther.

Definition PluralPolish : PluralFunc := fun n =>
  if n =? 1 then PluralOne
  else
    let mod10 := int_rem n 10 in
    let mod100 := int_rem n 100 in
    if (2 <=? mod10) && (mod10 <=? 4) && ((mod100 <? 12) || (14 <? mod100)) then PluralFew
    else if (mod10 =? 0) || (mod10 =? 1) || ((5 <=? mod10) && (mod10 <=? 9))
            || ((12 <=? mod100) && (mod100 <=? 14)) then PluralMany
    else PluralOther.

Definition PluralCzech : PluralFunc := fun n =>
  if n =? 1 then PluralOne
  else if (2 <=? n) && (n <=? 4) then PluralFew
  else PluralOther.

Definition PluralArabic : PluralFunc := fun n =>
  if n =? 0 then PluralZero
  else if n =? 1 then PluralOne
  else if n =? 2 then PluralTwo
  else
    let mod100 := int_rem n 100 in
    if (3 <=? mod100) && (mod100 <=? 10) then PluralFew
    else if (11 <=? mod100) && (mod100 <=? 99) then PluralMany
    else PluralOther.

Definition PluralAsian : PluralFunc := fun _ => PluralOther.

Definition PluralRomanian : PluralFunc := fun n =>
  if n =? 1 then PluralOne
  else
    let mod100 := int_rem n 100 in
    if (n =? 0) || ((1 <=? mod100) && (mod100 <=? 19)) then PluralFew
    else PluralOther.

Definition PluralLithuanian : PluralFunc := fun n =>
  let mod10 := int_rem n 10 in
  let mod100 := int_rem n 100 in
  if (mod10 =? 1) && ((mod100 <? 11) || (19 <? mod100)) then PluralOne
  else if (2 <=? mod10) && (mod10 <=? 9) && ((mod100 <? 11) || (19 <? mod100)) then PluralFew
  else PluralOther.

Definition PluralLatvian : PluralFunc := fun n =>
  if n =? 0 then PluralZero
  else
    let mod10 := int_rem n 10 in
    let mod100 := int_rem n 100 in
    if (mod10 =? 1) && negb (mod100 =? 11) then PluralOne else PluralOther.

Definition PluralIrish : PluralFunc := fun n =>
  if n =? 1 then PluralOne
  else if n =? 2 then PluralTwo
  else if (3 <=? n) && (n <=? 6) then PluralFew
  else if (7 <=? n) && (n <=? 10) then PluralMany
  else PluralOther.

Definition PluralWelsh : PluralFunc := fun n =>
  if n =? 0 then PluralZero
  else if n =? 1 then PluralOne
  else if n =? 2 then PluralTwo
  else if n =? 3 then PluralFew
  else if n =? 6 then PluralMany
  else PluralOther.

(** ** The table *)

Definition is_tag_separator (c : ascii) : bool := Ascii.eqb c "-" || Ascii.eqb c "_".

(** The text before the first [-] or [_]: [locale[:strings.IndexAny(locale, "-_")]]. *)
Fixpoint cut_separator (s : string) : option string :=
  match s with
  | "" => None
  | String c s =>
      if is_tag_separator c then Some ""
      else match cut_separator s with Some a => Some (String c a) | None => None end
  end.

(** The base locale, when [idx > 0]. *)
Definition base_of (locale : string) : option string :=
  match cut_separator locale with
  | Some "" | None => None
  | Some base => Some base
  end.

Definition one_of (s : string) (l : list string) : bool := existsb (String.eqb s) l.

Definition GetPluralFunc (locale : string) : PluralFunc :=
  let locale := ToLower locale in
  let locale := default locale (base_of locale) in
  if one_of locale ["en"; "de"; "nl"; "sv"; "da"; "no"; "nb"; "nn"; "is"; "fo"] then PluralEnglish
  else if one_of locale ["fr"; "pt"] then PluralFrench
  else if one_of locale ["es"; "it"; "ca"; "eu"] then PluralEnglish
  else if one_of locale ["ru"; "uk"; "be"; "hr"; "sr"; "bs"] then PluralRussian
  else if one_of locale ["pl"] then PluralPolish
  else if one_of locale ["cs"; "sk"] then PluralCzech
  else if one_of locale ["ar"] then PluralArabic
  else if one_of locale ["ja"; "zh"; "ko"; "vi"; "th"; "id"; "ms"] then PluralAsian
  else if one_of locale ["tr"] then PluralEnglish
  else if one_of locale ["ro"] then PluralRomanian
  else if one_of locale ["lt"] then PluralLithuanian
  else if one_of locale ["lv"] then PluralLatvian
  else if one_of locale ["ga"] then PluralIrish
  else if one_of locale ["cy"] then PluralWelsh
  else PluralEnglish.

(** ** The rules of the comments *)

(** [n mod m in lo..hi]; [m = 0] stands for [n] itself. *)
Inductive rule : Type :=
  | In (m lo hi : Z)
  | NotIn (m lo hi : Z)
  | And (a b : rule)
  | Or (a b : rule).

#[export] Instance rule_eq_dec : EqDecision rule.
Proof. solve_decision. Defined.

Fixpoint holds (r : rule) (n : Z) : bool :=
  match r with
  | In m lo hi => (lo <=? n mod m) && (n mod m <=? hi)
  | NotIn m lo hi => negb ((lo <=? n mod m) && (n mod m <=? hi))
  | And a b => holds a n && holds b n
  | Or a b => holds a n || holds b n
  end.

Definition Is (n : Z) : rule := In 0 n n.

(** A function's comment: its categories and their rules; a count that meets
    none of them is [other]. *)
Definition doc : Type := list (PluralForm * rule).

#[export] Instance doc_eq_dec : EqDecision doc.
Proof. unfold doc, PluralForm. apply _. Defined.

Definition doc_English : doc := [(PluralOne, Is 1)].
Definition doc_French : doc := [(PluralOne, Or (Is 0) (Is 1))].
Definition doc_Russian : doc :=
  [(PluralOne, And (In 10 1 1) (NotIn 100 11 11));
   (PluralFew, And (In 10 2 4) (NotIn 100 12 14));
   (PluralMany, Or (In 10 0 0) (Or (In 10 5 9) (In 100 11 14)))].
Definition doc_Polish : doc :=
  [(PluralOne, Is 1);
   (PluralFew, And (In 10 2 4) (NotIn 100 12 14));
   (PluralMany, Or (And (NotIn 0 1 1) (In 10 0 1)) (Or (In 10 5 9) (In 100 12 14)))].
Definition doc_Czech : doc := [(PluralOne, Is 1); (PluralFew, In 0 2 4)].
Definition doc_Arabic : doc :=
  [(PluralZero, Is 0); (PluralOne, Is 1); (PluralTwo, Is 2);
   (PluralFew, In 100 3 10); (PluralMany, In 100 11 99)].
Definition doc_Asian : doc := [].
Definition doc_Romanian : doc :=
  [(PluralOne, Is 1); (PluralFew, Or (Is 0) (And (NotIn 0 1 1) (In 100 1 19)))].
Definition doc_Lithuanian : doc :=
  [(PluralOne, And (In 10 1 1) (NotIn 100 11 19));
   (PluralFew, And (In 10 2 9) (NotIn 100 11 19))].
Definition doc_Latvian : doc :=
  [(PluralZero, Is 0); (PluralOne, And (In 10 1 1) (NotIn 100 11 11))].
Definition doc_Irish : doc :=
  [(PluralOne, Is 1); (PluralTwo, Is 2); (PluralFew, In 0 3 6); (PluralMany, In 0 7 10)].
Definition doc_Welsh : doc :=
  [(PluralZero, Is 0); (PluralOne, Is 1); (PluralTwo, Is 2); (PluralFew, Is 3); (PluralMany, Is 6)].

(** Every plural function with its comment. *)
Definition families : list (PluralFunc * doc) :=
  [(PluralEnglish, doc_English); (PluralFrench, doc_French); (PluralRussian, doc_Russian);
   (PluralPolish, doc_Polish); (PluralCzech, doc_Czech); (PluralArabic, doc_Arabic);
   (PluralAsian, doc_Asian); (PluralRomanian, doc_Romanian); (PluralLithuanian, doc_Lithuanian);
   (PluralLatvian, doc_Latvian); (PluralIrish, doc_Irish); (PluralWelsh, doc_Welsh)].

(** The comment read as an unordered list of rules: [f] has the form [c] when
    the rule of [c] holds and no other does, and [other] when none holds. *)
Definition says (d : doc) (n : Z) (c : PluralForm) : Prop :=
  (exists r, (c, r) ∈ d /\ holds r n = true /\
     forall c' r', (c', r') ∈ d -> holds r' n = true -> c' = c) \/
  (c = PluralOther /\ forall c' r', (c', r') ∈ d -> holds r' n = false).

(** ** Lemmas *)

(** The rules in the comment's order, the first that holds deciding. *)
Fixpoint first_rule (d : doc) (n : Z) : PluralForm :=
  match d with
  | [] => PluralOther
  | (c, r) :: d => if holds r n then c else first_rule d n
  end.

(** At most one rule of the comment holds. *)
Fixpoint exclusive (d : doc) (n : Z) : bool :=
  match d with
  | [] => true
  | (_, r) :: d => (negb (holds r n) || forallb (fun p => negb (holds p.2 n)) d) && exclusive d n
  end.

Lemma says_first d n : exclusive d n = true -> says d n (first_rule d n).
Proof.
  induction d as [|[c r] d IH]; cbn; [right; set_solver|].
  intros [H1 H2]%andb_prop. specialize (IH H2).
  destruct (holds r n) eqn:E; cbn in H1.
  - left. exists r. split; [left|]. split; [done|].
    intros c' r' [[= -> ->] | Hin]%elem_of_cons Hr; [done|].
    eapply forallb_forall in H1; [|apply list_elem_of_In, Hin]. cbn in H1. by rewrite Hr in H1.
  - destruct IH as [(r' & Hin & Hr & Hu) | [Ho Hn]]; [left|right].
    + exists r'. split; [by right|]. split; [done|].
      intros c'' r'' [[= -> ->] | Hin']%elem_of_cons Hr''; [congruence|eauto].
    + split; [done|]. intros c' r' [[= -> ->] | Hin]%elem_of_cons; [done|eauto].
Qed.

Ltac split_bools :=
  repeat match goal with
  | |- context [(?a <=? ?b)%Z] => destruct (Z.leb_spec a b)
  | |- context [(?a <? ?b)%Z] => destruct (Z.ltb_spec a b)
  | |- context [(?a =? ?b)%Z] => destruct (Z.eqb_spec a b)
  end; cbn.

(** ** Counts above two hundred repeat *)

(** A count below 200 with the same size class and the same last two digits. *)
Definition small_count (n : Z) : Z := if n <? 200 then n else 100 + n mod 100.

Lemma small_count_range n : 0 <= n -> 0 <= small_count n < 200.
Proof. unfold small_count. destruct (Z.ltb_spec n 200); [lia|]. pose proof (Z.mod_pos_bound n 100). lia. Qed.

Lemma small_count_mod n m : 0 < m -> (m | 100) -> small_count n mod m = n mod m.
Proof.
  unfold small_count. intros Hm Hd. destruct (Z.ltb_spec n 200); [done|].
  rewrite <- (Z.mod_mod_divide n 100 m) by done. destruct Hd as [k ->].
  replace (k * m + n mod (k * m)) with (n mod (k * m) + k * m) by lia. by rewrite Z.mod_add by lia.
Qed.

(** A rule of the comments: its moduli divide 100, and it compares the count
    itself with small numbers only. *)
Fixpoint small_rule (r : rule) : bool :=
  match r with
  | In m lo hi | NotIn m lo hi => (m =? 10) || (m =? 100) || ((m =? 0) && (hi <? 100))
  | And a b | Or a b => small_rule a && small_rule b
  end.

Lemma holds_small r n : small_rule r = true -> 0 <= n -> holds r (small_count n) = holds r n.
Proof.
  intros Hr Hn.
  assert (Hin : forall m lo hi, (m =? 10) || (m =? 100) || ((m =? 0) && (hi <? 100)) = true ->
            (lo <=? small_count n mod m) && (small_count n mod m <=? hi)
            = (lo <=? n mod m) && (n mod m <=? hi)).
  { intros m lo hi [[->%Z.eqb_eq | ->%Z.eqb_eq]%orb_prop | [->%Z.eqb_eq H]%andb_prop]%orb_prop;
      [by rewrite small_count_mod by (exists 10 || lia; lia) | by rewrite small_count_mod by (exists 1 || lia; lia)|].
    rewrite !Z.mod_0_r. apply Z.ltb_lt in H. unfold small_count.
    destruct (Z.ltb_spec n 200); [done|]. pose proof (Z.mod_pos_bound n 100).
    rewrite !(proj2 (Z.leb_gt _ hi)) by lia. by rewrite !andb_false_r. }
  induction r; cbn in *; rewrite ?Hin by done; try done;
    apply andb_prop in Hr as [? ?]; by rewrite IHr1, IHr2.
Qed.

Lemma first_rule_small d n :
  forallb (fun p => small_rule p.2) d = true -> 0 <= n ->
  first_rule d (small_count n) = first_rule d n /\ exclusive d (small_count n) = exclusive d n.
Proof.
  intros Hd Hn. induction d as [|[c r] d IH]; [done|]. cbn in *. apply andb_prop in Hd as [Hr Hd].
  destruct (IH Hd) as [-> ->]. rewrite holds_small by done. split; [done|]. do 2 f_equal.
  clear IH. induction d as [|[c' r'] d IH]; [done|]. cbn in *. apply andb_prop in Hd as [Hr' Hd].
  by rewrite holds_small, IH by done.
Qed.

(** The counts 0..199. *)
Definition counts : list Z := seqZ 0 200.

Lemma small_in_counts n : 0 <= n -> small_count n ∈ counts.
Proof. intros Hn. apply elem_of_seqZ. pose proof (small_count_range n Hn). lia. Qed.

(** The remainder Go computes for a count that is not negative. *)
Lemma int_rem_small n m : 0 <= n -> 0 < m -> (m | 100) -> int_rem (small_count n) m = int_rem n m.
Proof.
  intros Hn Hm Hd. unfold int_rem. pose proof (small_count_range n Hn).
  by rewrite !Z.rem_mod_nonneg, small_count_mod by (done || lia).
Qed.

Ltac fold_large n :=
  repeat match goal with
  | |- context [(n =? ?k)%Z] => replace (n =? k)%Z with false by (symmetry; apply Z.eqb_neq; lia)
  | |- context [(n <? ?k)%Z] => replace (n <? k)%Z with false by (symmetry; apply Z.ltb_ge; lia)
  | |- context [(n <=? ?k)%Z] => replace (n <=? k)%Z with false by (symmetry; apply Z.leb_gt; lia)
  end.

Lemma family_small f d n : (f, d) ∈ families -> 0 <= n -> f (small_count n) = f n.
Proof.
  intros Hf Hn.
  pose proof (int_rem_small n 10 Hn ltac:(lia) ltac:(exists 10; lia)) as H10.
  pose proof (int_rem_small n 100 Hn ltac:(lia) ltac:(exists 1; lia)) as H100.
  destruct (Z.ltb_spec n 200) as [Hs|Hs].
  { unfold small_count. by rewrite (proj2 (Z.ltb_lt n 200)). }
  assert (Hl : 100 <= small_count n).
  { unfold small_count. rewrite (proj2 (Z.ltb_ge n 200)) by done.
    pose proof (Z.mod_pos_bound n 100). lia. }
  generalize dependent (small_count n). intros k H10 H100 Hl.
  repeat (apply elem_of_cons in Hf as [[= -> ->] | Hf]); [..|by apply not_elem_of_nil in Hf];
    unfold PluralEnglish, PluralFrench, PluralRussian, PluralPolish, PluralCzech, PluralArabic,
      PluralAsian, PluralRomanian, PluralLithuanian, PluralLatvian, PluralIrish, PluralWelsh;
    fold_large n; fold_large k; cbv beta zeta iota; by rewrite ?H10, ?H100, ?andb_false_r.
Qed.

(** Each function and its comment on the two hundred counts that matter. *)
Lemma families_checked :
  forallb (fun p => forallb (fun n => String.eqb (p.1 n) (first_rule p.2 n) && exclusive p.2 n) counts
                    && forallb (fun q => small_rule q.2) p.2) families = true.
Proof. by vm_compute. Qed.

Lemma family_first f d n :
  (f, d) ∈ families -> 0 <= n -> f n = first_rule d n /\ exclusive d n = true.
Proof.
  intros Hf Hn. pose proof families_checked as Hc. rewrite forallb_forall in Hc.
  specialize (Hc (f, d)). rewrite <- list_elem_of_In in Hc. apply Hc in Hf as Hd.
  apply andb_prop in Hd as [Hd Hs]. rewrite forallb_forall in Hd. cbn [fst snd] in *.
  specialize (Hd (small_count n)). rewrite <- list_elem_of_In in Hd.
  specialize (Hd (small_in_counts n Hn)). apply andb_prop in Hd as [He Hx].
  apply String.eqb_eq in He. destruct (first_rule_small d n Hs Hn) as [H1 H2].
  rewrite <- (family_small f d n), <- H1, <- H2 by done. done.
Qed.

(** ** The table *)

Lemma GetPluralFunc_family locale : exists d, (GetPluralFunc locale, d) ∈ families.
Proof.
  unfold GetPluralFunc. cbv zeta.
  repeat match goal with |- context [if one_of ?a ?b then _ else _] => destruct (one_of a b) end;
    eexists; unfold families; repeat first [apply list_elem_of_here | apply list_elem_of_further].
Qed.

Lemma is_tag_separator_lower c : is_tag_separator (lower_byte c) = is_tag_separator c.
Proof.
  apply eqb_prop. revert c. apply ascii_forall. by vm_compute.
Qed.

Lemma cut_separator_lower s : cut_separator (ToLower s) = ToLower <$> cut_separator s.
Proof.
  induction s as [|c s IH]; [done|]. cbn. rewrite is_tag_separator_lower.
  destruct (is_tag_separator c); [done|]. unfold ToLower in *. rewrite IH. by destruct (cut_separator s).
Qed.

Lemma cut_separator_app s c t :
  cut_separator s = None -> is_tag_separator c = true -> cut_separator (s +:+ String c t) = Some s.
Proof.
  intros Hs Hc. induction s as [|d s IH]; cbn in *; [by rewrite Hc|].
  destruct (is_tag_separator d); [done|]. destruct (cut_separator s); [done|]. by rewrite IH.
Qed.

Lemma base_of_lower s : base_of (ToLower s) = ToLower <$> base_of s.
Proof. unfold base_of. rewrite cut_separator_lower. by destruct (cut_separator s) as [[|]|]. Qed.

Lemma base_of_tag lang c region :
  cut_separator lang = None -> lang <> "" -> is_tag_separator c = true ->
  base_of (lang +:+ String c region) = Some lang.
Proof. intros Hl Hn Hc. unfold base_of. rewrite cut_separator_app by done. by destruct lang. Qed.

Lemma base_of_plain lang : cut_separator lang = None -> base_of lang = None.
Proof. unfold base_of. by intros ->. Qed.

(** ** Theorems *)

(** The plural function of a locale says, on every count that is not
    negative, what its doc comment says: the one form whose rule the count
    meets (no two rules of a comment overlap), or [other] when it meets none.
    Counts are unbounded: the function and the comment both look at a count
    above two hundred through its last two digits only. *)
Theorem plural_follows_docs locale :
  exists d, (GetPluralFunc locale, d) ∈ families /\
    forall n, 0 <= n -> says d n (GetPluralFunc locale n).
Proof.
  destruct (GetPluralFunc_family locale) as [d Hd]. exists d. split; [done|]. intros n Hn.
  destruct (family_first _ d n Hd Hn) as [-> Hx]. by apply says_first.
Qed.

(** The table looks at the language only: a region after [-] or [_] and the
    case of the letters make no difference. *)
Theorem GetPluralFunc_language lang c region :
  cut_separator lang = None -> lang <> "" -> is_tag_separator c = true ->
  GetPluralFunc (lang +:+ String c region) = GetPluralFunc lang /\
  GetPluralFunc (ToLower lang) = GetPluralFunc lang.
Proof.
  intros Hl Hn Hc. unfold GetPluralFunc.
  rewrite !base_of_lower, base_of_tag, base_of_plain, ToLower_idem by done. done.
Qed.

Lemma GetPluralFunc_language_witness :
  ("ar" <> "") /\ GetPluralFunc "ar-EG" = GetPluralFunc "ar" /\ GetPluralFunc (ToLower "PL") = GetPluralFunc "PL".
Proof.
  split; [done|]. split.
  - apply (GetPluralFunc_language "ar" "-" "EG"); [reflexivity|done|reflexivity].
  - apply (GetPluralFunc_language "PL" "-" "pl"); [reflexivity|done|reflexivity].
Defined.

(** Negative counts: only the Russian rules take the absolute value (and
    they do for every [int] but the smallest, whose negation is itself); the
    Polish ones still see a count that ends in 0 as [many]; every other family,
    and the Polish one on other counts, answers [other] whatever the last digits
    are. *)
Theorem plural_negative f d n :
  (f, d) ∈ families -> min_int64 <= n < 0 ->
  (d <> doc_Russian /\ f n = if bool_decide (d = doc_Polish) && (int_rem n 10 =? 0) then PluralMany else PluralOther) \/
  (d = doc_Russian /\ (n <> min_int64 -> f n = PluralRussian (- n)) /\
   (n = min_int64 -> f n = PluralOther)).
Proof.
  intros Hf Hn.
  assert (H10 : forall m, 0 < m -> int_rem n m <= 0).
  { intros m Hm. unfold int_rem. pose proof (Z.rem_nonpos n m). lia. }
  pose proof (H10 10 ltac:(lia)) as H1. pose proof (H10 100 ltac:(lia)) as H2. clear H10.
  repeat (apply elem_of_cons in Hf as [[= -> ->] | Hf]); [..|by apply not_elem_of_nil in Hf];
    try (left; split; [discriminate|]; rewrite ?bool_decide_eq_true_2, ?bool_decide_eq_false_2 by done;
         unfold PluralEnglish, PluralFrench, PluralPolish, PluralCzech, PluralArabic,
           PluralAsian, PluralRomanian, PluralLithuanian, PluralLatvian, PluralIrish, PluralWelsh;
         generalize dependent (int_rem n 10); generalize dependent (int_rem n 100); intros b Hb a Ha;
         split_bools; try done; lia).
  right. split; [done|]. split.
  - intros Hm. unfold PluralRussian. rewrite (proj2 (Z.ltb_lt n 0)) by lia.
    rewrite (proj2 (Z.ltb_ge (- n) 0)) by lia. rewrite wrap64_id; [done|]. unfold in_int64, min_int64, max_int64 in *. lia.
  - intros ->. by vm_compute.
Qed.

Lemma plural_negative_witness :
  (PluralLithuanian, doc_Lithuanian) ∈ families /\ PluralLithuanian (-2) = PluralOther /\
  PluralRussian (-2) = PluralFew.
Proof.
  assert (H : (PluralLithuanian, doc_Lithuanian) ∈ families).
  { do 8 apply list_elem_of_further. apply list_elem_of_here. }
  split; [done|]. split; [|reflexivity].
  destruct (plural_negative PluralLithuanian doc_Lithuanian (-2) H ltac:(unfold min_int64; lia)) as [[_ E]|[E _]];
    [exact E|discriminate].
Defined.
