(* ===== verification/I18n.v ===== *)
(** * Translation bundles

    [src/pantry/i18n/i18n.go], with [RegisterPluralFunc] of [plural.go]: the
    bundle of messages, the look-up of a message through its fallback chain,
    translation with arguments and with a count, and the flattening of nested
    messages.

    A [Localizer] is a pointer to the bundle and a locale: its methods take both.
    [None] as the result of a translation is the panic of a nil
    [missingKeyFunc].  [fmt.Sprintf] and [text/template] are modelled on what
    messages use, the verbs [%d], [%s], [%v] and [%%] without flags and the
    action [{{.Name}}]; the rest of both languages (and the functions of
    [templateFuncs], which nothing in the package fills) is the class [Text].
    The mutexes are not modelled: every method holds one for its whole access. *)

From stdpp Require Import strings.
From S2P Require Import Prelude GoStrings Plural.

#[local] Open Scope list_scope.

(** ** Arguments *)

(** What an argument, or a value of a map argument, can be. *)
Inductive datum : Type :=
  | DInt (z : Z)
  | DStr (s : string).

Inductive any : Type :=
  | One (d : datum)
  | AMap (m : gmap string datum)
  | AOther (ty : string).

(** The data of a template: the one argument, or the slice of all. *)
Inductive data : Type :=
  | Arg (a : any)
  | Args (l : list any).

Class Text := {
  sprintf_other : string -> list any -> string;
  (** [None]: the message does not parse, or its execution fails. *)
  template_other : string -> data -> option string
}.

Definition show (d : datum) : string := match d with DInt z => Itoa z | DStr s => s end.
Definition type_name (d : datum) : string := match d with DInt _ => "int" | DStr _ => "string" end.

(** ** [fmt.Sprintf] *)

Definition typed (d : datum) : string := type_name d +:+ "=" +:+ show d.

(** One verb applied to its argument. *)
Definition verb (v : ascii) (d : datum) : option string :=
  if Ascii.eqb v "v" then Some (show d)
  else if Ascii.eqb v "d" then
    Some (match d with DInt z => Itoa z | DStr _ => "%!d(" +:+ typed d +:+ ")" end)
  else if Ascii.eqb v "s" then
    Some (match d with DStr s => s | DInt _ => "%!s(" +:+ typed d +:+ ")" end)
  else None.

Definition extra (args : list datum) : string :=
  match args with
  | [] => ""
  | _ => "%!(EXTRA " +:+ String.concat ", " (map typed args) +:+ ")"
  end.

Fixpoint sprintf (format : string) (args : list datum) : option string :=
  match format with
  | "" => Some (extra args)
  | String c s =>
      if Ascii.eqb c "%" then
        match s with
        | "" => Some ("%!(NOVERB)" +:+ extra args)
        | String v s =>
            if Ascii.eqb v "%" then String "%" <$> sprintf s args
            else match args with
                 | [] => if one_of (String v "") ["d"; "s"; "v"]
                         then String.append ("%!" +:+ String v "(MISSING)") <$> sprintf s []
                         else None
                 | d :: args =>
                     match verb v d with
                     | Some t => String.append t <$> sprintf s args
                     | None => None
                     end
                 end
        end
      else String c <$> sprintf s args
  end.

Definition plain_arg (a : any) : option datum := match a with One d => Some d | _ => None end.

Definition Sprintf `{Text} (format : string) (args : list any) : string :=
  match mapM plain_arg args with
  | Some l => default (sprintf_other format args) (sprintf format l)
  | None => sprintf_other format args
  end.

(** ** [text/template] *)

Definition ident_start (c : ascii) : bool := is_upper c || is_lower c || Ascii.eqb c "_".
Definition ident_char (c : ascii) : bool := ident_start c || is_digit c.

Fixpoint take_ident (s : string) : string * string :=
  match s with
  | String c s' => if ident_char c then let '(a, r) := take_ident s' in (String c a, r) else ("", s)
  | "" => ("", "")
  end.

Fixpoint skip_blanks (s : string) : string :=
  match s with
  | String " " s => skip_blanks s
  | _ => s
  end.

(** [.Name}}] with blanks around: the name and the rest. *)
Definition field_action (s : string) : option (string * string) :=
  match skip_blanks s with
  | String "." (String c _ as s) =>
      if ident_start c then
        let '(name, r) := take_ident s in
        match skip_blanks r with
        | String "}" (String "}" rest) => Some (name, rest)
        | _ => None
        end
      else None
  | _ => None
  end.

Inductive piece : Type :=
  | Lit (c : ascii)
  | Field (name : string).

Fixpoint pieces (fuel : nat) (s : string) : option (list piece) :=
  match fuel with
  | O => None
  | S fuel =>
      match s with
      | "" => Some []
      | String c s' =>
          if HasPrefix s "{{"
          then match field_action (str_drop 2 s) with
               | Some (name, rest) => cons (Field name) <$> pieces fuel rest
               | None => None
               end
          else cons (Lit c) <$> pieces fuel s'
      end
  end.

Definition render_piece (m : gmap string datum) (p : piece) : string :=
  match p with
  | Lit c => String c ""
  | Field k => match m !! k with Some d => show d | None => "<no value>" end
  end.

Definition is_field (p : piece) : bool := match p with Field _ => true | Lit _ => false end.

(** Parse and execute: [None] is an error of either. *)
Definition Execute `{Text} (msg : string) (d : data) : option string :=
  match pieces (S (String.length msg)) msg, d with
  | Some ps, Arg (AMap m) => Some (String.concat "" (map (render_piece m) ps))
  | Some ps, Arg (One _) | Some ps, Args _ =>
      if existsb is_field ps then None else Some msg
  | _, _ => template_other msg d
  end.

(** ** The bundle *)

Record Locale := mkLocale {
  Tag : string;
  Messages : gmap string string;
  PluralRules : option PluralFunc
}.

Definition MissingKeyFunc : Type := string -> string -> string.

Record Bundle := mkBundle {
  locales : gmap string Locale;
  defaultLocale : string;
  fallbackLocale : string;
  missingKeyFunc : option MissingKeyFunc
}.

Definition defaultMissingKeyFunc : MissingKeyFunc := fun _ key => key.

Definition NewBundle (defaultLocale : string) : Bundle :=
  mkBundle ∅ defaultLocale defaultLocale (Some defaultMissingKeyFunc).

Definition SetFallbackLocale (b : Bundle) (locale : string) : Bundle :=
  mkBundle (locales b) (defaultLocale b) locale (missingKeyFunc b).

Definition SetMissingKeyFunc (b : Bundle) (fn : option MissingKeyFunc) : Bundle :=
  mkBundle (locales b) (defaultLocale b) (fallbackLocale b) fn.

Definition with_locales (b : Bundle) (l : gmap string Locale) : Bundle :=
  mkBundle l (defaultLocale b) (fallbackLocale b) (missingKeyFunc b).

Definition AddLocale (b : Bundle) (tag : string) (messages : gmap string string) : Bundle :=
  let locale := default (mkLocale tag ∅ (Some (GetPluralFunc tag))) (locales b !! tag) in
  with_locales b (<[tag := mkLocale (Tag locale) (messages ∪ Messages locale) (PluralRules locale)]> (locales b)).

Definition AddMessages (b : Bundle) (locale : string) (messages : gmap string string) : Bundle :=
  AddLocale b locale messages.

Definition RegisterPluralFunc (b : Bundle) (locale : string) (fn : option PluralFunc) : Bundle :=
  let loc := default (mkLocale locale ∅ None) (locales b !! locale) in
  with_locales b (<[locale := mkLocale (Tag loc) (Messages loc) fn]> (locales b)).

(** The tags in some order. *)
Definition Locales (b : Bundle) : list string := (map_to_list (locales b)).*1.

Definition HasLocale (b : Bundle) (locale : string) : bool := bool_decide (is_Some (locales b !! locale)).

Definition DefaultLocale (b : Bundle) : string := defaultLocale b.

(** ** Nested messages *)

(** The value of a JSON object's key: [NOther] is a number, a boolean, null or
    an array. *)
Inductive nested : Type :=
  | NStr (s : string)
  | NMap (m : list (string * nested))
  | NOther.

(** The map is listed in the order the loop visits it, which Go leaves open. *)
Fixpoint flatten_value (v : nested) (key : string) (result : gmap string string) : gmap string string :=
  match v with
  | NStr s => <[key := s]> result
  | NMap m =>
      foldl (fun r '(k, v) => flatten_value v (if String.eqb key "" then k else key +:+ "." +:+ k) r) ∅ m ∪ result
  | NOther => result
  end.

Definition flattenMap (m : list (string * nested)) (prefix : string) : gmap string string :=
  flatten_value (NMap m) prefix ∅.

(** ** Look-up *)

Definition lookup_in (b : Bundle) (locale key : string) : option string :=
  match locales b !! locale with
  | Some loc => Messages loc !! key
  | None => None
  end.

Definition getMessage (b : Bundle) (locale key : string) : option string :=
  match lookup_in b locale key with
  | Some msg => Some msg
  | None =>
      match match base_of locale with Some base => lookup_in b base key | None => None end with
      | Some msg => Some msg
      | None => if String.eqb locale (fallbackLocale b) then None else lookup_in b (fallbackLocale b) key
      end
  end.

Definition missing (b : Bundle) (locale key : string) : option string :=
  match missingKeyFunc b with
  | Some fn => Some (fn locale key)
  | None => None
  end.

(** ** Translation *)

Section translate.
Context `{Text}.

Definition executeTemplate (msg : string) (args : list any) : string :=
  let data := match args with [a] => Arg a | _ => Args args end in
  default msg (Execute msg data).

Definition T (b : Bundle) (locale key : string) (args : list any) : option string :=
  match getMessage b locale key with
  | None => missing b locale key
  | Some msg =>
      Some (match args with
            | [] => msg
            | _ => if Contains msg "{{" then executeTemplate msg args else Sprintf msg args
            end)
  end.

Definition plural_func (b : Bundle) (locale : string) : PluralFunc :=
  match locales b !! locale with
  | Some loc => default PluralEnglish (PluralRules loc)
  | None => PluralEnglish
  end.

(** The map a plural template is executed with. *)
Definition plural_data (count : Z) (args : list any) : gmap string datum :=
  match args with
  | [AMap m] => m ∪ {["Count" := DInt count]}
  | _ => {["Count" := DInt count]}
  end.

Definition TPlural (b : Bundle) (locale key : string) (count : Z) (args : list any) : option string :=
  let form := plural_func b locale count in
  let pluralKey := key +:+ "." +:+ form in
  match match getMessage b locale pluralKey with
        | Some msg => Some msg
        | None => getMessage b locale key
        end with
  | None => missing b locale key
  | Some msg =>
      Some (if Contains msg "{{" then executeTemplate msg [AMap (plural_data count args)]
            else Sprintf msg [One (DInt count)])
  end.

Definition N := TPlural.

Definition Has (b : Bundle) (locale key : string) : bool :=
  bool_decide (is_Some (getMessage b locale key)).

Definition Bundle_T (b : Bundle) (key : string) (args : list any) : option string :=
  T b (defaultLocale b) key args.

Definition TWithLocale (b : Bundle) (locale key : string) (args : list any) : option string :=
  T b locale key args.

(** The localizer of a context: the bundle (as it is now) and its locale. *)
Definition context_T (l : option (Bundle * string)) (key : string) (args : list any) : option string :=
  match l with
  | None => Some key
  | Some (b, locale) => T b locale key args
  end.

Definition context_TPlural (l : option (Bundle * string)) (key : string) (count : Z) (args : list any) : option string :=
  match l with
  | None => Some key
  | Some (b, locale) => TPlural b locale key count args
  end.

Definition Global (globalBundle : option Bundle) (key : string) (args : list any) : option string :=
  match globalBundle with
  | None => Some key
  | Some b => Bundle_T b key args
  end.

Definition GlobalWithLocale (globalBundle : option Bundle) (locale key : string) (args : list any) : option string :=
  match globalBundle with
  | None => Some key
  | Some b => TWithLocale b locale key args
  end.

End translate.

(** ** The fallback chain *)

(** The locales whose messages a translation tries, in order. *)
Definition candidates (b : Bundle) (locale : string) : list string :=
  locale :: match base_of locale with Some base => [base] | None => [] end ++ [fallbackLocale b].

Lemma getMessage_head b locale key :
  getMessage b locale key = head (omap (fun l => lookup_in b l key) (candidates b locale)).
Proof.
  unfold getMessage, candidates. cbn.
  destruct (lookup_in b locale key) eqn:E; [done|].
  destruct (base_of locale) as [base|]; cbn; [destruct (lookup_in b base key); [done|]|];
    destruct (String.eqb_spec locale (fallbackLocale b)) as [<-|];
    rewrite ?E; try done; by destruct (lookup_in b (fallbackLocale b) key).
Qed.

Lemma lookup_in_AddLocale b tag msgs locale key :
  lookup_in (AddLocale b tag msgs) locale key =
  if decide (locale = tag)
  then match msgs !! key with Some m => Some m | None => lookup_in b tag key end
  else lookup_in b locale key.
Proof.
  unfold lookup_in, AddLocale, with_locales. cbn. destruct (decide (locale = tag)) as [->|Hn].
  - rewrite lookup_insert_eq. cbn. rewrite lookup_union.
    destruct (locales b !! tag) as [loc|]; cbn; [|rewrite lookup_empty];
      destruct (msgs !! key); cbn; try done; by destruct (Messages loc !! key).
  - by rewrite lookup_insert_ne.
Qed.

(** ** Nested messages *)

Definition extend (key k : string) : string := if String.eqb key "" then k else key +:+ "." +:+ k.
Definition dotted (key : string) (path : list string) : string := foldl extend key path.

(** The message at a path of keys. *)
Fixpoint lookup_path (v : nested) (path : list string) : option string :=
  match path, v with
  | [], NStr s => Some s
  | k :: path, NMap m =>
      match (list_to_map m : gmap string nested) !! k with
      | Some v => lookup_path v path
      | None => None
      end
  | _, _ => None
  end.

(** A key that is one path element. *)
Definition plain_key (k : string) : bool := negb (String.eqb k "") && negb (string_has "." k).

(** Every key is plain, and an object has no key twice. *)
Fixpoint plain_tree (v : nested) : bool :=
  match v with
  | NMap m => bool_decide (NoDup m.*1) && forallb plain_key m.*1 && forallb (fun p => plain_tree p.2) m
  | _ => true
  end.

Section nested_induction.
Variables (P : nested -> Prop).
Hypothesis (Hstr : forall s, P (NStr s)) (Hother : P NOther).
Hypothesis (Hmap : forall m, Forall (fun p => P p.2) m -> P (NMap m)).

Fixpoint nested_tree_ind (v : nested) : P v :=
  match v with
  | NStr s => Hstr s
  | NOther => Hother
  | NMap m =>
      Hmap m ((fix all (m : list (string * nested)) : Forall (fun p => P p.2) m :=
                 match m with
                 | [] => @List.Forall_nil _ _
                 | (k, w) :: m => @List.Forall_cons _ (fun p => P p.2) (k, w) m (nested_tree_ind w) (all m)
                 end) m)
  end.
End nested_induction.

Lemma flatten_acc v key r : flatten_value v key r = flatten_value v key ∅ ∪ r.
Proof.
  destruct v; cbn; [by rewrite <- insert_union_l, (left_id_L ∅ (∪)) | by rewrite (right_id_L ∅ (∪)) |
    by rewrite (left_id_L ∅ (∪))].
Qed.

(** What a loop that merges maps leaves, when no two of them share the key. *)
Lemma merge_lookup {A : Type} (F : A -> gmap string string) (l : list A) (r : gmap string string) k s :
  (forall p q, p ∈ l -> q ∈ l -> is_Some (F p !! k) -> is_Some (F q !! k) -> p = q) ->
  foldl (fun r p => F p ∪ r) r l !! k = Some s <->
  (exists p, p ∈ l /\ F p !! k = Some s) \/ ((forall p, p ∈ l -> F p !! k = None) /\ r !! k = Some s).
Proof.
  revert r. induction l as [|p l IH]; intros r HD; cbn.
  { split; [intros Hr; right; split; [set_solver|done] | by intros [(p & H & _)|[_ H]]; [apply not_elem_of_nil in H|]]. }
  rewrite IH by (intros; apply HD; by try right). rewrite lookup_union_Some_raw. split.
  - intros [(q & Hq & Hk)|[Hn [Hp|[Hp Hr]]]].
    + left. exists q. by split; [right|].
    + left. exists p. by split; [left|].
    + right. split; [|done]. by intros q [->|Hq]%elem_of_cons; [|apply Hn].
  - intros [(q & [->|Hq]%elem_of_cons & Hk)|[Hn Hr]].
    + destruct (decide (Exists (fun q => is_Some (F q !! k)) l)) as [(q & Hq & HS)%list.Exists_exists | Hn].
      * left. assert (p = q) as -> by (apply HD; [left|by right|by eexists|done]). by exists q.
      * right. split; [|by left]. intros q Hq. apply eq_None_not_Some. intros HS.
        apply Hn, list.Exists_exists. by exists q.
    + left. by exists q.
    + right. split; [intros; apply Hn; by right|]. right. split; [|done]. apply Hn. by left.
Qed.

Lemma extend_ne key k : k <> "" -> extend key k <> "".
Proof. unfold extend. by destruct key. Qed.

Lemma dotted_join key k path :
  k <> "" -> Forall (fun k => k <> "") path ->
  dotted key (k :: path) = (if String.eqb key "" then "" else key +:+ ".") +:+ String.concat "." (k :: path).
Proof.
  intros Hk Hp. revert key k Hk. induction path as [|k' path IH]; intros key k Hk.
  { unfold dotted, extend. cbn. destruct (String.eqb key ""); [done|]. by rewrite <- string_app_assoc. }
  apply Forall_cons_1 in Hp as [Hk' Hp].
  change (dotted key (k :: k' :: path)) with (dotted (extend key k) (k' :: path)).
  rewrite IH by done. rewrite (proj2 (String.eqb_neq _ _)) by by apply extend_ne.
  change (String.concat "." (k :: k' :: path)) with (k +:+ "." +:+ String.concat "." (k' :: path)).
  unfold extend. destruct (String.eqb key ""); cbn; by rewrite <- ?string_app_assoc.
Qed.

Lemma string_app_inj s t u : s +:+ t = s +:+ u -> t = u.
Proof. induction s as [|c s IH]; [done|]. cbn. intros [= H]. by apply IH. Qed.

Lemma plain_key_spec k : plain_key k = true <-> k <> "" /\ string_has "." k = false.
Proof. unfold plain_key. rewrite andb_true_iff, !negb_true_iff, String.eqb_neq. done. Qed.

Lemma plain_path_split path :
  Forall (fun k => plain_key k = true) path ->
  Forall (fun k => k <> "") path /\ Forall (fun k => string_has "." k = false) path.
Proof. intros H. split; (eapply list.Forall_impl; [exact H|]); by intros k [? ?]%plain_key_spec. Qed.

Lemma dotted_inj key p q :
  p <> [] -> q <> [] -> Forall (fun k => plain_key k = true) p -> Forall (fun k => plain_key k = true) q ->
  dotted key p = dotted key q -> p = q.
Proof.
  intros Hp0 Hq0 [Hp Hp']%plain_path_split [Hq Hq']%plain_path_split H.
  destruct p as [|k p], q as [|k' q]; try done.
  pose proof (Forall_cons_1 _ _ _ Hp) as [? ?]. pose proof (Forall_cons_1 _ _ _ Hq) as [? ?].
  rewrite !dotted_join in H by done. apply string_app_inj in H.
  rewrite <- (split_byte_concat "." (k :: p)), <- (split_byte_concat "." (k' :: q)) by done. by rewrite H.
Qed.

Lemma lookup_path_plain v path s :
  plain_tree v = true -> lookup_path v path = Some s -> Forall (fun k => plain_key k = true) path.
Proof.
  revert v. induction path as [|k path IH]; intros v Hv Hl; [constructor|].
  destruct v as [|m|]; cbn in Hl; try done.
  destruct (list_to_map m !! k) as [v|] eqn:E; [|done].
  apply elem_of_list_to_map_2 in E. cbn in Hv.
  apply andb_prop in Hv as [[_ Hk]%andb_prop Hm]. rewrite forallb_forall in Hk, Hm. constructor.
  - apply Hk, list_elem_of_In, list_elem_of_fmap. by exists (k, v).
  - eapply IH; [|exact Hl]. apply (Hm (k, v)). by apply list_elem_of_In.
Qed.

Lemma flatten_spec v key k s :
  plain_tree v = true ->
  flatten_value v key ∅ !! k = Some s <-> exists path, dotted key path = k /\ lookup_path v path = Some s.
Proof.
  revert key k s. induction v as [t| |m IH] using nested_tree_ind; intros key k s Hv.
  - cbn. rewrite lookup_insert_Some, lookup_empty. split.
    + intros [[<- <-]|[_ ?]]; [by exists []|done].
    + intros ([|] & <- & H); [by left; injection H|done].
  - cbn. rewrite lookup_empty. split; [done|]. by intros ([|] & _ & H).
  - cbn in Hv. apply andb_prop in Hv as [[Hd Hk]%andb_prop Hm]. apply bool_decide_eq_true in Hd.
    rewrite forallb_forall in Hm. rewrite list.Forall_forall in IH.
    assert (Hrec : forall p, p ∈ m -> forall k s, flatten_value p.2 (extend key p.1) ∅ !! k = Some s <->
              exists path, dotted key (p.1 :: path) = k /\ lookup_path p.2 path = Some s).
    { intros p Hp k' s'. apply IH; [done|]. by apply Hm, list_elem_of_In. }
    assert (Hfold : flatten_value (NMap m) key ∅ =
              foldl (fun r p => flatten_value p.2 (extend key p.1) ∅ ∪ r) ∅ m).
    { cbn. rewrite (right_id_L ∅ (∪)). generalize (∅ : gmap string string) at 1 3.
      clear. induction m as [|[k v] m IHm]; intros r; [done|]. cbn. rewrite flatten_acc. apply IHm. }
    rewrite Hfold, merge_lookup.
    + split.
      * intros [([k0 v0] & Hin & Hf)|[_ H]]; [|by apply lookup_empty_Some in H].
        apply Hrec in Hf as (path & Hp & Hl); [|done]. exists (k0 :: path). cbn in *. split; [done|]. by rewrite (elem_of_list_to_map_1 m k0 v0).
      * intros ([|k0 path] & Hp & Hl); [done|]. cbn in Hl.
        destruct (list_to_map m !! k0) as [v0|] eqn:E; [|done]. apply elem_of_list_to_map_2 in E.
        left. exists (k0, v0). split; [done|]. apply Hrec; [done|]. by exists path.
    + intros [k1 v1] [k2 v2] H1 H2 [s1 (p1 & Hp1 & Hl1)%Hrec] [s2 (p2 & Hp2 & Hl2)%Hrec]; [|done..].
      cbn in *. rewrite forallb_forall in Hk.
      assert (Hplain : forall k v p s, (k, v) ∈ m -> lookup_path v p = Some s ->
                Forall (fun k => plain_key k = true) (k :: p)).
      { intros k' v' p' s' Hin Hl'. constructor.
        - apply Hk, list_elem_of_In, list_elem_of_fmap. by exists (k', v').
        - eapply lookup_path_plain; [|done]. apply (Hm (k', v')). by apply list_elem_of_In. }
      assert (E : k1 :: p1 = k2 :: p2) by (eapply dotted_inj; [done|done|by eapply Hplain|by eapply Hplain|etrans; [exact Hp1|symmetry; exact Hp2]]).
      injection E as -> ->. f_equal.
      apply (elem_of_list_to_map_1 (M := gmap string)) in H1, H2; [|done..]. congruence.
Qed.

(** ** Formats *)

Lemma sprintf_plain s args : string_has "%" s = false -> sprintf s args = Some (s +:+ extra args).
Proof.
  induction s as [|c s IH]; cbn; [done|]. intros [Hc Hs]%orb_false_iff. by rewrite Hc, IH.
Qed.

Lemma concat_cons a l : String.concat "" (a :: l) = a +:+ String.concat "" l.
Proof. destruct l; cbn; [by rewrite string_app_nil_r|done]. Qed.

Lemma HasPrefix_brace c s : Ascii.eqb c "{" = false -> HasPrefix (String c s) "{{" = false.
Proof. intros H. cbn [HasPrefix]. by rewrite Ascii.eqb_sym, H. Qed.

Fixpoint literal (s : string) : list piece :=
  match s with "" => [] | String c s => Lit c :: literal s end.

Lemma pieces_literal s fuel t :
  string_has "{" s = false ->
  pieces (String.length s + fuel) (s +:+ t) = app (literal s) <$> pieces fuel t.
Proof.
  induction s as [|c s IH].
  { intros _. cbn [String.length Nat.add String.append literal]. by destruct (pieces fuel t). }
  cbn [string_has String.length Nat.add String.append]. intros [Hc Hs]%orb_false_iff.
  cbn [pieces]. rewrite HasPrefix_brace, IH by done. by destruct (pieces fuel t).
Qed.

Lemma render_literal m s ps :
  String.concat "" (map (render_piece m) (literal s ++ ps)) = s +:+ String.concat "" (map (render_piece m) ps).
Proof. induction s as [|c s IH]; [done|]. cbn [literal app map]. by rewrite concat_cons, IH. Qed.

Lemma Contains_app s t sub : Contains t sub = true -> Contains (s +:+ t) sub = true.
Proof.
  intros Ht. induction s as [|c s IH]; [done|]. cbn [Contains String.append]. by rewrite IH, orb_true_r.
Qed.

(** A message with one [{{.Count}}]. *)
Lemma Execute_count `{Text} pre post m :
  string_has "{" pre = false -> string_has "{" post = false ->
  Execute (pre +:+ "{{.Count}}" +:+ post) (Arg (AMap m)) =
  Some (pre +:+ match m !! "Count" with Some d => show d | None => "<no value>" end +:+ post).
Proof.
  intros Hpre Hpost. unfold Execute. rewrite !string_length_app.
  replace (S (String.length pre + (String.length "{{.Count}}" + String.length post)))
    with (String.length pre + S (S (9 + String.length post)))%nat by (cbn [String.length]; lia).
  rewrite pieces_literal by done.
  assert (E : pieces (S (S (9 + String.length post))) ("{{.Count}}" +:+ post) =
              Some (Field "Count" :: literal post)).
  { change (cons (Field "Count") <$> pieces (S (9 + String.length post)) post = Some (Field "Count" :: literal post)).
    pose proof (pieces_literal post 10 "" Hpost) as E. rewrite string_app_nil_r in E.
    replace (S (9 + String.length post)) with (String.length post + 10)%nat by lia. rewrite E. cbn.
    by rewrite app_nil_r. }
  rewrite E. cbn [fmap option_fmap option_map]. f_equal. rewrite render_literal. f_equal.
  cbn [map]. rewrite concat_cons. f_equal.
  rewrite <- (app_nil_r (literal post)), render_literal. cbn. by rewrite string_app_nil_r.
Qed.

(** ** Sequences of changes *)

Inductive bundle_op : Type :=
  | OAdd (tag : string) (messages : gmap string string)
  | ORegister (locale : string) (fn : option PluralFunc)
  | OFallback (locale : string)
  | OMissing (fn : option MissingKeyFunc).

Definition change (b : Bundle) (o : bundle_op) : Bundle :=
  match o with
  | OAdd tag messages => AddLocale b tag messages
  | ORegister locale fn => RegisterPluralFunc b locale fn
  | OFallback locale => SetFallbackLocale b locale
  | OMissing fn => SetMissingKeyFunc b fn
  end.

(** Every locale is filed under its tag. *)
Definition wf_bundle (b : Bundle) : Prop := map_Forall (fun tag loc => Tag loc = tag) (locales b).

(** The plural function a locale has before anyone registers one. *)
Definition registers (tag : string) (o : bundle_op) : bool :=
  match o with ORegister locale _ => String.eqb locale tag | _ => false end.

Lemma change_wf b o : wf_bundle b -> wf_bundle (change b o).
Proof.
  unfold wf_bundle. intros Hb. destruct o; try done; cbn;
    (apply map_Forall_insert_2; [|done]; cbn);
    match goal with |- context [locales b !! ?t] => destruct (locales b !! t) eqn:E end; cbn; try done; by apply Hb in E.
Qed.

Lemma change_keeps b o :
  defaultLocale (change b o) = defaultLocale b /\
  forall tag, HasLocale b tag = true -> HasLocale (change b o) tag = true.
Proof.
  split; [by destruct o|]. intros tag. unfold HasLocale. rewrite !bool_decide_eq_true.
  intros [loc Hl]. destruct o; cbn; rewrite ?lookup_insert_is_Some; try by exists loc.
  - destruct (decide (tag0 = tag)); [by left|right]. split; [done|by exists loc].
  - destruct (decide (locale = tag)); [by left|right]. split; [done|by exists loc].
Qed.

Lemma change_rules b o tag :
  registers tag o = false -> (forall loc, locales b !! tag = Some loc -> PluralRules loc = Some (GetPluralFunc tag)) ->
  forall loc, locales (change b o) !! tag = Some loc -> PluralRules loc = Some (GetPluralFunc tag).
Proof.
  intros Hr Hb loc. destruct o; cbn; try by apply Hb.
  - intros [[-> <-]|[Hn Hl]]%lookup_insert_Some; [|by apply Hb]. cbn.
    destruct (locales b !! tag) eqn:E; [by apply Hb|done].
  - cbn in Hr. apply String.eqb_neq in Hr.
    intros [[-> _]|[Hn Hl]]%lookup_insert_Some; [done|by apply Hb].
Qed.

(** ** Theorems *)

(** A look-up is the first hit along the fallback chain: the locale itself,
    its base language, the bundle's fallback locale.  The test that skips the
    fallback locale when it is the locale asked for changes nothing. *)
Theorem getMessage_chain b locale key :
  getMessage b locale key = head (omap (fun l => lookup_in b l key) (candidates b locale)).
Proof. apply getMessage_head. Qed.

(** Adding messages: the locale has the new message under each new key and
    its old one under every other; the other locales, the default and the
    fallback are as they were. *)
Theorem AddLocale_spec b tag msgs :
  (forall locale key,
     lookup_in (AddLocale b tag msgs) locale key =
     if decide (locale = tag)
     then match msgs !! key with Some m => Some m | None => lookup_in b tag key end
     else lookup_in b locale key) /\
  (forall locale, HasLocale (AddLocale b tag msgs) locale = String.eqb locale tag || HasLocale b locale) /\
  (forall locale, locale <> tag -> plural_func (AddLocale b tag msgs) locale = plural_func b locale) /\
  (HasLocale b tag = true -> plural_func (AddLocale b tag msgs) tag = plural_func b tag) /\
  (HasLocale b tag = false -> plural_func (AddLocale b tag msgs) tag = GetPluralFunc tag).
Proof.
  split; [intros; apply lookup_in_AddLocale|]. unfold HasLocale, plural_func, AddLocale. cbn. split.
  { intros locale. destruct (String.eqb_spec locale tag) as [->|Hn]; cbn.
    - by rewrite lookup_insert_eq.
    - by rewrite lookup_insert_ne. }
  split; [intros locale Hn; by rewrite lookup_insert_ne|].
  rewrite !lookup_insert_eq. cbn. split.
  - intros [loc ->]%bool_decide_eq_true. done.
  - intros H%bool_decide_eq_false. by destruct (locales b !! tag); [destruct H|].
Qed.

Lemma AddLocale_spec_witness :
  lookup_in (AddLocale (NewBundle "en") "ar" {["a" := "x"]}) "ar" "a" = Some "x" /\
  plural_func (AddLocale (NewBundle "en") "ar" {["a" := "x"]}) "ar" = PluralArabic.
Proof.
  destruct (AddLocale_spec (NewBundle "en") "ar" {["a" := "x"]}) as (H & _ & _ & _ & Hp).
  split; [rewrite H; by vm_compute|]. apply Hp. by vm_compute.
Defined.

(** Whatever is done to a bundle, each locale is filed under its own tag, the
    default locale stays what [NewBundle] was given, a locale once there stays,
    and a locale nobody registered a plural function for has that of the table. *)
Theorem bundle_invariant locale ops :
  let b := foldl change (NewBundle locale) ops in
  wf_bundle b /\ DefaultLocale b = locale /\
  (forall ops' tag, HasLocale b tag = true -> HasLocale (foldl change b ops') tag = true) /\
  (forall tag, forallb (fun o => negb (registers tag o)) ops = true -> HasLocale b tag = true ->
     plural_func b tag = GetPluralFunc tag).
Proof.
  intros b. split; [|split; [|split]].
  - assert (H : wf_bundle (NewBundle locale)) by apply map_Forall_empty. unfold b. clear b.
    revert H. generalize (NewBundle locale). induction ops as [|o ops IH]; intros b Hb; [done|].
    cbn. apply IH. by apply change_wf.
  - change locale with (defaultLocale (NewBundle locale)). unfold b, DefaultLocale. clear b.
    generalize (NewBundle locale). induction ops as [|o ops IH]; intros b; [done|].
    cbn. rewrite IH. apply change_keeps.
  - intros ops'. generalize b. induction ops' as [|o ops' IH]; intros b' tag Hb; [done|].
    cbn. apply IH. by apply change_keeps.
  - intros tag Ho. unfold b, HasLocale, plural_func. clear b.
    assert (H : forall loc, locales (NewBundle locale) !! tag = Some loc -> PluralRules loc = Some (GetPluralFunc tag)).
    { intros loc. cbn. by rewrite lookup_empty. }
    revert H Ho. generalize (NewBundle locale). induction ops as [|o ops IH]; intros b Hb Ho; cbn.
    + intros [loc Hl]%bool_decide_eq_true. rewrite Hl. by rewrite (Hb loc Hl).
    + cbn in Ho. apply andb_prop in Ho as [Ho Hos]. apply IH; [|done].
      apply negb_true_iff in Ho. intros loc. by apply change_rules.
Qed.

(** Nested messages: in an object whose keys are non-empty, without dots and
    distinct, the flat map has a message under a key exactly when the key is a
    path of the object, joined with dots, that ends in that message; so the
    order in which the loop visits a map does not matter. *)
Theorem flattenMap_paths m key s :
  plain_tree (NMap m) = true ->
  flattenMap m "" !! key = Some s <->
  exists path, key = String.concat "." path /\ lookup_path (NMap m) path = Some s.
Proof.
  intros Hm. unfold flattenMap. rewrite flatten_spec by done. split; intros (path & Hk & Hl); exists path.
  - split; [|done]. destruct path as [|k path]; [done|].
    apply lookup_path_plain, plain_path_split in Hl as [Hp _]; [|done].
    apply Forall_cons_1 in Hp as [? ?]. by rewrite <- Hk, dotted_join.
  - split; [|done]. destruct path as [|k path]; [done|].
    apply lookup_path_plain, plain_path_split in Hl as [Hp _]; [|done].
    apply Forall_cons_1 in Hp as [? ?]. by rewrite Hk, dotted_join.
Qed.

Definition some_messages : list (string * nested) :=
  [("welcome", NStr "Welcome"); ("errors", NMap [("required", NStr "required"); ("code", NOther)])].

Lemma flattenMap_paths_witness :
  plain_tree (NMap some_messages) = true /\ flattenMap some_messages "" !! "errors.required" = Some "required".
Proof.
  assert (H : plain_tree (NMap some_messages) = true) by reflexivity. split; [done|].
  apply (flattenMap_paths some_messages "errors.required" "required" H).
  exists ["errors"; "required"]. by split.
Defined.

(** Without that, two entries can meet under one flat key, and the order of
    the loop over the map, which Go leaves open, decides which message is kept:
    the object with ["a.b"] and [a] holding [b] has two readings. *)
Theorem flattenMap_collision x y :
  let m := [("a.b", NStr x); ("a", NMap [("b", NStr y)])] in
  flattenMap m "" !! "a.b" = Some y /\ flattenMap (rev m) "" !! "a.b" = Some x.
Proof.
  unfold flattenMap. cbn. rewrite !(right_id_L ∅ (∪)). split.
  - apply lookup_union_Some_l. by rewrite lookup_insert_eq.
  - by rewrite lookup_insert_eq.
Qed.

(** A plural message without a verb and without an action, such as the
    [items.zero] of the package's documentation, is printed with the complaint
    of [fmt.Sprintf] about the count it did not use. *)
Theorem TPlural_extra `{Text} b locale key n args msg :
  getMessage b locale (key +:+ "." +:+ plural_func b locale n) = Some msg ->
  string_has "%" msg = false -> Contains msg "{{" = false ->
  TPlural b locale key n args = Some (msg +:+ "%!(EXTRA int=" +:+ Itoa n +:+ ")").
Proof.
  intros Hm Hv Ha. unfold TPlural. rewrite Hm, Ha. unfold Sprintf. cbn.
  by rewrite sprintf_plain by done.
Qed.

#[local] Instance no_text : Text :=
  {| sprintf_other format _ := format; template_other msg _ := None |}.

Lemma TPlural_extra_witness :
  getMessage (AddLocale (NewBundle "ar") "ar" {["items.zero" := "You have no items"]}) "ar" "items.zero"
    = Some "You have no items" /\
  TPlural (AddLocale (NewBundle "ar") "ar" {["items.zero" := "You have no items"]}) "ar" "items" 0 []
    = Some "You have no items%!(EXTRA int=0)".
Proof.
  split; [by vm_compute|].
  apply (TPlural_extra _ "ar" "items" 0 [] "You have no items"); by vm_compute.
Defined.

(** A plural message with one [{{.Count}}] is printed with the count in its
    place, or with what the caller's map has under [Count]. *)
Theorem TPlural_count `{Text} b locale key n m pre post :
  getMessage b locale (key +:+ "." +:+ plural_func b locale n) = Some (pre +:+ "{{.Count}}" +:+ post) ->
  string_has "{" pre = false -> string_has "{" post = false ->
  TPlural b locale key n [] = Some (pre +:+ Itoa n +:+ post) /\
  TPlural b locale key n [AMap m] =
    Some (pre +:+ match m !! "Count" with Some d => show d | None => Itoa n end +:+ post).
Proof.
  intros Hm Hpre Hpost. unfold TPlural. rewrite Hm.
  assert (Hc : Contains (pre +:+ "{{.Count}}" +:+ post) "{{" = true) by by apply Contains_app.
  rewrite Hc. unfold executeTemplate. rewrite !Execute_count by done. cbn [default plural_data]. split.
  - by rewrite lookup_singleton_eq.
  - do 4 f_equal. rewrite lookup_union, lookup_singleton_eq. by destruct (m !! "Count").
Qed.

Lemma TPlural_count_witness :
  TPlural (AddLocale (NewBundle "en") "en" {["items.other" := "You have {{.Count}} items"]}) "en" "items" 5 []
    = Some "You have 5 items".
Proof.
  exact (proj1 (TPlural_count (AddLocale (NewBundle "en") "en" {["items.other" := "You have {{.Count}} items"]})
    "en" "items" 5 ∅ "You have " " items" eq_refl eq_refl eq_refl)).
Defined.

Lemma cut_separator_none s a : cut_separator s = Some a -> cut_separator a = None.
Proof.
  revert a. induction s as [|c s IH]; [done|]. intros a. cbn.
  destruct (is_tag_separator c) eqn:Hc; [by intros [= <-]|].
  destruct (cut_separator s) as [t|]; [|done]. intros [= <-]. cbn. rewrite Hc, (IH t); done.
Qed.

(** A regional locale that is not loaded finds every message its base
    language finds, but not its plural rule: the form is chosen by the English
    rule, while the same call for the base language uses the base's. *)
Theorem region_loses_rule b locale base :
  locales b !! locale = None -> base_of locale = Some base ->
  (forall key, getMessage b locale key = getMessage b base key) /\
  plural_func b locale = PluralEnglish /\
  (forall loc f, locales b !! base = Some loc -> PluralRules loc = Some f -> plural_func b base = f).
Proof.
  intros Hl Hb. split; [|split].
  - intros key. unfold getMessage. rewrite Hb.
    assert (Hn : lookup_in b locale key = None) by (unfold lookup_in; by rewrite Hl). rewrite Hn.
    assert (Hbase : base_of base = None).
    { unfold base_of in *. destruct (cut_separator locale) as [[|c s]|] eqn:E; try done.
      injection Hb as <-. by rewrite (cut_separator_none _ _ E). }
    rewrite Hbase. destruct (lookup_in b base key) eqn:E; [done|].
    destruct (String.eqb_spec locale (fallbackLocale b)) as [<-|]; [rewrite Hn; by destruct (String.eqb base locale)|].
    destruct (String.eqb_spec base (fallbackLocale b)) as [<-|]; [done|done].
  - unfold plural_func. by rewrite Hl.
  - intros loc f Hloc Hf. unfold plural_func. by rewrite Hloc, Hf.
Qed.

Definition russian : Bundle :=
  AddLocale (NewBundle "en") "ru"
    (list_to_map [("files.one", "{{.Count}} fayl"); ("files.few", "{{.Count}} fayla");
                  ("files.many", "{{.Count}} faylov"); ("files.other", "{{.Count}} ???")]).

Lemma region_loses_rule_witness :
  plural_func russian "ru-RU" = PluralEnglish /\
  TPlural russian "ru" "files" 2 [] = Some "2 fayla" /\
  TPlural russian "ru-RU" "files" 2 [] = Some "2 ???".
Proof.
  destruct (region_loses_rule russian "ru-RU" "ru" eq_refl eq_refl) as (_ & H & _).
  split; [exact H|]. split; reflexivity.
Defined.
