(* ===== verification/Negotiate.v ===== *)
(** * Choosing the locale of a request

    [src/pantry/i18n/middleware.go]: the detectors, the reading of
    [Accept-Language], the match with the available locales, and the middleware.
    Of a request the model keeps what the detectors read; qualities are binary64
    numbers, as in the code. *)

From Stdlib Require Import Floats.SpecFloat.
From stdpp Require Import strings sorting.
From S2P Require Import Prelude Float64 GoStrings Plural I18n.

#[local] Open Scope list_scope.

(** ** Requests and detectors *)

Record Request := mkRequest {
  (** [r.URL.Path], [r.URL.Query().Get], [r.Cookie] and [r.Header.Get]. *)
  url_path : string;
  query_get : string -> string;
  cookie : string -> option string;
  header_get : string -> string
}.

Definition LocaleDetector : Type := Request -> string.

Record MiddlewareConfig := mkMiddlewareConfig {
  Detectors : list LocaleDetector;
  CookieName : string;
  QueryParam : string;
  SetCookie : bool;
  CookieMaxAge : Z;
  CookiePath : string
}.

Definition DefaultMiddlewareConfig : MiddlewareConfig :=
  mkMiddlewareConfig [] "lang" "lang" false (365 * 24 * 60 * 60) "/".

(** ** [Accept-Language] *)

(** The loop over the runes of a quality: a rune beyond ASCII is not a digit,
    and neither are its bytes. *)
Fixpoint quality_from (s : string) (result decimal : float64) (inDecimal : bool) : option float64 :=
  match s with
  | "" => Some result
  | String c s =>
      if Ascii.eqb c "." then quality_from s result decimal true
      else if negb (is_digit c) then None
      else
        let digit := f64_of_int (byte_code c - 48) in
        if inDecimal
        then quality_from s (f64_add result (f64_mul digit decimal)) (f64_mul decimal f64_0_1) true
        else quality_from s (f64_add (f64_mul result (f64_of_int 10)) digit) decimal false
  end.

Definition parseQuality (s : string) : option float64 :=
  match s with
  | "" => None
  | _ => quality_from s (f64_of_int 0) f64_0_1 false
  end.

(** The quality after the [;] of a part: 1 when it is not a [q=] or not a number. *)
Definition part_quality (q : string) : float64 :=
  let qPart := TrimSpace q in
  if HasPrefix qPart "q=" then default (f64_of_int 1) (parseQuality (str_drop 2 qPart)) else f64_of_int 1.

(** One part of the header: the locale and its quality, or nothing for a blank. *)
Definition parse_part (part : string) : option (string * float64) :=
  match TrimSpace part with
  | "" => None
  | part =>
      match cut_byte ";" part with
      | None => Some (part, f64_of_int 1)
      | Some (l, q) => Some (TrimSpace l, part_quality q)
      end
  end.

Definition entries (header : string) : list (string * float64) :=
  omap parse_part (split_byte "," header).

(** One turn of the loop of [ParseAcceptLanguage]. *)
Definition better (best : string * float64) (e : string * float64) : string * float64 :=
  if f64_lt best.2 e.2 then e else best.

Definition ParseAcceptLanguage (header : string) : string :=
  match header with
  | "" => ""
  | _ => (foldl better ("", f64_of_int (-1)) (entries header)).1
  end.

(** The two nested loops that sort a slice by swapping in place. *)
Section exchange_sort.
Context {A : Type} (gt : A -> A -> bool).

Definition swap_if (i : nat) (l : list A) (j : nat) : list A :=
  match l !! i, l !! j with
  | Some a, Some b => if gt b a then <[i := b]> (<[j := a]> l) else l
  | _, _ => l
  end.

Definition inner_loop (l : list A) (i : nat) : list A :=
  foldl (swap_if i) l (seq (S i) (length l - S i)).

Definition exchange_sort (l : list A) : list A := foldl inner_loop l (seq 0 (length l)).
End exchange_sort.

Definition quality_gt (a b : string * float64) : bool := f64_lt b.2 a.2.

Definition ParseAcceptLanguageAll (header : string) : list string :=
  match header with
  | "" => []
  | _ => (exchange_sort quality_gt (entries header)).*1
  end.

(** ** [BestMatch] *)

(** One turn of the loop that builds the set of locales and base languages. *)
Definition add_available (s : gset string) (loc : string) : gset string :=
  let s := {[ToLower loc]} ∪ s in
  match base_of loc with Some base => {[ToLower base]} ∪ s | None => s end.

Definition availableSet (available : list string) : gset string := foldl add_available ∅ available.

Definition exact_match (requested : string) (loc : string) : bool := String.eqb (ToLower loc) requested.
Definition base_match (base : string) (loc : string) : bool :=
  String.eqb (ToLower loc) base || HasPrefix (ToLower loc) (base +:+ "-")
  || HasPrefix (ToLower loc) (base +:+ "_").

(** One turn of the loop over the requested locales: the locale it returns. *)
Definition match_requested (set : gset string) (available : list string) (requested : string) : option string :=
  let requested := ToLower requested in
  match (if bool_decide (requested ∈ set) then List.find (exact_match requested) available else None) with
  | Some loc => Some loc
  | None =>
      match base_of requested with
      | Some base => if bool_decide (base ∈ set) then List.find (base_match base) available else None
      | None => None
      end
  end.

Fixpoint first_match (set : gset string) (available requested : list string) : string :=
  match requested with
  | [] => ""
  | r :: requested =>
      match match_requested set available r with
      | Some loc => loc
      | None => first_match set available requested
      end
  end.

Definition BestMatch (header : string) (available : list string) : string :=
  match header, available with
  | "", _ | _, [] => ""
  | _, _ => first_match (availableSet available) available (ParseAcceptLanguageAll header)
  end.

(** ** Detectors *)

Definition QueryDetector (param : string) : LocaleDetector := fun r => query_get r param.
Definition CookieDetector (name : string) : LocaleDetector := fun r => default "" (cookie r name).
Definition HeaderDetector : LocaleDetector := fun r => ParseAcceptLanguage (header_get r "Accept-Language").

Definition PathDetector : LocaleDetector := fun r =>
  let path := url_path r in
  if (String.length path <? 3)%nat then ""
  else
    let path := match path with String "/" p => p | p => p end in
    let candidate := match cut_byte "/" path with Some (a, _) => a | None => path end in
    if (2 <=? String.length candidate)%nat && (String.length candidate <=? 5)%nat then candidate else "".

Definition SessionDetector (sessionGetter : Request -> string) : LocaleDetector := sessionGetter.

(** ** The middleware *)

Definition or_default (s d : string) : string := if String.eqb s "" then d else s.

(** The configuration with the defaults filled in. *)
Definition fill (cfg : MiddlewareConfig) : MiddlewareConfig :=
  let name := or_default (CookieName cfg) "lang" in
  let param := or_default (QueryParam cfg) "lang" in
  let detectors :=
    match Detectors cfg with
    | [] => [QueryDetector param; CookieDetector name; HeaderDetector]
    | l => l
    end in
  mkMiddlewareConfig detectors name param (SetCookie cfg)
    (if CookieMaxAge cfg =? 0 then 365 * 24 * 60 * 60 else CookieMaxAge cfg)
    (or_default (CookiePath cfg) "/").

Fixpoint detectLocale (r : Request) (detectors : list LocaleDetector) (defaultLocale : string) : string :=
  match detectors with
  | [] => defaultLocale
  | d :: ds => if String.eqb (d r) "" then detectLocale r ds defaultLocale else d r
  end.

Record Cookie := mkCookie {
  c_Name : string;
  c_Value : string;
  c_Path : string;
  c_MaxAge : Z
}.

(** The locale of the localizer put in the request's context, and the cookie set
    on the response. *)
Definition Middleware (b : Bundle) (cfg : MiddlewareConfig) (r : Request) : string * option Cookie :=
  let cfg := fill cfg in
  let locale := detectLocale r (Detectors cfg) (DefaultLocale b) in
  let locale :=
    if HasLocale b locale then locale
    else match base_of locale with
         | Some base => if HasLocale b base then base else DefaultLocale b
         | None => DefaultLocale b
         end in
  (locale,
   if SetCookie cfg then Some (mkCookie (CookieName cfg) locale (CookiePath cfg) (CookieMaxAge cfg))
   else None).

(** ** The sort *)

Section sort.
Context {A : Type} (gt : A -> A -> bool).

(** One pass over the rest of the slice: the element that ends in front, and
    what the pass leaves behind it. *)
Fixpoint pass (x : A) (l : list A) : A * list A :=
  match l with
  | [] => (x, [])
  | y :: l =>
      if gt y x then let '(m, r) := pass y l in (m, x :: r)
      else let '(m, r) := pass x l in (m, y :: r)
  end.

Lemma pass_length x l : length (pass x l).2 = length l.
Proof.
  revert x. induction l as [|y l IH]; intros x; cbn; [done|].
  destruct (gt y x); [specialize (IH y); destruct (pass y l) | specialize (IH x); destruct (pass x l)];
    cbn in *; congruence.
Qed.

Lemma insert_middle (pre t : list A) x z : <[length pre := z]> (pre ++ x :: t) = pre ++ z :: t.
Proof. by rewrite (insert_app_r_alt pre) by lia; rewrite Nat.sub_diag. Qed.

Lemma inner_pass pre x seen l :
  foldl (swap_if gt (length pre)) (pre ++ x :: seen ++ l) (seq (length pre + 1 + length seen) (length l)) =
  pre ++ (pass x l).1 :: seen ++ (pass x l).2.
Proof.
  revert x seen. induction l as [|y l IH]; intros x seen; cbn [pass]; [done|].
  cbn [length seq foldl].
  assert (E : swap_if gt (length pre) (pre ++ x :: seen ++ y :: l) (length pre + 1 + length seen) =
              if gt y x then pre ++ y :: (seen ++ [x]) ++ l else pre ++ x :: (seen ++ [y]) ++ l).
  { unfold swap_if. rewrite list_lookup_middle by done.
    replace (pre ++ x :: seen ++ y :: l) with ((pre ++ x :: seen) ++ y :: l) by by rewrite <- app_assoc.
    replace (length pre + 1 + length seen)%nat with (length (pre ++ x :: seen)) by (rewrite length_app; cbn; lia).
    rewrite list_lookup_middle by done. rewrite insert_middle, <- !app_assoc. cbn [app].
    rewrite insert_middle. by destruct (gt y x). }
  rewrite E. replace (S (length pre + 1 + length seen)) with (length pre + 1 + length (seen ++ [if gt y x then x else y]))%nat
    by (rewrite length_app; cbn; lia).
  destruct (gt y x); rewrite IH; [destruct (pass y l) | destruct (pass x l)]; by rewrite <- app_assoc.
Qed.

(** The sort as a recursion: a pass, then the rest. *)
Fixpoint selection (fuel : nat) (l : list A) : list A :=
  match fuel, l with
  | S fuel, x :: l => let '(m, r) := pass x l in m :: selection fuel r
  | _, _ => l
  end.

Lemma exchange_selection_from pre l :
  foldl (inner_loop gt) (pre ++ l) (seq (length pre) (length l)) = pre ++ selection (length l) l.
Proof.
  remember (length l) as n eqn:Hn. revert pre l Hn. induction n as [|n IH]; intros pre l Hn; [by destruct l|].
  destruct l as [|x l]; [done|]. injection Hn as Hn. cbn [seq foldl selection].
  assert (E : inner_loop gt (pre ++ x :: l) (length pre) = pre ++ (pass x l).1 :: (pass x l).2).
  { unfold inner_loop. rewrite length_app. cbn [length].
    replace (length pre + S (length l) - S (length pre))%nat with (length l) by lia.
    replace (S (length pre)) with (length pre + 1 + length (@nil A))%nat by (cbn; lia).
    apply (inner_pass pre x []). }
  rewrite E. pose proof (pass_length x l) as Hl. destruct (pass x l) as [m r]. cbn [fst snd] in *.
  replace (pre ++ m :: r) with ((pre ++ [m]) ++ r) by by rewrite <- app_assoc.
  replace (S (length pre)) with (length (pre ++ [m])) by (rewrite length_app; cbn; lia).
  rewrite IH by congruence. by rewrite <- app_assoc.
Qed.

Lemma exchange_selection l : exchange_sort gt l = selection (length l) l.
Proof. apply (exchange_selection_from []). Qed.

Lemma pass_perm x l : (pass x l).1 :: (pass x l).2 ≡ₚ x :: l.
Proof.
  revert x. induction l as [|y l IH]; intros x; cbn; [done|].
  destruct (gt y x); [specialize (IH y); destruct (pass y l) | specialize (IH x); destruct (pass x l)];
    cbn in *; [rewrite perm_swap, IH | rewrite perm_swap, IH, perm_swap]; done.
Qed.

Lemma quality_sort_perm l : exchange_sort gt l ≡ₚ l.
Proof.
  rewrite exchange_selection. remember (length l) as n eqn:Hn. revert l Hn.
  induction n as [|n IH]; intros l Hn; [by destruct l|]. destruct l as [|x l]; [done|]. injection Hn as Hn. cbn.
  pose proof (pass_perm x l) as Hp. pose proof (pass_length x l) as Hl. destruct (pass x l) as [m r]. cbn in *.
  by rewrite IH by congruence.
Qed.

(** On a domain where [gt] is the strict part of a total preorder. *)
Variables (D : A -> Prop).
Hypothesis (gt_asym : forall a b, gt a b = true -> gt b a = false).
Hypothesis (le_trans : forall a b c, D a -> D b -> D c -> gt a b = false -> gt b c = false -> gt a c = false).

Lemma pass_max x l : Forall D (x :: l) -> Forall (fun z => gt z (pass x l).1 = false) (x :: l).
Proof.
  revert x. induction l as [|y l IH]; intros x HD; cbn.
  { constructor; [|done]. destruct (gt x x) eqn:E; [|done]. by rewrite (gt_asym _ _ E) in E. }
  apply Forall_cons_1 in HD as [Hx HD]. pose proof (Forall_cons_1 _ _ _ HD) as [Hy Hl].
  assert (Hm : forall u, Forall D (u :: l) -> D (pass u l).1).
  { intros u Hu. pose proof (pass_perm u l) as Hp. rewrite <- Hp in Hu. by apply Forall_cons_1 in Hu as [? _]. }
  destruct (gt y x) eqn:E.
  - specialize (IH y HD). specialize (Hm y HD). destruct (pass y l) as [m r]. cbn in *. constructor; [|done].
    apply Forall_cons_1 in IH as [IHy _]. eapply le_trans; [| | |by apply gt_asym in E|]; done.
  - specialize (IH x (Forall_cons_2 _ _ _ Hx Hl)). specialize (Hm x (Forall_cons_2 _ _ _ Hx Hl)).
    destruct (pass x l) as [m r]. cbn in *. apply Forall_cons_1 in IH as [IHx IH]. constructor; [done|].
    constructor; [|done]. eapply le_trans; [| | |exact E|]; done.
Qed.

Lemma exchange_sorted l :
  Forall D l -> StronglySorted (fun a b => gt b a = false) (exchange_sort gt l).
Proof.
  rewrite exchange_selection. remember (length l) as n eqn:Hn. revert l Hn.
  induction n as [|n IH]; intros l Hn HD; [destruct l; [constructor|done]|].
  destruct l as [|x l]; [constructor|]. injection Hn as Hn. cbn.
  pose proof (pass_perm x l) as Hp. pose proof (pass_length x l) as Hl. pose proof (pass_max x l HD) as Hm.
  destruct (pass x l) as [m r]. cbn in *. rewrite <- Hp in HD, Hm.
  apply Forall_cons_1 in HD as [_ HD]. apply Forall_cons_1 in Hm as [_ Hm].
  constructor; [apply IH; [congruence|done]|].
  assert (E : selection n r ≡ₚ r) by (replace n with (length r) by congruence; rewrite <- exchange_selection; apply quality_sort_perm).
  by rewrite E.
Qed.

(** The front of the sorted slice is what the one-pass search finds. *)
Lemma exchange_head x l :
  head (exchange_sort gt (x :: l)) = Some (foldl (fun best e => if gt e best then e else best) x l).
Proof.
  rewrite exchange_selection. cbn. revert x. induction l as [|y l IH]; intros x; cbn; [done|].
  destruct (gt y x); [specialize (IH y); destruct (pass y l) | specialize (IH x); destruct (pass x l)]; exact IH.
Qed.
End sort.

(** ** Qualities

    The weight of a digit after the point is 0.1 multiplied by itself: finite,
    and zero from some digit on; so no quality is a NaN, however long the text. *)

Definition weight (n : nat) : float64 := Nat.iter n (fun d => f64_mul d f64_0_1) f64_0_1.

Definition fine (x : float64) : bool := f64_nonneg x && f64_finite x.

Lemma weights_checked : forallb (fun n => fine (weight n)) (seq 0 331) = true.
Proof. by vm_compute. Qed.

Lemma weight_zero n : (330 <= n)%nat -> weight n = S754_zero false.
Proof.
  intros Hn. replace n with ((n - 330) + 330)%nat by lia. induction (n - 330)%nat as [|k IH]; [by vm_compute|].
  change (weight (S k + 330)) with (f64_mul (weight (k + 330)) f64_0_1). by rewrite IH.
Qed.

Lemma weight_fine n : fine (weight n) = true.
Proof.
  destruct (le_lt_dec 330 n) as [Hn|Hn]; [by rewrite weight_zero|].
  pose proof weights_checked as H. rewrite forallb_forall in H. apply H, list_elem_of_In, elem_of_seq. lia.
Qed.

Lemma digit_fine c : is_digit c = true -> fine (f64_of_int (byte_code c - 48)) = true.
Proof.
  intros Hc. assert (H : implb (is_digit c) (fine (f64_of_int (byte_code c - 48))) = true).
  { clear Hc. revert c. apply ascii_forall. by vm_compute. }
  by rewrite Hc in H.
Qed.

Lemma quality_from_nonneg s result n b q :
  f64_nonneg result = true -> (b = false -> n = O) ->
  quality_from s result (weight n) b = Some q -> f64_nonneg q = true.
Proof.
  revert result n b. induction s as [|c s IH]; intros result n b Hr Hb; cbn [quality_from]; [by intros [= <-]|].
  destruct (Ascii.eqb c "."); [by apply IH|].
  destruct (is_digit c) eqn:Hc; [|done]. cbn [negb].
  pose proof (digit_fine c Hc) as [Hd1 Hd2]%andb_prop. pose proof (weight_fine n) as [Hw1 Hw2]%andb_prop.
  destruct b.
  - change (f64_mul (weight n) f64_0_1) with (weight (S n)). apply IH; [|done].
    apply f64_add_nonneg; [done|]. by apply f64_mul_nonneg.
  - rewrite (Hb eq_refl). apply IH; [|done]. apply f64_add_nonneg; [|done].
    change (f64_of_int 10) with (S754_finite false (Z.to_pos (10 * 2 ^ 49)) (-49)). by apply f64_mul_nonzero.
Qed.

Lemma parseQuality_nonneg s q : parseQuality s = Some q -> f64_nonneg q = true.
Proof.
  unfold parseQuality. destruct s as [|c s]; [done|].
  by apply (quality_from_nonneg (String c s) (f64_of_int 0) 0 false q).
Qed.

Lemma one_nonneg : f64_nonneg (f64_of_int 1) = true.
Proof. by vm_compute. Qed.

Lemma quality_or_one (o : option float64) :
  (forall q, o = Some q -> f64_nonneg q = true) -> f64_nonneg (default (f64_of_int 1) o) = true.
Proof. destruct o as [q|]; intros H; [by apply H|apply one_nonneg]. Qed.

Lemma parse_part_nonneg part e : parse_part part = Some e -> f64_nonneg e.2 = true.
Proof.
  unfold parse_part. destruct (TrimSpace part) as [|c t]; [done|].
  destruct (cut_byte ";" (String c t)) as [[l q]|]; intros [= <-]; cbn [snd]; [|apply one_nonneg].
  unfold part_quality. destruct (HasPrefix (TrimSpace q) "q="); [|apply one_nonneg].
  apply quality_or_one. intros x. apply parseQuality_nonneg.
Qed.

Lemma entries_nonneg header : Forall (fun e => f64_nonneg e.2 = true) (entries header).
Proof.
  apply list.Forall_forall. intros e (part & _ & He)%list_elem_of_omap. by apply parse_part_nonneg in He.
Qed.

Lemma quality_gt_asym a b : quality_gt a b = true -> quality_gt b a = false.
Proof. apply f64_lt_asym. Qed.

Lemma quality_le_trans a b c :
  f64_nonneg a.2 = true -> f64_nonneg b.2 = true -> f64_nonneg c.2 = true ->
  quality_gt a b = false -> quality_gt b c = false -> quality_gt a c = false.
Proof. unfold quality_gt. intros Ha Hb Hc H1 H2. by apply (f64_le_trans a.2 b.2 c.2). Qed.

(** ** Matching *)

(** The turn of the loop without the set. *)
Definition match_plain (available : list string) (requested : string) : option string :=
  let requested := ToLower requested in
  match List.find (exact_match requested) available with
  | Some loc => Some loc
  | None =>
      match base_of requested with
      | Some base => List.find (base_match base) available
      | None => None
      end
  end.

Lemma availableSet_spec available x :
  x ∈ availableSet available <->
  exists loc, loc ∈ available /\ (x = ToLower loc \/ exists base, base_of loc = Some base /\ x = ToLower base).
Proof.
  unfold availableSet.
  assert (H : forall s, x ∈ foldl add_available s available <->
             x ∈ s \/ exists loc, loc ∈ available /\
               (x = ToLower loc \/ exists base, base_of loc = Some base /\ x = ToLower base)).
  { induction available as [|loc l IH]; intros s; cbn.
    - split; [by left|]. by intros [?|(? & ?%elem_of_nil & _)].
    - rewrite IH. clear IH. unfold add_available. cbv zeta. split.
      + intros [Hx|(loc' & ? & ?)]; [|right; exists loc'; split; [by right|done]].
        destruct (base_of loc) as [b|] eqn:E; rewrite ?elem_of_union, ?elem_of_singleton in Hx.
        * destruct Hx as [->|[->|?]]; [right|right|by left]; exists loc; (split; [by left|]); [right; by exists b|by left].
        * destruct Hx as [->|?]; [right|by left]. exists loc. split; [by left|by left].
      + intros [Hx|(loc' & [->|Hin]%elem_of_cons & Hx)].
        * left. destruct (base_of loc); rewrite ?elem_of_union; tauto.
        * left. destruct Hx as [->|(b & -> & ->)]; [destruct (base_of loc)|];
            rewrite ?elem_of_union, ?elem_of_singleton; tauto.
        * right. by exists loc'. }
  rewrite H. split; [by intros [?%elem_of_empty|?]|by right].
Qed.

Lemma find_none {A : Type} (f : A -> bool) l : (forall x, x ∈ l -> f x = false) -> List.find f l = None.
Proof.
  induction l as [|x l IH]; intros H; [done|]. cbn. rewrite H by by left. apply IH. intros y Hy. apply H. by right.
Qed.


Lemma find_in_set available (f : string -> bool) (x : string) (set : gset string) :
  (forall loc, loc ∈ available -> f loc = true -> x ∈ set) ->
  (if bool_decide (x ∈ set) then List.find f available else None) = List.find f available.
Proof.
  intros H. case_bool_decide as Hx; [done|]. symmetry. apply find_none. intros loc Hl.
  destruct (f loc) eqn:E; [|done]. destruct Hx. by eapply H.
Qed.

Lemma base_of_plain_base s base : base_of s = Some base -> cut_separator base = None /\ base <> "".
Proof.
  unfold base_of. destruct (cut_separator s) as [[|c a]|] eqn:E; try done. intros [= <-].
  split; [by eapply cut_separator_none|done].
Qed.

Lemma ToLower_in_set available loc : loc ∈ available -> ToLower loc ∈ availableSet available.
Proof. intros H. apply availableSet_spec. exists loc. by split; [|left]. Qed.

Lemma base_match_in_set available base loc :
  cut_separator base = None -> base <> "" -> loc ∈ available -> base_match base loc = true ->
  base ∈ availableSet available.
Proof.
  intros Hb Hn Hl.
  assert (Htag : forall c, is_tag_separator c = true -> HasPrefix (ToLower loc) (base +:+ String c "") = true ->
            base ∈ availableSet available).
  { intros c Hc (rest & E)%HasPrefix_spec. rewrite <- string_app_assoc in E. cbn in E.
    pose proof (base_of_lower loc) as Hbase. rewrite E, base_of_tag in Hbase by done.
    destruct (base_of loc) as [b|] eqn:Eb; [|done]. injection Hbase as ->.
    apply availableSet_spec. exists loc. split; [done|]. right. by exists b. }
  intros [[<-%String.eqb_eq | H]%orb_prop | H]%orb_prop; [by apply ToLower_in_set| |];
    revert H; by apply Htag.
Qed.

Lemma match_requested_plain available requested :
  match_requested (availableSet available) available requested = match_plain available requested.
Proof.
  unfold match_requested, match_plain. cbv zeta. rewrite find_in_set.
  - destruct (List.find _ available); [done|].
    destruct (base_of (ToLower requested)) as [base|] eqn:E; [|done].
    apply base_of_plain_base in E as [Hb Hn]. apply find_in_set. intros loc. by apply base_match_in_set.
  - intros loc Hl <-%String.eqb_eq. by apply ToLower_in_set.
Qed.

Lemma first_match_plain available requested :
  first_match (availableSet available) available requested = default "" (head (omap (match_plain available) requested)).
Proof.
  induction requested as [|r l IH]; [done|]. cbn. rewrite match_requested_plain.
  destruct (match_plain available r); [done|exact IH].
Qed.

Lemma BestMatch_eq header available :
  BestMatch header available = default "" (head (omap (match_plain available) (ParseAcceptLanguageAll header))).
Proof.
  unfold BestMatch. destruct header as [|c h]; [done|]. destruct available as [|a l]; [|apply first_match_plain].
  generalize (ParseAcceptLanguageAll (String c h)). intros L. induction L as [|r L IH]; [done|].
  cbn. unfold match_plain. cbn. by destruct (base_of (ToLower r)).
Qed.

(** ** One language *)

(** A tag that a header can hold as it is. *)
Definition bare_tag (s : string) : bool :=
  negb (String.eqb s "") && negb (string_has "," s) && negb (string_has ";" s) && no_space s.

Lemma bare_tag_spec s :
  bare_tag s = true -> s <> "" /\ string_has "," s = false /\ string_has ";" s = false /\ no_space s = true.
Proof. unfold bare_tag. rewrite !andb_true_iff, !negb_true_iff, String.eqb_neq. tauto. Qed.

Lemma TrimSpace_bare s : bare_tag s = true -> TrimSpace s = s.
Proof. intros (_ & _ & _ & H)%bare_tag_spec. by apply TrimSpace_no_space. Qed.

Lemma entries_bare s : bare_tag s = true -> entries s = [(s, f64_of_int 1)].
Proof.
  intros Hs. pose proof (bare_tag_spec s Hs) as (Hn & Hc & Hq & Hsp). unfold entries.
  rewrite split_byte_none by done. cbn [omap list_omap]. unfold parse_part. rewrite TrimSpace_bare by done.
  destruct s as [|c s]; [done|]. by rewrite (proj2 (cut_byte_none ";" (String c s)) Hq).
Qed.

(** A tag with a quality. *)
Lemma entries_quality s q :
  bare_tag s = true -> string_has "," q = false -> no_space q = true ->
  entries (s +:+ ";" +:+ q) = [(s, part_quality q)].
Proof.
  intros Hs Hqc Hqs. pose proof (bare_tag_spec s Hs) as (Hn & Hc & Hsc & Hsp). unfold entries.
  rewrite split_byte_none by by rewrite !string_has_app, Hc, Hqc. cbn [omap list_omap]. unfold parse_part.
  rewrite TrimSpace_no_space by by rewrite !no_space_app, Hsp, Hqs.
  pose proof (cut_byte_app ";" s q Hsc) as E. pose proof (TrimSpace_bare s Hs) as Ht.
  destruct s as [|c s]; [done|]. cbn [String.append] in *. by rewrite E, Ht.
Qed.

Lemma ParseAll_one header e : header <> "" -> entries header = [e] -> ParseAcceptLanguageAll header = [e.1].
Proof. unfold ParseAcceptLanguageAll. destruct header; [done|]. by intros _ ->. Qed.

Lemma better_first e : f64_nonneg e.2 = true -> better ("", f64_of_int (-1)) e = e.
Proof. intros H. unfold better. cbn [fst snd]. by rewrite f64_lt_neg. Qed.

Lemma Parse_fold header e es :
  entries header = e :: es -> header <> "" -> ParseAcceptLanguage header = (foldl better e es).1.
Proof.
  intros He Hh. unfold ParseAcceptLanguage. destruct header as [|c h]; [done|]. rewrite He. cbn [foldl].
  pose proof (entries_nonneg (String c h)) as Hn. rewrite He in Hn. apply Forall_cons_1 in Hn as [Hn _].
  by rewrite better_first.
Qed.

(** ** Theorems *)

(** The two nested loops that sort the header's languages in place leave the
    same entries, from the highest quality down, whatever the header: no quality
    the parser reads, of any length, is a NaN or negative. *)
Theorem ParseAcceptLanguageAll_sorted header :
  header <> "" ->
  exists es, ParseAcceptLanguageAll header = es.*1 /\ es ≡ₚ entries header /\
    StronglySorted (fun a b => f64_lt a.2 b.2 = false) es /\
    Forall (fun e => f64_nonneg e.2 = true) es.
Proof.
  intros Hh. exists (exchange_sort quality_gt (entries header)).
  split; [by destruct header|]. split; [apply quality_sort_perm|]. split.
  - apply (exchange_sorted quality_gt (fun e => f64_nonneg e.2 = true));
      [apply quality_gt_asym|apply quality_le_trans|apply entries_nonneg].
  - rewrite quality_sort_perm. apply entries_nonneg.
Qed.

Lemma ParseAcceptLanguageAll_sorted_witness :
  ParseAcceptLanguageAll "a;q=0.5, b;q=0.5, c" = ["c"; "b"; "a"] /\
  exists es, ParseAcceptLanguageAll "a;q=0.5, b;q=0.5, c" = es.*1 /\ es ≡ₚ entries "a;q=0.5, b;q=0.5, c".
Proof.
  split; [by vm_compute|].
  destruct (ParseAcceptLanguageAll_sorted "a;q=0.5, b;q=0.5, c" ltac:(done)) as (es & E & P & _). exact (ex_intro _ es (conj E P)).
Defined.

(** [ParseAcceptLanguage], which searches in one pass, gives the first of the
    languages [ParseAcceptLanguageAll] sorts, or the empty string when there is
    none. *)
Theorem ParseAcceptLanguage_first header :
  ParseAcceptLanguage header = default "" (head (ParseAcceptLanguageAll header)).
Proof.
  destruct header as [|c h]; [done|]. unfold ParseAcceptLanguageAll.
  destruct (entries (String c h)) as [|e es] eqn:E; [unfold ParseAcceptLanguage; by rewrite E|].
  rewrite (Parse_fold _ e es) by done. pose proof (exchange_head quality_gt e es) as H.
  destruct (exchange_sort quality_gt (e :: es)) as [|m r]; [done|]. cbn in *. by injection H as ->.
Qed.

(** The set [BestMatch] builds first decides nothing: the answer is that of
    the search alone, the first requested locale, in order of quality, that an
    available one equals (without regard to case), or else that shares its base
    language. *)
Theorem BestMatch_search header available :
  BestMatch header available =
  default "" (head (omap (match_plain available) (ParseAcceptLanguageAll header))).
Proof. apply BestMatch_eq. Qed.

(** A request for a language without a region is met by that language only:
    [en] does not match an available [en-GB], though a request for any other
    region of English does. *)
Theorem bare_language_exact lang available :
  bare_tag lang = true -> base_of (ToLower lang) = None ->
  BestMatch lang available = default "" (List.find (exact_match (ToLower lang)) available).
Proof.
  intros Hl Hb. rewrite BestMatch_eq, (ParseAll_one lang (lang, f64_of_int 1)); [|by destruct lang|by apply entries_bare].
  cbn [omap list_omap fst]. unfold match_plain. rewrite Hb. by destruct (List.find _ available).
Qed.

Lemma bare_language_exact_witness :
  BestMatch "en" ["fr"; "en-GB"] = "" /\ BestMatch "en-US" ["fr"; "en-GB"] = "en-GB".
Proof.
  split; [|by vm_compute].
  rewrite (bare_language_exact "en" ["fr"; "en-GB"] eq_refl eq_refl). reflexivity.
Defined.

(** A language the client excludes with quality 0 is chosen like any other
    when the header holds nothing better. *)
Theorem excluded_language_chosen lang available :
  bare_tag lang = true ->
  ParseAcceptLanguage (lang +:+ ";q=0") = lang /\
  (lang ∈ available -> ToLower (BestMatch (lang +:+ ";q=0") available) = ToLower lang).
Proof.
  intros Hl.
  assert (He : entries (lang +:+ ";" +:+ "q=0") = [(lang, part_quality "q=0")]) by by apply entries_quality.
  assert (Hne : lang +:+ ";" +:+ "q=0" <> "") by by destruct lang.
  change (lang +:+ ";q=0") with (lang +:+ ";" +:+ "q=0"). split; [by rewrite (Parse_fold _ _ _ He Hne)|].
  intros Hin. rewrite BestMatch_eq, (ParseAll_one _ _ Hne He). cbn [omap list_omap fst].
  unfold match_plain. destruct (List.find (exact_match (ToLower lang)) available) as [loc|] eqn:E.
  - by apply find_some in E as [_ E%String.eqb_eq].
  - apply list_elem_of_In in Hin. pose proof (List.find_none _ _ E lang Hin) as H.
    unfold exact_match in H. by rewrite String.eqb_refl in H.
Qed.

Lemma excluded_language_chosen_witness :
  bare_tag "fr" = true /\ ParseAcceptLanguage "fr;q=0" = "fr".
Proof. split; [reflexivity|]. exact (proj1 (excluded_language_chosen "fr" [] eq_refl)). Defined.

(** The middleware's locale is one the bundle has, or the bundle's default:
    never a text of the client's making; the cookie, when one is set, holds the
    same locale.  The first detector with an answer decides alone: when the
    bundle has neither that locale nor its base, the default is taken, whatever
    the later detectors would have said. *)
Theorem Middleware_locale b cfg r :
  let '(locale, c) := Middleware b cfg r in
  (HasLocale b locale = true \/ locale = DefaultLocale b) /\
  (c = None \/ exists k, c = Some k /\ c_Value k = locale /\ SetCookie cfg = true) /\
  (forall pre d post, Detectors cfg = pre ++ d :: post ->
     (forall d', d' ∈ pre -> d' r = "") -> d r <> "" ->
     (HasLocale b (d r) = true -> locale = d r) /\
     (HasLocale b (d r) = false -> (forall base, base_of (d r) = Some base -> HasLocale b base = false) ->
      locale = DefaultLocale b)).
Proof.
  unfold Middleware. cbv zeta. split; [|split].
  - destruct (HasLocale b (detectLocale _ _ _)) eqn:E; [by left|].
    destruct (base_of _) as [base|]; [|by right]. destruct (HasLocale b base) eqn:Eb; [by left|by right].
  - change (SetCookie (fill cfg)) with (SetCookie cfg). destruct (SetCookie cfg); [right|by left]. by eexists.
  - intros pre d post Hd Hpre Hne.
    assert (E : detectLocale r (Detectors (fill cfg)) (DefaultLocale b) = d r).
    { assert (Hf : Detectors (fill cfg) = pre ++ d :: post) by (unfold fill; cbn; rewrite Hd; by destruct pre).
      rewrite Hf. clear Hf Hd. induction pre as [|d' pre IH]; cbn.
      - by rewrite (proj2 (String.eqb_neq _ _) Hne).
      - rewrite (Hpre d') by by left. apply IH. intros d'' H. apply Hpre. by right. }
    rewrite E. split; [by intros ->|]. intros -> Hbase.
    destruct (base_of (d r)) as [base|]; [|done]. by rewrite (Hbase base).
Qed.

(** A path detector takes any first segment of two to five bytes for a
    locale, so that a path such as [/users/1] ends the detection. *)
Theorem PathDetector_segment r seg rest :
  url_path r = "/" +:+ seg +:+ "/" +:+ rest -> string_has "/" seg = false ->
  (2 <= String.length seg)%nat ->
  PathDetector r = if (String.length seg <=? 5)%nat then seg else "".
Proof.
  intros Hp Hs Hlen. unfold PathDetector. rewrite Hp. cbv zeta.
  replace (String.length ("/" +:+ seg +:+ "/" +:+ rest) <? 3)%nat with false
    by (symmetry; apply Nat.ltb_ge; cbn [String.append String.length]; rewrite !string_length_app; lia).
  change ("/" +:+ seg +:+ "/" +:+ rest) with (String "/" (seg +:+ String "/" rest)).
  cbv iota. rewrite (cut_byte_app "/" seg rest) by done.
  by rewrite (proj2 (Nat.leb_le 2 _)).
Qed.

Definition users_request : Request := mkRequest "/users/1" (fun _ => "") (fun _ => None) (fun _ => "").

Lemma PathDetector_segment_witness : PathDetector users_request = "users".
Proof. exact (PathDetector_segment users_request "users" "1" eq_refl eq_refl ltac:(cbn; lia)). Defined.
