(* ===== verification/Search.v ===== *)
(** * Search queries ([pantry/search])

    The builders of [query.go], the request of [elasticsearch.go] and the
    translation of [meilisearch.go].  A value of type [any] is a tree; a Go map is
    an association list without two entries for a key, ranged over in its order.
    A builder inside a query is its pointer: it is marshalled by its [MarshalJSON],
    and is not a map for a type assertion.  The engines are remote services. *)

From stdpp Require Import list numbers strings.
From S2P Require Import Prelude Float64 GoStrings.

#[local] Open Scope list_scope.

(** ** Values *)

Inductive any :=
| Nil | ABool (b : bool) | AInt (z : Z) | AFloat (f : float64) | AStr (s : string)
| AList (l : list any) | AMap (m : list (string * any))
| ABuilder (built : any). (* a pointer with [MarshalJSON], and what it builds *)

Definition is_nil (a : any) : bool := match a with Nil => true | _ => false end.

Fixpoint mget (k : string) (m : list (string * any)) : option any :=
  match m with [] => None | (k', v) :: m => if String.eqb k' k then Some v else mget k m end.

Fixpoint mset (k : string) (v : any) (m : list (string * any)) : list (string * any) :=
  match m with
  | [] => [(k, v)]
  | (k', v') :: m => if String.eqb k' k then (k, v) :: m else (k', v') :: mset k v m
  end.

(** [if ok { m\[k\] = v }]. *)
Definition mset_if (ok : bool) (k : string) (v : any) (m : list (string * any)) : list (string * any) :=
  if ok then mset k v m else m.
Definition mset_opt {A} (f : A -> any) (k : string) (v : option A) (m : list (string * any)) : list (string * any) :=
  match v with Some v => mset k (f v) m | None => m end.
Definition mset_str (k v : string) (m : list (string * any)) : list (string * any) := mset_if (negb (String.eqb v "")) k (AStr v) m.
Definition mset_any (k : string) (v : any) (m : list (string * any)) : list (string * any) := mset_if (negb (is_nil v)) k v m.

Definition obj (l : list (string * any)) : any := AMap (foldl (fun m '(k, v) => mset k v m) [] l).
Definition strs (l : list string) : any := AList (map AStr l).

(** [clause.(map\[string\]any)]. *)
Definition as_map (a : any) : option (list (string * any)) := match a with AMap m => Some m | _ => None end.

(** What [json.Marshal] writes. *)
Fixpoint json (a : any) : any :=
  match a with
  | AList l => AList (map json l)
  | AMap m => AMap (map (fun p => (p.1, json p.2)) m)
  | ABuilder built => json built
  | a => a
  end.

(** ** The builder of queries *)

Record QueryBuilder := mkQuery {
  must : list any; should : list any; mustNot : list any; filter_ : list any; minimumShouldMatch : any; boost : option float64
}.

Definition Query : QueryBuilder := mkQuery [] [] [] [] Nil None.
Definition Bool : QueryBuilder := Query.
Definition Must (clauses : list any) (q : QueryBuilder) : QueryBuilder :=
  mkQuery (must q ++ clauses) (should q) (mustNot q) (filter_ q) (minimumShouldMatch q) (boost q).
Definition Should (clauses : list any) (q : QueryBuilder) : QueryBuilder :=
  mkQuery (must q) (should q ++ clauses) (mustNot q) (filter_ q) (minimumShouldMatch q) (boost q).
Definition MustNot (clauses : list any) (q : QueryBuilder) : QueryBuilder :=
  mkQuery (must q) (should q) (mustNot q ++ clauses) (filter_ q) (minimumShouldMatch q) (boost q).
Definition Filter (clauses : list any) (q : QueryBuilder) : QueryBuilder :=
  mkQuery (must q) (should q) (mustNot q) (filter_ q ++ clauses) (minimumShouldMatch q) (boost q).
Definition MinimumShouldMatch (value : any) (q : QueryBuilder) : QueryBuilder :=
  mkQuery (must q) (should q) (mustNot q) (filter_ q) value (boost q).
Definition Boost (value : float64) (q : QueryBuilder) : QueryBuilder :=
  mkQuery (must q) (should q) (mustNot q) (filter_ q) (minimumShouldMatch q) (Some value).

Definition none {A} (l : list A) : bool := match l with [] => true | _ => false end.
Definition IsEmpty (q : QueryBuilder) : bool := none (must q) && none (should q) && none (mustNot q) && none (filter_ q).

Definition MatchAll : any := obj [("match_all", obj [])].
Definition MatchNone : any := obj [("match_none", obj [])].

Definition boolQuery (q : QueryBuilder) : list (string * any) :=
  mset_opt AFloat "boost" (boost q) (mset_any "minimum_should_match" (minimumShouldMatch q)
    (mset_if (negb (none (filter_ q))) "filter" (AList (filter_ q)) (mset_if (negb (none (mustNot q))) "must_not" (AList (mustNot q))
      (mset_if (negb (none (should q))) "should" (AList (should q)) (mset_if (negb (none (must q))) "must" (AList (must q)) []))))).

Definition Build (q : QueryBuilder) : list (string * any) :=
  match must q with
  | [clause] => if none (should q) && none (mustNot q) && none (filter_ q) then [("query", clause)] else [("query", obj [("bool", AMap (boolQuery q))])]
  | _ => if IsEmpty q then [("query", MatchAll)] else [("query", obj [("bool", AMap (boolQuery q))])]
  end.

(** [None]: the assertion [query.(map\[string\]any)] panics. *)
Definition BuildQuery (q : QueryBuilder) : option (list (string * any)) :=
  match mget "query" (Build q) with Some query => as_map query | None => Some [] end.

Definition query_any (q : QueryBuilder) : any := ABuilder (AMap (Build q)).

(** ** Clauses *)

Definition on_field (kind field : string) (v : any) : any := obj [(kind, obj [(field, v)])].

Definition Match (field : string) (query : any) : any := on_field "match" field query.
Definition MatchWithOptions (field : string) (query : any) (opts : list (string * any)) : any :=
  on_field "match" field (AMap (foldl (fun m '(k, v) => mset k v m) [("query", query)] opts)).
Definition MatchPhrase (field : string) (query : any) : any := on_field "match_phrase" field query.
Definition MatchPhrasePrefix (field : string) (query : any) : any := on_field "match_phrase_prefix" field query.
Definition Term (field : string) (value : any) : any := on_field "term" field value.
Definition Terms (field : string) (values : list any) : any := on_field "terms" field (AList values).
Definition Exists_ (field : string) : any := on_field "exists" "field" (AStr field).
Definition Prefix (field value : string) : any := on_field "prefix" field (AStr value).
Definition Wildcard (field value : string) : any := on_field "wildcard" field (AStr value).
Definition Regexp (field value : string) : any := on_field "regexp" field (AStr value).
Definition IDs (ids : list string) : any := on_field "ids" "values" (strs ids).

(** *** [multi_match] *)

Record MultiMatchQuery := mkMultiMatch {
  mm_query : string; mm_fields : list string; mm_type : string; mm_operator : string; mm_minimum : any; mm_fuzziness : any;
  mm_boost : option float64; mm_analyzer : string; mm_tieBreaker : option float64
}.

Definition MultiMatch (query : string) (fields : list string) : MultiMatchQuery := mkMultiMatch query fields "" "" Nil Nil None "" None.
Definition mm_set_type (t : string) (m : MultiMatchQuery) : MultiMatchQuery :=
  mkMultiMatch (mm_query m) (mm_fields m) t (mm_operator m) (mm_minimum m) (mm_fuzziness m) (mm_boost m) (mm_analyzer m) (mm_tieBreaker m).
Definition mm_set_operator (op : string) (m : MultiMatchQuery) : MultiMatchQuery :=
  mkMultiMatch (mm_query m) (mm_fields m) (mm_type m) op (mm_minimum m) (mm_fuzziness m) (mm_boost m) (mm_analyzer m) (mm_tieBreaker m).
Definition mm_set_fuzziness (f : any) (m : MultiMatchQuery) : MultiMatchQuery :=
  mkMultiMatch (mm_query m) (mm_fields m) (mm_type m) (mm_operator m) (mm_minimum m) f (mm_boost m) (mm_analyzer m) (mm_tieBreaker m).
Definition mm_set_boost (b : float64) (m : MultiMatchQuery) : MultiMatchQuery :=
  mkMultiMatch (mm_query m) (mm_fields m) (mm_type m) (mm_operator m) (mm_minimum m) (mm_fuzziness m) (Some b) (mm_analyzer m) (mm_tieBreaker m).
Definition mm_set_analyzer (a : string) (m : MultiMatchQuery) : MultiMatchQuery :=
  mkMultiMatch (mm_query m) (mm_fields m) (mm_type m) (mm_operator m) (mm_minimum m) (mm_fuzziness m) (mm_boost m) a (mm_tieBreaker m).
Definition mm_set_tieBreaker (t : float64) (m : MultiMatchQuery) : MultiMatchQuery :=
  mkMultiMatch (mm_query m) (mm_fields m) (mm_type m) (mm_operator m) (mm_minimum m) (mm_fuzziness m) (mm_boost m) (mm_analyzer m) (Some t).
Definition mm_set_minimum (v : any) (m : MultiMatchQuery) : MultiMatchQuery :=
  mkMultiMatch (mm_query m) (mm_fields m) (mm_type m) (mm_operator m) v (mm_fuzziness m) (mm_boost m) (mm_analyzer m) (mm_tieBreaker m).

Definition mm_Build (m : MultiMatchQuery) : any :=
  obj [("multi_match", AMap
    (mset_any "minimum_should_match" (mm_minimum m) (mset_opt AFloat "tie_breaker" (mm_tieBreaker m) (mset_str "analyzer" (mm_analyzer m)
      (mset_opt AFloat "boost" (mm_boost m) (mset_any "fuzziness" (mm_fuzziness m) (mset_str "operator" (mm_operator m)
        (mset_str "type" (mm_type m) [("query", AStr (mm_query m)); ("fields", strs (mm_fields m))]))))))))].

(** *** [fuzzy] *)

Record FuzzyQuery := mkFuzzy {
  fz_field : string; fz_value : string; fz_fuzziness : any; fz_prefixLength : option Z; fz_maxExpansions : option Z;
  fz_transpositions : option bool; fz_boost : option float64
}.

Definition Fuzzy (field value : string) : FuzzyQuery := mkFuzzy field value Nil None None None None.
Definition fz_set_fuzziness (v : any) (f : FuzzyQuery) : FuzzyQuery :=
  mkFuzzy (fz_field f) (fz_value f) v (fz_prefixLength f) (fz_maxExpansions f) (fz_transpositions f) (fz_boost f).
Definition fz_set_prefixLength (v : Z) (f : FuzzyQuery) : FuzzyQuery :=
  mkFuzzy (fz_field f) (fz_value f) (fz_fuzziness f) (Some v) (fz_maxExpansions f) (fz_transpositions f) (fz_boost f).
Definition fz_set_maxExpansions (v : Z) (f : FuzzyQuery) : FuzzyQuery :=
  mkFuzzy (fz_field f) (fz_value f) (fz_fuzziness f) (fz_prefixLength f) (Some v) (fz_transpositions f) (fz_boost f).
Definition fz_set_transpositions (v : bool) (f : FuzzyQuery) : FuzzyQuery :=
  mkFuzzy (fz_field f) (fz_value f) (fz_fuzziness f) (fz_prefixLength f) (fz_maxExpansions f) (Some v) (fz_boost f).
Definition fz_set_boost (v : float64) (f : FuzzyQuery) : FuzzyQuery :=
  mkFuzzy (fz_field f) (fz_value f) (fz_fuzziness f) (fz_prefixLength f) (fz_maxExpansions f) (fz_transpositions f) (Some v).

Definition fz_Build (f : FuzzyQuery) : any :=
  on_field "fuzzy" (fz_field f) (AMap
    (mset_opt AFloat "boost" (fz_boost f) (mset_opt ABool "transpositions" (fz_transpositions f) (mset_opt AInt "max_expansions" (fz_maxExpansions f)
      (mset_opt AInt "prefix_length" (fz_prefixLength f) (mset_any "fuzziness" (fz_fuzziness f) [("value", AStr (fz_value f))])))))).

(** *** [range] *)

Record RangeQuery := mkRange {
  rg_field : string; rg_gte : any; rg_gt : any; rg_lte : any; rg_lt : any; rg_format : string; rg_timezone : string; rg_boost : option float64
}.

Definition Range (field : string) : RangeQuery := mkRange field Nil Nil Nil Nil "" "" None.
Definition Gte (v : any) (r : RangeQuery) : RangeQuery := mkRange (rg_field r) v (rg_gt r) (rg_lte r) (rg_lt r) (rg_format r) (rg_timezone r) (rg_boost r).
Definition Gt_ (v : any) (r : RangeQuery) : RangeQuery := mkRange (rg_field r) (rg_gte r) v (rg_lte r) (rg_lt r) (rg_format r) (rg_timezone r) (rg_boost r).
Definition Lte (v : any) (r : RangeQuery) : RangeQuery := mkRange (rg_field r) (rg_gte r) (rg_gt r) v (rg_lt r) (rg_format r) (rg_timezone r) (rg_boost r).
Definition Lt_ (v : any) (r : RangeQuery) : RangeQuery := mkRange (rg_field r) (rg_gte r) (rg_gt r) (rg_lte r) v (rg_format r) (rg_timezone r) (rg_boost r).
Definition Between (from to : any) (r : RangeQuery) : RangeQuery := Lte to (Gte from r).
Definition rg_set_format (f : string) (r : RangeQuery) : RangeQuery :=
  mkRange (rg_field r) (rg_gte r) (rg_gt r) (rg_lte r) (rg_lt r) f (rg_timezone r) (rg_boost r).
Definition rg_set_timezone (tz : string) (r : RangeQuery) : RangeQuery :=
  mkRange (rg_field r) (rg_gte r) (rg_gt r) (rg_lte r) (rg_lt r) (rg_format r) tz (rg_boost r).
Definition rg_set_boost (v : float64) (r : RangeQuery) : RangeQuery :=
  mkRange (rg_field r) (rg_gte r) (rg_gt r) (rg_lte r) (rg_lt r) (rg_format r) (rg_timezone r) (Some v).

Definition rg_opts (r : RangeQuery) : list (string * any) :=
  mset_opt AFloat "boost" (rg_boost r) (mset_str "time_zone" (rg_timezone r) (mset_str "format" (rg_format r)
    (mset_any "lt" (rg_lt r) (mset_any "lte" (rg_lte r) (mset_any "gt" (rg_gt r) (mset_any "gte" (rg_gte r) [])))))).
Definition rg_Build (r : RangeQuery) : any := on_field "range" (rg_field r) (AMap (rg_opts r)).

(** *** [query_string] and [simple_query_string] *)

Record QueryStringQuery := mkQueryString {
  qs_query : string; qs_defaultField : string; qs_fields : list string; qs_defaultOperator : string; qs_analyzer : string;
  qs_fuzziness : any; qs_minimum : any; qs_boost : option float64
}.

Definition QueryString (query : string) : QueryStringQuery := mkQueryString query "" [] "" "" Nil Nil None.
Definition qs_set_defaultField (f : string) (q : QueryStringQuery) : QueryStringQuery :=
  mkQueryString (qs_query q) f (qs_fields q) (qs_defaultOperator q) (qs_analyzer q) (qs_fuzziness q) (qs_minimum q) (qs_boost q).
Definition qs_set_fields (fields : list string) (q : QueryStringQuery) : QueryStringQuery :=
  mkQueryString (qs_query q) (qs_defaultField q) fields (qs_defaultOperator q) (qs_analyzer q) (qs_fuzziness q) (qs_minimum q) (qs_boost q).
Definition qs_set_defaultOperator (op : string) (q : QueryStringQuery) : QueryStringQuery :=
  mkQueryString (qs_query q) (qs_defaultField q) (qs_fields q) op (qs_analyzer q) (qs_fuzziness q) (qs_minimum q) (qs_boost q).
Definition qs_set_analyzer (a : string) (q : QueryStringQuery) : QueryStringQuery :=
  mkQueryString (qs_query q) (qs_defaultField q) (qs_fields q) (qs_defaultOperator q) a (qs_fuzziness q) (qs_minimum q) (qs_boost q).
Definition qs_set_fuzziness (f : any) (q : QueryStringQuery) : QueryStringQuery :=
  mkQueryString (qs_query q) (qs_defaultField q) (qs_fields q) (qs_defaultOperator q) (qs_analyzer q) f (qs_minimum q) (qs_boost q).
Definition qs_set_minimum (v : any) (q : QueryStringQuery) : QueryStringQuery :=
  mkQueryString (qs_query q) (qs_defaultField q) (qs_fields q) (qs_defaultOperator q) (qs_analyzer q) (qs_fuzziness q) v (qs_boost q).
Definition qs_set_boost (b : float64) (q : QueryStringQuery) : QueryStringQuery :=
  mkQueryString (qs_query q) (qs_defaultField q) (qs_fields q) (qs_defaultOperator q) (qs_analyzer q) (qs_fuzziness q) (qs_minimum q) (Some b).

Definition qs_Build (q : QueryStringQuery) : any :=
  obj [("query_string", AMap
    (mset_opt AFloat "boost" (qs_boost q) (mset_any "minimum_should_match" (qs_minimum q) (mset_any "fuzziness" (qs_fuzziness q)
      (mset_str "analyzer" (qs_analyzer q) (mset_str "default_operator" (qs_defaultOperator q)
        (mset_if (negb (none (qs_fields q))) "fields" (strs (qs_fields q)) (mset_str "default_field" (qs_defaultField q) [("query", AStr (qs_query q))]))))))))].

Record SimpleQueryStringQuery := mkSimple {
  sq_query : string; sq_fields : list string; sq_defaultOperator : string; sq_analyzer : string; sq_flags : string; sq_boost : option float64
}.

Definition SimpleQueryString (query : string) : SimpleQueryStringQuery := mkSimple query [] "" "" "" None.
Definition sq_set_fields (fields : list string) (q : SimpleQueryStringQuery) : SimpleQueryStringQuery :=
  mkSimple (sq_query q) fields (sq_defaultOperator q) (sq_analyzer q) (sq_flags q) (sq_boost q).
Definition sq_set_defaultOperator (op : string) (q : SimpleQueryStringQuery) : SimpleQueryStringQuery :=
  mkSimple (sq_query q) (sq_fields q) op (sq_analyzer q) (sq_flags q) (sq_boost q).
Definition sq_set_analyzer (a : string) (q : SimpleQueryStringQuery) : SimpleQueryStringQuery :=
  mkSimple (sq_query q) (sq_fields q) (sq_defaultOperator q) a (sq_flags q) (sq_boost q).
Definition sq_set_flags (f : string) (q : SimpleQueryStringQuery) : SimpleQueryStringQuery :=
  mkSimple (sq_query q) (sq_fields q) (sq_defaultOperator q) (sq_analyzer q) f (sq_boost q).
Definition sq_set_boost (b : float64) (q : SimpleQueryStringQuery) : SimpleQueryStringQuery :=
  mkSimple (sq_query q) (sq_fields q) (sq_defaultOperator q) (sq_analyzer q) (sq_flags q) (Some b).

Definition sq_Build (q : SimpleQueryStringQuery) : any :=
  obj [("simple_query_string", AMap
    (mset_opt AFloat "boost" (sq_boost q) (mset_str "flags" (sq_flags q) (mset_str "analyzer" (sq_analyzer q)
      (mset_str "default_operator" (sq_defaultOperator q) (mset_if (negb (none (sq_fields q))) "fields" (strs (sq_fields q)) [("query", AStr (sq_query q))]))))))].

(** *** Compound and special clauses *)

Definition Nested (path : string) (query : any) : any := obj [("nested", obj [("path", AStr path); ("query", query)])].
Definition NestedWithScoreMode (path : string) (query : any) (scoreMode : string) : any :=
  obj [("nested", obj [("path", AStr path); ("query", query); ("score_mode", AStr scoreMode)])].
Definition HasChild (childType : string) (query : any) : any := obj [("has_child", obj [("type", AStr childType); ("query", query)])].
Definition HasParent (parentType : string) (query : any) : any := obj [("has_parent", obj [("parent_type", AStr parentType); ("query", query)])].
Definition point (lat lon : float64) : any := obj [("lat", AFloat lat); ("lon", AFloat lon)].
Definition GeoDistance (field : string) (lat lon : float64) (distance : string) : any :=
  obj [("geo_distance", obj [("distance", AStr distance); (field, point lat lon)])].
Definition GeoBoundingBox (field : string) (topLat topLon bottomLat bottomLon : float64) : any :=
  on_field "geo_bounding_box" field (obj [("top_left", point topLat topLon); ("bottom_right", point bottomLat bottomLon)]).
Definition MoreLikeThis (fields : list string) (likeText : string) : any :=
  obj [("more_like_this", obj [("fields", strs fields); ("like", AStr likeText)])].
Definition Script (source : string) : any := obj [("script", obj [("script", obj [("source", AStr source)])])].
Definition ScriptWithParams (source : string) (params : list (string * any)) : any :=
  obj [("script", obj [("script", obj [("source", AStr source); ("params", AMap params)])])].
Definition Boosting (positive negative : any) (negativeBoost : float64) : any :=
  obj [("boosting", obj [("positive", positive); ("negative", negative); ("negative_boost", AFloat negativeBoost)])].
Definition ConstantScore (filter : any) (boost : float64) : any :=
  obj [("constant_score", obj [("filter", filter); ("boost", AFloat boost)])].

Record FunctionScoreQuery := mkFunctionScore {
  fs_query : any; fs_functions : list (list (string * any)); fs_scoreMode : string; fs_boostMode : string;
  fs_maxBoost : option float64; fs_minScore : option float64
}.

Definition FunctionScore (query : any) : FunctionScoreQuery := mkFunctionScore query [] "" "" None None.
Definition AddFunction (fn : list (string * any)) (f : FunctionScoreQuery) : FunctionScoreQuery :=
  mkFunctionScore (fs_query f) (fs_functions f ++ [fn]) (fs_scoreMode f) (fs_boostMode f) (fs_maxBoost f) (fs_minScore f).
Definition fs_set_scoreMode (mode : string) (f : FunctionScoreQuery) : FunctionScoreQuery :=
  mkFunctionScore (fs_query f) (fs_functions f) mode (fs_boostMode f) (fs_maxBoost f) (fs_minScore f).
Definition fs_set_boostMode (mode : string) (f : FunctionScoreQuery) : FunctionScoreQuery :=
  mkFunctionScore (fs_query f) (fs_functions f) (fs_scoreMode f) mode (fs_maxBoost f) (fs_minScore f).
Definition fs_set_maxBoost (v : float64) (f : FunctionScoreQuery) : FunctionScoreQuery :=
  mkFunctionScore (fs_query f) (fs_functions f) (fs_scoreMode f) (fs_boostMode f) (Some v) (fs_minScore f).
Definition fs_set_minScore (v : float64) (f : FunctionScoreQuery) : FunctionScoreQuery :=
  mkFunctionScore (fs_query f) (fs_functions f) (fs_scoreMode f) (fs_boostMode f) (fs_maxBoost f) (Some v).

Definition fs_Build (f : FunctionScoreQuery) : any :=
  obj [("function_score", AMap
    (mset_opt AFloat "min_score" (fs_minScore f) (mset_opt AFloat "max_boost" (fs_maxBoost f) (mset_str "boost_mode" (fs_boostMode f)
      (mset_str "score_mode" (fs_scoreMode f) (mset_if (negb (none (fs_functions f))) "functions" (AList (map AMap (fs_functions f))) [("query", fs_query f)]))))))].

(** ** Aggregations: a map from names *)

Abbreviation AggregationBuilder := (list (string * any)) (only parsing).

Record SortOption := mkSort { so_Field : string; so_Order : string; so_Mode : string }.

Definition Agg : AggregationBuilder := [].
Definition agg_field (kind name field : string) (a : AggregationBuilder) : AggregationBuilder := mset name (obj [(kind, obj [("field", AStr field)])]) a.
Definition agg_Terms (name field : string) (size : Z) (a : AggregationBuilder) : AggregationBuilder :=
  mset name (obj [("terms", AMap (mset_if (0 <? size) "size" (AInt size) [("field", AStr field)]))]) a.
Definition agg_Histogram (name field : string) (interval : float64) (a : AggregationBuilder) : AggregationBuilder :=
  mset name (obj [("histogram", obj [("field", AStr field); ("interval", AFloat interval)])]) a.
Definition agg_DateHistogram (name field interval : string) (a : AggregationBuilder) : AggregationBuilder :=
  mset name (obj [("date_histogram", obj [("field", AStr field); ("calendar_interval", AStr interval)])]) a.
Definition agg_Range (name field : string) (ranges : list (list (string * any))) (a : AggregationBuilder) : AggregationBuilder :=
  mset name (obj [("range", obj [("field", AStr field); ("ranges", AList (map AMap ranges))])]) a.
Definition agg_Avg : string -> string -> AggregationBuilder -> AggregationBuilder := agg_field "avg".
Definition agg_Sum : string -> string -> AggregationBuilder -> AggregationBuilder := agg_field "sum".
Definition agg_Min : string -> string -> AggregationBuilder -> AggregationBuilder := agg_field "min".
Definition agg_Max : string -> string -> AggregationBuilder -> AggregationBuilder := agg_field "max".
Definition agg_Cardinality : string -> string -> AggregationBuilder -> AggregationBuilder := agg_field "cardinality".
Definition agg_Stats : string -> string -> AggregationBuilder -> AggregationBuilder := agg_field "stats".
Definition agg_ExtendedStats : string -> string -> AggregationBuilder -> AggregationBuilder := agg_field "extended_stats".
Definition agg_TopHits (name : string) (size : Z) (sort : list SortOption) (a : AggregationBuilder) : AggregationBuilder :=
  mset name (obj [("top_hits", AMap (mset_if (negb (none sort)) "sort"
    (AList (map (fun s => obj [(so_Field s, obj [("order", AStr (so_Order s))])]) sort)) [("size", AInt size)]))]) a.
(** [None] is a nil map. *)
Definition agg_Nested (name path : string) (subAggs : option (list (string * any))) (a : AggregationBuilder) : AggregationBuilder :=
  mset name (AMap (mset_opt AMap "aggs" subAggs [("nested", obj [("path", AStr path)])])) a.
Definition agg_Filter (name : string) (filter : any) (subAggs : option (list (string * any))) (a : AggregationBuilder) : AggregationBuilder :=
  mset name (AMap (mset_opt AMap "aggs" subAggs [("filter", filter)])) a.
Definition agg_Custom (name : string) (agg : list (string * any)) (a : AggregationBuilder) : AggregationBuilder := mset name (AMap agg) a.

(** ** What a built query means

    [es] is the engine: whether a document matches the JSON of a query.  It is used
    as the documentation of the bool query says: all of [must] and [filter], none
    of [must_not], and as many of [should] as [minimum_should_match] says: a
    positive number of them, or for a negative number all but so many, and by
    default one when there is neither [must] nor [filter]. *)

Definition clauses (k : string) (m : list (string * any)) : list any := match mget k m with Some (AList l) => l | _ => [] end.

Definition required (minimum : Z) (should : list any) : Z :=
  if minimum <? 0 then Z.of_nat (length should) + minimum else minimum.

Definition bool_minimum (m : list (string * any)) : Z :=
  match mget "minimum_should_match" m with
  | Some (AInt n) => required n (clauses "should" m)
  | _ => if none (clauses "must" m) && none (clauses "filter" m) && negb (none (clauses "should" m)) then 1 else 0
  end.

(** The minimum is unset, or a number that asks for at least one of the [should]
    and for no more than there are; a percentage or a combination is text. *)
Definition plain_minimum (minimum : any) (should : list any) : Prop :=
  match minimum with
  | Nil => True
  | AInt n => 1 <= required n should <= Z.of_nat (length should)
  | _ => False
  end.

Definition bool_match (match_ : any -> bool) (must filter mustNot should : list any) (minimum : Z) : bool :=
  forallb match_ must && forallb match_ filter && negb (existsb match_ mustNot) &&
  (minimum <=? Z.of_nat (length (List.filter match_ should))).

Definition minimum_of (q : QueryBuilder) : Z :=
  match minimumShouldMatch q with
  | AInt n => required n (should q)
  | _ => if none (must q) && none (filter_ q) && negb (none (should q)) then 1 else 0
  end.

Lemma mget_json k m : mget k (map (fun p => (p.1, json p.2)) m) = json <$> mget k m.
Proof. induction m as [|[k' v] m IH]; [done|]. cbn. by destruct (String.eqb k' k). Qed.

Lemma mget_mset k k' v m : mget k (mset k' v m) = if String.eqb k' k then Some v else mget k m.
Proof.
  induction m as [|[k0 v0] m IH]; cbn; [by destruct (String.eqb k' k)|].
  destruct (String.eqb_spec k0 k') as [->|Hk]; cbn; [by destruct (String.eqb k' k)|]. rewrite IH.
  destruct (String.eqb_spec k0 k) as [->|]; [|done]. by rewrite (proj2 (String.eqb_neq k' k)).
Qed.

Lemma mget_boolQuery k q : mget k (boolQuery q) =
  if String.eqb "boost" k then AFloat <$> boost q
  else if String.eqb "minimum_should_match" k then if is_nil (minimumShouldMatch q) then None else Some (minimumShouldMatch q)
  else let get k' l := if String.eqb k' k && negb (none l) then Some (AList l) else None in
    match get "filter" (filter_ q), get "must_not" (mustNot q), get "should" (should q), get "must" (must q) with
    | Some v, _, _, _ | None, Some v, _, _ | None, None, Some v, _ => Some v
    | None, None, None, o => o
    end.
Proof.
  unfold boolQuery, mset_opt, mset_any, mset_if.
  destruct (boost q), (is_nil (minimumShouldMatch q)), (none (filter_ q)), (none (mustNot q)), (none (should q)), (none (must q));
    cbn [negb]; rewrite ?mget_mset; cbn [mget]; rewrite ?andb_true_r, ?andb_false_r;
    repeat match goal with |- context [String.eqb ?x k] => destruct (String.eqb_spec x k); try subst end; done.
Qed.

Lemma clauses_boolQuery q :
  let m := map (fun p => (p.1, json p.2)) (boolQuery q) in
  clauses "must" m = map json (must q) /\ clauses "filter" m = map json (filter_ q) /\
  clauses "must_not" m = map json (mustNot q) /\ clauses "should" m = map json (should q).
Proof.
  cbn zeta. unfold clauses. rewrite !mget_json, !mget_boolQuery. cbn.
  destruct (must q), (filter_ q), (mustNot q), (should q); done.
Qed.

Section meaning.
Context {D : Type} (es : any -> D -> bool).
Context (es_all : forall d, es (json MatchAll) d = true).
Context (es_bool : forall m d, plain_minimum (default Nil (mget "minimum_should_match" m)) (clauses "should" m) ->
  es (AMap [("bool", AMap m)]) d =
  bool_match (fun c => es c d) (clauses "must" m) (clauses "filter" m) (clauses "must_not" m) (clauses "should" m) (bool_minimum m)).

End meaning.

(** An engine for documents that are numbers: bool queries, terms, and [match_all]. *)
Fixpoint numbers (a : any) (d : Z) : bool :=
  match a with
  | AMap [(kind, AMap m)] =>
      if String.eqb kind "bool" then
        let values k := (fix get m := match m with
                         | [] => []
                         | (k', AList l) :: m => if String.eqb k' k then map (fun c => numbers c d) l else get m
                         | (k', _) :: m => if String.eqb k' k then [] else get m
                         end) m in
        forallb id (values "must") && forallb id (values "filter") && negb (existsb id (values "must_not")) &&
        (bool_minimum m <=? Z.of_nat (length (List.filter id (values "should"))))
      else if String.eqb kind "term" then match m with [(_, AInt z)] => z =? d | _ => false end
      else String.eqb kind "match_all"
  | _ => false
  end.

Lemma numbers_bool m d :
  numbers (AMap [("bool", AMap m)]) d =
  bool_match (fun c => numbers c d) (clauses "must" m) (clauses "filter" m) (clauses "must_not" m) (clauses "should" m) (bool_minimum m).
Proof.
  cbn [numbers String.eqb Ascii.eqb Bool.eqb].
  assert (E : forall k, (fix get m := match m with
                         | [] => []
                         | (k', AList l) :: m => if String.eqb k' k then map (fun c => numbers c d) l else get m
                         | (k', _) :: m => if String.eqb k' k then [] else get m
                         end) m = map (fun c => numbers c d) (clauses k m)).
  { intros k. unfold clauses. induction m as [|[k' v] m IH]; [done|]. cbn [mget]. destruct v; destruct (String.eqb k' k); done. }
  rewrite !E. unfold bool_match.
  assert (Ef : forall f (l : list any), forallb id (map f l) = forallb f l) by (intros f l; induction l as [|c l IH]; [done|]; cbn [map forallb existsb]; by rewrite IH).
  assert (Ee : forall f (l : list any), existsb id (map f l) = existsb f l) by (intros f l; induction l as [|c l IH]; [done|]; cbn [map forallb existsb]; by rewrite IH).
  assert (Ec : forall f (l : list any), length (List.filter id (map f l)) = length (List.filter f l)).
  { intros f l. induction l as [|c l IH]; [done|]. cbn [map List.filter]. change (id (f c)) with (f c). destruct (f c); cbn [length]; by rewrite IH. }
  by rewrite !Ef, Ee, Ec.
Qed.

Definition two_of_three : QueryBuilder :=
  MinimumShouldMatch (AInt (-1)) (Should [Term "n" (AInt 1); MatchAll; Term "n" (AInt 2)] (MustNot [Term "n" (AInt 2)] Query)).


(** The bounds and the boost of a single clause are dropped. *)
Example boost_dropped : Build (Boost (f64_of_int 2) (Must [Term "n" (AInt 1)] Query)) = Build (Must [Term "n" (AInt 1)] Query).
Proof. reflexivity. Qed.

(** A builder within a builder is marshalled with its wrapper: the clause is not a
    query of the engine. *)
Example nested_wrapped :
  json (query_any (Must [query_any (Should [Term "n" (AInt 1); Term "n" (AInt 2)] Bool)] Query)) =
  obj [("query", obj [("query", obj [("bool", obj [("should", AList [Term "n" (AInt 1); Term "n" (AInt 2)])])])])].
Proof. reflexivity. Qed.

(** [BuildQuery] panics when the only clause is a builder. *)
Example BuildQuery_panics : BuildQuery (Must [ABuilder (mm_Build (MultiMatch "laptop" ["name"]))] Query) = None.
Proof. reflexivity. Qed.
