(* ===== verification/SearchClients.v ===== *)
(** * The clients of the search engines ([pantry/search])

    The options and helpers of [search.go]; the request of [elasticsearch.go], its
    loop over nodes and attempts, and the bodies that it sends; the translation of
    queries and the bulk of [meilisearch.go].  What the engines answer is an
    argument, as are the text of [fmt] for values that are not strings, numbers or
    booleans, and documents read back by [encoding/json]. *)

From stdpp Require Import list numbers strings sorting.
From S2P Require Import Prelude Float64 GoStrings Search.

#[local] Open Scope list_scope.

(** ** Options ([search.go]) *)

Record SourceFilter := mkSource { Includes : list string; Excludes : list string }.

Record HighlightField := mkField { hf_FragmentSize : Z; hf_NumFragments : Z; hf_PreTags : list string; hf_PostTags : list string }.

Record HighlightConfig := mkHighlight {
  hc_Fields : list (string * option HighlightField); hc_PreTags : list string; hc_PostTags : list string; hc_FragmentSize : Z; hc_NumFragments : Z
}.

Record SearchOptions := mkOptions {
  From : Z; Size : Z; Sort_ : list SortOption; Source : option SourceFilter; Highlight : option HighlightConfig;
  Aggregations : option (list (string * any)); TrackTotalHits : any; o_Timeout : Duration; Routing : string; Preference : string;
  SearchAfter : list any; Scroll : Duration; MinScore : float64; Explain : bool
}.

Definition no_options : SearchOptions := mkOptions 0 0 [] None None None Nil 0 "" "" [] 0 (f64_of_int 0) false.

Definition Page (page size : Z) : Z := let page := if page <? 1 then 1 else page in wrap64 (wrap64 (page - 1) * size).
Definition SearchOptionsForPage (page size : Z) : SearchOptions :=
  mkOptions (Page page size) size [] None None None Nil 0 "" "" [] 0 (f64_of_int 0) false.

Definition SortAsc (field : string) : SortOption := mkSort field "asc" "".
Definition SortDesc (field : string) : SortOption := mkSort field "desc" "".
Definition SortByScore : SortOption := mkSort "_score" "desc" "".

Record IndexSettings := mkSettings {
  Settings : option (list (string * any)); Mappings : option (list (string * any)); Aliases : option (list (string * any));
  NumberOfShards : Z; NumberOfReplicas : Z
}.

Definition ToMap (s : IndexSettings) : list (string * any) :=
  let settings := mset_if (0 <=? NumberOfReplicas s) "number_of_replicas" (AInt (NumberOfReplicas s))
    (mset_if (0 <? NumberOfShards s) "number_of_shards" (AInt (NumberOfShards s))
      (foldl (fun m '(k, v) => mset k v m) [] (default [] (Settings s)))) in
  mset_opt AMap "aliases" (Aliases s) (mset_opt AMap "mappings" (Mappings s)
    (mset_if (negb (none settings)) "settings" (AMap settings) [])).

Record BulkOperation := mkBulk { b_Action : string; b_Index : string; b_ID : string; b_Document : any; b_Routing : string }.

Definition BulkIndex (index id : string) (doc : any) : BulkOperation := mkBulk "index" index id doc "".
Definition BulkCreate (index id : string) (doc : any) : BulkOperation := mkBulk "create" index id doc "".
Definition BulkUpdate (index id : string) (doc : any) : BulkOperation := mkBulk "update" index id doc "".
Definition BulkDelete (index id : string) : BulkOperation := mkBulk "delete" index id Nil "".

(** ** Elasticsearch *)

Definition buildHighlight (cfg : HighlightConfig) : list (string * any) :=
  let field_cfg (f : option HighlightField) :=
    match f with
    | None => []
    | Some f =>
        mset_if (negb (none (hf_PostTags f))) "post_tags" (strs (hf_PostTags f)) (mset_if (negb (none (hf_PreTags f))) "pre_tags" (strs (hf_PreTags f))
          (mset_if (0 <? hf_NumFragments f) "number_of_fragments" (AInt (hf_NumFragments f))
            (mset_if (0 <? hf_FragmentSize f) "fragment_size" (AInt (hf_FragmentSize f)) [])))
    end in
  mset_if (negb (none (hc_Fields cfg))) "fields" (AMap (foldl (fun m '(name, f) => mset name (AMap (field_cfg f)) m) [] (hc_Fields cfg)))
    (mset_if (0 <? hc_NumFragments cfg) "number_of_fragments" (AInt (hc_NumFragments cfg))
      (mset_if (0 <? hc_FragmentSize cfg) "fragment_size" (AInt (hc_FragmentSize cfg))
        (mset_if (negb (none (hc_PostTags cfg))) "post_tags" (strs (hc_PostTags cfg))
          (mset_if (negb (none (hc_PreTags cfg))) "pre_tags" (strs (hc_PreTags cfg)) [])))).

Definition es_sort (s : SortOption) : any := obj [(so_Field s, AMap (mset_str "mode" (so_Mode s) [("order", AStr (so_Order s))]))].

Definition es_source (s : SourceFilter) : list (string * any) :=
  mset_if (negb (none (Excludes s))) "excludes" (strs (Excludes s)) (mset_if (negb (none (Includes s))) "includes" (strs (Includes s)) []).

Definition es_options (o : SearchOptions) (body : list (string * any)) : list (string * any) :=
  mset_if (negb (none (SearchAfter o))) "search_after" (AList (SearchAfter o))
   (mset_if (Explain o) "explain" (ABool true)
    (mset_if (f64_lt (f64_of_int 0) (MinScore o)) "min_score" (AFloat (MinScore o))
     (mset_any "track_total_hits" (TrackTotalHits o)
      (mset_opt AMap "aggs" (Aggregations o)
       (mset_opt (fun h => AMap (buildHighlight h)) "highlight" (Highlight o)
        ((match Source o with
          | Some s => mset_if (negb (none (Includes s)) || negb (none (Excludes s))) "_source" (AMap (es_source s))
          | None => id
          end)
         (mset_if (negb (none (Sort_ o))) "sort" (AList (map es_sort (Sort_ o)))
          (mset_if (0 <? Size o) "size" (AInt (Size o)) (mset_if (0 <? From o) "from" (AInt (From o)) body))))))))).

Definition es_SearchBody (query : option QueryBuilder) (opts : option SearchOptions) : list (string * any) :=
  let body := mset_opt (fun q => AMap (Build q)) "query" query [] in
  match opts with Some o => es_options o body | None => body end.

Definition millis (d : Duration) : string := Itoa (Z.quot d Millisecond) +:+ "ms".

Definition es_SearchParams (opts : option SearchOptions) : list (string * string) :=
  match opts with
  | None => []
  | Some o =>
      (if 0 <? o_Timeout o then [("timeout", millis (o_Timeout o))] else []) ++
      (if String.eqb (Routing o) "" then [] else [("routing", Routing o)]) ++
      (if String.eqb (Preference o) "" then [] else [("preference", Preference o)]) ++
      (if 0 <? Scroll o then [("scroll", millis (Scroll o))] else [])
  end.

Definition es_CountBody (query : option QueryBuilder) : option (list (string * any)) :=
  match query with Some q => Some [("query", AMap (Build q))] | None => None end.
Definition es_DeleteByQueryBody (q : QueryBuilder) : list (string * any) := [("query", AMap (Build q))].
Definition es_UpdateByQueryBody (q : QueryBuilder) (script : string) : list (string * any) :=
  [("query", AMap (Build q)); ("script", obj [("source", AStr script)])].

(** The lines of a bulk: the action, and the document unless it deletes or has none. *)
Definition es_bulk_lines (op : BulkOperation) : list any :=
  obj [(b_Action op, AMap (mset_str "routing" (b_Routing op) [("_index", AStr (b_Index op)); ("_id", AStr (b_ID op))]))] ::
  (if negb (String.eqb (b_Action op) "delete") && negb (is_nil (b_Document op))
   then [if String.eqb (b_Action op) "update" then obj [("doc", b_Document op)] else b_Document op] else []).
Definition es_BulkBody (operations : list BulkOperation) : list any := concat (map es_bulk_lines operations).

(** *** The request *)

Record Elasticsearch := mkES { addresses : list string; maxRetries : Z; retryBackoff : Duration; currentNode : Z }.

Record ElasticsearchConfig := mkESConfig { c_Addresses : list string; c_MaxRetries : Z; c_RetryBackoff : Duration }.

Fixpoint trim_slashes (s : string) : string :=
  match s with
  | "" => ""
  | String c s => match trim_slashes s with "" => if Ascii.eqb c "/" then "" else String c "" | s => String c s end
  end.

Definition NewElasticsearch (cfg : ElasticsearchConfig) : Elasticsearch :=
  mkES (map trim_slashes (if none (c_Addresses cfg) then ["http://localhost:9200"] else c_Addresses cfg))
    (if c_MaxRetries cfg <=? 0 then 3 else c_MaxRetries cfg) (if c_RetryBackoff cfg <=? 0 then 100 * Millisecond else c_RetryBackoff cfg) 0.

(** What an attempt gives: no request could be made of the address, no answer, or a
    status. *)
Inductive attempt_result := BadRequest | NoAnswer | Status (code : Z).

Inductive es_error := ErrRequest | ErrConnectionError.

Inductive es_event := Sent (node : string) | Slept (d : Duration).

Definition retried (code : Z) : bool := (code =? 429) || (code =? 503) || (code =? 504).

Section request.
Context (answer : nat -> string -> attempt_result).

(** [attempt] counts up to [maxRetries]; the fuel is the attempts that are left. *)
Fixpoint es_loop (fuel : nat) (attempt : nat) (e : Elasticsearch) (trace : list es_event) : result es_error Z * Elasticsearch * list es_event :=
  match fuel with
  | O => (Err ErrConnectionError, e, trace)
  | S fuel =>
      let node := nth (Z.to_nat (currentNode e mod Z.of_nat (length (addresses e)))) (addresses e) "" in
      let e := mkES (addresses e) (maxRetries e) (retryBackoff e) (wrap64 (currentNode e + 1)) in
      let sent := trace ++ [Sent node] in
      let again := es_loop fuel (S attempt) e (sent ++ [Slept (wrap64 (retryBackoff e * (Z.of_nat attempt + 1)))]) in
      match answer attempt node with
      | BadRequest => (Err ErrRequest, e, trace)
      | NoAnswer => if Z.of_nat attempt <? maxRetries e then again else (Err ErrConnectionError, e, sent)
      | Status code => if retried code && (Z.of_nat attempt <? maxRetries e) then again else (Ok code, e, sent)
      end
  end.

Definition es_request (e : Elasticsearch) : result es_error Z * Elasticsearch * list es_event := es_loop (Z.to_nat (maxRetries e + 1)) 0 e [].
End request.

(** ** Meilisearch *)

Section meilisearch.
Context (fmt_other : any -> string).

Definition fmt_v (v : any) : string :=
  match v with
  | AStr s => s
  | AInt z => Itoa z
  | ABool b => if b then "true" else "false"
  | Nil => "<nil>"
  | v => fmt_other v
  end.

Definition quote : string := String (byte_of_code 34) "".

Definition formatValue (v : any) : string := match v with AStr s => quote +:+ s +:+ quote | v => fmt_v v end.

(** The first of the values for which [f] returns. *)
Fixpoint first_some {A B} (f : A -> option B) (l : list A) : option B :=
  match l with [] => None | x :: l => match f x with Some y => Some y | None => first_some f l end end.

Definition get_map (k : string) (m : list (string * any)) : option (list (string * any)) :=
  match mget k m with Some v => as_map v | None => None end.
Definition get_str (k : string) (m : list (string * any)) : option string :=
  match mget k m with Some (AStr s) => Some s | _ => None end.

Definition extractTermFromClause (clause : list (string * any)) : string :=
  let match_ := match get_map "match" clause with
                | Some m => first_some (fun p => match as_map p.2 with Some vm => get_str "query" vm | None => None end) m
                | None => None
                end in
  let text_of kind := match get_map kind clause with Some m => get_str "query" m | None => None end in
  match match_, text_of "multi_match", text_of "query_string" with
  | Some s, _, _ | None, Some s, _ | None, None, Some s => s
  | None, None, None => ""
  end.

Definition term_of_clause (clause : any) : option string :=
  match as_map clause with
  | Some m => let term := extractTermFromClause m in if String.eqb term "" then None else Some term
  | None => None
  end.

Definition extractSearchTerm (query : QueryBuilder) : string :=
  match first_some term_of_clause (must query), first_some term_of_clause (should query) with
  | Some term, _ | None, Some term => term
  | None, None => ""
  end.

Definition range_parts (field : string) (cond : list (string * any)) : list string :=
  let part key op := match mget key cond with Some v => [field +:+ op +:+ fmt_v v] | None => [] end in
  part "gte" " >= " ++ part "gt" " > " ++ part "lte" " <= " ++ part "lt" " < ".

Definition convertClauseToFilter (clause : list (string * any)) : string :=
  let term := match get_map "term" clause with
              | Some ((field, value) :: _) => Some (field +:+ " = " +:+ formatValue value)
              | _ => None
              end in
  let terms := match get_map "terms" clause with
               | Some m => first_some (fun '(field, values) => match values with
                   | AList arr => Some ("(" +:+ String.concat " OR " (map (fun v => field +:+ " = " +:+ formatValue v) arr) +:+ ")")
                   | _ => None
                   end) m
               | None => None
               end in
  let range := match get_map "range" clause with
               | Some m => first_some (fun '(field, conditions) => match as_map conditions with
                   | Some cond => match range_parts field cond with [] => None | parts => Some (String.concat " AND " parts) end
                   | None => None
                   end) m
               | None => None
               end in
  match term, terms, range with
  | Some s, _, _ | None, Some s, _ | None, None, Some s => s
  | None, None, None => ""
  end.

Definition filter_of_clause (clause : any) : list string :=
  match as_map clause with
  | Some m => let filter := convertClauseToFilter m in if String.eqb filter "" then [] else [filter]
  | None => []
  end.

Definition convertFilters (query : QueryBuilder) : string := String.concat " AND " (concat (map filter_of_clause (filter_ query ++ must query))).

Definition ms_sort (s : SortOption) : any := AStr (so_Field s +:+ (if String.eqb (so_Order s) "desc" then ":desc" else ":asc")).

Definition ms_SearchBody (query : option QueryBuilder) (opts : option SearchOptions) : list (string * any) :=
  let body := match query with
              | Some q => mset_str "filter" (convertFilters q) [("q", AStr (extractSearchTerm q))]
              | None => []
              end in
  match opts with
  | None => body
  | Some o =>
      let body := mset_if (negb (none (Sort_ o))) "sort" (AList (map ms_sort (Sort_ o)))
        (mset_if (0 <? Size o) "limit" (AInt (Size o)) (mset_if (0 <? From o) "offset" (AInt (From o)) body)) in
      let body := match Source o with
                  | Some s => mset_if (negb (none (Includes s))) "attributesToRetrieve" (strs (Includes s)) body
                  | None => body
                  end in
      match Highlight o with
      | Some h =>
          if none (hc_Fields h) then body
          else
            let body := mset "attributesToHighlight" (strs (map fst (hc_Fields h))) body in
            let body := match hc_PreTags h with t :: _ => mset "highlightPreTag" (AStr t) body | [] => body end in
            match hc_PostTags h with t :: _ => mset "highlightPostTag" (AStr t) body | [] => body end
      | None => body
      end
  end.

(** *** Bulk *)

Record BulkItemResult := mkItem { i_Action : string; i_Index : string; i_ID : string; i_Status : Z; i_Error : bool }.
Record BulkResult := mkBulkResult { Items : list BulkItemResult; SuccessCount : Z; ErrorCount : Z; Errors : bool }.

(** A document written and read back as a map: [None] is an error, [Some None] the
    nil map that [null] gives. *)
Context (reread : any -> option (option (list (string * any)))).

(** [None]: the assignment to a nil map panics. *)
Definition ensureID (document : any) (id : string) : option (list (string * any)) :=
  match reread document with
  | None => Some [("id", AStr id)]
  | Some None => None
  | Some (Some doc) => Some (match mget "id" doc with Some _ => doc | None => mset "id" (AStr id) doc end)
  end.

Record index_ops := mkOps { toIndex : list (list (string * any)); toDelete : list string }.

Fixpoint upsert (index : string) (f : index_ops -> index_ops) (groups : list (string * index_ops)) : list (string * index_ops) :=
  match groups with
  | [] => [(index, f (mkOps [] []))]
  | (i, ops) :: groups => if String.eqb i index then (i, f ops) :: groups else (i, ops) :: upsert index f groups
  end.

Definition group_op (groups : option (list (string * index_ops))) (op : BulkOperation) : option (list (string * index_ops)) :=
  match groups with
  | None => None
  | Some groups =>
      if String.eqb (b_Action op) "index" || String.eqb (b_Action op) "create" then
        match ensureID (b_Document op) (b_ID op) with
        | None => None
        | Some doc => Some (upsert (b_Index op) (fun ops => mkOps (toIndex ops ++ [doc]) (toDelete ops)) groups)
        end
      else if String.eqb (b_Action op) "delete" then
        Some (upsert (b_Index op) (fun ops => mkOps (toIndex ops) (toDelete ops ++ [b_ID op])) groups)
      else Some (upsert (b_Index op) id groups)
  end.

(** What is sent to the engine. *)
Inductive ms_request := AddDocuments (index : string) (docs : list (list (string * any))) | DeleteBatch (index : string) (ids : list string).

(** [sent]: whether the request had an answer, whatever its status. *)
Definition bulk_items (sent : ms_request -> bool) (r : ms_request) : list BulkItemResult :=
  let status := if sent r then 202 else 500 in
  match r with
  | AddDocuments index docs => map (fun doc => mkItem "index" index (fmt_v (default Nil (mget "id" doc))) status (negb (sent r))) docs
  | DeleteBatch index ids => map (fun i => mkItem "delete" index i status (negb (sent r))) ids
  end.

Definition group_requests (group : string * index_ops) : list ms_request :=
  (if none (toIndex group.2) then [] else [AddDocuments group.1 (toIndex group.2)]) ++
  (if none (toDelete group.2) then [] else [DeleteBatch group.1 (toDelete group.2)]).

(** [order] is the order of the range over the map. *)
Definition Bulk (order : list (string * index_ops) -> list (string * index_ops)) (sent : ms_request -> bool) (operations : list BulkOperation)
  : option (list ms_request * BulkResult) :=
  match foldl group_op (Some []) operations with
  | None => None
  | Some groups =>
      let requests := concat (map group_requests (order groups)) in
      let items := concat (map (bulk_items sent) requests) in
      let errors := Z.of_nat (length (List.filter i_Error items)) in
      Some (requests, mkBulkResult items (Z.of_nat (length (List.filter (fun i => negb (i_Error i)) items))) errors (0 <? errors))
  end.

(** ** Lemmas: bulk *)

Definition counted (op : BulkOperation) : bool :=
  String.eqb (b_Action op) "index" || String.eqb (b_Action op) "create" || String.eqb (b_Action op) "delete".

Definition ops_size (o : index_ops) : nat := (length (toIndex o) + length (toDelete o))%nat.
Definition groups_size (l : list (string * index_ops)) : nat := sum_list (map (fun g => ops_size g.2) l).

Lemma upsert_size index f n groups : (forall o, ops_size (f o) = (n + ops_size o)%nat) ->
  groups_size (upsert index f groups) = (n + groups_size groups)%nat.
Proof.
  intros Hf. unfold groups_size. induction groups as [|[i o] groups IH]; cbn; [rewrite Hf; cbn; lia|].
  destruct (String.eqb i index); cbn; [rewrite Hf; lia|]. rewrite IH. lia.
Qed.

Lemma group_ops_size ops groups groups' : foldl group_op (Some groups) ops = Some groups' ->
  groups_size groups' = (length (List.filter counted ops) + groups_size groups)%nat.
Proof.
  revert groups. induction ops as [|op ops IH]; intros groups; cbn [foldl List.filter].
  { intros [= <-]. done. }
  destruct (group_op (Some groups) op) as [g|] eqn:E; [|intros H; exfalso; clear -H; by induction ops].
  intros H. rewrite (IH g H). unfold group_op in E. unfold counted at 2.
  destruct (String.eqb (b_Action op) "index" || String.eqb (b_Action op) "create"); cbn [orb length].
  - destruct (ensureID _ _) as [doc|]; [|done]. injection E as <-. rewrite (upsert_size _ _ 1); [lia|].
    intros o. unfold ops_size. cbn. rewrite length_app. cbn. lia.
  - destruct (String.eqb (b_Action op) "delete"); injection E as <-; cbn [length].
    + rewrite (upsert_size _ _ 1); [lia|]. intros o. unfold ops_size. cbn. rewrite length_app. cbn. lia.
    + by rewrite (upsert_size _ _ 0).
Qed.

Lemma group_items sent g : length (concat (map (bulk_items sent) (group_requests g))) = ops_size g.2.
Proof.
  unfold group_requests, ops_size. destruct (toIndex g.2) as [|d docs], (toDelete g.2) as [|i ids]; cbn [none app map concat];
    rewrite ?app_nil_r; unfold bulk_items; rewrite ?length_app, ?length_map; cbn [length]; lia.
Qed.

Lemma groups_items sent l : length (concat (map (bulk_items sent) (concat (map group_requests l)))) = groups_size l.
Proof.
  unfold groups_size. induction l as [|g l IH]; [done|]. cbn [map concat]. rewrite map_app, concat_app, length_app, group_items, IH. done.
Qed.

Lemma groups_size_perm l l' : Permutation l l' -> groups_size l = groups_size l'.
Proof. unfold groups_size. induction 1; cbn; lia. Qed.

Lemma filter_split {A} (f : A -> bool) l : (length (List.filter f l) + length (List.filter (fun x => negb (f x)) l))%nat = length l.
Proof. induction l as [|x l IH]; [done|]. cbn. destruct (f x); cbn; lia. Qed.

(** ** Theorems *)

(** The result of a bulk has one item for each operation that indexes, creates
    or deletes, whatever the order of the range: the counts of successes and errors
    add up to their number.  Updates, and actions that are not known, are neither
    sent nor reported. *)
Theorem bulk_accounts order sent operations requests r : (forall l, Permutation (order l) l) ->
  Bulk order sent operations = Some (requests, r) ->
  length (Items r) = length (List.filter counted operations) /\
  SuccessCount r + ErrorCount r = Z.of_nat (length (List.filter counted operations)) /\ Errors r = (0 <? ErrorCount r).
Proof.
  intros Ho. unfold Bulk. destruct (foldl group_op (Some []) operations) as [groups|] eqn:E; [|done]. intros [= <- <-]. cbn [Items SuccessCount ErrorCount Errors].
  pose proof (group_ops_size _ _ _ E) as Hs. rewrite <- (groups_size_perm _ _ (Ho groups)) in Hs.
  assert (El : length (concat (map (bulk_items sent) (concat (map group_requests (order groups))))) = length (List.filter counted operations)).
  { rewrite groups_items, Hs. cbn. lia. }
  split; [exact El|]. split; [|done]. pose proof (filter_split i_Error (concat (map (bulk_items sent) (concat (map group_requests (order groups)))))). lia.
Qed.
End meilisearch.

(** *** Witnesses *)

Definition text (_ : any) : string := "?".
Definition reread_map (a : any) : option (option (list (string * any))) :=
  match a with AMap m => Some (Some m) | Nil => Some None | _ => None end.

Theorem bulk_accounts_witness :
  let ops := [BulkIndex "a" "1" (obj []); BulkDelete "a" "2"; BulkUpdate "a" "3" (obj []); BulkCreate "b" "4" (obj [])] in
  let r := mkBulkResult [mkItem "index" "a" "1" 202 false; mkItem "delete" "a" "2" 202 false; mkItem "index" "b" "4" 202 false] 3 0 false in
  length (Items r) = length (List.filter counted ops) /\
  SuccessCount r + ErrorCount r = Z.of_nat (length (List.filter counted ops)) /\ Errors r = (0 <? ErrorCount r).
Proof.
  refine (bulk_accounts text reread_map id (fun _ => true)
    [BulkIndex "a" "1" (obj []); BulkDelete "a" "2"; BulkUpdate "a" "3" (obj []); BulkCreate "b" "4" (obj [])] _ _ (fun l => Permutation_refl l) eq_refl).
Defined.

(** *** The request of Elasticsearch *)

(** The nodes of a trace, and the waits. *)
Definition sent_nodes (t : list es_event) : list string := omap (fun ev => match ev with Sent n => Some n | Slept _ => None end) t.
Definition waits (t : list es_event) : list Duration := omap (fun ev => match ev with Slept d => Some d | Sent _ => None end) t.

Definition node_at (e : Elasticsearch) (i : nat) : string :=
  nth (Z.to_nat ((currentNode e + Z.of_nat i) mod Z.of_nat (length (addresses e)))) (addresses e) "".

(** What a trace of [n] attempts is: consecutive nodes, with longer and longer
    waits between them. *)
Definition trace_from (e : Elasticsearch) (attempt n : nat) : list es_event :=
  concat (map (fun i => (if (i =? 0)%nat then [] else [Slept (retryBackoff e * Z.of_nat (attempt + i))]) ++ [Sent (node_at e i)]) (seq 0 n)).

Lemma trace_from_S e attempt n :
  trace_from e attempt (S (S n)) =
  [Sent (node_at e 0); Slept (retryBackoff e * (Z.of_nat attempt + 1))] ++
  trace_from (mkES (addresses e) (maxRetries e) (retryBackoff e) (currentNode e + 1)) (S attempt) (S n).
Proof.
  unfold trace_from. change (seq 0 (S (S n))) with (0%nat :: 1%nat :: seq 2 n). change (seq 0 (S n)) with (0%nat :: seq 1 n).
  cbn [map concat Nat.eqb app]. f_equal. f_equal; [f_equal; f_equal; lia|]. unfold node_at. cbn [currentNode addresses retryBackoff].
  f_equal; [do 4 f_equal; lia|]. rewrite <- (seq_shift n 1), map_map. f_equal. apply map_ext_in. intros i [Hi _]%in_seq.
  destruct i as [|i]; [lia|]. cbn [Nat.eqb app]. f_equal; [do 2 f_equal; lia|]. do 5 f_equal. lia.
Qed.

Lemma es_loop_spec answer fuel attempt e trace r e' t : (0 < fuel)%nat -> 0 <= currentNode e -> in_int64 (currentNode e + Z.of_nat fuel) = true ->
  0 <= retryBackoff e -> in_int64 (retryBackoff e * (maxRetries e + 1)) = true -> Z.of_nat (attempt + fuel) = maxRetries e + 1 ->
  es_loop answer fuel attempt e trace = (r, e', t) -> r <> Err ErrRequest ->
  exists n, t = trace ++ trace_from e attempt (S n) /\ (S n <= fuel)%nat /\ currentNode e' = currentNode e + Z.of_nat (S n) /\
    ((exists code, r = Ok code /\ retried code = false) \/ S n = fuel).
Proof.
  revert attempt e trace. induction fuel as [|fuel IH]; intros attempt e trace Hf Hc Hci Hb Hbi Ha; [lia|]. cbn [es_loop].
  assert (Hone : forall node, node = node_at e 0 -> trace ++ [Sent node] = trace ++ trace_from e attempt 1) by by intros ? ->.
  assert (Hnode : nth (Z.to_nat (currentNode e mod Z.of_nat (length (addresses e)))) (addresses e) "" = node_at e 0).
  { unfold node_at. by rewrite Z.add_0_r. }
  rewrite Hnode. assert (Hw : wrap64 (currentNode e + 1) = currentNode e + 1) by (apply wrap64_id; unfold in_int64, min_int64, max_int64 in *; lia).
  assert (Hw' : wrap64 (retryBackoff e * (Z.of_nat attempt + 1)) = retryBackoff e * (Z.of_nat attempt + 1)) by (apply wrap64_id; unfold in_int64, min_int64, max_int64 in *; nia).
  cbn zeta. rewrite Hw. cbn [retryBackoff maxRetries addresses currentNode]. rewrite Hw'.
  assert (Hagain : (Z.of_nat attempt <? maxRetries e) = true ->
    es_loop answer fuel (S attempt) (mkES (addresses e) (maxRetries e) (retryBackoff e) (currentNode e + 1))
      ((trace ++ [Sent (node_at e 0)]) ++ [Slept (retryBackoff e * (Z.of_nat attempt + 1))]) = (r, e', t) -> r <> Err ErrRequest ->
    exists n, t = trace ++ trace_from e attempt (S n) /\ (S n <= S fuel)%nat /\ currentNode e' = currentNode e + Z.of_nat (S n) /\
      ((exists code, r = Ok code /\ retried code = false) \/ S n = S fuel)).
  { intros Hl H Hr. apply Z.ltb_lt in Hl. apply IH in H as (n & -> & Hn & Hcur & Hcase); cbn [currentNode maxRetries retryBackoff] in *; try done; try lia.
    - exists (S n). rewrite trace_from_S, <- !app_assoc. split; [done|]. split; [lia|]. split; [lia|]. destruct Hcase as [|<-]; [by left|by right].
    - unfold in_int64, min_int64, max_int64 in *. lia. }
  assert (Hlast : (Z.of_nat attempt <? maxRetries e) = false -> fuel = 0%nat) by (intros Hl; apply Z.ltb_ge in Hl; lia).
  destruct (answer attempt (node_at e 0)) as [| |code].
  - intros [= <- _ _]. done.
  - destruct (Z.of_nat attempt <? maxRetries e) eqn:El; [by apply Hagain|]. intros [= <- <- <-] _. exists 0%nat.
    rewrite (Hlast eq_refl). split; [done|]. split; [lia|]. split; [done|by right].
  - destruct (retried code) eqn:Er; cbn [andb].
    + destruct (Z.of_nat attempt <? maxRetries e) eqn:El; [by apply Hagain|]. intros [= <- <- <-] _. exists 0%nat.
      rewrite (Hlast eq_refl). split; [done|]. split; [lia|]. split; [done|by right].
    + intros [= <- <- <-] _. exists 0%nat. split; [done|]. split; [lia|]. split; [done|]. left. by exists code.
Qed.

(** A request to Elasticsearch ends after at most [maxRetries + 1] attempts,
    which go to consecutive nodes, with waits between them that grow by the
    backoff; it gives up before only with a status that is not retried. *)
Theorem es_request_attempts answer e r e' t : 0 <= maxRetries e -> 0 <= currentNode e -> 0 <= retryBackoff e ->
  in_int64 (currentNode e + maxRetries e + 1) = true -> in_int64 (retryBackoff e * (maxRetries e + 1)) = true ->
  es_request answer e = (r, e', t) -> r <> Err ErrRequest ->
  exists n, t = trace_from e 0 n /\ 1 <= Z.of_nat n <= maxRetries e + 1 /\ currentNode e' = currentNode e + Z.of_nat n /\
    ((exists code, r = Ok code /\ retried code = false) \/ Z.of_nat n = maxRetries e + 1).
Proof.
  intros Hm Hc Hb Hi Hbi Hr Hne. unfold es_request in Hr.
  apply es_loop_spec in Hr as (n & -> & Hn & Hcur & Hcase); try done; try lia.
  - exists (S n). split; [done|]. split; [lia|]. split; [done|]. destruct Hcase as [|Hcase]; [by left|right; lia].
  - rewrite Z2Nat.id by lia. by rewrite Z.add_assoc.
Qed.

Theorem es_request_attempts_witness :
  let e := mkES ["a"; "b"] 3 100 0 in
  let answer n (_ : string) := match n with O => Status 503 | S O => NoAnswer | _ => Status 200 end in
  exists n, (es_request answer e).2 = trace_from e 0 n /\ 1 <= Z.of_nat n <= 3 + 1 /\ 3 = 0 + Z.of_nat n /\
    ((exists code, (Ok 200 : result es_error Z) = Ok code /\ retried code = false) \/ Z.of_nat n = 3 + 1).
Proof.
  refine (es_request_attempts (fun n _ => match n with O => Status 503 | S O => NoAnswer | _ => Status 200 end) (mkES ["a"; "b"] 3 100 0) (Ok 200)
    (mkES ["a"; "b"] 3 100 3) _ _ _ _ eq_refl eq_refl eq_refl _); [done|done|done|discriminate].
Defined.

(** ** What the engines are asked *)

Lemma mget_set_if ok k k' v m : String.eqb k' k = false -> mget k (mset_if ok k' v m) = mget k m.
Proof. intros Hk. destruct ok; [|done]. cbn [mset_if]. by rewrite mget_mset, Hk. Qed.

Lemma mget_set_any k k' v m : String.eqb k' k = false -> mget k (mset_any k' v m) = mget k m.
Proof. apply mget_set_if. Qed.

Lemma mget_set_opt {A} (f : A -> any) k k' v m : String.eqb k' k = false -> mget k (mset_opt f k' v m) = mget k m.
Proof. intros Hk. destruct v; [|done]. cbn [mset_opt]. by rewrite mget_mset, Hk. Qed.

(** The body of a search of Elasticsearch has a [query] that is not a query but
    an object with a [query] of its own, whatever is asked for. *)
Theorem es_query_wrapped q opts : exists m inner, mget "query" (es_SearchBody (Some q) opts) = Some (AMap m) /\ m = Build q /\ mget "query" m = Some inner.
Proof.
  assert (Hb : exists inner, mget "query" (Build q) = Some inner).
  { unfold Build. destruct (must q) as [|c [|c' l]]; [destruct (IsEmpty q)|destruct (_ && _ && _)|destruct (IsEmpty q)]; by eexists. }
  destruct Hb as [inner Hb]. exists (Build q), inner. split; [|done]. unfold es_SearchBody. destruct opts as [o|]; [|done].
  unfold es_options. destruct (Source o); unfold id;
   repeat first [rewrite mget_set_if by done|rewrite mget_set_any by done|rewrite mget_set_opt by done]; done.
Qed.

(** The query of the package's example: a builder is not a map, and a plain match is
    not looked into.  Meilisearch is asked for everything. *)
Example meilisearch_asked_for_everything :
  let q := Filter [ABuilder (rg_Build (Lte (AInt 1000) (Range "price")))] (Must [Match "name" (AStr "laptop")] Query) in
  ms_SearchBody text (Some q) None = [("q", AStr "")].
Proof. reflexivity. Qed.

(** A value with a quote in it changes the filter. *)
Example filter_injection :
  let value := "x" +:+ quote +:+ " OR secret = " +:+ quote +:+ "y" in
  convertFilters text (Filter [Term "owner" (AStr value)] Query) =
  "owner = " +:+ quote +:+ "x" +:+ quote +:+ " OR secret = " +:+ quote +:+ "y" +:+ quote.
Proof. reflexivity. Qed.

(** The document that is indexed after it was deleted, in the same bulk, is deleted. *)
Example delete_then_index :
  option_map fst (Bulk text reread_map id (fun _ => true) [BulkDelete "a" "1"; BulkIndex "a" "1" (obj [])]) =
  Some [AddDocuments "a" [[("id", AStr "1")]]; DeleteBatch "a" ["1"]].
Proof. reflexivity. Qed.

Example null_document_panics : Bulk text reread_map id (fun _ => true) [BulkIndex "a" "1" Nil] = None.
Proof. reflexivity. Qed.
