(* ===== verification/LocaleData.v ===== *)
(** * The table of locales

    The data of [src/pantry/i18n/format.go]: the formats of a locale, and the
    entries of [localeFormats], one definition each.  Strings are their UTF-8
    bytes. *)

From stdpp Require Import strings gmap.
From S2P Require Import Prelude GoStrings.

#[local] Open Scope list_scope.

Record NumberFormat := mkNumberFormat {
  DecimalSeparator : string;
  ThousandSeparator : string;
  GroupSize : Z
}.

Record CurrencyFormat := mkCurrencyFormat {
  Symbol : string;
  Code : string;
  DecimalPlaces : Z;
  SymbolPosition : string;
  SymbolSpace : bool;
  CurrencyNumber : NumberFormat
}.

Record DateFormat := mkDateFormat {
  Short : string;
  Medium : string;
  Long : string;
  Full : string;
  TimeLayout : string;
  Time24 : string;
  DateTime : string;
  MonthNames : list string;
  DayNames : list string
}.

Record LocaleFormat := mkLocaleFormat {
  LocaleTag : string;
  Number : NumberFormat;
  Currency : gmap string CurrencyFormat;
  Date : DateFormat;
  ListAnd : string;
  ListOr : string;
  RTL : bool
}.

(** ** The entries *)

Definition locale_en : LocaleFormat :=
  mkLocaleFormat "en" (mkNumberFormat "." "," 3)
    (list_to_map
     [("USD", mkCurrencyFormat "$" "USD" 2 "before" false
        (mkNumberFormat "." "," 3));
      ("EUR", mkCurrencyFormat "€" "EUR" 2 "before" false
        (mkNumberFormat "." "," 3));
      ("GBP", mkCurrencyFormat "£" "GBP" 2 "before" false
        (mkNumberFormat "." "," 3))])
    (mkDateFormat "01/02/2006" "Jan 2, 2006" "January 2, 2006" "Monday, January 2, 2006"
       "3:04 PM" "15:04" "Jan 2, 2006 3:04 PM"
       []
       [])
    "and" "or" false.

Definition locale_de : LocaleFormat :=
  mkLocaleFormat "de" (mkNumberFormat "," "." 3)
    (list_to_map
     [("EUR", mkCurrencyFormat "€" "EUR" 2 "after" true
        (mkNumberFormat "," "." 3));
      ("USD", mkCurrencyFormat "$" "USD" 2 "after" true
        (mkNumberFormat "," "." 3))])
    (mkDateFormat "02.01.2006" "2. Jan. 2006" "2. January 2006" "Monday, 2. January 2006"
       "15:04" "15:04" "2. Jan. 2006 15:04"
       ["Januar"; "Februar"; "März"; "April"; "Mai"; "Juni";
        "Juli"; "August"; "September"; "Oktober"; "November"; "Dezember"]
       ["Sonntag"; "Montag"; "Dienstag"; "Mittwoch"; "Donnerstag"; "Freitag"; "Samstag"])
    "und" "oder" false.

Definition locale_fr : LocaleFormat :=
  mkLocaleFormat "fr" (mkNumberFormat "," " " 3)
    (list_to_map
     [("EUR", mkCurrencyFormat "€" "EUR" 2 "after" true
        (mkNumberFormat "," " " 3));
      ("USD", mkCurrencyFormat "$" "USD" 2 "after" true
        (mkNumberFormat "," " " 3))])
    (mkDateFormat "02/01/2006" "2 janv. 2006" "2 January 2006" "Monday 2 January 2006"
       "15:04" "15:04" "2 janv. 2006 15:04"
       ["janvier"; "février"; "mars"; "avril"; "mai"; "juin";
        "juillet"; "août"; "septembre"; "octobre"; "novembre"; "décembre"]
       ["dimanche"; "lundi"; "mardi"; "mercredi"; "jeudi"; "vendredi"; "samedi"])
    "et" "ou" false.

Definition locale_es : LocaleFormat :=
  mkLocaleFormat "es" (mkNumberFormat "," "." 3)
    (list_to_map
     [("EUR", mkCurrencyFormat "€" "EUR" 2 "after" true
        (mkNumberFormat "," "." 3));
      ("USD", mkCurrencyFormat "$" "USD" 2 "before" false
        (mkNumberFormat "," "." 3))])
    (mkDateFormat "02/01/2006" "2 ene. 2006" "2 de January de 2006" "Monday, 2 de January de 2006"
       "15:04" "15:04" "2 ene. 2006 15:04"
       ["enero"; "febrero"; "marzo"; "abril"; "mayo"; "junio";
        "julio"; "agosto"; "septiembre"; "octubre"; "noviembre"; "diciembre"]
       ["domingo"; "lunes"; "martes"; "miércoles"; "jueves"; "viernes"; "sábado"])
    "y" "o" false.

Definition locale_it : LocaleFormat :=
  mkLocaleFormat "it" (mkNumberFormat "," "." 3)
    (list_to_map
     [("EUR", mkCurrencyFormat "€" "EUR" 2 "after" true
        (mkNumberFormat "," "." 3))])
    (mkDateFormat "02/01/2006" "2 gen 2006" "2 January 2006" "Monday 2 January 2006"
       "15:04" "15:04" "2 gen 2006 15:04"
       ["gennaio"; "febbraio"; "marzo"; "aprile"; "maggio"; "giugno";
        "luglio"; "agosto"; "settembre"; "ottobre"; "novembre"; "dicembre"]
       ["domenica"; "lunedì"; "martedì"; "mercoledì"; "giovedì"; "venerdì"; "sabato"])
    "e" "o" false.

Definition locale_pt : LocaleFormat :=
  mkLocaleFormat "pt" (mkNumberFormat "," "." 3)
    (list_to_map
     [("BRL", mkCurrencyFormat "R$" "BRL" 2 "before" true
        (mkNumberFormat "," "." 3));
      ("EUR", mkCurrencyFormat "€" "EUR" 2 "after" true
        (mkNumberFormat "," "." 3))])
    (mkDateFormat "02/01/2006" "2 de jan. de 2006" "2 de January de 2006" "Monday, 2 de January de 2006"
       "15:04" "15:04" "2 de jan. de 2006 15:04"
       ["janeiro"; "fevereiro"; "março"; "abril"; "maio"; "junho";
        "julho"; "agosto"; "setembro"; "outubro"; "novembro"; "dezembro"]
       ["domingo"; "segunda-feira"; "terça-feira"; "quarta-feira"; "quinta-feira"; "sexta-feira"; "sábado"])
    "e" "ou" false.

Definition locale_ja : LocaleFormat :=
  mkLocaleFormat "ja" (mkNumberFormat "." "," 3)
    (list_to_map
     [("JPY", mkCurrencyFormat "¥" "JPY" 0 "before" false
        (mkNumberFormat "." "," 3));
      ("USD", mkCurrencyFormat "$" "USD" 2 "before" false
        (mkNumberFormat "." "," 3))])
    (mkDateFormat "2006/01/02" "2006年1月2日" "2006年1月2日" "2006年1月2日 Monday"
       "15:04" "15:04" "2006年1月2日 15:04"
       ["1月"; "2月"; "3月"; "4月"; "5月"; "6月";
        "7月"; "8月"; "9月"; "10月"; "11月"; "12月"]
       ["日曜日"; "月曜日"; "火曜日"; "水曜日"; "木曜日"; "金曜日"; "土曜日"])
    "と" "または" false.

Definition locale_zh : LocaleFormat :=
  mkLocaleFormat "zh" (mkNumberFormat "." "," 3)
    (list_to_map
     [("CNY", mkCurrencyFormat "¥" "CNY" 2 "before" false
        (mkNumberFormat "." "," 3));
      ("USD", mkCurrencyFormat "$" "USD" 2 "before" false
        (mkNumberFormat "." "," 3))])
    (mkDateFormat "2006/01/02" "2006年1月2日" "2006年1月2日" "2006年1月2日 Monday"
       "下午3:04" "15:04" "2006年1月2日 15:04"
       ["一月"; "二月"; "三月"; "四月"; "五月"; "六月";
        "七月"; "八月"; "九月"; "十月"; "十一月"; "十二月"]
       ["星期日"; "星期一"; "星期二"; "星期三"; "星期四"; "星期五"; "星期六"])
    "和" "或" false.

Definition locale_ko : LocaleFormat :=
  mkLocaleFormat "ko" (mkNumberFormat "." "," 3)
    (list_to_map
     [("KRW", mkCurrencyFormat "₩" "KRW" 0 "before" false
        (mkNumberFormat "." "," 3));
      ("USD", mkCurrencyFormat "$" "USD" 2 "before" false
        (mkNumberFormat "." "," 3))])
    (mkDateFormat "2006. 01. 02." "2006년 1월 2일" "2006년 1월 2일" "2006년 1월 2일 Monday"
       "오후 3:04" "15:04" "2006년 1월 2일 15:04"
       ["1월"; "2월"; "3월"; "4월"; "5월"; "6월";
        "7월"; "8월"; "9월"; "10월"; "11월"; "12월"]
       ["일요일"; "월요일"; "화요일"; "수요일"; "목요일"; "금요일"; "토요일"])
    "및" "또는" false.

Definition locale_ru : LocaleFormat :=
  mkLocaleFormat "ru" (mkNumberFormat "," " " 3)
    (list_to_map
     [("RUB", mkCurrencyFormat "₽" "RUB" 2 "after" true
        (mkNumberFormat "," " " 3));
      ("USD", mkCurrencyFormat "$" "USD" 2 "after" true
        (mkNumberFormat "," " " 3))])
    (mkDateFormat "02.01.2006" "2 янв. 2006 г." "2 January 2006 г." "Monday, 2 January 2006 г."
       "15:04" "15:04" "2 янв. 2006 г., 15:04"
       ["января"; "февраля"; "марта"; "апреля"; "мая"; "июня";
        "июля"; "августа"; "сентября"; "октября"; "ноября"; "декабря"]
       ["воскресенье"; "понедельник"; "вторник"; "среда"; "четверг"; "пятница"; "суббота"])
    "и" "или" false.

Definition locale_ar : LocaleFormat :=
  mkLocaleFormat "ar" (mkNumberFormat "٫" "٬" 3)
    (list_to_map
     [("SAR", mkCurrencyFormat "ر.س" "SAR" 2 "after" true
        (mkNumberFormat "٫" "٬" 3));
      ("USD", mkCurrencyFormat "$" "USD" 2 "after" true
        (mkNumberFormat "٫" "٬" 3))])
    (mkDateFormat "02/01/2006" "2 يناير 2006" "2 January 2006" "Monday، 2 January 2006"
       "3:04 م" "15:04" "2 يناير 2006، 15:04"
       ["يناير"; "فبراير"; "مارس"; "أبريل"; "مايو"; "يونيو";
        "يوليو"; "أغسطس"; "سبتمبر"; "أكتوبر"; "نوفمبر"; "ديسمبر"]
       ["الأحد"; "الاثنين"; "الثلاثاء"; "الأربعاء"; "الخميس"; "الجمعة"; "السبت"])
    "و" "أو" true.

Definition locale_he : LocaleFormat :=
  mkLocaleFormat "he" (mkNumberFormat "." "," 3)
    (list_to_map
     [("ILS", mkCurrencyFormat "₪" "ILS" 2 "before" true
        (mkNumberFormat "." "," 3));
      ("USD", mkCurrencyFormat "$" "USD" 2 "before" true
        (mkNumberFormat "." "," 3))])
    (mkDateFormat "02.01.2006" "2 בינו׳ 2006" "2 בJanuary 2006" "יום Monday, 2 בJanuary 2006"
       "15:04" "15:04" "2 בינו׳ 2006, 15:04"
       ["ינואר"; "פברואר"; "מרץ"; "אפריל"; "מאי"; "יוני";
        "יולי"; "אוגוסט"; "ספטמבר"; "אוקטובר"; "נובמבר"; "דצמבר"]
       ["יום ראשון"; "יום שני"; "יום שלישי"; "יום רביעי"; "יום חמישי"; "יום שישי"; "יום שבת"])
    "ו" "או" true.

Definition locale_nl : LocaleFormat :=
  mkLocaleFormat "nl" (mkNumberFormat "," "." 3)
    (list_to_map
     [("EUR", mkCurrencyFormat "€" "EUR" 2 "before" true
        (mkNumberFormat "," "." 3))])
    (mkDateFormat "02-01-2006" "2 jan. 2006" "2 January 2006" "Monday 2 January 2006"
       "15:04" "15:04" "2 jan. 2006 15:04"
       ["januari"; "februari"; "maart"; "april"; "mei"; "juni";
        "juli"; "augustus"; "september"; "oktober"; "november"; "december"]
       ["zondag"; "maandag"; "dinsdag"; "woensdag"; "donderdag"; "vrijdag"; "zaterdag"])
    "en" "of" false.

Definition locale_pl : LocaleFormat :=
  mkLocaleFormat "pl" (mkNumberFormat "," " " 3)
    (list_to_map
     [("PLN", mkCurrencyFormat "zł" "PLN" 2 "after" true
        (mkNumberFormat "," " " 3));
      ("EUR", mkCurrencyFormat "€" "EUR" 2 "after" true
        (mkNumberFormat "," " " 3))])
    (mkDateFormat "02.01.2006" "2 sty 2006" "2 January 2006" "Monday, 2 January 2006"
       "15:04" "15:04" "2 sty 2006, 15:04"
       ["stycznia"; "lutego"; "marca"; "kwietnia"; "maja"; "czerwca";
        "lipca"; "sierpnia"; "września"; "października"; "listopada"; "grudnia"]
       ["niedziela"; "poniedziałek"; "wtorek"; "środa"; "czwartek"; "piątek"; "sobota"])
    "i" "lub" false.

Definition locale_tr : LocaleFormat :=
  mkLocaleFormat "tr" (mkNumberFormat "," "." 3)
    (list_to_map
     [("TRY", mkCurrencyFormat "₺" "TRY" 2 "before" false
        (mkNumberFormat "," "." 3));
      ("USD", mkCurrencyFormat "$" "USD" 2 "before" false
        (mkNumberFormat "," "." 3))])
    (mkDateFormat "02.01.2006" "2 Oca 2006" "2 January 2006" "2 January 2006 Monday"
       "15:04" "15:04" "2 Oca 2006 15:04"
       ["Ocak"; "Şubat"; "Mart"; "Nisan"; "Mayıs"; "Haziran";
        "Temmuz"; "Ağustos"; "Eylül"; "Ekim"; "Kasım"; "Aralık"]
       ["Pazar"; "Pazartesi"; "Salı"; "Çarşamba"; "Perşembe"; "Cuma"; "Cumartesi"])
    "ve" "veya" false.

Definition locale_sv : LocaleFormat :=
  mkLocaleFormat "sv" (mkNumberFormat "," " " 3)
    (list_to_map
     [("SEK", mkCurrencyFormat "kr" "SEK" 2 "after" true
        (mkNumberFormat "," " " 3));
      ("EUR", mkCurrencyFormat "€" "EUR" 2 "after" true
        (mkNumberFormat "," " " 3))])
    (mkDateFormat "2006-01-02" "2 jan. 2006" "2 January 2006" "Monday 2 January 2006"
       "15:04" "15:04" "2 jan. 2006 15:04"
       ["januari"; "februari"; "mars"; "april"; "maj"; "juni";
        "juli"; "augusti"; "september"; "oktober"; "november"; "december"]
       ["söndag"; "måndag"; "tisdag"; "onsdag"; "torsdag"; "fredag"; "lördag"])
    "och" "eller" false.

Definition locale_da : LocaleFormat :=
  mkLocaleFormat "da" (mkNumberFormat "," "." 3)
    (list_to_map
     [("DKK", mkCurrencyFormat "kr." "DKK" 2 "after" true
        (mkNumberFormat "," "." 3));
      ("EUR", mkCurrencyFormat "€" "EUR" 2 "after" true
        (mkNumberFormat "," "." 3))])
    (mkDateFormat "02.01.2006" "2. jan. 2006" "2. January 2006" "Monday den 2. January 2006"
       "15.04" "15.04" "2. jan. 2006 15.04"
       ["januar"; "februar"; "marts"; "april"; "maj"; "juni";
        "juli"; "august"; "september"; "oktober"; "november"; "december"]
       ["søndag"; "mandag"; "tirsdag"; "onsdag"; "torsdag"; "fredag"; "lørdag"])
    "og" "eller" false.

Definition locale_no : LocaleFormat :=
  mkLocaleFormat "no" (mkNumberFormat "," " " 3)
    (list_to_map
     [("NOK", mkCurrencyFormat "kr" "NOK" 2 "after" true
        (mkNumberFormat "," " " 3));
      ("EUR", mkCurrencyFormat "€" "EUR" 2 "after" true
        (mkNumberFormat "," " " 3))])
    (mkDateFormat "02.01.2006" "2. jan. 2006" "2. January 2006" "Monday 2. January 2006"
       "15:04" "15:04" "2. jan. 2006, 15:04"
       ["januar"; "februar"; "mars"; "april"; "mai"; "juni";
        "juli"; "august"; "september"; "oktober"; "november"; "desember"]
       ["søndag"; "mandag"; "tirsdag"; "onsdag"; "torsdag"; "fredag"; "lørdag"])
    "og" "eller" false.

Definition locale_fi : LocaleFormat :=
  mkLocaleFormat "fi" (mkNumberFormat "," " " 3)
    (list_to_map
     [("EUR", mkCurrencyFormat "€" "EUR" 2 "after" true
        (mkNumberFormat "," " " 3))])
    (mkDateFormat "2.1.2006" "2. tammik. 2006" "2. Januaryta 2006" "Monday 2. Januaryta 2006"
       "15.04" "15.04" "2. tammik. 2006 klo 15.04"
       ["tammikuuta"; "helmikuuta"; "maaliskuuta"; "huhtikuuta"; "toukokuuta"; "kesäkuuta";
        "heinäkuuta"; "elokuuta"; "syyskuuta"; "lokakuuta"; "marraskuuta"; "joulukuuta"]
       ["sunnuntaina"; "maanantaina"; "tiistaina"; "keskiviikkona"; "torstaina"; "perjantaina"; "lauantaina"])
    "ja" "tai" false.

Definition locale_th : LocaleFormat :=
  mkLocaleFormat "th" (mkNumberFormat "." "," 3)
    (list_to_map
     [("THB", mkCurrencyFormat "฿" "THB" 2 "before" false
        (mkNumberFormat "." "," 3));
      ("USD", mkCurrencyFormat "$" "USD" 2 "before" false
        (mkNumberFormat "." "," 3))])
    (mkDateFormat "2/1/2006" "2 ม.ค. 2006" "2 January 2006" "วันMonday ที่ 2 January 2006"
       "15:04" "15:04" "2 ม.ค. 2006 15:04"
       ["มกราคม"; "กุมภาพันธ์"; "มีนาคม"; "เมษายน"; "พฤษภาคม"; "มิถุนายน";
        "กรกฎาคม"; "สิงหาคม"; "กันยายน"; "ตุลาคม"; "พฤศจิกายน"; "ธันวาคม"]
       ["วันอาทิตย์"; "วันจันทร์"; "วันอังคาร"; "วันพุธ"; "วันพฤหัสบดี"; "วันศุกร์"; "วันเสาร์"])
    "และ" "หรือ" false.

Definition locale_vi : LocaleFormat :=
  mkLocaleFormat "vi" (mkNumberFormat "," "." 3)
    (list_to_map
     [("VND", mkCurrencyFormat "₫" "VND" 0 "after" true
        (mkNumberFormat "," "." 3));
      ("USD", mkCurrencyFormat "$" "USD" 2 "before" false
        (mkNumberFormat "," "." 3))])
    (mkDateFormat "02/01/2006" "2 thg 1, 2006" "Ngày 2 tháng 1 năm 2006" "Monday, 2 tháng 1, 2006"
       "15:04" "15:04" "2 thg 1, 2006, 15:04"
       ["tháng 1"; "tháng 2"; "tháng 3"; "tháng 4"; "tháng 5"; "tháng 6";
        "tháng 7"; "tháng 8"; "tháng 9"; "tháng 10"; "tháng 11"; "tháng 12"]
       ["Chủ Nhật"; "Thứ Hai"; "Thứ Ba"; "Thứ Tư"; "Thứ Năm"; "Thứ Sáu"; "Thứ Bảy"])
    "và" "hoặc" false.

Definition locale_id : LocaleFormat :=
  mkLocaleFormat "id" (mkNumberFormat "," "." 3)
    (list_to_map
     [("IDR", mkCurrencyFormat "Rp" "IDR" 0 "before" false
        (mkNumberFormat "," "." 3));
      ("USD", mkCurrencyFormat "$" "USD" 2 "before" false
        (mkNumberFormat "," "." 3))])
    (mkDateFormat "02/01/2006" "2 Jan 2006" "2 January 2006" "Monday, 2 January 2006"
       "15.04" "15.04" "2 Jan 2006 15.04"
       ["Januari"; "Februari"; "Maret"; "April"; "Mei"; "Juni";
        "Juli"; "Agustus"; "September"; "Oktober"; "November"; "Desember"]
       ["Minggu"; "Senin"; "Selasa"; "Rabu"; "Kamis"; "Jumat"; "Sabtu"])
    "dan" "atau" false.

Definition locale_ms : LocaleFormat :=
  mkLocaleFormat "ms" (mkNumberFormat "." "," 3)
    (list_to_map
     [("MYR", mkCurrencyFormat "RM" "MYR" 2 "before" false
        (mkNumberFormat "." "," 3));
      ("USD", mkCurrencyFormat "$" "USD" 2 "before" false
        (mkNumberFormat "." "," 3))])
    (mkDateFormat "02/01/2006" "2 Jan 2006" "2 January 2006" "Monday, 2 January 2006"
       "3:04 PM" "15:04" "2 Jan 2006, 3:04 PM"
       ["Januari"; "Februari"; "Mac"; "April"; "Mei"; "Jun";
        "Julai"; "Ogos"; "September"; "Oktober"; "November"; "Disember"]
       ["Ahad"; "Isnin"; "Selasa"; "Rabu"; "Khamis"; "Jumaat"; "Sabtu"])
    "dan" "atau" false.

Definition locale_hi : LocaleFormat :=
  mkLocaleFormat "hi" (mkNumberFormat "." "," 3)
    (list_to_map
     [("INR", mkCurrencyFormat "₹" "INR" 2 "before" false
        (mkNumberFormat "." "," 3));
      ("USD", mkCurrencyFormat "$" "USD" 2 "before" false
        (mkNumberFormat "." "," 3))])
    (mkDateFormat "02/01/2006" "2 जन॰ 2006" "2 January 2006" "Monday, 2 January 2006"
       "3:04 pm" "15:04" "2 जन॰ 2006, 3:04 pm"
       ["जनवरी"; "फ़रवरी"; "मार्च"; "अप्रैल"; "मई"; "जून";
        "जुलाई"; "अगस्त"; "सितंबर"; "अक्तूबर"; "नवंबर"; "दिसंबर"]
       ["रविवार"; "सोमवार"; "मंगलवार"; "बुधवार"; "गुरुवार"; "शुक्रवार"; "शनिवार"])
    "और" "या" false.

Definition locale_uk : LocaleFormat :=
  mkLocaleFormat "uk" (mkNumberFormat "," " " 3)
    (list_to_map
     [("UAH", mkCurrencyFormat "₴" "UAH" 2 "after" true
        (mkNumberFormat "," " " 3));
      ("USD", mkCurrencyFormat "$" "USD" 2 "after" true
        (mkNumberFormat "," " " 3))])
    (mkDateFormat "02.01.2006" "2 січ. 2006 р." "2 January 2006 р." "Monday, 2 January 2006 р."
       "15:04" "15:04" "2 січ. 2006 р., 15:04"
       ["січня"; "лютого"; "березня"; "квітня"; "травня"; "червня";
        "липня"; "серпня"; "вересня"; "жовтня"; "листопада"; "грудня"]
       ["неділя"; "понеділок"; "вівторок"; "середа"; "четвер"; "пʼятниця"; "субота"])
    "та" "або" false.

Definition locale_cs : LocaleFormat :=
  mkLocaleFormat "cs" (mkNumberFormat "," " " 3)
    (list_to_map
     [("CZK", mkCurrencyFormat "Kč" "CZK" 2 "after" true
        (mkNumberFormat "," " " 3));
      ("EUR", mkCurrencyFormat "€" "EUR" 2 "after" true
        (mkNumberFormat "," " " 3))])
    (mkDateFormat "02.01.2006" "2. 1. 2006" "2. January 2006" "Monday 2. January 2006"
       "15:04" "15:04" "2. 1. 2006 15:04"
       ["ledna"; "února"; "března"; "dubna"; "května"; "června";
        "července"; "srpna"; "září"; "října"; "listopadu"; "prosince"]
       ["neděle"; "pondělí"; "úterý"; "středa"; "čtvrtek"; "pátek"; "sobota"])
    "a" "nebo" false.

Definition locale_el : LocaleFormat :=
  mkLocaleFormat "el" (mkNumberFormat "," "." 3)
    (list_to_map
     [("EUR", mkCurrencyFormat "€" "EUR" 2 "after" true
        (mkNumberFormat "," "." 3))])
    (mkDateFormat "02/01/2006" "2 Ιαν 2006" "2 January 2006" "Monday 2 January 2006"
       "3:04 μ.μ." "15:04" "2 Ιαν 2006, 3:04 μ.μ."
       ["Ιανουαρίου"; "Φεβρουαρίου"; "Μαρτίου"; "Απριλίου"; "Μαΐου"; "Ιουνίου";
        "Ιουλίου"; "Αυγούστου"; "Σεπτεμβρίου"; "Οκτωβρίου"; "Νοεμβρίου"; "Δεκεμβρίου"]
       ["Κυριακή"; "Δευτέρα"; "Τρίτη"; "Τετάρτη"; "Πέμπτη"; "Παρασκευή"; "Σάββατο"])
    "και" "ή" false.

Definition locale_ro : LocaleFormat :=
  mkLocaleFormat "ro" (mkNumberFormat "," "." 3)
    (list_to_map
     [("RON", mkCurrencyFormat "lei" "RON" 2 "after" true
        (mkNumberFormat "," "." 3));
      ("EUR", mkCurrencyFormat "€" "EUR" 2 "after" true
        (mkNumberFormat "," "." 3))])
    (mkDateFormat "02.01.2006" "2 ian. 2006" "2 January 2006" "Monday, 2 January 2006"
       "15:04" "15:04" "2 ian. 2006, 15:04"
       ["ianuarie"; "februarie"; "martie"; "aprilie"; "mai"; "iunie";
        "iulie"; "august"; "septembrie"; "octombrie"; "noiembrie"; "decembrie"]
       ["duminică"; "luni"; "marți"; "miercuri"; "joi"; "vineri"; "sâmbătă"])
    "și" "sau" false.

Definition locale_hu : LocaleFormat :=
  mkLocaleFormat "hu" (mkNumberFormat "," " " 3)
    (list_to_map
     [("HUF", mkCurrencyFormat "Ft" "HUF" 0 "after" true
        (mkNumberFormat "," " " 3));
      ("EUR", mkCurrencyFormat "€" "EUR" 2 "after" true
        (mkNumberFormat "," " " 3))])
    (mkDateFormat "2006. 01. 02." "2006. jan. 2." "2006. January 2." "2006. January 2., Monday"
       "15:04" "15:04" "2006. jan. 2. 15:04"
       ["január"; "február"; "március"; "április"; "május"; "június";
        "július"; "augusztus"; "szeptember"; "október"; "november"; "december"]
       ["vasárnap"; "hétfő"; "kedd"; "szerda"; "csütörtök"; "péntek"; "szombat"])
    "és" "vagy" false.

Definition locale_table : list (string * LocaleFormat) :=
  [("en", locale_en); ("de", locale_de); ("fr", locale_fr); ("es", locale_es);
   ("it", locale_it); ("pt", locale_pt); ("ja", locale_ja); ("zh", locale_zh);
   ("ko", locale_ko); ("ru", locale_ru); ("ar", locale_ar); ("he", locale_he);
   ("nl", locale_nl); ("pl", locale_pl); ("tr", locale_tr); ("sv", locale_sv);
   ("da", locale_da); ("no", locale_no); ("fi", locale_fi); ("th", locale_th);
   ("vi", locale_vi); ("id", locale_id); ("ms", locale_ms); ("hi", locale_hi);
   ("uk", locale_uk); ("cs", locale_cs); ("el", locale_el); ("ro", locale_ro);
   ("hu", locale_hu)].

Definition localeFormats : gmap string LocaleFormat := list_to_map locale_table.
