(* ===== verification/LocaleFormat.v ===== *)
(** * Formatting for a locale

    [src/pantry/i18n/format.go]: numbers, currencies, dates, relative times and
    lists, over the table of [LocaleData].  [time.Time.Format] is modelled on the
    elements of a layout that the table uses; a layout with others (zones,
    fractions of a second, days of the year) is [None], and [layouts_modelled]
    shows that the table has none.  A time is an instant and the offset of its
    location, as in [Calendar].  [strconv.FormatFloat] is the parameter
    [FormatFloat] of the functions that print floats. *)

From Stdlib Require Import Floats.SpecFloat.
From stdpp Require Import strings gmap.
From S2P Require Import Prelude Float64 GoStrings Calendar Plural I18n LocaleData.

#[local] Open Scope list_scope.

(** ** The locale's entry *)

Definition GetLocaleFormat (locale : string) : LocaleFormat :=
  let base := ToLower (default locale (base_of locale)) in
  default locale_en (localeFormats !! base).

(** ** Groups of digits *)

(** The loop that cuts groups off the end of [str]: [None] when the fuel, or a
    group size below 1, stops it. *)
Fixpoint group_loop (fuel : nat) (size : nat) (str : string) (groups : list string) : option (list string) :=
  match str, fuel with
  | "", _ => Some groups
  | _, O => None
  | _, S fuel =>
      let start := (String.length str - size)%nat in
      group_loop fuel size (str_take start str) (str_drop start str :: groups)
  end.

(** Thousand separators in a string of digits.  A group size of zero keeps the
    loop from ending, and one below zero makes the slice panic: [None]. *)
Definition group (nf : NumberFormat) (str : string) : option string :=
  if negb (String.eqb (ThousandSeparator nf) "") && (GroupSize nf <? Z.of_nat (String.length str)) then
    if (GroupSize nf <=? 0) && negb (String.eqb str "") then None
    else match group_loop (String.length str) (Z.to_nat (GroupSize nf)) str [] with
         | Some groups => Some (String.concat (ThousandSeparator nf) groups)
         | None => None
         end
  else Some str.

Definition formatInteger (n : Z) (nf : NumberFormat) : option string :=
  let negative := n <? 0 in
  let n := if negative then wrap64 (- n) else n in
  match group nf (Itoa n) with
  | Some str => Some (if negative then "-" +:+ str else str)
  | None => None
  end.

Definition FormatInteger (locale : string) (n : Z) : option string :=
  formatInteger n (Number (GetLocaleFormat locale)).

(** ** Floats and currencies *)

Section floats.
(** [strconv.FormatFloat(n, 'f', precision, 64)]. *)
Context (FormatFloat : float64 -> Z -> string).

Definition f64_zero : float64 := f64_of_int 0.
Definition f64_neg (x : float64) : float64 := SpecFloat.SFopp x.

Definition formatNumber (n : float64) (precision : Z) (nf : NumberFormat) : option string :=
  let negative := f64_lt n f64_zero in
  let n := if negative then f64_neg n else n in
  let str := FormatFloat n (if precision <? 0 then -1 else precision) in
  let parts := split_byte "." str in
  let intPart := default "" (parts !! 0%nat) in
  let decPart := default "" (parts !! 1%nat) in
  match group nf intPart with
  | Some intPart =>
      let result := if String.eqb decPart "" then intPart else intPart +:+ DecimalSeparator nf +:+ decPart in
      Some (if negative then "-" +:+ result else result)
  | None => None
  end.

Definition FormatNumberWithPrecision (locale : string) (n : float64) (precision : Z) : option string :=
  formatNumber n precision (Number (GetLocaleFormat locale)).

Definition FormatNumber (locale : string) (n : float64) : option string :=
  FormatNumberWithPrecision locale n (-1).

Definition FormatPercentWithPrecision (locale : string) (n : float64) (precision : Z) : option string :=
  match formatNumber (f64_mul n (f64_of_int 100)) precision (Number (GetLocaleFormat locale)) with
  | Some s => Some (s +:+ "%")
  | None => None
  end.

Definition FormatPercent (locale : string) (n : float64) : option string :=
  FormatPercentWithPrecision locale n 0.

(** The format of a currency in a locale. *)
Definition currency_format (locFmt : LocaleFormat) (currencyCode : string) : CurrencyFormat :=
  default (mkCurrencyFormat currencyCode currencyCode 2 "before" true (Number locFmt))
    (Currency locFmt !! currencyCode).

Definition with_symbol (curFmt : CurrencyFormat) (numStr : string) : string :=
  if String.eqb (SymbolPosition curFmt) "after"
  then if SymbolSpace curFmt then numStr +:+ " " +:+ Symbol curFmt else numStr +:+ Symbol curFmt
  else if SymbolSpace curFmt then Symbol curFmt +:+ " " +:+ numStr else Symbol curFmt +:+ numStr.

Definition FormatCurrency (locale : string) (amount : float64) (currencyCode : string) : option string :=
  let curFmt := currency_format (GetLocaleFormat locale) currencyCode in
  match formatNumber amount (DecimalPlaces curFmt) (CurrencyNumber curFmt) with
  | Some numStr =>
      let negative := f64_lt amount f64_zero in
      let numStr := if negative then str_drop 1 numStr else numStr in
      let result := with_symbol curFmt numStr in
      Some (if negative then "-" +:+ result else result)
  | None => None
  end.
End floats.

(** ** Layouts of [time.Time.Format] *)

Inductive element : Type :=
  | LongMonth | Month | NumMonth | ZeroMonth
  | LongWeekDay | WeekDay
  | Day | ZeroDay
  | LongYear | Year
  | Hour24 | Hour12 | ZeroHour12
  | Minute1 | Minute2 | Second1 | Second2
  | PM | pm.

(** A layout is bytes to copy and elements to fill in. *)
Inductive chunk : Type :=
  | Byte (c : ascii)
  | Elem (e : element).

Definition starts_lower (s : string) : bool :=
  match s with String c _ => is_lower c | "" => false end.

(** [".000"] and the like: a point or comma, a run of one of the digits 0 and 9,
    and no digit after it. *)
Fixpoint skip_run (ch : ascii) (s : string) : string :=
  match s with
  | String c s' => if Ascii.eqb c ch then skip_run ch s' else s
  | "" => ""
  end.

Definition is_fraction (rest : string) : bool :=
  match rest with
  | String c _ =>
      (Ascii.eqb c "0" || Ascii.eqb c "9") &&
      match skip_run c rest with String d _ => negb (is_digit d) | "" => true end
  | "" => false
  end.

(** The element at the front of a layout, with the number of its bytes; [None]
    inside for an element the model leaves out. *)
Definition next_element (s : string) : option (option (element * nat)) :=
  let known e n := Some (Some (e, n)) in
  match s with
  | String "J" _ =>
      if HasPrefix s "January" then known LongMonth 7%nat
      else if HasPrefix s "Jan" && negb (starts_lower (str_drop 3 s)) then known Month 3%nat else None
  | String "M" _ =>
      if HasPrefix s "Monday" then known LongWeekDay 6%nat
      else if HasPrefix s "Mon" && negb (starts_lower (str_drop 3 s)) then known WeekDay 3%nat
      else if HasPrefix s "MST" then Some None else None
  | String "0" _ =>
      if HasPrefix s "01" then known ZeroMonth 2%nat
      else if HasPrefix s "02" then known ZeroDay 2%nat
      else if HasPrefix s "03" then known ZeroHour12 2%nat
      else if HasPrefix s "04" then known Minute2 2%nat
      else if HasPrefix s "05" then known Second2 2%nat
      else if HasPrefix s "06" then known Year 2%nat
      else if HasPrefix s "002" then Some None else None
  | String "1" _ => if HasPrefix s "15" then known Hour24 2%nat else known NumMonth 1%nat
  | String "2" _ => if HasPrefix s "2006" then known LongYear 4%nat else known Day 1%nat
  | String "_" r =>
      if HasPrefix r "2006" then None
      else if HasPrefix r "2" || HasPrefix r "_2" then Some None else None
  | String "3" _ => known Hour12 1%nat
  | String "4" _ => known Minute1 1%nat
  | String "5" _ => known Second1 1%nat
  | String "P" _ => if HasPrefix s "PM" then known PM 2%nat else None
  | String "p" _ => if HasPrefix s "pm" then known pm 2%nat else None
  | String "-" r => if HasPrefix r "07" then Some None else None
  | String "Z" r => if HasPrefix r "07" then Some None else None
  | String "." r | String "," r => if is_fraction r then Some None else None
  | _ => None
  end.

Fixpoint chunks (fuel : nat) (s : string) : option (list chunk) :=
  match fuel, s with
  | _, "" => Some []
  | O, _ => None
  | S fuel, String c s' =>
      match next_element s with
      | Some (Some (e, n)) => cons (Elem e) <$> chunks fuel (str_drop n s)
      | Some None => None
      | None => cons (Byte c) <$> chunks fuel s'
      end
  end.

Definition layout_chunks (layout : string) : option (list chunk) := chunks (String.length layout) layout.

(** ** Filling in *)

Definition month_names : list string :=
  ["January"; "February"; "March"; "April"; "May"; "June";
   "July"; "August"; "September"; "October"; "November"; "December"].
Definition day_names : list string :=
  ["Sunday"; "Monday"; "Tuesday"; "Wednesday"; "Thursday"; "Friday"; "Saturday"].
Definition short (name : string) : string := str_take 3 name.

(** [appendInt(b, x, width)]. *)
Definition pad (width : nat) (z : Z) : string :=
  let d := Itoa (Z.abs z) in
  let zeros := String.concat "" (repeat "0" (width - String.length d)) in
  (if z <? 0 then "-" else "") +:+ zeros +:+ d.

(** The parts of a time that a layout shows. *)
Record clock := mkClock {
  k_year : Z; k_month : nat; k_day : Z; k_weekday : nat; k_hour : Z; k_minute : Z; k_second : Z
}.

(** Months and days of the week count from 0. *)
Definition clock_of (off : Z) (t : Time) : clock :=
  mkClock (time_Year off t) (Z.to_nat (time_Month off t - 1)) (time_Day off t)
    (Z.to_nat (time_Weekday off t)) (time_Hour off t) (time_Minute off t) (time_Second off t).

Definition hour12 (h : Z) : Z := if h mod 12 =? 0 then 12 else h mod 12.

(** The names in use: English for [Format] itself. *)
Record names := mkNames { n_months : list string; n_days : list string }.
Definition english : names := mkNames month_names day_names.

Definition nth_name (l : list string) (i : nat) : string := default "" (l !! i).

Definition fill_element (n : names) (k : clock) (e : element) : string :=
  match e with
  | LongMonth => nth_name (n_months n) (k_month k)
  | Month => short (nth_name (n_months n) (k_month k))
  | NumMonth => pad 0 (Z.of_nat (k_month k) + 1)
  | ZeroMonth => pad 2 (Z.of_nat (k_month k) + 1)
  | LongWeekDay => nth_name (n_days n) (k_weekday k)
  | WeekDay => short (nth_name (n_days n) (k_weekday k))
  | Day => pad 0 (k_day k)
  | ZeroDay => pad 2 (k_day k)
  | LongYear => pad 4 (k_year k)
  | Year => pad 2 ((if k_year k <? 0 then 0 else k_year k) mod 100)
  | Hour24 => pad 2 (k_hour k)
  | Hour12 => pad 0 (hour12 (k_hour k))
  | ZeroHour12 => pad 2 (hour12 (k_hour k))
  | Minute1 => pad 0 (k_minute k)
  | Minute2 => pad 2 (k_minute k)
  | Second1 => pad 0 (k_second k)
  | Second2 => pad 2 (k_second k)
  | PM => if 12 <=? k_hour k then "PM" else "AM"
  | pm => if 12 <=? k_hour k then "pm" else "am"
  end.

Definition fill_chunk (n : names) (k : clock) (c : chunk) : string :=
  match c with Byte c => String c "" | Elem e => fill_element n k e end.

Definition fill_in (n : names) (k : clock) (cs : list chunk) : string :=
  String.concat "" (map (fill_chunk n k) cs).

Definition time_Format (off : Z) (t : Time) (layout : string) : option string :=
  fill_in english (clock_of off t) <$> layout_chunks layout.

(** ** Dates *)

(** One English name replaced by the locale's, whole and then by its first three
    bytes. *)
Definition replace_name (result : string) (english : string) (local : string) : string :=
  let result := ReplaceAll result english local in
  if (3 <=? String.length local)%nat then ReplaceAll result (short english) (short local) else result.

(** What [formatDateWithLocale] does to the text [Format] gives. *)
Definition localize (df : DateFormat) (month day : nat) (result : string) : string :=
  let result :=
    if (length (MonthNames df) =? 12)%nat && (month <? 12)%nat
    then replace_name result (nth_name month_names month) (nth_name (MonthNames df) month)
    else result in
  if (length (DayNames df) =? 7)%nat && (day <? 7)%nat
  then replace_name result (nth_name day_names day) (nth_name (DayNames df) day)
  else result.

Definition formatDateWithLocale (off : Z) (t : Time) (format : string) (df : DateFormat) : option string :=
  localize df (k_month (clock_of off t)) (k_weekday (clock_of off t)) <$> time_Format off t format.

Definition style_layout (df : DateFormat) (style : string) : string :=
  if String.eqb style "medium" then Medium df
  else if String.eqb style "long" then Long df
  else if String.eqb style "full" then Full df
  else Short df.

Definition FormatDateStyle (locale : string) (off : Z) (t : Time) (style : string) : option string :=
  let df := Date (GetLocaleFormat locale) in
  formatDateWithLocale off t (style_layout df style) df.

Definition FormatDate (locale : string) (off : Z) (t : Time) : option string := FormatDateStyle locale off t "short".

Definition FormatTime (locale : string) (off : Z) (t : Time) : option string :=
  time_Format off t (TimeLayout (Date (GetLocaleFormat locale))).

Definition FormatTime24 (locale : string) (off : Z) (t : Time) : option string :=
  time_Format off t (Time24 (Date (GetLocaleFormat locale))).

Definition FormatDateTime (locale : string) (off : Z) (t : Time) : option string :=
  let df := Date (GetLocaleFormat locale) in
  formatDateWithLocale off t (DateTime df) df.

(** ** Relative times *)

(** [int(d.Seconds())] and the like: the whole units, and the rest as a fraction,
    added as floats and truncated. *)
Definition duration_units (unit d : Z) : Z :=
  f64_to_int64 (fun _ => min_int64)
    (f64_add (f64_of_int (Z.quot d unit)) (f64_div (f64_of_int (Z.rem d unit)) (f64_of_int unit))).

(** The key of the largest unit, and the count. *)
Definition relative_key (d : Duration) : string * Z :=
  let seconds := duration_units Second d in
  let minutes := duration_units Minute d in
  let hours := duration_units Hour d in
  let days := Z.quot hours 24 in
  let weeks := Z.quot days 7 in
  let months := Z.quot days 30 in
  let years := Z.quot days 365 in
  if seconds <? 60 then
    if seconds <=? 1 then ("relative.now", 0) else ("relative.seconds", seconds)
  else if minutes <? 60 then ("relative.minutes", minutes)
  else if hours <? 24 then ("relative.hours", hours)
  else if days <? 7 then ("relative.days", days)
  else if weeks <? 4 then ("relative.weeks", weeks)
  else if months <? 12 then ("relative.months", months)
  else ("relative.years", years).

Definition relative_units : list (string * string) :=
  [("seconds", "second"); ("minutes", "minute"); ("hours", "hour"); ("days", "day");
   ("weeks", "week"); ("months", "month"); ("years", "year")].

Definition formatRelativeTimeEnglish (count : Z) (key : string) (past : bool) : string :=
  if Contains key "now" then "just now"
  else
    let unit := match List.find (fun p => Contains key p.1) relative_units with Some p => p.2 | None => "" end in
    let unit := if count =? 1 then unit else unit +:+ "s" in
    let formatted := Itoa count +:+ " " +:+ unit in
    if past then formatted +:+ " ago" else "in " +:+ formatted.

Section relative.
Context `{Text}.

(** The reference time of the code is not used.  [None] is the panic of a nil
    [missingKeyFunc], in [TPlural]. *)
Definition FormatRelativeTimeFrom (b : Bundle) (locale : string) (d : Duration) : option string :=
  let past := d <? 0 in
  let d := if past then wrap64 (- d) else d in
  let '(key, count) := relative_key d in
  match getMessage b locale key with
  | None => Some (formatRelativeTimeEnglish count key past)
  | Some msg =>
      match (if Contains msg "{{" then Some (executeTemplate msg [AMap {["Count" := DInt count]}])
             else TPlural b locale key count []) with
      | None => None
      | Some formatted =>
          Some (if past
                then match getMessage b locale "relative.past" with
                     | Some pastMsg => ReplaceAll pastMsg "{{.Time}}" formatted
                     | None => formatted +:+ " ago"
                     end
                else match getMessage b locale "relative.future" with
                     | Some futureMsg => ReplaceAll futureMsg "{{.Time}}" formatted
                     | None => "in " +:+ formatted
                     end)
      end
  end.

Definition FormatRelativeTime := FormatRelativeTimeFrom.
End relative.

(** ** Lists and direction *)

Definition FormatList (locale : string) (items : list string) (conjunction : string) : string :=
  match items with
  | [] => ""
  | [a] => a
  | first :: rest =>
      let locFmt := GetLocaleFormat locale in
      let conj := if String.eqb conjunction "or" then ListOr locFmt else ListAnd locFmt in
      let lastItem := List.last rest "" in
      let init := first :: removelast rest in
      if (length items =? 2)%nat then first +:+ " " +:+ conj +:+ " " +:+ lastItem
      else if HasPrefix locale "en" then String.concat ", " init +:+ ", " +:+ conj +:+ " " +:+ lastItem
      else String.concat ", " init +:+ " " +:+ conj +:+ " " +:+ lastItem
  end.

Definition FormatListAnd (locale : string) (items : list string) : string := FormatList locale items "and".
Definition FormatListOr (locale : string) (items : list string) : string := FormatList locale items "or".

Definition IsRTL (locale : string) : bool := RTL (GetLocaleFormat locale).
Definition TextDirection (locale : string) : string := if IsRTL locale then "rtl" else "ltr".

(** ** Groups *)

Lemma str_drop_length n s : String.length (str_drop n s) = (String.length s - n)%nat.
Proof. revert n. induction s as [|c s IH]; intros [|n]; cbn; done || apply IH. Qed.

Lemma concat_app l r : String.concat "" (l ++ r) = String.concat "" l +:+ String.concat "" r.
Proof.
  induction l as [|a l IH]; [done|]. cbn [app]. by rewrite !concat_cons, IH, string_app_assoc.
Qed.

(** Groups of [size], the first one possibly shorter but not empty. *)
Definition grouped (size : nat) (groups : list string) : Prop :=
  match groups with
  | [] => False
  | first :: rest =>
      (1 <= String.length first <= size)%nat /\ Forall (fun g => String.length g = size) rest
  end.

Lemma group_loop_spec fuel size str groups :
  (0 < size)%nat -> (String.length str <= fuel)%nat -> str <> "" ->
  exists gs, group_loop fuel size str groups = Some (gs ++ groups) /\
    String.concat "" gs = str /\ grouped size gs.
Proof.
  intros Hs. revert str groups. induction fuel as [|fuel IH]; intros str groups Hf Hne.
  { destruct str; cbn in *; [done|lia]. }
  destruct str as [|c str]; [done|]. cbn [group_loop]. remember (String c str) as s eqn:Es. clear Hne.
  assert (Hl : (0 < String.length s)%nat) by (subst; cbn; lia).
  destruct (decide (String.length s <= size)%nat) as [Hle|Hgt].
  - replace (String.length s - size)%nat with 0%nat by lia. exists [s].
    replace (str_take 0 s) with "" by by destruct s. replace (str_drop 0 s) with s by by destruct s.
    split; [by destruct fuel|]. split; [done|]. cbn. split; [lia|done].
  - destruct (IH (str_take (String.length s - size) s) (str_drop (String.length s - size) s :: groups)) as (gs & E & Hc & Hg).
    + rewrite str_take_length. lia.
    + intros E. apply (f_equal String.length) in E. rewrite str_take_length in E. cbn in E. lia.
    + exists (gs ++ [str_drop (String.length s - size) s]). split; [by rewrite E, <- app_assoc|]. split.
      * rewrite concat_app, Hc. cbn. by rewrite str_take_drop.
      * destruct gs as [|g gs]; [done|]. destruct Hg as [H1 H2]. split; [done|].
        apply Forall_app. split; [done|]. constructor; [|done]. rewrite str_drop_length. lia.
Qed.

(** The groups a number is printed in. *)
Lemma group_spec nf str :
  0 < GroupSize nf -> ThousandSeparator nf <> "" -> str <> "" ->
  exists gs, group nf str = Some (String.concat (ThousandSeparator nf) gs) /\
    String.concat "" gs = str /\ grouped (Z.to_nat (GroupSize nf)) gs.
Proof.
  intros Hg Ht Hs. unfold group. rewrite (proj2 (String.eqb_neq _ _) Ht). cbn [negb andb].
  destruct (Z.ltb_spec (GroupSize nf) (Z.of_nat (String.length str))) as [Hl|Hl].
  - rewrite (proj2 (Z.leb_gt _ _)) by done. cbn [andb].
    destruct (group_loop_spec (String.length str) (Z.to_nat (GroupSize nf)) str []) as (gs & E & Hc & Hgr); [lia|lia|done|].
    exists gs. by rewrite E, app_nil_r.
  - exists [str]. split; [done|]. split; [done|]. cbn. split; [|done].
    destruct str; [done|]. cbn [String.length] in *. lia.
Qed.

(** The bytes of a text that satisfy [f]. *)
Fixpoint string_filter (f : ascii -> bool) (s : string) : string :=
  match s with
  | "" => ""
  | String c s => if f c then String c (string_filter f s) else string_filter f s
  end.

Lemma string_filter_app f s t : string_filter f (s +:+ t) = string_filter f s +:+ string_filter f t.
Proof. induction s as [|c s IH]; [done|]. cbn. rewrite IH. by destruct (f c). Qed.

Lemma string_filter_none f s : string_forall (fun c => negb (f c)) s = true -> string_filter f s = "".
Proof. induction s as [|c s IH]; [done|]. cbn. intros [Hc Hs]%andb_prop. by destruct (f c); [|apply IH]. Qed.

Lemma string_filter_all f s : string_forall f s = true -> string_filter f s = s.
Proof. induction s as [|c s IH]; [done|]. cbn. intros [Hc Hs]%andb_prop. by rewrite Hc, IH. Qed.

Lemma string_filter_concat f sep l :
  string_filter f sep = "" -> string_filter f (String.concat sep l) = string_filter f (String.concat "" l).
Proof.
  intros Hs. induction l as [|a l IH]; [done|]. rewrite concat_cons, string_filter_app, <- IH.
  destruct l as [|b l]; [cbn; by rewrite string_app_nil_r|].
  change (String.concat sep (a :: b :: l)) with (a +:+ sep +:+ String.concat sep (b :: l)).
  by rewrite !string_filter_app, Hs.
Qed.

(** A byte a number is read from. *)
Definition number_byte (c : ascii) : bool := is_digit c || Ascii.eqb c "-".

Lemma Itoa_number z : string_forall number_byte (Itoa z) = true.
Proof.
  assert (H : forall z, 0 <= z -> string_forall number_byte (Itoa z) = true).
  { intros z' Hz. eapply string_forall_impl; [|apply Itoa_digits, Hz]. intros c Hc. unfold number_byte. by rewrite Hc. }
  destruct (Z.ltb_spec z 0) as [Hz|Hz]; [|by apply H].
  unfold Itoa. rewrite (proj2 (Z.ltb_lt z 0)) by done. cbn.
  specialize (H (Z.abs z) (Z.abs_nonneg z)). unfold Itoa in H.
  by rewrite Z.abs_idemp, (proj2 (Z.ltb_ge (Z.abs z) 0)) in H by lia.
Qed.

Lemma Itoa_nonempty z : Itoa z <> "".
Proof.
  destruct (Z.ltb_spec z 0); [unfold Itoa; by rewrite (proj2 (Z.ltb_lt z 0))|].
  by destruct (Itoa_head z) as (c & s & -> & _).
Qed.

Lemma Itoa_neg z : 0 < z -> Itoa (- z) = "-" +:+ Itoa z.
Proof.
  intros Hz. unfold Itoa. rewrite (proj2 (Z.ltb_lt (- z) 0)), (proj2 (Z.ltb_ge z 0)), Z.abs_opp by lia. done.
Qed.

(** ** Replacing names in a text with numbers

    A name has letters only, so that no occurrence of one reaches across a
    number: [ReplaceAll] works on the pieces between the numbers. *)

Lemma HasPrefix_barrier old a c b :
  string_has c old = false -> HasPrefix (a +:+ String c b) old = HasPrefix a old.
Proof.
  revert a. induction old as [|d old IH]; intros a Hc; [by destruct a|].
  cbn in Hc. apply orb_false_iff in Hc as [Hd Hc].
  destruct a as [|e a]; cbn; [by rewrite Hd|by rewrite IH].
Qed.

Lemma HasPrefix_length s p : HasPrefix s p = true -> (String.length p <= String.length s)%nat.
Proof. intros [r ->]%HasPrefix_spec. rewrite string_length_app. lia. Qed.

Lemma replace_barrier old new skip a c b :
  old <> "" -> string_has c old = false -> (skip <= String.length a)%nat ->
  replace_from old new skip (a +:+ String c b) =
  replace_from old new skip a +:+ String c (replace_from old new 0 b).
Proof.
  intros Ho Hc. revert skip. induction a as [|d a IH]; intros skip Hs; cbn in Hs.
  - replace skip with O by lia. cbn [String.append replace_from].
    pose proof (HasPrefix_barrier old "" c b Hc) as H. cbn [String.append] in H. rewrite H. by destruct old.
  - cbn [String.append replace_from]. destruct skip as [|skip]; [|apply IH; lia].
    change (String d (a +:+ String c b)) with (String d a +:+ String c b). rewrite HasPrefix_barrier by done.
    destruct (HasPrefix (String d a) old) eqn:E.
    + apply HasPrefix_length in E. cbn in E. rewrite IH by lia. by rewrite string_app_assoc.
    + cbn [String.append]. by rewrite IH by lia.
Qed.

(** No byte of [d] is one of [old]'s. *)
Definition apart (d old : string) : bool := string_forall (fun c => negb (string_has c old)) d.

Lemma ReplaceAll_barrier old new a d b :
  old <> "" -> d <> "" -> apart d old = true ->
  ReplaceAll (a +:+ d +:+ b) old new = ReplaceAll a old new +:+ d +:+ ReplaceAll b old new.
Proof.
  intros Ho Hd Ha. destruct d as [|c d]; [done|]. clear Hd. unfold ReplaceAll.
  revert a c Ha. induction d as [|c' d IH]; intros a c Ha; cbn in Ha; apply andb_prop in Ha as [Hc%negb_true_iff Ha].
  - change (String c "" +:+ b) with (String c b). by rewrite replace_barrier by (done || lia).
  - change (String c (String c' d) +:+ b) with (String c (String c' d +:+ b)).
    rewrite replace_barrier by (done || lia). specialize (IH "" c' Ha).
    change ("" +:+ String c' d +:+ b) with (String c' d +:+ b) in IH. rewrite IH. done.
Qed.

(** ** Texts with numbers left open *)

(** Literal text before each number, and after the last. *)
Record sym := mkSym { s_parts : list (string * element); s_last : string }.

(** Elements whose text is a number, whatever the time. *)
Definition is_number (e : element) : bool :=
  match e with
  | LongMonth | Month | LongWeekDay | WeekDay | PM | pm => false
  | _ => true
  end.

Definition sym_text (n : names) (k : clock) (s : sym) : string :=
  String.concat "" (map (fun p => p.1 +:+ fill_element n k p.2) (s_parts s)) +:+ s_last s.

Definition sym_map (f : string -> string) (s : sym) : sym :=
  mkSym (map (fun p => (f p.1, p.2)) (s_parts s)) (f (s_last s)).

Definition sym_literal (t : string) (s : sym) : sym :=
  match s_parts s with
  | [] => mkSym [] (t +:+ s_last s)
  | (t', e) :: ps => mkSym ((t +:+ t', e) :: ps) (s_last s)
  end.

(** The text of a layout, for a month, a day of the week and a half of the day. *)
Fixpoint sym_of (n : names) (k : clock) (cs : list chunk) : sym :=
  match cs with
  | [] => mkSym [] ""
  | c :: cs =>
      match c with
      | Elem e => if is_number e then let s := sym_of n k cs in mkSym (("", e) :: s_parts s) (s_last s)
                  else sym_literal (fill_chunk n k c) (sym_of n k cs)
      | Byte _ => sym_literal (fill_chunk n k c) (sym_of n k cs)
      end
  end.

Lemma sym_literal_text n k t s : sym_text n k (sym_literal t s) = t +:+ sym_text n k s.
Proof.
  unfold sym_text, sym_literal. destruct s as [[|[t' e] ps] l]; cbn [s_parts s_last map fst snd]; [done|].
  by rewrite !concat_cons, !string_app_assoc.
Qed.

Lemma sym_of_text n k cs : sym_text n k (sym_of n k cs) = fill_in n k cs.
Proof.
  unfold fill_in. induction cs as [|c cs IH]; [done|]. cbn [map]. rewrite concat_cons, <- IH. cbn [sym_of].
  destruct c as [c|e]; [apply sym_literal_text|]. destruct (is_number e); [|apply sym_literal_text].
  unfold sym_text. cbn [s_parts s_last map fst snd]. by rewrite concat_cons, string_app_assoc.
Qed.

Lemma string_forall_concat f l : string_forall f (String.concat "" l) = forallb (string_forall f) l.
Proof. induction l as [|a l IH]; [done|]. by rewrite concat_cons, string_forall_app, IH. Qed.

Lemma pad_number w z : pad w z <> "" /\ string_forall number_byte (pad w z) = true.
Proof.
  unfold pad. split.
  - pose proof (Itoa_nonempty (Z.abs z)) as H. destruct (Itoa (Z.abs z)); [done|].
    destruct (z <? 0); [done|]. cbn [String.append].
    destruct (String.concat "" _); done.
  - rewrite !string_forall_app, Itoa_number, andb_true_r. apply andb_true_intro. split; [by destruct (z <? 0)|].
    rewrite string_forall_concat. by induction (w - _)%nat.
Qed.

Lemma number_element n k e :
  is_number e = true -> fill_element n k e <> "" /\ string_forall number_byte (fill_element n k e) = true.
Proof. destruct e; try done; intros _; apply pad_number. Qed.

(** A name: letters only, and at least one. *)
Definition is_name (s : string) : bool :=
  negb (String.eqb s "") && string_forall (fun c => negb (number_byte c)) s.

Lemma name_apart d old :
  string_forall number_byte d = true -> is_name old = true -> apart d old = true.
Proof.
  unfold is_name. intros Hd [_ Ho]%andb_prop. unfold apart. eapply string_forall_impl; [|exact Hd].
  intros c Hc. rewrite (string_forall_has _ old c Ho); [done|]. by rewrite Hc.
Qed.

Lemma is_name_nonempty s : is_name s = true -> s <> "".
Proof. by destruct s. Qed.

Lemma ReplaceAll_sym n k old new s :
  is_name old = true -> forallb (fun p => is_number p.2) (s_parts s) = true ->
  ReplaceAll (sym_text n k s) old new = sym_text n k (sym_map (fun t => ReplaceAll t old new) s).
Proof.
  intros Ho. destruct s as [ps l]. unfold sym_text, sym_map. cbn [s_parts s_last].
  induction ps as [|[t e] ps IH]; [done|]. cbn [forallb map fst snd]. intros [He Hps]%andb_prop.
  rewrite !concat_cons, <- !string_app_assoc.
  destruct (number_element n k e He) as [Hne Hnum].
  rewrite ReplaceAll_barrier by (done || by apply is_name_nonempty || by apply name_apart).
  by rewrite IH.
Qed.

Lemma sym_of_numbers n k cs : forallb (fun p => is_number p.2) (s_parts (sym_of n k cs)) = true.
Proof.
  assert (H : forall t s, forallb (fun p => is_number p.2) (s_parts s) = true ->
                forallb (fun p => is_number p.2) (s_parts (sym_literal t s)) = true).
  { intros t [[|[t' e] ps] l]; done. }
  induction cs as [|[c|e] cs IH]; [done| |]; cbn [sym_of]; [by apply H|].
  destruct (is_number e) eqn:E; [|by apply H]. cbn [s_parts forallb snd]. by rewrite E.
Qed.

(** The replacements of [localize], on the pieces. *)
Definition sym_replace (english local : string) (s : sym) : sym :=
  let s := sym_map (fun t => ReplaceAll t english local) s in
  if (3 <=? String.length local)%nat then sym_map (fun t => ReplaceAll t (short english) (short local)) s else s.

Definition sym_localize (df : DateFormat) (month day : nat) (s : sym) : sym :=
  let s :=
    if (length (MonthNames df) =? 12)%nat && (month <? 12)%nat
    then sym_replace (nth_name month_names month) (nth_name (MonthNames df) month) s
    else s in
  if (length (DayNames df) =? 7)%nat && (day <? 7)%nat
  then sym_replace (nth_name day_names day) (nth_name (DayNames df) day) s
  else s.

Lemma sym_map_numbers f s :
  forallb (fun p => is_number p.2) (s_parts (sym_map f s)) = forallb (fun p => is_number p.2) (s_parts s).
Proof. destruct s as [ps l]. cbn. induction ps as [|p ps IH]; [done|]. cbn. by rewrite IH. Qed.

Lemma replace_name_sym n k old new s :
  is_name old = true -> is_name (short old) = true -> forallb (fun p => is_number p.2) (s_parts s) = true ->
  replace_name (sym_text n k s) old new = sym_text n k (sym_replace old new s) /\
  forallb (fun p => is_number p.2) (s_parts (sym_replace old new s)) = true.
Proof.
  intros Ho Hs Hn. unfold replace_name, sym_replace. rewrite ReplaceAll_sym by done.
  destruct (3 <=? String.length new)%nat; rewrite ?ReplaceAll_sym; rewrite ?sym_map_numbers; done.
Qed.

Lemma english_names :
  forallb (fun s => is_name s && is_name (short s)) (month_names ++ day_names) = true.
Proof. by vm_compute. Qed.

Lemma english_name l i :
  l ⊆ month_names ++ day_names -> (i < length l)%nat ->
  is_name (nth_name l i) = true /\ is_name (short (nth_name l i)) = true.
Proof.
  intros Hl Hi. apply lookup_lt_is_Some in Hi as [s Hs]. unfold nth_name. rewrite Hs. cbn [default].
  apply list_elem_of_lookup_2 in Hs. apply Hl, list_elem_of_In in Hs.
  pose proof english_names as H. rewrite forallb_forall in H. apply H in Hs. by apply andb_prop in Hs.
Qed.

Lemma localize_sym n k df m w s :
  forallb (fun p => is_number p.2) (s_parts s) = true ->
  localize df m w (sym_text n k s) = sym_text n k (sym_localize df m w s).
Proof.
  intros Hs. unfold localize, sym_localize. cbv zeta.
  assert (H : forall (b : bool) (l : list string) i new s, forallb (fun p => is_number p.2) (s_parts s) = true ->
            l ⊆ month_names ++ day_names -> (b = true -> (i < length l)%nat) ->
            (if b then replace_name (sym_text n k s) (nth_name l i) new else sym_text n k s) =
            sym_text n k (if b then sym_replace (nth_name l i) new s else s) /\
            forallb (fun p => is_number p.2) (s_parts (if b then sym_replace (nth_name l i) new s else s)) = true).
  { intros b l i new s' Hs' Hl Hi. destruct b; [|done]. destruct (english_name l i Hl (Hi eq_refl)).
    by apply replace_name_sym. }
  edestruct (H ((length (MonthNames df) =? 12)%nat && (m <? 12)%nat) month_names m (nth_name (MonthNames df) m) s)
    as [E1 E2]; [done|intros x Hx; apply elem_of_app; by left|by intros [_ ?%Nat.ltb_lt]%andb_prop|].
  rewrite E1. apply H; [done|intros x Hx; apply elem_of_app; by right|]. by intros [_ ?%Nat.ltb_lt]%andb_prop.
Qed.

(** ** The table's layouts *)

(** The names a locale's dates are written with. *)
Definition local_names (df : DateFormat) : names :=
  mkNames (if (length (MonthNames df) =? 12)%nat then MonthNames df else month_names)
          (if (length (DayNames df) =? 7)%nat then DayNames df else day_names).

Definition date_layouts (df : DateFormat) : list string :=
  [Short df; Medium df; Long df; Full df; DateTime df].

Definition table_layouts (df : DateFormat) : list string := TimeLayout df :: Time24 df :: date_layouts df.

#[export] Instance element_eq_dec : EqDecision element.
Proof. solve_decision. Defined.

#[export] Instance sym_eq_dec : EqDecision sym.
Proof. solve_decision. Defined.

(** A clock that has a month, a day of the week and a half of the day; the
    pieces of a text depend on nothing else. *)
Definition sample (m w : nat) (afternoon : bool) : clock :=
  mkClock 2024 m 1 w (if afternoon then 12 else 0) 0 0.

(** The replacements give the text written with the locale's names. *)
Definition clean_layout (df : DateFormat) (layout : string) : bool :=
  match layout_chunks layout with
  | Some cs =>
      forallb (fun m => forallb (fun w => forallb (fun a =>
        bool_decide (sym_localize df m w (sym_of english (sample m w a) cs) =
                     sym_of (local_names df) (sample m w a) cs)) [false; true]) (seq 0 7)) (seq 0 12)
  | None => false
  end.

Lemma table_clean :
  forallb (fun p => forallb (clean_layout (Date p.2)) (date_layouts (Date p.2))) locale_table = true.
Proof. by vm_compute. Qed.

Lemma table_modelled :
  forallb (fun p => forallb (fun l => bool_decide (is_Some (layout_chunks l))) (table_layouts (Date p.2))) locale_table = true.
Proof. by vm_compute. Qed.

Lemma GetLocaleFormat_table locale : exists tag, (tag, GetLocaleFormat locale) ∈ locale_table.
Proof.
  unfold GetLocaleFormat. set (base := ToLower _).
  destruct (localeFormats !! base) as [lf|] eqn:E.
  - exists base. by apply elem_of_list_to_map_2 in E.
  - exists "en". apply list_elem_of_here.
Qed.

Lemma for_locale (f : LocaleFormat -> bool) locale :
  forallb (fun p => f p.2) locale_table = true -> f (GetLocaleFormat locale) = true.
Proof.
  intros H. rewrite forallb_forall in H. destruct (GetLocaleFormat_table locale) as [tag Ht].
  apply list_elem_of_In in Ht. by apply (H (tag, _)).
Qed.

(** ** Clocks *)

Lemma clock_of_range off t : (k_month (clock_of off t) < 12)%nat /\ (k_weekday (clock_of off t) < 7)%nat.
Proof.
  unfold clock_of, time_Month, time_Weekday. cbn [k_month k_weekday].
  pose proof (Z.mod_pos_bound (month_of (local_day off t)) 12). pose proof (Z.mod_pos_bound (local_day off t + 4) 7). lia.
Qed.

Definition half (k : clock) : clock := sample (k_month k) (k_weekday k) (12 <=? k_hour k).

Lemma sym_of_half n k cs : sym_of n (half k) cs = sym_of n k cs.
Proof.
  induction cs as [|[c|e] cs IH]; [done| |]; cbn [sym_of]; rewrite IH; [done|].
  destruct e; try done; cbn [is_number fill_chunk fill_element]; unfold half, sample; cbn [k_hour];
    by destruct (12 <=? k_hour k).
Qed.

Lemma sym_text_names n n' k s :
  forallb (fun p => is_number p.2) (s_parts s) = true -> sym_text n k s = sym_text n' k s.
Proof.
  destruct s as [ps l]. unfold sym_text. cbn [s_parts s_last]. intros H. f_equal. f_equal.
  apply map_ext_in. intros [t e] Hin. rewrite forallb_forall in H. apply H in Hin. cbn [fst snd] in *. f_equal.
  by destruct e.
Qed.

Lemma sym_localize_numbers df m w s :
  forallb (fun p => is_number p.2) (s_parts s) = true ->
  forallb (fun p => is_number p.2) (s_parts (sym_localize df m w s)) = true.
Proof.
  intros H. unfold sym_localize, sym_replace.
  repeat match goal with |- context [if ?b then _ else _] => destruct b end; by rewrite ?sym_map_numbers.
Qed.

Lemma localize_clean df layout k cs :
  clean_layout df layout = true -> layout_chunks layout = Some cs ->
  (k_month k < 12)%nat -> (k_weekday k < 7)%nat ->
  localize df (k_month k) (k_weekday k) (fill_in english k cs) = fill_in (local_names df) k cs.
Proof.
  unfold clean_layout. intros Hc E Hm Hw. rewrite E in Hc. rewrite <- !sym_of_text, localize_sym by apply sym_of_numbers.
  rewrite <- (sym_of_half english k cs), <- (sym_of_half (local_names df) k cs), (sym_text_names english (local_names df)) by apply sym_localize_numbers, sym_of_numbers.
  rewrite forallb_forall in Hc. specialize (Hc (k_month k) ltac:(apply list_elem_of_In, elem_of_seq; lia)).
  rewrite forallb_forall in Hc. specialize (Hc (k_weekday k) ltac:(apply list_elem_of_In, elem_of_seq; lia)).
  rewrite forallb_forall in Hc.
  specialize (Hc (12 <=? k_hour k) ltac:(by destruct (12 <=? k_hour k); [right; left|left])).
  apply bool_decide_eq_true in Hc. unfold half. by rewrite Hc.
Qed.

(** A layout of the table, formatted with the locale's names. *)
Lemma format_layout locale off t layout :
  layout ∈ date_layouts (Date (GetLocaleFormat locale)) ->
  exists cs, layout_chunks layout = Some cs /\
    formatDateWithLocale off t layout (Date (GetLocaleFormat locale)) =
    Some (fill_in (local_names (Date (GetLocaleFormat locale))) (clock_of off t) cs).
Proof.
  intros Hl.
  pose proof (for_locale (fun lf => forallb (clean_layout (Date lf)) (date_layouts (Date lf))) locale table_clean) as Hc.
  cbv beta in Hc. rewrite forallb_forall in Hc. specialize (Hc layout (proj1 (list_elem_of_In _ _) Hl)).
  destruct (layout_chunks layout) as [cs|] eqn:E; [|unfold clean_layout in Hc; by rewrite E in Hc].
  exists cs. split; [done|]. unfold formatDateWithLocale, time_Format. rewrite E. cbn [fmap option_fmap option_map].
  f_equal. destruct (clock_of_range off t) as [Hm Hw]. by eapply localize_clean.
Qed.

Lemma style_layout_elem df style : style_layout df style ∈ date_layouts df.
Proof.
  unfold style_layout, date_layouts.
  repeat match goal with |- context [if ?b then _ else _] => destruct b end;
    repeat first [apply list_elem_of_here | apply list_elem_of_further].
Qed.

(** The elements of a layout. *)
Fixpoint elements (cs : list chunk) : list element :=
  match cs with
  | [] => []
  | Byte _ :: cs => elements cs
  | Elem e :: cs => e :: elements cs
  end.

Lemma fill_in_agree n k k' cs :
  (forall e, e ∈ elements cs -> fill_element n k e = fill_element n k' e) ->
  fill_in n k cs = fill_in n k' cs.
Proof.
  unfold fill_in. intros H. induction cs as [|[c|e] cs IH]; [done| |]; cbn [map elements] in *; rewrite !concat_cons.
  - cbn. by rewrite IH.
  - rewrite IH by (intros e' He; apply H; by right). cbn [fill_chunk]. rewrite H by by left. done.
Qed.

(** Every element of the layout is in [l]. *)
Definition uses_only (l : list element) (layout : string) : bool :=
  match layout_chunks layout with
  | Some cs => forallb (fun e => bool_decide (e ∈ l)) (elements cs)
  | None => false
  end.

Lemma uses_only_spec l layout cs e :
  uses_only l layout = true -> layout_chunks layout = Some cs -> e ∈ elements cs -> e ∈ l.
Proof.
  unfold uses_only. intros H E He. rewrite E in H. rewrite forallb_forall in H. apply list_elem_of_In, H in He.
  by apply bool_decide_eq_true in He.
Qed.

(** The locales whose medium date has a month written into the layout, and those
    whose time of day has the word for the afternoon. *)
Definition frozen_month : list string :=
  filter (fun tag => uses_only [Day; LongYear] (Medium (Date (GetLocaleFormat tag)))) locale_table.*1.

Definition frozen_half : list string :=
  filter (fun tag => uses_only [Hour12; Minute2] (TimeLayout (Date (GetLocaleFormat tag)))) locale_table.*1.

Example frozen_month_list :
  frozen_month = ["fr"; "es"; "it"; "pt"; "ru"; "ar"; "he"; "nl"; "pl"; "tr"; "sv"; "da"; "no"; "fi"; "th";
                  "hi"; "uk"; "el"; "ro"; "hu"].
Proof. by vm_compute. Qed.

Example frozen_half_list : frozen_half = ["zh"; "ko"; "ar"; "el"].
Proof. by vm_compute. Qed.

Lemma half_day_later off t :
  time_Minute off (t + 12 * Hour) = time_Minute off t /\
  hour12 (time_Hour off (t + 12 * Hour)) = hour12 (time_Hour off t).
Proof.
  assert (E : second_of_day off (t + 12 * Hour) = (second_of_day off t + 43200) mod 86400).
  { unfold second_of_day, local_seconds. replace (12 * Hour) with (43200 * Second) by (unfold Hour, Second; lia).
    rewrite Z.div_add by (unfold Second; lia). rewrite Z.add_mod_idemp_l by lia. f_equal. lia. }
  unfold time_Minute, time_Hour. rewrite E.
  pose proof (Z.mod_pos_bound (local_seconds off t) 86400) as Hs. fold (second_of_day off t) in Hs.
  generalize dependent (second_of_day off t). intros s _ Hs.
  assert (Hc : (s + 43200) mod 86400 = s + 43200 \/ (s + 43200) mod 86400 = s - 43200).
  { destruct (Z.ltb_spec s 43200); [left; apply Z.mod_small; lia|right].
    replace (s + 43200) with (s - 43200 + 1 * 86400) by lia. rewrite Z.mod_add by lia. apply Z.mod_small. lia. }
  assert (Hm : ((s + 43200) mod 86400) mod 3600 = s mod 3600).
  { destruct Hc as [-> | ->]; [replace (s + 43200) with (s + 12 * 3600) by lia|replace (s - 43200) with (s + (-12) * 3600) by lia];
      by rewrite Z.mod_add by lia. }
  assert (Hh : (((s + 43200) mod 86400) / 3600) mod 12 = (s / 3600) mod 12).
  { destruct Hc as [-> | ->]; [replace (s + 43200) with (s + 12 * 3600) by lia|replace (s - 43200) with (s + (-12) * 3600) by lia];
      rewrite Z.div_add by lia; [replace (s / 3600 + 12) with (s / 3600 + 1 * 12) by lia|replace (s / 3600 + -12) with (s / 3600 + (-1) * 12) by lia];
      by rewrite Z.mod_add by lia. }
  unfold hour12. rewrite Hh, Hm. done.
Qed.

(** ** Numbers of the table *)

Definition good_numbers (nf : NumberFormat) : bool :=
  (0 <? GroupSize nf) && negb (String.eqb (ThousandSeparator nf) "") &&
  string_forall (fun c => negb (number_byte c)) (ThousandSeparator nf).

Lemma table_numbers : forallb (fun p => good_numbers (Number p.2)) locale_table = true.
Proof. by vm_compute. Qed.

Lemma formatInteger_read nf n :
  good_numbers nf = true -> min_int64 < n <= max_int64 ->
  exists s, formatInteger n nf = Some s /\ string_filter number_byte s = Itoa n.
Proof.
  unfold good_numbers. rewrite !andb_true_iff, negb_true_iff, String.eqb_neq, Z.ltb_lt. intros [[Hg Ht] Hsep] Hn.
  unfold formatInteger. set (m := if n <? 0 then wrap64 (- n) else n).
  assert (Hm : m = Z.abs n).
  { unfold m. destruct (Z.ltb_spec n 0); [rewrite wrap64_id by (unfold in_int64, min_int64, max_int64 in *; lia)|]; lia. }
  destruct (group_spec nf (Itoa m) Hg Ht (Itoa_nonempty m)) as (gs & -> & Hc & _).
  eexists. split; [done|].
  assert (Hf : string_filter number_byte (String.concat (ThousandSeparator nf) gs) = Itoa m).
  { rewrite string_filter_concat by by apply string_filter_none. rewrite Hc. apply string_filter_all, Itoa_number. }
  destruct (Z.ltb_spec n 0) as [Hz|Hz].
  - rewrite string_filter_app, Hf, Hm. replace n with (- Z.abs n) at 2 by lia. by rewrite Itoa_neg by lia.
  - rewrite Hf, Hm. f_equal. lia.
Qed.

(** ** Durations of whole hours *)

Lemma f64_add_zero_r n : 0 < n < 2 ^ 53 -> f64_add (f64_of_int n) (S754_zero false) = f64_of_int n.
Proof. intros Hn. by rewrite f64_of_int_canon. Qed.

Lemma f64_zero_div n : 0 < n < 2 ^ 53 -> f64_div (f64_of_int 0) (f64_of_int n) = S754_zero false.
Proof. intros Hn. by rewrite (f64_of_int_canon n). Qed.

Lemma trunc_canon n : 0 < n < 2 ^ 53 -> f64_trunc (canon n) = Some n.
Proof.
  intros Hn. unfold canon, f64_trunc. pose proof (log2_int_range n Hn) as Hl.
  rewrite Z2Pos.id by (by apply canon_pos).
  destruct (Z.log2 n - 52) as [|q|q] eqn:E; [|lia|].
  - replace (52 - Z.log2 n) with 0 by lia. f_equal. lia.
  - replace (52 - Z.log2 n) with (Z.pos q) by lia. by rewrite Z.div_mul by lia.
Qed.

Lemma duration_units_whole unit n :
  0 < unit < 2 ^ 53 -> 0 <= n < 2 ^ 53 -> duration_units unit (n * unit) = n.
Proof.
  intros Hu Hn. unfold duration_units.
  rewrite Z.quot_mul, Z.rem_mul, f64_zero_div by lia.
  destruct (Z.eq_dec n 0) as [->|H0]; [done|].
  rewrite f64_add_zero_r, f64_of_int_canon by lia. unfold f64_to_int64. rewrite trunc_canon by lia.
  unfold in_int64, min_int64, max_int64. rewrite (proj2 (Z.leb_le _ _)), (proj2 (Z.leb_le _ _)) by lia. done.
Qed.

(** What the documentation's units amount to for a whole number of hours. *)
Definition hours_key (h : Z) : string * Z :=
  if h =? 0 then ("relative.now", 0)
  else if h <? 24 then ("relative.hours", h)
  else if h <? 7 * 24 then ("relative.days", h / 24)
  else if h <? 28 * 24 then ("relative.weeks", h / 24 / 7)
  else if h <? 360 * 24 then ("relative.months", h / 24 / 30)
  else ("relative.years", h / 24 / 365).

Lemma relative_key_hours h : 0 <= h * Hour <= max_int64 -> relative_key (h * Hour) = hours_key h.
Proof.
  intros Hh. unfold Hour, max_int64 in Hh. unfold relative_key. cbv zeta.
  replace (duration_units Second (h * Hour)) with (3600 * h).
  2:{ replace (h * Hour) with (3600 * h * Second) by (unfold Hour, Second; lia).
      by rewrite duration_units_whole by (unfold Second; lia). }
  replace (duration_units Minute (h * Hour)) with (60 * h).
  2:{ replace (h * Hour) with (60 * h * Minute) by (unfold Hour, Minute; lia).
      by rewrite duration_units_whole by (unfold Minute; lia). }
  rewrite duration_units_whole by (unfold Hour; lia).
  rewrite (Z.quot_div_nonneg h 24) by lia.
  assert (Hd : 0 <= h / 24) by (apply Z.div_pos; lia).
  rewrite !(Z.quot_div_nonneg (h / 24)) by lia. unfold hours_key.
  pose proof (Z.div_mod h 24 ltac:(lia)). pose proof (Z.mod_pos_bound h 24 ltac:(lia)).
  pose proof (Z.div_mod (h / 24) 7 ltac:(lia)). pose proof (Z.mod_pos_bound (h / 24) 7 ltac:(lia)).
  pose proof (Z.div_mod (h / 24) 30 ltac:(lia)). pose proof (Z.mod_pos_bound (h / 24) 30 ltac:(lia)).
  destruct (Z.eqb_spec h 0) as [->|Hnz]; [done|].
  repeat match goal with |- context [(?a <? ?b)%Z] => destruct (Z.ltb_spec a b); try lia end; done.
Qed.

(** ** Theorems *)

(** An integer is printed in groups of the locale's size, the first possibly
    shorter and never empty, that together are its decimal digits; a minus sign
    goes before them. *)
Theorem formatInteger_groups n nf :
  0 < GroupSize nf -> ThousandSeparator nf <> "" -> min_int64 < n <= max_int64 ->
  exists gs, formatInteger n nf =
      Some ((if n <? 0 then "-" else "") +:+ String.concat (ThousandSeparator nf) gs) /\
    String.concat "" gs = Itoa (Z.abs n) /\ grouped (Z.to_nat (GroupSize nf)) gs.
Proof.
  intros Hg Ht Hn. unfold formatInteger.
  assert (Hm : (if n <? 0 then wrap64 (- n) else n) = Z.abs n).
  { destruct (Z.ltb_spec n 0); [rewrite wrap64_id by (unfold in_int64, min_int64, max_int64 in *; lia)|]; lia. }
  rewrite Hm. destruct (group_spec nf (Itoa (Z.abs n)) Hg Ht (Itoa_nonempty _)) as (gs & -> & Hc & Hgr).
  exists gs. by destruct (n <? 0).
Qed.

Lemma formatInteger_groups_witness :
  formatInteger (-1234567) (Number locale_de) = Some "-1.234.567" /\
  exists gs, String.concat "" gs = "1234567" /\ grouped 3 gs.
Proof.
  split; [reflexivity|].
  destruct (formatInteger_groups (-1234567) (Number locale_de)) as (gs & _ & Hc & Hg);
    [reflexivity|discriminate|unfold min_int64, max_int64; lia|].
  exact (ex_intro _ gs (conj Hc Hg)).
Defined.

(** Whatever the locale, the digits and the minus sign of a printed [int64]
    read back as the number, for all but the smallest. *)
Theorem FormatInteger_reads_back locale n :
  min_int64 < n <= max_int64 ->
  exists s, FormatInteger locale n = Some s /\ Atoi (string_filter number_byte s) = Some n.
Proof.
  intros Hn. unfold FormatInteger.
  destruct (formatInteger_read (Number (GetLocaleFormat locale)) n) as (s & -> & Hs); [|done|].
  - apply (for_locale (fun lf => good_numbers (Number lf))), table_numbers.
  - exists s. split; [done|]. rewrite Hs. apply Atoi_Itoa. unfold in_int64, min_int64, max_int64 in *. lia.
Qed.

Lemma FormatInteger_reads_back_witness :
  exists s, FormatInteger "ar" 12345 = Some s /\ Atoi (string_filter number_byte s) = Some 12345.
Proof. apply (FormatInteger_reads_back "ar" 12345). unfold min_int64, max_int64. lia. Defined.

(** The smallest [int64] is its own negation: every locale prints it with two
    minus signs. *)
Theorem FormatInteger_smallest locale :
  exists s, FormatInteger locale min_int64 = Some ("--" +:+ s).
Proof.
  pose proof (for_locale (fun lf => match formatInteger min_int64 (Number lf) with
    | Some s => HasPrefix s "--" | None => false end) locale eq_refl) as H.
  cbv beta in H. unfold FormatInteger. destruct (formatInteger min_int64 _) as [s|]; [|done].
  apply HasPrefix_spec in H as [r ->]. by exists r.
Qed.

(** A group size of zero, which the struct allows, keeps the loop from ever
    ending: no amount of fuel suffices. *)
Theorem group_size_zero fuel str groups :
  str <> "" -> group_loop fuel 0 str groups = None.
Proof.
  revert str groups. induction fuel as [|fuel IH]; intros str groups Hs; [by destruct str|].
  destruct str as [|c str]; [done|]. cbn [group_loop]. rewrite Nat.sub_0_r, str_take_all by lia. by apply IH.
Qed.

Lemma group_size_zero_witness : "1234" <> "" /\ group_loop 100 0 "1234" [] = None.
Proof. split; [discriminate|]. apply (group_size_zero 100 "1234" []). discriminate. Defined.

(** The sign of an amount goes before everything else: the text of a negative
    amount is a minus sign and the text of its absolute value, wherever the
    locale puts the symbol. *)
Theorem FormatCurrency_sign FormatFloat locale x code :
  f64_lt f64_zero x = true ->
  FormatCurrency FormatFloat locale (f64_neg x) code =
  (fun s => "-" +:+ s) <$> FormatCurrency FormatFloat locale x code.
Proof.
  intros Hx.
  assert (H1 : f64_lt (f64_neg x) f64_zero = true) by by destruct x as [[]|[]| |[] ? ?].
  assert (H2 : f64_lt x f64_zero = false) by by apply f64_lt_asym.
  assert (H3 : f64_neg (f64_neg x) = x) by by destruct x as [[]|[]| |[] ? ?].
  unfold FormatCurrency, formatNumber. cbv zeta. rewrite H1, H2, H3.
  by destruct (group _ _).
Qed.

Lemma FormatCurrency_sign_witness :
  FormatCurrency (fun _ _ => "1234.50") "de" (f64_neg (f64_of_int 1234)) "EUR" = Some "-1.234,50 €".
Proof.
  rewrite (FormatCurrency_sign (fun _ _ => "1234.50") "de" (f64_of_int 1234) "EUR" eq_refl). by vm_compute.
Defined.

(** Dates: for every locale, style and time, replacing the English names in
    the text [Format] gives yields the layout filled in with the locale's own
    month and day names, and never touches anything else of the text (an English
    name never occurs by chance, nor does a name put in by one replacement fall
    to the next).  Every layout of the table is one the model covers. *)
Theorem FormatDate_localized locale off t :
  let df := Date (GetLocaleFormat locale) in
  (forall style, exists cs, layout_chunks (style_layout df style) = Some cs /\
     FormatDateStyle locale off t style = Some (fill_in (local_names df) (clock_of off t) cs)) /\
  (exists cs, layout_chunks (DateTime df) = Some cs /\
     FormatDateTime locale off t = Some (fill_in (local_names df) (clock_of off t) cs)) /\
  is_Some (FormatTime locale off t) /\ is_Some (FormatTime24 locale off t).
Proof.
  intros df. split; [intros style; apply format_layout, style_layout_elem|]. split.
  { apply format_layout. repeat first [apply list_elem_of_here | apply list_elem_of_further]. }
  pose proof (for_locale (fun lf => forallb (fun l => bool_decide (is_Some (layout_chunks l))) (table_layouts (Date lf)))
    locale table_modelled) as H. cbn [forallb table_layouts] in H. rewrite !andb_true_iff, !bool_decide_eq_true in H.
  destruct H as ([c1 H1] & [c2 H2] & _). unfold FormatTime, FormatTime24, time_Format. rewrite H1, H2. by split; eexists.
Qed.

(** In twenty of the locales the medium layout has the abbreviation of a
    month written into it (Go knows only [Jan]), so that the medium date names
    the same month, January's, all year: it depends on the day and the year
    alone. *)
Theorem medium_date_month_frozen locale off t t' :
  locale ∈ frozen_month ->
  time_Day off t = time_Day off t' -> time_Year off t = time_Year off t' ->
  FormatDateStyle locale off t "medium" = FormatDateStyle locale off t' "medium".
Proof.
  intros Hl Hd Hy. apply list_elem_of_filter in Hl as [Hu _]. apply Is_true_true in Hu.
  destruct (format_layout locale off t _ (style_layout_elem _ "medium")) as (cs & Hcs & E).
  destruct (format_layout locale off t' _ (style_layout_elem _ "medium")) as (cs' & Hcs' & E').
  rewrite Hcs in Hcs'. injection Hcs' as <-. unfold FormatDateStyle. rewrite E, E'. f_equal.
  apply fill_in_agree. intros e He. pose proof (uses_only_spec _ _ cs e Hu Hcs He) as Hin.
  apply elem_of_cons in Hin as [-> | [-> | Hin]%elem_of_cons];
    cbn [fill_element clock_of k_day k_year]; by rewrite ?Hd, ?Hy || apply elem_of_nil in Hin.
Qed.

Definition a_january : Time := time_Date 0 2024 1 5 9 0 0 0.
Definition a_july : Time := time_Date 0 2024 7 5 21 0 0 0.

Lemma medium_date_month_frozen_witness :
  FormatDateStyle "fr" 0 a_january "medium" = Some "5 janv. 2024" /\
  FormatDateStyle "fr" 0 a_january "medium" = FormatDateStyle "fr" 0 a_july "medium".
Proof.
  split; [by vm_compute|].
  apply (medium_date_month_frozen "fr" 0 a_january a_july); [rewrite frozen_month_list; apply list_elem_of_here|by vm_compute..].
Defined.

(** Where the layout of the time of day has the word for the afternoon
    written into it (Chinese, Korean, Arabic, Greek), nine in the morning and
    nine in the evening print alike, for every time. *)
Theorem time_half_frozen locale off t :
  locale ∈ frozen_half -> FormatTime locale off (t + 12 * Hour) = FormatTime locale off t.
Proof.
  intros Hl. apply list_elem_of_filter in Hl as [Hu _]. apply Is_true_true in Hu.
  unfold FormatTime, time_Format. destruct (layout_chunks _) as [cs|] eqn:Hcs; [|done]. cbn. f_equal.
  destruct (half_day_later off t) as [Hm Hh].
  apply fill_in_agree. intros e He. pose proof (uses_only_spec _ _ cs e Hu Hcs He) as Hin.
  apply elem_of_cons in Hin as [-> | [-> | Hin]%elem_of_cons];
    cbn [fill_element clock_of k_hour k_minute]; by rewrite ?Hm, ?Hh || apply elem_of_nil in Hin.
Qed.

Lemma time_half_frozen_witness :
  FormatTime "zh" 0 a_january = Some "下午9:00" /\ FormatTime "zh" 0 (a_january + 12 * Hour) = FormatTime "zh" 0 a_january.
Proof.
  split; [by vm_compute|].
  apply (time_half_frozen "zh" 0 a_january). rewrite frozen_half_list. apply list_elem_of_here.
Defined.

(** The Finnish month names have the ending the layout adds once more: the
    long date ends every month in [tata]. *)
Theorem finnish_ending_twice off t :
  exists stem, nth_name (MonthNames (Date locale_fi)) (k_month (clock_of off t)) = stem +:+ "ta" /\
    FormatDateStyle "fi" off t "long" =
    Some (pad 0 (time_Day off t) +:+ ". " +:+ stem +:+ "tata " +:+ pad 4 (time_Year off t)).
Proof.
  destruct (format_layout "fi" off t _ (style_layout_elem _ "long")) as (cs & Hcs & E).
  vm_compute in Hcs. injection Hcs as <-. unfold FormatDateStyle. rewrite E.
  destruct (clock_of_range off t) as [Hm _].
  assert (Hn : exists stem, nth_name (MonthNames (Date locale_fi)) (k_month (clock_of off t)) = stem +:+ "ta").
  { assert (H : forallb (fun m => HasSuffix (nth_name (MonthNames (Date locale_fi)) m) "ta") (seq 0 12) = true) by by vm_compute.
    rewrite forallb_forall in H. specialize (H (k_month (clock_of off t)) ltac:(apply list_elem_of_In, elem_of_seq; lia)).
    unfold HasSuffix in H. apply andb_prop in H as [_ H%String.eqb_eq].
    eexists. rewrite <- H. symmetry. apply str_take_drop. }
  destruct Hn as [stem Hs]. exists stem. split; [done|]. f_equal.
  change (GetLocaleFormat "fi") with locale_fi. unfold fill_in. cbn [map fill_chunk fill_element].
  change (n_months (local_names (Date locale_fi))) with (MonthNames (Date locale_fi)). rewrite Hs.
  unfold clock_of. cbn [k_day k_year]. rewrite !concat_cons. cbn [String.concat].
  rewrite string_app_nil_r. cbn [String.append]. by rewrite <- !string_app_assoc.
Qed.

Lemma relative_english `{Text} b locale h past :
  0 <= h * Hour <= max_int64 -> getMessage b locale (hours_key h).1 = None -> (past = true -> 0 < h) ->
  FormatRelativeTimeFrom b locale (if past then - (h * Hour) else h * Hour) =
  Some (formatRelativeTimeEnglish (hours_key h).2 (hours_key h).1 past).
Proof.
  intros Hh Hm Hp. unfold FormatRelativeTimeFrom. cbv zeta.
  assert (Ep : ((if past then - (h * Hour) else h * Hour) <? 0) = past).
  { unfold Hour in *. destruct past; [specialize (Hp eq_refl); apply Z.ltb_lt|apply Z.ltb_ge]; lia. }
  rewrite Ep.
  assert (Ed : (if past then wrap64 (- (if past then - (h * Hour) else h * Hour)) else if past then - (h * Hour) else h * Hour) = h * Hour).
  { destruct past; [|done]. rewrite wrap64_id; [lia|]. unfold in_int64, min_int64, max_int64 in *. lia. }
  rewrite Ed, relative_key_hours by done. destruct (hours_key h) as [key count]. cbn [fst snd] in *. by rewrite Hm.
Qed.

(** A relative time of whole hours without a translation is told in the
    largest unit that fits, in English, in the past or the future; except that
    four weeks are told in months and 360 days in years, of which 28 days and 360
    days make none: "0 months" and "0 years". *)
Theorem relative_hours `{Text} b locale h past :
  0 <= h * Hour <= max_int64 -> getMessage b locale (hours_key h).1 = None -> (past = true -> 0 < h) ->
  let text := FormatRelativeTimeFrom b locale (if past then - (h * Hour) else h * Hour) in
  text = Some (formatRelativeTimeEnglish (hours_key h).2 (hours_key h).1 past) /\
  (28 * 24 <= h < 30 * 24 -> text = Some (if past then "0 months ago" else "in 0 months")) /\
  (360 * 24 <= h < 365 * 24 -> text = Some (if past then "0 years ago" else "in 0 years")) /\
  (0 < h -> ~ (28 * 24 <= h < 30 * 24) -> ~ (360 * 24 <= h < 365 * 24) -> 0 < (hours_key h).2).
Proof.
  intros Hh Hm Hp text. unfold text. rewrite relative_english by done. split; [done|].
  pose proof (Z.div_mod h 24 ltac:(lia)). pose proof (Z.mod_pos_bound h 24 ltac:(lia)).
  assert (Hk : (h <? 24) = false -> forall k, 0 < k -> 0 < h / 24 / k <-> k * 24 <= h).
  { intros _ k Hk. rewrite Z.div_div by lia. split; intros Hq.
    - pose proof (Z.mul_div_le h (24 * k) ltac:(lia)). nia.
    - apply Z.div_str_pos. lia. }
  unfold hours_key. split; [|split].
  - intros Hr. replace (h / 24) with (if h <? 29 * 24 then 28 else 29) by (destruct (Z.ltb_spec h (29 * 24)); lia).
    repeat match goal with |- context [(?a <? ?b)%Z] => destruct (Z.ltb_spec a b); try lia end;
      destruct (Z.eqb_spec h 0); try lia; by destruct past.
  - intros Hr. destruct (Z.eqb_spec h 0); [lia|].
    assert (Hq : h / 24 / 365 = 0) by (apply Z.div_small; lia).
    repeat match goal with |- context [(?a <? ?b)%Z] => destruct (Z.ltb_spec a b); try lia end.
    cbn [fst snd]. rewrite Hq. by destruct past.
  - intros Hpos Hn1 Hn2. destruct (Z.eqb_spec h 0); [lia|].
    repeat match goal with |- context [(?a <? ?b)%Z] => destruct (Z.ltb_spec a b); try lia end; cbn [fst snd];
      try lia; apply Hk; done || lia.
Qed.

#[local] Instance plain_text : Text :=
  {| sprintf_other format _ := format; template_other msg _ := None |}.

Lemma relative_hours_witness :
  FormatRelativeTimeFrom (NewBundle "en") "en" (- (29 * 24 * Hour)) = Some "0 months ago" /\
  FormatRelativeTimeFrom (NewBundle "en") "en" (50 * Hour) = Some "in 2 days".
Proof.
  split.
  - destruct (relative_hours (NewBundle "en") "en" (29 * 24) true) as (_ & H & _);
      [unfold Hour, max_int64; lia|reflexivity|lia|]. apply H. lia.
  - destruct (relative_hours (NewBundle "en") "en" 50 false) as (H & _);
      [unfold Hour, max_int64; lia|reflexivity|discriminate|]. exact H.
Defined.

(** A translated "now" without a verb, such as [maintenant], gets the
    complaint of [fmt.Sprintf] about the count and the English [in]: the prefix
    is only left out of the untranslated text. *)
Theorem relative_now_translated `{Text} b locale msg :
  getMessage b locale "relative.now" = Some msg ->
  getMessage b locale (("relative.now" +:+ ".") +:+ plural_func b locale 0) = None ->
  getMessage b locale "relative.future" = None ->
  string_has "%" msg = false -> Contains msg "{{" = false ->
  FormatRelativeTimeFrom b locale 0 = Some ("in " +:+ msg +:+ "%!(EXTRA int=0)").
Proof.
  intros Hn Hp Hf Hv Ha. unfold FormatRelativeTimeFrom. cbv zeta.
  change (if 0 <? 0 then wrap64 (- 0) else 0) with (0 * Hour).
  rewrite relative_key_hours by (unfold Hour, max_int64; lia). cbn [hours_key].
  change (hours_key 0) with ("relative.now", 0). cbv iota beta. rewrite Hn, Ha.
  assert (E : TPlural b locale "relative.now" 0 [] = Some (msg +:+ "%!(EXTRA int=0)")).
  { unfold TPlural. rewrite string_app_assoc, Hp, Hn, Ha. unfold Sprintf. cbn.
    by rewrite sprintf_plain by done. }
  rewrite E, Hf. done.
Qed.

Definition french : Bundle := AddLocale (NewBundle "fr") "fr" {["relative.now" := "maintenant"]}.

Lemma relative_now_translated_witness :
  FormatRelativeTimeFrom french "fr" 0 = Some "in maintenant%!(EXTRA int=0)".
Proof. apply (relative_now_translated french "fr" "maintenant"); by vm_compute. Defined.

(** A list of three or more is joined with commas, and the conjunction of the
    locale stands before the last; a comma goes before it in English only. *)
Theorem FormatList_join locale conjunction front last_item :
  (2 <= length front)%nat ->
  let conj := if String.eqb conjunction "or" then ListOr (GetLocaleFormat locale) else ListAnd (GetLocaleFormat locale) in
  FormatList locale (front ++ [last_item]) conjunction =
  String.concat ", " front +:+ (if HasPrefix locale "en" then ", " else " ") +:+ conj +:+ " " +:+ last_item.
Proof.
  intros Hf conj. destruct front as [|a [|b front]]; cbn in Hf; try lia.
  assert (E : forall (x : string) l, List.last (x :: l ++ [last_item]) "" = last_item /\
            removelast (x :: l ++ [last_item]) = x :: l).
  { intros x l. split; [apply (last_last (x :: l))|apply (removelast_last (x :: l))]. }
  unfold FormatList. cbn [app]. destruct (E b front) as [-> ->]. fold conj.
  replace (length (a :: b :: front ++ [last_item]) =? 2)%nat with false.
  2:{ symmetry. apply Nat.eqb_neq. cbn. rewrite length_app. cbn. lia. }
  by destruct (HasPrefix locale "en").
Qed.

Lemma FormatList_join_witness : FormatList "de" ["a"; "b"; "c"] "or" = "a, b oder c".
Proof.
  change ["a"; "b"; "c"] with (["a"; "b"] ++ ["c"]).
  rewrite (FormatList_join "de" "or" ["a"; "b"] "c" ltac:(cbn; lia)). reflexivity.
Defined.
