(* ===== verification/AuditStore.v ===== *)
(** * Audit events and their stores

    [src/pantry/audit/store.go], with the types of [audit.go]: events, queries and
    their matching, the stores in memory, in files and in wrappers around other
    stores.

    Events are shared by pointer: [heap] gives the event a pointer leads to, and
    the stores in memory keep pointers, as in the code, while the file store keeps
    what it encoded.  A result of [None] is a panic, or a call that never returns.
    [sort.Slice], whose result is open where the order is, is the class
    [SortSlice] with its documented law.  JSON is left abstract: a file is the
    list of the values a decoder meets in it. *)

From stdpp Require Import strings sorting.
From S2P Require Import Prelude GoStrings.

#[local] Open Scope list_scope.

(** ** Events *)

(** A value of type [any]: in a map or a slice, only its being one matters. *)
Inductive value : Type :=
  | VNil
  | VStr (s : string)
  | VInt (z : Z)
  | VBool (b : bool)
  | VSlice (n : nat)
  | VMap (n : nat).

#[export] Instance value_eq_dec : EqDecision value.
Proof. solve_decision. Defined.

Record Actor := mkActor {
  a_ID : string; a_Type : string; a_Name : string; a_Email : string;
  a_IP : string; a_UserAgent : string; a_SessionID : string
}.

Record Resource := mkResource { r_ID : string; r_Type : string; r_Name : string }.

Record EventContext := mkEventContext {
  x_RequestID : string; x_TraceID : string; x_SpanID : string;
  x_Service : string; x_Environment : string; x_Version : string
}.

Record Change := mkChange { Field : string; OldValue : value; NewValue : value }.

Definition Outcome : Type := string.
Definition OutcomeSuccess : Outcome := "success".
Definition OutcomeFailure : Outcome := "failure".
Definition OutcomePending : Outcome := "pending".
Definition OutcomeUnknown : Outcome := "unknown".

Record Event := mkEvent {
  ID : string;
  Timestamp : Time;
  Action : string;
  e_Actor : option Actor;
  e_Resource : option Resource;
  e_Context : option EventContext;
  e_Outcome : Outcome;
  Reason : string;
  Changes : list Change;
  Metadata : gmap string value;
  Tags : list string
}.

Definition ptr : Type := nat.
Definition heap : Type := ptr -> Event.

Inductive audit_error : Type :=
  | ErrLoggerNotFound | ErrStoreNotConfigured | ErrQueryNotSupported | ErrChannelFull | ErrContextDone
  | ErrOther (n : nat).

#[export] Instance audit_error_eq_dec : EqDecision audit_error.
Proof. solve_decision. Defined.

(** ** Queries *)

Record Query := mkQuery {
  ActorID : string; ActorType : string; ResourceID : string; ResourceType : string;
  q_Action : string; Actions : list string; q_Outcome : Outcome; q_Tags : list string;
  From : Time; To : Time; Limit : Z; Offset : Z; OrderBy : string; OrderDesc : bool
}.

Record QueryResult := mkQueryResult { Events : list Event; Total : Z; HasMore : bool }.

Definition is_zero_time (t : Time) : bool := t =? zero_time.

Definition matchAction (action pattern : string) : bool :=
  if String.eqb pattern action then true
  else match split_byte "*" pattern with
       | [pre; post] =>
           if String.eqb pre "" then HasSuffix action post
           else if String.eqb post "" then HasPrefix action pre
           else HasPrefix action pre && HasSuffix action post
       | _ => false
       end.

Definition is_text (s t : string) : bool := String.eqb s "" || String.eqb t s.

Definition matchesQuery (event : Event) (query : Query) : bool :=
  (String.eqb (ActorID query) "" || match e_Actor event with Some a => String.eqb (a_ID a) (ActorID query) | None => false end) &&
  (String.eqb (ActorType query) "" || match e_Actor event with Some a => String.eqb (a_Type a) (ActorType query) | None => false end) &&
  (String.eqb (ResourceID query) "" || match e_Resource event with Some r => String.eqb (r_ID r) (ResourceID query) | None => false end) &&
  (String.eqb (ResourceType query) "" || match e_Resource event with Some r => String.eqb (r_Type r) (ResourceType query) | None => false end) &&
  (String.eqb (q_Action query) "" || matchAction (Action event) (q_Action query)) &&
  (match Actions query with [] => true | l => existsb (matchAction (Action event)) l end) &&
  (String.eqb (q_Outcome query) "" || String.eqb (e_Outcome event) (q_Outcome query)) &&
  forallb (fun tag => existsb (String.eqb tag) (Tags event)) (q_Tags query) &&
  (is_zero_time (From query) || negb (time_Before (Timestamp event) (From query))) &&
  (is_zero_time (To query) || negb (time_After (Timestamp event) (To query))).

(** ** Sorting *)

(** [less] is a strict weak order: the order [sort.Slice] asks for. *)
Record weak_order {A : Type} (less : A -> A -> bool) : Prop := {
  less_asym : forall a b, less a b = true -> less b a = false;
  less_trans : forall a b c, less b a = false -> less c b = false -> less c a = false
}.

Class SortSlice := {
  sort_slice : forall {A : Type}, (A -> A -> bool) -> list A -> list A;
  sort_perm : forall A (less : A -> A -> bool) l, sort_slice less l ≡ₚ l;
  sort_sorted : forall A (less : A -> A -> bool) l,
    weak_order less -> StronglySorted (fun a b => less b a = false) (sort_slice less l)
}.

(** [strings.Compare]. *)
Definition compare_key (orderBy : string) (a b : Event) : comparison :=
  let actor e := match e_Actor e with Some x => a_ID x | None => "" end in
  let resource e := match e_Resource e with Some x => r_ID x | None => "" end in
  if String.eqb orderBy "timestamp" then (Timestamp a ?= Timestamp b)
  else if String.eqb orderBy "action" then String.compare (Action a) (Action b)
  else if String.eqb orderBy "actor" then String.compare (actor a) (actor b)
  else if String.eqb orderBy "resource" then String.compare (resource a) (resource b)
  else Eq.

Definition event_less (orderBy : string) (desc : bool) (a b : Event) : bool :=
  match compare_key orderBy a b with
  | Lt => negb desc
  | Gt => desc
  | Eq => false
  end.

Definition sortEvents `{SortSlice} (events : list Event) (orderBy : string) (desc : bool) : list Event :=
  sort_slice (event_less (if String.eqb orderBy "" then "timestamp" else orderBy) desc) events.

(** ** Pages *)

(** [filtered[start:end]]: bounds that are out of order panic. *)
Definition slice {A : Type} (l : list A) (start end_ : Z) : option (list A) :=
  if (0 <=? start) && (start <=? end_) && (end_ <=? Z.of_nat (length l))
  then Some (take (Z.to_nat (end_ - start)) (drop (Z.to_nat start) l))
  else None.

Definition paginate (filtered : list Event) (query : Query) : option QueryResult :=
  let total := Z.of_nat (length filtered) in
  let start := if total <? Offset query then total else Offset query in
  let end_ := if 0 <? Limit query
              then let e := int_add start (Limit query) in if total <? e then total else e
              else total in
  match slice filtered start end_ with
  | Some events => Some (mkQueryResult events total (end_ <? total))
  | None => None
  end.

Definition answer `{SortSlice} (all : list Event) (query : Query) : option QueryResult :=
  paginate (sortEvents (List.filter (fun e => matchesQuery e query) all) (OrderBy query) (OrderDesc query)) query.

(** ** The interface *)

Class Store (S : Type) := {
  store_event : heap -> S -> ptr -> S * option audit_error;
  query_events : heap -> S -> Query -> option (result audit_error QueryResult);
  close_store : heap -> S -> S * option audit_error
}.

(** ** The store in memory *)

Record MemoryStore := mkMemoryStore { events : list ptr; maxLen : Z }.

Definition NewMemoryStore (maxEvents : Z) : MemoryStore :=
  mkMemoryStore [] (if maxEvents <=? 0 then 10000 else maxEvents).

Definition MemoryStore_Store (s : MemoryStore) (event : ptr) : MemoryStore :=
  let kept := if maxLen s <=? Z.of_nat (length (events s)) then drop 1 (events s) else events s in
  mkMemoryStore (kept ++ [event]) (maxLen s).

Definition MemoryStore_Query `{SortSlice} (h : heap) (s : MemoryStore) (query : Query) : option QueryResult :=
  answer (map h (events s)) query.

Definition MemoryStore_Events (s : MemoryStore) : list ptr := events s.
Definition MemoryStore_Clear (s : MemoryStore) : MemoryStore := mkMemoryStore [] (maxLen s).

#[export] Instance memory_store `{SortSlice} : Store MemoryStore := {
  store_event h s p := (MemoryStore_Store s p, None);
  query_events h s q := Ok <$> MemoryStore_Query h s q;
  close_store h s := (s, None)
}.

(** ** The store in files *)

(** What a decoder meets in a file: an event, a value of another shape (an error
    that the decoder gets past), or text that is not JSON, a line cut short by a
    crash among it. *)
Inductive entry : Type :=
  | Good (e : Event)
  | OtherShape
  | Malformed.

(** File 0 is [path], file [i] is [path.i]. *)
Record FileStore := mkFileStore {
  files : gmap nat (list entry);
  maxSize : Z;
  rotation : Z
}.

Section files.
(** The bytes an entry takes in a file. *)
Context (size : entry -> Z).

Definition file_size (f : list entry) : Z := foldr (fun e n => size e + n) 0 f.

Definition NewFileStore (disk : gmap nat (list entry)) (maxSize rotation : Z) : FileStore :=
  mkFileStore (<[0%nat := default [] (disk !! 0%nat)]> disk)
    (if maxSize <=? 0 then 100 * 1024 * 1024 else maxSize)
    (if rotation <=? 0 then 5 else rotation).

(** [os.Rename] of a file that is not there fails, and the code goes on. *)
Definition rename (i j : nat) (fs : gmap nat (list entry)) : gmap nat (list entry) :=
  match fs !! i with
  | Some f => <[j := f]> (delete i fs)
  | None => fs
  end.

(** The loop [for i := s.rotation - 1; i > 0; i--]. *)
Fixpoint shift_files (i : nat) (fs : gmap nat (list entry)) : gmap nat (list entry) :=
  match i with
  | O => fs
  | S i' => shift_files i' (rename i (S i) fs)
  end.

Definition checkRotation (s : FileStore) : FileStore :=
  if file_size (default [] (files s !! 0%nat)) <? maxSize s then s
  else
    let fs := rename 0 1 (shift_files (Z.to_nat (rotation s - 1)) (files s)) in
    mkFileStore (<[0%nat := default [] (fs !! 0%nat)]> fs) (maxSize s) (rotation s).

Definition FileStore_Store (s : FileStore) (e : Event) : FileStore :=
  let s := checkRotation s in
  mkFileStore (<[0%nat := default [] (files s !! 0%nat) ++ [Good e]]> (files s)) (maxSize s) (rotation s).
End files.

(** [json.Decoder.Decode]: after a syntax error every call fails, without
    reading on. *)
Inductive decoded : Type :=
  | Value (e : Event)
  | Eof
  | Failed.

Record decoder := mkDecoder { rest : list entry; stuck : bool }.

Definition Decode (d : decoder) : decoded * decoder :=
  if stuck d then (Failed, d)
  else match rest d with
       | [] => (Eof, d)
       | Good e :: r => (Value e, mkDecoder r false)
       | OtherShape :: r => (Failed, mkDecoder r false)
       | Malformed :: r => (Failed, mkDecoder r true)
       end.

(** The loop of [readFile]: it ends at [Eof] only. *)
Fixpoint read_loop (fuel : nat) (d : decoder) (acc : list Event) : option (list Event) :=
  match fuel with
  | O => None
  | S fuel =>
      match Decode d with
      | (Value e, d) => read_loop fuel d (acc ++ [e])
      | (Eof, _) => Some acc
      | (Failed, d) => read_loop fuel d acc
      end
  end.

Definition readFile (fuel : nat) (f : option (list entry)) : option (list Event) :=
  match f with
  | None => Some []
  | Some f => read_loop fuel (mkDecoder f false) []
  end.

(** The events of the files, the oldest file first. *)
Fixpoint read_files (fuel : nat) (fs : gmap nat (list entry)) (i : nat) : option (list Event) :=
  match readFile fuel (fs !! i) with
  | None => None
  | Some l =>
      match i with
      | O => Some l
      | S i' => match read_files fuel fs i' with Some l' => Some (l ++ l') | None => None end
      end
  end.

Definition FileStore_Query `{SortSlice} (fuel : nat) (s : FileStore) (query : Query) : option QueryResult :=
  match read_files fuel (files s) (Z.to_nat (rotation s)) with
  | Some all => answer all query
  | None => None
  end.

(** ** Wrappers *)

Section wrappers.
Context {S : Type} `{Store S}.

Definition MultiStore : Type := list S.

Fixpoint MultiStore_Store (h : heap) (stores : MultiStore) (event : ptr) : MultiStore * option audit_error :=
  match stores with
  | [] => ([], None)
  | st :: stores =>
      let '(st, err) := store_event h st event in
      let '(stores, lastErr) := MultiStore_Store h stores event in
      (st :: stores, match lastErr with Some _ => lastErr | None => err end)
  end.

Fixpoint MultiStore_Query (h : heap) (stores : MultiStore) (query : Query) : option (result audit_error QueryResult) :=
  match stores with
  | [] => Some (Err ErrQueryNotSupported)
  | st :: stores =>
      match query_events h st query with
      | None => None
      | Some (Ok r) => Some (Ok r)
      | Some (Err e) => if decide (e = ErrQueryNotSupported) then MultiStore_Query h stores query else Some (Err e)
      end
  end.

Definition FilterStore_Store (filter : option (Event -> bool)) (h : heap) (st : S) (event : ptr) : S * option audit_error :=
  match filter with
  | Some f => if f (h event) then store_event h st event else (st, None)
  | None => store_event h st event
  end.

(** [transform] gives a pointer, to the same event or to another. *)
Definition TransformStore_Store (transform : option (heap -> ptr -> heap * ptr)) (h : heap) (st : S) (event : ptr)
  : heap * S * option audit_error :=
  let '(h, event) := match transform with Some f => f h event | None => (h, event) end in
  let '(st, err) := store_event h st event in
  (h, st, err).

Record BatchStore := mkBatchStore {
  b_store : S; batch : list ptr; batchSize : Z; timer : bool; b_closed : bool
}.

Definition NewBatchStore (store : S) (batchSize : Z) : BatchStore :=
  mkBatchStore store [] (if batchSize <=? 0 then 100 else batchSize) false false.

Fixpoint store_all (h : heap) (st : S) (l : list ptr) : S * option audit_error :=
  match l with
  | [] => (st, None)
  | e :: l =>
      let '(st, err) := store_event h st e in
      let '(st, lastErr) := store_all h st l in
      (st, match lastErr with Some _ => lastErr | None => err end)
  end.

Definition flushLocked (h : heap) (b : BatchStore) : BatchStore * option audit_error :=
  match batch b with
  | [] => (b, None)
  | l =>
      let '(st, lastErr) := store_all h (b_store b) l in
      (mkBatchStore st [] (batchSize b) false (b_closed b), lastErr)
  end.

Definition Flush := flushLocked.

(** [timer] says that a flush is scheduled; the step of the timer is [Flush]. *)
Definition BatchStore_Store (h : heap) (b : BatchStore) (event : ptr) : BatchStore * option audit_error :=
  let l := batch b ++ [event] in
  let b := mkBatchStore (b_store b) l (batchSize b) (timer b || (length l =? 1)%nat) (b_closed b) in
  if batchSize b <=? Z.of_nat (length l) then flushLocked h b else (b, None).

(** [None]: the second close of [done] panics. *)
Definition BatchStore_Close (h : heap) (b : BatchStore) : option (BatchStore * option audit_error) :=
  let '(b, _) := Flush h b in
  if b_closed b then None
  else
    let '(st, err) := close_store h (b_store b) in
    Some (mkBatchStore st (batch b) (batchSize b) (timer b) true, err).
End wrappers.

(** [NullStore] and [WriterStore] keep nothing that can be queried. *)
Definition NullStore_Query (query : Query) : result audit_error QueryResult := Ok (mkQueryResult [] 0 false).
Definition WriterStore_Query (query : Query) : result audit_error QueryResult := Err ErrQueryNotSupported.

(** A channel of capacity [cap] that holds [ch]; when the context is done as
    well, [pick] is the case the [select] takes. *)
Definition ChannelStore_Store (cap : nat) (ch : list ptr) (done pick : bool) (event : ptr) : list ptr * option audit_error :=
  let room := (length ch <? cap)%nat in
  if room && (negb done || pick) then (ch ++ [event], None)
  else if done then (ch, Some ErrContextDone)
  else (ch, Some ErrChannelFull).

(** ** Wildcards *)

(** The texts a pattern with one star stands for. *)
Definition glob (pre post action : string) : Prop := exists mid, action = pre +:+ mid +:+ post.

Lemma app_eq_split a b c d :
  a +:+ b = c +:+ d -> (String.length c <= String.length a)%nat -> exists m, a = c +:+ m.
Proof.
  revert c. induction a as [|x a IH]; intros [|y c] H Hl; cbn in *; [by exists ""|lia|by eexists|].
  injection H as -> H. destruct (IH c H ltac:(lia)) as [m ->]. by exists m.
Qed.

Lemma glob_prefix_suffix pre post action :
  (String.length pre + String.length post <= String.length action)%nat ->
  glob pre post action <-> HasPrefix action pre = true /\ HasSuffix action post = true.
Proof.
  intros Hl. rewrite HasPrefix_spec, HasSuffix_spec. split.
  - intros [mid ->]. split; [by exists (mid +:+ post)|]. exists (pre +:+ mid). by rewrite string_app_assoc.
  - intros [[r1 ->] [r2 H]]. rewrite string_length_app in Hl.
    assert (Hr : (String.length pre <= String.length r2)%nat).
    { apply (f_equal String.length) in H. rewrite !string_length_app in H. lia. }
    destruct (app_eq_split r2 post pre r1 (eq_sym H) Hr) as [m ->]. exists m.
    by rewrite H, string_app_assoc.
Qed.

Lemma matchAction_star pre post action :
  string_has "*" pre = false -> string_has "*" post = false ->
  matchAction action (pre +:+ String "*" post) = true <->
  pre +:+ String "*" post = action \/ (HasPrefix action pre = true /\ HasSuffix action post = true).
Proof.
  intros Hpre Hpost. unfold matchAction. rewrite split_byte_app, split_byte_none by done.
  destruct (String.eqb_spec (pre +:+ String "*" post) action) as [->|Hn]; [by split; [left|]|].
  destruct (String.eqb_spec pre "") as [->|]; [|destruct (String.eqb_spec post "") as [->|]].
  - split; [intros; right; split; [done|done]|intros [?|[_ ?]]; done].
  - assert (Hs : HasSuffix action "" = true) by (apply HasSuffix_spec; exists action; by rewrite string_app_nil_r).
    split; [intros; by right|by intros [?|[? _]]].
  - rewrite andb_true_iff. split; [by right|by intros [?|?]].
Qed.

Lemma matchAction_stars action pattern :
  (2 < length (split_byte "*" pattern))%nat -> matchAction action pattern = String.eqb pattern action.
Proof.
  intros H. unfold matchAction. destruct (String.eqb pattern action); [done|].
  by destruct (split_byte "*" pattern) as [|? [|? [|? ?]]]; cbn in H; try lia.
Qed.

(** ** Lists *)

(** The last [n] elements. *)
Definition lastn {A : Type} (n : nat) (l : list A) : list A := drop (length l - n) l.

Lemma lastn_snoc {A : Type} n (l : list A) x :
  (0 < n)%nat -> lastn n (l ++ [x]) = (if (length (lastn n l) <? n)%nat then lastn n l else drop 1 (lastn n l)) ++ [x].
Proof.
  intros Hn. unfold lastn. rewrite length_app, length_drop. cbn [length].
  destruct (Nat.ltb_spec (length l - (length l - n)) n) as [H|H].
  - replace (length l + 1 - n)%nat with 0%nat by lia. by replace (length l - n)%nat with 0%nat by lia.
  - rewrite drop_drop, drop_app_le by lia. f_equal. f_equal. lia.
Qed.

Lemma slice_spec {A : Type} (l : list A) start end_ :
  0 <= start -> start <= end_ -> end_ <= Z.of_nat (length l) ->
  slice l start end_ = Some (take (Z.to_nat (end_ - start)) (drop (Z.to_nat start) l)).
Proof. intros H1 H2 H3. unfold slice. rewrite !(proj2 (Z.leb_le _ _)) by done. done. Qed.

(** A page, for bounds that fit. *)
Lemma paginate_spec l q :
  0 <= Offset q -> 0 <= Limit q -> Offset q + Limit q <= max_int64 -> Z.of_nat (length l) <= max_int64 ->
  exists r, paginate l q = Some r /\
    Events r = (if 0 <? Limit q then take (Z.to_nat (Limit q)) else id) (drop (Z.to_nat (Offset q)) l) /\
    Total r = Z.of_nat (length l) /\
    HasMore r = (0 <? Limit q) && (Offset q + Limit q <? Z.of_nat (length l)).
Proof.
  intros Ho Hl Hs Ht. unfold paginate. set (n := Z.of_nat (length l)) in *. cbv zeta.
  set (start := if n <? Offset q then n else Offset q).
  assert (Hst : 0 <= start <= n /\ drop (Z.to_nat start) l = drop (Z.to_nat (Offset q)) l /\ start <= Offset q).
  { unfold start. destruct (Z.ltb_spec n (Offset q)); [|split; [lia|done]].
    split; [lia|]. split; [|lia]. rewrite !drop_ge by lia. done. }
  destruct Hst as (Hst & Hdrop & Hle).
  destruct (Z.ltb_spec 0 (Limit q)) as [Hlim|Hlim].
  - unfold int_add. rewrite wrap64_id by (unfold in_int64, min_int64, max_int64 in *; lia).
    rewrite slice_spec by (destruct (Z.ltb_spec n (start + Limit q)); lia).
    eexists. split; [done|]. cbn [Events Total HasMore]. rewrite Hdrop. split; [|split; [done|]].
    + destruct (Z.ltb_spec n (start + Limit q)); [|f_equal; lia].
      rewrite !take_ge; [done| |]; rewrite <- ?Hdrop, length_drop; lia.
    + unfold start in *. clear Hdrop. clearbody n. cbn [andb].
      destruct (Z.ltb_spec n (Offset q)); [destruct (Z.ltb_spec n (n + Limit q)) | destruct (Z.ltb_spec n (Offset q + Limit q))];
        cbv iota; repeat match goal with |- context [(?a <? ?b)%Z] => destruct (Z.ltb_spec a b) end; done || lia.
  - rewrite slice_spec by lia. eexists. split; [done|]. cbn [Events Total HasMore]. rewrite Hdrop. split; [|split; [done|]].
    + rewrite take_ge; [done|]. rewrite <- Hdrop, length_drop. lia.
    + cbn. lia.
Qed.

(** ** Rotation *)

Definition good (x : entry) : option Event := match x with Good e => Some e | _ => None end.
Definition evs (f : list entry) : list Event := omap good f.
Definition contents (fs : gmap nat (list entry)) (i : nat) : list entry := default [] (fs !! i).

(** The events of the files [i], ..., 0. *)
Fixpoint generations (fs : gmap nat (list entry)) (i : nat) : list Event :=
  match i with
  | O => evs (contents fs 0)
  | S i' => evs (contents fs i) ++ generations fs i'
  end.

Lemma rename_spec i j fs k :
  i <> j -> rename i j fs !! k =
  match fs !! i with
  | Some f => if decide (k = j) then Some f else if decide (k = i) then None else fs !! k
  | None => fs !! k
  end.
Proof.
  intros Hij. unfold rename. destruct (fs !! i) as [f|] eqn:E; [|done].
  destruct (decide (k = j)) as [->|]; [by rewrite lookup_insert_eq|rewrite lookup_insert_ne by done].
  destruct (decide (k = i)) as [->|]; [by rewrite lookup_delete_eq|by rewrite lookup_delete_ne].
Qed.

(** No file of the row is missing below one that is there. *)
Definition contiguous (n : nat) (fs : gmap nat (list entry)) : Prop :=
  forall i, (1 <= i <= n)%nat -> fs !! i = None -> fs !! (S i) = None.

Lemma shift_files_spec n fs k :
  contiguous n fs ->
  shift_files n fs !! k =
  if decide (k = 0)%nat then fs !! 0%nat
  else if decide (k <= n)%nat then (if decide (k = 1)%nat then None else fs !! (k - 1)%nat)
  else if decide (k = S n) then (if decide (n = 0)%nat then fs !! 1%nat else fs !! n)
  else fs !! k.
Proof.
  revert fs k. induction n as [|n IH]; intros fs k Hc.
  { cbn [shift_files]. repeat case_decide; subst; try done; lia. }
  cbn [shift_files]. rewrite IH.
  - rewrite !rename_spec by lia.
    assert (Hn : fs !! (S n) = None -> fs !! (S (S n)) = None) by (apply Hc; lia).
    destruct (fs !! (S n)) as [f|] eqn:E.
    + repeat case_decide; subst; try done; try lia; rewrite ?E; done || (f_equal; lia) || idtac.
    + specialize (Hn eq_refl). repeat case_decide; subst; try done; try lia; try (f_equal; lia); congruence.
  - intros i Hi. rewrite !rename_spec by lia. destruct (fs !! (S n)) as [f|] eqn:E; [|apply Hc; lia].
    repeat case_decide; try lia; try done. apply Hc. lia.
Qed.

(** The files after a rotation: an empty current one, and every other moved up,
    the last one over the oldest. *)
Lemma checkRotation_spec size s :
  let R := Z.to_nat (rotation s) in
  0 < rotation s -> contiguous R (files s) -> (forall i, (R < i)%nat -> files s !! i = None) ->
  is_Some (files s !! 0%nat) -> maxSize s <= file_size size (contents (files s) 0) ->
  forall k, files (checkRotation size s) !! k =
    if decide (k = 0)%nat then Some [] else if decide (k <= R)%nat then files s !! (k - 1)%nat else None.
Proof.
  intros R Hr Hc Hout [f0 H0] Hsize k. unfold checkRotation.
  assert (Hsz : (file_size size (default [] (files s !! 0%nat)) <? maxSize s) = false) by (apply Z.ltb_ge; exact Hsize).
  rewrite Hsz. cbn [files].
  assert (Hc' : contiguous (Z.to_nat (rotation s - 1)) (files s)) by (intros i Hi; apply Hc; lia).
  pose proof (fun k => shift_files_spec (Z.to_nat (rotation s - 1)) (files s) k Hc') as Hs.
  assert (H1 : shift_files (Z.to_nat (rotation s - 1)) (files s) !! 0%nat = Some f0) by by rewrite Hs.
  destruct (decide (k = 0)%nat) as [->|Hk].
  { rewrite lookup_insert_eq. rewrite rename_spec, H1 by lia. done. }
  rewrite lookup_insert_ne, rename_spec, H1 by lia.
  destruct (decide (k = 1)%nat) as [->|Hk1].
  { rewrite (decide_True (P := (1 <= R)%nat)) by lia. change (1 - 1)%nat with 0%nat. by rewrite H0. }
  rewrite (decide_False (P := k = 0%nat)) by lia. rewrite Hs.
  unfold R in *. repeat case_decide; try lia; try (f_equal; lia).
  all: apply Hout; lia.
Qed.

Lemma evs_good f e : evs (f ++ [Good e]) = evs f ++ [e].
Proof. unfold evs. by rewrite omap_app. Qed.

Lemma generations_ext fs fs' i :
  (forall k, (k <= i)%nat -> contents fs k = contents fs' k) -> generations fs i = generations fs' i.
Proof.
  induction i as [|i IH]; intros H; cbn [generations]; rewrite H by lia; [done|].
  f_equal. apply IH. intros k Hk. apply H. lia.
Qed.

(** Rotation drops the oldest file and keeps the rest in order. *)
Lemma generations_shift fs fs' n :
  contents fs' 0 = [] -> (forall k, (1 <= k <= S n)%nat -> contents fs' k = contents fs (k - 1)) ->
  generations fs' (S n) = generations fs n.
Proof.
  intros H0 Hk. assert (H : forall i, (i <= n)%nat -> generations fs' (S i) = generations fs i).
  { induction i as [|i IH]; intros Hi.
    - cbn [generations]. rewrite H0, Hk by lia. cbn. by rewrite app_nil_r.
    - change (generations fs' (S (S i))) with (evs (contents fs' (S (S i))) ++ generations fs' (S i)).
      rewrite Hk, IH by lia. cbn [generations]. by replace (S (S i) - 1)%nat with (S i) by lia. }
  by apply H.
Qed.

(** What the files of a store hold. *)
Record well_kept (size : entry -> Z) (s : FileStore) (all : list Event) : Prop := {
  wk_contiguous : contiguous (Z.to_nat (rotation s)) (files s);
  wk_out : forall i, (Z.to_nat (rotation s) < i)%nat -> files s !! i = None;
  wk_current : is_Some (files s !! 0%nat);
  wk_clean : forall i f, files s !! i = Some f -> forall x, x ∈ f -> exists e, x = Good e;
  wk_full : forall i f, (1 <= i)%nat -> files s !! i = Some f -> maxSize s <= file_size size f;
  wk_events : exists dropped, all = dropped ++ generations (files s) (Z.to_nat (rotation s)) /\
    (dropped <> [] -> forall i, (1 <= i <= Z.to_nat (rotation s))%nat -> is_Some (files s !! i))
}.

Lemma checkRotation_kept size s all :
  0 < rotation s -> well_kept size s all -> well_kept size (checkRotation size s) all.
Proof.
  intros Hr Hw. destruct (Z.ltb_spec (file_size size (contents (files s) 0)) (maxSize s)) as [Hlt|Hge].
  { unfold checkRotation. unfold contents in Hlt. by rewrite (proj2 (Z.ltb_lt _ _) Hlt). }
  destruct Hw as [Hc Hout H0 Hclean Hfull (dropped & Hall & Hd)].
  pose proof (checkRotation_spec size s Hr Hc Hout H0 Hge) as Hs. cbv zeta in Hs.
  assert (Hrot : rotation (checkRotation size s) = rotation s).
  { unfold checkRotation. by destruct (_ <? _). }
  assert (Hmax : maxSize (checkRotation size s) = maxSize s).
  { unfold checkRotation. by destruct (_ <? _). }
  set (R := Z.to_nat (rotation s)) in *. assert (HR : (1 <= R)%nat) by lia.
  constructor; rewrite ?Hrot, ?Hmax; fold R.
  - intros i Hi. rewrite !Hs. repeat case_decide; try lia; try done.
    intros Hn. replace (S i - 1)%nat with i by lia. destruct (decide (i = 1)%nat) as [->|].
    + destruct H0 as [? H0]. cbn in Hn. congruence.
    + replace i with (S (i - 1)) by lia. apply Hc; [lia|done].
  - intros i Hi. rewrite Hs. repeat case_decide; try lia; done.
  - rewrite Hs. by eexists.
  - intros i f. rewrite Hs. repeat case_decide; [by intros [= <-] x ?%elem_of_nil|apply Hclean|done].
  - intros i f Hi. rewrite Hs. repeat case_decide; try lia; [|done]. intros Hf.
    destruct (decide (i = 1)%nat) as [->|]; [|by apply (Hfull (i - 1)%nat); [lia|]].
    cbn in Hf. unfold contents in Hge. by rewrite Hf in Hge.
  - exists (dropped ++ evs (contents (files s) R)). split.
    + destruct R as [|n] eqn:ER; [lia|]. rewrite Hall at 1. rewrite <- app_assoc. f_equal. cbn [generations]. f_equal.
      symmetry. apply generations_shift; unfold contents; [by rewrite Hs|].
      intros k Hk. rewrite Hs. repeat case_decide; try lia; done.
    + intros Hne i Hi. rewrite Hs. repeat case_decide; try lia.
      destruct (decide (i = 1)%nat) as [->|]; [done|].
      destruct (files s !! R) as [f|] eqn:Ef.
      * destruct (files s !! (i - 1)%nat) eqn:Ei; [by eexists|]. exfalso.
        assert (Hall' : forall d, (i - 1 + d <= R)%nat -> files s !! (i - 1 + d)%nat = None).
        { induction d as [|d IH]; intros Hd'; [by rewrite Nat.add_0_r|].
          replace (i - 1 + S d)%nat with (S (i - 1 + d)) by lia. apply Hc; [lia|]. apply IH. lia. }
        specialize (Hall' (R - (i - 1))%nat). replace (i - 1 + (R - (i - 1)))%nat with R in Hall' by lia.
        rewrite Hall' in Ef by lia. done.
      * apply Hd; [|lia]. intros ->. unfold contents in Hne. rewrite Ef in Hne. by destruct Hne.
Qed.

Lemma Store_kept size s all e :
  0 < rotation s -> well_kept size s all -> well_kept size (FileStore_Store size s e) (all ++ [e]).
Proof.
  intros Hr Hw. unfold FileStore_Store.
  pose proof (checkRotation_kept size s all Hr Hw) as [Hc Hout [f0 H0] Hclean Hfull (dropped & Hall & Hd)].
  assert (Hrot : rotation (checkRotation size s) = rotation s) by (unfold checkRotation; by destruct (_ <? _)).
  set (t := checkRotation size s) in *. rewrite Hrot in *. rewrite H0. cbn [default].
  constructor; cbn [files rotation maxSize]; rewrite ?Hrot.
  - intros i Hi. rewrite !lookup_insert_ne by lia. by apply Hc.
  - intros i Hi. rewrite lookup_insert_ne by lia. by apply Hout.
  - rewrite lookup_insert_eq. by eexists.
  - intros i f. destruct (decide (i = 0)%nat) as [->|]; [rewrite lookup_insert_eq|rewrite lookup_insert_ne by done; apply Hclean].
    intros [= <-] x [Hx | ->%list_elem_of_singleton]%elem_of_app; [by eapply Hclean|by eexists].
  - intros i f Hi. rewrite lookup_insert_ne by lia. by apply Hfull.
  - exists dropped. split.
    + rewrite Hall, <- app_assoc. f_equal. generalize (Z.to_nat (rotation s)). intros n.
      induction n as [|n IH]; cbn [generations].
      * unfold contents. rewrite H0, lookup_insert_eq. symmetry. apply (evs_good f0 e).
      * rewrite <- app_assoc, IH. unfold contents. by rewrite lookup_insert_ne by lia.
    + intros Hne i Hi. rewrite lookup_insert_ne by lia. by apply Hd.
Qed.

(** ** Reading *)

Lemma read_loop_ok fuel f acc :
  (length f < fuel)%nat -> Malformed ∉ f -> read_loop fuel (mkDecoder f false) acc = Some (acc ++ evs f).
Proof.
  revert f acc. induction fuel as [|fuel IH]; intros f acc Hf Hm; [lia|].
  destruct f as [|x f]; [cbn; by rewrite app_nil_r|]. cbn in Hf. apply not_elem_of_cons in Hm as [Hx Hm].
  destruct x as [e| |]; [| |done]; cbn; rewrite IH by (done || lia); [|done]. by rewrite <- app_assoc.
Qed.

Lemma read_loop_stuck fuel f acc : read_loop fuel (mkDecoder f true) acc = None.
Proof. induction fuel; [done|]. cbn. done. Qed.

Lemma read_loop_malformed fuel f acc : Malformed ∈ f -> read_loop fuel (mkDecoder f false) acc = None.
Proof.
  revert f acc. induction fuel as [|fuel IH]; intros f acc Hm; [done|].
  destruct f as [|x f]; [by apply elem_of_nil in Hm|]. apply elem_of_cons in Hm as [<-|Hm].
  - cbn. apply read_loop_stuck.
  - destruct x as [e| |]; cbn; [by apply IH|by apply IH|apply read_loop_stuck].
Qed.

Lemma read_files_ok fuel fs i :
  (forall k f, (k <= i)%nat -> fs !! k = Some f -> (length f < fuel)%nat /\ Malformed ∉ f) ->
  (0 < fuel)%nat -> read_files fuel fs i = Some (generations fs i).
Proof.
  intros H Hf. assert (Hk : forall k, (k <= i)%nat -> readFile fuel (fs !! k) = Some (evs (contents fs k))).
  { intros k Hk. unfold readFile, contents. destruct (fs !! k) as [f|] eqn:E; [|done].
    destruct (H k f Hk E). cbn [default]. by rewrite read_loop_ok. }
  induction i as [|i IH].
  - cbn [read_files generations]. by rewrite Hk.
  - cbn [read_files generations]. rewrite Hk by lia. rewrite IH; [done|intros k f Hk'; apply H; lia|intros k Hk'; apply Hk; lia].
Qed.

(** ** Batches *)

Section batches.
Context {S : Type} `{Store S}.

Lemma store_all_app h (st : S) l k :
  fst (store_all h st (l ++ k)) = fst (store_all h (fst (store_all h st l)) k).
Proof.
  revert st. induction l as [|e l IH]; intros st; cbn; [done|].
  destruct (store_event h st e) as [st' err]. specialize (IH st').
  destruct (store_all h st' (l ++ k)), (store_all h st' l). cbn in *. by rewrite IH.
Qed.

Lemma store_all_one h (st : S) p : fst (store_all h st [p]) = fst (store_event h st p).
Proof. cbn [store_all]. by destruct (store_event h st p). Qed.

Lemma flush_spec h (b : BatchStore (S := S)) :
  b_store (fst (flushLocked h b)) = fst (store_all h (b_store b) (batch b)) /\ batch (fst (flushLocked h b)) = [].
Proof.
  unfold flushLocked. destruct (batch b) as [|e l] eqn:E; [by split; [|exact E]|].
  by destruct (store_all h (b_store b) (e :: l)).
Qed.

(** What the inner store will hold once the batch is flushed. *)
Definition flushed (h : heap) (b : BatchStore) : S := fst (store_all h (b_store b) (batch b)).

Lemma batch_step h b p :
  flushed h (fst (BatchStore_Store h b p)) = fst (store_event h (flushed h b) p) /\
  (1 <= batchSize b -> Z.of_nat (length (batch (fst (BatchStore_Store h b p)))) < batchSize b) /\
  batchSize (fst (BatchStore_Store h b p)) = batchSize b.
Proof.
  unfold BatchStore_Store, flushed. cbv zeta.
  set (b' := mkBatchStore _ _ _ _ _).
  assert (Hb : fst (store_all h (b_store b') (batch b')) = fst (store_event h (fst (store_all h (b_store b) (batch b))) p)).
  { unfold b'. cbn [b_store batch]. rewrite store_all_app. cbn. by destruct (store_event _ _ _). }
  destruct (Z.leb_spec (batchSize b') (Z.of_nat (length (batch b ++ [p])))) as [Hle|Hgt].
  - destruct (flush_spec h b') as [E1 E2]. rewrite E1, E2. split; [exact Hb|]. split; [cbn; lia|].
    unfold flushLocked. destruct (batch b'); [done|]. by destruct (store_all _ _ _).
  - cbn [fst]. split; [exact Hb|]. split; [intros _; exact Hgt|done].
Qed.
End batches.

Lemma MemoryStore_steps s l :
  0 < maxLen s -> Z.of_nat (length (events s)) <= maxLen s ->
  foldl MemoryStore_Store s l = mkMemoryStore (lastn (Z.to_nat (maxLen s)) (events s ++ l)) (maxLen s).
Proof.
  intros Hm Hl. induction l as [|p l IH] using rev_ind.
  - cbn. rewrite app_nil_r. unfold lastn. replace (length (events s) - Z.to_nat (maxLen s))%nat with 0%nat by lia. by destruct s.
  - rewrite foldl_snoc, IH, app_assoc, lastn_snoc by lia. unfold MemoryStore_Store. cbn [events maxLen].
    set (k := lastn _ _). f_equal. f_equal.
    destruct (Z.leb_spec (maxLen s) (Z.of_nat (length k))), (Nat.ltb_spec (length k) (Z.to_nat (maxLen s))); done || lia.
Qed.

(** ** Insertion sort, an instance of the law *)

Fixpoint insert_by {A : Type} (less : A -> A -> bool) (x : A) (l : list A) : list A :=
  match l with
  | [] => [x]
  | y :: l => if less y x then y :: insert_by less x l else x :: y :: l
  end.

Definition insertion_sort {A : Type} (less : A -> A -> bool) (l : list A) : list A := foldr (insert_by less) [] l.

Lemma insert_by_perm {A : Type} (less : A -> A -> bool) x l : insert_by less x l ≡ₚ x :: l.
Proof. induction l as [|y l IH]; cbn; [done|]. destruct (less y x); [|done]. by rewrite IH, perm_swap. Qed.

Lemma insertion_sort_perm A (less : A -> A -> bool) l : insertion_sort less l ≡ₚ l.
Proof. induction l as [|x l IH]; cbn; [done|]. by rewrite insert_by_perm, IH. Qed.

Lemma insert_by_sorted {A : Type} (less : A -> A -> bool) x l :
  weak_order less -> StronglySorted (fun a b => less b a = false) l ->
  StronglySorted (fun a b => less b a = false) (insert_by less x l).
Proof.
  intros Hw. induction 1 as [|y l Hs IH Hy]; cbn; [by repeat constructor|].
  destruct (less y x) eqn:E.
  - constructor; [done|]. rewrite insert_by_perm. constructor; [by apply (less_asym _ Hw)|done].
  - constructor; [by constructor|]. constructor; [done|].
    eapply list.Forall_impl; [exact Hy|]. intros z Hz. by eapply (less_trans _ Hw); [exact E|].
Qed.

Lemma insertion_sort_sorted A (less : A -> A -> bool) l :
  weak_order less -> StronglySorted (fun a b => less b a = false) (insertion_sort less l).
Proof.
  intros Hw. unfold insertion_sort. induction l as [|x l IH]; cbn; [constructor|]. by apply insert_by_sorted.
Qed.

#[local] Instance insertion : SortSlice := {
  sort_slice A := @insertion_sort A;
  sort_perm := insertion_sort_perm;
  sort_sorted := insertion_sort_sorted
}.

Lemma timestamp_order desc : weak_order (event_less "timestamp" desc).
Proof.
  constructor; unfold event_less, compare_key; cbn.
  - intros a b. destruct (Z.compare_spec (Timestamp a) (Timestamp b)) as [E|E|E];
      destruct (Z.compare_spec (Timestamp b) (Timestamp a)); try lia; by destruct desc.
  - intros a b c. destruct (Z.compare_spec (Timestamp b) (Timestamp a)), (Z.compare_spec (Timestamp c) (Timestamp b)),
      (Z.compare_spec (Timestamp c) (Timestamp a)); try lia; by destruct desc.
Qed.

Lemma mapM_snoc {A B : Type} (f : A -> option B) l k x y :
  mapM f l = Some k -> f x = Some y -> mapM f (l ++ [x]) = Some (k ++ [y]).
Proof. rewrite !mapM_Some. intros Hl Hx. apply Forall2_app; [done|by repeat constructor]. Qed.

Lemma pages_concat {A : Type} (l : list A) k n :
  List.concat (map (fun i => take k (drop (i * k) l)) (seq 0 n)) = take (n * k) l.
Proof.
  induction n as [|n IH]; [done|]. rewrite seq_S, map_app, concat_app, IH. cbn. rewrite app_nil_r.
  rewrite (Nat.add_comm k), <- (take_drop (n * k) (take (n * k + k) l)). f_equal.
  - rewrite take_take. f_equal. lia.
  - by rewrite <- take_drop_commute.
Qed.

(** ** Theorems *)

(** The store in memory holds the most recent [maxLen] events, in the order
    they came. *)
Theorem MemoryStore_last maxEvents l :
  0 < maxEvents ->
  MemoryStore_Events (foldl MemoryStore_Store (NewMemoryStore maxEvents) l) = lastn (Z.to_nat maxEvents) l.
Proof.
  intros Hm. unfold NewMemoryStore. rewrite (proj2 (Z.leb_gt _ _)) by done.
  rewrite MemoryStore_steps; cbn [maxLen events length]; [done|done|lia].
Qed.

Lemma MemoryStore_last_witness :
  MemoryStore_Events (foldl MemoryStore_Store (NewMemoryStore 2) [1; 2; 3]%nat) = [2; 3]%nat.
Proof. exact (MemoryStore_last 2 [1; 2; 3]%nat ltac:(lia)). Defined.

(** A query finds exactly the stored events that match it, in time order
    unless another order is asked for, and pages through them without gap or
    repetition: the pages of any size, put together, are the whole answer, each
    page knows the total, and says whether there is more. *)
Theorem Query_pages `{SortSlice} h s q k n :
  0 < k -> Z.of_nat n * k <= max_int64 -> Z.of_nat (length (events s)) <= Z.of_nat n * k ->
  let page i := mkQuery (ActorID q) (ActorType q) (ResourceID q) (ResourceType q) (q_Action q) (Actions q) (q_Outcome q)
                  (q_Tags q) (From q) (To q) k (Z.of_nat i * k) (OrderBy q) (OrderDesc q) in
  exists all pages, all ≡ₚ List.filter (fun e => matchesQuery e q) (map h (events s)) /\
    (OrderBy q = "" -> StronglySorted (fun a b => event_less "timestamp" (OrderDesc q) b a = false) all) /\
    mapM (fun i => MemoryStore_Query h s (page i)) (seq 0 n) = Some pages /\
    List.concat (map Events pages) = all /\
    Forall (fun r => Total r = Z.of_nat (length all)) pages.
Proof.
  intros Hk Hn Hlen page.
  set (all := sortEvents (List.filter (fun e => matchesQuery e q) (map h (events s))) (OrderBy q) (OrderDesc q)).
  assert (Hperm : all ≡ₚ List.filter (fun e => matchesQuery e q) (map h (events s))) by apply sort_perm.
  assert (Hall : Z.of_nat (length all) <= Z.of_nat n * k).
  { rewrite Hperm. pose proof (List.filter_length_le (fun e => matchesQuery e q) (map h (events s))) as Hf.
    rewrite length_map in Hf. lia. }
  assert (Hpage : forall i, (i < n)%nat -> exists r, MemoryStore_Query h s (page i) = Some r /\
            Events r = take (Z.to_nat k) (drop (i * Z.to_nat k) all) /\ Total r = Z.of_nat (length all)).
  { intros i Hi. destruct (paginate_spec all (page i)) as (r & E & He & Ht & _); cbn [Offset Limit page]; [nia|lia|nia|lia|].
    exists r. split; [exact E|]. split; [|done]. rewrite He. cbn [Limit Offset page]. rewrite (proj2 (Z.ltb_lt 0 k)) by done.
    f_equal. f_equal. nia. }
  assert (Hpages : forall m, (m <= n)%nat -> exists pages, mapM (fun i => MemoryStore_Query h s (page i)) (seq 0 m) = Some pages /\
            map Events pages = map (fun i => take (Z.to_nat k) (drop (i * Z.to_nat k) all)) (seq 0 m) /\
            Forall (fun r => Total r = Z.of_nat (length all)) pages).
  { induction m as [|m IH]; intros Hm; [by exists []|].
    destruct (IH ltac:(lia)) as (ps & E & Hm1 & Hf). destruct (Hpage m ltac:(lia)) as (r & Er & He & Ht).
    exists (ps ++ [r]). rewrite seq_S. split; [by apply mapM_snoc|]. split; [by rewrite !map_app, Hm1; cbn; rewrite He|]. apply Forall_app. by split; [|constructor]. }
  destruct (Hpages n ltac:(lia)) as (pages & E & Hm & Hf). exists all, pages.
  split; [done|]. split; [|split; [done|split; [|done]]].
  - intros Ho. unfold all, sortEvents. rewrite Ho. cbn [String.eqb]. apply sort_sorted, timestamp_order.
  - rewrite Hm, pages_concat. apply take_ge. nia.
Qed.

Definition an_event (n : nat) : Event :=
  mkEvent (Itoa (Z.of_nat n)) (Z.of_nat (10 - n)) (if Nat.even n then "user.login" else "user.logout") None None None
    OutcomeSuccess "" [] ∅ [].

Definition login_query (limit offset : Z) : Query :=
  mkQuery "" "" "" "" "user.log*n" [] "" [] zero_time zero_time limit offset "" false.

Lemma Query_pages_witness :
  exists all pages, all ≡ₚ [an_event 0; an_event 2; an_event 4] /\
    mapM (fun i => MemoryStore_Query an_event (mkMemoryStore [0; 1; 2; 3; 4]%nat 5) (login_query 2 (Z.of_nat i * 2))) (seq 0 3)
      = Some pages /\ List.concat (map Events pages) = all.
Proof.
  destruct (Query_pages an_event (mkMemoryStore [0; 1; 2; 3; 4]%nat 5) (login_query 2 0) 2 3) as (all & pages & H1 & _ & H2 & H3 & _);
    [lia|unfold max_int64; lia|cbn; lia|].
  exists all, pages. split; [exact H1|]. split; [exact H2|exact H3].
Defined.

(** A page that starts below zero, and one whose end is beyond the largest
    [int], panic, on any store that has an event to show; the HTTP handler takes
    both from the client. *)
Theorem bad_page_panics `{SortSlice} h s q :
  Offset q < 0 \/
  (1 <= Offset q <= Z.of_nat (length (List.filter (fun e => matchesQuery e q) (map h (events s)))) /\
   Limit q <= max_int64 /\ max_int64 < Offset q + Limit q) ->
  Z.of_nat (length (events s)) <= max_int64 ->
  MemoryStore_Query h s q = None.
Proof.
  intros Hq Hlen. unfold MemoryStore_Query, answer, paginate. cbv zeta.
  set (l := sortEvents _ _ _). set (m := List.filter _ _) in *.
  assert (Hl : length l = length m) by (unfold l, sortEvents; by rewrite sort_perm).
  rewrite Hl. unfold slice. destruct Hq as [Ho|(Ho & Hlim & Hover)].
  - rewrite (proj2 (Z.ltb_ge _ (Offset q))) by lia. by rewrite (proj2 (Z.leb_gt 0 (Offset q))).
  - rewrite (proj2 (Z.ltb_ge _ (Offset q))) by lia.
    pose proof (List.filter_length_le (fun e => matchesQuery e q) (map h (events s))) as Hf.
    rewrite length_map in Hf. fold m in Hf.
    assert (Hm : 0 < Limit q) by lia. rewrite (proj2 (Z.ltb_lt 0 (Limit q))) by done.
    assert (E : int_add (Offset q) (Limit q) = Offset q + Limit q - 18446744073709551616).
    { unfold int_add, wrap64, max_int64 in *.
      replace (Offset q + Limit q + 9223372036854775808)
        with (Offset q + Limit q - 9223372036854775808 + 1 * 18446744073709551616) by lia.
      rewrite Z.mod_add, Z.mod_small by lia. lia. }
    rewrite E. rewrite (proj2 (Z.ltb_ge (Z.of_nat (length m)) _)) by (unfold max_int64 in *; lia).
    rewrite (proj2 (Z.leb_gt (Offset q) _)) by (unfold max_int64 in *; lia).
    by rewrite andb_false_r.
Qed.

Lemma bad_page_panics_witness :
  MemoryStore_Query an_event (mkMemoryStore [0; 1; 2]%nat 5) (login_query 10 (-1)) = None /\
  MemoryStore_Query an_event (mkMemoryStore [0; 1; 2]%nat 5) (login_query max_int64 1) = None.
Proof.
  split.
  - apply (bad_page_panics an_event (mkMemoryStore [0; 1; 2]%nat 5) (login_query 10 (-1))); [left; done|cbn; unfold max_int64; lia].
  - apply (bad_page_panics an_event (mkMemoryStore [0; 1; 2]%nat 5) (login_query max_int64 1));
      [right; vm_compute; repeat split; discriminate|cbn; unfold max_int64; lia].
Defined.

(** A file store that starts empty loses no event but by rotation, and
    rotation drops whole files from the old end: what can be read back is, in
    order, all the events but the first ones, and as long as fewer than
    [rotation] files are full, all of them.  Once events are dropped, the files
    kept hold at least [rotation] times [maxSize] bytes. *)
Theorem FileStore_keeps (size : entry -> Z) max rot es :
  0 < rot ->
  let s := foldl (FileStore_Store size) (NewFileStore ∅ max rot) es in
  exists dropped kept,
    es = dropped ++ kept /\
    read_files (S (S (length es))) (files s) (Z.to_nat rot) = Some kept /\
    (dropped <> [] -> forall i, (1 <= i <= Z.to_nat rot)%nat ->
       exists f, files s !! i = Some f /\ maxSize s <= file_size size f).
Proof.
  intros Hr s.
  assert (Hinv : well_kept size s es /\ rotation s = rot).
  { unfold s. induction es as [|e es IH] using rev_ind.
    - cbn. unfold NewFileStore. rewrite (proj2 (Z.leb_gt rot 0)) by done. split; [|done].
      constructor; cbn [files rotation maxSize].
      + intros i Hi _. by rewrite lookup_insert_ne by lia.
      + intros i Hi. by rewrite lookup_insert_ne by lia.
      + by eexists.
      + intros i f. rewrite lookup_insert_Some, lookup_empty. intros [[<- <-]|[_ ?]]; [|done].
        by intros x ?%elem_of_nil.
      + intros i f Hi. by rewrite lookup_insert_ne by lia.
      + exists []. split; [|done]. cbn [app]. generalize (Z.to_nat rot). intros n. induction n as [|n IH]; [done|].
        cbn [generations]. rewrite <- IH. unfold contents. by rewrite lookup_insert_ne by lia.
    - rewrite foldl_snoc. destruct IH as [Hw Hrot]. split.
      + apply Store_kept; [by rewrite Hrot|done].
      + unfold FileStore_Store. cbn [rotation]. unfold checkRotation. by destruct (_ <? _). }
  destruct Hinv as [[Hc Hout H0 Hclean Hfull (dropped & Hall & Hd)] Hrot]. rewrite Hrot in *.
  exists dropped, (generations (files s) (Z.to_nat rot)). split; [done|]. split.
  - apply read_files_ok; [|lia]. intros k f Hk Hf. split.
    + assert (Hlen : forall i, (k <= i)%nat -> (length (evs f) <= length (generations (files s) i))%nat).
      { induction i as [|i IH]; intros Hi; cbn [generations].
        - replace k with 0%nat in Hf by lia. unfold contents. rewrite Hf. done.
        - rewrite length_app. destruct (decide (k = S i)) as [->|]; [unfold contents; rewrite Hf; change (default [] (Some f)) with f; lia|].
          specialize (IH ltac:(lia)). lia. }
      specialize (Hlen _ Hk).
      assert (Hg : length (evs f) = length f).
      { specialize (Hclean k f Hf). clear -Hclean. induction f as [|x f IH]; [done|].
        destruct (Hclean x) as [e ->]; [by left|]. cbn. f_equal. apply IH. intros y Hy. apply Hclean. by right. }
      rewrite Hg in Hlen. apply (f_equal length) in Hall. rewrite length_app in Hall. lia.
    + intros Hm. by destruct (Hclean k f Hf _ Hm) as [e ?].
  - intros Hne i Hi. destruct (Hd Hne i Hi) as [f Hf]. exists f. split; [done|]. by apply (Hfull i); [lia|].
Qed.

Lemma FileStore_keeps_witness :
  let s := foldl (FileStore_Store (fun _ => 1)) (NewFileStore ∅ 2 2) (map an_event (seq 0 9)) in
  0 < 2 /\ read_files 20 (files s) 2 = Some (map an_event [4; 5; 6; 7; 8]%nat) /\
  exists dropped kept, map an_event (seq 0 9) = dropped ++ kept.
Proof.
  intros s. split; [lia|]. split; [by vm_compute|].
  destruct (FileStore_keeps (fun _ => 1) 2 2 (map an_event (seq 0 9)) ltac:(lia)) as (d & k & E & _).
  exact (ex_intro _ d (ex_intro _ k E)).
Defined.

(** One line that is not JSON, such as a line cut short by a crash, in any of
    the files, and no query of the store ever returns: the decoder repeats the
    error, and the loop that means to skip the line calls it again. *)
Theorem malformed_line_hangs `{SortSlice} s i f q :
  (i <= Z.to_nat (rotation s))%nat -> files s !! i = Some f -> Malformed ∈ f ->
  forall fuel, FileStore_Query fuel s q = None.
Proof.
  intros Hi Hf Hm fuel. unfold FileStore_Query.
  assert (Hread : forall n, (i <= n)%nat -> read_files fuel (files s) n = None).
  { induction n as [|n IH]; intros Hn.
    - replace i with 0%nat in Hf by lia. cbn [read_files]. rewrite Hf. cbn [readFile]. by rewrite read_loop_malformed.
    - cbn [read_files]. destruct (decide (i = S n)) as [->|].
      + rewrite Hf. cbn [readFile]. by rewrite read_loop_malformed.
      + rewrite IH by lia. by destruct (readFile fuel (files s !! S n)). }
  by rewrite Hread.
Qed.

Definition crashed_store : FileStore := mkFileStore {[0%nat := [Good (an_event 0); Malformed]]} 100 5.

Lemma malformed_line_hangs_witness :
  files crashed_store !! 0%nat = Some [Good (an_event 0); Malformed] /\
  forall fuel, FileStore_Query fuel crashed_store (login_query 10 0) = None.
Proof.
  split; [reflexivity|]. intros fuel.
  apply (malformed_line_hangs crashed_store 0 [Good (an_event 0); Malformed] (login_query 10 0));
    [cbn; lia|reflexivity|apply list_elem_of_further, list_elem_of_here].
Defined.

(** A batch store is the store behind it, late: after any events, flushing
    the batch leaves the inner store exactly as storing the events one by one
    would have, and fewer than [batchSize] events ever wait; but an event the
    inner store refuses is gone. *)
Theorem BatchStore_refines {S : Type} `{Store S} h (st : S) size l :
  let b := foldl (fun b p => fst (BatchStore_Store h b p)) (NewBatchStore st size) l in
  b_store (fst (Flush h b)) = fst (store_all h st l) /\
  batch (fst (Flush h b)) = [] /\
  Z.of_nat (length (batch b)) < (if size <=? 0 then 100 else size).
Proof.
  intros b. unfold Flush. destruct (flush_spec h b) as [E1 E2]. rewrite E1, E2. fold (flushed h b).
  assert (Hinv : flushed h b = fst (store_all h st l) /\ batchSize b = (if size <=? 0 then 100 else size) /\
            Z.of_nat (length (batch b)) < batchSize b).
  { assert (Hs : 1 <= (if size <=? 0 then 100 else size)) by (destruct (Z.leb_spec size 0); lia).
    unfold b. clear. induction l as [|p l IH] using rev_ind; [cbn; repeat split; destruct (Z.leb_spec size 0); lia|].
    rewrite foldl_snoc. destruct IH as (H1 & H2 & H3).
    destruct (batch_step h (foldl (fun b p => fst (BatchStore_Store h b p)) (NewBatchStore st size) l) p) as (Hf & Hl & Hb).
    rewrite Hf, Hb, H1, store_all_app, store_all_one. split; [done|]. split; [done|].
    apply Hl. rewrite H2. destruct (Z.leb_spec size 0); lia. }
  destruct Hinv as (H1 & H2 & H3). split; [done|]. split; [done|]. by rewrite <- H2.
Qed.

(** Patterns. With one star a pattern matches a text that starts and ends as
    the pattern does, which is what the star stands for when the text is long
    enough for both ends; on a shorter text the ends may overlap, so that
    [user*user] matches [user].  With two stars or more a pattern matches nothing
    but itself. *)
Theorem matchAction_spec action pre post :
  string_has "*" pre = false -> string_has "*" post = false ->
  ((String.length pre + String.length post <= String.length action)%nat ->
     matchAction action (pre +:+ String "*" post) = true <-> glob pre post action) /\
  (pre <> "" -> matchAction pre (pre +:+ String "*" pre) = true /\ ~ glob pre pre pre) /\
  (forall pattern, (2 < length (split_byte "*" pattern))%nat -> matchAction action pattern = true -> pattern = action).
Proof.
  intros Hpre Hpost. split; [|split].
  - intros Hl. rewrite matchAction_star, glob_prefix_suffix by done. split; [|by right].
    intros [<-|?]; [|done]. split; [apply HasPrefix_spec; by eexists|].
    apply HasSuffix_spec. exists (pre +:+ "*"). by rewrite <- string_app_assoc.
  - intros Hn. split.
    + apply matchAction_star; [done|done|]. right. split; [apply HasPrefix_spec; exists ""; by rewrite string_app_nil_r|].
      apply HasSuffix_spec. by exists "".
    + intros [mid E]. apply (f_equal String.length) in E. rewrite !string_length_app in E. destruct pre; [done|].
      cbn [String.length] in E. lia.
  - intros pattern Hp. rewrite matchAction_stars by done. by intros ?%String.eqb_eq.
Qed.

Lemma matchAction_spec_witness :
  matchAction "user" "user*user" = true /\ ~ glob "user" "user" "user" /\ matchAction "user.login" "user.*" = true.
Proof.
  destruct (matchAction_spec "user" "user" "user" eq_refl eq_refl) as (_ & H & _).
  destruct (H ltac:(discriminate)) as [H1 H2]. split; [exact H1|]. split; [exact H2|reflexivity].
Defined.
