(* ===== verification/AuditLogger.v ===== *)
(** * The audit logger

    [src/pantry/audit/audit.go]: building events, the logger with its hooks, its
    asynchronous queue with workers, and the identifiers it generates.

    One event's way through the logger is a function ([processEvent]); the queue
    and the goroutines are a step relation, in which each hook, each call of the
    store and each operation on a channel is a step of its own.  The events that
    are through, and with what error, are the trace [completed]. *)

From stdpp Require Import strings.
From S2P Require Import Prelude GoStrings AuditStore.

#[local] Open Scope list_scope.

(** ** The logger *)

Record Config := mkConfig { Service : string; Environment : string; Version : string; BufferSize : Z; Workers : Z }.

Definition NewLogger_config (cfg : Config) : Config :=
  mkConfig (Service cfg) (Environment cfg) (Version cfg)
    (if BufferSize cfg <=? 0 then 1000 else BufferSize cfg) (if Workers cfg <=? 0 then 2 else Workers cfg).

(** A hook may change the event it is shown. *)
Definition BeforeLogHook : Type := heap -> ptr -> heap * option audit_error.

Definition set_event (h : heap) (p : ptr) (e : Event) : heap := fun q => if (q =? p)%nat then e else h q.

Definition empty_context : EventContext := mkEventContext "" "" "" "" "" "".

Definition or_config (s d : string) : string := if String.eqb s "" then d else s.

(** [id] is what the generator gives, [now] the time, when they are needed. *)
Definition prepared (cfg : Config) (id : string) (now : Time) (e : Event) : Event :=
  let ctx := default empty_context (e_Context e) in
  let ctx := mkEventContext (x_RequestID ctx) (x_TraceID ctx) (x_SpanID ctx)
               (or_config (x_Service ctx) (Service cfg)) (or_config (x_Environment ctx) (Environment cfg))
               (or_config (x_Version ctx) (Version cfg)) in
  mkEvent (or_config (ID e) id) (if is_zero_time (Timestamp e) then now else Timestamp e) (Action e)
    (e_Actor e) (e_Resource e) (Some ctx) (or_config (e_Outcome e) OutcomeUnknown) (Reason e) (Changes e)
    (Metadata e) (Tags e).

Definition prepareEvent (cfg : Config) (id : string) (now : Time) (h : heap) (p : ptr) : heap :=
  set_event h p (prepared cfg id now (h p)).

Section logger.
Context {S : Type} `{Store S}.

(** The hooks in order, up to the first error. *)
Fixpoint run_hooks (hooks : list BeforeLogHook) (h : heap) (p : ptr) : heap * option audit_error :=
  match hooks with
  | [] => (h, None)
  | hook :: hooks =>
      match hook h p with
      | (h, Some e) => (h, Some e)
      | (h, None) => run_hooks hooks h p
      end
  end.

(** The error is what the hooks that run after are told; nothing else learns of
    it.  A logger without a store stores nothing. *)
Definition processEvent (beforeLog : list BeforeLogHook) (h : heap) (store : option S) (p : ptr)
  : heap * option S * option audit_error :=
  match run_hooks beforeLog h p with
  | (h, Some e) => (h, store, Some e)
  | (h, None) =>
      match store with
      | Some st => let '(st, err) := store_event h st p in (h, Some st, err)
      | None => (h, None, None)
      end
  end.

(** One step of [processEvent]: the next hook or, after the last, the store.  What
    is left to do, or the error it ends with. *)
Definition process_step (h : heap) (store : option S) (p : ptr) (hooks : list BeforeLogHook)
  : heap * option S * (list BeforeLogHook + option audit_error) :=
  match hooks with
  | hook :: hooks =>
      match hook h p with
      | (h, Some e) => (h, store, inr (Some e))
      | (h, None) => (h, store, inl hooks)
      end
  | [] =>
      match store with
      | Some st => let '(st, err) := store_event h st p in (h, Some st, inr err)
      | None => (h, None, inr None)
      end
  end.

(** Its steps one after the other. *)
Fixpoint process_steps (fuel : nat) (h : heap) (store : option S) (p : ptr) (hooks : list BeforeLogHook)
  : heap * option S * (list BeforeLogHook + option audit_error) :=
  match fuel with
  | O => (h, store, inl hooks)
  | Datatypes.S fuel =>
      match process_step h store p hooks with
      | (h, store, inl hooks) => process_steps fuel h store p hooks
      | r => r
      end
  end.

(** [Log]: the error it returns is always nil. *)
Definition Log (cfg : Config) (id : string) (now : Time) (beforeLog : list BeforeLogHook) (h : heap)
    (store : option S) (p : ptr) : heap * option S * option audit_error :=
  let h := prepareEvent cfg id now h p in
  let '(h, store, _) := processEvent beforeLog h store p in
  (h, store, None).

Definition Logger_Query (h : heap) (store : option S) (q : Query) : option (result audit_error QueryResult) :=
  match store with
  | None => Some (Err ErrStoreNotConfigured)
  | Some st => query_events h st q
  end.
End logger.

(** ** Goroutines *)

(** What is left of the hooks comes with the event in hand. *)
Inductive worker : Type :=
  | Waiting
  | Busy (p : ptr) (hooks : list BeforeLogHook)
  | Draining
  | DrainBusy (p : ptr) (hooks : list BeforeLogHook)
  | Exited.

Record logger {S : Type} := mkLogger {
  capacity : nat;
  eventCh : list ptr;
  done : bool;
  workers : list worker;
  (** callers of [LogAsync] that found the buffer full and store the event
      themselves *)
  inline : list (ptr * list BeforeLogHook);
  mem : heap;
  store : option S;
  accepted : list ptr;
  completed : list (ptr * option audit_error)
}.
Arguments logger : clear implicits.

Section queue.
Context {S : Type} `{Store S} (cfg : Config) (beforeLog : list BeforeLogHook).

#[local] Abbreviation logger := (logger S).

Definition NewLogger (h : heap) (st : option S) : logger :=
  let cfg := NewLogger_config cfg in
  mkLogger S (Z.to_nat (BufferSize cfg)) [] false (repeat Waiting (Z.to_nat (Workers cfg))) [] h st [] [].

Definition with_queue (l : logger) (ch : list ptr) : logger :=
  mkLogger S (capacity l) ch (done l) (workers l) (inline l) (mem l) (store l) (accepted l) (completed l).
Definition with_worker (l : logger) (i : nat) (w : worker) : logger :=
  mkLogger S (capacity l) (eventCh l) (done l) (<[i := w]> (workers l)) (inline l) (mem l) (store l) (accepted l) (completed l).
Definition with_inline (l : logger) (ps : list (ptr * list BeforeLogHook)) : logger :=
  mkLogger S (capacity l) (eventCh l) (done l) (workers l) ps (mem l) (store l) (accepted l) (completed l).
Definition with_done (l : logger) : logger :=
  mkLogger S (capacity l) (eventCh l) true (workers l) (inline l) (mem l) (store l) (accepted l) (completed l).
Definition with_mem (l : logger) (h : heap) : logger :=
  mkLogger S (capacity l) (eventCh l) (done l) (workers l) (inline l) h (store l) (accepted l) (completed l).
Definition accept (l : logger) (p : ptr) : logger :=
  mkLogger S (capacity l) (eventCh l) (done l) (workers l) (inline l) (mem l) (store l) (accepted l ++ [p]) (completed l).

(** What a step of [processEvent] on [p] does: the rest of the hooks is left, or
    the event is through. *)
Definition process (l : logger) (p : ptr) (hooks : list BeforeLogHook) : logger * option (list BeforeLogHook) :=
  let '(h, st, rest) := process_step (mem l) (store l) p hooks in
  let out := match rest with inl _ => [] | inr err => [(p, err)] end in
  (mkLogger S (capacity l) (eventCh l) (done l) (workers l) (inline l) h st (accepted l) (completed l ++ out),
   match rest with inl hooks => Some hooks | inr _ => None end).

(** [LogAsync] up to the end of its [select]. *)
Definition LogAsync (id : string) (now : Time) (l : logger) (p : ptr) : logger :=
  let l := accept (with_mem l (prepareEvent cfg id now (mem l) p)) p in
  if (length (eventCh l) <? capacity l)%nat then with_queue l (eventCh l ++ [p])
  else with_inline l (inline l ++ [(p, beforeLog)]).

(** [close(l.done)]: a second one panics. *)
Definition begin_close (l : logger) : option logger := if done l then None else Some (with_done l).

(** One move of a worker; with an event and [done] both there, [select] may take
    either ([prefer_done] is its choice). *)
Definition worker_step (l : logger) (i : nat) (prefer_done : bool) : option logger :=
  match workers l !! i with
  | Some Waiting =>
      match eventCh l, done l && prefer_done with
      | p :: ch, false => Some (with_worker (with_queue l ch) i (Busy p beforeLog))
      | _, _ => if done l then Some (with_worker l i Draining) else None
      end
  | Some (Busy p hooks) =>
      let '(l, rest) := process l p hooks in
      Some (with_worker l i (match rest with Some hooks => Busy p hooks | None => Waiting end))
  | Some Draining =>
      match eventCh l with
      | p :: ch => Some (with_worker (with_queue l ch) i (DrainBusy p beforeLog))
      | [] => Some (with_worker l i Exited)
      end
  | Some (DrainBusy p hooks) =>
      let '(l, rest) := process l p hooks in
      Some (with_worker l i (match rest with Some hooks => DrainBusy p hooks | None => Draining end))
  | Some Exited | None => None
  end.

(** A caller goes on with an event of its own. *)
Definition inline_step (l : logger) (i : nat) : option logger :=
  match inline l !! i with
  | Some (p, hooks) =>
      let '(l, rest) := process l p hooks in
      Some (with_inline l (match rest with
                           | Some hooks => <[i := (p, hooks)]> (inline l)
                           | None => delete i (inline l)
                           end))
  | None => None
  end.

(** Callers change the events they share whenever they like ([step_touch]). *)
Inductive step : logger -> logger -> Prop :=
  | step_async id now l p : step l (LogAsync id now l p)
  | step_close l l' : begin_close l = Some l' -> step l l'
  | step_worker l i b l' : worker_step l i b = Some l' -> step l l'
  | step_inline l i l' : inline_step l i = Some l' -> step l l'
  | step_touch l h : step l (with_mem l h).

(** The steps that are not of the callers' own making. *)
Inductive quiet_step : logger -> logger -> Prop :=
  | quiet_worker l i b l' : worker_step l i b = Some l' -> quiet_step l l'
  | quiet_inline l i l' : inline_step l i = Some l' -> quiet_step l l'.

(** [Close] returns once every worker has. *)
Definition all_exited (l : logger) : Prop := Forall (eq Exited) (workers l).

End queue.

(** ** Building events *)

Definition NewEvent (action : string) : Event :=
  mkEvent "" zero_time action None None None "" "" [] ∅ [].

Definition with_outcome (o : Outcome) (reason : string) (e : Event) : Event :=
  mkEvent (ID e) (Timestamp e) (Action e) (e_Actor e) (e_Resource e) (e_Context e) o reason (Changes e) (Metadata e) (Tags e).
Definition Success (e : Event) : Event := with_outcome OutcomeSuccess (Reason e) e.
Definition Failure (reason : string) (e : Event) : Event := with_outcome OutcomeFailure reason e.
Definition WithReason (reason : string) (e : Event) : Event := with_outcome (e_Outcome e) reason e.

Definition with_actor (a : option Actor) (e : Event) : Event :=
  mkEvent (ID e) (Timestamp e) (Action e) a (e_Resource e) (e_Context e) (e_Outcome e) (Reason e) (Changes e) (Metadata e) (Tags e).
Definition WithActor := with_actor.
Definition WithActorUser (id name email : string) : Event -> Event :=
  with_actor (Some (mkActor id "user" name email "" "" "")).
Definition WithActorService (id name : string) : Event -> Event :=
  with_actor (Some (mkActor id "service" name "" "" "" "")).
Definition WithActorSystem : Event -> Event := with_actor (Some (mkActor "system" "system" "System" "" "" "" "")).

Definition no_actor : Actor := mkActor "" "" "" "" "" "" "".

(** The actor is shared by pointer too; each event here has its own. *)
Definition WithIP (ip : string) (e : Event) : Event :=
  let a := default no_actor (e_Actor e) in
  with_actor (Some (mkActor (a_ID a) (a_Type a) (a_Name a) (a_Email a) ip (a_UserAgent a) (a_SessionID a))) e.
Definition WithUserAgent (ua : string) (e : Event) : Event :=
  let a := default no_actor (e_Actor e) in
  with_actor (Some (mkActor (a_ID a) (a_Type a) (a_Name a) (a_Email a) (a_IP a) ua (a_SessionID a))) e.

Definition with_resource (r : option Resource) (e : Event) : Event :=
  mkEvent (ID e) (Timestamp e) (Action e) (e_Actor e) r (e_Context e) (e_Outcome e) (Reason e) (Changes e) (Metadata e) (Tags e).
Definition WithResource := with_resource.
Definition WithResourceID (resourceType id : string) : Event -> Event := with_resource (Some (mkResource id resourceType "")).
Definition WithResourceName (resourceType id name : string) : Event -> Event :=
  with_resource (Some (mkResource id resourceType name)).

Definition WithContext (ctx : option EventContext) (e : Event) : Event :=
  mkEvent (ID e) (Timestamp e) (Action e) (e_Actor e) (e_Resource e) ctx (e_Outcome e) (Reason e) (Changes e) (Metadata e) (Tags e).
Definition WithRequestID (id : string) (e : Event) : Event :=
  let x := default empty_context (e_Context e) in
  WithContext (Some (mkEventContext id (x_TraceID x) (x_SpanID x) (x_Service x) (x_Environment x) (x_Version x))) e.
Definition WithTraceID (id : string) (e : Event) : Event :=
  let x := default empty_context (e_Context e) in
  WithContext (Some (mkEventContext (x_RequestID x) id (x_SpanID x) (x_Service x) (x_Environment x) (x_Version x))) e.

Definition WithChanges (changes : list Change) (e : Event) : Event :=
  mkEvent (ID e) (Timestamp e) (Action e) (e_Actor e) (e_Resource e) (e_Context e) (e_Outcome e) (Reason e)
    (Changes e ++ changes) (Metadata e) (Tags e).
Definition WithChange (field : string) (oldValue newValue : value) : Event -> Event :=
  WithChanges [mkChange field oldValue newValue].
Definition WithMetadataMap (metadata : gmap string value) (e : Event) : Event :=
  mkEvent (ID e) (Timestamp e) (Action e) (e_Actor e) (e_Resource e) (e_Context e) (e_Outcome e) (Reason e)
    (Changes e) (metadata ∪ Metadata e) (Tags e).
Definition WithMetadata (key : string) (v : value) : Event -> Event := WithMetadataMap {[key := v]}.
Definition WithTags (tags : list string) (e : Event) : Event :=
  mkEvent (ID e) (Timestamp e) (Action e) (e_Actor e) (e_Resource e) (e_Context e) (e_Outcome e) (Reason e)
    (Changes e) (Metadata e) (Tags e ++ tags).

(** A builder's method, on the event it points to. *)
Definition build (f : Event -> Event) (h : heap) (p : ptr) : heap := set_event h p (f (h p)).

(** ** Identifiers *)

(** The bytes of [generateUUID] for the clock [t] (nanoseconds). *)
Fixpoint uuid_bytes (n : nat) (i : Z) (t : Z) : list Z :=
  match n with
  | O => []
  | S n => Z.shiftr t (i * 4) mod 256 :: uuid_bytes n (i + 1) (int_add (int_mul t 1103515245) 12345)
  end.

Definition set_version (b : list Z) : list Z :=
  let b := <[6%nat := Z.lor (Z.land (default 0 (b !! 6%nat)) 15) 64]> b in
  <[8%nat := Z.lor (Z.land (default 0 (b !! 8%nat)) 63) 128]> b.

Definition hex_digit (n : Z) : ascii := default "0"%char (String.get (Z.to_nat n) "0123456789abcdef").

(** Before which bytes a dash stands. *)
Definition dash_before (i : nat) : bool := (i =? 4)%nat || (i =? 6)%nat || (i =? 8)%nat || (i =? 10)%nat.

(** The loop of [formatUUID] over its buffer. *)
Fixpoint format_bytes (b : list Z) (i idx : nat) (buf : list ascii) : list ascii :=
  match b with
  | [] => buf
  | v :: b =>
      let idx := if dash_before i then S idx else idx in
      let buf := <[idx := hex_digit (Z.shiftr v 4)]> buf in
      let buf := <[S idx := hex_digit (Z.land v 15)]> buf in
      format_bytes b (S i) (S (S idx)) buf
  end.

Definition formatUUID (b : list Z) : string :=
  let buf := repeat zero 36 in
  let buf := <[8%nat := "-"%char]> (<[13%nat := "-"%char]> (<[18%nat := "-"%char]> (<[23%nat := "-"%char]> buf))) in
  String.string_of_list_ascii (format_bytes b 0 0 buf).

Definition generateUUID (now : Time) : string := formatUUID (set_version (uuid_bytes 16 0 now)).

(** ** The queue *)

Definition held (w : worker) : list ptr :=
  match w with Busy p _ | DrainBusy p _ => [p] | _ => [] end.

Definition hooks_left (w : worker) : list BeforeLogHook :=
  match w with Busy _ hs | DrainBusy _ hs => hs | _ => [] end.

Lemma concat_held_insert ws i w w' :
  ws !! i = Some w -> List.concat (map held (<[i := w']> ws)) ++ held w ≡ₚ List.concat (map held ws) ++ held w'.
Proof.
  revert i. induction ws as [|x ws IH]; intros i Hi; [done|]. destruct i as [|i]; cbn in *.
  - injection Hi as ->. set (r := List.concat _).
    by rewrite <- !app_assoc, (Permutation_app_comm r (held w)), (Permutation_app_comm r (held w')), !app_assoc,
      (Permutation_app_comm (held w) (held w')).
  - specialize (IH i Hi). rewrite <- !app_assoc. by rewrite IH.
Qed.

Section queue_facts.
Context {S : Type} `{Store S} (cfg : Config) (beforeLog : list BeforeLogHook).

#[local] Abbreviation logger := (logger S).
#[local] Abbreviation step := (step cfg beforeLog).
#[local] Abbreviation quiet_step := (quiet_step beforeLog).
#[local] Abbreviation worker_step := (worker_step beforeLog).
#[local] Abbreviation LogAsync := (LogAsync cfg beforeLog).

(** The steps of an event, uninterrupted, are [processEvent]. *)
Lemma process_steps_spec hooks h st p :
  let '(h', st', err) := processEvent hooks h st p in
  process_steps (Datatypes.S (length hooks)) h st p hooks = (h', st', inr err).
Proof.
  revert h. induction hooks as [|hook hooks IH]; intros h.
  - unfold processEvent. cbn. destruct st as [st|]; [|done]. by destruct (store_event h st p).
  - change (process_steps _ h st p (hook :: hooks)) with
      (match process_step h st p (hook :: hooks) with
       | (h, st, inl hooks') => process_steps (Datatypes.S (length hooks)) h st p hooks'
       | r => r
       end).
    unfold processEvent, process_step. cbn [run_hooks]. destruct (hook h p) as [h1 [e|]]; [done|]. apply IH.
Qed.

(** *** What the trace says of the store

    Each entry is an event that a hook refused, with the hook's error and the
    store untouched, or one that was passed to the store, with its answer; without
    a store there is nothing to answer. *)
Inductive account (st0 : option S) : list (ptr * option audit_error) -> option S -> Prop :=
  | account_start : account st0 [] st0
  | account_refused out st hook h h' p e :
      account st0 out st -> hook ∈ beforeLog -> hook h p = (h', Some e) -> account st0 (out ++ [(p, Some e)]) st
  | account_stored out st h p st' err :
      account st0 out (Some st) -> store_event h st p = (st', err) -> account st0 (out ++ [(p, err)]) (Some st')
  | account_no_store out p : account st0 out None -> account st0 (out ++ [(p, None)]) None.

Lemma process_cases l p hooks l1 rest :
  process l p hooks = (l1, rest) ->
  exists out,
    l1 = mkLogger S (capacity l) (eventCh l) (done l) (workers l) (inline l) (mem l1) (store l1) (accepted l) (completed l ++ out) /\
    map fst out = match rest with Some _ => [] | None => [p] end /\
    match rest with Some hs => exists hook, hooks = hook :: hs | None => True end /\
    (hooks ⊆ beforeLog -> forall st0, account st0 (completed l) (store l) -> account st0 (completed l1) (store l1)).
Proof.
  unfold process, process_step. destruct hooks as [|hook hooks].
  - destruct (store l) as [st|] eqn:Es; [destruct (store_event (mem l) st p) as [st' err] eqn:E|]; intros [= <- <-];
      eexists; (split; [reflexivity|]); (split; [reflexivity|]); (split; [done|]); intros _ st0 Ha; cbn.
    + eapply account_stored; [|exact E]. exact Ha.
    + by apply account_no_store.
  - destruct (hook (mem l) p) as [h1 [e|]] eqn:E; intros [= <- <-]; eexists; (split; [reflexivity|]);
      (split; [reflexivity|]); (split; [by eauto|]); intros Hsub st0 Ha; cbn.
    + eapply account_refused; [exact Ha|apply Hsub; by left|exact E].
    + by rewrite app_nil_r.
Qed.

(** *** One move of a worker *)

(** The moves of an event: its hooks, the store, and taking it. *)
Definition event_moves : nat := length beforeLog + 2.

Definition weight (w : worker) : nat :=
  match w with
  | Exited => 0 | Draining => 1 | Waiting => 2
  | DrainBusy _ hs => 2 + length hs | Busy _ hs => 3 + length hs
  end.

(** Before closing no worker drains. *)
Definition open_worker (w : worker) : Prop := match w with Waiting | Busy _ _ => True | _ => False end.

Definition keeps_hooks (w : worker) : Prop := hooks_left w ⊆ beforeLog.

Lemma keeps_nil w : hooks_left w = [] -> keeps_hooks w.
Proof. unfold keeps_hooks. intros ->. apply list_subseteq_nil. Qed.

Lemma keeps_all w : hooks_left w = beforeLog -> keeps_hooks w.
Proof. unfold keeps_hooks. by intros ->. Qed.

Lemma subseteq_tail (hook : BeforeLogHook) hs hs' : hook :: hs ⊆ hs' -> hs ⊆ hs'.
Proof. intros Hs x Hx. apply Hs. by right. Qed.

Lemma worker_step_cases l i b l' :
  worker_step l i b = Some l' ->
  exists w w' out ch, workers l !! i = Some w /\
    l' = mkLogger S (capacity l) ch (done l) (<[i := w']> (workers l)) (inline l) (mem l') (store l') (accepted l) (completed l ++ out) /\
    held w ++ eventCh l = map fst out ++ held w' ++ ch /\
    (weight w' + event_moves * length ch < weight w + event_moves * length (eventCh l))%nat /\
    (w' = Exited -> ch = []) /\ (ch = eventCh l \/ exists p, eventCh l = p :: ch) /\
    (done l = false -> open_worker w -> open_worker w') /\
    (keeps_hooks w -> keeps_hooks w' /\
      forall st0, account st0 (completed l) (store l) -> account st0 (completed l') (store l')).
Proof.
  unfold worker_step, event_moves. destruct (workers l !! i) as [w|] eqn:E; [|done].
  assert (Hno : forall w', keeps_hooks w' -> keeps_hooks w -> keeps_hooks w' /\
    forall st0, account st0 (completed l) (store l) -> account st0 (completed l ++ []) (store l))
    by (intros; rewrite app_nil_r; done).
  assert (Hnil : forall (l0 : logger) i w, with_worker l0 i w = mkLogger S (capacity l0) (eventCh l0) (done l0) (<[i := w]> (workers l0)) (inline l0)
      (mem l0) (store l0) (accepted l0) (completed l0 ++ [])) by (intros; by rewrite app_nil_r).
  destruct w as [|p hs| |p hs|]; try done.
  - assert (Hdrain : forall l', (if done l then Some (with_worker l i Draining) else None) = Some l' ->
      done l = true /\ l' = with_worker l i Draining) by (intros k; by destruct (done l); intros [=]).
    assert (Hgo : forall l', done l = true /\ l' = with_worker l i Draining -> exists w w' out ch, Some Waiting = Some w /\
      l' = mkLogger S (capacity l) ch (done l) (<[i := w']> (workers l)) (inline l) (mem l') (store l') (accepted l) (completed l ++ out) /\
      held w ++ eventCh l = map fst out ++ held w' ++ ch /\
      (weight w' + (length beforeLog + 2) * length ch < weight w + (length beforeLog + 2) * length (eventCh l))%nat /\
      (w' = Exited -> ch = []) /\ (ch = eventCh l \/ exists p, eventCh l = p :: ch) /\
      (done l = false -> open_worker w -> open_worker w') /\
      (keeps_hooks w -> keeps_hooks w' /\
        forall st0, account st0 (completed l) (store l) -> account st0 (completed l') (store l'))).
    { intros k [Hd ->]. exists Waiting, Draining, [], (eventCh l). rewrite Hnil. cbn. repeat split; try done; try lia; try (by left); try congruence;
        try (by apply keeps_nil); try (by apply keeps_all); intros; by rewrite app_nil_r. }
    destruct (eventCh l) as [|p ch] eqn:Ec; [intros Hs; apply Hgo; auto|].
    destruct (done l && b); [intros Hs; apply Hgo; auto|]. intros [= <-].
    exists Waiting, (Busy p beforeLog), [], ch. rewrite Hnil. cbn. repeat split; try done; try lia; try (by right; exists p);
      try (by apply keeps_nil); try (by apply keeps_all); intros; by rewrite app_nil_r.
  - destruct (process l p hs) as [l1 rest] eqn:Ep. intros [= <-].
    destruct (process_cases l p hs l1 rest Ep) as (out & El & Hout & Hr & Ha).
    exists (Busy p hs), (match rest with Some hs => Busy p hs | None => Waiting end), out, (eventCh l).
    assert (completed l1 = completed l ++ out) as Ec by by rewrite El.
    split; [done|]. split; [unfold with_worker; rewrite El at 1; cbn; by rewrite El|]. rewrite Hout.
    destruct rest as [hs'|]; [destruct Hr as [hook ->]|]; cbn; repeat split; try done; try lia; try (by left); try (by apply Ha);
      first [by apply keeps_nil|by eapply subseteq_tail].
  - destruct (eventCh l) as [|p ch] eqn:Ec; intros [= <-].
    + exists Draining, Exited, [], []. rewrite Hnil. cbn. rewrite Ec. repeat split; try done; try lia; try (by left);
        try (by apply keeps_nil); try (by apply keeps_all); intros; by rewrite app_nil_r.
    + exists Draining, (DrainBusy p beforeLog), [], ch. rewrite Hnil. cbn. repeat split; try done; try lia; try (by right; exists p);
        try (by apply keeps_nil); try (by apply keeps_all); intros; by rewrite app_nil_r.
  - destruct (process l p hs) as [l1 rest] eqn:Ep. intros [= <-].
    destruct (process_cases l p hs l1 rest Ep) as (out & El & Hout & Hr & Ha).
    exists (DrainBusy p hs), (match rest with Some hs => DrainBusy p hs | None => Draining end), out, (eventCh l).
    assert (completed l1 = completed l ++ out) as Ec by by rewrite El.
    split; [done|]. split; [unfold with_worker; rewrite El at 1; cbn; by rewrite El|]. rewrite Hout.
    destruct rest as [hs'|]; [destruct Hr as [hook ->]|]; cbn; repeat split; try done; try lia; try (by left); try (by apply Ha);
      first [by apply keeps_nil|by eapply subseteq_tail].
Qed.

(** *** One move of a caller *)

Definition call_moves (x : ptr * list BeforeLogHook) : nat := Datatypes.S (length x.2).

Lemma map_fst_delete {A B : Type} (l : list (A * B)) i x : l !! i = Some x -> map fst l ≡ₚ fst x :: map fst (delete i l).
Proof.
  revert i. induction l as [|y l IH]; intros [|i] Hi; [done|done|by injection Hi as ->|].
  change (delete (Datatypes.S i) (y :: l)) with (y :: delete i l). cbn [map]. rewrite (IH i Hi). apply perm_swap.
Qed.

Lemma inline_step_cases l i l' :
  inline_step l i = Some l' ->
  exists out ps, l' = mkLogger S (capacity l) (eventCh l) (done l) (workers l) ps (mem l') (store l') (accepted l) (completed l ++ out) /\
    map fst (inline l) ≡ₚ map fst out ++ map fst ps /\
    (sum_list_with call_moves ps < sum_list_with call_moves (inline l))%nat /\
    (Forall (fun x => x.2 ⊆ beforeLog) (inline l) -> Forall (fun x => x.2 ⊆ beforeLog) ps /\
      forall st0, account st0 (completed l) (store l) -> account st0 (completed l') (store l')).
Proof.
  unfold inline_step. destruct (inline l !! i) as [[p hs]|] eqn:E; [|done].
  destruct (process l p hs) as [l1 rest] eqn:Ep. intros [= <-].
  destruct (process_cases l p hs l1 rest Ep) as (out & El & Hout & Hr & Ha).
  assert (inline l1 = inline l) as Ei by by rewrite El.
  exists out, (match rest with Some hs => <[i := (p, hs)]> (inline l) | None => delete i (inline l) end).
  split; [rewrite Ei; unfold with_inline; cbn [mem store]; f_equal; by rewrite El|]. rewrite Hout.
  assert (completed l1 = completed l ++ out) as Ec by by rewrite El.
  destruct rest as [hs'|]; [destruct Hr as [hook ->]|].
  - split; [|split].
    + cbn [app]. rewrite <- (list_insert_id (map fst (inline l)) i p) at 1 by by rewrite list_lookup_fmap, E.
      by rewrite list_fmap_insert.
    + pose proof (sum_insert call_moves (inline l) i (p, hook :: hs') (p, hs') E) as Hs. unfold call_moves in *. cbn in Hs. lia.
    + intros Hf. pose proof (Forall_lookup_1 _ _ _ _ Hf E) as Hi. cbn in Hi. split; [|by apply Ha].
      apply Forall_insert; [done|]. cbn. by eapply subseteq_tail.
  - split; [|split].
    + apply (map_fst_delete _ _ (p, hs)). exact E.
    + pose proof (sum_delete call_moves (inline l) i (p, hs) E) as Hs. unfold call_moves in *. cbn in Hs. lia.
    + intros Hf. pose proof (Forall_lookup_1 _ _ _ _ Hf E) as Hi. cbn in Hi. split; [|by apply Ha].
      by apply Forall_delete.
Qed.

(** *** What every step keeps *)

(** Where the accepted events are. *)
Definition in_flight (l : logger) : list ptr :=
  List.concat (map held (workers l)) ++ eventCh l ++ map fst (inline l).

(** Every accepted event is through or in one hand. *)
Definition conserved (l : logger) : Prop := accepted l ≡ₚ map fst (completed l) ++ in_flight l.

(** The trace accounts for the store, and what is left of hooks are hooks. *)
Definition accounted (st0 : option S) (l : logger) : Prop :=
  account st0 (completed l) (store l) /\ Forall keeps_hooks (workers l) /\ Forall (fun x => x.2 ⊆ beforeLog) (inline l).

Definition only_open (l : logger) : Prop := done l = false -> Forall open_worker (workers l).

Record invariant (st0 : option S) (l : logger) : Prop := {
  inv_conserved : conserved l;
  inv_accounted : accounted st0 l;
  inv_open : only_open l
}.

Lemma worker_step_invariant st0 l i b l' : invariant st0 l -> worker_step l i b = Some l' -> invariant st0 l'.
Proof.
  intros [Hc (Ha & Hw & Hin) Ho] Hs.
  destruct (worker_step_cases l i b l' Hs) as (w & w' & out & ch & Hi & El & Hh & _ & _ & _ & Hopen & Hk).
  destruct (Hk (Forall_lookup_1 _ _ _ _ Hw Hi)) as [Hk' Hacc]. specialize (Hacc st0 Ha).
  assert (completed l' = completed l ++ out) as Ec by by rewrite El.
  rewrite Ec in Hacc. rewrite El. split.
  - unfold conserved, in_flight in *. cbn [accepted completed workers eventCh inline]. rewrite Hc.
    pose proof (concat_held_insert (workers l) i w w' Hi) as Hp.
    set (A := List.concat (map held (workers l))) in *. set (B := List.concat (map held (<[i:=w']> (workers l)))) in *.
    rewrite map_app, <- app_assoc. f_equiv. rewrite !app_assoc. f_equiv.
    apply (Permutation_app_inv_r (held w)). rewrite <- !app_assoc.
    rewrite (Permutation_app_comm (eventCh l) (held w)), Hh, (Permutation_app_comm ch (held w)).
    rewrite (app_assoc B), Hp, <- app_assoc. apply Permutation_app_swap_app.
  - split; [exact Hacc|]. split; [by apply Forall_insert|done].
  - intros Hd. cbn [done] in Hd. specialize (Ho Hd). apply Forall_insert; [done|]. apply Hopen; [done|].
    exact (Forall_lookup_1 _ _ _ _ Ho Hi).
Qed.

Lemma inline_step_invariant st0 l i l' : invariant st0 l -> inline_step l i = Some l' -> invariant st0 l'.
Proof.
  intros [Hc (Ha & Hw & Hin) Ho] Hs.
  destruct (inline_step_cases l i l' Hs) as (out & ps & El & Hp & _ & Hk). destruct (Hk Hin) as [Hps Hacc]. specialize (Hacc st0 Ha).
  assert (completed l' = completed l ++ out) as Ec by by rewrite El. rewrite Ec in Hacc. rewrite El. split; [|done|exact Ho].
  unfold conserved, in_flight in *. cbn [accepted completed workers eventCh inline]. rewrite Hc, Hp, map_app, <- app_assoc. f_equiv.
  rewrite (app_assoc _ (eventCh l)). etrans; [apply Permutation_app_swap_app|]. by rewrite <- !app_assoc.
Qed.

Lemma accept_invariant st0 l h p ch ps x :
  invariant st0 l -> ch ++ map fst ps ≡ₚ eventCh l ++ map fst (inline l) ++ [p] -> Forall (fun x => x.2 ⊆ beforeLog) ps ->
  x = with_inline (with_queue (accept (with_mem l h) p) ch) ps -> invariant st0 x.
Proof.
  intros [Hc (Ha & Hw & Hin) Ho] Hp Hps ->. split; [|split; [done|by split]|exact Ho].
  unfold conserved, in_flight in *. cbn. by rewrite Hc, Hp, <- !app_assoc.
Qed.

Lemma step_invariant st0 l l' : invariant st0 l -> step l l' -> invariant st0 l'.
Proof.
  intros Hinv Hs. destruct Hs as [id now l p|l l' Hcl|l i b l' Hw|l i l' Hi|l h].
  - pose proof (inv_accounted _ _ Hinv) as (_ & _ & Hin). unfold LogAsync. cbn [accept with_mem eventCh capacity].
    destruct (_ <? _)%nat.
    + apply (accept_invariant st0 l (prepareEvent cfg id now (mem l) p) p (eventCh l ++ [p]) (inline l)); [done| |done|reflexivity].
      by rewrite <- app_assoc, (Permutation_app_comm (map fst (inline l)) [p]).
    + apply (accept_invariant st0 l (prepareEvent cfg id now (mem l) p) p (eventCh l) (inline l ++ [(p, beforeLog)]));
        [done|by rewrite map_app| |reflexivity].
      apply Forall_app. split; [done|]. by repeat constructor.
  - unfold begin_close in Hcl. destruct (done l) eqn:Ed; [done|]. injection Hcl as <-.
    destruct Hinv as [Hc Ha _]. split; [exact Hc|exact Ha|done].
  - by eapply worker_step_invariant.
  - by eapply inline_step_invariant.
  - destruct Hinv as [Hc Ha Ho]. by split.
Qed.

Lemma NewLogger_invariant h st : invariant st (NewLogger cfg h st).
Proof.
  unfold NewLogger. split.
  - unfold conserved, in_flight. cbn [accepted completed workers eventCh inline]. by induction (Z.to_nat _).
  - split; [apply account_start|]. split; [|done]. apply Forall_forall. intros w ->%repeat_spec. by apply keeps_nil.
  - intros _. apply Forall_forall. by intros w ->%repeat_spec.
Qed.

Lemma steps_invariant h st l : rtc step (NewLogger cfg h st) l -> invariant st l.
Proof.
  pose proof (NewLogger_invariant h st) as H0. revert H0. induction 2; eauto using step_invariant.
Qed.

(** *** Closing *)

(** The moves left before everything is at rest. *)
Definition moves (l : logger) : nat :=
  sum_list_with weight (workers l) + event_moves * length (eventCh l) + sum_list_with call_moves (inline l).

Lemma quiet_step_moves l l' : quiet_step l l' -> (moves l' < moves l)%nat.
Proof.
  intros [l0 i b l1 Hs|l0 i l1 Hs].
  - destruct (worker_step_cases l0 i b l1 Hs) as (w & w' & out & ch & Hi & -> & _ & Hw & _).
    pose proof (sum_insert weight (workers l0) i w w' Hi). unfold moves. cbn [workers eventCh inline]. lia.
  - destruct (inline_step_cases l0 i l1 Hs) as (out & ps & -> & _ & Hm & _).
    unfold moves. cbn [workers eventCh inline]. lia.
Qed.

Lemma quiet_moves n l l' : nsteps quiet_step n l l' -> (n + moves l' <= moves l)%nat.
Proof. induction 1 as [|n l l1 l2 H1 _ IH]; [done|]. apply quiet_step_moves in H1. lia. Qed.

(** A run of moves, of workers ([inl]) and of callers ([inr]). *)
Fixpoint run_moves (l : logger) (ms : list (nat + nat)) : option logger :=
  match ms with
  | [] => Some l
  | m :: ms => match (match m with inl i => worker_step l i true | inr i => inline_step l i end) with
               | Some l => run_moves l ms
               | None => None
               end
  end.

Lemma run_quiet ms l l' : run_moves l ms = Some l' -> nsteps quiet_step (length ms) l l'.
Proof.
  revert l. induction ms as [|m ms IH]; intros l; cbn [run_moves]; [intros [= <-]; apply nsteps_O|].
  destruct m as [i|i]; [destruct (worker_step l i true) as [l1|] eqn:E|destruct (inline_step l i) as [l1|] eqn:E]; try done;
    intros Hr; (eapply nsteps_l; [|by apply IH]); [by eapply quiet_worker|by eapply quiet_inline].
Qed.

Lemma quiet_same l l' : quiet_step l l' -> done l' = done l /\ accepted l' = accepted l /\ length (workers l') = length (workers l).
Proof.
  intros [l0 i b l1 Hs|l0 i l1 Hs].
  - destruct (worker_step_cases _ _ _ _ Hs) as (w & w' & out & ch & _ & -> & _). cbn. by rewrite length_insert.
  - by destruct (inline_step_cases _ _ _ Hs) as (out & ps & -> & _).
Qed.

Lemma quiet_is_step l l' : quiet_step l l' -> step l l'.
Proof. intros [l0 i b l1 Hs|l0 i l1 Hs]; [by eapply step_worker|by eapply step_inline]. Qed.

(** There are workers. *)
Lemma step_workers l l' : step l l' -> length (workers l') = length (workers l).
Proof.
  intros [id now l0 p|l0 l1 Hcl|l0 i b l1 Hs|l0 i l1 Hs|l0 h]; try done.
  - unfold LogAsync. by destruct (_ <? _)%nat.
  - unfold begin_close in Hcl. destruct (done l0); [done|]. by injection Hcl as <-.
  - apply (quiet_same l0 l1). by eapply quiet_worker.
  - apply (quiet_same l0 l1). by eapply quiet_inline.
Qed.

Lemma steps_workers h st l : rtc step (NewLogger cfg h st) l -> workers l <> [].
Proof.
  intros Hs. assert (length (workers l) = length (workers (NewLogger cfg h st))) as Hl.
  { induction Hs as [|l1 l2 l3 H1 _ IH]; [done|]. by rewrite IH, (step_workers l1 l2). }
  intros E. rewrite E in Hl. unfold NewLogger, NewLogger_config in Hl. cbn [workers Workers] in Hl.
  rewrite repeat_length in Hl. cbn in Hl. destruct (Workers cfg <=? 0) eqn:?; lia.
Qed.

(** A worker that is not at rest can move once [done] is closed; so can a caller. *)
Lemma worker_moves l i w :
  done l = true -> workers l !! i = Some w -> w <> Exited -> exists l', worker_step l i true = Some l'.
Proof.
  intros Hd Hi Hw. unfold worker_step. rewrite Hi, Hd. cbn [andb].
  destruct w as [|p hs| |p hs|]; try done; try (destruct (process l p hs)); try (by eexists); by destruct (eventCh l); eexists.
Qed.

Lemma caller_moves l x ps : inline l = x :: ps -> exists l', inline_step l 0 = Some l'.
Proof. intros E. unfold inline_step. rewrite E. destruct x as [p hs]. cbn. destruct (process l p hs). by eexists. Qed.

Definition exit_means_empty (l : logger) : Prop := Exited ∈ workers l -> eventCh l = [].

Lemma quiet_exit l l' : quiet_step l l' -> exit_means_empty l -> exit_means_empty l'.
Proof.
  intros [l0 i b l1 Hs|l0 i l1 Hs] He.
  - destruct (worker_step_cases _ _ _ _ Hs) as (w & w' & out & ch & Hi & -> & _ & _ & Hx & Hq & _).
    unfold exit_means_empty in *. cbn [workers eventCh]. intros (j & Hj)%list_elem_of_lookup.
    apply list_lookup_insert_Some in Hj as [(_ & Ew & _)|[_ Hj]]; [by apply Hx|].
    specialize (He (list_elem_of_lookup_2 _ _ _ Hj)). rewrite He in Hq. by destruct Hq as [|[p ?]].
  - by destruct (inline_step_cases _ _ _ Hs) as (out & ps & -> & _).
Qed.

Lemma quiet_run l l' : rtc quiet_step l l' -> exit_means_empty l ->
  exit_means_empty l' /\ done l' = done l /\ accepted l' = accepted l /\ length (workers l') = length (workers l) /\ rtc step l l'.
Proof.
  induction 1 as [l|l l' l'' Hs Hr IH]; intros He; [done|].
  destruct (quiet_same _ _ Hs) as (H1 & H2 & H3). destruct (IH (quiet_exit _ _ Hs He)) as (H4 & H5 & H6 & H7 & H8).
  repeat split; [done|congruence|congruence|congruence|]. eapply rtc_l; [by apply quiet_is_step|done].
Qed.

(** A state of which no worker is left, under every later step. *)
Lemma exited_step l l' p : step l l' -> all_exited l -> p ∈ eventCh l -> all_exited l' /\ p ∈ eventCh l'.
Proof.
  unfold all_exited. intros Hs Hx Hp. destruct Hs as [id now l q|l l' Hcl|l i b l' Hw|l i l' Hi|l h].
  - unfold LogAsync. cbn [accept with_mem eventCh capacity]. destruct (_ <? _)%nat; [|done]. cbn. split; [done|]. apply elem_of_app. by left.
  - unfold begin_close in Hcl. destruct (done l); [done|]. by injection Hcl as <-.
  - unfold worker_step in Hw. destruct (workers l !! i) as [w|] eqn:E; [|done].
    pose proof (Forall_lookup_1 _ _ _ _ Hx E) as <-. done.
  - by destruct (inline_step_cases _ _ _ Hi) as (out & ps & -> & _).
  - done.
Qed.
End queue_facts.

(** ** Theorems: the queue *)

(** Under every interleaving of callers, hooks, workers and a close, each event
    accepted is in exactly one place: through, in a worker's or a caller's hands,
    or in the buffer. *)
Theorem events_conserved {S : Type} `{Store S} cfg beforeLog h st l :
  rtc (step cfg beforeLog) (NewLogger cfg h st) l ->
  accepted l ≡ₚ map fst (completed l) ++ List.concat (map held (workers l)) ++ eventCh l ++ map fst (inline l).
Proof. intros Hs. exact (inv_conserved _ _ _ (steps_invariant cfg beforeLog h st l Hs)). Qed.

#[local] Existing Instance insertion.

Definition no_events : heap := fun _ => NewEvent "".

Definition small : Config := mkConfig "" "" "" 1 1.

Lemma events_conserved_witness :
  let l0 := NewLogger small no_events (Some (NewMemoryStore 10)) in
  let l := LogAsync small [] "b" 6 (LogAsync small [] "a" 5 l0 7%nat) 8%nat in
  eventCh l = [7%nat] /\ map fst (inline l) = [8%nat] /\
  accepted l ≡ₚ map fst (completed l) ++ List.concat (map held (workers l)) ++ eventCh l ++ map fst (inline l).
Proof.
  intros l0 l. split; [reflexivity|]. split; [reflexivity|].
  apply (events_conserved small [] no_events (Some (NewMemoryStore 10))).
  eapply rtc_l; [apply (step_async small [] "a" 5 _ 7%nat)|]. eapply rtc_l; [apply (step_async small [] "b" 6 _ 8%nat)|]. apply rtc_refl.
Defined.

(** C38. Closing flushes: from any state the logger can be in, once [done] is
    closed and no further call is made, the goroutines make at most [moves] moves,
    however they are interleaved, and come to rest only when every worker has
    returned, so that [Close] does.  Then the buffer is empty and every accepted
    event, but for those their own callers still hold, has been through exactly
    once: refused by a hook, with its error, or passed to the store, whose state
    is what those calls, in that order and with those answers, made of it.  An
    event that a hook refuses or the store fails to take is lost, and only the
    trace here and the hooks that run after know of it. *)
Theorem Close_flushes {S : Type} `{Store S} cfg beforeLog h st l l0 n l' :
  rtc (step cfg beforeLog) (NewLogger cfg h st) l -> begin_close l = Some l0 -> nsteps (quiet_step beforeLog) n l0 l' ->
  (n + moves beforeLog l' <= moves beforeLog l0)%nat /\
  ((forall l'', ~ quiet_step beforeLog l' l'') -> all_exited l' /\ inline l' = []) /\
  (all_exited l' ->
    eventCh l' = [] /\ accepted l' = accepted l /\ accepted l' ≡ₚ map fst (completed l') ++ map fst (inline l') /\
    account beforeLog st (completed l') (store l')).
Proof.
  intros Hs Hcl Hq. pose proof (steps_invariant cfg beforeLog h st l Hs) as Hinv.
  assert (done l = false) as Ed by (unfold begin_close in Hcl; by destruct (done l)).
  assert (He : exit_means_empty l0).
  { unfold begin_close in Hcl. rewrite Ed in Hcl. injection Hcl as <-. intros Hx. cbn [with_done workers] in Hx.
    pose proof (inv_open _ _ _ Hinv Ed) as Ho. rewrite list.Forall_forall in Ho. by apply Ho in Hx. }
  pose proof (rtc_nsteps_2 n _ _ Hq) as Hq'.
  destruct (quiet_run cfg beforeLog l0 l' Hq' He) as (He' & Hd & Ha & Hlen & Hst).
  assert (step cfg beforeLog l l0) as Hl0 by by apply step_close.
  assert (Hd0 : done l0 = true /\ accepted l0 = accepted l /\ workers l0 = workers l)
    by (unfold begin_close in Hcl; rewrite Ed in Hcl; by injection Hcl as <-).
  destruct Hd0 as (Hd0 & Ha0 & Hw0). split; [by apply (quiet_moves beforeLog)|]. split.
  - intros Hn. split.
    + apply list.Forall_forall. intros w (i & Hi)%list_elem_of_lookup.
      assert (w = Exited \/ w <> Exited) as [->|Hne] by (destruct w; by (left + right)); [done|].
      destruct (worker_moves beforeLog l' i w) as [l'' Hm]; [congruence|done|congruence|]. destruct (Hn l''). by eapply quiet_worker.
    + destruct (inline l') as [|x ps] eqn:E; [done|]. destruct (caller_moves l' x ps E) as [l'' Hm].
      destruct (Hn l''). by eapply quiet_inline.
  - intros Hx.
    assert (invariant beforeLog st l') as [Hc (Hacc & _ & _) _].
    { apply (steps_invariant cfg beforeLog h). etrans; [exact Hs|]. eapply rtc_l; [exact Hl0|exact Hst]. }
    assert (Hq0 : eventCh l' = []).
    { apply He'. assert (workers l' <> []) as Hne.
      { intros E. destruct (steps_workers cfg beforeLog h st l Hs). apply length_zero_iff_nil. by rewrite <- Hw0, <- Hlen, E. }
      unfold all_exited in Hx. destruct (workers l') as [|w ws]; [done|]. apply Forall_cons_1 in Hx as [-> _]. apply list_elem_of_here. }
    split; [done|]. split; [congruence|]. split; [|exact Hacc].
    unfold conserved, in_flight in Hc. rewrite Hq0 in Hc.
    assert (Hh : List.concat (map held (workers l')) = []).
    { clear -Hx. unfold all_exited in Hx. induction Hx as [|w ws <- _ IH]; [done|]. exact IH. }
    by rewrite Hh in Hc.
Qed.

(** A hook that refuses the events of no action. *)
Definition needs_action : BeforeLogHook := fun h p => (h, if String.eqb (Action (h p)) "" then Some ErrStoreNotConfigured else None).

Lemma Close_flushes_witness :
  let h : heap := fun p => NewEvent (if (p =? 7)%nat then "login" else "") in
  let l0 := NewLogger small h (Some (NewMemoryStore 10)) in
  let l := LogAsync small [needs_action] "b" 6 (LogAsync small [needs_action] "a" 5 l0 7%nat) 8%nat in
  exists l' lc, begin_close l = Some lc /\ nsteps (quiet_step [needs_action]) 6 lc l' /\ all_exited l' /\
    eventCh l' = [] /\ completed l' = [(8%nat, Some ErrStoreNotConfigured); (7%nat, None)] /\
    option_map events (store l') = Some [7%nat] /\
    account [needs_action] (Some (NewMemoryStore 10)) (completed l') (store l').
Proof.
  intros h l0 l.
  set (lc := default l (begin_close l)).
  set (ms := [inr 0; inl 0; inl 0; inl 0; inl 0; inl 0]%nat : list (nat + nat)).
  destruct (run_moves [needs_action] lc ms) as [l'|] eqn:Er; [|by vm_compute in Er].
  assert (H : option_map completed (run_moves [needs_action] lc ms) = Some [(8%nat, Some ErrStoreNotConfigured); (7%nat, None)] /\
    option_map workers (run_moves [needs_action] lc ms) = Some [Exited] /\
    (s ← run_moves [needs_action] lc ms; option_map events (store s)) = Some [7%nat]) by by vm_compute.
  rewrite Er in H. destruct H as (Hc & Hw & Hm). cbn in Hc, Hw, Hm. injection Hc as Hc. injection Hw as Hw.
  pose proof (run_quiet [needs_action] ms lc l' Er) as Hq.
  assert (Hx : all_exited l') by (unfold all_exited; rewrite Hw; repeat constructor).
  assert (Hr : rtc (step small [needs_action]) l0 l).
  { eapply rtc_l; [apply (step_async small [needs_action] "a" 5 _ 7%nat)|].
    eapply rtc_l; [apply (step_async small [needs_action] "b" 6 _ 8%nat)|]. apply rtc_refl. }
  destruct (Close_flushes small [needs_action] h (Some (NewMemoryStore 10)) l lc 6 l' Hr eq_refl Hq) as (_ & _ & Hend).
  destruct (Hend Hx) as (He & _ & _ & Ha).
  exists l', lc. by repeat split.
Defined.

(** An event logged asynchronously after the workers have returned is lost
    without an error: it stays in the buffer whatever happens later. *)
Theorem late_event_lost {S : Type} `{Store S} cfg beforeLog id now l p l' :
  all_exited l -> (length (eventCh l) < capacity l)%nat -> rtc (step cfg beforeLog) (LogAsync cfg beforeLog id now l p) l' ->
  all_exited l' /\ p ∈ eventCh l'.
Proof.
  intros Hx Hl Hs.
  assert (H0 : all_exited (LogAsync cfg beforeLog id now l p) /\ p ∈ eventCh (LogAsync cfg beforeLog id now l p)).
  { unfold LogAsync. cbn [accept with_mem eventCh capacity]. rewrite (proj2 (Nat.ltb_lt _ _)) by done. split; [done|].
    cbn. apply elem_of_app. right. by apply list_elem_of_singleton. }
  revert H0. induction Hs as [|l1 l2 l3 H1 _ IH]; [done|]. intros [H2 H3]. apply IH. by eapply exited_step.
Qed.

Definition closed_logger : logger MemoryStore :=
  mkLogger MemoryStore 4 [] true [Exited; Exited] [] no_events (Some (NewMemoryStore 10)) [] [].

Lemma late_event_lost_witness :
  all_exited closed_logger /\ 7%nat ∈ eventCh (LogAsync small [] "a" 5 closed_logger 7%nat).
Proof.
  assert (H : all_exited closed_logger) by (repeat constructor). split; [exact H|].
  exact (proj2 (late_event_lost small [] "a" 5 closed_logger 7%nat _ H ltac:(cbn; lia) (rtc_refl _ _))).
Defined.

(** ** Theorems: one event *)

(** [Log] reports no failure: when a hook refuses the event it is not stored,
    when the store fails it is lost, and the caller is told nil each time. *)
Theorem Log_hides_errors {S : Type} `{Store S} cfg id now hooks h store p :
  let '(h', store', err) := Log cfg id now hooks h store p in
  err = None /\
  (forall e, snd (run_hooks hooks (prepareEvent cfg id now h p) p) = Some e -> store' = store).
Proof.
  unfold Log, processEvent. cbv zeta. destruct (run_hooks hooks (prepareEvent cfg id now h p) p) as [h1 [e|]] eqn:E.
  - split; [done|]. done.
  - destruct store as [st|]; [destruct (store_event h1 st p)|]; by split.
Qed.

(** The store in memory keeps the pointer it is given: whatever the caller
    does to the event after logging it, through its builder say, is what later
    queries find, and an event logged twice is one event with one identifier. *)
Theorem logged_event_changes `{SortSlice} cfg id id' now h p f h1 h3 st1 st3 err1 err3 :
  id <> "" ->
  Log cfg id now [] h (Some (NewMemoryStore 10)) p = (h1, st1, err1) ->
  Log cfg id' now [] h1 st1 p = (h3, st3, err3) ->
  (exists st, st1 = Some st /\ map (build f h1 p) (events st) = [f (prepared cfg id now (h p))]) /\
  (exists st, st3 = Some st /\ events st = [p; p] /\ ID (h3 p) = ID (h1 p)).
Proof.
  unfold Log, processEvent, prepareEvent. cbn. intros Hid [= <- <- <-] [= <- <- <-]. split.
  - eexists. split; [reflexivity|].
    change (events (MemoryStore_Store (NewMemoryStore 10) p)) with [p].
    cbn [map]. unfold build, set_event. by rewrite !Nat.eqb_refl.
  - eexists. split; [reflexivity|]. split; [reflexivity|]. unfold set_event. rewrite !Nat.eqb_refl.
    cbn [ID prepared]. unfold or_config.
    destruct (String.eqb (ID (h p)) "") eqn:E; [|by rewrite E]. by apply String.eqb_neq in Hid as ->.
Qed.

#[local] Existing Instance insertion.

Lemma logged_event_changes_witness :
  let '(h1, st1, _) := Log (mkConfig "" "" "" 0 0) "a1" 5 [] (fun _ => NewEvent "user.login") (Some (NewMemoryStore 10)) 0%nat in
  exists st, st1 = Some st /\
    map Action (map (build (fun e => NewEvent "other") h1 0%nat) (events st)) = ["other"].
Proof.
  destruct (Log (mkConfig "" "" "" 0 0) "a1" 5 [] (fun _ => NewEvent "user.login") (Some (NewMemoryStore 10)) 0%nat)
    as [[h1 st1] err1] eqn:E1.
  destruct (Log (mkConfig "" "" "" 0 0) "a2" 5 [] h1 st1 0%nat) as [[h3 st3] err3] eqn:E3.
  destruct (proj1 (logged_event_changes _ "a1" "a2" 5 (fun _ => NewEvent "user.login") 0%nat
    (fun e => NewEvent "other") h1 h3 st1 st3 err1 err3 ltac:(discriminate) E1 E3)) as (st & Hst & Hm).
  exists st. split; [exact Hst|]. by rewrite Hm.
Defined.

(** ** Theorems: identifiers *)

(** The two digits of a byte. *)
Definition hex_byte (v : Z) : string := String (hex_digit (Z.shiftr v 4)) (String (hex_digit (Z.land v 15)) "").

Definition hex (b : list Z) : string := foldr (fun v s => hex_byte v +:+ s) "" b.

Definition from_hex (c : ascii) : Z :=
  if is_digit c then byte_code c - 48 else byte_code c - 87.

Fixpoint unhex (s : string) : list Z :=
  match s with
  | String a (String b s) => from_hex a * 16 + from_hex b :: unhex s
  | _ => []
  end.

Lemma hex_byte_read v : 0 <= v < 256 -> from_hex (hex_digit (Z.shiftr v 4)) * 16 + from_hex (hex_digit (Z.land v 15)) = v.
Proof.
  intros Hv. assert (H : forallb (fun v => from_hex (hex_digit (Z.shiftr v 4)) * 16 + from_hex (hex_digit (Z.land v 15)) =? v)
    (seqZ 0 256) = true) by by vm_compute.
  rewrite forallb_forall in H. apply Z.eqb_eq, H, list_elem_of_In, elem_of_seqZ. lia.
Qed.

Lemma unhex_hex b : Forall (fun v => 0 <= v < 256) b -> unhex (hex b) = b.
Proof.
  intros Hb. induction Hb as [|v b Hv _ IH]; [done|]. unfold hex in *. cbn [foldr].
  unfold hex_byte at 1. cbn [String.append unhex]. by rewrite hex_byte_read, IH.
Qed.

(** The positions of the dashes. *)
Definition dashed (b : list Z) : string :=
  hex (take 4 b) +:+ "-" +:+ hex (take 2 (drop 4 b)) +:+ "-" +:+ hex (take 2 (drop 6 b)) +:+ "-" +:+
  hex (take 2 (drop 8 b)) +:+ "-" +:+ hex (drop 10 b).

Lemma formatUUID_dashed b : length b = 16%nat -> formatUUID b = dashed b.
Proof.
  intros Hl. do 16 (destruct b as [|? b]; [done|]). destruct b; [|done].
  unfold formatUUID, dashed, hex_byte. reflexivity.
Qed.

(** The digits, without the dashes. *)
Fixpoint undash (s : string) : string :=
  match s with
  | "" => ""
  | String c s => if Ascii.eqb c "-" then undash s else String c (undash s)
  end.

Lemma undash_app s t : undash (s +:+ t) = undash s +:+ undash t.
Proof. induction s as [|c s IH]; [done|]. cbn. rewrite IH. by destruct (Ascii.eqb c "-"). Qed.

Lemma undash_hex b : Forall (fun v => 0 <= v < 256) b -> undash (hex b) = hex b.
Proof.
  intros Hb. induction Hb as [|v b Hv _ IH]; [done|]. unfold hex in *. cbn [foldr]. rewrite undash_app, IH. f_equal.
  assert (H : forallb (fun v => String.eqb (undash (hex_byte v)) (hex_byte v)) (seqZ 0 256) = true) by by vm_compute.
  rewrite forallb_forall in H. apply String.eqb_eq, H, list_elem_of_In, elem_of_seqZ. lia.
Qed.

Lemma hex_app b c : hex (b ++ c) = hex b +:+ hex c.
Proof. induction b as [|v b IH]; [done|]. cbn [hex foldr app]. unfold hex in IH. by rewrite IH. Qed.

Definition byte_values (b : list Z) : Prop := Forall (fun v => 0 <= v < 256) b.

(** The identifier of sixteen bytes is their 32 digits with dashes after
    eight, twelve, sixteen and twenty, and the digits read back are the bytes:
    different bytes give different identifiers. *)
Theorem formatUUID_spec b :
  length b = 16%nat -> byte_values b ->
  formatUUID b = dashed b /\ String.length (formatUUID b) = 36%nat /\ unhex (undash (formatUUID b)) = b.
Proof.
  intros Hl Hb. rewrite formatUUID_dashed by done. split; [done|].
  assert (Hd : undash (dashed b) = hex b).
  { unfold dashed, byte_values in *. rewrite !undash_app, !undash_hex by auto using Forall_take, Forall_drop.
    clear Hb. do 16 (destruct b as [|? b]; [done|]). by destruct b. }
  split; [|rewrite Hd; by apply unhex_hex].
  do 16 (destruct b as [|? b]; [done|]). destruct b; [|done]. reflexivity.
Qed.

Lemma formatUUID_spec_witness :
  let b := set_version (uuid_bytes 16 0 1700000000123456789) in
  length b = 16%nat /\ byte_values b /\ unhex (undash (formatUUID b)) = b.
Proof.
  intros b. assert (Hb : byte_values b) by (vm_compute; repeat constructor; discriminate).
  split; [reflexivity|]. split; [exact Hb|]. exact (proj2 (proj2 (formatUUID_spec b eq_refl Hb))).
Defined.
