(* ===== verification/AuditHttp.v ===== *)
(** * Auditing requests

    [src/pantry/audit/middleware.go]: the middleware that records a request and
    its response, the helpers that build common events, the administration
    handler and [DiffChanges].

    A handler is the calls it makes on the response writer, in order, the request
    as it leaves it and whether it panics; what it does elsewhere is not this
    package's.  [None] is a panic, or a call that never returns. *)

From stdpp Require Import gmap strings.
From S2P Require Import Prelude GoStrings QueryString AuditStore AuditLogger.

#[local] Open Scope list_scope.

(** ** Queries with secrets *)

Definition sensitiveQueryParams : list string :=
  ["token"; "access_token"; "refresh_token"; "api_key"; "apikey"; "key"; "secret"; "password"; "passwd"; "auth";
   "authorization"; "bearer"; "session"; "session_id"; "sessionid"; "jwt"; "credential"; "credentials";
   "client_secret"; "code"; "state"].

Definition REDACTED : string := "[REDACTED]".

(** [lower] is [strings.ToLower], on all of Unicode. *)
Definition is_sensitive (lower : string -> string) (key : string) : bool :=
  bool_decide (lower key ∈ sensitiveQueryParams).

(** The loop over the keys only sets keys that are there. *)
Definition redact_key (lower : string -> string) (m : Values) (key : string) : Values :=
  if is_sensitive lower key then values_set m key REDACTED else m.

Definition sanitizeQuery (lower : string -> string) (rawQuery : string) : string :=
  if String.eqb rawQuery "" then ""
  else match ParseQuery rawQuery with
       | (_, false) => REDACTED
       | (values, true) => Encode (fold_left (redact_key lower) (map_to_list values).*1 values)
       end.

(** ** Requests and responses *)

Record Request := mkRequest {
  Method : string;
  URL_Path : string;
  RawQuery : string;
  (** [Header.Get]: empty where the header is not there *)
  header_get : string -> string;
  RemoteAddr : string;
  (** [None]: no body; the flag: reading ends in an error, not in EOF *)
  Body : option (string * bool)
}.

Definition with_body (r : Request) (b : option (string * bool)) : Request :=
  mkRequest (Method r) (URL_Path r) (RawQuery r) (header_get r) (RemoteAddr r) b.

(** A call on the response writer; of a [Write], how many bytes the writer
    underneath said it wrote. *)
Inductive call : Type :=
  | WriteHeader (status : Z)
  | Write (b : string) (n : Z).

Record responseWriter := mkRW { status : Z; written : Z; captureBody : bool; maxBodySize : Z; body : string }.

Definition rw_WriteHeader (w : responseWriter) (s : Z) : responseWriter :=
  mkRW s (written w) (captureBody w) (maxBodySize w) (body w).

Definition rw_Write (w : responseWriter) (b : string) (n : Z) : responseWriter :=
  let st := if status w =? 0 then 200 else status w in
  let bd :=
    if captureBody w && (strlen (body w) <? maxBodySize w) then
      let remaining := maxBodySize w - strlen (body w) in
      if strlen b <=? remaining then body w +:+ b else body w +:+ str_take (Z.to_nat remaining) b
    else body w in
  mkRW st (int_add (written w) n) (captureBody w) (maxBodySize w) bd.

Definition rw_step (w : responseWriter) (c : call) : responseWriter :=
  match c with WriteHeader s => rw_WriteHeader w s | Write b n => rw_Write w b n end.

Record handled := mkHandled { calls : list call; left : Request; panicked : bool }.

Definition handler : Type := Request -> handled.

(** ** The client *)

Definition getClientIP (r : Request) : string :=
  let xff := header_get r "X-Forwarded-For" in
  if negb (String.eqb xff "") then TrimSpace (hd "" (split_byte "," xff))
  else
    let xri := header_get r "X-Real-IP" in
    if negb (String.eqb xri "") then xri
    else match cut_last_byte ":" (RemoteAddr r) with
         | Some (ip, _) => ip
         | None => RemoteAddr r
         end.

Definition extractActorFromRequest (r : Request) (userIDHeader : string) : Actor :=
  mkActor (header_get r userIDHeader) "user" "" "" (getClientIP r) (header_get r "User-Agent") "".

(** ** The middleware *)

Record MiddlewareConfig := mkMiddlewareConfig {
  has_logger : bool;
  ActorExtractor : option (Request -> option Actor);
  ActionMapper : option (Request -> string);
  ResourceExtractor : option (Request -> option Resource);
  ShouldAudit : option (Request -> bool);
  SkipPaths : list string;
  SkipMethods : list string;
  CaptureRequestBody : bool;
  CaptureResponseBody : bool;
  MaxBodySize : Z;
  UserIDHeader : string;
  RequestIDHeader : string;
  cfg_Tags : list string
}.

Definition DefaultMiddlewareConfig (logger : bool) : MiddlewareConfig :=
  mkMiddlewareConfig logger None None None None [] [] false false (10 * 1024) "X-User-ID" "X-Request-ID" [].

(** The defaults [Middleware] fills in. *)
Definition normal (cfg : MiddlewareConfig) : MiddlewareConfig :=
  mkMiddlewareConfig (has_logger cfg) (ActorExtractor cfg) (ActionMapper cfg) (ResourceExtractor cfg) (ShouldAudit cfg)
    (SkipPaths cfg) (SkipMethods cfg) (CaptureRequestBody cfg) (CaptureResponseBody cfg)
    (if MaxBodySize cfg <=? 0 then 10 * 1024 else MaxBodySize cfg)
    (if String.eqb (UserIDHeader cfg) "" then "X-User-ID" else UserIDHeader cfg)
    (if String.eqb (RequestIDHeader cfg) "" then "X-Request-ID" else RequestIDHeader cfg) (cfg_Tags cfg).

Section middleware.
(** [strings.ToLower] and [strings.ToUpper] on all of Unicode, [json.Unmarshal]
    into an [any], [http.StatusText]. *)
Context (lower upper : string -> string) (unmarshal : string -> option value) (StatusText : Z -> string).

Definition should_skip (cfg : MiddlewareConfig) (r : Request) : bool :=
  bool_decide (URL_Path r ∈ SkipPaths cfg) || bool_decide (Method r ∈ map upper (SkipMethods cfg)) ||
  match ShouldAudit cfg with Some f => negb (f r) | None => false end.

(** The part of the body that is recorded, and the request the handler gets. *)
Definition capture_request (cfg : MiddlewareConfig) (r : Request) : string * Request :=
  match CaptureRequestBody cfg, Body r with
  | true, Some (b, _) => let b := str_take (Z.to_nat (MaxBodySize cfg)) b in (b, with_body r (Some (b, false)))
  | _, _ => ("", r)
  end.

Definition body_value (b : string) : value := default (VStr b) (unmarshal b).

Definition milliseconds (d : Duration) : Z := Z.quot d 1000000.

Definition metadata_of (r : Request) (rw : responseWriter) (elapsed : Duration) (requestBody : string) : gmap string value :=
  let m : gmap string value := {[
    "http.method" := VStr (Method r);
    "http.path" := VStr (URL_Path r);
    "http.query" := VStr (sanitizeQuery lower (RawQuery r));
    "http.status" := VInt (status rw);
    "http.duration_ms" := VInt (milliseconds elapsed) ]} in
  let m := if String.eqb requestBody "" then m else <["http.request_body" := body_value requestBody]> m in
  if String.eqb (body rw) "" then m else <["http.response_body" := body_value (body rw)]> m.

Definition outcome_of (status : Z) : Outcome := if 400 <=? status then OutcomeFailure else OutcomeSuccess.

Definition buildEventFromRequest (r : Request) (rw : responseWriter) (cfg : MiddlewareConfig) (start now : Time)
    (requestBody : string) : Event :=
  let action := match ActionMapper cfg with Some f => f r | None => Method r +:+ " " +:+ URL_Path r end in
  let actor := match ActorExtractor cfg with
               | Some f => f r
               | None => Some (extractActorFromRequest r (UserIDHeader cfg)) end in
  let resource := match ResourceExtractor cfg with Some f => f r | None => None end in
  let outcome := outcome_of (status rw) in
  let reason := if String.eqb outcome OutcomeFailure then StatusText (status rw) else "" in
  mkEvent "" start action actor resource
    (Some (mkEventContext (header_get r (RequestIDHeader cfg)) "" "" "" "" "")) outcome reason []
    (metadata_of r rw (time_Sub now start) requestBody) (cfg_Tags cfg).

(** What a request leads to: the request the handler saw, the calls that reached
    the server's writer, the event given to [LogAsync], and whether it panicked. *)
Record served := mkServed { seen : Request; sent : list call; logged : option Event; crashed : bool }.

Definition Middleware (cfg : MiddlewareConfig) (next : handler) (start now : Time) (r : Request) : served :=
  let cfg := normal cfg in
  if should_skip cfg r then
    let d := next r in mkServed r (calls d) None (panicked d)
  else
    let '(requestBody, r) := capture_request cfg r in
    let d := next r in
    let rw := fold_left rw_step (calls d) (mkRW 0 0 (CaptureResponseBody cfg) (MaxBodySize cfg) "") in
    mkServed r (calls d)
      (if panicked d || negb (has_logger cfg) then None
       else Some (buildEventFromRequest (left d) rw cfg start now requestBody)) (panicked d).

(** [AuditHandler]: nothing is captured; its event has no resource. *)
Definition AuditHandler (action : string) (next : handler) (start now : Time) (r : Request) : served :=
  let d := next r in
  let rw := fold_left rw_step (calls d) (mkRW 0 0 false 0 "") in
  let e := WithMetadata "http.duration_ms" (VInt (milliseconds (time_Sub now start)))
    (WithMetadata "http.status" (VInt (status rw))
      (WithRequestID (header_get (left d) "X-Request-ID")
        (WithActor (Some (extractActorFromRequest (left d) "X-User-ID")) (NewEvent action)))) in
  let e := if String.eqb (outcome_of (status rw)) OutcomeSuccess then Success e else Failure (StatusText (status rw)) e in
  mkServed r (calls d) (if panicked d then None else Some e) (panicked d).
End middleware.

(** ** Events of a handler *)

Record RequestAuditor := mkRequestAuditor { request : Request; actor : option Actor }.

Definition NewRequestAuditor (r : Request) : RequestAuditor :=
  mkRequestAuditor r (Some (extractActorFromRequest r "X-User-ID")).

Definition RA_WithActor (a : RequestAuditor) (actor : option Actor) : RequestAuditor :=
  mkRequestAuditor (request a) actor.

Definition auditor_event (a : RequestAuditor) (action : string) (resource : option Resource) (outcome : Outcome)
    (reason : string) (changes : list Change) (metadata : gmap string value) : Event :=
  mkEvent "" zero_time action (actor a) resource
    (Some (mkEventContext (header_get (request a) "X-Request-ID") "" "" "" "" "")) outcome reason changes metadata [].

(** The event each method hands to the logger's [Log]. *)
Definition RA_Log (a : RequestAuditor) (action : string) (resource : option Resource) (outcome : Outcome)
    (metadata : gmap string value) : Event := auditor_event a action resource outcome "" [] metadata.
Definition LogSuccess (a : RequestAuditor) (action : string) (resource : option Resource) : Event :=
  RA_Log a action resource OutcomeSuccess ∅.
Definition LogFailure (a : RequestAuditor) (action : string) (resource : option Resource) (reason : string) : Event :=
  auditor_event a action resource OutcomeFailure reason [] ∅.
Definition LogCreate (a : RequestAuditor) (resourceType resourceID : string) : Event :=
  LogSuccess a (resourceType +:+ ".create") (Some (mkResource resourceID resourceType "")).
Definition LogRead (a : RequestAuditor) (resourceType resourceID : string) : Event :=
  LogSuccess a (resourceType +:+ ".read") (Some (mkResource resourceID resourceType "")).
Definition LogUpdate (a : RequestAuditor) (resourceType resourceID : string) (changes : list Change) : Event :=
  auditor_event a (resourceType +:+ ".update") (Some (mkResource resourceID resourceType "")) OutcomeSuccess "" changes ∅.
Definition LogDelete (a : RequestAuditor) (resourceType resourceID : string) : Event :=
  LogSuccess a (resourceType +:+ ".delete") (Some (mkResource resourceID resourceType "")).

Definition ActionUserLogin : string := "user.login".
Definition ActionUserLogout : string := "user.logout".

(** The events given to [LogAsync]. *)
Definition LogUserLogin (userID userName ip userAgent : string) (success : bool) : Event :=
  let e := WithUserAgent userAgent (WithIP ip (WithActorUser userID userName "" (NewEvent ActionUserLogin))) in
  if success then Success e else Failure "invalid credentials" e.
Definition LogUserLogout (userID userName : string) : Event :=
  Success (WithActorUser userID userName "" (NewEvent ActionUserLogout)).
Definition LogResourceChange (a : option Actor) (resourceType resourceID : string) (changes : list Change) : Event :=
  Success (WithChanges changes (WithResourceID resourceType resourceID
    (WithActor a (NewEvent (resourceType +:+ ".update"))))).

(** ** The administration handler *)

Inductive reply : Type :=
  | Reply_error (status : Z) (message : string)
  | Reply_result (r : QueryResult).

(** [parse_time] is [time.Parse] with RFC 3339, [message] an error's text. *)
Definition handleQuery_query (parse_time : string -> option Time) (rawQuery : string) : Query :=
  let q k := values_get (URL_Query rawQuery) k in
  let t k := if String.eqb (q k) "" then zero_time else default zero_time (parse_time (q k)) in
  mkQuery (q "actor_id") (q "actor_type") (q "resource_id") (q "resource_type") (q "action") [] (q "outcome") []
    (t "from") (t "to") 100 0 "" false.

Definition with_limit (q : Query) (limit : Z) : Query :=
  mkQuery (ActorID q) (ActorType q) (ResourceID q) (ResourceType q) (q_Action q) (Actions q) (q_Outcome q) (q_Tags q)
    (From q) (To q) limit (Offset q) (OrderBy q) (OrderDesc q).

Section admin.
Context {S : Type} `{Store S}.
Context (parse_time : string -> option Time) (message : audit_error -> string) (decode : string -> option Query).

Definition answer_query (h : heap) (store : option S) (q : Query) : option reply :=
  match Logger_Query h store q with
  | Some (Ok r) => Some (Reply_result r)
  | Some (Err e) => Some (Reply_error 500 (message e))
  | None => None
  end.

Definition handleQuery (h : heap) (store : option S) (r : Request) : option reply :=
  answer_query h store (handleQuery_query parse_time (RawQuery r)).

Definition handleSearch (h : heap) (store : option S) (r : Request) : option reply :=
  match Body r with
  | Some (b, _) =>
      match decode b with
      | None => Some (Reply_error 400 "Invalid JSON")
      | Some q => answer_query h store (if Limit q <=? 0 then with_limit q 100 else q)
      end
  | None => None
  end.

Definition AdminHandler_ServeHTTP (h : heap) (store : option S) (r : Request) : option reply :=
  if String.eqb (Method r) "GET" then handleQuery h store r
  else if String.eqb (Method r) "POST" then handleSearch h store r
  else Some (Reply_error 405 "Method not allowed").
End admin.

(** ** Differences *)

(** [a == b] on values of type [any]: comparing two maps, or two slices, panics. *)
Definition equal (a b : value) : option bool :=
  match a, b with
  | VSlice _, VSlice _ | VMap _, VMap _ => None
  | _, _ => Some (bool_decide (a = b))
  end.

(** [order] is the order in which [range] takes the keys of a map. *)
Fixpoint diff_new (old new : gmap string value) (order : list string) : option (list Change) :=
  match order with
  | [] => Some []
  | k :: order =>
      let newVal := default VNil (new !! k) in
      match old !! k with
      | None => cons (mkChange k VNil newVal) <$> diff_new old new order
      | Some oldVal =>
          match equal oldVal newVal with
          | None => None
          | Some true => diff_new old new order
          | Some false => cons (mkChange k oldVal newVal) <$> diff_new old new order
          end
      end
  end.

Definition diff_old (old new : gmap string value) (order : list string) : list Change :=
  omap (fun k => match new !! k with
                 | Some _ => None
                 | None => Some (mkChange k (default VNil (old !! k)) VNil)
                 end) order.

Definition DiffChanges (old new : gmap string value) (order_new order_old : list string) : option (list Change) :=
  match diff_new old new order_new with
  | None => None
  | Some changes => Some (changes ++ diff_old old new order_old)
  end.

(** ** Lemmas: redacting *)

Lemma redact_lookup lower ks (m : Values) k :
  fold_left (redact_key lower) ks m !! k =
    if decide (k ∈ ks) then (if is_sensitive lower k then Some [REDACTED] else m !! k) else m !! k.
Proof.
  revert m. induction ks as [|k' ks IH]; intros m; [done|]. cbn [fold_left]. rewrite IH. clear IH.
  unfold redact_key. destruct (decide (k' = k)) as [->|Hne].
  - rewrite (decide_True (P := k ∈ k :: ks)) by (by left). destruct (is_sensitive lower k) eqn:E.
    + unfold values_set. rewrite lookup_insert_eq. by destruct (decide _).
    + by destruct (decide _).
  - assert (Hm : (if is_sensitive lower k' then values_set m k' REDACTED else m) !! k = m !! k)
      by (destruct (is_sensitive lower k'); [unfold values_set; by rewrite lookup_insert_ne|done]).
    rewrite Hm. destruct (decide (k ∈ ks)) as [Hin|Hin].
    + by rewrite decide_True by (by right).
    + rewrite decide_False; [done|]. by intros [->|?]%elem_of_cons.
Qed.

Lemma redact_full lower ks (m : Values) : full m -> full (fold_left (redact_key lower) ks m).
Proof.
  revert m. induction ks as [|k ks IH]; intros m Hm; [done|]. apply IH. unfold redact_key.
  destruct (is_sensitive lower k); [by apply full_insert|done].
Qed.

(** ** Lemmas: the response *)

Definition call_bytes (c : call) : string := match c with Write b _ => b | WriteHeader _ => "" end.
Definition bytes_of (l : list call) : string := foldr (fun c s => call_bytes c +:+ s) "" l.

Lemma str_take_app_eq n s t : str_take n (s +:+ t) = str_take n s +:+ str_take (n - String.length s) t.
Proof. revert n. induction s as [|c s IH]; intros [|n]; try done. cbn. by rewrite IH. Qed.

(** What has been captured of the bytes written. *)
Definition captured (w : responseWriter) (all : string) : Prop := body w = str_take (Z.to_nat (maxBodySize w)) all.

Lemma rw_step_captured w all c :
  captureBody w = true -> captured w all ->
  captureBody (rw_step w c) = true /\ maxBodySize (rw_step w c) = maxBodySize w /\ captured (rw_step w c) (all +:+ call_bytes c).
Proof.
  unfold captured. intros Hc Hb. destruct c as [s|b n]; cbn [rw_step call_bytes].
  - by rewrite string_app_nil_r.
  - unfold rw_Write. cbn [captureBody maxBodySize body]. split; [done|]. split; [done|]. rewrite Hc. cbn [andb].
    rewrite str_take_app_eq, <- Hb. unfold strlen.
    assert (Hl : String.length (body w) = (Z.to_nat (maxBodySize w) `min` String.length all)%nat) by (by rewrite Hb, str_take_length).
    destruct (Z.ltb_spec (Z.of_nat (String.length (body w))) (maxBodySize w)) as [H|H].
    + assert (Ha : String.length (body w) = String.length all) by lia. rewrite <- Ha.
      destruct (Z.leb_spec (Z.of_nat (String.length b)) (maxBodySize w - Z.of_nat (String.length (body w)))) as [H'|H'].
      * rewrite str_take_all; [done|lia].
      * do 2 f_equal. lia.
    + replace (Z.to_nat (maxBodySize w) - String.length all)%nat with 0%nat by lia. by rewrite string_app_nil_r.
Qed.

Lemma rw_steps_captured l w all :
  captureBody w = true -> captured w all -> captured (fold_left rw_step l w) (all +:+ bytes_of l) /\
  maxBodySize (fold_left rw_step l w) = maxBodySize w.
Proof.
  revert w all. induction l as [|c l IH]; intros w all Hc Hb; cbn [fold_left bytes_of foldr].
  - by rewrite string_app_nil_r.
  - destruct (rw_step_captured w all c Hc Hb) as (H1 & H2 & H3). rewrite string_app_assoc.
    destruct (IH (rw_step w c) (all +:+ call_bytes c) H1 H3) as [H4 H5]. split; [exact H4|congruence].
Qed.

(** The status the server sends ([net/http]): that of the first call that is not
    informational, 200 where a [Write] or the end comes first. *)
Fixpoint wire_status (l : list call) : Z :=
  match l with
  | [] | Write _ _ :: _ => 200
  | WriteHeader s :: l => if (100 <=? s) && (s <? 200) && negb (s =? 101) then wire_status l else s
  end.

Definition is_write (c : call) : bool := match c with Write _ _ => true | WriteHeader _ => false end.

(** A handler that writes its header first, once, or leaves it to [Write]. *)
Definition orderly (l : list call) : Prop :=
  match l with
  | WriteHeader s :: l => 200 <= s /\ Forall (fun c => is_write c = true) l
  | Write _ _ :: _ => Forall (fun c => is_write c = true) l
  | [] => False
  end.

Lemma writes_status l w :
  Forall (fun c => is_write c = true) l -> status w <> 0 -> status (fold_left rw_step l w) = status w.
Proof.
  intros Hl. revert w. induction Hl as [|c l Hc _ IH]; intros w Hw; [done|]. destruct c as [s|b n]; [done|].
  cbn [fold_left rw_step]. assert (Hs : status (rw_Write w b n) = status w)
    by (unfold rw_Write; cbn [status]; by rewrite (proj2 (Z.eqb_neq _ _) Hw)).
  by rewrite IH; rewrite Hs.
Qed.

Lemma orderly_status l cap m : orderly l -> status (fold_left rw_step l (mkRW 0 0 cap m "")) = wire_status l.
Proof.
  destruct l as [|[s|b n] l]; [done| |]; cbn [orderly].
  - intros [Hs Hl]. cbn [fold_left rw_step wire_status]. rewrite writes_status; [|done|cbn; lia].
    rewrite (proj2 (Z.ltb_ge _ _)) by lia. by rewrite andb_false_r.
  - intros Hl. apply Forall_cons_1 in Hl as [_ Hl]. cbn [fold_left]. by rewrite writes_status.
Qed.

(** ** Lemmas: differences *)

Definition apply_change (m : gmap string value) (c : Change) : gmap string value :=
  match NewValue c with VNil => delete (Field c) m | v => <[Field c := v]> m end.

Lemma equal_true a b : equal a b = Some true -> a = b.
Proof.
  intros H. assert (E : bool_decide (a = b) = true) by (destruct a, b; first [done | by injection H]).
  by apply bool_decide_eq_true in E.
Qed.

Lemma diff_new_fields old new order cs :
  diff_new old new order = Some cs ->
  forall k, k ∈ map Field cs <-> k ∈ order /\ (old !! k = None \/ equal (default VNil (old !! k)) (default VNil (new !! k)) = Some false).
Proof.
  revert cs. induction order as [|k' order IH]; intros cs H k; cbn in H.
  - injection H as <-. cbn. set_solver.
  - rewrite elem_of_cons. destruct (old !! k') as [a|] eqn:Ho.
    + destruct (equal a (default VNil (new !! k'))) as [[]|] eqn:E; [| |done].
      * rewrite (IH _ H). split; [naive_solver|]. intros [[->|Hk] Hd]; [|by split]. rewrite Ho in Hd. cbn in Hd.
        destruct Hd as [Hd|Hd]; [done|congruence].
      * destruct (diff_new old new order) as [cs'|]; [|done]. injection H as <-. cbn [map Field]. rewrite elem_of_cons, (IH cs' eq_refl).
        split; [|naive_solver]. intros [->|?]; [|naive_solver]. split; [by left|]. right. by rewrite Ho.
    + destruct (diff_new old new order) as [cs'|]; [|done]. injection H as <-. cbn [map Field]. rewrite elem_of_cons, (IH cs' eq_refl).
      split; naive_solver.
Qed.

Lemma diff_new_changes old new order cs :
  diff_new old new order = Some cs ->
  Forall (fun c => OldValue c = default VNil (old !! Field c) /\ NewValue c = default VNil (new !! Field c)) cs.
Proof.
  revert cs. induction order as [|k order IH]; intros cs H; cbn in H; [injection H as <-; constructor|].
  destruct (old !! k) as [a|] eqn:Ho.
  - destruct (equal a (default VNil (new !! k))) as [[]|] eqn:E; [by apply IH| |done].
    destruct (diff_new old new order) as [cs'|]; [|done]. injection H as <-. constructor; [cbn; by rewrite Ho|by apply IH].
  - destruct (diff_new old new order) as [cs'|]; [|done]. injection H as <-. constructor; [cbn; by rewrite Ho|by apply IH].
Qed.

Lemma diff_old_fields old new order k : k ∈ map Field (diff_old old new order) <-> k ∈ order /\ new !! k = None.
Proof.
  unfold diff_old. induction order as [|k' order IH]; [cbn; set_solver|]. cbn [omap list_omap]. rewrite elem_of_cons.
  destruct (new !! k') as [v|] eqn:E.
  - rewrite IH. naive_solver.
  - cbn [map Field]. rewrite elem_of_cons, IH. naive_solver.
Qed.

Lemma diff_old_changes old new order :
  Forall (fun c => OldValue c = default VNil (old !! Field c) /\ NewValue c = default VNil (new !! Field c)) (diff_old old new order).
Proof.
  unfold diff_old. induction order as [|k order IH]; [constructor|]. cbn [omap list_omap].
  destruct (new !! k) eqn:E; [done|]. constructor; [|done]. cbn. by rewrite E.
Qed.

Lemma diff_new_none old new order :
  diff_new old new order = None <->
  exists k a, k ∈ order /\ old !! k = Some a /\ equal a (default VNil (new !! k)) = None.
Proof.
  induction order as [|k order IH]; cbn [diff_new]; [split; [done|intros (? & ? & ? & _); set_solver]|].
  assert (Hmap : forall c (o : option (list Change)), cons c <$> o = None <-> o = None) by (intros ? []; by cbn).
  destruct (old !! k) as [a|] eqn:Ho.
  - destruct (equal a (default VNil (new !! k))) as [[]|] eqn:E.
    + rewrite IH. split; [intros (k' & b & ? & ?); exists k', b; by rewrite elem_of_cons; auto|].
      intros (k' & b & [->|?]%elem_of_cons & Hb & He); [congruence|by exists k', b].
    + rewrite Hmap, IH. split; [intros (k' & b & ? & ?); exists k', b; by rewrite elem_of_cons; auto|].
      intros (k' & b & [->|?]%elem_of_cons & Hb & He); [congruence|by exists k', b].
    + split; [|done]. intros _. exists k, a. by rewrite elem_of_cons; auto.
  - rewrite Hmap, IH. split; [intros (k' & b & ? & ?); exists k', b; by rewrite elem_of_cons; auto|].
    intros (k' & b & [->|?]%elem_of_cons & Hb & He); [congruence|by exists k', b].
Qed.

(** Applying changes: each field takes its last change's value. *)
Lemma apply_other cs m k : k ∉ map Field cs -> fold_left apply_change cs m !! k = m !! k.
Proof.
  revert m. induction cs as [|c cs IH]; intros m Hk; [done|]. cbn [fold_left map] in *. apply not_elem_of_cons in Hk as [Hne Hk].
  rewrite IH by done. unfold apply_change. destruct (NewValue c); by rewrite ?lookup_delete_ne, ?lookup_insert_ne by done.
Qed.

Definition non_nil (v : value) : option value := match v with VNil => None | v => Some v end.

Lemma apply_values (f : string -> value) cs m k :
  Forall (fun c => NewValue c = f (Field c)) cs -> k ∈ map Field cs ->
  fold_left apply_change cs m !! k = non_nil (f k).
Proof.
  intros Hf. revert m. induction Hf as [|c cs Hc _ IH]; intros m Hk; cbn in Hk; [set_solver|]. cbn [fold_left].
  destruct (decide (k ∈ map Field cs)) as [Hin|Hin]; [by apply IH|].
  apply elem_of_cons in Hk as [->|Hk]; [|done]. rewrite apply_other by done. unfold apply_change. rewrite <- Hc.
  destruct (NewValue c); rewrite ?lookup_insert_eq, ?lookup_delete_eq; done.
Qed.

(** ** Theorems *)

(** What is recorded of a query that parses is the query with the values of
    every sensitive key, in any case, replaced by one mark, and every other key
    as it was; of a query that does not parse, nothing. *)
Theorem sanitizeQuery_redacts lower q m ok :
  ParseQuery q = (m, ok) ->
  (ok = false -> sanitizeQuery lower q = REDACTED) /\
  (ok = true -> exists m', ParseQuery (sanitizeQuery lower q) = (m', true) /\
     forall k, m' !! k = if is_sensitive lower k then const [REDACTED] <$> m !! k else m !! k).
Proof.
  intros Hq. unfold sanitizeQuery. rewrite Hq. destruct (String.eqb_spec q "") as [->|Hne].
  - injection Hq as <- <-. split; [done|]. intros _. exists ∅. split; [done|]. intros k. rewrite !lookup_empty. by destruct (is_sensitive _ _).
  - split; intros ->; [done|]. pose proof (ParseQuery_full q) as Hf. rewrite Hq in Hf. cbn [fst] in Hf.
    eexists. split; [by apply ParseQuery_Encode, redact_full|]. intros k. rewrite redact_lookup.
    assert (Hk : k ∈ (map_to_list m).*1 <-> is_Some (m !! k)) by by apply keys_elem.
    destruct (decide (k ∈ (map_to_list m).*1)) as [H|H].
    + apply Hk in H as [v Hv]. rewrite Hv. done.
    + destruct (m !! k) eqn:E; [|by destruct (is_sensitive lower k)]. destruct H. by apply Hk.
Qed.

Lemma sanitizeQuery_redacts_witness :
  exists m', ParseQuery (sanitizeQuery ToLower "q=x&Token=abc&Token=d%26") = (m', true) /\
    m' !! "Token" = Some ["[REDACTED]"] /\ m' !! "q" = Some ["x"].
Proof.
  destruct (proj2 (sanitizeQuery_redacts ToLower "q=x&Token=abc&Token=d%26" _ true (surjective_pairing _)) eq_refl) as (m' & H1 & H2).
  exists m'. split; [exact H1|]. rewrite !H2. split; vm_compute; reflexivity.
Defined.

Section middleware_theorems.
Context (lower upper : string -> string) (unmarshal : string -> option value) (StatusText : Z -> string).
#[local] Notation serve := (Middleware lower upper unmarshal StatusText).

(** A handler behind the middleware that captures request bodies gets at most
    the first [MaxBodySize] bytes of the body, and no error after them: of a
    longer body, or one whose reading fails, it cannot tell that a part is
    missing. *)
Theorem body_truncated cfg next start now r b broken :
  should_skip upper (normal cfg) r = false -> CaptureRequestBody cfg = true -> Body r = Some (b, broken) ->
  Body (seen (serve cfg next start now r)) = Some (str_take (Z.to_nat (MaxBodySize (normal cfg))) b, false).
Proof. intros Hs Hc Hb. unfold Middleware. rewrite Hs. unfold capture_request. cbn [normal CaptureRequestBody]. by rewrite Hc, Hb. Qed.

(** An orderly handler that does not panic is recorded as it answered: the
    event has the status the server sends, failure from 400 on, and of the body,
    where that is captured, the first [MaxBodySize] bytes. *)
Theorem Middleware_records cfg next start now r :
  let v := serve cfg next start now r in
  let d := next (seen v) in
  should_skip upper (normal cfg) r = false -> has_logger cfg = true -> panicked d = false -> orderly (calls d) ->
  sent v = calls d /\
  exists e, logged v = Some e /\ Timestamp e = start /\
    Metadata e !! "http.status" = Some (VInt (wire_status (calls d))) /\
    e_Outcome e = (if 400 <=? wire_status (calls d) then OutcomeFailure else OutcomeSuccess) /\
    Metadata e !! "http.response_body" =
      (let b := str_take (Z.to_nat (MaxBodySize (normal cfg))) (bytes_of (calls d)) in
       if CaptureResponseBody cfg && negb (String.eqb b "") then Some (body_value unmarshal b) else None).
Proof.
  cbv zeta. unfold Middleware. intros Hs. rewrite Hs. destruct (capture_request (normal cfg) r) as [rb r'].
  cbn [seen sent logged]. intros Hl Hp Ho. split; [done|]. rewrite Hp. cbn [normal has_logger]. rewrite Hl. cbn [orb negb].
  eexists. split; [done|]. unfold buildEventFromRequest.
  set (rw := fold_left rw_step _ _).
  assert (Hst : status rw = wire_status (calls (next r'))) by by apply orderly_status.
  cbn [Timestamp Metadata e_Outcome]. split; [done|]. rewrite Hst. unfold metadata_of, outcome_of.
  split; [|split; [done|]].
  - rewrite <- Hst. destruct (String.eqb (body rw) ""), (String.eqb rb ""); by simplify_map_eq.
  - assert (Hb : body rw = if CaptureResponseBody cfg then str_take (Z.to_nat (MaxBodySize (normal cfg))) (bytes_of (calls (next r'))) else "").
    { unfold rw. cbn [normal CaptureResponseBody MaxBodySize]. destruct (CaptureResponseBody cfg) eqn:Ec.
      - set (w0 := mkRW _ _ _ _ _). destruct (rw_steps_captured (calls (next r')) w0 "" eq_refl) as [H1 H2].
        { unfold captured. cbn. by destruct (Z.to_nat _). }
        unfold captured in H1. by rewrite H2 in H1.
      - clear. generalize (calls (next r')). intros l. set (w0 := mkRW _ _ _ _ _).
        assert (H : captureBody w0 = false /\ body w0 = "") by done. revert H. generalize w0. clear w0.
        induction l as [|c l IH]; intros w [Hc Hb]; [done|]. cbn [fold_left]. apply IH. destruct c; [done|].
        cbn. unfold rw_Write. cbn. by rewrite Hc. }
    rewrite Hb. destruct (CaptureResponseBody cfg); cbn [andb].
    + destruct (String.eqb (str_take _ _) ""), (String.eqb rb ""); cbn [negb]; by simplify_map_eq.
    + change (String.eqb "" "") with true. cbv iota. destruct (String.eqb rb ""); by simplify_map_eq.
Qed.
End middleware_theorems.

Definition sample_request : Request := mkRequest "POST" "/login" "" (fun _ => "") "10.0.0.7:5123" (Some ("0123456789ab", false)).
Definition sample_config : MiddlewareConfig := mkMiddlewareConfig true None None None None [] [] true true 10 "" "" [].

Lemma body_truncated_witness :
  should_skip ToUpper (normal sample_config) sample_request = false /\
  Body (seen (Middleware ToLower ToUpper (fun _ => None) (fun _ => "") sample_config (fun r => mkHandled [] r false) 0 0 sample_request))
  = Some ("0123456789", false).
Proof.
  assert (H : should_skip ToUpper (normal sample_config) sample_request = false) by reflexivity. split; [exact H|].
  exact (body_truncated ToLower ToUpper (fun _ => None) (fun _ => "") sample_config _ 0 0 sample_request "0123456789ab" false H eq_refl eq_refl).
Defined.

Lemma Middleware_records_witness :
  let next r := mkHandled [WriteHeader 404; Write "no" 2] r false in
  exists e, logged (Middleware ToLower ToUpper (fun _ => None) (fun _ => "Not Found") sample_config next 5 9 sample_request) = Some e /\
    e_Outcome e = OutcomeFailure /\ Metadata e !! "http.response_body" = Some (VStr "no").
Proof.
  intros next.
  assert (Ho : orderly [WriteHeader 404; Write "no" 2]) by (split; [lia|repeat constructor]).
  destruct (Middleware_records ToLower ToUpper (fun _ => None) (fun _ => "Not Found") sample_config next 5 9 sample_request
    eq_refl eq_refl eq_refl Ho) as (_ & e & H1 & _ & _ & H2 & H3).
  exists e. split; [exact H1|]. split; [exact H2|exact H3].
Defined.

(** A handler that is not orderly is recorded with a status that was not
    sent: none where it writes nothing, the last of several headers, one it sets
    after the body. *)
Theorem status_not_sent cap m s t b n :
  200 <= s -> 200 <= t -> s <> t -> t <> 200 ->
  let recorded l := status (fold_left rw_step l (mkRW 0 0 cap m "")) in
  (recorded [] = 0 /\ wire_status [] = 200) /\
  (recorded [WriteHeader s; WriteHeader t] = t /\ wire_status [WriteHeader s; WriteHeader t] = s) /\
  (recorded [Write b n; WriteHeader t] = t /\ wire_status [Write b n; WriteHeader t] = 200).
Proof.
  intros Hs Ht _ _. cbn. rewrite (proj2 (Z.ltb_ge s 200)) by lia. by rewrite andb_false_r.
Qed.

(** The address recorded: what the client itself claims first in
    [X-Forwarded-For], where it sends that; otherwise [X-Real-IP]; otherwise the
    connection's address up to the port. *)
Theorem getClientIP_spec r ip rest port :
  let xff := header_get r "X-Forwarded-For" in
  (xff = ip +:+ "," +:+ rest -> string_has "," ip = false -> getClientIP r = TrimSpace ip) /\
  (xff = "" -> header_get r "X-Real-IP" <> "" -> getClientIP r = header_get r "X-Real-IP") /\
  (xff = "" -> header_get r "X-Real-IP" = "" -> RemoteAddr r = ip +:+ ":" +:+ port -> string_has ":" port = false ->
   getClientIP r = ip).
Proof.
  cbv zeta. unfold getClientIP. split; [|split].
  - intros -> Hip. rewrite (proj2 (String.eqb_neq _ _)) by (by destruct ip). cbn [negb].
    change ("," +:+ rest) with (String "," rest). by rewrite split_byte_app.
  - intros -> Hx. cbn [negb String.eqb]. by rewrite (proj2 (String.eqb_neq _ _)).
  - intros -> -> -> Hp. change (String.eqb "" "") with true. cbn [negb].
    change (":" +:+ port) with (String ":" port). by rewrite cut_last_app.
Qed.

Lemma getClientIP_spec_witness :
  getClientIP sample_request = "10.0.0.7" /\
  getClientIP (mkRequest "GET" "/" "" (fun k => if String.eqb k "X-Forwarded-For" then "1.2.3.4 ,9.9.9.9" else "") "[::1]:80" None)
  = "1.2.3.4".
Proof.
  split.
  - exact (proj2 (proj2 (getClientIP_spec sample_request "10.0.0.7" "" "5123")) eq_refl eq_refl eq_refl eq_refl).
  - rewrite (proj1 (getClientIP_spec (mkRequest "GET" "/" "" (fun k => if String.eqb k "X-Forwarded-For" then "1.2.3.4 ,9.9.9.9" else "")
      "[::1]:80" None) "1.2.3.4 " "9.9.9.9" "") eq_refl eq_refl). reflexivity.
Defined.

(** [DiffChanges], whatever order the maps are taken in: it panics exactly
    where a field is a map before and after, or a slice before and after; and
    otherwise applying the changes to the old map gives the new one, and each
    change has the old value of its field, which differs from the new. *)
Theorem DiffChanges_spec old new on oo :
  on ≡ₚ (map_to_list new).*1 -> oo ≡ₚ (map_to_list old).*1 ->
  (DiffChanges old new on oo = None <-> exists k a b, old !! k = Some a /\ new !! k = Some b /\ equal a b = None) /\
  (forall cs, DiffChanges old new on oo = Some cs -> (forall k, new !! k <> Some VNil) ->
     fold_left apply_change cs old = new /\
     Forall (fun c => OldValue c = default VNil (old !! Field c)) cs).
Proof.
  intros Hon Hoo.
  assert (Hn : forall k, k ∈ on <-> is_Some (new !! k)) by (intros k; by rewrite Hon, keys_elem).
  assert (Ho : forall k, k ∈ oo <-> is_Some (old !! k)) by (intros k; by rewrite Hoo, keys_elem).
  assert (Hnone : DiffChanges old new on oo = None <-> exists k a b, old !! k = Some a /\ new !! k = Some b /\ equal a b = None).
  { unfold DiffChanges. destruct (diff_new old new on) as [cs|] eqn:E.
    - split; [done|]. intros (k & a & b & Ha & Hb & He).
      assert (H : diff_new old new on = None) by (apply diff_new_none; exists k, a; rewrite Hb, Hn, Hb; by split_and!). congruence.
    - split; [|done]. intros _. apply diff_new_none in E as (k & a & [b Hb]%Hn & Ha & He). exists k, a, b. by rewrite Hb in He. }
  split; [exact Hnone|]. intros cs Hcs Hnil.
  assert (Hsome : forall k a b, old !! k = Some a -> new !! k = Some b -> equal a b <> None).
  { intros k a b Ha Hb He. rewrite (proj2 Hnone) in Hcs by (exists k, a, b; by split_and!). done. }
  clear Hnone. unfold DiffChanges in Hcs. destruct (diff_new old new on) as [c1|] eqn:E; [|done]. injection Hcs as <-.
  pose proof (Forall_app_2 _ _ _ (diff_new_changes _ _ _ _ E) (diff_old_changes old new oo)) as Hch.
  split; [|by eapply list.Forall_impl; [exact Hch|intros c [? _]]].
  apply map_eq. intros k. destruct (decide (k ∈ map Field (c1 ++ diff_old old new oo))) as [Hk|Hk].
  - rewrite (apply_values (fun k => default VNil (new !! k))); [|by eapply list.Forall_impl; [exact Hch|intros c [_ ?]]|done].
    specialize (Hnil k). destruct (new !! k) as [v|]; [|done]. by destruct v.
  - rewrite apply_other by done. rewrite map_app, elem_of_app, (diff_new_fields _ _ _ _ E), diff_old_fields, Hn, Ho in Hk.
    destruct (new !! k) as [b|] eqn:Hb.
    + destruct (old !! k) as [a|] eqn:Ha; [|destruct Hk; left; split; [by eexists|by left]]. cbn in Hk. f_equal. apply equal_true.
      specialize (Hsome k a b Ha Hb). destruct (equal a b) as [[|]|]; [done| |done]. destruct Hk. left. split; [by eexists|by right].
    + destruct (old !! k) eqn:Ha; [|done]. destruct Hk. right. split; [by eexists|done].
Qed.

Lemma DiffChanges_spec_witness :
  let old : gmap string value := {["a" := VInt 1; "b" := VStr "x"]} in
  let new : gmap string value := {["a" := VInt 2; "c" := VBool true]} in
  exists cs, DiffChanges old new ["a"; "c"] ["a"; "b"] = Some cs /\ fold_left apply_change cs old = new.
Proof.
  intros old new. eexists. split; [reflexivity|].
  refine (proj1 (proj2 (DiffChanges_spec old new ["a"; "c"] ["a"; "b"] _ _) _ eq_refl _)).
  - vm_compute; first [reflexivity | constructor].
  - vm_compute; first [reflexivity | constructor].
  - intros k. unfold new. intros H. apply lookup_insert_Some in H as [[_ H]|[_ H]]; [done|].
    by apply lookup_singleton_Some in H as [_ H].
Defined.

Lemma negative_offset `{SortSlice} h s q : Offset q < 0 -> MemoryStore_Query h s q = None.
Proof.
  intros Ho. unfold MemoryStore_Query, answer, paginate. cbv zeta. set (l := sortEvents _ _ _).
  rewrite (proj2 (Z.ltb_ge _ (Offset q))) by lia. unfold slice. by rewrite (proj2 (Z.leb_gt 0 (Offset q))).
Qed.

Lemma first_page `{SortSlice} h s q : Offset q = 0 -> 0 <= Limit q <= max_int64 -> exists r, MemoryStore_Query h s q = Some r.
Proof.
  intros Ho Hl. unfold MemoryStore_Query, answer, paginate. cbv zeta. set (l := sortEvents _ _ _). rewrite Ho.
  rewrite (proj2 (Z.ltb_ge _ 0)) by lia.
  assert (E : int_add 0 (Limit q) = Limit q) by (unfold int_add; rewrite wrap64_id; unfold in_int64, min_int64, max_int64 in *; lia).
  rewrite E. set (n := Z.of_nat (length l)). set (e := if 0 <? Limit q then _ else n).
  assert (He : 0 <= e <= n).
  { unfold e. cbv zeta. destruct (Z.ltb_spec 0 (Limit q)); [destruct (Z.ltb_spec n (Limit q))|]; lia. }
  rewrite slice_spec by (fold n; lia). by eexists.
Qed.

(** Over a store in memory, a query by GET is always answered; a search that
    is posted reaches the store with the offset its body gives, and a negative
    one panics in the handler, even when the store is empty. *)
Theorem admin_search_panics `{SortSlice} parse_time message decode h (st : MemoryStore) r :
  (Method r = "GET" -> exists res, AdminHandler_ServeHTTP parse_time message decode h (Some st) r = Some (Reply_result res)) /\
  (forall b q, Method r = "POST" -> Body r = Some (b, false) -> decode b = Some q -> Offset q < 0 ->
   AdminHandler_ServeHTTP parse_time message decode h (Some st) r = None).
Proof.
  unfold AdminHandler_ServeHTTP. split.
  - intros ->. change (String.eqb "GET" "GET") with true. cbv iota. unfold handleQuery, answer_query, Logger_Query.
    set (q := handleQuery_query _ _). destruct (first_page h st q eq_refl) as [res E]; [unfold q, max_int64; cbn; lia|].
    exists res. change (query_events h st q) with (Ok (E := audit_error) <$> MemoryStore_Query h st q). by rewrite E.
  - intros b q -> Hb Hd Ho. change (String.eqb "POST" "GET") with false. change (String.eqb "POST" "POST") with true. cbv iota.
    unfold handleSearch. rewrite Hb, Hd. unfold answer_query, Logger_Query.
    set (q' := if Limit q <=? 0 then _ else _).
    change (query_events h st q') with (Ok (E := audit_error) <$> MemoryStore_Query h st q').
    rewrite negative_offset; [done|]. unfold q'. by destruct (Limit q <=? 0).
Qed.
