(* ===== verification/Jwt.v ===== *)
(** * JSON web tokens

    [src/pantry/auth/jwt]: claims and their JSON ([jwt.go], [claims.go]), signing
    and verifying ([Signer]), the middleware and the checks of roles
    ([middleware.go]).

    The text of JSON and the two hash functions inside HMAC are not this
    package's: [print] and [parse] go between texts and the values [json], and
    [hmac] is HMAC-SHA256.  What [encoding/json] makes of a value for the package's
    types, which fields it leaves out, how it matches names and what it does with
    null, is written out.  A [json.Number] with a fraction or an exponent is
    [JNum]. *)

From stdpp Require Import strings gmap.
From S2P Require Import Prelude GoStrings Base64 Utf8 QueryString.

#[local] Open Scope list_scope.

(** ** JSON *)

Inductive json : Type :=
  | JNull
  | JBool (b : bool)
  | JInt (z : Z)
  | JNum (text : string)
  | JStr (s : string)
  | JArr (l : list json)
  | JObj (fields : list (string * json)).

(** Names are matched without regard to case; the Kelvin sign and the long s
    are cases of [k] and [s]. *)
Definition fold_rune (r : Z) : Z :=
  if (65 <=? r) && (r <=? 90) then r + 32
  else if r =? 8490 then 107
  else if r =? 383 then 115
  else r.

Definition fold_name (s : string) : list Z := map fold_rune (runes s).

Definition is_field (name key : string) : bool := bool_decide (fold_name key = runes name).

(** A string field: null leaves it. *)
Definition decode_string (j : json) (old : string) : option string :=
  match j with JStr s => Some s | JNull => Some old | _ => None end.

Fixpoint decode_strings_from (l : list json) (i : nat) (old : list string) : option (list string) :=
  match l with
  | [] => Some []
  | j :: l =>
      match decode_string j (default "" (old !! i)), decode_strings_from l (S i) old with
      | Some s, Some r => Some (s :: r)
      | _, _ => None
      end
  end.

Definition decode_strings (j : json) (old : list string) : option (list string) :=
  match j with
  | JArr l => decode_strings_from l 0 old
  | JNull => Some []
  | _ => None
  end.

(** ** Claims *)

(** [*Time]; [Audience] is a list. *)
Record Claims := mkClaims {
  Issuer : string;
  Subject : string;
  Audience : list string;
  ExpiresAt : option Time;
  NotBefore : option Time;
  IssuedAt : option Time;
  ID : string
}.

Definition no_claims : Claims := mkClaims "" "" [] None None None "".

Inductive jwt_error : Type :=
  | ErrInvalidToken | ErrInvalidSignature | ErrTokenExpired | ErrTokenNotYetValid | ErrMissingSecret
  | ErrUnsupportedAlg | ErrInvalidClaims.

#[export] Instance jwt_error_eq_dec : EqDecision jwt_error.
Proof. solve_decision. Defined.

Definition Valid (now : Time) (c : Claims) : option jwt_error :=
  if match ExpiresAt c with Some t => time_After now t | None => false end then Some ErrTokenExpired
  else if match NotBefore c with Some t => time_Before now t | None => false end then Some ErrTokenNotYetValid
  else None.

(** [t.Unix()] counts whole seconds. *)
Definition Unix (t : Time) : Z := t / Second.

Definition Time_MarshalJSON (t : Time) : json := JInt (Unix t).

Definition Time_UnmarshalJSON (j : json) : option Time :=
  match j with
  | JInt z => if in_int64 z then Some (time_Unix z) else None
  | _ => None
  end.

Definition Audience_MarshalJSON (a : list string) : json :=
  match a with [s] => JStr s | _ => JArr (map JStr a) end.

(** Null is a string that was not there. *)
Definition Audience_UnmarshalJSON (j : json) : option (list string) :=
  match decode_string j "" with
  | Some s => Some [s]
  | None => decode_strings j []
  end.

Definition Audience_Contains (a : list string) (aud : string) : bool := existsb (String.eqb aud) a.

(** A pointer: null makes it nil. *)
Definition decode_time (j : json) : option (option Time) :=
  match j with JNull => Some None | _ => Some <$> Time_UnmarshalJSON j end.

(** [omitempty]. *)
Definition field_string (name s : string) : list (string * json) := if String.eqb s "" then [] else [(name, JStr s)].
Definition field_time (name : string) (t : option Time) : list (string * json) :=
  match t with Some t => [(name, Time_MarshalJSON t)] | None => [] end.

Definition field_list (name : string) (l : list string) (j : json) : list (string * json) :=
  match l with [] => [] | _ => [(name, j)] end.

Definition claims_fields (c : Claims) : list (string * json) :=
  field_string "iss" (Issuer c) ++ field_string "sub" (Subject c) ++
  field_list "aud" (Audience c) (Audience_MarshalJSON (Audience c)) ++
  field_time "exp" (ExpiresAt c) ++ field_time "nbf" (NotBefore c) ++ field_time "iat" (IssuedAt c) ++
  field_string "jti" (ID c).

(** One member of an object; a name that is not a field's is passed over. *)
Definition claims_member (c : Claims) (kv : string * json) : option Claims :=
  let '(k, j) := kv in
  if is_field "iss" k then
    (fun s => mkClaims s (Subject c) (Audience c) (ExpiresAt c) (NotBefore c) (IssuedAt c) (ID c)) <$> decode_string j (Issuer c)
  else if is_field "sub" k then
    (fun s => mkClaims (Issuer c) s (Audience c) (ExpiresAt c) (NotBefore c) (IssuedAt c) (ID c)) <$> decode_string j (Subject c)
  else if is_field "aud" k then
    (fun a => mkClaims (Issuer c) (Subject c) a (ExpiresAt c) (NotBefore c) (IssuedAt c) (ID c)) <$> Audience_UnmarshalJSON j
  else if is_field "exp" k then
    (fun t => mkClaims (Issuer c) (Subject c) (Audience c) t (NotBefore c) (IssuedAt c) (ID c)) <$> decode_time j
  else if is_field "nbf" k then
    (fun t => mkClaims (Issuer c) (Subject c) (Audience c) (ExpiresAt c) t (IssuedAt c) (ID c)) <$> decode_time j
  else if is_field "iat" k then
    (fun t => mkClaims (Issuer c) (Subject c) (Audience c) (ExpiresAt c) (NotBefore c) t (ID c)) <$> decode_time j
  else if is_field "jti" k then
    (fun s => mkClaims (Issuer c) (Subject c) (Audience c) (ExpiresAt c) (NotBefore c) (IssuedAt c) s) <$> decode_string j (ID c)
  else Some c.

Fixpoint decode_members {C : Type} (member : C -> string * json -> option C) (c : C) (fields : list (string * json)) : option C :=
  match fields with
  | [] => Some c
  | kv :: fields => match member c kv with Some c => decode_members member c fields | None => None end
  end.

Definition decode_object {C : Type} (member : C -> string * json -> option C) (c : C) (j : json) : option C :=
  match j with
  | JObj fields => decode_members member c fields
  | JNull => Some c
  | _ => None
  end.

(** ** Other claims ([claims.go]) *)

Record UserClaims := mkUserClaims { u_Claims : Claims; UserID : string; Username : string; Email : string; Roles : list string }.

Definition HasRole (c : UserClaims) (role : string) : bool := existsb (String.eqb role) (Roles c).
Definition HasAnyRole (c : UserClaims) (roles : list string) : bool := existsb (HasRole c) roles.
Definition HasAllRoles (c : UserClaims) (roles : list string) : bool := forallb (HasRole c) roles.

Definition user_fields (c : UserClaims) : list (string * json) :=
  claims_fields (u_Claims c) ++ field_string "uid" (UserID c) ++ field_string "username" (Username c) ++
  field_string "email" (Email c) ++ field_list "roles" (Roles c) (JArr (map JStr (Roles c))).

Definition user_member (c : UserClaims) (kv : string * json) : option UserClaims :=
  let '(k, j) := kv in
  if is_field "uid" k then
    (fun s => mkUserClaims (u_Claims c) s (Username c) (Email c) (Roles c)) <$> decode_string j (UserID c)
  else if is_field "username" k then
    (fun s => mkUserClaims (u_Claims c) (UserID c) s (Email c) (Roles c)) <$> decode_string j (Username c)
  else if is_field "email" k then
    (fun s => mkUserClaims (u_Claims c) (UserID c) (Username c) s (Roles c)) <$> decode_string j (Email c)
  else if is_field "roles" k then
    (fun l => mkUserClaims (u_Claims c) (UserID c) (Username c) (Email c) l) <$> decode_strings j (Roles c)
  else (fun s => mkUserClaims s (UserID c) (Username c) (Email c) (Roles c)) <$> claims_member (u_Claims c) kv.

(** The claims a factory may make: the package's types, [CustomClaims] of an
    [any], and a type without a [Valid] method, a map. *)
Inductive any_claims : Type :=
  | StdClaims (c : Claims)
  | UsrClaims (c : UserClaims)
  | CustomClaims (c : Claims) (custom : json)
  | MapClaims (fields : list (string * json)).

Definition custom_member (c : Claims * json) (kv : string * json) : option (Claims * json) :=
  if is_field "custom" (fst kv) then Some (fst c, snd kv) else (fun s => (s, snd c)) <$> claims_member (fst c) kv.

Definition claims_json (a : any_claims) : json :=
  JObj match a with
       | StdClaims c => claims_fields c
       | UsrClaims c => user_fields c
       | CustomClaims c j => claims_fields c ++ match j with JNull => [] | _ => [("custom", j)] end
       | MapClaims fields => fields
       end.

(** [json.Unmarshal] into claims that a factory made. *)
Definition decode_claims (a : any_claims) (j : json) : option any_claims :=
  match a with
  | StdClaims c => StdClaims <$> decode_object claims_member c j
  | UsrClaims c => UsrClaims <$> decode_object user_member c j
  | CustomClaims c x => (fun p => CustomClaims (fst p) (snd p)) <$> decode_object custom_member (c, x) j
  | MapClaims fields => MapClaims <$> decode_object (fun l kv => Some (l ++ [kv])) fields j
  end.

(** The claims as a validator, where their type is one. *)
Definition validate (now : Time) (a : any_claims) : option jwt_error :=
  match a with
  | StdClaims c => Valid now c
  | UsrClaims c => Valid now (u_Claims c)
  | CustomClaims c _ => Valid now c
  | MapClaims _ => None
  end.

(** ** Building claims *)

Definition NewBuilder (now : Time) : Claims := mkClaims "" "" [] None None (Some now) "".

Definition with_Issuer (iss : string) (c : Claims) : Claims :=
  mkClaims iss (Subject c) (Audience c) (ExpiresAt c) (NotBefore c) (IssuedAt c) (ID c).
Definition with_Subject (sub : string) (c : Claims) : Claims :=
  mkClaims (Issuer c) sub (Audience c) (ExpiresAt c) (NotBefore c) (IssuedAt c) (ID c).
Definition with_Audience (aud : list string) (c : Claims) : Claims :=
  mkClaims (Issuer c) (Subject c) aud (ExpiresAt c) (NotBefore c) (IssuedAt c) (ID c).
Definition with_ExpiresAt (t : Time) (c : Claims) : Claims :=
  mkClaims (Issuer c) (Subject c) (Audience c) (Some t) (NotBefore c) (IssuedAt c) (ID c).
Definition with_ExpiresIn (now : Time) (d : Duration) : Claims -> Claims := with_ExpiresAt (time_Add now d).
Definition with_NotBefore (t : Time) (c : Claims) : Claims :=
  mkClaims (Issuer c) (Subject c) (Audience c) (ExpiresAt c) (Some t) (IssuedAt c) (ID c).
Definition with_NotBeforeIn (now : Time) (d : Duration) : Claims -> Claims := with_NotBefore (time_Add now d).
Definition with_ID (jti : string) (c : Claims) : Claims :=
  mkClaims (Issuer c) (Subject c) (Audience c) (ExpiresAt c) (NotBefore c) (IssuedAt c) jti.

Definition NewUserBuilder (now : Time) : UserClaims := mkUserClaims (NewBuilder now) "" "" "" [].
Definition user_std (f : Claims -> Claims) (c : UserClaims) : UserClaims :=
  mkUserClaims (f (u_Claims c)) (UserID c) (Username c) (Email c) (Roles c).
Definition with_UserID (uid : string) (c : UserClaims) : UserClaims :=
  mkUserClaims (u_Claims c) uid (Username c) (Email c) (Roles c).
Definition with_Username (n : string) (c : UserClaims) : UserClaims :=
  mkUserClaims (u_Claims c) (UserID c) n (Email c) (Roles c).
Definition with_Email (e : string) (c : UserClaims) : UserClaims :=
  mkUserClaims (u_Claims c) (UserID c) (Username c) e (Roles c).
Definition with_Roles (roles : list string) (c : UserClaims) : UserClaims :=
  mkUserClaims (u_Claims c) (UserID c) (Username c) (Email c) roles.

(** ** Signing *)

Record Signer := mkSigner { secret : string; alg : string }.

Definition NewHS256 (secret : string) : result jwt_error Signer :=
  if String.eqb secret "" then Err ErrMissingSecret else Ok (mkSigner secret "HS256").

Section signer.
Context (print : json -> string) (parse : string -> option json) (hmac : string -> string -> string).

Definition header_json (s : Signer) : json := JObj [("alg", JStr (alg s)); ("typ", JStr "JWT")].

Definition header_member (h : string * string) (kv : string * json) : option (string * string) :=
  let '(k, j) := kv in
  if is_field "alg" k then (fun s => (s, snd h)) <$> decode_string j (fst h)
  else if is_field "typ" k then (fun s => (fst h, s)) <$> decode_string j (snd h)
  else Some h.

(** The algorithm a header names. *)
Definition decode_header (j : json) : option string := fst <$> decode_object header_member ("", "") j.

Definition sign (s : Signer) (data : string) : string := hmac (secret s) data.
Definition verify (s : Signer) (data signature : string) : bool := String.eqb signature (sign s data).

Definition signing_input (s : Signer) (claims : any_claims) : string :=
  b64_encode (print (header_json s)) +:+ "." +:+ b64_encode (print (claims_json claims)).

Definition Sign (s : Signer) (claims : any_claims) : string :=
  let input := signing_input s claims in input +:+ "." +:+ b64_encode (sign s input).

Definition check_some {A : Type} (o : option A) (e : jwt_error) : result jwt_error A :=
  match o with Some x => Ok x | None => Err e end.

Definition Verify (s : Signer) (now : Time) (tokenString : string) (claims : any_claims) : result jwt_error any_claims :=
  match split_byte "." tokenString with
  | [p0; p1; p2] =>
      try! headerJSON := check_some (b64_decode p0) ErrInvalidToken in
      try! a := check_some (parse headerJSON ≫= decode_header) ErrInvalidToken in
      if negb (String.eqb a (alg s)) then Err ErrUnsupportedAlg
      else
        try! signature := check_some (b64_decode p2) ErrInvalidToken in
        if negb (verify s (p0 +:+ "." +:+ p1) signature) then Err ErrInvalidSignature
        else
          try! claimsJSON := check_some (b64_decode p1) ErrInvalidToken in
          try! c := check_some (parse claimsJSON ≫= decode_claims claims) ErrInvalidClaims in
          match validate now c with Some e => Err e | None => Ok c end
  | _ => Err ErrInvalidToken
  end.

(** [Parse] does not look at the signature, nor at the times. *)
Definition Parse (tokenString : string) (claims : any_claims) : result jwt_error any_claims :=
  match split_byte "." tokenString with
  | [p0; p1; p2] =>
      try! claimsJSON := check_some (b64_decode p1) ErrInvalidToken in
      check_some (parse claimsJSON ≫= decode_claims claims) ErrInvalidClaims
  | _ => Err ErrInvalidToken
  end.

(** ** The middleware *)

(** [r_claims] is what the request's context carries. *)
Record Request := mkRequest {
  r_header : string -> string; r_query : string; r_cookie : string -> option string; r_claims : option any_claims
}.

Definition with_claims (r : Request) (c : any_claims) : Request :=
  mkRequest (r_header r) (r_query r) (r_cookie r) (Some c).

Record Config := mkConfig {
  TokenLookup : string;
  AuthScheme : string;
  Skip : option (Request -> bool);
  ClaimsFactory : option any_claims
}.

Definition lookup_of (cfg : Config) : string := if String.eqb (TokenLookup cfg) "" then "header:Authorization" else TokenLookup cfg.
Definition scheme_of (cfg : Config) : string := if String.eqb (AuthScheme cfg) "" then "Bearer" else AuthScheme cfg.
Definition factory_of (cfg : Config) : any_claims := default (StdClaims no_claims) (ClaimsFactory cfg).

Definition createExtractor (lookup scheme : string) (r : Request) : string :=
  match cut_byte ":" lookup with
  | None => ""
  | Some (source, name) =>
      if String.eqb source "header" then
        let auth := r_header r name in
        if String.eqb auth "" then ""
        else if negb (String.eqb scheme "") then
          let prefix := scheme +:+ " " in
          if HasPrefix auth prefix then str_drop (String.length prefix) auth else ""
        else auth
      else if String.eqb source "query" then values_get (URL_Query (r_query r)) name
      else if String.eqb source "cookie" then default "" (r_cookie r name)
      else ""
  end.

(** What becomes of a request: an error given to the handler of errors, or the
    next handler with the request as it gets it. *)
Inductive served : Type :=
  | Denied (e : jwt_error)
  | Passed (r : Request).

Definition Middleware (s : Signer) (cfg : Config) (now : Time) (r : Request) : served :=
  if match Skip cfg with Some f => f r | None => false end then Passed r
  else
    let token := createExtractor (lookup_of cfg) (scheme_of cfg) r in
    if String.eqb token "" then Denied ErrInvalidToken
    else match Verify s now token (factory_of cfg) with
         | Err e => Denied e
         | Ok c => Passed (with_claims r c)
         end.

Definition Optional (s : Signer) (cfg : Config) (now : Time) (r : Request) : served :=
  let token := createExtractor (lookup_of cfg) (scheme_of cfg) r in
  if String.eqb token "" then Passed r
  else match Verify s now token (factory_of cfg) with
       | Err _ => Passed r
       | Ok c => Passed (with_claims r c)
       end.
End signer.

Definition ClaimsFromContext (r : Request) : option Claims :=
  match r_claims r with Some (StdClaims c) => Some c | _ => None end.
Definition UserClaimsFromContext (r : Request) : option UserClaims :=
  match r_claims r with Some (UsrClaims c) => Some c | _ => None end.

(** Whether the next handler runs; otherwise the answer is 403. *)
Definition require (test : UserClaims -> bool) (r : Request) : bool :=
  match UserClaimsFromContext r with Some c => test c | None => false end.
Definition RequireRole (role : string) : Request -> bool := require (fun c => HasRole c role).
Definition RequireAnyRole (roles : list string) : Request -> bool := require (fun c => HasAnyRole c roles).
Definition RequireAllRoles (roles : list string) : Request -> bool := require (fun c => HasAllRoles c roles).

(** Status, challenge, and the error's text. *)
Definition defaultErrorHandler (message : jwt_error -> string) (e : jwt_error) : Z * string * string :=
  (401, "Bearer realm=" +:+ String (byte_of_code 34) ("api" +:+ String (byte_of_code 34) ""), message e).

(** ** Lemmas: decoding what was encoded *)

Lemma decode_members_app {C : Type} (m : C -> string * json -> option C) c l k :
  decode_members m c (l ++ k) = decode_members m c l ≫= (fun c => decode_members m c k).
Proof. revert c. induction l as [|kv l IH]; intros c; [done|]. cbn. by destruct (m c kv). Qed.

Lemma decode_strings_map old i l : decode_strings_from (map JStr l) i old = Some l.
Proof. revert i. induction l as [|s l IH]; intros i; [done|]. cbn. by rewrite IH. Qed.

(** A time that JSON carries: its seconds do not wrap around. *)
Definition time_fits (t : Time) : Prop :=
  in_int64 (Unix t) = true /\ in_int64 (Unix t + 62135596800) = true.

Definition floor_second (t : Time) : Time := Unix t * Second.

Lemma Time_round_trip t : time_fits t -> Time_UnmarshalJSON (Time_MarshalJSON t) = Some (floor_second t).
Proof.
  intros [H1 H2]. unfold Time_UnmarshalJSON, Time_MarshalJSON, floor_second, time_Unix.
  rewrite H1, wrap64_id by done. do 2 f_equal. lia.
Qed.

Lemma decode_time_round_trip t : time_fits t -> decode_time (Time_MarshalJSON t) = Some (Some (floor_second t)).
Proof. intros Ht. change (Some <$> Time_UnmarshalJSON (Time_MarshalJSON t) = Some (Some (floor_second t))). by rewrite Time_round_trip. Qed.

Lemma Audience_round_trip a : a <> [] -> Audience_UnmarshalJSON (Audience_MarshalJSON a) = Some a.
Proof.
  intros Ha. destruct a as [|s [|s' a]]; [done|done|]. unfold Audience_UnmarshalJSON, Audience_MarshalJSON. cbn [decode_string].
  unfold decode_strings. apply decode_strings_map.
Qed.

(** The claims with times as a token carries them. *)
Definition truncated (c : Claims) : Claims :=
  mkClaims (Issuer c) (Subject c) (Audience c) (floor_second <$> ExpiresAt c) (floor_second <$> NotBefore c)
    (floor_second <$> IssuedAt c) (ID c).

Definition opt_fits (t : option Time) : Prop := match t with Some t => time_fits t | None => True end.
Definition times_fit (c : Claims) : Prop := opt_fits (ExpiresAt c) /\ opt_fits (NotBefore c) /\ opt_fits (IssuedAt c).

Ltac member_step := cbn [decode_members claims_member user_member]; repeat
  match goal with |- context [is_field ?a ?b] =>
    lazymatch a with String _ _ => lazymatch b with String _ _ =>
      let v := eval vm_compute in (is_field a b) in change (is_field a b) with v; cbv iota
    end end end.

Ltac string_chunk s := unfold field_string; destruct (String.eqb_spec s "") as [->|_]; [done|by member_step].
Ltac time_chunk t := destruct t; [|done]; cbn [field_time]; member_step; by rewrite decode_time_round_trip.
Ltac next_chunk H := rewrite decode_members_app, H; cbn [mbind option_bind].

Lemma claims_fields_decode c : times_fit c -> decode_members claims_member no_claims (claims_fields c) = Some (truncated c).
Proof.
  intros (He & Hn & Hi). destruct c as [iss sub aud exp nbf iat jti]. unfold claims_fields, truncated.
  cbn [Issuer Subject Audience ExpiresAt NotBefore IssuedAt ID] in *.
  assert (H1 : decode_members claims_member no_claims (field_string "iss" iss) = Some (mkClaims iss "" [] None None None ""))
    by string_chunk iss.
  assert (H2 : forall i, decode_members claims_member (mkClaims i "" [] None None None "") (field_string "sub" sub)
    = Some (mkClaims i sub [] None None None "")) by (intros i; string_chunk sub).
  assert (H3 : forall i s, decode_members claims_member (mkClaims i s [] None None None "")
    (field_list "aud" aud (Audience_MarshalJSON aud)) = Some (mkClaims i s aud None None None "")).
  { intros i s. destruct aud as [|a aud]; [done|]. cbn [field_list]. member_step. by rewrite Audience_round_trip. }
  assert (H4 : forall i s a, decode_members claims_member (mkClaims i s a None None None "") (field_time "exp" exp)
    = Some (mkClaims i s a (floor_second <$> exp) None None "")) by (intros i s a; time_chunk exp).
  assert (H5 : forall i s a e, decode_members claims_member (mkClaims i s a e None None "") (field_time "nbf" nbf)
    = Some (mkClaims i s a e (floor_second <$> nbf) None "")) by (intros i s a e; time_chunk nbf).
  assert (H6 : forall i s a e n, decode_members claims_member (mkClaims i s a e n None "") (field_time "iat" iat)
    = Some (mkClaims i s a e n (floor_second <$> iat) "")) by (intros i s a e n; time_chunk iat).
  next_chunk H1. next_chunk H2. next_chunk H3. next_chunk H4. next_chunk H5. next_chunk H6. string_chunk jti.
Qed.

(** Names of the standard claims go to the standard claims. *)
Definition std_name (k : string) : Prop := k ∈ ["iss"; "sub"; "aud"; "exp"; "nbf"; "iat"; "jti"].

Lemma claims_fields_std c : Forall (fun kv => std_name (fst kv)) (claims_fields c).
Proof.
  unfold claims_fields, field_string, field_time, field_list, std_name.
  repeat (apply Forall_app; split);
    repeat match goal with
    | |- context [if ?b then _ else _] => destruct b
    | |- context [match ?x with None => _ | _ => _ end] => destruct x
    | |- context [match ?x with [] => _ | _ => _ end] => destruct x
    end; repeat constructor.
Qed.

Lemma std_name_cases k : std_name k ->
  is_field "uid" k = false /\ is_field "username" k = false /\ is_field "email" k = false /\ is_field "roles" k = false /\
  is_field "custom" k = false.
Proof.
  unfold std_name. intros H.
  assert (E : forallb (fun k => negb (is_field "uid" k || is_field "username" k || is_field "email" k || is_field "roles" k ||
    is_field "custom" k)) ["iss"; "sub"; "aud"; "exp"; "nbf"; "iat"; "jti"] = true) by by vm_compute.
  rewrite forallb_forall in E. specialize (E k ltac:(by apply list_elem_of_In)).
  apply negb_true_iff in E. by rewrite !orb_false_iff in E; destruct E as [[[[? ?] ?] ?] ?].
Qed.

(** An embedded struct is decoded as the struct itself. *)
Lemma decode_members_lift {C : Type} (member : C -> string * json -> option C) (put : Claims -> C -> C) (get : C -> Claims) fs u :
  (forall u kv, std_name (fst kv) -> member u kv = (fun c => put c u) <$> claims_member (get u) kv) ->
  (forall c u, get (put c u) = c) -> (forall c d u, put c (put d u) = put c u) -> (forall u, put (get u) u = u) ->
  Forall (fun kv => std_name (fst kv)) fs ->
  decode_members member u fs = (fun c => put c u) <$> decode_members claims_member (get u) fs.
Proof.
  intros Hm Hgp Hpp Hpg Hf. revert u. induction Hf as [|kv fs Hkv _ IH]; intros u; cbn [decode_members].
  - cbn. by rewrite Hpg.
  - rewrite Hm by done. destruct (claims_member (get u) kv) as [c|]; [|done]. cbn. rewrite IH, Hgp.
    destruct (decode_members claims_member c fs); [|done]. cbn. by rewrite Hpp.
Qed.

Definition no_user : UserClaims := mkUserClaims no_claims "" "" "" [].

Lemma user_fields_decode c :
  times_fit (u_Claims c) ->
  decode_members user_member no_user (user_fields c) = Some (user_std truncated c).
Proof.
  intros Hc. destruct c as [std uid name email roles]. unfold user_fields. cbn [u_Claims UserID Username Email Roles] in *.
  assert (H0 : decode_members user_member no_user (claims_fields std) = Some (mkUserClaims (truncated std) "" "" "" [])).
  { rewrite (decode_members_lift user_member (fun c u => mkUserClaims c (UserID u) (Username u) (Email u) (Roles u)) u_Claims).
    - cbn [no_user u_Claims]. by rewrite claims_fields_decode.
    - intros u [k j] Hk. destruct (std_name_cases k Hk) as (H1 & H2 & H3 & H4 & _). unfold user_member. by rewrite H1, H2, H3, H4.
    - done.
    - done.
    - by intros [].
    - apply claims_fields_std. }
  assert (H1 : forall c, decode_members user_member (mkUserClaims c "" "" "" []) (field_string "uid" uid) = Some (mkUserClaims c uid "" "" []))
    by (intros c; string_chunk uid).
  assert (H2 : forall c u, decode_members user_member (mkUserClaims c u "" "" []) (field_string "username" name)
    = Some (mkUserClaims c u name "" [])) by (intros c u; string_chunk name).
  assert (H3 : forall c u n, decode_members user_member (mkUserClaims c u n "" []) (field_string "email" email)
    = Some (mkUserClaims c u n email [])) by (intros c u n; string_chunk email).
  next_chunk H0. next_chunk H1. next_chunk H2. next_chunk H3.
  destruct roles as [|r roles]; [done|]. cbn [field_list]. member_step. cbn [decode_strings Roles]. by rewrite decode_strings_map.
Qed.

Lemma custom_fields_decode c j :
  times_fit c ->
  decode_members custom_member (no_claims, JNull) (claims_fields c ++ match j with JNull => [] | _ => [("custom", j)] end)
  = Some (truncated c, j).
Proof.
  intros Hc.
  assert (H0 : decode_members custom_member (no_claims, JNull) (claims_fields c) = Some (truncated c, JNull)).
  { rewrite (decode_members_lift custom_member (fun c u => (c, snd u)) fst).
    - cbn [fst]. by rewrite claims_fields_decode.
    - intros u [k x] Hk. destruct (std_name_cases k Hk) as (_ & _ & _ & _ & H). unfold custom_member. cbn [fst snd]. by rewrite H.
    - done.
    - done.
    - by intros [].
    - apply claims_fields_std. }
  next_chunk H0. by destruct j.
Qed.

Lemma map_fields_decode old fields : decode_members (fun l kv => Some (l ++ [kv])) old fields = Some (old ++ fields).
Proof. revert old. induction fields as [|kv fields IH]; intros old; cbn; [by rewrite app_nil_r|]. by rewrite IH, <- app_assoc. Qed.

(** Claims as [new] makes them, and as a token carries them. *)
Definition fresh (a : any_claims) : any_claims :=
  match a with
  | StdClaims _ => StdClaims no_claims
  | UsrClaims _ => UsrClaims no_user
  | CustomClaims _ _ => CustomClaims no_claims JNull
  | MapClaims _ => MapClaims []
  end.

Definition carried (a : any_claims) : any_claims :=
  match a with
  | StdClaims c => StdClaims (truncated c)
  | UsrClaims c => UsrClaims (user_std truncated c)
  | CustomClaims c j => CustomClaims (truncated c) j
  | MapClaims l => MapClaims l
  end.

Definition std_of (a : any_claims) : Claims :=
  match a with StdClaims c => c | UsrClaims c => u_Claims c | CustomClaims c _ => c | MapClaims _ => no_claims end.

Lemma decode_claims_json a : times_fit (std_of a) -> decode_claims (fresh a) (claims_json a) = Some (carried a).
Proof.
  destruct a as [c|c|c j|l]; cbn [std_of fresh claims_json decode_claims decode_object]; intros Ha.
  - by rewrite claims_fields_decode.
  - by rewrite user_fields_decode.
  - by rewrite custom_fields_decode.
  - by rewrite map_fields_decode.
Qed.

(** ** Lemmas: tokens *)

Lemma b64_encode_valid s : string_forall (fun c => bool_decide (is_Some (b64_value c))) (b64_encode s) = true.
Proof.
  assert (Hb : forall v, 0 <= v < 64 -> bool_decide (is_Some (b64_value (b64_byte v))) = true).
  { intros v Hv. destruct (b64_value_byte v Hv) as [-> _]. by apply bool_decide_eq_true. }
  remember (String.length s) as n eqn:Hn. revert s Hn. induction (Nat.lt_wf_0 n) as [n _ IH]. intros s ->.
  destruct s as [|a [|b [|c rest]]]; [done|..]; cbn [b64_encode string_forall]; rewrite !Hb by b64_num; try done.
  eapply IH; [|done]. cbn. lia.
Qed.

Lemma b64_encode_no_dot s : string_has "." (b64_encode s) = false.
Proof. by eapply string_forall_has; [apply b64_encode_valid|]. Qed.

Lemma split_three a b c :
  string_has "." a = false -> string_has "." b = false -> string_has "." c = false ->
  split_byte "." (a +:+ "." +:+ b +:+ "." +:+ c) = [a; b; c].
Proof.
  intros Ha Hb Hc. change ("." +:+ b +:+ "." +:+ c) with (String "." (b +:+ String "." c)).
  by rewrite !split_byte_app, split_byte_none.
Qed.

Lemma decode_header_json s : decode_header (header_json s) = Some (alg s).
Proof. unfold decode_header, header_json, decode_object. cbn [decode_members header_member]. by member_step. Qed.

Lemma split_snoc c s t : string_has c t = false ->
  split_byte c (s +:+ t) = removelast (split_byte c s) ++ [List.last (split_byte c s) "" +:+ t].
Proof.
  intros Ht. induction s as [s Hs|a b Ha IH] using (split_byte_ind c).
  - rewrite split_byte_none by (by rewrite string_has_app, Hs). by rewrite split_byte_none.
  - rewrite <- string_app_assoc. change (String c b +:+ t) with (String c (b +:+ t)). rewrite !split_byte_app, IH by done.
    assert (Hne : split_byte c b <> []) by (destruct (split_byte_cases c b) as [[_ ->]|(? & ? & _ & _ & ->)]; done).
    by destruct (split_byte c b).
Qed.

Lemma b64_values_snoc s v : b64_values s = Some v -> b64_values (s +:+ String (byte_of_code 10) "") = Some v.
Proof.
  revert v. induction s as [|c s IH]; intros v; [done|]. cbn [b64_values String.append].
  destruct (_ || _); [apply IH|]. destruct (b64_value c); [|done]. destruct (b64_values s) as [w|]; [|done].
  by rewrite (IH w).
Qed.

Lemma b64_values_snoc_none s : b64_values s = None -> b64_values (s +:+ String (byte_of_code 10) "") = None.
Proof.
  induction s as [|c s IH]; [done|]. cbn [b64_values String.append]. destruct (_ || _); [apply IH|].
  destruct (b64_value c); [|done]. destruct (b64_values s) as [w|]; [done|]. by rewrite IH.
Qed.

(** A line end after base64 is not seen. *)
Lemma b64_decode_newline s : b64_decode (s +:+ String (byte_of_code 10) "") = b64_decode s.
Proof.
  unfold b64_decode. destruct (b64_values s) as [v|] eqn:E; [by rewrite (b64_values_snoc s v)|by rewrite b64_values_snoc_none].
Qed.

Definition same_kind (a b : any_claims) : Prop := fresh a = fresh b.

Lemma decode_claims_kind a j c : decode_claims a j = Some c -> same_kind c a.
Proof.
  unfold same_kind. destruct a; cbn [decode_claims]; intros (x & _ & ->)%fmap_Some; done.
Qed.

(** ** Theorems *)

Section theorems.
Context (print : json -> string) (parse : string -> option json) (hmac : string -> string -> string).

(** A value whose text is read back as the value, as [encoding/json] promises of
    what it wrote. *)
Definition reads_back (j : json) : Prop := parse (print j) = Some j.

Lemma verify_signed s now a :
  reads_back (header_json s) -> reads_back (claims_json a) -> times_fit (std_of a) ->
  Verify parse hmac s now (Sign print hmac s a) (fresh a) =
    match validate now (carried a) with Some e => Err e | None => Ok (carried a) end.
Proof.
  intros Hh Hc Ht. unfold Sign, signing_input, Verify. set (h := b64_encode (print (header_json s))).
  set (p := b64_encode (print (claims_json a))). set (g := b64_encode _).
  rewrite <- !string_app_assoc, split_three by apply b64_encode_no_dot.
  unfold h at 1, p at 2, g at 1. rewrite !b64_round_trip. cbn [check_some result_bind]. rewrite Hh. cbn [mbind option_bind].
  rewrite decode_header_json. cbn [check_some result_bind]. rewrite String.eqb_refl. cbn [negb].
  unfold verify. rewrite !string_app_assoc, String.eqb_refl. cbn [negb]. rewrite Hc. cbn [mbind option_bind].
  by rewrite decode_claims_json.
Qed.

(** C24. A token that a signer made is accepted by the signer, as claims of the
    kind it was made of, exactly within the times they carry: the claims come
    back as they were, with their times cut to whole seconds. *)
Theorem Verify_Sign s now a :
  reads_back (header_json s) -> reads_back (claims_json a) -> times_fit (std_of a) ->
  Verify parse hmac s now (Sign print hmac s a) (fresh a) =
    match validate now (carried a) with Some e => Err e | None => Ok (carried a) end.
Proof. exact (verify_signed s now a). Qed.

(** A token that is taken as authentic: three parts, of which the first decodes to
    a header that names the signer's algorithm and the last to the code of the
    first two under the signer's secret. *)
Definition authentic (s : Signer) (tok p : string) : Prop :=
  exists h g hj, split_byte "." tok = [h; p; g] /\
    b64_decode h = Some hj /\ parse hj ≫= decode_header = Some (alg s) /\
    b64_decode g = Some (hmac (secret s) (h +:+ "." +:+ p)).

Lemma verify_accepts s now tok a c :
  Verify parse hmac s now tok a = Ok c <->
  exists p pj, authentic s tok p /\ b64_decode p = Some pj /\ parse pj ≫= decode_claims a = Some c /\ validate now c = None.
Proof.
  unfold Verify. split.
  - intros H. destruct (split_byte "." tok) as [|h [|p [|g [|]]]] eqn:Es; try done.
    destruct (b64_decode h) as [hj|] eqn:E1; [|done]. cbn [check_some result_bind] in H.
    destruct (parse hj ≫= decode_header) as [al|] eqn:E2; [|done]. cbn [check_some result_bind] in H.
    destruct (String.eqb_spec al (alg s)) as [->|]; [|done]. cbn [negb] in H.
    destruct (b64_decode g) as [sg|] eqn:E3; [|done]. cbn [check_some result_bind] in H. unfold verify, sign in H.
    destruct (String.eqb_spec sg (hmac (secret s) (h +:+ "." +:+ p))) as [->|]; [|done]. cbn [negb] in H.
    destruct (b64_decode p) as [pj|] eqn:E4; [|done]. cbn [check_some result_bind] in H.
    destruct (parse pj ≫= decode_claims a) as [c'|] eqn:E5; [|done]. cbn [check_some result_bind] in H.
    destruct (validate now c') eqn:E6; [done|]. injection H as <-. exists p, pj. split; [exists h, g, hj; by rewrite Es|done].
  - intros (p & pj & (h & g & hj & -> & H1 & H2 & H3) & H4 & H5 & H6). rewrite H1. cbn [check_some result_bind]. rewrite H2.
    cbn [check_some result_bind]. rewrite String.eqb_refl. cbn [negb]. rewrite H3. cbn [check_some result_bind]. unfold verify, sign.
    rewrite String.eqb_refl. cbn [negb]. rewrite H4. cbn [check_some result_bind]. rewrite H5. cbn [check_some result_bind]. by rewrite H6.
Qed.

(** The errors that say something of the claims are given only for tokens
    that carry the signer's code: of a forged token one learns no more than that
    it is forged. *)
Theorem claims_errors_authentic s now tok a e :
  Verify parse hmac s now tok a = Err e -> e ∈ [ErrInvalidClaims; ErrTokenExpired; ErrTokenNotYetValid] ->
  exists h p g, split_byte "." tok = [h; p; g] /\ b64_decode g = Some (hmac (secret s) (h +:+ "." +:+ p)).
Proof.
  unfold Verify. intros H He.
  assert (Hnot : forall e', Err (A := any_claims) e' = Err e -> e' = ErrInvalidToken \/ e' = ErrUnsupportedAlg \/ e' = ErrInvalidSignature -> False).
  { intros e' [= ->] Hc. rewrite !elem_of_cons, elem_of_nil in He. naive_solver. }
  destruct (split_byte "." tok) as [|h [|p [|g [|]]]]; try (by destruct (Hnot _ H); auto).
  exists h, p, g. split; [done|].
  destruct (b64_decode h) as [hj|]; cbn [check_some result_bind] in H; [|by destruct (Hnot _ H); auto].
  destruct (parse hj ≫= decode_header) as [al|]; cbn [check_some result_bind] in H; [|by destruct (Hnot _ H); auto].
  destruct (String.eqb al (alg s)); cbn [negb] in H; [|by destruct (Hnot _ H); auto].
  destruct (b64_decode g) as [sg|]; cbn [check_some result_bind] in H; [|by destruct (Hnot _ H); auto].
  unfold verify, sign in H.
  destruct (String.eqb_spec sg (hmac (secret s) (h +:+ "." +:+ p))) as [E|]; cbn [negb] in H; [by rewrite E|by destruct (Hnot _ H); auto].
Qed.

(** A token does not have one spelling: with line ends after it, it is as
    good as without. *)
Theorem Verify_newline s now tok a :
  Verify parse hmac s now (tok +:+ String (byte_of_code 10) "") a = Verify parse hmac s now tok a.
Proof.
  unfold Verify. rewrite split_snoc by done. destruct (split_byte "." tok) as [|h [|p [|g [|x l]]]]; [done..| |].
  - cbn [removelast app List.last]. by rewrite b64_decode_newline.
  - assert (Hl : forall (l : list string) y, exists a b k, removelast (h :: p :: g :: x :: l) ++ [y] = h :: p :: a :: b :: k).
    { clear. intros l y. destruct l as [|z l]; [by exists g, y, []|]. exists g, x.
      change (removelast (h :: p :: g :: x :: z :: l)) with (h :: p :: g :: x :: removelast (z :: l)). by eexists. }
    destruct (Hl l (List.last (h :: p :: g :: x :: l) "" +:+ String (byte_of_code 10) "")) as (a' & b' & k & ->). done.
Qed.

(** What is accepted is exactly: an authentic token whose claims decode and are
    now within their times. *)
Theorem Verify_spec s now tok a c :
  Verify parse hmac s now tok a = Ok c <->
  exists p pj, authentic s tok p /\ b64_decode p = Some pj /\ parse pj ≫= decode_claims a = Some c /\
    (forall t, ExpiresAt (std_of c) = Some t -> now <= t) /\ (forall t, NotBefore (std_of c) = Some t -> t <= now).
Proof.
  rewrite verify_accepts.
  assert (Hv : validate now c = None <->
    (forall t, ExpiresAt (std_of c) = Some t -> now <= t) /\ (forall t, NotBefore (std_of c) = Some t -> t <= now)).
  { assert (Hval : forall x, Valid now x = None <->
      (forall t, ExpiresAt x = Some t -> now <= t) /\ (forall t, NotBefore x = Some t -> t <= now)).
    { intros x. assert (Ho : forall (o : option Time) (P : Time -> Prop), (forall t, o = Some t -> P t) <-> match o with Some t => P t | None => True end).
      { intros [t|] P; [|done]. split; [by intros H; apply H|by intros H ? [= <-]]. }
      rewrite !Ho. unfold Valid, time_After, time_Before. destruct (ExpiresAt x) as [e|], (NotBefore x) as [n|];
        repeat match goal with |- context [?a <? ?b] => destruct (Z.ltb_spec a b) end; intuition (done || lia). }
    destruct c; cbn [validate std_of]; try apply Hval. split; [done|]. done. }
  split; intros (p & pj & H1 & H2 & H3 & H4); exists p, pj; (split; [done|]); (split; [done|]); (split; [done|]); by apply Hv.
Qed.

(** A request gets through the middleware and a check of roles only with a
    token that carries the signer's code, whose claims list the role and are
    within their times. *)
Theorem role_needs_token s cfg now r r' role :
  Middleware parse hmac s cfg now r = Passed r' -> Skip cfg = None -> RequireRole role r' = true ->
  exists p pj c, authentic s (createExtractor (lookup_of cfg) (scheme_of cfg) r) p /\
    b64_decode p = Some pj /\ parse pj ≫= decode_claims (factory_of cfg) = Some (UsrClaims c) /\
    Valid now (u_Claims c) = None /\ role ∈ Roles c /\ r' = with_claims r (UsrClaims c).
Proof.
  unfold Middleware. intros H Hs Hr. rewrite Hs in H. destruct (String.eqb _ ""); [done|].
  destruct (Verify _ _ _ _ _ _) as [c|e] eqn:Hv; [|done]. injection H as <-.
  apply verify_accepts in Hv as (p & pj & H1 & H2 & H3 & H4).
  unfold RequireRole, require, UserClaimsFromContext, with_claims in Hr. cbn [r_claims] in Hr. destruct c as [c|c|c j|l]; try done.
  exists p, pj, c. split; [exact H1|]. split; [exact H2|]. split; [exact H3|]. split; [exact H4|]. split; [|done]. unfold HasRole in Hr. apply existsb_exists in Hr as (x & Hx & ->%String.eqb_eq).
  by apply list_elem_of_In.
Qed.

(** Behind the middleware as it is by default no role is ever granted: its
    claims are not the kind that [RequireRole] looks for. *)
Theorem default_has_no_roles s cfg now r r' role :
  Middleware parse hmac s cfg now r = Passed r' -> Skip cfg = None -> ClaimsFactory cfg = None -> RequireRole role r' = false.
Proof.
  unfold Middleware. intros H Hs Hf. rewrite Hs in H. destruct (String.eqb _ ""); [done|].
  destruct (Verify _ _ _ _ _ _) as [c|e] eqn:Hv; [|done]. injection H as <-.
  apply verify_accepts in Hv as (p & pj & _ & _ & H3 & _). unfold factory_of in H3. rewrite Hf in H3.
  destruct (parse pj) as [x|]; [|done]. apply decode_claims_kind in H3. by destruct c.
Qed.
(** Claims of a type without a [Valid] method never expire. *)
Theorem untyped_never_expire s now now' tok l :
  Verify parse hmac s now tok (MapClaims l) = Verify parse hmac s now' tok (MapClaims l).
Proof.
  unfold Verify. destruct (split_byte "." tok) as [|h [|p [|g [|]]]]; try done.
  destruct (b64_decode h) as [hj|]; [|done]. cbn [check_some result_bind].
  destruct (parse hj ≫= decode_header) as [al|]; [|done]. cbn [check_some result_bind].
  destruct (negb (String.eqb al (alg s))); [done|]. destruct (b64_decode g) as [sg|]; [|done]. cbn [check_some result_bind].
  destruct (negb (verify _ _ _ _)); [done|]. destruct (b64_decode p) as [pj|]; [|done]. cbn [check_some result_bind].
  destruct (parse pj ≫= decode_claims (MapClaims l)) as [c|] eqn:E; [|done]. cbn [check_some result_bind].
  destruct (parse pj) as [j|]; [|done]. cbn [mbind option_bind] in E. apply decode_claims_kind in E. by destruct c.
Qed.
End theorems.

(** ** A signer for examples *)

Definition sample_claims : UserClaims :=
  mkUserClaims (mkClaims "" "bob" ["app"] (Some (100 * Second + 5)) None None "") "u1" "" "" ["admin"; "staff"].
Definition sample_signer : Signer := mkSigner "k" "HS256".
Definition sample_print (j : json) : string :=
  match j with JObj (("alg", _) :: _) => "H" | _ => "C" end.
Definition sample_parse (s : string) : option json :=
  if String.eqb s "H" then Some (header_json sample_signer)
  else if String.eqb s "C" then Some (claims_json (UsrClaims sample_claims)) else None.
Definition sample_hmac (key data : string) : string := "#" +:+ key +:+ data.
Definition sample_token : string := Sign sample_print sample_hmac sample_signer (UsrClaims sample_claims).
Definition sample_cfg (factory : option any_claims) : Config := mkConfig "" "" None factory.
Definition sample_request : Request :=
  mkRequest (fun k => if String.eqb k "Authorization" then "Bearer " +:+ sample_token else "") "" (fun _ => None) None.

Lemma Verify_Sign_witness :
  Verify sample_parse sample_hmac sample_signer (100 * Second) sample_token (UsrClaims no_user)
  = Ok (carried (UsrClaims sample_claims)) /\
  Verify sample_parse sample_hmac sample_signer (100 * Second + 1) sample_token (UsrClaims no_user) = Err ErrTokenExpired.
Proof.
  assert (Ht : times_fit (std_of (UsrClaims sample_claims))) by (split; [split; reflexivity|split; exact I]).
  split.
  - exact (Verify_Sign sample_print sample_parse sample_hmac sample_signer (100 * Second) (UsrClaims sample_claims) eq_refl eq_refl Ht).
  - exact (Verify_Sign sample_print sample_parse sample_hmac sample_signer (100 * Second + 1) (UsrClaims sample_claims) eq_refl eq_refl Ht).
Defined.

Lemma claims_errors_authentic_witness :
  exists h p g, split_byte "." sample_token = [h; p; g] /\ b64_decode g = Some (sample_hmac "k" (h +:+ "." +:+ p)).
Proof.
  apply (claims_errors_authentic sample_parse sample_hmac sample_signer (101 * Second) sample_token (UsrClaims no_user) ErrTokenExpired).
  - vm_compute. reflexivity.
  - right. left.
Defined.

Lemma role_needs_token_witness :
  exists p pj c, authentic sample_parse sample_hmac sample_signer sample_token p /\ b64_decode p = Some pj /\ "staff" ∈ Roles c.
Proof.
  destruct (role_needs_token sample_parse sample_hmac sample_signer (sample_cfg (Some (UsrClaims no_user))) 5 sample_request
    (with_claims sample_request (carried (UsrClaims sample_claims))) "staff") as (p & pj & c & H1 & H2 & _ & _ & H3 & _).
  - vm_compute. reflexivity.
  - reflexivity.
  - reflexivity.
  - exists p, pj, c. split; [exact H1|]. split; [exact H2|exact H3].
Defined.

Lemma default_has_no_roles_witness :
  exists r', Middleware sample_parse sample_hmac sample_signer (sample_cfg None) 5 sample_request = Passed r' /\ RequireRole "staff" r' = false.
Proof.
  eexists. split; [vm_compute; reflexivity|].
  refine (default_has_no_roles sample_parse sample_hmac sample_signer (sample_cfg None) 5 sample_request _ "staff" _ eq_refl eq_refl).
  vm_compute. reflexivity.
Defined.

(** Whether a user has all of some roles, or any, is a matter of the sets of
    roles. *)
Theorem roles_spec c roles :
  (HasAllRoles c roles = true <-> roles ⊆ Roles c) /\
  (HasAnyRole c roles = true <-> exists r, r ∈ roles /\ r ∈ Roles c).
Proof.
  assert (Hr : forall r, HasRole c r = true <-> r ∈ Roles c).
  { intros r. unfold HasRole. rewrite existsb_exists, list_elem_of_In. split; [intros (x & Hx & ->%String.eqb_eq); done|].
    intros Hx. exists r. by rewrite String.eqb_refl. }
  unfold HasAllRoles, HasAnyRole. rewrite forallb_forall, existsb_exists. split.
  - split; intros H r Hr'; [apply Hr, H; by apply list_elem_of_In|apply Hr, H; by apply list_elem_of_In].
  - split; intros (r & H1 & H2); exists r; (split; [by apply list_elem_of_In|by apply Hr]).
Qed.

