(* ===== verification/Refresh.v ===== *)
(** * Refresh tokens

    [src/pantry/auth/jwt/refresh.go]: pairs of an access token and a refresh
    token, rotation, revocation and the store in memory.

    Each operation is a function over the interface [RefreshStore]; and, because
    requests run at the same time and [RefreshTokens] goes to the store three
    times, each request is also a thread that makes those visits one by one
    ([step]), in any interleaving with others.  Making an access token ([sign],
    which is [Sign] of [Jwt] up to errors of JSON) and the random bytes are
    parameters; [clock] gives the successive readings of the clock. *)

From stdpp Require Import gmap strings relations.
From S2P Require Import Prelude GoStrings Float64 Jwt.

#[local] Open Scope list_scope.

Section refresh.
(** The data a caller attaches. *)
Context {D : Type}.

Record RefreshData := mkRefreshData { rd_Subject : string; rd_IssuedAt : Time; rd_ExpiresAt : Time; rd_Data : D }.

Record TokenPair := mkTokenPair { AccessToken : string; RefreshToken : string; ExpiresIn : Z; TokenType : string }.

Inductive service_error : Type :=
  | JwtErr (e : jwt_error)
  | OtherErr (n : nat).

(** ** The store *)

Class RefreshStore (S : Type) := {
  rs_save : S -> string -> RefreshData -> S * option service_error;
  rs_load : S -> string -> result service_error RefreshData;
  rs_delete : S -> string -> S * option service_error;
  rs_delete_subject : S -> string -> S * option service_error
}.

Record MemoryRefreshStore := mkMemoryRefreshStore { tokens : gmap string RefreshData }.

Definition NewMemoryRefreshStore : MemoryRefreshStore := mkMemoryRefreshStore ∅.
Definition MRS_Save (s : MemoryRefreshStore) (token : string) (data : RefreshData) : MemoryRefreshStore * option service_error :=
  (mkMemoryRefreshStore (<[token := data]> (tokens s)), None).
Definition MRS_Load (s : MemoryRefreshStore) (token : string) : result service_error RefreshData :=
  match tokens s !! token with Some d => Ok d | None => Err (OtherErr 0) end.
Definition MRS_Delete (s : MemoryRefreshStore) (token : string) : MemoryRefreshStore * option service_error :=
  (mkMemoryRefreshStore (delete token (tokens s)), None).
Definition MRS_DeleteBySubject (s : MemoryRefreshStore) (subject : string) : MemoryRefreshStore * option service_error :=
  (mkMemoryRefreshStore (filter (fun kv => rd_Subject kv.2 <> subject) (tokens s)), None).

#[export] Instance memory_refresh_store : RefreshStore MemoryRefreshStore := {
  rs_save := MRS_Save; rs_load := MRS_Load; rs_delete := MRS_Delete; rs_delete_subject := MRS_DeleteBySubject
}.

(** ** The service *)

Record TokenService := mkTokenService {
  accessTTL : Duration; refreshTTL : Duration; issuer : string; audience : list string;
  claimsFunc : option (string -> D -> any_claims)
}.

Definition NewTokenService (cfg : TokenService) : TokenService :=
  mkTokenService (if accessTTL cfg =? 0 then 15 * Minute else accessTTL cfg)
    (if refreshTTL cfg =? 0 then 7 * 24 * Hour else refreshTTL cfg) (issuer cfg) (audience cfg) (claimsFunc cfg).

Context (svc : TokenService) (sign : any_claims -> result service_error string) (oob : float64 -> Z).

Definition access_claims (clock : nat -> Time) (subject : string) (data : D) : any_claims :=
  match claimsFunc svc with
  | Some f => f subject data
  | None => StdClaims (mkClaims (issuer svc) subject (audience svc) (Some (time_Add (clock 1%nat) (accessTTL svc))) None
                         (Some (clock 0%nat)) "")
  end.

Definition createAccessToken (clock : nat -> Time) (subject : string) (data : D) : result service_error string :=
  sign (access_claims clock subject data).

(** [random] is what the generator of refresh tokens answers. *)
Definition new_data (clock : nat -> Time) (subject : string) (data : D) : RefreshData :=
  mkRefreshData subject (clock 2%nat) (time_Add (clock 3%nat) (refreshTTL svc)) data.

Definition new_pair (access token : string) : TokenPair :=
  mkTokenPair access token (f64_to_int64 oob (Seconds (accessTTL svc))) "Bearer".

Section operations.
Context {S : Type} `{RefreshStore S}.

Definition CreateTokenPair (st : S) (clock : nat -> Time) (random : result service_error string) (subject : string) (data : D)
  : S * result service_error TokenPair :=
  match createAccessToken clock subject data with
  | Err e => (st, Err e)
  | Ok access =>
      match random with
      | Err e => (st, Err e)
      | Ok token =>
          match rs_save st token (new_data clock subject data) with
          | (st, Some e) => (st, Err e)
          | (st, None) => (st, Ok (new_pair access token))
          end
      end
  end.

Definition RefreshTokens (st : S) (now : Time) (clock : nat -> Time) (random : result service_error string) (refreshToken : string)
  : S * result service_error TokenPair :=
  match rs_load st refreshToken with
  | Err _ => (st, Err (JwtErr ErrInvalidToken))
  | Ok data =>
      if time_After now (rd_ExpiresAt data) then (fst (rs_delete st refreshToken), Err (JwtErr ErrTokenExpired))
      else CreateTokenPair (fst (rs_delete st refreshToken)) clock random (rd_Subject data) (rd_Data data)
  end.

Definition RevokeRefreshToken (st : S) (refreshToken : string) : S * option service_error := rs_delete st refreshToken.
Definition RevokeAllTokens (st : S) (subject : string) : S * option service_error := rs_delete_subject st subject.
End operations.

(** ** Requests at the same time *)

(** Where a call stands: between its visits to the store. *)
Inductive thread : Type :=
  | Loading (token : string)
  | Expiring (token : string)
  | Rotating (token : string) (data : RefreshData)
  | Creating (subject : string) (data : D)
  | Finished (r : result service_error TokenPair).

(** One visit: the store and the thread after it. *)
Definition visit (st : MemoryRefreshStore) (now : Time) (clock : nat -> Time) (random : result service_error string) (t : thread)
  : MemoryRefreshStore * thread :=
  match t with
  | Loading token =>
      match rs_load st token with
      | Err _ => (st, Finished (Err (JwtErr ErrInvalidToken)))
      | Ok data => (st, if time_After now (rd_ExpiresAt data) then Expiring token else Rotating token data)
      end
  | Expiring token => (fst (rs_delete st token), Finished (Err (JwtErr ErrTokenExpired)))
  | Rotating token data => (fst (rs_delete st token), Creating (rd_Subject data) (rd_Data data))
  | Creating subject data => let '(st, r) := CreateTokenPair st clock random subject data in (st, Finished r)
  | Finished r => (st, Finished r)
  end.

(** [issued]: the refresh tokens made so far, with what they were made for. *)
Record world := mkWorld { store : MemoryRefreshStore; threads : list thread; issued : gmap string (string * D) }.

Definition note_issued (t : thread) (random : result service_error string) (m : gmap string (string * D)) : gmap string (string * D) :=
  match t, random with
  | Creating subject data, Ok token => <[token := (subject, data)]> m
  | _, _ => m
  end.

(** A visit of a thread; a new call of [RefreshTokens] or [CreateTokenPair];
    [RevokeRefreshToken]; [RevokeAllTokens].  A random token is new. *)
Inductive step : world -> world -> Prop :=
  | step_visit w i t now clock random :
      threads w !! i = Some t -> (forall token, random = Ok token -> issued w !! token = None) ->
      step w (mkWorld (fst (visit (store w) now clock random t))
                (<[i := snd (visit (store w) now clock random t)]> (threads w)) (note_issued t random (issued w)))
  | step_refresh w token : step w (mkWorld (store w) (threads w ++ [Loading token]) (issued w))
  | step_create w subject data : step w (mkWorld (store w) (threads w ++ [Creating subject data]) (issued w))
  | step_revoke w token : step w (mkWorld (fst (RevokeRefreshToken (store w) token)) (threads w) (issued w))
  | step_revoke_all w subject : step w (mkWorld (fst (RevokeAllTokens (store w) subject)) (threads w) (issued w)).

Definition start : world := mkWorld NewMemoryRefreshStore [] ∅.

(** What is live: a token of the store that has not expired. *)
Definition live (st : MemoryRefreshStore) (now : Time) (token : string) : option RefreshData :=
  match tokens st !! token with
  | Some d => if time_After now (rd_ExpiresAt d) then None else Some d
  | None => None
  end.

(** ** Lemmas *)

Definition made_for (d : RefreshData) : string * D := (rd_Subject d, rd_Data d).

(** Everything at hand was issued, for the same subject and data. *)
Definition thread_ok (m : gmap string (string * D)) (t : thread) : Prop :=
  match t with Rotating token d => m !! token = Some (made_for d) | _ => True end.

Record well_issued (w : world) : Prop := {
  wi_store : map_Forall (fun token d => issued w !! token = Some (made_for d)) (tokens (store w));
  wi_threads : Forall (thread_ok (issued w)) (threads w)
}.

Lemma CreateTokenPair_memory (st : MemoryRefreshStore) clock random subject data :
  CreateTokenPair st clock random subject data =
    match createAccessToken clock subject data, random with
    | Err e, _ => (st, Err e)
    | _, Err e => (st, Err e)
    | Ok access, Ok token =>
        (mkMemoryRefreshStore (<[token := new_data clock subject data]> (tokens st)), Ok (new_pair access token))
    end.
Proof. unfold CreateTokenPair. destruct (createAccessToken _ _ _), random; done. Qed.

Lemma note_issued_mono t random m token p :
  (forall k, random = Ok k -> m !! k = None) -> m !! token = Some p -> note_issued t random m !! token = Some p.
Proof.
  intros Hr Hp. unfold note_issued. destruct t, random as [k|]; try done. rewrite lookup_insert_ne; [done|].
  intros ->. specialize (Hr _ eq_refl). congruence.
Qed.

(** What a visit does to the store. *)
Lemma visit_store st now clock random t k d :
  tokens (fst (visit st now clock random t)) !! k = Some d ->
  tokens st !! k = Some d \/
  (exists subject data, t = Creating subject data /\ random = Ok k /\ d = new_data clock subject data).
Proof.
  destruct t as [token|token|token x|subject data|r]; cbn [visit].
  - destruct (rs_load st token); auto.
  - cbn. intros [_ H]%lookup_delete_Some. auto.
  - cbn. intros [_ H]%lookup_delete_Some. auto.
  - rewrite CreateTokenPair_memory. destruct (createAccessToken _ _ _), random as [token|]; cbn; auto.
    intros [[-> <-]|[_ H]]%lookup_insert_Some; [right; eauto|auto].
  - auto.
Qed.

Lemma step_well_issued w w' : step w w' -> well_issued w -> well_issued w'.
Proof.
  intros Hs [Hst Hth]. destruct Hs as [w i t now clock random Hi Hr|w token|w subject data|w token|w subject].
  - assert (Ht : thread_ok (issued w) t) by (by eapply Forall_lookup_1).
    split; cbn [store threads issued].
    + intros k d Hd. apply visit_store in Hd as [Hd|(subject & data & -> & -> & ->)].
      * apply note_issued_mono; [done|]. exact (Hst k d Hd).
      * cbn [note_issued]. by rewrite lookup_insert_eq.
    + apply Forall_insert.
      * eapply list.Forall_impl; [exact Hth|]. intros [token|token|token d|s d|r]; try done. apply note_issued_mono, Hr.
      * destruct t as [token|token|token d|s d|r]; cbn [visit]; try done.
        -- cbn [rs_load memory_refresh_store]. unfold MRS_Load. destruct (tokens (store w) !! token) as [d|] eqn:E; [|done].
           cbn [snd]. destruct (time_After now (rd_ExpiresAt d)); [done|]. cbn [thread_ok]. apply note_issued_mono; [done|]. exact (Hst _ _ E).
        -- rewrite CreateTokenPair_memory. by destruct (createAccessToken _ _ _), random.
  - split; [done|]. cbn. apply Forall_app. split; [done|by repeat constructor].
  - split; [done|]. cbn. apply Forall_app. split; [done|by repeat constructor].
  - split; [|done]. cbn. by apply map_Forall_delete.
  - split; [|done]. cbn. intros k d [Hd _]%map_lookup_filter_Some. exact (Hst k d Hd).
Qed.

Lemma steps_well_issued w w' : rtc step w w' -> well_issued w -> well_issued w'.
Proof. induction 1; eauto using step_well_issued. Qed.

Lemma start_well_issued : well_issued start.
Proof. split; [apply map_Forall_empty|constructor]. Qed.

(** A token that was issued and is not in the store. *)
Definition gone (w : world) (token : string) : Prop := is_Some (issued w !! token) /\ tokens (store w) !! token = None.

Lemma step_gone w w' token : step w w' -> gone w token -> gone w' token.
Proof.
  intros Hs [[p Hp] Hn]. destruct Hs as [w i t now clock random Hi Hr|w tok|w subject data|w tok|w subject]; split; cbn [store issued]; eauto.
  - exists p. by apply note_issued_mono.
  - destruct (tokens (fst (visit _ _ _ _ _)) !! token) as [d|] eqn:E; [|done].
    apply visit_store in E as [E|(subject & data & -> & -> & ->)]; [congruence|]. specialize (Hr _ eq_refl). congruence.
  - cbn. by apply lookup_delete_None; right.
  - cbn. apply map_lookup_filter_None. by left.
Qed.

Lemma steps_gone w w' token : rtc step w w' -> gone w token -> gone w' token.
Proof. induction 1; eauto using step_gone. Qed.
Lemma rotating_issued w i token d : well_issued w -> threads w !! i = Some (Rotating token d) -> is_Some (issued w !! token).
Proof. intros [_ Hth] Hi. eapply Forall_lookup_1 in Hth; [|exact Hi]. cbn in Hth. by rewrite Hth. Qed.

(** ** Theorems *)

(** Whatever requests run at the same time, every refresh token in the store
    is one the service issued, for the subject and with the data it has there. *)
Theorem stored_is_issued w token d :
  rtc step start w -> tokens (store w) !! token = Some d -> issued w !! token = Some (rd_Subject d, rd_Data d).
Proof. intros Hs. apply (steps_well_issued _ _ Hs start_well_issued). Qed.

(** C12. Rotation is final: once a request has taken a refresh token out of the
    store, or a call has revoked it, no interleaving brings it back, and every
    later request with it is refused. *)
Theorem rotation_is_final w w1 w2 token :
  rtc step start w ->
  (is_Some (issued w !! token) /\ w1 = mkWorld (fst (RevokeRefreshToken (store w) token)) (threads w) (issued w) \/
   exists i d now clock random, threads w !! i = Some (Rotating token d) /\
     w1 = mkWorld (fst (visit (store w) now clock random (Rotating token d)))
            (<[i := snd (visit (store w) now clock random (Rotating token d))]> (threads w)) (issued w)) ->
  rtc step w1 w2 ->
  tokens (store w2) !! token = None /\
  forall now clock random, visit (store w2) now clock random (Loading token) = (store w2, Finished (Err (JwtErr ErrInvalidToken))).
Proof.
  intros Hr Hw Hs. assert (Hg : gone w1 token).
  { destruct Hw as [[Hi ->]|(i & d & now & clock & random & Hi & ->)]; split; try (cbn; by rewrite lookup_delete_eq); [exact Hi|].
    exact (rotating_issued w i token d (steps_well_issued _ _ Hr start_well_issued) Hi). }
  destruct (steps_gone _ _ _ Hs Hg) as [_ Hn]. split; [done|]. intros now clock random. cbn. unfold MRS_Load. by rewrite Hn.
Qed.

(** One request alone is [RefreshTokens]: three visits finish it, with the
    function's store and answer. *)
Theorem solo_refines st now clock random token :
  let run p := visit (fst p) now clock random (snd p) in
  run (run (run (st, Loading token))) =
    (fst (RefreshTokens st now clock random token), Finished (snd (RefreshTokens st now clock random token))).
Proof.
  cbv zeta. unfold RefreshTokens. cbn [fst snd visit]. cbn [rs_load memory_refresh_store]. unfold MRS_Load.
  destruct (tokens st !! token) as [d|]; [|done]. destruct (time_After now (rd_ExpiresAt d)) eqn:E; cbn [fst snd visit]; [done|].
  by destruct (CreateTokenPair _ clock random (rd_Subject d) (rd_Data d)).
Qed.

(** [RefreshTokens] on every branch: an unknown token is refused, an expired
    one is removed; a live one is removed too, whatever follows, and only where
    signing and the random source work is there a new one, for the same subject
    and data. *)
Theorem RefreshTokens_spec st now clock random token :
  RefreshTokens st now clock random token =
    match tokens st !! token with
    | None => (st, Err (JwtErr ErrInvalidToken))
    | Some d =>
        let rest := delete token (tokens st) in
        if rd_ExpiresAt d <? now then (mkMemoryRefreshStore rest, Err (JwtErr ErrTokenExpired))
        else match createAccessToken clock (rd_Subject d) (rd_Data d), random with
             | Ok access, Ok new =>
                 (mkMemoryRefreshStore (<[new := new_data clock (rd_Subject d) (rd_Data d)]> rest), Ok (new_pair access new))
             | Err e, _ | _, Err e => (mkMemoryRefreshStore rest, Err e)
             end
    end.
Proof.
  unfold RefreshTokens. cbn [rs_load rs_delete memory_refresh_store]. unfold MRS_Load.
  destruct (tokens st !! token) as [d|]; [|done]. unfold time_After. destruct (rd_ExpiresAt d <? now); [done|].
  rewrite CreateTokenPair_memory. cbn [fst MRS_Delete tokens]. by destruct (createAccessToken _ _ _), random.
Qed.

(** A refresh token can be used twice: of two requests with it, both may load
    it before either removes it, and then both are given a pair. *)
Theorem refresh_race st token d access a b now clock :
  tokens st !! token = Some d -> now <= rd_ExpiresAt d ->
  createAccessToken clock (rd_Subject d) (rd_Data d) = Ok access -> a <> b ->
  forall m, m !! a = None -> m !! b = None ->
  exists w, rtc step (mkWorld st [Loading token; Loading token] m) w /\
    threads w = [Finished (Ok (new_pair access a)); Finished (Ok (new_pair access b))] /\
    tokens (store w) !! a = Some (new_data clock (rd_Subject d) (rd_Data d)) /\
    tokens (store w) !! b = Some (new_data clock (rd_Subject d) (rd_Data d)).
Proof.
  intros Hd He Ha Hab m Hma Hmb.
  assert (Hload : forall r, visit st now clock r (Loading token) = (st, Rotating token d)).
  { intros r. cbn. unfold MRS_Load. rewrite Hd. unfold time_After. by rewrite (proj2 (Z.ltb_ge _ _)). }
  set (no := Err (A := string) (OtherErr 0)).
  assert (Hno : forall (mm : gmap string (string * D)) t, no = Ok t -> mm !! t = None) by done.
  eexists. split.
  { eapply rtc_l; [apply (step_visit _ 0 (Loading token) now clock no); [reflexivity|apply Hno]|]. rewrite Hload. cbn [fst snd store threads issued note_issued].
    eapply rtc_l; [apply (step_visit _ 1 (Loading token) now clock no); [reflexivity|apply Hno]|]. cbn [store]. rewrite Hload. cbn [fst snd store threads issued note_issued].
    eapply rtc_l; [apply (step_visit _ 0 (Rotating token d) now clock no); [reflexivity|apply Hno]|]. cbn [fst snd store threads issued note_issued visit].
    eapply rtc_l; [apply (step_visit _ 1 (Rotating token d) now clock no); [reflexivity|apply Hno]|]. cbn [fst snd store threads issued note_issued visit].
    eapply rtc_l; [apply (step_visit _ 0 (Creating (rd_Subject d) (rd_Data d)) now clock (Ok a)); [reflexivity|by intros t [= <-]]|].
    cbn [fst snd store threads issued note_issued visit]. rewrite CreateTokenPair_memory, Ha. cbn [fst snd].
    eapply rtc_l; [apply (step_visit _ 1 (Creating (rd_Subject d) (rd_Data d)) now clock (Ok b)); [reflexivity|]|].
    { intros t [= <-]. cbn [issued]. by rewrite lookup_insert_ne. }
    cbn [fst snd store threads issued note_issued visit]. rewrite CreateTokenPair_memory, Ha. cbn [fst snd]. apply rtc_refl. }
  cbn [threads store tokens]. split; [reflexivity|]. split; [by rewrite lookup_insert_ne, lookup_insert_eq|by rewrite lookup_insert_eq].
Qed.

(** [RevokeAllTokens] removes the tokens there are, for good; a request that
    is between removing its token and saving the next one is not among them, and
    leaves the subject with a live token afterwards. *)
Theorem revoke_all_spec w subject :
  rtc step start w ->
  let w1 := mkWorld (fst (RevokeAllTokens (store w) subject)) (threads w) (issued w) in
  (forall token d, tokens (store w1) !! token = Some d -> rd_Subject d <> subject) /\
  (forall token d w2, tokens (store w) !! token = Some d -> rd_Subject d = subject -> rtc step w1 w2 ->
     tokens (store w2) !! token = None) /\
  (forall i data clock access new, threads w !! i = Some (Creating subject data) ->
     createAccessToken clock subject data = Ok access -> issued w !! new = None ->
     exists w2, step w1 w2 /\ tokens (store w2) !! new = Some (new_data clock subject data)).
Proof.
  intros Hr w1. destruct (steps_well_issued _ _ Hr start_well_issued) as [Hst _]. split; [|split].
  - intros token d. cbn. by intros [_ H]%map_lookup_filter_Some.
  - intros token d w2 Hd Hsub Hs. apply (steps_gone w1 w2 token Hs). split; [exists (made_for d); exact (Hst _ _ Hd)|].
    cbn. apply map_lookup_filter_None. right. intros x Hx. rewrite Hd in Hx. injection Hx as <-. cbn. auto.
  - intros i data clock access new Hi Ha Hn. eexists. split.
    + apply (step_visit w1 i (Creating subject data) 0 clock (Ok new)); [exact Hi|]. by intros t [= <-].
    + cbn [store visit]. rewrite CreateTokenPair_memory, Ha. cbn [fst tokens]. by rewrite lookup_insert_eq.
Qed.
End refresh.

(** ** With the signer of [Jwt] *)

(** C0. The two halves of a new pair: the access token is accepted by the signer
    that made it, as the subject's, until the whole second in which it expires,
    and the refresh token is in the store with the subject and data. *)
Definition default_claims {D : Type} (svc : TokenService (D := D)) (clock : nat -> Time) (subject : string) : Claims :=
  mkClaims (issuer svc) subject (audience svc) (Some (time_Add (clock 1%nat) (accessTTL svc))) None (Some (clock 0%nat)) "".

Theorem pair_usable {D : Type} (svc : TokenService (D := D)) print parse hmac s oob st clock token subject data now :
  let c := default_claims svc clock subject in
  claimsFunc svc = None -> reads_back print parse (header_json s) -> reads_back print parse (claims_json (StdClaims c)) -> times_fit c ->
  exists st' pair,
    CreateTokenPair svc (fun a => Ok (Sign print hmac s a)) oob st clock (Ok token) subject data = (st', Ok pair) /\
    rs_load st' (RefreshToken pair) = Ok (new_data svc clock subject data) /\
    Verify parse hmac s now (AccessToken pair) (StdClaims no_claims) =
      (if now <=? floor_second (time_Add (clock 1%nat) (accessTTL svc)) then Ok (StdClaims (truncated c)) else Err ErrTokenExpired).
Proof.
  intros c Hf Hh Hc Ht. rewrite CreateTokenPair_memory. unfold createAccessToken.
  eexists _, _. split; [done|]. unfold access_claims, new_pair. rewrite Hf. cbn [AccessToken RefreshToken]. split.
  - cbn. unfold MRS_Load. cbn [tokens]. by rewrite lookup_insert_eq.
  - pose proof (verify_signed print parse hmac s now (StdClaims c) Hh Hc Ht) as Hv. cbn [fresh carried validate] in Hv.
    unfold c, default_claims in Hv. rewrite Hv. unfold Valid, truncated. cbn [ExpiresAt NotBefore].
    change (floor_second <$> Some ?t) with (Some (floor_second t)). unfold time_After.
    rewrite Z.leb_antisym. by destruct (_ <? _).
Qed.

(** ** Examples *)

Definition sample_service : TokenService (D := nat) := NewTokenService (mkTokenService 0 0 "" [] None).
Definition sample_sign (a : any_claims) : result service_error string := Ok "jwt".
Definition sample_store : MemoryRefreshStore (D := nat) :=
  mkMemoryRefreshStore {["t0" := mkRefreshData "bob" 0 100 7%nat]}.

Lemma refresh_race_witness :
  exists w, rtc (step sample_service sample_sign (fun _ => 0)) (mkWorld sample_store [Loading "t0"; Loading "t0"] ∅) w /\
    is_Some (tokens (store w) !! "a") /\ is_Some (tokens (store w) !! "b").
Proof.
  destruct (refresh_race sample_service sample_sign (fun _ => 0) sample_store "t0" (mkRefreshData "bob" 0 100 7%nat) "jwt" "a" "b" 5 (fun _ => 5)
    eq_refl ltac:(cbn; lia) eq_refl ltac:(discriminate) ∅ (lookup_empty _) (lookup_empty _)) as (w & H1 & _ & H2 & H3).
  exists w. split; [exact H1|]. rewrite H2, H3. split; eexists; reflexivity.
Defined.

(** A world a few steps on: one pair made, one request that rotates it. *)
Definition sample_world : world (D := nat) :=
  mkWorld (mkMemoryRefreshStore {["t0" := new_data sample_service (fun _ => 5) "bob" 7%nat]})
    [Finished (Ok (new_pair sample_service (fun _ => 0) "jwt" "t0")); Rotating "t0" (new_data sample_service (fun _ => 5) "bob" 7%nat)]
    {["t0" := ("bob", 7%nat)]}.

Lemma sample_reachable : rtc (step sample_service sample_sign (fun _ => 0)) start sample_world.
Proof.
  eapply rtc_l; [apply (step_create _ _ _ _ "bob" 7%nat)|].
  eapply rtc_l; [apply (step_visit _ _ _ _ 0 (Creating "bob" 7%nat) 5 (fun _ => 5) (Ok "t0")); [reflexivity|]|].
  { intros t _. apply lookup_empty. }
  eapply rtc_l; [apply (step_refresh _ _ _ _ "t0")|].
  eapply rtc_l; [apply (step_visit _ _ _ _ 1 (Loading "t0") 5 (fun _ => 5) (Err (OtherErr 0))); [reflexivity|discriminate]|].
  apply rtc_refl.
Qed.

Lemma stored_is_issued_witness : issued sample_world !! "t0" = Some ("bob", 7%nat).
Proof.
  exact (stored_is_issued sample_service sample_sign (fun _ => 0) sample_world "t0" (new_data sample_service (fun _ => 5) "bob" 7%nat)
    sample_reachable eq_refl).
Defined.

Lemma rotation_is_final_witness :
  tokens (store (mkWorld (fst (RevokeRefreshToken (store sample_world) "t0")) (threads sample_world) (issued sample_world))) !! "t0" = None.
Proof.
  apply (rotation_is_final sample_service sample_sign (fun _ => 0) sample_world
    (mkWorld (fst (RevokeRefreshToken (store sample_world) "t0")) (threads sample_world) (issued sample_world)) _ "t0"
    sample_reachable); [left; split; [by eexists|reflexivity]|apply rtc_refl].
Defined.

Definition revoked_world : world (D := nat) :=
  mkWorld (fst (RevokeAllTokens (store sample_world) "bob")) (threads sample_world) (issued sample_world).

Lemma revoke_all_spec_witness : tokens (store revoked_world) !! "t0" = None.
Proof.
  refine (proj1 (proj2 (revoke_all_spec sample_service sample_sign (fun _ => 0) sample_world "bob" sample_reachable)) "t0"
    (new_data sample_service (fun _ => 5) "bob" 7%nat) revoked_world eq_refl eq_refl _).
  apply rtc_refl.
Defined.

Definition pair_claims : any_claims := StdClaims (default_claims sample_service (fun _ => 5) "bob").
Definition pair_parse (t : string) : option json :=
  Some (if String.eqb t "H" then header_json sample_signer else claims_json pair_claims).

Lemma pair_usable_witness :
  exists st' pair,
    CreateTokenPair sample_service (fun a => Ok (Sign sample_print sample_hmac sample_signer a)) (fun _ => 0)
      sample_store (fun _ => 5) (Ok "n") "bob" 1%nat = (st', Ok pair) /\
    rs_load st' (RefreshToken pair) = Ok (new_data sample_service (fun _ => 5) "bob" 1%nat) /\
    Verify pair_parse sample_hmac sample_signer (900 * Second) (AccessToken pair) (StdClaims no_claims) <> Err ErrTokenExpired.
Proof.
  destruct (pair_usable sample_service sample_print pair_parse sample_hmac sample_signer (fun _ => 0) sample_store (fun _ => 5) "n" "bob" 1%nat
    (900 * Second) eq_refl eq_refl eq_refl) as (st' & pair & H1 & H2 & H3).
  - split; [split; reflexivity|]. split; [exact I|split; reflexivity].
  - exists st', pair. split; [exact H1|]. split; [exact H2|]. rewrite H3. discriminate.
Defined.
