(* ===== verification/Oauth.v ===== *)
(** * Signing in through an OAuth2 provider, and API keys

    [src/pantry/auth/oauth2/oauth2.go] and [store.go]: the states that tie a
    callback to a login, the sessions, the handlers for login, callback and
    logout and the checks of a session; and [src/pantry/auth/apikey].

    The provider is remote: [exchange] and [fetch] are what it answers.  The
    callback goes to the two stores at different moments; besides the functions
    there are threads that make these visits one at a time, in any interleaving
    ([step]). *)

From stdpp Require Import gmap strings relations.
From S2P Require Import Prelude GoStrings Float64 QueryString.

#[local] Open Scope list_scope.

(** ** Sessions and states *)

(** The token of the OAuth2 library, by what is copied from it. *)
Record Token := mkToken { t_AccessToken : string; t_RefreshToken : string; t_Expiry : Time }.

Record User := mkUser {
  u_ID : string; u_Email : string; u_EmailVerified : bool; u_Name : string; u_Picture : string; u_Provider : string;
  u_AccessToken : string; u_RefreshToken : string; u_TokenExpiry : Time; u_Extra : gmap string string
}.

Record Session := mkSession { s_ID : string; s_User : User; s_CreatedAt : Time; s_ExpiresAt : Time }.

Definition IsExpired (now : Time) (s : Session) : bool := time_After now (s_ExpiresAt s).

Definition Session_Save (m : gmap string Session) (s : Session) : gmap string Session := <[s_ID s := s]> m.
Definition Session_Get (m : gmap string Session) (now : Time) (id : string) : option Session :=
  match m !! id with
  | Some s => if IsExpired now s then None else Some s
  | None => None
  end.
Definition Session_Delete (m : gmap string Session) (id : string) : gmap string Session := delete id m.

(** [Cleanup]: what is left, and how many were dropped. *)
Definition Session_Cleanup (m : gmap string Session) (now : Time) : gmap string Session * Z :=
  let m' := filter (fun kv => IsExpired now kv.2 = false) m in
  (m', Z.of_nat (size m) - Z.of_nat (size m')).

Definition State_Save (m : gmap string Time) (state : string) (expiresAt : Time) : gmap string Time := <[state := expiresAt]> m.

Definition Validate (m : gmap string Time) (now : Time) (state : string) : gmap string Time * bool :=
  match m !! state with
  | None => (m, false)
  | Some expiresAt => (delete state m, negb (time_After now expiresAt))
  end.

Definition State_Cleanup (m : gmap string Time) (now : Time) : gmap string Time * Z :=
  let m' := filter (fun kv => time_After now kv.2 = false) m in
  (m', Z.of_nat (size m) - Z.of_nat (size m')).

(** ** The provider *)

Inductive SameSite : Type := SameSiteUnset | SameSiteLax | SameSiteOther (n : nat).

Record Config := mkConfig {
  ProviderName : string; SessionDuration : Duration; StateDuration : Duration;
  CookieName : string; CookiePath : string; CookieSecure : bool; CookieSameSite : SameSite
}.

(** The defaults [NewProvider] fills in. *)
Definition NewProvider (cfg : Config) : Config :=
  mkConfig (if String.eqb (ProviderName cfg) "" then "oauth2" else ProviderName cfg)
    (if SessionDuration cfg =? 0 then 24 * Hour else SessionDuration cfg)
    (if StateDuration cfg =? 0 then 10 * Minute else StateDuration cfg)
    (if String.eqb (CookieName cfg) "" then "waffle_session" else CookieName cfg)
    (if String.eqb (CookiePath cfg) "" then "/" else CookiePath cfg)
    (CookieSecure cfg)
    (match CookieSameSite cfg with SameSiteUnset => SameSiteLax | s => s end).

Record Request := mkRequest { r_query : string; r_cookie : string -> option string }.

Record Cookie := mkCookie { ck_Name : string; ck_Value : string; ck_Path : string; ck_Secure : bool; ck_SameSite : SameSite; ck_MaxAge : Z }.

Inductive auth_error : Type :=
  | StateNotGenerated | ProviderError (error description : string) | MissingState | InvalidState | MissingCode
  | ExchangeFailed | FetchFailed | SessionNotGenerated.

Inductive answer : Type :=
  | ToProvider (state : string)
  | SignedIn (u : User) (c : Cookie)
  | SignedOut (c : Cookie)
  | Refused (e : auth_error)
  | NotSignedIn
  | Next (u : User).

Record stores := mkStores { sessions : gmap string Session; states : gmap string Time }.

Section provider.
Context (cfg : Config) (exchange : string -> option Token) (fetch : Token -> option User) (oob : float64 -> Z).

Definition LoginHandler (st : stores) (now : Time) (state : option string) : stores * answer :=
  match state with
  | None => (st, Refused StateNotGenerated)
  | Some state => (mkStores (sessions st) (State_Save (states st) state (time_Add now (StateDuration cfg))), ToProvider state)
  end.

Definition query_get (r : Request) (key : string) : string := values_get (URL_Query (r_query r)) key.

(** What the provider said of the user, with the token. *)
Definition signed_user (u : User) (t : Token) : User :=
  mkUser (u_ID u) (u_Email u) (u_EmailVerified u) (u_Name u) (u_Picture u) (ProviderName cfg)
    (t_AccessToken t) (t_RefreshToken t) (t_Expiry t) (u_Extra u).

Definition session_cookie (id : string) : Cookie :=
  mkCookie (CookieName cfg) id (CookiePath cfg) (CookieSecure cfg) (CookieSameSite cfg)
    (f64_to_int64 oob (Seconds (SessionDuration cfg))).

Definition cleared_cookie : Cookie :=
  mkCookie (CookieName cfg) "" (CookiePath cfg) (CookieSecure cfg) (CookieSameSite cfg) (-1).

(** The callback up to its visit of the states: a refusal, or the state to look for. *)
Definition callback_state (r : Request) : answer + string :=
  if negb (String.eqb (query_get r "error") "")
  then inl (Refused (ProviderError (query_get r "error") (query_get r "error_description")))
  else if String.eqb (query_get r "state") "" then inl (Refused MissingState)
  else inr (query_get r "state").

(** From there to its visit of the sessions. *)
Definition callback_user (r : Request) : answer + User :=
  if String.eqb (query_get r "code") "" then inl (Refused MissingCode)
  else match exchange (query_get r "code") with
       | None => inl (Refused ExchangeFailed)
       | Some t =>
           match fetch t with
           | None => inl (Refused FetchFailed)
           | Some u => inr (signed_user u t)
           end
       end.

Definition callback_session (st : stores) (now : Time) (id : option string) (u : User) : stores * answer :=
  match id with
  | None => (st, Refused SessionNotGenerated)
  | Some id =>
      (mkStores (Session_Save (sessions st) (mkSession id u now (time_Add now (SessionDuration cfg)))) (states st),
       SignedIn u (session_cookie id))
  end.

Definition CallbackHandler (st : stores) (now : Time) (id : option string) (r : Request) : stores * answer :=
  match callback_state r with
  | inl a => (st, a)
  | inr state =>
      match Validate (states st) now state with
      | (m, false) => (mkStores (sessions st) m, Refused InvalidState)
      | (m, true) =>
          let st := mkStores (sessions st) m in
          match callback_user r with
          | inl a => (st, a)
          | inr u => callback_session st now id u
          end
      end
  end.

Definition LogoutHandler (st : stores) (r : Request) : stores * answer :=
  match r_cookie r (CookieName cfg) with
  | Some v => (if String.eqb v "" then st else mkStores (Session_Delete (sessions st) v) (states st), SignedOut cleared_cookie)
  | None => (st, SignedOut cleared_cookie)
  end.

Definition GetSession (st : stores) (now : Time) (r : Request) : option Session :=
  match r_cookie r (CookieName cfg) with
  | Some v => if String.eqb v "" then None else Session_Get (sessions st) now v
  | None => None
  end.

(** [RequireAuth] and [RequireAuthJSON], which differ in how they refuse. *)
Definition RequireAuth (st : stores) (now : Time) (r : Request) : answer :=
  match GetSession st now r with
  | Some s => if IsExpired now s then NotSignedIn else Next (s_User s)
  | None => NotSignedIn
  end.

(** ** Requests at the same time *)

Inductive thread : Type :=
  | CallbackStart (r : Request)
  | CallbackValidated (r : Request) (state : string)
  | CallbackDone (a : answer) (state : option string) (id : option string).

(** [issued]: the states that logins made; [used]: those that callbacks passed
    with, in order; [ids]: the identifiers of the sessions made. *)
Record world := mkWorld { st : stores; threads : list thread; issued : list string; used : list string; ids : list string }.

Definition visit (w : world) (now : Time) (id : option string) (t : thread) : stores * thread * list string * list string :=
  match t with
  | CallbackStart r =>
      match callback_state r with
      | inl a => (st w, CallbackDone a None None, used w, ids w)
      | inr state =>
          match Validate (states (st w)) now state with
          | (m, false) => (mkStores (sessions (st w)) m, CallbackDone (Refused InvalidState) None None, used w, ids w)
          | (m, true) => (mkStores (sessions (st w)) m, CallbackValidated r state, used w ++ [state], ids w)
          end
      end
  | CallbackValidated r state =>
      match callback_user r with
      | inl a => (st w, CallbackDone a (Some state) None, used w, ids w)
      | inr u =>
          let '(s, a) := callback_session (st w) now id u in
          (s, CallbackDone a (Some state) id, used w, match id with Some i => ids w ++ [i] | None => ids w end)
      end
  | CallbackDone a s i => (st w, CallbackDone a s i, used w, ids w)
  end.

(** Random values are new. *)
Inductive step : world -> world -> Prop :=
  | step_login w now state : state ∉ issued w ->
      step w (mkWorld (fst (LoginHandler (st w) now (Some state))) (threads w) (issued w ++ [state]) (used w) (ids w))
  | step_callback w r : step w (mkWorld (st w) (threads w ++ [CallbackStart r]) (issued w) (used w) (ids w))
  | step_visit w i t now id s t' u k :
      threads w !! i = Some t -> (forall x, id = Some x -> x ∉ ids w) -> visit w now id t = (s, t', u, k) ->
      step w (mkWorld s (<[i := t']> (threads w)) (issued w) u k)
  | step_logout w r : step w (mkWorld (fst (LogoutHandler (st w) r)) (threads w) (issued w) (used w) (ids w))
  | step_cleanup w now :
      step w (mkWorld (mkStores (fst (Session_Cleanup (sessions (st w)) now)) (fst (State_Cleanup (states (st w)) now)))
                (threads w) (issued w) (used w) (ids w)).

Definition start : world := mkWorld (mkStores ∅ ∅) [] [] [] [].

(** ** Lemmas *)

(** The states in store were issued and not used, and every one used was issued,
    once; a session in store has an identifier that was made. *)
Record sound (w : world) : Prop := {
  so_store : forall s, is_Some (states (st w) !! s) -> s ∈ issued w /\ s ∉ used w;
  so_used : NoDup (used w);
  so_issued : used w ⊆ issued w;
  so_nodup : NoDup (issued w);
  so_ids : forall i, is_Some (sessions (st w) !! i) -> i ∈ ids w
}.

Lemma Validate_true m now s m' : Validate m now s = (m', true) -> exists e, m !! s = Some e /\ now <= e /\ m' = delete s m.
Proof.
  unfold Validate, time_After. destruct (m !! s) as [e|]; [|done]. intros [= <- H]. exists e.
  split; [done|]. split; [|done]. apply negb_true_iff, Z.ltb_ge in H. done.
Qed.

Lemma Validate_sub m now s k : is_Some (fst (Validate m now s) !! k) -> is_Some (m !! k).
Proof. unfold Validate. destruct (m !! s); [|done]. cbn. intros [x [_ Hx]%lookup_delete_Some]. by exists x. Qed.

Lemma step_sound w w' : step w w' -> sound w -> sound w'.
Proof.
  intros Hs [H1 H2 H3 H4 H5]. destruct Hs as [w now state Hn|w r|w i t now id s t' u k Hi Hid Hv|w r|w now].
  - split; cbn [st used issued ids states sessions LoginHandler fst]; try done.
    + intros x [e He]. unfold State_Save in He. apply lookup_insert_Some in He as [[-> _]|[_ He]].
      * split; [apply elem_of_app; right; by apply list_elem_of_singleton|]. intros Hu. by apply H3 in Hu.
      * destruct (H1 x) as [Ha Hb]; [by exists e|]. split; [apply elem_of_app; by left|done].
    + intros x Hx. apply elem_of_app. left. by apply H3.
    + apply list.NoDup_app. split; [done|]. split; [|by apply NoDup_singleton]. intros x Hx ->%list_elem_of_singleton. done.
  - by split.
  - destruct t as [r|r state|a x y]; cbn [visit] in Hv.
    + destruct (callback_state r) as [a|state]; [injection Hv as <- <- <- <-; by split|].
      destruct (Validate (states (st w)) now state) as [m ok] eqn:E. destruct ok; injection Hv as <- <- <- <-.
      * apply Validate_true in E as (e & He & _ & ->). split; cbn [st used issued ids states sessions]; try done.
        -- intros x Hx. apply lookup_delete_is_Some in Hx as [Hne Hx]. destruct (H1 x Hx) as [Ha Hb]. split; [done|].
           intros [Hu|Hu%list_elem_of_singleton]%elem_of_app; [done|by subst].
        -- apply list.NoDup_app. split; [done|]. split; [|by apply NoDup_singleton]. intros x Hx ->%list_elem_of_singleton.
           by apply (H1 state); [exists e|].
        -- intros x [Hx|Hx%list_elem_of_singleton]%elem_of_app; [by apply H3|]. subst x. apply (H1 state). by exists e.
      * split; cbn [st used issued ids states sessions]; try done. intros x Hx. apply H1.
        eapply Validate_sub. rewrite E. exact Hx.
    + destruct (callback_user r) as [a|user]; [injection Hv as <- <- <- <-; by split|].
      destruct id as [id|]; cbn [callback_session] in Hv; injection Hv as <- <- <- <-; [|by split].
      split; cbn [st used issued ids states sessions]; try done. intros x [y Hy]. unfold Session_Save in Hy.
      apply elem_of_app. apply lookup_insert_Some in Hy as [[<- _]|[_ Hy]]; [right; by apply list_elem_of_singleton|].
      left. apply H5. by exists y.
    + injection Hv as <- <- <- <-. by split.
  - unfold LogoutHandler. destruct (r_cookie r (CookieName cfg)) as [v|]; [|by split].
    destruct (String.eqb v ""); [by split|]. split; cbn; try done. intros i [x Hx]. unfold Session_Delete in Hx. apply H5. apply lookup_delete_Some in Hx as [_ Hx].
    by exists x.
  - split; cbn [st used issued ids states sessions Session_Cleanup State_Cleanup fst]; try done.
    + intros x [e He]. apply H1. apply map_lookup_filter_Some in He as [He _]. by exists e.
    + intros i [x Hx]. apply H5. apply map_lookup_filter_Some in Hx as [Hx _]. by exists x.
Qed.

Lemma steps_sound w w' : rtc step w w' -> sound w -> sound w'.
Proof. induction 1; eauto using step_sound. Qed.

Lemma start_sound : sound start.
Proof.
  split; cbn; [|constructor|done|constructor|]; intros s [x Hx]; by rewrite lookup_empty in Hx.
Qed.

(** A session that was made and is no longer in store. *)
Definition ended (w : world) (i : string) : Prop := i ∈ ids w /\ sessions (st w) !! i = None.

Lemma step_ended w w' i : step w w' -> ended w i -> ended w' i.
Proof.
  intros Hs [H1 H2]. destruct Hs as [w now state Hn|w r|w j t now id s t' u k Hi Hid Hv|w r|w now]; try by split.
  - destruct t as [r|r state|a x y]; cbn [visit] in Hv.
    + destruct (callback_state r); [injection Hv as <- <- <- <-; by split|].
      destruct (Validate _ _ _) as [m []]; injection Hv as <- <- <- <-; by split.
    + destruct (callback_user r) as [a|user]; [injection Hv as <- <- <- <-; by split|].
      destruct id as [id|]; cbn [callback_session] in Hv; injection Hv as <- <- <- <-; [|by split].
      split; cbn [ids st sessions]; [apply elem_of_app; by left|]. unfold Session_Save. cbn [s_ID].
      rewrite lookup_insert_ne; [done|]. intros ->. by apply (Hid i).
    + injection Hv as <- <- <- <-. by split.
  - split; [done|]. unfold LogoutHandler. destruct (r_cookie r (CookieName cfg)) as [v|]; [|done]. destruct (String.eqb v ""); [done|].
    cbn. apply lookup_delete_None. by right.
  - split; [done|]. cbn. apply map_lookup_filter_None. by left.
Qed.

Lemma steps_ended w w' i : rtc step w w' -> ended w i -> ended w' i.
Proof. induction 1; eauto using step_ended. Qed.
(** ** Theorems *)

(** C28. Under every interleaving, a callback passes the check of its state at
    most once for each login: the states that callbacks passed with are distinct,
    were all made by logins, and are no longer in store. *)
Theorem state_used_once w :
  rtc step start w ->
  NoDup (used w) /\ used w ⊆ issued w /\ (length (used w) <= length (issued w))%nat /\
  forall s, s ∈ used w -> states (st w) !! s = None.
Proof.
  intros Hs. destruct (steps_sound _ _ Hs start_sound) as [H1 H2 H3 H4 H5]. split; [done|]. split; [done|]. split.
  - by apply submseteq_length, NoDup_submseteq.
  - intros s Hu. destruct (states (st w) !! s) eqn:E; [|done]. exfalso. by apply (H1 s); [eexists|].
Qed.

(** Signing out is final: the session of the request's cookie is gone from
    the store, no later step brings it back, and every later request with that
    cookie is refused. *)
Theorem logout_final w r id w' r' now :
  rtc step start w -> r_cookie r (CookieName cfg) = Some id -> id <> "" -> is_Some (sessions (st w) !! id) ->
  rtc step (mkWorld (fst (LogoutHandler (st w) r)) (threads w) (issued w) (used w) (ids w)) w' ->
  r_cookie r' (CookieName cfg) = Some id ->
  sessions (st w') !! id = None /\ RequireAuth (st w') now r' = NotSignedIn.
Proof.
  intros Hs Hc Hne Hi Hs' Hc'. destruct (steps_sound _ _ Hs start_sound) as [_ _ _ _ H5].
  assert (He : ended (mkWorld (fst (LogoutHandler (st w) r)) (threads w) (issued w) (used w) (ids w)) id).
  { split; [by apply H5|]. cbn [st]. unfold LogoutHandler. rewrite Hc, (proj2 (String.eqb_neq _ _)) by done. cbn.
    apply lookup_delete_eq. }
  destruct (steps_ended _ _ _ Hs' He) as [_ Hn]. split; [done|].
  unfold RequireAuth, GetSession. rewrite Hc', (proj2 (String.eqb_neq _ _)) by done. unfold Session_Get. by rewrite Hn.
Qed.

(** A callback signs in exactly when the provider reports no error, the state
    is in store and not past its time, and the code leads to a token and that to
    a user; the state is taken out of the store in any case but the first two,
    and the session made is the cookie's, for the user, until the configured
    time. *)
Theorem CallbackHandler_spec s now id r u c s' :
  CallbackHandler s now (Some id) r = (s', SignedIn u c) <->
  query_get r "error" = "" /\ query_get r "state" <> "" /\ query_get r "code" <> "" /\
  (exists e, states s !! query_get r "state" = Some e /\ now <= e) /\
  (exists t v, exchange (query_get r "code") = Some t /\ fetch t = Some v /\ u = signed_user v t) /\
  c = session_cookie id /\
  s' = mkStores (<[id := mkSession id u now (time_Add now (SessionDuration cfg))]> (sessions s)) (delete (query_get r "state") (states s)).
Proof.
  unfold CallbackHandler, callback_state.
  destruct (String.eqb_spec (query_get r "error") "") as [He|He]; cbn [negb]; [|split; [by intros [=]|by intros (? & _)]].
  destruct (String.eqb_spec (query_get r "state") "") as [Hst|Hst]; [split; [by intros [=]|by intros (_ & ? & _)]|].
  destruct (Validate (states s) now (query_get r "state")) as [m ok] eqn:Ev. destruct ok.
  - apply Validate_true in Ev as (e & Hse & Hle & ->). unfold callback_user.
    destruct (String.eqb_spec (query_get r "code") "") as [Hco|Hco]; [split; [by intros [=]|by intros (_ & _ & ? & _)]|].
    destruct (exchange (query_get r "code")) as [t|]; [|split; [by intros [=]|by intros (_ & _ & _ & _ & (? & ? & [=] & _) & _)]].
    destruct (fetch t) as [v|] eqn:Ef; [|split; [by intros [=]|intros (_ & _ & _ & _ & (? & ? & [= <-] & ? & _) & _); congruence]].
    cbn [callback_session sessions states]. split.
    + intros [= <- <- <-]. do 3 (split; [done|]). split; [by exists e|]. split; [by exists t, v|]. by split.
    + intros (_ & _ & _ & _ & (t' & v' & [= <-] & Hv & ->) & -> & ->). rewrite Ef in Hv. by injection Hv as <-.
  - split; [by intros [=]|]. intros (_ & _ & _ & (e & Hse & Hle) & _). unfold Validate, time_After in Ev. rewrite Hse in Ev.
    injection Ev as _ Ev. apply negb_false_iff, Z.ltb_lt in Ev. lia.
Qed.

(** A request passes with exactly the user of the session its cookie names,
    while that is in store and not past its time. *)
Theorem RequireAuth_spec s now r u :
  RequireAuth s now r = Next u <->
  exists id x, r_cookie r (CookieName cfg) = Some id /\ id <> "" /\ sessions s !! id = Some x /\ now <= s_ExpiresAt x /\ s_User x = u.
Proof.
  unfold RequireAuth, GetSession, Session_Get. split.
  - destruct (r_cookie r (CookieName cfg)) as [id|]; [|done]. destruct (String.eqb_spec id ""); [done|].
    destruct (sessions s !! id) as [x|] eqn:E; [|done]. destruct (IsExpired now x) eqn:Ex; [done|].
    intros H. cbv iota beta in H. rewrite Ex in H. injection H as <-. exists id, x. do 3 (split; [done|]). split; [|done].
    by apply Z.ltb_ge in Ex.
  - intros (id & x & -> & Hne & Hx & Hle & <-). rewrite (proj2 (String.eqb_neq _ _)), Hx by done.
    assert (Ex : IsExpired now x = false) by by apply Z.ltb_ge. by rewrite !Ex.
Qed.
End provider.

(** ** Examples *)

Definition sample_config : Config := NewProvider (mkConfig "google" 0 0 "" "" false SameSiteUnset).
Definition sample_user : User := mkUser "42" "a@b.c" true "A" "" "" "" "" 0 ∅.
Definition sample_exchange (code : string) : option Token := if String.eqb code "c" then Some (mkToken "at" "rt" 9) else None.
Definition sample_fetch (t : Token) : option User := Some sample_user.
Definition back : Request := mkRequest "state=s1&code=c" (fun _ => None).
Definition with_session : Request := mkRequest "" (fun k => if String.eqb k "waffle_session" then Some "id1" else None).
Notation sample_step := (step sample_config sample_exchange sample_fetch (fun _ => 0)).

Definition signed_in : world :=
  mkWorld (mkStores {["id1" := mkSession "id1" (signed_user sample_config sample_user (mkToken "at" "rt" 9)) 5 (5 + 24 * Hour)]} ∅)
    [CallbackDone (SignedIn (signed_user sample_config sample_user (mkToken "at" "rt" 9))
       (session_cookie sample_config (fun _ => 0) "id1")) (Some "s1") (Some "id1")] ["s1"] ["s1"] ["id1"].

Lemma signed_in_reachable : rtc sample_step start signed_in.
Proof.
  eapply rtc_l; [apply (step_login _ _ _ _ _ 0 "s1"); by intros ?%elem_of_nil|].
  eapply rtc_l; [apply (step_callback _ _ _ _ _ back)|].
  eapply rtc_l; [eapply (step_visit _ _ _ _ _ 0 (CallbackStart back) 5 None); [reflexivity|done|vm_compute; reflexivity]|].
  eapply rtc_l; [eapply (step_visit _ _ _ _ _ 0 (CallbackValidated back "s1") 5 (Some "id1"));
    [reflexivity|by intros x _ ?%elem_of_nil|vm_compute; reflexivity]|].
  apply rtc_refl.
Qed.

Lemma state_used_once_witness : states (st signed_in) !! "s1" = None /\ used signed_in = ["s1"].
Proof.
  destruct (state_used_once sample_config sample_exchange sample_fetch (fun _ => 0) signed_in signed_in_reachable) as (_ & _ & _ & H).
  split; [apply H; left|reflexivity].
Defined.

Lemma logout_final_witness :
  RequireAuth sample_config (st signed_in) 6 with_session <> NotSignedIn /\
  RequireAuth sample_config (fst (LogoutHandler sample_config (st signed_in) with_session)) 6 with_session = NotSignedIn.
Proof.
  split; [discriminate|].
  apply (logout_final sample_config sample_exchange sample_fetch (fun _ => 0) signed_in with_session "id1"
    (mkWorld (fst (LogoutHandler sample_config (st signed_in) with_session)) (threads signed_in) (issued signed_in) (used signed_in) (ids signed_in))
    with_session 6 signed_in_reachable); [reflexivity|discriminate|by eexists|apply rtc_refl|reflexivity].
Defined.

(** ** API keys ([auth/apikey]) *)

Record KeyRequest := mkKeyRequest { k_header : string -> string; k_query : string; k_cookie : string -> option string }.

Definition apiKeyFromRequest (r : KeyRequest) : option string :=
  let auth := TrimSpace (k_header r "Authorization") in
  let token := if HasPrefix (ToLower auth) "bearer " then TrimSpace (str_drop 7 auth) else "" in
  if negb (String.eqb token "") then Some token
  else
    let key := TrimSpace (k_header r "X-API-Key") in
    if negb (String.eqb key "") then Some key
    else
      let key := TrimSpace (values_get (URL_Query (k_query r)) "api_key") in
      if negb (String.eqb key "") then Some key else None.

Inductive key_answer : Type :=
  | Misconfigured
  | Unauthorized (realm : string)
  (** the cookie to set, if any *)
  | Authorized (cookie : option Cookie).

Definition key_of (cookieName : string) (r : KeyRequest) : option string :=
  match apiKeyFromRequest r with
  | Some k => Some k
  | None =>
      if String.eqb cookieName "" then None
      else match k_cookie r cookieName with
           | Some v => let v := TrimSpace v in if String.eqb v "" then None else Some v
           | None => None
           end
  end.

Definition key_cookie (cookieName expected : string) : Cookie := mkCookie cookieName expected "/" true SameSiteLax 0.

Definition Require (expected realm cookieName : string) (r : KeyRequest) : key_answer :=
  let expected := TrimSpace expected in
  if String.eqb expected "" then Misconfigured
  else match key_of cookieName r with
       | Some k =>
           if String.eqb k expected
           then Authorized (if String.eqb cookieName "" then None else Some (key_cookie cookieName expected))
           else Unauthorized (if String.eqb (TrimSpace realm) "" then "waffle" else realm)
       | None => Unauthorized (if String.eqb (TrimSpace realm) "" then "waffle" else realm)
       end.

(** A request passes exactly when a key is configured and the first key it
    brings, by the bearer token, the header, the query or the cookie, is that
    key: a wrong one that comes earlier hides a right one that comes later. *)
Theorem Require_spec expected realm cookieName r c :
  Require expected realm cookieName r = Authorized c <->
  TrimSpace expected <> "" /\ key_of cookieName r = Some (TrimSpace expected) /\
  c = (if String.eqb cookieName "" then None else Some (key_cookie cookieName (TrimSpace expected))).
Proof.
  unfold Require. destruct (String.eqb_spec (TrimSpace expected) "") as [He|He]; [split; [done|by intros []]|].
  destruct (key_of cookieName r) as [k|]; [|split; [done|by intros (_ & ? & _)]].
  destruct (String.eqb_spec k (TrimSpace expected)) as [->|Hk]; split.
  - by intros [= <-].
  - by intros (_ & _ & ->).
  - done.
  - intros (_ & [= ->] & _). done.
Qed.
