(* ===== verification/Password.v ===== *)
(** * Passwords

    [src/pantry/crypto/password.go]: the text of an Argon2 hash and its parsing,
    verifying, the bcrypt wrappers, generated passwords, their strength and
    policies.

    [IDKey] (Argon2id) and bcrypt are other packages'; [IDKey] may panic ([None]),
    as it does without iterations or threads.  Random bytes are arguments.  The part of [fmt.Sscanf] that reads the parameters is written out
    on the runes of its input. *)

From stdpp Require Import list numbers strings.
From S2P Require Import Prelude GoStrings Utf8 Base64.

#[local] Open Scope list_scope.

(** ** Hashes *)

Inductive crypto_error : Type := ErrInvalidHash | ErrIncompatibleVersion | ErrMismatchedPassword | ErrRandom | ErrMismatchedHashAndPassword | ErrBcrypt (n : nat).

Record Argon2Params := mkParams { Memory : Z; Iterations : Z; Parallelism : Z; SaltLength : Z; KeyLength : Z }.

Definition DefaultArgon2Params : Argon2Params := mkParams (64 * 1024) 3 2 16 32.
Definition LowMemoryArgon2Params : Argon2Params := mkParams (32 * 1024) 4 2 16 32.

(** [argon2.Version]. *)
Definition Version : Z := 19.

Definition encode_hash (p : Argon2Params) (salt hash : string) : string :=
  "$argon2id$v=" +:+ Itoa Version +:+ "$m=" +:+ Itoa (Memory p) +:+ ",t=" +:+ Itoa (Iterations p) +:+
  ",p=" +:+ Itoa (Parallelism p) +:+ "$" +:+ std_encode salt +:+ "$" +:+ std_encode hash.

(** ** [fmt.Sscanf] *)

(** [fmt]'s own list of spaces. *)
Definition scan_space (r : Z) : bool :=
  ((9 <=? r) && (r <=? 13)) || (r =? 32) || (r =? 133) || (r =? 160) || (r =? 5760) ||
  ((8192 <=? r) && (r <=? 8202)) || (r =? 8232) || (r =? 8233) || (r =? 8239) || (r =? 8287) || (r =? 12288).

(** A line end where spaces are skipped is an error, but for CR before LF. *)
Fixpoint skip_space (l : list Z) : option (list Z) :=
  match l with
  | [] => Some []
  | r :: l' =>
      if (r =? 13) && match l' with 10 :: _ => true | _ => false end then skip_space l'
      else if r =? 10 then None
      else if scan_space r then skip_space l' else Some l
  end.

Definition digit_rune (r : Z) : bool := (48 <=? r) && (r <=? 57).

Fixpoint scan_digits (l : list Z) (acc : Z) : Z * list Z :=
  match l with
  | r :: l' => if digit_rune r then scan_digits l' (acc * 10 + (r - 48)) else (acc, l)
  | [] => (acc, [])
  end.

(** [%d] into an unsigned of [bits] bits. *)
Definition scan_uint (bits : Z) (l : list Z) : option (Z * list Z) :=
  match skip_space l with
  | Some (r :: l) =>
      if digit_rune r then let '(z, rest) := scan_digits (r :: l) 0 in if z <? 2 ^ bits then Some (z, rest) else None
      else None
  | _ => None
  end.

(** [%d] into an int. *)
Definition scan_int (l : list Z) : option (Z * list Z) :=
  match skip_space l with
  | Some l =>
      let '(neg, l) := match l with 43 :: l' => (false, l') | 45 :: l' => (true, l') | _ => (false, l) end in
      match l with
      | r :: _ =>
          if digit_rune r then
            let '(z, rest) := scan_digits l 0 in
            let z := if neg : bool then - z else z in
            if in_int64 z then Some (z, rest) else None
          else None
      | [] => None
      end
  | None => None
  end.

(** The literal text of a format. *)
Fixpoint scan_lit (lit l : list Z) : option (list Z) :=
  match lit, l with
  | [], _ => Some l
  | a :: lit, b :: l => if a =? b then scan_lit lit l else None
  | _ :: _, [] => None
  end.

(** [Sscanf(s, v=%d)] and [Sscanf(s, m=%d,t=%d,p=%d)]: what is left over does
    not matter. *)
Definition scan_version (s : string) : option Z :=
  l ← scan_lit (runes "v=") (runes s); fst <$> scan_int l.

Definition scan_params (s : string) : option (Z * Z * Z) :=
  l ← scan_lit (runes "m=") (runes s); '(m, l) ← scan_uint 32 l;
  l ← scan_lit (runes ",t=") l; '(t, l) ← scan_uint 32 l;
  l ← scan_lit (runes ",p=") l; '(p, _) ← scan_uint 8 l;
  Some (m, t, p).

Definition uint32 (z : Z) : Z := z mod 2 ^ 32.

Definition or_invalid {A : Type} (o : option A) : result crypto_error A :=
  match o with Some x => Ok x | None => Err ErrInvalidHash end.

Definition decodeArgon2Hash (encodedHash : string) : result crypto_error (Argon2Params * string * string) :=
  match split_byte "$" encodedHash with
  | [_; name; v; ps; b64Salt; b64Hash] =>
      if negb (String.eqb name "argon2id") then Err ErrInvalidHash
      else
        try! version := or_invalid (scan_version v) in
        if negb (version =? Version) then Err ErrIncompatibleVersion
        else
          try! mtp := or_invalid (scan_params ps) in
          try! salt := or_invalid (std_decode b64Salt) in
          try! hash := or_invalid (std_decode b64Hash) in
          let '(m, t, p) := mtp in
          Ok (mkParams m t p (uint32 (strlen salt)) (uint32 (strlen hash)), salt, hash)
  | _ => Err ErrInvalidHash
  end.

Section argon2.
(** [argon2.IDKey(password, salt, time, memory, threads, keyLen)]. *)
Context (IDKey : string -> string -> Z -> Z -> Z -> Z -> option string).
(** [rand.Read] on a slice of so many bytes. *)
Context (Read : Z -> option string).

Definition key_of (password salt : string) (p : Argon2Params) : option string :=
  IDKey password salt (Iterations p) (Memory p) (Parallelism p) (KeyLength p).

(** [None] is a panic, of these three too. *)
Definition HashPassword (password : string) (params : option Argon2Params) : option (result crypto_error string) :=
  let p := default DefaultArgon2Params params in
  match Read (SaltLength p) with
  | None => Some (Err ErrRandom)
  | Some salt =>
      match key_of password salt p with
      | Some hash => Some (Ok (encode_hash p salt hash))
      | None => None
      end
  end.

Definition VerifyPassword (password encodedHash : string) : option (option crypto_error) :=
  match decodeArgon2Hash encodedHash with
  | Err e => Some (Some e)
  | Ok (p, salt, hash) =>
      match key_of password salt p with
      | Some otherHash => Some (if String.eqb hash otherHash then None else Some ErrMismatchedPassword)
      | None => None
      end
  end.

Definition CheckPasswordHash (password hash : string) : option bool :=
  match VerifyPassword password hash with
  | Some None => Some true
  | Some (Some _) => Some false
  | None => None
  end.
End argon2.

Definition NeedsRehash (encodedHash : string) (params : option Argon2Params) : bool :=
  let p := default DefaultArgon2Params params in
  match decodeArgon2Hash encodedHash with
  | Err _ => true
  | Ok (c, _, _) =>
      negb (Memory c =? Memory p) || negb (Iterations c =? Iterations p) || negb (Parallelism c =? Parallelism p) ||
      negb (KeyLength c =? KeyLength p)
  end.

(** ** Bcrypt *)

Definition BcryptDefaultCost : Z := 10.

Section bcrypt.
Context (GenerateFromPassword : string -> Z -> result crypto_error string)
  (CompareHashAndPassword : string -> string -> option crypto_error) (Cost : string -> option Z).

Definition cost_of (cost : Z) : Z := if cost =? 0 then BcryptDefaultCost else cost.
Definition HashPasswordBcrypt (password : string) (cost : Z) : result crypto_error string :=
  GenerateFromPassword password (cost_of cost).
Definition VerifyPasswordBcrypt (password hash : string) : option crypto_error :=
  match CompareHashAndPassword hash password with
  | Some ErrMismatchedHashAndPassword => Some ErrMismatchedPassword
  | e => e
  end.
Definition CheckPasswordHashBcrypt (password hash : string) : bool :=
  match VerifyPasswordBcrypt password hash with None => true | Some _ => false end.
Definition NeedsRehashBcrypt (hash : string) (cost : Z) : bool :=
  match Cost hash with None => true | Some c => negb (c =? cost_of cost) end.
End bcrypt.

(** ** Generated passwords *)

Definition lowercase : string := "abcdefghijklmnopqrstuvwxyz".
Definition uppercase : string := "ABCDEFGHIJKLMNOPQRSTUVWXYZ".
Definition digits : string := "0123456789".
Definition symbols : string := "!@#$%^&*()-_=+[]{}|;:,.<>?".
Definition all : string := lowercase +:+ uppercase +:+ digits +:+ symbols.

(** [set[int(b)%len(set)]]. *)
Definition pick (set : string) (b : Z) : ascii := default " "%char (String.get (Z.to_nat (b mod strlen set)) set).

(** The first four bytes from the four sets. *)
Definition sets : list string := [lowercase; uppercase; digits; symbols].

Definition unshuffled (random four : list Z) : list ascii :=
  zip_with pick sets four ++ drop 4 (map (pick all) random).

(** The shuffle of the indices: [i] goes down from the length less one to one. *)
Fixpoint shuffle (i : nat) (perm : list Z) (indices : list nat) : list nat :=
  match i with
  | O => indices
  | S i' =>
      let j := Z.to_nat (default 0 (perm !! i) mod (Z.of_nat i + 1)) in
      let indices := match indices !! i, indices !! j with
                     | Some x, Some y => <[j := x]> (<[i := y]> indices)
                     | _, _ => indices
                     end in
      shuffle i' perm indices
  end.

Definition password_length (length : Z) : Z := if length <? 8 then 8 else length.

(** [random] and [perm] are as long as the password, [four] has four bytes; a
    failure of the later reads is not looked at. *)
Definition GeneratePassword (random four perm : list Z) : string :=
  let password := unshuffled random four in
  let indices := shuffle (length password - 1) perm (seq 0 (length password)) in
  String.string_of_list_ascii (omap (fun i => password !! i) indices).

(** ** Strength *)

Inductive PasswordStrength : Type := PasswordWeak | PasswordFair | PasswordGood | PasswordStrong.

Definition rank (s : PasswordStrength) : Z :=
  match s with PasswordWeak => 0 | PasswordFair => 1 | PasswordGood => 2 | PasswordStrong => 3 end.

Definition strength_String (s : PasswordStrength) : string :=
  match s with PasswordWeak => "weak" | PasswordFair => "fair" | PasswordGood => "good" | PasswordStrong => "strong" end.

Definition lower_rune (r : Z) : bool := (97 <=? r) && (r <=? 122).
Definition upper_rune (r : Z) : bool := (65 <=? r) && (r <=? 90).
Definition symbol_rune (r : Z) : bool := negb (lower_rune r || upper_rune r || digit_rune r).

Definition has (f : Z -> bool) (password : string) : bool := existsb f (runes password).

Definition length_score (n : Z) : Z := if 16 <=? n then 2 else if 12 <=? n then 1 else 0.

Definition score (password : string) : Z :=
  length_score (strlen password) + Z.b2z (has lower_rune password) + Z.b2z (has upper_rune password) +
  Z.b2z (has digit_rune password) + Z.b2z (has symbol_rune password).

Definition CheckPasswordStrength (password : string) : PasswordStrength :=
  if strlen password <? 8 then PasswordWeak
  else
    let s := score password in
    if 6 <=? s then PasswordStrong else if 4 <=? s then PasswordGood else if 2 <=? s then PasswordFair else PasswordWeak.

Record PasswordPolicy := mkPolicy {
  MinLength : Z; MaxLength : Z; RequireUpper : bool; RequireLower : bool; RequireDigit : bool; RequireSymbol : bool;
  MinStrength : PasswordStrength
}.

Definition DefaultPasswordPolicy : PasswordPolicy := mkPolicy 8 128 true true true false PasswordFair.

Definition when (b : bool) (s : string) : list string := if b then [s] else [].

Definition Validate (p : PasswordPolicy) (password : string) : list string :=
  when (strlen password <? MinLength p) ("password must be at least " +:+ Itoa (MinLength p) +:+ " characters") ++
  when ((0 <? MaxLength p) && (MaxLength p <? strlen password)) ("password must be at most " +:+ Itoa (MaxLength p) +:+ " characters") ++
  when (RequireLower p && negb (has lower_rune password)) "password must contain a lowercase letter" ++
  when (RequireUpper p && negb (has upper_rune password)) "password must contain an uppercase letter" ++
  when (RequireDigit p && negb (has digit_rune password)) "password must contain a digit" ++
  when (RequireSymbol p && negb (has symbol_rune password)) "password must contain a symbol" ++
  when (rank (CheckPasswordStrength password) <? rank (MinStrength p)) "password is too weak".

(** ** Lemmas: scanning *)

Lemma codes_app s t : codes (s +:+ t) = codes s ++ codes t.
Proof. unfold codes. induction s as [|c s IH]; [done|]. cbn. by rewrite IH. Qed.

Lemma scan_lit_app lit l : scan_lit lit (lit ++ l) = Some l.
Proof. induction lit as [|a lit IH]; [done|]. cbn. by rewrite Z.eqb_refl. Qed.

Definition stops (l : list Z) : Prop := match l with [] => True | r :: _ => digit_rune r = false end.

Lemma scan_digits_codes s acc z l :
  parse_digits s acc = Some z -> stops l -> scan_digits (codes s ++ l) acc = (z, l).
Proof.
  revert acc. induction s as [|c s IH]; intros acc H Hl.
  - cbn in *. injection H as <-. destruct l as [|r l]; [done|]. cbn. cbn in Hl. by rewrite Hl.
  - cbn [codes map String.list_ascii_of_string app scan_digits]. cbn [parse_digits] in H.
    change (digit_rune (byte_code c)) with (is_digit c). destruct (is_digit c); [|done]. by apply IH.
Qed.

Lemma parse_Itoa z : 0 <= z -> parse_digits (Itoa z) 0 = Some z.
Proof.
  intros Hz. unfold Itoa. rewrite (proj2 (Z.ltb_ge z 0)), Z.abs_eq by done.
  rewrite parse_digits_of by by apply Itoa_fuel. done.
Qed.

Lemma skip_space_digit r l : digit_rune r = true -> skip_space (r :: l) = Some (r :: l).
Proof.
  intros H. assert (E : forallb (fun r => negb ((r =? 13) || (r =? 10) || scan_space r)) (seqZ 48 10) = true) by by vm_compute.
  rewrite forallb_forall in E. specialize (E r). rewrite <- list_elem_of_In, elem_of_seqZ in E. unfold digit_rune in H.
  specialize (E ltac:(lia)). apply negb_true_iff in E. rewrite !orb_false_iff in E. destruct E as [[E1 E2] E3].
  cbn [skip_space]. by rewrite E1, E2, E3.
Qed.

Lemma scan_uint_Itoa bits z l : 0 <= z < 2 ^ bits -> stops l -> scan_uint bits (codes (Itoa z) ++ l) = Some (z, l).
Proof.
  intros Hz Hl. destruct (Itoa_head z ltac:(lia)) as (c & s & Hs & Hc). unfold scan_uint. rewrite Hs.
  cbn [codes map String.list_ascii_of_string app]. rewrite skip_space_digit by done.
  change (digit_rune (byte_code c)) with (is_digit c). rewrite Hc. fold (codes s).
  change (byte_code c :: codes s ++ l) with (codes (String c s) ++ l). rewrite <- Hs.
  rewrite (scan_digits_codes _ _ z) by (done || (apply parse_Itoa; lia)). by rewrite (proj2 (Z.ltb_lt _ _)) by lia.
Qed.

(** Parameters as wide as their types. *)
Definition params_ok (p : Argon2Params) : Prop :=
  0 <= Memory p < 2 ^ 32 /\ 0 <= Iterations p < 2 ^ 32 /\ 0 <= Parallelism p < 2 ^ 8.

Definition params_typed (p : Argon2Params) : Prop :=
  params_ok p /\ 0 <= SaltLength p < 2 ^ 32 /\ 0 <= KeyLength p < 2 ^ 32.

Lemma ascii_digits z : 0 <= z -> string_forall is_ascii (Itoa z) = true.
Proof.
  intros Hz. eapply string_forall_impl; [|by apply Itoa_digits]. intros c. unfold is_digit, is_ascii. lia.
Qed.

Lemma scan_params_encoded p :
  params_ok p ->
  scan_params ("m=" +:+ Itoa (Memory p) +:+ ",t=" +:+ Itoa (Iterations p) +:+ ",p=" +:+ Itoa (Parallelism p))
  = Some (Memory p, Iterations p, Parallelism p).
Proof.
  intros (Hm & Ht & Hp). unfold scan_params.
  rewrite (runes_ascii (_ +:+ _)) by (rewrite !string_forall_app, !ascii_digits by lia; done).
  change (map byte_code (String.list_ascii_of_string ?x)) with (codes x). rewrite !codes_app.
  change (runes "m=") with (codes "m="). change (runes ",t=") with (codes ",t="). change (runes ",p=") with (codes ",p=").
  rewrite scan_lit_app. cbn [mbind option_bind]. rewrite scan_uint_Itoa by (done || lia). cbn [mbind option_bind].
  rewrite scan_lit_app. cbn [mbind option_bind]. rewrite scan_uint_Itoa by (done || lia). cbn [mbind option_bind].
  rewrite scan_lit_app. cbn [mbind option_bind].
  replace (codes (Itoa (Parallelism p))) with (codes (Itoa (Parallelism p)) ++ []) by by rewrite app_nil_r.
  by rewrite scan_uint_Itoa by (done || lia).
Qed.

Lemma no_dollar_Itoa z : 0 <= z -> string_has "$" (Itoa z) = false.
Proof. intros Hz. by apply Itoa_has. Qed.

Lemma decode_encode_hash p salt hash :
  params_ok p ->
  decodeArgon2Hash (encode_hash p salt hash) =
    Ok (mkParams (Memory p) (Iterations p) (Parallelism p) (uint32 (strlen salt)) (uint32 (strlen hash)), salt, hash).
Proof.
  intros Hp. destruct Hp as (Hm & Ht & Hpar). unfold decodeArgon2Hash, encode_hash.
  assert (Hsplit : split_byte "$" ("$argon2id$v=" +:+ Itoa Version +:+ "$m=" +:+ Itoa (Memory p) +:+ ",t=" +:+ Itoa (Iterations p) +:+
      ",p=" +:+ Itoa (Parallelism p) +:+ "$" +:+ std_encode salt +:+ "$" +:+ std_encode hash) =
    [""; "argon2id"; "v=19"; "m=" +:+ Itoa (Memory p) +:+ ",t=" +:+ Itoa (Iterations p) +:+ ",p=" +:+ Itoa (Parallelism p);
     std_encode salt; std_encode hash]).
  { change ("$argon2id$v=" +:+ Itoa Version +:+ "$m=" +:+ ?x) with ("" +:+ String "$" ("argon2id" +:+ String "$" ("v=19" +:+ String "$" ("m=" +:+ x)))).
    rewrite !split_byte_app by done. do 3 f_equal.
    replace ("m=" +:+ Itoa (Memory p) +:+ ",t=" +:+ Itoa (Iterations p) +:+ ",p=" +:+ Itoa (Parallelism p) +:+ "$" +:+ std_encode salt +:+ "$" +:+ std_encode hash)
      with (("m=" +:+ Itoa (Memory p) +:+ ",t=" +:+ Itoa (Iterations p) +:+ ",p=" +:+ Itoa (Parallelism p)) +:+ String "$" (std_encode salt +:+ String "$" (std_encode hash)))
      by (by rewrite <- !string_app_assoc).
    assert (Hstd : forall x, string_has "$" (std_encode x) = false) by (intros x; apply std_encode_no, std_byte_ne; by vm_compute).
    rewrite !split_byte_app, split_byte_none; try done. rewrite !string_has_app, !no_dollar_Itoa by lia. done. }
  rewrite Hsplit. change (negb (String.eqb "argon2id" "argon2id")) with false. cbv iota.
  change (scan_version "v=19") with (Some 19). cbn [or_invalid result_bind]. change (negb (19 =? Version)) with false. cbv iota.
  rewrite scan_params_encoded, !std_round_trip by done. done.
Qed.

(** ** Lemmas: shuffling *)

Lemma shuffle_perm i perm l : shuffle i perm l ≡ₚ l.
Proof.
  revert l. induction i as [|i IH]; intros l; [done|]. cbn [shuffle]. rewrite IH.
  set (j := Z.to_nat _). destruct (l !! S i) as [x|] eqn:Hi; [|done]. destruct (l !! j) as [y|] eqn:Hj; [|done].
  by apply Permutation_insert_swap.
Qed.

Lemma omap_seq {A : Type} (l : list A) : omap (fun i => l !! i) (seq 0 (length l)) = l.
Proof.
  induction l as [|x l IH] using rev_ind; [done|]. rewrite length_app. cbn [length]. rewrite seq_app, omap_app. cbn [seq plus omap list_omap].
  rewrite list_lookup_middle by lia. f_equal. rewrite <- IH at 2. apply list_omap_ext. apply Forall_Forall2_diag, list.Forall_forall.
  intros i Hi%elem_of_seq. by rewrite lookup_app_l by lia.
Qed.

Lemma omap_perm {A B : Type} (f : A -> option B) l k : l ≡ₚ k -> omap f l ≡ₚ omap f k.
Proof. intros H. by rewrite H. Qed.

Lemma shuffled_perm i perm (p : list ascii) : omap (fun i => p !! i) (shuffle i perm (seq 0 (length p))) ≡ₚ p.
Proof. rewrite (shuffle_perm i perm (seq 0 (length p))). by rewrite omap_seq. Qed.

(** ** Lemmas: kinds of characters *)

Definition is_symbol (c : ascii) : bool := symbol_rune (byte_code c).

Lemma has_bytes f b s :
  (forall r, 128 <= r -> f r = b) ->
  has f s = true <-> exists c, c ∈ String.list_ascii_of_string s /\ f (byte_code c) = true.
Proof.
  intros Hf. unfold has. rewrite (runes_exists f b) by done. unfold codes. rewrite existsb_exists. split.
  - intros (r & Hr & H). apply in_map_iff in Hr as (c & <- & Hc). exists c. by rewrite list_elem_of_In.
  - intros (c & Hc & H). exists (byte_code c). split; [|done]. apply in_map. by apply list_elem_of_In.
Qed.

Lemma lower_high r : 128 <= r -> lower_rune r = false.
Proof. unfold lower_rune. lia. Qed.
Lemma upper_high r : 128 <= r -> upper_rune r = false.
Proof. unfold upper_rune. lia. Qed.
Lemma digit_high r : 128 <= r -> digit_rune r = false.
Proof. unfold digit_rune. lia. Qed.
Lemma symbol_high r : 128 <= r -> symbol_rune r = true.
Proof. intros H. unfold symbol_rune. by rewrite lower_high, upper_high, digit_high. Qed.

Lemma has_app f b s t : (forall r, 128 <= r -> f r = b) -> has f s = true -> has f (s +:+ t) = true.
Proof.
  intros Hf. rewrite !(has_bytes f b) by done. intros (c & Hc & H). exists c. split; [|done].
  assert (E : String.list_ascii_of_string (s +:+ t) = String.list_ascii_of_string s ++ String.list_ascii_of_string t)
    by (clear; induction s as [|x s IH]; [done|cbn; by rewrite IH]).
  rewrite E. apply elem_of_app. by left.
Qed.

Lemma rank_nonneg s : 0 <= rank s.
Proof. by destruct s. Qed.

Lemma score_app s t : score s <= score (s +:+ t).
Proof.
  unfold score.
  assert (Hl : length_score (strlen s) <= length_score (strlen (s +:+ t))).
  { unfold length_score, strlen. rewrite string_length_app.
    repeat match goal with |- context [?a <=? ?b] => destruct (Z.leb_spec a b) end; lia. }
  assert (Hb : forall f b, (forall r, 128 <= r -> f r = b) -> Z.b2z (has f s) <= Z.b2z (has f (s +:+ t))).
  { intros f b Hf. destruct (has f s) eqn:E; [|by destruct (has f (s +:+ t))]. by rewrite (has_app f b). }
  pose proof (Hb _ _ lower_high). pose proof (Hb _ _ upper_high). pose proof (Hb _ _ digit_high). pose proof (Hb _ _ symbol_high). lia.
Qed.

Lemma pick_kind set (f : ascii -> bool) b :
  0 < strlen set -> string_forall f set = true -> f (pick set b) = true.
Proof.
  intros Hs Hf. unfold pick. pose proof (Z.mod_pos_bound b (strlen set) Hs) as Hb. unfold strlen in *.
  assert (Hi : (Z.to_nat (b mod Z.of_nat (String.length set)) < String.length set)%nat) by lia.
  revert Hi. generalize (Z.to_nat (b mod Z.of_nat (String.length set))). clear Hb Hs. intros i.
  revert i. induction set as [|c set IH]; intros i Hi; [cbn in Hi; lia|]. cbn [string_forall] in Hf. apply andb_prop in Hf as [Hc Hset].
  destruct i as [|i]; [done|]. cbn [String.get]. apply IH; [done|]. cbn in Hi. lia.
Qed.

Lemma list_ascii_string l : String.list_ascii_of_string (String.string_of_list_ascii l) = l.
Proof. induction l as [|c l IH]; [done|]. cbn. by rewrite IH. Qed.

Lemma string_length_list s : String.length s = length (String.list_ascii_of_string s).
Proof. induction s as [|c s IH]; [done|]. cbn. by rewrite IH. Qed.

Lemma generated_bytes random four perm :
  String.list_ascii_of_string (GeneratePassword random four perm) ≡ₚ unshuffled random four.
Proof. unfold GeneratePassword. rewrite list_ascii_string. apply shuffled_perm. Qed.

(** ** Theorems *)

Section round_trip.
Context (IDKey : string -> string -> Z -> Z -> Z -> Z -> option string) (Read : Z -> option string).
(** [IDKey] gives a key of the length asked for when there is an iteration, a
    thread and a byte to give; [rand.Read] fills the slice. *)
Context (IDKey_key : forall password salt t m par len, 1 <= t -> 1 <= par -> 1 <= len ->
  exists key, IDKey password salt t m par len = Some key /\ strlen key = len).
Context (Read_fills : forall n salt, Read n = Some salt -> strlen salt = n).

(** C39. With at least one iteration, thread and byte of key, and parameters that
    fit their types, a password is hashed; the text is parsed back into the same
    parameters (the lengths of salt and key included), the very salt that was drawn
    and the key; it is accepted for that password, and for another exactly when
    that gives the same key under that salt; and verifying never panics. *)
Theorem hash_roundtrip password params salt :
  let p := default DefaultArgon2Params params in
  params_typed p -> 1 <= Iterations p -> 1 <= Parallelism p -> 1 <= KeyLength p ->
  Read (SaltLength p) = Some salt ->
  exists h key, HashPassword IDKey Read password params = Some (Ok h) /\
    key_of IDKey password salt p = Some key /\ decodeArgon2Hash h = Ok (p, salt, key) /\
    VerifyPassword IDKey password h = Some None /\
    (forall other, VerifyPassword IDKey other h = Some None <-> key_of IDKey other salt p = Some key) /\
    (forall other, VerifyPassword IDKey other h = Some None \/ VerifyPassword IDKey other h = Some (Some ErrMismatchedPassword)).
Proof.
  intros p (Hp & Hs & Hk) Ht Hpar Hkey Hr.
  destruct (IDKey_key password salt (Iterations p) (Memory p) (Parallelism p) (KeyLength p)) as (key & HK & Hlen); [done..|].
  exists (encode_hash p salt key), key.
  assert (decodeArgon2Hash (encode_hash p salt key) = Ok (p, salt, key)) as Hd.
  { rewrite decode_encode_hash, Hlen, (Read_fills _ _ Hr) by done. unfold uint32. rewrite !Z.mod_small by done.
    clearbody p. by destruct p. }
  assert (Hv : forall other, exists k, key_of IDKey other salt p = Some k /\
    VerifyPassword IDKey other (encode_hash p salt key) = Some (if String.eqb key k then None else Some ErrMismatchedPassword)).
  { intros other. destruct (IDKey_key other salt (Iterations p) (Memory p) (Parallelism p) (KeyLength p)) as (k & Hko & _); [done..|].
    exists k. unfold VerifyPassword, key_of. by rewrite Hd, Hko. }
  split; [unfold HashPassword; fold p; unfold key_of; by rewrite Hr, HK|]. split; [exact HK|]. split; [exact Hd|].
  split; [|split].
  - destruct (Hv password) as (k & Hk' & ->). unfold key_of in Hk'. rewrite HK in Hk'. injection Hk' as <-. by rewrite String.eqb_refl.
  - intros other. destruct (Hv other) as (k & -> & ->). destruct (String.eqb_spec key k) as [->|Hne]; [done|]. split; [done|]. congruence.
  - intros other. destruct (Hv other) as (k & _ & ->). destruct (String.eqb key k); auto.
Qed.

End round_trip.

Definition toy_key (password salt : string) (t m p len : Z) : option string :=
  if (t <? 1) || (p <? 1) || (len <? 1) then None
  else Some (String.string_of_list_ascii (take (Z.to_nat len)
    (String.list_ascii_of_string password ++ repeat "="%char (Z.to_nat len)))).

Definition toy_read (n : Z) : option string :=
  if n <? 0 then None else Some (String.string_of_list_ascii (repeat "s"%char (Z.to_nat n))).

Lemma strlen_list l : strlen (String.string_of_list_ascii l) = Z.of_nat (length l).
Proof. unfold strlen. by rewrite string_length_list, list_ascii_string. Qed.

Lemma toy_key_law password salt t m par len : 1 <= t -> 1 <= par -> 1 <= len ->
  exists key, toy_key password salt t m par len = Some key /\ strlen key = len.
Proof.
  intros Ht Hp Hl. unfold toy_key. rewrite !(proj2 (Z.ltb_ge _ 1)) by done. eexists. split; [reflexivity|].
  rewrite strlen_list, length_take, length_app, repeat_length. lia.
Qed.

Lemma toy_read_law n salt : toy_read n = Some salt -> strlen salt = n.
Proof.
  unfold toy_read. destruct (Z.ltb_spec n 0); [done|]. intros [= <-]. rewrite strlen_list, repeat_length. lia.
Qed.

Lemma hash_roundtrip_witness :
  exists h, HashPassword toy_key toy_read "secret" None = Some (Ok h) /\
    VerifyPassword toy_key "secret" h = Some None /\ VerifyPassword toy_key "Secret" h = Some (Some ErrMismatchedPassword).
Proof.
  destruct (hash_roundtrip toy_key toy_read toy_key_law toy_read_law "secret" None "ssssssssssssssss")
    as (h & key & H1 & H2 & H3 & H4 & H5 & H6); [repeat split; vm_compute; congruence|vm_compute; congruence..|reflexivity|].
  exists h. split; [exact H1|]. split; [exact H4|]. destruct (H6 "Secret") as [H|H]; [|exact H].
  apply H5 in H. rewrite <- H2 in H. vm_compute in H. discriminate.
Defined.

(** Without iterations or threads Argon2 panics, and nothing keeps them away: a
    caller's parameters make [HashPassword] panic, and a stored text of them
    [VerifyPassword]. *)
Theorem zero_parameters_panic IDKey Read password salt hash p :
  (forall password salt t m par len, t < 1 \/ par < 1 -> IDKey password salt t m par len = None) ->
  params_ok p -> Iterations p < 1 \/ Parallelism p < 1 -> Read (SaltLength p) = Some salt ->
  HashPassword IDKey Read password (Some p) = None /\ VerifyPassword IDKey password (encode_hash p salt hash) = None.
Proof.
  intros Hpanic Hp Hz Hr. unfold HashPassword, VerifyPassword, key_of. cbn [default from_option id].
  rewrite Hr, decode_encode_hash by done. cbn [Iterations Parallelism]. by rewrite !Hpanic.
Qed.

Lemma zero_parameters_panic_witness :
  VerifyPassword (fun _ _ t _ par _ => if (t <? 1) || (par <? 1) then None else Some "k") "x" "$argon2id$v=19$m=65536,t=0,p=1$cw$aw" = None.
Proof.
  refine (proj2 (zero_parameters_panic (fun _ _ t _ par _ => if (t <? 1) || (par <? 1) then None else Some "k")
    (fun _ => Some "s") "x" "s" "k" (mkParams 65536 0 1 1 1) _ _ _ _));
    [|repeat split; vm_compute; congruence|left; reflexivity|reflexivity].
  intros _ _ t m par len H. by replace ((t <? 1) || (par <? 1)) with true by (destruct (Z.ltb_spec t 1), (Z.ltb_spec par 1); lia || done).
Defined.

(** A hash needs to be made again exactly when one of its cost parameters, or
    the length of its key, is not the one asked for; the salt's length does not
    count. *)
Theorem NeedsRehash_spec p q salt hash :
  params_ok p -> strlen hash = KeyLength p -> KeyLength p < 2 ^ 32 ->
  NeedsRehash (encode_hash p salt hash) (Some q) = false <->
  Memory p = Memory q /\ Iterations p = Iterations q /\ Parallelism p = Parallelism q /\ KeyLength p = KeyLength q.
Proof.
  intros Hp Hh Hk. unfold NeedsRehash. rewrite decode_encode_hash by done. cbn [default from_option Memory Iterations Parallelism KeyLength].
  assert (Hu : uint32 (strlen hash) = KeyLength p).
  { rewrite Hh. unfold uint32. apply Z.mod_small. rewrite <- Hh at 1. unfold strlen. lia. }
  rewrite Hu, !orb_false_iff, !negb_false_iff, !Z.eqb_eq. tauto.
Qed.

Lemma NeedsRehash_spec_witness : NeedsRehash (encode_hash DefaultArgon2Params "salt" "0123456789abcdef0123456789abcdef") (Some DefaultArgon2Params) = false.
Proof. apply NeedsRehash_spec; [repeat split; vm_compute; congruence|reflexivity|reflexivity|done]. Defined.

(** A generated password has the length asked for, at least eight, has a lower
    and an upper case letter, a digit and a symbol, and is accepted by the default
    policy if that length is at most 128, whatever the random bytes are. *)
Theorem GeneratePassword_accepted len random four perm :
  Z.of_nat (length random) = password_length len -> length four = 4%nat ->
  let pw := GeneratePassword random four perm in
  strlen pw = password_length len /\
  has lower_rune pw = true /\ has upper_rune pw = true /\ has digit_rune pw = true /\ has symbol_rune pw = true /\
  (len <= 128 -> Validate DefaultPasswordPolicy pw = []).
Proof.
  intros Hr H4 pw. pose proof (generated_bytes random four perm) as Hp. fold pw in Hp.
  assert (Hlen : 8 <= password_length len) by (unfold password_length; destruct (Z.ltb_spec len 8); lia).
  destruct four as [|b0 [|b1 [|b2 [|b3 [|]]]]]; try done.
  assert (Hstr : strlen pw = password_length len).
  { unfold strlen. rewrite string_length_list, Hp. unfold unshuffled. cbn [zip_with sets]. rewrite length_app, length_drop, length_map. cbn [length]. lia. }
  assert (Hin : forall c, c ∈ [pick lowercase b0; pick uppercase b1; pick digits b2; pick symbols b3] -> c ∈ String.list_ascii_of_string pw).
  { intros c Hc. rewrite Hp. unfold unshuffled. apply elem_of_app. by left. }
  assert (H1 : has lower_rune pw = true).
  { apply (has_bytes _ _ _ lower_high). exists (pick lowercase b0). split; [apply Hin; by left|]. by apply (pick_kind lowercase (fun c => lower_rune (byte_code c))). }
  assert (H2 : has upper_rune pw = true).
  { apply (has_bytes _ _ _ upper_high). exists (pick uppercase b1). split; [apply Hin; set_solver|]. by apply (pick_kind uppercase (fun c => upper_rune (byte_code c))). }
  assert (H3 : has digit_rune pw = true).
  { apply (has_bytes _ _ _ digit_high). exists (pick digits b2). split; [apply Hin; set_solver|]. by apply (pick_kind digits (fun c => digit_rune (byte_code c))). }
  assert (H5 : has symbol_rune pw = true).
  { apply (has_bytes _ _ _ symbol_high). exists (pick symbols b3). split; [apply Hin; set_solver|]. by apply (pick_kind symbols (fun c => symbol_rune (byte_code c))). }
  do 5 (split; [done|]). intros Hmax. unfold Validate, DefaultPasswordPolicy.
  cbn [MinLength MaxLength RequireLower RequireUpper RequireDigit RequireSymbol MinStrength]. rewrite H1, H2, H3, Hstr.
  assert (Hle : password_length len <= 128) by (unfold password_length; destruct (Z.ltb_spec len 8); lia).
  rewrite (proj2 (Z.ltb_ge _ 8)), (proj2 (Z.ltb_ge 128 _)) by lia. cbn [andb negb when app].
  assert (Hsc : 4 <= score pw).
  { unfold score. rewrite H1, H2, H3, H5. unfold length_score. cbn [Z.b2z]. repeat (destruct (_ <=? _)); lia. }
  unfold CheckPasswordStrength. rewrite Hstr, (proj2 (Z.ltb_ge _ 8)) by lia.
  rewrite (proj2 (Z.leb_le 4 (score pw))) by lia. by destruct (6 <=? score pw).
Qed.

Lemma GeneratePassword_accepted_witness :
  Validate DefaultPasswordPolicy (GeneratePassword [1; 2; 3; 4; 5; 6; 7; 8; 9; 255] [0; 200; 3; 77] [9; 8; 7; 6; 5; 4; 3; 2; 1; 0]) = [].
Proof.
  refine (proj2 (proj2 (proj2 (proj2 (proj2 (GeneratePassword_accepted 10 [1; 2; 3; 4; 5; 6; 7; 8; 9; 255] [0; 200; 3; 77] [9; 8; 7; 6; 5; 4; 3; 2; 1; 0] _ _))))) _);
    [reflexivity|reflexivity|lia].
Defined.

(** A password does not get weaker by getting longer. *)
Theorem strength_monotone s t : rank (CheckPasswordStrength s) <= rank (CheckPasswordStrength (s +:+ t)).
Proof.
  unfold CheckPasswordStrength. pose proof (score_app s t) as Hs.
  assert (Hl : strlen s <= strlen (s +:+ t)) by (unfold strlen; rewrite string_length_app; lia).
  destruct (Z.ltb_spec (strlen s) 8); [apply rank_nonneg|]. rewrite (proj2 (Z.ltb_ge _ 8)) by lia.
  repeat match goal with |- context [?a <=? ?b] => lazymatch b with score _ => destruct (Z.leb_spec a b) end end; cbn [rank]; lia.
Qed.

(** A policy accepts exactly the passwords within its lengths, counted in
    bytes, that have a byte of each kind it asks for and are strong enough. *)
Theorem Validate_spec p pw :
  let some f := exists c, c ∈ String.list_ascii_of_string pw /\ f (byte_code c) = true in
  Validate p pw = [] <->
  MinLength p <= strlen pw /\ (MaxLength p <= 0 \/ strlen pw <= MaxLength p) /\
  (RequireLower p = true -> some lower_rune) /\ (RequireUpper p = true -> some upper_rune) /\
  (RequireDigit p = true -> some digit_rune) /\ (RequireSymbol p = true -> some symbol_rune) /\
  rank (MinStrength p) <= rank (CheckPasswordStrength pw).
Proof.
  cbv zeta. rewrite <- (has_bytes _ _ pw lower_high), <- (has_bytes _ _ pw upper_high), <- (has_bytes _ _ pw digit_high), <- (has_bytes _ _ pw symbol_high).
  assert (Hw : forall b s l, when b s ++ l = [] <-> b = false /\ l = []).
  { intros [] s l; cbn; [split; [done|by intros []]|]. split; [done|by intros []]. }
  assert (Hw' : forall b s, when b s = [] <-> b = false) by (by intros []).
  unfold Validate. rewrite !Hw, Hw', !andb_false_iff, !Z.ltb_ge, !negb_false_iff.
  assert (Hb : forall (a : bool) (P : Prop), a = false \/ P <-> (a = true -> P)) by (intros [] P; naive_solver).
  rewrite !Hb. tauto.
Qed.
