(* ===== verification/Crypto.v ===== *)
(** * Encryption, hashes, identifiers and random values

    [src/pantry/crypto], but for passwords: [encrypt.go], [hash.go],
    [identifier.go] and [random.go].

    The ciphers, the hash functions and HKDF are the library's: they are
    parameters, and what [crypto/cipher] promises of an AEAD is the class
    [AEAD_laws].  Random bytes and numbers are arguments.  Case mapping and
    trimming of identifiers, on all of Unicode, is the parameter [fold].  [None]
    is a panic. *)

From stdpp Require Import list numbers strings.
From S2P Require Import Prelude GoStrings Base64 Hex.

#[local] Open Scope list_scope.

Inductive crypt_error : Type := ErrInvalidKey | ErrInvalidCiphertext | ErrDecryptionFailed | ErrBase64 | ErrRand.

(** ** Encryption ([encrypt.go]) *)

(** AES-GCM: what [Seal] appends to its first argument, and [Open]. *)
Class AEAD := {
  NonceSize : nat;
  Seal : string -> string -> string -> string;
  Open_ : string -> string -> string -> option string
}.

Class AEAD_laws `{AEAD} : Prop := {
  open_seal : forall key nonce plaintext, String.length nonce = NonceSize -> Open_ key nonce (Seal key nonce plaintext) = Some plaintext
}.

Section encryption.
Context `{AEAD}.

(** An encryptor is its key. *)
Definition valid_key (size : Z) : bool := (size =? 16) || (size =? 24) || (size =? 32).

Definition NewEncryptor (key : string) : result crypt_error string :=
  if valid_key (strlen key) then Ok key else Err ErrInvalidKey.

Definition base64_bytes (s : string) : result crypt_error string :=
  match pad_decode s with Some b => Ok b | None => Err ErrBase64 end.

Definition NewEncryptorFromString (keyBase64 : string) : result crypt_error string :=
  try! key := base64_bytes keyBase64 in NewEncryptor key.

(** [nonce]: the bytes read for it. *)
Definition Encrypt (key : string) (nonce : option string) (plaintext : string) : result crypt_error string :=
  match nonce with Some nonce => Ok (nonce +:+ Seal key nonce plaintext) | None => Err ErrRand end.

Definition EncryptString (key : string) (nonce : option string) (plaintext : string) : result crypt_error string :=
  try! c := Encrypt key nonce plaintext in Ok (pad_encode c).

Definition Decrypt (key ciphertext : string) : result crypt_error string :=
  if (String.length ciphertext <? NonceSize)%nat then Err ErrInvalidCiphertext
  else match Open_ key (str_take NonceSize ciphertext) (str_drop NonceSize ciphertext) with
       | Some p => Ok p
       | None => Err ErrDecryptionFailed
       end.

Definition DecryptString (key ciphertextBase64 : string) : result crypt_error string :=
  match pad_decode ciphertextBase64 with
  | Some c => Decrypt key c
  | None => Err ErrInvalidCiphertext
  end.

(** The functions of the package that take the key. *)
Definition EncryptString_key (keyBase64 : string) (nonce : option string) (plaintext : string) : result crypt_error string :=
  try! key := NewEncryptorFromString keyBase64 in EncryptString key nonce plaintext.
Definition DecryptString_key (keyBase64 ciphertextBase64 : string) : result crypt_error string :=
  try! key := NewEncryptorFromString keyBase64 in DecryptString key ciphertextBase64.

Definition GenerateKey (size : Z) (random : option string) : result crypt_error string :=
  if valid_key size then match random with Some b => Ok b | None => Err ErrRand end else Err ErrInvalidKey.
Definition GenerateKeyString (size : Z) (random : option string) : result crypt_error string :=
  try! key := GenerateKey size random in Ok (pad_encode key).
End encryption.

(** ** Hashes ([hash.go]) *)

Section hashes.
Context (sha256 sha512 : string -> string) (hmac_sha256 hmac_sha512 : string -> string -> string).

Definition SHA256Hex (data : string) : string := hex_encode (sha256 data).
Definition SHA256Base64 (data : string) : string := pad_encode (sha256 data).
Definition SHA512Hex (data : string) : string := hex_encode (sha512 data).
Definition HMACSHA256Hex (key data : string) : string := hex_encode (hmac_sha256 key data).
Definition HMACSHA256Base64 (key data : string) : string := pad_encode (hmac_sha256 key data).
Definition HMACSHA512Hex (key data : string) : string := hex_encode (hmac_sha512 key data).

Definition VerifyHMAC (mac : string -> string -> string) (key data signature : string) : bool := String.eqb signature (mac key data).
Definition VerifyHMACSHA256 : string -> string -> string -> bool := VerifyHMAC hmac_sha256.
Definition VerifyHMACSHA256Hex (key data signatureHex : string) : bool :=
  match hex_decode signatureHex with
  | Some signature => VerifyHMACSHA256 key data signature
  | None => false
  end.
End hashes.

(** ** Identifiers ([identifier.go]) *)

Inductive OutputFormat : Type := FormatHex | FormatBase64 | FormatBase64URL | FormatOther (n : Z).

Record IdentifierHasher := mkHasher { h_key : string; h_domain : string; h_format : OutputFormat }.
Record IdentifierHasherConfig := mkHasherConfig { Key : string; Domain : string; Format : OutputFormat; DeriveKey : bool }.

Section identifiers.
(** HMAC-SHA256; the first bytes of HKDF-SHA256; normalisation. *)
Context (hmac : string -> string -> string) (hkdf : string -> string -> nat -> string) (fold : string -> string).

Definition derive_info (domain : string) : string :=
  "waffle-identifier-hash" +:+ (if String.eqb domain "" then "" else ":" +:+ domain).

Definition deriveKey (ikm domain : string) : string := hkdf ikm (derive_info domain) 32.

Definition NewIdentifierHasherWithConfig (cfg : IdentifierHasherConfig) : IdentifierHasher :=
  mkHasher (if DeriveKey cfg && negb (String.eqb (Key cfg) "") then deriveKey (Key cfg) (Domain cfg) else Key cfg)
    (Domain cfg) (Format cfg).

Definition NewIdentifierHasher (key : string) : IdentifierHasher :=
  NewIdentifierHasherWithConfig (mkHasherConfig key "" FormatHex true).

Definition NewIdentifierHasherFromString (keyBase64 : string) : result crypt_error IdentifierHasher :=
  try! key := base64_bytes keyBase64 in Ok (NewIdentifierHasher key).

Definition encode_with (f : OutputFormat) (hash : string) : string :=
  match f with FormatBase64 => pad_encode hash | FormatBase64URL => b64_encode hash | _ => hex_encode hash end.

Definition Hash (h : IdentifierHasher) (identifier : string) : string := encode_with (h_format h) (hmac (h_key h) (fold identifier)).
Definition HashRaw (h : IdentifierHasher) (identifier : string) : string := encode_with (h_format h) (hmac (h_key h) identifier).
Definition HashBytes (h : IdentifierHasher) (data : string) : string := encode_with (h_format h) (hmac (h_key h) data).
Definition Verify (h : IdentifierHasher) (identifier hash : string) : bool := String.eqb (Hash h identifier) hash.
Definition VerifyRaw (h : IdentifierHasher) (identifier hash : string) : bool := String.eqb (HashRaw h identifier) hash.

Definition WithDomain (h : IdentifierHasher) (domain : string) : IdentifierHasher :=
  mkHasher (deriveKey (h_key h) domain) domain (h_format h).
Definition WithFormat (h : IdentifierHasher) (format : OutputFormat) : IdentifierHasher :=
  mkHasher (h_key h) (h_domain h) format.

Definition HashIdentifier (key identifier : string) : string := Hash (NewIdentifierHasher key) identifier.
Definition HashIdentifierWithDomain (key domain identifier : string) : string :=
  Hash (NewIdentifierHasherWithConfig (mkHasherConfig key domain FormatHex true)) identifier.
Definition VerifyIdentifier (key identifier hash : string) : bool := Verify (NewIdentifierHasher key) identifier hash.
Definition VerifyIdentifierWithDomain (key domain identifier hash : string) : bool :=
  Verify (NewIdentifierHasherWithConfig (mkHasherConfig key domain FormatHex true)) identifier hash.

Definition BlindIndex (h : IdentifierHasher) (identifier : string) (len : Z) : string :=
  let len := if (len <=? 0) || (32 <? len) then 16 else len in
  encode_with (h_format h) (str_take (Z.to_nat len) (hmac (h_key h) (fold identifier))).
End identifiers.

(** ** Random values ([random.go]) *)

(** [rand.Int] answers a number from zero to below its argument, which must be
    positive; [draws] are its answers, and a shorter list an error. *)
Definition default_charset : string := "abcdefghijklmnopqrstuvwxyzABCDEFGHIJKLMNOPQRSTUVWXYZ0123456789".

Fixpoint draw_string (n : nat) (charset : string) (draws : list Z) : result crypt_error string :=
  match n with
  | O => Ok ""
  | S n =>
      match draws with
      | [] => Err ErrRand
      | d :: draws =>
          match draw_string n charset draws with
          | Ok s => Ok (String (default zero (String.get (Z.to_nat d) charset)) s)
          | Err e => Err e
          end
      end
  end.

Definition RandomString (len : Z) (charset : string) (draws : list Z) : option (result crypt_error string) :=
  let charset := if String.eqb charset "" then default_charset else charset in
  if len <? 0 then None else Some (draw_string (Z.to_nat len) charset draws).

Definition RandomAlphanumeric (len : Z) : list Z -> option (result crypt_error string) := RandomString len default_charset.
Definition RandomAlpha (len : Z) : list Z -> option (result crypt_error string) :=
  RandomString len "abcdefghijklmnopqrstuvwxyzABCDEFGHIJKLMNOPQRSTUVWXYZ".
Definition RandomNumeric (len : Z) : list Z -> option (result crypt_error string) := RandomString len "0123456789".
Definition GenerateOTP : Z -> list Z -> option (result crypt_error string) := RandomNumeric.
Definition verification_charset : string := "ABCDEFGHJKMNPQRSTUVWXYZ23456789".
Definition GenerateVerificationCode (len : Z) : list Z -> option (result crypt_error string) := RandomString len verification_charset.

(** [draw]: what [rand.Int] answers for a bound. *)
Definition RandomInt (draw : Z -> option Z) (max : Z) : option (result crypt_error Z) :=
  if max <=? 0 then None else Some match draw max with Some n => Ok n | None => Err ErrRand end.

Definition RandomIntRange (draw : Z -> option Z) (min max : Z) : option (result crypt_error Z) :=
  let '(min, max) := if max <? min then (max, min) else (min, max) in
  match RandomInt draw (int_add (int_sub max min) 1) with
  | None => None
  | Some (Ok n) => Some (Ok (int_add min n))
  | Some (Err e) => Some (Err e)
  end.

Definition RandomHex (bytes : option string) : result crypt_error string :=
  match bytes with Some b => Ok (hex_encode b) | None => Err ErrRand end.
Definition RandomBase64URL (bytes : option string) : result crypt_error string :=
  match bytes with Some b => Ok (b64_encode b) | None => Err ErrRand end.
Definition RandomBase64 (bytes : option string) : result crypt_error string :=
  match bytes with Some b => Ok (pad_encode b) | None => Err ErrRand end.
Definition GenerateAPIKey (prefix : string) (bytes : option string) : result crypt_error string :=
  try! token := RandomBase64URL bytes in
  Ok (if String.eqb prefix "" then token else prefix +:+ "_" +:+ token).

(** ** Lemmas *)

Lemma hex_encode_take n s : hex_encode (str_take n s) = str_take (2 * n) (hex_encode s).
Proof.
  revert s. induction n as [|n IH]; intros [|c s]; try done.
  replace (2 * S n)%nat with (S (S (2 * n)))%nat by lia. cbn [str_take hex_encode]. by rewrite IH.
Qed.

Lemma derive_info_inj d d' : derive_info d = derive_info d' -> d = d'.
Proof.
  unfold derive_info. intros H. apply (f_equal (str_drop 22)) in H.
  change 22%nat with (String.length "waffle-identifier-hash") in H. rewrite !str_drop_app in H.
  destruct (String.eqb_spec d "") as [E|E], (String.eqb_spec d' "") as [E'|E']; cbn in H; congruence.
Qed.

Lemma encode_with_inj f s t : encode_with f s = encode_with f t -> s = t.
Proof.
  unfold encode_with. intros E. destruct f;
    [apply (f_equal hex_decode) in E; rewrite !hex_round_trip in E|
     apply (f_equal pad_decode) in E; rewrite !pad_round_trip in E|
     apply (f_equal b64_decode) in E; rewrite !b64_round_trip in E|
     apply (f_equal hex_decode) in E; rewrite !hex_round_trip in E]; by injection E.
Qed.

(** ** Theorems *)

(** What was encrypted is decrypted by the same key, whatever the nonce, also
    through base64; what is shorter than a nonce, or is not base64, is refused. *)
Theorem decrypt_encrypt `{AEAD_laws} key nonce plaintext :
  String.length nonce = NonceSize ->
  (exists c, Encrypt key (Some nonce) plaintext = Ok c /\ Decrypt key c = Ok plaintext) /\
  (exists c, EncryptString key (Some nonce) plaintext = Ok c /\ DecryptString key c = Ok plaintext).
Proof.
  intros Hn. assert (Hd : Decrypt key (nonce +:+ Seal key nonce plaintext) = Ok plaintext).
  { unfold Decrypt. rewrite string_length_app, (proj2 (Nat.ltb_ge _ _)) by lia. rewrite <- Hn, str_take_app, str_drop_app.
    by rewrite open_seal. }
  split; eexists; (split; [reflexivity|]); [done|]. unfold DecryptString. by rewrite pad_round_trip.
Qed.

(** An AEAD for examples, of no use as a cipher. *)
#[local] Instance toy_aead : AEAD := {
  NonceSize := 2;
  Seal key nonce p := key +:+ nonce +:+ p;
  Open_ key nonce c := if HasPrefix c (key +:+ nonce) then Some (str_drop (String.length (key +:+ nonce)) c) else None
}.

#[local] Instance toy_aead_laws : AEAD_laws.
Proof.
  split. intros key nonce p _. unfold Open_, Seal, toy_aead. rewrite string_app_assoc.
  assert (E : HasPrefix ((key +:+ nonce) +:+ p) (key +:+ nonce) = true) by (apply HasPrefix_spec; by exists p).
  by rewrite E, str_drop_app.
Qed.

Lemma decrypt_encrypt_witness :
  exists c, EncryptString "k" (Some "ab") "hello" = Ok c /\ DecryptString "k" c = Ok "hello".
Proof. exact (proj2 (decrypt_encrypt "k" "ab" "hello" eq_refl)). Defined.

(** In hexadecimal, the default, a blind index is the first digits of the
    hash of the same identifier, two for each byte asked for, or 32. *)
Theorem BlindIndex_prefix hmac fold h identifier len :
  h_format h = FormatHex ->
  BlindIndex hmac fold h identifier len =
    str_take (2 * Z.to_nat (if (len <=? 0) || (32 <? len) then 16 else len)) (Hash hmac fold h identifier).
Proof. intros Hf. unfold BlindIndex, Hash, encode_with. rewrite Hf. apply hex_encode_take. Qed.

Lemma BlindIndex_prefix_witness :
  BlindIndex (fun k d => k +:+ d) ToLower (mkHasher "K" "" FormatHex) "AB" 2 = "4b61".
Proof. rewrite (BlindIndex_prefix (fun k d => k +:+ d) ToLower (mkHasher "K" "" FormatHex) "AB" 2 eq_refl). reflexivity. Defined.

(** Hashes of an identifier are found again, in every format: an identifier is
    verified against the hash of another exactly when the two, less case and
    space around them, have one code. *)
Theorem identifier_verified hmac fold h a b :
  Verify hmac fold h b (Hash hmac fold h a) = true <-> hmac (h_key h) (fold a) = hmac (h_key h) (fold b).
Proof.
  unfold Verify. rewrite String.eqb_eq. unfold Hash. split; [|by intros ->].
  intros E. symmetry. by apply (encode_with_inj (h_format h)).
Qed.

(** Different domains derive different keys, and so codes that do not meet,
    unless HKDF answers two of its inputs alike. *)
Theorem domains_separate hkdf key d d' :
  (hkdf key (derive_info d) 32%nat = hkdf key (derive_info d') 32%nat -> derive_info d = derive_info d') -> key <> "" ->
  h_key (NewIdentifierHasherWithConfig hkdf (mkHasherConfig key d FormatHex true)) =
  h_key (NewIdentifierHasherWithConfig hkdf (mkHasherConfig key d' FormatHex true)) <-> d = d'.
Proof.
  intros Hinj Hk. unfold NewIdentifierHasherWithConfig. cbn [h_key DeriveKey Key Domain]. apply String.eqb_neq in Hk. rewrite Hk. cbn [andb negb].
  split; [|by intros ->]. intros E%Hinj. by apply derive_info_inj.
Qed.

Lemma domains_separate_witness :
  h_key (NewIdentifierHasherWithConfig (fun k i _ => k +:+ i) (mkHasherConfig "k" "email" FormatHex true)) <>
  h_key (NewIdentifierHasherWithConfig (fun k i _ => k +:+ i) (mkHasherConfig "k" "phone" FormatHex true)).
Proof.
  intros E. apply (domains_separate (fun k i _ => k +:+ i) "k" "email" "phone") in E; [discriminate| |discriminate].
  intros Hi. by apply (f_equal (str_drop 1)) in Hi.
Defined.

(** C40. [RandomIntRange] covers its range and nothing more, in either order of its
    bounds; a range of more than 2^63 - 1 numbers overflows and panics. *)
Theorem RandomIntRange_spec draw a b :
  in_int64 a = true -> in_int64 b = true -> (forall m n, draw m = Some n -> 0 <= n < m) ->
  let lo := Z.min a b in
  let hi := Z.max a b in
  (hi - lo + 1 <= max_int64 ->
     match draw (hi - lo + 1) with
     | Some n => RandomIntRange draw a b = Some (Ok (lo + n)) /\ lo <= lo + n <= hi
     | None => RandomIntRange draw a b = Some (Err ErrRand)
     end) /\
  (max_int64 < hi - lo + 1 -> RandomIntRange draw a b = None).
Proof.
  intros Ha Hb Hd lo hi. unfold in_int64, min_int64, max_int64 in *.
  assert (E : RandomIntRange draw a b = match RandomInt draw (int_add (int_sub hi lo) 1) with
    | None => None | Some (Ok n) => Some (Ok (int_add lo n)) | Some (Err e) => Some (Err e) end).
  { unfold RandomIntRange, lo, hi. destruct (Z.ltb_spec b a).
    - by rewrite Z.max_l, Z.min_r by lia.
    - by rewrite Z.max_r, Z.min_l by lia. }
  rewrite E. assert (Hlo : -9223372036854775808 <= lo <= hi /\ hi <= 9223372036854775807) by (unfold lo, hi; lia). clearbody lo hi. clear E Ha Hb a b.
  unfold RandomInt, int_add, int_sub, wrap64. split; intros Hr.
  - rewrite (Z.mod_small (hi - lo + 9223372036854775808)) by lia. rewrite (Z.mod_small (_ - _ + 1 + _)) by lia.
    replace (hi - lo + 9223372036854775808 - 9223372036854775808 + 1 + 9223372036854775808 - 9223372036854775808) with (hi - lo + 1) by lia.
    rewrite (proj2 (Z.leb_gt _ _)) by lia. destruct (draw (hi - lo + 1)) as [n|] eqn:En; [|done].
    pose proof (Hd _ _ En) as Hn. rewrite Z.mod_small by lia. split; [do 2 f_equal; lia|lia].
  - rewrite (proj2 (Z.leb_le _ 0)); [done|].
    pose proof (Z.mod_pos_bound (hi - lo + 9223372036854775808) 18446744073709551616 ltac:(lia)) as B1.
    pose proof (Z.div_mod (hi - lo + 9223372036854775808) 18446744073709551616 ltac:(lia)) as D1.
    set (x := (hi - lo + 9223372036854775808) mod 18446744073709551616) in *.
    set (y := (x - 9223372036854775808 + 1 + 9223372036854775808)) in *.
    pose proof (Z.mod_pos_bound y 18446744073709551616 ltac:(lia)) as B2.
    pose proof (Z.div_mod y 18446744073709551616 ltac:(lia)) as D2. unfold y in *. lia.
Qed.

Lemma RandomIntRange_spec_witness :
  RandomIntRange (fun m => Some (m - 1)) 10 (-3) = Some (Ok 10) /\
  RandomIntRange (fun m => if 0 <? m then Some 0 else None) (-1) max_int64 = None.
Proof.
  split.
  - refine (proj1 (proj1 (RandomIntRange_spec (fun m => if 0 <? m then Some (m - 1) else None) 10 (-3) eq_refl eq_refl _) _)); [|vm_compute; congruence].
    intros m n. destruct (Z.ltb_spec 0 m); [intros [= <-]; lia|done].
  - refine (proj2 (RandomIntRange_spec (fun m => if 0 <? m then Some 0 else None) (-1) max_int64 eq_refl eq_refl _) _); [|reflexivity].
    intros m n. destruct (Z.ltb_spec 0 m); [intros [= <-]; lia|done].
Defined.

Lemma get_in i s c : String.get i s = Some c -> string_has c s = true.
Proof.
  revert i. induction s as [|d s IH]; intros i; [done|]. destruct i as [|i]; cbn [String.get string_has].
  - intros [= ->]. by rewrite Ascii.eqb_refl.
  - intros H. by rewrite (IH i H), orb_true_r.
Qed.

(** A random string has the length asked for and only characters of its set,
    or of letters and digits where the set is empty; a negative length panics. *)
Theorem RandomString_spec len charset draws s :
  let cs := if String.eqb charset "" then default_charset else charset in
  Forall (fun d => 0 <= d < strlen cs) draws ->
  RandomString len charset draws = Some (Ok s) ->
  0 <= len /\ strlen s = len /\ string_forall (fun c => string_has c cs) s = true.
Proof.
  intros cs Hd. unfold RandomString. fold cs. destruct (Z.ltb_spec len 0) as [|Hl]; [done|]. intros [= H].
  assert (Hg : forall n l t, Forall (fun d => 0 <= d < strlen cs) l -> draw_string n cs l = Ok t ->
    String.length t = n /\ string_forall (fun c => string_has c cs) t = true).
  { induction n as [|n IH]; intros l t Hl' Ht; cbn in Ht; [by injection Ht as <-|].
    destruct l as [|d l]; [done|]. apply Forall_cons_1 in Hl' as [Hd' Hl']. destruct (draw_string n cs l) as [u|] eqn:E; [|done].
    injection Ht as <-. destruct (IH l u Hl' E) as [H1 H2]. cbn [String.length string_forall]. split; [congruence|]. rewrite H2, andb_true_r.
    destruct (String.get (Z.to_nat d) cs) as [c|] eqn:Ec; [cbn; by eapply get_in|].
    exfalso. revert Ec Hd'. clear. unfold strlen. intros Ec Hd.
    assert (Hi : (Z.to_nat d < String.length cs)%nat) by lia. revert Hi Ec. generalize (Z.to_nat d). generalize cs. clear.
    intros s i. revert i. induction s as [|c s IH]; intros i Hi; [cbn in Hi; lia|]. destruct i; [done|]. cbn. apply IH. cbn in Hi. lia. }
  destruct (Hg _ _ _ Hd H) as [H1 H2]. split; [done|]. split; [|done]. unfold strlen. lia.
Qed.

Lemma RandomString_spec_witness : exists s, RandomString 3 "ab" [1; 0; 1] = Some (Ok s) /\ strlen s = 3.
Proof.
  exists "bab". split; [reflexivity|].
  refine (proj1 (proj2 (RandomString_spec 3 "ab" [1; 0; 1] "bab" _ eq_refl))). repeat (constructor; [vm_compute; split; congruence|]). constructor.
Defined.
