(* ===== verification/Dns01.v ===== *)
(** * Names, values and cache files of certificates

    The checks of [src/server/acmedns.go]: domain names, challenge records and
    their values, the domains that a certificate covers, and the files that
    certificates are kept in. *)

From stdpp Require Import list numbers strings.
From S2P Require Import Prelude GoStrings Utf8 Base64 Paths.

#[local] Open Scope list_scope.

(** ** Domain names *)

Inductive domain_error : Type :=
  | DomainTooLong
  | TooFewLabels
  | EmptyLabel (position : Z)
  | LabelTooLong (label : string)
  | InvalidCharacter (label : string) (c : Z)
  | HyphenAtEnd (label : string).

Definition label_rune (c : Z) : bool :=
  ((97 <=? c) && (c <=? 122)) || ((65 <=? c) && (c <=? 90)) || ((48 <=? c) && (c <=? 57)) || (c =? 45).

(** [j] is the offset of the rune: those before it are of one byte, or the loop
    would have ended. *)
Fixpoint label_loop (label : string) (j : Z) (rs : list Z) : option domain_error :=
  match rs with
  | [] => None
  | c :: rs =>
      if negb (label_rune c) then Some (InvalidCharacter label c)
      else if (c =? 45) && ((j =? 0) || (j =? strlen label - 1)) then Some (HyphenAtEnd label)
      else label_loop label (j + 1) rs
  end.

Fixpoint labels_loop (i : Z) (labels : list string) : option domain_error :=
  match labels with
  | [] => None
  | label :: labels =>
      if strlen label =? 0 then Some (EmptyLabel i)
      else if 63 <? strlen label then Some (LabelTooLong label)
      else match label_loop label 0 (runes label) with
           | Some e => Some e
           | None => labels_loop (i + 1) labels
           end
  end.

Definition strip_wildcard (domain : string) : string :=
  if HasPrefix domain "*." then str_drop 2 domain else domain.

Definition validateDomainFormat (originalDomain : string) : option domain_error :=
  if 253 <? strlen originalDomain then Some DomainTooLong
  else
    let labels := split_byte "." (strip_wildcard originalDomain) in
    if (length labels <? 2)%nat then Some TooFewLabels else labels_loop 0 labels.

(** ** The manager's arguments ([NewDNS01Manager]) *)

Inductive manager_error : Type :=
  | NoDomains | InvalidDomain (domain : string) (e : domain_error) | DuplicateDomain (domain : string)
  | NoEmail | NoCacheDir | NoHostedZone | NoDirectoryURL | CreateCacheDir | LoadAWSConfig.

Fixpoint check_domains (seen : list string) (domains : list string) : option manager_error :=
  match domains with
  | [] => None
  | domain :: domains =>
      match validateDomainFormat domain with
      | Some e => Some (InvalidDomain domain e)
      | None =>
          if existsb (String.eqb domain) seen then Some (DuplicateDomain domain)
          else check_domains (domain :: seen) domains
      end
  end.

(** [mkdir] and [aws]: whether the directory is made and the configuration of AWS
    loaded. *)
Definition NewDNS01Manager (domains : list string) (email cacheDir hostedZoneID acmeDirectoryURL : string) (mkdir aws : bool)
  : option manager_error :=
  match domains with
  | [] => Some NoDomains
  | _ =>
      match check_domains [] domains with
      | Some e => Some e
      | None =>
          if String.eqb email "" then Some NoEmail
          else if String.eqb cacheDir "" then Some NoCacheDir
          else if String.eqb hostedZoneID "" then Some NoHostedZone
          else if String.eqb acmeDirectoryURL "" then Some NoDirectoryURL
          else if negb mkdir then Some CreateCacheDir
          else if negb aws then Some LoadAWSConfig
          else None
      end
  end.

(** ** Challenge records *)

Inductive dns_error : Type :=
  | EmptyValue | ValueLength (n : Z) | ValueCharacter (c : Z) | EmptyRecordName | RecordNameTooLong | ControlCharacter.

Definition dns01ValueLength : Z := 43.

Definition value_rune (c : Z) : bool :=
  ((65 <=? c) && (c <=? 90)) || ((97 <=? c) && (c <=? 122)) || ((48 <=? c) && (c <=? 57)) || (c =? 45) || (c =? 95).

Definition validateDNS01Value (value : string) : option dns_error :=
  if strlen value =? 0 then Some EmptyValue
  else if negb (strlen value =? dns01ValueLength) then Some (ValueLength (strlen value))
  else match find (fun c => negb (value_rune c)) (runes value) with
       | Some c => Some (ValueCharacter c)
       | None => None
       end.

Definition control_rune (c : Z) : bool := (c <? 32) || (c =? 127).

Definition validateDNSRecordName (name : string) : option dns_error :=
  if String.eqb name "" then Some EmptyRecordName
  else
    let checkName := TrimSuffix name "." in
    if 253 <? strlen checkName then Some RecordNameTooLong
    else if existsb control_rune (runes checkName) then Some ControlCharacter else None.

Definition record_name (challengeDomain : string) : string := "_acme-challenge." +:+ strip_wildcard challengeDomain.

(** The name with its final dot, as Route 53 has it, and the checks before a record
    is created or deleted. *)
Definition normal_name (name : string) : string := if HasSuffix name "." then name else name +:+ ".".

Definition check_record (name value : string) : option dns_error :=
  match validateDNSRecordName (normal_name name) with
  | Some e => Some e
  | None => validateDNS01Value value
  end.

(** ** The domains of a certificate *)

Definition covers_name (expectedDomain dnsName : string) : bool :=
  let expectedBase := TrimPrefix expectedDomain "*." in
  String.eqb dnsName expectedDomain ||
  (HasPrefix dnsName "*." && String.eqb (str_drop 2 dnsName) expectedBase) ||
  (HasPrefix expectedDomain "*." && String.eqb dnsName expectedBase).

Definition domainCoveredByCert (names : list string) (expectedDomain : string) : bool := existsb (covers_name expectedDomain) names.

Definition certMatchesDomains (domains names : list string) : bool := forallb (domainCoveredByCert names) domains.

(** ** The files of the cache *)

(** [strings.Replace(name, old, new, 1)] for a non-empty [old]. *)
Definition Replace_once (s old new : string) : string :=
  match Index s old with
  | Some i => str_take i s +:+ new +:+ str_drop (i + String.length old) s
  | None => s
  end.

Definition cachePrefix (domains : list string) : string :=
  match domains with [] => "cert" | d :: _ => Replace_once d "*." "wildcard." end.

(** [filepath.Base]. *)
Definition Base (p : string) : string :=
  if String.eqb p "" then "."
  else
    let p := trim_right_byte "/" p in
    let p := match cut_last_byte "/" p with Some (_, b) => b | None => p end in
    if String.eqb p "" then "/" else p.

Definition safeCachePath (wd cacheDir filename : string) : option string :=
  let safeFilename := Base filename in
  if String.eqb safeFilename "." || String.eqb safeFilename ".." || String.eqb safeFilename "" then None
  else
    let fullPath := Join [cacheDir; safeFilename] in
    let absCache := Abs wd cacheDir in
    let absPath := Abs wd fullPath in
    if HasPrefix absPath (absCache +:+ "/") || String.eqb absPath absCache then Some fullPath else None.

(** ** Lemmas *)

Definition label_byte (c : ascii) : bool := label_rune (byte_code c).

(** What a label is. *)
Definition good_label (l : string) : Prop :=
  1 <= strlen l <= 63 /\ string_forall label_byte l = true /\ HasPrefix l "-" = false /\ HasSuffix l "-" = false.

Lemma label_high r : 128 <= r -> label_rune r = false.
Proof. unfold label_rune. lia. Qed.

Lemma HasSuffix_cons c s d : s <> "" -> HasSuffix (String c s) (String d "") = HasSuffix s (String d "").
Proof.
  intros Hs. destruct (string_snoc s) as [->|(t & e & ->)]; [done|].
  change (String c (t +:+ String e "")) with (String c t +:+ String e ""). by rewrite !HasSuffix_snoc.
Qed.

Lemma label_loop_none p s :
  label_loop (p +:+ s) (strlen p) (runes s) = None <->
  string_forall label_byte s = true /\ (p = "" -> HasPrefix s "-" = false) /\ HasSuffix s "-" = false.
Proof.
  revert p. induction s as [|c s IH]; intros p; [by cbn|].
  destruct (is_ascii c) eqn:Hc.
  2:{ destruct (runes_other_cons c s Hc) as (r & l & -> & Hr). cbn [label_loop]. rewrite label_high by done.
      cbn [string_forall]. unfold label_byte. rewrite label_high; [by naive_solver|]. unfold is_ascii in Hc. lia. }
  rewrite runes_ascii_cons by done. cbn [label_loop string_forall]. fold (label_byte c).
  destruct (label_byte c) eqn:Hl; [|naive_solver]. cbn [negb andb].
  specialize (IH (p +:+ String c "")). rewrite <- string_app_assoc in IH. change (String c "" +:+ s) with (String c s) in IH.
  assert (E : strlen (p +:+ String c "") = strlen p + 1) by (unfold strlen; rewrite string_length_app; cbn; lia). rewrite E in IH.
  assert (Hp : p +:+ String c "" <> "") by by destruct p. clear E.
  assert (Hpre : HasPrefix (String c s) "-" = (byte_code c =? 45)).
  { change (HasPrefix (String c s) "-") with (Ascii.eqb "-" c && true). rewrite andb_true_r, Ascii.eqb_sym.
    destruct (Ascii.eqb_spec c "-") as [->|Hne]; [done|]. symmetry. apply Z.eqb_neq. intros E. apply Hne, byte_code_inj. by rewrite E. }
  rewrite Hpre. destruct (Z.eqb_spec (byte_code c) 45) as [E45|N45]; cbn [andb].
  - assert (E0 : (strlen p =? 0) = bool_decide (p = "")).
    { destruct p; [done|]. rewrite bool_decide_false by done. apply Z.eqb_neq. unfold strlen. cbn. lia. }
    assert (E1 : (strlen p =? strlen (p +:+ String c s) - 1) = bool_decide (s = "")).
    { unfold strlen. rewrite string_length_app. destruct s; [rewrite bool_decide_true by done; cbn; lia|]. rewrite bool_decide_false by done. cbn. lia. }
    rewrite E0, E1. assert (Ec : c = "-"%char) by (apply byte_code_inj; by rewrite E45). subst c.
    destruct (decide (p = "")) as [Hp0|Hp0]; [rewrite (bool_decide_true (p = "")) by done|rewrite (bool_decide_false (p = "")) by done]; cbn [orb].
    { split; [done|]. intros (_ & Hq & _). by specialize (Hq Hp0). }
    case_bool_decide as Hs; [subst s; split; [done|]; by intros (_ & _ & Hq)|].
    rewrite IH, HasSuffix_cons by done. split; intros (H1 & _ & H3); (split; [done|split; [by intros ?|done]]).
  - rewrite IH. destruct (decide (s = "")) as [->|Hs].
    + change (String c "") with ("" +:+ String c ""). rewrite HasSuffix_snoc.
      assert (Hc45 : Ascii.eqb c "-" = false) by (apply Ascii.eqb_neq; intros ->; done). rewrite Hc45. by split; intros (H1 & _ & H3).
    + rewrite HasSuffix_cons by done. split; intros (H1 & _ & H3); (split; [done|split; [by intros ?|done]]).
Qed.

Lemma labels_loop_none i labels : labels_loop i labels = None <-> Forall good_label labels.
Proof.
  revert i. induction labels as [|l labels IH]; intros i; [done|]. cbn [labels_loop]. rewrite Forall_cons_iff. unfold good_label at 1.
  pose proof (label_loop_none "" l) as Hl. change ("" +:+ l) with l in Hl. change (strlen "") with 0 in Hl.
  destruct (Z.eqb_spec (strlen l) 0); [split; [done|lia]|]. assert (0 <= strlen l) by (unfold strlen; lia).
  destruct (Z.ltb_spec 63 (strlen l)); [split; [done|lia]|].
  destruct (label_loop l 0 (runes l)) as [e|]; [split; [done|]|rewrite IH].
  - intros [(_ & Hg) _]. naive_solver.
  - split; [|tauto]. intros Hi. split; [|done]. split; [lia|]. destruct Hl as [Hl _]. specialize (Hl eq_refl). naive_solver.
Qed.

Lemma good_pieces labels : Forall good_label labels -> Forall (fun x => string_has "." x = false) labels.
Proof. intros Hg. eapply list.Forall_impl; [exact Hg|]. intros x (_ & Hx & _). by eapply string_forall_has. Qed.

(** The bytes of a domain. *)
Lemma valid_chars d : validateDomainFormat d = None ->
  string_forall (fun c => label_byte c || Ascii.eqb c ".") (strip_wildcard d) = true.
Proof.
  unfold validateDomainFormat. destruct (253 <? strlen d); [done|]. destruct (_ <? 2)%nat; [done|]. rewrite labels_loop_none.
  intros Hg. rewrite <- (string_concat_split "." (strip_wildcard d)). induction Hg as [|l ls (_ & Hl & _) _ IH]; [done|].
  assert (Hl' : string_forall (fun c => label_byte c || Ascii.eqb c ".") l = true) by (eapply string_forall_impl; [|exact Hl]; intros c Hc; by rewrite Hc).
  destruct ls as [|l' ls]; [done|]. change (String.concat "." (l :: l' :: ls)) with (l +:+ ("." +:+ String.concat "." (l' :: ls))).
  by rewrite !string_forall_app, Hl', IH.
Qed.

Lemma valid_has c d : validateDomainFormat d = None -> label_byte c = false -> c <> "."%char -> string_has c (strip_wildcard d) = false.
Proof.
  intros Hv Hc Hd. eapply string_forall_has; [by apply valid_chars|]. cbn. by rewrite Hc, (proj2 (Ascii.eqb_neq c ".")).
Qed.

Lemma wildcard_split d : HasPrefix d "*." = true -> d = "*." +:+ strip_wildcard d.
Proof.
  intros Hd. unfold strip_wildcard. rewrite Hd. apply HasPrefix_spec in Hd as [r ->]. by rewrite (str_drop_app "*.").
Qed.

Lemma Index_none c t s : string_has c s = false -> Index s (String c t) = None.
Proof.
  induction s as [|d s IH]; [done|]. cbn [string_has]. intros [Hd Hs]%orb_false_iff. cbn [Index HasPrefix].
  rewrite Ascii.eqb_sym, Hd. cbn [andb]. by rewrite IH.
Qed.

Lemma cachePrefix_valid d ds : validateDomainFormat d = None ->
  cachePrefix (d :: ds) = if HasPrefix d "*." then "wildcard." +:+ strip_wildcard d else d.
Proof.
  intros Hv. unfold cachePrefix, Replace_once. destruct (HasPrefix d "*.") eqn:Hd.
  - assert (E : Index d "*." = Some 0%nat) by (destruct d; cbn [Index]; by rewrite Hd). rewrite E. unfold strip_wildcard. by rewrite Hd.
  - pose proof (valid_has "*" d Hv eq_refl ltac:(done)) as Hs. unfold strip_wildcard in Hs. rewrite Hd in Hs.
    by rewrite Index_none.
Qed.

Lemma cut_last_some c s a b : cut_last_byte c s = Some (a, b) -> string_has c b = false.
Proof.
  revert a. induction s as [|d s IH]; intros a; [done|]. cbn. destruct (cut_last_byte c s) as [[a' b']|] eqn:E.
  - intros [= <- <-]. by eapply IH.
  - destruct (Ascii.eqb d c); [|done]. intros [= _ <-]. clear IH. revert E. induction s as [|e s IH]; [done|]. cbn.
    destruct (cut_last_byte c s) as [[??]|]; [done|]. destruct (Ascii.eqb e c); [done|]. intros _. by apply IH.
Qed.

Lemma Base_cases f : Base f = "/" \/ (Base f <> "" /\ string_has "/" (Base f) = false).
Proof.
  unfold Base. destruct (String.eqb_spec f ""); [by right|]. set (p := trim_right_byte "/" f).
  destruct (cut_last_byte "/" p) as [[a b]|] eqn:E.
  - destruct (String.eqb_spec b ""); [by left|]. right. split; [done|]. by eapply cut_last_some.
  - destruct (String.eqb_spec p ""); [by left|]. right. split; [done|]. clear -E. revert E. induction p as [|e s IH]; [done|]. cbn.
    destruct (cut_last_byte "/" s) as [[??]|]; [done|]. destruct (Ascii.eqb e "/"); [done|]. intros _. by apply IH.
Qed.

Lemma Base_id f : f <> "" -> string_has "/" f = false -> Base f = f.
Proof.
  intros Hf Hs. unfold Base. rewrite (proj2 (String.eqb_neq _ _) Hf).
  assert (E : trim_right_byte "/" f = f).
  { destruct (string_snoc f) as [->|(t & c & ->)]; [done|]. apply trim_right_byte_snoc. intros ->.
    rewrite string_has_app in Hs. cbn in Hs. by rewrite orb_true_r in Hs. }
  rewrite E, cut_last_none by done. by rewrite (proj2 (String.eqb_neq _ _) Hf).
Qed.

(** Below a clean directory. *)
Lemma Join_name b x : Forall plain b -> plain x -> Join [path_string b; x] = path_string (b ++ [x]).
Proof.
  intros Hb (H1 & H2 & H3 & H4). rewrite Join_base; [|done|done|].
  - unfold key_segs. rewrite split_byte_none by done. cbn. unfold kept.
    by rewrite (proj2 (String.eqb_neq _ _) H1), (proj2 (String.eqb_neq _ _) H2).
  - rewrite split_byte_none by done. intros E%list_elem_of_singleton. congruence.
Qed.

Lemma Abs_clean wd b : Forall plain b -> Abs wd (path_string b) = path_string b.
Proof.
  intros Hb. unfold Abs. assert (E : HasPrefix (path_string b) "/" = true) by (apply HasPrefix_spec; by eexists).
  rewrite E. by apply Clean_join.
Qed.

Lemma safeCachePath_name wd b x : Forall plain b -> b <> [] -> plain x ->
  safeCachePath wd (path_string b) x = Some (path_string (b ++ [x])).
Proof.
  intros Hb Hne Hx. assert (Hx' := Hx). destruct Hx as (H1 & H2 & H3 & H4). unfold safeCachePath. rewrite Base_id by done.
  rewrite (proj2 (String.eqb_neq _ _) H1), (proj2 (String.eqb_neq _ _) H2), (proj2 (String.eqb_neq _ _) H3). cbn [orb].
  rewrite Join_name, !Abs_clean by (done || (apply Forall_app; split; [done|by constructor])).
  assert (E : HasPrefix (path_string (b ++ [x])) (path_string b +:+ "/") = true); [|by rewrite E].
  apply HasPrefix_spec. exists x. unfold path_string. by rewrite concat_snoc, <- !string_app_assoc.
Qed.

Lemma value_high r : 128 <= r -> value_rune r = false.
Proof. unfold value_rune. lia. Qed.

Lemma find_negb {A : Type} (f : A -> bool) l : find (fun x => negb (f x)) l = None <-> forallb f l = true.
Proof. induction l as [|x l IH]; [done|]. cbn. by destruct (f x). Qed.

Lemma forallb_bytes (f : Z -> bool) s : (forall r, 128 <= r -> f r = false) ->
  forallb f (runes s) = string_forall (fun c => f (byte_code c)) s.
Proof.
  intros Hf. induction s as [|c s IH]; [done|]. destruct (is_ascii c) eqn:Hc.
  - rewrite runes_ascii_cons by done. cbn. by rewrite IH.
  - destruct (runes_other_cons c s Hc) as (r & l & -> & Hr). cbn. rewrite !Hf; [done| |done]. unfold is_ascii in Hc. lia.
Qed.

(** ** Theorems *)

(** A domain is accepted exactly when it has at most 253 bytes and, without a
    leading wildcard, is two or more labels joined by dots, each of 1 to 63 letters,
    digits and hyphens with no hyphen at an end. *)
Theorem validateDomainFormat_spec d :
  validateDomainFormat d = None <->
  strlen d <= 253 /\
  exists labels, strip_wildcard d = String.concat "." labels /\ (2 <= length labels)%nat /\ Forall good_label labels.
Proof.
  unfold validateDomainFormat. destruct (Z.ltb_spec 253 (strlen d)) as [Hl|Hl]; [split; [done|lia]|].
  destruct (Nat.ltb_spec (length (split_byte "." (strip_wildcard d))) 2) as [Hn|Hn].
  - split; [done|]. intros (_ & labels & E & Hlen & Hg). rewrite E, split_byte_concat in Hn; [lia| |].
    + intros ->. cbn in Hlen. lia.
    + by apply good_pieces.
  - rewrite labels_loop_none. split.
    + intros Hg. split; [done|]. exists (split_byte "." (strip_wildcard d)). by rewrite string_concat_split.
    + intros (_ & labels & E & Hlen & Hg). rewrite E, split_byte_concat; [done| |].
      * intros ->. cbn in Hlen. lia.
      * by apply good_pieces.
Qed.

Lemma cache_name_plain d ds ext :
  validateDomainFormat d = None -> ext = ".crt" \/ ext = ".key" -> plain (cachePrefix (d :: ds) +:+ ext).
Proof.
  intros Hv He. rewrite cachePrefix_valid by done.
  pose proof (valid_has "/" d Hv eq_refl ltac:(done)) as Hs. set (p := if HasPrefix d "*." then _ else d).
  assert (Hp : string_has "/" p = false).
  { unfold p. destruct (HasPrefix d "*.") eqn:Hd; [by rewrite string_has_app|]. unfold strip_wildcard in Hs. by rewrite Hd in Hs. }
  assert (Hlong : (4 <= String.length (p +:+ ext))%nat) by (rewrite string_length_app; destruct He as [-> | ->]; cbn; lia).
  unfold plain. rewrite string_has_app, Hp. repeat split; [intros E; rewrite E in Hlong; cbn in Hlong; lia..|by destruct He as [-> | ->]].
Qed.

(** The files of the cache are its own: for domains that were accepted the
    certificate and the key are kept directly in the directory, under the name of
    the first domain. *)
Theorem cache_files wd b d ds ext :
  Forall plain b -> b <> [] -> validateDomainFormat d = None -> ext = ".crt" \/ ext = ".key" ->
  safeCachePath wd (path_string b) (cachePrefix (d :: ds) +:+ ext) = Some (path_string (b ++ [cachePrefix (d :: ds) +:+ ext])).
Proof. intros Hb Hne Hv He. apply safeCachePath_name; [done|done|]. by apply cache_name_plain. Qed.

Lemma cache_files_witness :
  safeCachePath "/home" "/var/certs" (cachePrefix ["*.example.com"; "example.com"] +:+ ".crt") =
    Some "/var/certs/wildcard.example.com.crt".
Proof.
  refine (cache_files "/home" ["var"; "certs"] "*.example.com" ["example.com"] ".crt" _ _ eq_refl (or_introl eq_refl)); [|done].
  repeat constructor; by vm_compute.
Defined.

(** No file name leads out of the cache: whatever it is, the path is refused, or
    it is a name in the directory, or the directory itself. *)
Theorem safeCachePath_inside wd b f p :
  Forall plain b -> safeCachePath wd (path_string b) f = Some p ->
  p = path_string b \/ exists x, plain x /\ p = path_string (b ++ [x]).
Proof.
  intros Hb. unfold safeCachePath. destruct (String.eqb_spec (Base f) "."); [done|]. destruct (String.eqb_spec (Base f) ".."); [done|].
  destruct (String.eqb_spec (Base f) ""); [done|]. cbn [orb]. destruct (_ || _); [|done]. intros H. assert (Hp : p = Join [path_string b; Base f]) by congruence. rewrite Hp. clear H Hp.
  destruct (Base_cases f) as [E|[_ Hs]].
  - left. rewrite E, Join_base by (done || set_solver). by rewrite app_nil_r.
  - right. exists (Base f). assert (Hx : plain (Base f)) by done. split; [done|]. by apply Join_name.
Qed.

Lemma safeCachePath_inside_witness :
  safeCachePath "/" "/var/certs" "../../etc/passwd" = Some "/var/certs/passwd" /\
  ("/var/certs/passwd" = path_string ["var"; "certs"] \/
   exists x, plain x /\ "/var/certs/passwd" = path_string (["var"; "certs"] ++ [x])).
Proof.
  split; [by vm_compute|]. apply (safeCachePath_inside "/" ["var"; "certs"] "../../etc/passwd"); [|by vm_compute].
  repeat constructor; by vm_compute.
Defined.

Lemma b64_rune c : is_Some (b64_value c) -> value_rune (byte_code c) = true.
Proof.
  unfold b64_value, value_rune. intros [v Hv]. repeat case_match; try done; lia.
Qed.

Lemma string_map_length f s : String.length (string_map f s) = String.length s.
Proof. induction s as [|c s IH]; [done|]. cbn. by rewrite IH. Qed.

(** The code of a challenge is accepted: what encodes a hash of 32 bytes has 43
    characters, all of the alphabet. *)
Theorem challenge_value_valid hash : String.length hash = 32%nat -> validateDNS01Value (b64_encode hash) = None.
Proof.
  intros Hh. assert (Hl : strlen (b64_encode hash) = 43).
  { pose proof (std_encode_length hash) as E. unfold std_encode in E. rewrite string_map_length, Hh in E. unfold strlen. rewrite E. done. }
  unfold validateDNS01Value. rewrite Hl. cbn [Z.eqb negb dns01ValueLength]. change (43 =? dns01ValueLength) with true. cbn [negb].
  rewrite (proj2 (find_negb value_rune _)); [done|]. rewrite forallb_bytes by apply value_high.
  eapply string_forall_impl; [|apply b64_chars]. intros c Hc. apply b64_rune. cbv beta in Hc. destruct (b64_value c); [by eexists|done].
Qed.

Lemma challenge_value_valid_witness : validateDNS01Value (b64_encode "0123456789abcdef0123456789abcdef") = None.
Proof. exact (challenge_value_valid "0123456789abcdef0123456789abcdef" eq_refl). Defined.

Lemma control_high r : 128 <= r -> negb (control_rune r) = true.
Proof. unfold control_rune. lia. Qed.

Definition plain_byte (c : ascii) : bool := is_ascii c && negb (control_rune (byte_code c)).

Lemma no_control s : string_forall plain_byte s = true -> existsb control_rune (runes s) = false.
Proof.
  intros Hs. rewrite runes_ascii by (eapply string_forall_impl; [|exact Hs]; unfold plain_byte; intros c Hc; by apply andb_true_iff in Hc as [? _]).
  induction s as [|c s IH]; [done|]. cbn [string_forall] in Hs. apply andb_true_iff in Hs as [Hc Hs]. unfold plain_byte in Hc.
  cbn [String.list_ascii_of_string map existsb]. rewrite IH, orb_false_r by done. destruct (control_rune (byte_code c)); [by rewrite andb_false_r in Hc|done].
Qed.

Lemma label_plain_byte c : label_byte c || Ascii.eqb c "." = true -> plain_byte c = true.
Proof.
  unfold label_byte, label_rune, plain_byte, is_ascii, control_rune. intros [H|H]%orb_true_iff; [lia|]. apply Ascii.eqb_eq in H. by subst.
Qed.

Lemma valid_end d : validateDomainFormat d = None -> HasSuffix (strip_wildcard d) "." = false /\ strip_wildcard d <> "".
Proof.
  unfold validateDomainFormat. destruct (253 <? strlen d); [done|]. destruct (Nat.ltb_spec (length (split_byte "." (strip_wildcard d))) 2) as [|Hn]; [done|].
  rewrite labels_loop_none. intros Hg. destruct (string_snoc (strip_wildcard d)) as [E|(t & c & E)]; rewrite E in *; [cbn in Hn; lia|].
  split; [|by destruct t]. rewrite HasSuffix_snoc. destruct (Ascii.eqb_spec c ".") as [->|]; [|done].
  rewrite split_byte_sep in Hg. apply Forall_app in Hg as [_ Hg]. apply Forall_cons_1 in Hg as [[Hg _] _]. vm_compute in Hg. by destruct Hg as [[] _].
Qed.

(** The record of a domain that was accepted is accepted, and its value tested,
    as long as the domain has at most 237 bytes; a longer one, although valid,
    cannot have a certificate. *)
Theorem record_of_valid d value :
  validateDomainFormat d = None ->
  check_record (record_name d) value =
    if 237 <? strlen (strip_wildcard d) then Some RecordNameTooLong else validateDNS01Value value.
Proof.
  intros Hv. assert (Hend : HasSuffix (record_name d) "." = false).
  { destruct (valid_end d Hv) as [He Hne]. unfold record_name. destruct (string_snoc (strip_wildcard d)) as [E|(t & c & E)]; [done|].
    rewrite E in *. rewrite string_app_assoc, HasSuffix_snoc. by rewrite HasSuffix_snoc in He. }
  unfold check_record, normal_name. rewrite Hend. unfold validateDNSRecordName. rewrite TrimSuffix_app.
  rewrite (proj2 (String.eqb_neq _ _)) by done.
  assert (Hl : strlen (record_name d) = 16 + strlen (strip_wildcard d)).
  { unfold record_name, strlen. rewrite string_length_app. change (String.length "_acme-challenge.") with 16%nat. lia. }
  rewrite Hl. destruct (Z.ltb_spec 237 (strlen (strip_wildcard d))); [by rewrite (proj2 (Z.ltb_lt _ _)) by lia|].
  rewrite (proj2 (Z.ltb_ge _ _)) by lia. unfold record_name.
  assert (Hc : existsb control_rune (runes ("_acme-challenge." +:+ strip_wildcard d)) = false).
  { apply no_control. rewrite string_forall_app. apply andb_true_iff. split; [by vm_compute|].
    eapply string_forall_impl; [|by apply valid_chars]. intros c. apply label_plain_byte. }
  by rewrite Hc.
Qed.

Lemma record_of_valid_witness :
  check_record (record_name "*.example.com") (b64_encode "0123456789abcdef0123456789abcdef") = None.
Proof. rewrite (record_of_valid "*.example.com" (b64_encode "0123456789abcdef0123456789abcdef") eq_refl). by vm_compute. Defined.

(** A cached certificate is taken to cover a domain when one of its names is the
    same but for a wildcard: the wildcard does not count, on either side. So a
    certificate for a domain passes for all its subdomains, which it is not for, and
    a wildcard for its own domain. *)
Theorem covered_ignores_wildcard names d :
  Forall (fun n => HasPrefix (strip_wildcard n) "*." = false) (d :: names) ->
  domainCoveredByCert names d = true <-> exists n, n ∈ names /\ strip_wildcard n = strip_wildcard d.
Proof.
  intros [Hd Hn]%Forall_cons_iff. unfold domainCoveredByCert. rewrite existsb_exists.
  assert (Ht : TrimPrefix d "*." = strip_wildcard d) by done.
  split; intros (n & Hin & H); exists n.
  - apply list_elem_of_In in Hin. split; [done|]. unfold covers_name in H. rewrite Ht, !orb_true_iff, !andb_true_iff, !String.eqb_eq in H.
    destruct H as [[->|[Hp E]]|[Hp E]]; [done| |].
    + unfold strip_wildcard at 1. by rewrite Hp.
    + unfold strip_wildcard at 1. rewrite E, Hd. done.
  - split; [by apply list_elem_of_In|]. unfold covers_name. rewrite Ht, !orb_true_iff, !andb_true_iff, !String.eqb_eq.
    destruct (HasPrefix n "*.") eqn:Hpn; [left; right; split; [done|]; rewrite <- H; unfold strip_wildcard; by rewrite Hpn|].
    destruct (HasPrefix d "*.") eqn:Hpd; [right; split; [done|]; rewrite <- H; unfold strip_wildcard; by rewrite Hpn|].
    left; left. revert H. unfold strip_wildcard. by rewrite Hpn, Hpd.
Qed.

Lemma covered_ignores_wildcard_witness :
  domainCoveredByCert ["example.com"] "*.example.com" = true /\ domainCoveredByCert ["*.example.com"] "example.com" = true /\
  domainCoveredByCert ["*.example.com"] "www.example.com" <> true.
Proof.
  split; [|split].
  - apply (covered_ignores_wildcard ["example.com"] "*.example.com"); [repeat constructor|]. exists "example.com". by split; [left|].
  - apply (covered_ignores_wildcard ["*.example.com"] "example.com"); [repeat constructor|]. exists "*.example.com". by split; [left|].
  - intros H. apply (covered_ignores_wildcard ["*.example.com"] "www.example.com") in H; [|repeat constructor].
    destruct H as (n & ->%list_elem_of_singleton & H). vm_compute in H. discriminate H.
Defined.

Lemma check_domains_none seen ds :
  check_domains seen ds = None <-> Forall (fun d => validateDomainFormat d = None) ds /\ NoDup ds /\ Forall (fun d => d ∉ seen) ds.
Proof.
  revert seen. induction ds as [|d ds IH]; intros seen; [split; [repeat constructor|done]|]. cbn [check_domains].
  rewrite !Forall_cons_iff, list.NoDup_cons. destruct (validateDomainFormat d) eqn:Hd; [split; [done|]; by intros [[??] _]|].
  destruct (existsb (String.eqb d) seen) eqn:Hs.
  - apply existsb_exists in Hs as (x & Hx & E). apply String.eqb_eq in E as <-. apply list_elem_of_In in Hx. split; [done|]. by intros (_ & _ & ? & _).
  - assert (Hns : d ∉ seen).
    { intros Hin. apply not_true_iff_false in Hs. apply Hs, existsb_exists. exists d. by rewrite <- list_elem_of_In, String.eqb_refl. }
    rewrite IH. split.
    + intros (H1 & H2 & H3). repeat split; try done.
      * intros Hin. rewrite list.Forall_forall in H3. apply (H3 _ Hin). by left.
      * eapply list.Forall_impl; [exact H3|]. intros x Hx Hin. apply Hx. by right.
    + intros ((_ & H1) & (H2 & H3) & (_ & H4)). split; [done|]. split; [done|].
      rewrite list.Forall_forall in H4 |- *. intros x Hx [->|Hin]%elem_of_cons; [done|]. by apply (H4 x).
Qed.

(** A manager is made exactly for one or more valid domains, all different, with
    every other argument given, a directory that can be made and AWS at hand. *)
Theorem NewDNS01Manager_spec ds email dir zone url mkdir aws :
  NewDNS01Manager ds email dir zone url mkdir aws = None <->
  ds <> [] /\ Forall (fun d => validateDomainFormat d = None) ds /\ NoDup ds /\
  email <> "" /\ dir <> "" /\ zone <> "" /\ url <> "" /\ mkdir = true /\ aws = true.
Proof.
  unfold NewDNS01Manager. destruct ds as [|d ds]; [split; [done|by intros []]|].
  pose proof (check_domains_none [] (d :: ds)) as Hc. destruct (check_domains [] (d :: ds)) as [e|].
  - split; [done|]. intros (_ & H1 & H2 & _). destruct Hc as [_ Hc]. apply Hc. split; [done|]. split; [done|].
    apply list.Forall_forall. intros x _ Hx. by apply elem_of_nil in Hx.
  - destruct Hc as [Hc _]. destruct (Hc eq_refl) as (H1 & H2 & _).
    repeat (match goal with |- context [String.eqb ?x ""] => destruct (String.eqb_spec x "") end;
            [split; [done|intros (_ & _ & _ & ? & ? & ? & ? & _); congruence]|]).
    destruct mkdir, aws; cbn; split; try done; by intros (_ & _ & _ & _ & _ & _ & _ & ? & ?).
Qed.
