(* ===== verification/Acme.v ===== *)
(** * Obtaining certificates

    [src/server/acmedns.go]: the account, the DNS-01 challenges, the cache and
    [doObtainCertificate], the part of [DNS01Manager] that one goroutine performs at
    a time; [Renewal] has the goroutines that wait for it.

    The ACME server, Route 53, the resolver, the clock and the context of a call
    are [Env]: functions on a world [W] of their own, whose every answer can be an
    error.  The codecs of [crypto/x509], [encoding/pem] and [encoding/json] are
    [Codecs].  The files of the cache are a map; any operation on them may fail,
    and a failed write may leave a part of its data.  [log] records the calls of
    Route 53, with their arguments and answers; no operation reads it. *)

From stdpp Require Import list numbers strings gmap.
From S2P Require Import Prelude GoStrings Paths Dns01.

#[local] Open Scope list_scope.

(** ** What is outside *)

Inductive err : Type :=
  | External (text : string)
  | Message (text : string)
  | Wrapped (text : string) (e : err)
  | DnsError (e : dns_error)
  | NotExist
  | OutOfFuel.

Record order := mkOrder { AuthzURLs : list string; FinalizeURL : string }.
Record challenge := mkChallenge { ch_Type : string; Token : string }.
Record authorization := mkAuthz { authz_valid : bool; Identifier : string; Challenges : list challenge }.
Record leaf_certificate := mkLeaf { DNSNames : list string; NotAfter : Time }.
Inductive key_kind : Type := EC | RSA | OtherKey.
Inductive change_action : Type := Upsert | Delete.

Section acme.
Context {W Key : Type}.

Record certificate := mkCert { chain : list string; PrivateKey : option Key; Leaf : option leaf_certificate }.

Class Env := {
  Now : W -> W * Time;
  (** [ctx.Err()] when [ctx.Done()] is ready. *)
  ctx_Done : W -> W * option err;
  ctx_Deadline : option Time;
  (** The select of [ctx.Done()] and [time.After]. *)
  sleep_or_done : Duration -> W -> W * option err;
  (** A file operation that fails, and what a failed write leaves. *)
  fault : W -> W * option err;
  write_fault : string -> W -> W * option (err * option string);
  GetReg : Key -> string -> W -> W * result err (option string);
  Register : Key -> string -> W -> W * result err (option string);
  AuthorizeOrder : Key -> list string -> W -> W * result err (option order);
  GetAuthorization : Key -> string -> W -> W * result err (option authorization);
  DNS01ChallengeRecord : Key -> string -> result err string;
  Accept : Key -> challenge -> W -> W * option err;
  WaitAuthorization : Key -> string -> W -> W * option err;
  CreateOrderCert : Key -> string -> string -> W -> W * result err (list string);
  (** The ID of the change, [None] when the answer has none. *)
  ChangeResourceRecordSets : change_action -> string -> string -> W -> W * result err (option string);
  WaitChange : string -> W -> W * option err;
  LookupTXT : string -> W -> W * option (list string);
  GenerateKey : W -> W * result err Key;
  CreateCertificateRequest : list string -> Key -> W -> W * result err string
}.

Class Codecs := {
  X509KeyPair : string -> string -> option certificate;
  ParseCertificate : string -> result err leaf_certificate;
  kind : Key -> key_kind;
  ParseECPrivateKey : string -> option Key;
  MarshalECPrivateKey : Key -> result err string;
  MarshalPKCS1PrivateKey : Key -> string;
  pem_Decode : string -> option (string * string);
  pem_Encode : string -> string -> string;
  (** The account file: the JSON of its URI. *)
  account_Marshal : string -> string;
  account_Unmarshal : string -> option string;
  (** Scheme and host of [url.Parse]. *)
  url_Parse : string -> option (string * string)
}.

(** A call of Route 53, as it was made, and its answer. *)
Inductive event : Type :=
  | Changed (a : change_action) (name value : string) (r : result err (option string))
  | Waited (id : string) (e : option err).

Record manager := mkManager {
  client : option Key;
  cert : option certificate;
  certExpiry : Time;
  files : gmap string string;
  world : W;
  log : list event
}.

Record config := mkConfig { Domains : list string; Email : string; CacheDir : string; wd : string }.

(** ** Operations on the manager *)

Definition M (A : Type) : Type := manager -> manager * A.
Definition ret {A : Type} (x : A) : M A := fun m => (m, x).
Definition bind {A B : Type} (f : M A) (k : A -> M B) : M B := fun m => let '(m, x) := f m in k x m.
Definition fail {A : Type} (e : err) : M (result err A) := ret (Err e).
Definition bind_ok {A B : Type} (f : M (result err A)) (k : A -> M (result err B)) : M (result err B) :=
  bind f (fun r => match r with Ok x => k x | Err e => ret (Err e) end).
(** [return fmt.Errorf(text: %w, err)]. *)
Definition wrap {A : Type} (text : string) (f : M (result err A)) : M (result err A) :=
  bind f (fun r => ret (match r with Ok x => Ok x | Err e => Err (Wrapped text e) end)).
Definition ok_unit (o : option err) : result err unit := match o with None => Ok () | Some e => Err e end.
Definition checked (f : M (option err)) : M (result err unit) := bind f (fun o => ret (ok_unit o)).
Definition not_nil {A : Type} (text : string) (o : option A) : M (result err A) :=
  match o with Some x => ret (Ok x) | None => fail (Message text) end.

#[local] Notation "'let*' x ':=' f 'in' k" := (bind f (fun x => k)) (at level 10, x pattern, f at level 200, k at level 200).
#[local] Notation "'try*' x ':=' f 'in' k" := (bind_ok f (fun x => k)) (at level 10, x pattern, f at level 200, k at level 200).
#[local] Notation "f ';*' k" := (bind_ok f (fun _ => k)) (at level 199, right associativity).

Definition outside {A : Type} (f : W -> W * A) : M A := fun m =>
  let '(w, x) := f (world m) in
  (mkManager (client m) (cert m) (certExpiry m) (files m) w (log m), x).
Definition note (e : event) : M () := fun m =>
  (mkManager (client m) (cert m) (certExpiry m) (files m) (world m) (log m ++ [e]), ()).
Definition set_files (fs : gmap string string) : M () := fun m =>
  (mkManager (client m) (cert m) (certExpiry m) fs (world m) (log m), ()).
Definition set_client (k : Key) : M () := fun m =>
  (mkManager (Some k) (cert m) (certExpiry m) (files m) (world m) (log m), ()).
Definition store_cert (c : option certificate) (expiry : Time) : M () := fun m =>
  (mkManager (client m) c expiry (files m) (world m) (log m), ()).
Definition get {A : Type} (f : manager -> A) : M A := fun m => (m, f m).

Context `{Env} `{Codecs} (cfg : config).

Definition change_records (a : change_action) (name value : string) : M (result err (option string)) :=
  let* r := outside (ChangeResourceRecordSets a name value) in
  let* _ := note (Changed a name value r) in
  ret r.

Definition wait_change (id : string) : M (option err) :=
  let* e := outside (WaitChange id) in
  let* _ := note (Waited id e) in
  ret e.

(** ** Files *)

Definition os_ReadFile (path : string) : M (result err string) :=
  let* e := outside fault in
  let* fs := get files in
  ret (match e, fs !! path with
       | Some e, _ => Err e
       | None, None => Err NotExist
       | None, Some data => Ok data
       end).

Definition os_WriteFile (path data : string) : M (option err) :=
  let* e := outside (write_fault data) in
  let* fs := get files in
  match e with
  | None => let* _ := set_files (<[path := data]> fs) in ret None
  | Some (e, None) => ret (Some e)
  | Some (e, Some part) => let* _ := set_files (<[path := part]> fs) in ret (Some e)
  end.

Definition os_Rename (old new : string) : M (option err) :=
  let* e := outside fault in
  let* fs := get files in
  match e, fs !! old with
  | Some e, _ => ret (Some e)
  | None, None => ret (Some NotExist)
  | None, Some data => let* _ := set_files (<[new := data]> (delete old fs)) in ret None
  end.

Definition os_Remove (path : string) : M (option err) :=
  let* e := outside fault in
  let* fs := get files in
  match e, fs !! path with
  | Some e, _ => ret (Some e)
  | None, None => ret (Some NotExist)
  | None, Some _ => let* _ := set_files (delete path fs) in ret None
  end.

(** Write to a temporary file, then rename. *)
Definition write_atomic (path data write rename : string) : M (option err) :=
  let tmp := path +:+ ".tmp" in
  let* e := os_WriteFile tmp data in
  match e with
  | Some e => ret (Some (Wrapped write e))
  | None =>
      let* e := os_Rename tmp path in
      match e with
      | Some e => let* _ := os_Remove tmp in ret (Some (Wrapped rename e))
      | None => ret None
      end
  end.

Definition cache_path (suffix : string) : M (result err string) :=
  match safeCachePath (wd cfg) (CacheDir cfg) (cachePrefix (Domains cfg) +:+ suffix) with
  | Some p => ret (Ok p)
  | None => fail (Message "invalid cache path")
  end.

Definition dir_path (name : string) : string := Join [CacheDir cfg; name].

(** ** The cache of certificates *)

Definition renewalBuffer : Duration := 30 * 24 * Hour.

Definition with_leaf (c : certificate) (l : leaf_certificate) : certificate := mkCert (chain c) (PrivateKey c) (Some l).

(** The leaf that is kept in the certificate, or is parsed from its chain. *)
Definition leaf_of (c : certificate) : result err leaf_certificate :=
  match Leaf c, chain c with
  | Some l, _ => Ok l
  | None, der :: _ => match ParseCertificate der with Ok l => Ok l | Err e => Err (Wrapped "parse leaf certificate" e) end
  | None, [] => Err (Message "no leaf certificate in chain")
  end.

Definition loadCachedCert : M (result err (certificate * Time)) :=
  try* certPath := wrap "cert path" (cache_path ".crt") in
  try* keyPath := wrap "key path" (cache_path ".key") in
  try* certPEM := os_ReadFile certPath in
  try* keyPEM := os_ReadFile keyPath in
  match X509KeyPair certPEM keyPEM with
  | None => fail (Message "X509KeyPair")
  | Some c =>
      try* l := ret (leaf_of c) in
      if certMatchesDomains (Domains cfg) (DNSNames l) then ret (Ok (with_leaf c l, NotAfter l))
      else fail (Message "cached certificate doesn't cover all domains")
  end.

Definition key_PEM (k : Key) : result err string :=
  match kind k with
  | EC => match MarshalECPrivateKey k with
          | Ok der => Ok (pem_Encode "EC PRIVATE KEY" der)
          | Err e => Err (Wrapped "marshal ECDSA key" e)
          end
  | RSA => Ok (pem_Encode "RSA PRIVATE KEY" (MarshalPKCS1PrivateKey k))
  | OtherKey => Err (Message "unsupported key type")
  end.

Definition cert_PEM (c : certificate) : string := String.concat "" (map (pem_Encode "CERTIFICATE") (chain c)).

Definition cacheCert (c : certificate) : M (result err unit) :=
  try* certPath := wrap "cert path" (cache_path ".crt") in
  try* keyPath := wrap "key path" (cache_path ".key") in
  try* k := not_nil "certificate missing private key" (PrivateKey c) in
  try* keyPEM := ret (key_PEM k) in
  checked (write_atomic keyPath keyPEM "write temp key" "rename key file") ;*
  checked (write_atomic certPath (cert_PEM c) "write temp cert" "rename cert file").

(** ** The account *)

Definition newAccountKey (keyPath : string) : M (result err Key) :=
  try* key := outside GenerateKey in
  try* der := ret (MarshalECPrivateKey key) in
  checked (write_atomic keyPath (pem_Encode "EC PRIVATE KEY" der) "write temp key file" "rename key file") ;*
  ret (Ok key).

Definition loadOrCreateAccountKey : M (result err Key) :=
  let keyPath := dir_path "account.key" in
  let* data := os_ReadFile keyPath in
  match data with
  | Ok data =>
      match pem_Decode data with
      | Some (type, bytes) =>
          match (if String.eqb type "EC PRIVATE KEY" then ParseECPrivateKey bytes else None) with
          | Some key => ret (Ok key)
          | None => newAccountKey keyPath
          end
      | None => newAccountKey keyPath
      end
  | Err _ => newAccountKey keyPath
  end.

(** The URI of the account: empty when the file has none. *)
Definition loadAccount : M (result err string) :=
  try* data := os_ReadFile (dir_path "account.json") in
  match account_Unmarshal data with
  | None => fail (Message "json")
  | Some "" => ret (Ok "")
  | Some uri =>
      match url_Parse uri with
      | None => fail (Message "cached account has invalid URI")
      | Some (scheme, host) =>
          if negb (String.eqb scheme "https") || String.eqb host "" then fail (Message "cached account URI must be HTTPS with a host")
          else ret (Ok uri)
      end
  end.

Definition saveAccount (uri : string) : M (option err) := os_WriteFile (dir_path "account.json") (account_Marshal uri).

Fixpoint error_text (e : err) : string :=
  match e with
  | External t | Message t => t
  | Wrapped t e => t +:+ ": " +:+ error_text e
  | DnsError _ => "dns01"
  | NotExist => "file does not exist"
  | OutOfFuel => ""
  end.

Definition isAccountExists (e : err) : bool :=
  Contains (error_text e) "already exists" || Contains (error_text e) "Account already exists".

Definition ctx_check (text : string) : M (result err unit) := wrap text (checked (outside ctx_Done)).

(** Whether the account in the cache is still good. *)
Definition cached_account (key : Key) : M bool :=
  let* acc := loadAccount in
  match acc with
  | Ok "" | Err _ => ret false
  | Ok uri =>
      let* reg := outside (GetReg key uri) in
      match reg with
      | Ok (Some verified) =>
          if negb (String.eqb verified "") && negb (String.eqb verified uri) then let* _ := saveAccount verified in ret true
          else ret true
      | _ => ret false
      end
  end.

Definition existing_account (key : Key) : M (result err unit) :=
  try* acc := wrap "get existing account" (outside (GetReg key "")) in
  try* uri := not_nil "ACME server returned nil account without error" acc in
  if String.eqb uri "" then fail (Message "ACME server returned existing account without URI")
  else let* _ := saveAccount uri in ret (Ok ()).

Definition register (key : Key) : M (result err unit) :=
  let* reg := outside (Register key ("mailto:" +:+ Email cfg)) in
  match reg with
  | Err e => if isAccountExists e then existing_account key else fail (Wrapped "register account" e)
  | Ok None | Ok (Some "") => fail (Message "ACME registration succeeded but returned no account URI")
  | Ok (Some uri) => let* _ := saveAccount uri in ret (Ok ())
  end.

Definition ensureClient : M (result err unit) :=
  ctx_check "context cancelled before client initialization" ;*
  let* c := get client in
  match c with
  | Some _ => ret (Ok ())
  | None =>
      ctx_check "context cancelled during client initialization" ;*
      try* key := wrap "account key" loadOrCreateAccountKey in
      let* _ := set_client key in
      let* good := cached_account key in
      if good : bool then ret (Ok ()) else register key
  end.

(** ** Records *)

Definition check_names (name value : string) : M (result err unit) :=
  match check_record name value with Some e => fail (DnsError e) | None => ret (Ok ()) end.

Definition quoted (value : string) : string := String (byte_of_code 34) (value +:+ String (byte_of_code 34) "").

Definition createDNSRecord (name value : string) : M (result err unit) :=
  check_names name value ;*
  try* id := wrap "create DNS record" (change_records Upsert (normal_name name) (quoted value)) in
  match id with
  | None => fail (Message "Route53 returned invalid response: missing ChangeInfo or Id")
  | Some id =>
      let* e := wait_change id in
      match e with
      | Some e => fail (Wrapped "waiting for DNS record propagation" e)
      | None => ret (Ok ())
      end
  end.

Definition deleteDNSRecord (name value : string) : M (result err unit) :=
  check_names name value ;*
  try* _ := wrap "delete DNS record" (change_records Delete (normal_name name) (quoted value)) in
  ret (Ok ()).

Definition dnsPropagationTimeout : Duration := 5 * Minute.
Definition dnsPropagationInterval : Duration := 5 * Second.

Fixpoint propagation_loop (fuel : nat) (deadline : Time) (recordName expectedValue : string) : M (result err unit) :=
  match fuel with
  | O => fail OutOfFuel
  | S fuel =>
      checked (outside ctx_Done) ;*
      let* now := outside Now in
      if time_After now deadline then fail (Message "timeout waiting for DNS propagation")
      else
        let* records := outside (LookupTXT recordName) in
        if existsb (String.eqb expectedValue) (default [] records) then ret (Ok ())
        else
          checked (outside (sleep_or_done dnsPropagationInterval)) ;*
          propagation_loop fuel deadline recordName expectedValue
  end.

(** Enough rounds for five minutes. *)
Definition propagation_rounds : nat := 62.

Definition wait_rounds (rounds : nat) (recordName expectedValue : string) : M (result err unit) :=
  let* startTime := outside Now in
  let deadline := time_Add startTime dnsPropagationTimeout in
  let deadline := match ctx_Deadline with Some d => if time_Before d deadline then d else deadline | None => deadline end in
  propagation_loop rounds deadline recordName expectedValue.

Definition waitForDNSPropagation : string -> string -> M (result err unit) := wait_rounds propagation_rounds.

(** ** Obtaining *)

(** What is done on an error after the record is there. *)
Definition or_cleanup {A : Type} (recordName txtValue text : string) (f : M (result err A)) : M (result err A) :=
  let* r := f in
  match r with
  | Ok x => ret (Ok x)
  | Err e => let* _ := deleteDNSRecord recordName txtValue in fail (Wrapped text e)
  end.

Definition find_dns01 (cs : list challenge) : option challenge := find (fun c => String.eqb (ch_Type c) "dns-01") cs.

Definition fulfil (key : Key) (authzURL : string) (authz : authorization) : M (result err unit) :=
  try* chal := not_nil "dns01: no DNS-01 challenge found" (find_dns01 (Challenges authz)) in
  try* txtValue := wrap "dns01: compute challenge record" (ret (DNS01ChallengeRecord key (Token chal))) in
  let recordName := record_name (Identifier authz) in
  wrap "dns01: create DNS record" (createDNSRecord recordName txtValue) ;*
  or_cleanup recordName txtValue "dns01: DNS propagation" (waitForDNSPropagation recordName txtValue) ;*
  or_cleanup recordName txtValue "dns01: accept challenge" (checked (outside (Accept key chal))) ;*
  or_cleanup recordName txtValue "dns01: wait authorization" (checked (outside (WaitAuthorization key authzURL))) ;*
  let* _ := deleteDNSRecord recordName txtValue in
  ret (Ok ()).

Definition authorize (key : Key) (authzURL : string) : M (result err unit) :=
  ctx_check "dns01" ;*
  try* authz := wrap "dns01: get authorization" (outside (GetAuthorization key authzURL)) in
  try* authz := not_nil "dns01: ACME server returned nil authorization" authz in
  if authz_valid authz then ret (Ok ()) else fulfil key authzURL authz.

Fixpoint authorize_all (key : Key) (urls : list string) : M (result err unit) :=
  match urls with
  | [] => ret (Ok ())
  | url :: urls => authorize key url ;* authorize_all key urls
  end.

(** From the authorised order to the parsed certificate. *)
Definition finalize (key : Key) (url : string) : M (result err (certificate * leaf_certificate)) :=
  try* certKey := wrap "dns01: generate cert key" (outside GenerateKey) in
  try* csr := wrap "dns01: create CSR" (outside (CreateCertificateRequest (Domains cfg) certKey)) in
  try* der := wrap "dns01: finalize order" (outside (CreateOrderCert key url csr)) in
  match der with
  | [] => fail (Message "dns01: ACME server returned empty certificate chain")
  | "" :: _ => fail (Message "dns01: ACME server returned empty leaf certificate")
  | leaf :: _ =>
      try* l := wrap "dns01: parse certificate" (ret (ParseCertificate leaf)) in
      ret (Ok (mkCert der (Some certKey) (Some l), l))
  end.

Definition obtain_new : M (result err certificate) :=
  wrap "dns01: init client" ensureClient ;*
  let* c := get client in
  try* key := not_nil "nil client" c in
  try* order := wrap "dns01: authorize order" (outside (AuthorizeOrder key (Domains cfg))) in
  try* order := not_nil "dns01: ACME server returned nil order" order in
  authorize_all key (AuthzURLs order) ;*
  try* (c, l) := finalize key (FinalizeURL order) in
  let* _ := cacheCert c in
  let* _ := store_cert (Some c) (NotAfter l) in
  ret (Ok c).

Definition doObtainCertificate : M (result err certificate) :=
  let* cached := loadCachedCert in
  match cached with
  | Ok (c, expiry) =>
      let* now := outside Now in
      if time_Before (time_Add now renewalBuffer) expiry then let* _ := store_cert (Some c) expiry in ret (Ok c)
      else obtain_new
  | Err _ => obtain_new
  end.

(** [ForceRenewal], before it asks for a certificate: what is in memory and in the
    cache is forgotten. *)
Definition forget : M unit :=
  let* _ := store_cert None zero_time in
  let* c := cache_path ".crt" in
  let* k := cache_path ".key" in
  let* _ := match c with Ok p => os_Remove p | Err _ => ret None end in
  let* _ := match k with Ok p => os_Remove p | Err _ => ret None end in
  ret ().

(** ** What an operation leaves alone *)

(** [p] of the manager is the same after [f]. *)
Class Keeps {B A : Type} (p : manager -> B) (f : M A) : Prop := keeps : forall m, p (f m).1 = p m.

Section keeping.
Context {B : Type} (p : manager -> B).

Lemma keeps_ret {A : Type} (x : A) : Keeps p (ret x).
Proof. done. Qed.
Lemma keeps_get {A : Type} (f : manager -> A) : Keeps p (get f).
Proof. done. Qed.
Lemma keeps_bind {A C : Type} (f : M A) (k : A -> M C) : Keeps p f -> (forall x, Keeps p (k x)) -> Keeps p (bind f k).
Proof. intros Hf Hk m. unfold bind. specialize (Hf m). destruct (f m) as [m1 x]. rewrite (Hk x m1). exact Hf. Qed.
Lemma keeps_bind_ok {A C : Type} (f : M (result err A)) (k : A -> M (result err C)) :
  Keeps p f -> (forall x, Keeps p (k x)) -> Keeps p (bind_ok f k).
Proof. intros Hf Hk. apply keeps_bind; [done|]. intros [x|e]; [apply Hk|apply keeps_ret]. Qed.
Lemma keeps_wrap {A : Type} t (f : M (result err A)) : Keeps p f -> Keeps p (wrap t f).
Proof. intros Hf. apply keeps_bind; [done|]. intros x. apply keeps_ret. Qed.
Lemma keeps_checked (f : M (option err)) : Keeps p f -> Keeps p (checked f).
Proof. intros Hf. apply keeps_bind; [done|]. intros x. apply keeps_ret. Qed.

End keeping.

(** Follows the program; what is left is about its primitives. *)
Ltac keeps_step :=
  match goal with
  | |- Keeps _ (ret _) => apply keeps_ret
  | |- Keeps _ (fail _) => apply keeps_ret
  | |- Keeps _ (get _) => apply keeps_get
  | |- Keeps _ (wrap _ _) => apply keeps_wrap
  | |- Keeps _ (checked _) => apply keeps_checked
  | |- Keeps _ (bind_ok _ _) => apply keeps_bind_ok; [|intros ?]
  | |- Keeps _ (bind _ _) => apply keeps_bind; [|intros ?]
  | |- Keeps _ (not_nil _ ?o) => destruct o; apply keeps_ret
  | |- Keeps _ (match ?x with _ => _ end) => destruct x
  | _ => typeclasses eauto
  end.
Ltac keeps_all := repeat keeps_step.

(** A part that the world and the files do not touch. *)
Class Apart {B : Type} (p : manager -> B) : Prop := {
  apart_outside : forall A (f : W -> W * A), Keeps p (outside f);
  apart_files : forall fs, Keeps p (set_files fs)
}.
#[local] Existing Instances apart_outside apart_files.

#[local] Instance log_apart : Apart log.
Proof. split; [|done]. intros A f m. unfold outside. by destruct (f (world m)). Qed.

(** What the manager answers with: the certificate and its end. *)
Definition stored (m : manager) : option certificate * Time := (cert m, certExpiry m).
#[local] Instance stored_apart : Apart stored.
Proof. split; [|done]. intros A f m. unfold outside. by destruct (f (world m)). Qed.
#[local] Instance client_apart : Apart client.
Proof. split; [|done]. intros A f m. unfold outside. by destruct (f (world m)). Qed.

Section apart.
Context {B : Type} (p : manager -> B) `{Apart B p}.

#[local] Instance ReadFile_keeps path : Keeps p (os_ReadFile path).
Proof. unfold os_ReadFile. keeps_all. Qed.
#[local] Instance WriteFile_keeps path data : Keeps p (os_WriteFile path data).
Proof. unfold os_WriteFile. keeps_all. Qed.
#[local] Instance Rename_keeps old new : Keeps p (os_Rename old new).
Proof. unfold os_Rename. keeps_all. Qed.
#[local] Instance Remove_keeps path : Keeps p (os_Remove path).
Proof. unfold os_Remove. keeps_all. Qed.
#[local] Instance write_atomic_keeps path data w r : Keeps p (write_atomic path data w r).
Proof. unfold write_atomic. keeps_all. Qed.
#[local] Instance cache_path_keeps suffix : Keeps p (cache_path suffix).
Proof. unfold cache_path. keeps_all. Qed.
#[export] Instance loadCachedCert_keeps : Keeps p loadCachedCert.
Proof. unfold loadCachedCert. keeps_all. Qed.
#[export] Instance cacheCert_keeps c : Keeps p (cacheCert c).
Proof. unfold cacheCert. keeps_all. Qed.
#[local] Instance newAccountKey_keeps path : Keeps p (newAccountKey path).
Proof. unfold newAccountKey. keeps_all. Qed.
#[export] Instance account_key_keeps : Keeps p loadOrCreateAccountKey.
Proof. unfold loadOrCreateAccountKey. keeps_all. Qed.
#[local] Instance loadAccount_keeps : Keeps p loadAccount.
Proof. unfold loadAccount. keeps_all. Qed.
#[local] Instance saveAccount_keeps uri : Keeps p (saveAccount uri).
Proof. unfold saveAccount. keeps_all. Qed.
#[export] Instance cached_account_keeps key : Keeps p (cached_account key).
Proof. unfold cached_account. keeps_all. Qed.
#[export] Instance register_keeps key : Keeps p (register key).
Proof. unfold register, existing_account. keeps_all. Qed.
#[export] Instance ctx_check_keeps t : Keeps p (ctx_check t).
Proof. unfold ctx_check. keeps_all. Qed.
#[export] Instance propagation_keeps n deadline name value : Keeps p (propagation_loop n deadline name value).
Proof. induction n as [|n IH]; cbn [propagation_loop]; keeps_all. Qed.
#[export] Instance wait_keeps name value : Keeps p (waitForDNSPropagation name value).
Proof. unfold waitForDNSPropagation, wait_rounds. keeps_all. Qed.
#[export] Instance finalize_keeps key url : Keeps p (finalize key url).
Proof. unfold finalize. keeps_all. Qed.
End apart.

#[local] Instance note_keeps_stored e : Keeps stored (note e).
Proof. done. Qed.
#[local] Instance set_client_keeps_stored k : Keeps stored (set_client k).
Proof. done. Qed.
#[local] Instance set_client_keeps_log k : Keeps log (set_client k).
Proof. done. Qed.
#[local] Instance ensureClient_keeps_log : Keeps log ensureClient.
Proof. unfold ensureClient. keeps_all. Qed.
#[local] Instance ensureClient_keeps_stored : Keeps stored ensureClient.
Proof. unfold ensureClient. keeps_all. Qed.
#[local] Instance delete_keeps_stored name value : Keeps stored (deleteDNSRecord name value).
Proof. unfold deleteDNSRecord, check_names, change_records. keeps_all. Qed.
#[local] Instance authorize_keeps_stored key url : Keeps stored (authorize key url).
Proof. unfold authorize, fulfil, createDNSRecord, or_cleanup, check_names, change_records, wait_change. keeps_all. Qed.
#[local] Instance authorize_all_keeps_stored key urls : Keeps stored (authorize_all key urls).
Proof. induction urls as [|u us IH]; cbn [authorize_all]; keeps_all. Qed.

(** ** What is logged *)

(** [P] of the result of [f] and of the events it adds. *)
Definition logs {A : Type} (f : M A) (P : A -> list event -> Prop) : Prop :=
  forall m, exists new, log (f m).1 = log m ++ new /\ P (f m).2 new.

Lemma logs_keeps {A : Type} (f : M A) : Keeps log f -> logs f (fun _ new => new = []).
Proof. intros Hf m. exists []. by rewrite app_nil_r, Hf. Qed.

Lemma logs_weaken {A : Type} (f : M A) (P Q : A -> list event -> Prop) : logs f P -> (forall x l, P x l -> Q x l) -> logs f Q.
Proof. intros Hf Hi m. destruct (Hf m) as (new & E & Hp). exists new. split; [done|]. by apply Hi. Qed.

Lemma logs_bind {A C : Type} (f : M A) (k : A -> M C) (P : A -> list event -> Prop) (R : C -> list event -> Prop) :
  logs f P -> (forall x l1, P x l1 -> logs (k x) (fun y l2 => R y (l1 ++ l2))) -> logs (bind f k) R.
Proof.
  intros Hf Hk m. unfold bind. destruct (Hf m) as (l1 & E1 & H1). destruct (f m) as [m1 x]. cbn in E1, H1.
  destruct (Hk x l1 H1 m1) as (l2 & E2 & H2). exists (l1 ++ l2). by rewrite E2, E1, app_assoc.
Qed.

Lemma logs_bind_ok {A C : Type} (f : M (result err A)) (k : A -> M (result err C)) P (R : result err C -> list event -> Prop) :
  logs f P -> (forall e l, P (Err e) l -> R (Err e) l) ->
  (forall x l1, P (Ok x) l1 -> logs (k x) (fun y l2 => R y (l1 ++ l2))) -> logs (bind_ok f k) R.
Proof.
  intros Hf He Hk. eapply logs_bind; [exact Hf|]. intros [x|e] l1 H1; [by apply Hk|].
  intros m. exists []. cbn. rewrite !app_nil_r. split; [done|]. by apply He.
Qed.

Lemma logs_quiet {A C : Type} (f : M A) (k : A -> M C) (R : C -> list event -> Prop) :
  Keeps log f -> (forall x, logs (k x) R) -> logs (bind f k) R.
Proof. intros Hf Hk. eapply logs_bind; [by apply logs_keeps|]. intros x l1 ->. apply Hk. Qed.

Lemma logs_quiet_ok {A C : Type} (f : M (result err A)) (k : A -> M (result err C)) (R : result err C -> list event -> Prop) :
  Keeps log f -> (forall e, R (Err e) []) -> (forall x, logs (k x) R) -> logs (bind_ok f k) R.
Proof. intros Hf He Hk. eapply logs_bind_ok; [by apply logs_keeps|by intros e l ->|]. intros x l1 ->. apply Hk. Qed.

Lemma logs_ret {A : Type} (x : A) (R : A -> list event -> Prop) : R x [] -> logs (ret x) R.
Proof. intros HR m. exists []. by rewrite app_nil_r. Qed.

Lemma logs_note {A : Type} e (k : M A) (R : A -> list event -> Prop) : logs k (fun y l => R y (e :: l)) -> logs (bind (note e) (fun _ => k)) R.
Proof.
  intros Hk. eapply (logs_bind _ _ (fun _ l => l = [e])); [intros m; by exists [e]|]. intros _ l1 ->. exact Hk.
Qed.

Lemma logs_wrap {A : Type} t (f : M (result err A)) (P R : result err A -> list event -> Prop) :
  logs f P -> (forall x l, P (Ok x) l -> R (Ok x) l) -> (forall e l, P (Err e) l -> R (Err (Wrapped t e)) l) -> logs (wrap t f) R.
Proof.
  intros Hf Ho He. eapply logs_bind; [exact Hf|]. intros [x|e] l1 H1; apply logs_ret; rewrite app_nil_r; [by apply Ho|by apply He].
Qed.

(** The calls for whole challenges: each record is made, confirmed and deleted,
    under the same name and value, before the next; only the last may be one that
    Route 53 refused or did not confirm, and then the attempt has failed. *)
Inductive tidy : bool -> list event -> Prop :=
| tidy_nil ok : tidy ok []
| tidy_record ok n v id r l :
    tidy ok l -> tidy ok (Changed Upsert n v (Ok (Some id)) :: Waited id None :: Changed Delete n v r :: l)
| tidy_refused n v e : tidy false [Changed Upsert n v (Err e)]
| tidy_nameless n v : tidy false [Changed Upsert n v (Ok None)]
| tidy_unconfirmed n v id e : tidy false [Changed Upsert n v (Ok (Some id)); Waited id (Some e)].
#[local] Hint Constructors tidy : core.

Definition tidy_result {A : Type} (r : result err A) (l : list event) : Prop :=
  tidy (match r with Ok _ => true | Err _ => false end) l.

Lemma tidy_app b l k : tidy true l -> tidy b k -> tidy b (l ++ k).
Proof. remember true as t eqn:Ht. intros Hl Hk. induction Hl; try done. cbn [app]. auto. Qed.

Lemma tidy_weaken l : tidy true l -> tidy false l.
Proof. intros H1. rewrite <- (app_nil_r l). by apply tidy_app. Qed.

Lemma change_logs a n v : logs (change_records a n v) (fun r l => l = [Changed a n v r]).
Proof.
  unfold change_records. apply logs_quiet; [keeps_all|]. intros r. by apply logs_note, logs_ret.
Qed.

Lemma wait_change_logs id : logs (wait_change id) (fun e l => l = [Waited id e]).
Proof. unfold wait_change. apply logs_quiet; [keeps_all|]. intros e. by apply logs_note, logs_ret. Qed.

Definition deleted (name value : string) (l : list event) : Prop :=
  exists r, l = [Changed Delete (normal_name name) (quoted value) r].

Lemma delete_logs name value : check_record name value = None -> logs (deleteDNSRecord name value) (fun _ => deleted name value).
Proof.
  intros Hc. unfold deleteDNSRecord, check_names. rewrite Hc. change (bind_ok (ret (Ok ())) ?k) with (k ()). cbv beta.
  eapply (logs_bind_ok _ _ (fun _ => deleted name value)).
  - eapply logs_wrap; [apply change_logs| |]; intros x l ->; by eexists.
  - done.
  - intros x l Hl. apply logs_ret. by rewrite app_nil_r.
Qed.

(** The calls that make a record; what follows is its deletion. *)
Lemma create_logs name value :
  logs (createDNSRecord name value) (fun r l =>
    match r with
    | Ok _ => check_record name value = None /\ exists id, l = [Changed Upsert (normal_name name) (quoted value) (Ok (Some id)); Waited id None]
    | Err _ => tidy false l
    end).
Proof.
  unfold createDNSRecord, check_names. destruct (check_record name value) as [e|] eqn:Hc; [apply logs_ret; constructor|].
  change (bind_ok (ret (Ok ())) ?k) with (k ()). cbv beta.
  eapply (logs_bind_ok _ _ (fun r l => match r with Ok id => l = [Changed Upsert (normal_name name) (quoted value) (Ok id)] | Err _ => tidy false l end)).
  - eapply logs_wrap; [apply change_logs|by intros x l ->|intros e l ->; constructor].
  - done.
  - intros [id|] l ->; [|apply logs_ret; constructor]. eapply logs_bind; [apply wait_change_logs|]. intros [e|] l ->; apply logs_ret; [constructor|eauto].
Qed.

Lemma cleanup_logs {A : Type} name value t (f : M (result err A)) : Keeps log f -> check_record name value = None ->
  logs (or_cleanup name value t f) (fun r l => match r with Ok _ => l = [] | Err _ => deleted name value l end).
Proof.
  intros Hf Hc. apply logs_quiet; [done|]. intros [x|e]; [by apply logs_ret|].
  eapply logs_bind; [by apply delete_logs|]. intros u l Hl. apply logs_ret. by rewrite app_nil_r.
Qed.

(** After the record is there: it is deleted, whatever comes next. *)
Lemma cleanup_then {A C : Type} name value t (f : M (result err A)) (k : A -> M (result err C)) :
  Keeps log f -> check_record name value = None ->
  (forall x, logs (k x) (fun r l => deleted name value l)) ->
  logs (bind_ok (or_cleanup name value t f) k) (fun r l => deleted name value l).
Proof.
  intros Hf Hc Hk. eapply logs_bind_ok; [by apply cleanup_logs|done|]. intros x l ->. apply Hk.
Qed.

Lemma fulfil_logs key url authz : logs (fulfil key url authz) tidy_result.
Proof.
  unfold fulfil. apply logs_quiet_ok; [keeps_all|constructor|]. intros chal. apply logs_quiet_ok; [keeps_all|constructor|]. intros value.
  set (name := record_name (Identifier authz)).
  eapply (logs_bind_ok _ _ (fun r l => match r with
    | Ok _ => check_record name value = None /\ exists id, l = [Changed Upsert (normal_name name) (quoted value) (Ok (Some id)); Waited id None]
    | Err _ => tidy false l end)).
  - eapply logs_wrap; [apply create_logs|done|done].
  - done.
  - intros _ l [Hc [id ->]]. eapply (logs_weaken _ (fun r l => deleted name value l)); [|intros r l [d ->]; cbn [app]; by apply tidy_record].
    apply cleanup_then; [keeps_all|done|intros _]. apply cleanup_then; [keeps_all|done|intros _].
    apply cleanup_then; [keeps_all|done|intros _]. eapply logs_bind; [by apply delete_logs|]. intros u l Hl. apply logs_ret. by rewrite app_nil_r.
Qed.

Lemma authorize_all_logs key urls : logs (authorize_all key urls) tidy_result.
Proof.
  assert (Ha : forall url, logs (authorize key url) tidy_result).
  { intros url. unfold authorize. apply logs_quiet_ok; [keeps_all|constructor|]. intros _. apply logs_quiet_ok; [keeps_all|constructor|]. intros authz.
    apply logs_quiet_ok; [keeps_all|constructor|]. intros a. destruct (authz_valid a); [apply logs_ret; constructor|apply fulfil_logs]. }
  induction urls as [|url urls IH]; cbn [authorize_all]; [apply logs_ret; constructor|].
  eapply logs_bind_ok; [apply Ha|done|]. intros u l Hl. eapply logs_weaken; [apply IH|]. intros r k Hk. by apply tidy_app.
Qed.

Lemma obtain_logs : logs doObtainCertificate tidy_result.
Proof.
  assert (Hn : logs obtain_new tidy_result).
  { unfold obtain_new. apply logs_quiet_ok; [keeps_all|constructor|]. intros _. apply logs_quiet; [keeps_all|]. intros c.
    apply logs_quiet_ok; [keeps_all|constructor|]. intros key. apply logs_quiet_ok; [keeps_all|constructor|]. intros o.
    apply logs_quiet_ok; [keeps_all|constructor|]. intros order. eapply logs_bind_ok; [apply authorize_all_logs|done|].
    intros u l Hl. eapply (logs_weaken _ (fun _ k => k = [])).
    - apply logs_keeps. keeps_all; done.
    - intros r k ->. rewrite app_nil_r. destruct r; [done|by apply tidy_weaken]. }
  unfold doObtainCertificate. apply logs_quiet; [keeps_all|]. intros [[c expiry]|e]; [|done].
  apply logs_quiet; [keeps_all|]. intros now. destruct (time_Before _ _); [|done]. apply logs_quiet; [done|]. intros _. apply logs_ret. constructor.
Qed.

(** The records of the zone, by the answers to the calls. *)
Definition apply_event (z : gset (string * string)) (e : event) : gset (string * string) :=
  match e with
  | Changed Upsert n v (Ok _) => {[(n, v)]} ∪ z
  | Changed Delete n v (Ok _) => z ∖ {[(n, v)]}
  | _ => z
  end.
Definition zone (l : list event) : gset (string * string) := fold_left apply_event l ∅.

(** What comes after a record, with the identifier of its change, that was not confirmed. *)
Definition unconfirmed (id : option string) (after : list event) : Prop :=
  match id with
  | None => after = []
  | Some id => exists e, after = [Waited id (Some e)]
  end.

Lemma tidy_upsert ok l i n v id : tidy ok l -> l !! i = Some (Changed Upsert n v (Ok id)) ->
  (exists id' r, id = Some id' /\ l !! S i = Some (Waited id' None) /\ l !! S (S i) = Some (Changed Delete n v r)) \/
  (unconfirmed id (drop (S i) l) /\ ok = false).
Proof.
  intros Ht. revert i. induction Ht as [ok|ok n' v' id' r l Ht IH|n' v' e|n' v'|n' v' id' e]; intros i Hi.
  - done.
  - destruct i as [|[|[|i]]]; cbn in Hi; simplify_eq; [left; by eexists _, _|]. by apply IH.
  - destruct i; by simplify_eq/=.
  - destruct i as [|i]; simplify_eq/=. right. by split.
  - destruct i as [|[|i]]; simplify_eq/=. right. split; [by eexists|done].
Qed.

Lemma tidy_zone ok l z : tidy ok l -> forall n v, (n, v) ∈ fold_left apply_event l z ->
  (n, v) ∈ z \/ (exists e, Changed Delete n v (Err e) ∈ l) \/
  (exists i id, l !! i = Some (Changed Upsert n v (Ok id)) /\ unconfirmed id (drop (S i) l)).
Proof.
  intros Ht. revert z. induction Ht as [ok|ok n' v' id r l Ht IH|n' v' e|n' v'|n' v' id e]; intros z n v Hz; cbn [fold_left apply_event] in Hz.
  - by left.
  - apply IH in Hz as [Hz|[[e He]|(i & id' & Hi & Hu)]].
    + destruct r as [o|e]; [left; set_solver|]. apply elem_of_union in Hz as [Hz|Hz]; [|by left].
      apply elem_of_singleton in Hz as [= -> ->]. right; left. exists e. do 2 right. left.
    + right; left. exists e. by do 3 right.
    + right; right. by exists (S (S (S i))), id'.
  - by left.
  - apply elem_of_union in Hz as [Hz|Hz]; [|by left]. apply elem_of_singleton in Hz as [= -> ->]. right; right. by exists O, None.
  - apply elem_of_union in Hz as [Hz|Hz]; [|by left]. apply elem_of_singleton in Hz as [= -> ->]. right; right. exists O, (Some id). split; [done|by eexists].
Qed.

(** ** Lemmas: the cache *)

Lemma run_bind {A C : Type} (f : M A) (k : A -> M C) m : bind f k m = k (f m).2 (f m).1.
Proof. unfold bind. by destruct (f m). Qed.

Lemma run_bind_ok {A C : Type} (f : M (result err A)) (k : A -> M (result err C)) m :
  bind_ok f k m = match (f m).2 with Ok x => k x (f m).1 | Err e => ((f m).1, Err e) end.
Proof. unfold bind_ok. rewrite run_bind. by destruct (f m).2. Qed.

Lemma bind_ok_ok {A C : Type} (f : M (result err A)) (k : A -> M (result err C)) m m1 x : f m = (m1, Ok x) -> bind_ok f k m = k x m1.
Proof. intros E. by rewrite run_bind_ok, E. Qed.

Lemma wrap_ok {A : Type} t (f : M (result err A)) m m1 x : f m = (m1, Ok x) -> wrap t f m = (m1, Ok x).
Proof. intros E. unfold wrap. by rewrite run_bind, E. Qed.

Lemma run_checked (f : M (option err)) m : checked f m = ((f m).1, ok_unit (f m).2).
Proof. unfold checked. by rewrite run_bind. Qed.

(** A file is replaced whole or not at all, and no other but the temporary one is
    touched. *)
Lemma write_atomic_spec path data w r m :
  let m' := (write_atomic path data w r m).1 in
  files m' !! path = match (write_atomic path data w r m).2 with None => Some data | Some _ => files m !! path end /\
  (forall q, q <> path -> q <> path +:+ ".tmp" -> files m' !! q = files m !! q).
Proof.
  assert (Hne : path <> path +:+ ".tmp") by (intros E; apply (f_equal String.length) in E; rewrite string_length_app in E; cbn in E; lia).
  unfold write_atomic, os_WriteFile, os_Rename, os_Remove, outside, get, set_files, bind, ret. cbn.
  destruct (write_fault data (world m)) as [w1 [[e [part|]]|]]; cbn; [split; [by rewrite lookup_insert_ne|intros; by rewrite lookup_insert_ne]|done|].
  destruct (fault w1) as [w2 [e|]]; cbn.
  - destruct (fault w2) as [w3 [e'|]]; cbn; [split; [by rewrite lookup_insert_ne|intros; by rewrite lookup_insert_ne]|].
    rewrite lookup_insert_eq. cbn. split; [by rewrite lookup_delete_ne, lookup_insert_ne|intros; by rewrite lookup_delete_ne, lookup_insert_ne].
  - rewrite lookup_insert_eq. cbn. split; [by rewrite lookup_insert_eq|]. intros q H1 H2. by rewrite lookup_insert_ne, lookup_delete_ne, lookup_insert_ne.
Qed.

(** ** Theorems *)

(** C26. Challenge records are taken away again, whatever the servers answer.  By the
    calls of Route 53 that one attempt makes: a record that was made and confirmed is
    followed at once by a call to delete it, under the same name and value, even when
    the challenge fails; a record that was not confirmed is the last call, and the
    attempt fails.  So a record is left behind only where Route 53 answered its
    deletion with an error, or did not confirm it. *)
Theorem records_cleaned m :
  exists new, log (doObtainCertificate m).1 = log m ++ new /\
  (forall i name value id, new !! i = Some (Changed Upsert name value (Ok id)) ->
     (exists id' r, id = Some id' /\ new !! S i = Some (Waited id' None) /\ new !! S (S i) = Some (Changed Delete name value r)) \/
     (unconfirmed id (drop (S i) new) /\ exists e, (doObtainCertificate m).2 = Err e)) /\
  (forall name value, (name, value) ∈ zone new ->
     (exists e, Changed Delete name value (Err e) ∈ new) \/
     (exists i id, new !! i = Some (Changed Upsert name value (Ok id)) /\ unconfirmed id (drop (S i) new))).
Proof.
  destruct (obtain_logs m) as (new & E & Ht). exists new. split; [done|]. unfold tidy_result in Ht. split.
  - intros i name value id Hi. destruct (tidy_upsert _ _ _ _ _ _ Ht Hi) as [?|[? Hok]]; [by left|right]. split; [done|].
    destruct ((doObtainCertificate m).2) as [c|e]; [done|by exists e].
  - intros name value Hz. apply (tidy_zone _ _ _ Ht) in Hz as [Hz|Hz]; [by apply not_elem_of_empty in Hz|done].
Qed.

(** What a computation that keeps a part leaves of it. *)
Lemma stored_bind_ok {A C : Type} (f : M (result err A)) (k : A -> M (result err C)) (Q : manager -> result err C -> Prop) m :
  Keeps stored f ->
  (forall m1 e, stored m1 = stored m -> Q m1 (Err e)) ->
  (forall m1 x, stored m1 = stored m -> Q (k x m1).1 (k x m1).2) -> Q (bind_ok f k m).1 (bind_ok f k m).2.
Proof.
  intros Hf He Hk. rewrite run_bind_ok. specialize (Hf m). destruct (f m) as [m1 [x|e]]; cbn in *; [by apply Hk|by apply He].
Qed.

Lemma finalize_leaf key url m : match (finalize key url m).2 with Ok (c, l) => Leaf c = Some l | Err _ => True end.
Proof.
  unfold finalize. rewrite run_bind_ok. destruct ((wrap _ _ m).2); [|done]. rewrite run_bind_ok. destruct ((wrap _ _ _).2); [|done].
  rewrite run_bind_ok. destruct ((wrap _ _ _).2) as [[|[|ch der] ders]|]; try done. rewrite run_bind_ok. by destruct ((wrap _ _ _).2).
Qed.

Lemma load_leaf m : match (loadCachedCert m).2 with Ok (c, expiry) => exists l, Leaf c = Some l /\ expiry = NotAfter l | Err _ => True end.
Proof.
  unfold loadCachedCert. rewrite run_bind_ok. destruct ((wrap _ _ m).2); [|done]. rewrite run_bind_ok. destruct ((wrap _ _ _).2); [|done].
  rewrite run_bind_ok. destruct ((os_ReadFile _ _).2); [|done]. rewrite run_bind_ok. destruct ((os_ReadFile _ _).2); [|done].
  destruct (X509KeyPair _ _) as [c|]; [|done]. rewrite run_bind_ok. cbn. destruct (leaf_of c) as [l|e]; [|done].
  destruct (certMatchesDomains _ _); [|done]. cbn. by exists l.
Qed.

(** An attempt that succeeds leaves its certificate, with the end of its leaf,
    as the one that is served; one that fails leaves the certificate that was
    served before. *)
Theorem obtain_stores m :
  let m' := (doObtainCertificate m).1 in
  match (doObtainCertificate m).2 with
  | Ok c => cert m' = Some c /\ exists l, Leaf c = Some l /\ certExpiry m' = NotAfter l
  | Err _ => cert m' = cert m /\ certExpiry m' = certExpiry m
  end.
Proof.
  set (Q := fun (m1 : manager) (r : result err certificate) => match r with
    | Ok c => cert m1 = Some c /\ exists l, Leaf c = Some l /\ certExpiry m1 = NotAfter l
    | Err _ => stored m1 = stored m end).
  assert (Hn : forall m0, stored m0 = stored m -> Q (obtain_new m0).1 (obtain_new m0).2).
  { intros m0 E0. unfold obtain_new.
    apply (stored_bind_ok _ _ Q); [keeps_all|intros m1 e E1; change (stored m1 = stored m); by rewrite E1, E0|]. intros m1 _ E1. rewrite run_bind. change ((get client m1).1) with m1.
    apply (stored_bind_ok _ _ Q); [keeps_all|intros m2 e E2; change (stored m2 = stored m); by rewrite E2, E1, E0|]. intros m2 key E2.
    apply (stored_bind_ok _ _ Q); [keeps_all|intros m3 e E3; change (stored m3 = stored m); by rewrite E3, E2, E1, E0|]. intros m3 o E3.
    apply (stored_bind_ok _ _ Q); [keeps_all|intros m4 e E4; change (stored m4 = stored m); by rewrite E4, E3, E2, E1, E0|]. intros m4 order E4.
    apply (stored_bind_ok _ _ Q); [keeps_all|intros m5 e E5; change (stored m5 = stored m); by rewrite E5, E4, E3, E2, E1, E0|]. intros m5 _ E5.
    rewrite run_bind_ok. pose proof (finalize_keeps stored key (FinalizeURL order) m5) as E6. pose proof (finalize_leaf key (FinalizeURL order) m5) as Hl.
    destruct (finalize key (FinalizeURL order) m5) as [m6 [[c l]|e]]; cbn [fst snd] in *; [|change (stored m6 = stored m); by rewrite E6, E5, E4, E3, E2, E1, E0].
    rewrite run_bind. unfold store_cert. cbn. split; [done|]. by exists l. }
  assert (Hg : Q (doObtainCertificate m).1 (doObtainCertificate m).2).
  { unfold doObtainCertificate. rewrite run_bind. pose proof (loadCachedCert_keeps stored m) as E1. pose proof (load_leaf m) as Hl.
    destruct (loadCachedCert m) as [m1 [[c expiry]|e]]; cbn [fst snd] in E1, Hl |- *; [|by apply Hn].
    rewrite run_bind. pose proof (keeps (p := stored) (f := outside Now) m1) as E2. destruct (outside Now m1) as [m2 now]. cbn [fst snd] in E2 |- *.
    destruct (time_Before _ _); [|apply Hn; by rewrite E2, E1]. rewrite run_bind. cbn. by split. }
  cbv zeta. unfold Q in Hg. destruct (doObtainCertificate m) as [m' [c|e]]; cbn in *; [done|]. by injection Hg.
Qed.

(** ** The wait for a record *)

(** Time passes: no call turns the clock of the world back, a sleep that is not
    interrupted takes its time, and errors of the context are errors. *)
Class Clock (time_of : W -> Time) : Prop := {
  clock_done : forall w, time_of w <= time_of (ctx_Done w).1;
  clock_now : forall w, time_of w <= (Now w).2 <= time_of (Now w).1;
  clock_lookup : forall n w, time_of w <= time_of (LookupTXT n w).1;
  clock_sleep : forall d w, (sleep_or_done d w).2 = None -> time_of w + d <= time_of (sleep_or_done d w).1;
  done_real : forall w, (ctx_Done w).2 <> Some OutOfFuel;
  sleep_real : forall d w, (sleep_or_done d w).2 <> Some OutOfFuel
}.

Definition with_world (m : manager) (w : W) : manager := mkManager (client m) (cert m) (certExpiry m) (files m) w (log m).

Lemma loop_step fuel deadline name value m :
  propagation_loop (S fuel) deadline name value m =
    let '(w1, e) := ctx_Done (world m) in
    match e with
    | Some e => (with_world m w1, Err e)
    | None =>
        let '(w2, t) := Now w1 in
        if time_After t deadline then (with_world m w2, Err (Message "timeout waiting for DNS propagation"))
        else
          let '(w3, records) := LookupTXT name w2 in
          if existsb (String.eqb value) (default [] records) then (with_world m w3, Ok ())
          else
            let '(w4, e) := sleep_or_done dnsPropagationInterval w3 in
            match e with
            | Some e => (with_world m w4, Err e)
            | None => propagation_loop fuel deadline name value (with_world m w4)
            end
    end.
Proof.
  cbn [propagation_loop]. unfold checked, bind_ok, bind, outside, ret, fail, with_world. cbn [world client cert certExpiry files log ok_unit].
  destruct (ctx_Done (world m)) as [w1 [e|]]; [done|]. cbn [world client cert certExpiry files log ok_unit].
  destruct (Now w1) as [w2 t]. destruct (time_After t deadline); [done|]. cbn [world client cert certExpiry files log ok_unit].
  destruct (LookupTXT name w2) as [w3 records]. destruct (existsb _ _); [done|]. cbn [world client cert certExpiry files log ok_unit].
  by destruct (sleep_or_done dnsPropagationInterval w3) as [w4 [e|]].
Qed.

Lemma loop_rounds time_of `{Clock time_of} k extra deadline name value m :
  deadline < time_of (world m) + dnsPropagationInterval * Z.of_nat k ->
  propagation_loop (S (k + extra)) deadline name value m = propagation_loop (S k) deadline name value m /\
  (propagation_loop (S k) deadline name value m).2 <> Err OutOfFuel.
Proof.
  revert m. induction k as [|k IH]; intros m Hd; rewrite !loop_step;
    pose proof (clock_done (world m)) as Hc; pose proof (done_real (world m)) as Hr;
    destruct (ctx_Done (world m)) as [w1 [e|]]; cbn in Hc, Hr; try (split; [done|]; cbn; congruence);
    pose proof (clock_now w1) as Hn; destruct (Now w1) as [w2 t]; cbn in Hn; unfold time_After.
  - rewrite (proj2 (Z.ltb_lt _ _)) by lia. done.
  - destruct (deadline <? t); [done|].
    pose proof (clock_lookup name w2) as Hl. destruct (LookupTXT name w2) as [w3 records]. cbn in Hl.
    destruct (existsb _ _); [done|].
    pose proof (clock_sleep dnsPropagationInterval w3) as Hs. pose proof (sleep_real dnsPropagationInterval w3) as Hr'.
    destruct (sleep_or_done dnsPropagationInterval w3) as [w4 [e|]]; cbn in Hs, Hr'; [split; [done|cbn; congruence]|].
    apply (IH (with_world m w4)). cbn [with_world world]. specialize (Hs eq_refl). lia.
Qed.

(** The wait for a record ends: whatever the resolver answers, at most 62 rounds
    are made, since each takes five seconds and the deadline is at most five
    minutes away; a greater bound would change nothing. *)
Theorem propagation_ends time_of `{Clock time_of} extra name value m :
  wait_rounds (propagation_rounds + extra) name value m = waitForDNSPropagation name value m /\
  (waitForDNSPropagation name value m).2 <> Err OutOfFuel.
Proof.
  unfold waitForDNSPropagation, wait_rounds. rewrite !run_bind.
  pose proof (clock_now (world m)) as Hn. unfold outside. destruct (Now (world m)) as [w1 t]. cbn [fst snd world] in *.
  apply (loop_rounds time_of 61). cbn [world].
  assert (Hd : forall d, d <= t + dnsPropagationTimeout -> d < time_of w1 + dnsPropagationInterval * Z.of_nat 61).
  { intros d Hd. unfold dnsPropagationTimeout, dnsPropagationInterval, Minute, Second in *. lia. }
  apply Hd. unfold time_Add, time_Before. destruct ctx_Deadline as [d|]; [|lia]. destruct (Z.ltb_spec d (t + dnsPropagationTimeout)); lia.
Qed.

(** ** The account *)

(** A registration that failed passes for one that was made: the client is there
    from before, so that the next attempt finds it and does not ask the server for
    an account. *)
Theorem failed_registration_forgotten m m' e :
  client m = None -> ensureClient m = (m', Err e) -> client m' <> None ->
  (exists key m1, client m1 = Some key /\ register key m1 = (m', Err e)) /\
  ((ctx_Done (world m')).2 = None -> ensureClient m' = (with_world m' (ctx_Done (world m')).1, Ok ())).
Proof.
  intros Hm He Hc. split.
  - unfold ensureClient in He. rewrite run_bind_ok in He.
    pose proof (ctx_check_keeps client "context cancelled before client initialization" m) as K1.
    destruct (ctx_check _ m) as [m1 [[]|e1]]; cbn [fst snd] in K1, He; [|injection He as <- <-; congruence].
    rewrite run_bind in He. unfold get in He. cbn [fst snd] in He. rewrite K1, Hm in He. rewrite run_bind_ok in He.
    pose proof (ctx_check_keeps client "context cancelled during client initialization" m1) as K2.
    destruct (ctx_check _ m1) as [m2 [[]|e2]]; cbn [fst snd] in K2, He; [|injection He as <- <-; congruence].
    rewrite run_bind_ok in He.
    assert (K3 : client (wrap "account key" loadOrCreateAccountKey m2).1 = client m2) by (apply keeps_wrap, account_key_keeps, client_apart).
    destruct (wrap "account key" loadOrCreateAccountKey m2) as [m3 [key|e3]]; cbn [fst snd] in K3, He; [|injection He as <- <-; congruence].
    rewrite !run_bind in He. set (m4 := (set_client key m3).1) in He.
    pose proof (cached_account_keeps client key m4) as K4. destruct (cached_account key m4) as [m5 good]. cbn [fst snd] in K4, He.
    destruct good; [done|]. by exists key, m5.
  - intros Hd. unfold ensureClient, ctx_check, wrap, checked, bind_ok, bind, outside, ret, get.
    destruct (ctx_Done (world m')) as [w1 o]. cbn in Hd. subst o. unfold with_world. cbn. destruct (client m'); [done|congruence].
Qed.

(** ** The cache *)

Section cache.
Context (b : list string) (d : string) (ds : list string).
Context (Hb : Forall plain b) (Hne : b <> []) (Hdir : CacheDir cfg = path_string b) (Hds : Domains cfg = d :: ds)
  (Hv : validateDomainFormat d = None).

Definition cache_file (suffix : string) : string := path_string (b ++ [cachePrefix (d :: ds) +:+ suffix]).

Lemma cache_path_ok suffix m : suffix = ".crt" \/ suffix = ".key" -> cache_path suffix m = (m, Ok (cache_file suffix)).
Proof.
  intros Hs. unfold cache_path. rewrite Hdir, Hds. by rewrite safeCachePath_name by (done || by apply cache_name_plain).
Qed.

Lemma cache_files_differ : cache_file ".crt" <> cache_file ".key" /\ cache_file ".crt" <> cache_file ".key" +:+ ".tmp" /\
  cache_file ".key" <> cache_file ".crt" +:+ ".tmp".
Proof.
  assert (E : forall s c, exists t, cache_file (s +:+ String c "") = t +:+ String c "").
  { intros s c. exists ("/" +:+ (String.concat "/" b +:+ ("/" +:+ (cachePrefix (d :: ds) +:+ s)))). unfold cache_file, path_string.
    rewrite concat_snoc by done. change (String "/" (?x +:+ ?y)) with ("/" +:+ (x +:+ y)). by rewrite !string_app_assoc. }
  assert (Hs : forall t c u, t +:+ String c "" = u -> HasSuffix u (String c "") = true) by (intros t c u <-; rewrite HasSuffix_snoc; apply Ascii.eqb_refl).
  destruct (E ".cr" "t"%char) as [t Ht], (E ".ke" "y"%char) as [u Hu]. change (".cr" +:+ "t") with ".crt" in Ht. change (".ke" +:+ "y") with ".key" in Hu.
  assert (Htmp : forall x, x +:+ ".tmp" = (x +:+ ".tm") +:+ "p") by (intros x; by rewrite <- string_app_assoc).
  rewrite !Htmp, Ht, Hu. repeat split; intros F; apply Hs in F; by rewrite HasSuffix_snoc in F.
Qed.

Lemma cacheCert_writes c k kp m : PrivateKey c = Some k -> key_PEM k = Ok kp ->
  cacheCert c m = (checked (write_atomic (cache_file ".key") kp "write temp key" "rename key file") ;*
    checked (write_atomic (cache_file ".crt") (cert_PEM c) "write temp cert" "rename cert file")) m.
Proof.
  intros Hk Hp. unfold cacheCert.
  rewrite (bind_ok_ok _ _ _ _ _ (wrap_ok _ _ _ _ _ (cache_path_ok ".crt" m (or_introl eq_refl)))).
  rewrite (bind_ok_ok _ _ _ _ _ (wrap_ok _ _ _ _ _ (cache_path_ok ".key" m (or_intror eq_refl)))).
  rewrite Hk, (bind_ok_ok (not_nil _ (Some k)) _ m m k eq_refl), (bind_ok_ok (ret (key_PEM k)) _ m m kp) by (unfold ret; by rewrite Hp). done.
Qed.

(** The next two reads are not disturbed. *)
Definition undisturbed (m : manager) : Prop := (fault (world m)).2 = None /\ (fault (fault (world m)).1).2 = None.

Lemma read_ok m path data : (fault (world m)).2 = None -> files m !! path = Some data ->
  os_ReadFile path m = (with_world m (fault (world m)).1, Ok data).
Proof.
  intros Hf Hd. unfold os_ReadFile, bind, outside, get, ret, with_world. destruct (fault (world m)) as [w e]. cbn in *. subst e. by rewrite Hd.
Qed.

(** The files of a certificate are never mixed within one attempt: whatever
    operation on them fails, each of the two is as it was or whole, the
    certificate is not written before its key, and the answer is no error exactly
    when both are there.  What was written is then read back, as long as the
    library reads its own encodings. *)
Theorem cache_keeps_pairs c k kp m :
  PrivateKey c = Some k -> key_PEM k = Ok kp ->
  let m' := (cacheCert c m).1 in
  match (cacheCert c m).2 with
  | Ok _ => files m' !! cache_file ".key" = Some kp /\ files m' !! cache_file ".crt" = Some (cert_PEM c)
  | Err _ => (files m' !! cache_file ".key" = files m !! cache_file ".key" \/ files m' !! cache_file ".key" = Some kp) /\
             files m' !! cache_file ".crt" = files m !! cache_file ".crt"
  end /\
  forall l,
    (cacheCert c m).2 = Ok () -> X509KeyPair (cert_PEM c) kp = Some c -> leaf_of c = Ok l -> certMatchesDomains (Domains cfg) (DNSNames l) = true ->
    undisturbed m' -> (loadCachedCert m').2 = Ok (with_leaf c l, NotAfter l).
Proof.
  intros Hk Hp. destruct cache_files_differ as (D1 & D2 & D3).
  rewrite (cacheCert_writes c k kp) by done. rewrite run_bind_ok, run_checked.
  pose proof (write_atomic_spec (cache_file ".key") kp "write temp key" "rename key file" m) as [K1 O1].
  destruct (write_atomic (cache_file ".key") kp _ _ m) as [m1 r1]. cbn [fst snd] in *.
  assert (Ec : files m1 !! cache_file ".crt" = files m !! cache_file ".crt") by by apply O1.
  destruct r1 as [e|]; cbn [ok_unit fst snd]; [split; [split; [by left|done]|done]|].
  rewrite run_checked. cbn [fst snd].
  pose proof (write_atomic_spec (cache_file ".crt") (cert_PEM c) "write temp cert" "rename cert file" m1) as [K2 O2].
  destruct (write_atomic (cache_file ".crt") (cert_PEM c) _ _ m1) as [m2 r2]. cbn [fst snd] in *.
  assert (Ek : files m2 !! cache_file ".key" = Some kp) by (rewrite O2 by done; exact K1).
  destruct r2 as [e|]; cbn [ok_unit fst snd]; [split; [split; [by right|congruence]|done]|].
  split; [done|]. intros l _ Hx Hl Hm [F1 F2]. unfold loadCachedCert.
  rewrite (bind_ok_ok _ _ _ _ _ (wrap_ok _ _ _ _ _ (cache_path_ok ".crt" m2 (or_introl eq_refl)))).
  rewrite (bind_ok_ok _ _ _ _ _ (wrap_ok _ _ _ _ _ (cache_path_ok ".key" m2 (or_intror eq_refl)))).
  rewrite (bind_ok_ok _ _ _ _ _ (read_ok m2 _ _ F1 K2)).
  rewrite (bind_ok_ok _ _ _ _ _ (read_ok (with_world m2 (fault (world m2)).1) _ _ F2 Ek)).
  rewrite Hx. unfold bind_ok. rewrite run_bind. unfold ret at 1 2. cbn [fst snd]. rewrite Hl, Hm. done.
Qed.
End cache.
End acme.

(** ** An example *)

Definition toy_leaf : leaf_certificate := mkLeaf ["example.com"; "*.example.com"] (365 * 24 * Hour).

(** Every call succeeds, but registering where [registers] is false; the world is
    the clock. *)
#[local] Instance toy_env (registers : bool) : Env (W := Z) (Key := nat) := {
  Now w := (w, w);
  ctx_Done w := (w, None);
  ctx_Deadline := None;
  sleep_or_done d w := (w + d, None);
  fault w := (w, None);
  write_fault _ w := (w, None);
  GetReg _ _ w := (w, Err (External "no account"));
  Register _ _ w := (w, if registers then Ok (Some "https://acme/1") else Err (External "rate limited"));
  AuthorizeOrder _ _ w := (w, Ok (Some (mkOrder ["authz/1"] "finalize/1")));
  GetAuthorization _ _ w := (w, Ok (Some (mkAuthz false "example.com" [mkChallenge "http-01" "t0"; mkChallenge "dns-01" "t1"])));
  DNS01ChallengeRecord _ token := Ok "0123456789012345678901234567890123456789012";
  Accept _ _ w := (w, None);
  WaitAuthorization _ _ w := (w, None);
  CreateOrderCert _ _ _ w := (w, Ok ["der"]);
  ChangeResourceRecordSets _ _ _ w := (w, Ok (Some "C1"));
  WaitChange _ w := (w + Minute, None);
  LookupTXT _ w := (w, if w <? 2 * Minute then None else Some ["0123456789012345678901234567890123456789012"]);
  GenerateKey w := (w, Ok 7%nat);
  CreateCertificateRequest _ _ w := (w, Ok "csr")
}.

#[local] Instance toy_codecs : Codecs (Key := nat) := {
  X509KeyPair _ _ := Some (mkCert ["der"] (Some 7%nat) (Some toy_leaf));
  ParseCertificate _ := Ok toy_leaf;
  kind _ := EC;
  ParseECPrivateKey _ := Some 7%nat;
  MarshalECPrivateKey _ := Ok "key";
  MarshalPKCS1PrivateKey _ := "key";
  pem_Decode s := Some ("EC PRIVATE KEY", s);
  pem_Encode type s := s;
  account_Marshal uri := uri;
  account_Unmarshal s := Some s;
  url_Parse s := Some ("https", "acme")
}.

Definition toy_config : config := mkConfig ["*.example.com"; "example.com"] "a@example.com" "/certs" "/".
Definition toy_manager : manager (W := Z) (Key := nat) := mkManager None None zero_time ∅ 0 [].

(** A first attempt obtains a certificate, stores it and leaves no record. *)
Example obtains_first :
  let '(m, r) := doObtainCertificate (H := toy_env true) toy_config toy_manager in
  r = Ok (mkCert ["der"] (Some 7%nat) (Some toy_leaf)) /\ certExpiry m = NotAfter toy_leaf /\
  files m !! "/certs/wildcard.example.com.crt" = Some "der" /\ files m !! "/certs/account.key" = Some "key" /\ length (log m) = 3%nat /\ zone (log m) = ∅.
Proof. by vm_compute. Qed.

#[local] Instance toy_clock registers : Clock (H := toy_env registers) (fun w => w).
Proof. split; intros; cbn in *; try done; lia. Qed.

Lemma propagation_ends_witness :
  (waitForDNSPropagation (H := toy_env true) "_acme-challenge.example.com" "value" toy_manager).2 <> Err OutOfFuel.
Proof. exact (proj2 (propagation_ends (H := toy_env true) (fun w => w) 0 "_acme-challenge.example.com" "value" toy_manager)). Defined.


Lemma records_cleaned_witness :
  let m := (doObtainCertificate (H := toy_env true) toy_config toy_manager).1 in
  let v := String "034" ("0123456789012345678901234567890123456789012" +:+ String "034" "") in
  log m !! 2%nat = Some (Changed Delete "_acme-challenge.example.com." v (Ok (Some "C1"))) /\
  exists new, log m = [] ++ new /\
    (forall name value, (name, value) ∈ zone new ->
      (exists e, Changed Delete name value (Err e) ∈ new) \/
      (exists i id, new !! i = Some (Changed Upsert name value (Ok id)) /\ unconfirmed id (drop (S i) new))).
Proof.
  intros m v. split; [by vm_compute|]. destruct (records_cleaned (H := toy_env true) toy_config toy_manager) as (new & E & _ & Hz).
  exists new. by split.
Defined.

Lemma failed_registration_forgotten_witness :
  let first := ensureClient (H := toy_env false) toy_config toy_manager in
  first.2 = Err (Wrapped "register account" (External "rate limited")) /\
  (ensureClient (H := toy_env false) toy_config first.1).2 = Ok ().
Proof.
  intros first. assert (H1 : first.2 = Err (Wrapped "register account" (External "rate limited"))) by by vm_compute.
  assert (H2 : client first.1 <> None) by by vm_compute.
  assert (H3 : (ctx_Done (Env := toy_env false) (world first.1)).2 = None) by done.
  split; [exact H1|]. assert (E : ensureClient (H := toy_env false) toy_config toy_manager = (first.1, first.2)) by apply surjective_pairing.
  rewrite H1 in E. exact (f_equal snd (proj2 (failed_registration_forgotten (H := toy_env false) toy_config toy_manager first.1 _ eq_refl E H2) H3)).
Defined.

Lemma cache_keeps_pairs_witness :
  (loadCachedCert (H := toy_env true) toy_config
     (cacheCert (H := toy_env true) toy_config (mkCert ["der"] (Some 7%nat) (Some toy_leaf)) toy_manager).1).2 =
  Ok (mkCert ["der"] (Some 7%nat) (Some toy_leaf), NotAfter toy_leaf).
Proof.
  refine (proj2 (cache_keeps_pairs (H := toy_env true) toy_config ["certs"] "*.example.com" ["example.com"] _ _ eq_refl eq_refl _
    (mkCert ["der"] (Some 7%nat) (Some toy_leaf)) 7%nat "key" toy_manager eq_refl eq_refl) toy_leaf _ eq_refl eq_refl _ _);
    [repeat constructor; by vm_compute|done|by vm_compute|by vm_compute|by vm_compute|by vm_compute].
Defined.
