(* ===== verification/Renewal.v ===== *)
(** * Renewing certificates

    [GetCertificate] of [src/server/acmedns.go] with any number of callers: the
    valid certificate, the flag and the condition variable that let one of them
    renew it while the others wait.

    What is done under [renewMu] is one step, but for [Wait], which gives the mutex
    back: a caller in [Waiting] is asleep, [Woken] after a broadcast and before it
    has the mutex again.  [doObtainCertificate] is [Acme]'s; here it ends at any
    time with a certificate, which it has stored, or with an error or a panic,
    which leave the stored one ([Acme.obtain_stores]).  Steps have the time at
    which they read the clock. *)

From stdpp Require Import list numbers relations.
From S2P Require Import Prelude.

#[local] Open Scope list_scope.

Section renewal.
Context {C : Type}.

Definition renewalBuffer : Duration := 30 * 24 * Hour.

Inductive answer : Type := Certificate (c : C) | Failed.

Inductive pc : Type := Start | Locking | Waiting | Woken | Obtaining | Ending (a : answer) | Returned (a : answer).

Record state := mkState { stored : option (C * Time); renewing : bool; callers : list pc }.

(** [cert != nil && time.Now().Add(renewalBuffer).Before(expiry)]. *)
Definition valid (now : Time) (s : state) : option C :=
  match stored s with
  | Some (c, expiry) => if time_Before (time_Add now renewalBuffer) expiry then Some c else None
  | None => None
  end.

(** The first look, without the mutex of renewals. *)
Definition fast_path (now : Time) (s : state) : pc :=
  match valid now s with Some c => Returned (Certificate c) | None => Locking end.

(** With the mutex: wait, return the certificate that came meanwhile, or renew. *)
Definition with_mutex (now : Time) (s : state) : bool * pc :=
  if renewing s then (true, Waiting)
  else match valid now s with Some c => (false, Returned (Certificate c)) | None => (true, Obtaining) end.

Definition wake (p : pc) : pc := match p with Waiting => Woken | p => p end.

Definition move (i : nat) (p : pc) (s : state) : state := mkState (stored s) (renewing s) (<[i := p]> (callers s)).

(** The deferred function: the flag, the broadcast, and the answer. *)
Definition finish (i : nat) (a : answer) (s : state) : state :=
  mkState (stored s) false (<[i := Returned a]> (map wake (callers s))).

(** A step of one of the callers. *)
Inductive step (now : Time) : state -> state -> Prop :=
  | step_fast i s : callers s !! i = Some Start -> step now s (move i (fast_path now s) s)
  | step_lock i p s : callers s !! i = Some p -> p = Locking \/ p = Woken ->
      step now s (mkState (stored s) (with_mutex now s).1 (<[i := (with_mutex now s).2]> (callers s)))
  | step_obtained i c expiry s : callers s !! i = Some Obtaining ->
      step now s (mkState (Some (c, expiry)) (renewing s) (<[i := Ending (Certificate c)]> (callers s)))
  | step_failed i s : callers s !! i = Some Obtaining -> step now s (move i (Ending Failed) s)
  | step_finish i a s : callers s !! i = Some (Ending a) -> step now s (finish i a s).

(** Whether the background goroutine asks for the certificate, [expiry] being what
    it read: the zero time before there is one. *)
Definition checkAndRenewIfNeeded (now : Time) (s : state) : bool :=
  time_After (time_Add now renewalBuffer) (match stored s with Some (_, expiry) => expiry | None => zero_time end).

(** What others do: a new call, [ForceRenewal] forgetting the certificate, and
    [PreWarm], which stores one without the flag. *)
Inductive other : state -> state -> Prop :=
  | other_call s : other s (mkState (stored s) (renewing s) (callers s ++ [Start]))
  | other_forget s : other s (mkState None (renewing s) (callers s))
  | other_prewarm c expiry s : other s (mkState (Some (c, expiry)) (renewing s) (callers s)).

Definition any_step (s s' : state) : Prop := (exists now, step now s s') \/ other s s'.
Definition own_step (s s' : state) : Prop := exists now, step now s s'.

Definition initial : state := mkState None false [].

(** ** Lemmas *)

Definition renews (p : pc) : nat := match p with Obtaining | Ending _ => 1 | _ => 0 end.
Definition renewers (s : state) : nat := sum_list_with renews (callers s).

(** One renews exactly while the flag is set, and nobody sleeps otherwise. *)
Definition inv (s : state) : Prop :=
  renewers s = (if renewing s then 1 else 0)%nat /\ (Waiting ∈ callers s -> renewing s = true).

Lemma renewers_insert (l : list pc) i p q : l !! i = Some p ->
  (sum_list_with renews (<[i := q]> l) + renews p = sum_list_with renews l + renews q)%nat.
Proof. apply sum_insert. Qed.

Lemma renews_wake l : sum_list_with renews (map wake l) = sum_list_with renews l.
Proof. induction l as [|p l IH]; [done|]. cbn. rewrite IH. by destruct p. Qed.

Lemma waiting_insert (l : list pc) i p q : l !! i = Some p -> q <> Waiting -> Waiting ∈ <[i := q]> l -> Waiting ∈ l.
Proof.
  intros Hi Hq Hw. apply list_elem_of_lookup in Hw as [j Hj]. destruct (decide (i = j)) as [->|Hne].
  - rewrite list_lookup_insert_eq in Hj by by eapply lookup_lt_Some. congruence.
  - rewrite list_lookup_insert_ne in Hj by done. by eapply list_elem_of_lookup_2.
Qed.

Lemma wake_lookup l i a : l !! i = Some (Ending a) -> map wake l !! i = Some (Ending a).
Proof. intros Hi. change (map wake l) with (wake <$> l). by rewrite list_lookup_fmap, Hi. Qed.

Lemma waiting_wake l : Waiting ∉ map wake l.
Proof. intros (p & E & _)%list_elem_of_fmap. by destruct p. Qed.

Lemma renewal_step now s s' : inv s -> step now s s' -> inv s'.
Proof.
  intros [Hr Hw] Hs. unfold inv, renewers in *. destruct Hs as [i s Hi|i p s Hi Hp|i c e s Hi|i s Hi|i a s Hi]; cbn [callers renewing move finish] in *.
  - unfold fast_path. pose proof (renewers_insert _ _ _ (match valid now s with Some c => Returned (Certificate c) | None => Locking end) Hi) as E.
    split; [destruct (valid now s); cbn in E; lia|]. intros Hin. apply Hw. eapply waiting_insert; [done| |done]. by destruct (valid now s).
  - pose proof (renewers_insert _ _ _ (with_mutex now s).2 Hi) as E. unfold with_mutex in *.
    assert (renews p = 0%nat) as Ep by by destruct Hp as [-> | ->]. rewrite Ep in E.
    destruct (renewing s) eqn:Er; cbn [fst snd] in *; [split; [cbn in E; lia|done]|].
    destruct (valid now s); cbn in *; (split; [lia|]); [|done]. intros Hin. apply Hw. eapply (waiting_insert _ _ _ _ Hi); [|exact Hin]; done.
  - pose proof (renewers_insert _ _ _ (Ending (Certificate c)) Hi) as E. cbn in E. split; [lia|]. intros Hin. apply Hw. eapply (waiting_insert _ _ _ _ Hi); [|exact Hin]; done.
  - pose proof (renewers_insert _ _ _ (Ending Failed) Hi) as E. cbn in E. split; [lia|]. intros Hin. apply Hw. eapply (waiting_insert _ _ _ _ Hi); [|exact Hin]; done.
  - assert (Hi' : map wake (callers s) !! i = Some (Ending a)) by by apply wake_lookup.
    pose proof (renewers_insert _ _ _ (Returned a) Hi') as E. rewrite renews_wake in E. cbn in E.
    split; [destruct (renewing s); lia|]. intros Hin. apply (waiting_insert _ _ _ _ Hi') in Hin; [|done]. by apply waiting_wake in Hin.
Qed.

Lemma inv_other s s' : inv s -> other s s' -> inv s'.
Proof.
  intros [Hr Hw] Hs. unfold inv, renewers in *. destruct Hs as [s| |]; cbn [callers renewing] in *; [|done|done].
  rewrite sum_list_with_app. cbn. split; [lia|]. intros [Hin|Hin]%elem_of_app; [by apply Hw|]. by apply list_elem_of_singleton in Hin.
Qed.

Lemma renewal_reachable s : rtc any_step initial s -> inv s.
Proof.
  intros Hs. apply (rtc_ind_r (fun s => inv s)) in Hs; [done| |].
  - split; [done|]. by intros ?%elem_of_nil.
  - intros s1 s2 _ [[now H]|H] Hi; [by eapply renewal_step|by eapply inv_other].
Qed.

(** A bound on the steps that are left: a caller that wakes the others pays for
    their looking again. *)
Definition weight (n : nat) (p : pc) : nat :=
  match p with
  | Start => n + 5
  | Locking | Woken => n + 4
  | Waiting => n + 3
  | Obtaining => n + 2
  | Ending _ => n + 1
  | Returned _ => 0
  end.

Definition measure (s : state) : nat := sum_list_with (weight (length (callers s))) (callers s).

Lemma weight_wake n l : (sum_list_with (weight n) (map wake l) <= sum_list_with (weight n) l + length l)%nat.
Proof. induction l as [|p l IH]; [done|]. cbn. destruct p; cbn; lia. Qed.

Lemma weight_insert n (l : list pc) i p q : l !! i = Some p ->
  (sum_list_with (weight n) (<[i := q]> l) + weight n p = sum_list_with (weight n) l + weight n q)%nat.
Proof. apply sum_insert. Qed.

Lemma step_callers now s s' : step now s s' -> length (callers s') = length (callers s).
Proof. destruct 1; cbn; by rewrite ?length_insert, ?length_map. Qed.

Lemma step_measure now s s' : step now s s' -> (measure s' < measure s)%nat.
Proof.
  intros Hs. unfold measure. rewrite (step_callers now s s' Hs). set (n := length (callers s)).
  destruct Hs as [i s Hi|i p s Hi Hp|i c e s Hi|i s Hi|i a s Hi]; cbn [callers move finish] in *.
  - pose proof (weight_insert n _ _ _ (fast_path now s) Hi) as E. unfold fast_path in *. destruct (valid now s); cbn in E; lia.
  - pose proof (weight_insert n _ _ _ (with_mutex now s).2 Hi) as E. unfold with_mutex in *.
    destruct Hp as [-> | ->], (renewing s); try destruct (valid now s); cbn in E |- *; lia.
  - pose proof (weight_insert n _ _ _ (Ending (Certificate c)) Hi) as E. cbn in E. lia.
  - pose proof (weight_insert n _ _ _ (Ending Failed) Hi) as E. cbn in E. lia.
  - assert (Hi' : map wake (callers s) !! i = Some (Ending a)) by by apply wake_lookup.
    pose proof (weight_insert n _ _ _ (Returned a) Hi') as E. pose proof (weight_wake n (callers s)) as Hw. cbn in E. fold n in Hw. lia.
Qed.

Lemma steps_measure s s' n : nsteps own_step n s s' -> (measure s' + n <= measure s)%nat.
Proof. induction 1 as [|n s1 s2 s3 [now H] _ IH]; [lia|]. apply step_measure in H. lia. Qed.

Lemma own_inv s s' : rtc own_step s s' -> inv s -> inv s'.
Proof. intros Hs. induction Hs as [|s1 s2 s3 [now H] _ IH]; [done|]. intros Hi. apply IH. by eapply renewal_step. Qed.

Definition is_returned (p : pc) : Prop := exists a, p = Returned a.

(** Whoever has not returned can move, or somebody renews. *)
Lemma progress s : inv s -> (forall s', ~ own_step s s') -> Forall is_returned (callers s).
Proof.
  intros [Hr Hw] Hn. apply list.Forall_forall. intros p Hp.
  assert (Hno : forall i, callers s !! i <> Some Obtaining /\ forall a, callers s !! i <> Some (Ending a)).
  { intros i. split; [intros Hi|intros a Hi]; eapply Hn; exists 0; [by eapply step_failed|by eapply step_finish]. }
  assert (Hidle : renewing s = false).
  { destruct (renewing s); [|done]. exfalso. unfold renewers in Hr.
    assert (Hz : sum_list_with renews (callers s) = 0%nat); [|lia]. clear -Hno. induction (callers s) as [|p l IH]; [done|]. cbn.
    rewrite IH by (intros i; apply (Hno (S i))). destruct (Hno 0%nat) as [H1 H2]. destruct p; cbn in *; try done. by specialize (H2 a). }
  apply list_elem_of_lookup in Hp as [i Hi]. destruct p as [| | | | |a|a]; [| | | | | |by exists a]; exfalso.
  - eapply Hn. exists 0. by eapply step_fast.
  - eapply Hn. exists 0. eapply step_lock; [done|by left].
  - assert (Hin : Waiting ∈ callers s) by by eapply list_elem_of_lookup_2. apply Hw in Hin. congruence.
  - eapply Hn. exists 0. eapply step_lock; [done|by right].
  - by apply (Hno i).
  - by apply (Hno i) in Hi.
Qed.

Lemma background_stale now s : valid now s <> None -> checkAndRenewIfNeeded now s = false.
Proof.
  unfold valid, checkAndRenewIfNeeded. destruct (stored s) as [[c e]|]; [|done]. unfold time_Before, time_After.
  destruct (Z.ltb_spec (time_Add now renewalBuffer) e); [|done]. intros _. apply Z.ltb_ge. lia.
Qed.

(** ** Theorems *)

(** At most one caller renews the certificate: whatever calls, forced renewals and
    pre-warming do, exactly one caller is between setting the flag and the
    deferred function while the flag is set and none while it is not; and nobody
    sleeps on the condition variable unless there is somebody to wake him. *)
Theorem one_renews s :
  rtc any_step initial s ->
  renewers s = (if renewing s then 1 else 0)%nat /\
  (Waiting ∈ callers s -> exists i p, callers s !! i = Some p /\ (p = Obtaining \/ exists a, p = Ending a)).
Proof.
  intros Hs. destruct (renewal_reachable s Hs) as [Hr Hw]. split; [done|]. intros Hin. rewrite (Hw Hin) in Hr. unfold renewers in Hr.
  revert Hr. clear. induction (callers s) as [|p l IH]; [done|]. intros Hr. destruct (decide (renews p = 0%nat)) as [E|E].
  - destruct IH as (i & q & Hq); [cbn in Hr; lia|]. by exists (S i), q.
  - exists 0%nat, p. split; [done|]. destruct p; try done; [by left|right; eauto].
Qed.

(** C15. Everybody is answered: from any state the callers make at most [measure] steps,
    however attempts end and however long they take, and they come to rest only
    when each of them has returned. *)
Theorem everybody_returns s n s' :
  rtc any_step initial s -> nsteps own_step n s s' ->
  (n <= measure s)%nat /\ ((forall s'', ~ own_step s' s'') -> Forall is_returned (callers s')).
Proof.
  intros Hs Hn. split; [apply steps_measure in Hn; lia|]. intros Hr. apply progress; [|done].
  eapply own_inv; [apply rtc_nsteps; by exists n|by apply renewal_reachable].
Qed.

(** A step at a time up to [T]. *)
Definition step_by (T : Time) (s s' : state) : Prop := exists now, now <= T /\ step now s s'.

Definition answered_with (c : C) (p : pc) : Prop := p <> Obtaining /\ p <> Ending Failed /\ (forall c', p = Ending (Certificate c') -> c' = c).
Definition asks_or_has (c : C) (p : pc) : Prop :=
  match p with Start | Locking | Waiting | Woken => True | Returned a | Ending a => a = Certificate c | Obtaining => False end.

Lemma valid_by T now c e s : stored s = Some (c, e) -> T + renewalBuffer < e -> now <= T -> valid now s = Some c.
Proof.
  intros Hs He Hn. unfold valid. rewrite Hs. unfold time_Before, time_Add. by rewrite (proj2 (Z.ltb_lt _ _)) by lia.
Qed.

Lemma shared_step T c e s s' :
  T + renewalBuffer < e -> stored s = Some (c, e) -> Forall (answered_with c) (callers s) -> step_by T s s' ->
  stored s' = Some (c, e) /\ Forall (answered_with c) (callers s') /\
  forall i p, callers s !! i = Some p -> asks_or_has c p -> exists p', callers s' !! i = Some p' /\ asks_or_has c p'.
Proof.
  intros He Hst Hf (now & Hn & Hs). pose proof (fun s H => valid_by T now c e s H He Hn) as Hv.
  assert (Hget : forall (l : list pc) i p q j r, l !! i = Some p -> l !! j = Some r -> asks_or_has c r -> (asks_or_has c p -> asks_or_has c q) ->
    exists p', <[i := q]> l !! j = Some p' /\ asks_or_has c p').
  { intros l i p q j r Hi Hj Hr Hq. destruct (decide (i = j)) as [->|Hne].
    - exists q. rewrite list_lookup_insert_eq by by eapply lookup_lt_Some. split; [done|]. apply Hq. congruence.
    - exists r. by rewrite list_lookup_insert_ne. }
  destruct Hs as [i s Hi|i p s Hi Hp|i c' e' s Hi|i s Hi|i a s Hi]; cbn [stored callers move finish].
  - unfold fast_path. rewrite Hv by done. split; [done|]. split; [by apply Forall_insert|]. intros j r Hj Hr. by eapply Hget.
  - unfold with_mutex. rewrite (Hv s) by done. split; [done|].
    destruct (renewing s); cbn [snd]; (split; [by apply Forall_insert|]); intros j r Hj Hr; by eapply Hget.
  - exfalso. eapply Forall_lookup_1 in Hf as [Hf _]; [|exact Hi]. done.
  - exfalso. eapply Forall_lookup_1 in Hf as [Hf _]; [|exact Hi]. done.
  - split; [done|]. split.
    + apply Forall_insert; [|done]. apply list.Forall_forall. intros p (q & -> & Hq)%list_elem_of_fmap.
      rewrite list.Forall_forall in Hf. specialize (Hf q Hq). by destruct q.
    + intros j r Hj Hr. eapply (Hget _ _ (wake (Ending a)) _ _ (wake r)); [by apply wake_lookup| |by destruct r|done].
      change (map wake (callers s)) with (wake <$> callers s). by rewrite list_lookup_fmap, Hj.
Qed.

(** One success serves all: once an attempt has stored a certificate that stays
    good, and no other attempt runs, nobody who calls or waits renews again: they
    are all answered with it. *)
Theorem success_shared T c e s s' i p :
  stored s = Some (c, e) -> T + renewalBuffer < e -> Forall (answered_with c) (callers s) -> rtc (step_by T) s s' ->
  callers s !! i = Some p -> asks_or_has c p ->
  Forall (fun q => q <> Obtaining) (callers s') /\
  (forall a, callers s' !! i = Some (Returned a) -> a = Certificate c).
Proof.
  intros Hst He Hf Hs. revert p. induction Hs as [s|s1 s2 s3 H1 _ IH]; intros p Hi Hp.
  - split; [eapply list.Forall_impl; [exact Hf|]; by intros q []|]. intros a Ha. rewrite Hi in Ha. by injection Ha as ->.
  - destruct (shared_step T c e s1 s2 He Hst Hf H1) as (Hst2 & Hf2 & Hk). destruct (Hk i p Hi Hp) as (p' & Hi' & Hp').
    by apply (IH Hst2 Hf2 p').
Qed.
End renewal.

Lemma one_renews_witness :
  renewers (mkState (C := nat) None true [Obtaining; Waiting]) = 1%nat.
Proof.
  refine (proj1 (one_renews (mkState (C := nat) None true [Obtaining; Waiting]) _)).
  eapply rtc_l; [right; apply (other_call initial)|]. eapply rtc_l; [right; apply other_call|]. cbn.
  eapply rtc_l; [left; exists 0; by apply (step_fast 0 0)|]. eapply rtc_l; [left; exists 0; by apply (step_fast 0 1)|]. cbn.
  eapply rtc_l; [left; exists 0; eapply (step_lock 0 0); [done|by left]|]. cbn.
  eapply rtc_l; [left; exists 0; eapply (step_lock 0 1); [done|by left]|]. apply rtc_refl.
Defined.

Lemma everybody_returns_witness : (measure (mkState (C := nat) None false [Start; Start]) = 14)%nat /\
  ((forall s'', ~ own_step (mkState (C := nat) None false [Start; Start]) s'') ->
   Forall is_returned (callers (mkState (C := nat) None false [Start; Start]))).
Proof.
  split; [done|]. refine (proj2 (everybody_returns (mkState (C := nat) None false [Start; Start]) 0 _ _ _)); [|constructor].
  eapply rtc_l; [right; apply other_call|]. eapply rtc_l; [right; apply other_call|]. apply rtc_refl.
Defined.

Lemma success_shared_witness :
  Forall (fun q => q <> Obtaining) (callers (mkState (Some (5%nat, 60 * 24 * Hour)) false [Returned (Certificate 5%nat); Returned (Certificate 5%nat)])).
Proof.
  refine (proj1 (success_shared 0 5%nat (60 * 24 * Hour) (mkState (Some (5%nat, 60 * 24 * Hour)) true [Ending (Certificate 5%nat); Waiting])
    (mkState (Some (5%nat, 60 * 24 * Hour)) false [Returned (Certificate 5%nat); Returned (Certificate 5%nat)]) 1 Waiting eq_refl _ _ _ eq_refl I)).
  - by vm_compute.
  - repeat constructor; try done; congruence.
  - eapply rtc_l; [exists 0; split; [done|]; eapply (step_finish 0 0); done|]. cbn.
    eapply rtc_l; [exists 0; split; [done|]; eapply (step_lock 0 1); [done|by right]|]. apply rtc_refl.
Defined.

(** After a failure each of the others tries for himself. *)
Example failure_repeats :
  rtc own_step (mkState (C := nat) None false [Start; Start]) (mkState None false [Returned Failed; Returned Failed]).
Proof.
  eapply rtc_l; [exists 0; by apply (step_fast 0 0)|]. eapply rtc_l; [exists 0; by apply (step_fast 0 1)|]. cbn.
  eapply rtc_l; [exists 0; eapply (step_lock 0 0); [done|by left]|]. cbn.
  eapply rtc_l; [exists 0; eapply (step_lock 0 1); [done|by left]|]. cbn.
  eapply rtc_l; [exists 0; by eapply (step_failed 0 0)|]. cbn. eapply rtc_l; [exists 0; by eapply (step_finish 0 0)|]. cbn.
  eapply rtc_l; [exists 0; eapply (step_lock 0 1); [done|by right]|]. cbn.
  eapply rtc_l; [exists 0; by eapply (step_failed 0 1)|]. cbn. eapply rtc_l; [exists 0; by eapply (step_finish 0 1)|]. apply rtc_refl.
Qed.
